(* ===== verification/_CoqProject ===== *)
-Q . S2P
Prelude.v
MgFacts.v
MgSchema.v
MgDb.v
MgSeats.v
MgCallbacks.v
Signing.v
MgTransfers.v
MgRestore.v
MgSlots.v
MgFleet.v
MgLifecycle.v
MgLatches.v
MgAdmission.v
PushSchema.v
PushOutbox.v
PushDelivery.v
PushRegistrations.v
PushLimits.v
PushHooks.v
PushInvocations.v
PushSystem.v
PushRuns.v
PushOnce.v
PushWorker.v
PushAuth.v
PushHttp.v
PushServe.v
PushDemo.v
LmSchema.v
LmProg.v
LmWallet.v
LmAllocations.v
LmFunds.v
LmFunding.v
LmStability.v
LmManual.v
LmRequests.v
LmSystem.v
LmMachine.v
LmSteps.v
LmItems.v
LmTasks.v
LmOnce.v
LmCapacity.v
LmEvidence.v
LmDemo.v
FaSchema.v
FaQuotes.v
FaStore.v
FaProg.v
FaCalls.v
FaDriver.v
FaFormation.v
FaLogic.v
FaInvariant.v
FaViews.v
FaWf.v
FaReadable.v
FaSteps.v
FaCalm.v
FaReserve.v
FaPrepare.v
FaAcquire.v
FaFund.v
FaWave.v
FaForming.v
FaDriving.v
FaEntries.v
FaTheorems.v
FaDemo.v
FaLiquidity.v
FaBackup.v
FaUpkeep.v
FaKeeping.v
FaKeepRuns.v
FaKeepSafe.v
FaKeepDocs.v
FaKeepDemo.v
