(* ===== verification/Prelude.v ===== *)
(** * Manifold: a verification development

    Manifold sells guardian seats, funds federations and delivers push
    notifications.  Three services and one client keep their promises in a
    database, and this library models them as their code is written and proves
    what they promise.

    The _Manifold Guardian_ ([crates/mg/core]) is run by an operator.  It quotes
    seats, sells each quote at most once to a federation assembler (FA), runs
    the ceremony that forms a federation, reports completion through a callback
    and moves seats to another guardian.  Its facts are rows of SQLite tables
    written by [db.rs], [db/seats.rs] and [db/transfers.rs].  Requests between
    the parties are signed envelopes ([crates/service-manifold-guardian]).

    The _push gateway_ ([crates/push-gateway], [crates/push-gateway-storage])
    registers app installations, hands out hooks (bearer URLs that notify one
    installation), turns an invocation of a hook into a row of a delivery
    outbox, and a worker delivers those rows through a provider.  Its requests
    are signed per call, limited per source and applied by repositories over
    seven tables.

    The _liquidity manager_ (FLIP, [crates/liquidity-manager-daemon]) holds a
    provider's wallet.  It admits liquidity requests against the wallet's
    balance, and two workers fund the admitted items on chain, through the
    provider's gateway or into a federation's stability pool; operators withdraw,
    retry, cancel, release and resolve sends in doubt.  Its wallet (gatewayd) has
    no idempotency key, so the daemon fences every irreversible call with a
    statement of its database, and all its tasks run at once.

    The _federation assembler client_ ([crates/fa-client]) buys the seats of one
    federation.  It collects signed quotes, has their total authorized, reserves
    it in the consumer's wallet, pays and presents each quote, runs the ceremony
    with all guardians and publishes the federation's metadata.  It may be
    killed anywhere and resumed by another process, so every step that moves
    value is written down first, under a lease that one driver holds at a time.
    For the federation it formed it asks a liquidity provider (FLIP) for funds,
    moves guardians, and publishes encrypted recovery documents that another
    device can take the federation over from.

    ** How code is represented

    A Rust integer is a [Z] with its range and overflow behaviour written out
    (below).  Fallible code returns [res E A]: a value, an error or a panic.  A
    transaction is a [Tx S E A], a function from the state to a result and a
    new state, and [run_tx] keeps the old state unless it succeeds.  A table is
    a finite map from primary keys to records of columns; a violated constraint
    is an error.  Clock reads, random identifiers, answers of other services
    and the scheduler's choices are arguments, so each theorem holds for all of
    them.  Serializers are instances of [Codec]; signature schemes, hashes and
    parsers of third-party crates are section variables, with the documented
    properties a theorem needs as hypotheses.  Concrete instances and runs
    ([MgFleet.Demo], [MgTransfers.Moves], [PushDemo], [LmDemo], [FaDemo], [FaKeepDemo]) show
    that the hypotheses can be met.

    Where the order of effects between concurrent tasks is the point, code is a
    program ([LmProg.Daemon.Prog], [FaProg.Run.Prog], [FaUpkeep.Upkeep.Prog]): a tree of database
    statements and calls to other services, each answer arbitrary.  [act] lets
    any task take its next step, lose a statement to an error, start or crash,
    and records a trace; theorems quantify over all runs.

    ** The Manifold Guardian

    - [MgFacts]: [facts.rs] (port blocks, guardian code sets, callback states).
    - [MgSchema]: the tables and constraints of [migrations].
    - [MgDb]: [impl Db] of [db.rs] (offers, settings, onboarding, identity).
    - [MgSeats]: [db/seats.rs] (admission, claims, formation, decommissioning).
    - [MgCallbacks]: the delivery state of completion callbacks.
    - [Signing]: [signing.rs] (what is signed, and the order of checks).
    - [MgTransfers]: [db/transfers.rs], [transfer_state.rs] and [transfer.rs]
      (moving a seat).
    - [MgRestore]: backup publications and installing a restored fleet.
    - [MgSlots]: the closed form of [available_slots].
    - [MgFleet]: [fleet.rs] as a transition system over all operations, with
      signed quotes as ghost state; [MgLifecycle], [MgLatches] and
      [MgAdmission] prove its theorems.

    The theorems show what each outcome of an admission means, that admission
    never panics for a quote the fleet signed, that it is idempotent per quote
    and never oversells, that seats keep disjoint ports, that a withdrawn quote
    stays withdrawn, that a move is bound once and accepted once, and that
    identity, onboarding, formation, retirement and finished callbacks never
    regress, in every interleaving of operations.

    ** The push gateway

    - [PushSchema]: the tables, cascades, ordered selects and connections.
    - [PushOutbox]: [delivery_outbox.rs]; [PushDelivery] is the abstract state
      machine of one delivery and the proof that each operation follows it.
    - [PushRegistrations]: [push_registration_repository.rs].
    - [PushLimits]: [rate_limits.rs].
    - [PushHooks]: [hook_repository.rs], [hook_idempotency_repository.rs] and
      the transaction of [invoke_hook.rs]; [PushInvocations] states its
      outcomes.
    - [PushSystem]: all operations as one transition system with clocks and
      drawn identifiers; [PushRuns] and [PushOnce] prove what
      holds in every state and run.
    - [PushWorker]: [delivery_worker.rs] with the counters of
      [observability.rs].
    - [PushAuth]: [nostr_http_auth.rs]; [PushHttp]: the handlers of
      [register.rs], [hook_management.rs] and [invoke_hook.rs] with
      [validation.rs]; [PushServe]: what one served request may do.

    The theorems show that every operation refines the delivery state machine,
    that a claim takes the first due row and a superseded worker is fenced, that
    the deadline is absolute and outcomes are final, that an idempotency key is
    accepted once and a hook used within its budget, that an invocation is all
    or nothing, that the claiming loop ends, that a signed event is accepted
    once and the replay cache recovers, and that a served request is at most
    one operation, signed for, that leaves other recipients alone.

    ** The liquidity manager

    - [LmSchema]: the tables and unique indexes; [LmProg]: programs, calls, the
      interleaved system and its trace.
    - [LmWallet]: [wallet.rs] (operations, ticks, evidence, capacity sums).
    - [LmAllocations]: [allocation_store.rs].
    - [LmFunds]: [funds_admin.rs]; [LmFunding]: [allocation_funding.rs] and
      [gateway_allocation.rs]; [LmStability]: [stability_allocation.rs] and
      [target_recovery.rs]; [LmManual]: [manual_ops.rs]; [LmRequests]:
      [public.rs]; [LmSystem]: every entry point as one system.
    - [LmSystem.Logic]: a program logic whose typestate tracks what a task knows;
      [LmMachine]: the abstract machine of operations and items; [LmSteps] and
      [LmItems]: every statement is one of its moves; [LmTasks]: every entry
      point meets the logic, hence every run.

    [LmOnce] shows that statements refine the machine, that an operation is sent
    once per opening and an operator's intent once; [LmCapacity] that a debit is
    released only against a balance read after it settled and that admissions
    stay within the budget; [LmEvidence] that irreversible calls are
    fenced, that chain evidence is exclusive and that a release moves no
    budget.  [LmDemo] has the runs, two of which show departures from the
    documents: an operator withdrawal above the recorded balance, and a released
    federation whose next allocation fails.

    ** The federation assembler client

    - [FaSchema]: the records of [db.rs], [state.rs], [error.rs] and of quotes
      ([locked_payment.rs]); [FaQuotes]: verification and coherence of quotes,
      aggregates and their ids, admissions, and the checks of a stored formation.
    - [FaStore]: the transactions of [db.rs] and [load_recovery].
    - [FaProg]: programs over the store and the ports, with futures interleaved
      at every await, and the client as a step relation: start an entry point,
      take a step, lose a statement, crash, release a dropped lease.
    - [FaCalls]: calls under the lease, retries, quote requests and
      presentations ([mg.rs], [setup_payment_federations.rs], [formation.rs]).
    - [FaDriver]: quotes, reservation and [acquire_seats]; [FaFormation]: DKG,
      publication, [drive_formation] and the six entry points.
    - [FaLogic]: weakest preconditions for programs, sound for every run;
      [FaInvariant]: what holds of record, rows and trace after each step, what
      each call needs, and the documented behaviour of the ports.
    - [FaViews], [FaWf], [FaReadable], [FaSteps]: every transaction keeps the
      invariant and every invariant state can be read back; [FaCalm],
      [FaReserve], [FaPrepare], [FaAcquire], [FaFund], [FaWave],
      [FaForming], [FaDriving], [FaEntries]: so does every part of the driver,
      up to the entry points.
    - [FaTheorems] (modules [Assembler], [Ids], [Lease], [Stuck]) and [FaDemo]:
      the results.

    The theorems show, over all runs, that a payment is only ever generated for
    an authorized quote bound to its row after the output boundary is durable,
    that no paid quote is lost, that every payment has a prepared refund, that a
    reservation is released only when it is unused and an idle client holds
    none, that guardians are presented their own verified quotes, that DKG and
    votes use the recorded facts, that ids determine the aggregate, that rival
    drivers change nothing, and that every state a run can be left in loads
    back.  Those about runs assume what the ports document ([Inv.Answers]):
    fresh refunds, no payment reported that was not asked for, and prices that
    can be added up.  [FaDemo] shows that the code does not ensure the last one:
    a guardian that quotes an enormous price leaves a formation that can be
    neither read nor abandoned.

    Signatures and hashes ([Crypto]), setup-payment policies ([Policy]) and
    invites, binding directories and fee recipients ([Federation]) are
    parameters about which nothing is assumed.

    ** The formed federation

    - [FaLiquidity]: [liquidity.rs] and the journal of [db.rs]: intents, the
      checks of a provider's signed answers, what a stored request shows, the
      transactions and the paged search.
    - [FaBackup]: [backup.rs], the choice of [backup_worker.rs] and the backup
      transactions of [db.rs]: frame, numbering, restore, reconciliation.
    - [FaUpkeep]: the runs as programs: [start_liquidity], [resume_liquidity],
      the start of a guardian transfer, [resume] of a formed federation with
      [reconcile_formed], and [restore_from_relays].
    - [FaUpkeep.Keeper]: the client as a step relation: one run at a time under the run
      guard, statements of the backup workers beside it, formation and later
      transfer writes between runs, lost statements and crashes.
    - [FaKeeping]: what each transaction does to a row ([Journal]), and the
      invariant and weakest preconditions over the rows runs share;
      [FaKeepRuns]: every handler keeps it.
    - [FaKeepSafe], [FaKeepDocs] (with [Takeover]) and [FaKeepDemo]: the results.

    The theorems show, over all runs, that at most one request is live and none
    is unfinished while a transfer is open, that a request is only sent for a
    journaled row whose fate is open, that an acceptance is never lost, that
    expiry and attached gateways have their evidence, that recovery documents
    are ordered by generation and by event time, that what is sealed opens, and
    that another device which reads one up-to-date relay restores exactly the
    newest document.  They assume that reading the consensus of an invite's
    federation returns that federation ([Keeper.honest]), the laws of the codecs
    ([BackupCodecOk], [InvitesOk]) and, for documents, a digest without
    collisions ([CollisionFree]).  The order of documents needs that no seat of a
    restored record is rebound before its first document; the code does not
    ensure it ([rebinding_reuses_the_generation]).

    ** Bounds and fuel

    Loops over rows are structural.  The worker's claiming loop takes fuel, and
    [claiming_terminates] proves that free slots plus unreadable rows plus one
    is enough.  Time is kept as the code keeps it: seconds in [i64] with
    saturation where the code saturates; reachable states assume clocks that do
    not go back and fit [i64].  Programs of the liquidity manager are finite
    trees and need no fuel; the loops over items and operations recurse on the
    list that was read.  So are those of the assembler: a loop that the code runs
    until its deadline takes the number of its rounds from the environment,
    which may answer any number, and ends in the timeout the deadline gives;
    each check of the deadline may fail.  The paged search of the request journal
    takes as many pages as there are rows, which [Journal.find_live_Ok] proves to
    be enough.

    ** What is not modelled

    Network and process I/O (the RPC service, child processes, relays, the
    provider's HTTP client), the fedimint wallet and payouts, telemetry,
    developer tooling and the user interfaces; of the assembler the command line
    and its wallet adapters, discovery and selection of guardians (a sealed
    approval is an argument of the entry points), discovery of providers and
    trust material (calls with any answer), the delivery of documents to a
    relay, maintenance, the calls of a guardian transfer, decommissioning,
    durations, published progress other than whether a formed federation is
    fresh, and the JSON of its records, decoded in the model; of the liquidity manager
    the adapters to gatewayd, bitcoind and the target clients, request
    verification, setup validation, backups and advertisement.  Inside the
    modelled files: the floating-point uptime history, operational counters of
    requests, parsing of forwarded headers, the queueing of the write lock,
    whose answer is an argument, and text shown to operators. *)

From stdpp Require Import base gmap strings list sorting.
From Stdlib Require Import Ascii ZArith Lia.

Open Scope Z_scope.
#[export] Set Default Goal Selector "!".

(** ** Machine integers

    A Rust integer is a [Z] kept inside the range of its type.  The
    constants are the type bounds and the functions are the std operations
    the sources use: [try_from], [checked_add], [checked_mul],
    [saturating_add], [saturating_sub] and the [as] cast of [u64] to [i64]. *)

Definition u8_max : Z := 255.
Definition u16_max : Z := 65535.
Definition u32_max : Z := 4294967295.
Definition u64_max : Z := 18446744073709551615.
Definition i64_max : Z := 9223372036854775807.
Definition i64_min : Z := -9223372036854775808.

Definition in_range (lo hi z : Z) : bool := (lo <=? z) && (z <=? hi).

(** [T::try_from] for an unsigned type with maximum [hi]. *)
Definition try_from_u (hi z : Z) : option Z :=
  if in_range 0 hi z then Some z else None.

(** [i64::try_from]. *)
Definition try_from_i64 (z : Z) : option Z :=
  if in_range i64_min i64_max z then Some z else None.

Definition checked_add_u (hi a b : Z) : option Z := try_from_u hi (a + b).
Definition checked_mul_u (hi a b : Z) : option Z := try_from_u hi (a * b).
Definition saturating_add_u (hi a b : Z) : Z := Z.min hi (a + b).
Definition saturating_sub_u (a b : Z) : Z := Z.max 0 (a - b).
Definition saturating_add_i64 (a b : Z) : Z := Z.max i64_min (Z.min i64_max (a + b)).
Definition saturating_sub_i64 (a b : Z) : Z := Z.max i64_min (Z.min i64_max (a - b)).

(** [x as i64] for [x : u64]: two's complement reinterpretation. *)
Definition u64_as_i64 (z : Z) : Z := if z <=? i64_max then z else z - 2 ^ 64.

(** [x as u64] for [x : i64]. *)
Definition i64_as_u64 (z : Z) : Z := z mod 2 ^ 64.

(** ** Results

    [Panic] is an [assert!], [expect] or [unwrap] that fires; keeping it
    apart from [Err] lets theorems say that it does not happen. *)
Inductive res (E A : Type) : Type :=
| Ok (a : A)
| Err (e : E)
| Panic.
Arguments Ok {E A} a.
Arguments Err {E A} e.
Arguments Panic {E A}.

#[global] Instance res_ret {E} : MRet (res E) := fun _ a => Ok a.
#[global] Instance res_bind {E} : MBind (res E) := fun _ _ k c =>
  match c with Ok a => k a | Err e => Err e | Panic => Panic end.
#[global] Instance res_fmap {E} : FMap (res E) := fun _ _ f c =>
  match c with Ok a => Ok (f a) | Err e => Err e | Panic => Panic end.

#[global] Instance res_eq_dec {E A} `{EqDecision E, EqDecision A} : EqDecision (res E A).
Proof. solve_decision. Defined.

(** [opt.ok_or(e)] and [opt.expect(..)]. *)
Definition ok_or {E A} (e : E) (o : option A) : res E A :=
  match o with Some a => Ok a | None => Err e end.
Definition expect {E A} (o : option A) : res E A :=
  match o with Some a => Ok a | None => Panic end.

(** [opt.map(f).transpose()]. *)
Definition transpose_map {E A B} (f : A -> res E B) (o : option A) : res E (option B) :=
  match o with
  | None => Ok None
  | Some a => b ← f a; Ok (Some b)
  end.

(** [iter.map(f).collect::<Result<Vec<_>, _>>()]. *)
Fixpoint collect {E A B} (f : A -> res E B) (l : list A) : res E (list B) :=
  match l with
  | [] => Ok []
  | a :: l => b ← f a; bs ← collect f l; Ok (b :: bs)
  end.

(** ** Transactions

    A transaction body maps the database to the value it would commit.
    [run_tx] is [begin; body; commit]: an early [Err] or a panic drops the
    transaction, which rolls it back. *)
Definition Tx (S E A : Type) : Type := S -> res E (S * A).

#[global] Instance tx_ret {S E} : MRet (Tx S E) := fun _ a s => Ok (s, a).
#[global] Instance tx_bind {S E} : MBind (Tx S E) := fun _ _ k c s =>
  match c s with
  | Ok (s', a) => k a s'
  | Err e => Err e
  | Panic => Panic
  end.

Definition tx_get {S E A} (f : S -> A) : Tx S E A := fun s => Ok (s, f s).
Definition tx_put {S E} (f : S -> S) : Tx S E unit := fun s => Ok (f s, tt).
Definition tx_err {S E A} (e : E) : Tx S E A := fun _ => Err e.
Definition tx_panic {S E A} : Tx S E A := fun _ => Panic.
Definition tx_lift {S E A} (r : res E A) : Tx S E A := fun s => a ← r; Ok (s, a).

(** [for x in l { body(x)?; }]. *)
Fixpoint tx_for {S E A} (l : list A) (body : A -> Tx S E unit) : Tx S E unit :=
  match l with
  | [] => mret tt
  | a :: l => body a;; tx_for l body
  end.

Definition run_tx {S E A} (t : Tx S E A) (s : S) : S * res E A :=
  match t s with
  | Ok (s', a) => (s', Ok a)
  | Err e => (s, Err e)
  | Panic => (s, Panic)
  end.

(** ** Serialization interfaces

    A third-party (de)serializer the sources call (serde JSON, CBOR, hex key
    text) is an encoder and a decoder.  What the sources rely on is that a
    value they wrote reads back ([CodecOk]). *)
Class Codec (A : Type) := {
  enc : A -> string;
  dec : string -> option A
}.
Class CodecOk (A : Type) `{!Codec A} : Prop := dec_enc : ∀ a, dec (enc a) = Some a.

Lemma enc_inj {A} `{CodecOk A} (a b : A) : enc a = enc b → a = b.
Proof. intros Heq. apply (inj Some). by rewrite <- !dec_enc, Heq. Qed.

(** A concrete codec for any countable type: the bits of its code. *)
Fixpoint pos_to_bits (p : positive) : string :=
  match p with
  | xH => "h"
  | xO p => String "o"%char (pos_to_bits p)
  | xI p => String "i"%char (pos_to_bits p)
  end.
Fixpoint bits_to_pos (s : string) : option positive :=
  match s with
  | EmptyString => None
  | String c rest =>
      if bool_decide (c = "h"%char) then Some xH
      else if bool_decide (c = "o"%char) then xO <$> bits_to_pos rest
      else if bool_decide (c = "i"%char) then xI <$> bits_to_pos rest
      else None
  end.

Definition bits_codec (A : Type) `{Countable A} : Codec A :=
  {| enc a := pos_to_bits (encode a); dec s := bits_to_pos s ≫= decode |}.

Lemma bits_to_pos_to_bits p : bits_to_pos (pos_to_bits p) = Some p.
Proof. induction p as [p IH|p IH|]; cbn; rewrite ?IH; done. Qed.

Lemma bits_codec_ok (A : Type) `{Countable A} : @CodecOk A (bits_codec A).
Proof. intros a. cbn. rewrite bits_to_pos_to_bits. cbn. apply decode_encode. Qed.

(** ** Generic lemmas *)

Lemma res_bind_Ok {E A B} (c : res E A) (k : A -> res E B) b :
  (c ≫= k) = Ok b ↔ ∃ a, c = Ok a ∧ k a = Ok b.
Proof.
  destruct c; split; cbn; intros H; try naive_solver.
Qed.

Lemma tx_bind_Ok {S E A B} (c : Tx S E A) (k : A -> Tx S E B) s s' b :
  (c ≫= k) s = Ok (s', b) ↔ ∃ s1 a, c s = Ok (s1, a) ∧ k a s1 = Ok (s', b).
Proof.
  unfold mbind, tx_bind. destruct (c s) as [[s1 a]|e|]; naive_solver.
Qed.

Lemma tx_get_Ok {S E A} (f : S -> A) s s' a :
  tx_get (E:=E) f s = Ok (s', a) ↔ s' = s ∧ a = f s.
Proof. unfold tx_get. naive_solver. Qed.
Lemma tx_put_Ok {S E} (f : S -> S) s s' u :
  tx_put (E:=E) f s = Ok (s', u) ↔ s' = f s.
Proof. unfold tx_put. destruct u. naive_solver. Qed.
Lemma tx_lift_Ok {S E A} (r : res E A) (s s' : S) a :
  tx_lift r s = Ok (s', a) ↔ s' = s ∧ r = Ok a.
Proof. unfold tx_lift. destruct r; cbn; naive_solver. Qed.
Lemma tx_ret_Ok {S E A} (x : A) (s s' : S) a :
  (mret x : Tx S E A) s = Ok (s', a) ↔ s' = s ∧ a = x.
Proof. unfold mret, tx_ret. naive_solver. Qed.

Lemma tx_bind_eq {S E A B} (c : Tx S E A) (k : A -> Tx S E B) s s1 a :
  c s = Ok (s1, a) → (c ≫= k) s = k a s1.
Proof. intros H. unfold mbind, tx_bind. by rewrite H. Qed.

Lemma collect_Ok {E A B} (f : A -> res E B) l bs :
  collect f l = Ok bs ↔ Forall2 (λ a b, f a = Ok b) l bs.
Proof.
  revert bs. induction l as [|a l IH]; intros bs; cbn.
  - split; [intros [= <-]; constructor|]. intros H. by inversion H.
  - rewrite res_bind_Ok. setoid_rewrite res_bind_Ok. setoid_rewrite IH. split.
    + intros (b & ? & bs' & ? & [= <-]). by constructor.
    + intros H. inversion H; subst. eauto 10.
Qed.

Lemma transpose_map_Ok_None {E A B} (f : A -> res E B) o :
  transpose_map f o = Ok None ↔ o = None.
Proof. destruct o as [a|]; cbn; [|naive_solver]. destruct (f a); naive_solver. Qed.

Lemma tx_for_inv {S E A} (P : S -> Prop) (l : list A) (body : A -> Tx S E unit) s s' u :
  (∀ a s1 s2 u', a ∈ l → P s1 → body a s1 = Ok (s2, u') → P s2) →
  P s → tx_for l body s = Ok (s', u) → P s'.
Proof.
  revert s. induction l as [|a l IH]; cbn; intros s Hb Hs H.
  - unfold mret, tx_ret in H. by simplify_eq.
  - apply tx_bind_Ok in H as (s1 & u1 & H1 & H2).
    eapply (IH s1); [| |done].
    + intros. eapply Hb; eauto. by right.
    + eapply Hb; [|done..]. by left.
Qed.

Lemma run_tx_cases {S E A} (t : Tx S E A) s :
  (∃ s' a, t s = Ok (s', a) ∧ run_tx t s = (s', Ok a)) ∨
  ((run_tx t s).1 = s ∧ ∀ a, (run_tx t s).2 ≠ Ok a).
Proof. unfold run_tx. destruct (t s) as [[]|e|]; naive_solver. Qed.

Lemma try_from_u_Some hi z z' : try_from_u hi z = Some z' ↔ z' = z ∧ 0 <= z <= hi.
Proof.
  unfold try_from_u, in_range.
  destruct (Z.leb_spec 0 z), (Z.leb_spec z hi); cbn; naive_solver lia.
Qed.

Lemma try_from_u_None hi z : try_from_u hi z = None ↔ ¬ (0 <= z <= hi).
Proof.
  unfold try_from_u, in_range.
  destruct (Z.leb_spec 0 z), (Z.leb_spec z hi); cbn; naive_solver lia.
Qed.

(** ** What a transaction may do to its state

    [tx_rel R t]: whenever [t] succeeds, it moves its state along [R].  For a
    preorder [R] the property composes, so [tx_rel_auto] proves it for a body
    whose individual writes satisfy it. *)
Definition tx_rel {S E A} (R : relation S) (t : Tx S E A) : Prop :=
  ∀ s s' a, t s = Ok (s', a) → R s s'.

Section TxRel.
Context {S E : Type} (R : relation S) `{!PreOrder R}.

Lemma tx_rel_ret {A} (a : A) : tx_rel R (mret a : Tx S E A).
Proof. intros s s' a' H. unfold mret, tx_ret in H. by simplify_eq. Qed.
Lemma tx_rel_get {A} (f : S -> A) : tx_rel R (tx_get f : Tx S E A).
Proof. intros s s' a' H. unfold tx_get in H. by simplify_eq. Qed.
Lemma tx_rel_err {A} (e : E) : tx_rel R (tx_err e : Tx S E A).
Proof. intros s s' a' H. done. Qed.
Lemma tx_rel_panic {A} : tx_rel R (tx_panic : Tx S E A).
Proof. intros s s' a' H. done. Qed.
Lemma tx_rel_lift {A} (r : res E A) : tx_rel R (tx_lift r : Tx S E A).
Proof. intros s s' a' H. unfold tx_lift in H. destruct r; by simplify_eq/=. Qed.
Lemma tx_rel_put (f : S -> S) : (∀ s, R s (f s)) → tx_rel R (tx_put f : Tx S E unit).
Proof. intros Hf s s' a' H. unfold tx_put in H. by simplify_eq. Qed.
Lemma tx_rel_bind {A B} (t : Tx S E A) (k : A -> Tx S E B) :
  tx_rel R t → (∀ a, tx_rel R (k a)) → tx_rel R (t ≫= k).
Proof.
  intros Ht Hk s s' b H. apply tx_bind_Ok in H as (s1 & a & H1 & H2).
  etrans; [by eapply Ht|by eapply Hk].
Qed.
Lemma tx_rel_for {A} (l : list A) (body : A -> Tx S E unit) :
  (∀ a, tx_rel R (body a)) → tx_rel R (tx_for l body).
Proof.
  intros Hb. induction l as [|a l IH]; cbn; [apply tx_rel_ret|by apply tx_rel_bind].
Qed.
Lemma tx_rel_run {A} (t : Tx S E A) s : tx_rel R t → R s (run_tx t s).1.
Proof. intros Ht. unfold run_tx. destruct (t s) as [[]|e|] eqn:?; cbn; naive_solver. Qed.
End TxRel.

(** ** Tactics *)

Create HintDb manifold.
#[export] Hint Resolve tx_rel_ret tx_rel_get tx_rel_err tx_rel_panic tx_rel_lift : manifold.

(** Reduce [tx_rel] of a body to its writes. *)
Ltac tx_rel_step :=
  match goal with
  | |- tx_rel _ (match ?x with _ => _ end) => destruct x
  | |- tx_rel _ (let '_ := ?x in _) => destruct x
  | |- tx_rel _ (mbind _ _) => apply tx_rel_bind; [apply _| |intros ?]
  | |- tx_rel _ (tx_for _ _) => apply tx_rel_for; [apply _|intros ?]
  | |- tx_rel _ (tx_put _) => apply tx_rel_put; [intros ?]
  | |- tx_rel _ _ => solve [auto with manifold typeclass_instances]
  end.
Ltac tx_rel_auto := repeat tx_rel_step.

(** Decompose a hypothesis that a monadic computation succeeded. *)
Ltac inv_ok H :=
  repeat first
    [ progress (apply tx_bind_Ok in H; destruct H as (? & ? & ? & H))
    | progress (apply res_bind_Ok in H; destruct H as (? & ? & H)) ];
  simplify_eq/=.

(** Split every [match]/[if] in a hypothesis, keeping the equations. *)
Ltac split_match_in H :=
  repeat match type of H with
  | context [ match ?x with _ => _ end ] => destruct x eqn:?; simplify_eq/=
  end.
