(* ===== verification/MgFacts.v ===== *)
(** * The durable seat vocabulary ([crates/mg/core/src/facts.rs])

    Seat numbers and their four-port blocks, the canonical set of guardian
    codes a DKG session starts with, and the completion-callback status and
    reason enums.  [Module Ports] is the port grid, [Module Dkg] the code set
    and [Module Callback] the callback vocabulary. *)

From S2P Require Import Prelude.
From stdpp Require Import base gmap strings list sorting.
From Stdlib Require Import ZArith Lia.
Open Scope Z_scope.

Module Ports.

(** [SeatPorts::BLOCK]. *)
Definition BLOCK : Z := 4.

(** [PortBase(u16)], valid by construction. *)
Record PortBase := { pb_get : Z }.

#[global] Instance PortBase_eq_dec : EqDecision PortBase.
Proof. solve_decision. Defined.

(** [PortBase::new]. *)
Definition port_base_new (base : Z) : option PortBase :=
  (λ _, {| pb_get := base |}) <$> checked_add_u u16_max base (BLOCK - 1).

(** [PortBase::next_block]. *)
Definition next_block (p : PortBase) : option PortBase :=
  checked_add_u u16_max (pb_get p) BLOCK ≫= port_base_new.

(** [PortBase::remaining_blocks]. *)
Definition remaining_blocks (p : PortBase) : Z :=
  (u16_max - pb_get p + 1) / BLOCK.

(** [SeatNo::port_base]. *)
Definition seat_port_base (seat_no : Z) (first : PortBase) : option PortBase :=
  n ← try_from_u u16_max seat_no;
  offset ← checked_mul_u u16_max n BLOCK;
  sum ← checked_add_u u16_max (pb_get first) offset;
  port_base_new sum.

(** The four accessors of [SeatPorts]: [p2p], [api], [ui], [metrics]. *)
Definition p2p (p : PortBase) : Z := pb_get p.
Definition api (p : PortBase) : Z := pb_get p + 1.
Definition ui (p : PortBase) : Z := pb_get p + 2.
Definition metrics (p : PortBase) : Z := pb_get p + 3.

Definition seat_ports (p : PortBase) : list Z := [p2p p; api p; ui p; metrics p].

(** What [PortBase::new] establishes: the whole block fits in [u16]. *)
Definition port_base_wf (p : PortBase) : Prop := 0 <= pb_get p /\ pb_get p + 3 <= u16_max.

Lemma port_base_new_Some b p :
  0 <= b → port_base_new b = Some p ↔ p = {| pb_get := b |} ∧ port_base_wf p.
Proof.
  intros Hb. unfold port_base_new, checked_add_u, port_base_wf, BLOCK.
  rewrite fmap_Some. setoid_rewrite try_from_u_Some. split.
  - intros (x & [-> ?] & ->). cbn. unfold u16_max in *. split; [done|lia].
  - intros (-> & ? & ?). cbn in *. unfold u16_max in *. eexists. split; [split; [done|lia]|done].
Qed.

Lemma seat_port_base_Some n first p :
  port_base_wf first → 0 <= n →
  seat_port_base n first = Some p ↔
    pb_get p = pb_get first + 4 * n ∧ port_base_wf p.
Proof.
  intros [Hf0 Hf3] Hn. unfold seat_port_base, checked_add_u, checked_mul_u.
  rewrite bind_Some. setoid_rewrite bind_Some. setoid_rewrite bind_Some.
  setoid_rewrite try_from_u_Some. unfold BLOCK, u16_max in *. split.
  - intros (x & [-> ?] & y & [-> ?] & z & [-> ?] & Hb).
    apply port_base_new_Some in Hb as [-> ?]; [|lia]. split; [cbn; lia|done].
  - intros [Hp Hwf]. destruct Hwf as [? ?]; unfold u16_max in *.
    exists n. split; [split; [done|lia]|]. exists (n * 4). split; [split; [done|lia]|].
    exists (pb_get first + n * 4). split; [split; [done|lia]|].
    apply port_base_new_Some; [lia|]. destruct p as [b]. cbn in *. subst b.
    split; [f_equal; lia|]. split; cbn; unfold u16_max; lia.
Qed.

(** A seat number has a block exactly when it lies below the number of
    blocks left on the grid that starts at [first]. *)
Lemma seat_port_base_is_Some n first :
  port_base_wf first → 0 <= n →
  is_Some (seat_port_base n first) ↔ n < remaining_blocks first.
Proof.
  intros Hf Hn. unfold remaining_blocks, BLOCK, u16_max. split.
  - intros [p Hp]. apply seat_port_base_Some in Hp as [Hp [? ?]]; [|done..].
    unfold u16_max in *. pose proof (Z.div_le_lower_bound (65535 - pb_get first + 1) 4 (n + 1)). lia.
  - intros Hlt. exists {| pb_get := pb_get first + 4 * n |}.
    apply seat_port_base_Some; [done..|]. split; [done|]. destruct Hf.
    split; cbn; unfold u16_max in *; [lia|].
    pose proof (Z.mul_div_le (65535 - pb_get first + 1) 4). lia.
Qed.

Lemma seat_blocks_apart n m first p q :
  port_base_wf first → 0 <= n → 0 <= m → n <> m →
  seat_port_base n first = Some p → seat_port_base m first = Some q →
  seat_ports p ## seat_ports q.
Proof.
  intros Hf Hn Hm Hne Hp Hq.
  apply seat_port_base_Some in Hp as [Hp [? ?]]; [|done..].
  apply seat_port_base_Some in Hq as [Hq [? ?]]; [|done..].
  unfold seat_ports, p2p, api, ui, metrics, u16_max in *.
  intros x. rewrite !elem_of_cons, !elem_of_nil. lia.
Qed.

End Ports.

Module Dkg.

(** [DkgCodeSetError]. *)
Inductive DkgCodeSetError :=
| WrongCount (expected got : Z)
| DuplicateCode
| OwnCodeMissing.

#[global] Instance DkgCodeSetError_eq_dec : EqDecision DkgCodeSetError.
Proof. solve_decision. Defined.

(** [codes.windows(2).any(|pair| pair[0] == pair[1])]. *)
Fixpoint has_adjacent_dup (codes : list string) : bool :=
  match codes with
  | a :: ((b :: _) as rest) => bool_decide (a = b) || has_adjacent_dup rest
  | _ => false
  end.

(** [codes.sort_by(|left, right| left.0.cmp(&right.0))]: bytewise order. *)
Definition sort_codes (codes : list string) : list string := merge_sort String.le codes.

(** [DkgCodeSet::validate]; the set is the sorted list of codes. *)
Definition validate (codes : list string) (expected : Z) (own_code : string)
  : res DkgCodeSetError (list string) :=
  if negb (Z.of_nat (length codes) =? expected)
  then Err (WrongCount expected (Z.of_nat (length codes)))
  else
    let codes := sort_codes codes in
    if has_adjacent_dup codes then Err DuplicateCode
    else if negb (bool_decide (own_code ∈ codes)) then Err OwnCodeMissing
    else Ok codes.

Lemma sort_codes_perm codes : sort_codes codes ≡ₚ codes.
Proof. apply merge_sort_Permutation. Qed.

Lemma sort_codes_sorted codes : StronglySorted String.le (sort_codes codes).
Proof. apply StronglySorted_merge_sort; apply _. Qed.

Lemma sort_codes_ext codes codes' : codes ≡ₚ codes' → sort_codes codes = sort_codes codes'.
Proof.
  intros Hp. apply (Sorted_unique String.le).
  - apply StronglySorted_Sorted, sort_codes_sorted.
  - apply StronglySorted_Sorted, sort_codes_sorted.
  - by rewrite !sort_codes_perm.
Qed.

(** On a sorted list an adjacent pair is equal exactly when some code occurs
    twice. *)
Lemma has_adjacent_dup_spec codes :
  StronglySorted String.le codes → has_adjacent_dup codes = false ↔ NoDup codes.
Proof.
  induction codes as [|a [|b rest] IH]; intros Hs.
  - split; [constructor|done].
  - split; [intros; apply NoDup_singleton|done].
  - apply StronglySorted_cons in Hs as [Ha Hs]. specialize (IH Hs).
    change (bool_decide (a = b) || has_adjacent_dup (b :: rest) = false ↔ NoDup (a :: b :: rest)).
    rewrite orb_false_iff, bool_decide_eq_false, NoDup_cons, IH. split.
    + intros [Hab Hnd]. split; [|done]. intros [->|Hin]%elem_of_cons; [done|].
      apply StronglySorted_cons in Hs as [Hb _]. apply Hab.
      apply (anti_symm String.le).
      * rewrite Forall_forall in Ha. apply Ha. by left.
      * rewrite Forall_forall in Hb. by apply Hb.
    + intros [Hnin Hnd]. split; [|done]. intros ->. apply Hnin. by left.
Qed.

Lemma validate_Ok codes expected own set :
  validate codes expected own = Ok set ↔
    Z.of_nat (length codes) = expected ∧ NoDup codes ∧ own ∈ codes ∧ set = sort_codes codes.
Proof.
  unfold validate.
  pose proof (has_adjacent_dup_spec _ (sort_codes_sorted codes)) as Hd.
  assert (NoDup (sort_codes codes) ↔ NoDup codes) as Hnd by (by rewrite sort_codes_perm).
  destruct (Z.eqb_spec (Z.of_nat (length codes)) expected) as [He|He]; cbn [negb]; [|naive_solver].
  destruct (has_adjacent_dup (sort_codes codes)) eqn:Hdup; [naive_solver|].
  case_bool_decide as Hown; rewrite sort_codes_perm in Hown; cbn [negb]; naive_solver.
Qed.

(** A guardian code set is accepted exactly when it has the federation's
    size, no code twice and the seat's own code; the accepted set is the sorted
    form, so guardians who saw the same codes in any order hold equal sets and
    report equal errors. *)
Theorem dkg_code_set_canonical codes expected own :
  (∀ set, validate codes expected own = Ok set ↔
     Z.of_nat (length codes) = expected ∧ NoDup codes ∧ own ∈ codes ∧
     StronglySorted String.le set ∧ set ≡ₚ codes) ∧
  (∀ codes', codes ≡ₚ codes' → validate codes expected own = validate codes' expected own).
Proof.
  split.
  - intros set. rewrite validate_Ok. split; intros (Hn & Hd & Ho & Hset); split_and!; try done.
    + subst. apply sort_codes_sorted.
    + subst. apply sort_codes_perm.
    + destruct Hset as [Hs Hp]. apply (Sorted_unique String.le).
      * by apply StronglySorted_Sorted.
      * apply StronglySorted_Sorted, sort_codes_sorted.
      * by rewrite Hp, sort_codes_perm.
  - intros codes' Hp. unfold validate. by rewrite (sort_codes_ext _ _ Hp), (Permutation_length Hp).
Qed.

End Dkg.

Module Callback.

(** [CompletionCallbackReason]. *)
Inductive CompletionCallbackReason :=
| GatewayOriginMissing
| GatewayOriginMismatch
| HttpClientUnavailable
| Network
| GatewayUnavailable
| RateLimited
| HookNotFound
| HookExpiredOrRevoked
| MaxUsesExceeded
| PolicyRejected
| Decommissioned
| Superseded.

#[global] Instance CompletionCallbackReason_eq_dec : EqDecision CompletionCallbackReason.
Proof. solve_decision. Defined.

(** [CompletionCallbackReason::as_str]. *)
Definition reason_as_str (r : CompletionCallbackReason) : string :=
  match r with
  | GatewayOriginMissing => "gateway_origin_missing"
  | GatewayOriginMismatch => "gateway_origin_mismatch"
  | HttpClientUnavailable => "http_client_unavailable"
  | Network => "network"
  | GatewayUnavailable => "gateway_unavailable"
  | RateLimited => "rate_limited"
  | HookNotFound => "hook_not_found"
  | HookExpiredOrRevoked => "hook_expired_or_revoked"
  | MaxUsesExceeded => "max_uses_exceeded"
  | PolicyRejected => "policy_rejected"
  | Decommissioned => "decommissioned"
  | Superseded => "superseded"
  end.

(** [CompletionCallbackReason::from_str]. *)
Definition reason_from_str (value : string) : option CompletionCallbackReason :=
  if bool_decide (value = "gateway_origin_missing"%string) then Some GatewayOriginMissing
  else if bool_decide (value = "gateway_origin_mismatch"%string) then Some GatewayOriginMismatch
  else if bool_decide (value = "http_client_unavailable"%string) then Some HttpClientUnavailable
  else if bool_decide (value = "network"%string) then Some Network
  else if bool_decide (value = "gateway_unavailable"%string) then Some GatewayUnavailable
  else if bool_decide (value = "rate_limited"%string) then Some RateLimited
  else if bool_decide (value = "hook_not_found"%string) then Some HookNotFound
  else if bool_decide (value = "hook_expired_or_revoked"%string) then Some HookExpiredOrRevoked
  else if bool_decide (value = "max_uses_exceeded"%string) then Some MaxUsesExceeded
  else if bool_decide (value = "policy_rejected"%string) then Some PolicyRejected
  else if bool_decide (value = "decommissioned"%string) then Some Decommissioned
  else if bool_decide (value = "superseded"%string) then Some Superseded
  else None.

(** [CompletionCallbackStatus]. *)
Inductive CompletionCallbackStatus :=
| NotConfigured
| Pending (attempts next_attempt_at_ms : Z) (last_reason : option CompletionCallbackReason)
| OperatorBlocked (attempts : Z) (reason : CompletionCallbackReason)
| Delivered (attempts at_ms : Z)
| Terminal (attempts at_ms : Z) (reason : CompletionCallbackReason).

#[global] Instance CompletionCallbackStatus_eq_dec : EqDecision CompletionCallbackStatus.
Proof. solve_decision. Defined.

(** [CompletionCallbackStatus::attempts]. *)
Definition status_attempts (s : CompletionCallbackStatus) : Z :=
  match s with
  | NotConfigured => 0
  | Pending a _ _ | OperatorBlocked a _ | Delivered a _ | Terminal a _ _ => a
  end.

Lemma reason_roundtrip r : reason_from_str (reason_as_str r) = Some r.
Proof. by destruct r. Qed.

Lemma reason_from_str_Some s r : reason_from_str s = Some r → s = reason_as_str r.
Proof.
  unfold reason_from_str. intros H.
  repeat (case_bool_decide; [by simplify_eq|]). done.
Qed.

End Callback.
