(* ===== verification/MgSchema.v ===== *)
(** * The Manifold Guardian's SQLite schema ([crates/mg/core/migrations])

    One record per table row, the database as a record of tables, and the
    statements whose success depends on the schema: inserts with their
    primary-key, uniqueness, foreign-key and CHECK constraints and the
    triggers.  A statement that violates a constraint is [Err Sqlx].

    Blobs and TEXT columns are byte strings; a table keyed by [quote_id] is a
    finite map from that blob; a singleton table ([CHECK (id = 1)]) that a
    migration seeds is a record and one that is seeded by the program is an
    [option]. *)

From S2P Require Import Prelude.
From stdpp Require Import base gmap strings list.
From Stdlib Require Import ZArith Lia.
Open Scope Z_scope.

(** [OnboardingStage]. *)
Inductive OnboardingStage :=
| StageIdentity
| StageHolderAuthorization
| StageInitialOffer
| StageComplete.

#[global] Instance OnboardingStage_eq_dec : EqDecision OnboardingStage.
Proof. solve_decision. Defined.

(** [DbError].  Payloads that only feed the rendered message (row keys and
    the text of third-party errors) are left out; a [CorruptRow] keeps its
    table and the constant part of its detail. *)
Inductive DbError :=
| Sqlx
| Mnemonic
| ManifoldEnvironmentMismatch (bound selected : string)
| SeatLimitBelowActive (requested active : Z)
| WrongOnboardingStage (expected actual : OnboardingStage)
| CorruptRow (table detail : string)
| TelemetryGenerationExhausted
| HolderAuthorizationIssuedAtTooFarFuture.

#[global] Instance DbError_eq_dec : EqDecision DbError.
Proof. solve_decision. Defined.

Record IdentityRow := {
  mnemonic : string;
  wallet_origin : string;
  identity_created_at_ms : Z
}.

Record OnboardingRow := {
  stage : string;
  stage_updated_at_ms : Z
}.

(** [offer_state] after migration 0008. *)
Record OfferRow := {
  max_seats : option Z;
  price_msats : option Z;
  offer_updated_at_ms : option Z;
  offer_epoch : string;
  ready_for_new_seats : bool;
  memory_max_seats : Z;
  policy_max_seats : Z
}.

(** [holder_authorization]; the big-endian issue time orders as the number. *)
Record HolderRow := {
  authorization_issued_at : Z;
  holder_event_json : string
}.

Record TelemetryRow := {
  generation : Z;
  telemetry_updated_at_ms : Z
}.

Record SupportMsg := {
  rumor_id : string;
  from_fedi : bool;
  body : string;
  support_created_at : Z;
  support_read : bool
}.

Record SeatCols := {
  seat_no : Z;
  fi_id : string;
  plan : string;
  federation_size : Z;
  created_at_ms : Z
}.

Record ClaimCols := {
  evidence : string;
  claim_outcome : option string;
  claim_outcome_at_ms : option Z
}.

Record FormedCols := {
  federation_invite : string;
  formed_at_ms : Z
}.

Record CallbackCols := {
  completion_callback : option string;
  completion_callback_status : string;
  completion_callback_attempts : Z;
  completion_callback_next_attempt_at_ms : option Z;
  completion_callback_reason : option string;
  completion_callback_completed_at_ms : option Z
}.

Record PublicationCols := {
  doc_sha256 : string;
  published_at_ms : Z;
  archive_digest : option string;
  confirmed_outgoing : option string;
  schema_version : Z
}.

Record TransferInCols := {
  ti_state : string;
  ti_binding : string;
  ti_callback_commitment : option string;
  ti_grant : option string;
  ti_iroh_api_sk : option string;
  ti_iroh_p2p_sk : option string
}.

(** The database: every table, in the order of the migrations' concerns. *)
Record Db := mkDb {
  identity : option IdentityRow;
  environment : option string;
  onboarding : OnboardingRow;
  offer : OfferRow;
  members : gset string;
  policy_event : option string;
  holder : option HolderRow;
  telemetry : TelemetryRow;
  payout_destination : option string;
  support : list SupportMsg;
  seats : gmap string SeatCols;
  claims : gmap string ClaimCols;
  decommissioned : gmap string Z;
  formed : gmap string FormedCols;
  callbacks : gmap string CallbackCols;
  dkg_inputs : gmap string string;
  publications : gmap string PublicationCols;
  transfer_in : gmap string TransferInCols;
  transfer_out : gmap string string
}.

Definition set_identity (v : option IdentityRow) (d : Db) : Db :=
  mkDb v (environment d) (onboarding d) (offer d) (members d) (policy_event d) (holder d)
    (telemetry d) (payout_destination d) (support d) (seats d) (claims d)
    (decommissioned d) (formed d) (callbacks d) (dkg_inputs d) (publications d)
    (transfer_in d) (transfer_out d).
Definition set_environment (v : option string) (d : Db) : Db :=
  mkDb (identity d) v (onboarding d) (offer d) (members d) (policy_event d) (holder d)
    (telemetry d) (payout_destination d) (support d) (seats d) (claims d)
    (decommissioned d) (formed d) (callbacks d) (dkg_inputs d) (publications d)
    (transfer_in d) (transfer_out d).
Definition set_onboarding (v : OnboardingRow) (d : Db) : Db :=
  mkDb (identity d) (environment d) v (offer d) (members d) (policy_event d) (holder d)
    (telemetry d) (payout_destination d) (support d) (seats d) (claims d)
    (decommissioned d) (formed d) (callbacks d) (dkg_inputs d) (publications d)
    (transfer_in d) (transfer_out d).
Definition set_offer (v : OfferRow) (d : Db) : Db :=
  mkDb (identity d) (environment d) (onboarding d) v (members d) (policy_event d) (holder d)
    (telemetry d) (payout_destination d) (support d) (seats d) (claims d)
    (decommissioned d) (formed d) (callbacks d) (dkg_inputs d) (publications d)
    (transfer_in d) (transfer_out d).
Definition set_members (v : gset string) (d : Db) : Db :=
  mkDb (identity d) (environment d) (onboarding d) (offer d) v (policy_event d) (holder d)
    (telemetry d) (payout_destination d) (support d) (seats d) (claims d)
    (decommissioned d) (formed d) (callbacks d) (dkg_inputs d) (publications d)
    (transfer_in d) (transfer_out d).
Definition set_policy_event (v : option string) (d : Db) : Db :=
  mkDb (identity d) (environment d) (onboarding d) (offer d) (members d) v (holder d)
    (telemetry d) (payout_destination d) (support d) (seats d) (claims d)
    (decommissioned d) (formed d) (callbacks d) (dkg_inputs d) (publications d)
    (transfer_in d) (transfer_out d).
Definition set_holder (v : option HolderRow) (d : Db) : Db :=
  mkDb (identity d) (environment d) (onboarding d) (offer d) (members d) (policy_event d) v
    (telemetry d) (payout_destination d) (support d) (seats d) (claims d)
    (decommissioned d) (formed d) (callbacks d) (dkg_inputs d) (publications d)
    (transfer_in d) (transfer_out d).
Definition set_telemetry (v : TelemetryRow) (d : Db) : Db :=
  mkDb (identity d) (environment d) (onboarding d) (offer d) (members d) (policy_event d)
    (holder d) v (payout_destination d) (support d) (seats d) (claims d)
    (decommissioned d) (formed d) (callbacks d) (dkg_inputs d) (publications d)
    (transfer_in d) (transfer_out d).
Definition set_payout_destination (v : option string) (d : Db) : Db :=
  mkDb (identity d) (environment d) (onboarding d) (offer d) (members d) (policy_event d)
    (holder d) (telemetry d) v (support d) (seats d) (claims d) (decommissioned d)
    (formed d) (callbacks d) (dkg_inputs d) (publications d) (transfer_in d)
    (transfer_out d).
Definition set_support (v : list SupportMsg) (d : Db) : Db :=
  mkDb (identity d) (environment d) (onboarding d) (offer d) (members d) (policy_event d)
    (holder d) (telemetry d) (payout_destination d) v (seats d) (claims d)
    (decommissioned d) (formed d) (callbacks d) (dkg_inputs d) (publications d)
    (transfer_in d) (transfer_out d).
Definition set_seats (v : gmap string SeatCols) (d : Db) : Db :=
  mkDb (identity d) (environment d) (onboarding d) (offer d) (members d) (policy_event d)
    (holder d) (telemetry d) (payout_destination d) (support d) v (claims d)
    (decommissioned d) (formed d) (callbacks d) (dkg_inputs d) (publications d)
    (transfer_in d) (transfer_out d).
Definition set_claims (v : gmap string ClaimCols) (d : Db) : Db :=
  mkDb (identity d) (environment d) (onboarding d) (offer d) (members d) (policy_event d)
    (holder d) (telemetry d) (payout_destination d) (support d) (seats d) v
    (decommissioned d) (formed d) (callbacks d) (dkg_inputs d) (publications d)
    (transfer_in d) (transfer_out d).
Definition set_decommissioned (v : gmap string Z) (d : Db) : Db :=
  mkDb (identity d) (environment d) (onboarding d) (offer d) (members d) (policy_event d)
    (holder d) (telemetry d) (payout_destination d) (support d) (seats d) (claims d) v
    (formed d) (callbacks d) (dkg_inputs d) (publications d) (transfer_in d)
    (transfer_out d).
Definition set_formed (v : gmap string FormedCols) (d : Db) : Db :=
  mkDb (identity d) (environment d) (onboarding d) (offer d) (members d) (policy_event d)
    (holder d) (telemetry d) (payout_destination d) (support d) (seats d) (claims d)
    (decommissioned d) v (callbacks d) (dkg_inputs d) (publications d) (transfer_in d)
    (transfer_out d).
Definition set_callbacks (v : gmap string CallbackCols) (d : Db) : Db :=
  mkDb (identity d) (environment d) (onboarding d) (offer d) (members d) (policy_event d)
    (holder d) (telemetry d) (payout_destination d) (support d) (seats d) (claims d)
    (decommissioned d) (formed d) v (dkg_inputs d) (publications d) (transfer_in d)
    (transfer_out d).
Definition set_dkg_inputs (v : gmap string string) (d : Db) : Db :=
  mkDb (identity d) (environment d) (onboarding d) (offer d) (members d) (policy_event d)
    (holder d) (telemetry d) (payout_destination d) (support d) (seats d) (claims d)
    (decommissioned d) (formed d) (callbacks d) v (publications d) (transfer_in d)
    (transfer_out d).
Definition set_publications (v : gmap string PublicationCols) (d : Db) : Db :=
  mkDb (identity d) (environment d) (onboarding d) (offer d) (members d) (policy_event d)
    (holder d) (telemetry d) (payout_destination d) (support d) (seats d) (claims d)
    (decommissioned d) (formed d) (callbacks d) (dkg_inputs d) v (transfer_in d)
    (transfer_out d).
Definition set_transfer_in (v : gmap string TransferInCols) (d : Db) : Db :=
  mkDb (identity d) (environment d) (onboarding d) (offer d) (members d) (policy_event d)
    (holder d) (telemetry d) (payout_destination d) (support d) (seats d) (claims d)
    (decommissioned d) (formed d) (callbacks d) (dkg_inputs d) (publications d) v
    (transfer_out d).
Definition set_transfer_out (v : gmap string string) (d : Db) : Db :=
  mkDb (identity d) (environment d) (onboarding d) (offer d) (members d) (policy_event d)
    (holder d) (telemetry d) (payout_destination d) (support d) (seats d) (claims d)
    (decommissioned d) (formed d) (callbacks d) (dkg_inputs d) (publications d)
    (transfer_in d) v.

(** ** Statements *)

(** SQLite [length(X)] of a TEXT value: its characters before the first NUL,
    that is, the UTF-8 bytes that are not continuation bytes. *)
Fixpoint text_length (s : string) : Z :=
  match s with
  | EmptyString => 0
  | String c rest =>
      let n := Z.of_nat (Ascii.nat_of_ascii c) in
      if n =? 0 then 0
      else (if in_range 128 191 n then 0 else 1) + text_length rest
  end.

Abbreviation DbTx := (Tx Db DbError).

(** A CHECK, uniqueness or foreign-key constraint, or a trigger's [WHEN]. *)
Definition sql_require (b : bool) : DbTx unit :=
  if b then mret tt else tx_err Sqlx.

Definition absent {V} (m : gmap string V) (k : string) : bool :=
  match m !! k with None => true | Some _ => false end.

Definition present {V} (m : gmap string V) (k : string) : bool := negb (absent m k).

(** The CHECK constraints of [seats]. *)
Definition check_seat (k : string) (r : SeatCols) : bool :=
  (Z.of_nat (String.length k) =? 32) && (0 <=? seat_no r) && (0 <? federation_size r).

(** [seat_no INTEGER UNIQUE]. *)
Definition seat_no_free (n : Z) (m : gmap string SeatCols) : bool :=
  bool_decide (map_Forall (λ _ r, seat_no r <> n) m).

(** [INSERT INTO seats]. *)
Definition insert_seat (k : string) (r : SeatCols) : DbTx unit :=
  d ← tx_get id;
  sql_require (check_seat k r && absent (seats d) k && seat_no_free (seat_no r) (seats d));;
  tx_put (λ d, set_seats (<[k := r]> (seats d)) d).

(** [INSERT INTO ecash_claims (quote_id, evidence)]. *)
Definition insert_claim (k ev : string) : DbTx unit :=
  d ← tx_get id;
  sql_require (present (seats d) k && absent (claims d) k);;
  tx_put (λ d, set_claims
    (<[k := {| evidence := ev; claim_outcome := None; claim_outcome_at_ms := None |}]> (claims d)) d).

(** [INSERT INTO decommissioned_seats]. *)
Definition insert_decommissioned (k : string) (at_ms : Z) : DbTx unit :=
  d ← tx_get id;
  sql_require (present (seats d) k && absent (decommissioned d) k);;
  tx_put (λ d, set_decommissioned (<[k := at_ms]> (decommissioned d)) d).

(** [INSERT INTO formed_seats]. *)
Definition insert_formed (k invite : string) (at_ms : Z) : DbTx unit :=
  d ← tx_get id;
  sql_require (present (seats d) k && absent (formed d) k);;
  tx_put (λ d, set_formed
    (<[k := {| federation_invite := invite; formed_at_ms := at_ms |}]> (formed d)) d).

(** [INSERT INTO seat_transfer_out], with its CHECK on [phase]. *)
Definition insert_transfer_out (k phase : string) : DbTx unit :=
  d ← tx_get id;
  sql_require (present (seats d) k && absent (transfer_out d) k
    && (bool_decide (phase = "stopped"%string) || bool_decide (phase = "removed"%string)));;
  tx_put (λ d, set_transfer_out (<[k := phase]> (transfer_out d)) d).

(** [UPDATE offer_state SET offer_epoch = ? WHERE id = 1], with its CHECK. *)
Definition with_epoch (epoch : string) (o : OfferRow) : OfferRow :=
  {| max_seats := max_seats o; price_msats := price_msats o;
     offer_updated_at_ms := offer_updated_at_ms o; offer_epoch := epoch;
     ready_for_new_seats := ready_for_new_seats o;
     memory_max_seats := memory_max_seats o; policy_max_seats := policy_max_seats o |}.
Definition update_offer_epoch (epoch : string) : DbTx unit :=
  sql_require (Z.of_nat (String.length epoch) =? 32);;
  tx_put (λ d, set_offer (with_epoch epoch (offer d)) d).

(** The database the migrations leave behind; [epoch] is [randomblob(32)]. *)
Definition initial_db (epoch : string) : Db :=
  {| identity := None; environment := None;
     onboarding := {| stage := "identity"; stage_updated_at_ms := 0 |};
     offer := {| max_seats := Some 0; price_msats := None; offer_updated_at_ms := None;
                 offer_epoch := epoch; ready_for_new_seats := false;
                 memory_max_seats := 4; policy_max_seats := 12 |};
     members := ∅; policy_event := None; holder := None;
     telemetry := {| generation := 0; telemetry_updated_at_ms := 0 |};
     payout_destination := None; support := [];
     seats := ∅; claims := ∅; decommissioned := ∅; formed := ∅; callbacks := ∅;
     dkg_inputs := ∅; publications := ∅; transfer_in := ∅; transfer_out := ∅ |}.

(** ** Lemmas on the statements *)

Lemma absent_true {V} (m : gmap string V) k : absent m k = true ↔ m !! k = None.
Proof. unfold absent. destruct (m !! k); naive_solver. Qed.
Lemma absent_false {V} (m : gmap string V) k : absent m k = false ↔ is_Some (m !! k).
Proof.
  rewrite <- not_eq_None_Some, <- absent_true. destruct (absent m k); naive_solver.
Qed.
Lemma present_true {V} (m : gmap string V) k : present m k = true ↔ is_Some (m !! k).
Proof. unfold present. by rewrite negb_true_iff, absent_false. Qed.

Lemma sql_require_Ok b d d' u : sql_require b d = Ok (d', u) ↔ b = true ∧ d' = d.
Proof. unfold sql_require, mret, tx_ret, tx_err. destruct b, u; naive_solver. Qed.

Lemma insert_seat_eq k r d :
  check_seat k r = true → seats d !! k = None → seat_no_free (seat_no r) (seats d) = true →
  insert_seat k r d = Ok (set_seats (<[k := r]> (seats d)) d, tt).
Proof.
  intros Hc Hk Hf. unfold insert_seat. rewrite (tx_bind_eq _ _ d d d eq_refl).
  by rewrite Hc, Hf, (proj2 (absent_true _ _) Hk).
Qed.
Lemma insert_claim_eq k ev d :
  is_Some (seats d !! k) → claims d !! k = None →
  insert_claim k ev d = Ok (set_claims
    (<[k := {| evidence := ev; claim_outcome := None; claim_outcome_at_ms := None |}]> (claims d)) d, tt).
Proof.
  intros Hs Hc. unfold insert_claim. rewrite (tx_bind_eq _ _ d d d eq_refl).
  by rewrite (proj2 (present_true _ _) Hs), (proj2 (absent_true _ _) Hc).
Qed.
Lemma update_offer_epoch_eq e d :
  Z.of_nat (String.length e) = 32 →
  update_offer_epoch e d = Ok (set_offer (with_epoch e (offer d)) d, tt).
Proof. intros He. unfold update_offer_epoch. by rewrite He. Qed.

(** Take a successful transaction apart, one statement at a time, splitting
    on the branches it meets. *)
Ltac tx_inv_step :=
  match goal with
  | H : mbind _ _ _ = Ok (_, _) |- _ => apply tx_bind_Ok in H; destruct H as (? & ? & ? & H)
  | H : tx_get _ _ = Ok (_, _) |- _ => apply tx_get_Ok in H; destruct H as [? ?]; subst
  | H : tx_put _ _ = Ok (_, _) |- _ => apply tx_put_Ok in H; subst
  | H : sql_require _ _ = Ok (_, _) |- _ => apply sql_require_Ok in H; destruct H as [? ?]; subst
  | H : tx_lift _ _ = Ok (_, _) |- _ => apply tx_lift_Ok in H; destruct H as [? ?]; subst
  | H : mret _ _ = Ok (_, _) |- _ => apply tx_ret_Ok in H; destruct H as [? ?]; subst
  | H : tx_err _ _ = Ok _ |- _ => discriminate H
  | H : tx_panic _ = Ok _ |- _ => discriminate H
  | H : (match ?x with _ => _ end) _ = Ok _ |- _ => destruct x eqn:?
  end.
Ltac tx_inv := repeat tx_inv_step.

(** The committed effect of each insert. *)
Ltac stmt_inv := intros; tx_inv;
  repeat match goal with
  | H : (_ && _) = true |- _ => apply andb_true_iff in H as [? ?]
  | H : absent _ _ = true |- _ => apply absent_true in H
  | H : present _ _ = true |- _ => apply present_true in H
  end; auto.

Lemma insert_seat_Ok k r d d' u :
  insert_seat k r d = Ok (d', u) →
  d' = set_seats (<[k := r]> (seats d)) d ∧ check_seat k r = true ∧ seats d !! k = None ∧
  seat_no_free (seat_no r) (seats d) = true.
Proof. unfold insert_seat. stmt_inv. Qed.
Lemma insert_claim_Ok k ev d d' u :
  insert_claim k ev d = Ok (d', u) →
  d' = set_claims (<[k := {| evidence := ev; claim_outcome := None;
                             claim_outcome_at_ms := None |}]> (claims d)) d ∧
  is_Some (seats d !! k) ∧ claims d !! k = None.
Proof. unfold insert_claim. stmt_inv. Qed.
Lemma insert_decommissioned_Ok k at_ms d d' u :
  insert_decommissioned k at_ms d = Ok (d', u) →
  d' = set_decommissioned (<[k := at_ms]> (decommissioned d)) d ∧
  is_Some (seats d !! k) ∧ decommissioned d !! k = None.
Proof. unfold insert_decommissioned. stmt_inv. Qed.
Lemma insert_formed_Ok k invite at_ms d d' u :
  insert_formed k invite at_ms d = Ok (d', u) →
  d' = set_formed (<[k := {| federation_invite := invite; formed_at_ms := at_ms |}]> (formed d)) d ∧
  is_Some (seats d !! k) ∧ formed d !! k = None.
Proof. unfold insert_formed. stmt_inv. Qed.
Lemma insert_transfer_out_Ok k p d d' u :
  insert_transfer_out k p d = Ok (d', u) →
  d' = set_transfer_out (<[k := p]> (transfer_out d)) d ∧
  is_Some (seats d !! k) ∧ transfer_out d !! k = None.
Proof. unfold insert_transfer_out. stmt_inv. Qed.
