(* ===== verification/MgDb.v ===== *)
(** * The offer, onboarding and settings store ([crates/mg/core/src/db.rs])

    Every operation of [impl Db] in [db.rs] over [MgSchema.Db], except the
    floating-point uptime history and the data-root lock.  An operation that
    reads the wall clock or draws a random epoch takes the value as an
    argument ([now], [fresh]). *)

From S2P Require Import Prelude MgFacts MgSchema.
From stdpp Require Import base gmap strings list sorting.
From Stdlib Require Import ZArith Lia.
Open Scope Z_scope.

Module Offers.
Import Ports.

(** [Plan]. *)
Inductive Plan :=
| InfiniteBestEffort (price : Z)
| SubscriptionBased (initial_price renewal_price : Z) (period : string).

#[global] Instance Plan_eq_dec : EqDecision Plan.
Proof. solve_decision. Defined.

#[global] Instance Plan_countable : Countable Plan.
Proof.
  refine (inj_countable'
    (λ p, match p with InfiniteBestEffort a => inl a | SubscriptionBased a b c => inr (a, b, c) end)
    (λ x, match x with inl a => InfiniteBestEffort a | inr (a, b, c) => SubscriptionBased a b c end)
    _).
  by intros [].
Defined.

(** [QuoteSettings], [Offer], [OfferSnapshot]. *)
Record QuoteSettings := {
  qs_price : option Z;
  qs_payment_federations : list string
}.
Record Offer := {
  of_epoch : string;
  of_settings : QuoteSettings
}.
Record OfferSnapshot := {
  os_offer : Offer;
  os_max_seats : option Z;
  os_memory_max_seats : Z;
  os_policy_max_seats : Z;
  os_slots : Z;
  os_ready_for_new_seats : bool
}.

(** [QuoteSettings::plans]. *)
Definition plans (q : QuoteSettings) : list Plan :=
  match qs_price q with
  | Some price => [InfiniteBestEffort price]
  | None => []
  end.

(** [stored_max_seats]. *)
Definition stored_max_seats (n : Z) : res DbError Z :=
  ok_or (CorruptRow "offer_state" "a seat limit is outside the u32 domain") (try_from_u u32_max n).

(** [stored_price]: the schema CHECK keeps the column non-negative. *)
Definition stored_price (msats : Z) : res DbError Z := expect (try_from_u u64_max msats).

(** [parse_offer_epoch]. *)
Definition parse_offer_epoch (bytes : string) : res DbError string :=
  if Z.of_nat (String.length bytes) =? 32 then Ok bytes
  else Err (CorruptRow "offer_state" "offer_epoch is not 32 bytes").

(** [effective_max_seats]. *)
Definition effective_max_seats (max : option Z) (memory policy : Z) : Z :=
  Z.min (Z.min (default u32_max max) memory) policy.

(** [(0..n).take_while(f).count()], from offset [from]. *)
Fixpoint count_while (f : Z -> bool) (from : Z) (n : nat) : Z :=
  match n with
  | O => 0
  | S n => if f from then 1 + count_while f (from + 1) n else 0
  end.

(** [available_slots]. *)
Definition available_slots (max : Z) (first : PortBase) (active next_no : Z) : Z :=
  let seat_slots := saturating_sub_u max (default u32_max (try_from_u u32_max active)) in
  let next_no := default u32_max (try_from_u u32_max next_no) in
  let port_slots := count_while
    (λ offset, match seat_port_base (saturating_add_u u32_max next_no offset) first with
               | Some _ => true | None => false end)
    0 (Z.to_nat seat_slots) in
  Z.min seat_slots port_slots.

(** [COUNT FILTER (WHERE d.quote_id IS NULL AND t.quote_id IS NULL)]. *)
Definition is_active (d : Db) (k : string) : bool :=
  absent (decommissioned d) k && absent (transfer_out d) k.
Definition active_seats (d : Db) : gmap string SeatCols :=
  filter (λ kv, is_active d kv.1 = true) (seats d).
Definition active_count (d : Db) : Z := Z.of_nat (size (active_seats d)).

(** [COALESCE(MAX(s.seat_no) + 1, 0)]. *)
Definition max_seat_no (m : gmap string SeatCols) : option Z :=
  map_fold (λ _ r acc, Some (match acc with
                             | None => seat_no r
                             | Some n => Z.max n (seat_no r) end)) None m.
Definition next_seat_no (d : Db) : Z :=
  match max_seat_no (seats d) with Some n => n + 1 | None => 0 end.

(** The free slots of a stored configuration, as the three callers compute
    them. *)
Definition db_slots (d : Db) (first : PortBase) : Z :=
  available_slots
    (effective_max_seats (max_seats (offer d)) (memory_max_seats (offer d))
       (policy_max_seats (offer d)))
    first (active_count d) (next_seat_no d).

(** [SELECT federation_id ... ORDER BY federation_id]. *)
Definition sorted_members (d : Db) : list string :=
  merge_sort String.le (elements (members d)).

(** [Db::offer_snapshot]. *)
Definition offer_snapshot (first : PortBase) (d : Db) : res DbError OfferSnapshot :=
  let payment_federations := sorted_members d in
  let o := offer d in
  epoch ← parse_offer_epoch (offer_epoch o);
  mx ← transpose_map stored_max_seats (max_seats o);
  mem ← stored_max_seats (memory_max_seats o);
  pol ← stored_max_seats (policy_max_seats o);
  price ← transpose_map stored_price (price_msats o);
  Ok {| os_offer := {| of_epoch := epoch;
                       of_settings := {| qs_price := price;
                                         qs_payment_federations := payment_federations |} |};
        os_max_seats := mx;
        os_memory_max_seats := mem;
        os_policy_max_seats := pol;
        os_slots := available_slots (effective_max_seats mx mem pol) first
                      (active_count d) (next_seat_no d);
        os_ready_for_new_seats := ready_for_new_seats o |}.

(** CHECK of [price_msats]. *)
Definition check_price (p : option Z) : bool :=
  match p with None => true | Some p => 0 <=? p end.

(** [Db::set_offered_price]; [price] is [Option<Msats>]. *)
Definition set_offered_price (price : option Z) (now : Z) (fresh : string) : DbTx string :=
  let price := u64_as_i64 <$> price in
  existing ← tx_get (λ d, price_msats (offer d));
  (if bool_decide (existing <> price) then
     sql_require (check_price price && (Z.of_nat (String.length fresh) =? 32));;
     tx_put (λ d, let o := offer d in set_offer
       {| max_seats := max_seats o; price_msats := price;
          offer_updated_at_ms := Some now; offer_epoch := fresh;
          ready_for_new_seats := ready_for_new_seats o;
          memory_max_seats := memory_max_seats o; policy_max_seats := policy_max_seats o |} d)
   else mret tt);;
  epoch ← tx_get (λ d, offer_epoch (offer d));
  tx_lift (parse_offer_epoch epoch).

(** [Db::max_seats]. *)
Definition db_max_seats (d : Db) : res DbError (option Z) :=
  transpose_map stored_max_seats (max_seats (offer d)).

(** [Db::active_seat_count]. *)
Definition active_seat_count (d : Db) : res DbError Z :=
  ok_or (CorruptRow "seats" "active seat count is outside the u32 domain")
    (try_from_u u32_max (active_count d)).

(** [SeatsConfigUpdate] and [SeatsConfig]. *)
Record SeatsConfigUpdate := {
  up_max_seats : option (option Z);
  up_memory_max_seats : option Z;
  up_policy_max_seats : option Z;
  up_ready_for_new_seats : option bool
}.
Record SeatsConfig := {
  sc_max_seats : option Z;
  sc_memory_max_seats : Z;
  sc_policy_max_seats : Z;
  sc_ready_for_new_seats : bool
}.

#[global] Instance SeatsConfig_eq_dec : EqDecision SeatsConfig.
Proof. solve_decision. Defined.

(** The closure [slots] of [Db::update_seats_config]. *)
Definition config_slots (c : SeatsConfig) (first : PortBase) (active next_no : Z) : Z :=
  available_slots
    (effective_max_seats (sc_max_seats c) (sc_memory_max_seats c) (sc_policy_max_seats c))
    first active next_no.

(** CHECK of the three limits in [offer_state]. *)
Definition check_limits (c : SeatsConfig) : bool :=
  match sc_max_seats c with None => true | Some n => in_range 0 u32_max n end
  && in_range 0 u32_max (sc_memory_max_seats c) && in_range 0 u32_max (sc_policy_max_seats c).

(** The refusal of an operator limit below the active seats. *)
Definition limit_guard (requested : option Z) (active : Z) : res DbError unit :=
  match requested with
  | Some requested =>
      let active := default u32_max (try_from_u u32_max active) in
      if requested <? active then Err (SeatLimitBelowActive requested active) else Ok tt
  | None => Ok tt
  end.

(** The stored configuration, and [SeatsConfigUpdate] applied to it. *)
Definition stored_config (o : OfferRow) : res DbError SeatsConfig :=
  mx ← transpose_map stored_max_seats (max_seats o);
  mem ← stored_max_seats (memory_max_seats o);
  pol ← stored_max_seats (policy_max_seats o);
  Ok {| sc_max_seats := mx; sc_memory_max_seats := mem; sc_policy_max_seats := pol;
        sc_ready_for_new_seats := ready_for_new_seats o |}.
Definition updated_config (u : SeatsConfigUpdate) (before : SeatsConfig) : SeatsConfig :=
  {| sc_max_seats := default (sc_max_seats before) (up_max_seats u);
     sc_memory_max_seats := default (sc_memory_max_seats before) (up_memory_max_seats u);
     sc_policy_max_seats := default (sc_policy_max_seats before) (up_policy_max_seats u);
     sc_ready_for_new_seats :=
       default (sc_ready_for_new_seats before) (up_ready_for_new_seats u) |}.

(** Whether an update withdraws quotes that are out. *)
Definition config_rotates (before after : SeatsConfig) (first : PortBase) (active next_no : Z)
  : bool :=
  bool_decide (sc_max_seats after <> sc_max_seats before)
  || bool_decide (sc_ready_for_new_seats after <> sc_ready_for_new_seats before)
  || ((0 <? config_slots before first active next_no)
      && (config_slots after first active next_no =? 0)).

(** The row [Db::update_seats_config] writes before rotating. *)
Definition write_config (before after : SeatsConfig) (now : Z) (o : OfferRow) : OfferRow :=
  {| max_seats := sc_max_seats after; price_msats := price_msats o;
     offer_updated_at_ms :=
       if bool_decide (sc_max_seats after <> sc_max_seats before) then Some now
       else offer_updated_at_ms o;
     offer_epoch := offer_epoch o;
     ready_for_new_seats := sc_ready_for_new_seats after;
     memory_max_seats := sc_memory_max_seats after;
     policy_max_seats := sc_policy_max_seats after |}.

(** [Db::update_seats_config]. *)
Definition update_seats_config (update : SeatsConfigUpdate) (first : PortBase)
    (now : Z) (fresh : string) : DbTx bool :=
  o ← tx_get offer;
  before ← tx_lift (stored_config o);
  let after := updated_config update before in
  active ← tx_get active_count;
  next_no ← tx_get next_seat_no;
  tx_lift (limit_guard (mjoin (up_max_seats update)) active);;
  if bool_decide (after = before) then mret false
  else
    sql_require (check_limits after);;
    tx_put (λ d, set_offer (write_config before after now (offer d)) d);;
    (if config_rotates before after first active next_no
     then update_offer_epoch fresh else mret tt);;
    mret true.

(** [Db::replace_setup_payment_policy]. *)
Definition replace_setup_payment_policy (event_json : string) (member_ids : list string)
    (fresh : string) : DbTx unit :=
  previous ← tx_get (λ d, elements (members d));
  tx_put (set_policy_event (Some event_json));;
  tx_put (set_members ∅);;
  tx_for member_ids (λ member,
    d ← tx_get members;
    sql_require (negb (bool_decide (member ∈ d)));;
    tx_put (λ d, set_members ({[member]} ∪ members d) d));;
  let removed_any :=
    existsb (λ previous_id, negb (existsb (λ m, bool_decide (m = previous_id)) member_ids))
      previous in
  if removed_any then update_offer_epoch fresh else mret tt.

(** [Db::offer_epoch]. *)
Definition db_offer_epoch (d : Db) : res DbError string := parse_offer_epoch (offer_epoch (offer d)).

End Offers.

Module Onboarding.

(** [OnboardingStage::parse]. *)
Definition parse_stage (s : string) : res DbError OnboardingStage :=
  if bool_decide (s = "identity"%string) then Ok StageIdentity
  else if bool_decide (s = "holder_authorization"%string) then Ok StageHolderAuthorization
  else if bool_decide (s = "initial_offer"%string) then Ok StageInitialOffer
  else if bool_decide (s = "complete"%string) then Ok StageComplete
  else Err (CorruptRow "onboarding_state" "unknown stage").

(** [WalletOrigin] with [as_str] and [parse]. *)
Inductive WalletOrigin := Fresh | Restored.

Definition wallet_origin_as_str (w : WalletOrigin) : string :=
  match w with Fresh => "fresh" | Restored => "restored" end.

Definition parse_wallet_origin (s : string) : res DbError WalletOrigin :=
  if bool_decide (s = "fresh"%string) then Ok Fresh
  else if bool_decide (s = "restored"%string) then Ok Restored
  else Err (CorruptRow "identity" "unknown wallet origin").

(** [ManifoldEnvironment] with its [Display]. *)
Inductive ManifoldEnvironment := Development | Staging | Production.

Definition environment_to_string (e : ManifoldEnvironment) : string :=
  match e with
  | Development => "development"
  | Staging => "staging"
  | Production => "production"
  end.

(** [Db::bind_manifold_environment]: the conditional insert, then the check of
    the row that is there. *)
Definition bind_manifold_environment (selected : ManifoldEnvironment) (d : Db)
  : Db * res DbError unit :=
  let name := environment_to_string selected in
  let d := match environment d with
           | None => set_environment (Some name) d
           | Some _ => d
           end in
  (d, match environment d with
      | Some bound =>
          if bool_decide (bound <> name) then Err (ManifoldEnvironmentMismatch bound name)
          else Ok tt
      | None => Err Sqlx
      end).

(** [Db::load_identity]; [parse] is [RootMnemonic::parse] (BIP-39). *)
Definition load_identity {M} (parse : string -> option M) (d : Db) : res DbError (option M) :=
  transpose_map (λ row, ok_or Mnemonic (parse (mnemonic row))) (identity d).

(** [Db::onboarding_stage]. *)
Definition onboarding_stage (d : Db) : res DbError OnboardingStage :=
  parse_stage (stage (onboarding d)).

(** [Db::wallet_origin]. *)
Definition db_wallet_origin (d : Db) : res DbError WalletOrigin :=
  match identity d with
  | Some row => parse_wallet_origin (wallet_origin row)
  | None => Err Sqlx
  end.

(** [UPDATE onboarding_state SET stage = new WHERE id = 1 AND stage = old];
    the number of affected rows. *)
Definition update_stage_from (old new : string) (now : Z) : DbTx Z :=
  current ← tx_get (λ d, stage (onboarding d));
  if bool_decide (current = old) then
    tx_put (set_onboarding {| stage := new; stage_updated_at_ms := now |});; mret 1
  else mret 0.

(** [INSERT INTO identity]: primary key [id = 1]. *)
Definition insert_identity (phrase origin : string) (now : Z) : DbTx unit :=
  row ← tx_get identity;
  sql_require (match row with None => true | Some _ => false end);;
  tx_put (set_identity (Some {| mnemonic := phrase; wallet_origin := origin;
                                identity_created_at_ms := now |})).

(** [Db::install_identity]. *)
Definition install_identity (phrase : string) (now : Z) : DbTx unit :=
  s ← tx_get (λ d, stage (onboarding d));
  st ← tx_lift (parse_stage s);
  if bool_decide (st <> StageIdentity) then tx_err (WrongOnboardingStage StageIdentity st)
  else
    insert_identity phrase (wallet_origin_as_str Fresh) now;;
    changed ← update_stage_from "identity" "holder_authorization" now;
    if negb (changed =? 1) then tx_err (WrongOnboardingStage StageIdentity st)
    else mret tt.

(** [Db::configure_initial_offer]; [price] is [Option<Msats>]. *)
Definition configure_initial_offer (price : option Z) (max : option Z) (now : Z) (fresh : string)
  : DbTx unit :=
  let price := u64_as_i64 <$> price in
  s ← tx_get (λ d, stage (onboarding d));
  st ← tx_lift (parse_stage s);
  if bool_decide (st <> StageInitialOffer) then tx_err (WrongOnboardingStage StageInitialOffer st)
  else
    active ← tx_get Offers.active_count;
    tx_lift (Offers.limit_guard max active);;
    sql_require (Offers.check_price price
      && match max with None => true | Some n => in_range 0 u32_max n end
      && (Z.of_nat (String.length fresh) =? 32));;
    tx_put (λ d, let o := offer d in set_offer
      {| max_seats := max; price_msats := price; offer_updated_at_ms := Some now;
         offer_epoch := fresh; ready_for_new_seats := ready_for_new_seats o;
         memory_max_seats := memory_max_seats o; policy_max_seats := policy_max_seats o |} d);;
    tx_put (set_onboarding {| stage := "complete"; stage_updated_at_ms := now |}).

(** [Db::holder_authorization_event_json]: drop a row issued beyond the bound,
    then read. *)
Definition drop_future_holder (max_issued_at : Z) : DbTx unit :=
  tx_put (λ d, match holder d with
               | Some row => if max_issued_at <? authorization_issued_at row
                             then set_holder None d else d
               | None => d
               end).
Definition holder_authorization_event_json (max_issued_at : Z) : DbTx (option string) :=
  drop_future_holder max_issued_at;;
  tx_get (λ d, holder_event_json <$> holder d).

(** [Db::replace_holder_authorization_event]. *)
Definition replace_holder_authorization_event (issued_at : Z) (event_json : string)
    (max_issued_at now : Z) : DbTx unit :=
  if max_issued_at <? issued_at then tx_err HolderAuthorizationIssuedAtTooFarFuture
  else
    drop_future_holder max_issued_at;;
    let new := Some {| authorization_issued_at := issued_at; holder_event_json := event_json |} in
    tx_put (λ d, match holder d with
                 | None => set_holder new d
                 | Some row => if authorization_issued_at row <? issued_at
                               then set_holder new d else d
                 end);;
    s ← tx_get (λ d, stage (onboarding d));
    st ← tx_lift (parse_stage s);
    changed ← update_stage_from "holder_authorization" "initial_offer" now;
    if bool_decide (st = StageHolderAuthorization) && negb (changed =? 1)
    then tx_err (WrongOnboardingStage StageHolderAuthorization st)
    else mret tt.

(** [Db::payout_destination] and [Db::set_payout_destination]. *)
Definition set_destination (destination : option string) : DbTx unit :=
  sql_require (match destination with
               | None => true
               | Some s => in_range 1 1024 (text_length s) end);;
  tx_put (set_payout_destination destination).

(** [Db::setup_payment_event_json]. *)
Definition setup_payment_event_json (d : Db) : option string := policy_event d.

End Onboarding.

Module Telemetry.

(** [Db::telemetry_capability_generation]. *)
Definition telemetry_capability_generation (d : Db) : res DbError Z :=
  ok_or (CorruptRow "telemetry_capability" "generation is outside the u64 domain")
    (try_from_u u64_max (generation (telemetry d))).

(** [Db::rotate_telemetry_capability_generation]. *)
Definition rotate_telemetry_capability_generation (now : Z) : DbTx Z :=
  g ← tx_get (λ d, generation (telemetry d));
  if g <? i64_max then
    tx_put (set_telemetry {| generation := g + 1; telemetry_updated_at_ms := now |});;
    tx_lift (ok_or (CorruptRow "telemetry_capability" "generation is outside the u64 domain")
      (try_from_u u64_max (g + 1)))
  else tx_err TelemetryGenerationExhausted.

End Telemetry.

Module Support.

(** [SupportRow]. *)
Record SupportRow := {
  sr_rumor_id : string;
  sr_from_fedi : bool;
  sr_body : string;
  sr_created_at : Z;
  sr_unread : bool
}.

(** [stored_secs]. *)
Definition stored_secs (secs : Z) : Z := default i64_max (try_from_i64 secs).

(** [Db::record_support_message]; the CHECK on the id length comes first. *)
Definition record_support_message (row : SupportRow) : DbTx unit :=
  sql_require (text_length (sr_rumor_id row) =? 64);;
  tx_put (λ d,
    if existsb (λ m, bool_decide (rumor_id m = sr_rumor_id row)) (support d) then d
    else set_support (support d ++
      [ {| rumor_id := sr_rumor_id row; from_fedi := sr_from_fedi row; body := sr_body row;
           support_created_at := stored_secs (sr_created_at row); support_read := false |} ]) d).

(** [ORDER BY created_at, rowid]: the table is kept in rowid order. *)
Definition thread_le (a b : nat * SupportMsg) : Prop :=
  support_created_at a.2 < support_created_at b.2 \/
  (support_created_at a.2 = support_created_at b.2 /\ (a.1 <= b.1)%nat).

#[global] Instance thread_le_dec a b : Decision (thread_le a b).
Proof. unfold thread_le. apply _. Defined.

Definition is_unread (m : SupportMsg) : bool := from_fedi m && negb (support_read m).

(** [Db::support_messages]. *)
Definition support_messages (d : Db) : res DbError (list SupportRow) :=
  collect (λ m,
    at_s ← expect (try_from_u u64_max (support_created_at m.2));
    Ok {| sr_rumor_id := rumor_id m.2; sr_from_fedi := from_fedi m.2; sr_body := body m.2;
          sr_created_at := at_s; sr_unread := is_unread m.2 |})
    (merge_sort thread_le (imap pair (support d))).

(** [Db::support_unread]. *)
Definition support_unread (d : Db) : Z := Z.of_nat (length (List.filter is_unread (support d))).

(** [Db::mark_support_read]. *)
Definition mark_support_read (rumor_ids : list string) : DbTx unit :=
  tx_put (λ d, set_support ((λ m,
    if from_fedi m && bool_decide (rumor_id m ∈ rumor_ids)
    then {| rumor_id := rumor_id m; from_fedi := from_fedi m; body := body m;
            support_created_at := support_created_at m; support_read := true |}
    else m) <$> support d) d).

End Support.
