(* ===== verification/MgSeats.v ===== *)
(** * The durable seat store ([crates/mg/core/src/db/seats.rs])

    Admission at SQLite's writer boundary, payment claims, decommissioning,
    ceremony inputs, the formed latch and the installation of a completion
    callback, over [MgSchema.Db].  FA keys, plans, claim
    evidence, callbacks and guardian-code lists are stored through the
    serializers of [Codec]. *)

From S2P Require Import Prelude MgFacts MgSchema MgDb.
From stdpp Require Import base gmap strings list sorting.
From Stdlib Require Import ZArith Lia.
Open Scope Z_scope.

Module Seats.
Import Ports Callback Offers.

(** [ClaimOutcome]. *)
Inductive ClaimOutcome := ClaimSuccess | ClaimAlreadySpent.

(** [CompletionCallbackOutcome]. *)
Inductive CompletionCallbackOutcome :=
| OutcomeDelivered
| OutcomeTerminal (reason : CompletionCallbackReason).

Section Store.
Context {FaId : Type} `{!EqDecision FaId} `{!Codec FaId}.
Context `{!Codec Plan}.
Context {Evidence : Type} `{!Codec Evidence}.
Context {Cb : Type} `{!Codec Cb}.
Context `{!Codec (list string)}.

(** [SeatFacts]. *)
Record SeatFacts := {
  sf_seat_id : string;
  sf_seat_no : Z;
  sf_fa_id : FaId;
  sf_plan : Plan;
  sf_federation_size : Z;
  sf_created_at_ms : Z
}.

(** [SeatRecord]. *)
Record SeatRecord := {
  rec_facts : SeatFacts;
  rec_decommissioned_at_ms : option Z
}.

(** [NewSeat]; its [payment] is the evidence of [NewPayment]. *)
Record NewSeat := {
  ns_seat_id : string;
  ns_fa_id : FaId;
  ns_plan : Plan;
  ns_federation_size : Z;
  ns_payment : option Evidence
}.

(** [PaymentRecord]. *)
Record PaymentRecord := {
  pay_seat_id : string;
  pay_evidence : Evidence;
  pay_outcome : option ClaimOutcome;
  pay_outcome_at_ms : option Z
}.

(** [SeatAdmissionResult]. *)
Inductive SeatAdmissionResult :=
| Inserted (facts : SeatFacts)
| Existing (facts : SeatFacts)
| OfferChanged.

(** [TryFrom<SeatRow> for SeatRecord]. *)
Definition seat_record_of_row (k : string) (r : SeatCols) (decom : option Z)
  : res DbError SeatRecord :=
  let corrupt := CorruptRow "seats" in
  (if Z.of_nat (String.length k) =? 32 then Ok tt else Err (corrupt "quote_id is not 32 bytes"));;
  no ← ok_or (corrupt "seat_no") (try_from_u u32_max (seat_no r));
  fa ← ok_or (corrupt "fi_id") (dec (fi_id r));
  pl ← ok_or (corrupt "plan") (dec (plan r));
  sz ← ok_or (corrupt "federation_size") (try_from_u u16_max (federation_size r));
  Ok {| rec_facts := {| sf_seat_id := k; sf_seat_no := no; sf_fa_id := fa; sf_plan := pl;
                        sf_federation_size := sz; sf_created_at_ms := created_at_ms r |};
        rec_decommissioned_at_ms := decom |}.

(** [SELECT ... FROM seats LEFT JOIN decommissioned_seats WHERE quote_id = ?]
    with its conversion. *)
Definition find_seat (k : string) (d : Db) : res DbError (option SeatFacts) :=
  transpose_map (λ r, rec ← seat_record_of_row k r (decommissioned d !! k); Ok (rec_facts rec))
    (seats d !! k).

(** [TryFrom<PaymentRow> for PaymentRecord]. *)
Definition payment_of_row (k : string) (r : ClaimCols) : res DbError PaymentRecord :=
  let corrupt := CorruptRow "ecash_claims" in
  (if Z.of_nat (String.length k) =? 32 then Ok tt else Err (corrupt "quote_id is not 32 bytes"));;
  oc ← transpose_map (λ value,
    if bool_decide (value = "success"%string) then Ok ClaimSuccess
    else if bool_decide (value = "already_spent"%string) then Ok ClaimAlreadySpent
    else Err (corrupt "unknown claim_outcome")) (claim_outcome r);
  ev ← ok_or (corrupt "evidence CBOR") (dec (evidence r));
  Ok {| pay_seat_id := k; pay_evidence := ev; pay_outcome := oc;
        pay_outcome_at_ms := claim_outcome_at_ms r |}.

(** [Db::admission_snapshot]. *)
Definition admission_snapshot (k : string) (d : Db) : res DbError (option SeatFacts * string) :=
  existing ← find_seat k d;
  epoch ← parse_offer_epoch (offer_epoch (offer d));
  Ok (existing, epoch).

(** The free slots an admission computes. *)
Definition admission_slots (first : PortBase) (d : Db) : res DbError Z :=
  let o := offer d in
  mx ← transpose_map stored_max_seats (max_seats o);
  mem ← stored_max_seats (memory_max_seats o);
  pol ← stored_max_seats (policy_max_seats o);
  Ok (available_slots (effective_max_seats mx mem pol) first (active_count d) (next_seat_no d)).

(** The three writes of an accepted admission: the seat, its payment and, for
    the last slot, the rotation of the epoch. *)
Definition record_admission (new_seat : NewSeat) (next_no now slots : Z) (fresh : string)
  : DbTx unit :=
  insert_seat (ns_seat_id new_seat)
    {| seat_no := next_no; fi_id := enc (ns_fa_id new_seat); plan := enc (ns_plan new_seat);
       federation_size := ns_federation_size new_seat; created_at_ms := now |};;
  (match ns_payment new_seat with
   | Some ev => insert_claim (ns_seat_id new_seat) (enc ev)
   | None => mret tt
   end);;
  (if slots =? 1 then update_offer_epoch fresh else mret tt).

(** [Db::admit_seat_at_writer_boundary].  The source converts [next_no] after
    the commit; a free slot means the number has a port block, so the
    conversion cannot fail there ([MgFleet]). *)
Definition admit_seat_at_writer_boundary (new_seat : NewSeat) (epoch_wanted : string)
    (first : PortBase) (now : Z) (fresh : string) : DbTx SeatAdmissionResult :=
  let k := ns_seat_id new_seat in
  d ← tx_get id;
  existing ← tx_lift (find_seat k d);
  match existing with
  | Some facts => mret (Existing facts)
  | None =>
      let o := offer d in
      epoch ← tx_lift (parse_offer_epoch (offer_epoch o));
      if bool_decide (epoch <> epoch_wanted) then mret OfferChanged
      else
        let next_no := next_seat_no d in
        slots ← tx_lift (admission_slots first d);
        if negb (0 <? slots) then tx_panic
        else
          record_admission new_seat next_no now slots fresh;;
          no ← tx_lift (expect (try_from_u u32_max next_no));
          mret (Inserted {| sf_seat_id := k; sf_seat_no := no; sf_fa_id := ns_fa_id new_seat;
                            sf_plan := ns_plan new_seat;
                            sf_federation_size := ns_federation_size new_seat;
                            sf_created_at_ms := now |})
  end.

(** [Db::admit_seat]: decide replays and stale epochs on a read snapshot
    [snap], then decide again in a write transaction on the database [d] of
    that later moment. *)
Definition admit_seat (new_seat : NewSeat) (epoch_wanted : string) (first : PortBase)
    (now : Z) (fresh : string) (snap d : Db) : Db * res DbError SeatAdmissionResult :=
  match admission_snapshot (ns_seat_id new_seat) snap with
  | Err e => (d, Err e)
  | Panic => (d, Panic)
  | Ok (Some facts, _) => (d, Ok (Existing facts))
  | Ok (None, epoch) =>
      if bool_decide (epoch <> epoch_wanted) then (d, Ok OfferChanged)
      else run_tx (admit_seat_at_writer_boundary new_seat epoch_wanted first now fresh) d
  end.

(** [ORDER BY created_at_ms, quote_id]. *)
Definition seat_le (a b : string * SeatCols) : Prop :=
  created_at_ms a.2 < created_at_ms b.2 \/
  (created_at_ms a.2 = created_at_ms b.2 /\ String.le a.1 b.1).

#[global] Instance seat_le_dec a b : Decision (seat_le a b).
Proof. unfold seat_le. apply _. Defined.

(** [Db::list_seats]. *)
Definition list_seats (d : Db) : res DbError (list SeatRecord) :=
  collect (λ kr, seat_record_of_row kr.1 kr.2 (decommissioned d !! kr.1))
    (merge_sort seat_le (map_to_list (seats d))).

(** [Db::payments]: claims joined to their seats, in seat order. *)
Definition payments (d : Db) : res DbError (list PaymentRecord) :=
  collect (λ kc, payment_of_row kc.1 kc.2)
    (omap (λ kr, (pair kr.1) <$> claims d !! kr.1)
       (merge_sort seat_le (map_to_list (seats d)))).

Definition claim_key_le (a b : string * ClaimCols) : Prop := String.le a.1 b.1.

#[global] Instance claim_key_le_dec a b : Decision (claim_key_le a b).
Proof. unfold claim_key_le. apply _. Defined.

(** [Db::pending_ecash_claims]. *)
Definition pending_ecash_claims (d : Db) : res DbError (list PaymentRecord) :=
  collect (λ kc, payment_of_row kc.1 kc.2)
    (merge_sort claim_key_le
       (List.filter (λ kc, match claim_outcome kc.2 with None => true | Some _ => false end)
          (map_to_list (claims d)))).

(** [Db::payment]. *)
Definition payment (k : string) (d : Db) : res DbError (option PaymentRecord) :=
  transpose_map (payment_of_row k) (claims d !! k).

(** [Db::record_claim_outcome]. *)
Definition record_claim_outcome (k : string) (outcome : ClaimOutcome) (now : Z) : DbTx Z :=
  let text := match outcome with
              | ClaimSuccess => "success"
              | ClaimAlreadySpent => "already_spent" end%string in
  row ← tx_get (λ d, claims d !! k);
  match row with
  | Some r =>
      match claim_outcome r with
      | None =>
          tx_put (λ d, set_claims
            (<[k := {| evidence := evidence r; claim_outcome := Some text;
                       claim_outcome_at_ms := Some now |}]> (claims d)) d);;
          mret now
      | Some _ => tx_err (CorruptRow "ecash_claims" "claim-outcome update")
      end
  | None => tx_err (CorruptRow "ecash_claims" "claim-outcome update")
  end.

(** The two resumable callback states. *)
Definition resumable_status (s : string) : bool :=
  bool_decide (s = "pending"%string) || bool_decide (s = "operator_blocked"%string).

(** [UPDATE completion_callbacks SET ... WHERE quote_id = ? AND guard];
    the number of affected rows. *)
Definition update_callback (k : string) (guard : Db -> CallbackCols -> bool)
    (f : CallbackCols -> CallbackCols) : DbTx Z :=
  d ← tx_get id;
  match callbacks d !! k with
  | Some r =>
      if guard d r then tx_put (λ d, set_callbacks (<[k := f r]> (callbacks d)) d);; mret 1
      else mret 0
  | None => mret 0
  end.

(** [Db::decommission_seat]. *)
Definition decommission_seat (k : string) (now : Z) : DbTx Z :=
  insert_decommissioned k now;;
  _ ← update_callback k (λ _ r, resumable_status (completion_callback_status r))
    (λ r, {| completion_callback := None;
             completion_callback_status := "terminal";
             completion_callback_attempts := completion_callback_attempts r;
             completion_callback_next_attempt_at_ms := None;
             completion_callback_reason := Some "decommissioned"%string;
             completion_callback_completed_at_ms := Some now |});
  mret now.

(** [install_completion_callback] (the helper and the [Db] method). *)
Definition install_completion_callback (k : string) (cb : option Cb) (now : Z) : DbTx unit :=
  d ← tx_get id;
  match callbacks d !! k with
  | Some _ => mret tt
  | None =>
      sql_require (present (seats d) k);;
      tx_put (λ d, set_callbacks
        (<[k := {| completion_callback := enc <$> cb;
                   completion_callback_status :=
                     match cb with Some _ => "pending" | None => "not_configured" end;
                   completion_callback_attempts := 0;
                   completion_callback_next_attempt_at_ms := (λ _, now) <$> cb;
                   completion_callback_reason := None;
                   completion_callback_completed_at_ms := None |}]> (callbacks d)) d)
  end.

(** [Db::record_dkg_inputs], with the [dkg_inputs_no_transfer] triggers. *)
Definition record_dkg_inputs (k : string) (codes : list string) (cb : option Cb) (now : Z)
  : DbTx unit :=
  d ← tx_get id;
  if absent (formed d) k && absent (decommissioned d) k then
    sql_require (absent (transfer_in d) k && absent (transfer_out d) k && present (seats d) k);;
    tx_put (λ d, set_dkg_inputs (<[k := enc codes]> (dkg_inputs d)) d);;
    install_completion_callback k cb now
  else tx_err (CorruptRow "dkg_inputs"
    "attempted to record inputs for a formed or decommissioned seat").

(** [Db::dkg_inputs]. *)
Definition read_dkg_inputs (k : string) (d : Db) : res DbError (option (list string)) :=
  if absent (formed d) k && absent (decommissioned d) k then
    transpose_map (λ json, ok_or (CorruptRow "dkg_inputs" "json") (dec json)) (dkg_inputs d !! k)
  else Ok None.

(** [Db::record_formed]: insert or ignore, then compare the stored invite. *)
Definition record_formed (k invite : string) (now : Z) : DbTx Z :=
  d ← tx_get id;
  (match formed d !! k with
   | Some _ => mret tt
   | None => insert_formed k invite now
   end);;
  row ← tx_get (λ d, formed d !! k);
  match row with
  | Some r =>
      if bool_decide (federation_invite r <> invite)
      then tx_err (CorruptRow "formed_seats" "formed invite differs from the immutable stored invite")
      else mret (formed_at_ms r)
  | None => tx_err Sqlx
  end.

(** [Db::decommissioned_at_ms] and [Db::formed_federation_invite]. *)
Definition decommissioned_at_ms (k : string) (d : Db) : option Z := decommissioned d !! k.
Definition formed_federation_invite (k : string) (d : Db) : option string :=
  federation_invite <$> formed d !! k.

End Store.
End Seats.
