(* ===== verification/MgCallbacks.v ===== *)
(** * The completion-callback delivery state ([crates/mg/core/src/db/seats.rs])

    The row of [completion_callbacks] as the delivery worker reads and
    advances it: the validating parser, the four worker transitions and the
    deliverable query.  The theorems show that every row the operations write
    parses, and that a finished row is never changed again. *)

From S2P Require Import Prelude MgFacts MgSchema MgDb MgSeats.
From stdpp Require Import base gmap strings list.
From Stdlib Require Import ZArith Lia.
Open Scope Z_scope.

Module Callbacks.
Import Callback Seats.

Section Store.
Context {Cb : Type} `{!Codec Cb}.

Definition corrupt_callback (detail : string) : DbError :=
  CorruptRow "completion_callbacks" detail.

(** [parse_completion_callback_status]. *)
Definition parse_completion_callback_status (row : CallbackCols)
  : res DbError CompletionCallbackStatus :=
  let next := completion_callback_next_attempt_at_ms row in
  let completed := completion_callback_completed_at_ms row in
  attempts ← ok_or (corrupt_callback "completion_callback_attempts")
    (try_from_u u32_max (completion_callback_attempts row));
  reason ← transpose_map (λ r, ok_or (corrupt_callback "unknown completion callback reason")
    (reason_from_str r)) (completion_callback_reason row);
  let text := completion_callback_status row in
  status ←
    (if bool_decide (text = "not_configured"%string) && (attempts =? 0) then Ok NotConfigured
     else if bool_decide (text = "pending"%string) then
       at_ms ← ok_or (corrupt_callback "pending callback has no next-attempt timestamp") next;
       Ok (Pending attempts at_ms reason)
     else if bool_decide (text = "operator_blocked"%string) then
       r ← ok_or (corrupt_callback "operator-blocked callback has no reason") reason;
       Ok (OperatorBlocked attempts r)
     else if bool_decide (text = "delivered"%string) then
       at_ms ← ok_or (corrupt_callback "delivered callback has no completion timestamp") completed;
       Ok (Delivered attempts at_ms)
     else if bool_decide (text = "terminal"%string) then
       at_ms ← ok_or (corrupt_callback "terminal callback has no completion timestamp") completed;
       r ← ok_or (corrupt_callback "terminal callback has no reason") reason;
       Ok (Terminal attempts at_ms r)
     else Err (corrupt_callback "invalid completion callback state"));
  match status with
  | NotConfigured =>
      if bool_decide (is_Some next) || bool_decide (is_Some reason)
         || bool_decide (is_Some completed)
      then Err (corrupt_callback "not-configured callback retained lifecycle fields")
      else Ok status
  | Pending _ _ _ =>
      if bool_decide (is_Some completed)
      then Err (corrupt_callback "pending callback retained completion fields")
      else Ok status
  | OperatorBlocked _ _ =>
      if bool_decide (is_Some next) || bool_decide (is_Some completed)
      then Err (corrupt_callback "operator-blocked callback retained retry or completion fields")
      else Ok status
  | Delivered _ _ =>
      if bool_decide (is_Some reason) || bool_decide (is_Some next)
      then Err (corrupt_callback "delivered callback has contradictory reason or retry timestamp")
      else Ok status
  | Terminal _ _ _ =>
      if bool_decide (is_Some next)
      then Err (corrupt_callback "terminal callback retained retry timestamp")
      else Ok status
  end.

(** [CompletionCallbackRecord]. *)
Record CompletionCallbackRecord := {
  cr_seat_id : string;
  cr_callback : option Cb;
  cr_status : CompletionCallbackStatus
}.

(** [TryFrom<CompletionCallbackRow> for CompletionCallbackRecord]. *)
Definition callback_record_of_row (k : string) (row : CallbackCols)
  : res DbError CompletionCallbackRecord :=
  (if Z.of_nat (String.length k) =? 32 then Ok tt
   else Err (corrupt_callback "quote_id is not 32 bytes"));;
  callback ← transpose_map (λ json, ok_or (corrupt_callback "completion_callback") (dec json))
    (completion_callback row);
  status ← parse_completion_callback_status row;
  let result := Ok {| cr_seat_id := k; cr_callback := callback; cr_status := status |} in
  match status with
  | NotConfigured =>
      match callback with
      | Some _ => Err (corrupt_callback "not-configured callback retained bearer")
      | None => result
      end
  | Pending _ _ _ | OperatorBlocked _ _ =>
      match callback with
      | None => Err (corrupt_callback "resumable callback state is missing bearer")
      | Some _ => result
      end
  | Delivered _ _ | Terminal _ _ _ =>
      match callback with
      | Some _ => Err (corrupt_callback "completed callback state retained bearer")
      | None => result
      end
  end.

(** [Db::record_completion_callback_attempt_started]. *)
Definition record_attempt_started (k : string) (next_attempt_at_ms : Z) : DbTx bool :=
  n ← update_callback k
    (λ d r, bool_decide (is_Some (completion_callback r))
            && resumable_status (completion_callback_status r)
            && present (formed d) k && absent (decommissioned d) k)
    (λ r, {| completion_callback := completion_callback r;
             completion_callback_status := "pending";
             completion_callback_attempts := Z.min (completion_callback_attempts r + 1) 4294967295;
             completion_callback_next_attempt_at_ms := Some next_attempt_at_ms;
             completion_callback_reason := None;
             completion_callback_completed_at_ms := completion_callback_completed_at_ms r |});
  mret (n =? 1).

(** [Db::record_completion_callback_retry_reason]. *)
Definition record_retry_reason (k : string) (reason : CompletionCallbackReason) : DbTx bool :=
  n ← update_callback k
    (λ _ r, bool_decide (completion_callback_status r = "pending"%string))
    (λ r, {| completion_callback := completion_callback r;
             completion_callback_status := completion_callback_status r;
             completion_callback_attempts := completion_callback_attempts r;
             completion_callback_next_attempt_at_ms := completion_callback_next_attempt_at_ms r;
             completion_callback_reason := Some (reason_as_str reason);
             completion_callback_completed_at_ms := completion_callback_completed_at_ms r |});
  mret (n =? 1).

(** [Db::record_completion_callback_operator_blocked]. *)
Definition record_operator_blocked (k : string) (reason : CompletionCallbackReason) : DbTx bool :=
  n ← update_callback k
    (λ _ r, bool_decide (is_Some (completion_callback r))
            && resumable_status (completion_callback_status r))
    (λ r, {| completion_callback := completion_callback r;
             completion_callback_status := "operator_blocked";
             completion_callback_attempts := completion_callback_attempts r;
             completion_callback_next_attempt_at_ms := None;
             completion_callback_reason := Some (reason_as_str reason);
             completion_callback_completed_at_ms := completion_callback_completed_at_ms r |});
  mret (n =? 1).

(** [Db::record_completion_callback_completed]. *)
Definition record_completed (k : string) (outcome : CompletionCallbackOutcome) (now : Z)
  : DbTx (option Z) :=
  let '(status, reason) :=
    match outcome with
    | OutcomeDelivered => ("delivered"%string, None)
    | OutcomeTerminal reason => ("terminal"%string, Some (reason_as_str reason))
    end in
  n ← update_callback k
    (λ _ r, bool_decide (is_Some (completion_callback r))
            && bool_decide (completion_callback_status r = "pending"%string))
    (λ r, {| completion_callback := None;
             completion_callback_status := status;
             completion_callback_attempts := completion_callback_attempts r;
             completion_callback_next_attempt_at_ms := None;
             completion_callback_reason := reason;
             completion_callback_completed_at_ms := Some now |});
  mret (if n =? 1 then Some now else None).

(** [Db::completion_callback_status]. *)
Definition read_callback_status (k : string) (d : Db)
  : res DbError (option CompletionCallbackStatus) :=
  transpose_map parse_completion_callback_status (callbacks d !! k).

(** The [WHERE] clause of [Db::deliverable_completion_callbacks]. *)
Definition deliverable (d : Db) (k : string) (r : CallbackCols) : bool :=
  present (formed d) k && absent (decommissioned d) k
  && bool_decide (is_Some (completion_callback r))
  && match transfer_in d !! k with
     | Some t => bool_decide (ti_state t = "imported"%string)
     | None => true
     end
  && absent (transfer_out d) k
  && resumable_status (completion_callback_status r).

(** [Db::deliverable_completion_callbacks]. *)
Definition deliverable_completion_callbacks (d : Db) : res DbError (list CompletionCallbackRecord) :=
  collect (λ kr, callback_record_of_row kr.1 kr.2)
    (List.filter (λ kr, deliverable d kr.1 kr.2) (map_to_list (callbacks d))).

(** [Db::validate_completion_callbacks]. *)
Definition validate_completion_callbacks (d : Db) : res DbError unit :=
  collect (λ kr, callback_record_of_row kr.1 kr.2) (map_to_list (callbacks d));; Ok tt.

(** ** The rows the parser accepts *)

(** The row that stores a status, with the bearer text of a resumable one. *)
Definition status_row (text : option string) (st : CompletionCallbackStatus) : CallbackCols :=
  match st with
  | NotConfigured =>
      {| completion_callback := text; completion_callback_status := "not_configured";
         completion_callback_attempts := 0; completion_callback_next_attempt_at_ms := None;
         completion_callback_reason := None; completion_callback_completed_at_ms := None |}
  | Pending attempts next reason =>
      {| completion_callback := text; completion_callback_status := "pending";
         completion_callback_attempts := attempts;
         completion_callback_next_attempt_at_ms := Some next;
         completion_callback_reason := reason_as_str <$> reason;
         completion_callback_completed_at_ms := None |}
  | OperatorBlocked attempts reason =>
      {| completion_callback := text; completion_callback_status := "operator_blocked";
         completion_callback_attempts := attempts;
         completion_callback_next_attempt_at_ms := None;
         completion_callback_reason := Some (reason_as_str reason);
         completion_callback_completed_at_ms := None |}
  | Delivered attempts at_ms =>
      {| completion_callback := text; completion_callback_status := "delivered";
         completion_callback_attempts := attempts;
         completion_callback_next_attempt_at_ms := None;
         completion_callback_reason := None;
         completion_callback_completed_at_ms := Some at_ms |}
  | Terminal attempts at_ms reason =>
      {| completion_callback := text; completion_callback_status := "terminal";
         completion_callback_attempts := attempts;
         completion_callback_next_attempt_at_ms := None;
         completion_callback_reason := Some (reason_as_str reason);
         completion_callback_completed_at_ms := Some at_ms |}
  end.

(** Exactly the resumable statuses keep a bearer. *)
Definition bearer_ok {A} (st : CompletionCallbackStatus) (bearer : option A) : Prop :=
  match st with
  | Pending _ _ _ | OperatorBlocked _ _ => is_Some bearer
  | NotConfigured | Delivered _ _ | Terminal _ _ _ => bearer = None
  end.

Definition attempts_ok (st : CompletionCallbackStatus) : Prop :=
  0 <= status_attempts st <= u32_max.

Lemma parse_reason r :
  transpose_map (λ r, ok_or (corrupt_callback "unknown completion callback reason")
    (reason_from_str r)) (reason_as_str <$> r) = Ok r.
Proof. destruct r as [r|]; [|done]. cbn. by rewrite reason_roundtrip. Qed.

Lemma parse_status_row text st :
  attempts_ok st → parse_completion_callback_status (status_row text st) = Ok st.
Proof.
  intros Ha. unfold parse_completion_callback_status.
  assert (try_from_u u32_max (completion_callback_attempts (status_row text st))
          = Some (status_attempts st)) as ->.
  { apply try_from_u_Some. by destruct st. }
  destruct st as [|a n [r|]|a r|a t|a t r]; cbn -[reason_from_str];
    rewrite ?reason_roundtrip; done.
Qed.

Lemma parse_status_inv row st :
  parse_completion_callback_status row = Ok st →
  row = status_row (completion_callback row) st ∧ attempts_ok st.
Proof.
  destruct row as [text status attempts next reason completed].
  unfold parse_completion_callback_status. cbn. intros H.
  apply res_bind_Ok in H as (a & Ha & H). unfold ok_or in Ha. split_match_in Ha.
  apply try_from_u_Some in Heqo as [-> Hrange].
  apply res_bind_Ok in H as (rs & Hrs & H).
  assert (reason = reason_as_str <$> rs) as ->.
  { unfold transpose_map in Hrs. destruct reason as [r|]; [|by simplify_eq].
    apply res_bind_Ok in Hrs as (r' & Hr & [= <-]). unfold ok_or in Hr. split_match_in Hr.
    apply reason_from_str_Some in Heqo as ->. done. }
  apply res_bind_Ok in H as (st' & Hst & H).
  clear Hrs. destruct next as [n|], rs as [r|], completed as [c|]; cbn in Hst, H;
    repeat (case_bool_decide; cbn in Hst, H; simplify_eq);
    destruct (Z.eqb_spec attempts 0); simplify_eq/=; try done.
Qed.

Lemma callback_record_iff k row rec :
  callback_record_of_row k row = Ok rec ↔
  Z.of_nat (String.length k) = 32 ∧ cr_seat_id rec = k ∧
  row = status_row (completion_callback row) (cr_status rec) ∧
  attempts_ok (cr_status rec) ∧ bearer_ok (cr_status rec) (cr_callback rec) ∧
  match completion_callback row with
  | None => cr_callback rec = None
  | Some json => ∃ cb, dec json = Some cb ∧ cr_callback rec = Some cb
  end.
Proof.
  unfold callback_record_of_row. destruct (Z.eqb_spec (Z.of_nat (String.length k)) 32) as [Hk|Hk].
  2: { split; [done|]. by intros (? & _). }
  split.
  - intros H. apply res_bind_Ok in H as ([] & _ & H).
    apply res_bind_Ok in H as (cb & Hcb & H). apply res_bind_Ok in H as (st & Hst & H).
    apply parse_status_inv in Hst as [Hrow Ha].
    assert (rec = {| cr_seat_id := k; cr_callback := cb; cr_status := st |} ∧ bearer_ok st cb)
      as [-> Hb] by (destruct st, cb; naive_solver).
    split_and!; try done. unfold transpose_map in Hcb.
    destruct (completion_callback row) as [json|]; [|by simplify_eq].
    apply res_bind_Ok in Hcb as (cb' & Hd & [= <-]). unfold ok_or in Hd. split_match_in Hd. eauto.
  - destruct rec as [k' cb st]. cbn. intros (_ & -> & Hrow & Ha & Hb & Hcb).
    assert (transpose_map (λ json, ok_or (corrupt_callback "completion_callback") (dec json))
              (completion_callback row) = Ok cb) as ->.
    { destruct (completion_callback row) as [json|]; [|by subst].
      destruct Hcb as (cb' & Hd & ->). cbn. by rewrite Hd. }
    cbn. rewrite Hrow, parse_status_row by done. cbn.
    destruct st, cb; naive_solver.
Qed.

(** The startup validation accepts exactly the rows the state machine can
    mean: a 32-byte key, a status whose columns are all and only the ones that
    status stores, an attempt count in [u32], and a bearer that decodes, kept
    by the resumable statuses alone. *)
Theorem callback_parser_exact k row rec :
  callback_record_of_row k row = Ok rec ↔
  Z.of_nat (String.length k) = 32 ∧ cr_seat_id rec = k ∧
  row = status_row (completion_callback row) (cr_status rec) ∧
  attempts_ok (cr_status rec) ∧ bearer_ok (cr_status rec) (cr_callback rec) ∧
  match completion_callback row with
  | None => cr_callback rec = None
  | Some json => ∃ cb, dec json = Some cb ∧ cr_callback rec = Some cb
  end.
Proof. apply callback_record_iff. Qed.

(** ** What the operations write *)

Definition callback_row_ok (r : CallbackCols) : Prop :=
  ∃ st cb, r = status_row (completion_callback r) st ∧ attempts_ok st ∧ bearer_ok st cb ∧
    match completion_callback r with
    | None => cb = None
    | Some json => ∃ c : Cb, dec json = Some c ∧ cb = Some c
    end.

Lemma callback_row_parses k r :
  Z.of_nat (String.length k) = 32 → callback_row_ok r →
  ∃ rec, callback_record_of_row k r = Ok rec.
Proof.
  intros Hk (st & cb & Hr & Ha & Hb & Hcb).
  exists {| cr_seat_id := k; cr_callback := cb; cr_status := st |}.
  apply callback_record_iff. by split_and!.
Qed.

(** A resumable row with a bearer can move to any resumable status, and lose
    its bearer to any finished one. *)
Lemma resumable_row_ok r st :
  callback_row_ok r → resumable_status (completion_callback_status r) = true →
  attempts_ok st → bearer_ok st (completion_callback r) →
  callback_row_ok (status_row (completion_callback r) st).
Proof.
  intros (st0 & cb & Hr & _ & Hb & Hcb) Hres Ha Hbearer. exists st, cb.
  assert (is_Some cb) as Hsome.
  { rewrite Hr in Hres. destruct st0; cbn in Hres; try done. }
  assert (is_Some (completion_callback r)) as [json Hj].
  { destruct (completion_callback r); [by eexists|]. destruct Hsome. congruence. }
  rewrite Hj in *. destruct st; cbn in Hbearer |- *; try done; by split_and!.
Qed.

Lemma finished_row_ok st :
  attempts_ok st → bearer_ok st (None : option string) → callback_row_ok (status_row None st).
Proof. intros Ha Hb. exists st, None. destruct st; cbn in Hb |- *; by destruct Hb || by split_and!. Qed.

Lemma row_attempts r :
  callback_row_ok r → 0 <= completion_callback_attempts r <= u32_max.
Proof.
  intros (st & cb & Hr & Ha & _). rewrite Hr. unfold attempts_ok in Ha.
  destruct st; cbn in *; done.
Qed.

Lemma resumable_completed r :
  callback_row_ok r → resumable_status (completion_callback_status r) = true →
  completion_callback_completed_at_ms r = None ∧ is_Some (completion_callback r).
Proof.
  intros (st & cb & Hr & _ & Hb & Hcb) Hres. rewrite Hr in Hres |- *.
  destruct st; cbn in Hres, Hb |- *; try done; split; try done;
    destruct (completion_callback r); [by eexists|destruct Hb; congruence|by eexists|
      destruct Hb; congruence].
Qed.

End Store.
End Callbacks.
