(* ===== verification/Signing.v ===== *)
(** * Signed envelopes ([crates/service-manifold-guardian/src/signing.rs])

    The three envelope kinds (FA request, MG request, MG response), the
    message each one signs and the verification order.  SHA-256, BIP-340 and
    serde JSON are parameters.  The theorems show that the signed message
    determines direction, verb and payload, that what one side creates the
    other side verifies, and what a verified request guarantees. *)

From S2P Require Import Prelude.
From stdpp Require Import base strings list.
From Stdlib Require Import Ascii ZArith Lia.
Open Scope Z_scope.

Module Signing.

(** [FA_REQUEST_SIGNATURE_DOMAIN] and its two siblings. *)
Definition nul : string := String "000"%char EmptyString.
Definition FA_REQUEST_SIGNATURE_DOMAIN : string := ("fedi-fman-fi-request/v1" +:+ nul)%string.
Definition MG_RESPONSE_SIGNATURE_DOMAIN : string := ("fedi-fman-response/v1" +:+ nul)%string.
Definition MG_REQUEST_SIGNATURE_DOMAIN : string := ("fedi-fman-mg-request/v1" +:+ nul)%string.

Definition FA_REQUEST_FRESHNESS_WINDOW_SECS : Z := 60 * 60.

(** [AuthError]; [Serialize] and [Sign] keep no message. *)
Inductive AuthError :=
| Payload (expected : string)
| BadSignature
| SignerMismatch
| Stale
| Serialize
| Sign.

(** The roster of [fa_signed_requests!]. *)
Inductive FaVerb :=
| CreateSeat | GetDkgCode | StartDkg | RestartDkg | GetStatus | GetInviteCode
| GetPeerAttestation | SetMetaField | ProposeFormationMeta | RegisterGateway
| GetFedimintStats | DecommissionSeat | TransferGrant | PullSeat
| ReplaceSeatBinding | RemoveSeat.

Definition fa_label (v : FaVerb) : string :=
  match v with
  | CreateSeat => "create_seat"
  | GetDkgCode => "get_dkg_code"
  | StartDkg => "start_dkg"
  | RestartDkg => "restart_dkg"
  | GetStatus => "get_status"
  | GetInviteCode => "get_invite_code"
  | GetPeerAttestation => "get_peer_attestation"
  | SetMetaField => "set_meta_field"
  | ProposeFormationMeta => "propose_formation_meta"
  | RegisterGateway => "register_gateway"
  | GetFedimintStats => "get_fedimint_stats"
  | DecommissionSeat => "decommission_seat"
  | TransferGrant => "seat_transfer_grant"
  | PullSeat => "pull_seat"
  | ReplaceSeatBinding => "replace_seat_binding"
  | RemoveSeat => "remove_seat"
  end.

(** The rosters of [manager_signed_responses!] and [ManagerSignedRequest]. *)
Inductive MgResponseVerb := GetQuoteResponse | CreateSeatResponse.
Definition mg_response_label (v : MgResponseVerb) : string :=
  match v with GetQuoteResponse => "get_quote" | CreateSeatResponse => "create_seat" end.
Inductive MgRequestVerb := TransferSeat.
Definition mg_request_label (v : MgRequestVerb) : string :=
  match v with TransferSeat => "transfer_seat" end.

(** What an envelope signs: a direction with its verb. *)
Inductive Verb :=
| FaRequest (v : FaVerb)
| MgResponse (v : MgResponseVerb)
| MgRequest (v : MgRequestVerb).

Definition verb_domain (v : Verb) : string :=
  match v with
  | FaRequest _ => FA_REQUEST_SIGNATURE_DOMAIN
  | MgResponse _ => MG_RESPONSE_SIGNATURE_DOMAIN
  | MgRequest _ => MG_REQUEST_SIGNATURE_DOMAIN
  end.
Definition verb_label (v : Verb) : string :=
  match v with
  | FaRequest v => fa_label v
  | MgResponse v => mg_response_label v
  | MgRequest v => mg_request_label v
  end.

(** The bytes [signing_digest] feeds the hasher. *)
Definition signing_message (domain label payload : string) : string :=
  (domain +:+ (label +:+ (nul +:+ payload)))%string.

(** [now.abs_diff(ts) <= FA_REQUEST_FRESHNESS_WINDOW_SECS]. *)
Definition is_fresh_default (ts now : Z) : bool :=
  Z.abs (now - ts) <=? FA_REQUEST_FRESHNESS_WINDOW_SECS.

Section Envelopes.
Context {Key Keypair Sig : Type} `{!EqDecision Key}.
Variable sha256 : string -> string.
Variable verify_schnorr : Sig -> string -> Key -> bool.
Variable sign_schnorr : string -> Keypair -> Sig.

(** [signing_digest] and its three callers. *)
Definition signing_digest (domain label payload : string) : string :=
  sha256 (signing_message domain label payload).
Definition fa_request_signing_digest := signing_digest FA_REQUEST_SIGNATURE_DOMAIN.
Definition manager_response_signing_digest := signing_digest MG_RESPONSE_SIGNATURE_DOMAIN.
Definition manager_request_signing_digest := signing_digest MG_REQUEST_SIGNATURE_DOMAIN.

(** [FaSignedRequest]: the verb's label and the fields the boundary checks. *)
Class FaSignedRequest (T : Type) := {
  fa_verb : FaVerb;
  fa_ts : T -> Z;
  fa_signer : T -> Key;
  is_fresh : T -> Z -> bool
}.

(** [ManagerSignedRequest]. *)
Class ManagerSignedRequest (T : Type) := {
  mgr_verb : MgRequestVerb;
  mgr_ts : T -> Z;
  service_pubkey_of : T -> Key
}.

(** [ManagerSignedResponse]. *)
Class ManagerSignedResponse (T : Type) := { mgs_verb : MgResponseVerb }.

(** [SignedRequest], [MgSignedRequest] and [SignedResponse]. *)
Record SignedRequest := {
  sr_fa_id : Key;
  sr_payload : string;
  sr_fa_signature : Sig
}.
Record MgSignedRequest := {
  mr_service_pubkey : Key;
  mr_payload : string;
  mr_manager_signature : Sig
}.
Record SignedResponse := {
  sp_payload : string;
  sp_manager_signature : Sig
}.

Section Typed.
Context {T : Type} `{!Codec T}.

(** [SignedRequest::create_with_signer]. *)
Definition create_with_signer `{!FaSignedRequest T} (request : T)
    (signer : string -> option Sig) : res AuthError SignedRequest :=
  let payload := enc request in
  signature ← ok_or Sign (signer (fa_request_signing_digest (fa_label fa_verb) payload));
  Ok {| sr_fa_id := fa_signer request; sr_payload := payload; sr_fa_signature := signature |}.

(** [SignedRequest::create]. *)
Definition create_request `{!FaSignedRequest T} (request : T) (key : Keypair)
  : res AuthError SignedRequest :=
  create_with_signer request (λ digest, Some (sign_schnorr digest key)).

(** [SignedRequest::verify]. *)
Definition verify_request `{!FaSignedRequest T} (e : SignedRequest) (now : Z)
  : res AuthError T :=
  let label := fa_label fa_verb in
  if negb (verify_schnorr (sr_fa_signature e)
             (fa_request_signing_digest label (sr_payload e)) (sr_fa_id e))
  then Err BadSignature
  else
    request ← ok_or (Payload label) (dec (sr_payload e));
    if bool_decide (fa_signer request <> sr_fa_id e) then Err SignerMismatch
    else if negb (is_fresh request now) then Err Stale
    else Ok request.

(** [MgSignedRequest::create] and [verify]. *)
Definition create_mg_request `{!ManagerSignedRequest T} (request : T) (key : Keypair)
  : res AuthError MgSignedRequest :=
  let payload := enc request in
  let digest := manager_request_signing_digest (mg_request_label mgr_verb) payload in
  Ok {| mr_service_pubkey := service_pubkey_of request; mr_payload := payload;
        mr_manager_signature := sign_schnorr digest key |}.
Definition verify_mg_request `{!ManagerSignedRequest T} (e : MgSignedRequest) (now : Z)
  : res AuthError T :=
  let label := mg_request_label mgr_verb in
  if negb (verify_schnorr (mr_manager_signature e)
             (manager_request_signing_digest label (mr_payload e)) (mr_service_pubkey e))
  then Err BadSignature
  else
    request ← ok_or (Payload label) (dec (mr_payload e));
    if bool_decide (service_pubkey_of request <> mr_service_pubkey e) then Err SignerMismatch
    else if FA_REQUEST_FRESHNESS_WINDOW_SECS <? Z.abs (now - mgr_ts request) then Err Stale
    else Ok request.

(** [SignedResponse::create] and [verify]; the verified response carries the
    SHA-256 of the signed payload. *)
Definition create_response `{!ManagerSignedResponse T} (response : T) (key : Keypair)
  : res AuthError SignedResponse :=
  let payload := enc response in
  Ok {| sp_payload := payload;
        sp_manager_signature :=
          sign_schnorr (manager_response_signing_digest (mg_response_label mgs_verb) payload) key |}.
Definition verify_response `{!ManagerSignedResponse T} (e : SignedResponse) (service_pubkey : Key)
  : res AuthError (T * string) :=
  let label := mg_response_label mgs_verb in
  if negb (verify_schnorr (sp_manager_signature e)
             (manager_response_signing_digest label (sp_payload e)) service_pubkey)
  then Err BadSignature
  else
    response ← ok_or (Payload label) (dec (sp_payload e));
    Ok (response, sha256 (sp_payload e)).

End Typed.
(** ** Guarantees of the verification order *)

Section Guarantees.
Context {T : Type} `{!Codec T} `{!FaSignedRequest T}.

Lemma verify_request_Ok e now r :
  verify_request (T:=T) e now = Ok r ↔
  verify_schnorr (sr_fa_signature e)
    (fa_request_signing_digest (fa_label fa_verb) (sr_payload e)) (sr_fa_id e) = true ∧
  dec (sr_payload e) = Some r ∧ fa_signer r = sr_fa_id e ∧ is_fresh r now = true.
Proof.
  unfold verify_request. destruct (verify_schnorr _ _ _); cbn;
    [|split; [done|by intros [? _]]].
  destruct (dec (sr_payload e)) as [r'|]; cbn; [|split; [done|by intros (_ & ? & _)]].
  case_bool_decide as Hs; destruct (is_fresh r' now) eqn:Hf; cbn;
    (split; [intros; simplify_eq|intros (_ & ? & ? & ?); simplify_eq]); try congruence.
  done.
Qed.

(** Every refusal names its cause in the documented order: a bad
    signature is reported before the payload is parsed, an unparsable payload
    before the signer check, and a foreign signer before staleness; and a
    request is accepted exactly when all four checks pass. *)
Theorem verify_request_decides e now :
  match verify_request (T:=T) e now with
  | Ok r =>
      verify_schnorr (sr_fa_signature e)
        (fa_request_signing_digest (fa_label fa_verb) (sr_payload e)) (sr_fa_id e) = true ∧
      dec (sr_payload e) = Some r ∧ fa_signer r = sr_fa_id e ∧ is_fresh r now = true
  | Err BadSignature =>
      verify_schnorr (sr_fa_signature e)
        (fa_request_signing_digest (fa_label fa_verb) (sr_payload e)) (sr_fa_id e) = false
  | Err (Payload label) => label = fa_label fa_verb ∧ dec (A:=T) (sr_payload e) = None
  | Err SignerMismatch => ∃ r, dec (A:=T) (sr_payload e) = Some r ∧ fa_signer r <> sr_fa_id e
  | Err Stale => ∃ r, dec (A:=T) (sr_payload e) = Some r ∧ fa_signer r = sr_fa_id e ∧
                      is_fresh r now = false
  | Err _ | Panic => False
  end.
Proof.
  unfold verify_request. destruct (verify_schnorr _ _ _) eqn:?; cbn; [|done].
  destruct (dec (sr_payload e)) as [r|] eqn:?; cbn; [|done].
  case_bool_decide as Hs; cbn; [by exists r|].
  destruct (is_fresh r now) eqn:?; cbn; [done|by exists r].
Qed.

Lemma create_request_Ok r key :
  create_request r key = Ok {| sr_fa_id := fa_signer r; sr_payload := enc r;
    sr_fa_signature :=
      sign_schnorr (fa_request_signing_digest (fa_label fa_verb) (enc r)) key |}.
Proof. done. Qed.

End Guarantees.
End Envelopes.

(** What the holder of a key creates, the daemon verifies back to the
    same request while it is fresh, for any signature scheme whose own
    signatures verify and any serializer that reads back what it wrote. *)
Theorem create_verify_roundtrip {Key Keypair Sig T : Type} `{!EqDecision Key} `{!Codec T}
    `{!CodecOk T} (sha256 : string -> string) (verify : Sig -> string -> Key -> bool)
    (sign : string -> Keypair -> Sig) (public : Keypair -> Key)
    `{!FaSignedRequest (Key:=Key) T} (r : T) (key : Keypair) (now : Z)
    (Hschnorr : ∀ m k, verify (sign m k) m (public k) = true)
    (Hkey : fa_signer r = public key) (Hfresh : is_fresh r now = true) :
  (e ← create_request sha256 sign r key; verify_request sha256 verify e now) = Ok r.
Proof.
  rewrite create_request_Ok. cbn. apply verify_request_Ok. cbn.
  rewrite Hkey, Hschnorr, dec_enc. naive_solver.
Qed.

(** A scheme whose signature is the signed message and the key, for the
    witness. *)
Definition toy_verify (s : string * string) (m : string) (k : string) : bool :=
  bool_decide (s = (m, k)).
Definition toy_request : FaSignedRequest (Key:=string) (string * Z) :=
  {| fa_verb := GetStatus; fa_ts r := r.2; fa_signer r := r.1;
     is_fresh r now := is_fresh_default r.2 now |}.

Lemma create_verify_roundtrip_witness :
  (e ← @create_request string string (string * string) (λ m, m) (λ m k, (m, k))
         (string * Z) (bits_codec _) toy_request ("alice"%string, 7200) "alice"%string;
   @verify_request string (string * string) _ (λ m, m) toy_verify
     (string * Z) (bits_codec _) toy_request e 3600) = Ok ("alice"%string, 7200).
Proof.
  apply (@create_verify_roundtrip string string (string * string) (string * Z) _
    (bits_codec _) (bits_codec_ok _) (λ m, m) toy_verify (λ m k, (m, k)) (λ k, k) toy_request
    ("alice"%string, 7200) "alice"%string 3600).
  - intros m k. unfold toy_verify. by apply bool_decide_eq_true_2.
  - reflexivity.
  - reflexivity.
Defined.

(** ** The signed message determines what was signed *)

Fixpoint nul_free (s : string) : bool :=
  match s with
  | EmptyString => true
  | String c rest => negb (bool_decide (c = "000"%char)) && nul_free rest
  end.

Lemma nul_split_inj a b x y :
  nul_free a = true → nul_free b = true →
  (a +:+ (nul +:+ x) = b +:+ (nul +:+ y))%string → a = b ∧ x = y.
Proof.
  revert b. induction a as [|c a IH]; intros [|c' b]; cbn; intros Ha Hb Heq;
    rewrite ?andb_true_iff, ?negb_true_iff, ?bool_decide_eq_false in *; simplify_eq; try naive_solver.
Qed.

(** The printable part of a domain separator. *)
Definition domain_name (v : Verb) : string :=
  match v with
  | FaRequest _ => "fedi-fman-fi-request/v1"
  | MgResponse _ => "fedi-fman-response/v1"
  | MgRequest _ => "fedi-fman-mg-request/v1"
  end.

Lemma string_app_assoc (a b c : string) : ((a +:+ b) +:+ c = a +:+ (b +:+ c))%string.
Proof. induction a as [|x a IH]; [done|]. exact (f_equal (String x) IH). Qed.

Lemma signing_message_split v p :
  signing_message (verb_domain v) (verb_label v) p =
  (domain_name v +:+ (nul +:+ (verb_label v +:+ (nul +:+ p))))%string.
Proof. unfold signing_message. destruct v; cbn [verb_domain domain_name]; apply string_app_assoc. Qed.

(** the bytes an envelope signs determine its direction, its verb and
    its payload: no signature minted for one verb (for example [GetStatus])
    can be replayed as another verb or in the other direction, whatever the
    payload bytes are. *)
Theorem signing_message_binds (v1 v2 : Verb) (p1 p2 : string) :
  signing_message (verb_domain v1) (verb_label v1) p1 =
  signing_message (verb_domain v2) (verb_label v2) p2 ↔ v1 = v2 ∧ p1 = p2.
Proof.
  split; [|naive_solver]. rewrite !signing_message_split. intros Heq.
  apply nul_split_inj in Heq as [Hd Heq]; [|by destruct v1|by destruct v2].
  apply nul_split_inj in Heq as [Hl ->]; [|by destruct v1 as [[]|[]|[]]|by destruct v2 as [[]|[]|[]]].
  split; [|done].
  destruct v1 as [v1|v1|v1], v2 as [v2|v2|v2]; try discriminate Hd; f_equal;
    destruct v1, v2; first [reflexivity | discriminate Hl].
Qed.

End Signing.
