(* ===== verification/MgTransfers.v ===== *)
(** * Guardian transfers ([crates/mg/core/src/db/transfers.rs],
      [crates/mg/core/src/transfer_state.rs],
      [crates/service-manifold-guardian/src/transfer.rs])

    The FA-signed grant, the destination's durable incoming record, the
    source's permanent outgoing fence and the transactions that move them.
    The theorems show that the stored record reads back, that admission is
    idempotent per move and refuses a federation another live seat serves,
    and that acceptance commits with the formed row.

    Module [Transfers] models them; module [Moves] runs a concrete move. *)

From S2P Require Import Prelude MgFacts MgSchema MgDb MgSeats Signing.
From stdpp Require Import base gmap strings list countable.
From Stdlib Require Import ZArith Lia Ascii.
Open Scope Z_scope.

Module Transfers.
Import Signing Seats.

(** [ServiceStatus]. *)
Inductive ServiceStatus :=
| New | DkgInProcess | DataLoss | Running | StatusDecommissioned
| AwaitingTransfer | Transferred | StatusRemoved.

(** [OutgoingTransfer] with [as_db_str] and [from_db_str]. *)
Inductive OutgoingTransfer := Stopped | Removed.

#[global] Instance OutgoingTransfer_eq_dec : EqDecision OutgoingTransfer.
Proof. solve_decision. Defined.

Definition as_db_str (o : OutgoingTransfer) : string :=
  match o with Stopped => "stopped" | Removed => "removed" end.

Definition from_db_str (s : string) : option OutgoingTransfer :=
  if bool_decide (s = "stopped"%string) then Some Stopped
  else if bool_decide (s = "removed"%string) then Some Removed
  else None.

(** [TransferPhase] with [service_status]. *)
Inductive TransferPhase := PhaseWaiting | PhaseImported | PhaseOutgoing (o : OutgoingTransfer).

Definition service_status (p : TransferPhase) : option ServiceStatus :=
  match p with
  | PhaseWaiting => Some AwaitingTransfer
  | PhaseImported => None
  | PhaseOutgoing Removed => Some StatusRemoved
  | PhaseOutgoing Stopped => Some Transferred
  end.

(** [ImportedKeys]: the two 32-byte Iroh secrets. *)
Record ImportedKeys := { iroh_api : string; iroh_p2p : string }.

Definition keys_wf (k : ImportedKeys) : bool :=
  (Z.of_nat (String.length (iroh_api k)) =? 32) && (Z.of_nat (String.length (iroh_p2p k)) =? 32).

Section Store.
Context {Key Sig Addr : Type} `{!EqDecision Key} `{!EqDecision Addr}.

(** [Locator]; its version field has one value. *)
Record Locator := { endpoint_addr : Addr; loc_service_pubkey : Key }.

#[global] Instance Locator_eq_dec : EqDecision Locator.
Proof. solve_decision. Defined.

(** [SeatTransferGrant]. *)
Record SeatTransferGrant := {
  g_ts : Z;
  g_fa_id : Key;
  g_federation_id : string;
  g_source : Locator;
  g_source_seat_id : string;
  g_destination_service_pubkey : Key;
  g_destination_seat_id : string
}.

(** [SeatTransferGrant::is_valid_at]. *)
Definition is_valid_at (g : SeatTransferGrant) (now : Z) : bool :=
  g_ts g <=? saturating_add_u u64_max now FA_REQUEST_FRESHNESS_WINDOW_SECS.

(** [SeatTransferGrant => "seat_transfer_grant" (fresh: is_valid_at)]. *)
#[global] Instance grant_request : FaSignedRequest (Key:=Key) SeatTransferGrant :=
  {| fa_verb := TransferGrant; fa_ts := g_ts; fa_signer := g_fa_id; is_fresh := is_valid_at |}.

(** [TransferMove] and its conversion from a grant. *)
Record TransferMove := {
  mv_fa_id : Key;
  mv_federation_id : string;
  mv_source : Locator;
  mv_source_seat_id : string;
  mv_destination_service_pubkey : Key;
  mv_destination_seat_id : string
}.

#[global] Instance TransferMove_eq_dec : EqDecision TransferMove.
Proof. solve_decision. Defined.

Definition move_of_grant (g : SeatTransferGrant) : TransferMove :=
  {| mv_fa_id := g_fa_id g;
     mv_federation_id := g_federation_id g;
     mv_source := g_source g;
     mv_source_seat_id := g_source_seat_id g;
     mv_destination_service_pubkey := g_destination_service_pubkey g;
     mv_destination_seat_id := g_destination_seat_id g |}.

Abbreviation Grant := (SignedRequest (Key:=Key) (Sig:=Sig)).

(** [IncomingState] and [IncomingTransfer]. *)
Inductive IncomingState :=
| Waiting (grant : Grant)
| Imported (keys : ImportedKeys).
Record IncomingTransfer := {
  in_binding : TransferMove;
  in_callback_commitment : option string;
  in_state : IncomingState
}.

(** [IncomingTransfer::accepted] and [phase]. *)
Definition accepted (r : IncomingTransfer) : option ImportedKeys :=
  match in_state r with Imported keys => Some keys | Waiting _ => None end.
Definition phase_of (r : IncomingTransfer) : TransferPhase :=
  match in_state r with Waiting _ => PhaseWaiting | Imported _ => PhaseImported end.

Context `{!Codec TransferMove} `{!Codec Grant} `{!Codec SeatTransferGrant} `{!Codec Key}.
Context {Cb : Type} `{!Codec Cb}.
Variable sha256 : string -> string.
Variable verify_schnorr : Sig -> string -> Key -> bool.
(** [serde_json_canonicalizer::to_vec] of a callback, and
    [InviteCode::from_str] followed by [federation_id().to_string()]. *)
Variable canonical_callback : Cb -> string.
Variable invite_federation_id : string -> option string.

(** [corrupt]. *)
Definition corrupt_transfer : DbError :=
  CorruptRow "seat_transfer_in" "invalid durable transfer record".

(** [<[u8; 32]>::try_from]. *)
Definition bytes32 (s : string) : res DbError string :=
  if Z.of_nat (String.length s) =? 32 then Ok s else Err corrupt_transfer.

(** [decode]. *)
Definition decode_incoming (row : TransferInCols) : res DbError IncomingTransfer :=
  binding ← ok_or corrupt_transfer (dec (ti_binding row));
  commitment ← transpose_map bytes32 (ti_callback_commitment row);
  state ←
    match ti_grant row, ti_iroh_api_sk row, ti_iroh_p2p_sk row with
    | Some grant, None, None =>
        if bool_decide (ti_state row = "waiting"%string) then
          g ← ok_or corrupt_transfer (dec grant); Ok (Waiting g)
        else Err corrupt_transfer
    | None, Some api, Some p2p =>
        if bool_decide (ti_state row = "imported"%string) then
          a ← bytes32 api; b ← bytes32 p2p;
          Ok (Imported {| iroh_api := a; iroh_p2p := b |})
        else Err corrupt_transfer
    | _, _, _ => Err corrupt_transfer
    end;
  Ok {| in_binding := binding; in_callback_commitment := commitment; in_state := state |}.

(** [incoming] and [outgoing]. *)
Definition incoming (k : string) (d : Db) : res DbError (option IncomingTransfer) :=
  transpose_map decode_incoming (transfer_in d !! k).
Definition outgoing (k : string) (d : Db) : res DbError (option OutgoingTransfer) :=
  transpose_map (λ phase, ok_or corrupt_transfer (from_db_str phase)) (transfer_out d !! k).

(** The row [save] binds. *)
Definition incoming_row (r : IncomingTransfer) : TransferInCols :=
  let '(state, grant, keys) :=
    match in_state r with
    | Waiting grant => ("waiting"%string, Some (enc grant), None)
    | Imported keys => ("imported"%string, None, Some keys)
    end in
  {| ti_state := state;
     ti_binding := enc (in_binding r);
     ti_callback_commitment := in_callback_commitment r;
     ti_grant := grant;
     ti_iroh_api_sk := iroh_api <$> keys;
     ti_iroh_p2p_sk := iroh_p2p <$> keys |}.

(** The CHECK constraints of [seat_transfer_in]. *)
Definition length_is_32 (o : option string) : bool :=
  match o with None => true | Some s => Z.of_nat (String.length s) =? 32 end.
Definition check_transfer_in (r : TransferInCols) : bool :=
  let waiting := bool_decide (ti_state r = "waiting"%string) in
  (waiting || bool_decide (ti_state r = "imported"%string))
  && length_is_32 (ti_callback_commitment r)
  && length_is_32 (ti_iroh_api_sk r) && length_is_32 (ti_iroh_p2p_sk r)
  && Bool.eqb waiting (bool_decide (is_Some (ti_grant r)))
  && Bool.eqb (negb waiting)
       (bool_decide (is_Some (ti_iroh_api_sk r)) && bool_decide (is_Some (ti_iroh_p2p_sk r))).

(** [save]: insert or overwrite, with the foreign key and the CHECKs. *)
Definition save (k : string) (r : IncomingTransfer) : DbTx unit :=
  d ← tx_get id;
  sql_require (present (seats d) k && check_transfer_in (incoming_row r));;
  tx_put (λ d, set_transfer_in (<[k := incoming_row r]> (transfer_in d)) d).

(** [is_retired]. *)
Definition is_retired (k : string) (d : Db) : bool :=
  present (decommissioned d) k || present (transfer_out d) k.

(** The two loops of [federation_available], each with its early return. *)
Fixpoint no_formed_invite (fed : string) (rows : list FormedCols) : res DbError bool :=
  match rows with
  | [] => Ok true
  | r :: rows =>
      id ← ok_or corrupt_transfer (invite_federation_id (federation_invite r));
      if bool_decide (id = fed) then Ok false else no_formed_invite fed rows
  end.
Fixpoint no_incoming_move (fed : string) (rows : list TransferInCols) : res DbError bool :=
  match rows with
  | [] => Ok true
  | r :: rows =>
      record ← decode_incoming r;
      if bool_decide (mv_federation_id (in_binding record) = fed) then Ok false
      else no_incoming_move fed rows
  end.

(** The rows of a table for other, live seats. *)
Definition other_live {V} (k : string) (d : Db) (m : gmap string V) : list V :=
  (map_to_list (filter (λ kv, kv.1 <> k ∧ Offers.is_active d kv.1 = true) m)).*2.

(** [federation_available]. *)
Definition federation_available (k : string) (binding : TransferMove) (d : Db)
  : res DbError bool :=
  let fed := mv_federation_id binding in
  ok ← no_formed_invite fed (other_live k d (formed d));
  if negb ok then Ok false else no_incoming_move fed (other_live k d (transfer_in d)).

(** [Db::transfer_phase]. *)
Definition transfer_phase (k : string) (d : Db) : res DbError (option TransferPhase) :=
  out ← outgoing k d;
  match out with
  | Some o => Ok (Some (PhaseOutgoing o))
  | None => r ← incoming k d; Ok (option_map phase_of r)
  end.

(** [b"mg/guardian-transfer/v1/callback\0" || canonical callback], hashed. *)
Definition commitment_of (cb : Cb) : string :=
  sha256 (("mg/guardian-transfer/v1/callback" +:+ nul) +:+ canonical_callback cb)%string.

(** [Db::admit_transfer]; [now] and [now_cb] are the two clock reads, in ms. *)
Definition admit_transfer (grant : Grant) (cb : option Cb) (now now_cb : Z)
  : DbTx (option IncomingTransfer) :=
  match verify_request sha256 verify_schnorr (T:=SeatTransferGrant) grant
          (i64_as_u64 (Z.quot now 1000)) with
  | Err _ => mret None
  | Panic => tx_panic
  | Ok verified =>
      let k := g_destination_seat_id verified in
      d ← tx_get id;
      let owner := fi_id <$> seats d !! k in
      if bool_decide (owner <> Some (enc (g_fa_id verified))) || is_retired k d then mret None
      else
        let binding := move_of_grant verified in
        let commitment := commitment_of <$> cb in
        previous ← tx_lift (incoming k d);
        match previous with
        | Some previous =>
            if bool_decide (in_callback_commitment previous <> commitment) then mret None
            else if bool_decide (in_binding previous <> binding) then mret None
            else
              match in_state previous with
              | Waiting _ => mret (Some previous)
              | Imported _ =>
                  install_completion_callback k cb now_cb;;
                  mret (Some previous)
              end
        | None =>
            if present (formed d) k || present (dkg_inputs d) k then mret None
            else
              available ← tx_lift (federation_available k binding d);
              if negb available then mret None
              else
                let record := {| in_binding := binding; in_callback_commitment := commitment;
                                 in_state := Waiting grant |} in
                save k record;;
                install_completion_callback k cb now_cb;;
                mret (Some record)
        end
  end.

(** [Db::accept_transfer]. *)
Definition accept_transfer (k : string) (binding : TransferMove) (keys : ImportedKeys)
    (invite : string) (now : Z) : DbTx bool :=
  d ← tx_get id;
  record ← tx_lift (incoming k d);
  match record with
  | None => mret false
  | Some record =>
      match in_state record with
      | Imported _ => mret false
      | Waiting _ =>
          if bool_decide (in_binding record <> binding) || is_retired k d then mret false
          else
            save k {| in_binding := in_binding record;
                      in_callback_commitment := in_callback_commitment record;
                      in_state := Imported keys |};;
            insert_formed k invite now;;
            mret true
      end
  end.

(** [Db::retire_for_transfer]. *)
Definition retire_for_transfer (k : string) : DbTx bool :=
  d ← tx_get id;
  if present (formed d) k && absent (decommissioned d) k
     && match transfer_in d !! k with
        | Some r => bool_decide (ti_state r = "imported"%string)
        | None => true
        end
     && absent (transfer_out d) k
  then insert_transfer_out k "stopped";; mret true
  else mret false.

(** [Db::record_transfer_removal]. *)
Definition record_transfer_removal (k : string) : DbTx bool :=
  d ← tx_get id;
  if bool_decide (transfer_out d !! k = Some "stopped"%string) then
    tx_put (λ d, set_transfer_out (<[k := "removed"%string]> (transfer_out d)) d);;
    tx_put (λ d, set_transfer_in (delete k (transfer_in d)) d);;
    mret true
  else mret false.

(** ** The stored record reads back *)

Context `{!CodecOk TransferMove} `{!CodecOk Grant}.

(** What the types of a record guarantee: 32-byte commitment and keys. *)
Definition record_wf (r : IncomingTransfer) : bool :=
  length_is_32 (in_callback_commitment r)
  && match in_state r with Waiting _ => true | Imported keys => keys_wf keys end.

Lemma bytes32_ok s : (Z.of_nat (String.length s) =? 32) = true → bytes32 s = Ok s.
Proof. intros H. unfold bytes32. by rewrite H. Qed.

Lemma decode_incoming_row r : record_wf r = true → decode_incoming (incoming_row r) = Ok r.
Proof.
  destruct r as [b c st]. unfold record_wf. cbn [in_callback_commitment in_state].
  intros [Hc Hst]%andb_true_iff.
  assert (transpose_map bytes32 c = Ok c) as Hcommit.
  { destruct c as [c|]; cbn in Hc |- *; [|done]. by rewrite bytes32_ok. }
  unfold decode_incoming, incoming_row. destruct st as [g|keys]; cbn; rewrite !dec_enc, Hcommit; cbn.
  - done.
  - unfold keys_wf in Hst. apply andb_true_iff in Hst as [Ha Hp].
    rewrite (bytes32_ok _ Ha), (bytes32_ok _ Hp). by destruct keys.
Qed.

Lemma check_incoming_row r : record_wf r = true → check_transfer_in (incoming_row r) = true.
Proof.
  unfold record_wf, keys_wf. destruct r as [b c [g|keys]]; cbn.
  - rewrite andb_true_r. intros Hc. unfold check_transfer_in. cbn. by rewrite Hc.
  - intros [Hc [Ha Hp]%andb_true_iff]%andb_true_iff. unfold check_transfer_in. cbn.
    by rewrite Hc, Ha, Hp.
Qed.

Lemma record_wf_of_check r : check_transfer_in (incoming_row r) = true → record_wf r = true.
Proof.
  unfold record_wf, keys_wf, check_transfer_in. destruct r as [b c [g|keys]]; cbn;
    rewrite ?andb_true_iff; tauto.
Qed.

Lemma save_Ok k r d d' u :
  save k r d = Ok (d', u) ↔
  d' = set_transfer_in (<[k := incoming_row r]> (transfer_in d)) d ∧ is_Some (seats d !! k) ∧
  record_wf r = true.
Proof.
  unfold save. split.
  - intros H. tx_inv. cbn [id] in *.
    match goal with H : _ && _ = true |- _ => apply andb_true_iff in H as [Hs Hc] end.
    apply present_true in Hs. split_and!; [done|done|by apply record_wf_of_check].
  - intros (-> & Hs & Hr). rewrite (tx_bind_eq _ _ d d d eq_refl). destruct u.
    by rewrite (proj2 (present_true _ _) Hs), (check_incoming_row r Hr).
Qed.

Lemma incoming_after_save k r d :
  record_wf r = true →
  incoming k (set_transfer_in (<[k := incoming_row r]> (transfer_in d)) d) = Ok (Some r).
Proof.
  intros Hr. unfold incoming. cbn [transfer_in set_transfer_in]. rewrite lookup_insert_eq.
  cbn [transpose_map]. by rewrite decode_incoming_row.
Qed.

(** An incoming transfer is stored losslessly: for a seat that exists and a
    well-formed record, [save] commits, [incoming] reads the same record
    back, whatever was stored before, and other seats are untouched. *)
Theorem transfer_record_roundtrip k r d (Hseat : is_Some (seats d !! k))
    (Hwf : record_wf r = true) :
  ∃ d', save k r d = Ok (d', tt) ∧ incoming k d' = Ok (Some r) ∧
    ∀ k', k' <> k → incoming k' d' = incoming k' d.
Proof.
  exists (set_transfer_in (<[k := incoming_row r]> (transfer_in d)) d). split_and!.
  - by apply save_Ok.
  - by apply incoming_after_save.
  - intros k' Hne. unfold incoming. cbn [transfer_in set_transfer_in].
    by rewrite lookup_insert_ne by congruence.
Qed.

(** ** Admission *)

Abbreviation verify_ := (verify_request sha256 verify_schnorr (T:=SeatTransferGrant)).

(** The committed effect of installing a callback on the other tables. *)
Lemma install_callback_Ok k (cb : option Cb) now d d' u :
  install_completion_callback k cb now d = Ok (d', u) →
  is_Some (callbacks d' !! k) ∧ d' = set_callbacks (callbacks d') d.
Proof.
  intros H. unfold install_completion_callback in H. tx_inv; cbn [id] in *.
  - split; [by eexists|]. match goal with |- ?x = _ => by destruct x end.
  - split; [|done]. cbn. rewrite lookup_insert_eq. by eexists.
Qed.
Lemma install_callback_again k (cb : option Cb) now d :
  is_Some (callbacks d !! k) → install_completion_callback k cb now d = Ok (d, tt).
Proof.
  intros [r Hr]. unfold install_completion_callback.
  rewrite (tx_bind_eq _ _ d d d eq_refl). cbn [id]. by rewrite Hr.
Qed.

(** What a granted admission has established. *)
Lemma admit_transfer_Some g cb now now_cb d d' r :
  admit_transfer g cb now now_cb d = Ok (d', Some r) →
  ∃ v, verify_ g (i64_as_u64 (Z.quot now 1000)) = Ok v ∧
    in_binding r = move_of_grant v ∧ in_callback_commitment r = commitment_of <$> cb ∧
    fi_id <$> seats d !! g_destination_seat_id v = Some (enc (g_fa_id v)) ∧
    is_retired (g_destination_seat_id v) d = false ∧
    incoming (g_destination_seat_id v) d' = Ok (Some r) ∧
    seats d' = seats d ∧ decommissioned d' = decommissioned d ∧ transfer_out d' = transfer_out d ∧
    (d' = d ∧ phase_of r = PhaseWaiting ∨ is_Some (callbacks d' !! g_destination_seat_id v)) ∧
    (incoming (g_destination_seat_id v) d = Ok None →
       formed d !! g_destination_seat_id v = None ∧ dkg_inputs d !! g_destination_seat_id v = None ∧
       federation_available (g_destination_seat_id v) (in_binding r) d = Ok true) ∧
    formed d' = formed d ∧
    (∀ k', k' <> g_destination_seat_id v → transfer_in d' !! k' = transfer_in d !! k').
Proof.
  intros H. unfold admit_transfer in H. tx_inv; cbn [id] in *; try discriminate.
  all: match goal with H : bool_decide _ || _ = false |- _ => apply orb_false_iff in H as [Ho Hret] end;
    apply bool_decide_eq_false, dec_stable in Ho.
  all: repeat match goal with
    | H : bool_decide (_ <> _) = false |- _ => apply bool_decide_eq_false, dec_stable in H
    end.
  all: simplify_eq; exists a.
  - split_and!; try done; [left; by unfold phase_of; case_match|congruence].
  - match goal with H : install_completion_callback _ _ _ _ = _ |- _ =>
      apply install_callback_Ok in H as [Hcb Hx] end.
    split_and!; try done; try (by rewrite Hx); try (by right).
    congruence.
  - match goal with H : install_completion_callback _ _ _ _ = _ |- _ =>
      apply install_callback_Ok in H as [Hcb Hx] end.
    match goal with H : save _ _ _ = _ |- _ => apply save_Ok in H as (-> & _ & Hwf) end.
    match goal with H : present _ _ || _ = false |- _ =>
      apply orb_false_iff in H as [Hf%negb_false_iff%absent_true Hg%negb_false_iff%absent_true] end.
    split_and!; try done; try by rewrite Hx.
    + rewrite Hx. by apply (incoming_after_save _ _ (set_callbacks (callbacks x2) d)).
    + by right.
    + intros _. split_and!; try done.
      match goal with H : federation_available _ _ _ = Ok ?b |- _ => by destruct b end.
    + intros k' Hk. rewrite Hx. cbn. by apply lookup_insert_ne.
Qed.

(** The branches of an admission, forwards. *)
Lemma admit_transfer_known g cb now now_cb d v r :
  verify_ g (i64_as_u64 (Z.quot now 1000)) = Ok v →
  fi_id <$> seats d !! g_destination_seat_id v = Some (enc (g_fa_id v)) →
  is_retired (g_destination_seat_id v) d = false →
  incoming (g_destination_seat_id v) d = Ok (Some r) →
  admit_transfer g cb now now_cb d =
  (if bool_decide (in_callback_commitment r <> commitment_of <$> cb)
      || bool_decide (in_binding r <> move_of_grant v) then Ok (d, None)
   else match in_state r with
        | Waiting _ => Ok (d, Some r)
        | Imported _ => (install_completion_callback (g_destination_seat_id v) cb now_cb;;
                         mret (Some r)) d
        end).
Proof.
  intros Hv Ho Hret Hin. unfold admit_transfer. rewrite Hv.
  rewrite (tx_bind_eq _ _ d d d eq_refl). cbn [id]. rewrite Ho, Hret.
  rewrite bool_decide_eq_false_2 by (intros Hne; by apply Hne). cbn [orb].
  rewrite (tx_bind_eq _ _ d d (Some r)) by (rewrite Hin; reflexivity).
  case_bool_decide; cbn [orb]; [done|]. case_bool_decide; [done|]. by destruct (in_state r).
Qed.

(** a seat is bound to one move.  After a grant has been admitted, any
    later grant for the same move with the same callback, also one the FA
    signed again, returns the stored record and changes nothing, and a grant
    for another move or with another callback choice is refused without a
    write. *)
Theorem transfer_admission_binds_one_move g g' cb cb' now now_cb now' now_cb' d d' r v'
    (Hfirst : admit_transfer g cb now now_cb d = Ok (d', Some r))
    (Hverify : verify_request sha256 verify_schnorr g' (i64_as_u64 (Z.quot now' 1000)) = Ok v')
    (Hseat : g_destination_seat_id v' = mv_destination_seat_id (in_binding r))
    (Howner : g_fa_id v' = mv_fa_id (in_binding r)) :
  admit_transfer g' cb' now' now_cb' d' =
    Ok (d', if bool_decide (move_of_grant v' = in_binding r)
               && bool_decide (commitment_of <$> cb' = commitment_of <$> cb)
            then Some r else None).
Proof.
  apply admit_transfer_Some in Hfirst
    as (v & _ & Hb & Hc & Ho & Hret & Hin & Hs & Hd & Ht & Hcase & _).
  rewrite Hb in Hseat, Howner. cbn in Hseat, Howner.
  rewrite (admit_transfer_known _ _ _ _ _ v' r); [|done|by rewrite Hseat, Howner, Hs|
    by unfold is_retired in *; rewrite Hseat, Hd, Ht|by rewrite Hseat].
  rewrite Hc. destruct (bool_decide_reflect (move_of_grant v' = in_binding r)) as [Hm|Hm].
  2: { rewrite (bool_decide_eq_true_2 (in_binding r <> _)) by congruence. by rewrite orb_true_r. }
  destruct (bool_decide_reflect (commitment_of <$> cb' = commitment_of <$> cb)) as [Hcc|Hcc].
  2: { by rewrite bool_decide_eq_true_2 by congruence. }
  rewrite !bool_decide_eq_false_2 by congruence. cbn [orb andb].
  destruct (in_state r) eqn:Hst; [done|]. destruct Hcase as [[_ Hw]|Hcb].
  - unfold phase_of in Hw. by rewrite Hst in Hw.
  - rewrite Hseat. by erewrite tx_bind_eq by by apply install_callback_again.
Qed.

Lemma no_formed_invite_true fed rows r :
  no_formed_invite fed rows = Ok true → r ∈ rows →
  ∃ id, invite_federation_id (federation_invite r) = Some id ∧ id <> fed.
Proof.
  induction rows as [|r0 rows IH]; cbn; [by rewrite elem_of_nil|].
  destruct (invite_federation_id (federation_invite r0)) as [id|] eqn:Hid; cbn; [|done].
  case_bool_decide; [done|]. rewrite elem_of_cons. intros Hno [->|Hin]; eauto.
Qed.

Lemma no_incoming_move_true fed rows r :
  no_incoming_move fed rows = Ok true → r ∈ rows →
  ∃ record, decode_incoming r = Ok record ∧ mv_federation_id (in_binding record) <> fed.
Proof.
  induction rows as [|r0 rows IH]; [by rewrite elem_of_nil|].
  cbn [no_incoming_move]. destruct (decode_incoming r0) as [record| |] eqn:Hr;
    cbn [mbind res_bind]; [|done..].
  case_bool_decide; [done|]. rewrite elem_of_cons. intros Hno [->|Hin]; eauto.
Qed.

Lemma elem_of_other_live {V} k d (m : gmap string V) k' x :
  m !! k' = Some x → k' <> k → Offers.is_active d k' = true → x ∈ other_live k d m.
Proof.
  intros Hx Hk Ha. unfold other_live. apply list_elem_of_fmap. exists (k', x). split; [done|].
  apply elem_of_map_to_list, map_lookup_filter_Some. done.
Qed.

(** a federation has one home in the fleet.  When a move is admitted for
    the first time, no other live seat runs the federation being moved, and
    no other live seat is waiting for it or has imported it. *)
Theorem admitted_federation_is_exclusive g cb now now_cb d d' r
    (Hadmit : admit_transfer g cb now now_cb d = Ok (d', Some r))
    (Hfresh : incoming (mv_destination_seat_id (in_binding r)) d = Ok None)
    k' (Hother : k' <> mv_destination_seat_id (in_binding r))
    (Hlive : Offers.is_active d' k' = true) :
  (∀ f, formed d' !! k' = Some f →
     invite_federation_id (federation_invite f) <> Some (mv_federation_id (in_binding r))) ∧
  (∀ r', incoming k' d' = Ok (Some r') →
     mv_federation_id (in_binding r') <> mv_federation_id (in_binding r)).
Proof.
  apply admit_transfer_Some in Hadmit
    as (v & _ & Hb & _ & _ & _ & _ & _ & Hd & Ht & _ & Hnew & Hf & Hti).
  assert (mv_destination_seat_id (in_binding r) = g_destination_seat_id v) as Hk by by rewrite Hb.
  rewrite Hk in *. destruct (Hnew Hfresh) as (_ & _ & Hav). clear Hnew.
  assert (Offers.is_active d k' = true) as Hl by by unfold Offers.is_active in *; rewrite <-Hd, <-Ht.
  unfold federation_available in Hav.
  destruct (no_formed_invite _ _) as [[]| |] eqn:Hnf in Hav; try discriminate Hav. cbn in Hav.
  split.
  - rewrite Hf. intros f Hff. eapply no_formed_invite_true in Hnf as (id & -> & Hid);
      [congruence|by eapply elem_of_other_live].
  - unfold incoming. rewrite (Hti _ Hother). intros r' Hr'.
    destruct (transfer_in d !! k') as [row|] eqn:Hrow; [|done]. cbn in Hr'.
    eapply no_incoming_move_true in Hav as (rec & Hrec & Hne); [|by eapply elem_of_other_live].
    rewrite Hrec in Hr'. cbn in Hr'. congruence.
Qed.

(** an import is accepted once, together with the formed federation.  An
    acceptance that reports success found the seat waiting for exactly this
    move and not retired; in the same commit the keys replace the grant and
    the seat is formed with the invite, so its phase is imported; every later
    acceptance is refused and changes nothing.  One that reports failure
    changes nothing either. *)
Theorem transfer_acceptance_once k binding keys invite now d d' b
    (Haccept : accept_transfer k binding keys invite now d = Ok (d', b)) :
  if b then
    (∃ r grant, incoming k d = Ok (Some r) ∧ in_state r = Waiting grant ∧ in_binding r = binding ∧
       is_retired k d = false ∧
       incoming k d' = Ok (Some {| in_binding := binding;
                                   in_callback_commitment := in_callback_commitment r;
                                   in_state := Imported keys |})) ∧
    federation_invite <$> formed d' !! k = Some invite ∧
    transfer_phase k d' = Ok (Some PhaseImported) ∧
    (∀ binding' keys' invite' now',
       accept_transfer k binding' keys' invite' now' d' = Ok (d', false))
  else d' = d.
Proof.
  unfold accept_transfer in Haccept. tx_inv; cbn [id] in *; try done.
  match goal with H : _ || _ = false |- _ =>
    apply orb_false_iff in H as [Hb%bool_decide_eq_false_1%dec_stable Hret] end.
  subst binding.
  match goal with H : save _ _ _ = _ |- _ => apply save_Ok in H as (-> & _ & Hwf) end.
  match goal with H : insert_formed _ _ _ _ = _ |- _ => apply insert_formed_Ok in H as (-> & _ & _) end.
  match goal with H : incoming k d = Ok (Some ?r) |- _ => rename r into rec; rename H into Hin end.
  set (d1 := set_formed _ _).
  assert (incoming k d1 = Ok (Some {| in_binding := in_binding rec;
      in_callback_commitment := in_callback_commitment rec; in_state := Imported keys |})) as Hin'
    by by apply (incoming_after_save _ _ (set_formed (formed d1) d)).
  split_and!.
  - eauto 10.
  - cbn. by rewrite lookup_insert_eq.
  - unfold transfer_phase, outgoing. cbn [transfer_out d1 set_formed set_transfer_in].
    unfold is_retired in Hret. apply orb_false_iff in Hret as [_ ->%negb_false_iff%absent_true].
    cbn [transpose_map mbind res_bind]. by rewrite Hin'.
  - intros. unfold accept_transfer. rewrite (tx_bind_eq _ _ d1 d1 d1 eq_refl).
    by erewrite tx_bind_eq by (rewrite Hin'; reflexivity).
Qed.

Lemma retire_again k d : is_Some (transfer_out d !! k) → retire_for_transfer k d = Ok (d, false).
Proof.
  intros Hk. unfold retire_for_transfer. rewrite (tx_bind_eq _ _ d d d eq_refl).
  unfold absent at 2. destruct Hk as [? ->]. by rewrite andb_false_r.
Qed.

(** The source side of a move runs in one direction.  A seat that was
    stopped for a move reports it, cannot be stopped again, and its removal
    succeeds exactly once, erasing the seat's own import record with its
    secrets. *)
Theorem outgoing_transfer_lifecycle k d d1
    (Hretire : retire_for_transfer k d = Ok (d1, true)) :
  transfer_phase k d1 = Ok (Some (PhaseOutgoing Stopped)) ∧
  retire_for_transfer k d1 = Ok (d1, false) ∧
  ∃ d2, record_transfer_removal k d1 = Ok (d2, true) ∧
    transfer_phase k d2 = Ok (Some (PhaseOutgoing Removed)) ∧
    transfer_in d2 !! k = None ∧ seats d2 = seats d ∧ formed d2 = formed d ∧
    record_transfer_removal k d2 = Ok (d2, false) ∧
    retire_for_transfer k d2 = Ok (d2, false).
Proof.
  unfold retire_for_transfer in Hretire. tx_inv; [|done].
  match goal with H : insert_transfer_out _ _ _ = _ |- _ =>
    apply insert_transfer_out_Ok in H as (-> & _ & _) end.
  split_and!.
  - unfold transfer_phase, outgoing. cbn. by rewrite lookup_insert_eq.
  - apply retire_again. cbn. by rewrite lookup_insert_eq.
  - set (d1 := set_transfer_out _ d).
    exists (set_transfer_in (delete k (transfer_in d1))
              (set_transfer_out (<[k := "removed"%string]> (transfer_out d1)) d1)).
    split_and!; try done.
    + unfold record_transfer_removal. rewrite (tx_bind_eq _ _ d1 d1 d1 eq_refl).
      rewrite bool_decide_eq_true_2; [done|]. cbn. by rewrite lookup_insert_eq.
    + unfold transfer_phase, outgoing. cbn. by rewrite lookup_insert_eq.
    + cbn. apply lookup_delete_eq.
    + unfold record_transfer_removal, tx_get, mbind, tx_bind. cbn.
      by rewrite lookup_insert_eq.
    + apply retire_again. cbn. by rewrite lookup_insert_eq.
Qed.

End Store.
End Transfers.

(** * A concrete move of a guardian

    One fleet with a single seat that is the destination of a move, with
    concrete serializers and a signature scheme, on which the theorems of
    [MgTransfers] are applied. *)

Module Moves.
Import Signing Seats Transfers.

Abbreviation Move := (TransferMove (Key:=string) (Addr:=string)).
Abbreviation SGrant := (SeatTransferGrant (Key:=string) (Addr:=string)).
Abbreviation Envelope := (SignedRequest (Key:=string) (Sig:=string * string)).

(** A record is written as its fields, each character escaped by a dot and
    each field closed by a comma. *)
Fixpoint put_field (s rest : string) : string :=
  match s with
  | EmptyString => String ","%char rest
  | String c s => String "."%char (String c (put_field s rest))
  end.
Fixpoint put_fields (l : list string) : string :=
  match l with
  | [] => EmptyString
  | s :: l => put_field s (put_fields l)
  end.
Fixpoint get_fields (s : string) : option (list string) :=
  match s with
  | EmptyString => Some []
  | String c rest =>
      if bool_decide (c = ","%char) then cons EmptyString <$> get_fields rest
      else match rest with
           | EmptyString => None
           | String c rest =>
               match get_fields rest with
               | Some (f :: fs) => Some (String c f :: fs)
               | _ => None
               end
           end
  end.

Lemma get_put_fields l : get_fields (put_fields l) = Some l.
Proof.
  assert (∀ s rest, get_fields (put_field s rest) = cons s <$> get_fields rest) as Hput.
  { induction s as [|c s IH]; intros rest; cbn; [done|]. rewrite IH. by destruct (get_fields rest). }
  induction l as [|s l IH]; cbn; [done|]. by rewrite Hput, IH.
Qed.

Definition fields_codec {A} (to : A -> list string) (from : list string -> option A) : Codec A :=
  {| enc a := put_fields (to a); dec s := get_fields s ≫= from |}.
Lemma fields_codec_ok {A} (to : A -> list string) from :
  (∀ a, from (to a) = Some a) → @CodecOk A (fields_codec to from).
Proof. intros H a. cbn. rewrite get_put_fields. apply H. Qed.

Definition move_to (m : Move) : list string :=
  [mv_fa_id m; mv_federation_id m; endpoint_addr (mv_source m); loc_service_pubkey (mv_source m);
   mv_source_seat_id m; mv_destination_service_pubkey m; mv_destination_seat_id m].
Definition move_of (l : list string) : option Move :=
  match l with
  | [a; b; c; e; f; g; h] =>
      Some {| mv_fa_id := a; mv_federation_id := b;
              mv_source := {| endpoint_addr := c; loc_service_pubkey := e |};
              mv_source_seat_id := f; mv_destination_service_pubkey := g;
              mv_destination_seat_id := h |}
  | _ => None
  end.
Definition grant_to (g : SGrant) : list string :=
  pos_to_bits (encode (g_ts g)) ::
  move_to (move_of_grant g).
Definition grant_of (l : list string) : option SGrant :=
  match l with
  | t :: l =>
      ts ← bits_to_pos t ≫= decode; m ← move_of l;
      Some {| g_ts := ts; g_fa_id := mv_fa_id m; g_federation_id := mv_federation_id m;
              g_source := mv_source m; g_source_seat_id := mv_source_seat_id m;
              g_destination_service_pubkey := mv_destination_service_pubkey m;
              g_destination_seat_id := mv_destination_seat_id m |}
  | [] => None
  end.
Definition envelope_to (e : Envelope) : list string :=
  [sr_fa_id e; sr_payload e; (sr_fa_signature e).1; (sr_fa_signature e).2].
Definition envelope_of (l : list string) : option Envelope :=
  match l with
  | [a; b; c; e] => Some {| sr_fa_id := a; sr_payload := b; sr_fa_signature := (c, e) |}
  | _ => None
  end.

#[export] Instance move_codec : Codec Move := fields_codec move_to move_of.
#[export] Instance move_codec_ok : CodecOk Move.
Proof. apply fields_codec_ok. by intros [? ? [] ? ? ?]. Qed.
#[export] Instance grant_codec : Codec SGrant := fields_codec grant_to grant_of.
#[export] Instance envelope_codec : Codec Envelope := fields_codec envelope_to envelope_of.
#[export] Instance envelope_codec_ok : CodecOk Envelope.
Proof. apply fields_codec_ok. by intros [? ? []]. Qed.
#[export] Instance text_codec : Codec string := {| enc s := s; dec s := Some s |}.

(** A hash with 32-byte output, and the seat [k] of Fleet Admin [a] with two
    grants for its move that differ in their timestamp. *)
Definition hash (_ : string) : string := "hhhhhhhhhhhhhhhhhhhhhhhhhhhhhhhh".
Definition k : string := "kkkkkkkkkkkkkkkkkkkkkkkkkkkkkkkk".
Definition the_grant (ts : Z) : SGrant :=
  {| g_ts := ts; g_fa_id := "a"; g_federation_id := "f";
     g_source := {| endpoint_addr := "e"; loc_service_pubkey := "s" |};
     g_source_seat_id := "o"; g_destination_service_pubkey := "d";
     g_destination_seat_id := k |}.
Definition signed (g : SGrant) : Envelope :=
  {| sr_fa_id := "a"; sr_payload := enc g;
     sr_fa_signature :=
       (fa_request_signing_digest hash (fa_label TransferGrant) (enc g), "a"%string) |}.
Definition home : Db :=
  set_seats {[ k := {| seat_no := 0; fi_id := "a"; plan := "p"; federation_size := 4;
                       created_at_ms := 0 |} ]} (initial_db "0").
Definition waiting : IncomingTransfer :=
  {| in_binding := move_of_grant (the_grant 7); in_callback_commitment := Some (hash "");
     in_state := Waiting (signed (the_grant 7)) |}.
Definition the_keys : ImportedKeys := {| iroh_api := hash "x"; iroh_p2p := hash "y" |}.

Definition admit_here :=
  admit_transfer (Key:=string) (Addr:=string) (Cb:=string) hash toy_verify (λ c, c) Some.
Definition db_of {A} (r : res DbError (Db * A)) : Db :=
  match r with Ok (d, _) => d | _ => home end.
Definition admitted : Db :=
  db_of (admit_here (signed (the_grant 7)) (Some "c"%string) 9000 9000 home).
Definition imported : Db :=
  db_of (accept_transfer k (move_of_grant (the_grant 7)) the_keys "f" 9500 admitted).

(** A record saved for the seat reads back. *)
Lemma transfer_record_roundtrip_witness :
  ∃ d', save k waiting home = Ok (d', tt) ∧ incoming k d' = Ok (Some waiting) ∧
    ∀ k', k' <> k → incoming k' d' = incoming k' home.
Proof. apply (transfer_record_roundtrip k waiting home); vm_compute; eauto. Defined.

(** The Fleet Admin signs the grant again at time 8. *)
Lemma transfer_admission_binds_one_move_witness :
  admit_here (signed (the_grant 8)) (Some "c"%string) 9000 9100 admitted =
  Ok (admitted, Some waiting).
Proof.
  unfold admit_here. erewrite (transfer_admission_binds_one_move hash toy_verify (λ c, c) Some
    (signed (the_grant 7)) (signed (the_grant 8)) (Some "c"%string) (Some "c"%string)
    9000 9000 9000 9100 home admitted waiting (the_grant 8)); by vm_compute.
Defined.

Lemma admitted_federation_is_exclusive_witness :
  Offers.is_active admitted "z" = true ∧
  ∀ f, formed admitted !! "z"%string = Some f →
    Some (federation_invite f) <> Some (mv_federation_id (in_binding waiting)).
Proof.
  split; [by vm_compute|].
  refine (proj1 (admitted_federation_is_exclusive hash toy_verify (λ c, c) Some
    (signed (the_grant 7)) (Some "c"%string) 9000 9000 home admitted waiting _ _ "z" _ _));
    by vm_compute.
Defined.

Lemma transfer_acceptance_once_witness :
  transfer_phase (Key:=string) (Sig:=string * string) (Addr:=string) k imported =
    Ok (Some PhaseImported).
Proof.
  refine (proj1 (proj2 (proj2 (transfer_acceptance_once k (move_of_grant (the_grant 7)) the_keys "f" 9500
    admitted imported true _)))). by vm_compute.
Defined.

Lemma outgoing_transfer_lifecycle_witness :
  ∃ d2, record_transfer_removal k (db_of (retire_for_transfer k imported)) = Ok (d2, true).
Proof.
  destruct (outgoing_transfer_lifecycle (Key:=string) (Sig:=string * string) (Addr:=string)
    k imported (db_of (retire_for_transfer k imported)) ltac:(by vm_compute))
    as (_ & _ & d2 & H & _). by exists d2.
Defined.

End Moves.
