(* ===== verification/MgRestore.v ===== *)
(** * Backup publications and fleet recovery ([crates/mg/core/src/db/seats.rs])

    The record of relay-confirmed backups, the recovery facts read from one
    snapshot, and the single transaction that installs a restored fleet with
    the identity that owns it. *)

From S2P Require Import Prelude MgFacts MgSchema MgDb MgSeats Signing MgTransfers.
From stdpp Require Import base gmap strings list.
From Stdlib Require Import ZArith Lia.
Open Scope Z_scope.

Module Restore.
Import Onboarding Offers Seats Transfers.

(** [SeatBackupPublication]. *)
Record SeatBackupPublication := {
  bp_doc_sha256 : string;
  bp_published_at_ms : Z;
  bp_archive_digest : option string;
  bp_confirmed_outgoing : option OutgoingTransfer
}.

(** [Db::backup_publication]; [version] is a [u32]. *)
Definition backup_publication (k : string) (version : Z) (d : Db)
  : res DbError (option SeatBackupPublication) :=
  match publications d !! k with
  | Some r =>
      if schema_version r =? version then
        out ← transpose_map (λ text, ok_or
          (CorruptRow "seat_backup_publications" "invalid confirmed transfer fence")
          (from_db_str text)) (confirmed_outgoing r);
        Ok (Some {| bp_doc_sha256 := doc_sha256 r; bp_published_at_ms := published_at_ms r;
                    bp_archive_digest := archive_digest r; bp_confirmed_outgoing := out |})
      else Ok None
  | None => Ok None
  end.

(** [Db::record_backup_publication]: insert or overwrite. *)
Definition record_backup_publication (k doc : string) (digest : option string)
    (outgoing : option OutgoingTransfer) (version now : Z) : DbTx unit :=
  d ← tx_get id;
  sql_require (present (seats d) k);;
  tx_put (λ d, set_publications
    (<[k := {| doc_sha256 := doc; published_at_ms := now; archive_digest := digest;
               confirmed_outgoing := as_db_str <$> outgoing;
               schema_version := version |}]> (publications d)) d).

Section Fleet.
Context {Key Sig Addr : Type} `{!EqDecision Key} `{!EqDecision Addr}.
Abbreviation Move := (TransferMove (Key:=Key) (Addr:=Addr)).
Abbreviation Grant := (Signing.SignedRequest (Key:=Key) (Sig:=Sig)).
Abbreviation Incoming := (IncomingTransfer (Key:=Key) (Sig:=Sig) (Addr:=Addr)).
Context `{!Codec Move} `{!Codec Grant} `{!Codec Key} `{!Codec Plan}.
Context {Evidence : Type} `{!Codec Evidence}.

(** [OutgoingTransferBackup]. *)
Record OutgoingTransferBackup := {
  ob_phase : OutgoingTransfer;
  ob_federation_invite : string
}.

(** [RestoredSeat]; [guardian] is [RestoredGuardianConfig], whose one field is
    the optional invite. *)
Record RestoredSeat := {
  rs_facts : SeatFacts (FaId:=Key);
  rs_payment : option Evidence;
  rs_guardian : option (option string);
  rs_decommissioned_at_ms : option Z;
  rs_incoming : option Incoming;
  rs_outgoing : option OutgoingTransferBackup
}.

(** The invite [install_restored_fleet] records for a formed seat. *)
Definition restored_invite (s : RestoredSeat) : option string :=
  match rs_guardian s with
  | Some (Some invite) => Some invite
  | _ => ob_federation_invite <$> rs_outgoing s
  end.

(** The loop body of [Db::install_restored_fleet]. *)
Definition install_restored_seat (now : Z) (s : RestoredSeat) : DbTx unit :=
  let facts := rs_facts s in
  let k := sf_seat_id facts in
  insert_seat k {| seat_no := sf_seat_no facts; fi_id := enc (sf_fa_id facts);
                   plan := enc (sf_plan facts); federation_size := sf_federation_size facts;
                   created_at_ms := sf_created_at_ms facts |};;
  (if bool_decide (is_Some (rs_guardian s)) || bool_decide (is_Some (rs_outgoing s)) then
     invite ← tx_lift (ok_or
       (CorruptRow "backup_guardians" "guardian archive has no formed federation invite")
       (restored_invite s));
     insert_formed k invite now
   else mret tt);;
  (match rs_incoming s with
   | Some incoming => save k incoming
   | None => mret tt
   end);;
  (match rs_outgoing s with
   | Some outgoing => insert_transfer_out k (as_db_str (ob_phase outgoing))
   | None => mret tt
   end);;
  (match rs_payment s with
   | Some ev => insert_claim k (enc ev)
   | None => mret tt
   end);;
  match rs_decommissioned_at_ms s with
  | Some at_ms => insert_decommissioned k at_ms
  | None => mret tt
  end.

(** [Db::install_restored_fleet]. *)
Definition install_restored_fleet (phrase : string) (fleet : list RestoredSeat) (now : Z)
  : DbTx unit :=
  s ← tx_get (λ d, stage (onboarding d));
  st ← tx_lift (parse_stage s);
  if bool_decide (st <> StageIdentity) then tx_err (WrongOnboardingStage StageIdentity st)
  else
    tx_for fleet (install_restored_seat now);;
    insert_identity phrase (wallet_origin_as_str Restored) now;;
    changed ← update_stage_from "identity" "holder_authorization" now;
    if negb (changed =? 1) then tx_err (WrongOnboardingStage StageIdentity st)
    else mret tt.

(** [SeatRecoveryFacts] and [Db::seat_recovery_facts]. *)
Record SeatRecoveryFacts := {
  rf_payment : option (PaymentRecord (Evidence:=Evidence));
  rf_incoming : option Incoming;
  rf_outgoing : option OutgoingTransfer;
  rf_formed_invite : option string;
  rf_decommissioned_at_ms : option Z
}.
Definition seat_recovery_facts (k : string) (d : Db) : res DbError SeatRecoveryFacts :=
  pay ← payment k d;
  inc ← incoming k d;
  out ← outgoing k d;
  Ok {| rf_payment := pay; rf_incoming := inc; rf_outgoing := out;
        rf_formed_invite := formed_federation_invite k d;
        rf_decommissioned_at_ms := decommissioned_at_ms k d |}.

End Fleet.
End Restore.
