(* ===== verification/MgSlots.v ===== *)
(** * Free slots ([available_slots] of [crates/mg/core/src/db.rs])

    The closed form of the slot computation, and how it reacts to the events
    that change the stored seats.  These are the facts the admission argument
    of [MgFleet] rests on. *)

From S2P Require Import Prelude MgFacts MgSchema MgDb MgSeats.
From stdpp Require Import base gmap strings list fin_maps.
From Stdlib Require Import ZArith Lia.
Open Scope Z_scope.

Module Slots.
Import Ports Offers Seats.

Lemma count_while_below f r from n :
  (∀ x, 0 <= x → f x = (x <? r)) → 0 <= from →
  count_while f from n = Z.max 0 (Z.min (Z.of_nat n) (r - from)).
Proof.
  intros Hf. revert from. induction n as [|n IH]; intros from Hfrom; cbn [count_while]; [lia|].
  rewrite Hf by done. destruct (Z.ltb_spec from r); [rewrite IH by lia|]; lia.
Qed.

Lemma remaining_blocks_bound first : port_base_wf first → 1 <= remaining_blocks first <= 16384.
Proof.
  intros [? ?]. unfold remaining_blocks, BLOCK, u16_max in *.
  split; [apply Z.div_le_lower_bound; lia|apply Z.div_le_upper_bound; lia].
Qed.

Lemma seat_port_base_test first n :
  port_base_wf first → 0 <= n →
  match seat_port_base n first with Some _ => true | None => false end
  = (n <? remaining_blocks first).
Proof.
  intros Hf Hn. pose proof (seat_port_base_is_Some n first Hf Hn) as Hs.
  destruct (seat_port_base n first), (Z.ltb_spec n (remaining_blocks first)); try done.
  - destruct Hs as [Hs _]. specialize (Hs ltac:(eauto)). lia.
  - destruct Hs as [_ Hs]. by destruct (Hs ltac:(lia)).
Qed.

Lemma available_slots_eq max first active next_no :
  port_base_wf first → 0 <= max <= u32_max → 0 <= active → 0 <= next_no →
  available_slots max first active next_no =
  Z.max 0 (Z.min (max - active) (remaining_blocks first - next_no)).
Proof.
  intros Hf Hm Ha Hn. pose proof (remaining_blocks_bound first Hf).
  unfold available_slots.
  set (a := default u32_max (try_from_u u32_max active)).
  set (n := default u32_max (try_from_u u32_max next_no)).
  assert (a = Z.min active u32_max) as ->.
  { unfold a, try_from_u, in_range, u32_max in *.
    destruct (Z.leb_spec 0 active), (Z.leb_spec active 4294967295); cbn; lia. }
  assert (n = Z.min next_no u32_max) as ->.
  { unfold n, try_from_u, in_range, u32_max in *.
    destruct (Z.leb_spec 0 next_no), (Z.leb_spec next_no 4294967295); cbn; lia. }
  rewrite (count_while_below _ (remaining_blocks first - next_no)).
  - unfold saturating_sub_u, u32_max in *. lia.
  - intros x Hx. unfold saturating_add_u. rewrite seat_port_base_test; [|done|unfold u32_max in *; lia].
    unfold u32_max in *.
    destruct (Z.ltb_spec (Z.min 4294967295 (Z.min next_no 4294967295 + x)) (remaining_blocks first)),
      (Z.ltb_spec x (remaining_blocks first - next_no)); lia.
  - done.
Qed.

Lemma count_while_nonneg f from n : 0 <= count_while f from n.
Proof.
  revert from. induction n as [|n IH]; intros from; cbn; [done|].
  specialize (IH (from + 1)). destruct (f from); lia.
Qed.

Lemma available_slots_nonneg max first active next_no :
  0 <= available_slots max first active next_no.
Proof.
  unfold available_slots. apply Z.min_glb; [unfold saturating_sub_u; lia|apply count_while_nonneg].
Qed.

(** ** The limits a stored offer can hold *)

Definition limits_wf (o : OfferRow) : Prop :=
  (∀ n, max_seats o = Some n → 0 <= n <= u32_max) ∧
  0 <= memory_max_seats o <= u32_max ∧ 0 <= policy_max_seats o <= u32_max.

Lemma effective_max_seats_range mx mem pol :
  (∀ n, mx = Some n → 0 <= n <= u32_max) → 0 <= mem <= u32_max → 0 <= pol <= u32_max →
  0 <= effective_max_seats mx mem pol <= u32_max.
Proof.
  intros Hmx ??. unfold effective_max_seats. destruct mx as [n|]; cbn.
  - specialize (Hmx n eq_refl). lia.
  - unfold u32_max in *. lia.
Qed.

Lemma stored_max_seats_Ok n : 0 <= n <= u32_max → stored_max_seats n = Ok n.
Proof.
  intros Hn. unfold stored_max_seats.
  destruct (try_from_u u32_max n) as [m|] eqn:Ht; cbn.
  - apply try_from_u_Some in Ht as [-> _]. done.
  - by apply try_from_u_None in Ht.
Qed.
Lemma stored_limit_Ok o :
  (∀ n, o = Some n → 0 <= n <= u32_max) → transpose_map stored_max_seats o = Ok o.
Proof.
  intros Ho. destruct o as [n|]; cbn; [|done]. by rewrite stored_max_seats_Ok by auto.
Qed.

Lemma parse_offer_epoch_Ok e e' :
  parse_offer_epoch e = Ok e' ↔ e' = e ∧ Z.of_nat (String.length e) = 32.
Proof. unfold parse_offer_epoch. destruct (Z.eqb_spec (Z.of_nat (String.length e)) 32); naive_solver. Qed.

Lemma admission_slots_Ok first d :
  limits_wf (offer d) → admission_slots first d = Ok (db_slots d first).
Proof.
  intros (Hmx & ? & ?). unfold admission_slots.
  by rewrite (stored_limit_Ok _ Hmx), !stored_max_seats_Ok by done.
Qed.

(** ** Seat numbers *)

Lemma max_seat_no_spec m :
  match max_seat_no m with
  | None => m = ∅
  | Some n => (∃ k r, m !! k = Some r ∧ seat_no r = n) ∧ map_Forall (λ _ r, seat_no r <= n) m
  end.
Proof.
  unfold max_seat_no.
  apply (map_fold_weak_ind (λ acc m, match acc with
    | None => m = ∅
    | Some n => (∃ k r, m !! k = Some r ∧ seat_no r = n) ∧ map_Forall (λ _ r, seat_no r <= n) m
    end)); [done|].
  intros k r m' [n|] Hk IH.
  - destruct IH as [(k' & r' & Hk' & Hr') Hall]. split.
    + destruct (Z.max_spec n (seat_no r)) as [[_ ->]|[_ ->]].
      * exists k, r. by rewrite lookup_insert_eq.
      * exists k', r'. rewrite lookup_insert_ne by congruence. done.
    + apply map_Forall_insert; [done|]. split; [lia|].
      eapply map_Forall_impl; [done|]. cbn. intros. lia.
  - subst m'. split; [exists k, r; by rewrite lookup_insert_eq|].
    apply map_Forall_insert; [done|]. split; [lia|]. apply map_Forall_empty.
Qed.

Definition seat_nos_wf (m : gmap string SeatCols) : Prop := map_Forall (λ _ r, 0 <= seat_no r) m.

Lemma next_seat_no_above d k r : seats d !! k = Some r → seat_no r < next_seat_no d.
Proof.
  intros Hk. unfold next_seat_no. pose proof (max_seat_no_spec (seats d)) as Hs.
  destruct (max_seat_no (seats d)) as [n|].
  - destruct Hs as [_ Hall]. specialize (Hall _ _ Hk). cbn in Hall. lia.
  - by rewrite Hs in Hk.
Qed.

Lemma next_seat_no_free d : seat_no_free (next_seat_no d) (seats d) = true.
Proof.
  unfold seat_no_free. apply bool_decide_eq_true. intros k r Hk Heq.
  apply next_seat_no_above in Hk. lia.
Qed.

Lemma next_seat_no_least d n :
  0 <= n → (∀ k r, seats d !! k = Some r → seat_no r < n) → next_seat_no d <= n.
Proof.
  intros Hn Hall. unfold next_seat_no. pose proof (max_seat_no_spec (seats d)) as Hs.
  destruct (max_seat_no (seats d)) as [m|]; [|done].
  destruct Hs as [(k & r & Hk & <-) _]. specialize (Hall _ _ Hk). lia.
Qed.

Lemma next_seat_no_nonneg d : seat_nos_wf (seats d) → 0 <= next_seat_no d.
Proof.
  intros Hwf. unfold next_seat_no. pose proof (max_seat_no_spec (seats d)) as Hs.
  destruct (max_seat_no (seats d)) as [n|]; [|done].
  destruct Hs as [(k & r & Hk & <-) _]. specialize (Hwf _ _ Hk). cbn in Hwf. lia.
Qed.

Lemma next_seat_no_insert d k r :
  seat_nos_wf (seats d) → seat_no r = next_seat_no d →
  next_seat_no (set_seats (<[k := r]> (seats d)) d) = next_seat_no d + 1.
Proof.
  intros Hwf Hr. pose proof (next_seat_no_nonneg d Hwf). apply Z.le_antisymm.
  - apply next_seat_no_least; [lia|]. intros k' r' Hk'. cbn in Hk'.
    apply lookup_insert_Some in Hk' as [[-> <-]|[_ Hk']]; [lia|].
    apply next_seat_no_above in Hk'. lia.
  - pose proof (next_seat_no_above (set_seats (<[k := r]> (seats d)) d) k r) as Ha.
    cbn in Ha. rewrite lookup_insert_eq in Ha. specialize (Ha eq_refl). lia.
Qed.

(** ** Active seats *)

Lemma active_count_nonneg d : 0 <= active_count d.
Proof. unfold active_count. lia. Qed.

Lemma active_count_insert d k r :
  seats d !! k = None →
  active_count (set_seats (<[k := r]> (seats d)) d)
  = active_count d + (if is_active d k then 1 else 0).
Proof.
  intros Hk. unfold active_count.
  assert (active_seats (set_seats (<[k:=r]> (seats d)) d)
          = filter (λ kv, is_active d kv.1 = true) (<[k:=r]> (seats d))) as -> by reflexivity.
  destruct (is_active d k) eqn:Ha.
  - rewrite map_filter_insert_True by done. rewrite map_size_insert_None.
    + unfold active_seats. lia.
    + apply map_lookup_filter_None. by left.
  - rewrite map_filter_insert_False by (cbn; congruence).
    rewrite delete_id by done. unfold active_seats. lia.
Qed.

Lemma active_count_admit d k r o c :
  seats d !! k = None →
  active_count (set_offer o (set_claims c (set_seats (<[k := r]> (seats d)) d)))
  <= active_count d + 1.
Proof.
  intros Hk. pose proof (active_count_insert d k r Hk) as Ha.
  change (active_count (set_offer o (set_claims c (set_seats (<[k := r]> (seats d)) d))))
    with (active_count (set_seats (<[k := r]> (seats d)) d)).
  destruct (is_active d k); lia.
Qed.

(** Fencing or decommissioning a seat never raises the active count. *)
Lemma active_count_mono d d' :
  seats d' = seats d → dom (decommissioned d) ⊆ dom (decommissioned d') →
  dom (transfer_out d) ⊆ dom (transfer_out d') → active_count d' <= active_count d.
Proof.
  intros Hs Hd Ht. unfold active_count. apply Nat2Z.inj_le, map_subseteq_size.
  unfold active_seats. rewrite Hs. apply map_filter_strong_subseteq_ext.
  intros k r. cbn. unfold is_active. rewrite !andb_true_iff, !absent_true.
  intros [[Hd' Ht'] Hk]. split; [|done]. split.
  - apply not_elem_of_dom. apply not_elem_of_dom in Hd'. set_solver.
  - apply not_elem_of_dom. apply not_elem_of_dom in Ht'. set_solver.
Qed.

Lemma db_slots_eq d first :
  port_base_wf first → limits_wf (offer d) → seat_nos_wf (seats d) →
  db_slots d first =
  Z.max 0 (Z.min
    (effective_max_seats (max_seats (offer d)) (memory_max_seats (offer d))
       (policy_max_seats (offer d)) - active_count d)
    (remaining_blocks first - next_seat_no d)).
Proof.
  intros Hf (? & ? & ?) Hs. unfold db_slots. apply available_slots_eq; [done| | |].
  - by apply effective_max_seats_range.
  - apply active_count_nonneg.
  - by apply next_seat_no_nonneg.
Qed.

End Slots.
