(* ===== verification/MgFleet.v ===== *)
(** * The fleet as a transition system ([crates/mg/core/src/fleet.rs])

    Every durable operation of the Manifold Guardian as one [Op], run in its
    own transaction, interleaved in any order with the quotes the fleet
    signs.  A ghost set records the offer epochs that appear in signed
    quotes; it is what the admission assertion silently depends on.

    The theorems show, for every reachable state: a quote of the current epoch
    always finds a free slot (so [assert!(slots > 0)] never fires), admission
    is total and within the configured capacity, seats and their facts are
    never lost or changed, and the one-way latches stay latched.

    Module [Fleet] is the system; module [Demo] a concrete fleet. *)

From S2P Require Import Prelude MgFacts MgSchema MgDb MgSeats MgCallbacks Signing MgTransfers MgRestore MgSlots.
From stdpp Require Import base gmap strings list.
From Stdlib Require Import ZArith Lia Ascii.
Open Scope Z_scope.

Module Fleet.
Import Ports Offers Seats Slots.

(** [AvailabilitySnapshot]. *)
Record AvailabilitySnapshot := {
  av_accepting_seats : bool;
  av_max_seats : option Z;
  av_memory_max_seats : Z;
  av_policy_max_seats : Z;
  av_available_seats : Z;
  av_plans : list Plan
}.

(** [.expect("offer snapshot")]. *)
Definition expect_ok {E A} (r : res E A) : res E A :=
  match r with Ok a => Ok a | _ => Panic end.

(** [Fleet::quote_offer]. *)
Definition quote_offer (first : PortBase) (d : Db) : res DbError (option Offer) :=
  snapshot ← expect_ok (offer_snapshot first d);
  Ok (if (0 <? os_slots snapshot) && os_ready_for_new_seats snapshot
      then Some (os_offer snapshot) else None).

(** [Fleet::available_slots], [Fleet::ready_for_new_seats], [Fleet::max_seats]. *)
Definition fleet_available_slots (first : PortBase) (d : Db) : res DbError Z :=
  snapshot ← expect_ok (offer_snapshot first d); Ok (os_slots snapshot).
Definition fleet_ready_for_new_seats (first : PortBase) (d : Db) : res DbError bool :=
  snapshot ← expect_ok (offer_snapshot first d); Ok (os_ready_for_new_seats snapshot).
Definition fleet_max_seats (d : Db) : res DbError (option Z) := expect_ok (db_max_seats d).

(** [Fleet::availability_snapshot]. *)
Definition availability_snapshot (first : PortBase) (d : Db) : res DbError AvailabilitySnapshot :=
  snapshot ← expect_ok (offer_snapshot first d);
  let settings := of_settings (os_offer snapshot) in
  Ok {| av_accepting_seats := (0 <? os_slots snapshot)
          && bool_decide (is_Some (qs_price settings)) && os_ready_for_new_seats snapshot;
        av_max_seats := os_max_seats snapshot;
        av_memory_max_seats := os_memory_max_seats snapshot;
        av_policy_max_seats := os_policy_max_seats snapshot;
        av_available_seats := os_slots snapshot;
        av_plans := plans settings |}.

(** [SeatsConfigUpdate] with one field set: [Fleet::set_max_seats] and
    [Fleet::set_seat_readiness]. *)
Definition max_seats_update (max : option Z) : SeatsConfigUpdate :=
  {| up_max_seats := Some max; up_memory_max_seats := None; up_policy_max_seats := None;
     up_ready_for_new_seats := None |}.
Definition readiness_update (ready : bool) : SeatsConfigUpdate :=
  {| up_max_seats := None; up_memory_max_seats := None; up_policy_max_seats := None;
     up_ready_for_new_seats := Some ready |}.

(** Open the operations, and then the statements, of [exec] below. *)
Ltac unfold_ops :=
  unfold set_offered_price, update_seats_config, replace_setup_payment_policy,
    Onboarding.install_identity, Onboarding.holder_authorization_event_json,
    Onboarding.replace_holder_authorization_event, Onboarding.set_destination,
    Support.record_support_message, Support.mark_support_read,
    admit_seat_at_writer_boundary, record_admission, decommission_seat,
    record_dkg_inputs, record_formed, Restore.record_backup_publication,
    Restore.install_restored_fleet, Restore.install_restored_seat,
    Callbacks.record_attempt_started, Callbacks.record_retry_reason,
    Callbacks.record_operator_blocked, Callbacks.record_completed,
    Transfers.admit_transfer, Transfers.accept_transfer, Transfers.save,
    Transfers.retire_for_transfer, sql_require.
Ltac unfold_stmts :=
  unfold Onboarding.drop_future_holder, Onboarding.insert_identity, Onboarding.update_stage_from,
    Onboarding.configure_initial_offer, Onboarding.bind_manifold_environment,
    Telemetry.rotate_telemetry_capability_generation, record_claim_outcome,
    Transfers.record_transfer_removal, install_completion_callback, update_callback,
    insert_seat, insert_claim, insert_decommissioned, insert_formed, insert_transfer_out,
    update_offer_epoch, sql_require.

Section System.
Context {Key Sig Addr : Type} `{!EqDecision Key} `{!EqDecision Addr}.
Abbreviation Move := (Transfers.TransferMove (Key:=Key) (Addr:=Addr)).
Abbreviation Grant := (Signing.SignedRequest (Key:=Key) (Sig:=Sig)).
Abbreviation GrantBody := (Transfers.SeatTransferGrant (Key:=Key) (Addr:=Addr)).
Context `{!Codec Move} `{!Codec Grant} `{!Codec GrantBody} `{!Codec Key} `{!Codec Plan}.
Context {Evidence Cb : Type} `{!Codec Evidence} `{!Codec Cb} `{!Codec (list string)}.
Variable sha256 : string -> string.
Variable verify_schnorr : Sig -> string -> Key -> bool.
Variable canonical_callback : Cb -> string.
Variable invite_federation_id : string -> option string.
Variable first : PortBase.

(** One durable operation with its arguments, clock reads and random draw. *)
Inductive Op :=
| OpSetOfferedPrice (price : option Z) (now : Z) (fresh : string)
| OpUpdateSeatsConfig (update : SeatsConfigUpdate) (now : Z) (fresh : string)
| OpReplacePolicy (event_json : string) (member_ids : list string) (fresh : string)
| OpBindEnvironment (e : Onboarding.ManifoldEnvironment)
| OpInstallIdentity (phrase : string) (now : Z)
| OpConfigureInitialOffer (price max : option Z) (now : Z) (fresh : string)
| OpReadHolder (max_issued_at : Z)
| OpReplaceHolder (issued_at : Z) (event_json : string) (max_issued_at now : Z)
| OpSetDestination (destination : option string)
| OpRotateTelemetry (now : Z)
| OpRecordSupport (row : Support.SupportRow)
| OpMarkSupportRead (rumor_ids : list string)
| OpAdmitSeat (new_seat : NewSeat (FaId:=Key) (Evidence:=Evidence)) (epoch : string) (now : Z)
    (fresh : string)
| OpRecordClaimOutcome (k : string) (outcome : ClaimOutcome) (now : Z)
| OpDecommission (k : string) (now : Z)
| OpInstallCallback (k : string) (cb : option Cb) (now : Z)
| OpRecordDkgInputs (k : string) (codes : list string) (cb : option Cb) (now : Z)
| OpRecordFormed (k invite : string) (now : Z)
| OpRecordPublication (k doc : string) (digest : option string)
    (out : option Transfers.OutgoingTransfer) (version now : Z)
| OpInstallRestoredFleet (phrase : string)
    (fleet : list (Restore.RestoredSeat (Key:=Key) (Sig:=Sig) (Addr:=Addr) (Evidence:=Evidence)))
    (now : Z)
| OpAttemptStarted (k : string) (next : Z)
| OpRetryReason (k : string) (reason : Callback.CompletionCallbackReason)
| OpOperatorBlocked (k : string) (reason : Callback.CompletionCallbackReason)
| OpCallbackCompleted (k : string) (outcome : CompletionCallbackOutcome) (now : Z)
| OpAdmitTransfer (grant : Grant) (cb : option Cb) (now now_cb : Z)
| OpAcceptTransfer (k : string) (binding : Move) (keys : Transfers.ImportedKeys)
    (invite : string) (now : Z)
| OpRetireForTransfer (k : string)
| OpRecordTransferRemoval (k : string).

Definition discard {A} (t : DbTx A) : DbTx unit := _ ← t; mret tt.

(** The transaction of an operation. *)
Definition exec (o : Op) : DbTx unit :=
  match o with
  | OpSetOfferedPrice price now fresh => discard (set_offered_price price now fresh)
  | OpUpdateSeatsConfig u now fresh => discard (update_seats_config u first now fresh)
  | OpReplacePolicy ev ids fresh => replace_setup_payment_policy ev ids fresh
  | OpBindEnvironment e => tx_put (λ d, (Onboarding.bind_manifold_environment e d).1)
  | OpInstallIdentity phrase now => Onboarding.install_identity phrase now
  | OpConfigureInitialOffer price max now fresh =>
      Onboarding.configure_initial_offer price max now fresh
  | OpReadHolder mx => discard (Onboarding.holder_authorization_event_json mx)
  | OpReplaceHolder at_s ev mx now =>
      Onboarding.replace_holder_authorization_event at_s ev mx now
  | OpSetDestination dest => Onboarding.set_destination dest
  | OpRotateTelemetry now => discard (Telemetry.rotate_telemetry_capability_generation now)
  | OpRecordSupport row => Support.record_support_message row
  | OpMarkSupportRead ids => Support.mark_support_read ids
  | OpAdmitSeat ns epoch now fresh =>
      discard (admit_seat_at_writer_boundary ns epoch first now fresh)
  | OpRecordClaimOutcome k oc now => discard (record_claim_outcome k oc now)
  | OpDecommission k now => discard (decommission_seat k now)
  | OpInstallCallback k cb now => install_completion_callback k cb now
  | OpRecordDkgInputs k codes cb now => record_dkg_inputs k codes cb now
  | OpRecordFormed k invite now => discard (record_formed k invite now)
  | OpRecordPublication k doc dg out v now =>
      Restore.record_backup_publication k doc dg out v now
  | OpInstallRestoredFleet phrase fleet now =>
      Restore.install_restored_fleet phrase fleet now
  | OpAttemptStarted k next => discard (Callbacks.record_attempt_started k next)
  | OpRetryReason k r => discard (Callbacks.record_retry_reason k r)
  | OpOperatorBlocked k r => discard (Callbacks.record_operator_blocked k r)
  | OpCallbackCompleted k oc now => discard (Callbacks.record_completed k oc now)
  | OpAdmitTransfer g cb now now_cb =>
      discard (Transfers.admit_transfer sha256 verify_schnorr canonical_callback
                 invite_federation_id g cb now now_cb)
  | OpAcceptTransfer k b keys invite now =>
      discard (Transfers.accept_transfer (Sig:=Sig) k b keys invite now)
  | OpRetireForTransfer k => discard (Transfers.retire_for_transfer k)
  | OpRecordTransferRemoval k => discard (Transfers.record_transfer_removal k)
  end.

(** [begin; body; commit], whatever the outcome. *)
Definition apply_op (o : Op) (d : Db) : Db := (run_tx (exec o) d).1.

(** The random epoch an operation draws. *)
Definition op_fresh (o : Op) : option string :=
  match o with
  | OpSetOfferedPrice _ _ fresh | OpUpdateSeatsConfig _ _ fresh | OpReplacePolicy _ _ fresh
  | OpConfigureInitialOffer _ _ _ fresh | OpAdmitSeat _ _ _ fresh => Some fresh
  | _ => None
  end.

(** The arguments an operation can receive: a drawn epoch is 32 random bytes
    no quote carries yet, integers are in the range of their types, and the
    epoch of an admission comes from a quote this fleet signed. *)
Definition in_u64 (o : option Z) : Prop := ∀ x, o = Some x → 0 <= x <= u64_max.
Definition op_wf (issued : gset string) (o : Op) : Prop :=
  (∀ e, op_fresh o = Some e → Z.of_nat (String.length e) = 32 ∧ e ∉ issued) ∧
  match o with
  | OpSetOfferedPrice price _ _ | OpConfigureInitialOffer price _ _ _ => in_u64 price
  | OpAdmitSeat ns epoch _ _ => epoch ∈ issued ∧ 0 <= ns_federation_size ns <= u16_max
  | OpInstallRestoredFleet _ fleet _ =>
      Forall (λ s, 0 <= sf_seat_no (Restore.rs_facts s) <= u32_max ∧
                   0 <= sf_federation_size (Restore.rs_facts s) <= u16_max) fleet
  | _ => True
  end.

(** The database with the ghost set of epochs carried by signed quotes. *)
Record Sys := { sys_db : Db; sys_issued : gset string }.

(** A step: one operation commits or rolls back, or the opened fleet (its
    onboarding is complete) signs a quote. *)
Inductive step (s : Sys) : Sys -> Prop :=
| step_op o :
    op_wf (sys_issued s) o →
    step s {| sys_db := apply_op o (sys_db s); sys_issued := sys_issued s |}
| step_quote offer :
    Onboarding.onboarding_stage (sys_db s) = Ok StageComplete →
    quote_offer first (sys_db s) = Ok (Some offer) →
    step s {| sys_db := sys_db s; sys_issued := {[ of_epoch offer ]} ∪ sys_issued s |}.

(** States reached from the migrated database. *)
Inductive reachable : Sys -> Prop :=
| reach_init epoch :
    Z.of_nat (String.length epoch) = 32 →
    reachable {| sys_db := initial_db epoch; sys_issued := ∅ |}
| reach_step s s' : reachable s → step s s' → reachable s'.

(** ** What most operations leave alone *)

Definition same_limits (o o' : OfferRow) : Prop :=
  max_seats o' = max_seats o ∧ memory_max_seats o' = memory_max_seats o ∧
  policy_max_seats o' = policy_max_seats o.

(** Seats, claim keys and limits stay, live seats only retire, a completed onboarding
    stays complete, and the epoch stays or becomes [fresh]. *)
Definition keeps (fresh : string) (d d' : Db) : Prop :=
  seats d' = seats d ∧ dom (claims d') = dom (claims d) ∧ same_limits (offer d) (offer d') ∧
  dom (decommissioned d) ⊆ dom (decommissioned d') ∧
  dom (transfer_out d) ⊆ dom (transfer_out d') ∧
  (stage (onboarding d) = "complete"%string → stage (onboarding d') = "complete"%string) ∧
  (offer_epoch (offer d') = offer_epoch (offer d) ∨ offer_epoch (offer d') = fresh).

#[local] Instance keeps_preorder fresh : PreOrder (keeps fresh).
Proof.
  split; [intros d; repeat split; auto|].
  intros d1 d2 d3 (? & ? & (? & ? & ?) & ? & ? & ? & ?) (? & ? & (? & ? & ?) & ? & ? & ? & ?).
  repeat split; try congruence; [by etrans..|naive_solver|].
  destruct_or!; eauto with congruence.
Qed.

Ltac solve_keeps :=
  repeat match goal with
  | |- keeps _ _ (match ?x with _ => _ end) => destruct x
  | |- keeps _ _ (if ?x then _ else _) => destruct x
  end; repeat split; cbn; auto; rewrite ?dom_insert_L; set_solver.

Lemma update_stage_from_keeps fresh old new now :
  old <> "complete"%string → tx_rel (keeps fresh) (Onboarding.update_stage_from old new now).
Proof.
  intros Hold d d' n H. unfold Onboarding.update_stage_from in H.
  apply tx_bind_Ok in H as (d1 & cur & [-> ->]%tx_get_Ok & H). case_bool_decide as Hc.
  - apply tx_bind_Ok in H as (d2 & u & ->%tx_put_Ok & H).
    unfold mret, tx_ret in H. simplify_eq. repeat split; cbn; auto. congruence.
  - unfold mret, tx_ret in H. by simplify_eq.
Qed.

Lemma record_claim_outcome_keeps fresh k oc now :
  tx_rel (keeps fresh) (record_claim_outcome k oc now).
Proof.
  intros d d' n H. unfold record_claim_outcome in H. tx_inv.
  match goal with H : claims d !! k = Some _ |- _ => apply elem_of_dom_2 in H end.
  repeat split; cbn; auto. rewrite dom_insert_L. set_solver.
Qed.

(** The operations that neither sell, restore nor resize. *)
Definition is_simple (o : Op) : bool :=
  match o with
  | OpUpdateSeatsConfig _ _ _ | OpConfigureInitialOffer _ _ _ _ | OpAdmitSeat _ _ _ _
  | OpInstallRestoredFleet _ _ _ => false
  | _ => true
  end.

Lemma simple_op_keeps o fresh :
  is_simple o = true → default fresh (op_fresh o) = fresh → tx_rel (keeps fresh) (exec o).
Proof.
  intros Hs Hf. destruct o; cbn in Hs, Hf; try discriminate Hs; subst; cbn [exec];
    unfold discard; unfold_ops.
  all: tx_rel_auto.
  all: try (first [apply update_stage_from_keeps | apply record_claim_outcome_keeps]; done).
  all: do 2 (unfold_stmts; tx_rel_auto); cbn [fst]; solve_keeps.
Qed.

(** ** The invariant *)

(** A stored seat row that [SeatRecord::try_from] accepts. *)
Definition seat_row_ok (k : string) (r : SeatCols) : Prop :=
  Z.of_nat (String.length k) = 32 ∧ 0 <= seat_no r <= u32_max ∧
  0 < federation_size r <= u16_max ∧
  is_Some (dec (A:=Key) (fi_id r)) ∧ is_Some (dec (A:=Plan) (plan r)).

Definition price_ok (d : Db) : Prop := in_u64 (price_msats (offer d)).

Record inv (s : Sys) : Prop := {
  inv_limits : limits_wf (offer (sys_db s));
  inv_rows : map_Forall seat_row_ok (seats (sys_db s));
  inv_claims : dom (claims (sys_db s)) ⊆ dom (seats (sys_db s));
  inv_epoch : Z.of_nat (String.length (offer_epoch (offer (sys_db s)))) = 32;
  inv_unissued : stage (onboarding (sys_db s)) <> "complete"%string → sys_issued s = ∅;
  inv_slot : offer_epoch (offer (sys_db s)) ∈ sys_issued s → 0 < db_slots (sys_db s) first
}.

Context (first_wf : port_base_wf first).

Lemma rows_nos d : map_Forall seat_row_ok (seats d) → seat_nos_wf (seats d).
Proof. intros H k r Hk. specialize (H k r Hk). unfold seat_row_ok in H. lia. Qed.

Lemma keeps_slots fresh d d' :
  limits_wf (offer d) → seat_nos_wf (seats d) → keeps fresh d d' →
  db_slots d first <= db_slots d' first.
Proof.
  intros Hl Hs (Hseats & _ & (Hmx & Hmem & Hpol) & Hd & Ht & _).
  assert (limits_wf (offer d')) as Hl' by (unfold limits_wf; by rewrite Hmx, Hmem, Hpol).
  assert (seat_nos_wf (seats d')) as Hs' by (by rewrite Hseats).
  pose proof (active_count_mono d d' Hseats Hd Ht).
  assert (next_seat_no d' = next_seat_no d) as Hn by (unfold next_seat_no; by rewrite Hseats).
  rewrite !db_slots_eq by done. rewrite Hmx, Hmem, Hpol, Hn. lia.
Qed.

Lemma keeps_inv fresh d d' issued :
  inv {| sys_db := d; sys_issued := issued |} → keeps fresh d d' →
  (fresh = offer_epoch (offer d) ∨ Z.of_nat (String.length fresh) = 32 ∧ fresh ∉ issued) →
  inv {| sys_db := d'; sys_issued := issued |}.
Proof.
  intros [Hl Hr Hc He Hu Hs] Hk Hf. cbn in *.
  pose proof (keeps_slots _ _ _ Hl (rows_nos d Hr) Hk) as Hslots.
  destruct Hk as (Hseats & Hclaims & (Hmx & Hmem & Hpol) & _ & _ & Hst & Hep).
  split; cbn.
  - unfold limits_wf. by rewrite Hmx, Hmem, Hpol.
  - by rewrite Hseats.
  - by rewrite Hseats, Hclaims.
  - destruct Hep as [->| ->]; [done|]. destruct Hf as [->|[? _]]; done.
  - intros Hne. apply Hu. naive_solver.
  - intros Hin. enough (0 < db_slots d first) by lia. apply Hs.
    destruct Hep as [Hep|Hep]; rewrite Hep in Hin; [done|]. destruct Hf as [->|[_ ?]]; done.
Qed.

Lemma simple_op_inv o s :
  is_simple o = true → op_wf (sys_issued s) o → inv s →
  inv {| sys_db := apply_op o (sys_db s); sys_issued := sys_issued s |}.
Proof.
  intros Hs [Hf _] Hi. destruct s as [d issued]. cbn in *.
  set (fresh := default (offer_epoch (offer d)) (op_fresh o)).
  apply (keeps_inv fresh d); [done| |].
  - unfold apply_op. apply tx_rel_run; [apply _|]. apply simple_op_keeps; [done|].
    unfold fresh. by destruct (op_fresh o).
  - unfold fresh. destruct (op_fresh o) as [e|]; cbn; [right; by apply Hf|by left].
Qed.

Lemma apply_op_cases o d :
  apply_op o d = d ∨ ∃ d', apply_op o d = d' ∧ exec o d = Ok (d', tt).
Proof.
  unfold apply_op, run_tx. destruct (exec o d) as [[d' []]|e|]; cbn; eauto.
Qed.

Lemma discard_Ok {A} (t : DbTx A) d d' u : discard t d = Ok (d', u) ↔ ∃ a, t d = Ok (d', a).
Proof.
  unfold discard. rewrite tx_bind_Ok. setoid_rewrite tx_ret_Ok. destruct u. naive_solver.
Qed.

Lemma stored_config_Ok o :
  limits_wf o →
  stored_config o = Ok {| sc_max_seats := max_seats o; sc_memory_max_seats := memory_max_seats o;
                          sc_policy_max_seats := policy_max_seats o;
                          sc_ready_for_new_seats := ready_for_new_seats o |}.
Proof.
  intros (Hmx & ? & ?). unfold stored_config.
  by rewrite (stored_limit_Ok _ Hmx), !stored_max_seats_Ok by done.
Qed.

Lemma check_limits_wf before after now o :
  check_limits after = true → limits_wf (write_config before after now o).
Proof.
  unfold check_limits, in_range. rewrite !andb_true_iff, !Z.leb_le. intros [[Hm ?] ?].
  split; [|cbn; tauto]. cbn. intros n Hn. rewrite Hn in Hm.
  by rewrite andb_true_iff, !Z.leb_le in Hm.
Qed.

(** The committed effect of [update_seats_config]. *)
Lemma update_seats_config_Ok u now fresh d d' b :
  limits_wf (offer d) → update_seats_config u first now fresh d = Ok (d', b) →
  d' = d ∨
  ∃ o', d' = set_offer o' d ∧ limits_wf o' ∧ price_msats o' = price_msats (offer d) ∧
    (offer_epoch o' = fresh ∨
     offer_epoch o' = offer_epoch (offer d) ∧ (0 < db_slots d first → 0 < db_slots d' first)).
Proof.
  intros Hl H. unfold update_seats_config, update_offer_epoch in H. tx_inv; [by left|..].
  all: rewrite stored_config_Ok in * by done; simplify_eq.
  all: right; eexists; split; [done|]; split_and!; [by apply check_limits_wf|done|].
  - by left.
  - right. split; [done|]. intros Hpos.
    match goal with H : config_rotates _ _ _ _ _ = false |- _ => rename H into Hr end.
    apply orb_false_iff in Hr as [_ Hr]. rewrite andb_false_iff, Z.ltb_ge, Z.eqb_neq in Hr.
    pose proof (available_slots_nonneg : ∀ m f a n, _).
    unfold config_slots in Hr. unfold db_slots in *. cbn in *.
    destruct Hr as [?|Hr]; [lia|]. apply Z.le_neq. split; [done|].
    intros Heq. apply Hr. symmetry. exact Heq.
Qed.

(** The committed effect of an admission. *)
Lemma admit_Ok ns epoch now fresh d d' r :
  map_Forall seat_row_ok (seats d) → limits_wf (offer d) →
  admit_seat_at_writer_boundary (FaId:=Key) (Evidence:=Evidence) ns epoch first now fresh d = Ok (d', r) →
  (d' = d ∧ ∃ facts, find_seat (ns_seat_id ns) d = Ok (Some facts) ∧ r = Existing facts) ∨
  (d' = d ∧ seats d !! ns_seat_id ns = None ∧ offer_epoch (offer d) <> epoch ∧ r = OfferChanged) ∨
  (∃ row,
     d' = set_offer (if db_slots d first =? 1 then with_epoch fresh (offer d) else offer d)
            (set_claims (claims d') (set_seats (<[ns_seat_id ns := row]> (seats d)) d)) ∧
     seats d !! ns_seat_id ns = None ∧ offer_epoch (offer d) = epoch ∧
     0 < db_slots d first ∧ Z.of_nat (String.length (ns_seat_id ns)) = 32 ∧
     row = {| seat_no := next_seat_no d; fi_id := enc (ns_fa_id ns); plan := enc (ns_plan ns);
              federation_size := ns_federation_size ns; created_at_ms := now |} ∧
     0 < ns_federation_size ns ∧
     dom (claims d') ⊆ {[ ns_seat_id ns ]} ∪ dom (claims d) ∧
     r = Inserted {| sf_seat_id := ns_seat_id ns; sf_seat_no := next_seat_no d;
                     sf_fa_id := ns_fa_id ns; sf_plan := ns_plan ns;
                     sf_federation_size := ns_federation_size ns; sf_created_at_ms := now |}).
Proof.
  intros Hr Hl H. pose proof (rows_nos d Hr) as Hnos.
  unfold admit_seat_at_writer_boundary, record_admission, insert_seat, insert_claim,
    update_offer_epoch in H.
  tx_inv; cbn [id] in *; [by eauto|..].
  all: repeat match goal with
    | H : find_seat _ _ = Ok None |- _ => apply transpose_map_Ok_None in H
    | H : parse_offer_epoch _ = Ok _ |- _ => apply parse_offer_epoch_Ok in H as [-> ?]
    | H : bool_decide _ = true |- _ => apply bool_decide_eq_true in H
    | H : bool_decide (_ <> _) = false |- _ =>
        apply bool_decide_eq_false in H; apply dec_stable in H
    | H : admission_slots _ _ = Ok _ |- _ =>
        rewrite admission_slots_Ok in H by done; simplify_eq
    | H : negb _ = false |- _ => apply negb_false_iff, Z.ltb_lt in H
    | H : expect _ = Ok _ |- _ => unfold expect in H; split_match_in H
    | H : try_from_u _ _ = Some _ |- _ => apply try_from_u_Some in H as [-> ?]
    | H : (_ && _) = true |- _ => apply andb_true_iff in H as [? ?]
    | H : check_seat _ _ = true |- _ => unfold check_seat in H
    | H : (_ <? _) = true |- _ => apply Z.ltb_lt in H
    end; cbn in *.
  { right; left; by split_and!. }
  all: right; right.
  all: match goal with H : (_ =? 1) = _ |- _ => rewrite H end.
  all: eexists; split_and!; first [reflexivity | done | by apply Z.eqb_eq | cbn].
  all: rewrite ?dom_insert_L; set_solver.
Qed.

Context `{!CodecOk Key} `{!CodecOk Plan}.

Lemma db_slots_admit d k row o' c :
  limits_wf (offer d) → seat_nos_wf (seats d) → seats d !! k = None →
  seat_no row = next_seat_no d → same_limits (offer d) o' →
  db_slots d first - 1 <= db_slots (set_offer o' (set_claims c (set_seats (<[k:=row]> (seats d)) d)))
    first.
Proof.
  intros Hl Hn Hk Hrow (Hmx & Hmem & Hpol).
  set (d' := set_offer _ _).
  assert (limits_wf (offer d')) as Hl' by (unfold limits_wf; cbn; by rewrite Hmx, Hmem, Hpol).
  pose proof (next_seat_no_nonneg d Hn).
  assert (seat_nos_wf (seats d')) as Hn'.
  { cbn. apply map_Forall_insert; [done|]. split; [lia|done]. }
  pose proof (active_count_insert d k row Hk) as Ha.
  pose proof (next_seat_no_insert d k row Hn Hrow) as Hno.
  change (active_count (set_seats _ d)) with (active_count d') in Ha.
  change (next_seat_no (set_seats _ d)) with (next_seat_no d') in Hno.
  rewrite !db_slots_eq by done. cbn. rewrite Hmx, Hmem, Hpol, Ha, Hno.
  destruct (is_active d k); lia.
Qed.

Lemma new_row_ok ns now no :
  Z.of_nat (String.length (ns_seat_id (FaId:=Key) (Evidence:=Evidence) ns)) = 32 →
  0 <= no <= u32_max → 0 < ns_federation_size ns <= u16_max →
  seat_row_ok (ns_seat_id ns)
    {| seat_no := no; fi_id := enc (ns_fa_id ns); plan := enc (ns_plan ns);
       federation_size := ns_federation_size ns; created_at_ms := now |}.
Proof. intros. unfold seat_row_ok. cbn. rewrite !dec_enc. eauto. Qed.

(** A free slot means the next number has a port block, so it fits [u32]. *)
Lemma slot_next_no d :
  limits_wf (offer d) → seat_nos_wf (seats d) → 0 < db_slots d first →
  0 <= next_seat_no d < remaining_blocks first.
Proof.
  intros Hl Hn. rewrite db_slots_eq by done. pose proof (next_seat_no_nonneg d Hn). lia.
Qed.

Lemma admit_inv ns epoch now fresh s d' r :
  inv s → op_wf (sys_issued s) (OpAdmitSeat ns epoch now fresh) →
  admit_seat_at_writer_boundary (FaId:=Key) (Evidence:=Evidence) ns epoch first now fresh (sys_db s)
    = Ok (d', r) →
  inv {| sys_db := d'; sys_issued := sys_issued s |}.
Proof.
  intros Hi [Hf [Hep Hsz]] H. pose proof Hi as [Hl Hr Hc He Hu Hs].
  destruct (Hf fresh eq_refl) as [Hflen Hfnew]. destruct s as [d issued]. cbn in *.
  apply admit_Ok in H as [[-> _]|[[-> _]|(row & Hd' & Hk & Hcur & Hpos & Hlen & -> & Hsz0 & Hcl & _)]];
    [done..| |done|done].
  pose proof (slot_next_no d Hl (rows_nos d Hr) Hpos) as Hno.
  pose proof (remaining_blocks_bound first first_wf).
  rewrite Hd'. split; cbn; cbn in Hu.
  - destruct (db_slots d first =? 1); exact Hl.
  - apply map_Forall_insert; [done|]. split; [|done].
    apply new_row_ok; [done|unfold u32_max; lia|lia].
  - rewrite dom_insert_L. set_solver.
  - destruct (db_slots d first =? 1); done.
  - done.
  - destruct (Z.eqb_spec (db_slots d first) 1) as [|Hne]; [done|]. intros _.
    eapply Z.lt_le_trans; [|apply db_slots_admit; [done|by apply rows_nos|done..]]. lia.
Qed.

Lemma update_config_inv u now fresh s d' b :
  inv s → op_wf (sys_issued s) (OpUpdateSeatsConfig u now fresh) →
  update_seats_config u first now fresh (sys_db s) = Ok (d', b) →
  inv {| sys_db := d'; sys_issued := sys_issued s |}.
Proof.
  intros [Hl Hr Hc He Hu Hs] [Hf _] H. destruct (Hf fresh eq_refl) as [Hflen Hfnew].
  apply update_seats_config_Ok in H as [->|(o' & -> & Hl' & _ & Hep)]; [done| |done].
  split; cbn; try done.
  - by destruct Hep as [->|[-> _]].
  - intros Hin. destruct Hep as [Heq|[Heq Hslots]]; rewrite Heq in Hin; [done|].
    apply Hslots. auto.
Qed.

Lemma parse_stage_Ok s st :
  Onboarding.parse_stage s = Ok st → st <> StageComplete → s <> "complete"%string.
Proof. intros H Hne ->. vm_compute in H. congruence. Qed.

Lemma configure_inv price mx now fresh s d' u :
  inv s → op_wf (sys_issued s) (OpConfigureInitialOffer price mx now fresh) →
  Onboarding.configure_initial_offer price mx now fresh (sys_db s) = Ok (d', u) →
  inv {| sys_db := d'; sys_issued := sys_issued s |}.
Proof.
  intros [Hl Hr Hc He Hu Hs] [Hf _] H. destruct (Hf fresh eq_refl) as [Hflen Hfnew].
  unfold Onboarding.configure_initial_offer in H. tx_inv.
  match goal with H : bool_decide _ = false |- _ => apply bool_decide_eq_false, dec_stable in H end.
  subst. assert (sys_issued s = ∅) as Hempty by (apply Hu; eapply parse_stage_Ok; done).
  match goal with H : _ && _ && _ = true |- _ => apply andb_true_iff in H as [[_ Hm]%andb_true_iff _] end.
  destruct Hl as (_ & ? & ?). split; cbn; try done.
  split; [|done]. cbn. intros n ->. unfold in_range in Hm.
  by rewrite andb_true_iff, !Z.leb_le in Hm.
Qed.

(** What installing restored seats leaves alone or preserves. *)
Definition restores (d d' : Db) : Prop :=
  offer d' = offer d ∧ onboarding d' = onboarding d ∧
  (map_Forall seat_row_ok (seats d) → map_Forall seat_row_ok (seats d')) ∧
  (dom (claims d) ⊆ dom (seats d) → dom (claims d') ⊆ dom (seats d')).

#[local] Instance restores_preorder : PreOrder restores.
Proof. split; [by intros d|]. intros d1 d2 d3 (? & ? & ? & ?) (? & ? & ? & ?).
  split_and!; eauto using eq_trans.
Qed.

Lemma insert_seat_restores k r :
  0 <= seat_no r <= u32_max → 0 <= federation_size r <= u16_max →
  is_Some (dec (A:=Key) (fi_id r)) → is_Some (dec (A:=Plan) (plan r)) →
  tx_rel restores (insert_seat k r).
Proof.
  intros Hno Hsz Hfa Hpl d d' u H. unfold insert_seat in H. tx_inv.
  match goal with H : _ && _ && _ = true |- _ => apply andb_true_iff in H as [[Hc _]%andb_true_iff _] end.
  unfold check_seat in Hc. rewrite !andb_true_iff, Z.eqb_eq, Z.ltb_lt in Hc.
  split_and!; [done..| |].
  - intros Hall. apply map_Forall_insert_2; [|done]. unfold seat_row_ok. cbn. naive_solver lia.
  - cbn. rewrite dom_insert_L. set_solver.
Qed.

Lemma insert_claim_restores k ev : tx_rel restores (insert_claim k ev).
Proof.
  intros d d' u H. unfold insert_claim in H. tx_inv.
  match goal with H : _ && _ = true |- _ => apply andb_true_iff in H as [Hp _] end.
  apply present_true, elem_of_dom in Hp. split_and!; [done..|]. cbn. rewrite dom_insert_L. set_solver.
Qed.

Lemma install_restored_seat_restores now rs :
  0 <= sf_seat_no (Restore.rs_facts rs) <= u32_max →
  0 <= sf_federation_size (Restore.rs_facts rs) <= u16_max →
  tx_rel restores (Restore.install_restored_seat (Key:=Key) (Sig:=Sig) (Addr:=Addr)
                     (Evidence:=Evidence) now rs).
Proof.
  intros Hno Hsz. unfold Restore.install_restored_seat.
  apply tx_rel_bind; [apply _| |intros ?].
  { apply insert_seat_restores; cbn; rewrite ?dec_enc; eauto. }
  unfold insert_formed, Transfers.save, insert_transfer_out, insert_decommissioned, sql_require.
  tx_rel_auto; first [apply insert_claim_restores | by split_and!].
Qed.

Lemma tx_rel_for_in {A} (R : relation Db) `{!PreOrder R} (l : list A) (body : A -> DbTx unit) :
  Forall (λ a, tx_rel R (body a)) l → tx_rel R (tx_for l body).
Proof.
  induction 1 as [|a l Ha _ IH]; cbn; [by apply tx_rel_ret|by apply tx_rel_bind].
Qed.

Lemma restore_inv phrase fleet now s d' u :
  inv s → op_wf (sys_issued s) (OpInstallRestoredFleet phrase fleet now) →
  Restore.install_restored_fleet phrase fleet now (sys_db s) = Ok (d', u) →
  inv {| sys_db := d'; sys_issued := sys_issued s |}.
Proof.
  intros [Hl Hr Hc He Hu Hs] [_ Hall] H. cbn in Hall.
  unfold Restore.install_restored_fleet, Onboarding.insert_identity,
    Onboarding.update_stage_from in H. tx_inv; try done.
  match goal with H : bool_decide _ = false |- _ => apply bool_decide_eq_false, dec_stable in H end.
  subst. assert (sys_issued s = ∅) as Hempty by (apply Hu; eapply parse_stage_Ok; done).
  match goal with H : tx_for _ _ _ = Ok _ |- _ => rename H into Hfor end.
  apply (tx_rel_for_in restores) in Hfor as (Ho & _ & Hrows & Hcl).
  - split; cbn; rewrite ?Ho, ?Hempty; auto. set_solver.
  - eapply Forall_impl; [done|]. intros rs [? ?]. by apply install_restored_seat_restores.
Qed.

Lemma apply_op_inv o s :
  inv s → op_wf (sys_issued s) o →
  inv {| sys_db := apply_op o (sys_db s); sys_issued := sys_issued s |}.
Proof.
  intros Hi Hw. destruct (is_simple o) eqn:Hsimple; [by apply simple_op_inv|].
  destruct (apply_op_cases o (sys_db s)) as [->|(d' & -> & H)]; [by destruct s|].
  destruct o; cbn in Hsimple; try discriminate Hsimple; cbn [exec] in H;
    try apply discard_Ok in H as [r H].
  - by eapply update_config_inv.
  - by eapply configure_inv.
  - by eapply admit_inv.
  - by eapply restore_inv.
Qed.

Lemma offer_snapshot_Ok d snap :
  offer_snapshot first d = Ok snap → limits_wf (offer d) →
  of_epoch (os_offer snap) = offer_epoch (offer d) ∧ os_slots snap = db_slots d first.
Proof.
  intros H (Hmx & ? & ?). unfold offer_snapshot in H.
  rewrite (stored_limit_Ok _ Hmx), !stored_max_seats_Ok in H by done.
  apply res_bind_Ok in H as (e & [-> _]%parse_offer_epoch_Ok & H). cbn in H.
  apply res_bind_Ok in H as (p & _ & H). by simplify_eq.
Qed.

Lemma quote_offer_Ok d offer :
  quote_offer first d = Ok (Some offer) → limits_wf (MgSchema.offer d) →
  of_epoch offer = offer_epoch (MgSchema.offer d) ∧ 0 < db_slots d first.
Proof.
  intros H Hl. unfold quote_offer in H. apply res_bind_Ok in H as (snap & Hs & H).
  unfold expect_ok in Hs. split_match_in Hs.
  apply offer_snapshot_Ok in Heqr as [He <-]; [|done].
  split_match_in H. apply andb_true_iff in Heqb as [Hpos%Z.ltb_lt _]. done.
Qed.

Lemma step_inv s s' : inv s → step s s' → inv s'.
Proof.
  intros Hi [o Hw|offer Hst Hq]; [by apply apply_op_inv|].
  destruct Hi as [Hl Hr Hc He Hu Hs].
  apply quote_offer_Ok in Hq as [Hep Hpos]; [|done].
  split; cbn; try done. intros Hne. exfalso. apply Hne.
  unfold Onboarding.onboarding_stage, Onboarding.parse_stage in Hst.
  repeat case_bool_decide; simplify_eq; done.
Qed.

Lemma initial_inv epoch :
  Z.of_nat (String.length epoch) = 32 → inv {| sys_db := initial_db epoch; sys_issued := ∅ |}.
Proof.
  intros He. split; cbn; try done.
  unfold limits_wf, u32_max. cbn. split_and!; [intros n [= <-]|..]; lia.
Qed.

Lemma reachable_inv s : reachable s → inv s.
Proof. induction 1; [by apply initial_inv|by eapply step_inv]. Qed.

Lemma steps_ops s os :
  Forall (op_wf (sys_issued s)) os →
  rtc step s {| sys_db := foldl (λ d o, apply_op o d) (sys_db s) os; sys_issued := sys_issued s |}.
Proof.
  revert s. induction os as [|o os IH]; intros s Hall; cbn; [by destruct s|].
  apply Forall_cons in Hall as [Ho Hall].
  eapply rtc_l; [by constructor|].
  apply (IH {| sys_db := apply_op o (sys_db s); sys_issued := sys_issued s |} Hall).
Qed.

Lemma reachable_steps s s' : reachable s → rtc step s s' → reachable s'.
Proof. intros Hr. induction 1; [done|]. eauto using reach_step. Qed.

(** ** Admission in reachable states *)

Lemma seat_record_of_row_ok k r decom :
  seat_row_ok k r → ∃ rec, seat_record_of_row (FaId:=Key) k r decom = Ok rec.
Proof.
  intros (Hk & Hno & Hsz & [fa Hfa] & [pl Hpl]). unfold seat_record_of_row.
  rewrite Hk, Z.eqb_refl. cbn. rewrite Hfa, Hpl.
  rewrite (proj2 (try_from_u_Some u32_max (seat_no r) _) (conj eq_refl Hno)). cbn.
  rewrite (proj2 (try_from_u_Some u16_max (federation_size r) _)
             (conj eq_refl (conj (Z.lt_le_incl _ _ (proj1 Hsz)) (proj2 Hsz)))). cbn. eauto.
Qed.

Lemma find_seat_ok k d :
  map_Forall seat_row_ok (seats d) →
  match seats d !! k with
  | None => find_seat (FaId:=Key) k d = Ok None
  | Some _ => ∃ facts, find_seat (FaId:=Key) k d = Ok (Some facts)
  end.
Proof.
  intros Hr. unfold find_seat. destruct (seats d !! k) as [r|] eqn:Hk; [|done].
  destruct (seat_record_of_row_ok k r (decommissioned d !! k)) as [rec Hrec]; [by apply Hr|].
  exists (rec_facts rec). cbn. by rewrite Hrec.
Qed.

(** The writes of an accepted admission go through. *)
Lemma record_admission_Ok d ns no now slots fresh :
  Z.of_nat (String.length (ns_seat_id ns)) = 32 → 0 <= no → 0 < ns_federation_size ns →
  seats d !! ns_seat_id ns = None → seat_no_free no (seats d) = true →
  claims d !! ns_seat_id ns = None → Z.of_nat (String.length fresh) = 32 →
  ∃ d', record_admission (FaId:=Key) (Evidence:=Evidence) ns no now slots fresh d = Ok (d', tt).
Proof.
  intros Hlen Hno Hsz Hk Hf Hcl Hfresh. unfold record_admission.
  erewrite tx_bind_eq; [|apply insert_seat_eq; [|done..]].
  2: { unfold check_seat. cbn.
       by rewrite Hlen, (proj2 (Z.leb_le _ _) Hno), (proj2 (Z.ltb_lt _ _) Hsz). }
  destruct (ns_payment ns) as [ev|].
  - erewrite tx_bind_eq; [|apply insert_claim_eq; [cbn; rewrite lookup_insert_eq; eauto|done]].
    destruct (slots =? 1); [rewrite update_offer_epoch_eq by done|]; by eexists.
  - erewrite tx_bind_eq by done.
    destruct (slots =? 1); [rewrite update_offer_epoch_eq by done|]; by eexists.
Qed.

(** The four outcomes of an admission, computed. *)
Lemma admit_total s ns epoch now fresh :
  inv s → epoch ∈ sys_issued s →
  Z.of_nat (String.length (ns_seat_id ns)) = 32 → 0 < ns_federation_size ns →
  Z.of_nat (String.length fresh) = 32 →
  ∃ d' r, admit_seat_at_writer_boundary (FaId:=Key) (Evidence:=Evidence) ns epoch first now fresh
            (sys_db s) = Ok (d', r).
Proof.
  intros [Hl Hr Hc He Hu Hs] Hin Hk Hsz Hfresh. destruct s as [d issued]. cbn in *.
  unfold admit_seat_at_writer_boundary. rewrite (tx_bind_eq _ _ d d d eq_refl).
  pose proof (find_seat_ok (ns_seat_id ns) d Hr) as Hfind.
  destruct (seats d !! ns_seat_id ns) as [r|] eqn:Hseat.
  { destruct Hfind as [facts Hfind]. erewrite tx_bind_eq by by rewrite Hfind. cbn. eauto. }
  erewrite tx_bind_eq by by rewrite Hfind. cbn -[mbind].
  erewrite tx_bind_eq by by rewrite (proj2 (parse_offer_epoch_Ok _ _) (conj eq_refl He)).
  case_bool_decide as Hep; [cbn; eauto|]. subst epoch. specialize (Hs Hin).
  erewrite tx_bind_eq by by rewrite admission_slots_Ok.
  rewrite (proj2 (Z.ltb_lt _ _) Hs). cbn -[mbind].
  pose proof (slot_next_no d Hl (rows_nos d Hr) Hs) as Hno.
  pose proof (remaining_blocks_bound first first_wf).
  destruct (record_admission_Ok d ns (next_seat_no d) now (db_slots d first) fresh) as [d' Hw];
    try done; [lia|apply next_seat_no_free| |].
  { apply not_elem_of_dom. apply not_elem_of_dom in Hseat. set_solver. }
  erewrite tx_bind_eq by exact Hw.
  assert (try_from_u u32_max (next_seat_no d) = Some (next_seat_no d)) as ->.
  { apply try_from_u_Some. unfold u32_max. lia. }
  cbn. eauto.
Qed.

End System.
End Fleet.

(** * A concrete fleet

    One run of the transition system of [MgFleet] with concrete serializers:
    a fleet is set up, opened for sale and quoted, sells a seat, forms it,
    and moves it away.  The witnesses of the fleet's properties start from
    its states. *)

Module Demo.
Import Ports Offers Seats Fleet.

Definition demo_first : PortBase := {| pb_get := 20000 |}.
Definition demo_move : Type := Transfers.TransferMove (Key:=string) (Addr:=string).
Definition demo_grant : Type := Signing.SignedRequest (Key:=string) (Sig:=string).
Definition demo_grant_body : Type := Transfers.SeatTransferGrant (Key:=string) (Addr:=string).
#[export] Instance demo_move_codec : Codec demo_move := {| enc _ := ""; dec _ := None |}.
#[export] Instance demo_grant_codec : Codec demo_grant := {| enc _ := ""; dec _ := None |}.
#[export] Instance demo_body_codec : Codec demo_grant_body := {| enc _ := ""; dec _ := None |}.
#[export] Instance demo_string_codec : Codec string := bits_codec string.
#[export] Instance demo_plan_codec : Codec Plan := bits_codec Plan.
#[export] Instance demo_codes_codec : Codec (list string) := bits_codec (list string).
#[export] Instance demo_string_ok : CodecOk string := bits_codec_ok string.
#[export] Instance demo_plan_ok : CodecOk Plan := bits_codec_ok Plan.

Abbreviation demo_op := (Op (Key:=string) (Sig:=string) (Addr:=string) (Evidence:=string)
  (Cb:=string)).
Abbreviation demo_reachable := (reachable (Key:=string) (Sig:=string) (Addr:=string)
  (Evidence:=string) (Cb:=string) (λ m, m) (λ _ _ _, true) (λ c, c) Some demo_first).
Abbreviation demo_apply := (apply_op (Key:=string) (Sig:=string) (Addr:=string)
  (Evidence:=string) (Cb:=string) (λ m, m) (λ _ _ _, true) (λ c, c) Some demo_first).
Abbreviation demo_step := (step (Key:=string) (Sig:=string) (Addr:=string)
  (Evidence:=string) (Cb:=string) (λ m, m) (λ _ _ _, true) (λ c, c) Some demo_first).

Definition bytes32_of (c : ascii) : string := Nat.iter 32 (String c) EmptyString.
Definition epoch_a : string := bytes32_of "a"%char.
Definition epoch_b : string := bytes32_of "b"%char.
Definition epoch_c : string := bytes32_of "c"%char.
Definition epoch_d : string := bytes32_of "d"%char.
Definition seat_x : string := bytes32_of "x"%char.
Definition seat_y : string := bytes32_of "y"%char.

(** Onboard, offer two seats at 1000 msats and report readiness. *)
Definition demo_setup : list demo_op :=
  [ OpInstallIdentity "phrase" 1; OpReplaceHolder 5 "{}" 10 2;
    OpConfigureInitialOffer (Some 1000) (Some 2) 3 epoch_b;
    OpUpdateSeatsConfig (readiness_update true) 4 epoch_c ].
Definition demo_ready : Db := foldl (λ d o, demo_apply o d) (initial_db epoch_a) demo_setup.
Definition demo_open : Sys := {| sys_db := demo_ready; sys_issued := ∅ |}.
Definition demo_offer : Offer :=
  {| of_epoch := epoch_c;
     of_settings := {| qs_price := Some 1000; qs_payment_federations := [] |} |}.
Definition demo_quoted : Sys :=
  {| sys_db := sys_db demo_open; sys_issued := {[ of_epoch demo_offer ]} ∪ sys_issued demo_open |}.
Definition demo_seat (k : string) : NewSeat (FaId:=string) (Evidence:=string) :=
  {| ns_seat_id := k; ns_fa_id := "fa"; ns_plan := InfiniteBestEffort 1000;
     ns_federation_size := 4; ns_payment := Some "ecash"%string |}.

Lemma demo_first_wf : port_base_wf demo_first.
Proof. by vm_compute. Qed.

Lemma demo_setup_wf : Forall (op_wf ∅) demo_setup.
Proof.
  repeat constructor; cbn; try (intros; simplify_eq; by vm_compute); try set_solver.
Qed.

Definition demo_init : Sys := {| sys_db := initial_db epoch_a; sys_issued := ∅ |}.

Lemma demo_steps s os :
  Forall (op_wf (sys_issued s)) os →
  rtc demo_step s
    {| sys_db := foldl (λ d o, demo_apply o d) (sys_db s) os; sys_issued := sys_issued s |}.
Proof. exact (steps_ops (λ m, m) (λ _ _ _, true) (λ c, c) Some demo_first s os). Qed.

Lemma demo_reachable_open : demo_reachable demo_open.
Proof.
  apply (reachable_steps _ _ _ _ _ demo_init); [by constructor|].
  exact (demo_steps demo_init demo_setup demo_setup_wf).
Qed.

Lemma demo_reachable_quoted : demo_reachable demo_quoted.
Proof.
  eapply reach_step; [exact demo_reachable_open|].
  refine (step_quote (λ m, m) (λ _ _ _, true) (λ c, c) Some demo_first demo_open demo_offer _ _);
    by vm_compute.
Qed.

(** The seat [seat_x] is bought, named a callback, formed, and its claim
    settled. *)
Definition demo_sale : list demo_op :=
  [ OpAdmitSeat (demo_seat seat_x) epoch_c 5 epoch_d;
    OpRecordDkgInputs seat_x ["code"%string] (Some "callback"%string) 6;
    OpRecordFormed seat_x "invite" 7;
    OpRecordClaimOutcome seat_x ClaimSuccess 8;
    OpAttemptStarted seat_x 9;
    OpCallbackCompleted seat_x OutcomeDelivered 10 ].
Definition demo_sold : Sys :=
  {| sys_db := foldl (λ d o, demo_apply o d) (sys_db demo_quoted) demo_sale;
     sys_issued := sys_issued demo_quoted |}.

(** Later it is moved away and its material removed. *)
Definition demo_move_out : list demo_op :=
  [ OpRetireForTransfer seat_x; OpRecordTransferRemoval seat_x;
    OpSetOfferedPrice (Some 2000) 11 epoch_d; OpRotateTelemetry 12;
    OpBindEnvironment Onboarding.Staging ].
Definition demo_moved : Sys :=
  {| sys_db := foldl (λ d o, demo_apply o d) (sys_db demo_sold) demo_move_out;
     sys_issued := sys_issued demo_sold |}.

Lemma demo_sale_wf : Forall (op_wf (sys_issued demo_quoted)) demo_sale.
Proof.
  repeat constructor; cbn; try (intros; simplify_eq; by vm_compute); set_solver.
Qed.
Lemma demo_move_out_wf : Forall (op_wf (sys_issued demo_sold)) demo_move_out.
Proof.
  repeat constructor; cbn; try (intros; simplify_eq; by vm_compute); set_solver.
Qed.

Lemma demo_steps_sold : rtc demo_step demo_quoted demo_sold.
Proof. exact (demo_steps demo_quoted demo_sale demo_sale_wf). Qed.
Lemma demo_steps_moved : rtc demo_step demo_sold demo_moved.
Proof. exact (demo_steps demo_sold demo_move_out demo_move_out_wf). Qed.

Lemma demo_reachable_sold : demo_reachable demo_sold.
Proof.
  exact (reachable_steps _ _ _ _ _ demo_quoted _ demo_reachable_quoted demo_steps_sold).
Qed.

End Demo.
