(* ===== verification/MgLifecycle.v ===== *)
(** * Table invariants of the reachable databases

    Two whole-database invariants over the transition system of [MgFleet]:
    every callback row the fleet can store passes the startup validation, and
    the tables keep their references: every lifecycle row belongs to a seat, a
    seat moved away is a formed one, and no seat is at once in a ceremony and
    awaiting a transfer. *)

From S2P Require Import Prelude MgFacts MgSchema MgDb MgSeats MgCallbacks Signing MgTransfers MgRestore MgSlots MgFleet.
From stdpp Require Import base gmap strings list.
From Stdlib Require Import ZArith Lia.
Open Scope Z_scope.

Module Lifecycle.
Import Offers Seats Fleet Callback Callbacks Demo.

(** ** Callback rows *)

Section CallbackRows.
Context {Cb : Type} `{!Codec Cb} `{!CodecOk Cb}.

Definition seat_keys_ok (d : Db) : Prop :=
  map_Forall (λ k _, Z.of_nat (String.length k) = 32) (seats d).
Definition callbacks_ok (d : Db) : Prop :=
  seat_keys_ok d ∧
  map_Forall (λ k r, Z.of_nat (String.length k) = 32 ∧ callback_row_ok (Cb:=Cb) r) (callbacks d).
Definition callbacks_rel (d d' : Db) : Prop := callbacks_ok d → callbacks_ok d'.

#[export] Instance callbacks_rel_preorder : PreOrder callbacks_rel.
Proof. unfold callbacks_rel. split; [intros d H; exact H|intros d1 d2 d3; auto]. Qed.

Lemma insert_seat_callbacks k r : tx_rel callbacks_rel (insert_seat k r).
Proof.
  intros d d' u (-> & Hc & Hk & _)%insert_seat_Ok [Hs Hcb]. split; [|done]. cbn.
  unfold check_seat in Hc. rewrite !andb_true_iff, Z.eqb_eq in Hc.
  apply map_Forall_insert_2; [tauto|done].
Qed.

Lemma update_callback_callbacks k guard f :
  (∀ d r, guard d r = true → callback_row_ok (Cb:=Cb) r → callback_row_ok (Cb:=Cb) (f r)) →
  tx_rel callbacks_rel (update_callback k guard f).
Proof.
  intros Hf d d' n H [Hs Hcb]. unfold update_callback in H. tx_inv; [|done|done]. split; [done|].
  cbn [id] in *. match goal with H : callbacks d !! k = Some _ |- _ => pose proof (Hcb _ _ H) as [Hk Hr] end.
  cbn. apply map_Forall_insert_2; [|done]. split; [done|]. by eapply Hf.
Qed.

Lemma install_callback_callbacks k (cb : option Cb) now :
  tx_rel callbacks_rel (install_completion_callback k cb now).
Proof.
  intros d d' u H [Hs Hcb]. unfold install_completion_callback in H. tx_inv; [done|].
  split; [done|]. cbn [id] in *.
  match goal with H : present _ _ = true |- _ => apply present_true in H as [row Hrow] end.
  cbn. apply map_Forall_insert_2; [|done]. split; [by eapply Hs|].
  destruct cb as [c|]; cbn.
  - exists (Pending 0 now None), (Some c). split_and!;
      [done|unfold attempts_ok, u32_max; cbn; lia|by eexists|].
    exists c. split; [apply dec_enc|done].
  - exists NotConfigured, None. by split_and!.
Qed.

(** The four worker transitions and decommissioning keep rows parseable. *)
Lemma attempt_started_row next r :
  callback_row_ok (Cb:=Cb) r → resumable_status (completion_callback_status r) = true →
  callback_row_ok (Cb:=Cb)
    {| completion_callback := completion_callback r;
       completion_callback_status := "pending";
       completion_callback_attempts := Z.min (completion_callback_attempts r + 1) 4294967295;
       completion_callback_next_attempt_at_ms := Some next;
       completion_callback_reason := None;
       completion_callback_completed_at_ms := completion_callback_completed_at_ms r |}.
Proof.
  intros Hr Hres. pose proof (row_attempts r Hr).
  destruct (resumable_completed r Hr Hres) as [-> Hsome].
  apply (resumable_row_ok r (Pending (Z.min (completion_callback_attempts r + 1) 4294967295)
    next None) Hr Hres); [|done]. unfold attempts_ok, u32_max in *. cbn. lia.
Qed.

Lemma operator_blocked_row reason r :
  callback_row_ok (Cb:=Cb) r → resumable_status (completion_callback_status r) = true →
  callback_row_ok (Cb:=Cb)
    {| completion_callback := completion_callback r;
       completion_callback_status := "operator_blocked";
       completion_callback_attempts := completion_callback_attempts r;
       completion_callback_next_attempt_at_ms := None;
       completion_callback_reason := Some (reason_as_str reason);
       completion_callback_completed_at_ms := completion_callback_completed_at_ms r |}.
Proof.
  intros Hr Hres. pose proof (row_attempts r Hr).
  destruct (resumable_completed r Hr Hres) as [-> Hsome].
  exact (resumable_row_ok r (OperatorBlocked (completion_callback_attempts r) reason) Hr Hres
    (row_attempts r Hr) Hsome).
Qed.

Lemma retry_reason_row reason r :
  callback_row_ok (Cb:=Cb) r → completion_callback_status r = "pending"%string →
  callback_row_ok (Cb:=Cb)
    {| completion_callback := completion_callback r;
       completion_callback_status := completion_callback_status r;
       completion_callback_attempts := completion_callback_attempts r;
       completion_callback_next_attempt_at_ms := completion_callback_next_attempt_at_ms r;
       completion_callback_reason := Some (reason_as_str reason);
       completion_callback_completed_at_ms := completion_callback_completed_at_ms r |}.
Proof.
  intros (st & cb & Hr & Ha & Hb & Hcb) Hst. rewrite Hst.
  rewrite Hr in Hst. destruct st as [|a n lr|a r'|a t|a t r']; cbn in Hst; try discriminate Hst.
  exists (Pending a n (Some reason)), cb. rewrite Hr. by split_and!.
Qed.

Lemma delivered_row now r :
  callback_row_ok (Cb:=Cb) r →
  callback_row_ok (Cb:=Cb)
    (status_row None (Delivered (completion_callback_attempts r) now)).
Proof. intros Hr. apply finished_row_ok; [exact (row_attempts r Hr)|done]. Qed.

Lemma terminal_row now reason r :
  callback_row_ok (Cb:=Cb) r →
  callback_row_ok (Cb:=Cb)
    (status_row None (Terminal (completion_callback_attempts r) now reason)).
Proof. intros Hr. apply finished_row_ok; [exact (row_attempts r Hr)|done]. Qed.

End CallbackRows.
(** ** References between the tables *)

Record refs_ok (d : Db) : Prop := {
  ref_decommissioned : dom (decommissioned d) ⊆ dom (seats d);
  ref_formed : dom (formed d) ⊆ dom (seats d);
  ref_callbacks : dom (callbacks d) ⊆ dom (seats d);
  ref_dkg_inputs : dom (dkg_inputs d) ⊆ dom (seats d);
  ref_publications : dom (publications d) ⊆ dom (seats d);
  ref_transfer_in : dom (transfer_in d) ⊆ dom (seats d);
  ref_transfer_out : dom (transfer_out d) ⊆ dom (formed d);
  ref_ceremony : dom (transfer_in d) ## dom (dkg_inputs d)
}.
Definition refs_rel (d d' : Db) : Prop := refs_ok d → refs_ok d'.

#[export] Instance refs_rel_preorder : PreOrder refs_rel.
Proof. unfold refs_rel. split; [intros d H; exact H|intros d1 d2 d3; auto]. Qed.

Lemma dom_of {V} (m : gmap string V) k v : m !! k = Some v → k ∈ dom m.
Proof. apply elem_of_dom_2. Qed.
Lemma dom_of_is_Some {V} (m : gmap string V) k : is_Some (m !! k) → k ∈ dom m.
Proof. by rewrite elem_of_dom. Qed.
Lemma dom_of_present {V} (m : gmap string V) k : present m k = true → k ∈ dom m.
Proof. rewrite present_true. by rewrite elem_of_dom. Qed.
Lemma dom_of_absent {V} (m : gmap string V) k : absent m k = true → k ∉ dom m.
Proof. rewrite absent_true. by rewrite not_elem_of_dom. Qed.

(** Turn the guards of a write into membership facts and close the record. *)
Ltac refs_facts :=
  repeat match goal with
  | H : (_ && _) = true |- _ => apply andb_true_iff in H as [? ?]
  | H : (_ || _) = false |- _ => apply orb_false_iff in H as [? ?]
  | H : present _ _ = true |- _ => apply dom_of_present in H
  | H : absent _ _ = true |- _ => apply dom_of_absent in H
  | H : present _ _ = false |- _ => unfold present in H; apply negb_false_iff in H
  | H : is_Some (_ !! _) |- _ => apply dom_of_is_Some in H
  | H : _ !! _ = Some _ |- _ => apply dom_of in H
  | H : _ !! _ = None |- _ => apply not_elem_of_dom in H
  end.
Ltac solve_refs :=
  refs_facts;
  match goal with H : refs_ok ?d |- refs_ok _ => destruct H; split; cbn in * end;
  rewrite ?dom_insert_L, ?dom_delete_L in *; set_solver.

Lemma insert_seat_refs k r : tx_rel refs_rel (insert_seat k r).
Proof. intros d d' u (-> & _ & Hk & _)%insert_seat_Ok Hd. solve_refs. Qed.
Lemma insert_decommissioned_refs k t : tx_rel refs_rel (insert_decommissioned k t).
Proof. intros d d' u (-> & Hs & Hk)%insert_decommissioned_Ok Hd. solve_refs. Qed.
Lemma insert_formed_refs k i t : tx_rel refs_rel (insert_formed k i t).
Proof. intros d d' u (-> & Hs & Hk)%insert_formed_Ok Hd. solve_refs. Qed.
Lemma install_callback_refs {Cb} `{!Codec Cb} k (cb : option Cb) now :
  tx_rel refs_rel (install_completion_callback k cb now).
Proof.
  intros d d' u H Hd. unfold install_completion_callback in H. tx_inv; [done|].
  cbn [id] in *. solve_refs.
Qed.
Lemma update_callback_refs k guard f : tx_rel refs_rel (update_callback k guard f).
Proof.
  intros d d' n H Hd. unfold update_callback in H. tx_inv; [|done|done]. cbn [id] in *. solve_refs.
Qed.
Lemma record_dkg_inputs_refs {Cb} `{!Codec Cb, !Codec (list string)} k codes (cb : option Cb) now :
  tx_rel refs_rel (record_dkg_inputs k codes cb now).
Proof.
  intros d d' u H Hd. unfold record_dkg_inputs in H. tx_inv.
  eapply (install_callback_refs k cb now); [done|]. cbn [id] in *. solve_refs.
Qed.
Lemma record_publication_refs k doc dg out v now :
  tx_rel refs_rel (Restore.record_backup_publication k doc dg out v now).
Proof.
  intros d d' u H Hd. unfold Restore.record_backup_publication in H. tx_inv. cbn [id] in *.
  solve_refs.
Qed.
Lemma retire_refs k : tx_rel refs_rel (Transfers.retire_for_transfer k).
Proof.
  intros d d' b H Hd. unfold Transfers.retire_for_transfer in H. tx_inv; [|done].
  match goal with H : insert_transfer_out _ _ _ = _ |- _ =>
    apply insert_transfer_out_Ok in H as (-> & _) end.
  cbn [id] in *. solve_refs.
Qed.
Lemma removal_refs k : tx_rel refs_rel (Transfers.record_transfer_removal k).
Proof.
  intros d d' b H Hd. unfold Transfers.record_transfer_removal in H. tx_inv; [|done].
  match goal with H : bool_decide _ = true |- _ => apply bool_decide_eq_true in H end.
  cbn [id] in *. solve_refs.
Qed.

Section System.
Context {Key Sig Addr : Type} `{!EqDecision Key} `{!EqDecision Addr}.
Context `{!Codec (Transfers.TransferMove (Key:=Key) (Addr:=Addr))}
  `{!Codec (Signing.SignedRequest (Key:=Key) (Sig:=Sig))}
  `{!Codec (Transfers.SeatTransferGrant (Key:=Key) (Addr:=Addr))}
  `{!Codec Key} `{!Codec Plan}.
Context {Evidence Cb : Type} `{!Codec Evidence} `{!Codec Cb} `{!CodecOk Cb}
  `{!Codec (list string)}.
Variable sha256 : string -> string.
Variable verify_schnorr : Sig -> string -> Key -> bool.
Variable canonical_callback : Cb -> string.
Variable invite_federation_id : string -> option string.
Variable first : Ports.PortBase.

Abbreviation exec_ := (exec (Addr:=Addr) (Evidence:=Evidence) sha256 verify_schnorr
  canonical_callback invite_federation_id first).

Lemma exec_callbacks o : tx_rel (callbacks_rel (Cb:=Cb)) (exec_ o).
Proof.
  pose proof (insert_seat_callbacks (Cb:=Cb)). pose proof (install_callback_callbacks (Cb:=Cb)).
  destruct o; try match goal with oc : CompletionCallbackOutcome |- _ => destruct oc end;
    cbn [exec]; unfold discard; unfold_ops; cbn beta iota; tx_rel_auto.
  all: try (apply update_callback_callbacks; intros d r;
            rewrite ?andb_true_iff, ?bool_decide_eq_true; intros Hg Hr; destruct_and?).
  all: try (unfold_stmts; tx_rel_auto; unfold_stmts; tx_rel_auto; cbn [fst];
            repeat case_match; intros Hi; exact Hi).
  - exact (terminal_row now Decommissioned r Hr).
  - by apply attempt_started_row.
  - by apply retry_reason_row.
  - by apply operator_blocked_row.
  - exact (delivered_row now r Hr).
  - exact (terminal_row now reason r Hr).
Qed.

Abbreviation reachable_ := (reachable (Addr:=Addr) (Evidence:=Evidence) sha256 verify_schnorr
  canonical_callback invite_federation_id first).

Lemma reachable_callbacks s : reachable_ s → callbacks_ok (Cb:=Cb) (sys_db s).
Proof.
  induction 1 as [epoch _|s s' _ IH Hstep]; [split; apply map_Forall_empty|].
  destruct Hstep as [o _|o _ _]; cbn; [|done].
  unfold apply_op. pose proof (exec_callbacks o) as Ho.
  apply (tx_rel_run callbacks_rel _ (sys_db s)) in Ho; auto.
Qed.

Lemma collect_total {A B} (f : A -> res DbError B) l :
  Forall (λ a, ∃ b, f a = Ok b) l → ∃ bs, collect f l = Ok bs.
Proof.
  induction 1 as [|a l (b & Hb) _ (bs & Hbs)]; cbn; [by eexists|]. rewrite Hb, Hbs. by eexists.
Qed.

Lemma Forall_list_filter {A} (P : A -> Prop) f l : Forall P l → Forall P (List.filter f l).
Proof. induction 1; cbn; [done|]. destruct (f _); auto. Qed.

(** whatever the fleet does, the callback table it leaves behind passes the
    validation that the next start runs before any network I/O, and the
    delivery worker's query returns records. *)
Theorem callback_validation_succeeds s (Hreach : reachable_ s) :
  validate_completion_callbacks (Cb:=Cb) (sys_db s) = Ok tt ∧
  ∃ l, deliverable_completion_callbacks (Cb:=Cb) (sys_db s) = Ok l.
Proof.
  apply reachable_callbacks in Hreach as [_ Hall].
  assert (Forall (λ kr, ∃ rec, callback_record_of_row (Cb:=Cb) kr.1 kr.2 = Ok rec)
            (map_to_list (callbacks (sys_db s)))) as Hl.
  { apply Forall_forall. intros [k r] Hkr%elem_of_map_to_list.
    destruct (Hall k r Hkr). by apply callback_row_parses. }
  split.
  - unfold validate_completion_callbacks. by destruct (collect_total _ _ Hl) as [bs ->].
  - unfold deliverable_completion_callbacks. apply collect_total.
    by apply Forall_list_filter.
Qed.

(** *** The transfer and restore operations *)

Abbreviation Incoming := (Transfers.IncomingTransfer (Key:=Key) (Sig:=Sig) (Addr:=Addr)).

Lemma save_refs k (r : Incoming) d d' u :
  Transfers.save k r d = Ok (d', u) → k ∉ dom (dkg_inputs d) → refs_ok d → refs_ok d'.
Proof.
  intros H Hk Hd. unfold Transfers.save in H. tx_inv. cbn [id] in *. solve_refs.
Qed.

Lemma admit_transfer_refs grant cb now now_cb :
  tx_rel refs_rel (Transfers.admit_transfer (Addr:=Addr) sha256 verify_schnorr canonical_callback
    invite_federation_id grant cb now now_cb).
Proof.
  intros d d' o H Hd. unfold Transfers.admit_transfer in H. tx_inv; try done.
  - match goal with H : install_completion_callback _ _ _ _ = _ |- _ =>
      exact (install_callback_refs (Cb:=Cb) _ _ _ _ _ _ H Hd) end.
  - cbn [id] in *.
    match goal with H : install_completion_callback _ _ _ _ = _ |- _ =>
      apply (install_callback_refs (Cb:=Cb) _ _ _ _ _ _ H) end.
    match goal with H : Transfers.save _ _ _ = _ |- _ => eapply save_refs in H; [exact H| |done] end.
    by refs_facts.
Qed.

Lemma incoming_dom k d (r : Incoming) :
  Transfers.incoming k d = Ok (Some r) → k ∈ dom (transfer_in d).
Proof.
  unfold Transfers.incoming. destruct (transfer_in d !! k) eqn:Hk; [|done]. intros _.
  by apply dom_of in Hk.
Qed.

Lemma accept_transfer_refs k binding keys invite now :
  tx_rel refs_rel (Transfers.accept_transfer (Sig:=Sig) (Key:=Key) (Addr:=Addr) k binding keys
    invite now).
Proof.
  intros d d' b H Hd. unfold Transfers.accept_transfer in H. tx_inv; try done.
  eapply insert_formed_refs; [done|]. eapply save_refs; [done| |done]. cbn [id] in *.
  match goal with H : Transfers.incoming _ _ = _ |- _ => apply incoming_dom in H end.
  destruct Hd. set_solver.
Qed.

Lemma restored_seat_refs now (rs : Restore.RestoredSeat (Key:=Key) (Sig:=Sig) (Addr:=Addr)
    (Evidence:=Evidence)) :
  tx_rel refs_rel (Restore.install_restored_seat now rs).
Proof.
  intros d d' u H Hd. unfold Restore.install_restored_seat in H.
  apply tx_bind_Ok in H as (d1 & u1 & H1 & H).
  pose proof H1 as Hseat. apply insert_seat_Ok in Hseat as (Hd1 & _ & Hk & _).
  pose proof (insert_seat_refs _ _ _ _ _ H1 Hd) as Hr1.
  set (k := sf_seat_id (Restore.rs_facts rs)) in *.
  assert (k ∉ dom (dkg_inputs d1)) as Hdkg.
  { rewrite Hd1. cbn. apply not_elem_of_dom in Hk. destruct Hd. set_solver. }
  clear H1 Hd Hk Hd1.
  apply tx_bind_Ok in H as (d2 & u2 & H2 & H).
  assert (refs_ok d2 ∧ dkg_inputs d2 = dkg_inputs d1 ∧
          (is_Some (Restore.rs_outgoing rs) → k ∈ dom (formed d2))) as (Hr2 & Hdkg2 & Hf2).
  { clear H. destruct (bool_decide _ || bool_decide _) eqn:Hb; tx_inv.
    - match goal with H : insert_formed _ _ _ _ = _ |- _ =>
        pose proof (insert_formed_refs _ _ _ _ _ _ H Hr1); apply insert_formed_Ok in H as (-> & _) end.
      split_and!; [done|done|]. intros _. cbn. rewrite dom_insert_L. set_solver.
    - split_and!; [done|done|]. apply orb_false_iff in Hb as [_ Hb].
      by apply bool_decide_eq_false in Hb. }
  clear H2 Hr1. apply tx_bind_Ok in H as (d3 & u3 & H3 & H).
  assert (refs_ok d3 ∧ formed d3 = formed d2) as (Hr3 & Hf3).
  { clear H. destruct (Restore.rs_incoming rs); [|by tx_inv].
    pose proof H3 as Hsave. unfold Transfers.save in Hsave. tx_inv. split; [|done].
    eapply save_refs; [exact H3|by rewrite Hdkg2|done]. }
  apply tx_bind_Ok in H as (d4 & u4 & H4 & H).
  assert (refs_ok d4) as Hr4.
  { clear H. destruct (Restore.rs_outgoing rs); [|by tx_inv].
    apply insert_transfer_out_Ok in H4 as (-> & _).
    specialize (Hf2 ltac:(by eexists)). rewrite <- Hf3 in Hf2. solve_refs. }
  apply tx_bind_Ok in H as (d5 & u5 & H5 & H).
  assert (refs_ok d5) as Hr5.
  { clear H. destruct (Restore.rs_payment rs); [|by tx_inv]. apply insert_claim_Ok in H5 as (-> & _).
    by destruct Hr4. }
  destruct (Restore.rs_decommissioned_at_ms rs); [|by tx_inv]. by eapply insert_decommissioned_refs.
Qed.

Lemma restored_fleet_refs phrase (fleet : list (Restore.RestoredSeat (Key:=Key) (Sig:=Sig)
    (Addr:=Addr) (Evidence:=Evidence))) now :
  tx_rel refs_rel (Restore.install_restored_fleet phrase fleet now).
Proof.
  pose proof restored_seat_refs.
  unfold Restore.install_restored_fleet, Onboarding.insert_identity, Onboarding.update_stage_from,
    sql_require.
  tx_rel_auto; intros Hi; by destruct Hi.
Qed.

Lemma exec_refs o : tx_rel refs_rel (exec_ o).
Proof.
  pose proof insert_seat_refs. pose proof insert_decommissioned_refs.
  pose proof insert_formed_refs. pose proof (install_callback_refs (Cb:=Cb)).
  pose proof update_callback_refs. pose proof (record_dkg_inputs_refs (Cb:=Cb)).
  pose proof record_publication_refs. pose proof retire_refs. pose proof removal_refs.
  pose proof admit_transfer_refs. pose proof accept_transfer_refs. pose proof restored_fleet_refs.
  destruct o; cbn [exec]; unfold discard; try solve [tx_rel_auto].
  all: unfold Callbacks.record_attempt_started, Callbacks.record_retry_reason, Callbacks.record_operator_blocked, Callbacks.record_completed;
    try solve [tx_rel_auto].
  all: unfold_ops; tx_rel_auto; do 2 (unfold_stmts; tx_rel_auto); cbn [fst].
  all: repeat case_match; intros Hi; first [exact Hi | by destruct Hi].
Qed.

(** in every reachable database each lifecycle row (decommission, formation,
    callback, ceremony input, backup publication, transfer) belongs to a
    stored seat, only a formed seat is ever moved away, and a seat is never
    at once in a ceremony and holding an incoming transfer. *)
Theorem tables_stay_consistent s (Hreach : reachable_ s) : refs_ok (sys_db s).
Proof.
  induction Hreach as [epoch _|s s' _ IH Hstep]; [split; set_solver|].
  destruct Hstep as [o _|o _ _]; cbn; [|done].
  unfold apply_op. pose proof (exec_refs o) as Ho.
  apply (tx_rel_run refs_rel _ (sys_db s)) in Ho; auto.
Qed.

End System.

Lemma callback_validation_succeeds_witness :
  validate_completion_callbacks (Cb:=string) (sys_db demo_sold) = Ok tt ∧
  ∃ l, deliverable_completion_callbacks (Cb:=string) (sys_db demo_sold) = Ok l.
Proof.
  exact (callback_validation_succeeds (λ m, m) (λ _ _ _, true) (λ c, c) Some demo_first
    demo_sold demo_reachable_sold).
Defined.

Lemma tables_stay_consistent_witness : refs_ok (sys_db demo_sold).
Proof.
  exact (tables_stay_consistent (λ m, m) (λ _ _ _, true) (λ c, c) Some demo_first
    demo_sold demo_reachable_sold).
Defined.

End Lifecycle.
