(* ===== verification/MgLatches.v ===== *)
(** * One-way facts of the Manifold Guardian database

    The migrations' triggers and the [WHERE] clauses of the operations make
    some stored facts permanent.  [latched d d'] collects them: every
    durable operation moves the database along it, so they survive any
    interleaving. *)

From S2P Require Import Prelude MgFacts MgSchema MgDb MgSeats MgCallbacks Signing MgTransfers MgRestore MgSlots MgFleet.
From stdpp Require Import base gmap strings list.
From Stdlib Require Import ZArith Lia.
Open Scope Z_scope.

Module Latches.
Import Offers Seats Fleet Demo.

(** The order of the onboarding stages. *)
Definition stage_rank (s : string) : Z :=
  if bool_decide (s = "identity"%string) then 0
  else if bool_decide (s = "holder_authorization"%string) then 1
  else if bool_decide (s = "initial_offer"%string) then 2
  else 3.

(** A claim keeps its evidence, and its outcome once it has one. *)
Definition claim_le (r r' : ClaimCols) : Prop :=
  evidence r' = evidence r ∧ (claim_outcome r <> None → r' = r).

(** A transfer fence stays, or goes from stopped to removed. *)
Definition fence_le (p p' : string) : Prop :=
  p' = p ∨ (p = "stopped"%string ∧ p' = "removed"%string).

(** A callback row that is not resumable is final. *)
Definition callback_le (r r' : CallbackCols) : Prop :=
  resumable_status (completion_callback_status r) = false → r' = r.

(** Every entry stays, and moves along [le]. *)
Definition map_le {V} (le : relation V) (m m' : gmap string V) : Prop :=
  ∀ k v, m !! k = Some v → ∃ v', m' !! k = Some v' ∧ le v v'.

Definition option_le {V} (o o' : option V) : Prop := ∀ v, o = Some v → o' = Some v.

Record latched (d d' : Db) : Prop := {
  l_seats : map_le eq (seats d) (seats d');
  l_claims : map_le claim_le (claims d) (claims d');
  l_decommissioned : map_le eq (decommissioned d) (decommissioned d');
  l_formed : map_le eq (formed d) (formed d');
  l_callbacks : map_le callback_le (callbacks d) (callbacks d');
  l_transfer_out : map_le fence_le (transfer_out d) (transfer_out d');
  l_identity : option_le (identity d) (identity d');
  l_environment : option_le (environment d) (environment d');
  l_stage : stage_rank (stage (onboarding d)) <= stage_rank (stage (onboarding d'));
  l_generation : generation (telemetry d) <= generation (telemetry d')
}.

#[local] Instance map_le_preorder {V} (le : relation V) `{!PreOrder le} : PreOrder (map_le le).
Proof.
  split; [intros m k v Hk; by exists v|]. intros m1 m2 m3 H1 H2 k v Hk.
  apply H1 in Hk as (v' & Hk & ?). apply H2 in Hk as (v'' & Hk & ?).
  exists v''. split; [done|by etrans].
Qed.
#[local] Instance option_le_preorder {V} : PreOrder (@option_le V).
Proof. split; [by intros o v|]. intros o1 o2 o3 H1 H2 v Hv. auto. Qed.
#[local] Instance claim_le_preorder : PreOrder claim_le.
Proof.
  split; [done|]. intros r1 r2 r3 [E1 H1] [E2 H2]. split; [congruence|].
  intros Hne. specialize (H1 Hne). subst. auto.
Qed.
#[local] Instance fence_le_preorder : PreOrder fence_le.
Proof. split; [by left|]. intros p1 p2 p3 [->|[-> ->]] [->|[Heq ->]]; unfold fence_le; auto. Qed.
#[local] Instance callback_le_preorder : PreOrder callback_le.
Proof. split; [done|]. intros r1 r2 r3 H1 H2 Hr. specialize (H1 Hr). subst. auto. Qed.

#[export] Instance latched_preorder : PreOrder latched.
Proof.
  split; [intros d; split; reflexivity|].
  intros d1 d2 d3 [] []. split; by etrans.
Qed.

(** Writing a fresh key, and writing above the old value. *)
Lemma map_le_insert_fresh {V} (le : relation V) `{!PreOrder le} m k v :
  m !! k = None → map_le le m (<[k := v]> m).
Proof.
  intros Hk k' v' Hv. exists v'. split; [|done]. rewrite lookup_insert_ne; [done|congruence].
Qed.
Lemma map_le_insert {V} (le : relation V) `{!PreOrder le} m k v v' :
  m !! k = Some v → le v v' → map_le le m (<[k := v']> m).
Proof.
  intros Hk Hle k' w Hw. destruct (decide (k = k')) as [<-|Hne].
  - exists v'. rewrite lookup_insert_eq. split; [done|]. congruence.
  - exists w. rewrite lookup_insert_ne by done. done.
Qed.

(** Close the ten conjuncts where the write is unrelated. *)
Ltac latch := split; cbn; try reflexivity.

Lemma insert_seat_latched k r : tx_rel latched (insert_seat k r).
Proof.
  intros d d' u (-> & _ & Hk & _)%insert_seat_Ok. latch. by apply map_le_insert_fresh; [apply _|].
Qed.
Lemma insert_claim_latched k ev : tx_rel latched (insert_claim k ev).
Proof.
  intros d d' u (-> & _ & Hk)%insert_claim_Ok. latch. by apply map_le_insert_fresh; [apply _|].
Qed.
Lemma insert_decommissioned_latched k at_ms : tx_rel latched (insert_decommissioned k at_ms).
Proof.
  intros d d' u (-> & _ & Hk)%insert_decommissioned_Ok. latch.
  by apply map_le_insert_fresh; [apply _|].
Qed.
Lemma insert_formed_latched k invite at_ms : tx_rel latched (insert_formed k invite at_ms).
Proof.
  intros d d' u (-> & _ & Hk)%insert_formed_Ok. latch. by apply map_le_insert_fresh; [apply _|].
Qed.
Lemma insert_transfer_out_latched k p : tx_rel latched (insert_transfer_out k p).
Proof.
  intros d d' u (-> & _ & Hk)%insert_transfer_out_Ok. latch.
  by apply map_le_insert_fresh; [apply _|].
Qed.
Lemma insert_identity_latched phrase origin now :
  tx_rel latched (Onboarding.insert_identity phrase origin now).
Proof.
  intros d d' u H. unfold Onboarding.insert_identity in H. tx_inv. latch.
  intros row Hrow. by rewrite Hrow in *.
Qed.

Lemma update_callback_latched k guard f :
  (∀ d r, guard d r = true → resumable_status (completion_callback_status r) = true) →
  tx_rel latched (update_callback k guard f).
Proof.
  intros Hg d d' n H. unfold update_callback in H. tx_inv; try reflexivity. latch.
  eapply map_le_insert; [apply _|done|]. intros Hr. specialize (Hg _ _ Heqb). congruence.
Qed.

Lemma update_stage_from_latched old new now :
  stage_rank old <= stage_rank new → tx_rel latched (Onboarding.update_stage_from old new now).
Proof.
  intros Hle d d' n H. unfold Onboarding.update_stage_from in H. tx_inv; [|reflexivity].
  apply bool_decide_eq_true in Heqb. latch. by rewrite Heqb.
Qed.

Lemma install_completion_callback_latched {Cb} `{!Codec Cb} k (cb : option Cb) now :
  tx_rel latched (install_completion_callback k cb now).
Proof.
  intros d d' u H. unfold install_completion_callback in H. tx_inv; [reflexivity|]. latch.
  by apply map_le_insert_fresh; [apply _|].
Qed.

Lemma record_claim_outcome_latched k oc now : tx_rel latched (record_claim_outcome k oc now).
Proof.
  intros d d' n H. unfold record_claim_outcome in H. tx_inv. latch.
  eapply map_le_insert; [apply _|done|]. split; [done|]. congruence.
Qed.

Lemma record_transfer_removal_latched k : tx_rel latched (Transfers.record_transfer_removal k).
Proof.
  intros d d' b H. unfold Transfers.record_transfer_removal in H. tx_inv; [|reflexivity].
  match goal with H : bool_decide _ = true |- _ => apply bool_decide_eq_true in H end. latch.
  eapply map_le_insert; [apply _|done|]. by right.
Qed.

Lemma rotate_latched now :
  tx_rel latched (Telemetry.rotate_telemetry_capability_generation now).
Proof.
  intros d d' g H. unfold Telemetry.rotate_telemetry_capability_generation in H. tx_inv.
  latch. lia.
Qed.

Lemma bind_environment_latched e :
  tx_rel latched (tx_put (λ d, (Onboarding.bind_manifold_environment e d).1) : DbTx unit).
Proof.
  intros d d' u ->%tx_put_Ok. unfold Onboarding.bind_manifold_environment.
  destruct (environment d) eqn:He; cbn [fst]; [reflexivity|]. latch. by rewrite He.
Qed.

Lemma configure_initial_offer_latched price mx now fresh :
  tx_rel latched (Onboarding.configure_initial_offer price mx now fresh).
Proof.
  intros d d' u H. unfold Onboarding.configure_initial_offer in H. tx_inv. latch.
  unfold stage_rank. repeat case_bool_decide; first [discriminate | lia].
Qed.

#[export] Hint Resolve insert_seat_latched insert_claim_latched insert_decommissioned_latched
  insert_formed_latched insert_transfer_out_latched insert_identity_latched
  install_completion_callback_latched record_claim_outcome_latched
  record_transfer_removal_latched rotate_latched bind_environment_latched
  configure_initial_offer_latched : manifold.

Lemma resumable_pending s : bool_decide (s = "pending"%string) = true → resumable_status s = true.
Proof. unfold resumable_status. by intros ->. Qed.

Section System.
Context {Key Sig Addr : Type} `{!EqDecision Key} `{!EqDecision Addr}.
Context `{!Codec (Transfers.TransferMove (Key:=Key) (Addr:=Addr))}
  `{!Codec (Signing.SignedRequest (Key:=Key) (Sig:=Sig))}
  `{!Codec (Transfers.SeatTransferGrant (Key:=Key) (Addr:=Addr))}
  `{!Codec Key} `{!Codec Plan}.
Context {Evidence Cb : Type} `{!Codec Evidence} `{!Codec Cb} `{!Codec (list string)}.
Variable sha256 : string -> string.
Variable verify_schnorr : Sig -> string -> Key -> bool.
Variable canonical_callback : Cb -> string.
Variable invite_federation_id : string -> option string.
Variable first : Ports.PortBase.

Abbreviation exec_ := (exec (Evidence:=Evidence) sha256 verify_schnorr canonical_callback
  invite_federation_id first).

Lemma exec_latched o : tx_rel latched (exec_ o).
Proof.
  destruct o; cbn [exec]; try solve [auto with manifold]; unfold discard; unfold_ops; tx_rel_auto.
  all: try (apply update_stage_from_latched; vm_compute; congruence).
  all: try (apply update_callback_latched; intros ? ?; rewrite ?andb_true_iff;
            naive_solver eauto using resumable_pending).
  all: unfold Onboarding.drop_future_holder, update_offer_epoch, sql_require; tx_rel_auto.
  all: repeat case_match; first [reflexivity | by latch].
Qed.

Lemma apply_op_latched o d :
  latched d (apply_op (Evidence:=Evidence) sha256 verify_schnorr canonical_callback
               invite_federation_id first o d).
Proof. unfold apply_op. apply tx_rel_run; [apply _|]. apply exec_latched. Qed.

Abbreviation step_ := (step (Evidence:=Evidence) sha256 verify_schnorr canonical_callback
  invite_federation_id first).

Lemma step_latched s s' : step_ s s' → latched (sys_db s) (sys_db s').
Proof. intros [o _|offer _ _]; cbn; [apply apply_op_latched|reflexivity]. Qed.

Lemma steps_latched s s' : rtc step_ s s' → latched (sys_db s) (sys_db s').
Proof. induction 1; [reflexivity|]. etrans; [by eapply step_latched|done]. Qed.

(** [s'] is a state the fleet can be in at some time after [s]. *)
Definition later (s s' : Sys) : Prop := rtc step_ s s'.

(** what a seat is, is permanent.  Whatever operations run, a stored seat
    keeps its row, a formed seat its invite and time, a decommissioned seat
    its time, and an ecash claim its evidence and, once recorded, its
    outcome. *)
Theorem seat_facts_permanent s s' k (Hsteps : later s s') :
  (∀ r, seats (sys_db s) !! k = Some r → seats (sys_db s') !! k = Some r) ∧
  (∀ r, formed (sys_db s) !! k = Some r → formed (sys_db s') !! k = Some r) ∧
  (∀ t, decommissioned (sys_db s) !! k = Some t → decommissioned (sys_db s') !! k = Some t) ∧
  (∀ r, claims (sys_db s) !! k = Some r → ∃ r', claims (sys_db s') !! k = Some r' ∧
     evidence r' = evidence r ∧ (claim_outcome r <> None → r' = r)).
Proof.
  apply steps_latched in Hsteps. split_and!.
  - intros r Hr. by apply (l_seats _ _ Hsteps) in Hr as (r' & ? & <-).
  - intros r Hr. by apply (l_formed _ _ Hsteps) in Hr as (r' & ? & <-).
  - intros r Hr. by apply (l_decommissioned _ _ Hsteps) in Hr as (r' & ? & <-).
  - intros r Hr. apply (l_claims _ _ Hsteps) in Hr as (r' & ? & ?). eauto.
Qed.

(** a transfer fence is permanent: it never disappears and never goes
    back from removed to stopped, so a seat that was moved away or
    decommissioned never counts as active again. *)
Theorem retirement_is_permanent s s' k (Hsteps : later s s') :
  (∀ p, transfer_out (sys_db s) !! k = Some p →
     transfer_out (sys_db s') !! k = Some p ∨
     (p = "stopped" ∧ transfer_out (sys_db s') !! k = Some "removed")%string) ∧
  (is_active (sys_db s') k = true → is_active (sys_db s) k = true).
Proof.
  apply steps_latched in Hsteps. split.
  - intros p Hp. apply (l_transfer_out _ _ Hsteps) in Hp as (p' & Hp & [->|[-> ->]]); auto.
  - unfold is_active. rewrite !andb_true_iff, !absent_true. intros [Hd Ht]. split.
    + destruct (decommissioned (sys_db s) !! k) eqn:Hk; [|done].
      apply (l_decommissioned _ _ Hsteps) in Hk as (? & Hk & _). congruence.
    + destruct (transfer_out (sys_db s) !! k) eqn:Hk; [|done].
      apply (l_transfer_out _ _ Hsteps) in Hk as (? & Hk & _). congruence.
Qed.

(** a completion callback that is delivered, terminal or was never
    configured stays exactly as stored: no worker transition, ceremony
    restart, transfer retry or decommission revives or rewrites it. *)
Theorem finished_callback_is_final s s' k r (Hsteps : later s s')
    (Hrow : callbacks (sys_db s) !! k = Some r)
    (Hfinal : resumable_status (completion_callback_status r) = false) :
  callbacks (sys_db s') !! k = Some r.
Proof.
  apply steps_latched in Hsteps.
  apply (l_callbacks _ _ Hsteps) in Hrow as (r' & Hr & Hle). by rewrite (Hle Hfinal) in Hr.
Qed.

(** setting up is one-way: the identity and the environment, once stored,
    are never replaced, the onboarding stage never goes back, and the
    telemetry capability generation never decreases. *)
Theorem setup_is_one_way s s' (Hsteps : later s s') :
  (∀ i, identity (sys_db s) = Some i → identity (sys_db s') = Some i) ∧
  (∀ e, environment (sys_db s) = Some e → environment (sys_db s') = Some e) ∧
  stage_rank (stage (onboarding (sys_db s))) <= stage_rank (stage (onboarding (sys_db s'))) ∧
  generation (telemetry (sys_db s)) <= generation (telemetry (sys_db s')).
Proof. apply steps_latched in Hsteps. by destruct Hsteps. Qed.

End System.

Lemma seat_facts_permanent_witness :
  (∃ r, formed (sys_db demo_moved) !! seat_x = Some r ∧ federation_invite r = "invite"%string) ∧
  (∃ r, claims (sys_db demo_moved) !! seat_x = Some r ∧
        claim_outcome r = Some "success"%string).
Proof.
  destruct (seat_facts_permanent (λ m, m) (λ _ _ _, true) (λ c, c) Some demo_first
    demo_sold demo_moved seat_x demo_steps_moved) as (_ & Hf & _ & Hc).
  split.
  - eexists. split; [apply Hf; vm_compute; reflexivity|reflexivity].
  - destruct (Hc {| evidence := enc "ecash"%string; claim_outcome := Some "success"%string;
      claim_outcome_at_ms := Some 8 |}) as (r & Hr & _ & Heq); [vm_compute; reflexivity|].
    exists r. split; [exact Hr|]. rewrite Heq; [reflexivity|discriminate].
Defined.

Lemma retirement_is_permanent_witness :
  is_active (sys_db demo_moved) seat_y = true ∧ is_active (sys_db demo_sold) seat_y = true.
Proof.
  destruct (retirement_is_permanent (λ m, m) (λ _ _ _, true) (λ c, c) Some demo_first
    demo_sold demo_moved seat_y demo_steps_moved) as [_ H].
  assert (is_active (sys_db demo_moved) seat_y = true) as Hy by (vm_compute; reflexivity).
  split; [exact Hy|exact (H Hy)].
Defined.

Lemma finished_callback_is_final_witness :
  ∃ r, callbacks (sys_db demo_moved) !! seat_x = Some r ∧
       completion_callback_status r = "delivered"%string.
Proof.
  eexists. split.
  - apply (finished_callback_is_final (λ m, m) (λ _ _ _, true) (λ c, c) Some demo_first
      demo_sold demo_moved seat_x _ demo_steps_moved); vm_compute; reflexivity.
  - reflexivity.
Defined.

Lemma setup_is_one_way_witness :
  identity (sys_db demo_moved) =
    Some {| mnemonic := "phrase"; wallet_origin := "fresh"; identity_created_at_ms := 1 |}.
Proof.
  destruct (setup_is_one_way (λ m, m) (λ _ _ _, true) (λ c, c) Some demo_first
    demo_sold demo_moved demo_steps_moved) as [Hi _].
  apply Hi. vm_compute. reflexivity.
Defined.

End Latches.
