(* ===== verification/MgAdmission.v ===== *)
(** * Selling seats: what holds in every reachable state

    The properties of admission, capacity, port allocation and offer epochs
    over the transition system of [MgFleet]. *)

From S2P Require Import Prelude MgFacts MgSchema MgDb MgSeats MgCallbacks Signing MgTransfers MgRestore MgSlots MgFleet MgLatches.
From stdpp Require Import base gmap strings list.
From Stdlib Require Import Ascii ZArith Lia.
Open Scope Z_scope.

Module Admission.
Import Ports Offers Seats Slots Fleet Demo Latches.

(** ** Properties *)

Section Properties.
Context {Key Sig Addr : Type} `{!EqDecision Key} `{!EqDecision Addr}.
Context `{!Codec (Transfers.TransferMove (Key:=Key) (Addr:=Addr))}
  `{!Codec (Signing.SignedRequest (Key:=Key) (Sig:=Sig))}
  `{!Codec (Transfers.SeatTransferGrant (Key:=Key) (Addr:=Addr))}
  `{!Codec Key} `{!Codec Plan} `{!CodecOk Key} `{!CodecOk Plan}.
Context {Evidence Cb : Type} `{!Codec Evidence} `{!Codec Cb} `{!Codec (list string)}.
Variable sha256 : string -> string.
Variable verify_schnorr : Sig -> string -> Key -> bool.
Variable canonical_callback : Cb -> string.
Variable invite_federation_id : string -> option string.
Variable first : PortBase.
Hypothesis first_wf : port_base_wf first.

Abbreviation reachable_ := (reachable (Addr:=Addr) (Evidence:=Evidence) sha256 verify_schnorr
  canonical_callback invite_federation_id first).
Abbreviation step_ := (step (Addr:=Addr) (Evidence:=Evidence) sha256 verify_schnorr
  canonical_callback invite_federation_id first).
Abbreviation admit_ := (admit_seat_at_writer_boundary (FaId:=Key) (Evidence:=Evidence)).

Lemma reach_inv s : reachable_ s → inv (Key:=Key) first s.
Proof.
  intros Hr. by apply (reachable_inv (Evidence:=Evidence) sha256 verify_schnorr
    canonical_callback invite_federation_id first first_wf s).
Qed.

Lemma new_row_parses k no fa pl sz now decom :
  Z.of_nat (String.length k) = 32 → 0 <= no <= u32_max → 0 <= sz <= u16_max →
  seat_record_of_row (FaId:=Key) k
    {| seat_no := no; fi_id := enc fa; plan := enc pl; federation_size := sz;
       created_at_ms := now |} decom =
  Ok {| rec_facts := {| sf_seat_id := k; sf_seat_no := no; sf_fa_id := fa; sf_plan := pl;
                        sf_federation_size := sz; sf_created_at_ms := now |};
        rec_decommissioned_at_ms := decom |}.
Proof.
  intros Hk Hno Hsz. unfold seat_record_of_row. cbn. rewrite Hk, !dec_enc. cbn.
  rewrite (proj2 (try_from_u_Some u32_max no _) (conj eq_refl Hno)).
  by rewrite (proj2 (try_from_u_Some u16_max sz _) (conj eq_refl Hsz)).
Qed.

Lemma find_seat_ext k d d' :
  seats d' !! k = seats d !! k → find_seat (FaId:=Key) k d' = find_seat k d.
Proof.
  intros Heq. unfold find_seat. rewrite Heq. destruct (seats d !! k) as [r|]; [|done]. cbn.
  unfold seat_record_of_row. destruct (_ =? 32); [cbn|done].
  destruct (ok_or _ (try_from_u u32_max _)); [cbn|done..].
  destruct (ok_or _ (dec (fi_id r))); [cbn|done..].
  destruct (ok_or _ (dec (plan r))); [cbn|done..].
  by destruct (ok_or _ (try_from_u u16_max _)).
Qed.

Lemma admit_existing ns epoch now fresh d facts :
  find_seat (ns_seat_id ns) d = Ok (Some facts) →
  admit_ ns epoch first now fresh d = Ok (d, Existing facts).
Proof.
  intros Hf. unfold admit_seat_at_writer_boundary.
  rewrite (tx_bind_eq _ _ d d d eq_refl). by erewrite tx_bind_eq by by rewrite Hf.
Qed.

Lemma find_seat_none k d : seats d !! k = None → find_seat (FaId:=Key) k d = Ok None.
Proof. intros Hk. unfold find_seat. by rewrite Hk. Qed.

Lemma admit_stale ns epoch now fresh d :
  find_seat (FaId:=Key) (ns_seat_id ns) d = Ok None →
  Z.of_nat (String.length (offer_epoch (offer d))) = 32 → offer_epoch (offer d) <> epoch →
  admit_ ns epoch first now fresh d = Ok (d, OfferChanged).
Proof.
  intros Hf He Hne. unfold admit_seat_at_writer_boundary.
  rewrite (tx_bind_eq _ _ d d d eq_refl). erewrite tx_bind_eq by by rewrite Hf.
  cbn -[mbind].
  erewrite tx_bind_eq by by rewrite (proj2 (parse_offer_epoch_Ok _ _) (conj eq_refl He)).
  by rewrite bool_decide_eq_true_2.
Qed.

(** C15: in every reachable state a seat request that presents a quote this
    fleet signed is decided: the admission transaction neither panics on
    [assert!(slots > 0)] nor fails on a constraint, whatever operations ran
    between the quote and the request. *)
Theorem admission_never_panics s ns epoch now fresh
    (Hreach : reachable_ s) (Hissued : epoch ∈ sys_issued s)
    (Hid : Z.of_nat (String.length (ns_seat_id ns)) = 32)
    (Hsize : 0 < ns_federation_size ns) (Hfresh : Z.of_nat (String.length fresh) = 32) :
  ∃ d r, admit_seat_at_writer_boundary (FaId:=Key) (Evidence:=Evidence) ns epoch first now fresh
    (sys_db s) = Ok (d, r).
Proof.
  eapply admit_total; try done. by apply reach_inv.
Qed.

(** C14: what an admission decides.  A stored seat is returned unchanged; a
    quote of another epoch is refused without a write; otherwise the seat
    gets the next unused number, a port block of its own, and is readable
    back, the active seats stay within the effective limit, and the epoch is
    rotated exactly when the last slot was sold. *)
Theorem admission_outcome s ns epoch now fresh d r
    (Hreach : reachable_ s) (Hsize : 0 <= ns_federation_size ns <= u16_max)
    (Hrun : admit_seat_at_writer_boundary (FaId:=Key) (Evidence:=Evidence) ns epoch first now fresh
    (sys_db s) = Ok (d, r)) :
  match r with
  | Existing facts => d = sys_db s ∧ find_seat (ns_seat_id ns) d = Ok (Some facts)
  | OfferChanged =>
      d = sys_db s ∧ seats d !! ns_seat_id ns = None ∧ offer_epoch (offer d) <> epoch
  | Inserted facts =>
      offer_epoch (offer (sys_db s)) = epoch ∧ seats (sys_db s) !! ns_seat_id ns = None ∧
      find_seat (ns_seat_id ns) d = Ok (Some facts) ∧
      (∀ k r, seats (sys_db s) !! k = Some r → seat_no r < sf_seat_no facts) ∧
      is_Some (seat_port_base (sf_seat_no facts) first) ∧
      active_count d <= effective_max_seats (max_seats (offer d)) (memory_max_seats (offer d))
                          (policy_max_seats (offer d)) ∧
      offer_epoch (offer d) = (if db_slots (sys_db s) first =? 1 then fresh else epoch)
  end.
Proof.
  apply reach_inv in Hreach as [Hl Hr Hc He Hu Hs].
  destruct s as [d0 issued]. cbn in *.
  apply admit_Ok in Hrun as [(-> & f & Hf & ->)|[(-> & Hk & Hne & ->)|
    (row & Hd & Hk & Hcur & Hpos & Hlen & -> & Hsz & _ & ->)]]; try done.
  pose proof (slot_next_no first first_wf d0 Hl (rows_nos d0 Hr) Hpos) as Hno.
  pose proof (remaining_blocks_bound first first_wf).
  split_and!; [done|done| | | | | ].
  - rewrite Hd. unfold find_seat. cbn [seats decommissioned set_offer set_claims set_seats].
    rewrite lookup_insert_eq. cbn [transpose_map].
    rewrite new_row_parses; [done|done|unfold u32_max; lia|done].
  - intros k r Hkr. by apply next_seat_no_above in Hkr.
  - apply seat_port_base_is_Some; [done|apply Hno|apply Hno].
  - rewrite db_slots_eq in Hpos; [|done|done|by apply (rows_nos (Key:=Key))].
    pose proof (active_count_admit d0 (ns_seat_id ns)) as Ha. rewrite Hd.
    etrans; [by apply Ha|]. cbn [offer set_offer].
    destruct (db_slots d0 first =? 1); cbn; lia.
  - rewrite Hd. cbn [offer set_offer]. by destruct (db_slots d0 first =? 1).
Qed.

(** ** Epochs *)

Definition epoch_rel (fresh : string) (d d' : Db) : Prop :=
  offer_epoch (offer d') = offer_epoch (offer d) ∨ offer_epoch (offer d') = fresh.

#[local] Instance epoch_rel_preorder fresh : PreOrder (epoch_rel fresh).
Proof.
  split; [by left|]. intros d1 d2 d3 [H1|H1] [H2|H2]; unfold epoch_rel; rewrite H2; auto.
Qed.

Lemma exec_epoch o fresh :
  default fresh (op_fresh o) = fresh →
  tx_rel (epoch_rel fresh) (exec (Key:=Key) (Addr:=Addr) (Evidence:=Evidence) sha256
    verify_schnorr canonical_callback invite_federation_id first o).
Proof.
  intros Hf. destruct o; cbn in Hf; subst; cbn [exec]; unfold discard; unfold_ops; tx_rel_auto.
  all: do 2 (unfold_stmts; tx_rel_auto); cbn [fst].
  all: repeat case_match; first [by left | by right].
Qed.

Lemma step_epoch s s' e :
  step_ s s' → e ∈ sys_issued s → e <> offer_epoch (offer (sys_db s)) →
  e ∈ sys_issued s' ∧ e <> offer_epoch (offer (sys_db s')).
Proof.
  intros [o [Hf _]|o _ _] Hin Hne; cbn; [|set_solver]. split; [done|].
  set (fresh := default (offer_epoch (offer (sys_db s))) (op_fresh o)).
  assert (epoch_rel fresh (sys_db s) (apply_op sha256 verify_schnorr canonical_callback
    invite_federation_id first o (sys_db s))) as [->|Hr]; [|done|].
  { unfold apply_op. apply tx_rel_run; [apply _|]. apply exec_epoch.
    unfold fresh. by destruct (op_fresh o). }
  rewrite Hr. unfold fresh. destruct (op_fresh o) as [e'|]; cbn; [|done].
  destruct (Hf e' eq_refl) as [_ Hnew]. congruence.
Qed.

Lemma steps_epoch s s' e :
  rtc step_ s s' → e ∈ sys_issued s → e <> offer_epoch (offer (sys_db s)) →
  e ∈ sys_issued s' ∧ e <> offer_epoch (offer (sys_db s')).
Proof.
  induction 1 as [|s1 s2 s3 H1 _ IH]; [done|]. intros Hin Hne.
  destruct (step_epoch _ _ _ H1 Hin Hne). auto.
Qed.

Lemma steps_reachable s s' : reachable_ s → rtc step_ s s' → reachable_ s'.
Proof. apply reachable_steps. Qed.

(** Withdrawing a quote is final.  Once the current epoch is no longer the
    one a signed quote carries, no later sequence of operations makes that
    quote redeemable: every later admission with it either replays a stored
    seat or is refused, and writes nothing. *)
Theorem withdrawn_quote_stays_withdrawn s s' ns epoch now fresh d r
    (Hreach : reachable_ s) (Hissued : epoch ∈ sys_issued s)
    (Hstale : epoch <> offer_epoch (offer (sys_db s))) (Hsteps : rtc step_ s s')
    (Hrun : admit_seat_at_writer_boundary (FaId:=Key) (Evidence:=Evidence) ns epoch first now fresh
      (sys_db s') = Ok (d, r)) :
  d = sys_db s' ∧ (r = OfferChanged ∨ ∃ facts, r = Existing facts).
Proof.
  destruct (steps_epoch _ _ _ Hsteps Hissued Hstale) as [_ Hne].
  pose proof (reach_inv _ (steps_reachable _ _ Hreach Hsteps)) as [Hl Hr _ _ _ _].
  apply admit_Ok in Hrun as [(-> & f & _ & ->)|[(-> & _ & _ & ->)|(row & _ & _ & Heq & _)]];
    eauto. congruence.
Qed.

(** Admission is idempotent across any interleaving: once a quote has been
    turned into a seat, every later admission with the same quote id returns
    the same facts, whatever epoch is current then, and changes nothing. *)
Theorem admission_replay s s' ns ns' epoch epoch' now now' fresh fresh' facts d
    (Hreach : reachable_ s) (Hsize : 0 <= ns_federation_size ns <= u16_max)
    (Hfirst : admit_seat_at_writer_boundary (FaId:=Key) (Evidence:=Evidence) ns epoch first now fresh
      (sys_db s) = Ok (d, Inserted facts))
    (Hsteps : rtc step_ {| sys_db := d; sys_issued := sys_issued s |} s')
    (Hsame : ns_seat_id ns' = ns_seat_id ns) :
  admit_seat_at_writer_boundary (FaId:=Key) (Evidence:=Evidence) ns' epoch' first now' fresh'
    (sys_db s') = Ok (sys_db s', Existing facts).
Proof.
  apply reach_inv in Hreach as [Hl Hr _ _ _ _].
  apply admit_Ok in Hfirst as [(_ & f & _ & [=])|[(_ & _ & _ & [=])|
    (row & Hd & Hk & _ & Hpos & Hlen & -> & _ & _ & [= ->])]]; try done.
  pose proof (slot_next_no first first_wf (sys_db s) Hl (rows_nos (sys_db s) Hr) Hpos) as Hno.
  pose proof (remaining_blocks_bound first first_wf).
  apply steps_latched in Hsteps. cbn in Hsteps.
  destruct (l_seats _ _ Hsteps (ns_seat_id ns) {| seat_no := next_seat_no (sys_db s);
    fi_id := enc (ns_fa_id ns); plan := enc (ns_plan ns);
    federation_size := ns_federation_size ns; created_at_ms := now |}) as (row & Hrow & <-).
  { rewrite Hd. cbn [seats set_offer set_claims set_seats]. by rewrite lookup_insert_eq. }
  apply admit_existing. unfold find_seat. rewrite Hsame, Hrow. cbn [transpose_map].
  rewrite new_row_parses; [done|done|unfold u32_max; lia|done].
Qed.

(** the read-snapshot shortcut of [admit_seat] is sound.  Deciding on a
    snapshot and then, if needed, at the writer boundary of a later database
    gives what the writer boundary alone would give there, for a quote this
    fleet had signed; the one exception, a seat stored in between under a
    quote that was already withdrawn, is refused instead of replayed. *)
Theorem snapshot_shortcut_sound snap s' ns epoch now fresh
    (Hreach : reachable_ snap) (Hissued : epoch ∈ sys_issued snap)
    (Hsteps : rtc step_ snap s')
    (Hother : seats (sys_db snap) !! ns_seat_id ns = None →
              epoch <> offer_epoch (offer (sys_db snap)) →
              seats (sys_db s') !! ns_seat_id ns = None) :
  admit_seat ns epoch first now fresh (sys_db snap) (sys_db s') =
  run_tx (admit_seat_at_writer_boundary (FaId:=Key) (Evidence:=Evidence) ns epoch first now fresh)
    (sys_db s').
Proof.
  pose proof (reach_inv _ Hreach) as [_ Hr0 _ He0 _ _].
  pose proof (reach_inv _ (steps_reachable _ _ Hreach Hsteps)) as [_ Hr1 _ He1 _ _].
  unfold admit_seat, admission_snapshot.
  pose proof (find_seat_ok (ns_seat_id ns) (sys_db snap) Hr0) as Hfind.
  destruct (seats (sys_db snap) !! ns_seat_id ns) as [row|] eqn:Hk.
  - destruct Hfind as [facts Hfind]. rewrite Hfind. cbn.
    rewrite (proj2 (parse_offer_epoch_Ok _ _) (conj eq_refl He0)). cbn.
    unfold run_tx. rewrite (admit_existing _ _ _ _ _ facts); [done|].
    apply steps_latched in Hsteps.
    destruct (l_seats _ _ Hsteps _ _ Hk) as (row' & Hk' & <-).
    rewrite (find_seat_ext _ (sys_db snap)); [done|congruence].
  - rewrite Hfind. cbn. rewrite (proj2 (parse_offer_epoch_Ok _ _) (conj eq_refl He0)). cbn.
    case_bool_decide as Hne; [|done].
    assert (epoch <> offer_epoch (offer (sys_db s'))) as Hne'
      by (by eapply steps_epoch; [done..|congruence]).
    unfold run_tx. rewrite admit_stale; [done| |done|congruence].
    apply find_seat_none, Hother; congruence.
Qed.

(** ** Ports *)

Definition nos_inj (m : gmap string SeatCols) : Prop :=
  ∀ k1 k2 r1 r2, m !! k1 = Some r1 → m !! k2 = Some r2 → seat_no r1 = seat_no r2 → k1 = k2.
Definition nos_rel (d d' : Db) : Prop := nos_inj (seats d) → nos_inj (seats d').

#[local] Instance nos_rel_preorder : PreOrder nos_rel.
Proof. unfold nos_rel. split; [intros d H; exact H|intros d1 d2 d3; auto]. Qed.

Lemma insert_seat_nos k r : tx_rel nos_rel (insert_seat k r).
Proof.
  intros d d' u (-> & _ & Hk & Hfree)%insert_seat_Ok Hinj.
  apply bool_decide_eq_true in Hfree. intros k1 k2 r1 r2. cbn.
  rewrite !lookup_insert_Some. intros [[<- <-]|[Hne1 H1]] [[<- <-]|[Hne2 H2]] Heq; try done.
  - by destruct (Hfree _ _ H2).
  - by destruct (Hfree _ _ H1).
  - by eapply Hinj.
Qed.

Lemma exec_nos o :
  tx_rel nos_rel (exec (Key:=Key) (Addr:=Addr) (Evidence:=Evidence) sha256
    verify_schnorr canonical_callback invite_federation_id first o).
Proof.
  pose proof insert_seat_nos.
  destruct o; cbn [exec]; unfold discard; unfold_ops; tx_rel_auto.
  all: do 2 (unfold_stmts; tx_rel_auto); cbn [fst].
  all: repeat case_match; intros Hi; exact Hi.
Qed.

Lemma reachable_nos s : reachable_ s → nos_inj (seats (sys_db s)).
Proof.
  induction 1 as [epoch _|s s' _ IH Hstep]; [by intros ????|].
  destruct Hstep as [o _|o _ _]; cbn; [|done].
  unfold apply_op. pose proof (exec_nos o) as Ho.
  apply (tx_rel_run nos_rel _ (sys_db s)) in Ho; auto.
Qed.

(** no two seats of a reachable database share a port: distinct seats have
    distinct numbers, and the port blocks of their numbers are disjoint. *)
Theorem seats_never_share_ports s k1 k2 r1 r2 p q
    (Hreach : reachable_ s) (Hne : k1 <> k2)
    (H1 : seats (sys_db s) !! k1 = Some r1) (H2 : seats (sys_db s) !! k2 = Some r2)
    (Hp : seat_port_base (seat_no r1) first = Some p)
    (Hq : seat_port_base (seat_no r2) first = Some q) :
  seat_no r1 <> seat_no r2 ∧ seat_ports p ## seat_ports q.
Proof.
  pose proof (reachable_nos s Hreach) as Hinj. apply reach_inv in Hreach as [_ Hr _ _ _ _].
  apply (rows_nos (Key:=Key)) in Hr.
  assert (seat_no r1 <> seat_no r2) as Hno by (intros Heq; eauto using Hinj).
  split; [done|]. exact (seat_blocks_apart _ _ _ _ _ first_wf (Hr _ _ H1) (Hr _ _ H2) Hno Hp Hq).
Qed.

(** ** Quotes *)

Definition price_rel (d d' : Db) : Prop := price_ok d → price_ok d'.

#[local] Instance price_rel_preorder : PreOrder price_rel.
Proof. unfold price_rel. split; [intros d H; exact H|intros d1 d2 d3; auto]. Qed.

Lemma stored_price_ok price :
  in_u64 price → check_price (u64_as_i64 <$> price) = true → in_u64 (u64_as_i64 <$> price).
Proof.
  intros Hp Hc x Hx. destruct price as [p|]; [|discriminate Hx].
  specialize (Hp p eq_refl). apply Z.leb_le in Hc. cbn [fmap option_fmap option_map] in Hc, Hx.
  assert (x = u64_as_i64 p) as -> by congruence. revert Hc. unfold u64_as_i64.
  change (2 ^ 64) with 18446744073709551616. unfold i64_max, u64_max in *.
  destruct (Z.leb_spec p 9223372036854775807); lia.
Qed.

Lemma set_offered_price_price price now fresh :
  in_u64 price → tx_rel price_rel (set_offered_price price now fresh).
Proof.
  intros Hp d d' u H Hd. unfold set_offered_price in H. tx_inv; [|done].
  match goal with H : check_price _ && _ = true |- _ => apply andb_true_iff in H as [Hc _] end.
  by apply stored_price_ok.
Qed.

Lemma configure_price price mx now fresh :
  in_u64 price → tx_rel price_rel (Onboarding.configure_initial_offer price mx now fresh).
Proof.
  intros Hp d d' u H _. unfold Onboarding.configure_initial_offer in H. tx_inv.
  match goal with H : check_price _ && _ && _ = true |- _ =>
    apply andb_true_iff in H as [[Hc _]%andb_true_iff _] end.
  by apply stored_price_ok.
Qed.

Lemma exec_price issued o :
  op_wf issued o →
  tx_rel price_rel (exec (Key:=Key) (Addr:=Addr) (Evidence:=Evidence) sha256
    verify_schnorr canonical_callback invite_federation_id first o).
Proof.
  intros [_ Hw]. pose proof set_offered_price_price. pose proof configure_price.
  destruct o; cbn [exec]; unfold discard; try solve [tx_rel_auto].
  all: unfold_ops; tx_rel_auto; do 2 (unfold_stmts; tx_rel_auto); cbn [fst].
  all: repeat case_match; intros Hi; exact Hi.
Qed.

Lemma reachable_price s : reachable_ s → price_ok (sys_db s).
Proof.
  induction 1 as [epoch _|s s' _ IH Hstep]; [by intros ?|].
  destruct Hstep as [o Hw|o _ _]; cbn; [|done].
  unfold apply_op. pose proof (exec_price _ o Hw) as Ho.
  apply (tx_rel_run price_rel _ (sys_db s)) in Ho; auto.
Qed.

Lemma offer_snapshot_total d :
  limits_wf (offer d) → Z.of_nat (String.length (offer_epoch (offer d))) = 32 → price_ok d →
  offer_snapshot first d =
  Ok {| os_offer := {| of_epoch := offer_epoch (offer d);
                       of_settings := {| qs_price := price_msats (offer d);
                                         qs_payment_federations := sorted_members d |} |};
        os_max_seats := max_seats (offer d);
        os_memory_max_seats := memory_max_seats (offer d);
        os_policy_max_seats := policy_max_seats (offer d);
        os_slots := db_slots d first;
        os_ready_for_new_seats := ready_for_new_seats (offer d) |}.
Proof.
  intros (Hmx & ? & ?) He Hp. unfold offer_snapshot.
  rewrite (proj2 (parse_offer_epoch_Ok _ _) (conj eq_refl He)).
  rewrite (stored_limit_Ok _ Hmx), !stored_max_seats_Ok by done. cbn.
  destruct (price_msats (offer d)) as [p|] eqn:Hpr; cbn; [|done].
  unfold stored_price. rewrite (proj2 (try_from_u_Some u64_max p _) (conj eq_refl (Hp p Hpr))).
  done.
Qed.

Lemma ltb_max_0 z : (0 <? Z.max 0 z) = (0 <? z).
Proof. destruct (Z.ltb_spec 0 (Z.max 0 z)), (Z.ltb_spec 0 z); lia. Qed.

(** the availability answers never panic, and quoting is exactly the
    advertised rule: an offer is quoted when the fleet is ready and the slots,
    the smaller of the free seats under the effective limit and the port
    blocks left above the highest number ever used, are positive; the quote
    carries the stored price, members and epoch. *)
Theorem quote_offer_exact s (Hreach : reachable_ s) :
  let d := sys_db s in
  let free := Z.min (effective_max_seats (max_seats (offer d)) (memory_max_seats (offer d))
                       (policy_max_seats (offer d)) - active_count d)
                    (remaining_blocks first - next_seat_no d) in
  quote_offer first d =
    Ok (if (0 <? free) && ready_for_new_seats (offer d)
        then Some {| of_epoch := offer_epoch (offer d);
                     of_settings := {| qs_price := price_msats (offer d);
                                       qs_payment_federations := sorted_members d |} |}
        else None) ∧
  fleet_available_slots first d = Ok (Z.max 0 free).
Proof.
  cbv zeta. pose proof (reachable_price s Hreach) as Hp.
  apply reach_inv in Hreach as [Hl Hr _ He _ _].
  unfold quote_offer, fleet_available_slots. rewrite offer_snapshot_total by done. cbn.
  rewrite db_slots_eq; [|done|done|by apply (rows_nos (Key:=Key))].
  by rewrite ltb_max_0.
Qed.

End Properties.

(** ** Witnesses *)

(** The database after the first sale, and the facts of the sold seat. *)
Definition demo_admitted : Db := demo_apply (OpAdmitSeat (demo_seat seat_x) epoch_c 5 epoch_d) demo_ready.
Definition demo_facts : SeatFacts (FaId:=string) :=
  {| sf_seat_id := seat_x; sf_seat_no := 0; sf_fa_id := "fa"; sf_plan := InfiniteBestEffort 1000;
     sf_federation_size := 4; sf_created_at_ms := 5 |}.

Lemma admission_never_panics_witness :
  ∃ d r, admit_seat_at_writer_boundary (demo_seat seat_x) epoch_c demo_first 5 epoch_d
           (sys_db demo_quoted) = Ok (d, r).
Proof.
  refine (admission_never_panics (λ m, m) (λ _ _ _, true) (λ c, c) Some demo_first demo_first_wf
    demo_quoted (demo_seat seat_x) epoch_c 5 epoch_d demo_reachable_quoted _ _ _ _);
    vm_compute; reflexivity.
Defined.

Lemma admission_outcome_witness :
  find_seat seat_x demo_admitted = Ok (Some demo_facts) ∧
  is_Some (seat_port_base (sf_seat_no demo_facts) demo_first).
Proof.
  assert (admit_seat_at_writer_boundary (demo_seat seat_x) epoch_c demo_first 5 epoch_d demo_ready
          = Ok (demo_admitted, Inserted demo_facts)) as Hrun by (vm_compute; reflexivity).
  assert (0 <= ns_federation_size (demo_seat seat_x) <= u16_max) as Hsz
    by (split; vm_compute; discriminate).
  destruct (admission_outcome (λ m, m) (λ _ _ _, true) (λ c, c) Some demo_first demo_first_wf
    demo_quoted (demo_seat seat_x) epoch_c 5 epoch_d demo_admitted (Inserted demo_facts)
    demo_reachable_quoted Hsz Hrun) as (_ & _ & Hf & _ & Hp & _).
  split; [exact Hf|exact Hp].
Defined.

Lemma demo_reachable_moved : demo_reachable demo_moved.
Proof.
  apply (reachable_steps _ _ _ _ _ demo_sold); [exact demo_reachable_sold|exact demo_steps_moved].
Qed.

(** The price change of the run withdraws the quotes of [epoch_c]. *)
Lemma withdrawn_quote_stays_withdrawn_witness :
  sys_db demo_moved = sys_db demo_moved ∧
  ((OfferChanged : SeatAdmissionResult (FaId:=string)) = OfferChanged ∨
   ∃ facts, (OfferChanged : SeatAdmissionResult (FaId:=string)) = Existing facts).
Proof.
  apply (withdrawn_quote_stays_withdrawn (λ m, m) (λ _ _ _, true) (λ c, c) Some demo_first
    demo_first_wf demo_moved demo_moved (demo_seat seat_y) epoch_c 20 epoch_a
    (sys_db demo_moved) OfferChanged demo_reachable_moved).
  - vm_compute. reflexivity.
  - vm_compute. discriminate.
  - apply rtc_refl.
  - vm_compute. reflexivity.
Defined.

Lemma demo_steps_admitted :
  rtc demo_step {| sys_db := demo_admitted; sys_issued := sys_issued demo_quoted |} demo_sold.
Proof.
  pose proof (demo_steps {| sys_db := demo_admitted; sys_issued := sys_issued demo_quoted |}
    (tail demo_sale) (Forall_tail _ _ demo_sale_wf)) as Hsteps.
  assert (sys_db demo_sold = foldl (λ d o, demo_apply o d) demo_admitted (tail demo_sale)) as Heq
    by (vm_compute; reflexivity).
  destruct demo_sold as [d i] eqn:Hd. cbn [sys_db] in Heq. rewrite Heq.
  replace i with (sys_issued demo_quoted); [exact Hsteps|]. by apply (f_equal sys_issued) in Hd.
Qed.

Lemma admission_replay_witness :
  admit_seat_at_writer_boundary (demo_seat seat_x) epoch_a demo_first 30 epoch_b (sys_db demo_sold)
  = Ok (sys_db demo_sold, Existing demo_facts).
Proof.
  apply (admission_replay (λ m, m) (λ _ _ _, true) (λ c, c) Some demo_first demo_first_wf
    demo_quoted demo_sold (demo_seat seat_x) (demo_seat seat_x) epoch_c epoch_a 5 30 epoch_d
    epoch_b demo_facts demo_admitted demo_reachable_quoted).
  - split; vm_compute; discriminate.
  - vm_compute. reflexivity.
  - exact demo_steps_admitted.
  - reflexivity.
Defined.

Lemma snapshot_shortcut_sound_witness :
  admit_seat (demo_seat seat_x) epoch_c demo_first 5 epoch_d (sys_db demo_quoted) (sys_db demo_sold)
  = run_tx (admit_seat_at_writer_boundary (demo_seat seat_x) epoch_c demo_first 5 epoch_d)
      (sys_db demo_sold).
Proof.
  apply (snapshot_shortcut_sound (λ m, m) (λ _ _ _, true) (λ c, c) Some demo_first demo_first_wf
    demo_quoted demo_sold (demo_seat seat_x) epoch_c 5 epoch_d demo_reachable_quoted).
  - vm_compute. reflexivity.
  - exact demo_steps_sold.
  - intros _ Hne. destruct Hne. vm_compute. reflexivity.
Defined.

(** Both seats of the offer sold. *)
Definition demo_two : Sys :=
  {| sys_db := demo_apply (OpAdmitSeat (demo_seat seat_y) epoch_c 21 epoch_a) (sys_db demo_sold);
     sys_issued := sys_issued demo_sold |}.

Definition demo_row (no at_ms : Z) : SeatCols :=
  {| seat_no := no; fi_id := enc "fa"%string; plan := enc (InfiniteBestEffort 1000);
     federation_size := 4; created_at_ms := at_ms |}.

Lemma demo_reachable_two : demo_reachable demo_two.
Proof.
  apply (reach_step _ _ _ _ _ demo_sold); [exact demo_reachable_sold|].
  refine (step_op (λ m, m) (λ _ _ _, true) (λ c, c) Some demo_first demo_sold
    (OpAdmitSeat (demo_seat seat_y) epoch_c 21 epoch_a) _).
  split; [intros e [= <-]; split; vm_compute; [reflexivity|discriminate]|].
  split; [vm_compute; reflexivity|split; vm_compute; discriminate].
Qed.

Lemma seats_never_share_ports_witness :
  seat_no (demo_row 0 5) <> seat_no (demo_row 1 21) ∧
  seat_ports {| pb_get := 20000 |} ## seat_ports {| pb_get := 20004 |}.
Proof.
  refine (seats_never_share_ports (λ m, m) (λ _ _ _, true) (λ c, c) Some demo_first demo_first_wf
    demo_two seat_x seat_y (demo_row 0 5) (demo_row 1 21) {| pb_get := 20000 |}
    {| pb_get := 20004 |} demo_reachable_two _ _ _ _ _);
    vm_compute; first [reflexivity | discriminate].
Defined.

Lemma quote_offer_exact_witness :
  let d := sys_db demo_quoted in
  let free := Z.min (effective_max_seats (max_seats (offer d)) (memory_max_seats (offer d))
                       (policy_max_seats (offer d)) - active_count d)
                    (remaining_blocks demo_first - next_seat_no d) in
  quote_offer demo_first d =
    Ok (if (0 <? free) && ready_for_new_seats (offer d)
        then Some {| of_epoch := offer_epoch (offer d);
                     of_settings := {| qs_price := price_msats (offer d);
                                       qs_payment_federations := sorted_members d |} |}
        else None) ∧
  fleet_available_slots demo_first d = Ok (Z.max 0 free).
Proof.
  exact (quote_offer_exact (λ m, m) (λ _ _ _, true) (λ c, c) Some demo_first demo_first_wf
    demo_quoted demo_reachable_quoted).
Defined.

End Admission.
