(* ===== verification/PushSchema.v ===== *)
(** * The push gateway's database ([crates/push-gateway-storage/migrations],
      [crates/push-gateway-storage/src/database.rs])

    The seven tables the repositories share, as maps from primary keys to rows,
    with the constraints a write must satisfy, the deletes with their
    cascades, ordered selects, and the two shapes in which the repositories
    use a connection: a transaction that commits or rolls back, and single
    statements on the pool. *)

From S2P Require Import Prelude.
From stdpp Require Import base gmap strings list sorting.
From Stdlib Require Import ZArith Lia.
Open Scope Z_scope.

(** [sqlx::Error], as far as the repositories tell causes apart: a statement
    or constraint failure, [RowNotFound], [Configuration], [Decode] and
    [Encode]. *)
Inductive PushError :=
| Statement
| RowNotFound
| Configuration (message : string)
| Decode
| Encode.

#[global] Instance PushError_eq_dec : EqDecision PushError.
Proof. solve_decision. Defined.

Record RegistrationCols := {
  rg_fcm_token : string;
  rg_platform : option string;
  rg_created_at : Z;
  rg_updated_at : Z;
  rg_last_seen_at : Z;
  rg_disabled_at : option Z;
  rg_disabled_reason : option string
}.

Record OwnerCols := {
  ow_recipient_id : string;
  ow_installation_id : string;
  ow_updated_at : Z
}.

Record HookCols := {
  hk_secret_hash : string;
  hk_recipient_id : string;
  hk_installation_id : string;
  hk_label : option string;
  hk_kind : option string;
  hk_workflow : option string;
  hk_action : option string;
  hk_deep_link : option string;
  hk_open_behavior : string;
  hk_privacy : string;
  hk_title : option string;
  hk_body : option string;
  hk_data_json : string;
  hk_created_at : Z;
  hk_expires_at : option Z;
  hk_revoked_at : option Z;
  hk_max_uses : option Z;
  hk_use_count : Z;
  hk_last_used_at : option Z;
  hk_window_seconds : option Z;
  hk_max_requests : option Z;
  hk_window_started_at : option Z;
  hk_rate_limit_count : Z
}.

Record EventCols := {
  ev_hook_id : string;
  ev_caller_idempotency_key : option string;
  ev_recipient_id : string;
  ev_notification_json : string;
  ev_target_count : Z;
  ev_created_at : Z
}.

Record OutboxCols := {
  ob_event_id : string;
  ob_recipient_id : string;
  ob_installation_id : string;
  ob_fcm_token : string;
  ob_platform : option string;
  ob_notification_json : string;
  ob_status : string;
  ob_attempts : Z;
  ob_next_attempt_at : Z;
  ob_last_attempt_at : option Z;
  ob_last_error : option string;
  ob_claim_id : option string;
  ob_created_at : Z;
  ob_updated_at : Z
}.

Record TombstoneCols := {
  tb_target_count : Z;
  tb_accepted_at : Z;
  tb_retain_until : Z
}.

Record PushDb := {
  registrations : gmap (string * string) RegistrationCols;
  token_owners : gmap string OwnerCols;
  admission_locks : gmap string Z;
  hooks : gmap string HookCols;
  events : gmap string EventCols;
  outbox : gmap string OutboxCols;
  tombstones : gmap (string * string) TombstoneCols
}.

Definition set_registrations x d := {| registrations := x; token_owners := token_owners d;
  admission_locks := admission_locks d; hooks := hooks d; events := events d;
  outbox := outbox d; tombstones := tombstones d |}.
Definition set_token_owners x d := {| registrations := registrations d; token_owners := x;
  admission_locks := admission_locks d; hooks := hooks d; events := events d;
  outbox := outbox d; tombstones := tombstones d |}.
Definition set_admission_locks x d := {| registrations := registrations d;
  token_owners := token_owners d; admission_locks := x; hooks := hooks d; events := events d;
  outbox := outbox d; tombstones := tombstones d |}.
Definition set_hooks x d := {| registrations := registrations d; token_owners := token_owners d;
  admission_locks := admission_locks d; hooks := x; events := events d;
  outbox := outbox d; tombstones := tombstones d |}.
Definition set_events x d := {| registrations := registrations d; token_owners := token_owners d;
  admission_locks := admission_locks d; hooks := hooks d; events := x;
  outbox := outbox d; tombstones := tombstones d |}.
Definition set_outbox x d := {| registrations := registrations d; token_owners := token_owners d;
  admission_locks := admission_locks d; hooks := hooks d; events := events d;
  outbox := x; tombstones := tombstones d |}.
Definition set_tombstones x d := {| registrations := registrations d;
  token_owners := token_owners d; admission_locks := admission_locks d; hooks := hooks d;
  events := events d; outbox := outbox d; tombstones := x |}.

(** A migrated database: empty but for the two admission locks. *)
Definition initial_push_db : PushDb :=
  {| registrations := ∅; token_owners := ∅;
     admission_locks := {[ "registration"%string := 0; "hook"%string := 0 ]};
     hooks := ∅; events := ∅; outbox := ∅; tombstones := ∅ |}.

(** ** Connections

    [PushTx] is the body of a transaction.  It ends in [Commit], or in
    [Rollback] where the code rolls back and returns a value; an early error
    rolls back too.  [Pool] is code on the pool: what earlier statements wrote
    stays when a later one fails. *)
Abbreviation PushTx := (Tx PushDb PushError).

Inductive verdict (A : Type) := Commit (a : A) | Rollback (a : A).
Arguments Commit {A} a.
Arguments Rollback {A} a.

Definition Pool (A : Type) : Type := PushDb -> PushDb * res PushError A.

#[global] Instance pool_ret : MRet Pool := fun _ a d => (d, Ok a).
#[global] Instance pool_bind : MBind Pool := fun _ _ k c d =>
  match c d with
  | (d', Ok a) => k a d'
  | (d', Err e) => (d', Err e)
  | (d', Panic) => (d', Panic)
  end.
Definition pool_err {A} (e : PushError) : Pool A := fun d => (d, Err e).

(** [pool.begin(); body; commit() | rollback()]. *)
Definition in_tx {A} (t : PushTx (verdict A)) : Pool A := fun d =>
  match t d with
  | Ok (d', Commit a) => (d', Ok a)
  | Ok (_, Rollback a) => (d, Ok a)
  | Err e => (d, Err e)
  | Panic => (d, Panic)
  end.

(** One statement executed on the pool. *)
Definition on_pool {A} (t : PushTx A) : Pool A := run_tx t.

(** A statement whose constraints fail is an error. *)
Definition push_require (b : bool) : PushTx unit := if b then mret tt else tx_err Statement.

(** ** Ordered selects

    The order in which the database visits rows is its own; [ORDER BY] sorts
    them, ties in visiting order, and [LIMIT] takes a prefix. *)
Class Scan := {
  scan : ∀ {A : Type}, list A -> list A;
  scan_perm : ∀ {A : Type} (l : list A), scan l ≡ₚ l
}.

(** Sort keys: up to two integer columns, then a text column. *)
Definition SortKey : Type := Z * Z * string.
Definition key_le (a b : SortKey) : Prop :=
  a.1.1 < b.1.1 ∨ (a.1.1 = b.1.1 ∧ (a.1.2 < b.1.2 ∨ (a.1.2 = b.1.2 ∧ String.le a.2 b.2))).
#[global] Instance key_le_dec a b : Decision (key_le a b).
Proof. unfold key_le. apply _. Defined.

Definition select_by `{Scan} {K V} `{Countable K} (p : K -> V -> bool) (key : K -> V -> SortKey)
    (t : gmap K V) : list (K * V) :=
  merge_sort (λ a b, key_le (key a.1 a.2) (key b.1 b.2))
    (scan (filter (λ kv, p kv.1 kv.2 = true) (map_to_list t))).

(** [LIMIT]. *)
Fixpoint limit {A} (n : Z) (l : list A) : list A :=
  match l with
  | [] => []
  | a :: l => if 0 <? n then a :: limit (n - 1) l else []
  end.

(** [i64::try_from(n).unwrap_or(i64::MAX)]. *)
Definition i64_or_max (n : Z) : Z := if n <=? i64_max then n else i64_max.

(** [SELECT COUNT] of the rows that satisfy a predicate. *)
Definition count_where {K V} `{Countable K} (p : K -> V -> bool) (t : gmap K V) : Z :=
  Z.of_nat (size (filter (λ kv, p kv.1 kv.2 = true) t)).

(** [SELECT MIN] of a column over such rows. *)
Definition min_where {K V} `{Countable K} (p : K -> V -> bool) (col : V -> Z) (t : gmap K V)
  : option Z :=
  foldr (λ kv acc, Some (match acc with None => col kv.2 | Some m => Z.min (col kv.2) m end))
    None (map_to_list (filter (λ kv, p kv.1 kv.2 = true) t)).

(** [DELETE] of the rows that satisfy a predicate. *)
Definition keep_where {K V} `{Countable K} (p : K -> V -> bool) (t : gmap K V) : gmap K V :=
  filter (λ kv, p kv.1 kv.2 = true) t.

(** ** Lemmas on selects *)

#[global] Instance key_le_total : Total key_le.
Proof.
  intros [[a b] c] [[a' b'] c']. unfold key_le. cbn.
  destruct (total String.le c c'); destruct (Z.lt_trichotomy a a') as [?|[?|?]];
    destruct (Z.lt_trichotomy b b') as [?|[?|?]]; naive_solver lia.
Qed.
#[global] Instance key_le_trans : Transitive key_le.
Proof.
  intros [[a b] c] [[a' b'] c'] [[a'' b''] c'']. unfold key_le. cbn.
  intros [?|[? [?|[? Hs]]]] [?|[? [?|[? Hs']]]]; try lia.
  right. split; [lia|]. right. split; [lia|]. by transitivity c'.
Qed.

Lemma elem_of_limit {A} n (l : list A) a : a ∈ limit n l → a ∈ l.
Proof.
  revert n. induction l as [|x l IH]; intros n; cbn; [done|].
  destruct (0 <? n); [|by rewrite elem_of_nil].
  rewrite !elem_of_cons. intros [?|?]; [by left|right; eauto].
Qed.

Section Selects.
Context `{Scan} {K V : Type} `{Countable K}.
Implicit Types (p : K -> V -> bool) (key : K -> V -> SortKey) (t : gmap K V).

Lemma elem_of_select_by p key t kv :
  kv ∈ select_by p key t ↔ t !! kv.1 = Some kv.2 ∧ p kv.1 kv.2 = true.
Proof.
  unfold select_by. rewrite merge_sort_Permutation, scan_perm, list_elem_of_filter.
  destruct kv as [k v]. rewrite elem_of_map_to_list. naive_solver.
Qed.

Lemma NoDup_select_by p key t : NoDup (select_by p key t).*1.
Proof.
  assert (select_by p key t ≡ₚ filter (λ kv, p kv.1 kv.2 = true) (map_to_list t)) as Hp.
  { unfold select_by. by rewrite merge_sort_Permutation, scan_perm. }
  rewrite Hp. apply (sublist_NoDup _ (map_to_list t).*1); [apply NoDup_fst_map_to_list|].
  apply fmap_sublist, sublist_filter.
Qed.

(** The first selected row has the least key. *)
Lemma select_by_head p key t k v rest :
  select_by p key t = (k, v) :: rest →
  t !! k = Some v ∧ p k v = true ∧
  ∀ k' v', t !! k' = Some v' → p k' v' = true → key_le (key k v) (key k' v').
Proof.
  intros Heq.
  assert ((k, v) ∈ select_by p key t) as Hin by (rewrite Heq; left).
  apply elem_of_select_by in Hin as [Ht Hp]. split_and!; try done. intros k' v' Ht' Hp'.
  assert ((k', v') ∈ select_by p key t) as Hin' by by apply elem_of_select_by.
  assert (StronglySorted (λ a b, key_le (key a.1 a.2) (key b.1 b.2)) (select_by p key t)) as Hs.
  { apply StronglySorted_merge_sort; [intros x y z ? ?; by etrans|].
    intros x y. apply (total key_le). }
  rewrite Heq in Hs, Hin'. apply StronglySorted_cons in Hs as [Hall _].
  apply elem_of_cons in Hin' as [[= -> ->]|Hin'].
  - destruct (total key_le (key k v) (key k v)); done.
  - rewrite Forall_forall in Hall. by apply (Hall (k', v')).
Qed.

Lemma select_by_nil p key t :
  select_by p key t = [] ↔ ∀ k v, t !! k = Some v → p k v = false.
Proof.
  split.
  - intros Hnil k v Ht. apply not_true_is_false. intros Hp.
    assert ((k, v) ∈ select_by p key t) as Hin by by apply elem_of_select_by.
    rewrite Hnil in Hin. by apply elem_of_nil in Hin.
  - intros Hno. destruct (select_by p key t) as [|kv l] eqn:Heq; [done|].
    assert (kv ∈ select_by p key t) as Hin by (rewrite Heq; left).
    apply elem_of_select_by in Hin as [Ht Hp]. by rewrite (Hno _ _ Ht) in Hp.
Qed.

Lemma lookup_keep_where p t k v :
  keep_where p t !! k = Some v ↔ t !! k = Some v ∧ p k v = true.
Proof. unfold keep_where. by rewrite map_lookup_filter_Some. Qed.

Lemma count_where_0 p t : count_where p t = 0 ↔ ∀ k v, t !! k = Some v → p k v = false.
Proof.
  unfold count_where. transitivity (filter (λ kv, p kv.1 kv.2 = true) t = ∅).
  - rewrite <- map_size_empty_iff. lia.
  - rewrite map_empty. setoid_rewrite map_lookup_filter_None. split.
    + intros Hn k v Hk. destruct (Hn k) as [?|Hp]; [congruence|].
      specialize (Hp v Hk). cbn in Hp. by destruct (p k v).
    + intros Hn k. destruct (t !! k) as [v|] eqn:Hk; [right|by left].
      intros x [= <-]. cbn. by rewrite (Hn _ _ Hk).
Qed.

Lemma count_where_delete p t k v :
  t !! k = Some v → count_where p t = count_where p (delete k t) + Z.b2z (p k v).
Proof.
  intros Hk. unfold count_where. rewrite <- (insert_delete_id t k v Hk) at 1.
  assert (delete k t !! k = None) as Hd by apply lookup_delete_eq.
  destruct (p k v) eqn:Hp.
  - rewrite map_filter_insert_True by done. rewrite map_size_insert_None; [cbn; lia|].
    apply map_lookup_filter_None. by left.
  - rewrite map_filter_insert_False by (cbn; congruence). rewrite delete_id by done. cbn. lia.
Qed.

Lemma count_where_insert p t k v :
  count_where p (<[k := v]> t) = count_where p (delete k t) + Z.b2z (p k v).
Proof.
  rewrite (count_where_delete p (<[k := v]> t) k v) by apply lookup_insert_eq.
  by rewrite delete_insert_eq.
Qed.

Lemma count_where_delete_opt p t k :
  count_where p t =
  count_where p (delete k t) + match t !! k with Some v => Z.b2z (p k v) | None => 0 end.
Proof.
  destruct (t !! k) as [v|] eqn:Hk; [by apply count_where_delete|].
  rewrite delete_id by done. lia.
Qed.

Lemma count_where_size p t : 0 <= count_where p t <= Z.of_nat (size t).
Proof.
  unfold count_where. split; [lia|]. apply inj_le. apply map_subseteq_size, map_filter_subseteq.
Qed.

Lemma size_count t : Z.of_nat (size t) = count_where (λ _ _, true) t.
Proof.
  unfold count_where. do 2 f_equal. symmetry. by apply map_filter_id.
Qed.

Lemma keep_where_size p t : Z.of_nat (size (keep_where p t)) <= Z.of_nat (size t).
Proof. apply inj_le, map_subseteq_size, map_filter_subseteq. Qed.
End Selects.

(** ** What code on the pool may do to the database *)

Definition pool_rel {A} (R : relation PushDb) (t : Pool A) : Prop := ∀ d, R d (t d).1.

Section PoolRel.
Context (R : relation PushDb) `{!PreOrder R}.

Lemma pool_rel_ret {A} (a : A) : pool_rel R (mret a : Pool A).
Proof. intros d. cbn. done. Qed.
Lemma pool_rel_err {A} e : pool_rel R (pool_err e : Pool A).
Proof. intros d. cbn. done. Qed.
Lemma pool_rel_bind {A B} (t : Pool A) (k : A -> Pool B) :
  pool_rel R t → (∀ a, pool_rel R (k a)) → pool_rel R (t ≫= k).
Proof.
  intros Ht Hk d. unfold mbind, pool_bind. specialize (Ht d).
  destruct (t d) as [d' [a|e|]]; cbn in *; [|done..]. etrans; [done|apply Hk].
Qed.
Lemma pool_rel_on_pool {A} (t : PushTx A) : tx_rel R t → pool_rel R (on_pool t).
Proof. intros Ht d. exact (tx_rel_run R t d Ht). Qed.
Lemma pool_rel_in_tx {A} (t : PushTx (verdict A)) : tx_rel R t → pool_rel R (in_tx t).
Proof.
  intros Ht d. unfold in_tx. destruct (t d) as [[d' [a|a]]|e|] eqn:Hd; cbn; try done.
  by eapply Ht.
Qed.
Lemma pool_rel_read {A} (f : PushDb -> res PushError A) : pool_rel R (λ d, (d, f d)).
Proof. intros d. cbn. done. Qed.
End PoolRel.

Ltac pool_rel_step :=
  match goal with
  | |- pool_rel _ (match ?x with _ => _ end) => destruct x
  | |- pool_rel _ (let '_ := ?x in _) => destruct x
  | |- pool_rel _ (mbind _ _) => apply pool_rel_bind; [apply _| |intros ?]
  | |- pool_rel _ (mret _) => apply pool_rel_ret; apply _
  | |- pool_rel _ (pool_err _) => apply pool_rel_err; apply _
  | |- pool_rel _ (on_pool _) => apply pool_rel_on_pool; [apply _|]
  | |- pool_rel _ (in_tx _) => apply pool_rel_in_tx; [apply _|]
  end.
Ltac pool_rel_auto := repeat pool_rel_step; tx_rel_auto.

Lemma push_require_rel (R : relation PushDb) `{!PreOrder R} b : tx_rel R (push_require b).
Proof. unfold push_require. destruct b; auto with manifold. Qed.
#[export] Hint Resolve push_require_rel : manifold.

Lemma push_require_Ok b d d' u : push_require b d = Ok (d', u) ↔ d' = d ∧ b = true.
Proof. unfold push_require. destruct b, u; cbn; unfold mret, tx_ret; naive_solver. Qed.
