(* ===== verification/PushOutbox.v ===== *)
(** * The delivery outbox ([crates/push-gateway-storage/src/delivery_outbox.rs])

    One row per notification and device: enqueued pending, claimed by a worker
    under a fencing token and a lease, then succeeded, retried with backoff,
    failed for a dead token or dead-lettered.  Clock reads ([now], and
    [db_now] for the database's statement time) and random tokens are
    arguments.  [PushDelivery] and [PushRuns] prove the fence,
    the lease, the retry bound and the absolute resolution deadline. *)

From S2P Require Import Prelude PushSchema.
From stdpp Require Import base gmap strings list sorting.
From Stdlib Require Import ZArith Lia.
Open Scope Z_scope.

Module Outbox.

Definition MAX_DELIVERY_ATTEMPTS : Z := 5.
Definition DELIVERY_RESOLUTION_DEADLINE_SECONDS : Z := 300.
Definition IN_PROGRESS_LEASE_SECONDS : Z := 300.
Definition MAX_DEAD_LETTER_ADMIN_SELECTION : Z := 1000.

(** [PushRegistration] and [Notification]; [Value] is a JSON value. *)
Record PushRegistration := {
  pr_recipient_id : string;
  pr_installation_id : string;
  pr_fcm_token : string;
  pr_platform : option string;
  pr_created_at : Z;
  pr_last_seen_at : Z;
  pr_disabled_at : option Z;
  pr_disabled_reason : option string
}.

Record Notification {Value : Type} := {
  nt_recipient_id : string;
  nt_notification_id : string;
  nt_kind : string;
  nt_title : option string;
  nt_body : option string;
  nt_data : gmap string Value
}.
Arguments Notification : clear implicits.

Record EnqueueOutcome := { eo_event_id : string; eo_target_count : Z; eo_inserted : bool }.

Record ClaimedDelivery {Value : Type} := {
  cd_outbox_id : string;
  cd_registration : PushRegistration;
  cd_notification : Notification Value;
  cd_claim_id : string;
  cd_created_at : Z
}.
Arguments ClaimedDelivery : clear implicits.

Inductive ClaimDueOutcome {Value : Type} :=
| Claimed (delivery : ClaimedDelivery Value)
| Empty
| CorruptedDeadLetter.
Arguments ClaimDueOutcome : clear implicits.

Inductive MarkFailedOutcome := NotUpdated | MarkedRetrying | DeadLettered.

Inductive DeliveryOutboxFailureKind := PermanentPayload | Transient.
Record DeliveryOutboxFailure := { fl_reason : string; fl_kind : DeliveryOutboxFailureKind }.
Definition permanent_payload (reason : string) : DeliveryOutboxFailure :=
  {| fl_reason := reason; fl_kind := PermanentPayload |}.
Definition transient (reason : string) : DeliveryOutboxFailure :=
  {| fl_reason := reason; fl_kind := Transient |}.

Record OutboxStatusCounts := {
  sc_pending : Z; sc_in_progress : Z; sc_retrying : Z;
  sc_succeeded : Z; sc_invalid_token : Z; sc_dead_letter : Z
}.

Record OutboxAdminRow := {
  ar_outbox_id : string; ar_event_id : string; ar_recipient_id : string;
  ar_installation_id : string; ar_platform : option string; ar_status : string;
  ar_attempts : Z; ar_last_error : option string; ar_next_attempt_at : Z;
  ar_last_attempt_at : option Z; ar_created_at : Z; ar_updated_at : Z
}.

Record OutboxDeadLetterReasonCount := { rc_reason : string; rc_count : Z }.

Record OutboxDeadLetterSelector := {
  sel_outbox_ids : list string;
  sel_limit : option Z;
  sel_reason : option string
}.

Record OutboxOperationalMetrics := {
  om_status_counts : OutboxStatusCounts;
  om_oldest_due_age_seconds : Z;
  om_oldest_pending_age_seconds : Z;
  om_oldest_retrying_age_seconds : Z;
  om_dead_letter_current : Z;
  om_dead_letter_total : Z
}.

Record RetentionPurgeCounts := {
  pc_delivery_outbox_rows : Z;
  pc_disabled_registration_rows : Z;
  pc_notification_event_rows : Z;
  pc_idempotency_tombstone_rows : Z
}.

(** [backoff_seconds] and [age_seconds]. *)
Definition backoff_seconds (attempts : Z) : Z :=
  if (attempts =? 0) || (attempts =? 1) then 1
  else if attempts =? 2 then 5
  else if attempts =? 3 then 30
  else 300.
Definition age_seconds (now : Z) (timestamp : option Z) : Z :=
  match timestamp with
  | None => 0
  | Some t => Z.max (saturating_sub_i64 now t) 0
  end.

(** [target_count.try_into().unwrap_or(0)] into [usize]. *)
Definition usize_or_0 (n : Z) : Z := default 0 (try_from_u u64_max n).

(** The [delivery_outbox] CHECKs. *)
Definition statuses : list string :=
  ["pending"; "in_progress"; "retrying"; "succeeded"; "invalid_token"; "dead_letter"]%string.
Definition check_outbox (r : OutboxCols) : bool :=
  bool_decide (ob_status r ∈ statuses) && (0 <=? ob_attempts r) && (0 <=? ob_next_attempt_at r)
  && (0 <=? ob_created_at r) && (0 <=? ob_updated_at r)
  && match ob_last_attempt_at r with None => true | Some t => 0 <=? t end.

(** [UPDATE delivery_outbox SET .. WHERE ..]: the rows affected. *)
Definition update_outbox (p : string -> OutboxCols -> bool) (upd : OutboxCols -> OutboxCols)
  : PushTx Z :=
  d ← tx_get id;
  push_require
    (bool_decide (map_Forall (λ k r, p k r = true → check_outbox (upd r) = true) (outbox d)));;
  tx_put (set_outbox (map_imap (λ k r, Some (if p k r then upd r else r)) (outbox d)));;
  mret (count_where p (outbox d)).

(** Status tests of the statements. *)
Definition has_status (status : string) (r : OutboxCols) : bool := bool_decide (ob_status r = status).
Definition active (r : OutboxCols) : bool :=
  has_status "pending" r || has_status "retrying" r || has_status "in_progress" r.
Definition terminal (r : OutboxCols) : bool :=
  has_status "succeeded" r || has_status "invalid_token" r || has_status "dead_letter" r.
Definition claimed_by (outbox_id claim_id : string) (k : string) (r : OutboxCols) : bool :=
  bool_decide (k = outbox_id) && bool_decide (ob_claim_id r = Some claim_id)
  && has_status "in_progress" r.

(** [created_at <= ((SELECT epoch FROM database_now) - $n)]. *)
Definition past_deadline (db_now : Z) (r : OutboxCols) : bool :=
  ob_created_at r <=? db_now - DELIVERY_RESOLUTION_DEADLINE_SECONDS.

(** A row with new delivery columns; the snapshot columns stay. *)
Definition with_state (r : OutboxCols) (status : string) (attempts next_attempt_at : Z)
    (last_attempt_at : option Z) (last_error claim_id : option string) (updated_at : Z)
  : OutboxCols :=
  {| ob_event_id := ob_event_id r; ob_recipient_id := ob_recipient_id r;
     ob_installation_id := ob_installation_id r; ob_fcm_token := ob_fcm_token r;
     ob_platform := ob_platform r; ob_notification_json := ob_notification_json r;
     ob_status := status; ob_attempts := attempts; ob_next_attempt_at := next_attempt_at;
     ob_last_attempt_at := last_attempt_at; ob_last_error := last_error;
     ob_claim_id := claim_id; ob_created_at := ob_created_at r; ob_updated_at := updated_at |}.

(** [reset_in_progress]. *)
Definition reset_in_progress (now : Z) : Pool Z :=
  on_pool (update_outbox (λ _ r, has_status "in_progress" r)
    (λ r, with_state r "pending" (ob_attempts r) (ob_next_attempt_at r) (ob_last_attempt_at r)
            (ob_last_error r) (ob_claim_id r) now)).

(** [expire_delivery_resolution_deadlines]. *)
Definition expire_delivery_resolution_deadlines (now db_now : Z) : Pool Z :=
  on_pool (update_outbox (λ _ r, active r && past_deadline db_now r)
    (λ r, with_state r "dead_letter" (ob_attempts r) now (ob_last_attempt_at r)
            (Some "resolution_deadline_exceeded"%string) None now)).

(** [INSERT INTO notification_events] and [INSERT INTO delivery_outbox]. *)
Definition insert_event (k : string) (r : EventCols) : PushTx unit :=
  d ← tx_get id;
  push_require (bool_decide (events d !! k = None) && bool_decide (is_Some (hooks d !! ev_hook_id r))
    && bool_decide (map_Forall (λ _ e, ev_caller_idempotency_key r = None ∨
         (ev_hook_id e, ev_caller_idempotency_key e) <>
         (ev_hook_id r, ev_caller_idempotency_key r)) (events d))
    && (0 <=? ev_target_count r) && (0 <=? ev_created_at r));;
  tx_put (λ d, set_events (<[k := r]> (events d)) d).
Definition insert_outbox (k : string) (r : OutboxCols) : PushTx unit :=
  d ← tx_get id;
  push_require (bool_decide (outbox d !! k = None) && bool_decide (is_Some (events d !! ob_event_id r))
    && bool_decide (map_Forall (λ _ o,
         (ob_event_id o, ob_recipient_id o, ob_installation_id o) <>
         (ob_event_id r, ob_recipient_id r, ob_installation_id r)) (outbox d))
    && check_outbox r);;
  tx_put (λ d, set_outbox (<[k := r]> (outbox d)) d).

(** The row inserted for one target registration. *)
Definition pending_row (event_id json : string) (now : Z) (r : PushRegistration) : OutboxCols :=
  {| ob_event_id := event_id; ob_recipient_id := pr_recipient_id r;
     ob_installation_id := pr_installation_id r; ob_fcm_token := pr_fcm_token r;
     ob_platform := pr_platform r; ob_notification_json := json; ob_status := "pending";
     ob_attempts := 0; ob_next_attempt_at := now; ob_last_attempt_at := None;
     ob_last_error := None; ob_claim_id := None; ob_created_at := now; ob_updated_at := now |}.

(** [find_event]. *)
Definition find_event (hook_id key : string) (d : PushDb) : option (string * Z) :=
  match filter (λ kv, ev_hook_id kv.2 = hook_id ∧ ev_caller_idempotency_key kv.2 = Some key)
          (map_to_list (events d)) with
  | [] => None
  | (id, e) :: _ => Some (id, ev_target_count e)
  end.

Section Repository.
Context `{Scan} {Value : Type} `{!Codec (Notification Value)}.

Definition replayed (row : string * Z) : EnqueueOutcome :=
  {| eo_event_id := row.1; eo_target_count := usize_or_0 row.2; eo_inserted := false |}.

(** [enqueue_event]; [others] is what other connections commit between the
    lookup and the transaction, [others'] what they commit before the second
    lookup. *)
Definition enqueue_event (others others' : PushDb -> PushDb) (hook_id : string)
    (key : option string) (notification : Notification Value)
    (targets : list PushRegistration) (now : Z) (event_id : string) (fresh : nat -> string)
  : Pool EnqueueOutcome := fun d =>
  match key ≫= λ k, find_event hook_id k d with
  | Some row => (d, Ok (replayed row))
  | None =>
      let json := enc notification in
      let inserted : PushTx (verdict bool) :=
        d ← tx_get id;
        if bool_decide (is_Some (key ≫= λ k, find_event hook_id k d)) then mret (Rollback false)
        else
          insert_event event_id
            {| ev_hook_id := hook_id; ev_caller_idempotency_key := key;
               ev_recipient_id := nt_recipient_id notification; ev_notification_json := json;
               ev_target_count := i64_or_max (Z.of_nat (length targets));
               ev_created_at := now |};;
          tx_for (imap pair targets) (λ '(i, r), insert_outbox (fresh i) (pending_row event_id json now r));;
          mret (Commit true) in
      match in_tx inserted (others d) with
      | (d', Ok true) =>
          (d', Ok {| eo_event_id := event_id; eo_target_count := Z.of_nat (length targets);
                     eo_inserted := true |})
      | (d', Ok false) =>
          let d'' := others' d' in
          match key ≫= λ k, find_event hook_id k d'' with
          | Some row => (d'', Ok (replayed row))
          | None => (d'', Ok {| eo_event_id := event_id; eo_target_count := 0; eo_inserted := false |})
          end
      | (d', Err e) => (d', Err e)
      | (d', Panic) => (d', Panic)
      end
  end.

(** [find_existing_event]. *)
Definition find_existing_event (hook_id key : string) (d : PushDb) : option EnqueueOutcome :=
  replayed <$> find_event hook_id key d.

(** [row_to_claimed]. *)
Definition row_to_claimed (outbox_id claim_id : string) (r : OutboxCols)
  : option (ClaimedDelivery Value) :=
  notification ← dec (ob_notification_json r);
  Some {| cd_outbox_id := outbox_id;
          cd_registration :=
            {| pr_recipient_id := ob_recipient_id r; pr_installation_id := ob_installation_id r;
               pr_fcm_token := ob_fcm_token r; pr_platform := ob_platform r;
               pr_created_at := ob_created_at r; pr_last_seen_at := ob_created_at r;
               pr_disabled_at := None; pr_disabled_reason := None |};
          cd_notification := notification;
          cd_claim_id := claim_id;
          cd_created_at := ob_created_at r |}.

(** [mark_corrupted_notification_dead_letter]. *)
Definition mark_corrupted_notification_dead_letter (outbox_id claim_id : string) (now : Z)
  : Pool bool :=
  n ← on_pool (update_outbox (claimed_by outbox_id claim_id)
        (λ r, with_state r "dead_letter" (ob_attempts r + 1) now (Some now)
                (Some "notification_json_invalid"%string) None now));
  mret (0 <? n).

(** Rows [claim_due] may take. *)
Definition claimable (now : Z) (r : OutboxCols) : bool :=
  has_status "pending" r || has_status "retrying" r
  || (has_status "in_progress" r && (ob_next_attempt_at r <=? now)).

(** [claim_due]; [now'] is the later clock read of the dead-letter path. *)
Definition claim_row (now : Z) (claim_id : string)
  : PushTx (verdict (option (string * OutboxCols * Z))) :=
  d ← tx_get id;
  match select_by (λ _ r, claimable now r && (ob_next_attempt_at r <=? now))
          (λ _ r, (ob_next_attempt_at r, ob_created_at r, ""%string)) (outbox d) with
  | [] => mret (Commit None)
  | (outbox_id, row) :: _ =>
      n ← update_outbox (λ k r, bool_decide (k = outbox_id) && claimable now r)
            (λ r, with_state r "in_progress" (ob_attempts r) (now + IN_PROGRESS_LEASE_SECONDS)
                    (ob_last_attempt_at r) (ob_last_error r) (Some claim_id) now);
      mret (Commit (Some (outbox_id, row, n)))
  end.
Definition claim_corrupted (outbox_id claim_id : string) (now' : Z)
  : Pool (ClaimDueOutcome Value) := fun d =>
  match mark_corrupted_notification_dead_letter outbox_id claim_id now' d with
  | (d', Ok true) => (d', Ok CorruptedDeadLetter)
  | (d', Panic) => (d', Panic)
  | (d', _) => (d', Err Decode)
  end.
Definition claim_due (now now' : Z) (claim_id : string) : Pool (ClaimDueOutcome Value) :=
  claim ← in_tx (claim_row now claim_id);
  match claim with
  | None => mret Empty
  | Some (outbox_id, row, n) =>
      if n =? 0 then mret Empty
      else
        match row_to_claimed outbox_id claim_id row with
        | Some claimed => mret (Claimed claimed)
        | None => claim_corrupted outbox_id claim_id now'
        end
  end.

(** [next_claim_due_at]. *)
Definition next_claim_due_at (d : PushDb) : option Z :=
  min_where (λ _ r, active r) ob_next_attempt_at (outbox d).

(** [mark_succeeded]. *)
Definition mark_succeeded (outbox_id claim_id : string) (now db_now : Z) : Pool bool :=
  n ← on_pool (update_outbox
        (λ k r, claimed_by outbox_id claim_id k r && negb (past_deadline db_now r))
        (λ r, with_state r "succeeded" (ob_attempts r) (ob_next_attempt_at r) (Some now) None
                None now));
  mret (0 <? n).

(** [SELECT .. WHERE outbox_id = $1] with [fetch_one]. *)
Definition fetch_outbox (outbox_id : string) : Pool OutboxCols := fun d =>
  match outbox d !! outbox_id with Some r => (d, Ok r) | None => (d, Err RowNotFound) end.

(** [mark_failed] with [mark_failed_query]. *)
Definition mark_failed_query (outbox_id status : string) (next_attempt_at now : Z)
    (last_error claim_id : string) (db_now : Z) : PushTx Z :=
  update_outbox (claimed_by outbox_id claim_id)
    (λ r, let late := past_deadline db_now r in
          with_state r (if late then "dead_letter" else status) (ob_attempts r + 1)
            (if late then now else next_attempt_at) (Some now)
            (Some (if late then "resolution_deadline_exceeded"%string else last_error)) None now).
Definition mark_failed (outbox_id claim_id : string) (error : DeliveryOutboxFailure)
    (now db_now : Z) : Pool MarkFailedOutcome :=
  '(status, next_attempt_at, last_error) ←
    match fl_kind error with
    | PermanentPayload => mret ("dead_letter"%string, now, fl_reason error)
    | Transient =>
        row ← fetch_outbox outbox_id;
        let attempts := ob_attempts row in
        if MAX_DELIVERY_ATTEMPTS <=? attempts + 1
        then mret ("dead_letter"%string, now, fl_reason error)
        else mret ("retrying"%string, now + backoff_seconds (attempts + 1), fl_reason error)
    end;
  n ← on_pool (mark_failed_query outbox_id status next_attempt_at now last_error claim_id db_now);
  if n =? 0 then mret NotUpdated
  else
    row ← fetch_outbox outbox_id;
    if bool_decide (ob_status row = "dead_letter"%string) then mret DeadLettered
    else mret MarkedRetrying.

(** [mark_invalid_token_and_disable_registration]. *)
Definition disable (now : Z) (reason : option string) (r : RegistrationCols) : RegistrationCols :=
  {| rg_fcm_token := rg_fcm_token r; rg_platform := rg_platform r;
     rg_created_at := rg_created_at r; rg_updated_at := rg_updated_at r;
     rg_last_seen_at := rg_last_seen_at r;
     rg_disabled_at := match rg_disabled_at r with Some t => Some t | None => Some now end;
     rg_disabled_reason := match rg_disabled_reason r with Some t => Some t | None => reason end |}.
Definition check_registration (r : RegistrationCols) : bool :=
  (0 <=? rg_created_at r) && (0 <=? rg_updated_at r) && (0 <=? rg_last_seen_at r)
  && match rg_disabled_at r with None => true | Some t => 0 <=? t end.
Definition mark_invalid_token_and_disable_registration (delivery : ClaimedDelivery Value)
    (reason : string) (now : Z) : Pool bool :=
  in_tx (
    n ← update_outbox (claimed_by (cd_outbox_id delivery) (cd_claim_id delivery))
          (λ r, with_state r "invalid_token" (ob_attempts r + 1) now (Some now) (Some reason)
                  None now);
    if n =? 0 then mret (Commit false)
    else
      d ← tx_get id;
      let reg := cd_registration delivery in
      let k := (pr_recipient_id reg, pr_installation_id reg) in
      match registrations d !! k with
      | Some r =>
          if bool_decide (rg_fcm_token r = pr_fcm_token reg) then
            push_require (check_registration (disable now (Some reason) r));;
            tx_put (λ d, set_registrations (<[k := disable now (Some reason) r]> (registrations d)) d);;
            mret (Commit true)
          else mret (Commit true)
      | None => mret (Commit true)
      end).

(** [count_by_status] and [status_counts]. *)
Definition count_by_status (status : string) (d : PushDb) : Z :=
  count_where (λ _ r, has_status status r) (outbox d).
Definition group_by_status (d : PushDb) : list (string * Z) :=
  scan ((λ s, (s, count_by_status s d)) <$> remove_dups (ob_status ∘ snd <$> map_to_list (outbox d))).
Definition add_count (c : OutboxStatusCounts) (row : string * Z) : OutboxStatusCounts :=
  let '(status, n) := row in
  let '(Build_OutboxStatusCounts a b r s i x) := c in
  if bool_decide (status = "pending"%string) then Build_OutboxStatusCounts n b r s i x
  else if bool_decide (status = "in_progress"%string) then Build_OutboxStatusCounts a n r s i x
  else if bool_decide (status = "retrying"%string) then Build_OutboxStatusCounts a b n s i x
  else if bool_decide (status = "succeeded"%string) then Build_OutboxStatusCounts a b r n i x
  else if bool_decide (status = "invalid_token"%string) then Build_OutboxStatusCounts a b r s n x
  else if bool_decide (status = "dead_letter"%string) then Build_OutboxStatusCounts a b r s i n
  else c.
Definition status_counts (d : PushDb) : OutboxStatusCounts :=
  foldl add_count (Build_OutboxStatusCounts 0 0 0 0 0 0) (group_by_status d).

(** [row_to_admin_row]. *)
Definition row_to_admin_row (kr : string * OutboxCols) : OutboxAdminRow :=
  let '(k, r) := kr in
  {| ar_outbox_id := k; ar_event_id := ob_event_id r; ar_recipient_id := ob_recipient_id r;
     ar_installation_id := ob_installation_id r; ar_platform := ob_platform r;
     ar_status := ob_status r; ar_attempts := ob_attempts r; ar_last_error := ob_last_error r;
     ar_next_attempt_at := ob_next_attempt_at r; ar_last_attempt_at := ob_last_attempt_at r;
     ar_created_at := ob_created_at r; ar_updated_at := ob_updated_at r |}.

(** [validate_admin_limit] and [validate_dead_letter_selector]. *)
Definition validate_admin_limit (max : Z) : res PushError unit :=
  if (1 <=? max) && (max <=? MAX_DEAD_LETTER_ADMIN_SELECTION) then Ok tt
  else Err (Configuration "dead-letter admin limit must be between 1 and 1000").
Definition validate_dead_letter_selector (sel : OutboxDeadLetterSelector) : res PushError unit :=
  if MAX_DEAD_LETTER_ADMIN_SELECTION <? Z.of_nat (length (sel_outbox_ids sel))
  then Err (Configuration "too many outbox ids in selector")
  else if negb (bool_decide (length (remove_dups (sel_outbox_ids sel)) = length (sel_outbox_ids sel)))
  then Err (Configuration "duplicate outbox ids in selector")
  else match sel_limit sel with Some max => validate_admin_limit max | None => Ok tt end.

(** Dead-letter rows, oldest first, and [list_dead_letter_rows]. *)
Definition oldest_dead_letters (p : OutboxCols -> bool) (max : Z) (d : PushDb)
  : list OutboxAdminRow :=
  row_to_admin_row <$> limit max
    (select_by (λ _ r, has_status "dead_letter" r && p r)
       (λ k r, (ob_updated_at r, ob_created_at r, k)) (outbox d)).
Definition list_dead_letter_rows (max : Z) (d : PushDb) : res PushError (list OutboxAdminRow) :=
  validate_admin_limit max;;
  Ok (oldest_dead_letters (λ _, true) max d).

(** [dead_letter_reason_counts]. *)
Definition dead_letter_reason_counts (d : PushDb) : list OutboxDeadLetterReasonCount :=
  let dead := filter (λ kv, has_status "dead_letter" kv.2 = true) (map_to_list (outbox d)) in
  let reason (kv : string * OutboxCols) := default "unknown"%string (ob_last_error kv.2) in
  merge_sort (λ a b, key_le (- rc_count a, 0, rc_reason a) (- rc_count b, 0, rc_reason b))
    (scan ((λ s, {| rc_reason := s;
                    rc_count := Z.of_nat (length (filter (λ kv, reason kv = s) dead)) |})
             <$> remove_dups (reason <$> dead))).

(** [select_dead_letter_rows]. *)
Fixpoint select_by_ids (ids : list string) (reason : option string) (d : PushDb)
  : list OutboxAdminRow :=
  match ids with
  | [] => []
  | k :: ids =>
      match outbox d !! k with
      | Some r =>
          if has_status "dead_letter" r
             && match reason with None => true | Some x => bool_decide (ob_last_error r = Some x) end
          then row_to_admin_row (k, r) :: select_by_ids ids reason d
          else select_by_ids ids reason d
      | None => select_by_ids ids reason d
      end
  end.
Definition select_dead_letter_rows (sel : OutboxDeadLetterSelector) (d : PushDb)
  : res PushError (list OutboxAdminRow) :=
  validate_dead_letter_selector sel;;
  match sel_outbox_ids sel with
  | _ :: _ => Ok (select_by_ids (sel_outbox_ids sel) (sel_reason sel) d)
  | [] =>
      match sel_limit sel with
      | None => Ok []
      | Some max =>
          match sel_reason sel with
          | Some reason =>
              Ok (oldest_dead_letters (λ r, bool_decide (ob_last_error r = Some reason)) max d)
          | None => list_dead_letter_rows max d
          end
      end
  end.
Definition selected (sel : OutboxDeadLetterSelector) : Pool (list OutboxAdminRow) := fun d =>
  (d, select_dead_letter_rows sel d).

(** [replay_dead_letter_rows]. *)
Fixpoint replay_loop (rows : list OutboxAdminRow) (now db_now changed : Z) : PushTx Z :=
  match rows with
  | [] => mret changed
  | row :: rows =>
      n ← update_outbox
            (λ k r, bool_decide (k = ar_outbox_id row) && has_status "dead_letter" r
                    && negb (past_deadline db_now r))
            (λ r, with_state r "pending" (ob_attempts r) now (ob_last_attempt_at r)
                    (ob_last_error r) None now);
      if n =? 0 then
        tx_err (Configuration
          "dead-letter row is past its delivery resolution deadline and cannot be replayed")
      else replay_loop rows now db_now (changed + n)
  end.
Definition replay_dead_letter_rows (sel : OutboxDeadLetterSelector) (dry_run : bool)
    (now db_now : Z) : Pool Z :=
  rows ← selected sel;
  match rows with
  | [] => mret 0
  | _ =>
      in_tx (changed ← replay_loop rows now db_now 0;
             mret (if dry_run then Rollback changed else Commit changed))
  end.

(** [delete_dead_letter_rows]. *)
Fixpoint delete_loop (rows : list OutboxAdminRow) (changed : Z) : PushTx Z :=
  match rows with
  | [] => mret changed
  | row :: rows =>
      d ← tx_get id;
      let p k r := bool_decide (k = ar_outbox_id row) && has_status "dead_letter" r in
      tx_put (λ d, set_outbox (keep_where (λ k r, negb (p k r)) (outbox d)) d);;
      delete_loop rows (changed + count_where p (outbox d))
  end.
Definition delete_dead_letter_rows (sel : OutboxDeadLetterSelector) (dry_run : bool) : Pool Z :=
  rows ← selected sel;
  if dry_run || bool_decide (rows = []) then mret (Z.of_nat (length rows))
  else in_tx (changed ← delete_loop rows 0; mret (Commit changed)).

(** [operational_metrics]. *)
Definition operational_metrics (now : Z) (d : PushDb) : OutboxOperationalMetrics :=
  let counts := status_counts d in
  {| om_status_counts := counts;
     om_oldest_due_age_seconds := age_seconds now
       (min_where (λ _ r, active r && (ob_next_attempt_at r <=? now)) ob_next_attempt_at (outbox d));
     om_oldest_pending_age_seconds := age_seconds now
       (min_where (λ _ r, has_status "pending" r) ob_created_at (outbox d));
     om_oldest_retrying_age_seconds := age_seconds now
       (min_where (λ _ r, has_status "retrying" r) ob_updated_at (outbox d));
     om_dead_letter_current := sc_dead_letter counts;
     om_dead_letter_total := sc_dead_letter counts |}.

(** [purge_retained_sensitive_data]. *)
Definition purgeable (cutoff : Z) (r : OutboxCols) : bool :=
  terminal r && (ob_updated_at r <? cutoff).
Definition registration_purgeable (cutoff : Z) (r : RegistrationCols) : bool :=
  match rg_disabled_at r with Some t => t <? cutoff | None => false end.
Definition event_purgeable (cutoff : Z) (d : PushDb) (k : string) (e : EventCols) : bool :=
  (ev_created_at e <? cutoff)
  && bool_decide (map_Forall (λ _ o, ob_event_id o <> k) (outbox d)).
Definition purge_retained_sensitive_data (cutoff idempotency_cutoff : Z)
  : Pool RetentionPurgeCounts :=
  in_tx (
    d ← tx_get id;
    tx_put (λ d, set_outbox (keep_where (λ _ r, negb (purgeable cutoff r)) (outbox d)) d);;
    tx_put (λ d, set_registrations
      (keep_where (λ _ r, negb (registration_purgeable cutoff r)) (registrations d)) d);;
    d1 ← tx_get id;
    tx_put (λ d, set_events (keep_where (λ k e, negb (event_purgeable cutoff d k e)) (events d)) d);;
    tx_put (λ d, set_tombstones
      (keep_where (λ _ t, negb (tb_retain_until t <? idempotency_cutoff)) (tombstones d)) d);;
    mret (Commit
      {| pc_delivery_outbox_rows := count_where (λ _ r, purgeable cutoff r) (outbox d);
         pc_disabled_registration_rows :=
           count_where (λ _ r, registration_purgeable cutoff r) (registrations d);
         pc_notification_event_rows := count_where (event_purgeable cutoff d1) (events d1);
         pc_idempotency_tombstone_rows :=
           count_where (λ _ t, tb_retain_until t <? idempotency_cutoff) (tombstones d) |})).

End Repository.

End Outbox.
