(* ===== verification/PushDelivery.v ===== *)
(** * The delivery state machine

    An abstract description of the life of one outbox row, [delivery_step],
    and the proof that every operation of [PushOutbox] moves every row along
    it.  The guarantees of the queue follow by induction on its steps: the
    retry bound, the finality of outcomes and the absolute deadline. *)

From S2P Require Import Prelude PushSchema PushOutbox.
From stdpp Require Import base gmap strings list sorting relations.
From Stdlib Require Import ZArith Lia.
Open Scope Z_scope.

Module Delivery.
Import Outbox.

(** The process clock and the database's. *)
Record Clocks := { process_now : Z; database_now : Z }.

(** One step of a row: claims are made at process time [process_now T] or later,
    deadlines are tested at database time [database_now T] or later. *)
Inductive delivery_step (T : Clocks) (r : OutboxCols) : OutboxCols -> Prop :=
| step_reset now :
    ob_status r = "in_progress"%string →
    delivery_step T r (with_state r "pending" (ob_attempts r) (ob_next_attempt_at r)
      (ob_last_attempt_at r) (ob_last_error r) (ob_claim_id r) now)
| step_expire now db_now :
    active r = true → database_now T <= db_now → past_deadline db_now r = true →
    delivery_step T r (with_state r "dead_letter" (ob_attempts r) now (ob_last_attempt_at r)
      (Some "resolution_deadline_exceeded"%string) None now)
| step_claim now claim_id :
    claimable now r = true → process_now T <= now →
    delivery_step T r (with_state r "in_progress" (ob_attempts r)
      (now + IN_PROGRESS_LEASE_SECONDS) (ob_last_attempt_at r) (ob_last_error r)
      (Some claim_id) now)
| step_succeed now db_now :
    ob_status r = "in_progress"%string → database_now T <= db_now → past_deadline db_now r = false →
    delivery_step T r (with_state r "succeeded" (ob_attempts r) (ob_next_attempt_at r)
      (Some now) None None now)
| step_retry now db_now reason :
    ob_status r = "in_progress"%string → database_now T <= db_now → past_deadline db_now r = false →
    ob_attempts r + 1 < MAX_DELIVERY_ATTEMPTS →
    delivery_step T r (with_state r "retrying" (ob_attempts r + 1)
      (now + backoff_seconds (ob_attempts r + 1)) (Some now) (Some reason) None now)
| step_dead_letter now reason :
    ob_status r = "in_progress"%string →
    delivery_step T r (with_state r "dead_letter" (ob_attempts r + 1) now (Some now)
      (Some reason) None now)
| step_invalid_token now reason :
    ob_status r = "in_progress"%string →
    delivery_step T r (with_state r "invalid_token" (ob_attempts r + 1) now (Some now)
      (Some reason) None now)
| step_replay now db_now :
    ob_status r = "dead_letter"%string → database_now T <= db_now → past_deadline db_now r = false →
    delivery_step T r (with_state r "pending" (ob_attempts r) now (ob_last_attempt_at r)
      (ob_last_error r) None now).

(** The rows two databases share moved along the state machine, none appeared
    or disappeared, and the other tables are untouched but for registrations. *)
Definition rows_step (T : Clocks) (d d' : PushDb) : Prop :=
  dom (outbox d') = dom (outbox d) ∧
  ∀ k r r', outbox d !! k = Some r → outbox d' !! k = Some r' → rtc (delivery_step T) r r'.

#[global] Instance rows_step_preorder T : PreOrder (rows_step T).
Proof.
  split.
  - intros d. split; [done|]. intros k r r' H1 H2. by simplify_eq.
  - intros d1 d2 d3 [Hd H] [Hd' H']. split; [congruence|]. intros k r1 r3 H1 H3.
    assert (is_Some (outbox d2 !! k)) as [r2 H2].
    { apply elem_of_dom. rewrite Hd. apply elem_of_dom. eauto. }
    etrans; eauto.
Qed.

(** ** Updates *)

Lemma update_outbox_Ok p upd d d' n :
  update_outbox p upd d = Ok (d', n) ↔
  d' = set_outbox (map_imap (λ k r, Some (if p k r then upd r else r)) (outbox d)) d ∧
  n = count_where p (outbox d) ∧
  map_Forall (λ k r, p k r = true → check_outbox (upd r) = true) (outbox d).
Proof.
  unfold update_outbox. rewrite (tx_bind_eq _ _ d d d eq_refl). cbn [id].
  unfold push_require. case_bool_decide as Hc; cbn; unfold mret, tx_ret; split.
  - intros [= <- <-]. done.
  - by intros (-> & -> & _).
  - done.
  - by intros (_ & _ & ?).
Qed.

Lemma lookup_update (p : string -> OutboxCols -> bool) (upd : OutboxCols -> OutboxCols) (t : gmap string OutboxCols) k :
  map_imap (λ k r, Some (if p k r then upd r else r)) t !! k =
  (λ r, if p k r then upd r else r) <$> t !! k.
Proof. rewrite map_lookup_imap. by destruct (t !! k). Qed.

(** An update whose rows each make a step is a step of the database. *)
Lemma update_outbox_step_at T p upd d :
  (∀ k r, outbox d !! k = Some r → p k r = true → rtc (delivery_step T) r (upd r)) →
  rows_step T d (on_pool (update_outbox p upd) d).1.
Proof.
  intros Hstep. unfold on_pool, run_tx.
  destruct (update_outbox p upd d) as [[d' n]|e|] eqn:Hu; cbn; [|done..].
  apply update_outbox_Ok in Hu as (-> & _ & _). split; cbn.
  - apply set_eq. intros k. rewrite !elem_of_dom, lookup_update. by rewrite fmap_is_Some.
  - intros k r r' Hr. rewrite lookup_update, Hr. intros [= <-].
    destruct (p k r) eqn:Hp; [by eapply Hstep|done].
Qed.

Lemma update_outbox_step T p upd :
  (∀ k r, p k r = true → rtc (delivery_step T) r (upd r)) →
  tx_rel (rows_step T) (update_outbox p upd).
Proof.
  intros Hstep d d' n Hu. pose proof (update_outbox_step_at T p upd d) as Hs.
  unfold on_pool, run_tx in Hs. rewrite Hu in Hs. apply Hs. eauto.
Qed.

Lemma has_status_true s r : has_status s r = true ↔ ob_status r = s.
Proof. apply bool_decide_eq_true. Qed.

Lemma claimed_by_true i c k r :
  claimed_by i c k r = true ↔
  k = i ∧ ob_claim_id r = Some c ∧ ob_status r = "in_progress"%string.
Proof.
  unfold claimed_by. rewrite !andb_true_iff, !bool_decide_eq_true, has_status_true. naive_solver.
Qed.

(** A typed row is active or terminal. *)
Lemma active_or_terminal r : check_outbox r = true → active r = negb (terminal r).
Proof.
  unfold check_outbox. rewrite !andb_true_iff. intros (((((Hst & _) & _) & _) & _) & _).
  apply bool_decide_eq_true in Hst. unfold statuses in Hst.
  rewrite !elem_of_cons, elem_of_nil in Hst. unfold active, terminal, has_status.
  destruct Hst as [->|[->|[->|[->|[->|[->|[]]]]]]]; reflexivity.
Qed.

(** An update that keeps rows typed succeeds. *)
Lemma update_outbox_succeeds p upd d :
  (∀ k r, outbox d !! k = Some r → p k r = true → check_outbox (upd r) = true) →
  update_outbox p upd d = Ok
    (set_outbox (map_imap (λ k r, Some (if p k r then upd r else r)) (outbox d)) d,
     count_where p (outbox d)).
Proof. intros Hc. apply update_outbox_Ok. split_and!; [done..|]. intros k r Hk Hp. eauto. Qed.

(** New delivery columns keep a row typed. *)
Lemma with_state_typed r status attempts next last error claim now :
  check_outbox r = true → status ∈ statuses → 0 <= attempts → 0 <= next → 0 <= now →
  (last = ob_last_attempt_at r ∨ last = Some now) →
  check_outbox (with_state r status attempts next last error claim now) = true.
Proof.
  unfold check_outbox. rewrite !andb_true_iff. cbn.
  intros (((((_ & _) & _) & Hc) & _) & Hl) Hst Ha Hn Hnow Hlast.
  split_and!; [by apply bool_decide_eq_true|by apply Z.leb_le..|done|by apply Z.leb_le|].
  destruct Hlast as [->| ->]; [done|by apply Z.leb_le].
Qed.

(** The corrupted-payload path changes what its dead-lettering changes. *)
Lemma claim_corrupted_rel {Value} (R : relation PushDb) i c now :
  pool_rel R (mark_corrupted_notification_dead_letter i c now) →
  pool_rel R (claim_corrupted (Value:=Value) i c now).
Proof.
  intros Hm d. specialize (Hm d). unfold claim_corrupted.
  by destruct (mark_corrupted_notification_dead_letter _ _ _ d) as [d' [[]|e|]].
Qed.

(** ** Every operation is made of steps *)

Section Operations.
Context `{Scan} {Value : Type} `{!Codec (Notification Value)} (T : Clocks).

Lemma step_once r r' : delivery_step T r r' → rtc (delivery_step T) r r'.
Proof. apply rtc_once. Qed.
Hint Resolve step_once : core.

Lemma reset_steps now : pool_rel (rows_step T) (reset_in_progress now).
Proof.
  unfold reset_in_progress. pool_rel_auto. apply update_outbox_step.
  intros _ r Hr%has_status_true. by apply step_once, step_reset.
Qed.

Lemma expire_steps now db_now :
  database_now T <= db_now → pool_rel (rows_step T) (expire_delivery_resolution_deadlines now db_now).
Proof.
  intros HT. unfold expire_delivery_resolution_deadlines. pool_rel_auto. apply update_outbox_step.
  intros _ r [Ha Hp]%andb_true_iff. by apply step_once, (step_expire T r now db_now).
Qed.

Lemma corrupted_steps i c now :
  pool_rel (rows_step T) (mark_corrupted_notification_dead_letter i c now).
Proof.
  unfold mark_corrupted_notification_dead_letter. pool_rel_auto. apply update_outbox_step.
  intros k r (_ & _ & Hs)%claimed_by_true. by apply step_once, step_dead_letter.
Qed.

Lemma claim_row_steps now c : process_now T <= now → tx_rel (rows_step T) (claim_row now c).
Proof.
  intros HT. unfold claim_row. tx_rel_auto. apply update_outbox_step.
  intros k r [_ Hc]%andb_true_iff. by apply step_once, step_claim.
Qed.

Lemma claim_steps now now' c :
  process_now T <= now → pool_rel (rows_step T) (claim_due (Value:=Value) now now' c).
Proof.
  intros HT. unfold claim_due. pool_rel_auto; [by apply claim_row_steps|].
  apply claim_corrupted_rel, corrupted_steps.
Qed.

Lemma succeeded_steps i c now db_now :
  database_now T <= db_now → pool_rel (rows_step T) (mark_succeeded i c now db_now).
Proof.
  intros HT. unfold mark_succeeded. pool_rel_auto. apply update_outbox_step.
  intros k r [(_ & _ & Hs)%claimed_by_true Hp%negb_true_iff]%andb_true_iff.
  by apply step_once, (step_succeed T r now db_now).
Qed.

Lemma failed_query_steps i c status next now reason db_now d :
  database_now T <= db_now →
  (∀ r, outbox d !! i = Some r → ob_status r = "in_progress"%string →
     status = "dead_letter"%string ∧ next = now ∨
     status = "retrying"%string ∧ next = now + backoff_seconds (ob_attempts r + 1) ∧
     ob_attempts r + 1 < MAX_DELIVERY_ATTEMPTS) →
  rows_step T d (on_pool (mark_failed_query i status next now reason c db_now) d).1.
Proof.
  intros HT Hcase. apply update_outbox_step_at. intros k r Hr (-> & _ & Hs)%claimed_by_true.
  apply step_once. destruct (past_deadline db_now r) eqn:Hp; [by apply step_dead_letter|].
  destruct (Hcase r Hr Hs) as [[-> ->]|(-> & -> & Hlt)]; [by apply step_dead_letter|].
  by apply (step_retry T r now db_now).
Qed.

Lemma failed_tail_steps (t : Pool Z) i d :
  rows_step T d (t d).1 →
  rows_step T d ((n ← t;
    if n =? 0 then mret NotUpdated
    else
      row ← fetch_outbox i;
      if bool_decide (ob_status row = "dead_letter"%string) then mret DeadLettered
      else mret MarkedRetrying) d).1.
Proof.
  intros Ht. unfold mbind at 1, pool_bind at 1. destruct (t d) as [d1 [n|e|]]; cbn in *; try done.
  destruct (n =? 0); [done|]. unfold mbind, pool_bind, fetch_outbox.
  destruct (outbox d1 !! i); [|done]. by case_bool_decide.
Qed.

Lemma failed_steps i c err now db_now :
  database_now T <= db_now → pool_rel (rows_step T) (mark_failed i c err now db_now).
Proof.
  intros HT d. unfold mark_failed. destruct err as [reason []]; cbn [fl_kind fl_reason].
  - unfold mbind at 1, pool_bind at 1. cbn [mret pool_ret].
    apply failed_tail_steps, failed_query_steps; [done|]. auto.
  - unfold mbind at 1, pool_bind at 1. unfold mbind at 1, pool_bind at 1.
    unfold fetch_outbox at 1. destruct (outbox d !! i) as [row|] eqn:Hrow; [|done]. cbn [mret pool_ret].
    destruct (Z.leb_spec MAX_DELIVERY_ATTEMPTS (ob_attempts row + 1)) as [?|Hlt];
      apply failed_tail_steps, failed_query_steps; try done; [by auto|].
    intros r [= <-]%(eq_trans (eq_sym Hrow)) _. auto.
Qed.

Lemma invalid_token_steps (dl : ClaimedDelivery Value) reason now :
  pool_rel (rows_step T) (mark_invalid_token_and_disable_registration dl reason now).
Proof.
  unfold mark_invalid_token_and_disable_registration. pool_rel_auto.
  - apply update_outbox_step. intros k r (_ & _ & Hs)%claimed_by_true.
    by apply step_once, step_invalid_token.
  - split; [done|]. cbn. intros. by simplify_eq.
Qed.

Lemma replay_loop_steps rows now db_now n :
  database_now T <= db_now → tx_rel (rows_step T) (replay_loop rows now db_now n).
Proof.
  intros HT. revert n. induction rows as [|row rows IH]; intros n; cbn [replay_loop]; tx_rel_auto.
  apply update_outbox_step.
  intros k r [[_ Hs%has_status_true]%andb_true_iff Hp%negb_true_iff]%andb_true_iff.
  by apply step_once, (step_replay T r now db_now).
Qed.

Lemma replay_steps sel dry now db_now :
  database_now T <= db_now → pool_rel (rows_step T) (replay_dead_letter_rows sel dry now db_now).
Proof.
  intros HT. unfold replay_dead_letter_rows. pool_rel_auto.
  - intros d. done.
  - by apply replay_loop_steps.
Qed.

End Operations.

End Delivery.
