(* ===== verification/PushRegistrations.v ===== *)
(** * Push registrations
      ([crates/push-gateway-storage/src/push_registration_repository.rs])

    Device installations with their provider tokens, the durable binding of a
    token to an installation, and the admission that enforces ownership and
    capacity in one transaction.  The theorems show that a token has one
    route, that its owner row agrees with it, and that the projected counts
    the ceilings are tested against are the counts the admission leaves. *)

From S2P Require Import Prelude PushSchema PushOutbox.
From stdpp Require Import base gmap strings list sorting.
From Stdlib Require Import ZArith Lia.
Open Scope Z_scope.

Module Registrations.
Import Outbox.

Record RegistrationEligibility := { cutoff_timestamp : Z }.

Record RegistrationAdmissionLimits := {
  rl_max_active_per_recipient : Z;
  rl_max_active_global : Z;
  rl_max_total_rows : Z;
  rl_reclamation_batch_size : Z
}.

Inductive RegistrationAdmissionOutcome :=
| Registered
| RecipientCapacityExceeded
| GlobalCapacityExceeded
| GlobalRowCapacityExceeded
| TokenBoundToDifferentInstallation.

Record RegistrationRowMetrics := {
  rm_total : Z; rm_registrations : Z; rm_token_owners : Z; rm_orphaned_token_owners : Z;
  rm_active : Z; rm_disabled : Z; rm_stale : Z
}.

Record RegisterInstallationRequest := {
  rq_installation_id : string;
  rq_fcm_token : string;
  rq_platform : option string
}.

(** [registration_row_is_active]; the statements test the same columns. *)
Definition registration_row_is_active (r : RegistrationCols) (e : RegistrationEligibility) : bool :=
  bool_decide (rg_disabled_at r = None) && (cutoff_timestamp e <=? rg_last_seen_at r).

(** [row_to_registration]. *)
Definition row_to_registration (kr : string * string * RegistrationCols) : PushRegistration :=
  let '(recipient, installation, r) := kr in
  {| pr_recipient_id := recipient; pr_installation_id := installation;
     pr_fcm_token := rg_fcm_token r; pr_platform := rg_platform r;
     pr_created_at := rg_created_at r; pr_last_seen_at := rg_last_seen_at r;
     pr_disabled_at := rg_disabled_at r; pr_disabled_reason := rg_disabled_reason r |}.

(** [acquire_admission_lock]. *)
Definition acquire_admission_lock (resource : string) (now : Z) : PushTx unit :=
  d ← tx_get id;
  if bool_decide (is_Some (admission_locks d !! resource)) then
    push_require (0 <=? now);;
    tx_put (λ d, set_admission_locks (<[resource := now]> (admission_locks d)) d)
  else tx_err RowNotFound.

(** [SELECT .. FROM push_registrations WHERE fcm_token = $1]. *)
Definition by_token (token : string) (d : PushDb)
  : option (string * string * RegistrationCols) :=
  head (filter (λ kr, rg_fcm_token kr.2 = token) (map_to_list (registrations d))).

(** [active_registration_count] and [physical_registration_count]. *)
Definition active_registration_count (recipient : option string) (cutoff : Z) (d : PushDb) : Z :=
  count_where (λ k r,
    match recipient with Some x => bool_decide (k.1 = x) | None => true end
    && registration_row_is_active r {| cutoff_timestamp := cutoff |}) (registrations d).
Definition physical_registration_count (d : PushDb) : Z :=
  saturating_add_i64 (Z.of_nat (size (registrations d))) (Z.of_nat (size (token_owners d))).

(** [token_owner_matches_installation]. *)
Definition token_owner_matches_installation (token recipient installation : string) (d : PushDb)
  : bool :=
  match token_owners d !! token with
  | Some o => bool_decide (ow_recipient_id o = recipient)
              && bool_decide (ow_installation_id o = installation)
  | None => false
  end.

(** [a.saturating_sub(b)] and [a.saturating_add(b)] on [u64]. *)
Definition sub_u64 (a b : Z) : Z := Z.max 0 (a - b).
Definition add_u64 (a b : Z) : Z := saturating_add_u u64_max a b.

Section Repository.
Context `{Scan}.

(** [purge_orphaned_token_owners_in_transaction]. *)
Definition orphaned (d : PushDb) (token : string) : bool :=
  bool_decide (map_Forall (λ _ r, rg_fcm_token r <> token) (registrations d)).
Definition orphaned_batch (cutoff batch_size : Z) (d : PushDb) : list string :=
  (limit (i64_or_max batch_size)
    (select_by (λ t o, (ow_updated_at o <? cutoff) && orphaned d t)
       (λ t o, (ow_updated_at o, 0, t)) (token_owners d))).*1.
Definition purge_orphaned_token_owners_in_transaction (cutoff batch_size : Z) : PushTx Z :=
  if batch_size =? 0 then mret 0
  else
    d ← tx_get id;
    tx_put (λ d, set_token_owners
      (keep_where (λ t _, negb (bool_decide (t ∈ orphaned_batch cutoff batch_size d)))
         (token_owners d)) d);;
    mret (Z.of_nat (length (orphaned_batch cutoff batch_size d))).

(** [purge_stale_in_transaction] and [purge_stale]. *)
Definition stale_batch (cutoff batch_size : Z) (d : PushDb) : list (string * string) :=
  (limit (i64_or_max batch_size)
    (select_by (λ _ r, rg_last_seen_at r <? cutoff)
       (λ _ r, (rg_last_seen_at r, 0, ""%string)) (registrations d))).*1.
Definition purge_stale_in_transaction (cutoff batch_size : Z) : PushTx Z :=
  if batch_size =? 0 then mret 0
  else
    d ← tx_get id;
    tx_put (λ d, set_registrations
      (keep_where (λ k _, negb (bool_decide (k ∈ stale_batch cutoff batch_size d)))
         (registrations d)) d);;
    owners ← purge_orphaned_token_owners_in_transaction cutoff batch_size;
    mret (add_u64 (Z.of_nat (length (stale_batch cutoff batch_size d))) owners).
Definition purge_stale (cutoff now : Z) : Pool Z :=
  in_tx (
    acquire_admission_lock "registration" now;;
    d ← tx_get id;
    tx_put (λ d, set_registrations
      (keep_where (λ _ r, negb (rg_last_seen_at r <? cutoff)) (registrations d)) d);;
    owners ← purge_orphaned_token_owners_in_transaction cutoff u64_max;
    mret (Commit (add_u64 (count_where (λ _ r, rg_last_seen_at r <? cutoff) (registrations d)) owners))).

(** What the admission knows before it decides. *)
Record Situation := {
  st_token_owner : option OwnerCols;
  st_token_registration : option (string * string * RegistrationCols);
  st_target : option RegistrationCols;
  st_token_registration_is_other_route : bool;
  st_removed_recipient_active : Z;
  st_removed_global_active : Z;
  st_releases_target_old_owner : bool
}.
Definition situation (recipient : string) (request : RegisterInstallationRequest)
    (e : RegistrationEligibility) (d : PushDb) : Situation :=
  let token := rq_fcm_token request in
  let installation := rq_installation_id request in
  let token_registration := by_token token d in
  let target := registrations d !! (recipient, installation) in
  let target_is_active :=
    match target with Some r => registration_row_is_active r e | None => false end in
  let is_other_route :=
    match token_registration with
    | Some (k, _) => negb (bool_decide (k.1 = recipient)) || negb (bool_decide (k.2 = installation))
    | None => false
    end in
  let token_active :=
    match token_registration with
    | Some (_, r) => registration_row_is_active r e
    | None => false
    end in
  let belongs_to_recipient :=
    match token_registration with Some (k, _) => bool_decide (k.1 = recipient) | None => false end in
  {| st_token_owner := token_owners d !! token;
     st_token_registration := token_registration;
     st_target := target;
     st_token_registration_is_other_route := is_other_route;
     st_removed_recipient_active :=
       Z.b2z target_is_active + Z.b2z (is_other_route && belongs_to_recipient && token_active);
     st_removed_global_active :=
       Z.b2z target_is_active + Z.b2z (is_other_route && token_active);
     st_releases_target_old_owner :=
       match target with
       | Some r =>
           if bool_decide (rg_fcm_token r = token) then false
           else token_owner_matches_installation (rg_fcm_token r) recipient installation d
       | None => false
       end |}.

(** The ownership conflict. *)
Definition conflicts_with_installation (recipient installation : string) (k : string * string)
  : bool :=
  negb (bool_decide (k.1 = recipient)) && negb (bool_decide (k.2 = installation)).
Definition ownership_conflict (recipient installation : string) (s : Situation) : bool :=
  match st_token_owner s with
  | Some o => conflicts_with_installation recipient installation (ow_recipient_id o, ow_installation_id o)
  | None => false
  end
  || match st_token_registration s with
     | Some (k, _) => conflicts_with_installation recipient installation k
     | None => false
     end.

(** The first ceiling the projected counts exceed. *)
Definition exceeded_ceiling (recipient : string) (e : RegistrationEligibility)
    (limits : RegistrationAdmissionLimits) (s : Situation) (d : PushDb)
  : option RegistrationAdmissionOutcome :=
  if (0 <? rl_max_active_per_recipient limits)
     && (rl_max_active_per_recipient limits <?
         add_u64 (sub_u64 (active_registration_count (Some recipient) (cutoff_timestamp e) d)
                    (st_removed_recipient_active s)) 1)
  then Some RecipientCapacityExceeded
  else if (0 <? rl_max_active_global limits)
     && (rl_max_active_global limits <?
         add_u64 (sub_u64 (active_registration_count None (cutoff_timestamp e) d)
                    (st_removed_global_active s)) 1)
  then Some GlobalCapacityExceeded
  else if (0 <? rl_max_total_rows limits)
     && (rl_max_total_rows limits <?
         add_u64 (sub_u64 (physical_registration_count d)
                    (Z.b2z (st_token_registration_is_other_route s)
                     + Z.b2z (st_releases_target_old_owner s)))
                 (Z.b2z (bool_decide (st_target s = None))
                  + Z.b2z (bool_decide (st_token_owner s = None))))
  then Some GlobalRowCapacityExceeded
  else None.

(** The [INSERT .. ON CONFLICT DO UPDATE] of the registration. *)
Definition upsert_registration (k : string * string) (token : string) (platform : option string)
    (now : Z) : PushTx unit :=
  d ← tx_get id;
  let row :=
    {| rg_fcm_token := token; rg_platform := platform;
       rg_created_at := match registrations d !! k with Some r => rg_created_at r | None => now end;
       rg_updated_at := now; rg_last_seen_at := now;
       rg_disabled_at := None; rg_disabled_reason := None |} in
  push_require (bool_decide (map_Forall (λ k' r, k' = k ∨ rg_fcm_token r <> token) (registrations d))
    && check_registration row);;
  tx_put (λ d, set_registrations (<[k := row]> (registrations d)) d).

(** The writes of an admission. *)
Definition write_registration (recipient : string) (request : RegisterInstallationRequest)
    (s : Situation) (now : Z) : PushTx unit :=
  let token := rq_fcm_token request in
  let installation := rq_installation_id request in
  (if st_token_registration_is_other_route s then
     tx_put (λ d, set_registrations
       (keep_where (λ _ r, negb (bool_decide (rg_fcm_token r = token))) (registrations d)) d)
   else mret tt);;
  (if st_releases_target_old_owner s then
     tx_put (λ d, set_token_owners
       (keep_where (λ t o, negb (bool_decide (Some t = rg_fcm_token <$> st_target s)
                                 && bool_decide (ow_recipient_id o = recipient)
                                 && bool_decide (ow_installation_id o = installation)))
          (token_owners d)) d)
   else mret tt);;
  upsert_registration (recipient, installation) token (rq_platform request) now;;
  tx_put (λ d, set_token_owners (<[token :=
    {| ow_recipient_id := recipient; ow_installation_id := installation;
       ow_updated_at := now |}]> (token_owners d)) d).

(** [admit_installation]. *)
Definition admit_installation (recipient : string) (request : RegisterInstallationRequest)
    (e : RegistrationEligibility) (limits : RegistrationAdmissionLimits) (now : Z)
  : Pool RegistrationAdmissionOutcome :=
  in_tx (
    acquire_admission_lock "registration" now;;
    purge_stale_in_transaction (cutoff_timestamp e) (rl_reclamation_batch_size limits);;
    d ← tx_get id;
    let s := situation recipient request e d in
    if ownership_conflict recipient (rq_installation_id request) s
    then mret (Rollback TokenBoundToDifferentInstallation)
    else
      match exceeded_ceiling recipient e limits s d with
      | Some outcome => mret (Rollback outcome)
      | None => write_registration recipient request s now;; mret (Commit Registered)
      end).

(** [list_for_recipient], [eligible_installation] and its transactional
    variants. *)
Definition eligible_installations_for_recipient (recipient : string)
    (e : RegistrationEligibility) (d : PushDb) : list PushRegistration :=
  row_to_registration <$>
    select_by (λ k r, bool_decide (k.1 = recipient) && registration_row_is_active r e)
      (λ k _, (0, 0, k.2)) (registrations d).
Definition eligible_installation (recipient installation : string)
    (e : RegistrationEligibility) (d : PushDb) : option PushRegistration :=
  match registrations d !! (recipient, installation) with
  | Some r =>
      if registration_row_is_active r e
      then Some (row_to_registration (recipient, installation, r)) else None
  | None => None
  end.

(** [row_metrics]. *)
Definition registration_row_metrics (e : RegistrationEligibility) (d : PushDb)
  : RegistrationRowMetrics :=
  let n := Z.of_nat (size (registrations d)) in
  let owners := Z.of_nat (size (token_owners d)) in
  {| rm_total := saturating_add_i64 n owners;
     rm_registrations := n;
     rm_token_owners := owners;
     rm_orphaned_token_owners := count_where (λ t _, orphaned d t) (token_owners d);
     rm_active := count_where (λ _ r, registration_row_is_active r e) (registrations d);
     rm_disabled := count_where (λ _ r, bool_decide (is_Some (rg_disabled_at r))) (registrations d);
     rm_stale := count_where (λ _ r, bool_decide (rg_disabled_at r = None)
                   && (rg_last_seen_at r <? cutoff_timestamp e)) (registrations d) |}.

(** [delete_installation]. *)
Definition delete_installation (recipient installation : string) (now : Z) : Pool bool :=
  in_tx (
    acquire_admission_lock "registration" now;;
    d ← tx_get id;
    let owned (_ : string) o := bool_decide (ow_recipient_id o = recipient)
                                && bool_decide (ow_installation_id o = installation) in
    tx_put (λ d, set_registrations (delete (recipient, installation) (registrations d)) d);;
    tx_put (λ d, set_token_owners (keep_where (λ t o, negb (owned t o)) (token_owners d)) d);;
    mret (Commit (bool_decide (is_Some (registrations d !! (recipient, installation)))
                  || (0 <? count_where owned (token_owners d))))).

(** [disable_installation] and [disable_installation_if_token_matches]. *)
Definition disable_where (p : RegistrationCols -> bool) (k : string * string)
    (reason : option string) (now : Z) : PushTx bool :=
  d ← tx_get id;
  match registrations d !! k with
  | Some r =>
      if p r then
        push_require (check_registration (disable now reason r));;
        tx_put (λ d, set_registrations (<[k := disable now reason r]> (registrations d)) d);;
        mret true
      else mret false
  | None => mret false
  end.
Definition disable_installation (recipient installation : string) (reason : option string)
    (now : Z) : Pool bool :=
  on_pool (disable_where (λ _, true) (recipient, installation) reason now).
Definition disable_installation_if_token_matches (recipient installation token : string)
    (reason : option string) (now : Z) : Pool bool :=
  on_pool (disable_where (λ r, bool_decide (rg_fcm_token r = token)) (recipient, installation)
    reason now).

End Repository.

(** ** One route per token *)

(** No two registrations share a token, and the token's owner row names the
    registration that uses it. *)
Definition routes_ok (d : PushDb) : Prop :=
  (∀ k k' r r', registrations d !! k = Some r → registrations d !! k' = Some r' →
     rg_fcm_token r = rg_fcm_token r' → k = k') ∧
  (∀ k r, registrations d !! k = Some r →
     ∃ o, token_owners d !! rg_fcm_token r = Some o ∧
          (ow_recipient_id o, ow_installation_id o) = k).

Definition routes_rel (d d' : PushDb) : Prop := routes_ok d → routes_ok d'.
#[global] Instance routes_rel_preorder : PreOrder routes_rel.
Proof. split; unfold routes_rel; [by intros ?|]. intros ???; auto. Qed.

(** Removing registrations, or rewriting one without its token, keeps it. *)
Lemma routes_ok_sub d d' :
  token_owners d' = token_owners d →
  (∀ k r', registrations d' !! k = Some r' →
     ∃ r, registrations d !! k = Some r ∧ rg_fcm_token r = rg_fcm_token r') →
  routes_rel d d'.
Proof.
  intros Ho Hsub [Huniq Hown]. split.
  - intros k k' r r' (x & Hx & Ex)%Hsub (y & Hy & Ey)%Hsub Heq.
    eapply Huniq; [done..|]. congruence.
  - intros k r (x & Hx & <-)%Hsub. rewrite Ho. by apply Hown.
Qed.

(** Removing owners no registration needs keeps it. *)
Lemma routes_ok_owners d d' :
  registrations d' = registrations d →
  (∀ k r, registrations d !! k = Some r →
     token_owners d' !! rg_fcm_token r = token_owners d !! rg_fcm_token r) →
  routes_rel d d'.
Proof.
  intros Hr Ho [Huniq Hown]. split; rewrite Hr; [done|].
  intros k r Hk. rewrite (Ho _ _ Hk). by apply Hown.
Qed.

Lemma by_token_Some token d k r :
  by_token token d = Some (k, r) → registrations d !! k = Some r ∧ rg_fcm_token r = token.
Proof.
  unfold by_token. intros Hh%head_Some_elem_of.
  apply list_elem_of_filter in Hh as [Ht Hm]. by apply elem_of_map_to_list in Hm.
Qed.

Lemma by_token_None token d k r :
  by_token token d = None → registrations d !! k = Some r → rg_fcm_token r <> token.
Proof.
  unfold by_token. intros Hh%head_None Hk Ht.
  assert ((k, r) ∈ filter (λ kr, rg_fcm_token kr.2 = token) (map_to_list (registrations d))) as Hin.
  { apply list_elem_of_filter. by rewrite elem_of_map_to_list. }
  rewrite Hh in Hin. by apply elem_of_nil in Hin.
Qed.

Section Routes.
Context `{Scan}.

Lemma acquire_routes resource now : tx_rel routes_rel (acquire_admission_lock resource now).
Proof.
  unfold acquire_admission_lock. tx_rel_auto. apply routes_ok_sub; [done|]. cbn. eauto.
Qed.

Lemma purge_owners_routes cutoff n :
  tx_rel routes_rel (purge_orphaned_token_owners_in_transaction cutoff n).
Proof.
  unfold purge_orphaned_token_owners_in_transaction. tx_rel_auto.
  apply routes_ok_owners; [done|]. intros k r Hk. cbn.
  assert (rg_fcm_token r ∉ orphaned_batch cutoff n s) as Hno.
  { intros ([t o] & Ht & Hin)%list_elem_of_fmap.
    apply elem_of_limit, elem_of_select_by in Hin as [_ [_ Hp%bool_decide_eq_true]%andb_true_iff].
    cbn in *. subst t. by apply (Hp k r Hk). }
  unfold keep_where. destruct (token_owners s !! rg_fcm_token r) as [o|] eqn:Ho.
  - apply map_lookup_filter_Some. split; [done|]. cbn. by rewrite bool_decide_eq_false_2.
  - apply map_lookup_filter_None. by left.
Qed.

Lemma purge_stale_tx_routes cutoff n : tx_rel routes_rel (purge_stale_in_transaction cutoff n).
Proof.
  unfold purge_stale_in_transaction. tx_rel_auto; [|apply purge_owners_routes].
  apply routes_ok_sub; [done|]. cbn. intros k r' [Hk _]%lookup_keep_where. eauto.
Qed.

(** Deleting by token deletes the one registration that has it. *)
Lemma keep_token_delete d token k r :
  routes_ok d → registrations d !! k = Some r → rg_fcm_token r = token →
  keep_where (λ _ r, negb (bool_decide (rg_fcm_token r = token))) (registrations d) =
  delete k (registrations d).
Proof.
  intros [Huniq _] Hk Ht. apply map_eq. intros k'. unfold keep_where.
  destruct (decide (k' = k)) as [->|Hne].
  - rewrite lookup_delete_eq. apply map_lookup_filter_None. right. intros x Hx.
    rewrite Hk in Hx. simplify_eq. cbn. by rewrite bool_decide_eq_true_2.
  - rewrite lookup_delete_ne by done. destruct (registrations d !! k') as [r'|] eqn:Hk'.
    + apply map_lookup_filter_Some. split; [done|]. cbn. rewrite bool_decide_eq_false_2; [done|].
      intros Heq. apply Hne. eapply Huniq; [done..|]. congruence.
    + apply map_lookup_filter_None. by left.
Qed.

Lemma keep_owner_delete (t : gmap string OwnerCols) token o x y :
  t !! token = Some o → ow_recipient_id o = x → ow_installation_id o = y →
  keep_where (λ t o, negb (bool_decide (Some t = Some token) && bool_decide (ow_recipient_id o = x)
                           && bool_decide (ow_installation_id o = y))) t = delete token t.
Proof.
  intros Hk <- <-. apply map_eq. intros k'. unfold keep_where.
  destruct (decide (k' = token)) as [->|Hne].
  - rewrite lookup_delete_eq. apply map_lookup_filter_None. right. intros z Hz.
    rewrite Hk in Hz. simplify_eq. cbn. by rewrite !bool_decide_eq_true_2.
  - rewrite lookup_delete_ne by done. destruct (t !! k') as [o'|] eqn:Hk'.
    + apply map_lookup_filter_Some. split; [done|]. cbn.
      by rewrite (bool_decide_eq_false_2 (Some k' = Some token)) by congruence.
    + apply map_lookup_filter_None. by left.
Qed.

(** The tables an admission leaves. *)
Lemma write_registration_Ok recipient request e now d d' u :
  let s := situation recipient request e d in
  let k := (recipient, rq_installation_id request) in
  routes_ok d → write_registration recipient request s now d = Ok (d', u) →
  ∃ row,
    registrations d' = <[k := row]>
      (match by_token (rq_fcm_token request) d with
       | Some (k0, _) => if st_token_registration_is_other_route s
                         then delete k0 (registrations d) else registrations d
       | None => registrations d
       end) ∧
    rg_fcm_token row = rq_fcm_token request ∧ rg_disabled_at row = None ∧
    rg_last_seen_at row = now ∧
    token_owners d' = <[rq_fcm_token request :=
        {| ow_recipient_id := recipient; ow_installation_id := rq_installation_id request;
           ow_updated_at := now |}]>
      (match st_target s with
       | Some r => if st_releases_target_old_owner s
                   then delete (rg_fcm_token r) (token_owners d) else token_owners d
       | None => token_owners d
       end) ∧
    hooks d' = hooks d ∧ events d' = events d ∧ outbox d' = outbox d ∧
    tombstones d' = tombstones d.
Proof.
  intros s k Hok. unfold write_registration.
  set (R1 := match by_token (rq_fcm_token request) d with
             | Some (k0, _) => if st_token_registration_is_other_route s
                               then delete k0 (registrations d) else registrations d
             | None => registrations d end).
  set (O1 := match st_target s with
             | Some r => if st_releases_target_old_owner s
                         then delete (rg_fcm_token r) (token_owners d) else token_owners d
             | None => token_owners d end).
  assert ((if st_token_registration_is_other_route s then
     tx_put (λ d, set_registrations
       (keep_where (λ _ r, negb (bool_decide (rg_fcm_token r = rq_fcm_token request)))
          (registrations d)) d)
     else mret tt : PushTx unit) d = Ok (set_registrations R1 d, tt)) as H1.
  { unfold R1. destruct (by_token _ d) as [[k0 r0]|] eqn:Hb.
    - apply by_token_Some in Hb as [Hk0 Ht0].
      destruct (st_token_registration_is_other_route s); [|by destruct d].
      unfold tx_put. by rewrite (keep_token_delete d _ k0 r0).
    - replace (st_token_registration_is_other_route s) with false; [by destruct d|].
      unfold s, situation. cbn. by rewrite Hb. }
  rewrite (tx_bind_eq _ _ _ _ _ H1). clear H1.
  set (d1 := set_registrations R1 d).
  assert ((if st_releases_target_old_owner s then
     tx_put (λ d, set_token_owners
       (keep_where (λ t o, negb (bool_decide (Some t = rg_fcm_token <$> st_target s)
          && bool_decide (ow_recipient_id o = recipient)
          && bool_decide (ow_installation_id o = rq_installation_id request)))
          (token_owners d)) d)
     else mret tt : PushTx unit) d1 = Ok (set_token_owners O1 d1, tt)) as H2.
  { unfold O1. destruct (st_releases_target_old_owner s) eqn:Hrel.
    - revert Hrel. unfold s, situation. cbn.
      destruct (registrations d !! (recipient, _)) as [r|]; [|done].
      case_bool_decide; [done|]. unfold token_owner_matches_installation.
      destruct (token_owners d !! rg_fcm_token r) as [o|] eqn:Ho; [|done].
      intros [Hx%bool_decide_eq_true Hy%bool_decide_eq_true]%andb_true_iff.
      unfold tx_put. cbn. by rewrite (keep_owner_delete _ _ o).
    - destruct (st_target s); by destruct d. }
  rewrite (tx_bind_eq _ _ _ _ _ H2). clear H2. unfold upsert_registration.
  intros H3. apply tx_bind_Ok in H3 as (d2 & u2 & H3 & H4).
  apply tx_bind_Ok in H3 as (d3 & u3 & H3 & H5). unfold tx_get in H3. simplify_eq/=.
  apply tx_bind_Ok in H5 as (d4 & u4 & [-> _]%push_require_Ok & H5).
  unfold tx_put in H4, H5. simplify_eq/=. by eexists.
Qed.

Lemma other_route_key recipient request e d k r :
  by_token (rq_fcm_token request) d = Some (k, r) →
  st_token_registration_is_other_route (situation recipient request e d) =
  negb (bool_decide (k = (recipient, rq_installation_id request))).
Proof.
  intros Hb. unfold situation. cbn. rewrite Hb. destruct k as [x y]. cbn.
  repeat case_bool_decide; simplify_eq; done.
Qed.

Lemma write_registration_routes recipient request e now d d' u :
  routes_ok d → write_registration recipient request (situation recipient request e d) now d
    = Ok (d', u) → routes_ok d'.
Proof.
  intros Hok Hw. destruct (write_registration_Ok _ _ _ _ _ _ _ Hok Hw)
    as (row & HR & Ht & _ & _ & HO & _).
  set (k := (recipient, rq_installation_id request)) in *.
  assert (∀ k' r', k' <> k → registrations d' !! k' = Some r' →
    registrations d !! k' = Some r' ∧ rg_fcm_token r' <> rq_fcm_token request) as Hold.
  { intros k' r' Hne. rewrite HR, lookup_insert_ne by done.
    destruct (by_token _ d) as [[k0 r0]|] eqn:Hb.
    - rewrite (other_route_key _ _ _ _ _ _ Hb). apply by_token_Some in Hb as [Hk0 Ht0].
      case_bool_decide as Hk; cbn.
      + intros Hk'. split; [done|]. intros Heq. apply Hne.
        etrans; [|exact Hk]. eapply (proj1 Hok); [done..|congruence].
      + intros [Hne0 Hk']%lookup_delete_Some. split; [done|]. intros Heq. apply Hne0.
        eapply (proj1 Hok); [done..|congruence].
    - intros Hk'. split; [done|]. by eapply by_token_None. }
  assert (registrations d' !! k = Some row) as Hk by by rewrite HR, lookup_insert_eq.
  split.
  - intros k1 k2 r1 r2 H1 H2 Heq. destruct (decide (k1 = k)) as [->|H1'], (decide (k2 = k)) as [->|H2'].
    + done.
    + destruct (Hold k2 r2 H2' H2). rewrite Hk in H1. simplify_eq. congruence.
    + destruct (Hold k1 r1 H1' H1). rewrite Hk in H2. simplify_eq. congruence.
    + destruct (Hold k1 r1 H1' H1), (Hold k2 r2 H2' H2). by eapply (proj1 Hok).
  - intros k1 r1 H1. rewrite HO. destruct (decide (k1 = k)) as [->|H1'].
    + rewrite Hk in H1. simplify_eq. rewrite Ht, lookup_insert_eq. by eexists.
    + destruct (Hold k1 r1 H1' H1) as [Hd1 Ht1]. rewrite lookup_insert_ne by done.
      cbn [st_target situation]. fold k. destruct (registrations d !! k) as [rt|] eqn:Htg;
        [|by apply (proj2 Hok)].
      destruct (st_releases_target_old_owner _); [|by apply (proj2 Hok)].
      rewrite lookup_delete_ne; [by apply (proj2 Hok)|].
      intros Heq. apply H1'. by eapply (proj1 Hok).
Qed.

Lemma admit_routes recipient request e limits now :
  pool_rel routes_rel (admit_installation recipient request e limits now).
Proof.
  unfold admit_installation. apply pool_rel_in_tx; [apply _|].
  apply tx_rel_bind; [apply _|apply acquire_routes|intros _].
  apply tx_rel_bind; [apply _|apply purge_stale_tx_routes|intros _].
  intros d d' v Hrun Hok. rewrite (tx_bind_eq _ _ d d d eq_refl) in Hrun. cbn [id] in Hrun.
  case_match; [by unfold mret, tx_ret in Hrun; simplify_eq|].
  case_match; [by unfold mret, tx_ret in Hrun; simplify_eq|].
  apply tx_bind_Ok in Hrun as (d1 & u & Hw & Hr). unfold mret, tx_ret in Hr. simplify_eq.
  by eapply write_registration_routes.
Qed.

(** ** The projected counts are the resulting counts *)

Definition removed_by (p : string * string -> RegistrationCols -> bool) (k : string * string)
    (s : Situation) : Z :=
  match st_target s with Some r => Z.b2z (p k r) | None => 0 end
  + match st_token_registration s with
    | Some (k0, r0) => Z.b2z (st_token_registration_is_other_route s && p k0 r0)
    | None => 0
    end.

Lemma registrations_after recipient request e now d d' u p :
  let s := situation recipient request e d in
  let k := (recipient, rq_installation_id request) in
  routes_ok d → write_registration recipient request s now d = Ok (d', u) →
  (∀ row, rg_disabled_at row = None → rg_last_seen_at row = now → p k row = true) →
  count_where p (registrations d') = count_where p (registrations d) - removed_by p k s + 1.
Proof.
  intros s k Hok Hw Hp. destruct (write_registration_Ok _ _ _ _ _ _ _ Hok Hw)
    as (row & -> & _ & Hdis & Hseen & _). fold s k.
  rewrite count_where_insert, (Hp row Hdis Hseen). unfold removed_by, s.
  cbn [st_target st_token_registration situation]. fold k.
  destruct (by_token _ d) as [[k0 r0]|] eqn:Hb.
  - rewrite (other_route_key _ _ _ _ _ _ Hb). fold k. apply by_token_Some in Hb as [Hk0 _].
    case_bool_decide as Hk; cbn [negb andb].
    + rewrite (count_where_delete_opt p (registrations d) k). cbn. lia.
    + rewrite (count_where_delete p (registrations d) k0 r0 Hk0).
      rewrite (count_where_delete_opt p (delete k0 (registrations d)) k).
      rewrite lookup_delete_ne by done. cbn. lia.
  - rewrite (count_where_delete_opt p (registrations d) k). cbn. lia.
Qed.

Lemma owners_after recipient request e now d d' u :
  let s := situation recipient request e d in
  routes_ok d → write_registration recipient request s now d = Ok (d', u) →
  Z.of_nat (size (token_owners d')) =
    Z.of_nat (size (token_owners d)) - Z.b2z (st_releases_target_old_owner s)
    + Z.b2z (bool_decide (st_token_owner s = None)).
Proof.
  intros s Hok Hw. destruct (write_registration_Ok _ _ _ _ _ _ _ Hok Hw)
    as (row & _ & _ & _ & _ & -> & _). fold s. rewrite !size_count, count_where_insert.
  assert (st_token_owner s = token_owners d !! rq_fcm_token request) as -> by done.
  assert (∀ m : gmap string OwnerCols,
    count_where (λ _ _, true) (delete (rq_fcm_token request) m) =
    count_where (λ _ _, true) m - Z.b2z (bool_decide (is_Some (m !! rq_fcm_token request)))) as Hdel.
  { intros m. rewrite (count_where_delete_opt _ m (rq_fcm_token request)).
    destruct (m !! _); cbn; lia. }
  rewrite Hdel. destruct (st_releases_target_old_owner s) eqn:Hrel.
  - revert Hrel. unfold s, situation. cbn.
    destruct (registrations d !! (recipient, _)) as [r|]; [|done].
    case_bool_decide as Hne; [done|]. unfold token_owner_matches_installation.
    destruct (token_owners d !! rg_fcm_token r) as [o|] eqn:Ho; [|done]. intros _.
    rewrite lookup_delete_ne by done. rewrite (count_where_delete _ _ _ _ Ho).
    destruct (token_owners d !! rq_fcm_token request); cbn; lia.
  - destruct (st_target s), (token_owners d !! rq_fcm_token request); cbn; lia.
Qed.

Lemma acquire_sizes resource now d d' u :
  acquire_admission_lock resource now d = Ok (d', u) →
  registrations d' = registrations d ∧ token_owners d' = token_owners d.
Proof.
  unfold acquire_admission_lock. intros Ht. rewrite (tx_bind_eq _ _ d d d eq_refl) in Ht.
  case_bool_decide; [|done]. apply tx_bind_Ok in Ht as (d1 & u1 & [-> _]%push_require_Ok & Ht).
  unfold tx_put in Ht. by simplify_eq.
Qed.

Lemma purge_owners_sizes cutoff n d d' u :
  purge_orphaned_token_owners_in_transaction cutoff n d = Ok (d', u) →
  registrations d' = registrations d ∧
  Z.of_nat (size (token_owners d')) <= Z.of_nat (size (token_owners d)).
Proof.
  unfold purge_orphaned_token_owners_in_transaction. intros Ht.
  case_match; [unfold mret, tx_ret in Ht; simplify_eq; split; [done|lia]|].
  rewrite (tx_bind_eq _ _ d d d eq_refl) in Ht.
  apply tx_bind_Ok in Ht as (d1 & u1 & H1 & Ht). unfold tx_put in H1.
  unfold mret, tx_ret in Ht. simplify_eq. split; [done|]. apply keep_where_size.
Qed.

Lemma purge_stale_sizes cutoff n d d' u :
  purge_stale_in_transaction cutoff n d = Ok (d', u) →
  Z.of_nat (size (registrations d')) <= Z.of_nat (size (registrations d)) ∧
  Z.of_nat (size (token_owners d')) <= Z.of_nat (size (token_owners d)).
Proof.
  unfold purge_stale_in_transaction. intros Ht.
  case_match; [unfold mret, tx_ret in Ht; simplify_eq; split; lia|].
  rewrite (tx_bind_eq _ _ d d d eq_refl) in Ht.
  apply tx_bind_Ok in Ht as (d1 & u1 & H1 & Ht). unfold tx_put in H1. simplify_eq.
  apply tx_bind_Ok in Ht as (d2 & u2 & [Hr Ho]%purge_owners_sizes & Ht).
  unfold mret, tx_ret in Ht. simplify_eq. rewrite Hr. split; [apply keep_where_size|done].
Qed.

(** A registered installation went through the writes, from a database that
    the reclamation left no larger and just as consistent. *)
Lemma admit_registered recipient request e limits now d d' :
  routes_ok d → admit_installation recipient request e limits now d = (d', Ok Registered) →
  ∃ d1 u, let s := situation recipient request e d1 in
    routes_ok d1 ∧
    Z.of_nat (size (registrations d1)) <= Z.of_nat (size (registrations d)) ∧
    Z.of_nat (size (token_owners d1)) <= Z.of_nat (size (token_owners d)) ∧
    ownership_conflict recipient (rq_installation_id request) s = false ∧
    exceeded_ceiling recipient e limits s d1 = None ∧
    write_registration recipient request s now d1 = Ok (d', u).
Proof.
  intros Hok. unfold admit_installation, in_tx.
  match goal with |- context [match ?t d with _ => _ end] => destruct (t d) as [[d2 v]|err|] eqn:Ht end;
    [|done..].
  apply tx_bind_Ok in Ht as (da & ua & Ha & Ht). apply tx_bind_Ok in Ht as (db & ub & Hb & Ht).
  rewrite (tx_bind_eq _ _ db db db eq_refl) in Ht. cbn [id] in Ht.
  destruct (ownership_conflict _ _ _) eqn:Hconf; [by unfold mret, tx_ret in Ht; simplify_eq|].
  destruct (exceeded_ceiling _ _ _ _ _) eqn:Hceil.
  { unfold mret, tx_ret in Ht. simplify_eq. intros [= -> ->].
    revert Hceil. unfold exceeded_ceiling. by repeat case_match. }
  apply tx_bind_Ok in Ht as (dc & uc & Hw & Ht). unfold mret, tx_ret in Ht. simplify_eq.
  intros [= <-]. exists db, uc. split_and!; try done.
  - eapply purge_stale_tx_routes; [done|]. by eapply acquire_routes.
  - rewrite <- (proj1 (acquire_sizes _ _ _ _ _ Ha)). by eapply purge_stale_sizes.
  - rewrite <- (proj2 (acquire_sizes _ _ _ _ _ Ha)). by eapply purge_stale_sizes.
Qed.

(** The ceilings in terms of the projections. *)
Lemma ceilings_tested recipient e limits s d :
  exceeded_ceiling recipient e limits s d = None →
  (0 < rl_max_active_per_recipient limits →
     add_u64 (sub_u64 (active_registration_count (Some recipient) (cutoff_timestamp e) d)
       (st_removed_recipient_active s)) 1 <= rl_max_active_per_recipient limits) ∧
  (0 < rl_max_active_global limits →
     add_u64 (sub_u64 (active_registration_count None (cutoff_timestamp e) d)
       (st_removed_global_active s)) 1 <= rl_max_active_global limits) ∧
  (0 < rl_max_total_rows limits →
     add_u64 (sub_u64 (physical_registration_count d)
                (Z.b2z (st_token_registration_is_other_route s)
                 + Z.b2z (st_releases_target_old_owner s)))
             (Z.b2z (bool_decide (st_target s = None))
              + Z.b2z (bool_decide (st_token_owner s = None))) <= rl_max_total_rows limits).
Proof.
  unfold exceeded_ceiling.
  case_match eqn:H1; [done|]. case_match eqn:H2; [done|]. case_match eqn:H3; [done|]. intros _.
  apply andb_false_iff in H1, H2, H3. rewrite !Z.ltb_ge in *. split_and!; intros; lia.
Qed.

Lemma active_after_recipient recipient request e now d d' u :
  let s := situation recipient request e d in
  routes_ok d → write_registration recipient request s now d = Ok (d', u) →
  cutoff_timestamp e <= now →
  active_registration_count (Some recipient) (cutoff_timestamp e) d' =
  active_registration_count (Some recipient) (cutoff_timestamp e) d
    - st_removed_recipient_active s + 1.
Proof.
  intros s Hok Hw Hnow. unfold active_registration_count.
  rewrite (registrations_after _ _ _ _ _ _ _ _ Hok Hw).
  - f_equal. f_equal. unfold removed_by, s. cbn. destruct e as [c]. cbn. f_equal.
    + destruct (registrations d !! _); [|done]. by rewrite bool_decide_eq_true_2.
    + destruct (by_token _ d) as [[k0 r0]|]; [|done]. by rewrite andb_assoc.
  - intros row Hdis Hseen. cbn. rewrite bool_decide_eq_true_2 by done.
    unfold registration_row_is_active. rewrite Hdis, Hseen. cbn. by apply Z.leb_le.
Qed.

Lemma active_after_global recipient request e now d d' u :
  let s := situation recipient request e d in
  routes_ok d → write_registration recipient request s now d = Ok (d', u) →
  cutoff_timestamp e <= now →
  active_registration_count None (cutoff_timestamp e) d' =
  active_registration_count None (cutoff_timestamp e) d - st_removed_global_active s + 1.
Proof.
  intros s Hok Hw Hnow. unfold active_registration_count.
  rewrite (registrations_after _ _ _ _ _ _ _ _ Hok Hw).
  - f_equal. f_equal. unfold removed_by, s. cbn. destruct e as [c]. cbn. f_equal.
    + by destruct (registrations d !! _).
    + by destruct (by_token _ d) as [[k0 r0]|].
  - intros row Hdis Hseen. cbn.
    unfold registration_row_is_active. rewrite Hdis, Hseen. cbn. by apply Z.leb_le.
Qed.

Lemma rows_after recipient request e now d d' u :
  let s := situation recipient request e d in
  routes_ok d → write_registration recipient request s now d = Ok (d', u) →
  Z.of_nat (size (registrations d')) + Z.of_nat (size (token_owners d')) =
  Z.of_nat (size (registrations d)) + Z.of_nat (size (token_owners d))
  - (Z.b2z (st_token_registration_is_other_route s) + Z.b2z (st_releases_target_old_owner s))
  + (Z.b2z (bool_decide (st_target s = None)) + Z.b2z (bool_decide (st_token_owner s = None))).
Proof.
  intros s Hok Hw. rewrite (owners_after _ _ _ _ _ _ _ Hok Hw). fold s.
  rewrite !(size_count (registrations _)), (registrations_after _ _ _ _ _ _ _ _ Hok Hw) by done.
  fold s. unfold removed_by.
  assert (st_token_registration s = None → st_token_registration_is_other_route s = false) as Hno.
  { unfold s. cbn. by intros ->. }
  revert Hno. destruct (st_target s), (st_token_registration s) as [[? ?]|]; intros Hno;
    rewrite ?andb_true_r; try rewrite (Hno eq_refl); cbn [Z.b2z]; 
    first [rewrite (bool_decide_eq_false_2 (Some _ = None)) by done
          |rewrite (bool_decide_eq_true_2 (None = None)) by done]; cbn [Z.b2z]; lia.
Qed.

Lemma b2z_nonneg b : 0 <= Z.b2z b.
Proof. by destruct b. Qed.

Lemma active_bounds recipient c d :
  0 <= active_registration_count recipient c d <= Z.of_nat (size (registrations d)).
Proof. apply count_where_size. Qed.

Lemma removed_nonneg recipient request e d :
  let s := situation recipient request e d in
  0 <= st_removed_recipient_active s ∧ 0 <= st_removed_global_active s.
Proof. split; apply Z.add_nonneg_nonneg; apply b2z_nonneg. Qed.

(** registration respects every configured ceiling.  When an installation is
    registered, the active installations of its recipient, the active
    installations of the gateway and the physical rows stay within the
    limits, and the installation is eligible with the token it sent. *)
Theorem registration_respects_ceilings recipient request e limits now d d'
    (Hroutes : routes_ok d)
    (Hadmit : admit_installation recipient request e limits now d = (d', Ok Registered))
    (Hnow : cutoff_timestamp e <= now)
    (Hsize : Z.of_nat (size (registrations d)) + Z.of_nat (size (token_owners d)) < 2 ^ 62) :
  (0 < rl_max_active_per_recipient limits →
     active_registration_count (Some recipient) (cutoff_timestamp e) d' <=
       rl_max_active_per_recipient limits) ∧
  (0 < rl_max_active_global limits →
     active_registration_count None (cutoff_timestamp e) d' <= rl_max_active_global limits) ∧
  (0 < rl_max_total_rows limits →
     physical_registration_count d' <= rl_max_total_rows limits) ∧
  pr_fcm_token <$> eligible_installation recipient (rq_installation_id request) e d' =
    Some (rq_fcm_token request).
Proof.
  destruct (admit_registered _ _ _ _ _ _ _ Hroutes Hadmit)
    as (d1 & u & Hok & Hs1 & Hs2 & _ & Hceil & Hw).
  destruct (ceilings_tested _ _ _ _ _ Hceil) as (Hrec & Hglob & Hrows).
  pose proof (active_bounds (Some recipient) (cutoff_timestamp e) d1) as B1.
  pose proof (active_bounds None (cutoff_timestamp e) d1) as B2.
  pose proof (removed_nonneg recipient request e d1) as [N1 N2].
  split_and!.
  - intros Hpos. specialize (Hrec Hpos).
    rewrite (active_after_recipient _ _ _ _ _ _ _ Hok Hw Hnow). revert Hrec.
    unfold add_u64, sub_u64, saturating_add_u, u64_max. lia.
  - intros Hpos. specialize (Hglob Hpos).
    rewrite (active_after_global _ _ _ _ _ _ _ Hok Hw Hnow). revert Hglob.
    unfold add_u64, sub_u64, saturating_add_u, u64_max. lia.
  - intros Hpos. specialize (Hrows Hpos).
    pose proof (rows_after _ _ _ _ _ _ _ Hok Hw) as Hafter. revert Hrows.
    unfold physical_registration_count, add_u64, sub_u64, saturating_add_u, saturating_add_i64,
      u64_max, i64_max, i64_min in *. lia.
  - destruct (write_registration_Ok _ _ _ _ _ _ _ Hok Hw) as (row & HR & Ht & Hdis & Hseen & _).
    unfold eligible_installation, registration_row_is_active. rewrite HR, lookup_insert_eq, Hdis, Hseen.
    rewrite (proj2 (Z.leb_le _ _) Hnow). cbn. by rewrite Ht.
Qed.

End Routes.
End Registrations.
