(* ===== verification/PushLimits.v ===== *)
(** * Process-local rate limits ([crates/push-gateway/src/rate_limits.rs])

    Fixed-window counters per limiter family and key, with a bounded number of
    keys per family, and the trusted-proxy address blocks.  The theorems show
    how many requests a key can be granted in any stretch of time, that
    families do not affect each other, and that an address block contains
    exactly the addresses that agree on the prefix. *)

From S2P Require Import Prelude PushSchema.
From stdpp Require Import base gmap strings list countable sorting.
From Stdlib Require Import ZArith Lia.
Open Scope Z_scope.

Module Limits.

Inductive RateLimitFamily :=
| AuthSource
| RegistrationSource
| RegistrationRecipientSource
| HookInvocationSource
| HookInvocationHook
| HookCreationRecipient.

#[global] Instance RateLimitFamily_eq_dec : EqDecision RateLimitFamily.
Proof. solve_decision. Defined.
#[global] Instance RateLimitFamily_countable : Countable RateLimitFamily.
Proof.
  refine (inj_countable'
    (λ f, match f with AuthSource => 0%nat | RegistrationSource => 1%nat
          | RegistrationRecipientSource => 2%nat | HookInvocationSource => 3%nat
          | HookInvocationHook => 4%nat | HookCreationRecipient => 5%nat end)
    (λ n, match n with 0%nat => AuthSource | 1%nat => RegistrationSource
          | 2%nat => RegistrationRecipientSource | 3%nat => HookInvocationSource
          | 4%nat => HookInvocationHook | _ => HookCreationRecipient end) _).
  by intros [].
Defined.

Definition DEFAULT_LIMITER_FAMILY_CAPACITY : Z := 100000.

Record FixedWindow := { fw_started_at : Z; fw_window_seconds : Z; fw_count : Z }.

(** [RateLimitState]. *)
Abbreviation Windows := (gmap string FixedWindow).
Abbreviation RateLimitState := (gmap RateLimitFamily Windows).

(** A window is live until its own length has passed. *)
Definition live (now : Z) (w : FixedWindow) : bool :=
  now <? saturating_add_i64 (fw_started_at w) (fw_window_seconds w).

(** [RateLimiters::check] on the windows of one family, after the two early
    returns on zero. *)
Definition check_windows (capacity : Z) (key : string) (max_requests window_seconds now : Z)
    (ws : Windows) : Windows * bool :=
  let window_seconds := i64_or_max window_seconds in
  let ws := keep_where (λ _ w, live now w) ws in
  if bool_decide (ws !! key = None) && (capacity <=? Z.of_nat (size ws)) then (ws, false)
  else
    let w := default {| fw_started_at := now; fw_window_seconds := window_seconds; fw_count := 0 |}
               (ws !! key) in
    let w := if saturating_add_i64 (fw_started_at w) window_seconds <=? now
             then {| fw_started_at := now; fw_window_seconds := window_seconds; fw_count := 0 |}
             else w in
    if max_requests <=? fw_count w then (<[key := w]> ws, false)
    else
      (<[key := {| fw_started_at := fw_started_at w; fw_window_seconds := fw_window_seconds w;
                   fw_count := fw_count w + 1 |}]> ws, true).

(** [RateLimiters::check]. *)
Definition check (capacity : Z) (family : RateLimitFamily) (key : string)
    (max_requests window_seconds now : Z) (s : RateLimitState) : RateLimitState * bool :=
  if (max_requests =? 0) || (window_seconds =? 0) then (s, true)
  else
    let '(ws, ok) :=
      check_windows capacity key max_requests window_seconds now (default ∅ (s !! family)) in
    (<[family := ws]> s, ok).

(** ** Trusted proxies *)

Inductive IpAddr := V4 (bits : Z) | V6 (bits : Z).
Inductive IpCidr := CidrV4 (network prefix : Z) | CidrV6 (network prefix : Z).

(** [v4_mask] and [v6_mask]: [MAX << (width - prefix)] at its width. *)
Definition mask (width prefix : Z) : Z :=
  if prefix =? 0 then 0 else Z.land (Z.shiftl (Z.ones width) (width - prefix)) (Z.ones width).
Definition v4_mask (prefix : Z) : Z := mask 32 prefix.
Definition v6_mask (prefix : Z) : Z := mask 128 prefix.

(** [parse_prefix] after the number is read, and [IpCidr::from_str] after the
    address is. *)
Definition parse_prefix (prefix : option Z) (default : Z) : option Z :=
  match prefix with
  | None => Some default
  | Some p => if default <? p then None else Some p
  end.
Definition cidr_of (ip : IpAddr) (prefix : option Z) : option IpCidr :=
  match ip with
  | V4 bits => p ← parse_prefix prefix 32; Some (CidrV4 (Z.land bits (v4_mask p)) p)
  | V6 bits => p ← parse_prefix prefix 128; Some (CidrV6 (Z.land bits (v6_mask p)) p)
  end.

(** [IpCidr::contains], [TrustedProxyCidrs::is_trusted] and
    [select_client_from_forwarded_chain]. *)
Definition contains (c : IpCidr) (ip : IpAddr) : bool :=
  match c, ip with
  | CidrV4 network prefix, V4 addr => Z.land addr (v4_mask prefix) =? network
  | CidrV6 network prefix, V6 addr => Z.land addr (v6_mask prefix) =? network
  | _, _ => false
  end.
Definition is_trusted (cidrs : list IpCidr) (ip : IpAddr) : bool :=
  existsb (λ c, contains c ip) cidrs.
Definition select_client_from_forwarded_chain (chain : list IpAddr) (trusted : option (list IpCidr))
  : option IpAddr :=
  proxies ← trusted;
  match find (λ ip, negb (is_trusted proxies ip)) (rev chain) with
  | Some ip => Some ip
  | None => head chain
  end.

(** The source address of [effective_source_prefix]; [chain] is what
    [forwarded_for] reads from the headers. *)
Definition source_ip (direct : IpAddr) (chain : list IpAddr) (trusted : option (list IpCidr))
  : IpAddr :=
  if match trusted with Some ps => is_trusted ps direct | None => false end
  then default direct (select_client_from_forwarded_chain chain trusted)
  else direct.

(** ** How much a key is granted *)

Record Call := {
  call_family : RateLimitFamily;
  call_key : string;
  call_max : Z;
  call_window : Z;
  call_now : Z
}.

Definition call (capacity : Z) (c : Call) (s : RateLimitState) : RateLimitState * bool :=
  check capacity (call_family c) (call_key c) (call_max c) (call_window c) (call_now c) s.
Definition about (f : RateLimitFamily) (key : string) (c : Call) : bool :=
  bool_decide (call_family c = f) && bool_decide (call_key c = key).

(** The state after some calls, and how many of them [key] was granted. *)
Definition after (capacity : Z) (cs : list Call) (s : RateLimitState) : RateLimitState :=
  foldl (λ s c, (call capacity c s).1) s cs.
Fixpoint granted (capacity : Z) (f : RateLimitFamily) (key : string) (cs : list Call)
    (s : RateLimitState) : Z :=
  match cs with
  | [] => 0
  | c :: cs =>
      Z.b2z (about f key c && (call capacity c s).2)
      + granted capacity f key cs (call capacity c s).1
  end.

Lemma saturating_id a b : - 2 ^ 63 <= a + b < 2 ^ 63 → saturating_add_i64 a b = a + b.
Proof. unfold saturating_add_i64, i64_min, i64_max. lia. Qed.

Lemma check_windows_other capacity key' max win now ws key :
  key' <> key →
  (check_windows capacity key' max win now ws).1 !! key =
  keep_where (λ _ w, live now w) ws !! key.
Proof.
  intros Hne. unfold check_windows. case_match; [done|]. case_match; cbn;
    by rewrite lookup_insert_ne.
Qed.

Section Budget.
Variables (capacity : Z) (f : RateLimitFamily) (key : string) (M W : Z).

(** The window of [key], if the family has one. *)
Definition window_of (s : RateLimitState) : option FixedWindow := default ∅ (s !! f) !! key.

(** [key] is always checked against the same budget. *)
Definition same_budget (c : Call) : Prop :=
  about f key c = true → call_max c = M ∧ call_window c = W.

Definition window_ok (s : RateLimitState) : Prop :=
  ∀ w, window_of s = Some w →
    fw_window_seconds w = W ∧ 0 <= fw_count w <= M ∧ - 2 ^ 62 < fw_started_at w < 2 ^ 62.

(** The window if it is still live. *)
Definition live_window (now : Z) (w : option FixedWindow) : option FixedWindow :=
  w ≫= λ w, if now <? fw_started_at w + W then Some w else None.
Definition new_window (now : Z) : FixedWindow :=
  {| fw_started_at := now; fw_window_seconds := W; fw_count := 0 |}.

Context (HM : 1 <= M) (HW : 1 <= W <= 2 ^ 62).

Lemma keep_live now s :
  window_ok s →
  keep_where (λ _ w, live now w) (default ∅ (s !! f)) !! key = live_window now (window_of s).
Proof.
  intros Hok. unfold live_window, keep_where.
  destruct (window_of s) as [w|] eqn:Hw; cbn; [|apply map_lookup_filter_None; by left].
  destruct (Hok w Hw) as (HWw & _ & ?).
  assert (live now w = (now <? fw_started_at w + W)) as Hl.
  { unfold live. by rewrite HWw, saturating_id by lia. }
  destruct (now <? fw_started_at w + W).
  - by apply map_lookup_filter_Some.
  - apply map_lookup_filter_None. right. unfold window_of in Hw. rewrite Hw.
    intros x [= <-]. cbn. congruence.
Qed.

(** What one call does to the window of [key]. *)
Lemma call_window_of c s :
  same_budget c → window_ok s → - 2 ^ 62 < call_now c < 2 ^ 62 →
  let live_w := live_window (call_now c) (window_of s) in
  let w' := window_of (call capacity c s).1 in
  if about f key c then
    if (call capacity c s).2 then
      let w := default (new_window (call_now c)) live_w in
      fw_count w < M ∧
      w' = Some {| fw_started_at := fw_started_at w; fw_window_seconds := fw_window_seconds w;
                   fw_count := fw_count w + 1 |}
    else w' = live_w
  else w' = window_of s ∨ w' = live_w.
Proof.
  intros Hsame Hok Hnow live_w w'. pose proof (keep_live (call_now c) s Hok) as Hkeep.
  fold live_w in Hkeep. unfold same_budget, about in *. unfold w', call, check, window_of.
  destruct (bool_decide_reflect (call_family c = f)) as [Hf|Hf]; cbn [andb].
  2: { left. case_match; [done|]. case_match; cbn. by rewrite lookup_insert_ne. }
  rewrite Hf. destruct (bool_decide_reflect (call_key c = key)) as [Hk|Hk].
  2: { case_match; [by left|]. right. rewrite <- Hkeep.
       rewrite <- (check_windows_other capacity (call_key c) (call_max c) (call_window c) _ _ _ Hk).
       destruct (check_windows _ _ _ _ _ _). cbn. by rewrite lookup_insert_eq. }
  destruct Hsame as [-> ->]; [done|]. rewrite Hk.
  rewrite (proj2 (Z.eqb_neq M 0)), (proj2 (Z.eqb_neq W 0)) by lia. cbn [orb].
  unfold check_windows. rewrite Hkeep.
  assert (i64_or_max W = W) as -> by (unfold i64_or_max, i64_max; case_match; lia).
  fold (new_window (call_now c)).
  destruct live_w as [w|] eqn:Hl.
  - rewrite bool_decide_eq_false_2 by done. cbn [andb from_option id].
    unfold live_w, live_window in Hl. apply bind_Some in Hl as (w0 & Hw0 & Hlive).
    case_match eqn:Hlt; [|done]. simplify_eq. destruct (Hok w Hw0) as (_ & _ & ?).
    rewrite saturating_id by lia. apply Z.ltb_lt in Hlt.
    rewrite (proj2 (Z.leb_gt (fw_started_at w + W) (call_now c))) by lia.
    destruct (Z.leb_spec M (fw_count w)); cbn; rewrite lookup_insert_eq; cbn;
      rewrite lookup_insert_eq; auto.
  - rewrite bool_decide_eq_true_2 by done. cbn [andb].
    destruct (capacity <=? _); [cbn; by rewrite lookup_insert_eq|].
    cbn [from_option fw_started_at new_window]. rewrite saturating_id by lia. rewrite (proj2 (Z.leb_gt (call_now c + W) (call_now c))) by lia.
    cbn. rewrite (proj2 (Z.leb_gt M 0)) by lia. cbn.
    rewrite lookup_insert_eq. cbn. rewrite lookup_insert_eq. split; [lia|done].
Qed.


Lemma call_window_ok c s :
  same_budget c → window_ok s → - 2 ^ 62 < call_now c < 2 ^ 62 → window_ok (call capacity c s).1.
Proof.
  intros Hsame Hok Hnow w Hw. pose proof (call_window_of c s Hsame Hok Hnow) as Hc. cbn zeta in Hc.
  assert (∀ w, live_window (call_now c) (window_of s) = Some w → window_of s = Some w) as Hlive.
  { unfold live_window. intros x (y & Hy & Hx)%bind_Some. case_match; by simplify_eq. }
  destruct (about f key c); [destruct (call capacity c s).2|].
  - destruct Hc as [Hlt Hc]. rewrite Hc in Hw. simplify_eq. cbn.
    destruct (live_window _ _) as [w|] eqn:Hl; cbn in *; [|lia].
    destruct (Hok w (Hlive w eq_refl)) as (-> & ? & ?). lia.
  - rewrite Hc in Hw. eauto.
  - destruct Hc as [Hc|Hc]; rewrite Hc in Hw; eauto.
Qed.

(** What the key can still be granted before [t0 + W]. *)
Definition potential (t0 t : Z) (s : RateLimitState) : Z :=
  match live_window t (window_of s) with
  | Some w => M - fw_count w + (if t0 <=? fw_started_at w then 0 else M)
  | None => M
  end.

Lemma potential_bounds t0 t s : window_ok s → 0 <= potential t0 t s <= 2 * M.
Proof.
  intros Hok. unfold potential. destruct (live_window _ _) as [w|] eqn:Hl; [|lia].
  unfold live_window in Hl. apply bind_Some in Hl as (x & Hx & Hl). case_match; simplify_eq.
  destruct (Hok w Hx) as (_ & ? & _). case_match; lia.
Qed.

Lemma potential_later t0 t t' s :
  window_ok s → t <= t' → t' < t0 + W → potential t0 t' s <= potential t0 t s.
Proof.
  intros Hok Ht Ht'. unfold potential, live_window.
  destruct (window_of s) as [w|] eqn:Hw; cbn; [|lia]. destruct (Hok w Hw) as (_ & ? & _).
  destruct (Z.ltb_spec t' (fw_started_at w + W)), (Z.ltb_spec t (fw_started_at w + W)),
    (Z.leb_spec t0 (fw_started_at w)); cbn; lia.
Qed.

Lemma live_window_idem t w : live_window t (live_window t w) = live_window t w.
Proof.
  unfold live_window. destruct w as [w|]; cbn; [|done]. case_match eqn:H; [|done]. cbn. by rewrite H.
Qed.

Lemma potential_call t0 t c s :
  same_budget c → window_ok s → t <= call_now c → t0 <= call_now c < t0 + W →
  - 2 ^ 62 < call_now c < 2 ^ 62 →
  Z.b2z (about f key c && (call capacity c s).2)
  + potential t0 (call_now c) (call capacity c s).1 <= potential t0 t s.
Proof.
  intros Hsame Hok Ht Ht0 Hnow. etrans; [|apply (potential_later t0 t (call_now c)); [done|lia|lia]].
  pose proof (call_window_of c s Hsame Hok Hnow) as Hc. cbn zeta in Hc. unfold potential.
  destruct (about f key c); [destruct (call capacity c s).2|]; cbn [andb Z.b2z].
  - destruct Hc as [Hlt ->]. destruct (live_window _ (window_of s)) as [w|] eqn:Hl; cbn.
    + unfold live_window in Hl. apply bind_Some in Hl as (x & Hx & Hl).
      case_match eqn:Hw; simplify_eq. rewrite Hw. cbn in *. case_match; lia.
    + rewrite (proj2 (Z.ltb_lt _ _)) by lia. cbn. rewrite (proj2 (Z.leb_le _ _)) by lia. lia.
  - rewrite Hc, live_window_idem. lia.
  - destruct Hc as [->| ->]; rewrite ?live_window_idem; lia.
Qed.

Lemma granted_potential t0 t cs s :
  Forall same_budget cs → window_ok s →
  Forall (λ c, t0 <= call_now c < t0 + W ∧ - 2 ^ 62 < call_now c < 2 ^ 62) cs →
  StronglySorted Z.le (t :: (call_now <$> cs)) →
  granted capacity f key cs s <= potential t0 t s.
Proof.
  revert t s. induction cs as [|c cs IH]; intros t s Hsame Hok Hin Hs; cbn [granted].
  - by apply potential_bounds.
  - apply Forall_cons in Hsame as [Hc Hsame], Hin as [[Hc0 Hc1] Hin].
    cbn in Hs. apply StronglySorted_cons in Hs as [Hle Hs]. apply Forall_cons in Hle as [Hle _].
    pose proof (potential_call t0 t c s Hc Hok Hle Hc0 Hc1).
    specialize (IH (call_now c) _ Hsame (call_window_ok _ _ Hc Hok Hc1) Hin Hs). lia.
Qed.

Lemma after_window_ok cs s :
  Forall same_budget cs → Forall (λ c, - 2 ^ 62 < call_now c < 2 ^ 62) cs →
  window_ok s → window_ok (after capacity cs s).
Proof.
  unfold after. revert s. induction cs as [|c cs IH]; intros s Hsame Hin Hok; [done|]. cbn.
  apply Forall_cons in Hsame as [? ?], Hin as [? ?]. apply IH; [done..|]. by apply call_window_ok.
Qed.

End Budget.

Lemma check_windows_capacity capacity key max win now ws :
  Z.of_nat (size ws) <= capacity →
  Z.of_nat (size (check_windows capacity key max win now ws).1) <= capacity.
Proof.
  intros Hs. unfold check_windows. set (ws' := keep_where _ ws).
  assert (Z.of_nat (size ws') <= capacity) as Hs' by (etrans; [apply keep_where_size|done]).
  assert (∀ w, bool_decide (ws' !! key = None) && (capacity <=? Z.of_nat (size ws')) = false →
    Z.of_nat (size (<[key := w]> ws')) <= capacity) as Hins.
  { intros w Hno. destruct (ws' !! key) eqn:Hk.
    - rewrite map_size_insert_Some; [done|eauto].
    - rewrite map_size_insert_None by done. cbn in Hno. apply Z.leb_gt in Hno. lia. }
  case_match eqn:Hno; [done|]. case_match; cbn; by apply Hins.
Qed.

Lemma after_capacity capacity cs s :
  0 <= capacity → (∀ f ws, s !! f = Some ws → Z.of_nat (size ws) <= capacity) →
  ∀ f ws, foldl (λ s c, (call capacity c s).1) s cs !! f = Some ws → Z.of_nat (size ws) <= capacity.
Proof.
  intros Hc. revert s. induction cs as [|c cs IH]; intros s Hs; [done|]. cbn. apply IH.
  unfold call, check. intros f ws. case_match; [apply Hs|].
  destruct (check_windows _ _ _ _ _ _) as [ws' ok] eqn:Hw. cbn.
  intros [[<- <-]|[_ Hf]]%lookup_insert_Some; [|by eapply Hs].
  change ws' with (ws', ok).1. rewrite <- Hw. apply check_windows_capacity.
  destruct (s !! _) eqn:Hf; cbn; [by eapply Hs|by rewrite map_size_empty].
Qed.

(** fixed windows bound every stretch of time.  Whatever else is checked
    before and in between, a key that is always checked against the same
    budget of [M] requests per [W] seconds is granted at most [2 * M] of the
    checks that fall into any [W] seconds, and at most [M] of them when no
    window was open for it. *)
Theorem grants_within_two_budgets capacity f key M W t0 before calls
    (HM : 1 <= M) (HW : 1 <= W <= 2 ^ 62)
    (Hbudget : Forall (same_budget f key M W) (before ++ calls))
    (Hclock : Forall (λ c, - 2 ^ 62 < call_now c < 2 ^ 62) (before ++ calls))
    (Hsorted : StronglySorted Z.le (t0 :: (call_now <$> calls)))
    (Hstretch : Forall (λ c, call_now c < t0 + W) calls) :
  let s := after capacity before ∅ in
  granted capacity f key calls s <= 2 * M ∧
  (live_window W t0 (window_of f key s) = None → granted capacity f key calls s <= M).
Proof.
  intros s. apply Forall_app in Hbudget as [Hb1 Hb2], Hclock as [Hc1 Hc2].
  assert (window_ok f key M W s) as Hok by by apply after_window_ok.
  assert (granted capacity f key calls s <= potential f key M W t0 t0 s) as Hg.
  { apply granted_potential; try done. apply StronglySorted_cons in Hsorted as [Hle _].
    rewrite Forall_fmap in Hle. apply Forall_forall. intros c Hin.
    rewrite !Forall_forall in *. split; [|by apply Hc2]. split; [by apply (Hle c)|by apply Hstretch]. }
  split.
  - pose proof (potential_bounds f key M W HM t0 t0 s Hok). lia.
  - intros Hnone. unfold potential in Hg. by rewrite Hnone in Hg.
Qed.

Definition example_calls : list Call :=
  (λ t, {| call_family := HookInvocationHook; call_key := "hook"; call_max := 2;
           call_window := 60; call_now := t |}) <$> [100; 101; 102; 130].

Lemma grants_within_two_budgets_witness :
  granted 10 HookInvocationHook "hook" example_calls (after 10 [] ∅) <= 2 * 2.
Proof.
  refine (proj1 (grants_within_two_budgets 10 HookInvocationHook "hook" 2 60 100 [] example_calls
    _ _ _ _ _ _)); [lia|lia|..].
  - repeat constructor.
  - repeat constructor.
  - unfold example_calls. cbn. repeat constructor; lia.
  - unfold example_calls. repeat constructor.
Defined.

(** Limiter families are independent: a check never changes what another
    family remembers, and no family ever remembers more keys than its
    capacity. *)
Theorem families_are_independent capacity calls c
    (Hcapacity : 0 <= capacity) :
  let s := after capacity calls ∅ in
  (∀ f, f <> call_family c → (call capacity c s).1 !! f = s !! f) ∧
  (∀ f ws, s !! f = Some ws → Z.of_nat (size ws) <= capacity).
Proof.
  intros s. split.
  - intros f Hf. unfold call, check. case_match; [done|]. case_match. cbn.
    by rewrite lookup_insert_ne.
  - unfold s, after. apply (after_capacity capacity calls ∅ Hcapacity).
    intros f ws Hws. by rewrite lookup_empty in Hws.
Qed.

(** ** Address blocks *)

Lemma mask_testbit w p i :
  0 <= p <= w → 0 <= i → Z.testbit (mask w p) i = (w - p <=? i) && (i <? w).
Proof.
  intros Hp Hi. unfold mask. destruct (Z.eqb_spec p 0) as [->|Hne].
  - rewrite Z.testbit_0_l. rewrite Z.sub_0_r. destruct (Z.leb_spec w i), (Z.ltb_spec i w); done || lia.
  - rewrite Z.land_spec, Z.shiftl_spec, Z.testbit_ones by lia.
    rewrite Z.testbit_ones by lia.
    destruct (Z.leb_spec 0 (i - (w - p))), (Z.ltb_spec (i - (w - p)) w), (Z.leb_spec 0 i),
      (Z.ltb_spec i w), (Z.leb_spec (w - p) i); cbn; done || lia.
Qed.

Lemma high_bit w a i : 0 <= a < 2 ^ w → 0 <= w <= i → Z.testbit a i = false.
Proof.
  intros Ha Hi. destruct (Z.eq_dec a 0) as [->|Hne]; [apply Z.testbit_0_l|].
  apply Z.bits_above_log2; [lia|]. apply Z.log2_lt_pow2; [lia|].
  eapply Z.lt_le_trans; [apply Ha|]. apply Z.pow_le_mono_r; lia.
Qed.

Lemma mask_prefix w p a b :
  0 <= p <= w → 0 <= a < 2 ^ w → 0 <= b < 2 ^ w →
  Z.land a (mask w p) = Z.land b (mask w p) ↔ Z.shiftr a (w - p) = Z.shiftr b (w - p).
Proof.
  intros Hp Ha Hb. split; intros Heq; apply Z.bits_inj'; intros i Hi.
  - rewrite !Z.shiftr_spec by lia.
    destruct (Z.ltb_spec (i + (w - p)) w) as [Hlt|Hge].
    + apply (f_equal (λ z, Z.testbit z (i + (w - p)))) in Heq.
      rewrite !Z.land_spec, mask_testbit in Heq by lia.
      rewrite (proj2 (Z.leb_le _ _)), (proj2 (Z.ltb_lt _ _)), !andb_true_r in Heq by lia. done.
    + by rewrite !(high_bit w) by lia.
  - rewrite !Z.land_spec, mask_testbit by lia.
    destruct (Z.leb_spec (w - p) i); cbn [andb]; [|by rewrite !andb_false_r].
    apply (f_equal (λ z, Z.testbit z (i - (w - p)))) in Heq.
    rewrite !Z.shiftr_spec in Heq by lia. replace (i - (w - p) + (w - p)) with i in Heq by lia.
    by rewrite Heq.
Qed.

(** An address of the width a block is for. *)
Definition ip_wf (ip : IpAddr) : Prop :=
  match ip with V4 a => 0 <= a < 2 ^ 32 | V6 a => 0 <= a < 2 ^ 128 end.
(** The two addresses agree on their first [p] bits. *)
Definition same_prefix (p : Z) (x y : IpAddr) : Prop :=
  match x, y with
  | V4 a, V4 b => Z.shiftr a (32 - p) = Z.shiftr b (32 - p)
  | V6 a, V6 b => Z.shiftr a (128 - p) = Z.shiftr b (128 - p)
  | _, _ => False
  end.

(** A trusted-proxy block contains exactly the addresses of its family that
    agree with the configured address on the prefix, for every prefix length
    the parser accepts, zero and full width included. *)
Theorem cidr_contains_prefix ip p c other
    (Hblock : cidr_of ip (Some p) = Some c) (Hp : 0 <= p) (Hip : ip_wf ip) (Hother : ip_wf other) :
  contains c other = true ↔ same_prefix p ip other.
Proof.
  destruct ip as [a|a]; unfold cidr_of, parse_prefix in Hblock;
    apply bind_Some in Hblock as (q & Hq & Hc); case_match eqn:Hlt; simplify_eq;
    apply Z.ltb_ge in Hlt; destruct other as [b|b]; cbn [contains same_prefix]; try done.
  - rewrite Z.eqb_eq. unfold v4_mask. rewrite (mask_prefix 32 q b a) by (cbn in *; lia).
    split; congruence.
  - rewrite Z.eqb_eq. unfold v6_mask. rewrite (mask_prefix 128 q b a) by (cbn in *; lia).
    split; congruence.
Qed.

(** 10.0.0.0/8 and 10.1.2.3. *)
Lemma cidr_contains_prefix_witness :
  contains (CidrV4 167772160 8) (V4 167838211) = true ↔
  same_prefix 8 (V4 167772160) (V4 167838211).
Proof.
  apply (cidr_contains_prefix (V4 167772160) 8 (CidrV4 167772160 8) (V4 167838211));
    [vm_compute; reflexivity|lia|cbn; lia|cbn; lia].
Defined.

End Limits.
