(* ===== verification/PushHooks.v ===== *)
(** * Notification hooks
      ([crates/push-gateway-storage/src/hook_repository.rs],
      [crates/push-gateway-storage/src/hook_idempotency_repository.rs],
      [crates/push-gateway/src/invoke_hook.rs])

    Hooks are bearer capabilities that notify one installation.  Their
    admission, revocation and reclamation, the compact markers that make an
    invocation idempotent, and the invocation itself: one transaction that
    checks the capability, consumes a use and enqueues the delivery. *)

From S2P Require Import Prelude PushSchema PushOutbox PushRegistrations PushLimits.
From stdpp Require Import base gmap strings list sorting pretty.
From Stdlib Require Import ZArith Lia Ascii.
Open Scope Z_scope.

Module Hooks.
Import Outbox Registrations Limits.

Definition MAX_HOOK_LIFETIME_SECONDS : Z := 31536000.
Definition IDEMPOTENCY_CLEANUP_MARGIN_SECONDS : Z := 604800.
Definition DEFAULT_RATE_LIMIT_WINDOW_SECONDS : Z := 3600.
Definition DEFAULT_RATE_LIMIT_MAX_REQUESTS : Z := 2.

(** ** Comparing secrets

    [constant_time_eq]: the lengths and every byte, missing bytes as zero,
    are folded into one difference. *)
Definition byte_at (s : string) (i : nat) : Z :=
  match String.get i s with Some c => Z.of_N (N_of_ascii c) | None => 0 end.
Fixpoint fold_diff (left right : string) (index count : nat) (diff : Z) : Z :=
  match count with
  | O => diff
  | S count =>
      fold_diff left right (S index) count
        (Z.lor diff (Z.lxor (byte_at left index) (byte_at right index)))
  end.
Definition constant_time_eq (left right : string) : bool :=
  let l := Z.of_nat (String.length left) in
  let r := Z.of_nat (String.length right) in
  fold_diff left right 0 (Nat.max (String.length left) (String.length right)) (Z.lxor l r) =? 0.

(** ** Records *)

Inductive HookPrivacy := DisplayText | DataOnly.
Inductive HookOpenBehavior := OpenApp | OpenWorkflow | OpenDeepLink.

#[global] Instance HookPrivacy_eq_dec : EqDecision HookPrivacy.
Proof. solve_decision. Defined.

Definition privacy_as_str (p : HookPrivacy) : string :=
  match p with DisplayText => "display_text" | DataOnly => "data_only" end.
Definition privacy_from (s : option string) : HookPrivacy :=
  if bool_decide (s = Some "data_only"%string) then DataOnly else DisplayText.
Definition behavior_as_str (b : HookOpenBehavior) : string :=
  match b with
  | OpenApp => "open_app" | OpenWorkflow => "open_workflow" | OpenDeepLink => "open_deep_link"
  end.
Definition behavior_from (s : option string) : HookOpenBehavior :=
  if bool_decide (s = Some "open_workflow"%string) then OpenWorkflow
  else if bool_decide (s = Some "open_deep_link"%string) then OpenDeepLink
  else OpenApp.

(** A JSON value: a string, or another value of the JSON library. *)
Inductive Value {Json : Type} := VString (s : string) | VOther (j : Json).
Arguments Value : clear implicits.

Record HookRateLimitRecord := {
  hr_window_seconds : Z; hr_max_requests : Z; hr_window_started_at : option Z; hr_count : Z
}.

Record HookRecord {Json : Type} := {
  hook_id : string;
  recipient_id : string;
  installation_id : string;
  label : option string;
  kind : option string;
  title : option string;
  body : option string;
  privacy : HookPrivacy;
  open_behavior : HookOpenBehavior;
  workflow : option string;
  action : option string;
  deep_link : option string;
  data : gmap string (Value Json);
  expires_at : option Z;
  max_uses : option Z;
  rate_limit : option HookRateLimitRecord;
  created_at : Z;
  revoked_at : option Z;
  use_count : Z;
  last_used_at : option Z
}.
Arguments HookRecord : clear implicits.

Record HookAdmissionLimits := {
  hl_max_active_per_recipient : Z;
  hl_max_active_global : Z;
  hl_max_total_rows : Z;
  hl_reclamation_batch_size : Z
}.

(** [HookAdmissionOutcome]; [Created] carries the record and the token. *)
Inductive HookAdmissionOutcome {Json : Type} :=
| Created (record : HookRecord Json) (token : string)
| TargetUnavailable
| HookRecipientCapacityExceeded
| HookGlobalCapacityExceeded
| HookGlobalRowCapacityExceeded.
Arguments HookAdmissionOutcome : clear implicits.

Inductive HookUseOutcome {Json : Type} :=
| Accepted (record : HookRecord Json)
| NotFound
| Expired
| Revoked
| MaxUsesExceeded
| RateLimited.
Arguments HookUseOutcome : clear implicits.

Record HookRowMetrics := { hm_total : Z; hm_active : Z; hm_terminal : Z }.

(** [CreateHookRequest], its nested settings flattened. *)
Record CreateHookRequest {Json : Type} := {
  cr_installation_id : string;
  cr_label : option string;
  cr_kind : option string;
  cr_title : option string;
  cr_body : option string;
  cr_privacy : option HookPrivacy;
  cr_open_behavior : option HookOpenBehavior;
  cr_workflow : option string;
  cr_action : option string;
  cr_deep_link : option string;
  cr_data : gmap string (Value Json);
  cr_expires_in_seconds : option Z;
  cr_max_uses : option Z;
  cr_rate_limit : option (option Z * option Z)
}.
Arguments CreateHookRequest : clear implicits.

Record InvokeHookRequest {Json : Type} := {
  ir_idempotency_key : option string;
  ir_data : gmap string (Value Json)
}.
Arguments InvokeHookRequest : clear implicits.

Section Repository.
Context `{Scan} {Json : Type} `{!Codec (gmap string (Value Json))}
        `{!Codec (Notification (Value Json))}.
(** [hex(SHA-256(token))] and the text of a JSON value that is not a string. *)
Variable hash_hex : string -> string.
Variable json_text : Json -> string.

(** [hook_record_from_row]. *)
Definition hook_record_from_row (k : string) (r : HookCols) : res PushError (HookRecord Json) :=
  hook_data ← ok_or Decode (dec (hk_data_json r));
  Ok {| hook_id := k; recipient_id := hk_recipient_id r; installation_id := hk_installation_id r;
        label := hk_label r; kind := hk_kind r; title := hk_title r; body := hk_body r;
        privacy := privacy_from (Some (hk_privacy r));
        open_behavior := behavior_from (Some (hk_open_behavior r));
        workflow := hk_workflow r; action := hk_action r; deep_link := hk_deep_link r;
        data := hook_data; expires_at := hk_expires_at r; max_uses := hk_max_uses r;
        rate_limit := match hk_window_seconds r, hk_max_requests r with
                      | Some w, Some m =>
                          Some {| hr_window_seconds := w; hr_max_requests := m;
                                  hr_window_started_at := hk_window_started_at r;
                                  hr_count := hk_rate_limit_count r |}
                      | _, _ => None
                      end;
        created_at := hk_created_at r; revoked_at := hk_revoked_at r;
        use_count := hk_use_count r; last_used_at := hk_last_used_at r |}.

(** ** Idempotency markers ([HookIdempotencyRepository]) *)

Definition retained_target_count (hook key : string) (d : PushDb) : option Z :=
  (usize_or_0 ∘ tb_target_count) <$> tombstones d !! (hook, key).

Definition expired_batch (now batch_size : Z) (d : PushDb) : list (string * string) :=
  (limit (i64_or_max batch_size)
    (select_by (λ _ t, tb_retain_until t <? now)
       (λ _ t, (tb_retain_until t, 0, ""%string)) (tombstones d))).*1.
Definition purge_expired_in_transaction (now batch_size : Z) : PushTx Z :=
  if batch_size =? 0 then mret 0
  else
    d ← tx_get id;
    tx_put (λ d, set_tombstones
      (keep_where (λ k _, negb (bool_decide (k ∈ expired_batch now batch_size d)))
         (tombstones d)) d);;
    mret (Z.of_nat (length (expired_batch now batch_size d))).
Definition purge_expired (now : Z) : Pool Z :=
  on_pool (
    d ← tx_get id;
    tx_put (λ d, set_tombstones
      (keep_where (λ _ t, negb (tb_retain_until t <? now)) (tombstones d)) d);;
    mret (count_where (λ _ t, tb_retain_until t <? now) (tombstones d))).
Definition ensure_capacity_in_transaction (now max_rows_global reclamation_batch_size : Z)
  : PushTx bool :=
  purge_expired_in_transaction now reclamation_batch_size;;
  if max_rows_global =? 0 then mret true
  else tx_get (λ d, Z.of_nat (size (tombstones d)) <? max_rows_global).

Definition retain_until (accepted_at : Z) (hook_expires_at : option Z) : Z :=
  let lifecycle_end :=
    default (saturating_add_i64 accepted_at MAX_HOOK_LIFETIME_SECONDS) hook_expires_at in
  saturating_add_i64 (Z.max lifecycle_end accepted_at) IDEMPOTENCY_CLEANUP_MARGIN_SECONDS.
Definition record_in_transaction (hook key : string) (target_count accepted_at : Z)
    (hook_expires_at : option Z) : PushTx unit :=
  let row := {| tb_target_count := i64_or_max target_count; tb_accepted_at := accepted_at;
                tb_retain_until := retain_until accepted_at hook_expires_at |} in
  d ← tx_get id;
  push_require (bool_decide (tombstones d !! (hook, key) = None)
    && bool_decide (is_Some (hooks d !! hook))
    && (0 <=? tb_target_count row) && (0 <=? tb_accepted_at row) && (0 <=? tb_retain_until row));;
  tx_put (λ d, set_tombstones (<[(hook, key) := row]> (tombstones d)) d).

(** ** Hooks ([HookRepository]) *)

(** Rows no event refers to, and past their life. *)
Definition hook_terminal (now : Z) (r : HookCols) : bool :=
  match hk_expires_at r with Some t => t <=? now | None => false end
  || bool_decide (is_Some (hk_revoked_at r)).
Definition unreferenced (d : PushDb) (k : string) : bool :=
  bool_decide (map_Forall (λ _ e, ev_hook_id e <> k) (events d)).
Definition hook_active (now : Z) (r : HookCols) : bool :=
  bool_decide (hk_revoked_at r = None)
  && match hk_expires_at r with Some t => now <? t | None => true end.

(** [DELETE FROM notification_hooks WHERE hook_id IN ..], with the cascades to
    markers, events and outbox rows. *)
Definition delete_hooks (ks : list string) (d : PushDb) : PushDb :=
  let gone k := bool_decide (k ∈ ks) in
  let events' := keep_where (λ _ e, negb (gone (ev_hook_id e))) (events d) in
  set_hooks (keep_where (λ k _, negb (gone k)) (hooks d))
    (set_events events'
      (set_outbox (keep_where (λ _ o, bool_decide (is_Some (events' !! ob_event_id o))) (outbox d))
        (set_tombstones (keep_where (λ k _, negb (gone k.1)) (tombstones d)) d))).

(** [purge_terminal_in_transaction] and [purge_terminal_unreferenced]. *)
Definition terminal_batch (now batch_size : Z) (d : PushDb) : list string :=
  (limit (i64_or_max batch_size)
    (select_by (λ k r, hook_terminal now r && unreferenced d k)
       (λ _ r, (hk_created_at r, 0, ""%string)) (hooks d))).*1.
Definition purge_terminal_in_transaction (now batch_size : Z) : PushTx Z :=
  if batch_size =? 0 then mret 0
  else
    purge_expired_in_transaction now batch_size;;
    d ← tx_get id;
    tx_put (λ d, delete_hooks (terminal_batch now batch_size d) d);;
    mret (Z.of_nat (length (terminal_batch now batch_size d))).
Definition terminal_unreferenced (now : Z) (d : PushDb) : list string :=
  (filter (λ kr, hook_terminal now kr.2 && unreferenced d kr.1 = true) (map_to_list (hooks d))).*1.
Definition purge_terminal_unreferenced (now : Z) : Pool Z :=
  on_pool (
    d ← tx_get id;
    tx_put (λ d, delete_hooks (terminal_unreferenced now d) d);;
    mret (Z.of_nat (length (terminal_unreferenced now d)))).

Definition check_hook (r : HookCols) : bool :=
  let nonneg o := match o with None => true | Some t => 0 <=? t end in
  (0 <=? hk_created_at r) && nonneg (hk_expires_at r) && nonneg (hk_revoked_at r)
  && match hk_max_uses r with None => true | Some m => 0 <? m end
  && (0 <=? hk_use_count r) && nonneg (hk_last_used_at r)
  && match hk_window_seconds r with None => false | Some w => 0 <? w end
  && match hk_max_requests r with None => false | Some m => 0 <? m end
  && nonneg (hk_window_started_at r) && (0 <=? hk_rate_limit_count r).

(** The row [admit_hook] inserts. *)
Definition new_hook_row (recipient : string) (request : CreateHookRequest Json) (token : string)
    (now : Z) : HookCols :=
  {| hk_secret_hash := hash_hex token; hk_recipient_id := recipient;
     hk_installation_id := cr_installation_id request; hk_label := cr_label request;
     hk_kind := cr_kind request; hk_workflow := cr_workflow request;
     hk_action := cr_action request; hk_deep_link := cr_deep_link request;
     hk_open_behavior := behavior_as_str (default OpenApp (cr_open_behavior request));
     hk_privacy := privacy_as_str (default DisplayText (cr_privacy request));
     hk_title := cr_title request; hk_body := cr_body request;
     hk_data_json := enc (cr_data request); hk_created_at := now;
     hk_expires_at := cr_expires_in_seconds request ≫= λ s, if 0 <? s then Some (now + s) else None;
     hk_revoked_at := None;
     hk_max_uses := cr_max_uses request ≫= λ m, if 0 <? m then Some m else None;
     hk_use_count := 0; hk_last_used_at := None;
     hk_window_seconds :=
       match cr_rate_limit request ≫= fst with
       | Some w => Some w | None => Some DEFAULT_RATE_LIMIT_WINDOW_SECONDS end;
     hk_max_requests :=
       match cr_rate_limit request ≫= snd with
       | Some m => Some m | None => Some DEFAULT_RATE_LIMIT_MAX_REQUESTS end;
     hk_window_started_at := None; hk_rate_limit_count := 0 |}.

Definition insert_hook (k : string) (r : HookCols) : PushTx unit :=
  d ← tx_get id;
  push_require (bool_decide (hooks d !! k = None)
    && bool_decide (map_Forall (λ _ h, hk_secret_hash h <> hk_secret_hash r) (hooks d))
    && check_hook r);;
  tx_put (λ d, set_hooks (<[k := r]> (hooks d)) d).

(** [admit_hook]; the new id and token are the random arguments. *)
Definition admit_hook (recipient : string) (request : CreateHookRequest Json)
    (e : RegistrationEligibility) (limits : HookAdmissionLimits) (now : Z) (new_id token : string)
  : Pool (HookAdmissionOutcome Json) :=
  in_tx (
    acquire_admission_lock "hook" now;;
    purge_terminal_in_transaction now (hl_reclamation_batch_size limits);;
    d ← tx_get id;
    if bool_decide (eligible_installation recipient (cr_installation_id request) e d = None)
    then mret (Rollback TargetUnavailable)
    else if (0 <? hl_max_active_per_recipient limits)
            && (hl_max_active_per_recipient limits <=?
                count_where (λ _ r, bool_decide (hk_recipient_id r = recipient) && hook_active now r)
                  (hooks d))
    then mret (Rollback HookRecipientCapacityExceeded)
    else if (0 <? hl_max_active_global limits)
            && (hl_max_active_global limits <=? count_where (λ _ r, hook_active now r) (hooks d))
    then mret (Rollback HookGlobalCapacityExceeded)
    else if (0 <? hl_max_total_rows limits)
            && (hl_max_total_rows limits <=? Z.of_nat (size (hooks d)))
    then mret (Rollback HookGlobalRowCapacityExceeded)
    else
      let row := new_hook_row recipient request token now in
      insert_hook new_id row;;
      record ← tx_lift (hook_record_from_row new_id row);
      mret (Commit (Created record token))).

(** [list_for_recipient], newest first, and [get]. *)
Definition list_hooks_for_recipient (recipient : string) (d : PushDb)
  : res PushError (list (HookRecord Json)) :=
  collect (λ kr, hook_record_from_row kr.1 kr.2)
    (rev (select_by (λ _ r, bool_decide (hk_recipient_id r = recipient))
            (λ k r, (hk_created_at r, 0, k)) (hooks d))).
Definition get_hook (k : string) (d : PushDb) : res PushError (option (HookRecord Json)) :=
  transpose_map (hook_record_from_row k) (hooks d !! k).

(** [revoke]. *)
Definition with_revoked (now : Z) (r : HookCols) : HookCols :=
  {| hk_secret_hash := hk_secret_hash r; hk_recipient_id := hk_recipient_id r;
     hk_installation_id := hk_installation_id r; hk_label := hk_label r; hk_kind := hk_kind r;
     hk_workflow := hk_workflow r; hk_action := hk_action r; hk_deep_link := hk_deep_link r;
     hk_open_behavior := hk_open_behavior r; hk_privacy := hk_privacy r; hk_title := hk_title r;
     hk_body := hk_body r; hk_data_json := hk_data_json r; hk_created_at := hk_created_at r;
     hk_expires_at := hk_expires_at r;
     hk_revoked_at := match hk_revoked_at r with Some t => Some t | None => Some now end;
     hk_max_uses := hk_max_uses r; hk_use_count := hk_use_count r;
     hk_last_used_at := hk_last_used_at r; hk_window_seconds := hk_window_seconds r;
     hk_max_requests := hk_max_requests r; hk_window_started_at := hk_window_started_at r;
     hk_rate_limit_count := hk_rate_limit_count r |}.
Definition revoke (k recipient : string) (now : Z) : Pool bool :=
  on_pool (
    d ← tx_get id;
    match hooks d !! k with
    | Some r =>
        if bool_decide (hk_recipient_id r = recipient) then
          push_require (check_hook (with_revoked now r));;
          tx_put (λ d, set_hooks (<[k := with_revoked now r]> (hooks d)) d);;
          mret true
        else mret false
    | None => mret false
    end).

(** [rate_limited] and [classify_rejection]. *)
Definition rate_limited (record : HookRecord Json) (now : Z) : bool :=
  match rate_limit record with
  | None => false
  | Some rl =>
      match hr_window_started_at rl with
      | None => false
      | Some started => (now <? started + hr_window_seconds rl) && (hr_max_requests rl <=? hr_count rl)
      end
  end.
Definition classify_rejection (record : HookRecord Json) (now : Z)
  : option (HookUseOutcome Json) :=
  if bool_decide (is_Some (revoked_at record)) then Some Revoked
  else if match expires_at record with Some t => t <=? now | None => false end then Some Expired
  else if match max_uses record with Some m => m <=? use_count record | None => false end
  then Some MaxUsesExceeded
  else if rate_limited record now then Some RateLimited
  else None.

(** [verify_without_marking_used] and [verify_token]. *)
Definition verify_without_marking_used (k token : string) (now : Z) (d : PushDb)
  : res PushError (HookUseOutcome Json) :=
  match hooks d !! k with
  | None => Ok NotFound
  | Some r =>
      if negb (constant_time_eq (hk_secret_hash r) (hash_hex token)) then Ok NotFound
      else
        record ← hook_record_from_row k r;
        Ok (default (Accepted record) (classify_rejection record now))
  end.
Definition verify_token (k token : string) (d : PushDb) : bool :=
  match hooks d !! k with
  | None => false
  | Some r => constant_time_eq (hk_secret_hash r) (hash_hex token)
  end.

(** [row_metrics]. *)
Definition hook_row_metrics (now : Z) (d : PushDb) : HookRowMetrics :=
  {| hm_total := Z.of_nat (size (hooks d));
     hm_active := count_where (λ _ r, hook_active now r) (hooks d);
     hm_terminal := count_where (λ _ r, hook_terminal now r) (hooks d) |}.

(** ** Outbound validation ([outbound_validation.rs], [validation.rs]) *)

Record ApiError := { status : Z; code : string; message : string }.
Definition bad_request (c m : string) : ApiError := {| status := 400; code := c; message := m |}.
Definition internal_error : ApiError :=
  {| status := 500; code := "internal_error"; message := "internal server error" |}.

Definition MAX_FCM_DATA_BYTES : Z := 4096.

(** [str::to_ascii_lowercase] and [str::starts_with]. *)
Definition lower (c : ascii) : ascii :=
  let n := N_of_ascii c in
  if (65 <=? n)%N && (n <=? 90)%N then ascii_of_N (n + 32) else c.
Fixpoint to_ascii_lowercase (s : string) : string :=
  match s with EmptyString => EmptyString | String c s => String (lower c) (to_ascii_lowercase s) end.
Definition starts_with (p s : string) : bool := String.prefix p s.

Definition is_fcm_reserved_data_key (key : string) : bool :=
  let key := to_ascii_lowercase key in
  bool_decide (key = "from"%string) || bool_decide (key = "message_type"%string)
  || starts_with "google" key || starts_with "gcm." key.
Definition is_reserved_data_key (key : string) : bool :=
  starts_with "pg." key
  || bool_decide (key ∈ ["recipient_id"; "notification_id"; "kind"; "workflow"; "action";
                         "deep_link"; "open_behavior"; "event_id"]%string).
Definition validate_no_reserved_data_keys (m : gmap string (Value Json)) : res ApiError unit :=
  if bool_decide (map_Exists (λ k _, is_reserved_data_key k || is_fcm_reserved_data_key k = true) m)
  then Err (bad_request "data_key_reserved" "data payload uses a reserved key")
  else Ok tt.

Definition fcm_data_value (v : Value Json) : string :=
  match v with VString s => s | VOther j => json_text j end.
Definition fcm_data_size (m : gmap string (Value Json)) : Z :=
  foldr (λ kv n, Z.of_nat (String.length kv.1) + Z.of_nat (String.length (fcm_data_value kv.2)) + n)
    0 (map_to_list m).
Definition fcm_outbound_data (n : Notification (Value Json)) : gmap string (Value Json) :=
  <["kind"%string := VString (nt_kind n)]>
    (<["notification_id"%string := VString (nt_notification_id n)]>
       (<["recipient_id"%string := VString (nt_recipient_id n)]> (nt_data n))).
Definition validate_fcm_outbound_notification (n : Notification (Value Json)) : res ApiError unit :=
  let m := fcm_outbound_data n in
  if bool_decide (map_Exists (λ k _, is_fcm_reserved_data_key k = true) m)
  then Err (bad_request "data_key_reserved" "data payload uses a reserved key")
  else if MAX_FCM_DATA_BYTES <? fcm_data_size m
  then Err (bad_request "data_too_large" "data payload is too large")
  else Ok tt.

(** ** Invocation ([invoke_hook.rs]) *)

Record InvocationPolicy := {
  hook_invocations_per_source_prefix : Z;
  hook_invocations_per_hook : Z;
  hook_invocation_window_seconds : Z;
  max_global_outbox_backlog : Z;
  max_recipient_outbox_backlog : Z;
  max_idempotency_rows_global : Z;
  idempotency_reclamation_batch_size : Z;
  production_mode : bool;
  registration_ttl : Z
}.

Record InvocationOutcome := { target_count : Z; enqueued_rows : bool }.

Abbreviation ApiTx := (Tx PushDb ApiError).
(** [.map_err(internal_error)]. *)
Definition sql {A} (t : PushTx A) : ApiTx A := fun d =>
  match t d with Ok x => Ok x | Err _ => Err internal_error | Panic => Panic end.

(** [classify_hook_capability_terminated] and [classify_hook_before_target]. *)
Definition classify_hook_capability_terminated (hook : HookRecord Json) (now : Z)
  : option (HookUseOutcome Json) :=
  if bool_decide (is_Some (revoked_at hook)) then Some Revoked
  else if match expires_at hook with Some t => t <=? now | None => false end then Some Expired
  else None.
Definition classify_hook_before_target (hook : HookRecord Json) (now : Z)
  : option (HookUseOutcome Json) :=
  match classify_hook_capability_terminated hook now with
  | Some r => Some r
  | None =>
      if match max_uses hook with Some m => m <=? use_count hook | None => false end
      then Some MaxUsesExceeded
      else if match rate_limit hook with
              | Some rl =>
                  match hr_window_started_at rl with
                  | Some started => (now <? saturating_add_i64 started (hr_window_seconds rl))
                                    && (hr_max_requests rl <=? hr_count rl)
                  | None => false
                  end
              | None => false
              end
      then Some RateLimited
      else None
  end.

(** [rejection_to_error]. *)
Definition rejection_to_error (outcome : HookUseOutcome Json) : ApiError :=
  match outcome with
  | Accepted _ => {| status := 409; code := "hook_conflict"; message := "hook conflict" |}
  | NotFound => {| status := 404; code := "hook_not_found"; message := "hook not found" |}
  | Expired => {| status := 410; code := "hook_expired"; message := "hook expired" |}
  | Revoked => {| status := 410; code := "hook_revoked"; message := "hook revoked" |}
  | MaxUsesExceeded =>
      {| status := 429; code := "hook_max_uses_exceeded"; message := "hook max uses exceeded" |}
  | RateLimited =>
      {| status := 429; code := "hook_rate_limited"; message := "hook rate limited" |}
  end.

Inductive Opened :=
| AlreadyAccepted (target_count : Z)
| Continue (hook : HookRecord Json) (targets : list PushRegistration).

(** [accept_invocation] up to the rate limiters: the capability, the
    idempotent replay, the policy, the target and the marker capacity. *)
Definition open_invocation (policy : InvocationPolicy) (k secret : string)
    (request : InvokeHookRequest Json) (now : Z) : ApiTx Opened :=
  let cutoff := saturating_sub_i64 now (i64_or_max (registration_ttl policy)) in
  d ← tx_get id;
  match hooks d !! k with
  | None => tx_err (rejection_to_error NotFound)
  | Some row =>
      if negb (constant_time_eq (hk_secret_hash row) (hash_hex secret))
      then tx_err (rejection_to_error NotFound)
      else
        hook ← sql (tx_lift (hook_record_from_row k row));
        match classify_hook_capability_terminated hook now with
        | Some rejection => tx_err (rejection_to_error rejection)
        | None =>
            match ir_idempotency_key request ≫= λ key, retained_target_count k key d with
            | Some n => mret (AlreadyAccepted n)
            | None =>
                match classify_hook_before_target hook now with
                | Some rejection => tx_err (rejection_to_error rejection)
                | None =>
                    match eligible_installation (recipient_id hook) (installation_id hook)
                            {| cutoff_timestamp := cutoff |} d with
                    | None =>
                        tx_err {| status := 503; code := "target_installation_unavailable";
                                  message := "target installation is temporarily unavailable" |}
                    | Some reg =>
                        fits ← match ir_idempotency_key request with
                               | Some _ =>
                                   sql (ensure_capacity_in_transaction now
                                          (max_idempotency_rows_global policy)
                                          (idempotency_reclamation_batch_size policy))
                               | None => mret true
                               end;
                        if negb fits
                        then tx_err
                          {| status := 503; code := "idempotency_capacity_exceeded";
                             message := "hook idempotency capacity is temporarily unavailable" |}
                        else mret (Continue hook [reg])
                    end
                end
            end
        end
  end.

(** [enforce_invocation_rate_limits]; the two checks read the clock. *)
Definition enforce_invocation_rate_limits (policy : InvocationPolicy) (source k : string)
    (now1 now2 : Z) (rl : RateLimitState) : RateLimitState * option ApiError :=
  let '(rl1, ok) :=
    check DEFAULT_LIMITER_FAMILY_CAPACITY HookInvocationSource ("hook-invoke-source:" +:+ source)
      (hook_invocations_per_source_prefix policy) (hook_invocation_window_seconds policy) now1 rl in
  if negb ok
  then (rl1, Some {| status := 429; code := "source_rate_limited"; message := "source rate limited" |})
  else
    let '(rl2, ok) :=
      check DEFAULT_LIMITER_FAMILY_CAPACITY HookInvocationHook ("hook-invoke-hook:" +:+ k)
        (hook_invocations_per_hook policy) (hook_invocation_window_seconds policy) now2 rl1 in
    if negb ok
    then (rl2, Some {| status := 429; code := "hook_rate_limited"; message := "hook rate limited" |})
    else (rl2, None).

(** The [UPDATE notification_hooks] that consumes one use. *)
Definition effective_window (production : bool) (r : HookCols) : option Z :=
  if production && match hk_window_seconds r with
                   | None => true | Some w => w <? DEFAULT_RATE_LIMIT_WINDOW_SECONDS end
  then Some DEFAULT_RATE_LIMIT_WINDOW_SECONDS else hk_window_seconds r.
Definition effective_max (production : bool) (r : HookCols) : option Z :=
  if production && match hk_max_requests r with
                   | None => true | Some m => DEFAULT_RATE_LIMIT_MAX_REQUESTS <? m end
  then Some DEFAULT_RATE_LIMIT_MAX_REQUESTS else hk_max_requests r.
Definition unlimited (production : bool) (r : HookCols) : bool :=
  negb production && (bool_decide (hk_window_seconds r = None) || bool_decide (hk_max_requests r = None)).
Definition window_elapsed (production : bool) (now : Z) (r : HookCols) : bool :=
  match hk_window_started_at r, effective_window production r with
  | Some s, Some w => s + w <=? now
  | _, _ => false
  end.
Definition may_consume (production : bool) (now : Z) (r : HookCols) : bool :=
  bool_decide (hk_revoked_at r = None)
  && match hk_expires_at r with None => true | Some t => now <? t end
  && match hk_max_uses r with None => true | Some m => hk_use_count r <? m end
  && (unlimited production r || bool_decide (hk_window_started_at r = None)
      || window_elapsed production now r
      || match effective_max production r with Some m => hk_rate_limit_count r <? m | None => false end).
Definition consumed (production : bool) (now : Z) (r : HookCols) : HookCols :=
  let fresh_window := bool_decide (hk_window_started_at r = None) || window_elapsed production now r in
  {| hk_secret_hash := hk_secret_hash r; hk_recipient_id := hk_recipient_id r;
     hk_installation_id := hk_installation_id r; hk_label := hk_label r; hk_kind := hk_kind r;
     hk_workflow := hk_workflow r; hk_action := hk_action r; hk_deep_link := hk_deep_link r;
     hk_open_behavior := hk_open_behavior r; hk_privacy := hk_privacy r; hk_title := hk_title r;
     hk_body := hk_body r; hk_data_json := hk_data_json r; hk_created_at := hk_created_at r;
     hk_expires_at := hk_expires_at r; hk_revoked_at := hk_revoked_at r;
     hk_max_uses := hk_max_uses r; hk_use_count := hk_use_count r + 1;
     hk_last_used_at := Some now; hk_window_seconds := hk_window_seconds r;
     hk_max_requests := hk_max_requests r;
     hk_window_started_at :=
       if unlimited production r || fresh_window then Some now else hk_window_started_at r;
     hk_rate_limit_count :=
       if unlimited production r then 0
       else if fresh_window then 1 else hk_rate_limit_count r + 1 |}.
Definition consume_use (production : bool) (k : string) (now : Z) : PushTx Z :=
  d ← tx_get id;
  match hooks d !! k with
  | Some r =>
      if may_consume production now r then
        push_require (check_hook (consumed production now r));;
        tx_put (λ d, set_hooks (<[k := consumed production now r]> (hooks d)) d);;
        mret 1
      else mret 0
  | None => mret 0
  end.

(** [notification_from_hook_and_request]. *)
Definition insert_opt (key : string) (v : option string) (m : gmap string (Value Json))
  : gmap string (Value Json) :=
  match v with Some s => <[key := VString s]> m | None => m end.
Definition notification_from_hook_and_request (hook : HookRecord Json)
    (request : InvokeHookRequest Json) : Notification (Value Json) :=
  let m := <["pg.open_behavior"%string := VString (behavior_as_str (open_behavior hook))]> (data hook) in
  let m := <["pg.privacy"%string := VString (privacy_as_str (privacy hook))]> m in
  let m := insert_opt "pg.workflow" (workflow hook) m in
  let m := insert_opt "pg.action" (action hook) m in
  let m := insert_opt "pg.deep_link" (deep_link hook) m in
  let hide := bool_decide (privacy hook = DataOnly) in
  {| nt_recipient_id := recipient_id hook;
     nt_notification_id := ("hook:" +:+ hook_id hook +:+ ":" +:+ pretty (use_count hook))%string;
     nt_kind := default "hook"%string (kind hook);
     nt_title := if hide then None else title hook;
     nt_body := if hide then None else body hook;
     nt_data := ir_data request ∪ m |}.

(** [enforce_outbox_backlog_caps]. *)
Definition enforce_outbox_backlog_caps (recipient : string) (new_rows max_global max_recipient : Z)
    (d : PushDb) : res ApiError unit :=
  if new_rows =? 0 then Ok tt
  else if (0 <? max_global)
          && (max_global <? add_u64 (count_where (λ _ r, active r) (outbox d)) new_rows)
  then Err {| status := 503; code := "outbox_backlog_full"; message := "outbox backlog full" |}
  else if (0 <? max_recipient)
          && (max_recipient <?
              add_u64 (count_where (λ _ r, bool_decide (ob_recipient_id r = recipient) && active r)
                         (outbox d)) new_rows)
  then Err {| status := 429; code := "recipient_outbox_backlog_full";
              message := "recipient outbox backlog full" |}
  else Ok tt.

(** A hook record after the use it just spent. *)
Definition with_use (hook : HookRecord Json) (now : Z) : HookRecord Json :=
  {| hook_id := hook_id hook; recipient_id := recipient_id hook;
     installation_id := installation_id hook; label := label hook; kind := kind hook;
     title := title hook; body := body hook; privacy := privacy hook;
     open_behavior := open_behavior hook; workflow := workflow hook; action := action hook;
     deep_link := deep_link hook; data := data hook; expires_at := expires_at hook;
     max_uses := max_uses hook; rate_limit := rate_limit hook; created_at := created_at hook;
     revoked_at := revoked_at hook; use_count := saturating_add_i64 (use_count hook) 1;
     last_used_at := Some now |}.

(** The rest of [accept_invocation]: [None] when the use could not be
    consumed. *)
Definition finish_invocation (policy : InvocationPolicy) (k : string)
    (request : InvokeHookRequest Json) (hook : HookRecord Json) (targets : list PushRegistration)
    (now : Z) (event_id : string) (fresh : nat -> string) : ApiTx (option InvocationOutcome) :=
  n ← sql (consume_use (production_mode policy) k now);
  if negb (n =? 1) then mret None
  else
    let notification := notification_from_hook_and_request (with_use hook now) request in
    d ← tx_get id;
    tx_lift (enforce_outbox_backlog_caps (nt_recipient_id notification)
               (Z.of_nat (length targets)) (max_global_outbox_backlog policy)
               (max_recipient_outbox_backlog policy) d);;
    tx_lift (validate_fcm_outbound_notification notification);;
    let json := enc notification in
    sql (insert_event event_id
      {| ev_hook_id := k; ev_caller_idempotency_key := ir_idempotency_key request;
         ev_recipient_id := nt_recipient_id notification; ev_notification_json := json;
         ev_target_count := i64_or_max (Z.of_nat (length targets)); ev_created_at := now |});;
    match ir_idempotency_key request with
    | Some key => sql (record_in_transaction k key (Z.of_nat (length targets)) now (expires_at hook))
    | None => mret tt
    end;;
    tx_for (imap pair targets)
      (λ '(i, r), sql (insert_outbox (fresh i) (pending_row event_id json now r)));;
    mret (Some {| target_count := Z.of_nat (length targets);
                  enqueued_rows := negb (bool_decide (targets = [])) |}).

(** [accept_invocation]: every error drops the transaction; the limiters keep
    what they counted. *)
Definition accept_invocation (policy : InvocationPolicy) (source k secret : string)
    (request : InvokeHookRequest Json) (now now1 now2 now3 : Z) (event_id : string)
    (fresh : nat -> string) (d : PushDb) (rl : RateLimitState)
  : PushDb * RateLimitState * res ApiError InvocationOutcome :=
  match open_invocation policy k secret request now d with
  | Err e => (d, rl, Err e)
  | Panic => (d, rl, Panic)
  | Ok (d1, AlreadyAccepted n) => (d1, rl, Ok {| target_count := n; enqueued_rows := false |})
  | Ok (d1, Continue hook targets) =>
      let '(rl', limited) := enforce_invocation_rate_limits policy source k now1 now2 rl in
      match limited with
      | Some e => (d, rl', Err e)
      | None =>
          match finish_invocation policy k request hook targets now event_id fresh d1 with
          | Ok (d2, Some outcome) => (d2, rl', Ok outcome)
          | Ok (_, None) =>
              (d, rl',
               match verify_without_marking_used k secret now3 d with
               | Ok (Accepted r) =>
                   Err (if production_mode policy then rejection_to_error RateLimited
                        else rejection_to_error (Accepted r))
               | Ok outcome => Err (rejection_to_error outcome)
               | Err _ => Err internal_error
               | Panic => Panic
               end)
          | Err e => (d, rl', Err e)
          | Panic => (d, rl', Panic)
          end
      end
  end.

End Repository.
End Hooks.
