(* ===== verification/PushInvocations.v ===== *)
(** * What an accepted invocation does

    The comparison of secrets decides equality; an invocation is all or
    nothing; and the database after an accepted one, in full. *)

From S2P Require Import Prelude PushSchema PushOutbox PushRegistrations PushLimits PushHooks.
From stdpp Require Import base gmap strings list sorting.
From Stdlib Require Import ZArith Lia Ascii.
Open Scope Z_scope.

Module Invocations.
Import Outbox Registrations Limits Hooks.

(** ** Comparing secrets *)

Lemma fold_diff_zero l r i n diff :
  fold_diff l r i n diff = 0 ↔
  diff = 0 ∧ ∀ j, (i <= j < i + n)%nat → byte_at l j = byte_at r j.
Proof.
  revert i diff. induction n as [|n IH]; intros i diff; cbn.
  - split; [intros ->; split; [done|lia]|by intros [-> _]].
  - rewrite IH, Z.lor_eq_0_iff, Z.lxor_eq_0_iff. split.
    + intros [[-> Hi] Hj]. split; [done|]. intros j Hr. destruct (decide (j = i)) as [->|]; [done|].
      apply Hj. lia.
    + intros [-> Hj]. split_and!; [done|apply Hj; lia|]. intros j Hr. apply Hj. lia.
Qed.

Lemma strings_equal_bytes l r :
  String.length l = String.length r →
  (∀ j, (j < String.length l)%nat → byte_at l j = byte_at r j) → l = r.
Proof.
  revert r. induction l as [|a l IH]; intros [|b r]; cbn; intros Hlen Hb; try done.
  f_equal.
  - specialize (Hb 0%nat ltac:(lia)). unfold byte_at in Hb. cbn in Hb.
    apply N2Z.inj in Hb. by rewrite <- (ascii_N_embedding a), Hb, ascii_N_embedding.
  - apply IH; [lia|]. intros j Hj. exact (Hb (S j) ltac:(lia)).
Qed.

(** The comparison folds the lengths and every byte into one difference; it
    answers [true] exactly on equal strings. *)
Lemma constant_time_eq_true left right : constant_time_eq left right = true ↔ left = right.
Proof.
  unfold constant_time_eq. rewrite Z.eqb_eq, fold_diff_zero, Z.lxor_eq_0_iff. split.
  - intros [Hlen Hb]. apply strings_equal_bytes; [lia|]. intros j Hj. apply Hb. lia.
  - by intros ->.
Qed.

Section Invocations.
Context `{Scan} {Json : Type} `{!Codec (gmap string (Value Json))}
        `{!Codec (Notification (Value Json))}.
Variable hash_hex : string -> string.
Variable json_text : Json -> string.
Implicit Types (d : PushDb) (request : InvokeHookRequest Json) (hook : HookRecord Json).

(** A hook token is accepted exactly when the hook exists and stores the
    hash of that token, although the comparison never stops early: every byte
    of both texts and both lengths enter it. *)
Theorem verify_token_exact k token d :
  verify_token hash_hex k token d = true ↔
  ∃ row, hooks d !! k = Some row ∧ hk_secret_hash row = hash_hex token.
Proof.
  unfold verify_token. destruct (hooks d !! k) as [row|].
  - rewrite constant_time_eq_true. naive_solver.
  - naive_solver.
Qed.

(** ** The first part: capability, replay, target *)

(** The markers an invocation with a key reclaims. *)
Definition reclaimed (policy : InvocationPolicy) request (now : Z) d : PushDb :=
  match ir_idempotency_key request with
  | Some _ =>
      if idempotency_reclamation_batch_size policy =? 0 then d
      else set_tombstones (keep_where (λ k _, negb (bool_decide
             (k ∈ expired_batch now (idempotency_reclamation_batch_size policy) d))) (tombstones d)) d
  | None => d
  end.

(** The caller holds the secret of a live hook. *)
Record usable (k secret : string) (now : Z) d (row : HookCols) : Prop := {
  us_row : hooks d !! k = Some row;
  us_secret : hk_secret_hash row = hash_hex secret;
  us_revoked : hk_revoked_at row = None;
  us_expiry : match hk_expires_at row with Some t => now < t | None => True end
}.

(** The hook, the capability and the device an invocation may use. *)
Record callable (policy : InvocationPolicy) (k secret : string) request (now : Z) d
    (row : HookCols) hook (reg : PushRegistration) : Prop := {
  ca_usable : usable k secret now d row;
  ca_record : hook_record_from_row k row = Ok hook;
  ca_new : ∀ key, ir_idempotency_key request = Some key → tombstones d !! (k, key) = None;
  ca_target : eligible_installation (hk_recipient_id row) (hk_installation_id row)
    {| cutoff_timestamp := saturating_sub_i64 now (i64_or_max (registration_ttl policy)) |} d = Some reg;
  ca_markers : is_Some (ir_idempotency_key request) → 0 < max_idempotency_rows_global policy →
    Z.of_nat (size (tombstones (reclaimed policy request now d))) < max_idempotency_rows_global policy
}.

Lemma record_columns k row hook :
  hook_record_from_row k row = Ok hook →
  recipient_id hook = hk_recipient_id row ∧ installation_id hook = hk_installation_id row ∧
  revoked_at hook = hk_revoked_at row ∧ expires_at hook = hk_expires_at row.
Proof.
  unfold hook_record_from_row. intros (x & _ & [= <-])%res_bind_Ok. done.
Qed.

Lemma terminated_None hook now :
  classify_hook_capability_terminated hook now = None →
  revoked_at hook = None ∧ match expires_at hook with Some t => now < t | None => True end.
Proof.
  unfold classify_hook_capability_terminated. case_bool_decide as Hr; [done|].
  apply eq_None_not_Some in Hr. destruct (expires_at hook) as [t|]; [|done].
  destruct (Z.leb_spec t now); done.
Qed.

Lemma ensure_capacity_Ok policy request now d d' b :
  ensure_capacity_in_transaction now (max_idempotency_rows_global policy)
    (idempotency_reclamation_batch_size policy) d = Ok (d', b) →
  is_Some (ir_idempotency_key request) →
  d' = reclaimed policy request now d ∧
  (b = true → 0 < max_idempotency_rows_global policy →
     Z.of_nat (size (tombstones d')) < max_idempotency_rows_global policy).
Proof.
  unfold ensure_capacity_in_transaction, reclaimed. intros Ht [key ->].
  apply tx_bind_Ok in Ht as (d1 & n & Hp & Ht). unfold purge_expired_in_transaction in Hp.
  assert (d' = d1) as ->.
  { destruct (max_idempotency_rows_global policy =? 0); unfold mret, tx_ret, tx_get in Ht; by simplify_eq. }
  split.
  - destruct (idempotency_reclamation_batch_size policy =? 0); unfold mret, tx_ret in Hp; [by simplify_eq|].
    rewrite (tx_bind_eq _ _ d d d eq_refl) in Hp. apply tx_bind_Ok in Hp as (d2 & u & Hput & Hp).
    unfold tx_put in Hput. unfold mret, tx_ret in Hp. by simplify_eq.
  - intros -> Hmax. destruct (Z.eqb_spec (max_idempotency_rows_global policy) 0) as [?|_]; [lia|].
    unfold tx_get in Ht. simplify_eq. by apply Z.ltb_lt.
Qed.

(** Making room for the marker, when there will be one. *)
Lemma marker_room_Ok policy request now d d' :
  (match ir_idempotency_key request with
   | Some _ => sql (ensure_capacity_in_transaction now (max_idempotency_rows_global policy)
                      (idempotency_reclamation_batch_size policy))
   | None => mret true
   end : Tx PushDb ApiError bool) d = Ok (d', true) →
  d' = reclaimed policy request now d ∧
  (is_Some (ir_idempotency_key request) → 0 < max_idempotency_rows_global policy →
     Z.of_nat (size (tombstones d')) < max_idempotency_rows_global policy).
Proof.
  destruct (ir_idempotency_key request) as [key|] eqn:Hkey; intros Hfit.
  - unfold sql in Hfit.
    destruct (ensure_capacity_in_transaction _ _ _ d) as [[d2 b]|e|] eqn:Hens; simplify_eq.
    destruct (ensure_capacity_Ok policy request now d d' true Hens) as [? Hc]; [eauto|].
    split; [done|]. intros _. by apply Hc.
  - unfold mret, tx_ret in Hfit. simplify_eq. unfold reclaimed. rewrite Hkey.
    split; [done|]. by intros [? ?].
Qed.

Lemma open_Ok policy k secret request now d d' v :
  open_invocation hash_hex policy k secret request now d = Ok (d', v) →
  match v with
  | AlreadyAccepted n => d' = d ∧ ∃ row key t, usable k secret now d row ∧
      ir_idempotency_key request = Some key ∧
      tombstones d !! (k, key) = Some t ∧ n = usize_or_0 (tb_target_count t)
  | Continue hook targets => ∃ row reg, targets = [reg] ∧ d' = reclaimed policy request now d ∧
      callable policy k secret request now d row hook reg
  end.
Proof.
  unfold open_invocation. intros Ht. rewrite (tx_bind_eq _ _ d d d eq_refl) in Ht. cbn [id] in Ht.
  destruct (hooks d !! k) as [row|] eqn:Hrow; [|done].
  destruct (constant_time_eq (hk_secret_hash row) (hash_hex secret)) eqn:Hsec; [|done]. cbn [negb] in Ht.
  apply constant_time_eq_true in Hsec.
  apply tx_bind_Ok in Ht as (d0 & hook & Hrec & Ht).
  assert (d0 = d ∧ hook_record_from_row k row = Ok hook) as [-> Hrec'].
  { unfold sql, tx_lift in Hrec. by destruct (hook_record_from_row k row); simplify_eq/=. }
  destruct (classify_hook_capability_terminated hook now) eqn:Hterm; [done|].
  destruct (record_columns _ _ _ Hrec') as (Hr & Hi & Hrev & Hexp).
  destruct (terminated_None _ _ Hterm) as [Hrev' Hexp'].
  assert (usable k secret now d row) as Husable.
  { split; [done..|by rewrite <- Hrev|by rewrite <- Hexp]. }
  destruct (ir_idempotency_key request ≫= λ key, retained_target_count k key d) as [n|] eqn:Hkey.
  { unfold mret, tx_ret in Ht. simplify_eq. split; [done|].
    apply bind_Some in Hkey as (key & Hk & Hn). unfold retained_target_count in Hn. apply fmap_Some in Hn as (t & Ht & ->).
    by exists row, key, t. }
  destruct (classify_hook_before_target hook now) eqn:Hbefore; [done|].
  destruct (eligible_installation _ _ _ d) as [reg|] eqn:Hel; [|done].
  apply tx_bind_Ok in Ht as (d1 & fits & Hfit & Ht). destruct fits; [|done].
  cbn [negb] in Ht. unfold mret, tx_ret in Ht. simplify_eq. exists row, reg. split; [done|].
  destruct (marker_room_Ok policy request now d d' Hfit) as [-> Hcap].
  split; [done|]. split; try done.
  - intros key Hk. rewrite Hk in Hkey. cbn in Hkey. unfold retained_target_count in Hkey.
    by destruct (tombstones d !! (k, key)).
  - by rewrite <- Hr, <- Hi.
Qed.

(** ** The second part: the use, the event, the marker, the delivery *)

(** The rows an accepted invocation writes. *)
Definition notification_of hook request (now : Z) : Notification (Value Json) :=
  notification_from_hook_and_request (with_use hook now) request.
Definition event_of (k : string) hook request (now : Z) : EventCols :=
  {| ev_hook_id := k; ev_caller_idempotency_key := ir_idempotency_key request;
     ev_recipient_id := recipient_id hook;
     ev_notification_json := enc (notification_of hook request now);
     ev_target_count := 1; ev_created_at := now |}.
Definition marker_of hook (now : Z) : TombstoneCols :=
  {| tb_target_count := 1; tb_accepted_at := now;
     tb_retain_until := retain_until now (expires_at hook) |}.
Definition delivery_of (event_id : string) hook request (now : Z) (reg : PushRegistration) : OutboxCols :=
  pending_row event_id (enc (notification_of hook request now)) now reg.

Definition with_marker (k : string) hook request (now : Z) d : PushDb :=
  match ir_idempotency_key request with
  | Some key => set_tombstones (<[(k, key) := marker_of hook now]> (tombstones d)) d
  | None => d
  end.

(** The database after it. *)
Definition accepted_db (policy : InvocationPolicy) (k : string) request (row : HookCols) hook
    (reg : PushRegistration) (now : Z) (event_id outbox_id : string) d : PushDb :=
  let d := set_hooks (<[k := consumed (production_mode policy) now row]> (hooks d)) d in
  let d := set_events (<[event_id := event_of k hook request now]> (events d)) d in
  let d := with_marker k hook request now d in
  set_outbox (<[outbox_id := delivery_of event_id hook request now reg]> (outbox d)) d.

Lemma accepted_tables policy k request row hook reg now event_id outbox_id d :
  let d' := accepted_db policy k request row hook reg now event_id outbox_id d in
  hooks d' = <[k := consumed (production_mode policy) now row]> (hooks d) ∧
  events d' = <[event_id := event_of k hook request now]> (events d) ∧
  outbox d' = <[outbox_id := delivery_of event_id hook request now reg]> (outbox d) ∧
  tombstones d' = match ir_idempotency_key request with
                  | Some key => <[(k, key) := marker_of hook now]> (tombstones d)
                  | None => tombstones d
                  end.
Proof. unfold accepted_db, with_marker. destruct (ir_idempotency_key request); done. Qed.

Lemma sql_Ok {A} (t : Tx PushDb PushError A) d d' a : sql t d = Ok (d', a) → t d = Ok (d', a).
Proof. unfold sql. destruct (t d) as [[]|e|]; naive_solver. Qed.

Lemma consume_use_Ok production k now d d' :
  consume_use production k now d = Ok (d', 1) →
  ∃ row, hooks d !! k = Some row ∧ may_consume production now row = true ∧
    d' = set_hooks (<[k := consumed production now row]> (hooks d)) d.
Proof.
  unfold consume_use. intros Ht. rewrite (tx_bind_eq _ _ d d d eq_refl) in Ht. cbn [id] in Ht.
  destruct (hooks d !! k) as [row|] eqn:Hrow; [|unfold mret, tx_ret in Ht; by simplify_eq].
  destruct (may_consume production now row) eqn:Hm; [|unfold mret, tx_ret in Ht; by simplify_eq].
  apply tx_bind_Ok in Ht as (d1 & u & [-> _]%push_require_Ok & Ht).
  apply tx_bind_Ok in Ht as (d2 & u2 & Hput & Ht). unfold tx_put in Hput. unfold mret, tx_ret in Ht.
  simplify_eq. eauto.
Qed.

(** An insert guarded by its constraints. *)
Lemma insert_event_Ok k r d d' u :
  insert_event k r d = Ok (d', u) → events d !! k = None ∧ d' = set_events (<[k := r]> (events d)) d.
Proof.
  unfold insert_event. intros Ht. rewrite (tx_bind_eq _ _ d d d eq_refl) in Ht.
  apply tx_bind_Ok in Ht as (d1 & u1 & [-> Hreq]%push_require_Ok & Ht).
  rewrite !andb_true_iff, !bool_decide_eq_true in Hreq. unfold tx_put in Ht. simplify_eq. cbn in *. tauto.
Qed.
Lemma insert_outbox_Ok k r d d' u :
  insert_outbox k r d = Ok (d', u) → outbox d !! k = None ∧ d' = set_outbox (<[k := r]> (outbox d)) d.
Proof.
  unfold insert_outbox. intros Ht. rewrite (tx_bind_eq _ _ d d d eq_refl) in Ht.
  apply tx_bind_Ok in Ht as (d1 & u1 & [-> Hreq]%push_require_Ok & Ht).
  rewrite !andb_true_iff, !bool_decide_eq_true in Hreq. unfold tx_put in Ht. simplify_eq. cbn in *. tauto.
Qed.
Lemma record_marker_Ok k hook request now d d' u :
  (match ir_idempotency_key request with
   | Some key => sql (record_in_transaction k key 1 now (expires_at hook))
   | None => mret tt
   end : Tx PushDb ApiError unit) d = Ok (d', u) →
  d' = with_marker k hook request now d.
Proof.
  unfold with_marker. destruct (ir_idempotency_key request) as [key|]; intros Ht;
    [|unfold mret, tx_ret in Ht; by simplify_eq].
  apply sql_Ok in Ht. unfold record_in_transaction in Ht. rewrite (tx_bind_eq _ _ d d d eq_refl) in Ht.
  apply tx_bind_Ok in Ht as (d1 & u1 & [-> _]%push_require_Ok & Ht). unfold tx_put in Ht. by simplify_eq.
Qed.

(** Backlog within the caps (as [u64] counts). *)
Definition within_backlog (policy : InvocationPolicy) (recipient : string) d : Prop :=
  (0 < max_global_outbox_backlog policy →
     Z.min u64_max (count_where (λ _ r, active r) (outbox d)) <= max_global_outbox_backlog policy) ∧
  (0 < max_recipient_outbox_backlog policy →
     Z.min u64_max (count_where (λ _ r, bool_decide (ob_recipient_id r = recipient) && active r)
                      (outbox d)) <= max_recipient_outbox_backlog policy).

Lemma count_new p (t : gmap string OutboxCols) k r :
  t !! k = None → p k r = true → count_where p (<[k := r]> t) = count_where p t + 1.
Proof. intros Hk Hp. rewrite count_where_insert, Hp, delete_id by done. done. Qed.

Lemma backlog_after policy recipient k r d u :
  enforce_outbox_backlog_caps recipient 1 (max_global_outbox_backlog policy)
    (max_recipient_outbox_backlog policy) d = Ok u →
  outbox d !! k = None → active r = true → ob_recipient_id r = recipient →
  within_backlog policy recipient (set_outbox (<[k := r]> (outbox d)) d).
Proof.
  intros Hcaps Hk Ha Hr. unfold within_backlog. cbn [outbox set_outbox].
  rewrite !count_new by (rewrite ?Ha, ?Hr, ?bool_decide_true; done).
  unfold enforce_outbox_backlog_caps, add_u64, saturating_add_u in Hcaps. cbn [Z.eqb] in Hcaps.
  set (g := count_where _ _) in *. set (n := count_where _ _) in Hcaps |- *.
  destruct (Z.ltb_spec 0 (max_global_outbox_backlog policy)),
    (Z.ltb_spec (max_global_outbox_backlog policy) (Z.min u64_max (g + 1))); try done;
  destruct (Z.ltb_spec 0 (max_recipient_outbox_backlog policy)),
    (Z.ltb_spec (max_recipient_outbox_backlog policy) (Z.min u64_max (n + 1))); try done; lia.
Qed.

Lemma eligible_recipient recipient installation e d reg :
  eligible_installation recipient installation e d = Some reg → pr_recipient_id reg = recipient.
Proof.
  unfold eligible_installation. repeat case_match; intros; simplify_eq; done.
Qed.

(** What the second part commits. *)
Lemma finish_Ok policy k request hook reg now event_id fresh d d' outcome :
  finish_invocation json_text policy k request hook [reg] now event_id fresh d = Ok (d', Some outcome) →
  pr_recipient_id reg = recipient_id hook →
  ∃ row, hooks d !! k = Some row ∧ may_consume (production_mode policy) now row = true ∧
    events d !! event_id = None ∧ outbox d !! fresh 0%nat = None ∧
    validate_fcm_outbound_notification json_text (notification_of hook request now) = Ok tt ∧
    d' = accepted_db policy k request row hook reg now event_id (fresh 0%nat) d ∧
    within_backlog policy (recipient_id hook) d' ∧
    outcome = {| target_count := 1; enqueued_rows := true |}.
Proof.
  unfold finish_invocation. intros Ht Hreg.
  apply tx_bind_Ok in Ht as (d1 & n & Huse%sql_Ok & Ht).
  destruct (Z.eqb_spec n 1) as [->|]; cbn [negb] in Ht; [|unfold mret, tx_ret in Ht; by simplify_eq].
  apply consume_use_Ok in Huse as (row & Hrow & Hmay & ->).
  rewrite (tx_bind_eq _ _ _ _ _ eq_refl) in Ht.
  apply tx_bind_Ok in Ht as (d2 & u2 & Hcap & Ht). unfold tx_lift in Hcap.
  apply res_bind_Ok in Hcap as (u & Hcap & [= <- <-]).
  apply tx_bind_Ok in Ht as (d3 & u3 & Hval & Ht). unfold tx_lift in Hval.
  apply res_bind_Ok in Hval as ([] & Hval & [= <- <-]).
  apply tx_bind_Ok in Ht as (d4 & u4 & [Hev ->]%sql_Ok%insert_event_Ok & Ht).
  apply tx_bind_Ok in Ht as (d5 & u5 & ->%record_marker_Ok & Ht).
  apply tx_bind_Ok in Ht as (d6 & u6 & Hfor & Ht). cbn [imap tx_for] in Hfor.
  apply tx_bind_Ok in Hfor as (d7 & u7 & [Hob ->]%sql_Ok%insert_outbox_Ok & Hfor).
  unfold mret, tx_ret in Hfor, Ht. simplify_eq.
  assert (outbox (with_marker k hook request now
    (set_events (<[event_id := event_of k hook request now]> (events d))
       (set_hooks (<[k := consumed (production_mode policy) now row]> (hooks d)) d))) = outbox d) as Heq.
  { unfold with_marker. by destruct (ir_idempotency_key request). }
  match goal with Hn : outbox ?x !! fresh 0%nat = None |- _ =>
    change x with (with_marker k hook request now
      (set_events (<[event_id := event_of k hook request now]> (events d))
        (set_hooks (<[k := consumed (production_mode policy) now row]> (hooks d)) d))) in Hn;
    rewrite Heq in Hn end.
  exists row. split_and!; try done.
  pose proof (backlog_after policy (recipient_id hook) (fresh 0%nat)
    (delivery_of event_id hook request now reg) _ u Hcap) as Hb.
  unfold within_backlog in Hb |- *.
  destruct (accepted_tables policy k request row hook reg now event_id (fresh 0%nat) d)
    as (_ & _ & Htab & _).
  change (set_outbox _ _) with (accepted_db policy k request row hook reg now event_id (fresh 0%nat) d).
  rewrite Htab. by apply Hb.
Qed.

(** Every outcome of an invocation. *)
Lemma accept_cases policy source k secret request now now1 now2 now3
    event_id fresh d rl :
  match accept_invocation hash_hex json_text policy source k secret request now now1 now2 now3
          event_id fresh d rl with
  | (d', _, Ok {| target_count := n; enqueued_rows := true |}) =>
      n = 1 ∧ ∃ row hook reg,
        callable policy k secret request now d row hook reg ∧
        may_consume (production_mode policy) now row = true ∧
        events d !! event_id = None ∧
        within_backlog policy (recipient_id hook) d' ∧
        d' = accepted_db policy k request row hook reg now event_id (fresh 0%nat)
               (reclaimed policy request now d)
  | (d', _, Ok {| target_count := n; enqueued_rows := false |}) =>
      d' = d ∧ ∃ row key t, usable k secret now d row ∧ ir_idempotency_key request = Some key ∧
        tombstones d !! (k, key) = Some t ∧ n = usize_or_0 (tb_target_count t)
  | (d', _, _) => d' = d
  end.
Proof.
  unfold accept_invocation.
  destruct (open_invocation _ _ _ _ _ _ d) as [[d1 v]|e|] eqn:Ho; [|done..].
  apply open_Ok in Ho. destruct v as [n|hook targets].
  - destruct Ho as [-> Hrep]. done.
  - destruct Ho as (row & reg & -> & -> & Hc).
    destruct (enforce_invocation_rate_limits _ _ _ _ _ rl) as [rl' [e|]]; [done|].
    destruct (finish_invocation _ _ _ _ _ _ _ _ _ _) as [[d2 [out|]]|e|] eqn:Hf; try done.
    + pose proof Hc as [[Hrow _ _ _] Hrec _ Htarget _].
      destruct (record_columns _ _ _ Hrec) as (Hrid & _).
      apply finish_Ok in Hf as (row' & Hrow' & Hmay & Hev & _ & _ & -> & Hb & ->);
        [|by rewrite Hrid; eapply eligible_recipient].
      assert (row' = row) as ->.
      { revert Hrow'. unfold reclaimed. repeat case_match; cbn; congruence. }
      assert (events d !! event_id = None).
      { revert Hev. unfold reclaimed. repeat case_match; done. }
      split; [done|]. by exists row, hook, reg.
    + by destruct (verify_without_marking_used _ _ _ _ _) as [[]|e|].
Qed.

(** C25: an invocation is all or nothing and its effect is exact.  An error
    leaves the database as it was.  A replay of a retained key, by a caller who
    still holds a live hook's secret, answers the stored count and writes
    nothing.  An accepted invocation had the right
    secret for a hook that is neither revoked nor expired and has uses left,
    an eligible device and room in the backlog; it spends one use, stores one
    event and its idempotency marker, and enqueues one pending delivery to
    that device. *)
Theorem invocation_all_or_nothing policy source k secret request now now1 now2 now3
    event_id fresh d rl :
  match accept_invocation hash_hex json_text policy source k secret request now now1 now2 now3
          event_id fresh d rl with
  | (d', _, Ok {| target_count := n; enqueued_rows := true |}) =>
      n = 1 ∧ ∃ row hook reg,
        callable policy k secret request now d row hook reg ∧
        may_consume (production_mode policy) now row = true ∧
        events d !! event_id = None ∧
        within_backlog policy (recipient_id hook) d' ∧
        d' = accepted_db policy k request row hook reg now event_id (fresh 0%nat)
               (reclaimed policy request now d)
  | (d', _, Ok {| target_count := n; enqueued_rows := false |}) =>
      d' = d ∧ ∃ row key t, usable k secret now d row ∧ ir_idempotency_key request = Some key ∧
        tombstones d !! (k, key) = Some t ∧ n = usize_or_0 (tb_target_count t)
  | (d', _, _) => d' = d
  end.
Proof. apply accept_cases. Qed.

End Invocations.
End Invocations.
