(* ===== verification/PushSystem.v ===== *)
(** * The push gateway as a transition system

    Every operation of the repositories and the hook invocation as one [Op],
    with the clock reads and random ids it uses; a gateway state carries the
    database, the limiters, how far the clocks have got and which ids were
    ever drawn.  Steps use non-decreasing clocks and fresh ids.  The theorems
    hold in every state such steps reach. *)

From S2P Require Import Prelude PushSchema PushOutbox PushDelivery PushRegistrations PushLimits PushHooks.
From stdpp Require Import base gmap strings list sorting relations.
From Stdlib Require Import ZArith Lia.
Open Scope Z_scope.

Module Gateway.
Import Outbox Delivery Registrations Limits Hooks.

(** ** Proof steps over the operations *)

Lemma sql_rel {A} (R : relation PushDb) (t : PushTx A) : tx_rel R t → tx_rel R (sql t).
Proof. intros Ht d d' a. unfold sql. destruct (t d) as [[]|e|] eqn:Hd; naive_solver. Qed.

Ltac unfold_ops := unfold delete_installation, disable_installation,
  disable_installation_if_token_matches, purge_stale, admit_hook, revoke,
  purge_terminal_unreferenced, purge_terminal_in_transaction, purge_expired,
  purge_expired_in_transaction, disable_where, purge_orphaned_token_owners_in_transaction,
  ensure_capacity_in_transaction, record_in_transaction,
  insert_hook, insert_event, insert_outbox, consume_use, acquire_admission_lock,
  open_invocation, finish_invocation, reset_in_progress, expire_delivery_resolution_deadlines,
  mark_succeeded, delete_dead_letter_rows, purge_retained_sensitive_data, claim_row,
  mark_corrupted_notification_dead_letter, mark_failed_query, update_outbox.

Ltac push_rel := repeat first [pool_rel_step | tx_rel_step | apply sql_rel | progress unfold_ops].

Ltac to_pool := match goal with |- ?R ?d (?t ?d).1 => revert d; change (pool_rel R t) end.

Section System.
Context `{Scan} {Json : Type} `{!Codec (gmap string (Value Json))}
        `{!Codec (Notification (Value Json))}.
Variable hash_hex : string -> string.
Variable json_text : Json -> string.

Inductive Op :=
| OpAdmitInstallation (recipient : string) (request : RegisterInstallationRequest)
    (e : RegistrationEligibility) (limits : RegistrationAdmissionLimits) (now : Z)
| OpDeleteInstallation (recipient installation : string) (now : Z)
| OpDisableInstallation (recipient installation : string) (reason : option string) (now : Z)
| OpDisableIfToken (recipient installation token : string) (reason : option string) (now : Z)
| OpPurgeStale (cutoff now : Z)
| OpAdmitHook (recipient : string) (request : CreateHookRequest Json)
    (e : RegistrationEligibility) (limits : HookAdmissionLimits) (now : Z) (new_id token : string)
| OpRevoke (k recipient : string) (now : Z)
| OpPurgeTerminal (now : Z)
| OpPurgeExpired (now : Z)
| OpInvoke (policy : InvocationPolicy) (source k secret : string)
    (request : InvokeHookRequest Json) (now now1 now2 now3 : Z) (event_id outbox_id : string)
| OpReset (now : Z)
| OpExpire (now db_now : Z)
| OpClaim (now now' : Z) (claim_id : string)
| OpMarkSucceeded (outbox_id claim_id : string) (now db_now : Z)
| OpMarkFailed (outbox_id claim_id : string) (error : DeliveryOutboxFailure) (now db_now : Z)
| OpMarkInvalid (delivery : ClaimedDelivery (Value Json)) (reason : string) (now : Z)
| OpReplay (sel : OutboxDeadLetterSelector) (dry_run : bool) (now db_now : Z)
| OpDelete (sel : OutboxDeadLetterSelector) (dry_run : bool)
| OpPurgeRetained (cutoff now : Z).

Definition invoke (policy : InvocationPolicy) (source k secret : string)
    (request : InvokeHookRequest Json) (now now1 now2 now3 : Z) (event_id outbox_id : string)
    (d : PushDb) (rl : RateLimitState) : PushDb * RateLimitState * res ApiError InvocationOutcome :=
  accept_invocation hash_hex json_text policy source k secret request now now1 now2 now3
    event_id (λ _, outbox_id) d rl.

(** The effect of an operation on the database and the limiters. *)
Definition exec (o : Op) (d : PushDb) (rl : RateLimitState) : PushDb * RateLimitState :=
  match o with
  | OpAdmitInstallation recipient request e limits now =>
      ((admit_installation recipient request e limits now d).1, rl)
  | OpDeleteInstallation recipient installation now =>
      ((delete_installation recipient installation now d).1, rl)
  | OpDisableInstallation recipient installation reason now =>
      ((disable_installation recipient installation reason now d).1, rl)
  | OpDisableIfToken recipient installation token reason now =>
      ((disable_installation_if_token_matches recipient installation token reason now d).1, rl)
  | OpPurgeStale cutoff now => ((purge_stale cutoff now d).1, rl)
  | OpAdmitHook recipient request e limits now new_id token =>
      ((admit_hook hash_hex recipient request e limits now new_id token d).1, rl)
  | OpRevoke k recipient now => ((revoke k recipient now d).1, rl)
  | OpPurgeTerminal now => ((purge_terminal_unreferenced now d).1, rl)
  | OpPurgeExpired now => ((purge_expired now d).1, rl)
  | OpInvoke policy source k secret request now now1 now2 now3 event_id outbox_id =>
      (invoke policy source k secret request now now1 now2 now3 event_id outbox_id d rl).1
  | OpReset now => ((reset_in_progress now d).1, rl)
  | OpExpire now db_now => ((expire_delivery_resolution_deadlines now db_now d).1, rl)
  | OpClaim now now' claim_id => ((claim_due (Value:=Value Json) now now' claim_id d).1, rl)
  | OpMarkSucceeded i c now db_now => ((mark_succeeded i c now db_now d).1, rl)
  | OpMarkFailed i c error now db_now => ((mark_failed i c error now db_now d).1, rl)
  | OpMarkInvalid delivery reason now =>
      ((mark_invalid_token_and_disable_registration delivery reason now d).1, rl)
  | OpReplay sel dry_run now db_now => ((replay_dead_letter_rows sel dry_run now db_now d).1, rl)
  | OpDelete sel dry_run => ((delete_dead_letter_rows sel dry_run d).1, rl)
  | OpPurgeRetained cutoff now => ((purge_retained_sensitive_data cutoff now d).1, rl)
  end.

(** Its clock reads and the ids it draws. *)
Definition op_now (o : Op) : option Z :=
  match o with
  | OpAdmitInstallation _ _ _ _ now | OpDeleteInstallation _ _ now
  | OpDisableInstallation _ _ _ now | OpDisableIfToken _ _ _ _ now | OpPurgeStale _ now
  | OpAdmitHook _ _ _ _ now _ _ | OpRevoke _ _ now | OpPurgeTerminal now | OpPurgeExpired now
  | OpInvoke _ _ _ _ _ now _ _ _ _ _ | OpReset now | OpExpire now _ | OpClaim now _ _
  | OpMarkSucceeded _ _ now _ | OpMarkFailed _ _ _ now _ | OpMarkInvalid _ _ now
  | OpReplay _ _ now _ | OpPurgeRetained _ now => Some now
  | OpDelete _ _ => None
  end.
Definition op_db_now (o : Op) : option Z :=
  match o with
  | OpExpire _ db_now | OpMarkSucceeded _ _ _ db_now | OpMarkFailed _ _ _ _ db_now
  | OpReplay _ _ _ db_now => Some db_now
  | _ => None
  end.
Definition op_ids (o : Op) : list string :=
  match o with
  | OpAdmitHook _ _ _ _ _ new_id _ => [new_id]
  | OpInvoke _ _ _ _ _ _ _ _ _ event_id outbox_id => [event_id; outbox_id]
  | _ => []
  end.

(** A created hook expires, as the handler requires of every request. *)
Definition op_wf (o : Op) : Prop :=
  match o with
  | OpAdmitHook _ request _ _ _ _ _ => ∃ s, cr_expires_in_seconds request = Some s ∧ 0 < s
  | _ => True
  end.

Record Gw := {
  gw_db : PushDb;
  gw_limits : RateLimitState;
  gw_clock : Z;
  gw_db_clock : Z;
  gw_minted : gset string
}.

(** The state an operation leaves. *)
Definition after (o : Op) (s : Gw) : Gw :=
  {| gw_db := (exec o (gw_db s) (gw_limits s)).1;
     gw_limits := (exec o (gw_db s) (gw_limits s)).2;
     gw_clock := default (gw_clock s) (op_now o);
     gw_db_clock := default (gw_db_clock s) (op_db_now o);
     gw_minted := gw_minted s ∪ list_to_set (op_ids o) |}.

(** Clocks are non-negative [i64]s that do not go back; drawn ids are fresh. *)
Record admissible (s : Gw) (o : Op) : Prop := {
  adm_wf : op_wf o;
  adm_clock : gw_clock s <= default (gw_clock s) (op_now o);
  adm_db_clock : gw_db_clock s <= default (gw_db_clock s) (op_db_now o);
  adm_ids : NoDup (op_ids o);
  adm_fresh : ∀ k, k ∈ op_ids o → k ∉ gw_minted s;
  adm_range : ∀ now, op_now o = Some now → 0 <= now <= i64_max
}.

Inductive step (s : Gw) : Gw -> Prop :=
| step_op o : admissible s o → step s (after o s).

Definition start (clock db_clock : Z) : Gw :=
  {| gw_db := initial_push_db; gw_limits := ∅; gw_clock := clock; gw_db_clock := db_clock;
     gw_minted := ∅ |}.
Definition reachable (s : Gw) : Prop := ∃ clock db_clock, rtc step (start clock db_clock) s.

(** ** Every token has one route *)

Lemma delete_installation_routes x y now : pool_rel routes_rel (delete_installation x y now).
Proof.
  unfold delete_installation. apply pool_rel_in_tx; [apply _|].
  apply tx_rel_bind; [apply _|apply acquire_routes|intros _].
  intros d d' v Ht [Huniq Hown]. rewrite (tx_bind_eq _ _ d d d eq_refl) in Ht.
  apply tx_bind_Ok in Ht as (d1 & u1 & H1 & Ht). apply tx_bind_Ok in Ht as (d2 & u2 & H2 & Ht).
  unfold tx_put in H1, H2. unfold mret, tx_ret in Ht. simplify_eq. split; cbn.
  - intros k k' r r' [_ Hk]%lookup_delete_Some [_ Hk']%lookup_delete_Some. by eapply Huniq.
  - intros k r [Hne Hk]%lookup_delete_Some. destruct (Hown k r Hk) as (o & Ho & Heq).
    exists o. split; [|done]. apply lookup_keep_where. split; [done|]. cbn.
    apply negb_true_iff, andb_false_iff. rewrite !bool_decide_eq_false. subst k.
    destruct (decide (ow_recipient_id o = x)), (decide (ow_installation_id o = y)); auto.
    subst. done.
Qed.

Lemma disable_where_routes p k reason now : tx_rel routes_rel (disable_where p k reason now).
Proof.
  unfold disable_where. intros d d' v Ht. rewrite (tx_bind_eq _ _ d d d eq_refl) in Ht. cbn [id] in Ht.
  destruct (registrations d !! k) as [r|] eqn:Hk; [|by unfold mret, tx_ret in Ht; simplify_eq].
  case_match; [|by unfold mret, tx_ret in Ht; simplify_eq].
  apply tx_bind_Ok in Ht as (d1 & u1 & [-> _]%push_require_Ok & Ht).
  apply tx_bind_Ok in Ht as (d2 & u2 & H2 & Ht). unfold tx_put in H2. unfold mret, tx_ret in Ht.
  simplify_eq. apply routes_ok_sub; [done|]. cbn.
  intros k' r' [[<- <-]|[_ Hk']]%lookup_insert_Some; eauto.
Qed.

Lemma purge_stale_routes cutoff now : pool_rel routes_rel (purge_stale cutoff now).
Proof.
  unfold purge_stale. pool_rel_auto; [apply acquire_routes| |apply purge_owners_routes].
  apply routes_ok_sub; [done|]. cbn. intros k r' [Hk _]%lookup_keep_where. eauto.
Qed.

(** Operations that leave registrations and owners alone. *)
Definition same_routes (d d' : PushDb) : Prop :=
  registrations d' = registrations d ∧ token_owners d' = token_owners d.
#[local] Instance same_routes_preorder : PreOrder same_routes.
Proof. split; unfold same_routes; [done|]. intros ??? [??] [??]; split; congruence. Qed.
Lemma same_routes_rel d d' : same_routes d d' → routes_rel d d'.
Proof. intros [Hr Ho]. unfold routes_rel, routes_ok. by rewrite Hr, Ho. Qed.

(** Operations that write the outbox alone. *)
Definition outbox_only (d d' : PushDb) : Prop :=
  same_routes d d' ∧ events d' = events d ∧ hooks d' = hooks d ∧ tombstones d' = tombstones d.
#[local] Instance outbox_only_preorder : PreOrder outbox_only.
Proof.
  split; [done|]. intros d1 d2 d3 (? & ? & ? & ?) (? & ? & ? & ?).
  split_and!; [by etrans|congruence..].
Qed.
Lemma outbox_only_routes d d' : outbox_only d d' → routes_rel d d'.
Proof. intros [Hs _]. by apply same_routes_rel. Qed.

Lemma invoke_rel (R : relation PushDb) `{!PreOrder R} policy source k secret request
    now now1 now2 now3 event_id outbox_id d rl :
  tx_rel R (open_invocation hash_hex policy k secret request now) →
  (∀ hook targets, tx_rel R (finish_invocation json_text policy k request hook targets now
                               event_id (λ _, outbox_id))) →
  R d (invoke policy source k secret request now now1 now2 now3 event_id outbox_id d rl).1.1.
Proof.
  intros Ho Hf. unfold invoke, accept_invocation.
  destruct (open_invocation _ _ _ _ _ _ d) as [[d1 [n|hook targets]]|e|] eqn:H1; cbn; try done.
  - by eapply Ho.
  - destruct (enforce_invocation_rate_limits _ _ _ _ _ _) as [rl' [e|]]; [done|].
    destruct (finish_invocation _ _ _ _ _ _ _ _ _ d1) as [[d2 [out|]]|e|] eqn:H2; cbn; try done.
    etrans; [by eapply Ho|by eapply Hf].
Qed.

Lemma open_same_routes policy k secret request now :
  tx_rel same_routes (open_invocation hash_hex policy k secret request now).
Proof. push_rel; done. Qed.

Lemma finish_same_routes policy k request hook targets now event_id fresh :
  tx_rel same_routes (finish_invocation json_text policy k request hook targets now event_id fresh).
Proof. push_rel; done. Qed.

Lemma claim_only now now' c :
  pool_rel outbox_only (claim_due (Value:=Value Json) now now' c).
Proof.
  unfold claim_due. push_rel; try done. apply claim_corrupted_rel. push_rel; done.
Qed.

Lemma fetch_rel (R : relation PushDb) `{!PreOrder R} i : pool_rel R (fetch_outbox i).
Proof. intros d. unfold fetch_outbox. by destruct (outbox d !! i). Qed.

Lemma selected_rel (R : relation PushDb) `{!PreOrder R} sel : pool_rel R (selected sel).
Proof. intros d. done. Qed.

Lemma failed_only i c error now db_now :
  pool_rel outbox_only (mark_failed i c error now db_now).
Proof. unfold mark_failed. push_rel; try done; apply fetch_rel, _. Qed.

Lemma replay_only sel dry now db_now :
  pool_rel outbox_only (replay_dead_letter_rows sel dry now db_now).
Proof.
  assert (∀ rows n, tx_rel outbox_only (replay_loop rows now db_now n)) as Hl.
  { induction rows as [|row rows IH]; intros n; cbn [replay_loop]; push_rel; try done; apply IH. }
  unfold replay_dead_letter_rows. push_rel; try apply Hl. apply selected_rel, _.
Qed.

Lemma delete_only sel dry : pool_rel outbox_only (delete_dead_letter_rows sel dry).
Proof.
  assert (∀ rows n, tx_rel outbox_only (delete_loop rows n)) as Hl.
  { induction rows as [|row rows IH]; intros n; cbn [delete_loop]; push_rel; try done; apply IH. }
  push_rel; try apply Hl. apply selected_rel, _.
Qed.

Lemma update_only p upd : tx_rel outbox_only (update_outbox p upd).
Proof. push_rel; done. Qed.

Lemma invalid_token_routes (dl : ClaimedDelivery (Value Json)) reason now :
  pool_rel routes_rel (mark_invalid_token_and_disable_registration dl reason now).
Proof.
  unfold mark_invalid_token_and_disable_registration. apply pool_rel_in_tx; [apply _|].
  apply tx_rel_bind; [apply _| |intros n].
  { intros d d' a Ht. by eapply outbox_only_routes, update_only. }
  destruct (n =? 0); [push_rel|].
  pose proof (disable_where_routes
    (λ r, bool_decide (rg_fcm_token r = pr_fcm_token (cd_registration dl)))
    (pr_recipient_id (cd_registration dl), pr_installation_id (cd_registration dl))
    (Some reason) now) as Hd.
  intros d d' v Ht. rewrite (tx_bind_eq _ _ d d d eq_refl) in Ht. specialize (Hd d).
  unfold disable_where in Hd. rewrite (tx_bind_eq _ _ d d d eq_refl) in Hd. cbn [id] in Ht, Hd.
  destruct (registrations d !! _) as [r|]; [|unfold mret, tx_ret in Ht; by simplify_eq].
  case_bool_decide; [|unfold mret, tx_ret in Ht; by simplify_eq].
  apply tx_bind_Ok in Ht as (d1 & u1 & Hreq & Ht).
  rewrite (tx_bind_eq _ _ _ _ _ Hreq) in Hd.
  apply tx_bind_Ok in Ht as (d2 & u2 & Hput & Ht).
  rewrite (tx_bind_eq _ _ _ _ _ Hput) in Hd. unfold mret, tx_ret in Ht. simplify_eq.
  by apply (Hd d' true).
Qed.

Lemma purge_retained_routes cutoff now :
  pool_rel routes_rel (purge_retained_sensitive_data cutoff now).
Proof.
  unfold purge_retained_sensitive_data. push_rel; apply routes_ok_sub; try done; cbn; eauto.
  intros k r' [Hk _]%lookup_keep_where. eauto.
Qed.

Lemma admit_hook_same_routes recipient request e limits now new_id token :
  pool_rel same_routes (admit_hook hash_hex recipient request e limits now new_id token).
Proof. push_rel; done. Qed.

Lemma exec_routes o d rl : routes_rel d (exec o d rl).1.
Proof.
  destruct o; cbn [exec fst].
  - apply admit_routes.
  - apply delete_installation_routes.
  - unfold disable_installation. apply pool_rel_on_pool; [apply _|]. apply disable_where_routes.
  - unfold disable_installation_if_token_matches. apply pool_rel_on_pool; [apply _|].
    apply disable_where_routes.
  - apply purge_stale_routes.
  - apply same_routes_rel, admit_hook_same_routes.
  - apply same_routes_rel. to_pool. push_rel; done.
  - apply same_routes_rel. to_pool. push_rel; done.
  - apply same_routes_rel. to_pool. push_rel; done.
  - apply same_routes_rel, invoke_rel; [apply _|apply open_same_routes|intros; apply finish_same_routes].
  - apply same_routes_rel. to_pool. push_rel; done.
  - apply same_routes_rel. to_pool. push_rel; done.
  - apply outbox_only_routes, claim_only.
  - apply same_routes_rel. to_pool. push_rel; done.
  - apply outbox_only_routes, failed_only.
  - apply invalid_token_routes.
  - apply outbox_only_routes, replay_only.
  - apply outbox_only_routes, delete_only.
  - apply purge_retained_routes.
Qed.

(** in every reachable gateway a provider token belongs to one installation:
    no two registrations share a token, and the durable owner of a registered
    token is the recipient and installation that registered it. *)
Theorem tokens_have_one_owner s (Hreach : reachable s) : routes_ok (gw_db s).
Proof.
  destruct Hreach as (c & c' & Hsteps). apply (rtc_ind_r (λ s, routes_ok (gw_db s)) _) in Hsteps; [done| |].
  - split; cbn; intros *; by rewrite lookup_empty.
  - intros s1 s2 _ [o _] IH. by apply exec_routes.
Qed.

(** ** The fate of an outbox row *)

(** The foreign keys. *)
Definition refs_ok (d : PushDb) : Prop :=
  (∀ k o, outbox d !! k = Some o → is_Some (events d !! ob_event_id o)) ∧
  (∀ k e, events d !! k = Some e → is_Some (hooks d !! ev_hook_id e)) ∧
  (∀ k t, tombstones d !! k = Some t → is_Some (hooks d !! k.1)).

(** A row moves along its state machine; it disappears only once terminal. *)
Definition fate (T : Clocks) (r : OutboxCols) (o : option OutboxCols) : Prop :=
  ∃ r', rtc (delivery_step T) r r' ∧
    match o with Some r'' => r'' = r' | None => terminal r' = true end.

(** Operations that add no rows. *)
Definition life (T : Clocks) (d d' : PushDb) : Prop :=
  refs_ok d → refs_ok d' ∧ dom (outbox d') ⊆ dom (outbox d) ∧
    ∀ k r, outbox d !! k = Some r → fate T r (outbox d' !! k).

#[local] Instance life_preorder T : PreOrder (life T).
Proof.
  split.
  - intros d Hok. split_and!; [done..|]. intros k r Hk. exists r. by rewrite Hk.
  - intros d1 d2 d3 H12 H23 Hok. destruct (H12 Hok) as (Hok2 & Hd2 & Hf2).
    destruct (H23 Hok2) as (Hok3 & Hd3 & Hf3). split_and!; [done|set_solver|].
    intros k r1 Hk. destruct (Hf2 k r1 Hk) as (r2 & Hr2 & Hm).
    destruct (outbox d2 !! k) as [r|] eqn:H2.
    + subst r. destruct (Hf3 k r2 H2) as (r3 & Hr3 & Hm3). exists r3. split; [by etrans|done].
    + exists r2. split; [done|]. destruct (outbox d3 !! k) eqn:H3; [|done]. exfalso.
      apply not_elem_of_dom in H2. apply H2, Hd3, elem_of_dom. eauto.
Qed.

(** Writes outside the delivery tables. *)
Lemma life_other T d d' :
  outbox d' = outbox d → events d' = events d →
  (∀ k, is_Some (hooks d !! k) → is_Some (hooks d' !! k)) →
  (∀ k t, tombstones d' !! k = Some t → is_Some (tombstones d !! k)) →
  life T d d'.
Proof.
  intros Ho He Hh Ht (H1 & H2 & H3). split_and!.
  - unfold refs_ok. rewrite Ho, He. split_and!; [done|by eauto|].
    intros k t [t' Hk]%Ht. eauto.
  - by rewrite Ho.
  - intros k r Hk. exists r. by rewrite Ho, Hk.
Qed.

(** Steps of the state machine keep the event of a row. *)
Lemma delivery_step_event T r r' : rtc (delivery_step T) r r' → ob_event_id r' = ob_event_id r.
Proof. induction 1 as [|r r1 r2 Hs _ IH]; [done|]. rewrite IH. by destruct Hs. Qed.

Lemma rows_step_life T d d' :
  rows_step T d d' → events d' = events d → hooks d' = hooks d → tombstones d' = tombstones d →
  life T d d'.
Proof.
  intros [Hdom Hrows] He Hh Ht (H1 & H2 & H3). split_and!.
  - unfold refs_ok. rewrite He, Hh, Ht. split_and!; [|done..]. intros k o' Hk'.
    assert (is_Some (outbox d !! k)) as [o Hk].
    { apply elem_of_dom. rewrite <- Hdom. apply elem_of_dom. eauto. }
    rewrite (delivery_step_event T o o'); [by eapply H1|by eapply Hrows].
  - by rewrite Hdom.
  - intros k r Hk. assert (is_Some (outbox d' !! k)) as [r' Hk'].
    { apply elem_of_dom. rewrite Hdom. apply elem_of_dom. eauto. }
    exists r'. rewrite Hk'. split; [by eapply Hrows|done].
Qed.

(** Deleting terminal rows. *)
Lemma life_delete T (keep : string -> OutboxCols -> bool) d :
  (∀ k r, keep k r = false → terminal r = true) →
  life T d (set_outbox (keep_where keep (outbox d)) d).
Proof.
  intros Hkeep (H1 & H2 & H3). split_and!.
  - unfold refs_ok. cbn. split_and!; [|done..]. intros k o [Hk _]%lookup_keep_where. eauto.
  - cbn. apply dom_filter_subseteq.
  - intros k r Hk. exists r. split; [done|]. cbn.
    destruct (keep_where keep (outbox d) !! k) as [r'|] eqn:Hl.
    + apply lookup_keep_where in Hl as [Hk' _]. congruence.
    + apply (Hkeep k r). apply not_true_is_false. intros Hp.
      by rewrite (proj2 (lookup_keep_where keep _ k r)) in Hl.
Qed.

(** The purge of events keeps those a row refers to. *)
Lemma life_purge_events T cutoff d :
  life T d (set_events (keep_where (λ k e, negb (event_purgeable cutoff d k e)) (events d)) d).
Proof.
  intros (H1 & H2 & H3). split_and!; [|done|].
  - unfold refs_ok. cbn. split_and!; [|intros k e [Hk _]%lookup_keep_where; eauto|done].
    intros k o Hk. destruct (H1 k o Hk) as [e He]. exists e. apply lookup_keep_where. split; [done|].
    unfold event_purgeable. apply negb_true_iff, andb_false_iff. right.
    apply bool_decide_eq_false. intros Hall. by apply (Hall k o Hk).
  - intros k r Hk. exists r. cbn. by rewrite Hk.
Qed.

(** Reclaiming hooks no event refers to touches no delivery. *)
Lemma life_delete_hooks T ks d :
  (∀ k, k ∈ ks → unreferenced d k = true) → life T d (delete_hooks ks d).
Proof.
  intros Hks (H1 & H2 & H3).
  assert (events (delete_hooks ks d) = events d) as He.
  { unfold delete_hooks. cbn. unfold keep_where. apply map_filter_id. intros k e Hk. cbn.
    apply negb_true_iff, bool_decide_eq_false. intros Hin%Hks%bool_decide_eq_true.
    by apply (Hin k e Hk). }
  assert (outbox (delete_hooks ks d) = outbox d) as Ho.
  { transitivity (keep_where (λ _ o, bool_decide (is_Some (events d !! ob_event_id o))) (outbox d)).
    - unfold delete_hooks in He |- *. cbn in He |- *. by rewrite He.
    - unfold keep_where. apply map_filter_id. intros k o Hk. cbn.
      apply bool_decide_eq_true. eauto. }
  split_and!.
  - unfold refs_ok. rewrite Ho, He. split_and!; [done| |].
    + intros k e Hk. destruct (H2 k e Hk) as [h Hh]. exists h. cbn. apply lookup_keep_where.
      split; [done|]. apply negb_true_iff, bool_decide_eq_false.
      intros Hin%Hks%bool_decide_eq_true. by apply (Hin k e Hk).
    + cbn. intros k t [Hk Hg]%lookup_keep_where. destruct (H3 k t Hk) as [h Hh].
      exists h. by apply lookup_keep_where.
  - by rewrite Ho.
  - intros k r Hk. exists r. by rewrite Ho, Hk.
Qed.

Lemma delivery_life {A} T (t : Pool A) :
  pool_rel (rows_step T) t → pool_rel outbox_only t → pool_rel (life T) t.
Proof. intros Hr Ho d. destruct (Ho d) as (_ & ? & ? & ?). by apply rows_step_life. Qed.

Lemma invalid_token_life T (dl : ClaimedDelivery (Value Json)) reason now :
  pool_rel (life T) (mark_invalid_token_and_disable_registration dl reason now).
Proof.
  unfold mark_invalid_token_and_disable_registration. apply pool_rel_in_tx; [apply _|].
  apply tx_rel_bind; [apply _| |intros n].
  - intros d d' m Hu. destruct (update_only _ _ d d' m Hu) as (_ & ? & ? & ?).
    apply rows_step_life; [|done..]. eapply update_outbox_step; [|done].
    intros k r (_ & _ & Hs)%claimed_by_true. by apply step_once, step_invalid_token.
  - push_rel. apply life_other; eauto.
Qed.

Lemma elem_of_terminal_batch now n d k : k ∈ terminal_batch now n d → unreferenced d k = true.
Proof.
  intros ([k' r] & -> & Hin)%list_elem_of_fmap.
  by apply elem_of_limit, elem_of_select_by in Hin as [_ [_ Hu]%andb_true_iff].
Qed.
Lemma elem_of_terminal_unreferenced now d k :
  k ∈ terminal_unreferenced now d → unreferenced d k = true.
Proof.
  intros ([k' r] & -> & Hin)%list_elem_of_fmap.
  apply list_elem_of_filter in Hin as [Hp _]. by apply andb_true_iff in Hp as [_ Hu].
Qed.

(** Writes of a hook row or of markers. *)
Lemma life_hook T k r d : life T d (set_hooks (<[k := r]> (hooks d)) d).
Proof.
  apply life_other; try done; cbn; eauto. intros k' Hk'.
  destruct (decide (k' = k)) as [->|]; [rewrite lookup_insert_eq|rewrite lookup_insert_ne]; eauto.
Qed.
Lemma life_keep_markers T keep d :
  life T d (set_tombstones (keep_where keep (tombstones d)) d).
Proof. apply life_other; try done; cbn. intros k t [Hk _]%lookup_keep_where. eauto. Qed.
Lemma life_registrations T x d : life T d (set_registrations x d).
Proof. apply life_other; cbn; eauto. Qed.
Lemma life_owners T x d : life T d (set_token_owners x d).
Proof. apply life_other; cbn; eauto. Qed.
Lemma life_locks T x d : life T d (set_admission_locks x d).
Proof. apply life_other; cbn; eauto. Qed.
Hint Resolve life_hook life_keep_markers life_registrations life_owners life_locks : manifold.
Hint Resolve life_purge_events : manifold.

Lemma admit_installation_life T recipient request e limits now :
  pool_rel (life T) (admit_installation recipient request e limits now).
Proof.
  unfold admit_installation, purge_stale_in_transaction, write_registration, upsert_registration,
    purge_orphaned_token_owners_in_transaction. push_rel; auto with manifold.
Qed.

Lemma admit_hook_life T recipient request e limits now new_id token :
  pool_rel (life T) (admit_hook hash_hex recipient request e limits now new_id token).
Proof.
  push_rel; auto with manifold. apply life_delete_hooks. apply elem_of_terminal_batch.
Qed.

Lemma purge_retained_life T cutoff now :
  pool_rel (life T) (purge_retained_sensitive_data cutoff now).
Proof.
  push_rel; auto with manifold. apply life_delete. intros k r Hp%negb_false_iff.
  by apply andb_true_iff in Hp as [Ht _].
Qed.

Lemma delete_life T sel dry : pool_rel (life T) (delete_dead_letter_rows sel dry).
Proof.
  assert (∀ rows n, tx_rel (life T) (delete_loop rows n)) as Hl.
  { induction rows as [|row rows IH]; intros n; cbn [delete_loop]; push_rel.
    apply life_delete. intros k r [_ Hd]%negb_false_iff%andb_true_iff.
    unfold terminal. by rewrite Hd, orb_true_r. }
  push_rel; try apply Hl. apply selected_rel, _.
Qed.

Definition new_row (now : Z) (r : OutboxCols) : Prop :=
  ob_status r = "pending"%string ∧ ob_attempts r = 0 ∧
  ob_created_at r = now ∧ ob_next_attempt_at r = now.

(** An invocation adds rows under its own id and changes no other. *)
Definition grow (i : string) (now : Z) (d d' : PushDb) : Prop :=
  refs_ok d → refs_ok d' ∧ outbox d ⊆ outbox d' ∧ dom (outbox d') ⊆ {[ i ]} ∪ dom (outbox d) ∧
    ∀ k r, outbox d' !! k = Some r → outbox d !! k = Some r ∨ new_row now r.
#[local] Instance grow_preorder i now : PreOrder (grow i now).
Proof.
  split.
  - intros d Hok. split_and!; [done..|set_solver|auto].
  - intros d1 d2 d3 H12 H23 Hok. destruct (H12 Hok) as (Hok2 & Hs & Hd & Hn).
    destruct (H23 Hok2) as (? & Hs' & Hd' & Hn'). split_and!; [done|by etrans|set_solver|].
    intros k r [Hk|?]%Hn'; auto.
Qed.

Lemma grow_other i now d d' :
  outbox d' = outbox d → (refs_ok d → refs_ok d') → grow i now d d'.
Proof. intros Ho Hr Hok. rewrite Ho. split_and!; [auto|done|set_solver|auto]. Qed.

Lemma insert_event_grow i now k r : tx_rel (grow i now) (insert_event k r).
Proof.
  intros d d' u Ht. unfold insert_event in Ht. rewrite (tx_bind_eq _ _ d d d eq_refl) in Ht.
  apply tx_bind_Ok in Ht as (d1 & u1 & [-> Hreq]%push_require_Ok & Ht).
  unfold tx_put in Ht. simplify_eq. apply grow_other; [done|]. intros (H1 & H2 & H3).
  rewrite !andb_true_iff, !bool_decide_eq_true in Hreq. destruct Hreq as ((((Hnew & Hh) & _) & _) & _).
  unfold refs_ok. cbn. split_and!; [| |done].
  - intros k' o Hk'. destruct (decide (ob_event_id o = k)) as [->|];
      [rewrite lookup_insert_eq; eauto|rewrite lookup_insert_ne by done; eauto].
  - intros k' e [[<- <-]|[_ Hk']]%lookup_insert_Some; eauto.
Qed.

Lemma insert_outbox_grow i now r : new_row now r → tx_rel (grow i now) (insert_outbox i r).
Proof.
  intros Hrow d d' u Ht. unfold insert_outbox in Ht. rewrite (tx_bind_eq _ _ d d d eq_refl) in Ht.
  apply tx_bind_Ok in Ht as (d1 & u1 & [-> Hreq]%push_require_Ok & Ht).
  unfold tx_put in Ht. simplify_eq. intros (H1 & H2 & H3).
  rewrite !andb_true_iff, !bool_decide_eq_true in Hreq. destruct Hreq as (((Hnew & He) & _) & _).
  cbn. split_and!.
  - unfold refs_ok. cbn. split_and!; [|done..].
    intros k' o [[<- <-]|[_ Hk']]%lookup_insert_Some; eauto.
  - by apply insert_subseteq.
  - rewrite dom_insert. done.
  - intros k' r' [[<- <-]|[_ Hk']]%lookup_insert_Some; auto.
Qed.

Lemma record_grow i now hook key n at_ e : tx_rel (grow i now) (record_in_transaction hook key n at_ e).
Proof.
  intros d d' u Ht. unfold record_in_transaction in Ht. rewrite (tx_bind_eq _ _ d d d eq_refl) in Ht.
  apply tx_bind_Ok in Ht as (d1 & u1 & [-> Hreq]%push_require_Ok & Ht).
  unfold tx_put in Ht. simplify_eq. apply grow_other; [done|]. intros (H1 & H2 & H3).
  rewrite !andb_true_iff, !bool_decide_eq_true in Hreq. destruct Hreq as ((((_ & Hh) & _) & _) & _).
  unfold refs_ok. cbn. split_and!; [done..|].
  intros k' t [[<- <-]|[_ Hk']]%lookup_insert_Some; eauto.
Qed.

Lemma consume_grow i now production k at_ : tx_rel (grow i now) (consume_use production k at_).
Proof.
  unfold consume_use. push_rel. apply grow_other; [done|]. intros Hok.
  by apply (life_hook {| process_now := 0; database_now := 0 |} k _ s).
Qed.
Hint Resolve insert_event_grow insert_outbox_grow record_grow consume_grow : manifold.

Lemma finish_grow policy k request hook targets now event_id i :
  tx_rel (grow i now) (finish_invocation json_text policy k request hook targets now event_id (λ _, i)).
Proof.
  unfold finish_invocation.
  repeat first [tx_rel_step | apply sql_rel; solve [auto with manifold]].
  apply sql_rel, insert_outbox_grow. done.
Qed.

Lemma open_grow i policy k secret request now :
  tx_rel (grow i now) (open_invocation hash_hex policy k secret request now).
Proof.
  push_rel. apply grow_other; [done|]. intros Hok. by apply (life_keep_markers {| process_now := 0; database_now := 0 |} _ _ Hok).
Qed.

(** *** Every operation *)

Definition fates (T : Clocks) (o : Op) (d d' : PushDb) : Prop :=
  (∀ k r, outbox d !! k = Some r → fate T r (outbox d' !! k)) ∧
  (∀ k, outbox d !! k = None → k ∉ op_ids o → outbox d' !! k = None) ∧
  (∀ k r, outbox d !! k = None → outbox d' !! k = Some r →
     ∃ now, op_now o = Some now ∧ new_row now r).

Lemma life_fates T o d d' : refs_ok d → life T d d' → refs_ok d' ∧ fates T o d d'.
Proof.
  intros Hok Hl. destruct (Hl Hok) as (Hok' & Hd & Hf). split; [done|]. split; [done|].
  assert (∀ k, outbox d !! k = None → outbox d' !! k = None) as Hnone.
  { intros k Hk. apply not_elem_of_dom. apply not_elem_of_dom in Hk. set_solver. }
  split; [auto|]. intros k r Hk%Hnone. congruence.
Qed.

Lemma exec_fates T o d rl :
  process_now T <= default (process_now T) (op_now o) →
  database_now T <= default (database_now T) (op_db_now o) → refs_ok d →
  refs_ok (exec o d rl).1 ∧ fates T o d (exec o d rl).1.
Proof.
  intros HN HT Hok. destruct o; cbn [exec fst op_now op_db_now default from_option id] in *.
  10: { destruct (invoke_rel (grow outbox_id now) policy source k secret request now now1 now2 now3
          event_id outbox_id d rl) as (Hok' & Hsub & Hdom & Hnew);
          [apply open_grow|intros; apply finish_grow|done|].
        split; [done|]. split_and!.
        - intros k' r Hk'. exists r. by rewrite (lookup_weaken _ _ _ _ Hk' Hsub).
        - intros k' Hk' Hids. apply not_elem_of_dom. apply not_elem_of_dom in Hk'. set_solver.
        - intros k' r Hk' [?|?]%Hnew; [congruence|eauto]. }
  all: apply life_fates; [done|]; clear Hok; to_pool.
  - apply admit_installation_life.
  - push_rel; auto with manifold.
  - push_rel; auto with manifold.
  - push_rel; auto with manifold.
  - push_rel; auto with manifold.
  - apply admit_hook_life.
  - push_rel; auto with manifold.
  - push_rel. apply life_delete_hooks, elem_of_terminal_unreferenced.
  - push_rel; auto with manifold.
  - apply delivery_life; [apply reset_steps|push_rel; done].
  - apply delivery_life; [by apply expire_steps|push_rel; done].
  - apply delivery_life; [by apply claim_steps|apply claim_only].
  - apply delivery_life; [by apply succeeded_steps|push_rel; done].
  - apply delivery_life; [by apply failed_steps|apply failed_only].
  - apply invalid_token_life.
  - apply delivery_life; [by apply replay_steps|apply replay_only].
  - apply delete_life.
  - apply purge_retained_life.
Qed.

(** ** Runs *)

(** What holds along a run that starts in [s] and only sees the database clock
    at [database_now T] and the process clock at [process_now T] or later. *)
Definition follows (T : Clocks) (s s' : Gw) : Prop :=
  refs_ok (gw_db s') ∧ dom (outbox (gw_db s')) ⊆ gw_minted s' ∧ gw_minted s ⊆ gw_minted s' ∧
  process_now T <= gw_clock s' ∧ database_now T <= gw_db_clock s' ∧
  ∀ k r, outbox (gw_db s) !! k = Some r → fate T r (outbox (gw_db s') !! k).

Lemma step_follows T s0 s s' :
  dom (outbox (gw_db s0)) ⊆ gw_minted s0 → follows T s0 s → step s s' → follows T s0 s'.
Proof.
  intros Hdom0 (Hok & Hdom & Hmint & HN & HT & Hfate) [o [_ Hnow Hdb _ Hfresh _]].
  destruct (exec_fates T o (gw_db s) (gw_limits s)) as (Hok' & Hf & Hnone & _); [| |done|].
  { destruct (op_now o); cbn in *; lia. }
  { destruct (op_db_now o); cbn in *; lia. }
  unfold follows, after. cbn [gw_db gw_minted gw_clock gw_db_clock].
  split_and!; [done| |set_solver| | |].
  - intros k Hk. destruct (decide (k ∈ op_ids o)); [set_solver|].
    apply elem_of_union_l, Hdom, elem_of_dom. destruct (outbox (gw_db s) !! k) eqn:Hs; [eauto|].
    apply elem_of_dom in Hk as [r Hk]. by rewrite Hnone in Hk.
  - destruct (op_now o); cbn in *; lia.
  - destruct (op_db_now o); cbn in *; lia.
  - intros k r Hk. destruct (Hfate k r Hk) as (r1 & Hr1 & Hm).
    destruct (outbox (gw_db s) !! k) as [r'|] eqn:Hs.
    + subst r'. destruct (Hf k r1 Hs) as (r2 & Hr2 & Hm2). exists r2. split; [by etrans|done].
    + exists r1. split; [done|]. rewrite Hnone; [done..|]. intros Hin%Hfresh. apply Hin, Hmint, Hdom0.
      apply elem_of_dom. eauto.
Qed.

Lemma steps_follow T s s' :
  refs_ok (gw_db s) → dom (outbox (gw_db s)) ⊆ gw_minted s →
  process_now T <= gw_clock s → database_now T <= gw_db_clock s →
  rtc step s s' → follows T s s'.
Proof.
  intros Hok Hdom HN HT. apply (rtc_ind_r (follows T s) s).
  - split_and!; try done. intros k r Hk. exists r. by rewrite Hk.
  - intros s1 s2 _ Hstep IH. by eapply step_follows.
Qed.

(** What every reachable state satisfies. *)
Lemma reachable_ok s : reachable s → refs_ok (gw_db s) ∧ dom (outbox (gw_db s)) ⊆ gw_minted s.
Proof.
  intros (c & c' & Hs).
  destruct (steps_follow {| process_now := c; database_now := c' |} (start c c') s)
    as (? & ? & _); [|cbn; set_solver|cbn; lia..|done|done].
  split_and!; cbn; intros *; by rewrite lookup_empty.
Qed.

(** A settled row past its deadline makes no step. *)
Lemma settled_no_step T r r' :
  terminal r = true → past_deadline (database_now T) r = true → ¬ delivery_step T r r'.
Proof.
  unfold terminal, past_deadline. intros Ht Hp%Z.leb_le Hs.
  destruct Hs as [now Hs|now db_now Ha HT Hd|now c Hc HN|now db_now Hs HT Hd|now db_now re Hs HT Hd Hlt|
    now re Hs|now re Hs|now db_now Hs HT Hd]; unfold active, claimable, has_status, past_deadline in *;
    repeat case_bool_decide; try rewrite Hs in *; try done; try congruence.
  all: apply Z.leb_gt in Hd; lia.
Qed.

Lemma final_no_step T r r' :
  has_status "succeeded" r || has_status "invalid_token" r = true → ¬ delivery_step T r r'.
Proof.
  intros Ht Hs.
  destruct Hs as [now Hs|now db_now Ha HT Hd|now c Hc HN|now db_now Hs HT Hd|now db_now re Hs HT Hd Hlt|
    now re Hs|now re Hs|now db_now Hs HT Hd]; unfold active, claimable, has_status in *;
    repeat case_bool_decide; try rewrite Hs in *; try done; try congruence.
Qed.

Lemma stuck_fate T r o : (∀ r', ¬ delivery_step T r r') → fate T r o → o = Some r ∨ o = None.
Proof.
  intros Hno (r' & Hr & Hm). assert (r' = r) as ->.
  { inversion Hr as [|? r1 ? Hs]; [done|]. by apply Hno in Hs. }
  destruct o; [left; congruence|by right].
Qed.

End System.
End Gateway.
