(* ===== verification/PushRuns.v ===== *)
(** * What every run of the push gateway keeps

    Theorems over reachable states and over runs between them: the stored rows
    are well typed, an outcome is final, the resolution deadline is absolute,
    retries are bounded, and a row interrupted by a restart is not due before
    its deadline.

    Module [Runs] holds these theorems; module [Claims] those about the claim
    queue. *)

From S2P Require Import Prelude PushSchema PushOutbox PushDelivery PushRegistrations PushLimits PushHooks PushSystem.
From stdpp Require Import base gmap strings list sorting relations.
From Stdlib Require Import ZArith Lia.
Open Scope Z_scope.

Module Runs.
Import Outbox Delivery Registrations Limits Hooks Gateway.

Section Runs.
Context `{Scan} {Json : Type} `{!Codec (gmap string (Value Json))}
        `{!Codec (Notification (Value Json))}.
Variable hash_hex : string -> string.
Variable json_text : Json -> string.

Abbreviation Op := (Op (Json:=Json)).
Abbreviation admissible := (admissible (Json:=Json)).
Abbreviation exec := (exec hash_hex json_text).
Abbreviation after := (after hash_hex json_text).
Abbreviation step := (step hash_hex json_text).
Abbreviation reachable := (reachable hash_hex json_text).
Implicit Types (s : Gw) (o : Op) (d : PushDb).

(** ** Induction over runs *)

(** A property of the state that every admissible operation keeps holds in
    every reachable state. *)
Lemma reachable_ind (P : Gw -> Prop) s :
  (∀ c c', P (start c c')) →
  (∀ s o, reachable s → admissible s o → P s → P (after o s)) →
  reachable s → P s.
Proof.
  intros Hinit Hstep (c & c' & Hs).
  revert s Hs. apply (rtc_ind_r P (start c c')); [apply Hinit|].
  intros s1 s2 Hs1 [o Ho] IH. apply Hstep; [by exists c, c'|done..].
Qed.

Lemma run_reachable s s' : reachable s → rtc step s s' → reachable s'.
Proof. intros (c & c' & Hs) Hr. exists c, c'. by etrans. Qed.

Lemma admissible_reachable s o : reachable s → admissible s o → reachable (after o s).
Proof. intros Hs Ho. eapply run_reachable; [done|]. by apply rtc_once, step_op. Qed.

(** The clocks of a state. *)
Definition clocks (s : Gw) : Clocks :=
  {| process_now := gw_clock s; database_now := gw_db_clock s |}.

Lemma run_follows s s' :
  reachable s → rtc step s s' → follows (clocks s) s s'.
Proof.
  intros Hs. destruct (reachable_ok _ _ _ Hs). apply steps_follow; cbn; done || lia.
Qed.

(** C32: refinement of the delivery state machine.  From every reachable
    state, every admissible operation of the gateway moves each outbox row
    along [delivery_step], removes rows only in a terminal status, and adds
    only pending rows with no attempts, under an id it has just drawn. *)
Theorem operations_refine_delivery s o (Hreach : reachable s) (Ho : admissible s o) :
  fates (clocks s) o (gw_db s) (gw_db (after o s)).
Proof.
  destruct (reachable_ok _ _ _ Hreach). destruct Ho.
  by apply (exec_fates hash_hex json_text (clocks s) o (gw_db s) (gw_limits s)).
Qed.

(** ** Types of the stored rows *)

Definition check_event (e : EventCols) : bool := (0 <=? ev_target_count e) && (0 <=? ev_created_at e).
Definition check_tombstone (t : TombstoneCols) : bool :=
  (0 <=? tb_target_count t) && (0 <=? tb_accepted_at t) && (0 <=? tb_retain_until t).

Record typed (d : PushDb) : Prop := {
  ty_registrations : map_Forall (λ _ r, check_registration r = true) (registrations d);
  ty_hooks : map_Forall (λ _ r, check_hook r = true) (hooks d);
  ty_events : map_Forall (λ _ r, check_event r = true) (events d);
  ty_outbox : map_Forall (λ _ r, check_outbox r = true) (outbox d);
  ty_tombstones : map_Forall (λ _ r, check_tombstone r = true) (tombstones d)
}.
Definition typed_rel (d d' : PushDb) : Prop := typed d → typed d'.
#[local] Instance typed_rel_preorder : PreOrder typed_rel.
Proof. split; unfold typed_rel; auto. Qed.

Lemma keep_where_Forall {K V} `{Countable K} (P : K -> V -> Prop) (p : K -> V -> bool) (t : gmap K V) :
  map_Forall P t → map_Forall P (keep_where p t).
Proof. intros HP k v [Hk _]%lookup_keep_where. eauto. Qed.

Lemma require_rel (R : relation PushDb) `{!PreOrder R} {A} b (k : unit -> PushTx A) :
  (b = true → tx_rel R (k tt)) → tx_rel R (push_require b ≫= k).
Proof.
  intros Hk d d' a Ht. apply tx_bind_Ok in Ht as (d1 & [] & [-> Hb]%push_require_Ok & Ht).
  by eapply Hk.
Qed.

Lemma update_outbox_typed p upd : tx_rel typed_rel (update_outbox p upd).
Proof.
  intros d d' n (-> & _ & Hc)%update_outbox_Ok [? ? ? Hob ?]. split; try done. cbn.
  intros k r. rewrite lookup_update. intros (r0 & Hr & ->)%fmap_Some_1.
  destruct (p k r0) eqn:Hp; [by apply (Hc k)|by apply (Hob k)].
Qed.

Ltac typed_rel_auto :=
  repeat first [apply require_rel; [apply _|intros ?] | apply update_outbox_typed
               | pool_rel_step | tx_rel_step | apply sql_rel
               | apply fetch_rel; apply _ | apply selected_rel; apply _ | progress unfold_ops].
Ltac typed_put :=
  match goal with |- typed_rel _ _ =>
    intros []; split; cbn; try done;
    repeat first [apply keep_where_Forall; done | apply map_Forall_delete; done
                 | apply map_Forall_insert_2; [|done]];
    try (repeat match goal with H : _ && _ = true |- _ => apply andb_true_iff in H as [? ?] end;
         unfold check_event, check_tombstone; rewrite ?andb_true_iff; repeat split; done)
  end.

Lemma invoke_typed policy source k secret request now now1 now2 now3 event_id i d rl :
  typed_rel d (invoke hash_hex json_text policy source k secret request now now1 now2 now3
                 event_id i d rl).1.1.
Proof.
  apply invoke_rel; [apply _| |intros hook targets]; typed_rel_auto; typed_put.
Qed.

Lemma replay_loop_typed rows now db_now n : tx_rel typed_rel (replay_loop rows now db_now n).
Proof. revert n. induction rows as [|row rows IH]; intros n; cbn [replay_loop]; typed_rel_auto. Qed.
Lemma delete_loop_typed rows n : tx_rel typed_rel (delete_loop rows n).
Proof.
  revert n. induction rows as [|row rows IH]; intros n; cbn [delete_loop]; typed_rel_auto.
  typed_put.
Qed.

Lemma exec_typed o d rl : typed_rel d (exec o d rl).1.
Proof.
  destruct o; cbn [exec fst].
  10: apply invoke_typed.
  all: to_pool; unfold admit_installation, purge_stale_in_transaction, write_registration,
    upsert_registration, claim_due, mark_failed, replay_dead_letter_rows,
    mark_invalid_token_and_disable_registration; typed_rel_auto; try typed_put.
  - apply claim_corrupted_rel. typed_rel_auto.
  - apply replay_loop_typed.
  - apply delete_loop_typed.
Qed.

Lemma reachable_typed s : reachable s → typed (gw_db s).
Proof.
  apply (reachable_ind (λ s, typed (gw_db s))).
  - intros c c'. split; apply map_Forall_empty.
  - intros s' o _ _ IH. by apply exec_typed.
Qed.


(** ** The deadline and final outcomes *)

Lemma stuck_run s s' k r :
  reachable s → rtc step s s' → (∀ r', ¬ delivery_step (clocks s) r r') →
  outbox (gw_db s) !! k = Some r →
  outbox (gw_db s') !! k = Some r ∨ outbox (gw_db s') !! k = None.
Proof.
  intros Hs Hrun Hstuck Hk. destruct (run_follows s s' Hs Hrun) as (_ & _ & _ & _ & _ & Hf).
  by eapply stuck_fate, Hf.
Qed.

(** An expiry pass at a sane clock settles every row past the deadline. *)
Lemma expire_settles now db_now d k r :
  0 <= now → typed d →
  outbox (expire_delivery_resolution_deadlines now db_now d).1 !! k = Some r →
  past_deadline db_now r = true → terminal r = true.
Proof.
  intros Hnow [_ _ _ Hob _]. unfold expire_delivery_resolution_deadlines, on_pool, run_tx.
  rewrite update_outbox_succeeds.
  - cbn [fst outbox set_outbox]. rewrite lookup_update. intros (r0 & Hr & ->)%fmap_Some_1.
    pose proof (active_or_terminal r0 (Hob k r0 Hr)) as Hat.
    destruct (active r0) eqn:Ha, (past_deadline db_now r0) eqn:Hd; cbn [andb]; try congruence;
      [done|by destruct (terminal r0)].
  - intros k' r' Hr' _. specialize (Hob k' r' Hr'). cbn in Hob.
    assert (0 <= ob_attempts r') by (unfold check_outbox in Hob; rewrite !andb_true_iff in Hob; lia).
    apply with_state_typed; auto. unfold statuses. set_solver.
Qed.

(** C23: the resolution deadline is absolute.  Once an expiry pass has run at
    database time [db_now], a delivery accepted at least
    [DELIVERY_RESOLUTION_DEADLINE_SECONDS] earlier is terminal, and in every
    later state of every run its row is untouched or deleted: no restart,
    claim, worker report or administrator replay revives it. *)
Theorem deadline_is_absolute s s' now db_now k r
    (Hreach : reachable s) (Hexpire : admissible s (OpExpire now db_now))
    (Hrow : outbox (gw_db (after (OpExpire now db_now) s)) !! k = Some r)
    (Hlate : past_deadline db_now r = true)
    (Hrun : rtc step (after (OpExpire now db_now) s) s') :
  terminal r = true ∧
  (outbox (gw_db s') !! k = Some r ∨ outbox (gw_db s') !! k = None).
Proof.
  destruct (adm_range _ _ Hexpire now eq_refl) as [Hnow _].
  assert (terminal r = true) as Ht.
  { by eapply expire_settles, Hlate; [|apply reachable_typed|]. }
  split; [done|]. eapply stuck_run; [by apply admissible_reachable|done| |done].
  intros r'. by apply settled_no_step.
Qed.

(** delivered and dead-token outcomes are final: in every later state of
    every run the row is untouched or deleted, whatever the clocks. *)
Theorem outcomes_are_final s s' k r
    (Hreach : reachable s) (Hrow : outbox (gw_db s) !! k = Some r)
    (Hfinal : has_status "succeeded" r || has_status "invalid_token" r = true)
    (Hrun : rtc step s s') :
  outbox (gw_db s') !! k = Some r ∨ outbox (gw_db s') !! k = None.
Proof. eapply stuck_run; [done..| |done]. intros r'. by apply final_no_step. Qed.

(** ** Schedules and leases *)

(** A row accepted by process time [C]: its retries follow the backoff table,
    its lease runs [IN_PROGRESS_LEASE_SECONDS] from the claim. *)
Record row_timed (C : Z) (r : OutboxCols) : Prop := {
  rt_created : ob_created_at r <= C;
  rt_attempts : 0 <= ob_attempts r;
  rt_retrying : ob_status r = "retrying"%string →
    1 <= ob_attempts r < MAX_DELIVERY_ATTEMPTS ∧
    ob_next_attempt_at r = ob_updated_at r + backoff_seconds (ob_attempts r);
  rt_lease : ob_status r = "in_progress"%string →
    is_Some (ob_claim_id r) ∧
    ob_next_attempt_at r = ob_updated_at r + IN_PROGRESS_LEASE_SECONDS ∧
    ob_created_at r <= ob_updated_at r
}.

Lemma step_timed T r r' :
  delivery_step T r r' → row_timed (process_now T) r → row_timed (process_now T) r'.
Proof. intros Hs [Hc Ha Hr Hl]. destruct Hs; split; cbn; try done; try lia; eauto with lia. Qed.

Lemma steps_timed T r r' :
  rtc (delivery_step T) r r' → row_timed (process_now T) r → row_timed (process_now T) r'.
Proof. induction 1; eauto using step_timed. Qed.

Lemma row_timed_mono C C' r : C <= C' → row_timed C r → row_timed C' r.
Proof. intros HC [Hc Ha Hr Hl]. split; [lia|done..]. Qed.

Lemma reachable_timed s :
  reachable s → map_Forall (λ _ r, row_timed (gw_clock s) r) (outbox (gw_db s)).
Proof.
  apply (reachable_ind (λ s, map_Forall (λ _ r, row_timed (gw_clock s) r) (outbox (gw_db s)))).
  { intros. apply map_Forall_empty. }
  clear s. intros s o Hs Ho IH k r Hk.
  destruct (reachable_ok _ _ _ Hs) as [Hok _]. destruct Ho as [_ Hnow Hdb _ _ _].
  destruct (exec_fates hash_hex json_text (clocks s) o (gw_db s) (gw_limits s))
    as (_ & Hfate & _ & Hnew); [done..|].
  destruct (outbox (gw_db s) !! k) as [r0|] eqn:H0.
  - destruct (Hfate k r0 H0) as (r1 & Hr1 & Hm). cbn in Hk. rewrite Hk in Hm. subst r1.
    apply (row_timed_mono (gw_clock s)); [done|].
    apply (steps_timed (clocks s) r0); [done|]. by apply (IH k).
  - destruct (Hnew k r H0 Hk) as (now & Hop & Hst & Hat & Hcr & Hnx).
    split; [cbn; rewrite Hop; cbn; lia|lia|rewrite Hst; done..].
Qed.

(** in every reachable state a delivery that waits for a retry has failed
    fewer than [MAX_DELIVERY_ATTEMPTS] times and is due [backoff_seconds]
    after its last failure, at most 300 seconds; one in progress carries a
    fencing token and a lease of exactly [IN_PROGRESS_LEASE_SECONDS] from the
    claim. *)
Theorem retry_schedule_bounded s k r
    (Hreach : reachable s) (Hrow : outbox (gw_db s) !! k = Some r) :
  (has_status "retrying" r = true →
     1 <= ob_attempts r < MAX_DELIVERY_ATTEMPTS ∧
     ob_next_attempt_at r = ob_updated_at r + backoff_seconds (ob_attempts r) ∧
     1 <= backoff_seconds (ob_attempts r) <= 300) ∧
  (has_status "in_progress" r = true →
     is_Some (ob_claim_id r) ∧
     ob_next_attempt_at r = ob_updated_at r + IN_PROGRESS_LEASE_SECONDS).
Proof.
  destruct (reachable_timed s Hreach k r Hrow) as [_ _ Hr Hl].
  rewrite !has_status_true. split; intros Hst.
  - destruct (Hr Hst). split_and!; try lia; unfold backoff_seconds; repeat case_match; lia.
  - by destruct (Hl Hst) as (? & ? & _).
Qed.

(** C34: a delivery interrupted by a restart is not retried in time.  The reset
    at startup makes an in-progress row pending but keeps its lease, and the
    lease ends no earlier than the resolution deadline: whenever the row is due
    again, its deadline has passed on the same clock. *)
Theorem interrupted_delivery_misses_deadline s now k r
    (Hreach : reachable s) (Hreset : admissible s (OpReset now))
    (Hrow : outbox (gw_db s) !! k = Some r) (Hbusy : has_status "in_progress" r = true) :
  ∃ r', outbox (gw_db (after (OpReset now) s)) !! k = Some r' ∧
    has_status "pending" r' = true ∧
    ∀ t, claimable t r' && (ob_next_attempt_at r' <=? t) = true → past_deadline t r' = true.
Proof.
  destruct (adm_range _ _ Hreset now eq_refl) as [Hnow _].
  destruct (reachable_timed s Hreach k r Hrow) as [_ _ _ Hl].
  destruct (Hl (proj1 (has_status_true _ r) Hbusy)) as (_ & Hnext & Hcreated).
  destruct (reachable_typed s Hreach) as [_ _ _ Hob _].
  cbn. unfold reset_in_progress, on_pool, run_tx. rewrite update_outbox_succeeds.
  - eexists. cbn [fst outbox set_outbox]. rewrite lookup_update, Hrow. cbn. rewrite Hbusy.
    split_and!; [done..|]. cbn. intros t [_ Ht%Z.leb_le]%andb_true_iff. unfold past_deadline. cbn.
    apply Z.leb_le. unfold IN_PROGRESS_LEASE_SECONDS, DELIVERY_RESOLUTION_DEADLINE_SECONDS in *. lia.
  - intros k' r' Hr' _. specialize (Hob k' r' Hr'). cbn in Hob.
    pose proof Hob as Hob'. unfold check_outbox in Hob'. rewrite !andb_true_iff in Hob'.
    apply with_state_typed; auto; [|lia..]. unfold statuses. set_solver.
Qed.

End Runs.
End Runs.

(** * The claim queue

    What one call of [claim_due] does, on every branch, and that reports of a
    worker which no longer holds the row change nothing. *)

Module Claims.
Import Outbox Delivery.

Section Claims.
Context `{Scan} {Value : Type} `{!Codec (Notification Value)}.
Implicit Types (d : PushDb) (r : OutboxCols).

Definition outbox_typed d : Prop := map_Forall (λ _ r, check_outbox r = true) (outbox d).

(** Rows a claim at [now] may take. *)
Definition due (now : Z) r : bool := claimable now r && (ob_next_attempt_at r <=? now).

(** A row taken under [claim_id]. *)
Definition taken (now : Z) (claim_id : string) r : OutboxCols :=
  with_state r "in_progress" (ob_attempts r) (now + IN_PROGRESS_LEASE_SECONDS)
    (ob_last_attempt_at r) (ob_last_error r) (Some claim_id) now.

(** A taken row whose notification does not parse. *)
Definition spoiled (now' : Z) r : OutboxCols :=
  with_state r "dead_letter" (ob_attempts r + 1) now' (Some now')
    (Some "notification_json_invalid"%string) None now'.

Lemma typed_parts r : check_outbox r = true → 0 <= ob_attempts r ∧ 0 <= ob_next_attempt_at r.
Proof. unfold check_outbox. rewrite !andb_true_iff. lia. Qed.

(** Updating the one row a predicate selects. *)
Lemma update_map_one k r (p : string -> OutboxCols -> bool) (upd : OutboxCols -> OutboxCols) d :
  outbox d !! k = Some r → p k r = true →
  (∀ k' r', outbox d !! k' = Some r' → p k' r' = true → k' = k) →
  map_imap (λ k r, Some (if p k r then upd r else r)) (outbox d) = <[k := upd r]> (outbox d) ∧
  count_where p (outbox d) = 1.
Proof.
  intros Hk Hp Huniq. split.
  - apply map_eq. intros k'. rewrite lookup_update. destruct (decide (k' = k)) as [->|Hne].
    + by rewrite lookup_insert_eq, Hk; cbn; rewrite Hp.
    + rewrite lookup_insert_ne by done. destruct (outbox d !! k') as [r'|] eqn:Hk'; [|done].
      cbn. destruct (p k' r') eqn:Hp'; [|done]. by destruct Hne; eapply Huniq.
  - rewrite (count_where_delete p (outbox d) k r) by done. rewrite Hp. cbn.
    rewrite (proj2 (count_where_0 p (delete k (outbox d)))); [done|].
    intros k' r' [Hne Hk']%lookup_delete_Some. apply not_true_is_false. intros Hp'.
    by apply Hne; symmetry; eapply Huniq.
Qed.

Lemma update_one k r p upd d :
  outbox d !! k = Some r → p k r = true → check_outbox (upd r) = true →
  (∀ k' r', outbox d !! k' = Some r' → p k' r' = true → k' = k) →
  update_outbox p upd d = Ok (set_outbox (<[k := upd r]> (outbox d)) d, 1).
Proof.
  intros Hk Hp Hc Huniq. destruct (update_map_one k r p upd d Hk Hp Huniq) as [Hm Hn].
  apply update_outbox_Ok. rewrite Hm, Hn. split_and!; [done..|].
  intros k' r' Hk' Hp'. cbn. pose proof (Huniq k' r' Hk' Hp') as ->. by simplify_eq.
Qed.

(** The row [claim_row] chooses: due, and least in the order of the query. *)
Definition chosen (now : Z) d (k : string) r : Prop :=
  outbox d !! k = Some r ∧ due now r = true ∧
  ∀ k' r', outbox d !! k' = Some r' → due now r' = true →
    ob_next_attempt_at r < ob_next_attempt_at r' ∨
    (ob_next_attempt_at r = ob_next_attempt_at r' ∧ ob_created_at r <= ob_created_at r').

Lemma claim_row_cases now c d :
  0 <= now → outbox_typed d →
  (claim_row now c d = Ok (d, Commit None) ∧ ∀ k r, outbox d !! k = Some r → due now r = false) ∨
  (∃ k r, chosen now d k r ∧
     claim_row now c d =
     Ok (set_outbox (<[k := taken now c r]> (outbox d)) d, Commit (Some (k, r, 1)))).
Proof.
  intros Hnow Hty. unfold claim_row. rewrite (tx_bind_eq _ _ d d d eq_refl). cbn [id].
  set (p := λ (_ : string) r, _ && _).
  destruct (select_by p _ (outbox d)) as [|[k r] rest] eqn:Hsel.
  { left. split; [done|]. intros k r Hk. by apply (proj1 (select_by_nil _ _ _) Hsel k r). }
  right. exists k, r. apply select_by_head in Hsel as (Hk & Hp & Hleast). split.
  - split_and!; [done..|]. intros k' r' Hk' Hd'. specialize (Hleast k' r' Hk' Hd').
    unfold key_le in Hleast. cbn in Hleast. lia.
  - rewrite (tx_bind_eq _ _ d (set_outbox (<[k := taken now c r]> (outbox d)) d) 1); [done|].
    pose proof (Hty k r Hk) as Hrow. cbn in Hrow. destruct (typed_parts r Hrow).
    apply andb_true_iff in Hp as [Hcl _]. apply update_one; [done| | |].
    + rewrite bool_decide_true by done. done.
    + apply with_state_typed; auto; [|unfold IN_PROGRESS_LEASE_SECONDS; lia]. unfold statuses. set_solver.
    + intros k' r' _ [Heq%bool_decide_eq_true _]%andb_true_iff. done.
Qed.

(** The dead-lettering of a row just taken. *)
Lemma claim_corrupted_taken k r now now' c d :
  0 <= now' → check_outbox r = true → outbox d !! k = Some (taken now c r) →
  claim_corrupted (Value:=Value) k c now' d =
  (set_outbox (<[k := spoiled now' r]> (outbox d)) d, Ok CorruptedDeadLetter).
Proof.
  intros Hnow Hr Hk. destruct (typed_parts r Hr).
  unfold claim_corrupted, mark_corrupted_notification_dead_letter, mbind, pool_bind, on_pool, run_tx.
  rewrite (update_one k (taken now c r)); [done|done| | |].
  - unfold claimed_by. cbn. by rewrite !bool_decide_true.
  - apply (with_state_typed r); auto; [|cbn; lia]. unfold statuses. set_solver.
  - intros k' r' _ (? & _)%claimed_by_true. done.
Qed.

(** one claim, on every branch.  With no row due the call answers [Empty]
    and writes nothing.  Otherwise it takes the due row that comes first by
    next attempt, then by creation: the row is in progress under the fresh
    claim id for [IN_PROGRESS_LEASE_SECONDS], every other row is untouched, and
    the worker gets the row's snapshot; a row whose stored notification does
    not parse is dead-lettered instead of delivered. *)
Theorem claim_due_takes_first_due now now' c d
    (Hnow : 0 <= now) (Hnow' : 0 <= now') (Htyped : outbox_typed d) :
  let result := claim_due (Value:=Value) now now' c d in
  (result = (d, Ok Empty) ∧ ∀ k r, outbox d !! k = Some r → due now r = false) ∨
  (∃ k r, chosen now d k r ∧
     match row_to_claimed (Value:=Value) k c r with
     | Some delivery =>
         result = (set_outbox (<[k := taken now c r]> (outbox d)) d, Ok (Claimed delivery)) ∧
         due now (taken now c r) = false
     | None =>
         result = (set_outbox (<[k := spoiled now' r]> (outbox d)) d, Ok CorruptedDeadLetter)
     end).
Proof.
  unfold claim_due, mbind, pool_bind, in_tx.
  destruct (claim_row_cases now c d Hnow Htyped) as [[-> Hnone]|(k & r & Hch & ->)]; [by left|].
  right. exists k, r. split; [done|]. cbn [Z.eqb].
  destruct (row_to_claimed k c r) as [delivery|] eqn:Hrow.
  - split; [done|]. unfold due, claimable, taken, has_status. cbn.
    unfold IN_PROGRESS_LEASE_SECONDS. apply andb_false_iff. right. apply Z.leb_gt. lia.
  - destruct Hch as [Hk _]. rewrite (claim_corrupted_taken k r now); cbn.
    + by rewrite insert_insert_eq.
    + done.
    + by apply (Htyped k).
    + by rewrite lookup_insert_eq.
Qed.

(** What a claim did, from its answer. *)
Lemma claim_row_Ok now c d d' v :
  claim_row now c d = Ok (d', Commit v) →
  match v with
  | None => d' = d
  | Some (k, r, n) => n = 1 ∧ outbox d !! k = Some r ∧ due now r = true ∧
      d' = set_outbox (<[k := taken now c r]> (outbox d)) d
  end.
Proof.
  unfold claim_row. intros Ht. rewrite (tx_bind_eq _ _ d d d eq_refl) in Ht. cbn [id] in Ht.
  destruct (select_by _ _ (outbox d)) as [|[k r] rest] eqn:Hsel.
  { unfold mret, tx_ret in Ht. by simplify_eq. }
  apply select_by_head in Hsel as (Hk & Hp & _).
  apply tx_bind_Ok in Ht as (d1 & n & (-> & -> & _)%update_outbox_Ok & Ht).
  unfold mret, tx_ret in Ht. simplify_eq.
  edestruct (update_map_one k r) as [Hm Hn]; [done| | |rewrite Hm, Hn; done].
  - cbn. apply andb_true_iff in Hp as [Hp _]. by rewrite bool_decide_true.
  - intros k' r' _ [Heq%bool_decide_eq_true _]%andb_true_iff. done.
Qed.

Lemma claim_due_Ok now now' c d d' out :
  claim_due (Value:=Value) now now' c d = (d', Ok out) →
  match out with
  | Empty => d' = d
  | Claimed delivery => ∃ k r, outbox d !! k = Some r ∧ due now r = true ∧
      row_to_claimed k c r = Some delivery ∧ d' = set_outbox (<[k := taken now c r]> (outbox d)) d
  | CorruptedDeadLetter => ∃ k r, outbox d !! k = Some r ∧ due now r = true ∧
      row_to_claimed (Value:=Value) k c r = None ∧ d' = set_outbox (<[k := spoiled now' r]> (outbox d)) d
  end.
Proof.
  unfold claim_due, mbind, pool_bind, in_tx. intros Ht.
  destruct (claim_row now c d) as [[d1 [v|v]]|e|] eqn:Hrow; try done.
  - apply claim_row_Ok in Hrow. destruct v as [[[k r] n]|]; [|unfold mret, pool_ret in Ht; by simplify_eq].
    destruct Hrow as (-> & Hk & Hd & ->). cbn [Z.eqb] in Ht.
    destruct (row_to_claimed k c r) as [delivery|] eqn:Hr.
    { unfold mret, pool_ret in Ht. simplify_eq. by exists k, r. }
    revert Ht. unfold claim_corrupted, mark_corrupted_notification_dead_letter, mbind, pool_bind, on_pool, run_tx.
    destruct (update_outbox _ _ _) as [[d2 n]|e|] eqn:Hu; [|done..].
    apply update_outbox_Ok in Hu as (-> & -> & _).
    edestruct (update_map_one k (taken now c r) (claimed_by k c)) as [Hm Hn];
      [| | |rewrite Hm, Hn; intros [= <- <-]; exists k, r; split_and!; try done; cbn; by rewrite insert_insert_eq].
    + cbn. by rewrite lookup_insert_eq.
    + unfold claimed_by. cbn. by rewrite !bool_decide_true.
    + intros k' r' _ (? & _)%claimed_by_true. done.
  - revert Hrow. unfold claim_row. rewrite (tx_bind_eq _ _ d d d eq_refl).
    destruct (select_by _ _ _) as [|[] ?]; [done|].
    intros (d2 & n & _ & Hx)%tx_bind_Ok. by unfold mret, tx_ret in Hx.
Qed.

(** ** The fence *)

(** The worker that reports under [c] does not hold row [k]. *)
Definition superseded (k c : string) d : Prop :=
  ∀ r, outbox d !! k = Some r → claimed_by k c k r = false.

Lemma update_none p upd d :
  (∀ k r, outbox d !! k = Some r → p k r = false) → update_outbox p upd d = Ok (d, 0).
Proof.
  intros Hp. apply update_outbox_Ok. split_and!.
  - destruct d as [? ? ? ? ? ob ?]. unfold set_outbox. cbn in *. f_equal. symmetry. apply map_eq.
    intros k. rewrite lookup_update. destruct (ob !! k) as [r|] eqn:Hk; [|done].
    cbn. by rewrite (Hp k r).
  - symmetry. by apply count_where_0.
  - intros k r Hk Hpk. by rewrite (Hp k r Hk) in Hpk.
Qed.

Lemma superseded_none k c d k' r :
  superseded k c d → outbox d !! k' = Some r → claimed_by k c k' r = false.
Proof.
  intros Hs Hk. unfold claimed_by. destruct (decide (k' = k)) as [->|Hne]; [by apply Hs|].
  by rewrite (bool_decide_false _ Hne).
Qed.

(** the fence.  A worker whose claim on a row was superseded (the row was
    reset, reclaimed under another id, resolved or deleted) changes nothing
    with any report: success and dead token answer [false], failures answer
    [NotUpdated], or [RowNotFound] for a transient failure of a row that is
    gone. *)
Theorem superseded_worker_is_fenced k c d (delivery : ClaimedDelivery Value) error reason now db_now
    (Hgone : superseded k c d) (Hid : cd_outbox_id delivery = k) (Hclaim : cd_claim_id delivery = c) :
  mark_succeeded k c now db_now d = (d, Ok false) ∧
  mark_invalid_token_and_disable_registration delivery reason now d = (d, Ok false) ∧
  mark_failed k c error now db_now d =
    (d, match fl_kind error, outbox d !! k with
        | Transient, None => Err RowNotFound
        | _, _ => Ok NotUpdated
        end).
Proof.
  assert (∀ upd, update_outbox (claimed_by k c) upd d = Ok (d, 0)) as Hu.
  { intros upd. apply update_none. intros k' r Hk'. by apply superseded_none with (d := d). }
  split_and!.
  - unfold mark_succeeded, mbind, pool_bind, on_pool, run_tx. rewrite update_none; [done|].
    intros k' r Hk'. by rewrite (superseded_none k c d).
  - unfold mark_invalid_token_and_disable_registration, in_tx. subst.
    by rewrite (tx_bind_eq _ _ _ _ _ (Hu _)).
  - unfold mark_failed. destruct error as [reason' []]; cbn [fl_kind fl_reason];
      unfold mbind, pool_bind, mret, pool_ret, mark_failed_query, on_pool, run_tx.
    + by rewrite Hu.
    + unfold fetch_outbox at 1. destruct (outbox d !! k) as [r|]; [|done]. 
      destruct (MAX_DELIVERY_ATTEMPTS <=? _); by rewrite Hu.
Qed.

End Claims.
End Claims.
