(* ===== verification/PushOnce.v ===== *)
(** * Hooks over time

    Every operation but the invocation leaves the hooks alone, revokes,
    reclaims or creates them, and drops idempotency markers only when they may
    go.  With the exact effect of an invocation this gives, in every run: a
    hook is never used beyond its budget, and a caller's key is accepted at
    most once in the life of a hook. *)

From S2P Require Import Prelude PushSchema PushOutbox PushDelivery PushRegistrations PushLimits PushHooks PushInvocations PushSystem PushRuns.
From stdpp Require Import base gmap strings list sorting relations.
From Stdlib Require Import ZArith Lia.
Open Scope Z_scope.

Module Once.
Import Outbox Delivery Registrations Limits Hooks Invocations Gateway Runs.

(** A hook row that at most was revoked. *)
Definition hook_same (r r' : HookCols) : Prop := r' = r ∨ ∃ t, r' = with_revoked t r.
(** A hook row just created. *)
Definition new_hook (r : HookCols) : Prop :=
  hk_use_count r = 0 ∧ is_Some (hk_expires_at r) ∧
  match hk_max_uses r with Some m => 0 < m | None => True end.

Record hooks_rel (now : Z) (ids : list string) (d d' : PushDb) : Prop := {
  hr_hooks : ∀ k r', hooks d' !! k = Some r' →
    (∃ r, hooks d !! k = Some r ∧ hook_same r r') ∨ (k ∈ ids ∧ new_hook r');
  hr_events : events d' ⊆ events d;
  hr_markers : tombstones d' ⊆ tombstones d;
  hr_kept : ∀ kk t, tombstones d !! kk = Some t →
    tombstones d' !! kk = Some t ∨ tb_retain_until t < now ∨ hooks d' !! kk.1 = None ∨ kk.1 ∈ ids
}.

Lemma hook_same_trans r1 r2 r3 : hook_same r1 r2 → hook_same r2 r3 → hook_same r1 r3.
Proof.
  unfold hook_same. intros [->|[t ->]] [->|[t' ->]]; eauto.
  right. exists (default t (hk_revoked_at r1)). unfold with_revoked. cbn.
  by destruct (hk_revoked_at r1).
Qed.

Lemma hook_same_new r r' : hook_same r r' → new_hook r → new_hook r'.
Proof. by intros [->|[t ->]]. Qed.

#[global] Instance hooks_rel_preorder now ids : PreOrder (hooks_rel now ids).
Proof.
  split.
  - intros d. split; [|done..|auto]. intros k r Hk. left. exists r. split; [done|by left].
  - intros d1 d2 d3 [Hh He Hm Hk] [Hh' He' Hm' Hk']. split; [|by etrans..|].
    + intros k r3 H3. destruct (Hh' k r3 H3) as [(r2 & H2 & Hs)|?]; [|by right].
      destruct (Hh k r2 H2) as [(r1 & H1 & Hs1)|[Hin Hnew]].
      * left. exists r1. split; [done|]. by eapply hook_same_trans.
      * right. split; [done|]. by eapply hook_same_new.
    + intros kk t Ht. destruct (Hk kk t Ht) as [Ht2|[?|[Hnone|?]]]; auto.
      destruct (hooks d3 !! kk.1) as [r3|] eqn:H3; [|by auto].
      destruct (Hh' kk.1 r3 H3) as [(r2 & H2 & _)|[? _]]; [congruence|by auto].
Qed.

(** ** Writes *)

Section Writes.
Context (now : Z) (ids : list string).
Implicit Types d : PushDb.

Lemma hooks_rel_other d d' :
  hooks d' = hooks d → events d' = events d → tombstones d' = tombstones d →
  hooks_rel now ids d d'.
Proof.
  intros Hh He Ht. split; rewrite ?Hh, ?He, ?Ht; [|done..|auto].
  intros k r Hk. left. exists r. split; [done|by left].
Qed.

Lemma hooks_rel_markers keep d :
  (∀ k t, tombstones d !! k = Some t → keep k t = false → tb_retain_until t < now) →
  hooks_rel now ids d (set_tombstones (keep_where keep (tombstones d)) d).
Proof.
  intros Hkeep. split; cbn; [|done|apply map_filter_subseteq|].
  - intros k r Hk. left. exists r. split; [done|by left].
  - intros kk t Ht. destruct (keep kk t) eqn:Hp; [|by eauto].
    left. by apply lookup_keep_where.
Qed.

Lemma hooks_rel_events keep d :
  hooks_rel now ids d (set_events (keep_where keep (events d)) d).
Proof.
  split; cbn; [|apply map_filter_subseteq|done|auto].
  intros k r Hk. left. exists r. split; [done|by left].
Qed.

Lemma hooks_rel_delete ks d : hooks_rel now ids d (delete_hooks ks d).
Proof.
  split; cbn; [|apply map_filter_subseteq..|].
  - intros k r [Hk _]%lookup_keep_where. left. exists r. split; [done|by left].
  - intros kk t Ht. destruct (decide (kk.1 ∈ ks)) as [Hin|Hin].
    + right. right. left. destruct (keep_where _ _ !! kk.1) as [r|] eqn:Hk; [|done].
      apply lookup_keep_where in Hk as [_ Hk]. by rewrite (bool_decide_true _ Hin) in Hk.
    + left. apply lookup_keep_where. split; [done|]. by rewrite (bool_decide_false _ Hin).
Qed.

Lemma hooks_rel_insert k r d :
  k ∈ ids → new_hook r → hooks_rel now ids d (set_hooks (<[k := r]> (hooks d)) d).
Proof.
  intros Hk Hr. split; cbn; [|done..|auto].
  intros k' r' [[<- <-]|[_ Hk']]%lookup_insert_Some; [by auto|].
  left. exists r'. split; [done|by left].
Qed.

Lemma revoke_hooks_rel k recipient at_ : pool_rel (hooks_rel now ids) (revoke k recipient at_).
Proof.
  unfold revoke. apply pool_rel_on_pool; [apply _|]. intros d d' v Ht.
  rewrite (tx_bind_eq _ _ d d d eq_refl) in Ht. cbn [id] in Ht.
  destruct (hooks d !! k) as [r|] eqn:Hr; [|unfold mret, tx_ret in Ht; by simplify_eq].
  case_bool_decide; [|unfold mret, tx_ret in Ht; by simplify_eq].
  apply tx_bind_Ok in Ht as (d1 & u & [-> _]%push_require_Ok & Ht).
  apply tx_bind_Ok in Ht as (d2 & u2 & Hput & Ht). unfold tx_put in Hput. unfold mret, tx_ret in Ht.
  simplify_eq. split; cbn; [|done..|auto].
  intros k' r' [[<- <-]|[_ Hk']]%lookup_insert_Some; left.
  - exists r. split; [done|]. right. eauto.
  - exists r'. split; [done|by left].
Qed.

End Writes.

Lemma elem_of_expired_batch `{Scan} now n d k t :
  k ∈ expired_batch now n d → tombstones d !! k = Some t → tb_retain_until t < now.
Proof.
  intros ([k' t'] & -> & Hin)%list_elem_of_fmap Ht.
  apply elem_of_limit, elem_of_select_by in Hin as [Ht' Hlt]. cbn in *. simplify_eq. by apply Z.ltb_lt.
Qed.

Section Runs.
Context `{Scan} {Json : Type} `{!Codec (gmap string (Value Json))}
        `{!Codec (Notification (Value Json))}.
Variable hash_hex : string -> string.
Variable json_text : Json -> string.
Abbreviation Op := (Op (Json:=Json)).
Abbreviation admissible := (admissible (Json:=Json)).
Abbreviation exec := (exec hash_hex json_text).
Abbreviation after := (after hash_hex json_text).
Abbreviation step := (step hash_hex json_text).
Abbreviation reachable := (reachable hash_hex json_text).
Implicit Types (s : Gw) (o : Op) (d : PushDb).

Definition is_invoke o : bool :=
  match o with OpInvoke _ _ _ _ _ _ _ _ _ _ _ => true | _ => false end.

Lemma outbox_only_hooks now ids d d' : outbox_only d d' → hooks_rel now ids d d'.
Proof. intros (_ & ? & ? & ?). by apply hooks_rel_other. Qed.

Lemma new_hook_row_new recipient (request : CreateHookRequest Json) token now :
  (∃ t, cr_expires_in_seconds request = Some t ∧ 0 < t) →
  new_hook (new_hook_row hash_hex recipient request token now).
Proof.
  intros (t & Ht & Hpos). split_and!; [done|cbn; rewrite Ht; cbn|cbn].
  - by rewrite (proj2 (Z.ltb_lt 0 t) Hpos).
  - destruct (cr_max_uses request) as [m|]; [|done]. cbn. by destruct (Z.ltb_spec 0 m).
Qed.

Ltac hooks_put :=
  first [ by apply hooks_rel_other | by apply hooks_rel_delete | by apply hooks_rel_events
        | apply hooks_rel_insert; [set_solver|by apply new_hook_row_new]
        | apply hooks_rel_markers; intros ? ? ?;
          rewrite ?negb_false_iff, ?bool_decide_eq_true, ?Z.ltb_lt; eauto using elem_of_expired_batch ].

Lemma exec_hooks o d rl :
  op_wf o → is_invoke o = false →
  hooks_rel (default 0 (op_now o)) (op_ids o) d (exec o d rl).1.
Proof.
  intros Hwf Hi. destruct o; try done; cbn [exec fst op_now op_ids default from_option id op_wf] in *.
  all: clear Hi; to_pool; try (unfold admit_installation, purge_stale_in_transaction,
    write_registration, upsert_registration, mark_invalid_token_and_disable_registration;
    push_rel; hooks_put).
  - apply revoke_hooks_rel.
  - intros d'. apply outbox_only_hooks, claim_only.
  - intros d'. apply outbox_only_hooks, failed_only.
  - intros d'. apply outbox_only_hooks, replay_only.
  - intros d'. apply outbox_only_hooks, delete_only.
Qed.

(** ** The effect of an invocation *)

Lemma invoke_effect policy source k secret request now now1 now2 now3 event_id i d rl :
  let d' := (invoke hash_hex json_text policy source k secret request now now1 now2 now3
               event_id i d rl).1.1 in
  d' = d ∨ ∃ row hook reg,
    callable hash_hex policy k secret request now d row hook reg ∧
    may_consume (production_mode policy) now row = true ∧ events d !! event_id = None ∧
    d' = accepted_db policy k request row hook reg now event_id i (reclaimed policy request now d).
Proof.
  unfold invoke.
  pose proof (accept_cases hash_hex json_text policy source k secret request now now1 now2 now3
    event_id (λ _, i) d rl) as Hc.
  destruct (accept_invocation _ _ _ _ _ _ _ _ _ _ _ _ _ _ _) as [[d' rl'] [[n []]|e|]]; cbn in *; auto.
  - destruct Hc as (_ & row & hook & reg & ? & ? & ? & _ & ->). right. by exists row, hook, reg.
  - destruct Hc as [-> _]. by left.
Qed.

Lemma reclaimed_rel policy (request : InvokeHookRequest Json) now d :
  hooks_rel now [] d (reclaimed policy request now d) ∧
  hooks (reclaimed policy request now d) = hooks d ∧
  events (reclaimed policy request now d) = events d.
Proof.
  unfold reclaimed. destruct (ir_idempotency_key request); [|done].
  destruct (_ =? 0); [done|]. split; [|done]. apply hooks_rel_markers.
  intros ? ? ?. rewrite negb_false_iff, bool_decide_eq_true. eauto using elem_of_expired_batch.
Qed.

(** What every operation keeps: a hook's expiry and budget, and each marker
    until it may go. *)
Record kept (now : Z) (ids : list string) (d d' : PushDb) : Prop := {
  kp_hooks : ∀ k r', hooks d' !! k = Some r' →
    (∃ r, hooks d !! k = Some r ∧ hk_expires_at r' = hk_expires_at r ∧
          hk_max_uses r' = hk_max_uses r) ∨ (k ∈ ids ∧ new_hook r');
  kp_markers : ∀ kk t, tombstones d !! kk = Some t →
    tombstones d' !! kk = Some t ∨ tb_retain_until t < now ∨ hooks d' !! kk.1 = None ∨ kk.1 ∈ ids
}.

Lemma hook_same_columns r r' :
  hook_same r r' → hk_expires_at r' = hk_expires_at r ∧ hk_max_uses r' = hk_max_uses r ∧
  hk_use_count r' = hk_use_count r.
Proof. by intros [->|[t ->]]. Qed.

Lemma hooks_rel_kept now ids d d' : hooks_rel now ids d d' → kept now ids d d'.
Proof.
  intros [Hh _ _ Hk]. split; [|done]. intros k r' Hr'.
  destruct (Hh k r' Hr') as [(r & Hr & Hs)|?]; [|by right]. left. exists r.
  destruct (hook_same_columns _ _ Hs) as (? & ? & _). done.
Qed.

Lemma accepted_kept policy k secret request row hook reg now event_id i ids d :
  callable hash_hex policy k secret request now d row hook reg →
  kept now ids d (accepted_db policy k request row hook reg now event_id i (reclaimed policy request now d)).
Proof.
  intros [[Hrow _ _ _] _ Hnew _ _].
  destruct (reclaimed_rel policy request now d) as ([_ _ Hsub Hk] & Hh & _).
  destruct (accepted_tables policy k request row hook reg now event_id i (reclaimed policy request now d))
    as (Hh' & _ & _ & Ht'). split.
  - intros k' r'. rewrite Hh', Hh. intros [[<- <-]|[_ Hk']]%lookup_insert_Some; left; [|by eauto].
    by exists row.
  - intros kk t Ht. rewrite Ht', Hh', Hh. destruct (Hk kk t Ht) as [Ht2|[?|[Hn|Hin]]]; [|by auto| |by set_solver].
    + left. destruct (ir_idempotency_key request) as [key|] eqn:Hkey; [|done].
      rewrite lookup_insert_ne; [done|]. intros <-. by rewrite (Hnew key eq_refl) in Ht.
    + rewrite Hh in Hn. right. right. left. rewrite lookup_insert_ne; [done|]. intros Heq.
      congruence.
Qed.

Lemma exec_kept o d rl : op_wf o → kept (default 0 (op_now o)) (op_ids o) d (exec o d rl).1.
Proof.
  intros Hwf. destruct (is_invoke o) eqn:Hi; [|by apply hooks_rel_kept, exec_hooks].
  destruct o; try done. cbn [exec op_now default from_option id].
  destruct (invoke_effect policy source k secret request now now1 now2 now3 event_id outbox_id d rl)
    as [Heq|(row & hook & reg & Hc & _ & _ & Heq)]; rewrite Heq.
  - apply hooks_rel_kept. done.
  - by eapply accepted_kept.
Qed.

(** ** Budgets *)

(** The events stored for a hook. *)
Definition hook_events (k : string) d : Z := count_where (λ _ e, bool_decide (ev_hook_id e = k)) (events d).

(** A hook's id was drawn, it expires, it was never used beyond its budget, and
    no more events exist for it than it has uses. *)
Record hook_ok (minted : gset string) d (k : string) (r : HookCols) : Prop := {
  ho_minted : k ∈ minted;
  ho_expires : is_Some (hk_expires_at r);
  ho_budget : match hk_max_uses r with Some m => hk_use_count r <= m | None => True end;
  ho_events : hook_events k d <= hk_use_count r
}.
Definition hooks_ok (s : Gw) : Prop :=
  map_Forall (λ k r, hook_ok (gw_minted s) (gw_db s) k r) (hooks (gw_db s)).

Lemma count_where_subseteq {K V} `{Countable K} (p : K -> V -> bool) (t t' : gmap K V) :
  t ⊆ t' → count_where p t <= count_where p t'.
Proof.
  intros Hsub. unfold count_where. apply inj_le, map_subseteq_size.
  apply map_filter_subseteq_mono. done.
Qed.

Lemma no_events k d : refs_ok d → hooks d !! k = None → hook_events k d = 0.
Proof.
  intros (_ & Hev & _) Hk. apply count_where_0. intros k' e He. apply bool_decide_eq_false.
  intros <-. destruct (Hev k' e He). congruence.
Qed.

Lemma accepted_hooks_ok minted policy k secret request row hook reg now event_id i d :
  callable hash_hex policy k secret request now d row hook reg →
  may_consume (production_mode policy) now row = true → events d !! event_id = None →
  map_Forall (λ k r, hook_ok minted d k r) (hooks d) →
  let d' := accepted_db policy k request row hook reg now event_id i (reclaimed policy request now d) in
  map_Forall (λ k r, hook_ok minted d' k r) (hooks d').
Proof.
  intros [[Hrow _ _ _] _ _ _ _] Hmay Hev Hok d'. destruct (reclaimed_rel policy request now d) as (_ & Hh & He).
  destruct (accepted_tables policy k request row hook reg now event_id i (reclaimed policy request now d))
    as (Hh' & He' & _ & _). fold d' in Hh', He'. rewrite Hh in Hh'. rewrite He in He'.
  assert (∀ k', hook_events k' d' = hook_events k' d + Z.b2z (bool_decide (k = k'))) as Hcount.
  { intros k'. unfold hook_events. rewrite He', count_where_insert, delete_id by done. done. }
  intros k' r'. rewrite Hh'. intros [[<- <-]|[Hne Hk']]%lookup_insert_Some.
  - destruct (Hok k row Hrow) as [Hm Hx Hb Hc]. split; try done; cbn.
    + unfold may_consume in Hmay. destruct (hk_max_uses row) as [m|]; [|done].
      rewrite !andb_true_iff, Z.ltb_lt in Hmay. lia.
    + rewrite Hcount, bool_decide_true by done. cbn. lia.
  - destruct (Hok k' r' Hk') as [Hm Hx Hb Hc]. split; try done.
    rewrite Hcount, bool_decide_false by done. cbn. lia.
Qed.

Lemma hook_ok_mono minted minted' d k r : minted ⊆ minted' → hook_ok minted d k r → hook_ok minted' d k r.
Proof. intros Hsub [? ? ? ?]. split; set_solver. Qed.

Lemma step_hooks_ok s o :
  reachable s → admissible s o → hooks_ok s → hooks_ok (after o s).
Proof.
  intros Hs [Hwf _ _ _ Hfresh _] Hok. destruct (reachable_ok _ _ _ Hs) as [Hrefs _].
  assert (gw_minted s ⊆ gw_minted (after o s)) as Hmint by (cbn; set_solver).
  destruct (is_invoke o) eqn:Hi.
  - intros k' r' Hk'. apply (hook_ok_mono (gw_minted s)); [done|]. revert k' r' Hk'. change (map_Forall
      (λ k r, hook_ok (gw_minted s) (gw_db (after o s)) k r) (hooks (gw_db (after o s)))).
    destruct o; try done. cbn [after gw_db exec].
    destruct (invoke_effect policy source k secret request now now1 now2 now3 event_id outbox_id
      (gw_db s) (gw_limits s)) as [Heq|(row & hook & reg & Hc & Hmay & Hev & Heq)]; rewrite Heq; [done|].
    by eapply accepted_hooks_ok.
  - intros k r' Hk. destruct (exec_hooks o (gw_db s) (gw_limits s) Hwf Hi) as [Hh He _ _].
    assert (hook_events k (gw_db (after o s)) <= hook_events k (gw_db s)) by by apply count_where_subseteq.
    destruct (Hh k r' Hk) as [(r & Hr & Hsame)|[Hin (Hzero & Hexp & Hmax)]].
    + destruct (Hok k r Hr) as [Hm Hx Hb Hc].
      destruct (hook_same_columns _ _ Hsame) as (Hexp & Hmax & Huse).
      split; rewrite ?Hmax, ?Huse, ?Hexp; try done; [set_solver|lia].
    + split; [cbn; set_solver|done| |].
      * destruct (hk_max_uses r'); lia || done.
      * rewrite (no_events k (gw_db s)) in * by (done || (destruct (hooks (gw_db s) !! k) as [r|] eqn:Hr;
          [destruct (Hok k r Hr); by destruct (Hfresh k Hin)|done])). lia.
Qed.

Lemma reachable_hooks_ok s : reachable s → hooks_ok s.
Proof.
  apply (reachable_ind hash_hex json_text hooks_ok); [|apply step_hooks_ok].
  intros c c'. apply map_Forall_empty.
Qed.

(** in every reachable state a hook has not been used more often than its
    [max_uses] allow, and the events stored for it number at most its uses:
    whatever the interleaving of callers, revocations and purges, a hook
    notifies at most [max_uses] times. *)
Theorem hook_budget_respected s k r
    (Hreach : reachable s) (Hhook : hooks (gw_db s) !! k = Some r) :
  hook_events k (gw_db s) <= hk_use_count r ∧
  match hk_max_uses r with Some m => hk_use_count r <= m | None => True end.
Proof. by destruct (reachable_hooks_ok s Hreach k r Hhook). Qed.

(** ** Idempotency *)

(** A marker outlives its hook. *)
Definition markers_ok d : Prop :=
  ∀ k key t r E, tombstones d !! (k, key) = Some t → hooks d !! k = Some r →
    hk_expires_at r = Some E →
    Z.min i64_max (E + IDEMPOTENCY_CLEANUP_MARGIN_SECONDS) <= tb_retain_until t.

Lemma retain_until_ge now E :
  Z.min i64_max (E + IDEMPOTENCY_CLEANUP_MARGIN_SECONDS) <= retain_until now (Some E).
Proof. unfold retain_until, saturating_add_i64. cbn [default from_option id]. lia. Qed.

Lemma accepted_markers_ok policy k secret request row hook reg now event_id i d :
  callable hash_hex policy k secret request now d row hook reg → markers_ok d →
  markers_ok (accepted_db policy k request row hook reg now event_id i (reclaimed policy request now d)).
Proof.
  intros [[Hrow _ _ _] Hrec _ _ _] Hok.
  destruct (reclaimed_rel policy request now d) as ([_ _ Hsub _] & Hh & _).
  destruct (record_columns _ _ _ Hrec) as (_ & _ & _ & Hexp).
  destruct (accepted_tables policy k request row hook reg now event_id i (reclaimed policy request now d))
    as (Hh' & _ & _ & Ht').
  intros k' key t r E. rewrite Hh', Hh, Ht'. intros Ht Hr HE.
  assert (∃ r0, hooks d !! k' = Some r0 ∧ hk_expires_at r0 = Some E) as (r0 & Hr0 & HE0).
  { apply lookup_insert_Some in Hr as [[<- <-]|[_ Hr]]; eauto. }
  assert (∀ t', tombstones (reclaimed policy request now d) !! (k', key) = Some t' →
    Z.min i64_max (E + IDEMPOTENCY_CLEANUP_MARGIN_SECONDS) <= tb_retain_until t') as Hold.
  { intros t' Ht2. eapply (Hok k' key); [|done..]. by eapply lookup_weaken. }
  destruct (ir_idempotency_key request) as [key0|]; [|by apply Hold].
  apply lookup_insert_Some in Ht as [[[= <- <-] <-]|[_ Ht]]; [|by apply Hold].
  cbn. rewrite Hexp. simplify_eq. rewrite HE0. apply retain_until_ge.
Qed.

Lemma reachable_markers_ok s : reachable s → markers_ok (gw_db s).
Proof.
  apply (reachable_ind hash_hex json_text (λ s, markers_ok (gw_db s))).
  { intros c c' k key t r E. cbn. by rewrite lookup_empty. }
  clear s. intros s o Hs [Hwf _ _ _ Hfresh _] Hok. destruct (reachable_ok _ _ _ Hs) as [(_ & _ & Hfk) _].
  destruct (is_invoke o) eqn:Hi.
  - destruct o; try done. cbn [after gw_db exec].
    destruct (invoke_effect policy source k secret request now now1 now2 now3 event_id outbox_id
      (gw_db s) (gw_limits s)) as [Heq|(row & hook & reg & Hc & Hmay & Hev & Heq)]; rewrite Heq; [done|].
    by eapply accepted_markers_ok.
  - destruct (exec_hooks o (gw_db s) (gw_limits s) Hwf Hi) as [Hh _ Hsub _].
    intros k key t r' E Ht Hr' HE. pose proof (lookup_weaken _ _ _ _ Ht Hsub) as Ht0.
    destruct (Hh k r' Hr') as [(r & Hr & Hsame)|[Hin _]].
    + destruct (hook_same_columns _ _ Hsame) as (Hexp & _). rewrite Hexp in HE. by eapply Hok.
    + destruct (Hfk (k, key) t Ht0) as [r Hr]. cbn in Hr.
      destruct (reachable_hooks_ok s Hs k r Hr) as [Hm _ _ _]. by destruct (Hfresh k Hin).
Qed.

(** The key was accepted for the hook: its marker is there, or the hook is gone
    for good, or expired. *)
Definition spent (k key : string) (s : Gw) : Prop :=
  k ∈ gw_minted s ∧
  ∀ r E, hooks (gw_db s) !! k = Some r → hk_expires_at r = Some E →
    E <= gw_clock s ∨ ∃ t, tombstones (gw_db s) !! (k, key) = Some t ∧ tb_target_count t = 1.

Lemma step_spent k key s s' : reachable s → step s s' → spent k key s → spent k key s'.
Proof.
  intros Hs [o [Hwf Hclock _ _ Hfresh Hrange]] [Hm Hsp].
  split; [cbn; set_solver|]. intros r' E Hr' HE. cbn [gw_clock after] in *.
  destruct (exec_kept o (gw_db s) (gw_limits s) Hwf) as [Hh Ht].
  destruct (Hh k r' Hr') as [(r & Hr & Hexp & _)|[Hin _]]; [|by destruct (Hfresh k Hin)].
  rewrite Hexp in HE. destruct (Hsp r E Hr HE) as [Hle|(t & Htt & H1)]; [left; lia|].
  destruct (Ht (k, key) t Htt) as [Ht'|[Hlt|[Hnone|Hin]]]; [by eauto| | |by destruct (Hfresh k Hin)].
  - left. pose proof (reachable_markers_ok s Hs k key t r E Htt Hr HE) as Hmin.
    destruct (op_now o) as [now|] eqn:Hop; cbn in *.
    + destruct (Hrange now eq_refl). unfold IDEMPOTENCY_CLEANUP_MARGIN_SECONDS in Hmin. lia.
    + destruct (reachable_typed _ _ _ Hs) as [_ _ _ _ Htb]. specialize (Htb _ _ Htt). cbn in Htb.
      unfold check_tombstone in Htb. rewrite !andb_true_iff in Htb. lia.
  - cbn in Hnone. change (hooks (exec o (gw_db s) (gw_limits s)).1 !! k = Some r') in Hr'. congruence.
Qed.

Lemma steps_spent k key s s' : reachable s → rtc step s s' → spent k key s → spent k key s'.
Proof.
  intros Hs Hrun. revert Hs. induction Hrun as [|s1 s2 s3 Hstep _ IH]; [done|].
  intros Hs Hsp. apply IH; [|by eapply step_spent]. eapply run_reachable; [done|by apply rtc_once].
Qed.

(** The hook and key of an invocation, and its answer. *)
Definition op_key o : option (string * string) :=
  match o with
  | OpInvoke _ _ k _ request _ _ _ _ _ _ => pair k <$> ir_idempotency_key request
  | _ => None
  end.
Definition answer o (s : Gw) : option (res ApiError InvocationOutcome) :=
  match o with
  | OpInvoke policy source k secret request now now1 now2 now3 event_id i =>
      Some (invoke hash_hex json_text policy source k secret request now now1 now2 now3 event_id i
              (gw_db s) (gw_limits s)).2
  | _ => None
  end.

(** What an answer says of the markers. *)
Lemma answer_cases o s k key out :
  op_key o = Some (k, key) → answer o s = Some (Ok out) →
  ∃ now r, op_now o = Some now ∧ hooks (gw_db s) !! k = Some r ∧
    match hk_expires_at r with Some E => now < E | None => True end ∧
    if enqueued_rows out
    then tombstones (gw_db s) !! (k, key) = None ∧
         ∃ t, tombstones (gw_db (after o s)) !! (k, key) = Some t ∧ tb_target_count t = 1
    else ∃ t, tombstones (gw_db s) !! (k, key) = Some t ∧
         target_count out = usize_or_0 (tb_target_count t).
Proof.
  destruct o as [| | | | | | | | |policy source k' secret request now now1 now2 now3 event_id i| | | | | | | | |];
    try done.
  cbn [op_key answer]. intros (key' & Hkey & [= <- <-])%fmap_Some [= Hans].
  cbn [after gw_db exec op_now]. unfold invoke in *.
  pose proof (accept_cases hash_hex json_text policy source k secret request now now1 now2 now3
    event_id (λ _, i) (gw_db s) (gw_limits s)) as Hc.
  destruct (accept_invocation _ _ _ _ _ _ _ _ _ _ _ _ _ _ _) as [[d' rl'] ans]. cbn [fst snd] in *.
  subst ans. exists now. destruct out as [n []]; cbn [enqueued_rows].
  - destruct Hc as (-> & row & hook & reg & [[Hrow _ _ Hexp] _ Hnew _ _] & _ & _ & _ & ->).
    exists row. split_and!; [done..|by apply Hnew|]. exists (marker_of hook now). split; [|done].
    destruct (accepted_tables policy k request row hook reg now event_id i
      (reclaimed policy request now (gw_db s))) as (_ & _ & _ & ->).
    by rewrite Hkey, lookup_insert_eq.
  - destruct Hc as (_ & row & key' & t & [Hrow _ _ Hexp] & Hk & Ht & ->). exists row.
    split_and!; [done..|]. rewrite Hkey in Hk. simplify_eq. by exists t.
Qed.

(** C21: a caller's idempotency key is accepted at most once in the life of a
    hook.  After an invocation with the key enqueued its delivery, every later
    invocation of the same hook with the same key, in every continuation of the
    run and under any policy, secret or clock, that succeeds is a replay: it
    answers the original count and enqueues nothing.  Markers are reclaimed
    only once the hook itself has expired. *)
Theorem idempotency_key_accepted_once s1 o1 s2 o2 k key out1 out2
    (Hreach : reachable s1) (Hadm1 : admissible s1 o1)
    (Hkey1 : op_key o1 = Some (k, key))
    (Hans1 : answer o1 s1 = Some (Ok out1)) (Hacc : enqueued_rows out1 = true)
    (Hrun : rtc step (after o1 s1) s2) (Hadm2 : admissible s2 o2)
    (Hkey2 : op_key o2 = Some (k, key)) (Hans2 : answer o2 s2 = Some (Ok out2)) :
  out2 = {| target_count := 1; enqueued_rows := false |}.
Proof.
  assert (spent k key (after o1 s1)) as Hsp.
  { destruct (answer_cases _ _ _ _ _ Hkey1 Hans1) as (now & r & _ & Hr & _ & Hc). rewrite Hacc in Hc.
    destruct Hc as (_ & t & Ht & H1). split; [|by eauto].
    destruct (reachable_hooks_ok s1 Hreach k r Hr) as [Hm _ _ _]. cbn. set_solver. }
  pose proof (admissible_reachable _ _ _ _ Hreach Hadm1) as Hs1.
  apply (steps_spent k key _ s2) in Hsp as [_ Hsp]; [|done..].
  pose proof (run_reachable _ _ _ _ Hs1 Hrun) as Hs2.
  destruct (answer_cases _ _ _ _ _ Hkey2 Hans2) as (now & r & Hop & Hr & Hexp & Hc).
  destruct (reachable_hooks_ok s2 Hs2 k r Hr) as [_ [E HE] _ _]. rewrite HE in Hexp.
  pose proof (adm_clock _ _ Hadm2) as Hclock. rewrite Hop in Hclock. cbn in Hclock.
  destruct (Hsp r E Hr HE) as [Hle|(t' & Ht' & H1)]; [lia|].
  destruct out2 as [n []]; cbn [enqueued_rows] in Hc.
  - destruct Hc as [Hnone _]. congruence.
  - destruct Hc as (t & Ht & Hn). cbn in Hn. simplify_eq. by rewrite H1.
Qed.

End Runs.
End Once.
