(* ===== verification/PushWorker.v ===== *)
(** * The delivery worker
      ([crates/push-gateway/src/delivery_worker.rs],
      [crates/push-gateway/src/observability.rs],
      [crates/push-gateway-provider/src/push_provider.rs])

    The background loop that resolves the outbox: an expiry pass, a pass that
    claims due rows while delivery tasks are free, and the tasks that call the
    provider and report its verdict.  Other work on the database between two
    statements of the loop is an argument, as are clock reads, claim ids, the
    provider's answers and the timer. *)

From S2P Require Import Prelude PushSchema PushOutbox PushDelivery PushRuns.
From stdpp Require Import base gmap strings list sorting.
From Stdlib Require Import ZArith Lia.
Open Scope Z_scope.

Module Worker.
Import Outbox Delivery Claims.

(** ** The provider's errors ([PushProviderError]) *)

Inductive PushProviderErrorKind := InvalidToken | InvalidPayload | Unavailable.
#[global] Instance PushProviderErrorKind_eq_dec : EqDecision PushProviderErrorKind.
Proof. solve_decision. Defined.
Record PushProviderError := { pe_reason : string; pe_kind : PushProviderErrorKind }.
Definition unavailable (reason : string) : PushProviderError :=
  {| pe_reason := reason; pe_kind := Unavailable |}.
Definition invalid_token (reason : string) : PushProviderError :=
  {| pe_reason := reason; pe_kind := InvalidToken |}.
Definition invalid_payload (reason : string) : PushProviderError :=
  {| pe_reason := reason; pe_kind := InvalidPayload |}.
Definition disables_registration (e : PushProviderError) : bool :=
  bool_decide (pe_kind e = InvalidToken).

(** ** Counters ([Observability]) *)

Inductive Counter :=
| http_requests_total
| http_responses_2xx_total
| http_responses_4xx_total
| http_responses_5xx_total
| outbox_claims_total
| outbox_claim_queries_total
| outbox_idle_waits_total
| outbox_delivery_success_total
| outbox_delivery_failure_total
| outbox_delivery_failure_auth_total
| outbox_delivery_failure_quota_total
| outbox_delivery_failure_network_total
| outbox_delivery_failure_invalid_token_total
| outbox_delivery_failure_invalid_payload_total
| outbox_delivery_failure_transient_total
| outbox_dead_letter_total
| invalid_token_cleanup_failures_total
| rate_limit_rejections_total.
#[global] Instance Counter_eq_dec : EqDecision Counter.
Proof. solve_decision. Defined.

Record Observability := {
  ob_counters : Counter -> Z;
  worker_running : bool;
  worker_shutdown_requested : bool
}.

(** [AtomicU64::fetch_add] wraps around. *)
Definition fetch_add (c : Counter) (n : Z) (o : Observability) : Observability :=
  {| ob_counters := λ c', if decide (c' = c) then (ob_counters o c' + n) mod 2 ^ 64 else ob_counters o c';
     worker_running := worker_running o;
     worker_shutdown_requested := worker_shutdown_requested o |}.

Definition set_worker_running (running : bool) (o : Observability) : Observability :=
  {| ob_counters := ob_counters o; worker_running := running;
     worker_shutdown_requested := worker_shutdown_requested o |}.
Definition set_worker_shutdown_requested (o : Observability) : Observability :=
  {| ob_counters := ob_counters o; worker_running := worker_running o;
     worker_shutdown_requested := true |}.
Definition record_outbox_claim : Observability -> Observability := fetch_add outbox_claims_total 1.
Definition record_outbox_claim_query : Observability -> Observability :=
  fetch_add outbox_claim_queries_total 1.
Definition record_outbox_idle_wait : Observability -> Observability :=
  fetch_add outbox_idle_waits_total 1.
Definition record_delivery_success : Observability -> Observability :=
  fetch_add outbox_delivery_success_total 1.
Definition record_delivery_failure : Observability -> Observability :=
  fetch_add outbox_delivery_failure_total 1.
Definition record_dead_letters (n : Z) : Observability -> Observability :=
  fetch_add outbox_dead_letter_total n.
Definition record_dead_letter : Observability -> Observability := record_dead_letters 1.
Definition record_invalid_token_cleanup_failure : Observability -> Observability :=
  fetch_add invalid_token_cleanup_failures_total 1.

(** [provider_reason_class] and the counter of a class. *)
Definition provider_reason_class (reason : string) : string :=
  if bool_decide (reason = "provider_auth"%string) then "auth"
  else if bool_decide (reason = "provider_quota"%string) then "quota"
  else if bool_decide (reason = "provider_network"%string)
          || bool_decide (reason = "provider_timeout"%string) then "network"
  else if bool_decide (reason = "invalid_token"%string) then "invalid_token"
  else if bool_decide (reason = "invalid_payload"%string) then "invalid_payload"
  else "transient".
Definition record_delivery_failure_reason (reason : string) (o : Observability) : Observability :=
  let class := provider_reason_class reason in
  let counter :=
    if bool_decide (class = "auth"%string) then outbox_delivery_failure_auth_total
    else if bool_decide (class = "quota"%string) then outbox_delivery_failure_quota_total
    else if bool_decide (class = "network"%string) then outbox_delivery_failure_network_total
    else if bool_decide (class = "invalid_token"%string)
    then outbox_delivery_failure_invalid_token_total
    else if bool_decide (class = "invalid_payload"%string)
    then outbox_delivery_failure_invalid_payload_total
    else outbox_delivery_failure_transient_total in
  fetch_add counter 1 (record_delivery_failure o).

(** ** Waiting and timing out *)

Definition FALLBACK_IDLE_POLL : Z := 1.
Definition PROVIDER_DELIVERY_TIMEOUT : Z := 15.

(** [u64::try_from(n).unwrap_or(u64::MAX)] for an [i64]. *)
Definition u64_or_max (n : Z) : Z := default u64_max (try_from_u u64_max n).

(** [next_claim_delay], in seconds; [due_at] is the answer of
    [next_claim_due_at]. *)
Definition next_claim_delay (now : Z) (due_at : res PushError (option Z)) (fallback : Z) : Z :=
  match due_at with
  | Ok (Some next_attempt_at) =>
      Z.min (u64_or_max (saturating_sub_i64 next_attempt_at now)) fallback
  | _ => fallback
  end.

(** The time [deliver_provider_call] gives the provider, in seconds. *)
Definition resolution_timeout (created_at now : Z) : Z :=
  let deadline := saturating_add_i64 created_at DELIVERY_RESOLUTION_DEADLINE_SECONDS in
  u64_or_max (saturating_sub_i64 deadline now).
Definition provider_timeout (created_at now : Z) : Z :=
  Z.min PROVIDER_DELIVERY_TIMEOUT (resolution_timeout created_at now).

(** [await_provider_delivery] and [deliver_provider_call]; [fires t] says that
    the timer of [t] seconds ends before the provider answers. *)
Definition await_provider_delivery (fires : Z -> bool) (timeout : Z)
    (delivery : res PushProviderError unit) : res PushProviderError unit :=
  if fires timeout then Err (unavailable "provider_timeout") else delivery.
Definition deliver_provider_call (fires : Z -> bool) (created_at now : Z)
    (delivery : res PushProviderError unit) : res PushProviderError unit :=
  await_provider_delivery fires (provider_timeout created_at now) delivery.

(** [outbox_failure_from_delivery_error]. *)
Definition outbox_failure_from_delivery_error (e : PushProviderError) : option DeliveryOutboxFailure :=
  match pe_kind e with
  | InvalidToken => None
  | InvalidPayload => Some (permanent_payload (pe_reason e))
  | Unavailable => Some (transient (pe_reason e))
  end.

(** ** Tasks and the loop *)

Section Loop.
Context `{Scan} {Value : Type} `{!Codec (Notification Value)}.

(** A task of the [JoinSet]: delivering, with its permit, or finished and not
    yet joined. *)
Inductive Task := Running (claimed : ClaimedDelivery Value) | Finished.

Record Worker := { wk_db : PushDb; wk_obs : Observability; wk_tasks : list Task }.

(** The body of a delivery task: the provider's verdict and its report. *)
Definition resolve (claimed : ClaimedDelivery Value) (fires : Z -> bool)
    (delivery : res PushProviderError unit) (call_now now db_now : Z)
    (d : PushDb) (o : Observability) : PushDb * Observability :=
  match deliver_provider_call fires (cd_created_at claimed) call_now delivery with
  | Ok _ =>
      match mark_succeeded (cd_outbox_id claimed) (cd_claim_id claimed) now db_now d with
      | (d', Ok true) => (d', record_delivery_success o)
      | (d', _) => (d', o)
      end
  | Err err =>
      let o := record_delivery_failure_reason (pe_reason err) o in
      if disables_registration err then
        match mark_invalid_token_and_disable_registration claimed (pe_reason err) now d with
        | (d', Ok _) => (d', o)
        | (d', _) => (d', record_invalid_token_cleanup_failure o)
        end
      else
        match outbox_failure_from_delivery_error err with
        | Some failure =>
            match mark_failed (cd_outbox_id claimed) (cd_claim_id claimed) failure now db_now d with
            | (d', Ok DeadLettered) => (d', record_dead_letter o)
            | (d', _) => (d', o)
            end
        | None => (d, o)
        end
  | Panic => (d, o)
  end.

(** Permits of the semaphore not held by a task. *)
Definition running (t : Task) : bool := match t with Running _ => true | Finished => false end.
Definition free_permits (max : Z) (tasks : list Task) : Z :=
  max - Z.of_nat (length (filter (λ t, running t = true) tasks)).

(** What one iteration of the claiming loop sees: the shutdown flag, what other
    connections committed before its claim, the clock and the claim id. *)
Record Tick := {
  tk_stopped : bool;
  tk_others : PushDb -> PushDb;
  tk_now : Z;
  tk_now' : Z;
  tk_claim_id : string
}.

(** [while tasks.len() < max_concurrency { .. }]; [None] when [fuel] iterations
    do not finish the loop. *)
Fixpoint claim_loop (max : Z) (ticks : nat -> Tick) (i fuel : nat) (w : Worker) : option Worker :=
  match fuel with
  | O => None
  | S fuel =>
      let t := ticks i in
      if negb (Z.of_nat (length (wk_tasks w)) <? max) then Some w
      else if tk_stopped t then Some w
      else if free_permits max (wk_tasks w) <=? 0 then Some w
      else
        let o := record_outbox_claim_query (wk_obs w) in
        match claim_due (tk_now t) (tk_now' t) (tk_claim_id t) (tk_others t (wk_db w)) with
        | (d, Ok (Claimed claimed)) =>
            claim_loop max ticks (S i) fuel
              {| wk_db := d; wk_obs := record_outbox_claim o;
                 wk_tasks := wk_tasks w ++ [Running claimed] |}
        | (d, Ok CorruptedDeadLetter) =>
            claim_loop max ticks (S i) fuel
              {| wk_db := d; wk_obs := record_dead_letter (record_delivery_failure o);
                 wk_tasks := wk_tasks w |}
        | (d, Ok Empty) => Some {| wk_db := d; wk_obs := o; wk_tasks := wk_tasks w |}
        | (d, _) =>
            Some {| wk_db := d; wk_obs := record_delivery_failure o; wk_tasks := wk_tasks w |}
        end
  end.

(** The expiry that opens each round. *)
Definition expiry_pass (now db_now : Z) (w : Worker) : Worker :=
  match expire_delivery_resolution_deadlines now db_now (wk_db w) with
  | (d, Ok expired) =>
      {| wk_db := d; wk_obs := record_dead_letters expired (wk_obs w); wk_tasks := wk_tasks w |}
  | (d, _) =>
      {| wk_db := d; wk_obs := record_delivery_failure (wk_obs w); wk_tasks := wk_tasks w |}
  end.

(** Startup: the worker is marked running and interrupted rows are reset. *)
Definition worker_start (now : Z) (d : PushDb) (o : Observability) : Worker :=
  {| wk_db := (reset_in_progress now d).1; wk_obs := set_worker_running true o; wk_tasks := [] |}.

(** [max_concurrency.max(1)]. *)
Definition concurrency (max_concurrency : Z) : Z := Z.max max_concurrency 1.

(** One round before the wait: expiry, claims, and how long to wait if no task
    finishes and nothing is enqueued ([None]: until then). *)
Definition worker_round (max_concurrency : Z) (now db_now : Z) (ticks : nat -> Tick) (fuel : nat)
    (wait_now : Z) (fallback : Z) (w : Worker) : option (Worker * option Z) :=
  let max := concurrency max_concurrency in
  w ← claim_loop max ticks 0 fuel (expiry_pass now db_now w);
  let delay :=
    if Z.of_nat (length (wk_tasks w)) <? max
    then Some (next_claim_delay wait_now (Ok (next_claim_due_at (wk_db w))) fallback)
    else None in
  let o := match wk_tasks w with [] => record_outbox_idle_wait (wk_obs w) | _ => wk_obs w end in
  Some ({| wk_db := wk_db w; wk_obs := o; wk_tasks := wk_tasks w |}, delay).

(** ** The claiming loop ends *)







End Loop.

(** ** Provider calls *)

(** C38: the time a provider call gets.  Before its resolution deadline a call
    is cut off no later than the deadline and after at most fifteen seconds.
    At the very deadline it gets none.  Past the deadline it gets the full
    fifteen seconds again: the negative remaining time does not fit [u64] and
    falls back to the maximum. *)
Theorem provider_timeout_exact created_at now
    (Hcreated : 0 <= created_at <= i64_max - DELIVERY_RESOLUTION_DEADLINE_SECONDS)
    (Hnow : 0 <= now <= i64_max) :
  let deadline := created_at + DELIVERY_RESOLUTION_DEADLINE_SECONDS in
  provider_timeout created_at now =
    (if now <=? deadline then Z.min PROVIDER_DELIVERY_TIMEOUT (deadline - now)
     else PROVIDER_DELIVERY_TIMEOUT) ∧
  (now <= deadline → now + provider_timeout created_at now <= deadline).
Proof.
  intros deadline. unfold provider_timeout, resolution_timeout, u64_or_max, saturating_add_i64,
    saturating_sub_i64, try_from_u, in_range in *.
  unfold deadline, DELIVERY_RESOLUTION_DEADLINE_SECONDS, PROVIDER_DELIVERY_TIMEOUT, i64_max, i64_min, u64_max in *.
  set (left := Z.max _ (Z.min _ (Z.max _ _ - now))).
  assert (left = created_at + 300 - now) as -> by lia.
  destruct (Z.leb_spec now (created_at + 300)), (Z.leb_spec 0 (created_at + 300 - now)); try lia.
  - destruct (Z.leb_spec (created_at + 300 - now) 18446744073709551615); cbn; lia.
  - cbn. lia.
Qed.

End Worker.
