(* ===== verification/PushAuth.v ===== *)
(** * Signed requests ([crates/push-gateway/src/nostr_http_auth.rs])

    Management requests carry a signed event that names the method, the URL and
    the hash of the body.  The module models the checks in their order, the
    source budget, the bounded cache of used event ids and the extractors.  The
    theorems show what an accepted request proves and that one event is never
    accepted twice.  Base64, JSON, the signature scheme, the URL parser and the
    hash are parameters; clock reads are arguments. *)

From S2P Require Import Prelude PushSchema PushLimits PushHooks.
From stdpp Require Import base gmap strings list.
From Stdlib Require Import ZArith Lia.
Open Scope Z_scope.

Module Auth.
Import Limits Hooks.

Definition AUTH_EVENT_MAX_AGE_SECONDS : Z := 60.
Definition AUTH_EVENT_FUTURE_SKEW_SECONDS : Z := 5.
Definition AUTH_REPLAY_CACHE_MAX_ENTRIES : Z := 4096.
Definition MAX_AUTHENTICATED_BODY_BYTES : Z := 16384.

(** ** The cache of used event ids ([NostrAuthReplayCacheInner]) *)

Record ReplayCache := { entries : gmap string Z; order : list string }.
Inductive NostrAuthReplayError := Replayed | CacheFull.

(** [prune]: the loop pops the front of [order] until a live entry. *)
Fixpoint prune_from (now : Z) (es : gmap string Z) (ids : list string) : ReplayCache :=
  match ids with
  | [] => {| entries := es; order := [] |}
  | id :: rest =>
      if match es !! id with Some expires_at => now <? expires_at | None => false end
      then {| entries := es; order := ids |}
      else prune_from now (delete id es) rest
  end.
Definition prune (now : Z) (c : ReplayCache) : ReplayCache := prune_from now (entries c) (order c).

(** [record_unused]. *)
Definition record_unused (event_id : string) (created_at now : Z) (c : ReplayCache)
  : ReplayCache * res NostrAuthReplayError unit :=
  match try_from_i64 created_at with
  | None => (c, Err Replayed)
  | Some created_at =>
      let expires_at :=
        Z.max (saturating_add_i64 (saturating_add_i64 created_at AUTH_EVENT_MAX_AGE_SECONDS)
                 AUTH_EVENT_FUTURE_SKEW_SECONDS)
          (saturating_add_i64 now 1) in
      let c := prune now c in
      if bool_decide (is_Some (entries c !! event_id)) then (c, Err Replayed)
      else if AUTH_REPLAY_CACHE_MAX_ENTRIES <=? Z.of_nat (size (entries c)) then (c, Err CacheFull)
      else
        ({| entries := <[event_id := expires_at]> (entries c); order := order c ++ [event_id] |},
         Ok tt)
  end.

(** ** Events and requests *)

(** The parts of [nostr::Event] the checks read. *)
Record Event := {
  ev_id : string;
  ev_pubkey : string;
  ev_created_at : Z;
  ev_kind : Z;
  ev_tags : list (list string)
}.

(** What the extractors read of a request; [rq_source] is the prefix
    [effective_source_prefix] computes, [rq_path] the path and query. *)
Record AuthRequest := {
  rq_authorization : option string;
  rq_method : string;
  rq_path : option string;
  rq_body : string;
  rq_source : string
}.

Record AuthConfig := {
  public_base_url : string;
  auth_production_mode : bool;
  open_self_registration_enabled : bool;
  admission_allowed_recipients : list string;
  auth_events_per_source_prefix : Z;
  auth_event_window_seconds : Z
}.

Record AuthState := { as_limits : RateLimitState; as_cache : ReplayCache }.

(** The three clock reads of one verification, in their order. *)
Record AuthClocks := { ck_verify : Z; ck_limit : Z; ck_record : Z }.

Definition api_error (s : Z) (c m : string) : ApiError := {| status := s; code := c; message := m |}.
Definition auth_failed : ApiError := api_error 401 "invalid_nostr_auth" "invalid Nostr authorization".

(** [tag_value]: the second string of the first tag with that name. *)
Fixpoint tag_value (tags : list (list string)) (name : string) : option string :=
  match tags with
  | [] => None
  | (n :: v :: _) :: rest => if decide (n = name) then Some v else tag_value rest name
  | _ :: rest => tag_value rest name
  end.

Definition guard_auth (b : bool) : res ApiError unit := if b then Ok tt else Err auth_failed.

(** [verify_timestamp]. *)
Definition verify_timestamp (e : Event) (now : Z) : res ApiError unit :=
  created_at ← ok_or auth_failed (try_from_i64 (ev_created_at e));
  if created_at <? now - AUTH_EVENT_MAX_AGE_SECONDS then Err auth_failed
  else if now + AUTH_EVENT_FUTURE_SKEW_SECONDS <? created_at then Err auth_failed
  else Ok tt.

(** [PushGatewayConfig::recipient_admitted] and [ensure_recipient_admitted]. *)
Definition recipient_admitted (cfg : AuthConfig) (recipient : string) : bool :=
  (negb (auth_production_mode cfg) && bool_decide (admission_allowed_recipients cfg = []))
  || open_self_registration_enabled cfg
  || bool_decide (recipient ∈ admission_allowed_recipients cfg).
Definition ensure_recipient_admitted (cfg : AuthConfig) (recipient : string) : res ApiError unit :=
  if recipient_admitted cfg recipient then Ok tt
  else Err (api_error 403 "recipient_not_admitted" "recipient is not admitted").

(** [expected_absolute_url]. *)
Definition expected_absolute_url (cfg : AuthConfig) (path_and_query : option string)
  : res ApiError string :=
  if bool_decide (public_base_url cfg = ""%string)
  then Err (api_error 500 "auth_base_url_not_configured"
              "public base URL is not configured for signed request auth")
  else Ok (public_base_url cfg ++ default "/"%string path_and_query)%string.

(** [axum::body::to_bytes] with the limit of the extractors. *)
Definition read_body (r : AuthRequest) : res ApiError string :=
  if MAX_AUTHENTICATED_BODY_BYTES <? Z.of_nat (String.length (rq_body r))
  then Err (api_error 413 "payload_too_large" "request body is too large")
  else Ok (rq_body r).

(** [enforce_auth_source_budget]. *)
Definition enforce_auth_source_budget (cfg : AuthConfig) (source : string) (now : Z)
    (rl : RateLimitState) : RateLimitState * res ApiError unit :=
  if (auth_events_per_source_prefix cfg =? 0) || (auth_event_window_seconds cfg =? 0) then (rl, Ok tt)
  else
    let '(rl, ok) := check DEFAULT_LIMITER_FAMILY_CAPACITY AuthSource source
                       (auth_events_per_source_prefix cfg) (auth_event_window_seconds cfg) now rl in
    (rl, if ok : bool then Ok tt
         else Err (api_error 429 "auth_source_rate_limited" "authentication source rate limited")).

(** How a refusal of the cache is reported. *)
Definition replay_error (e : NostrAuthReplayError) : ApiError :=
  match e with
  | Replayed => api_error 401 "auth_replay" "authorization event was already used"
  | CacheFull => api_error 503 "auth_replay_cache_full" "authorization replay cache is full"
  end.

Lemma budget_answers cfg source now rl :
  (enforce_auth_source_budget cfg source now rl).2 = Ok tt ∨
  (enforce_auth_source_budget cfg source now rl).2 =
    Err (api_error 429 "auth_source_rate_limited" "authentication source rate limited").
Proof.
  unfold enforce_auth_source_budget. case_match; [by left|].
  destruct (check _ _ _ _ _ _ _) as [? []]; [by left|by right].
Qed.

Section Verify.
Context {Json : Type}.
Variables (base64 : string -> option string) (json : string -> option Json)
  (pubkey_field : Json -> option string) (event_of : Json -> option Event)
  (verifies : Event -> bool) (url_parses : string -> bool) (sha256_hex : string -> string).

(** [decode_authorization_event]: the raw [pubkey] field and the event. *)
Definition decode_authorization_event (authorization : string) : res ApiError (string * Event) :=
  if negb (starts_with "Nostr " authorization) then Err auth_failed
  else
    let encoded := String.substring 6 (String.length authorization - 6) authorization in
    if bool_decide (encoded = ""%string) then Err auth_failed
    else
      decoded ← ok_or auth_failed (base64 encoded);
      value ← ok_or auth_failed (json decoded);
      raw_pubkey ← ok_or auth_failed (pubkey_field value);
      event ← ok_or auth_failed (event_of value);
      Ok (raw_pubkey, event).

(** [verify_event_shape_and_signature]. *)
Definition verify_event_shape_and_signature (raw_pubkey : string) (e : Event) : res ApiError unit :=
  _ ← guard_auth (ev_kind e =? 27235);
  _ ← guard_auth (bool_decide (raw_pubkey = ev_pubkey e));
  guard_auth (verifies e).

(** [verify_tags]. *)
Definition verify_tags (e : Event) (method expected_url : string) (body : option string)
  : res ApiError unit :=
  url ← ok_or auth_failed (tag_value (ev_tags e) "u");
  _ ← guard_auth (url_parses url && bool_decide (url = expected_url));
  authorized_method ← ok_or auth_failed (tag_value (ev_tags e) "method");
  _ ← guard_auth (bool_decide (authorized_method = method));
  match body with
  | Some body =>
      payload ← ok_or auth_failed (tag_value (ev_tags e) "payload");
      guard_auth (bool_decide (payload = sha256_hex body))
  | None => Ok tt
  end.

(** The checks of [verify_authorization_event] that touch no state. *)
Definition verify_event (authorization : option string) (method expected_url : string)
    (body : option string) (now : Z) : res ApiError Event :=
  authorization ← ok_or auth_failed authorization;
  '(raw_pubkey, event) ← decode_authorization_event authorization;
  _ ← verify_event_shape_and_signature raw_pubkey event;
  _ ← verify_tags event method expected_url body;
  _ ← verify_timestamp event now;
  Ok event.

(** [verify_authorization_event]: the recipient, and the state after. *)
Definition verify_authorization_event (cfg : AuthConfig) (ck : AuthClocks) (r : AuthRequest)
    (expected_url : string) (body : option string) (s : AuthState)
  : AuthState * res ApiError string :=
  match verify_event (rq_authorization r) (rq_method r) expected_url body (ck_verify ck) with
  | Ok event =>
      let '(rl, budget) := enforce_auth_source_budget cfg (rq_source r) (ck_limit ck) (as_limits s) in
      match budget with
      | Ok _ =>
          let '(cache, used) :=
            record_unused (ev_id event) (ev_created_at event) (ck_record ck) (as_cache s) in
          ({| as_limits := rl; as_cache := cache |},
           match used with
           | Ok _ => Ok (ev_pubkey event)
           | Err e => Err (replay_error e)
           | Panic => Panic
           end)
      | Err e => ({| as_limits := rl; as_cache := as_cache s |}, Err e)
      | Panic => ({| as_limits := rl; as_cache := as_cache s |}, Panic)
      end
  | Err e => (s, Err e)
  | Panic => (s, Panic)
  end.

(** [verify_authorization]. *)
Definition verify_authorization (cfg : AuthConfig) (ck : AuthClocks) (r : AuthRequest)
    (expected_url : string) (body : option string) (s : AuthState)
  : AuthState * res ApiError string :=
  let '(s, verified) := verify_authorization_event cfg ck r expected_url body s in
  (s, recipient ← verified; _ ← ensure_recipient_admitted cfg recipient; Ok recipient).

(** [AuthenticatedRecipient], [AuthenticatedEmptyBody] and
    [AuthenticatedJson]; [payload] is the deserializer of the JSON type. *)
Definition authenticated_recipient (cfg : AuthConfig) (ck : AuthClocks) (r : AuthRequest)
    (s : AuthState) : AuthState * res ApiError string :=
  match expected_absolute_url cfg (rq_path r) with
  | Ok url => verify_authorization cfg ck r url None s
  | Err e => (s, Err e)
  | Panic => (s, Panic)
  end.

Definition with_body {A} (cfg : AuthConfig) (ck : AuthClocks) (r : AuthRequest) (s : AuthState)
    (finish : string -> string -> res ApiError A) : AuthState * res ApiError A :=
  match (url ← expected_absolute_url cfg (rq_path r); body ← read_body r; Ok (url, body)) with
  | Ok (url, body) =>
      let '(s, verified) := verify_authorization cfg ck r url (Some body) s in
      (s, recipient ← verified; finish recipient body)
  | Err e => (s, Err e)
  | Panic => (s, Panic)
  end.
Definition authenticated_empty_body (cfg : AuthConfig) (ck : AuthClocks) (r : AuthRequest)
    (s : AuthState) : AuthState * res ApiError string :=
  with_body cfg ck r s (λ recipient body,
    if bool_decide (body = ""%string) then Ok recipient
    else Err (bad_request "unexpected_body" "request body must be empty")).
Definition authenticated_json {T} (payload : string -> option T) (cfg : AuthConfig) (ck : AuthClocks)
    (r : AuthRequest) (s : AuthState) : AuthState * res ApiError (string * T) :=
  with_body cfg ck r s (λ recipient body,
    value ← ok_or (bad_request "invalid_json" "request body must be valid JSON") (payload body);
    Ok (recipient, value)).

(** ** What an accepted request proves *)

(** The event is signed by the recipient for exactly this method, URL and
    body, and was fresh. *)
Record proves (e : Event) (recipient method url : string) (body : option string) (now : Z) : Prop := {
  pv_signed : verifies e = true;
  pv_kind : ev_kind e = 27235;
  pv_signer : ev_pubkey e = recipient;
  pv_url : tag_value (ev_tags e) "u" = Some url;
  pv_method : tag_value (ev_tags e) "method" = Some method;
  pv_body : ∀ b, body = Some b → tag_value (ev_tags e) "payload" = Some (sha256_hex b);
  pv_fresh : now - AUTH_EVENT_MAX_AGE_SECONDS <= ev_created_at e
             <= now + AUTH_EVENT_FUTURE_SKEW_SECONDS
}.

Lemma ok_or_Ok {E A} (err : E) (o : option A) (a : A) : ok_or err o = Ok a ↔ o = Some a.
Proof. destruct o; cbn; split; congruence. Qed.
Lemma guard_auth_Ok b u : guard_auth b = Ok u ↔ b = true.
Proof. destruct b, u; cbn; split; congruence. Qed.
Lemma try_from_i64_Some z z' : try_from_i64 z = Some z' → z' = z ∧ i64_min <= z <= i64_max.
Proof.
  unfold try_from_i64, in_range. destruct (_ && _) eqn:H; [|done]. intros [= <-].
  apply andb_true_iff in H as [?%Z.leb_le ?%Z.leb_le]. done.
Qed.

Lemma try_from_i64_fits z : try_from_i64 z = Some z ↔ i64_min <= z <= i64_max.
Proof.
  unfold try_from_i64, in_range. destruct (Z.leb_spec i64_min z), (Z.leb_spec z i64_max); cbn;
    split; done || lia.
Qed.

Ltac auth_ok :=
  repeat match goal with
  | H : (_ ≫= _) = Ok _ |- _ => apply res_bind_Ok in H as (? & ? & ?)
  | H : ok_or _ _ = Ok _ |- _ => apply ok_or_Ok in H
  | H : guard_auth _ = Ok _ |- _ => apply guard_auth_Ok in H
  | H : try_from_i64 _ = Some _ |- _ => apply try_from_i64_Some in H as [-> ?]
  | H : _ && _ = true |- _ => apply andb_true_iff in H as [? ?]
  | H : bool_decide _ = true |- _ => apply bool_decide_eq_true in H
  | x : _ * _ |- _ => destruct x
  end.

Lemma verify_timestamp_Ok e now u :
  verify_timestamp e now = Ok u →
  now - AUTH_EVENT_MAX_AGE_SECONDS <= ev_created_at e <= now + AUTH_EVENT_FUTURE_SKEW_SECONDS ∧
  i64_min <= ev_created_at e <= i64_max.
Proof.
  unfold verify_timestamp. intros H. auth_ok. case_match eqn:Hold; [done|].
  case_match eqn:Hnew; [done|]. apply Z.ltb_ge in Hold, Hnew. lia.
Qed.

Lemma verify_event_Ok authorization method url body now e :
  verify_event authorization method url body now = Ok e →
  proves e (ev_pubkey e) method url body now ∧ i64_min <= ev_created_at e <= i64_max.
Proof.
  unfold verify_event, verify_event_shape_and_signature, verify_tags.
  intros H. auth_ok. simplify_eq.
  match goal with H : verify_timestamp _ _ = Ok _ |- _ => apply verify_timestamp_Ok in H as [? ?] end.
  split; [|done]. split; try done; try (subst; done).
  - by apply Z.eqb_eq.
  - intros b ->. auth_ok. by subst.
Qed.

(** ** The replay cache *)

Lemma prune_from_keeps now es ids id x :
  es !! id = Some x → now < x → entries (prune_from now es ids) !! id = Some x.
Proof.
  revert es. induction ids as [|id' ids IH]; intros es Hid Hx; [done|]. cbn.
  case_match eqn:Hlive; [done|]. apply IH; [|done]. rewrite lookup_delete_ne; [done|].
  intros ->. rewrite Hid in Hlive. apply Z.ltb_ge in Hlive. lia.
Qed.

Lemma record_unused_keeps id' t now c id x :
  entries c !! id = Some x → now < x →
  entries (record_unused id' t now c).1 !! id = Some x.
Proof.
  intros Hid Hx. pose proof (prune_from_keeps now _ (order c) id x Hid Hx) as Hp.
  unfold record_unused. destruct (try_from_i64 t); [|done].
  case_bool_decide as Hin; [done|]. case_match; [done|]. cbn.
  rewrite lookup_insert_ne; [done|]. intros ->. by destruct Hin.
Qed.

(** Recording a new id stores how long it must be remembered. *)
Lemma record_unused_Ok id t now c c' :
  record_unused id t now c = (c', Ok tt) →
  entries (prune now c) !! id = None ∧
  ∃ x, entries c' !! id = Some x ∧ (∀ n, n < i64_max → n < t + 65 → n < x).
Proof.
  unfold record_unused. destruct (try_from_i64 t) as [t'|] eqn:Ht; [|done].
  apply try_from_i64_Some in Ht as [-> Ht]. case_bool_decide as Hin; [done|]. case_match; [done|].
  intros [= <-]. split; [by apply eq_None_not_Some|]. eexists. cbn. split; [by rewrite lookup_insert_eq|].
  unfold saturating_add_i64, AUTH_EVENT_MAX_AGE_SECONDS, AUTH_EVENT_FUTURE_SKEW_SECONDS, i64_max, i64_min in *.
  lia.
Qed.

Lemma record_unused_replay id t now c x :
  entries c !! id = Some x → now < x → i64_min <= t <= i64_max →
  (record_unused id t now c).2 = Err Replayed.
Proof.
  intros Hid Hx Ht. unfold record_unused. case_match; [|done].
  rewrite bool_decide_true; [done|]. exists x. by apply prune_from_keeps.
Qed.

(** ** Accepted requests *)

Lemma verify_authorization_event_Ok cfg ck r url body s s' recipient :
  verify_authorization_event cfg ck r url body s = (s', Ok recipient) →
  ∃ e, verify_event (rq_authorization r) (rq_method r) url body (ck_verify ck) = Ok e ∧
    ev_pubkey e = recipient ∧
    record_unused (ev_id e) (ev_created_at e) (ck_record ck) (as_cache s) = (as_cache s', Ok tt).
Proof.
  unfold verify_authorization_event. destruct (verify_event _ _ _ _ _) as [e| |]; [|done|done].
  destruct (enforce_auth_source_budget _ _ _ _) as [rl [u| |]]; [|done|done].
  destruct (record_unused _ _ _ _) as [c [[]|?|]] eqn:Hr; intros [= <- Hrec]; simplify_eq.
  by exists e.
Qed.

Lemma verify_authorization_Ok cfg ck r url body s s' recipient :
  verify_authorization cfg ck r url body s = (s', Ok recipient) →
  ∃ e, proves e recipient (rq_method r) url body (ck_verify ck) ∧
    recipient_admitted cfg recipient = true ∧
    entries (prune (ck_record ck) (as_cache s)) !! ev_id e = None ∧
    is_Some (entries (as_cache s') !! ev_id e).
Proof.
  unfold verify_authorization.
  destruct (verify_authorization_event cfg ck r url body s) as [s1 verified] eqn:Hv.
  intros [= <- H]. auth_ok. simplify_eq.
  apply verify_authorization_event_Ok in Hv as (e & [Hp _]%verify_event_Ok & <- & Hr).
  apply record_unused_Ok in Hr as (Hnew & x & Hx & _). exists e. split_and!; [done| |done|by exists x].
  match goal with H : ensure_recipient_admitted _ _ = Ok _ |- _ => unfold ensure_recipient_admitted in H end.
  by case_match.
Qed.

(** What an accepted JSON request proves.  If the extractor hands a handler
    a recipient and a value, the recipient signed an event for exactly the
    method, the absolute URL and the raw body of this request, the event was at
    most sixty seconds old and five in the future, the recipient is admitted,
    the body fits the limit and is what the value was parsed from, and the
    event's id is now in the replay cache. *)
Theorem authenticated_json_sound {T} (payload : string -> option T) cfg ck r s s' recipient value
    (Hok : authenticated_json payload cfg ck r s = (s', Ok (recipient, value))) :
  ∃ e, proves e recipient (rq_method r) (public_base_url cfg ++ default "/" (rq_path r))%string
         (Some (rq_body r)) (ck_verify ck) ∧
    recipient_admitted cfg recipient = true ∧ payload (rq_body r) = Some value ∧
    Z.of_nat (String.length (rq_body r)) <= MAX_AUTHENTICATED_BODY_BYTES ∧
    entries (prune (ck_record ck) (as_cache s)) !! ev_id e = None ∧
    is_Some (entries (as_cache s') !! ev_id e).
Proof.
  unfold authenticated_json, with_body in Hok.
  destruct (expected_absolute_url cfg (rq_path r)) as [url| |] eqn:Hurl; [|done|done].
  destruct (read_body r) as [body| |] eqn:Hbody; [|done|done]. cbn [mbind res_bind] in Hok.
  destruct (verify_authorization cfg ck r url (Some body) s) as [s1 verified] eqn:Hv.
  injection Hok as -> Hok. auth_ok. simplify_eq.
  apply verify_authorization_Ok in Hv as (e & Hp & Hadm & Hnew & Hin).
  unfold expected_absolute_url in Hurl. case_bool_decide; simplify_eq.
  unfold read_body in Hbody. case_match eqn:Hlen; simplify_eq. apply Z.ltb_ge in Hlen.
  by exists e.
Qed.


(** ** Runs of requests *)

(** One request at the check: what the extractor passes on and its clock. *)
Record Attempt := {
  at_request : AuthRequest;
  at_url : string;
  at_body : option string;
  at_clocks : AuthClocks
}.
Definition attempt (cfg : AuthConfig) (a : Attempt) (s : AuthState) : AuthState * res ApiError string :=
  verify_authorization_event cfg (at_clocks a) (at_request a) (at_url a) (at_body a) s.
Definition attempts (cfg : AuthConfig) (l : list Attempt) (s : AuthState) : AuthState :=
  foldl (λ s a, (attempt cfg a s).1) s l.

(** The event of a request that passes the stateless checks. *)
Definition carries (a : Attempt) (e : Event) : Prop :=
  verify_event (rq_authorization (at_request a)) (rq_method (at_request a)) (at_url a) (at_body a)
    (ck_verify (at_clocks a)) = Ok e.

Lemma attempt_cache cfg a s :
  as_cache (attempt cfg a s).1 = as_cache s ∨
  ∃ e, carries a e ∧
    as_cache (attempt cfg a s).1 =
      (record_unused (ev_id e) (ev_created_at e) (ck_record (at_clocks a)) (as_cache s)).1.
Proof.
  unfold attempt, carries, verify_authorization_event.
  destruct (verify_event _ _ _ _ _) as [e| |]; [|by left|by left].
  destruct (enforce_auth_source_budget _ _ _ _) as [rl [u| |]]; [|by left|by left].
  right. exists e. by destruct (record_unused _ _ _ _).
Qed.

Lemma attempt_keeps cfg a s id x :
  entries (as_cache s) !! id = Some x → ck_record (at_clocks a) < x →
  entries (as_cache (attempt cfg a s).1) !! id = Some x.
Proof.
  intros Hid Hx. destruct (attempt_cache cfg a s) as [->|(e & _ & ->)]; [done|].
  by apply record_unused_keeps.
Qed.

Lemma attempts_keep cfg l s id x :
  entries (as_cache s) !! id = Some x → Forall (λ a, ck_record (at_clocks a) < x) l →
  entries (as_cache (attempts cfg l s)) !! id = Some x.
Proof.
  revert s. induction l as [|a l IH]; intros s Hid Hl; [done|]. apply Forall_cons in Hl as [Ha Hl].
  apply IH; [|done]. by apply attempt_keeps.
Qed.

(** C26: a signed event is accepted at most once.  After a request was accepted,
    whatever other requests follow, a second request with the same event id is
    refused as a replay or by the source budget, provided the second request
    reaches the cache less than five seconds after its freshness check. *)
Theorem auth_event_accepted_once cfg s a e between b e' recipient
    (Hids : ∀ e1 e2, verifies e1 = true → verifies e2 = true → ev_id e1 = ev_id e2 →
      ev_created_at e1 = ev_created_at e2)
    (Ha : carries a e) (Haccepted : (attempt cfg a s).2 = Ok recipient)
    (Hb : carries b e') (Hsame : ev_id e' = ev_id e)
    (Hsoon : Forall (λ c, ck_record (at_clocks c) < i64_max ∧
       ck_record (at_clocks c) < ck_verify (at_clocks b) + AUTH_EVENT_FUTURE_SKEW_SECONDS)
       (between ++ [b])) :
  let s' := attempts cfg between (attempt cfg a s).1 in
  (attempt cfg b s').2 = Err (replay_error Replayed) ∨
  (attempt cfg b s').2 =
    Err (api_error 429 "auth_source_rate_limited" "authentication source rate limited").
Proof.
  intros s'. destruct (verify_event_Ok _ _ _ _ _ _ Ha) as [[Hsig _ _ _ _ _ _] _].
  destruct (verify_event_Ok _ _ _ _ _ _ Hb) as [[Hsig' _ _ _ _ _ Hfresh] Hmax].
  rewrite (Hids e' e) in * by done.
  destruct (attempt cfg a s) as [s1 out] eqn:Hrun. cbn in Haccepted, s'. subst out.
  apply verify_authorization_event_Ok in Hrun as (e1 & He1 & _ & (_ & x & Hx & Hlong)%record_unused_Ok).
  unfold carries in Ha. rewrite Ha in He1. injection He1 as <-.
  assert (Forall (λ c, ck_record (at_clocks c) < x) (between ++ [b])) as Hall.
  { eapply Forall_impl; [exact Hsoon|]. intros c [? ?]. apply Hlong; [done|].
    unfold AUTH_EVENT_MAX_AGE_SECONDS, AUTH_EVENT_FUTURE_SKEW_SECONDS in *. lia. }
  apply Forall_app in Hall as [Hbetween [Hlast _]%Forall_cons].
  assert (entries (as_cache s') !! ev_id e = Some x) as Hin by by apply attempts_keep.
  unfold attempt, verify_authorization_event. unfold carries in Hb. rewrite Hb.
  pose proof (budget_answers cfg (rq_source (at_request b)) (ck_limit (at_clocks b)) (as_limits s')) as Hbud.
  destruct (enforce_auth_source_budget _ _ _ _) as [rl budget]. cbn in Hbud.
  destruct Hbud as [->| ->]; [left|by right].
  pose proof (record_unused_replay (ev_id e) (ev_created_at e') (ck_record (at_clocks b)) (as_cache s') x Hin Hlast) as Hrep.
  rewrite Hsame. destruct (record_unused _ _ _ _) as [c used]. cbn in *. rewrite Hrep; [done|].
  by rewrite (Hids e' e).
Qed.

(** ** The cache stays bounded and recovers *)

(** The queue lists the remembered ids once each, and all of them expire by
    [until]. *)
Record cache_ok (until : Z) (c : ReplayCache) : Prop := {
  ck_nodup : NoDup (order c);
  ck_dom : ∀ id, id ∈ order c ↔ is_Some (entries c !! id);
  ck_size : Z.of_nat (size (entries c)) <= AUTH_REPLAY_CACHE_MAX_ENTRIES;
  ck_until : ∀ id x, entries c !! id = Some x → x <= until
}.

Lemma prune_ok until now c : cache_ok until c → cache_ok until (prune now c).
Proof.
  destruct c as [es ids]. unfold prune. cbn. revert es.
  induction ids as [|id ids IH]; intros es [Hn Hd Hs Hu]; cbn in *.
  - split; cbn; done.
  - case_match; [by split|]. apply NoDup_cons in Hn as [Hnin Hn]. apply IH. split; cbn; [done| | |].
    + intros id'. destruct (decide (id' = id)) as [->|Hne].
      * rewrite lookup_delete_eq, is_Some_alt. by split.
      * rewrite lookup_delete_ne, <- Hd, elem_of_cons by done. naive_solver.
    + etrans; [|exact Hs]. apply inj_le, map_subseteq_size, delete_subseteq.
    + intros id' x [_ Hx]%lookup_delete_Some. by eapply Hu.
Qed.

(** Once everything has expired the cache is emptied. *)
Lemma prune_expired until now c : cache_ok until c → until <= now → entries (prune now c) = ∅.
Proof.
  intros Hc Hle. destruct (prune_ok until now c Hc) as [_ Hd _ Hu].
  assert (order (prune now c) = []) as Hnil.
  { clear Hd Hu. destruct Hc as [_ _ _ Hu]. unfold prune. destruct c as [es ids]. cbn in *.
    revert es Hu. induction ids as [|id ids IH]; intros es Hu; cbn; [done|].
    case_match eqn:Hlive.
    - case_match eqn:Hx; [|done]. apply Z.ltb_lt in Hlive. specialize (Hu _ _ Hx). lia.
    - apply IH. intros id' x [_ Hx]%lookup_delete_Some. by eapply Hu. }
  apply map_eq. intros id. rewrite lookup_empty. apply eq_None_not_Some. intros Hid.
  apply Hd in Hid. rewrite Hnil in Hid. by apply not_elem_of_nil in Hid.
Qed.

Lemma record_unused_ok until id t now c :
  cache_ok until c → t + 65 <= until → now + 1 <= until → cache_ok until (record_unused id t now c).1.
Proof.
  intros Hc Ht Hnow. unfold record_unused. destruct (try_from_i64 t) as [t'|] eqn:Hfit; [|done].
  apply try_from_i64_Some in Hfit as [-> Hfit]. pose proof (prune_ok until now c Hc) as [Hn Hd Hs Hu].
  case_bool_decide as Hin; [by split|]. case_match eqn:Hfull; [by split|]. apply Z.leb_gt in Hfull.
  apply eq_None_not_Some in Hin. split; cbn.
  - apply NoDup_app. split_and!; [done| |apply NoDup_singleton].
    intros y [x Hx]%Hd ->%list_elem_of_singleton. congruence.
  - intros id'. rewrite elem_of_app, list_elem_of_singleton, Hd, lookup_insert_is_Some'. naive_solver.
  - rewrite map_size_insert_None by done. unfold AUTH_REPLAY_CACHE_MAX_ENTRIES in *. lia.
  - intros id' x [[<- <-]|[_ Hx]]%lookup_insert_Some; [|by eapply Hu].
    unfold saturating_add_i64, AUTH_EVENT_MAX_AGE_SECONDS, AUTH_EVENT_FUTURE_SKEW_SECONDS, i64_max, i64_min in *.
    lia.
Qed.

Lemma cache_ok_length until c :
  cache_ok until c → Z.of_nat (length (order c)) <= AUTH_REPLAY_CACHE_MAX_ENTRIES.
Proof.
  intros [Hn Hd Hs _]. etrans; [|exact Hs]. apply inj_le.
  rewrite <- (size_list_to_set (C:=gset string) (order c)), <- (size_dom (entries c)) by done.
  apply subseteq_size. intros id. by rewrite elem_of_list_to_set, elem_of_dom, Hd.
Qed.

Lemma attempts_ok until cfg l s :
  cache_ok until (as_cache s) →
  Forall (λ a, ck_verify (at_clocks a) <= ck_record (at_clocks a) ∧
               ck_record (at_clocks a) + 70 <= until) l →
  cache_ok until (as_cache (attempts cfg l s)).
Proof.
  revert s. induction l as [|a l IH]; intros s Hc Hl; [done|].
  apply Forall_cons in Hl as [[Hv Hu] Hl]. apply IH; [|done].
  destruct (attempt_cache cfg a s) as [->|(e & He & ->)]; [done|].
  apply verify_event_Ok in He as [[_ _ _ _ _ _ Hfresh] _].
  unfold AUTH_EVENT_FUTURE_SKEW_SECONDS in *. apply record_unused_ok; [done|lia|lia].
Qed.

(** No id used yet. *)
Definition empty_cache : ReplayCache := {| entries := ∅; order := [] |}.

Lemma cache_ok_empty until : cache_ok until empty_cache.
Proof.
  split; cbn; [apply NoDup_nil_2| |done|].
  - intros id. rewrite lookup_empty, elem_of_nil, is_Some_alt. done.
  - intros id x. by rewrite lookup_empty.
Qed.

(** the replay cache is bounded and recovers.  Whatever requests arrive, the
    cache and its queue never hold more than the fixed number of ids.  When it
    is full it refuses new events, but seventy seconds after the last request
    every properly signed, fresh event is accepted again unless its source is
    over its budget. *)
Theorem replay_cache_recovers cfg rl l last b e
    (Hclocks : Forall (λ a, ck_verify (at_clocks a) <= ck_record (at_clocks a) <= last) l)
    (Hlater : last + 70 <= ck_record (at_clocks b)) (Hb : carries b e) :
  let s := attempts cfg l {| as_limits := rl; as_cache := empty_cache |} in
  Z.of_nat (size (entries (as_cache s))) <= AUTH_REPLAY_CACHE_MAX_ENTRIES ∧
  Z.of_nat (length (order (as_cache s))) <= AUTH_REPLAY_CACHE_MAX_ENTRIES ∧
  ((attempt cfg b s).2 = Ok (ev_pubkey e) ∨
   (attempt cfg b s).2 =
     Err (api_error 429 "auth_source_rate_limited" "authentication source rate limited")).
Proof.
  intros s. assert (cache_ok (last + 70) (as_cache s)) as Hc.
  { apply attempts_ok; [apply cache_ok_empty|].
    eapply Forall_impl; [exact Hclocks|]. cbn. lia. }
  split; [apply Hc|]. split; [by eapply cache_ok_length|].
  apply (prune_expired _ (ck_record (at_clocks b))) in Hc; [|done].
  destruct (verify_event_Ok _ _ _ _ _ _ Hb) as [_ Hfit]. unfold carries in Hb.
  unfold attempt, verify_authorization_event. rewrite Hb.
  pose proof (budget_answers cfg (rq_source (at_request b)) (ck_limit (at_clocks b)) (as_limits s)) as Hbud.
  destruct (enforce_auth_source_budget _ _ _ _) as [rl' budget]. cbn in Hbud.
  destruct Hbud as [->| ->]; [left|by right]. unfold record_unused. rewrite Hc.
  rewrite (proj2 (try_from_i64_fits _) Hfit), bool_decide_false by (by rewrite lookup_empty; intros []).
  by rewrite map_size_empty.
Qed.

End Verify.

(** ** A concrete request *)

Definition demo_event : Event :=
  {| ev_id := "1"; ev_pubkey := "p"; ev_created_at := 1000; ev_kind := 27235;
     ev_tags := [["u"; "https://x/r"]; ["method"; "POST"]; ["payload"; "b"]]%string |}.
Definition demo_config : AuthConfig :=
  {| public_base_url := "https://x"; auth_production_mode := true;
     open_self_registration_enabled := false; admission_allowed_recipients := ["p"%string];
     auth_events_per_source_prefix := 10; auth_event_window_seconds := 60 |}.
Definition demo_request : AuthRequest :=
  {| rq_authorization := Some "Nostr e"%string; rq_method := "POST"; rq_path := Some "/r"%string;
     rq_body := "b"; rq_source := "s" |}.
Definition demo_clocks (now : Z) : AuthClocks := {| ck_verify := now; ck_limit := now; ck_record := now |}.
Definition demo_auth_state : AuthState := {| as_limits := ∅; as_cache := empty_cache |}.
Definition demo_signed (e : Event) : bool := bool_decide (ev_created_at e = 1000).
Definition demo_pubkey (j : string) : option string := Some "p"%string.
Definition demo_parse (j : string) : option Event := Some demo_event.
Definition demo_attempt (now : Z) : Attempt :=
  {| at_request := demo_request; at_url := "https://x/r"; at_body := Some "b"%string;
     at_clocks := demo_clocks now |}.

Lemma authenticated_json_sound_witness :
  ∃ e, ev_pubkey e = "p"%string ∧ tag_value (ev_tags e) "payload" = Some "b"%string.
Proof.
  destruct (authenticated_json_sound Some Some demo_pubkey demo_parse demo_signed (λ _, true) id
    (Some : string -> option string) demo_config (demo_clocks 1010) demo_request demo_auth_state
    (authenticated_json Some Some demo_pubkey demo_parse demo_signed (λ _, true) id
      (Some : string -> option string) demo_config (demo_clocks 1010) demo_request demo_auth_state).1
    "p" "b") as (e & Hp & _).
  - vm_compute. reflexivity.
  - exists e. split; [apply Hp|]. exact (pv_body _ _ _ _ _ _ _ _ Hp "b"%string eq_refl).
Defined.

Lemma auth_event_accepted_once_witness :
  let run := attempt Some Some demo_pubkey demo_parse demo_signed (λ _, true) id demo_config in
  let s' := attempts Some Some demo_pubkey demo_parse demo_signed (λ _, true) id demo_config []
              (run (demo_attempt 1010) demo_auth_state).1 in
  (run (demo_attempt 1060) s').2 = Err (replay_error Replayed) ∨
  (run (demo_attempt 1060) s').2 =
    Err (api_error 429 "auth_source_rate_limited" "authentication source rate limited").
Proof.
  apply (auth_event_accepted_once Some Some demo_pubkey demo_parse demo_signed (λ _, true) id
    demo_config demo_auth_state (demo_attempt 1010) demo_event [] (demo_attempt 1060) demo_event "p").
  - intros e1 e2 H1%bool_decide_eq_true H2%bool_decide_eq_true _. by rewrite H1, H2.
  - vm_compute. reflexivity.
  - vm_compute. reflexivity.
  - vm_compute. reflexivity.
  - reflexivity.
  - repeat constructor.
Defined.

(** The five seconds matter: a request that waits that long between its
    freshness check and the cache is accepted a second time. *)
Lemma stalled_request_replays :
  let run := attempt Some Some demo_pubkey demo_parse demo_signed (λ _, true) id demo_config in
  let stalled := {| at_request := demo_request; at_url := "https://x/r"; at_body := Some "b"%string;
                    at_clocks := {| ck_verify := 1060; ck_limit := 1060; ck_record := 1065 |} |} in
  (run stalled (run (demo_attempt 1010) demo_auth_state).1).2 = Ok "p"%string.
Proof. vm_compute. reflexivity. Qed.

Lemma replay_cache_recovers_witness :
  let run := attempt Some Some demo_pubkey demo_parse demo_signed (λ _, true) id demo_config in
  let s := attempts Some Some demo_pubkey demo_parse demo_signed (λ _, true) id demo_config
             [demo_attempt 980] demo_auth_state in
  Z.of_nat (size (entries (as_cache s))) <= AUTH_REPLAY_CACHE_MAX_ENTRIES ∧
  Z.of_nat (length (order (as_cache s))) <= AUTH_REPLAY_CACHE_MAX_ENTRIES ∧
  ((run (demo_attempt 1050) s).2 = Ok "p"%string ∨
   (run (demo_attempt 1050) s).2 =
     Err (api_error 429 "auth_source_rate_limited" "authentication source rate limited")).
Proof.
  apply (replay_cache_recovers Some Some demo_pubkey demo_parse demo_signed (λ _, true) id
    demo_config ∅ [demo_attempt 980] 980 (demo_attempt 1050) demo_event).
  - repeat constructor; cbn; lia.
  - cbn. lia.
  - vm_compute. reflexivity.
Defined.

End Auth.
