(* ===== verification/PushHttp.v ===== *)
(** * The HTTP surface ([crates/push-gateway/src/register.rs],
      [hook_management.rs], [invoke_hook.rs], [validation.rs], [app.rs])

    The handlers as the router composes them: the signed request, the
    validation of the payload, the limiters, the provider's verdict on a token,
    the admission to the write lock and the repository operation.  Clock reads,
    random ids, the lock's answer and parsers of third-party crates are
    arguments.  Operational counters are left out. *)

From S2P Require Import Prelude PushSchema PushOutbox PushRegistrations PushLimits PushHooks PushSystem PushWorker PushAuth.
From stdpp Require Import base gmap strings list.
From Stdlib Require Import ZArith Lia Ascii.
Open Scope Z_scope.

Module Http.
Import Outbox Registrations Limits Hooks Gateway Worker Auth.

(** ** Field validation ([validation.rs]) *)

Definition MAX_TITLE_LEN : Z := 120.
Definition MAX_BODY_LEN : Z := 512.
Definition MAX_LABEL_LEN : Z := 120.
Definition MAX_DATA_JSON_LEN : Z := 4096.
Definition MAX_DATA_KEYS : Z := 32.
Definition MAX_DATA_KEY_LEN : Z := 64.
Definition MAX_ID_LEN : Z := 128.
Definition MAX_KIND_LEN : Z := 128.
Definition MAX_FCM_TOKEN_LEN : Z := 4096.
Definition MAX_PLATFORM_LEN : Z := 32.
Definition MAX_RATE_LIMIT_WINDOW_SECONDS : Z := 86400.
Definition MAX_RATE_LIMIT_REQUESTS_PER_WINDOW : Z := 10000.

(** [str::len] counts bytes. *)
Definition len (s : string) : Z := Z.of_nat (String.length s).

(** [s.trim().is_empty()]: every character is Unicode white space, here on the
    UTF-8 bytes. *)
Definition byte (c : ascii) : Z := Z.of_N (N_of_ascii c).
Definition space1 (a : Z) : bool := in_range 9 13 a || (a =? 32).
Definition space2 (a b : Z) : bool := (a =? 194) && ((b =? 133) || (b =? 160)).
Definition space3 (a b c : Z) : bool :=
  ((a =? 225) && (b =? 154) && (c =? 128))
  || ((a =? 226) && (b =? 128) && (in_range 128 138 c || (c =? 168) || (c =? 169) || (c =? 175)))
  || ((a =? 226) && (b =? 129) && (c =? 159))
  || ((a =? 227) && (b =? 128) && (c =? 128)).
Fixpoint blank (s : string) : bool :=
  match s with
  | EmptyString => true
  | String a s1 =>
      (space1 (byte a) && blank s1)
      || match s1 with
         | EmptyString => false
         | String b s2 =>
             (space2 (byte a) (byte b) && blank s2)
             || match s2 with
                | EmptyString => false
                | String c s3 => space3 (byte a) (byte b) (byte c) && blank s3
                end
         end
  end.

Definition field_required_message (name : string) : string :=
  if bool_decide (name ∈ ["app_id"; "recipient_id"; "installation_id"; "fcm_token"; "hook_id"]%string)
  then (name +:+ " is required")%string else "field is required".
Definition field_too_long_message (name : string) : string :=
  if bool_decide (name ∈ ["app_id"; "recipient_id"; "installation_id"; "fcm_token"; "platform";
                          "label"; "title"; "body"; "event_id"; "kind"]%string)
  then (name +:+ " is too long")%string else "field is too long".

Definition validate_optional_string (name : string) (value : option string) (max_len : Z)
  : res ApiError unit :=
  match value with
  | Some v =>
      if max_len <? len v then Err (bad_request "field_too_long" (field_too_long_message name))
      else Ok tt
  | None => Ok tt
  end.
Definition validate_required_string (name value : string) (max_len : Z) : res ApiError unit :=
  if blank value then Err (bad_request "field_required" (field_required_message name))
  else if max_len <? len value
  then Err (bad_request "field_too_long" (field_too_long_message name))
  else Ok tt.

(** ** Requests to the registration endpoints ([register.rs]) *)

Definition validate_register_installation_request (r : RegisterInstallationRequest)
  : res ApiError unit :=
  _ ← validate_required_string "installation_id" (rq_installation_id r) MAX_ID_LEN;
  _ ← validate_required_string "fcm_token" (rq_fcm_token r) MAX_FCM_TOKEN_LEN;
  validate_optional_string "platform" (rq_platform r) MAX_PLATFORM_LEN.
Definition validate_installation_id (id : string) : res ApiError string :=
  _ ← validate_required_string "installation_id" id MAX_ID_LEN;
  Ok id.

Definition registration_validation_error (e : PushProviderError) : ApiError :=
  match pe_kind e with
  | InvalidToken => api_error 422 "invalid_fcm_token" "FCM token is not valid for this application"
  | InvalidPayload | Unavailable =>
      api_error 503 "registration_validation_unavailable" "registration validation is unavailable"
  end.
Definition too_many_requests (c m : string) : ApiError := api_error 429 c m.
Definition database_write_admission_error : ApiError :=
  api_error 503 "database_write_queue_full" "database write queue is full".

Record RegisterInstallationResponse := { registered : bool; unregistered : bool; disabled : bool }.

(** ** Requests to the hook endpoints ([hook_management.rs]) *)

Definition strip_prefix (p s : string) : option string :=
  if String.prefix p s
  then Some (String.substring (String.length p) (String.length s - String.length p) s) else None.

#[global] Instance HookOpenBehavior_eq_dec : EqDecision HookOpenBehavior.
Proof. solve_decision. Defined.

Definition validate_deep_link (deep_link : string) : res ApiError unit :=
  let valid_fedi_link :=
    match strip_prefix "fedi://" deep_link with
    | Some rest => negb (blank rest) && negb (starts_with "/" rest)
    | None => false
    end in
  let valid_app_path := starts_with "/" deep_link && negb (starts_with "//" deep_link) in
  if valid_fedi_link || valid_app_path then Ok tt
  else Err (bad_request "deep_link_invalid"
              "deep_link must be an app-owned fedi:// URL or absolute app path").

(** [is_none_or(str::is_empty)]. *)
Definition none_or_empty (o : option string) : bool :=
  match o with Some s => bool_decide (s = ""%string) | None => true end.

Section Requests.
Context {Json : Type} `{!Codec (gmap string (Value Json))}.

Definition validate_data (data : gmap string (Value Json)) : res ApiError unit :=
  if MAX_DATA_KEYS <? Z.of_nat (size data)
  then Err (bad_request "data_too_many_keys" "data payload has too many keys")
  else if existsb (λ kv, bool_decide (kv.1 = ""%string) || (MAX_DATA_KEY_LEN <? len kv.1))
            (map_to_list data)
  then Err (bad_request "data_key_invalid" "data payload has an invalid key")
  else if MAX_DATA_JSON_LEN <? len (enc data)
  then Err (bad_request "data_too_large" "data payload is too large")
  else Ok tt.

Definition validate_app_open_contract (r : CreateHookRequest Json) : res ApiError unit :=
  let open_behavior := default OpenApp (cr_open_behavior r) in
  if bool_decide (open_behavior = OpenWorkflow) && none_or_empty (cr_workflow r)
  then Err (bad_request "workflow_required" "workflow is required for open_workflow")
  else if bool_decide (open_behavior = OpenDeepLink) && none_or_empty (cr_deep_link r)
  then Err (bad_request "deep_link_required" "deep_link is required for open_deep_link")
  else match cr_deep_link r with Some l => validate_deep_link l | None => Ok tt end.

(** The window and the number of requests a hook asks for, with defaults. *)
Definition requested_window (r : CreateHookRequest Json) : Z :=
  default DEFAULT_RATE_LIMIT_WINDOW_SECONDS (cr_rate_limit r ≫= fst).
Definition requested_max (r : CreateHookRequest Json) : Z :=
  default DEFAULT_RATE_LIMIT_MAX_REQUESTS (cr_rate_limit r ≫= snd).

Definition validate_policy (r : CreateHookRequest Json) (production_mode : bool)
  : res ApiError unit :=
  if match cr_expires_in_seconds r with
     | Some s => (s <=? 0) || (31536000 <? s) | None => false end
  then Err (bad_request "expires_in_seconds_out_of_range" "expires_in_seconds is out of range")
  else if bool_decide (cr_expires_in_seconds r = None)
  then Err (bad_request "ttl_seconds_required" "hooks must expire")
  else if match cr_max_uses r with Some m => m <=? 0 | None => false end
  then Err (bad_request "max_uses_out_of_range" "max_uses is out of range")
  else if negb (in_range 1 MAX_RATE_LIMIT_WINDOW_SECONDS (requested_window r))
  then Err (bad_request "rate_limit_window_seconds_out_of_range"
              "rate_limit_window_seconds is out of range")
  else if negb (in_range 1 MAX_RATE_LIMIT_REQUESTS_PER_WINDOW (requested_max r))
  then Err (bad_request "rate_limit_max_requests_out_of_range"
              "rate_limit_max_requests is out of range")
  else if production_mode
          && ((DEFAULT_RATE_LIMIT_MAX_REQUESTS <? requested_max r)
              || (requested_window r <? DEFAULT_RATE_LIMIT_WINDOW_SECONDS))
  then Err (bad_request "production_hook_rate_limit_too_permissive"
              "production mode does not permit per-hook high-rate exceptions")
  else Ok tt.

Definition validate_create_hook_request (r : CreateHookRequest Json) (production_mode : bool)
  : res ApiError unit :=
  _ ← validate_required_string "installation_id" (cr_installation_id r) MAX_ID_LEN;
  _ ← validate_optional_string "label" (cr_label r) MAX_LABEL_LEN;
  _ ← match cr_kind r with Some k => validate_required_string "kind" k MAX_KIND_LEN | None => Ok tt end;
  _ ← validate_optional_string "workflow" (cr_workflow r) 64;
  _ ← validate_optional_string "action" (cr_action r) 64;
  _ ← validate_optional_string "deep_link" (cr_deep_link r) 256;
  _ ← validate_app_open_contract r;
  _ ← validate_optional_string "title" (cr_title r) MAX_TITLE_LEN;
  _ ← validate_optional_string "body" (cr_body r) MAX_BODY_LEN;
  _ ← validate_data (cr_data r);
  _ ← validate_no_reserved_data_keys (cr_data r);
  validate_policy r production_mode.

(** [validate_invoke_request] ([invoke_hook.rs]). *)
Definition validate_invoke_request (r : InvokeHookRequest Json) : res ApiError unit :=
  _ ← validate_optional_string "idempotency_key" (ir_idempotency_key r) 128;
  _ ← validate_data (ir_data r);
  validate_no_reserved_data_keys (ir_data r).

End Requests.

(** ** The server *)

(** [PushGatewayConfig] as the handlers read it. *)
Record HttpConfig := {
  hc_auth : AuthConfig;
  hook_creations_per_recipient : Z;
  hook_creation_window_seconds : Z;
  registration_changes_per_recipient_source : Z;
  registration_changes_per_source_prefix : Z;
  registration_change_window_seconds : Z;
  max_active_hooks_per_recipient : Z;
  max_active_installations_per_recipient : Z;
  max_active_hooks_global : Z;
  max_active_installations_global : Z;
  max_hook_rows_global : Z;
  max_registration_rows_global : Z;
  admission_gc_batch_size : Z;
  cfg_hook_invocations_per_source_prefix : Z;
  cfg_hook_invocations_per_hook : Z;
  cfg_hook_invocation_window_seconds : Z;
  cfg_max_global_outbox_backlog : Z;
  cfg_max_recipient_outbox_backlog : Z;
  registration_ttl_seconds : Z
}.

(** The state requests share ([AppState]): the database, the limiters with the
    replay cache, and the worker's wakeup permit. *)
Record Server := { sv_db : PushDb; sv_auth : AuthState; sv_wakeup : bool }.

(** A handler keeps what it did to the server when it fails. *)
Definition Web (A : Type) : Type := Server -> Server * res ApiError A.
#[global] Instance web_ret : MRet Web := fun A a s => (s, Ok a).
#[global] Instance web_bind : MBind Web := fun A B k t s =>
  match t s with
  | (s', Ok a) => k a s'
  | (s', Err e) => (s', Err e)
  | (s', Panic) => (s', Panic)
  end.

Definition web_of {A} (r : res ApiError A) : Web A := fun s => (s, r).
Definition set_db (d : PushDb) (s : Server) : Server :=
  {| sv_db := d; sv_auth := sv_auth s; sv_wakeup := sv_wakeup s |}.
Definition set_auth (a : AuthState) (s : Server) : Server :=
  {| sv_db := sv_db s; sv_auth := a; sv_wakeup := sv_wakeup s |}.
Definition set_limits (rl : RateLimitState) (s : Server) : Server :=
  set_auth {| as_limits := rl; as_cache := as_cache (sv_auth s) |} s.
Definition limits_of (s : Server) : RateLimitState := as_limits (sv_auth s).

Definition web_auth {A} (f : AuthState -> AuthState * res ApiError A) : Web A := fun s =>
  let '(a, r) := f (sv_auth s) in (set_auth a s, r).

(** [.await.map_err(internal_error)?] on a repository operation. *)
Definition sqlx {A} (r : res PushError A) : res ApiError A :=
  match r with Ok a => Ok a | Err _ => Err internal_error | Panic => Panic end.
Definition web_db {A} (p : Pool A) : Web A := fun s =>
  let '(d, r) := p (sv_db s) in (set_db d s, sqlx r).

(** One guarded limiter check: [0 < max && !check(..)] refuses with [e]. *)
Definition web_limit (family : RateLimitFamily) (key : string) (max window now : Z) (e : ApiError)
  : Web unit := fun s =>
  if 0 <? max then
    let '(rl, ok) := check DEFAULT_LIMITER_FAMILY_CAPACITY family key max window now (limits_of s) in
    (set_limits rl s, if ok : bool then Ok tt else Err e)
  else (s, Ok tt).

(** [acquire_database_write_lock]: [admitted] is the queue's answer. *)
Definition web_lock (admitted : bool) : Web unit :=
  web_of (if admitted then Ok tt else Err database_write_admission_error).

(** [AppState::registration_eligibility]. *)
Definition registration_eligibility (cfg : HttpConfig) (now : Z) : RegistrationEligibility :=
  {| cutoff_timestamp := saturating_sub_i64 now (i64_or_max (registration_ttl_seconds cfg)) |}.

(** Everything a handler meets from outside: clock reads in their order and
    the write queue's answer. *)
Record Env := {
  en_auth : AuthClocks;
  en_limit1 : Z;
  en_limit2 : Z;
  en_eligibility : Z;
  en_now : Z;
  en_admitted : bool
}.

(** [enforce_registration_write_rate_limit] and
    [enforce_hook_creation_rate_limit]. *)
Definition enforce_registration_write_rate_limit (cfg : HttpConfig) (env : Env)
    (source recipient : string) : Web unit :=
  web_limit RegistrationSource source (registration_changes_per_source_prefix cfg)
    (registration_change_window_seconds cfg) (en_limit1 env)
    (too_many_requests "registration_source_rate_limited" "registration source rate limited");;
  web_limit RegistrationRecipientSource (recipient +:+ ":" +:+ source)
    (registration_changes_per_recipient_source cfg) (registration_change_window_seconds cfg)
    (en_limit2 env) (too_many_requests "registration_rate_limited" "registration rate limited").
Definition enforce_hook_creation_rate_limit (cfg : HttpConfig) (env : Env) (recipient : string)
  : Web unit :=
  web_limit HookCreationRecipient ("hook-create:" +:+ recipient) (hook_creations_per_recipient cfg)
    (hook_creation_window_seconds cfg) (en_limit1 env)
    (too_many_requests "hook_creation_rate_limited" "hook creation rate limited").

Definition registration_limits (cfg : HttpConfig) : RegistrationAdmissionLimits :=
  {| rl_max_active_per_recipient := max_active_installations_per_recipient cfg;
     rl_max_active_global := max_active_installations_global cfg;
     rl_max_total_rows := max_registration_rows_global cfg;
     rl_reclamation_batch_size := admission_gc_batch_size cfg |}.
Definition hook_limits (cfg : HttpConfig) : HookAdmissionLimits :=
  {| hl_max_active_per_recipient := max_active_hooks_per_recipient cfg;
     hl_max_active_global := max_active_hooks_global cfg;
     hl_max_total_rows := max_hook_rows_global cfg;
     hl_reclamation_batch_size := admission_gc_batch_size cfg |}.
Definition invocation_policy (cfg : HttpConfig) : InvocationPolicy :=
  {| hook_invocations_per_source_prefix := cfg_hook_invocations_per_source_prefix cfg;
     hook_invocations_per_hook := cfg_hook_invocations_per_hook cfg;
     hook_invocation_window_seconds := cfg_hook_invocation_window_seconds cfg;
     max_global_outbox_backlog := cfg_max_global_outbox_backlog cfg;
     max_recipient_outbox_backlog := cfg_max_recipient_outbox_backlog cfg;
     max_idempotency_rows_global := max_hook_rows_global cfg;
     idempotency_reclamation_batch_size := admission_gc_batch_size cfg;
     production_mode := auth_production_mode (hc_auth cfg);
     registration_ttl := registration_ttl_seconds cfg |}.

(** [trim_end_matches('/')] and the URL of [CreateHookResponse::new]. *)
Fixpoint trim_slashes (s : string) : string :=
  match s with
  | EmptyString => EmptyString
  | String c rest =>
      match trim_slashes rest with
      | EmptyString => if decide (c = "/"%char) then EmptyString else String c EmptyString
      | t => String c t
      end
  end.
Definition invocation_url (base hook_id token : string) : string :=
  let path := ("/hooks/" +:+ hook_id +:+ "/" +:+ token)%string in
  if bool_decide (base = ""%string) then path else (trim_slashes base +:+ path)%string.

(** ** Handlers *)

Section Handlers.
Context `{Scan} {Json : Type} `{!Codec (gmap string (Value Json))}
        `{!Codec (Notification (Value Json))}.
Variable hash_hex : string -> string.
Variable json_text : Json -> string.
Context {EventJson : Type}.
Variables (base64 : string -> option string) (event_json : string -> option EventJson)
  (pubkey_field : EventJson -> option string) (event_of : EventJson -> option Event)
  (verifies : Event -> bool) (url_parses : string -> bool) (sha256_hex : string -> string).
(** The deserializers of the payloads. *)
Variables (parse_register : string -> option RegisterInstallationRequest)
  (parse_create_hook : string -> option (CreateHookRequest Json)).
Variable cfg : HttpConfig.

(** The extractors on this server. *)
Definition auth_json {T} (payload : string -> option T) (env : Env) (r : AuthRequest)
  : Web (string * T) :=
  web_auth (authenticated_json base64 event_json pubkey_field event_of verifies url_parses
              sha256_hex payload (hc_auth cfg) (en_auth env) r).
Definition auth_empty_body (env : Env) (r : AuthRequest) : Web string :=
  web_auth (authenticated_empty_body base64 event_json pubkey_field event_of verifies url_parses
              sha256_hex (hc_auth cfg) (en_auth env) r).
Definition auth_recipient (env : Env) (r : AuthRequest) : Web string :=
  web_auth (authenticated_recipient base64 event_json pubkey_field event_of verifies url_parses
              sha256_hex (hc_auth cfg) (en_auth env) r).

(** What the HTTP client is answered. *)
Inductive Response :=
| Installation (r : RegisterInstallationResponse)
| CreatedHook (hook : HookRecord Json) (url secret : string)
| HookList (hooks : list (HookRecord Json))
| RevokedHook
| AcceptedInvocation (delivery_attempts : Z).

(** [register_installation]; [provider] answers [validate_registration]. *)
Definition register_installation (env : Env) (provider : string -> res PushProviderError unit)
    (r : AuthRequest) : Web Response :=
  '(recipient, request) ← auth_json parse_register env r;
  web_of (validate_register_installation_request request);;
  enforce_registration_write_rate_limit cfg env (rq_source r) recipient;;
  web_of (match provider (rq_fcm_token request) with
          | Ok _ => Ok tt | Err e => Err (registration_validation_error e) | Panic => Panic end);;
  web_lock (en_admitted env);;
  outcome ← web_db (admit_installation recipient request
                      (registration_eligibility cfg (en_eligibility env))
                      (registration_limits cfg) (en_now env));
  web_of (match outcome with
          | Registered =>
              Ok (Installation {| registered := true; unregistered := false; disabled := false |})
          | RecipientCapacityExceeded =>
              Err (too_many_requests "max_active_installations_exceeded"
                     "max active installations exceeded")
          | GlobalCapacityExceeded =>
              Err (api_error 503 "global_installation_capacity_exceeded"
                     "registration capacity is unavailable")
          | GlobalRowCapacityExceeded =>
              Err (api_error 503 "registration_row_capacity_exceeded"
                     "registration storage capacity is unavailable")
          | TokenBoundToDifferentInstallation =>
              Err (api_error 409 "fcm_token_bound_to_different_installation"
                     "FCM token is already registered to a different installation")
          end).

Definition registration_not_found : ApiError :=
  api_error 404 "registration_not_found" "registration not found".

(** [unregister_installation]. *)
Definition unregister_installation (env : Env) (r : AuthRequest) (installation : string)
  : Web Response :=
  recipient ← auth_recipient env r;
  installation ← web_of (validate_installation_id installation);
  enforce_registration_write_rate_limit cfg env (rq_source r) recipient;;
  web_lock (en_admitted env);;
  deleted ← web_db (delete_installation recipient installation (en_now env));
  web_of (if deleted : bool
          then Ok (Installation {| registered := false; unregistered := true; disabled := false |})
          else Err registration_not_found).

(** [disable_installation]; [reason] is what [QueryPayload] yields. *)
Definition disable_installation_handler (env : Env) (r : AuthRequest) (installation : string)
    (reason : res ApiError (option string)) : Web Response :=
  reason ← web_of reason;
  recipient ← auth_empty_body env r;
  web_of (validate_optional_string "disabled_reason" reason 120);;
  installation ← web_of (validate_installation_id installation);
  enforce_registration_write_rate_limit cfg env (rq_source r) recipient;;
  web_lock (en_admitted env);;
  done ← web_db (disable_installation recipient installation reason (en_now env));
  web_of (if done : bool
          then Ok (Installation {| registered := false; unregistered := false; disabled := true |})
          else Err registration_not_found).

(** [create_hook]; the hook id and its token are drawn at random. *)
Definition create_hook (env : Env) (r : AuthRequest) (new_id token : string) : Web Response :=
  '(recipient, request) ← auth_json parse_create_hook env r;
  web_of (validate_create_hook_request request (auth_production_mode (hc_auth cfg)));;
  enforce_hook_creation_rate_limit cfg env recipient;;
  web_lock (en_admitted env);;
  outcome ← web_db (admit_hook hash_hex recipient request
                      (registration_eligibility cfg (en_eligibility env)) (hook_limits cfg)
                      (en_now env) new_id token);
  web_of (match outcome with
          | Created record token =>
              Ok (CreatedHook record
                    (invocation_url (public_base_url (hc_auth cfg)) (hook_id record) token) token)
          | TargetUnavailable =>
              Err (api_error 404 "registration_not_found" "target installation registration not found")
          | HookRecipientCapacityExceeded =>
              Err (too_many_requests "max_active_hooks_exceeded" "max active hooks exceeded")
          | HookGlobalCapacityExceeded =>
              Err (api_error 503 "global_hook_capacity_exceeded" "hook capacity is unavailable")
          | HookGlobalRowCapacityExceeded =>
              Err (api_error 503 "hook_row_capacity_exceeded" "hook storage capacity is unavailable")
          end).

(** [list_hooks]. *)
Definition list_hooks (env : Env) (r : AuthRequest) : Web Response :=
  recipient ← auth_recipient env r;
  hooks ← (λ s, (s, sqlx (list_hooks_for_recipient recipient (sv_db s)))) : Web (list (HookRecord Json));
  mret (HookList hooks).

(** [revoke_hook]. *)
Definition revoke_hook (env : Env) (r : AuthRequest) (hook : string) : Web Response :=
  recipient ← auth_recipient env r;
  web_of (validate_required_string "hook_id" hook MAX_ID_LEN);;
  web_lock (en_admitted env);;
  revoked ← web_db (revoke hook recipient (en_now env));
  web_of (if revoked : bool then Ok RevokedHook
          else Err (api_error 404 "hook_not_found" "hook not found")).

(** [invoke_hook] behind [rate_limit_hook_attempt]; [payload] is what
    [JsonPayload] yields and [clocks] the reads inside the invocation. *)
Definition accept (env : Env) (source k secret : string) (request : InvokeHookRequest Json)
    (now3 : Z) (event_id outbox_id : string) : Web InvocationOutcome := fun s =>
  let '(d, rl, r) :=
    invoke hash_hex json_text (invocation_policy cfg) source k secret request
      (en_now env) (en_limit1 env) (en_limit2 env) now3 event_id outbox_id (sv_db s) (limits_of s) in
  (set_limits rl (set_db d s), r).
Definition notify_delivery_worker : Web unit := fun s =>
  ({| sv_db := sv_db s; sv_auth := sv_auth s; sv_wakeup := true |}, Ok tt).
Definition invoke_hook (env : Env) (attempt_now : Z) (source k secret : string)
    (payload : res ApiError (InvokeHookRequest Json)) (now3 : Z) (event_id outbox_id : string)
  : Web Response :=
  web_limit HookInvocationSource ("hook-attempt:" +:+ source)
    (cfg_hook_invocations_per_source_prefix cfg) (cfg_hook_invocation_window_seconds cfg) attempt_now
    (too_many_requests "source_rate_limited" "source rate limited");;
  request ← web_of payload;
  web_of (validate_required_string "hook_id" k 128);;
  web_of (validate_required_string "hook_secret" secret 512);;
  web_of (validate_invoke_request request);;
  web_lock (en_admitted env);;
  outcome ← accept env source k secret request now3 event_id outbox_id;
  (if enqueued_rows outcome then notify_delivery_worker else mret tt);;
  mret (AcceptedInvocation (target_count outcome)).

(** Every request the public router dispatches to a handler that reads or
    writes these tables. *)
Inductive Request :=
| Register (env : Env) (provider : string -> res PushProviderError unit) (r : AuthRequest)
| Unregister (env : Env) (r : AuthRequest) (installation : string)
| Disable (env : Env) (r : AuthRequest) (installation : string)
    (reason : res ApiError (option string))
| CreateHook (env : Env) (r : AuthRequest) (new_id token : string)
| ListHooks (env : Env) (r : AuthRequest)
| RevokeHook (env : Env) (r : AuthRequest) (hook : string)
| InvokeHook (env : Env) (attempt_now : Z) (source k secret : string)
    (payload : res ApiError (InvokeHookRequest Json)) (now3 : Z) (event_id outbox_id : string).

Definition serve (q : Request) : Web Response :=
  match q with
  | Register env provider r => register_installation env provider r
  | Unregister env r installation => unregister_installation env r installation
  | Disable env r installation reason => disable_installation_handler env r installation reason
  | CreateHook env r new_id token => create_hook env r new_id token
  | ListHooks env r => list_hooks env r
  | RevokeHook env r hook => revoke_hook env r hook
  | InvokeHook env attempt_now source k secret payload now3 event_id outbox_id =>
      invoke_hook env attempt_now source k secret payload now3 event_id outbox_id
  end.

End Handlers.
End Http.
