(* ===== verification/PushServe.v ===== *)
(** * Served requests

    What one HTTP request may do to the gateway: at most one repository
    operation, well formed and signed for; nothing when it is refused; and
    nothing to other recipients' rows beyond reclaiming dead ones. *)

From S2P Require Import Prelude PushSchema PushOutbox PushRegistrations PushLimits PushHooks PushSystem PushWorker PushAuth PushHttp.
From stdpp Require Import base gmap strings list.
From Stdlib Require Import ZArith Lia.
Open Scope Z_scope.

Module Serve.
Import Outbox Registrations Limits Hooks Gateway Auth Http.

(** ** Reasoning about handlers *)

(** [a] is an answer of [t]. *)
Definition answers {A} (t : Web A) (a : A) : Prop := ∃ s s', t s = (s', Ok a).
(** [t] leaves the database alone. *)
Definition quiet {A} (t : Web A) : Prop := ∀ s, sv_db (t s).1 = sv_db s.
(** What [t] does to the database is in [R]; a failure only does what is in
    [F]. *)
Definition does {A} (R F : relation PushDb) (t : Web A) : Prop := ∀ s,
  R (sv_db s) (sv_db (t s).1) ∧
  ((∀ a, (t s).2 <> Ok a) → F (sv_db s) (sv_db (t s).1)).

Section Does.
Context (R F : relation PushDb) `{!Reflexive R, !Reflexive F}.

Lemma does_quiet {A} (t : Web A) : quiet t → does R F t.
Proof. intros Ht s. by rewrite Ht. Qed.

Lemma does_bind {A B} (t : Web A) (k : A -> Web B) :
  quiet t → (∀ a, answers t a → does R F (k a)) → does R F (t ≫= k).
Proof.
  intros Ht Hk s. specialize (Ht s). unfold mbind, web_bind.
  destruct (t s) as [s' [a|e|]] eqn:Hts; cbn in *; rewrite <- Ht; [|done|done].
  apply Hk. by exists s, s'.
Qed.

(** A repository operation and its answer. *)
Lemma does_db {A B} (p : Pool A) (f : A -> res ApiError B) :
  (∀ d, R d (p d).1) →
  (∀ d d' a, p d = (d', Ok a) → (∀ b, f a <> Ok b) → F d d') →
  (∀ d d' r, p d = (d', r) → (∀ a, r <> Ok a) → F d d') →
  does R F (a ← web_db p; web_of (f a)).
Proof.
  intros HR HF Herr s. specialize (HR (sv_db s)). unfold mbind, web_bind, web_db, web_of.
  destruct (p (sv_db s)) as [d' [a|e|]] eqn:Hp; cbn in *; (split; [done|]).
  - by apply HF.
  - intros _. by eapply Herr.
  - intros _. by eapply Herr.
Qed.
End Does.

Lemma quiet_of {A} (r : res ApiError A) : quiet (web_of r).
Proof. by intros s. Qed.
Lemma quiet_auth {A} (f : AuthState -> AuthState * res ApiError A) : quiet (web_auth f).
Proof. intros s. unfold web_auth. by destruct (f (sv_auth s)). Qed.
Lemma quiet_limit family key max window now e : quiet (web_limit family key max window now e).
Proof. intros s. unfold web_limit. case_match; [|done]. by destruct (check _ _ _ _ _ _ _). Qed.
Lemma quiet_bind {A B} (t : Web A) (k : A -> Web B) :
  quiet t → (∀ a, quiet (k a)) → quiet (t ≫= k).
Proof.
  intros Ht Hk s. specialize (Ht s). unfold mbind, web_bind.
  destruct (t s) as [s' [a|e|]]; cbn in *; [|done|done]. by rewrite Hk.
Qed.
Lemma quiet_ret {A} (a : A) : quiet (mret a).
Proof. by intros s. Qed.
#[export] Hint Resolve quiet_of quiet_auth quiet_limit quiet_bind quiet_ret : manifold.

Lemma answers_of {A} (r : res ApiError A) a : answers (web_of r) a → r = Ok a.
Proof. intros (s & s' & H). by injection H. Qed.

(** The tables a refused request leaves alone: all but the lock row, whose time
    stamp a transaction that finds nothing still renews. *)
Definition same_data (d d' : PushDb) : Prop :=
  registrations d' = registrations d ∧ token_owners d' = token_owners d ∧ hooks d' = hooks d ∧
  events d' = events d ∧ outbox d' = outbox d ∧ tombstones d' = tombstones d.
#[global] Instance same_data_refl : Reflexive same_data.
Proof. intros d. done. Qed.

(** A transaction that fails or rolls back changes nothing. *)
Lemma in_tx_cases {A} (t : PushTx (verdict A)) d d' r :
  in_tx t d = (d', r) → d' = d ∨ ∃ a, t d = Ok (d', Commit a) ∧ r = Ok a.
Proof. unfold in_tx. destruct (t d) as [[d1 [a|a]]|e|]; intros; simplify_eq; eauto. Qed.
Lemma on_pool_cases {A} (t : PushTx A) d d' r :
  on_pool t d = (d', r) → d' = d ∨ ∃ a, t d = Ok (d', a) ∧ r = Ok a.
Proof. unfold on_pool, run_tx. destruct (t d) as [[d1 a]|e|]; intros; simplify_eq; eauto. Qed.

(** ** What operations do when they refuse *)

Ltac tx_inv H :=
  repeat (cbv zeta in H; first
    [ apply tx_bind_Ok in H as (? & ? & _ & H)
    | match type of H with (match ?x with _ => _ end) _ = _ => destruct x end ]);
  unfold mret, tx_ret in H; simplify_eq.

Section Refusals.
Context `{Scan}.

Lemma admit_installation_refused recipient request e limits now d d' r :
  admit_installation recipient request e limits now d = (d', r) → r <> Ok Registered → d' = d.
Proof.
  intros [->|(a & Ht & ->)]%in_tx_cases Hr; [done|]. by tx_inv Ht.
Qed.

Lemma delete_installation_refused recipient installation now d d' r :
  delete_installation recipient installation now d = (d', r) → r <> Ok true → same_data d d'.
Proof.
  intros [->|(a & Ht & ->)]%in_tx_cases Hr; [done|].
  apply tx_bind_Ok in Ht as (d1 & u & Hlock & Ht).
  assert (same_data d d1) as (Hreg & Hown & Hrest).
  { unfold acquire_admission_lock in Hlock. rewrite (tx_bind_eq _ _ d d d eq_refl) in Hlock.
    case_bool_decide; [|done]. apply tx_bind_Ok in Hlock as (d2 & u2 & [-> _]%push_require_Ok & Hl).
    unfold tx_put in Hl. by simplify_eq. }
  rewrite (tx_bind_eq _ _ d1 d1 d1 eq_refl) in Ht.
  apply tx_bind_Ok in Ht as (d2 & u2 & H2 & Ht). apply tx_bind_Ok in Ht as (d3 & u3 & H3 & Ht).
  unfold tx_put, mret, tx_ret, id in *. simplify_eq. cbn.
  assert (∀ b, Ok (E:=PushError) b <> Ok true → b = false) as Hfalse by by intros [].
  apply Hfalse, orb_false_iff in Hr as [Hnone%bool_decide_eq_false Hzero%Z.ltb_ge].
  rewrite <- eq_None_not_Some in Hnone. split; [|split; [|done]]; cbn.
  - rewrite Hreg in *. by apply delete_id.
  - rewrite <- Hown. apply map_eq. intros t. apply option_eq. intros o. rewrite lookup_keep_where.
    split; [by intros [? _]|]. intros Ho. split; [done|]. apply negb_true_iff.
    match type of Hzero with count_where ?p ?m <= 0 =>
      pose proof (count_where_size p m);
      exact (proj1 (count_where_0 p m) ltac:(lia) t o Ho) end.
Qed.

Lemma disable_installation_refused recipient installation reason now d d' r :
  disable_installation recipient installation reason now d = (d', r) → r <> Ok true → d' = d.
Proof.
  intros [->|(a & Ht & ->)]%on_pool_cases Hr; [done|]. unfold disable_where in Ht.
  rewrite (tx_bind_eq _ _ d d d eq_refl) in Ht. by tx_inv Ht.
Qed.

Lemma revoke_refused k recipient now d d' r :
  revoke k recipient now d = (d', r) → r <> Ok true → d' = d.
Proof.
  intros [->|(a & Ht & ->)]%on_pool_cases Hr; [done|].
  rewrite (tx_bind_eq _ _ d d d eq_refl) in Ht. by tx_inv Ht.
Qed.

Context {Json : Type} `{!Codec (gmap string (Value Json))} (hash_hex : string -> string).

Lemma admit_hook_refused recipient request e limits now new_id token d d' r :
  admit_hook (Json:=Json) hash_hex recipient request e limits now new_id token d = (d', r) →
  (∀ record t, r <> Ok (Created record t)) → d' = d.
Proof.
  intros [->|(a & Ht & ->)]%in_tx_cases Hr; [done|]. by tx_inv Ht; destruct (Hr _ _ eq_refl).
Qed.

Lemma invoke_refused `{!Codec (Notification (Value Json))} json_text policy source k secret request
    now now1 now2 now3 event_id outbox_id d rl d' rl' r :
  invoke (Json:=Json) hash_hex json_text policy source k secret request now now1 now2 now3 event_id
    outbox_id d rl = (d', rl', r) →
  (∀ a, r <> Ok a) → d' = d.
Proof.
  unfold invoke, accept_invocation. intros Hrun Hr.
  destruct (open_invocation _ _ _ _ _ _ d) as [[d1 [n|hook targets]]|e|]; simplify_eq; [by destruct (Hr {| target_count := n; enqueued_rows := false |})| |done|done].
  destruct (enforce_invocation_rate_limits _ _ _ _ _ _) as [rl2 [e|]]; simplify_eq; [done|].
  destruct (finish_invocation _ _ _ _ _ _ _ _ _ d1) as [[d2 [o|]]|e|]; simplify_eq; [by destruct (Hr o)|done..].
Qed.
End Refusals.

(** ** Other recipients *)

Section Others.
Context (R : string) (lost : string * string -> RegistrationCols -> Prop) (dead : HookCols -> bool).

(** Rows of recipients other than [R] stay as they are, except registrations
    that may be lost and hooks that are dead; no event or delivery changes. *)
Record spares (d d' : PushDb) : Prop := {
  sp_registrations : ∀ k, k.1 <> R →
    registrations d' !! k = registrations d !! k ∨
    (registrations d' !! k = None ∧ ∃ r, registrations d !! k = Some r ∧ lost k r);
  sp_hooks : ∀ k h, hooks d !! k = Some h → hk_recipient_id h <> R →
    hooks d' !! k = Some h ∨ dead h = true;
  sp_no_hooks : ∀ k h, hooks d' !! k = Some h → hk_recipient_id h <> R → hooks d !! k = Some h;
  sp_deliveries : (∀ k o, outbox d !! k = Some o → is_Some (events d !! ob_event_id o)) →
    events d' = events d ∧ outbox d' = outbox d
}.

#[global] Instance spares_preorder : PreOrder spares.
Proof.
  split; [split; auto|]. intros d1 d2 d3 [Hr Hh Hn Hd] [Hr' Hh' Hn' Hd']. split.
  - intros k Hk. destruct (Hr' k Hk) as [->|[-> (r & Hr2 & Hl)]]; [by apply Hr|]. right. split; [done|].
    destruct (Hr k Hk) as [Heq|[Hnone _]]; [|congruence]. exists r. by rewrite <- Heq.
  - intros k h Hk Hne. destruct (Hh k h Hk Hne) as [H2|H2]; [by apply Hh'|by right].
  - eauto.
  - intros Hrefs. destruct (Hd Hrefs) as [He Ho]. rewrite <- He, <- Ho. apply Hd'. by rewrite He, Ho.
Qed.





Context `{Scan}.



End Others.

Section Isolation.
Context `{Scan} {Json : Type} `{!Codec (gmap string (Value Json))}
        `{!Codec (Notification (Value Json))}.
Variable hash_hex : string -> string.
Variable json_text : Json -> string.
Abbreviation exec := (exec hash_hex json_text).
Abbreviation Op := (Op (Json:=Json)).

(** On whose behalf an operation is done. *)
Definition op_actor (o : Op) : option string :=
  match o with
  | OpAdmitInstallation recipient _ _ _ _ | OpDeleteInstallation recipient _ _
  | OpDisableInstallation recipient _ _ _ | OpAdmitHook recipient _ _ _ _ _ _
  | OpRevoke _ recipient _ => Some recipient
  | _ => None
  end.






End Isolation.

(** ** Requests are operations *)

Section Requests.
Context `{Scan} {Json : Type} `{!Codec (gmap string (Value Json))}
        `{!Codec (Notification (Value Json))}.
Variable hash_hex : string -> string.
Variable json_text : Json -> string.
Context {EventJson : Type}.
Variables (base64 : string -> option string) (event_json : string -> option EventJson)
  (pubkey_field : EventJson -> option string) (event_of : EventJson -> option Event)
  (verifies : Event -> bool) (url_parses : string -> bool) (sha256_hex : string -> string).
Variables (parse_register : string -> option RegisterInstallationRequest)
  (parse_create_hook : string -> option (CreateHookRequest Json)).
Variable cfg : HttpConfig.

Abbreviation serve := (serve hash_hex json_text base64 event_json pubkey_field event_of verifies
  url_parses sha256_hex parse_register parse_create_hook cfg).
Abbreviation exec := (exec hash_hex json_text).
Abbreviation Op := (Op (Json:=Json)).

(** Invocations act for nobody: the hook's secret is their authority. *)
Definition is_invocation (o : Op) : bool :=
  match o with OpInvoke _ _ _ _ _ _ _ _ _ _ _ => true | _ => false end.

Definition request_auth (q : Request (Json:=Json)) : option (Env * AuthRequest) :=
  match q with
  | Register env _ r | Unregister env r _ | Disable env r _ _ | CreateHook env r _ _
  | ListHooks env r | RevokeHook env r _ => Some (env, r)
  | InvokeHook _ _ _ _ _ _ _ _ _ => None
  end.

(** The recipient signed this very request and is admitted. *)
Definition signed_by (env : Env) (r : AuthRequest) (recipient : string) : Prop :=
  recipient_admitted (hc_auth cfg) recipient = true ∧
  ∃ e body, (body = None ∨ body = Some (rq_body r)) ∧
    proves verifies sha256_hex e recipient (rq_method r)
      (public_base_url (hc_auth cfg) ++ default "/" (rq_path r))%string body (ck_verify (en_auth env)).

(** The operation stands for the request. *)
Definition stands_for (q : Request (Json:=Json)) (o : Op) : Prop :=
  match op_actor o, request_auth q with
  | Some recipient, Some (env, r) => signed_by env r recipient
  | None, None => is_invocation o = true
  | _, _ => False
  end.
Definition performs (q : Request (Json:=Json)) (d d' : PushDb) : Prop :=
  d' = d ∨ ∃ o rl, op_wf o ∧ stands_for q o ∧ d' = (exec o d rl).1.
#[local] Instance performs_refl q : Reflexive (performs q).
Proof. intros d. by left. Qed.

Lemma expected_url_Ok path url :
  expected_absolute_url (hc_auth cfg) path = Ok url →
  url = (public_base_url (hc_auth cfg) ++ default "/" path)%string.
Proof. unfold expected_absolute_url. case_bool_decide; congruence. Qed.

Lemma verified_signed env r url body s s' recipient :
  expected_absolute_url (hc_auth cfg) (rq_path r) = Ok url →
  body = None ∨ body = Some (rq_body r) →
  verify_authorization base64 event_json pubkey_field event_of verifies url_parses sha256_hex
    (hc_auth cfg) (en_auth env) r url body s = (s', Ok recipient) →
  signed_by env r recipient.
Proof.
  intros ->%expected_url_Ok Hb (e & Hp & Ha & _)%verify_authorization_Ok. split; [done|].
  by exists e, body.
Qed.

Lemma with_body_signed {A} env r (finish : string -> string -> res ApiError A) s s' a :
  with_body base64 event_json pubkey_field event_of verifies url_parses sha256_hex (hc_auth cfg)
    (en_auth env) r s finish = (s', Ok a) →
  ∃ recipient body, signed_by env r recipient ∧ finish recipient body = Ok a.
Proof.
  unfold with_body, read_body.
  destruct (expected_absolute_url _ _) as [url| |] eqn:Hurl; cbn [mbind res_bind]; [|done|done].
  destruct (MAX_AUTHENTICATED_BODY_BYTES <? _); cbn [mbind res_bind]; [done|].
  destruct (verify_authorization _ _ _ _ _ _ _ _ _ _ _ _ _) as [s1 [recipient| |]] eqn:Hv;
    intros [= _ Hf].
  exists recipient, (rq_body r). split; [|done]. eapply verified_signed; [done| |exact Hv]. by right.
Qed.

Lemma auth_json_signed {T} (payload : string -> option T) env r a :
  answers (auth_json base64 event_json pubkey_field event_of verifies url_parses sha256_hex cfg
             payload env r) a → signed_by env r a.1.
Proof.
  intros (s & s' & H1). unfold auth_json, web_auth, authenticated_json in H1.
  destruct (with_body _ _ _ _ _ _ _ _ _ _ _ _) as [s1 out] eqn:Hw. injection H1 as _ ->.
  apply with_body_signed in Hw as (recipient & body & Hs & Hf).
  destruct (payload body); [|done]. cbn in Hf. by simplify_eq.
Qed.
Lemma auth_empty_body_signed env r a :
  answers (auth_empty_body base64 event_json pubkey_field event_of verifies url_parses sha256_hex
             cfg env r) a → signed_by env r a.
Proof.
  intros (s & s' & H1). unfold auth_empty_body, web_auth, authenticated_empty_body in H1.
  destruct (with_body _ _ _ _ _ _ _ _ _ _ _ _) as [s1 out] eqn:Hw. injection H1 as _ ->.
  apply with_body_signed in Hw as (recipient & body & Hs & Hf). case_bool_decide; by simplify_eq.
Qed.
Lemma auth_recipient_signed env r a :
  answers (auth_recipient base64 event_json pubkey_field event_of verifies url_parses sha256_hex
             cfg env r) a → signed_by env r a.
Proof.
  intros (s & s' & H1). unfold auth_recipient, web_auth, authenticated_recipient in H1.
  destruct (expected_absolute_url _ _) as [url| |] eqn:Hurl; [|done|done].
  destruct (verify_authorization _ _ _ _ _ _ _ _ _ _ _ _ _) as [s1 out] eqn:Hv.
  injection H1 as _ ->. eapply verified_signed; [done| |exact Hv]. by left.
Qed.

Lemma validated_hook_expires r production u :
  validate_create_hook_request (Json:=Json) r production = Ok u →
  ∃ t, cr_expires_in_seconds r = Some t ∧ 0 < t.
Proof.
  unfold validate_create_hook_request. intros Hv.
  repeat (apply res_bind_Ok in Hv as (? & _ & Hv)). unfold validate_policy in Hv.
  destruct (cr_expires_in_seconds r) as [t|]; [|done]. exists t. split; [done|].
  destruct (Z.leb_spec t 0); [done|lia].
Qed.

Lemma quiet_registration_limit env source recipient :
  quiet (enforce_registration_write_rate_limit cfg env source recipient).
Proof. apply quiet_bind; [apply quiet_limit|intros _; apply quiet_limit]. Qed.
Lemma quiet_hook_limit env recipient : quiet (enforce_hook_creation_rate_limit cfg env recipient).
Proof. apply quiet_limit. Qed.
Lemma quiet_lock b : quiet (web_lock b).
Proof. apply quiet_of. Qed.

(** The last step of a handler: one operation [o] and its answer. *)
Lemma does_operation {A B} q (o : Op) (p : Pool A) (f : A -> res ApiError B) :
  op_wf o → stands_for q o → (∀ d, (p d).1 = (exec o d ∅).1) →
  (∀ d d' r, p d = (d', r) → (∀ a b, r = Ok a → f a <> Ok b) → same_data d d') →
  does (performs q) same_data (a ← web_db p; web_of (f a)).
Proof.
  intros Hwf Hq Hp Hf. apply does_db.
  - intros d. right. exists o, ∅. by rewrite Hp.
  - intros d d' a Hd Ha. eapply Hf; [exact Hd|]. intros a' b [= <-]. apply Ha.
  - intros d d' r Hd Hr. eapply Hf; [exact Hd|]. intros a b ->. by destruct (Hr a).
Qed.

Ltac web_steps :=
  repeat (apply does_bind; [apply _|apply _| |intros ? ?];
    [first [apply quiet_of|apply quiet_auth|apply quiet_registration_limit|apply quiet_hook_limit
           |apply quiet_lock|apply quiet_limit]|]; cbv beta iota zeta);
  repeat match goal with H : answers (web_of _) _ |- _ => apply answers_of in H end.

Lemma register_does env provider r :
  does (performs (Register env provider r)) same_data (serve (Register env provider r)).
Proof.
  cbn [Http.serve]. unfold register_installation. web_steps. destruct a as [recipient request].
  web_steps. eapply (does_operation _ (OpAdmitInstallation recipient request _ _ _)); [done| |done|].
  - eapply (auth_json_signed _ _ _ (recipient, request)); eassumption.
  - intros d d' r' Hd Hr. apply admit_installation_refused in Hd as ->; [done|].
    intros ->. by eapply (Hr Registered).
Qed.

Lemma unregister_does env r installation :
  does (performs (Unregister env r installation)) same_data (serve (Unregister env r installation)).
Proof.
  cbn [Http.serve]. unfold unregister_installation. web_steps.
  eapply (does_operation _ (OpDeleteInstallation a _ _)); [done| |done|].
  - eapply auth_recipient_signed; eassumption.
  - intros d d' r' Hd Hr. eapply delete_installation_refused; [exact Hd|].
    intros ->. by eapply (Hr true).
Qed.

Lemma disable_does env r installation reason :
  does (performs (Disable env r installation reason)) same_data
    (serve (Disable env r installation reason)).
Proof.
  cbn [Http.serve]. unfold disable_installation_handler. web_steps.
  eapply (does_operation _ (OpDisableInstallation a0 _ _ _)); [done| |done|].
  - eapply auth_empty_body_signed; eassumption.
  - intros d d' r' Hd Hr. apply disable_installation_refused in Hd as ->; [done|].
    intros ->. by eapply (Hr true).
Qed.

Lemma create_does env r new_id token :
  does (performs (CreateHook env r new_id token)) same_data (serve (CreateHook env r new_id token)).
Proof.
  cbn [Http.serve]. unfold create_hook. web_steps. destruct a as [recipient request]. web_steps.
  eapply (does_operation _ (OpAdmitHook recipient request _ _ _ _ _)); [| |done|].
  - eapply validated_hook_expires; eassumption.
  - eapply (auth_json_signed _ _ _ (recipient, request)); eassumption.
  - intros d d' r' Hd Hr. apply admit_hook_refused in Hd as ->; [done|].
    intros record t ->. by eapply (Hr (Created record t)).
Qed.

Lemma list_does env r : does (performs (ListHooks env r)) same_data (serve (ListHooks env r)).
Proof.
  cbn [Http.serve]. apply does_quiet; [apply _|apply _|]. unfold list_hooks.
  apply quiet_bind; [apply quiet_auth|intros recipient]. apply quiet_bind; [by intros s|].
  intros hooks. apply quiet_ret.
Qed.

Lemma revoke_does env r hook :
  does (performs (RevokeHook env r hook)) same_data (serve (RevokeHook env r hook)).
Proof.
  cbn [Http.serve]. unfold revoke_hook. web_steps.
  eapply (does_operation _ (OpRevoke hook a _)); [done| |done|].
  - eapply auth_recipient_signed; eassumption.
  - intros d d' r' Hd Hr. apply revoke_refused in Hd as ->; [done|].
    intros ->. by eapply (Hr true).
Qed.

Lemma invoke_does env attempt_now source k secret payload now3 event_id outbox_id :
  let q := InvokeHook env attempt_now source k secret payload now3 event_id outbox_id in
  does (performs q) same_data (serve q).
Proof.
  intros q. cbn [Http.serve q]. unfold invoke_hook. web_steps. intros s.
  unfold mbind at 1 3 5, web_bind, accept.
  destruct (invoke _ _ _ _ _ _ _ _ _ _ _ _ _ _ _) as [[d' rl'] out] eqn:Hi.
  split.
  - assert (performs q (sv_db s) d') as Hp.
    { right. exists (OpInvoke (invocation_policy cfg) source k secret a0 (en_now env) (en_limit1 env)
        (en_limit2 env) now3 event_id outbox_id), (limits_of s). split_and!; [done|done|].
      cbn [Gateway.exec]. by rewrite Hi. }
    destruct out as [outcome|e|]; [|done|done]. by destruct (enqueued_rows outcome).
  - destruct out as [outcome|e|]; intros Hfail.
    + exfalso. eapply Hfail. by destruct (enqueued_rows outcome).
    + apply invoke_refused in Hi as ->; [done|done].
    + apply invoke_refused in Hi as ->; [done|done].
Qed.

Lemma serve_does q : does (performs q) same_data (serve q).
Proof.
  destruct q; [apply register_does|apply unregister_does|apply disable_does|apply create_does
    |apply list_does|apply revoke_does|apply invoke_does].
Qed.


(** A refused request changes nothing.  Whenever a request is answered with
    an error, for whatever reason, no registration, token owner, hook, event,
    delivery or idempotency marker differs from before. *)
Theorem refused_requests_change_nothing q s :
  match (serve q s).2 with
  | Ok _ => True
  | Err _ | Panic => same_data (sv_db s) (sv_db (serve q s).1)
  end.
Proof.
  destruct (serve_does q s) as [_ Hf]. destruct (serve q s) as [s' [a|e|]]; [done| |]; by apply Hf.
Qed.


End Requests.

End Serve.
