(* ===== verification/PushDemo.v ===== *)
(** * A concrete gateway

    One run with concrete serializers: an installation registers, a hook is
    created and invoked, the delivery is claimed and then succeeds, fails,
    expires or is interrupted.  The witnesses of the gateway's properties start
    from its states. *)

From S2P Require Import Prelude PushSchema PushOutbox PushDelivery PushRegistrations PushLimits PushHooks PushInvocations PushSystem PushRuns PushOnce PushWorker PushAuth PushHttp PushServe.
From stdpp Require Import base gmap strings list relations.
From Stdlib Require Import ZArith Lia.
Open Scope Z_scope.

Module PushDemo.
Import Outbox Delivery Registrations Limits Hooks Invocations Gateway Runs Claims Once Worker Http Serve.

(** Rows are visited in map order; JSON has strings only. *)
#[export] Instance demo_scan : Scan := {| scan A l := l; scan_perm A l := Permutation_refl l |}.
Definition DemoJson : Type := Empty_set.
#[export] Instance demo_data_codec : Codec (gmap string (Value DemoJson)) :=
  {| enc _ := "{}"%string; dec _ := Some ∅ |}.
Definition demo_notification : Notification (Value DemoJson) :=
  {| nt_recipient_id := "r"; nt_notification_id := "n"; nt_kind := "hook"; nt_title := None;
     nt_body := None; nt_data := ∅ |}.
#[export] Instance demo_notification_codec : Codec (Notification (Value DemoJson)) :=
  {| enc _ := "n"%string; dec _ := Some demo_notification |}.
Definition demo_hash (s : string) : string := s.
Definition demo_text (j : DemoJson) : string := match j with end.

Abbreviation demo_op := (Op (Json:=DemoJson)).
Abbreviation demo_after := (after demo_hash demo_text).
Abbreviation demo_step := (step demo_hash demo_text).
Abbreviation demo_reachable := (reachable demo_hash demo_text).

(** A decidable form of admissibility. *)
Definition op_wf_b (o : demo_op) : bool :=
  match o with
  | OpAdmitHook _ request _ _ _ _ _ =>
      match cr_expires_in_seconds request with Some t => 0 <? t | None => false end
  | _ => true
  end.
Definition admissible_b (s : Gw) (o : demo_op) : bool :=
  op_wf_b o && (gw_clock s <=? default (gw_clock s) (op_now o))
  && (gw_db_clock s <=? default (gw_db_clock s) (op_db_now o))
  && bool_decide (NoDup (op_ids o)) && bool_decide (Forall (λ k, k ∉ gw_minted s) (op_ids o))
  && match op_now o with Some now => (0 <=? now) && (now <=? i64_max) | None => true end.

Lemma admissible_of_b s o : admissible_b s o = true → admissible s o.
Proof.
  unfold admissible_b. rewrite !andb_true_iff, !bool_decide_eq_true, !Z.leb_le, Forall_forall.
  intros (((((Hwf & Hc) & Hd) & Hn) & Hf) & Hr). split; try done.
  - destruct o as [| | | | |? request| | | | | | | | | | | | |]; try done. cbn in *.
    destruct (cr_expires_in_seconds request) as [t|]; [|done]. exists t. split; [done|by apply Z.ltb_lt].
  - intros now Hnow. rewrite Hnow, andb_true_iff, !Z.leb_le in Hr. done.
Qed.

(** A run of admissible operations. *)
Fixpoint demo_run (s : Gw) (os : list demo_op) : Gw :=
  match os with [] => s | o :: os => demo_run (demo_after o s) os end.
Fixpoint admissible_run (s : Gw) (os : list demo_op) : bool :=
  match os with [] => true | o :: os => admissible_b s o && admissible_run (demo_after o s) os end.

Lemma demo_run_steps s os : admissible_run s os = true → rtc demo_step s (demo_run s os).
Proof.
  revert s. induction os as [|o os IH]; intros s; cbn; [done|].
  intros [Ho%admissible_of_b Hos]%andb_true_iff. eapply rtc_l; [by apply step_op|by apply IH].
Qed.

Definition demo_registration : RegisterInstallationRequest :=
  {| rq_installation_id := "i"; rq_fcm_token := "t"; rq_platform := None |}.
Definition demo_hook : CreateHookRequest DemoJson :=
  {| cr_installation_id := "i"; cr_label := None; cr_kind := None; cr_title := None; cr_body := None;
     cr_privacy := None; cr_open_behavior := None; cr_workflow := None; cr_action := None;
     cr_deep_link := None; cr_data := ∅; cr_expires_in_seconds := Some 86400; cr_max_uses := Some 5;
     cr_rate_limit := None |}.
Definition demo_policy : InvocationPolicy :=
  {| hook_invocations_per_source_prefix := 10; hook_invocations_per_hook := 10;
     hook_invocation_window_seconds := 60; max_global_outbox_backlog := 100;
     max_recipient_outbox_backlog := 10; max_idempotency_rows_global := 100;
     idempotency_reclamation_batch_size := 10; production_mode := true; registration_ttl := 1000 |}.
Definition demo_call : InvokeHookRequest DemoJson :=
  {| ir_idempotency_key := Some "k"%string; ir_data := ∅ |}.

Definition demo_setup : list demo_op :=
  [ OpAdmitInstallation "r" demo_registration {| cutoff_timestamp := 0 |}
      {| rl_max_active_per_recipient := 1; rl_max_active_global := 5; rl_max_total_rows := 9;
         rl_reclamation_batch_size := 5 |} 1000;
    OpAdmitHook "r" demo_hook {| cutoff_timestamp := 0 |}
      {| hl_max_active_per_recipient := 1; hl_max_active_global := 5; hl_max_total_rows := 9;
         hl_reclamation_batch_size := 5 |} 1001 "h" "x" ].
Definition demo_invoke : demo_op :=
  OpInvoke demo_policy "s" "h" "x" demo_call 1002 1002 1002 1002 "e" "o".
Definition demo_start : Gw := start 1000 1000.
Definition demo_ready : Gw := demo_run demo_start demo_setup.
Definition demo_accepted : Gw := demo_after demo_invoke demo_ready.
Definition demo_claim : demo_op := OpClaim 1003 1003 "c".
Definition demo_claimed : Gw := demo_after demo_claim demo_accepted.

Definition demo_event : string := "n".
Definition demo_row (status : string) (attempts next : Z) (last : option Z) (error claim : option string)
    (updated : Z) : OutboxCols :=
  {| ob_event_id := "e"; ob_recipient_id := "r"; ob_installation_id := "i"; ob_fcm_token := "t";
     ob_platform := None; ob_notification_json := "n"; ob_status := status; ob_attempts := attempts;
     ob_next_attempt_at := next; ob_last_attempt_at := last; ob_last_error := error;
     ob_claim_id := claim; ob_created_at := 1002; ob_updated_at := updated |}.

Lemma demo_reachable_ready : demo_reachable demo_ready.
Proof. exists 1000, 1000. apply demo_run_steps. by vm_compute. Qed.
Lemma demo_invoke_admissible : admissible demo_ready demo_invoke.
Proof. apply admissible_of_b. by vm_compute. Qed.
Lemma demo_reachable_accepted : demo_reachable demo_accepted.
Proof. apply admissible_reachable; [apply demo_reachable_ready|apply demo_invoke_admissible]. Qed.
Lemma demo_claim_admissible : admissible demo_accepted demo_claim.
Proof. apply admissible_of_b. by vm_compute. Qed.
Lemma demo_reachable_claimed : demo_reachable demo_claimed.
Proof. apply admissible_reachable; [apply demo_reachable_accepted|apply demo_claim_admissible]. Qed.

(** ** Witnesses *)

Lemma tokens_have_one_owner_witness :
  demo_reachable demo_ready ∧ routes_ok (gw_db demo_ready) ∧
  token_owners (gw_db demo_ready) !! "t"%string <> None.
Proof.
  split_and!; [exact demo_reachable_ready| |by vm_compute].
  exact (tokens_have_one_owner demo_hash demo_text demo_ready demo_reachable_ready).
Defined.

Lemma registration_respects_ceilings_witness :
  let d := initial_push_db in
  let limits := {| rl_max_active_per_recipient := 1; rl_max_active_global := 5;
                   rl_max_total_rows := 9; rl_reclamation_batch_size := 5 |} in
  let d' := (admit_installation "r" demo_registration {| cutoff_timestamp := 0 |} limits 1000 d).1 in
  physical_registration_count d' <= 9 ∧
  pr_fcm_token <$> eligible_installation "r" "i" {| cutoff_timestamp := 0 |} d' = Some "t"%string.
Proof.
  intros d limits d'.
  destruct (registration_respects_ceilings "r" demo_registration {| cutoff_timestamp := 0 |} limits
    1000 d d') as (_ & _ & Hrows & Htok).
  - split; cbn; intros *; by rewrite lookup_empty.
  - by vm_compute.
  - by vm_compute.
  - by vm_compute.
  - split; [by apply Hrows|exact Htok].
Defined.

Lemma operations_refine_delivery_witness :
  fates (clocks demo_accepted) demo_claim (gw_db demo_accepted)
    (gw_db (demo_after demo_claim demo_accepted)).
Proof.
  exact (operations_refine_delivery demo_hash demo_text demo_accepted demo_claim
           demo_reachable_accepted demo_claim_admissible).
Defined.


(** Five minutes later the expiry pass runs; a restart and a replay follow. *)
Definition demo_expire : demo_op := OpExpire 1302 1302.
Definition demo_selector : OutboxDeadLetterSelector :=
  {| sel_outbox_ids := ["o"%string]; sel_limit := None; sel_reason := None |}.
Definition demo_aftermath : list demo_op := [OpReset 1303; OpReplay demo_selector false 1304 1304].
Definition demo_expired_row : OutboxCols :=
  demo_row "dead_letter" 0 1302 None (Some "resolution_deadline_exceeded"%string) None 1302.

Lemma deadline_is_absolute_witness :
  terminal demo_expired_row = true ∧
  (let s' := demo_run (demo_after demo_expire demo_claimed) demo_aftermath in
   outbox (gw_db s') !! "o"%string = Some demo_expired_row ∨ outbox (gw_db s') !! "o"%string = None).
Proof.
  apply (deadline_is_absolute demo_hash demo_text demo_claimed
    (demo_run (demo_after demo_expire demo_claimed) demo_aftermath) 1302 1302 "o" demo_expired_row
    demo_reachable_claimed).
  - apply admissible_of_b. by vm_compute.
  - vm_compute. reflexivity.
  - by vm_compute.
  - apply demo_run_steps. by vm_compute.
Defined.

Definition demo_delivered : Gw := demo_after (OpMarkSucceeded "o" "c" 1004 1004) demo_claimed.
Definition demo_delivered_row : OutboxCols :=
  demo_row "succeeded" 0 1303 (Some 1004) None None 1004.
Lemma demo_reachable_delivered : demo_reachable demo_delivered.
Proof.
  apply admissible_reachable; [apply demo_reachable_claimed|]. apply admissible_of_b. by vm_compute.
Qed.

Lemma outcomes_are_final_witness :
  let s' := demo_run demo_delivered [OpReset 1005; OpExpire 2000 2000] in
  outbox (gw_db s') !! "o"%string = Some demo_delivered_row ∨ outbox (gw_db s') !! "o"%string = None.
Proof.
  apply (outcomes_are_final demo_hash demo_text demo_delivered
    (demo_run demo_delivered [OpReset 1005; OpExpire 2000 2000]) "o" demo_delivered_row
    demo_reachable_delivered).
  - vm_compute. reflexivity.
  - by vm_compute.
  - apply demo_run_steps. by vm_compute.
Defined.

Definition demo_failed : Gw :=
  demo_after (OpMarkFailed "o" "c" (transient "provider_network") 1004 1004) demo_claimed.
Definition demo_failed_row : OutboxCols :=
  demo_row "retrying" 1 1005 (Some 1004) (Some "provider_network"%string) None 1004.
Lemma demo_reachable_failed : demo_reachable demo_failed.
Proof.
  apply admissible_reachable; [apply demo_reachable_claimed|]. apply admissible_of_b. by vm_compute.
Qed.

Lemma retry_schedule_bounded_witness :
  1 <= ob_attempts demo_failed_row < MAX_DELIVERY_ATTEMPTS.
Proof.
  apply (retry_schedule_bounded demo_hash demo_text demo_failed "o" demo_failed_row
    demo_reachable_failed).
  - vm_compute. reflexivity.
  - by vm_compute.
Defined.

Lemma interrupted_delivery_misses_deadline_witness :
  ∃ r', outbox (gw_db (demo_after (OpReset 1100) demo_claimed)) !! "o"%string = Some r' ∧
    has_status "pending" r' = true ∧
    ∀ t, claimable t r' && (ob_next_attempt_at r' <=? t) = true → past_deadline t r' = true.
Proof.
  apply (interrupted_delivery_misses_deadline demo_hash demo_text demo_claimed 1100 "o"
    (demo_row "in_progress" 0 1303 None None (Some "c"%string) 1003) demo_reachable_claimed).
  - apply admissible_of_b. by vm_compute.
  - vm_compute. reflexivity.
  - by vm_compute.
Defined.

Lemma demo_accepted_typed : outbox_typed (gw_db demo_accepted).
Proof. exact (ty_outbox _ (reachable_typed demo_hash demo_text demo_accepted demo_reachable_accepted)). Qed.

Lemma claim_due_takes_first_due_witness :
  let result := claim_due (Value:=Value DemoJson) 1003 1003 "c" (gw_db demo_accepted) in
  (result = (gw_db demo_accepted, Ok Empty) ∧
   ∀ k r, outbox (gw_db demo_accepted) !! k = Some r → due 1003 r = false) ∨
  (∃ k r, chosen 1003 (gw_db demo_accepted) k r ∧
     match row_to_claimed (Value:=Value DemoJson) k "c" r with
     | Some delivery =>
         result = (set_outbox (<[k := taken 1003 "c" r]> (outbox (gw_db demo_accepted)))
                     (gw_db demo_accepted), Ok (Claimed delivery)) ∧
         due 1003 (taken 1003 "c" r) = false
     | None =>
         result = (set_outbox (<[k := spoiled 1003 r]> (outbox (gw_db demo_accepted)))
                     (gw_db demo_accepted), Ok CorruptedDeadLetter)
     end).
Proof.
  apply (claim_due_takes_first_due 1003 1003 "c" (gw_db demo_accepted)); [lia|lia|].
  exact demo_accepted_typed.
Defined.

Definition demo_delivery : ClaimedDelivery (Value DemoJson) :=
  {| cd_outbox_id := "o";
     cd_registration :=
       {| pr_recipient_id := "r"; pr_installation_id := "i"; pr_fcm_token := "t"; pr_platform := None;
          pr_created_at := 1002; pr_last_seen_at := 1002; pr_disabled_at := None;
          pr_disabled_reason := None |};
     cd_notification := demo_notification; cd_claim_id := "c"; cd_created_at := 1002 |}.

(** After the reset the first worker's report finds nothing to write. *)
Definition demo_restarted : Gw := demo_after (OpReset 1100) demo_claimed.
Lemma demo_restarted_row :
  outbox (gw_db demo_restarted) !! "o"%string =
  Some (demo_row "pending" 0 1303 None None (Some "c"%string) 1100).
Proof. vm_compute. reflexivity. Qed.
Lemma demo_superseded : superseded "o" "c" (gw_db demo_restarted).
Proof. intros r Hr. rewrite demo_restarted_row in Hr. injection Hr as <-. reflexivity. Qed.

Lemma superseded_worker_is_fenced_witness :
  mark_succeeded "o" "c" 1101 1101 (gw_db demo_restarted) = (gw_db demo_restarted, Ok false).
Proof.
  exact (proj1 (superseded_worker_is_fenced "o" "c" (gw_db demo_restarted) demo_delivery
    (transient "x") "x" 1101 1101 demo_superseded eq_refl eq_refl)).
Defined.

Lemma demo_hook_stored : is_Some (hooks (gw_db demo_accepted) !! "h"%string).
Proof. apply (bool_decide_unpack _). by vm_compute. Qed.
Lemma hook_budget_respected_witness :
  ∃ r, hooks (gw_db demo_accepted) !! "h"%string = Some r ∧
    hook_events "h" (gw_db demo_accepted) <= hk_use_count r ∧
    match hk_max_uses r with Some m => hk_use_count r <= m | None => True end.
Proof.
  destruct demo_hook_stored as [r Hr]. exists r. split; [exact Hr|].
  exact (hook_budget_respected demo_hash demo_text demo_accepted "h" r demo_reachable_accepted Hr).
Defined.

(** The same call again, after the worker delivered the first. *)
Definition demo_invoke_again : demo_op :=
  OpInvoke demo_policy "s" "h" "x" demo_call 1010 1010 1010 1010 "e2" "o2".
Definition demo_first_answer : InvocationOutcome := {| target_count := 1; enqueued_rows := true |}.
Definition demo_second_answer : InvocationOutcome := {| target_count := 1; enqueued_rows := false |}.

Lemma idempotency_key_accepted_once_witness :
  demo_second_answer = {| target_count := 1; enqueued_rows := false |}.
Proof.
  apply (idempotency_key_accepted_once demo_hash demo_text demo_ready demo_invoke
    (demo_run demo_accepted [demo_claim; OpMarkSucceeded "o" "c" 1004 1004])
    demo_invoke_again "h" "k" demo_first_answer demo_second_answer
    demo_reachable_ready demo_invoke_admissible).
  - reflexivity.
  - vm_compute. reflexivity.
  - reflexivity.
  - apply demo_run_steps. by vm_compute.
  - apply admissible_of_b. by vm_compute.
  - reflexivity.
  - vm_compute. reflexivity.
Defined.



Lemma provider_timeout_exact_witness :
  provider_timeout 1000 1290 = 10 ∧ provider_timeout 1000 1310 = 15.
Proof.
  split.
  - apply (provider_timeout_exact 1000 1290); vm_compute; by split.
  - apply (provider_timeout_exact 1000 1310); vm_compute; by split.
Defined.

(** A server with an empty database and a signed registration request. *)
Definition demo_http_config : HttpConfig :=
  {| hc_auth := Auth.demo_config; hook_creations_per_recipient := 5;
     hook_creation_window_seconds := 60; registration_changes_per_recipient_source := 5;
     registration_changes_per_source_prefix := 5; registration_change_window_seconds := 60;
     max_active_hooks_per_recipient := 5; max_active_installations_per_recipient := 5;
     max_active_hooks_global := 5; max_active_installations_global := 5; max_hook_rows_global := 9;
     max_registration_rows_global := 9; admission_gc_batch_size := 5;
     cfg_hook_invocations_per_source_prefix := 5; cfg_hook_invocations_per_hook := 5;
     cfg_hook_invocation_window_seconds := 60; cfg_max_global_outbox_backlog := 9;
     cfg_max_recipient_outbox_backlog := 9; registration_ttl_seconds := 1000 |}.
Definition demo_env : Env :=
  {| en_auth := Auth.demo_clocks 1010; en_limit1 := 1010; en_limit2 := 1010; en_eligibility := 1010;
     en_now := 1010; en_admitted := true |}.
Definition demo_server : Server :=
  {| sv_db := initial_push_db; sv_auth := Auth.demo_auth_state; sv_wakeup := false |}.
Definition demo_register : Request (Json:=DemoJson) :=
  Register demo_env (λ _, Ok tt) Auth.demo_request.
Definition demo_serve : Request (Json:=DemoJson) -> Web (Response (Json:=DemoJson)) :=
  serve demo_hash demo_text Some Some Auth.demo_pubkey Auth.demo_parse Auth.demo_signed (λ _, true) id
    (λ _, Some demo_registration) (λ _, Some demo_hook) demo_http_config.

(** The request is accepted and stored for its signer. *)
Lemma demo_registered :
  is_Some (registrations (sv_db (demo_serve demo_register demo_server).1) !! ("p", "i")%string).
Proof. apply (bool_decide_unpack _). by vm_compute. Qed.


End PushDemo.
