(* ===== verification/LmSchema.v ===== *)
(** * The liquidity manager's database
      ([crates/liquidity-manager-daemon/migrations], [database.rs])

    The tables the funding path of the liquidity manager (FLIP) shares, as maps
    from primary keys to rows: allocations and their items, wallet operations,
    the balance observation with its tick, the setup revision and the audit
    log.  A status column holds the [Display] string of an enum and is read
    back with its parser, so it is the enum itself here.  Human-readable detail
    strings of errors, responses and audit rows are left out; failure columns
    keep theirs. *)

From S2P Require Import Prelude.
From stdpp Require Import base gmap strings list sorting pretty.
From Stdlib Require Import ZArith Lia.
Open Scope Z_scope.

Module Ledger.

Inductive ServiceErrorCode :=
| InvalidArgument
| PermissionDenied
| NotFound
| Unavailable
| FailedPrecondition
| Internal
| Unknown.

Inductive BitcoinNetwork := Bitcoin | Testnet | Signet | Regtest.

Inductive WalletOperationType := Deposit | Withdrawal | GatewayFunding | StabilityPoolFunding.

Inductive WalletOperationStatus :=
| OpPending
| OpBroadcast
| OpConfirmed
| OpCompleted
| OpInDoubt
| OpManualReviewRequired
| OpFailed
| OpCancelled.

Inductive ItemAllocationStatus :=
| ItemPending
| ItemRunning
| ItemActionRequired
| ItemCompleted
| ItemFailed
| ItemCancelled.

Inductive SourceType := Gateway | StabilityPool.

Inductive ManualOperationStatus := Accepted | Rejected | ManualNotFound | AlreadyApplied.

Inductive LiquidityFailureCode :=
| RequestExpiredFailure
| PolicyMismatchFailure
| InsufficientProviderFunds
| GatewayAttachFailed
| WithdrawFailed
| StabilityPoolFailed
| InternalErrorFailure
| GatewayAttributionAbandoned
| UnknownFailure (code : string).

#[global] Instance ServiceErrorCode_eq_dec : EqDecision ServiceErrorCode.
Proof. solve_decision. Defined.
#[global] Instance BitcoinNetwork_eq_dec : EqDecision BitcoinNetwork.
Proof. solve_decision. Defined.
#[global] Instance WalletOperationType_eq_dec : EqDecision WalletOperationType.
Proof. solve_decision. Defined.
#[global] Instance WalletOperationStatus_eq_dec : EqDecision WalletOperationStatus.
Proof. solve_decision. Defined.
#[global] Instance ItemAllocationStatus_eq_dec : EqDecision ItemAllocationStatus.
Proof. solve_decision. Defined.
#[global] Instance SourceType_eq_dec : EqDecision SourceType.
Proof. solve_decision. Defined.
#[global] Instance ManualOperationStatus_eq_dec : EqDecision ManualOperationStatus.
Proof. solve_decision. Defined.
#[global] Instance LiquidityFailureCode_eq_dec : EqDecision LiquidityFailureCode.
Proof. solve_decision. Defined.

Record AdminFailure := {
  af_code : string;
  af_message : string;
  af_occurred_at : Z;
  af_federation_id : option string;
  af_item_id : option string
}.

Record LiquidityFailure := {
  lf_code : LiquidityFailureCode;
  lf_reason : option string
}.

(** A row of [wallet_operations].  [operation_json] repeats the label;
    [external_operation_id], [sync_after] and [sync_metadata_json] are never
    written. *)
Record WalletOp := {
  wo_type : WalletOperationType;
  wo_status : WalletOperationStatus;
  wo_federation_id : option string;
  wo_item_id : option string;
  wo_amount : Z;
  wo_address : option string;
  wo_txid : option string;
  wo_tx_vout : option Z;
  wo_confirmation_count : option Z;
  wo_failure : option AdminFailure;
  wo_label : option string;
  wo_fee_rate : option Z;
  wo_created_at : Z;
  wo_updated_at : Z;
  wo_submitted_at : option Z;
  wo_completed_at : option Z;
  wo_withdrawal_intent_id : option string;
  wo_settled_tick : option Z;
  wo_released_tick : option Z
}.

(** [FundingTargetRecord]. *)
Record FundingTarget := {
  ft_federation_id : string;
  ft_federation_name : string;
  ft_invite_code : string;
  ft_federation_config_hash : string
}.

(** A row of [allocations]. *)
Record Allocation := {
  al_requester_pubkey : string;
  al_provider_pubkey : string;
  al_network : BitcoinNetwork;
  al_details_payload_hash : string;
  al_request_json : string;
  al_verification_json : string;
  al_target : FundingTarget;
  al_committed_amount : Z;
  al_reserved_amount : Z;
  al_created_at : Z;
  al_updated_at : Z
}.

(** [AllocationItemTarget]. *)
Inductive AllocationItemTarget :=
| GatewayTarget (item_id gateway_id gateway_name : string) (amount : Z)
| StabilityPoolTarget (item_id : string) (amount : Z).

(** [GatewayAllocationStep]. *)
Record GatewayStep := {
  gs_gateway_connected : bool;
  gs_deposit_address : option string;
  gs_wallet_operation_id : option string;
  gs_attribution_overdue_since : option Z
}.

(** [SpDepositStatus] and [PegInProgress]. *)
Inductive SpDepositStatus :=
| SpSubmitting | SpInitiated | SpTxAccepted | SpSuccess | SpUnknown (value : string).
Inductive PegInProgress :=
| WaitingForTransaction | WaitingForConfirmation | PegConfirmed | Claimed
| PegUnknown (value : string).

#[global] Instance SpDepositStatus_eq_dec : EqDecision SpDepositStatus.
Proof. solve_decision. Defined.
#[global] Instance PegInProgress_eq_dec : EqDecision PegInProgress.
Proof. solve_decision. Defined.

(** [StabilityPoolAllocationStep]. *)
Record StabilityStep := {
  ss_target_client_opened_at : option Z;
  ss_peg_in_operation_id : option string;
  ss_peg_in_address : option string;
  ss_wallet_operation_id : option string;
  ss_peg_in_status : option PegInProgress;
  ss_peg_in_amount : option Z;
  ss_sp_deposit_status : option SpDepositStatus;
  ss_sp_deposit_operation_id : option string;
  ss_sp_deposit_amount : option Z;
  ss_sp_deposit_min_fee_rate_ppb : option Z;
  ss_observed_provided_amount : option Z
}.

(** The [step_json] column: the JSON of one of the two step types, or text
    neither parser reads.  Equal values are equal texts, so the comparison of
    [compare_and_set_item_step] is equality. *)
Inductive Step :=
| AGatewayStep (step : GatewayStep)
| AStabilityStep (step : StabilityStep)
| UnreadableStep (raw : string).

#[global] Instance GatewayStep_eq_dec : EqDecision GatewayStep.
Proof. solve_decision. Defined.
#[global] Instance StabilityStep_eq_dec : EqDecision StabilityStep.
Proof. solve_decision. Defined.
#[global] Instance Step_eq_dec : EqDecision Step.
Proof. solve_decision. Defined.

(** [CompletionEvidence]. *)
Inductive CompletionEvidence :=
| GatewayEvidence (gateway_id gateway_api : string)
    (fulfilled_amount observed_gateway_balance observed_at : Z)
    (withdrawal_txid wallet_operation_id : option string)
| StabilityPoolEvidence (fulfilled_amount observed_provided_amount observed_at : Z)
    (peg_in_operation_id stability_pool_deposit_operation_id : option string).

(** A row of [allocation_items]. *)
Record Item := {
  it_federation_id : string;
  it_source_type : SourceType;
  it_status : ItemAllocationStatus;
  it_committed_amount : Z;
  it_target : AllocationItemTarget;
  it_failure : option LiquidityFailure;
  it_created_at : Z;
  it_updated_at : Z;
  it_reserved_amount : Z;
  it_step : option Step;
  it_fulfilled_amount : option Z;
  it_completion_evidence : option CompletionEvidence
}.

(** The row of [wallet_balance_observations]; [source_json] repeats it. *)
Record BalanceObservation := {
  bo_network : BitcoinNetwork;
  bo_spendable : Z;
  bo_observed_at : Z;
  bo_read_tick : Z
}.

(** A row of [gateway_observations]. *)
Record GatewayObservation := {
  go_gateway_id : string;
  go_federation_id : option string;
  go_status : string;
  go_observed_balance : option Z;
  go_observed_at : Z
}.

(** A row of [audit_log]. *)
Record AuditRow := {
  au_action : string;
  au_federation_id : option string;
  au_item_id : option string;
  au_operation_id : option string;
  au_outcome : option ManualOperationStatus
}.

Record Db := {
  allocations : gmap string Allocation;
  items : gmap string Item;
  operations : gmap string WalletOp;
  tick : Z;
  observation : option BalanceObservation;
  gateway_observations : gmap string GatewayObservation;
  setup_revision : Z;
  audit_log : list AuditRow
}.

(** The database after the migration: the tick row exists and holds zero. *)
Definition empty_db : Db :=
  {| allocations := ∅; items := ∅; operations := ∅; tick := 0; observation := None;
     gateway_observations := ∅; setup_revision := 0; audit_log := [] |}.

Definition set_allocations (f : gmap string Allocation -> gmap string Allocation) (d : Db) : Db :=
  {| allocations := f (allocations d); items := items d; operations := operations d;
     tick := tick d; observation := observation d;
     gateway_observations := gateway_observations d; setup_revision := setup_revision d;
     audit_log := audit_log d |}.
Definition set_items (f : gmap string Item -> gmap string Item) (d : Db) : Db :=
  {| allocations := allocations d; items := f (items d); operations := operations d;
     tick := tick d; observation := observation d;
     gateway_observations := gateway_observations d; setup_revision := setup_revision d;
     audit_log := audit_log d |}.
Definition set_operations (f : gmap string WalletOp -> gmap string WalletOp) (d : Db) : Db :=
  {| allocations := allocations d; items := items d; operations := f (operations d);
     tick := tick d; observation := observation d;
     gateway_observations := gateway_observations d; setup_revision := setup_revision d;
     audit_log := audit_log d |}.
Definition set_tick (t : Z) (d : Db) : Db :=
  {| allocations := allocations d; items := items d; operations := operations d;
     tick := t; observation := observation d;
     gateway_observations := gateway_observations d; setup_revision := setup_revision d;
     audit_log := audit_log d |}.
Definition set_observation (o : option BalanceObservation) (d : Db) : Db :=
  {| allocations := allocations d; items := items d; operations := operations d;
     tick := tick d; observation := o;
     gateway_observations := gateway_observations d; setup_revision := setup_revision d;
     audit_log := audit_log d |}.
Definition set_gateway_observations (f : gmap string GatewayObservation -> gmap string GatewayObservation)
    (d : Db) : Db :=
  {| allocations := allocations d; items := items d; operations := operations d;
     tick := tick d; observation := observation d;
     gateway_observations := f (gateway_observations d); setup_revision := setup_revision d;
     audit_log := audit_log d |}.
Definition add_audit (r : AuditRow) (d : Db) : Db :=
  {| allocations := allocations d; items := items d; operations := operations d;
     tick := tick d; observation := observation d;
     gateway_observations := gateway_observations d; setup_revision := setup_revision d;
     audit_log := r :: audit_log d |}.

(** The body of a transaction or statement; the first argument of a statement
    that calls [unixepoch()] is the clock. *)
Definition LmTx (A : Type) : Type := Tx Db ServiceErrorCode A.

(** [value IN (list)]. *)
Definition in_list {A} `{EqDecision A} (l : list A) (a : A) : bool := bool_decide (a ∈ l).

(** ** Statements on the two tables *)

(** [UPDATE wallet_operations SET .. WHERE operation_id = id AND guard],
    with the number of rows affected. *)
Definition update_operation (id : string) (guard : WalletOp -> bool) (f : WalletOp -> WalletOp)
    : LmTx Z := fun d =>
  match operations d !! id with
  | Some r => if guard r then Ok (set_operations <[id := f r]> d, 1) else Ok (d, 0)
  | None => Ok (d, 0)
  end.

(** [UPDATE allocation_items SET .. WHERE item_id = id AND guard]. *)
Definition update_item (id : string) (guard : Item -> bool) (f : Item -> Item) : LmTx Z := fun d =>
  match items d !! id with
  | Some r => if guard r then Ok (set_items <[id := f r]> d, 1) else Ok (d, 0)
  | None => Ok (d, 0)
  end.

(** The unique indexes of [wallet_operations] between two rows. *)
Definition op_rows_clash (a b : WalletOp) : bool :=
  (match wo_item_id a, wo_item_id b with
   | Some i, Some j => bool_decide (i = j) && bool_decide (wo_type a = wo_type b)
   | _, _ => false
   end) ||
  (match wo_withdrawal_intent_id a, wo_withdrawal_intent_id b with
   | Some i, Some j => bool_decide (i = j)
   | _, _ => false
   end) ||
  (match wo_txid a, wo_tx_vout a, wo_txid b, wo_tx_vout b with
   | Some t, Some v, Some t', Some v' => bool_decide (t = t') && bool_decide (v = v')
   | _, _, _, _ => false
   end).

(** Whether row [r] under key [id] would violate a unique index. *)
Definition op_conflicts (id : string) (r : WalletOp) (d : Db) : bool :=
  bool_decide (map_Exists (λ k r', k ≠ id ∧ op_rows_clash r r' = true) (operations d)).

(** [INSERT INTO wallet_operations]. *)
Definition insert_operation (id : string) (r : WalletOp) : LmTx unit := fun d =>
  match operations d !! id with
  | Some _ => Err Internal
  | None => if op_conflicts id r d then Err Internal
            else Ok (set_operations <[id := r]> d, tt)
  end.

(** [update_operation] for a statement that writes an indexed column. *)
Definition update_operation_indexed (id : string) (guard : WalletOp -> bool)
    (f : WalletOp -> WalletOp) : LmTx Z := fun d =>
  match operations d !! id with
  | Some r => if guard r then
                if op_conflicts id (f r) d then Err Internal
                else Ok (set_operations <[id := f r]> d, 1)
              else Ok (d, 0)
  | None => Ok (d, 0)
  end.

(** [SELECT SUM(column)]: SQLite raises on an integer overflow. *)
Definition sum_rows {A} (f : string -> A -> option Z) (m : gmap string A) : Z :=
  map_fold (λ k r acc, default 0 (f k r) + acc) 0 m.
Definition sql_sum {A} (f : string -> A -> option Z) (m : gmap string A) : res ServiceErrorCode Z :=
  let s := sum_rows f m in
  if in_range i64_min i64_max s then Ok s else Err Internal.

(** [SELECT COUNT( * )]. *)
Definition count_rows {A} (p : string -> A -> bool) (m : gmap string A) : Z :=
  sum_rows (λ k r, if p k r then Some 1 else None) m.

(** [ORDER BY at ASC, id ASC] over the rows satisfying a filter. *)
Definition row_le {A} (at_ : A -> Z) (x y : string * A) : Prop :=
  at_ x.2 < at_ y.2 ∨ (at_ x.2 = at_ y.2 ∧ String.le x.1 y.1).
#[global] Instance row_le_dec {A} (at_ : A -> Z) : RelDecision (row_le at_).
Proof. intros x y. unfold row_le. apply _. Defined.
Definition select_ordered {A} (at_ : A -> Z) (p : string -> A -> bool) (m : gmap string A)
    : list (string * A) :=
  merge_sort (row_le at_) (filter (λ kv, p kv.1 kv.2 = true) (map_to_list m)).

(** [to_i64_sats], [checked_sats_add], [checked_sum]. *)
Definition to_i64_sats (amount : Z) : res ServiceErrorCode Z :=
  ok_or Internal (try_from_u i64_max amount).
Definition checked_sats_add (a b : Z) : res ServiceErrorCode Z :=
  ok_or Internal (checked_add_u u64_max a b).
Fixpoint checked_sum_from (acc : Z) (l : list Z) : res ServiceErrorCode Z :=
  match l with
  | [] => Ok acc
  | a :: l => s ← ok_or Internal (checked_add_u u64_max acc a); checked_sum_from s l
  end.
Definition checked_sum (l : list Z) : res ServiceErrorCode Z := checked_sum_from 0 l.

End Ledger.
