(* ===== verification/LmProg.v ===== *)
(** * The liquidity manager's tasks and their interleavings

    A handler or worker pass of the daemon is a program: it commits statements
    and transactions against SQLite, and between them awaits the services it
    depends on.  [Prog] keeps exactly that structure, so that the definitions
    of the other files read like the code, and a running daemon is a set of
    programs interleaved at their awaits.  A statement may fail without
    effect (a busy database), every dependency may answer anything of its
    type, and a crash drops all tasks and keeps the database. *)

From S2P Require Import Prelude LmSchema.
From stdpp Require Import base gmap strings list.
From Stdlib Require Import ZArith Lia.
Open Scope Z_scope.

Module Daemon.
Import Ledger.

(** ** What the dependencies are asked and answer *)

(** [bitcoin::Network] and [LightningInfo] of gatewayd. *)
Inductive Network := NetBitcoin | NetTestnet | NetTestnet4 | NetSignet | NetRegtest.
Inductive LightningInfo := Connected (network : Network) (synced_to_chain : bool) | NotConnected.

(** [PreparedWithdrawal]; an [Address] is its text. *)
Record PreparedWithdrawal := {
  pw_operation_id : string;
  pw_address : string;
  pw_amount : Z;
  pw_fee_rate : Z
}.

(** [SyncedWalletStatus] and [WalletOperationSync]. *)
Inductive SyncedWalletStatus := SyncBroadcast | SyncConfirmed | SyncCompleted.
Record WalletOperationSync := {
  sy_operation_id : string;
  sy_status : SyncedWalletStatus;
  sy_txid : option string;
  sy_confirmation_count : option Z;
  sy_amount : option Z;
  sy_detail : option string
}.

(** [ChainOutputEvidence]; the script is not read. *)
Record ChainOutput := {
  co_txid : string;
  co_vout : Z;
  co_address : option string;
  co_amount : Z;
  co_confirmations : Z
}.

(** [PublicRejectionCode]. *)
Inductive PublicRejectionCode :=
| UnsupportedNetwork | UnsupportedSourceType | RequestExpired | InvalidAmountBounds
| PolicyMismatch | ProviderUnavailable | InsufficientCapacity | RequestConflict
| InvalidDetailsPayload | InvalidCredentials | InvalidSeatBinding | VersionUnsupported
| InternalError.

(** [GatewaySnapshot] and [GatewayDepositClaim] of the gateway client. *)
Record GatewayFederation := { gf_federation_id : string; gf_balance : Z }.
Record GatewaySnapshot := {
  sn_state : string;
  sn_network : BitcoinNetwork;
  sn_synced_to_chain : bool;
  sn_gateway_api : string;
  sn_federations : list GatewayFederation
}.
Record DepositClaimQuery := {
  dq_txid : string;
  dq_out_idx : option Z;
  dq_min_amount : Z
}.
Record DepositClaim := { dc_txid : string; dc_out_idx : Z; dc_amount : Z }.

(** [PegInStatus], [StabilityDepositStatus] and [SubmissionReceipt] of the
    stability-pool backend. *)
Inductive PegInStatus :=
| PegWaiting
| PegInConfirmed (amount : Z)
| PegClaimed (amount : Z) (operation_id : string)
| PegFailed (reason : string).
Inductive StabilityDepositStatus :=
| DepositInitiated | DepositTxAccepted | DepositSuccess | DepositFailed (reason : string).
Inductive SubmissionReceipt := ReceiptSubmitted | ReceiptMatching | ReceiptConflicting.

(** [StabilityDepositSubmission]. *)
Record DepositSubmission := {
  ds_operation_id : string;
  ds_amount : Z;
  ds_min_fee_rate_ppb : Z
}.

(** The awaits of the modelled tasks: gatewayd's admin API, the chain observer,
    request verification, the gateway client, the stability-pool backend, the
    clock and the item budget, the admission lock and the locally generated
    identifiers. *)
Inductive Ext :=
| GetInfo
| GetBalances
| GetOnchainAddress
| ParseAddress (address : string) (network : BitcoinNetwork)
| SendOnchain (prepared : PreparedWithdrawal)
| TxEvidence (txid : string)
| AddressEvidence (address : string)
| VerifyRequest (federation_id : string)
| DetailsHash
| AdmissionOpen
| FreshOperationId
| Now
| CheckInviteEndpoints (invite_code : string)
| GatewayInfo
| ConnectFederation (invite_code : string)
| DepositAddress (federation_id : string) (network : BitcoinNetwork)
| RecheckDepositAddress (federation_id address : string) (network : BitcoinNetwork)
| FindDepositClaim (federation_id : string) (query : DepositClaimQuery)
| ObserveFederationBalance (federation_id : string)
| EnsureClient (federation_id : string)
| CheckTarget (federation_id : string)
| AllocatePegInAddress (federation_id : string)
| ObservePegIn (federation_id address : string)
| TargetWalletBalance (federation_id : string)
| GenerateDepositId
| SubmitDepositToProvide (federation_id item_id : string) (submission : DepositSubmission)
| ObserveDeposit (federation_id operation_id : string)
| ProviderReport (federation_id : string)
| ParseOperationId (text : string)
| GetDepositOperation (federation_id operation_id : string)
| BudgetSpent.

(** Answers; an error carries its text. *)
Inductive Answer :=
| AnsInfo (r : res string LightningInfo)
| AnsAmount (r : res string Z)
| AnsText (r : res string string)
| AnsUnit (r : res string unit)
| AnsOutputs (r : res string (option (list ChainOutput)))
| AnsVerdict (rejection : option PublicRejectionCode) (summary : string)
| AnsBool (b : bool)
| AnsTime (now : Z)
| AnsSnapshot (r : res string GatewaySnapshot)
| AnsFederation (r : res string GatewayFederation)
| AnsClaim (r : res string (option DepositClaim))
| AnsBalance (r : res string (option Z))
| AnsTarget (r : res string (option string))
| AnsPegAddress (r : res string (string + string))
| AnsPegIn (r : res string PegInStatus)
| AnsReceipt (r : res string SubmissionReceipt)
| AnsDeposit (r : res string StabilityDepositStatus).

(** Whether an answer has the type of the call. *)
Definition answers (c : Ext) (a : Answer) : bool :=
  match c, a with
  | GetInfo, AnsInfo _ => true
  | GetBalances, AnsAmount _ => true
  | GetOnchainAddress, AnsText _ => true
  | ParseAddress _ _, AnsUnit _ => true
  | SendOnchain _, AnsText _ => true
  | TxEvidence _, AnsOutputs _ => true
  | AddressEvidence _, AnsOutputs (Ok None) => false
  | AddressEvidence _, AnsOutputs _ => true
  | VerifyRequest _, AnsVerdict _ _ => true
  | DetailsHash, AnsText _ => true
  | AdmissionOpen, AnsBool _ => true
  | FreshOperationId, AnsText _ => true
  | Now, AnsTime _ => true
  | CheckInviteEndpoints _, AnsText _ => true
  | GatewayInfo, AnsSnapshot _ => true
  | ConnectFederation _, AnsFederation _ => true
  | DepositAddress _ _, AnsText _ => true
  | RecheckDepositAddress _ _ _, AnsUnit _ => true
  | FindDepositClaim _ _, AnsClaim _ => true
  | ObserveFederationBalance _, AnsBalance _ => true
  | EnsureClient _, AnsUnit _ => true
  | CheckTarget _, AnsTarget _ => true
  | AllocatePegInAddress _, AnsPegAddress _ => true
  | ObservePegIn _ _, AnsPegIn _ => true
  | TargetWalletBalance _, AnsAmount _ => true
  | GenerateDepositId, AnsText _ => true
  | SubmitDepositToProvide _ _ _, AnsReceipt _ => true
  | ObserveDeposit _ _, AnsDeposit _ => true
  | ProviderReport _, AnsAmount _ => true
  | ParseOperationId _, AnsText _ => true
  | GetDepositOperation _ _, AnsBalance _ => true
  | BudgetSpent, AnsBool _ => true
  | _, _ => false
  end.

(** ** Programs *)

Inductive Prog (A : Type) : Type :=
| Done (r : res ServiceErrorCode A)
| Stmt {B : Type} (t : Z -> LmTx B) (k : res ServiceErrorCode B -> Prog A)
| Call (c : Ext) (k : Answer -> Prog A).
Arguments Done {A} r.
Arguments Stmt {A B} t k.
Arguments Call {A} c k.

#[global] Instance prog_ret : MRet Prog := fun A a => Done (Ok a).
Fixpoint prog_bind_ {A B} (f : A -> Prog B) (p : Prog A) : Prog B :=
  match p with
  | Done (Ok a) => f a
  | Done (Err e) => Done (Err e)
  | Done Panic => Done Panic
  | Stmt t k => Stmt t (λ r, prog_bind_ f (k r))
  | Call c k => Call c (λ a, prog_bind_ f (k a))
  end.
#[global] Instance prog_bind : MBind Prog := fun A B f p => prog_bind_ f p.

(** [statement.await?]: one transaction, the clock being what [unixepoch()]
    reads in it. *)
Definition stmt {A} (t : Z -> LmTx A) : Prog A := Stmt t Done.
Definition fail {A} (e : ServiceErrorCode) : Prog A := Done (Err e).
Definition lift {A} (r : res ServiceErrorCode A) : Prog A := Done r.

(** [match p.await { Ok(..) => .., Err(..) => .. }]. *)
Fixpoint attempt {A} (p : Prog A) : Prog (res ServiceErrorCode A) :=
  match p with
  | Done Panic => Done Panic
  | Done r => Done (Ok r)
  | Stmt t k => Stmt t (λ r, attempt (k r))
  | Call c k => Call c (λ a, attempt (k a))
  end.

(** [for x in l { body(x).await?; }]. *)
Fixpoint for_each {A} (l : list A) (body : A -> Prog unit) : Prog unit :=
  match l with
  | [] => mret tt
  | a :: l => body a;; for_each l body
  end.

(** Discard the result of a task. *)
Definition task {A} (p : Prog A) : Prog unit := _ ← attempt p; mret tt.

(** The calls by answer type; [answers] rules out the other answers. *)
Definition call_info (c : Ext) : Prog (res string LightningInfo) :=
  Call c (λ a, match a with AnsInfo r => mret r | _ => Done Panic end).
Definition call_amount (c : Ext) : Prog (res string Z) :=
  Call c (λ a, match a with AnsAmount r => mret r | _ => Done Panic end).
Definition call_text (c : Ext) : Prog (res string string) :=
  Call c (λ a, match a with AnsText r => mret r | _ => Done Panic end).
Definition call_unit (c : Ext) : Prog (res string unit) :=
  Call c (λ a, match a with AnsUnit r => mret r | _ => Done Panic end).
Definition call_outputs (c : Ext) : Prog (res string (option (list ChainOutput))) :=
  Call c (λ a, match a with AnsOutputs r => mret r | _ => Done Panic end).
Definition call_verdict (c : Ext) : Prog (option PublicRejectionCode * string) :=
  Call c (λ a, match a with AnsVerdict r s => mret (r, s) | _ => Done Panic end).
Definition call_bool (c : Ext) : Prog bool :=
  Call c (λ a, match a with AnsBool b => mret b | _ => Done Panic end).
Definition call_time (c : Ext) : Prog Z :=
  Call c (λ a, match a with AnsTime z => mret z | _ => Done Panic end).
Definition call_snapshot (c : Ext) : Prog (res string GatewaySnapshot) :=
  Call c (λ a, match a with AnsSnapshot r => mret r | _ => Done Panic end).
Definition call_federation (c : Ext) : Prog (res string GatewayFederation) :=
  Call c (λ a, match a with AnsFederation r => mret r | _ => Done Panic end).
Definition call_claim (c : Ext) : Prog (res string (option DepositClaim)) :=
  Call c (λ a, match a with AnsClaim r => mret r | _ => Done Panic end).
Definition call_balance (c : Ext) : Prog (res string (option Z)) :=
  Call c (λ a, match a with AnsBalance r => mret r | _ => Done Panic end).
(** [None] is a usable target, [Some] the reason it is not. *)
Definition call_target (c : Ext) : Prog (res string (option string)) :=
  Call c (λ a, match a with AnsTarget r => mret r | _ => Done Panic end).
(** [inl] is an allocated address, [inr] the reason there is none. *)
Definition call_peg_address (c : Ext) : Prog (res string (string + string)) :=
  Call c (λ a, match a with AnsPegAddress r => mret r | _ => Done Panic end).
Definition call_peg_in (c : Ext) : Prog (res string PegInStatus) :=
  Call c (λ a, match a with AnsPegIn r => mret r | _ => Done Panic end).
Definition call_receipt (c : Ext) : Prog (res string SubmissionReceipt) :=
  Call c (λ a, match a with AnsReceipt r => mret r | _ => Done Panic end).
Definition call_deposit (c : Ext) : Prog (res string StabilityDepositStatus) :=
  Call c (λ a, match a with AnsDeposit r => mret r | _ => Done Panic end).

(** [.map_err(unavailable)?] and [.map_err(invalid_argument)?]. *)
Definition or_else {A} (e : ServiceErrorCode) (r : res string A) : Prog A :=
  match r with Ok a => mret a | Err _ => fail e | Panic => Done Panic end.

(** A program run to its end on its own: the clock of every statement and the
    answers of its calls, in order. *)
Fixpoint exec {A} (p : Prog A) (now : Z) (l : list Answer) (d : Db)
    : option (Db * res ServiceErrorCode A) :=
  match p with
  | Done r => Some (d, r)
  | Stmt t k => let '(d', r) := run_tx (t now) d in exec (k r) now l d'
  | Call c k =>
      match l with
      | a :: l => if answers c a then exec (k a) now l d else None
      | [] => None
      end
  end.

(** ** A running daemon *)

Section System.
(** The entry points, and the program each starts. *)
Context {H : Type} (body : H -> Prog unit).

Inductive Event :=
| EStart (pid : nat) (h : H)
| EStmt (pid : nat) (before after : Db)
| ECall (pid : nat) (c : Ext) (a : Answer)
| ECrash.

(** The trace holds the newest event first. *)
Record Sys := {
  sys_db : Db;
  sys_running : gmap nat (Prog unit);
  sys_trace : list Event
}.

Inductive Choice :=
| Start (h : H)
| Exec (pid : nat) (now : Z)
| Lose (pid : nat)
| Reply (pid : nat) (a : Answer)
| Crash.

Definition boot (d : Db) : Sys := {| sys_db := d; sys_running := ∅; sys_trace := [] |}.

Definition act (c : Choice) (s : Sys) : option Sys :=
  match c with
  | Start h =>
      let pid := length (sys_trace s) in
      Some {| sys_db := sys_db s; sys_running := <[pid := body h]> (sys_running s);
              sys_trace := EStart pid h :: sys_trace s |}
  | Exec pid now =>
      match sys_running s !! pid with
      | Some (Stmt t k) =>
          let '(d', r) := run_tx (t now) (sys_db s) in
          Some {| sys_db := d'; sys_running := <[pid := k r]> (sys_running s);
                  sys_trace := EStmt pid (sys_db s) d' :: sys_trace s |}
      | _ => None
      end
  | Lose pid =>
      match sys_running s !! pid with
      | Some (Stmt t k) =>
          Some {| sys_db := sys_db s; sys_running := <[pid := k (Err Internal)]> (sys_running s);
                  sys_trace := EStmt pid (sys_db s) (sys_db s) :: sys_trace s |}
      | _ => None
      end
  | Reply pid a =>
      match sys_running s !! pid with
      | Some (Call c k) =>
          if answers c a then
            Some {| sys_db := sys_db s; sys_running := <[pid := k a]> (sys_running s);
                    sys_trace := ECall pid c a :: sys_trace s |}
          else None
      | _ => None
      end
  | Crash => Some {| sys_db := sys_db s; sys_running := ∅; sys_trace := ECrash :: sys_trace s |}
  end.

Fixpoint acts_of (l : list Choice) (s : Sys) : option Sys :=
  match l with
  | [] => Some s
  | c :: l => s' ← act c s; acts_of l s'
  end.

(** The runs of the daemon from database [d]. *)
Inductive run (d : Db) : Sys -> Prop :=
| run_boot : run d (boot d)
| run_act c s s' : run d s → act c s = Some s' → run d s'.

Lemma run_acts d l s s' : run d s → acts_of l s = Some s' → run d s'.
Proof.
  revert s. induction l as [|c l IH]; cbn; intros s Hr Hl; [by simplify_eq|].
  destruct (act c s) as [s1|] eqn:Hc; [cbn in Hl|done].
  apply (IH s1); [by eapply run_act|done].
Qed.

End System.
Arguments Event : clear implicits.
Arguments Sys : clear implicits.
Arguments Choice : clear implicits.
Arguments ECrash {H}.
Arguments Crash {H}.

End Daemon.
