(* ===== verification/LmWallet.v ===== *)
(** * The provider wallet's record of operations
      ([crates/liquidity-manager-daemon/src/wallet.rs])

    Every statement of [wallet.rs] against [wallet_operations] and the balance
    observation, and the gatewayd wallet [GatewaydFundsWallet]. *)

From S2P Require Import Prelude LmSchema LmProg.
From stdpp Require Import base gmap strings list.
From Stdlib Require Import ZArith Lia.
Open Scope Z_scope.

Module Wallet.
Import Ledger Daemon.

(** ** Column updates *)

Definition set_status (s : WalletOperationStatus) (r : WalletOp) : WalletOp :=
  {| wo_type := wo_type r; wo_status := s; wo_federation_id := wo_federation_id r;
     wo_item_id := wo_item_id r; wo_amount := wo_amount r; wo_address := wo_address r;
     wo_txid := wo_txid r; wo_tx_vout := wo_tx_vout r;
     wo_confirmation_count := wo_confirmation_count r; wo_failure := wo_failure r;
     wo_label := wo_label r; wo_fee_rate := wo_fee_rate r; wo_created_at := wo_created_at r;
     wo_updated_at := wo_updated_at r; wo_submitted_at := wo_submitted_at r;
     wo_completed_at := wo_completed_at r; wo_withdrawal_intent_id := wo_withdrawal_intent_id r;
     wo_settled_tick := wo_settled_tick r; wo_released_tick := wo_released_tick r |}.
Definition set_failure (f : option AdminFailure) (r : WalletOp) : WalletOp :=
  {| wo_type := wo_type r; wo_status := wo_status r; wo_federation_id := wo_federation_id r;
     wo_item_id := wo_item_id r; wo_amount := wo_amount r; wo_address := wo_address r;
     wo_txid := wo_txid r; wo_tx_vout := wo_tx_vout r;
     wo_confirmation_count := wo_confirmation_count r; wo_failure := f;
     wo_label := wo_label r; wo_fee_rate := wo_fee_rate r; wo_created_at := wo_created_at r;
     wo_updated_at := wo_updated_at r; wo_submitted_at := wo_submitted_at r;
     wo_completed_at := wo_completed_at r; wo_withdrawal_intent_id := wo_withdrawal_intent_id r;
     wo_settled_tick := wo_settled_tick r; wo_released_tick := wo_released_tick r |}.
(** [txid], [tx_vout], [confirmation_count] and [amount_sats]. *)
Definition set_chain (txid : option string) (vout confirmations : option Z) (amount : Z)
    (r : WalletOp) : WalletOp :=
  {| wo_type := wo_type r; wo_status := wo_status r; wo_federation_id := wo_federation_id r;
     wo_item_id := wo_item_id r; wo_amount := amount; wo_address := wo_address r;
     wo_txid := txid; wo_tx_vout := vout;
     wo_confirmation_count := confirmations; wo_failure := wo_failure r;
     wo_label := wo_label r; wo_fee_rate := wo_fee_rate r; wo_created_at := wo_created_at r;
     wo_updated_at := wo_updated_at r; wo_submitted_at := wo_submitted_at r;
     wo_completed_at := wo_completed_at r; wo_withdrawal_intent_id := wo_withdrawal_intent_id r;
     wo_settled_tick := wo_settled_tick r; wo_released_tick := wo_released_tick r |}.
(** [updated_at], [submitted_at] and [completed_at]. *)
Definition set_times (updated : Z) (submitted completed : option Z) (r : WalletOp) : WalletOp :=
  {| wo_type := wo_type r; wo_status := wo_status r; wo_federation_id := wo_federation_id r;
     wo_item_id := wo_item_id r; wo_amount := wo_amount r; wo_address := wo_address r;
     wo_txid := wo_txid r; wo_tx_vout := wo_tx_vout r;
     wo_confirmation_count := wo_confirmation_count r; wo_failure := wo_failure r;
     wo_label := wo_label r; wo_fee_rate := wo_fee_rate r; wo_created_at := wo_created_at r;
     wo_updated_at := updated; wo_submitted_at := submitted;
     wo_completed_at := completed; wo_withdrawal_intent_id := wo_withdrawal_intent_id r;
     wo_settled_tick := wo_settled_tick r; wo_released_tick := wo_released_tick r |}.
Definition set_intent (i : option string) (r : WalletOp) : WalletOp :=
  {| wo_type := wo_type r; wo_status := wo_status r; wo_federation_id := wo_federation_id r;
     wo_item_id := wo_item_id r; wo_amount := wo_amount r; wo_address := wo_address r;
     wo_txid := wo_txid r; wo_tx_vout := wo_tx_vout r;
     wo_confirmation_count := wo_confirmation_count r; wo_failure := wo_failure r;
     wo_label := wo_label r; wo_fee_rate := wo_fee_rate r; wo_created_at := wo_created_at r;
     wo_updated_at := wo_updated_at r; wo_submitted_at := wo_submitted_at r;
     wo_completed_at := wo_completed_at r; wo_withdrawal_intent_id := i;
     wo_settled_tick := wo_settled_tick r; wo_released_tick := wo_released_tick r |}.
Definition set_ticks (settled released : option Z) (r : WalletOp) : WalletOp :=
  {| wo_type := wo_type r; wo_status := wo_status r; wo_federation_id := wo_federation_id r;
     wo_item_id := wo_item_id r; wo_amount := wo_amount r; wo_address := wo_address r;
     wo_txid := wo_txid r; wo_tx_vout := wo_tx_vout r;
     wo_confirmation_count := wo_confirmation_count r; wo_failure := wo_failure r;
     wo_label := wo_label r; wo_fee_rate := wo_fee_rate r; wo_created_at := wo_created_at r;
     wo_updated_at := wo_updated_at r; wo_submitted_at := wo_submitted_at r;
     wo_completed_at := wo_completed_at r; wo_withdrawal_intent_id := wo_withdrawal_intent_id r;
     wo_settled_tick := settled; wo_released_tick := released |}.

(** [COALESCE(a, b)]. *)
Definition coalesce {A} (a b : option A) : option A := match a with Some _ => a | None => b end.

(** ** Vocabularies *)

(** [OUTGOING_OPERATION_TYPES]. *)
Definition outgoing_operation_types : list WalletOperationType :=
  [Withdrawal; GatewayFunding; StabilityPoolFunding].
(** [PENDING_SETTLEMENT_STATUSES]. *)
Definition pending_settlement_statuses : list WalletOperationStatus :=
  [OpPending; OpBroadcast; OpConfirmed; OpInDoubt; OpManualReviewRequired].
(** [RESERVING_ITEM_STATUSES] and [ACTIVE_ITEM_STATUSES] of
    [allocation_store.rs]. *)
Definition reserving_item_statuses : list ItemAllocationStatus :=
  [ItemPending; ItemRunning; ItemActionRequired].
Definition active_item_statuses : list ItemAllocationStatus := [ItemPending; ItemRunning].

Definition synced_status (s : SyncedWalletStatus) : WalletOperationStatus :=
  match s with
  | SyncBroadcast => OpBroadcast
  | SyncConfirmed => OpConfirmed
  | SyncCompleted => OpCompleted
  end.

(** ** The gatewayd wallet *)

Definition bitcoin_network_to_domain (n : Network) : BitcoinNetwork :=
  match n with
  | NetBitcoin => Bitcoin
  | NetTestnet | NetTestnet4 => Testnet
  | NetSignet => Signet
  | NetRegtest => Regtest
  end.

(** [WalletBackendBalance]. *)
Record WalletBackendBalance := {
  wb_network : BitcoinNetwork;
  wb_spendable : Z;
  wb_observed_at : Z
}.

(** [GatewaydFundsWallet::network]. *)
Definition wallet_network : Prog (res string BitcoinNetwork) :=
  info ← call_info GetInfo;
  mret (match info with
        | Ok (Connected network synced) =>
            if synced then Ok (bitcoin_network_to_domain network)
            else Err "gatewayd lightning node is not synced to chain"
        | Ok NotConnected => Err "gatewayd lightning node is not connected"
        | Err e => Err e
        | Panic => Panic
        end).

(** [GatewaydFundsWallet::balance_summary]. *)
Definition balance_summary : Prog (res string WalletBackendBalance) :=
  network ← wallet_network;
  match network with
  | Ok network =>
      balances ← call_amount GetBalances;
      match balances with
      | Ok onchain =>
          now ← call_time Now;
          mret (Ok {| wb_network := network; wb_spendable := onchain; wb_observed_at := now |})
      | Err e => mret (Err e)
      | Panic => mret Panic
      end
  | Err e => mret (Err e)
  | Panic => mret Panic
  end.

(** [GatewaydFundsWallet::allocate_deposit_address]. *)
Definition allocate_deposit_address (network : BitcoinNetwork) : Prog (res string string) :=
  address ← call_text GetOnchainAddress;
  match address with
  | Ok address =>
      ok ← call_unit (ParseAddress address network);
      mret (match ok with Ok _ => Ok address | Err e => Err e | Panic => Panic end)
  | _ => mret address
  end.

(** [GatewaydFundsWallet::prepare_withdrawal]. *)
Definition prepare_withdrawal (network : BitcoinNetwork) (operation_id address : string)
    (amount fee_rate : Z) : Prog (res string PreparedWithdrawal) :=
  if amount =? 0 then mret (Err "withdrawal amount must be greater than zero")
  else
    ok ← call_unit (ParseAddress address network);
    mret (match ok with
          | Ok _ => Ok {| pw_operation_id := operation_id; pw_address := address;
                          pw_amount := amount; pw_fee_rate := fee_rate |}
          | Err e => Err e
          | Panic => Panic
          end).

(** [SubmitWithdrawalError]. *)
Inductive SubmitWithdrawalError := SubmitFailed (detail : string) | SubmitInDoubt (detail : string).

(** [GatewaydFundsWallet::submit_prepared_withdrawal]: every error is in
    doubt. *)
Definition submit_prepared_withdrawal (prepared : PreparedWithdrawal)
    : Prog (res SubmitWithdrawalError string) :=
  r ← call_text (SendOnchain prepared);
  mret (match r with
        | Ok txid => Ok txid
        | Err e => Err (SubmitInDoubt e)
        | Panic => Panic
        end).

(** ** Inserting an operation *)

(** [WalletOperationInput]. *)
Record WalletOperationInput := {
  wi_operation_id : string;
  wi_type : WalletOperationType;
  wi_status : WalletOperationStatus;
  wi_amount : Z;
  wi_address : option string;
  wi_label : option string;
  wi_fee_rate : option Z;
  wi_federation_id : option string;
  wi_item_id : option string
}.

Definition u64_to_i64 (value : Z) : res ServiceErrorCode Z :=
  ok_or InvalidArgument (try_from_u i64_max value).

(** [insert_wallet_operation_tx]. *)
Definition insert_wallet_operation_tx (input : WalletOperationInput) (now : Z) : LmTx unit :=
  amount ← tx_lift (to_i64_sats (wi_amount input));
  fee_rate ← tx_lift (transpose_map u64_to_i64 (wi_fee_rate input));
  insert_operation (wi_operation_id input)
    {| wo_type := wi_type input; wo_status := wi_status input;
       wo_federation_id := wi_federation_id input; wo_item_id := wi_item_id input;
       wo_amount := amount; wo_address := wi_address input; wo_txid := None;
       wo_tx_vout := None; wo_confirmation_count := None; wo_failure := None;
       wo_label := wi_label input; wo_fee_rate := fee_rate; wo_created_at := now;
       wo_updated_at := now; wo_submitted_at := None; wo_completed_at := None;
       wo_withdrawal_intent_id := None; wo_settled_tick := None; wo_released_tick := None |}.

(** [bind_operator_withdrawal_intent_tx]. *)
Definition bind_operator_withdrawal_intent_tx (operation_id intent : string) (now : Z)
    : LmTx unit :=
  rows ← update_operation_indexed operation_id
           (λ r, bool_decide (wo_status r = OpInDoubt))
           (λ r, set_times now (Some now) (wo_completed_at r) (set_intent (Some intent) r));
  if rows =? 1 then mret tt else tx_err FailedPrecondition.

(** [OperatorWithdrawalIntent]. *)
Record OperatorWithdrawalIntent := {
  ow_operation_id : string;
  ow_address : string;
  ow_amount : Z;
  ow_fee_rate : Z
}.

(** [operator_withdrawal_from_row]: NULL or negative columns are errors. *)
Definition operator_withdrawal_from_row (kr : string * WalletOp)
    : res ServiceErrorCode OperatorWithdrawalIntent :=
  address ← ok_or Internal (wo_address kr.2);
  amount ← ok_or Internal (try_from_u u64_max (wo_amount kr.2));
  fee ← ok_or Internal (wo_fee_rate kr.2);
  fee ← ok_or Internal (try_from_u u64_max fee);
  Ok {| ow_operation_id := kr.1; ow_address := address; ow_amount := amount;
        ow_fee_rate := fee |}.

(** The first row of [SELECT .. FROM wallet_operations WHERE p]. *)
Definition find_operation (p : string -> WalletOp -> bool) (d : Db) : option (string * WalletOp) :=
  head (filter (λ kr, p kr.1 kr.2 = true) (map_to_list (operations d))).

(** [operator_withdrawal_for_intent_tx]. *)
Definition operator_withdrawal_for_intent_tx (intent : string)
    : LmTx (option OperatorWithdrawalIntent) := fun d =>
  r ← transpose_map operator_withdrawal_from_row
        (find_operation (λ _ r, bool_decide (wo_withdrawal_intent_id r = Some intent)) d);
  Ok (d, r).

(** ** Reading operations *)

(** [wallet_operation_from_row]: the [max(0) as u64] and [as u32] of the
    numeric columns. *)
Definition wallet_operation_from_row (r : WalletOp) : WalletOp :=
  set_chain (wo_txid r)
    ((λ v, Z.max 0 v mod 2 ^ 32) <$> wo_tx_vout r)
    ((λ v, Z.max 0 v mod 2 ^ 32) <$> wo_confirmation_count r)
    (Z.max 0 (wo_amount r)) r.

(** [get_wallet_operation]. *)
Definition get_operation_tx (operation_id : string) : LmTx WalletOp := fun d =>
  match operations d !! operation_id with
  | Some r => Ok (d, wallet_operation_from_row r)
  | None => Err NotFound
  end.
Definition get_wallet_operation (operation_id : string) : Prog WalletOp :=
  stmt (λ _, get_operation_tx operation_id).

(** [wallet_operation_for_item_tx]; the unique index leaves at most one row to
    order. *)
Definition wallet_operation_for_item_tx (ty : WalletOperationType) (item_id : string)
    : LmTx (option (string * WalletOp)) := fun d =>
  Ok (d, prod_map id wallet_operation_from_row <$>
           find_operation (λ _ r, bool_decide (wo_type r = ty) &&
                                  bool_decide (wo_item_id r = Some item_id)) d).

(** [active_wallet_operations]. *)
Definition active_wallet_operations : LmTx (list (string * WalletOp)) := fun d =>
  Ok (d, prod_map id wallet_operation_from_row <$>
           select_ordered wo_updated_at
             (λ _ r, in_list pending_settlement_statuses (wo_status r)) (operations d)).

(** ** Outcomes of a send *)

(** [mark_withdrawal_broadcast]. *)
Definition mark_withdrawal_broadcast (operation_id txid : string) : Prog WalletOp :=
  stmt (λ now,
    update_operation operation_id
      (λ r, in_list [OpPending; OpInDoubt; OpBroadcast; OpConfirmed] (wo_status r))
      (λ r, set_status OpBroadcast (set_failure None
              (set_chain (match wo_tx_vout r with None => Some txid | Some _ => wo_txid r end)
                 (wo_tx_vout r) (wo_confirmation_count r) (wo_amount r)
                 (set_times now (coalesce (wo_submitted_at r) (Some now)) (wo_completed_at r) r)))));;
  get_wallet_operation operation_id.

(** The failure a wallet outcome records. *)
Definition wallet_failure (code message : string) (now : Z) : AdminFailure :=
  {| af_code := code; af_message := message; af_occurred_at := now;
     af_federation_id := None; af_item_id := None |}.

(** [mark_operation_in_doubt]. *)
Definition mark_operation_in_doubt (operation_id detail : string) : Prog WalletOp :=
  at_ ← call_time Now;
  stmt (λ now,
    update_operation operation_id
      (λ r, in_list [OpPending; OpInDoubt] (wo_status r))
      (λ r, set_status OpInDoubt (set_failure (Some (wallet_failure "in_doubt" detail at_))
              (set_times now (coalesce (wo_submitted_at r) (Some now)) (wo_completed_at r) r))));;
  get_wallet_operation operation_id.

(** [mark_operation_failed]. *)
Definition mark_operation_failed (operation_id detail : string) : Prog WalletOp :=
  at_ ← call_time Now;
  stmt (λ now,
    update_operation operation_id
      (λ r, in_list [OpPending; OpInDoubt] (wo_status r))
      (λ r, set_status OpFailed
              (set_failure (Some (wallet_failure "wallet_submission_failed" detail at_))
                 (set_times now (wo_submitted_at r) (wo_completed_at r) r))));;
  get_wallet_operation operation_id.

(** [escalate_in_doubt_to_manual_review]. *)
Definition escalate_in_doubt_to_manual_review (operation_id : string) (review_after_secs : Z)
    (detail : string) : Prog bool :=
  at_ ← call_time Now;
  after ← lift (u64_to_i64 review_after_secs);
  rows ← stmt (λ now,
    update_operation operation_id
      (λ r, bool_decide (wo_status r = OpInDoubt) &&
            (default (wo_updated_at r) (wo_submitted_at r) <=? now - after))
      (λ r, set_status OpManualReviewRequired
              (set_failure (Some (wallet_failure "manual_review_required" detail at_))
                 (set_times now (wo_submitted_at r) (wo_completed_at r) r))));
  mret (0 <? rows).

(** [ManualReviewOutcome]. *)
Inductive ManualReviewOutcome :=
| ReviewCompleted (txid : string)
| ReviewFailed (reason : string)
| ReviewSafeToRetry.

(** [resolve_manual_review_tx]; [at_] is [now_timestamp()] of the failure. *)
Definition resolve_manual_review_tx (operation_id : string) (resolution : ManualReviewOutcome)
    (at_ now : Z) : LmTx bool :=
  let under_review r := bool_decide (wo_status r = OpManualReviewRequired) in
  rows ← match resolution with
    | ReviewCompleted txid =>
        t ← tx_get tick;
        update_operation_indexed operation_id under_review
          (λ r, set_status OpCompleted (set_failure None
                  (set_chain (Some txid) (wo_tx_vout r) (wo_confirmation_count r) (wo_amount r)
                     (set_ticks (coalesce (wo_settled_tick r) (Some t)) (wo_released_tick r)
                        (set_times now (wo_submitted_at r) (Some now) r)))))
    | ReviewFailed reason =>
        update_operation operation_id under_review
          (λ r, set_status OpFailed
                  (set_failure (Some (wallet_failure "manual_review_failed" reason at_))
                     (set_times now (wo_submitted_at r) (wo_completed_at r) r)))
    | ReviewSafeToRetry =>
        update_operation operation_id under_review
          (λ r, set_status OpPending (set_failure None
                  (set_chain None None None (wo_amount r)
                     (set_times now None None r))))
    end;
  mret (0 <? rows).

(** [reset_wallet_operation_tx]. *)
Definition reset_wallet_operation_tx (operation_id : string) (now : Z) : LmTx unit :=
  update_operation operation_id (λ _, true)
    (λ r, set_status OpPending (set_failure None
            (set_chain None None None (wo_amount r)
               (set_ticks None None (set_times now None None r)))));;
  mret tt.

(** [cancel_wallet_operation_tx]. *)
Definition cancel_wallet_operation_tx (operation_id reason : string) (at_ now : Z) : LmTx unit :=
  update_operation operation_id (λ _, true)
    (λ r, set_status OpCancelled (set_failure (Some (wallet_failure "cancelled" reason at_))
            (set_times now (wo_submitted_at r) (wo_completed_at r) r)));;
  mret tt.

(** [apply_sync_update]. *)
Definition apply_sync_update (sync : WalletOperationSync) : Prog WalletOp :=
  at_ ← call_time Now;
  amount ← lift (transpose_map to_i64_sats (sy_amount sync));
  let status := synced_status (sy_status sync) in
  let settles := negb (in_list pending_settlement_statuses status) in
  stmt (λ now,
    t ← tx_get tick;
    update_operation (sy_operation_id sync)
      (λ r, in_list [OpPending; OpInDoubt; OpBroadcast; OpConfirmed] (wo_status r))
      (λ r, set_status status
              (set_failure (match sy_detail sync with
                            | None => wo_failure r
                            | Some detail => Some (wallet_failure "wallet_sync" detail at_)
                            end)
              (set_chain (match wo_tx_vout r with
                          | None => coalesce (sy_txid sync) (wo_txid r)
                          | Some _ => wo_txid r
                          end)
                 (wo_tx_vout r) (coalesce (sy_confirmation_count sync) (wo_confirmation_count r))
                 (default (wo_amount r) amount)
              (set_ticks (if settles && bool_decide (wo_settled_tick r = None) then Some t
                          else wo_settled_tick r) (wo_released_tick r)
              (set_times now (wo_submitted_at r)
                 (match sy_status sync with
                  | SyncCompleted => coalesce (wo_completed_at r) (Some now)
                  | _ => wo_completed_at r
                  end) r))))));;
  get_wallet_operation (sy_operation_id sync).

(** ** Chain evidence *)

(** [ChainEvidenceClaim]. *)
Inductive ChainEvidenceClaim :=
| EvidenceApplied (r : WalletOp)
| EvidenceNoMatch
| EvidenceAmbiguous (candidate_count : nat).

(** Whether an output is evidence for the operation, the candidates so far
    being [seen]. *)
Definition output_matches (r : WalletOp) (expected : string) (seen : list ChainOutput)
    (o : ChainOutput) : bool :=
  bool_decide (co_address o = Some expected) &&
  negb (co_amount o =? 0) &&
  ((wo_amount r =? 0) || (co_amount o =? wo_amount r)) &&
  (match wo_txid r with Some txid => bool_decide (txid = co_txid o) | None => true end) &&
  (match wo_tx_vout r with Some vout => vout =? co_vout o | None => true end) &&
  negb (existsb (λ c, bool_decide (co_txid c = co_txid o) && (co_vout c =? co_vout o)) seen).

(** [SELECT operation_id FROM wallet_operations WHERE txid = ? AND tx_vout = ?]. *)
Definition outpoint_owner (o : ChainOutput) (d : Db) : option string :=
  fst <$> find_operation (λ _ r, bool_decide (wo_txid r = Some (co_txid o)) &&
                                 bool_decide (wo_tx_vout r = Some (co_vout o))) d.

(** The loop over the observed outputs. *)
Fixpoint candidates (d : Db) (operation_id : string) (r : WalletOp) (expected : string)
    (seen : list ChainOutput) (outputs : list ChainOutput) : list ChainOutput :=
  match outputs with
  | [] => seen
  | o :: outputs =>
      if output_matches r expected seen o &&
         match outpoint_owner o d with
         | None => true
         | Some owner => bool_decide (owner = operation_id)
         end
      then candidates d operation_id r expected (seen ++ [o]) outputs
      else candidates d operation_id r expected seen outputs
  end.

Definition evidence_status (o : ChainOutput) (required_confirmations : Z) : SyncedWalletStatus :=
  if required_confirmations <=? co_confirmations o then SyncCompleted
  else if 0 <? co_confirmations o then SyncConfirmed
  else SyncBroadcast.

(** [claim_chain_evidence]. *)
Definition claim_chain_evidence_tx (operation_id : string) (outputs : list ChainOutput)
    (required_confirmations : Z) (now : Z) : LmTx ChainEvidenceClaim :=
  r ← get_operation_tx operation_id;
  if negb (in_list pending_settlement_statuses (wo_status r)) ||
     bool_decide (wo_status r = OpManualReviewRequired) then mret EvidenceNoMatch
  else match wo_address r with
  | None => mret EvidenceNoMatch
  | Some expected =>
      found ← tx_get (λ d, candidates d operation_id r expected [] outputs);
      match found with
      | [] => mret EvidenceNoMatch
      | [o] =>
          let status := evidence_status o required_confirmations in
          let settles := match status with SyncCompleted => true | _ => false end in
          amount ← tx_lift (ok_or Internal (try_from_u i64_max (co_amount o)));
          t ← tx_get tick;
          rows ← update_operation_indexed operation_id
            (λ r, in_list [OpPending; OpInDoubt; OpBroadcast; OpConfirmed] (wo_status r) &&
                  (match wo_txid r with Some x => bool_decide (x = co_txid o) | None => true end) &&
                  (match wo_tx_vout r with Some v => v =? co_vout o | None => true end))
            (λ r, set_status (synced_status status)
                    (set_chain (Some (co_txid o)) (Some (co_vout o)) (Some (co_confirmations o))
                       (if wo_amount r =? 0 then amount else wo_amount r)
                    (set_ticks (if settles && bool_decide (wo_settled_tick r = None) then Some t
                                else wo_settled_tick r) (wo_released_tick r)
                    (set_times now (wo_submitted_at r)
                       (if settles then coalesce (wo_completed_at r) (Some now)
                        else wo_completed_at r) r))));
          if rows =? 1 then
            r' ← get_operation_tx operation_id;
            mret (EvidenceApplied r')
          else mret EvidenceNoMatch
      | _ => mret (EvidenceAmbiguous (length found))
      end
  end.
Definition claim_chain_evidence (operation_id : string) (outputs : list ChainOutput)
    (required_confirmations : Z) : Prog ChainEvidenceClaim :=
  stmt (claim_chain_evidence_tx operation_id outputs required_confirmations).

(** ** Capacity *)

(** [SELECT item_id FROM allocation_items WHERE status IN (reserving)]. *)
Definition item_reserving (d : Db) (item_id : string) : bool :=
  match items d !! item_id with
  | Some i => in_list reserving_item_statuses (it_status i)
  | None => false
  end.

(** [active_reserved_amount_tx]. *)
Definition reserved_of (_ : string) (i : Item) : option Z :=
  if in_list reserving_item_statuses (it_status i) then Some (it_reserved_amount i) else None.
Definition active_reserved_amount_tx : LmTx Z := fun d =>
  amount ← sql_sum reserved_of (items d);
  Ok (d, Z.max 0 amount).

(** [stamp_released_item_operations_tx]. *)
Definition stamp_released (d : Db) (r : WalletOp) : WalletOp :=
  match wo_released_tick r, wo_settled_tick r, wo_item_id r with
  | None, Some _, Some item_id =>
      if in_list outgoing_operation_types (wo_type r) && negb (item_reserving d item_id)
      then set_ticks (wo_settled_tick r) (Some (tick d)) r else r
  | _, _, _ => r
  end.
Definition stamp_released_item_operations_tx : LmTx unit := fun d =>
  Ok (set_operations (fmap (stamp_released d)) d, tt).

(** The [WHERE] clause of [active_wallet_withdrawal_amount_tx]. *)
Definition charged (d : Db) (r : WalletOp) : bool :=
  in_list outgoing_operation_types (wo_type r) &&
  (in_list pending_settlement_statuses (wo_status r) ||
   match wo_settled_tick r, observation d with
   | Some settled, Some o => bo_read_tick o <=? default settled (wo_released_tick r)
   | _, _ => false
   end) &&
  match wo_item_id r with None => true | Some item_id => negb (item_reserving d item_id) end.
Definition charge_of (d : Db) (_ : string) (r : WalletOp) : option Z :=
  if charged d r then Some (wo_amount r) else None.

(** [active_wallet_withdrawal_amount_tx]. *)
Definition active_wallet_withdrawal_amount_tx : LmTx Z :=
  stamp_released_item_operations_tx;;
  (fun d => amount ← sql_sum (charge_of d) (operations d); Ok (d, Z.max 0 amount)).

(** [sum_wallet_operations] and [wallet_accounting_sums]. *)
Definition sum_wallet_operations (types : list WalletOperationType)
    (statuses : list WalletOperationStatus) : LmTx Z := fun d =>
  amount ← sql_sum (λ _ r, if in_list types (wo_type r) && in_list statuses (wo_status r)
                           then Some (wo_amount r) else None) (operations d);
  Ok (d, Z.max 0 amount).
Record WalletAccountingSums := {
  ws_pending_incoming : Z;
  ws_pending_outgoing : Z;
  ws_in_flight_allocations : Z
}.
Definition wallet_accounting_sums : Prog WalletAccountingSums :=
  incoming ← stmt (λ _, sum_wallet_operations [Deposit] pending_settlement_statuses);
  outgoing ← stmt (λ _, sum_wallet_operations [Withdrawal] pending_settlement_statuses);
  in_flight ← stmt (λ _, active_reserved_amount_tx);
  mret {| ws_pending_incoming := incoming; ws_pending_outgoing := outgoing;
          ws_in_flight_allocations := in_flight |}.

(** ** Balance observations *)

(** [begin_balance_read]. *)
Definition begin_balance_read_tx : LmTx Z := fun d => Ok (set_tick (tick d + 1) d, tick d + 1).
Definition begin_balance_read : Prog Z := stmt (λ _, begin_balance_read_tx).

(** [upsert_wallet_balance_observation]. *)
Definition upsert_wallet_balance_observation_tx (balance : WalletBackendBalance) (read_at : Z)
    : LmTx unit :=
  spendable ← tx_lift (to_i64_sats (wb_spendable balance));
  observed_at ← tx_lift (ok_or InvalidArgument (try_from_u i64_max (wb_observed_at balance)));
  let row := {| bo_network := wb_network balance; bo_spendable := spendable;
                bo_observed_at := observed_at; bo_read_tick := read_at |} in
  o ← tx_get observation;
  match o with
  | None => tx_put (set_observation (Some row))
  | Some o => if bo_read_tick o <=? read_at then tx_put (set_observation (Some row))
              else mret tt
  end.
Definition upsert_wallet_balance_observation (balance : WalletBackendBalance) (read_at : Z)
    : Prog unit :=
  stmt (λ _, upsert_wallet_balance_observation_tx balance read_at).

(** [latest_wallet_balance_observation_tx]. *)
Definition latest_wallet_balance_observation_tx : LmTx (option BalanceObservation) :=
  tx_get (λ d,
    (λ o, {| bo_network := bo_network o; bo_spendable := Z.max 0 (bo_spendable o);
             bo_observed_at := Z.max 0 (bo_observed_at o); bo_read_tick := bo_read_tick o |})
    <$> observation d).

End Wallet.
