(* ===== verification/LmAllocations.v ===== *)
(** * Allocations and their items
      ([crates/liquidity-manager-daemon/src/allocation_store.rs])

    The rows the funding workers advance: accepting an allocation, releasing an
    idle one, the guarded item transitions and the provider-deposit progress
    inside a stability-pool step. *)

From S2P Require Import Prelude LmSchema LmProg LmWallet.
From stdpp Require Import base gmap strings list.
From Stdlib Require Import ZArith Lia.
Open Scope Z_scope.

Module Allocations.
Import Ledger Daemon Wallet.

(** ** Provider-deposit progress *)

(** [SpDepositStatus::rank]. *)
Definition rank (s : SpDepositStatus) : option Z :=
  match s with
  | SpSubmitting => Some 0
  | SpInitiated => Some 1
  | SpTxAccepted => Some 2
  | SpSuccess => Some 3
  | SpUnknown _ => None
  end.

(** [SpDepositStatus::as_str] and [From<String>]. *)
Definition sp_as_str (s : SpDepositStatus) : string :=
  match s with
  | SpSubmitting => "submitting"
  | SpInitiated => "initiated"
  | SpTxAccepted => "tx_accepted"
  | SpSuccess => "success"
  | SpUnknown value => value
  end.
Definition sp_from_string (value : string) : SpDepositStatus :=
  if bool_decide (value = "submitting") then SpSubmitting
  else if bool_decide (value = "initiated") then SpInitiated
  else if bool_decide (value = "tx_accepted") then SpTxAccepted
  else if bool_decide (value = "success") then SpSuccess
  else SpUnknown value.

Definition set_sp_deposit (operation_id : option string) (status : option SpDepositStatus)
    (amount fee : option Z) (s : StabilityStep) : StabilityStep :=
  {| ss_target_client_opened_at := ss_target_client_opened_at s;
     ss_peg_in_operation_id := ss_peg_in_operation_id s;
     ss_peg_in_address := ss_peg_in_address s;
     ss_wallet_operation_id := ss_wallet_operation_id s;
     ss_peg_in_status := ss_peg_in_status s; ss_peg_in_amount := ss_peg_in_amount s;
     ss_sp_deposit_status := status; ss_sp_deposit_operation_id := operation_id;
     ss_sp_deposit_amount := amount; ss_sp_deposit_min_fee_rate_ppb := fee;
     ss_observed_provided_amount := ss_observed_provided_amount s |}.

(** [advance_sp_deposit_status]: the step after, and whether the write landed. *)
Definition advance_sp_deposit_status (s : StabilityStep) (operation_id : string)
    (status : SpDepositStatus) : StabilityStep * bool :=
  let same_deposit := bool_decide (ss_sp_deposit_operation_id s = Some operation_id) in
  let goes_back := match ss_sp_deposit_status s ≫= rank, rank status with
                   | Some current, Some next => next <? current
                   | _, _ => false
                   end in
  if same_deposit && goes_back then (s, false)
  else (set_sp_deposit (Some operation_id) (Some status) (ss_sp_deposit_amount s)
          (ss_sp_deposit_min_fee_rate_ppb s) s, true).

(** ** What an allocation holds *)

(** [AllocationHolding] and [is_idle]. *)
Record AllocationHolding := {
  ah_reserving_items : Z;
  ah_pending_operations : Z;
  ah_fulfilled_sats : Z
}.
Definition is_idle (h : AllocationHolding) : bool :=
  (ah_reserving_items h =? 0) && (ah_pending_operations h =? 0) && (ah_fulfilled_sats h =? 0).

(** Whether an operation is tied to the federation, through either link
    column. *)
Definition op_of_federation (d : Db) (federation_id : string) (r : WalletOp) : bool :=
  bool_decide (wo_federation_id r = Some federation_id) ||
  match wo_item_id r with
  | Some i => match items d !! i with
              | Some row => bool_decide (it_federation_id row = federation_id)
              | None => false
              end
  | None => false
  end.

(** [allocation_holding_tx]. *)
Definition allocation_holding_tx (federation_id : string) : LmTx AllocationHolding := fun d =>
  let reserving := count_rows (λ _ i, bool_decide (it_federation_id i = federation_id) &&
                                      in_list reserving_item_statuses (it_status i)) (items d) in
  let pending := count_rows (λ _ r, op_of_federation d federation_id r &&
                                    in_list pending_settlement_statuses (wo_status r))
                   (operations d) in
  fulfilled ← sql_sum (λ _ i, if bool_decide (it_federation_id i = federation_id)
                              then it_fulfilled_amount i else None) (items d);
  Ok (d, {| ah_reserving_items := reserving; ah_pending_operations := pending;
            ah_fulfilled_sats := fulfilled |}).

(** [AllocationReleaseOutcome]. *)
Inductive AllocationReleaseOutcome :=
| Released (previous_requester : string)
| ReleaseNotFound
| Held (h : AllocationHolding).

(** [release_allocation_tx]. *)
Definition release_allocation_tx (federation_id : string) : LmTx AllocationReleaseOutcome :=
  row ← tx_get (λ d, allocations d !! federation_id);
  match row with
  | None => mret ReleaseNotFound
  | Some row =>
      holding ← allocation_holding_tx federation_id;
      if negb (is_idle holding) then mret (Held holding)
      else
        tx_put (set_items (filter (λ kv, it_federation_id kv.2 ≠ federation_id)));;
        tx_put (set_allocations (delete federation_id));;
        mret (Released (al_requester_pubkey row))
  end.

(** ** Accepting an allocation *)

(** [item_id]. *)
Definition source_str (s : SourceType) : string :=
  match s with Gateway => "gateway" | StabilityPool => "stability_pool" end.
Definition item_id (federation_id : string) (s : SourceType) : string :=
  federation_id +:+ ":" +:+ source_str s.

(** [PlannedItem]. *)
Record PlannedItem := {
  pi_item_id : string;
  pi_source_type : SourceType;
  pi_target : AllocationItemTarget;
  pi_amount : Z;
  pi_reserved_amount : Z
}.

(** [LiquidityAmountBounds] and the fields of [RequestLiquidityRequest] the
    daemon reads. *)
Record LiquidityAmountBounds := {
  ab_gateway_min_amount : Z;
  ab_gateway_max_amount : option Z;
  ab_stability_min_amount : Z;
  ab_stability_max_amount : option Z
}.
Record RequestLiquidityRequest := {
  rq_version : Z;
  rq_requester_pubkey : string;
  rq_provider_pubkey : string;
  rq_issued_at : Z;
  rq_network : BitcoinNetwork;
  rq_amounts : LiquidityAmountBounds;
  rq_details_payload_hash : string;
  rq_federation_id : string;
  rq_federation_name : string;
  rq_invite_code : string;
  rq_federation_config_hash : string;
  rq_expires_at : Z
}.

(** Whether [INSERT OR IGNORE INTO allocations] is ignored: the primary key or
    the unique details hash is taken. *)
Definition allocation_conflicts (federation_id details_hash : string) (d : Db) : bool :=
  bool_decide (is_Some (allocations d !! federation_id)) ||
  bool_decide (map_Exists (λ _ a, al_details_payload_hash a = details_hash) (allocations d)).

(** [INSERT INTO allocation_items]: the primary key and the unique
    (federation, source) index. *)
Definition insert_item (id : string) (i : Item) : LmTx unit := fun d =>
  if bool_decide (is_Some (items d !! id)) ||
     bool_decide (map_Exists (λ _ j, it_federation_id j = it_federation_id i ∧
                                     it_source_type j = it_source_type i) (items d))
  then Err Internal else Ok (set_items <[id := i]> d, tt).

Definition planned_row (federation_id : string) (p : PlannedItem) (committed reserved now : Z) : Item :=
  {| it_federation_id := federation_id; it_source_type := pi_source_type p;
     it_status := ItemPending; it_committed_amount := committed; it_target := pi_target p;
     it_failure := None; it_created_at := now; it_updated_at := now;
     it_reserved_amount := reserved; it_step := None; it_fulfilled_amount := None;
     it_completion_evidence := None |}.

(** [insert_allocation]. *)
Definition insert_allocation (request : RequestLiquidityRequest)
    (request_json verification_json : string) (committed_amount reserved_amount : Z)
    (planned : list PlannedItem) (now : Z) : LmTx bool :=
  let federation_id := rq_federation_id request in
  let target := {| ft_federation_id := federation_id;
                   ft_federation_name := rq_federation_name request;
                   ft_invite_code := rq_invite_code request;
                   ft_federation_config_hash := rq_federation_config_hash request |} in
  committed ← tx_lift (to_i64_sats committed_amount);
  reserved ← tx_lift (to_i64_sats reserved_amount);
  conflict ← tx_get (allocation_conflicts federation_id (rq_details_payload_hash request));
  if conflict : bool then mret false
  else
    tx_put (set_allocations <[federation_id :=
      {| al_requester_pubkey := rq_requester_pubkey request;
         al_provider_pubkey := rq_provider_pubkey request; al_network := rq_network request;
         al_details_payload_hash := rq_details_payload_hash request;
         al_request_json := request_json; al_verification_json := verification_json;
         al_target := target; al_committed_amount := committed; al_reserved_amount := reserved;
         al_created_at := now; al_updated_at := now |}]>);;
    tx_for planned (λ p,
      amount ← tx_lift (to_i64_sats (pi_amount p));
      reserve ← tx_lift (to_i64_sats (pi_reserved_amount p));
      insert_item (pi_item_id p) (planned_row federation_id p amount reserve now));;
    mret true.

(** ** Reading items *)

(** [GatewayAllocationItem] and [StabilityPoolAllocationItem]. *)
Record GatewayItem := {
  gi_item_id : string;
  gi_federation_id : string;
  gi_target : FundingTarget;
  gi_committed_amount : Z;
  gi_reserved_amount : Z;
  gi_status : ItemAllocationStatus;
  gi_step : GatewayStep
}.
Record StabilityItem := {
  si_item_id : string;
  si_federation_id : string;
  si_target : FundingTarget;
  si_committed_amount : Z;
  si_reserved_amount : Z;
  si_status : ItemAllocationStatus;
  si_step : StabilityStep;
  si_corrupt_step_json : option string
}.

Definition default_gateway_step : GatewayStep :=
  {| gs_gateway_connected := false; gs_deposit_address := None; gs_wallet_operation_id := None;
     gs_attribution_overdue_since := None |}.
Definition default_stability_step : StabilityStep :=
  {| ss_target_client_opened_at := None; ss_peg_in_operation_id := None;
     ss_peg_in_address := None; ss_wallet_operation_id := None; ss_peg_in_status := None;
     ss_peg_in_amount := None; ss_sp_deposit_status := None; ss_sp_deposit_operation_id := None;
     ss_sp_deposit_amount := None; ss_sp_deposit_min_fee_rate_ppb := None;
     ss_observed_provided_amount := None |}.

(** [gateway_item_from_row]: an unreadable step is an error. *)
Definition gateway_item_from_row (a : Allocation) (kr : string * Item)
    : res ServiceErrorCode GatewayItem :=
  step ← match it_step kr.2 with
         | None => Ok default_gateway_step
         | Some (AGatewayStep s) => Ok s
         | Some _ => Err Internal
         end;
  Ok {| gi_item_id := kr.1; gi_federation_id := it_federation_id kr.2; gi_target := al_target a;
        gi_committed_amount := Z.max 0 (it_committed_amount kr.2);
        gi_reserved_amount := Z.max 0 (it_reserved_amount kr.2);
        gi_status := it_status kr.2; gi_step := step |}.

(** [stability_pool_item_from_row]: an unreadable step is kept raw. *)
Definition stability_pool_item_from_row (a : Allocation) (kr : string * Item) : StabilityItem :=
  let '(step, corrupt) := match it_step kr.2 with
                          | None => (default_stability_step, None)
                          | Some (AStabilityStep s) => (s, None)
                          | Some (UnreadableStep raw) => (default_stability_step, Some raw)
                          | Some (AGatewayStep _) => (default_stability_step, Some "gateway step")
                          end in
  {| si_item_id := kr.1; si_federation_id := it_federation_id kr.2; si_target := al_target a;
     si_committed_amount := Z.max 0 (it_committed_amount kr.2);
     si_reserved_amount := Z.max 0 (it_reserved_amount kr.2);
     si_status := it_status kr.2; si_step := step; si_corrupt_step_json := corrupt |}.

(** Items joined with their allocation. *)
Definition joined (d : Db) (l : list (string * Item)) : list (Allocation * (string * Item)) :=
  omap (λ kr, (λ a, (a, kr)) <$> allocations d !! it_federation_id kr.2) l.

(** [active_gateway_items]. *)
Definition active_item_rows (source : SourceType) (d : Db) : list (Allocation * (string * Item)) :=
  joined d (select_ordered it_updated_at
              (λ _ i, bool_decide (it_source_type i = source) &&
                      in_list active_item_statuses (it_status i)) (items d)).
Definition active_gateway_items : LmTx (list GatewayItem) := fun d =>
  l ← collect (λ x, gateway_item_from_row x.1 x.2) (active_item_rows Gateway d);
  Ok (d, l).
Definition active_stability_pool_items : LmTx (list StabilityItem) := fun d =>
  Ok (d, (λ x, stability_pool_item_from_row x.1 x.2) <$> active_item_rows StabilityPool d).

(** [gateway_item] and [stability_pool_item]. *)
Definition item_of_source (source : SourceType) (federation_id : string) (d : Db)
    : option (Allocation * (string * Item)) :=
  head (joined d (filter (λ kr, it_federation_id kr.2 = federation_id ∧
                                it_source_type kr.2 = source) (map_to_list (items d)))).
Definition gateway_item (federation_id : string) : LmTx (option GatewayItem) := fun d =>
  r ← transpose_map (λ x, gateway_item_from_row x.1 x.2) (item_of_source Gateway federation_id d);
  Ok (d, r).
Definition stability_pool_item (federation_id : string) : LmTx (option StabilityItem) := fun d =>
  Ok (d, (λ x, stability_pool_item_from_row x.1 x.2) <$>
           item_of_source StabilityPool federation_id d).

(** ** Item transitions *)

Definition set_item_status (s : ItemAllocationStatus) (now : Z) (i : Item) : Item :=
  {| it_federation_id := it_federation_id i; it_source_type := it_source_type i;
     it_status := s; it_committed_amount := it_committed_amount i; it_target := it_target i;
     it_failure := it_failure i; it_created_at := it_created_at i; it_updated_at := now;
     it_reserved_amount := it_reserved_amount i; it_step := it_step i;
     it_fulfilled_amount := it_fulfilled_amount i;
     it_completion_evidence := it_completion_evidence i |}.
Definition set_item_outcome (failure : option LiquidityFailure) (fulfilled : option Z)
    (evidence : option CompletionEvidence) (i : Item) : Item :=
  {| it_federation_id := it_federation_id i; it_source_type := it_source_type i;
     it_status := it_status i; it_committed_amount := it_committed_amount i;
     it_target := it_target i; it_failure := failure; it_created_at := it_created_at i;
     it_updated_at := it_updated_at i; it_reserved_amount := it_reserved_amount i;
     it_step := it_step i; it_fulfilled_amount := fulfilled;
     it_completion_evidence := evidence |}.
Definition set_item_step (step : Step) (now : Z) (i : Item) : Item :=
  {| it_federation_id := it_federation_id i; it_source_type := it_source_type i;
     it_status := it_status i; it_committed_amount := it_committed_amount i;
     it_target := it_target i; it_failure := it_failure i; it_created_at := it_created_at i;
     it_updated_at := now; it_reserved_amount := it_reserved_amount i; it_step := Some step;
     it_fulfilled_amount := it_fulfilled_amount i;
     it_completion_evidence := it_completion_evidence i |}.

(** [status IN (pending, running)]. *)
Definition item_active (i : Item) : bool := in_list active_item_statuses (it_status i).

(** [mark_item_running]. *)
Definition mark_item_running (id : string) : Prog bool :=
  rows ← stmt (λ now, update_item id item_active (set_item_status ItemRunning now));
  mret (rows =? 1).

(** [update_item_step]. *)
Definition update_item_step (id : string) (step : Step) : Prog unit :=
  stmt (λ now, update_item id item_active (set_item_step step now));;
  mret tt.

(** [compare_and_set_item_step]. *)
Definition compare_and_set_item_step (id : string) (expected next : Step) : Prog bool :=
  rows ← stmt (λ now, update_item id
                        (λ i, item_active i && bool_decide (it_step i = Some expected))
                        (set_item_step next now));
  mret (rows =? 1).

(** [complete_item]. *)
Definition complete_item (id : string) (fulfilled_amount : Z) (evidence : CompletionEvidence)
    : Prog bool :=
  rows ← stmt (λ now,
    fulfilled ← tx_lift (to_i64_sats fulfilled_amount);
    update_item id item_active
      (λ i, set_item_status ItemCompleted now
              (set_item_outcome (it_failure i) (Some fulfilled) (Some evidence) i)));
  mret (rows =? 1).

(** [set_item_failure], [fail_item] and [require_item_action]. *)
Definition set_item_failure (id : string) (status : ItemAllocationStatus)
    (code : LiquidityFailureCode) (reason : string) : Prog unit :=
  stmt (λ now, update_item id item_active
    (λ i, set_item_status status now
            (set_item_outcome (Some {| lf_code := code; lf_reason := Some reason |})
               (it_fulfilled_amount i) (it_completion_evidence i) i)));;
  mret tt.
Definition fail_item (id : string) := set_item_failure id ItemFailed.
Definition require_item_action (id : string) := set_item_failure id ItemActionRequired.

(** [reset_item_tx]. *)
Definition reset_item_tx (id : string) (now : Z) : LmTx unit :=
  update_item id (λ i, bool_decide (it_status i = ItemActionRequired))
    (λ i, set_item_status ItemPending now (set_item_outcome None None None i));;
  mret tt.

(** [cancel_item_tx]. *)
Definition cancel_item_tx (id : string) (now : Z) : LmTx unit :=
  update_item id (λ _, true) (set_item_status ItemCancelled now);;
  mret tt.

(** ** Gateway observations *)

Definition observation_key (o : GatewayObservation) : string :=
  match go_federation_id o with
  | Some f => "gateway:" +:+ go_gateway_id o +:+ ":federation:" +:+ f
  | None => "gateway:" +:+ go_gateway_id o
  end.
(** [upsert_gateway_observation]. *)
Definition upsert_gateway_observation (o : GatewayObservation) : Prog unit :=
  stmt (λ _,
    balance ← tx_lift (transpose_map to_i64_sats (go_observed_balance o));
    at_ ← tx_lift (ok_or InvalidArgument (try_from_u i64_max (go_observed_at o)));
    tx_put (set_gateway_observations <[observation_key o := o]>)).
(** [gateway_observation]. *)
Definition gateway_observation (gateway_id : string) : Prog (option GatewayObservation) :=
  stmt (λ _, tx_get (λ d, gateway_observations d !! ("gateway:" +:+ gateway_id))).

(** ** Allocation status *)

(** [AllocationItemStatus] and [AllocationStatus]. *)
Record AllocationItemStatus := {
  ai_target : AllocationItemTarget;
  ai_status : ItemAllocationStatus;
  ai_fulfilled_amount : option Z;
  ai_completion_evidence : option CompletionEvidence;
  ai_failure : option LiquidityFailure;
  ai_updated_at : Z
}.
Record AllocationStatus := {
  as_details_payload_hash : string;
  as_provider_pubkey : string;
  as_item_statuses : list AllocationItemStatus
}.

(** [allocation_item_status_from_row]. *)
Definition allocation_item_status_from_row (i : Item) : AllocationItemStatus :=
  {| ai_target := it_target i; ai_status := it_status i;
     ai_fulfilled_amount := Z.max 0 <$> it_fulfilled_amount i;
     ai_completion_evidence := it_completion_evidence i; ai_failure := it_failure i;
     ai_updated_at := Z.max 0 (it_updated_at i) |}.

(** [allocation_status_from_row] over [ORDER BY item_id ASC]. *)
Definition items_of (federation_id : string) (d : Db) : list (string * Item) :=
  select_ordered (λ _, 0) (λ _ i, bool_decide (it_federation_id i = federation_id)) (items d).
Definition allocation_status_from_row (federation_id : string) (a : Allocation)
    : Prog AllocationStatus :=
  rows ← stmt (λ _, tx_get (items_of federation_id));
  mret {| as_details_payload_hash := al_details_payload_hash a;
          as_provider_pubkey := al_provider_pubkey a;
          as_item_statuses := (λ kr, allocation_item_status_from_row kr.2) <$> rows |}.

(** [load_allocation_status_by_federation]. *)
Definition load_allocation_status_by_federation (federation_id : string)
    : Prog (option AllocationStatus) :=
  row ← stmt (λ _, tx_get (λ d, allocations d !! federation_id));
  match row with
  | None => mret None
  | Some a => s ← allocation_status_from_row federation_id a; mret (Some s)
  end.

(** [load_allocation_status_for_poll]. *)
Definition load_allocation_status_for_poll (requester details_hash : string)
    : Prog (option AllocationStatus) :=
  row ← stmt (λ _, tx_get (λ d, head (filter (λ kr, al_requester_pubkey kr.2 = requester ∧
                                              al_details_payload_hash kr.2 = details_hash)
                                       (map_to_list (allocations d)))));
  match row with
  | None => mret None
  | Some (federation_id, a) => s ← allocation_status_from_row federation_id a; mret (Some s)
  end.

End Allocations.
