(* ===== verification/LmFunds.v ===== *)
(** * The operator's side of the provider wallet
      ([crates/liquidity-manager-daemon/src/funds_admin.rs])

    Balances, deposit addresses, operator withdrawals and the task that settles
    operations against chain evidence.  [SetupConfig] holds the configuration
    columns the funding path reads; a handler gets the configuration it loaded
    as an argument. *)

From S2P Require Import Prelude LmSchema LmProg LmWallet LmAllocations.
From stdpp Require Import base gmap strings list.
From Stdlib Require Import ZArith Lia.
Open Scope Z_scope.

Module Funds.
Import Ledger Daemon Wallet Allocations.

(** [CapacityMode] and the read fields of [SetupConfigView]. *)
Inductive CapacityMode := AvailableFunds | ExplicitCap.
Record SetupConfig := {
  sc_network : BitcoinNetwork;
  sc_gateway_id : string;
  sc_gateway_name : string;
  sc_capacity_mode : CapacityMode;
  sc_explicit_cap : option Z;
  sc_supported_sources : list SourceType;
  sc_supported_networks : list BitcoinNetwork;
  sc_fee_reserve : Z;
  sc_confirmations : Z;
  sc_in_doubt_review_after_secs : Z;
  sc_gateway_claim_review_after_secs : Z;
  sc_warning_threshold : Z;
  sc_critical_threshold : Z
}.

(** [default_fee_rate_sat_per_vbyte]. *)
Definition default_fee_rate (n : BitcoinNetwork) : Z :=
  match n with Bitcoin => 5 | _ => 1 end.

(** ** Available balance *)

(** [available_balance]. *)
Definition available_balance (spendable pending_outgoing in_flight fee_reserve : Z) : Z :=
  saturating_sub_u (saturating_sub_u (saturating_sub_u spendable pending_outgoing) in_flight)
    fee_reserve.

(** [available_balance_for_request]. *)
Definition available_balance_for_request (config : SetupConfig) (wallet_balance : Z) : LmTx Z :=
  in_flight ← active_reserved_amount_tx;
  pending_outgoing ← active_wallet_withdrawal_amount_tx;
  mret (available_balance wallet_balance pending_outgoing in_flight (sc_fee_reserve config)).

(** [WalletBalanceSummary] and [balance_summary]. *)
Record WalletBalanceSummary := {
  bs_spendable : Z;
  bs_pending_incoming : Z;
  bs_pending_outgoing : Z;
  bs_in_flight_allocations : Z;
  bs_fee_reserve : Z;
  bs_available_balance : Z
}.
Definition funds_summary (fee_reserve spendable : Z) (s : WalletAccountingSums)
    : WalletBalanceSummary :=
  {| bs_spendable := spendable; bs_pending_incoming := ws_pending_incoming s;
     bs_pending_outgoing := ws_pending_outgoing s;
     bs_in_flight_allocations := ws_in_flight_allocations s; bs_fee_reserve := fee_reserve;
     bs_available_balance := available_balance spendable (ws_pending_outgoing s)
                               (ws_in_flight_allocations s) fee_reserve |}.

(** [replenishment_status]. *)
Inductive ReplenishmentStatus := ReplenishCritical | ReplenishWarning | ReplenishOk.
Definition replenishment_status (available warning critical : Z) : ReplenishmentStatus :=
  if available <=? critical then ReplenishCritical
  else if available <=? warning then ReplenishWarning
  else ReplenishOk.

(** [get_funds_with_wallet], up to the inventory view of the response. *)
Definition get_funds (setup : SetupConfig) : Prog (WalletBalanceSummary * ReplenishmentStatus) :=
  read_at ← begin_balance_read;
  balance ← balance_summary;
  balance ← or_else Unavailable balance;
  if negb (bool_decide (wb_network balance = sc_network setup)) then fail FailedPrecondition
  else
    upsert_wallet_balance_observation balance read_at;;
    accounting ← wallet_accounting_sums;
    let summary := funds_summary (sc_fee_reserve setup) (wb_spendable balance) accounting in
    mret (summary, replenishment_status (bs_available_balance summary)
                     (sc_warning_threshold setup) (sc_critical_threshold setup)).

(** ** Deposits *)

(** [create_deposit_address_with_wallet]. *)
Definition create_deposit_address (setup : SetupConfig) (label : option string)
    : Prog (string * string) :=
  operation_id ← call_text FreshOperationId;
  operation_id ← or_else Internal operation_id;
  address ← allocate_deposit_address (sc_network setup);
  address ← or_else Unavailable address;
  stmt (insert_wallet_operation_tx
    {| wi_operation_id := operation_id; wi_type := Deposit; wi_status := OpPending;
       wi_amount := 0; wi_address := Some address; wi_label := label; wi_fee_rate := None;
       wi_federation_id := None; wi_item_id := None |});;
  mret (address, operation_id).

(** ** Operator withdrawals *)

(** [RequestWithdrawalRequest]. *)
Record RequestWithdrawalRequest := {
  rw_withdrawal_intent_id : string;
  rw_address : string;
  rw_amount : Z;
  rw_fee_rate : option Z
}.

(** [existing_withdrawal_response]. *)
Definition existing_withdrawal_response (request : RequestWithdrawalRequest) (fee_rate : Z)
    (existing : OperatorWithdrawalIntent) : Prog WalletOp :=
  if negb (bool_decide (ow_address existing = rw_address request)) ||
     negb (ow_amount existing =? rw_amount request) ||
     negb (ow_fee_rate existing =? fee_rate)
  then fail FailedPrecondition
  else get_wallet_operation (ow_operation_id existing).

(** The transaction that fences the send: it answers with an operation already
    bound to the intent, or inserts one in doubt and binds it. *)
Definition fence_withdrawal_tx (setup : SetupConfig) (request : RequestWithdrawalRequest)
    (fee_rate spendable : Z) (operation_id : string) (now : Z)
    : LmTx (option OperatorWithdrawalIntent) :=
  existing ← operator_withdrawal_for_intent_tx (rw_withdrawal_intent_id request);
  match existing with
  | Some existing => mret (Some existing)
  | None =>
      available ← available_balance_for_request setup spendable;
      if available <? rw_amount request then tx_err FailedPrecondition
      else
        insert_wallet_operation_tx
          {| wi_operation_id := operation_id; wi_type := Withdrawal; wi_status := OpInDoubt;
             wi_amount := rw_amount request; wi_address := Some (rw_address request);
             wi_label := None; wi_fee_rate := Some fee_rate; wi_federation_id := None;
             wi_item_id := None |} now;;
        bind_operator_withdrawal_intent_tx operation_id (rw_withdrawal_intent_id request) now;;
        mret None
  end.

(** [request_withdrawal_with_wallet]. *)
Definition request_withdrawal (setup : SetupConfig) (request : RequestWithdrawalRequest)
    : Prog WalletOp :=
  if bool_decide (rw_withdrawal_intent_id request = "") then fail InvalidArgument
  else if rw_amount request =? 0 then fail InvalidArgument
  else
    let fee_rate := default (default_fee_rate (sc_network setup)) (rw_fee_rate request) in
    if fee_rate =? 0 then fail InvalidArgument
    else
      existing ← stmt (λ _, operator_withdrawal_for_intent_tx (rw_withdrawal_intent_id request));
      match existing with
      | Some existing => existing_withdrawal_response request fee_rate existing
      | None =>
          read_at ← begin_balance_read;
          balance ← balance_summary;
          balance ← or_else Unavailable balance;
          upsert_wallet_balance_observation balance read_at;;
          operation_id ← call_text FreshOperationId;
          operation_id ← or_else Internal operation_id;
          prepared ← prepare_withdrawal (sc_network setup) operation_id (rw_address request)
                       (rw_amount request) fee_rate;
          prepared ← or_else InvalidArgument prepared;
          fenced ← stmt (fence_withdrawal_tx setup request fee_rate (wb_spendable balance)
                           operation_id);
          match fenced with
          | Some existing => existing_withdrawal_response request fee_rate existing
          | None =>
              submitted ← submit_prepared_withdrawal prepared;
              match submitted with
              | Ok txid => mark_withdrawal_broadcast operation_id txid
              | Err (SubmitInDoubt detail) => mark_operation_in_doubt operation_id detail
              | Err (SubmitFailed detail) => mark_operation_failed operation_id detail
              | Panic => Done Panic
              end
          end
      end.

(** ** Settlement *)

(** [evidence_for_operation]. *)
Definition evidence_for_operation (r : WalletOp) : Prog (res string (option (list ChainOutput))) :=
  match wo_txid r with
  | Some txid => call_outputs (TxEvidence txid)
  | None =>
      match in_list [OpPending; OpInDoubt] (wo_status r), wo_address r with
      | true, Some address => call_outputs (AddressEvidence address)
      | _, _ => mret (Ok None)
      end
  end.

Definition review_detail : string :=
  "no chain or target-side evidence resolved this send within the configured review threshold".

(** The body of the loop of [sync_chain_evidence] for one operation. *)
Definition sync_operation (setup : SetupConfig) (kr : string * WalletOp) : Prog Z :=
  let '(operation_id, r) := kr in
  if bool_decide (wo_status r = OpManualReviewRequired) then mret 0
  else
    evidence ← evidence_for_operation r;
    evidence ← or_else Unavailable evidence;
    resolved ← match evidence with
               | Some outputs =>
                   claim ← claim_chain_evidence operation_id outputs (sc_confirmations setup);
                   mret (match claim with EvidenceApplied _ => true | _ => false end)
               | None => mret false
               end;
    if negb resolved && bool_decide (wo_status r = OpInDoubt) then
      escalated ← escalate_in_doubt_to_manual_review operation_id
                    (sc_in_doubt_review_after_secs setup) review_detail;
      mret (if escalated : bool then 1 else 0)
    else mret (if resolved : bool then 1 else 0).

(** [sync_chain_evidence]. *)
Fixpoint sync_operations (setup : SetupConfig) (l : list (string * WalletOp)) : Prog Z :=
  match l with
  | [] => mret 0
  | kr :: l => a ← sync_operation setup kr; n ← sync_operations setup l; mret (a + n)
  end.
Definition sync_chain_evidence (setup : SetupConfig) : Prog Z :=
  l ← stmt (λ _, active_wallet_operations);
  sync_operations setup l.

(** [sync_wallet_operations]; [GatewaydFundsWallet::sync_operations] reports
    none. *)
Definition sync_wallet_operations (setup : SetupConfig) : Prog Z :=
  read_at ← begin_balance_read;
  balance ← balance_summary;
  balance ← or_else Unavailable balance;
  upsert_wallet_balance_observation balance read_at;;
  for_each ([] : list WalletOperationSync) (λ u, apply_sync_update u;; mret tt);;
  sync_chain_evidence setup.

End Funds.
