(* ===== verification/LmFunding.v ===== *)
(** * Funding an allocation item
      ([crates/liquidity-manager-daemon/src/allocation_funding.rs],
       [gateway_allocation.rs])

    The two steps both workers share, ensuring one durable wallet operation per
    item and submitting it behind the in-doubt fence, and the worker that funds
    gateway items with them. *)

From S2P Require Import Prelude LmSchema LmProg LmWallet LmAllocations LmFunds.
From stdpp Require Import base gmap strings list.
From Stdlib Require Import Ascii ZArith Lia.
Open Scope Z_scope.

Module Funding.
Import Ledger Daemon Wallet Allocations Funds.

(** [FundingKind] and its constants. *)
Inductive FundingKind := FundGateway | FundStabilityPool.
Definition operation_type (k : FundingKind) : WalletOperationType :=
  match k with FundGateway => GatewayFunding | FundStabilityPool => StabilityPoolFunding end.
Definition operation_id_prefix (k : FundingKind) : string :=
  match k with
  | FundGateway => "wallet-gateway-funding"
  | FundStabilityPool => "wallet-stability-pool-funding"
  end.
Definition label_prefix (k : FundingKind) : string :=
  match k with FundGateway => "gateway funding" | FundStabilityPool => "stability-pool funding" end.
Definition in_doubt_detail (k : FundingKind) : string :=
  label_prefix k +:+ " submission started; gatewayd response not yet recorded".

(** [FundingStep]. *)
Record FundingStep := {
  fs_kind : FundingKind;
  fs_federation_id : string;
  fs_item_id : string;
  fs_address : option string;
  fs_amount : Z
}.

(** [str::replace(':', "-")]. *)
Fixpoint replace_colon (s : string) : string :=
  match s with
  | EmptyString => EmptyString
  | String c s => String (if bool_decide (c = ":"%char) then "-"%char else c) (replace_colon s)
  end.
Definition funding_operation_id (step : FundingStep) : string :=
  operation_id_prefix (fs_kind step) +:+ "-" +:+ replace_colon (fs_item_id step).

(** [EXISTS (SELECT 1 FROM allocation_items WHERE item_id = ? AND status IN
    (pending, running))]. *)
Definition item_is_active (id : string) (d : Db) : bool :=
  match items d !! id with Some i => item_active i | None => false end.

(** [ensure_wallet_operation].  The transaction answers [None] for an item that
    is no longer active, an operation that exists, or that it inserted one. *)
Inductive Ensured := NotActive | Existing (operation : string * WalletOp) | Inserted.
Definition ensure_wallet_operation_tx (setup : SetupConfig) (step : FundingStep)
    (address : string) (now : Z) : LmTx Ensured :=
  active ← tx_get (item_is_active (fs_item_id step));
  if negb active then mret NotActive
  else
    existing ← wallet_operation_for_item_tx (operation_type (fs_kind step)) (fs_item_id step);
    match existing with
    | Some operation => mret (Existing operation)
    | None =>
        insert_wallet_operation_tx
          {| wi_operation_id := funding_operation_id step;
             wi_type := operation_type (fs_kind step); wi_status := OpPending;
             wi_amount := fs_amount step; wi_address := Some address;
             wi_label := Some (label_prefix (fs_kind step) +:+ " " +:+ fs_federation_id step);
             wi_fee_rate := Some (default_fee_rate (sc_network setup));
             wi_federation_id := Some (fs_federation_id step);
             wi_item_id := Some (fs_item_id step) |} now;;
        mret Inserted
    end.
Definition ensure_wallet_operation (setup : SetupConfig) (step : FundingStep)
    : Prog (option (string * WalletOp)) :=
  address ← lift (ok_or Internal (fs_address step));
  ensured ← stmt (ensure_wallet_operation_tx setup step address);
  match ensured with
  | NotActive => mret None
  | Existing operation => mret (Some operation)
  | Inserted =>
      r ← get_wallet_operation (funding_operation_id step);
      mret (Some (funding_operation_id step, r))
  end.

(** [claim_funding_submission]: the fence before the irreversible call. *)
Definition claim_funding_submission_tx (step : FundingStep) (operation_id : string)
    (at_ now : Z) : LmTx bool :=
  active ← tx_get (item_is_active (fs_item_id step));
  rows ← update_operation operation_id
    (λ r, bool_decide (wo_item_id r = Some (fs_item_id step)) &&
          bool_decide (wo_status r = OpPending) && active)
    (λ r, set_status OpInDoubt
            (set_failure (Some {| af_code := "in_doubt";
                                  af_message := in_doubt_detail (fs_kind step);
                                  af_occurred_at := at_;
                                  af_federation_id := Some (fs_federation_id step);
                                  af_item_id := Some (fs_item_id step) |})
               (set_times now (coalesce (wo_submitted_at r) (Some now)) (wo_completed_at r) r)));
  mret (rows =? 1).
Definition claim_funding_submission (step : FundingStep) (operation_id : string) : Prog bool :=
  at_ ← call_time Now;
  stmt (claim_funding_submission_tx step operation_id at_).

(** [fail_funding_item]. *)
Definition fail_funding_item (step : FundingStep) (reason : string) : Prog unit :=
  require_item_action (fs_item_id step) WithdrawFailed reason.

(** [submit_funding_withdrawal]. *)
Definition submit_funding_withdrawal (setup : SetupConfig) (step : FundingStep)
    (operation_id : string) : Prog unit :=
  address ← lift (ok_or Internal (fs_address step));
  prepared ← prepare_withdrawal (sc_network setup) operation_id address (fs_amount step)
               (default_fee_rate (sc_network setup));
  match prepared with
  | Err error =>
      mark_operation_failed operation_id error;;
      fail_funding_item step error
  | Panic => Done Panic
  | Ok prepared =>
      claimed ← claim_funding_submission step operation_id;
      if negb claimed then mret tt
      else
        submitted ← submit_prepared_withdrawal prepared;
        match submitted with
        | Ok txid => mark_withdrawal_broadcast operation_id txid;; mret tt
        | Err (SubmitInDoubt detail) => mark_operation_in_doubt operation_id detail;; mret tt
        | Err (SubmitFailed detail) =>
            mark_operation_failed operation_id detail;;
            fail_funding_item step detail
        | Panic => Done Panic
        end
  end.

(** ** The gateway worker *)

(** [gateway_withdrawal_amount] and [gateway_funding_step]. *)
Definition gateway_withdrawal_amount (item : GatewayItem) : Z :=
  Z.max (gi_reserved_amount item) (gi_committed_amount item).
Definition gateway_funding_step (item : GatewayItem) : FundingStep :=
  {| fs_kind := FundGateway; fs_federation_id := gi_federation_id item;
     fs_item_id := gi_item_id item; fs_address := gs_deposit_address (gi_step item);
     fs_amount := gateway_withdrawal_amount item |}.

Definition with_step (s : GatewayStep) (item : GatewayItem) : GatewayItem :=
  {| gi_item_id := gi_item_id item; gi_federation_id := gi_federation_id item;
     gi_target := gi_target item; gi_committed_amount := gi_committed_amount item;
     gi_reserved_amount := gi_reserved_amount item; gi_status := gi_status item; gi_step := s |}.
Definition set_connected (s : GatewayStep) : GatewayStep :=
  {| gs_gateway_connected := true; gs_deposit_address := gs_deposit_address s;
     gs_wallet_operation_id := gs_wallet_operation_id s;
     gs_attribution_overdue_since := gs_attribution_overdue_since s |}.
Definition set_deposit_address (a : string) (s : GatewayStep) : GatewayStep :=
  {| gs_gateway_connected := gs_gateway_connected s; gs_deposit_address := Some a;
     gs_wallet_operation_id := gs_wallet_operation_id s;
     gs_attribution_overdue_since := gs_attribution_overdue_since s |}.
Definition set_wallet_operation (o : string) (s : GatewayStep) : GatewayStep :=
  {| gs_gateway_connected := gs_gateway_connected s; gs_deposit_address := gs_deposit_address s;
     gs_wallet_operation_id := Some o;
     gs_attribution_overdue_since := gs_attribution_overdue_since s |}.
Definition set_overdue (at_ : Z) (s : GatewayStep) : GatewayStep :=
  {| gs_gateway_connected := gs_gateway_connected s; gs_deposit_address := gs_deposit_address s;
     gs_wallet_operation_id := gs_wallet_operation_id s;
     gs_attribution_overdue_since := Some at_ |}.

(** Persist the item's step. *)
Definition save_step (item : GatewayItem) : Prog unit :=
  update_item_step (gi_item_id item) (AGatewayStep (gi_step item)).

(** [note_attribution_delay]. *)
Definition note_attribution_delay (setup : SetupConfig) (item : GatewayItem) (operation : WalletOp)
    : Prog unit :=
  match gs_attribution_overdue_since (gi_step item) with
  | Some _ => mret tt
  | None =>
      if sc_gateway_claim_review_after_secs setup =? 0 then mret tt
      else
        now ← call_time Now;
        if saturating_sub_u now (Z.max 0 (wo_updated_at operation)) <?
           sc_gateway_claim_review_after_secs setup then mret tt
        else update_item_step (gi_item_id item) (AGatewayStep (set_overdue now (gi_step item)))
  end.

(** [recheck_gateway_deposit] and [recheck_and_note_delay]. *)
Definition recheck_gateway_deposit (setup : SetupConfig) (item : GatewayItem) : Prog unit :=
  match gs_deposit_address (gi_step item) with
  | None => mret tt
  | Some address =>
      r ← call_unit (RecheckDepositAddress (ft_federation_id (gi_target item)) address
                       (sc_network setup));
      or_else Unavailable r
  end.
Definition recheck_and_note_delay (setup : SetupConfig) (item : GatewayItem) (operation : WalletOp)
    : Prog unit :=
  note_attribution_delay setup item operation;;
  recheck_gateway_deposit setup item.

(** [complete_if_gateway_funded]. *)
Definition complete_if_gateway_funded (setup : SetupConfig) (item : GatewayItem)
    (operation_id : string) : Prog bool :=
  operation ← get_wallet_operation operation_id;
  match wo_txid operation with
  | None => recheck_and_note_delay setup item operation;; mret false
  | Some txid =>
      let federation_id := ft_federation_id (gi_target item) in
      claim ← call_claim (FindDepositClaim federation_id
        {| dq_txid := txid; dq_out_idx := wo_tx_vout operation;
           dq_min_amount := gi_committed_amount item |});
      match claim with
      | Err _ => mret false
      | Panic => Done Panic
      | Ok None => recheck_and_note_delay setup item operation;; mret false
      | Ok (Some _) =>
          balance ← call_balance (ObserveFederationBalance federation_id);
          balance ← or_else Unavailable balance;
          match balance with
          | None => recheck_and_note_delay setup item operation;; mret false
          | Some observed =>
              at_ ← call_time Now;
              upsert_gateway_observation
                {| go_gateway_id := sc_gateway_id setup; go_federation_id := Some federation_id;
                   go_status := "federation_observed"; go_observed_balance := Some observed;
                   go_observed_at := at_ |};;
              info ← call_snapshot GatewayInfo;
              info ← or_else Unavailable info;
              at_ ← call_time Now;
              complete_item (gi_item_id item) (gi_committed_amount item)
                (GatewayEvidence (sc_gateway_id setup) (sn_gateway_api info)
                   (gi_committed_amount item) observed at_ (wo_txid operation)
                   (Some operation_id))
          end
      end
  end.

(** The end of [process_gateway_item], once the item has an address. *)
Definition fund_gateway_item (setup : SetupConfig) (advanced : bool) (item : GatewayItem)
    : Prog bool :=
  operation ← ensure_wallet_operation setup (gateway_funding_step item);
  match operation with
  | None => mret false
  | Some (operation_id, operation) =>
      item ← (if bool_decide (gs_wallet_operation_id (gi_step item) = Some operation_id)
              then mret item
              else let item := with_step (set_wallet_operation operation_id (gi_step item)) item in
                   save_step item;; mret item);
      match wo_status operation with
      | OpPending =>
          submit_funding_withdrawal setup (gateway_funding_step item) operation_id;; mret true
      | OpBroadcast | OpConfirmed => mret advanced
      | OpInDoubt | OpManualReviewRequired => mret advanced
      | OpFailed =>
          require_item_action (gi_item_id item) WithdrawFailed
            "gateway funding wallet operation failed";;
          mret true
      | OpCancelled =>
          fail_item (gi_item_id item) WithdrawFailed
            "gateway funding wallet operation was cancelled while item was active";;
          mret true
      | OpCompleted => complete_if_gateway_funded setup item operation_id
      end
  end.

(** The middle: asking the gateway for a deposit address. *)
Definition address_gateway_item (setup : SetupConfig) (advanced : bool) (item : GatewayItem)
    : Prog bool :=
  match gs_deposit_address (gi_step item) with
  | Some _ => fund_gateway_item setup advanced item
  | None =>
      address ← call_text (DepositAddress (ft_federation_id (gi_target item)) (sc_network setup));
      match address with
      | Ok address =>
          valid ← call_unit (ParseAddress address (sc_network setup));
          match valid with
          | Ok _ =>
              let item := with_step (set_deposit_address address (gi_step item)) item in
              save_step item;;
              fund_gateway_item setup true item
          | Err error =>
              require_item_action (gi_item_id item) GatewayAttachFailed error;; mret true
          | Panic => Done Panic
          end
      | Err error => require_item_action (gi_item_id item) GatewayAttachFailed error;; mret true
      | Panic => Done Panic
      end
  end.

(** [process_gateway_item]. *)
Definition process_gateway_item (setup : SetupConfig) (snapshot : GatewaySnapshot)
    (item : GatewayItem) : Prog bool :=
  running ← mark_item_running (gi_item_id item);
  if negb running then mret false
  else if negb (bool_decide (sn_network snapshot = sc_network setup)) then
    require_item_action (gi_item_id item) GatewayAttachFailed
      "gateway network does not match configured network";;
    mret true
  else
    let federation_id := ft_federation_id (gi_target item) in
    let observed := existsb (λ f, bool_decide (gf_federation_id f = federation_id))
                      (sn_federations snapshot) in
    if gs_gateway_connected (gi_step item) then address_gateway_item setup false item
    else if observed then
      let item := with_step (set_connected (gi_step item)) item in
      save_step item;;
      address_gateway_item setup true item
    else
      invite ← call_text (CheckInviteEndpoints (ft_invite_code (gi_target item)));
      match invite with
      | Err _ =>
          require_item_action (gi_item_id item) GatewayAttachFailed
            "the target federation endpoint is not permitted";;
          mret true
      | Panic => Done Panic
      | Ok invite =>
          connected ← call_federation (ConnectFederation invite);
          match connected with
          | Ok federation =>
              if negb (bool_decide (gf_federation_id federation = federation_id)) then
                require_item_action (gi_item_id item) GatewayAttachFailed
                  "gateway connected to another federation";;
                mret true
              else
                let item := with_step (set_connected (gi_step item)) item in
                save_step item;;
                address_gateway_item setup true item
          | Err _ =>
              require_item_action (gi_item_id item) GatewayAttachFailed
                "the configured gateway could not attach this federation";;
              mret true
          | Panic => Done Panic
          end
      end.

(** [note_gateway_cannot_answer]. *)
Definition note_gateway_cannot_answer (setup : SetupConfig) : Prog unit :=
  recorded ← gateway_observation (sc_gateway_id setup);
  match recorded with
  | Some o => if bool_decide (go_status o = "unavailable") then mret tt else
                at_ ← call_time Now;
                upsert_gateway_observation
                  {| go_gateway_id := sc_gateway_id setup; go_federation_id := None;
                     go_status := "unavailable"; go_observed_balance := None;
                     go_observed_at := at_ |}
  | None =>
      at_ ← call_time Now;
      upsert_gateway_observation
        {| go_gateway_id := sc_gateway_id setup; go_federation_id := None;
           go_status := "unavailable"; go_observed_balance := None; go_observed_at := at_ |}
  end.

(** [read_usable_gateway_snapshot]; [note_gateway_answers] only reads and
    logs. *)
Definition read_usable_gateway_snapshot (setup : SetupConfig) : Prog (option GatewaySnapshot) :=
  info ← call_snapshot GatewayInfo;
  match info with
  | Ok snapshot =>
      if sn_synced_to_chain snapshot then
        _ ← gateway_observation (sc_gateway_id setup);
        mret (Some snapshot)
      else note_gateway_cannot_answer setup;; mret None
  | Err _ => note_gateway_cannot_answer setup;; mret None
  | Panic => Done Panic
  end.

(** [persist_gateway_snapshot]. *)
Definition persist_gateway_snapshot (setup : SetupConfig) (snapshot : GatewaySnapshot) : Prog unit :=
  at_ ← call_time Now;
  upsert_gateway_observation
    {| go_gateway_id := sc_gateway_id setup; go_federation_id := None;
       go_status := sn_state snapshot; go_observed_balance := None; go_observed_at := at_ |};;
  for_each (sn_federations snapshot) (λ f,
    upsert_gateway_observation
      {| go_gateway_id := sc_gateway_id setup; go_federation_id := Some (gf_federation_id f);
         go_status := "federation_observed"; go_observed_balance := Some (gf_balance f);
         go_observed_at := at_ |}).

(** [process_gateway_allocations_with]: an unavailable dependency of one item
    does not end the pass, any other error does. *)
Definition process_items (setup : SetupConfig) (snapshot : GatewaySnapshot) (l : list GatewayItem)
    : Prog unit :=
  for_each l (λ item,
    r ← attempt (process_gateway_item setup snapshot item);
    match r with
    | Ok _ => mret tt
    | Err Unavailable => mret tt
    | Err e => fail e
    | Panic => Done Panic
    end).
Definition process_gateway_allocations (setup : SetupConfig) : Prog unit :=
  l ← stmt (λ _, active_gateway_items);
  match l with
  | [] => mret tt
  | _ =>
      snapshot ← read_usable_gateway_snapshot setup;
      match snapshot with
      | None => mret tt
      | Some snapshot =>
          persist_gateway_snapshot setup snapshot;;
          process_items setup snapshot l
      end
  end.

End Funding.
