(* ===== verification/LmStability.v ===== *)
(** * The stability-pool worker
      ([crates/liquidity-manager-daemon/src/stability_allocation.rs],
       [stability_deposit.rs], [target_recovery.rs])

    A stability-pool item is funded by the shared funding step, its peg-in is
    claimed by the target client, and the provider deposit is submitted under an
    operation id the daemon generated and persisted first.  The item's time
    budget is a deadline it consults: [BudgetSpent] answers whether it passed,
    and an observation cut off by it is one that answered with an error.  The
    last part is the operator's reconciliation of a target client. *)

From S2P Require Import Prelude LmSchema LmProg LmWallet LmAllocations LmFunds LmFunding.
From stdpp Require Import base gmap strings list.
From Stdlib Require Import ZArith Lia.
Open Scope Z_scope.

Module Stability.
Import Ledger Daemon Wallet Allocations Funds Funding.

(** ** The step *)

Definition set_client_opened (at_ : Z) (s : StabilityStep) : StabilityStep :=
  {| ss_target_client_opened_at := Some at_; ss_peg_in_operation_id := ss_peg_in_operation_id s;
     ss_peg_in_address := ss_peg_in_address s; ss_wallet_operation_id := ss_wallet_operation_id s;
     ss_peg_in_status := ss_peg_in_status s; ss_peg_in_amount := ss_peg_in_amount s;
     ss_sp_deposit_status := ss_sp_deposit_status s;
     ss_sp_deposit_operation_id := ss_sp_deposit_operation_id s;
     ss_sp_deposit_amount := ss_sp_deposit_amount s;
     ss_sp_deposit_min_fee_rate_ppb := ss_sp_deposit_min_fee_rate_ppb s;
     ss_observed_provided_amount := ss_observed_provided_amount s |}.
Definition set_peg_in (operation address : option string) (status : option PegInProgress)
    (amount : option Z) (s : StabilityStep) : StabilityStep :=
  {| ss_target_client_opened_at := ss_target_client_opened_at s;
     ss_peg_in_operation_id := operation; ss_peg_in_address := address;
     ss_wallet_operation_id := ss_wallet_operation_id s; ss_peg_in_status := status;
     ss_peg_in_amount := amount; ss_sp_deposit_status := ss_sp_deposit_status s;
     ss_sp_deposit_operation_id := ss_sp_deposit_operation_id s;
     ss_sp_deposit_amount := ss_sp_deposit_amount s;
     ss_sp_deposit_min_fee_rate_ppb := ss_sp_deposit_min_fee_rate_ppb s;
     ss_observed_provided_amount := ss_observed_provided_amount s |}.
Definition set_step_operation (o : string) (s : StabilityStep) : StabilityStep :=
  {| ss_target_client_opened_at := ss_target_client_opened_at s;
     ss_peg_in_operation_id := ss_peg_in_operation_id s; ss_peg_in_address := ss_peg_in_address s;
     ss_wallet_operation_id := Some o; ss_peg_in_status := ss_peg_in_status s;
     ss_peg_in_amount := ss_peg_in_amount s; ss_sp_deposit_status := ss_sp_deposit_status s;
     ss_sp_deposit_operation_id := ss_sp_deposit_operation_id s;
     ss_sp_deposit_amount := ss_sp_deposit_amount s;
     ss_sp_deposit_min_fee_rate_ppb := ss_sp_deposit_min_fee_rate_ppb s;
     ss_observed_provided_amount := ss_observed_provided_amount s |}.
Definition set_observed_provided (amount : Z) (s : StabilityStep) : StabilityStep :=
  {| ss_target_client_opened_at := ss_target_client_opened_at s;
     ss_peg_in_operation_id := ss_peg_in_operation_id s; ss_peg_in_address := ss_peg_in_address s;
     ss_wallet_operation_id := ss_wallet_operation_id s; ss_peg_in_status := ss_peg_in_status s;
     ss_peg_in_amount := ss_peg_in_amount s; ss_sp_deposit_status := ss_sp_deposit_status s;
     ss_sp_deposit_operation_id := ss_sp_deposit_operation_id s;
     ss_sp_deposit_amount := ss_sp_deposit_amount s;
     ss_sp_deposit_min_fee_rate_ppb := ss_sp_deposit_min_fee_rate_ppb s;
     ss_observed_provided_amount := Some amount |}.

(** [set_peg_in_status]. *)
Definition set_peg_in_status (status : PegInProgress) (amount : option Z) (s : StabilityStep)
    : StabilityStep :=
  set_peg_in (ss_peg_in_operation_id s) (ss_peg_in_address s) (Some status)
    (match amount with Some _ => amount | None => ss_peg_in_amount s end) s.

(** [begin_submission]. *)
Definition begin_submission (submission : DepositSubmission) (s : StabilityStep) : StabilityStep :=
  set_sp_deposit (Some (ds_operation_id submission)) (Some SpSubmitting)
    (Some (ds_amount submission)) (Some (ds_min_fee_rate_ppb submission)) s.

(** [has_in_flight_submission]. *)
Definition has_in_flight_submission (s : StabilityStep) : bool :=
  bool_decide (ss_sp_deposit_status s = Some SpSubmitting).

(** [submitting_submission]: [None] is an unusable tuple.  Parsing the
    operation id is the client library's. *)
Definition submitting_submission (s : StabilityStep) : Prog (option (option DepositSubmission)) :=
  if negb (has_in_flight_submission s) then mret (Some None)
  else match ss_sp_deposit_operation_id s, ss_sp_deposit_amount s,
             ss_sp_deposit_min_fee_rate_ppb s with
  | Some operation_id, Some amount, Some fee =>
      parsed ← call_text (ParseOperationId operation_id);
      match parsed with
      | Ok id => mret (if amount =? 0 then None
                       else Some (Some {| ds_operation_id := id; ds_amount := amount;
                                          ds_min_fee_rate_ppb := fee |}))
      | _ => mret None
      end
  | _, _, _ => mret None
  end.

Definition with_stability_step (s : StabilityStep) (item : StabilityItem) : StabilityItem :=
  {| si_item_id := si_item_id item; si_federation_id := si_federation_id item;
     si_target := si_target item; si_committed_amount := si_committed_amount item;
     si_reserved_amount := si_reserved_amount item; si_status := si_status item; si_step := s;
     si_corrupt_step_json := si_corrupt_step_json item |}.
Definition save_stability_step (item : StabilityItem) : Prog unit :=
  update_item_step (si_item_id item) (AStabilityStep (si_step item)).
Definition require_action (item : StabilityItem) (reason : string) : Prog bool :=
  require_item_action (si_item_id item) StabilityPoolFailed reason;; mret true.

(** [stability_funding_step]. *)
Definition stability_funding_step (item : StabilityItem) : FundingStep :=
  {| fs_kind := FundStabilityPool; fs_federation_id := si_federation_id item;
     fs_item_id := si_item_id item; fs_address := ss_peg_in_address (si_step item);
     fs_amount := si_reserved_amount item |}.

(** [committed_deposit_amount]. *)
Definition committed_deposit_amount (committed claimed wallet_balance : Z) : Z :=
  if (claimed <? committed) || (wallet_balance <? committed) then 0 else committed.

(** ** The provider deposit *)

(** [complete_stability_pool_item]. *)
Definition complete_stability_pool_item (item : StabilityItem) (fulfilled : Z) : Prog bool :=
  at_ ← call_time Now;
  complete_item (si_item_id item) fulfilled
    (StabilityPoolEvidence fulfilled
       (default 0 (ss_observed_provided_amount (si_step item))) at_
       (ss_peg_in_operation_id (si_step item)) (ss_sp_deposit_operation_id (si_step item))).

(** [observe_stability_pool]; the observation row is for the operator's view
    and not kept here. *)
Definition observe_stability_pool (item : StabilityItem) : Prog (StabilityItem * Z) :=
  report ← call_amount (ProviderReport (ft_federation_id (si_target item)));
  observed ← or_else Unavailable report;
  let item := with_stability_step (set_observed_provided observed (si_step item)) item in
  save_stability_step item;;
  mret (item, observed).

(** [observe_stability_deposit]. *)
Definition observe_stability_deposit (item : StabilityItem) (operation_id : string) : Prog bool :=
  status ← call_deposit (ObserveDeposit (ft_federation_id (si_target item)) operation_id);
  status ← or_else Unavailable status;
  match status with
  | DepositInitiated =>
      let '(step, landed) := advance_sp_deposit_status (si_step item) operation_id SpInitiated in
      if landed : bool then save_stability_step (with_stability_step step item);; mret true
      else mret true
  | DepositTxAccepted =>
      let '(step, landed) := advance_sp_deposit_status (si_step item) operation_id SpTxAccepted in
      if landed : bool then save_stability_step (with_stability_step step item);; mret true
      else mret true
  | DepositSuccess =>
      let '(step, _) := advance_sp_deposit_status (si_step item) operation_id SpSuccess in
      let item := with_stability_step step item in
      save_stability_step item;;
      fulfilled ← lift (ok_or Internal (ss_sp_deposit_amount (si_step item)));
      report ← observe_stability_pool item;
      let '(item, observed) := report in
      if observed <? fulfilled then save_stability_step item;; mret true
      else complete_stability_pool_item item fulfilled
  | DepositFailed reason => require_action item reason
  end.

(** The submission half of [advance_stability_deposit_with]: the step reads
    [submitting]; [began] says whether this pass staged it. *)
Definition submit_stability_deposit (item : StabilityItem) (began : bool) : Prog bool :=
  submission ← submitting_submission (si_step item);
  match submission with
  | None | Some None => fail Internal
  | Some (Some submission) =>
      if negb (ds_amount submission =? si_committed_amount item) ||
         (1000000000 <? ds_min_fee_rate_ppb submission) ||
         bool_decide (checked_mul_u u64_max (ds_amount submission) 1000 = None)
      then require_action item
             "persisted stability-pool submission parameters are invalid; reconcile the target client"
      else
        spent ← call_bool BudgetSpent;
        if spent : bool then mret began
        else
          fenced ← compare_and_set_item_step (si_item_id item) (AStabilityStep (si_step item))
                     (AStabilityStep (si_step item));
          if negb fenced then mret began
          else
            receipt ← call_receipt (SubmitDepositToProvide (ft_federation_id (si_target item))
                                      (si_item_id item) submission);
            receipt ← or_else Unavailable receipt;
            match receipt with
            | ReceiptConflicting => require_action item
                "operation ID exists with a conflicting receipt; reconcile the target client"
            | _ =>
                let '(step, _) := advance_sp_deposit_status (si_step item)
                                    (ds_operation_id submission) SpInitiated in
                save_stability_step (with_stability_step step item);;
                mret true
            end
  end.

(** [advance_stability_deposit_with]; [fee] is
    [funding_policy.stability_pool_min_fee_rate_ppb]. *)
Definition advance_stability_deposit (item : StabilityItem) (claimed fee : Z) : Prog bool :=
  if has_in_flight_submission (si_step item) then submit_stability_deposit item false
  else match ss_sp_deposit_operation_id (si_step item) with
  | Some operation_id =>
      parsed ← call_text (ParseOperationId operation_id);
      id ← or_else Internal parsed;
      observe_stability_deposit item id
  | None =>
      balance ← call_amount (TargetWalletBalance (ft_federation_id (si_target item)));
      balance ← or_else Unavailable balance;
      let amount := committed_deposit_amount (si_committed_amount item) claimed balance in
      if amount =? 0 then require_action item
        "target client holds less spendable e-cash than this item committed; reconcile the target client before resuming"
      else
        id ← call_text GenerateDepositId;
        id ← or_else Internal id;
        let next := begin_submission {| ds_operation_id := id; ds_amount := amount;
                                        ds_min_fee_rate_ppb := fee |} (si_step item) in
        staged ← compare_and_set_item_step (si_item_id item) (AStabilityStep (si_step item))
                   (AStabilityStep next);
        if negb staged then mret false
        else submit_stability_deposit (with_stability_step next item) true
  end.

(** [advance_after_withdrawal_completed]. *)
Definition advance_after_withdrawal_completed (item : StabilityItem) (fee : Z) : Prog bool :=
  let step := si_step item in
  status ← match ss_peg_in_status step, ss_peg_in_amount step, ss_peg_in_operation_id step with
           | Some Claimed, Some amount, Some operation_id => mret (PegClaimed amount operation_id)
           | _, _, _ =>
               address ← lift (ok_or Internal (ss_peg_in_address step));
               s ← call_peg_in (ObservePegIn (ft_federation_id (si_target item)) address);
               or_else Unavailable s
           end;
  match status with
  | PegWaiting =>
      save_stability_step (with_stability_step
        (set_peg_in_status WaitingForTransaction None step) item);;
      mret true
  | PegInConfirmed amount =>
      save_stability_step (with_stability_step
        (set_peg_in_status PegConfirmed (Some amount) step) item);;
      mret true
  | PegClaimed amount operation_id =>
      let s := set_peg_in_status Claimed (Some amount) step in
      let item := with_stability_step
        (set_peg_in (Some operation_id) (ss_peg_in_address s) (ss_peg_in_status s)
           (ss_peg_in_amount s) s) item in
      save_stability_step item;;
      advance_stability_deposit item amount fee
  | PegFailed reason => require_action item reason
  end.

(** ** The pass *)

(** The end of [process_stability_pool_item], once the peg-in address is
    persisted. *)
Definition fund_stability_item (setup : SetupConfig) (fee : Z) (advanced : bool)
    (item : StabilityItem) : Prog bool :=
  spent ← call_bool BudgetSpent;
  if spent : bool then mret advanced
  else
    operation ← ensure_wallet_operation setup (stability_funding_step item);
    match operation with
    | None => mret false
    | Some (operation_id, operation) =>
        item ← (if bool_decide (ss_wallet_operation_id (si_step item) = Some operation_id)
                then mret item
                else let item := with_stability_step
                                   (set_step_operation operation_id (si_step item)) item in
                     save_stability_step item;; mret item);
        match wo_status operation with
        | OpPending =>
            submit_funding_withdrawal setup (stability_funding_step item) operation_id;; mret true
        | OpBroadcast | OpConfirmed => mret advanced
        | OpInDoubt | OpManualReviewRequired => mret advanced
        | OpFailed =>
            require_item_action (si_item_id item) WithdrawFailed
              "stability-pool funding wallet operation failed";;
            mret true
        | OpCancelled =>
            fail_item (si_item_id item) WithdrawFailed
              "stability-pool funding wallet operation was cancelled while item was active";;
            mret true
        | OpCompleted => advance_after_withdrawal_completed item fee
        end
    end.

(** The middle: the target check and the peg-in address. *)
Definition check_stability_item (setup : SetupConfig) (fee : Z) (advanced : bool)
    (item : StabilityItem) : Prog bool :=
  let federation_id := ft_federation_id (si_target item) in
  spent ← call_bool BudgetSpent;
  if spent : bool then mret advanced
  else
    check ← call_target (CheckTarget federation_id);
    check ← or_else Unavailable check;
    match check with
    | Some reason =>
        fail_item (si_item_id item) StabilityPoolFailed reason;; mret true
    | None =>
        match ss_peg_in_address (si_step item) with
        | Some _ => fund_stability_item setup fee advanced item
        | None =>
            spent ← call_bool BudgetSpent;
            if spent : bool then mret advanced
            else
              peg_in ← call_peg_address (AllocatePegInAddress federation_id);
              peg_in ← or_else Unavailable peg_in;
              match peg_in with
              | inr reason =>
                  fail_item (si_item_id item) StabilityPoolFailed reason;; mret true
              | inl address =>
                  valid ← call_unit (ParseAddress address (sc_network setup));
                  or_else InvalidArgument valid;;
                  let s := si_step item in
                  let item := with_stability_step
                    (set_peg_in (ss_peg_in_operation_id s) (Some address)
                       (Some WaitingForTransaction) (ss_peg_in_amount s) s) item in
                  save_stability_step item;;
                  fund_stability_item setup fee true item
              end
        end
    end.

(** [process_stability_pool_item]. *)
Definition process_stability_pool_item (setup : SetupConfig) (fee : Z) (item : StabilityItem)
    : Prog bool :=
  match si_corrupt_step_json item with
  | Some _ => require_action item
      "persisted stability-pool step JSON is unreadable; raw state retained for operator reconciliation"
  | None =>
      readable ← match ss_sp_deposit_operation_id (si_step item) with
                 | Some id => parsed ← call_text (ParseOperationId id);
                              mret (match parsed with Ok _ => true | _ => false end)
                 | None => mret true
                 end;
      if negb readable then require_action item
        "persisted stability-pool operation ID is malformed; reconcile the target client"
      else
        submission ← submitting_submission (si_step item);
        match submission with
        | None => require_action item
            "in-flight stability-pool submission is unusable; reconcile the target client and provider account"
        | Some _ =>
            running ← mark_item_running (si_item_id item);
            if negb running then mret false
            else match ss_target_client_opened_at (si_step item) with
            | Some _ => check_stability_item setup fee false item
            | None =>
                opened ← call_unit (EnsureClient (ft_federation_id (si_target item)));
                or_else Unavailable opened;;
                at_ ← call_time Now;
                let item := with_stability_step (set_client_opened at_ (si_step item)) item in
                save_stability_step item;;
                check_stability_item setup fee true item
            end
        end
  end.

(** [process_stability_pool_allocations]: an item's error is logged. *)
Definition process_stability_pool_allocations (setup : SetupConfig) (fee : Z) : Prog unit :=
  l ← stmt (λ _, active_stability_pool_items);
  for_each l (λ item,
    r ← attempt (process_stability_pool_item setup fee item);
    match r with Panic => Done Panic | _ => mret tt end).

(** ** Reconciling a target client *)

Definition audit (action : string) (federation_id : option string)
    (outcome : ManualOperationStatus) : AuditRow :=
  {| au_action := action; au_federation_id := federation_id; au_item_id := None;
     au_operation_id := None; au_outcome := Some outcome |}.

(** [audited] and [abandon_audited]: record a refusal and answer it. *)
Definition audited (action federation_id : string) (outcome : ManualOperationStatus)
    : Prog ManualOperationStatus :=
  stmt (λ _, tx_put (add_audit (audit action (Some federation_id) outcome)));;
  mret outcome.

(** [bind_and_resume]. *)
Definition bind_and_resume (item : StabilityItem) (operation_id : string) : Prog unit :=
  let s := si_step item in
  let s := set_sp_deposit (ss_sp_deposit_operation_id s) (ss_sp_deposit_status s)
             (Some (si_committed_amount item))
             (Some (default 0 (ss_sp_deposit_min_fee_rate_ppb s))) s in
  let '(s, landed) := advance_sp_deposit_status s operation_id SpInitiated in
  if negb landed then fail FailedPrecondition
  else
    stmt (λ now,
      rows ← update_item (si_item_id item)
               (λ i, bool_decide (it_status i = ItemActionRequired))
               (λ i, set_item_status ItemRunning now (set_item_step (AStabilityStep s) now
                       (set_item_outcome None (it_fulfilled_amount i)
                          (it_completion_evidence i) i)));
      if rows =? 1 then mret tt else tx_err FailedPrecondition).

(** [bind_target_deposit]. *)
Definition bind_target_deposit (federation_id operation : string) : Prog ManualOperationStatus :=
  let refuse := audited "bind_target_deposit" federation_id in
  item ← stmt (λ _, stability_pool_item federation_id);
  match item with
  | None => refuse ManualNotFound
  | Some item =>
      if negb (bool_decide (si_status item = ItemActionRequired)) then refuse Rejected
      else match si_corrupt_step_json item with
      | Some _ => refuse Rejected
      | None =>
          match ss_sp_deposit_operation_id (si_step item) with
          | Some existing => refuse (if bool_decide (existing = operation) then AlreadyApplied
                                     else Rejected)
          | None =>
              parsed ← call_text (ParseOperationId operation);
              id ← or_else InvalidArgument parsed;
              found ← call_balance (GetDepositOperation (ft_federation_id (si_target item)) id);
              found ← or_else Unavailable found;
              match found with
              | None => refuse ManualNotFound
              | Some amount =>
                  if amount <? si_committed_amount item then refuse Rejected
                  else bind_and_resume item id;; refuse Accepted
              end
          end
      end
  end.

(** [abandon_target_client_value]; [reason_given] is that the trimmed reason is
    not empty. *)
Definition abandon_target_client_value (federation_id : string) (reason_given : bool)
    (detail : string) : Prog ManualOperationStatus :=
  let refuse := audited "abandon_target_client_value" federation_id in
  if negb reason_given then refuse Rejected
  else
    item ← stmt (λ _, stability_pool_item federation_id);
    match item with
    | None => refuse ManualNotFound
    | Some item =>
        if negb (bool_decide (si_status item = ItemActionRequired)) then refuse Rejected
        else if bool_decide (si_corrupt_step_json item = None) &&
                negb (bool_decide (ss_peg_in_status (si_step item) = Some Claimed))
        then refuse Rejected
        else
          stmt (λ now,
            rows ← update_item (si_item_id item)
                     (λ i, bool_decide (it_status i = ItemActionRequired))
                     (λ i, set_item_status ItemFailed now
                             (set_item_outcome
                                (Some {| lf_code := StabilityPoolFailed; lf_reason := Some detail |})
                                (it_fulfilled_amount i) (it_completion_evidence i) i));
            if negb (rows =? 1) then tx_err FailedPrecondition
            else tx_put (add_audit (audit "abandon_target_client_value" (Some federation_id)
                                      Accepted)));;
          mret Accepted
    end.

End Stability.
