(* ===== verification/LmManual.v ===== *)
(** * Operator remediation
      ([crates/liquidity-manager-daemon/src/manual_ops.rs])

    The guarded verbs an operator has for allocations the daemon cannot resolve
    on its own.  Each writes an audit row with its outcome; a string argument
    that must not be blank comes with the answer of that test. *)

From S2P Require Import Prelude LmSchema LmProg LmWallet LmAllocations LmFunds LmFunding LmStability.
From stdpp Require Import base gmap strings list.
From Stdlib Require Import ZArith Lia.
Open Scope Z_scope.

Module Manual.
Import Ledger Daemon Wallet Allocations Funds Funding Stability.

(** [insert_audit_tx]. *)
Definition insert_audit_tx (action : string) (federation_id item operation : option string)
    (outcome : ManualOperationStatus) : LmTx unit :=
  tx_put (add_audit {| au_action := action; au_federation_id := federation_id;
                       au_item_id := item; au_operation_id := operation;
                       au_outcome := Some outcome |}).

(** Record an outcome and answer it, in the transaction. *)
Definition answer_tx (action : string) (federation_id item operation : option string)
    (outcome : ManualOperationStatus) : LmTx ManualOperationStatus :=
  insert_audit_tx action federation_id item operation outcome;; mret outcome.

(** [load_operation_tx]. *)
Definition load_operation_tx (operation_id : string) : LmTx (option WalletOp) :=
  tx_get (λ d, operations d !! operation_id).

(** ** Abandoning a gateway item *)

(** [abandon_gateway_item_with_database]. *)
Definition abandon_gateway_item (federation_id : string) (reason_given : bool) (detail : string)
    : Prog ManualOperationStatus :=
  let refuse := audited "abandon_gateway_item" federation_id in
  if negb reason_given then refuse Rejected
  else
    item ← stmt (λ _, gateway_item federation_id);
    match item with
    | None => refuse ManualNotFound
    | Some item =>
        if negb (in_list reserving_item_statuses (gi_status item)) then refuse Rejected
        else match gs_attribution_overdue_since (gi_step item) with
        | None => refuse Rejected
        | Some _ =>
            done ← stmt (λ now,
              operation ← match gs_wallet_operation_id (gi_step item) with
                          | Some o => load_operation_tx o
                          | None => mret None
                          end;
              match operation with
              | None => mret false
              | Some operation =>
                  if negb (bool_decide (wo_status operation = OpCompleted)) then mret false
                  else
                    rows ← update_item (gi_item_id item)
                      (λ i, in_list reserving_item_statuses (it_status i))
                      (λ i, set_item_status ItemFailed now
                              (set_item_outcome
                                 (Some {| lf_code := GatewayAttachFailed; lf_reason := Some detail |})
                                 (it_fulfilled_amount i) (it_completion_evidence i) i));
                    if negb (rows =? 1) then tx_err FailedPrecondition
                    else
                      tx_put (add_audit (audit "abandon_gateway_item" (Some federation_id)
                                           Accepted));;
                      mret true
              end);
            if done : bool then mret Accepted else refuse Rejected
        end
    end.

(** ** Releasing an allocation *)

(** [release_federation_allocation_with_database]; a refusal rolls its
    transaction back and is audited in another. *)
Definition release_federation_allocation (federation_id : string) (reason_given : bool)
    : Prog ManualOperationStatus :=
  let refuse := audited "release_federation_allocation" federation_id in
  if negb reason_given then refuse Rejected
  else
    outcome ← stmt (λ _,
      outcome ← release_allocation_tx federation_id;
      match outcome with
      | Released _ =>
          insert_audit_tx "release_federation_allocation" (Some federation_id) None None Accepted;;
          mret outcome
      | _ => mret outcome
      end);
    match outcome with
    | ReleaseNotFound => refuse ManualNotFound
    | Held _ => refuse Rejected
    | Released _ => mret Accepted
    end.

(** ** Manual review *)

(** [ManualReviewResolution]. *)
Inductive ManualReviewResolution := ResolveCompleted | ResolveFailed | ResolveSafeToRetry.

(** The outcome a request asks for; [txid] comes with whether it is blank. *)
Definition review_outcome (resolution : ManualReviewResolution) (txid : option (string * bool))
    (reason : option string) : option ManualReviewOutcome :=
  match resolution, txid with
  | ResolveCompleted, Some (txid, false) => Some (ReviewCompleted txid)
  | ResolveCompleted, _ => None
  | _, Some _ => None
  | ResolveFailed, None =>
      Some (ReviewFailed (default "operator resolved manual review as failed" reason))
  | ResolveSafeToRetry, None => Some ReviewSafeToRetry
  end.

(** [resolve_manual_review_with_database]. *)
Definition resolve_review_tx (operation_id : string) (outcome : ManualReviewOutcome)
    (at_ now : Z) : LmTx ManualOperationStatus :=
  let answer := answer_tx "resolve_manual_review" None None (Some operation_id) in
  operation ← load_operation_tx operation_id;
  match operation with
  | None => answer ManualNotFound
  | Some operation =>
      if negb (bool_decide (wo_status operation = OpManualReviewRequired)) then
        answer (if bool_decide (wo_status operation = OpInDoubt) then Rejected
                else AlreadyApplied)
      else
        applied ← resolve_manual_review_tx operation_id outcome at_ now;
        answer (if applied : bool then Accepted else AlreadyApplied)
  end.
Definition resolve_manual_review_with_database (operation_id : string)
    (resolution : ManualReviewResolution) (txid : option (string * bool)) (reason : option string)
    : Prog ManualOperationStatus :=
  match review_outcome resolution txid reason with
  | None => mret Rejected
  | Some outcome =>
      at_ ← call_time Now;
      status ← stmt (resolve_review_tx operation_id outcome at_);
      match status with
      | Accepted => get_wallet_operation operation_id;; mret Accepted
      | _ => mret status
      end
  end.

(** [chain_evidence_gap]: whether the chain shows that [txid] pays the
    operation's address its amount. *)
Definition pays_operation (address : string) (amount : Z) (outputs : list ChainOutput) : bool :=
  existsb (λ o, bool_decide (co_address o = Some address) && (co_amount o =? amount)) outputs.
Definition chain_evidence_gap (txid address : string) (amount : Z) : Prog bool :=
  evidence ← call_outputs (TxEvidence txid);
  mret (match evidence with
        | Ok (Some outputs) => negb (pays_operation address amount outputs)
        | _ => true
        end).

(** [completed_resolution_lacks_chain_evidence] for a configured observer. *)
Definition completed_resolution_lacks_chain_evidence (operation_id : string)
    (resolution : ManualReviewResolution) (txid : option (string * bool)) : Prog bool :=
  match resolution, txid with
  | ResolveCompleted, Some (txid, false) =>
      operation ← attempt (get_wallet_operation operation_id);
      match operation with
      | Ok operation =>
          match wo_address operation with
          | None => mret true
          | Some address => chain_evidence_gap txid address (wo_amount operation)
          end
      | _ => mret false
      end
  | _, _ => mret false
  end.

(** [resolve_manual_review]. *)
Definition resolve_manual_review (operation_id : string) (resolution : ManualReviewResolution)
    (txid : option (string * bool)) (reason : option string) : Prog ManualOperationStatus :=
  lacks ← completed_resolution_lacks_chain_evidence operation_id resolution txid;
  if lacks : bool then mret Rejected
  else resolve_manual_review_with_database operation_id resolution txid reason.

(** [complete_review_without_evidence]; [txid] is trimmed. *)
Definition complete_review_without_evidence (operation_id txid : string)
    (reason_given txid_given : bool) : Prog ManualOperationStatus :=
  if negb reason_given then mret Rejected
  else if negb txid_given then mret Rejected
  else stmt (λ now,
    let answer := answer_tx "complete_review_without_evidence" None None (Some operation_id) in
    operation ← load_operation_tx operation_id;
    match operation with
    | None => answer ManualNotFound
    | Some operation =>
        if negb (bool_decide (wo_status operation = OpManualReviewRequired)) then answer Rejected
        else
          applied ← resolve_manual_review_tx operation_id (ReviewCompleted txid) now now;
          answer (if applied : bool then Accepted else Rejected)
    end).

(** ** Retrying a funding step *)

(** [is_terminal_item], [retry_safe_wallet_status] and
    [cancel_safe_wallet_status]. *)
Definition is_terminal_item (s : ItemAllocationStatus) : bool :=
  in_list [ItemCompleted; ItemFailed; ItemCancelled] s.
Definition retry_safe_wallet_status (r : WalletOp) : bool :=
  match wo_status r with
  | OpPending | OpFailed => bool_decide (wo_txid r = None)
  | _ => false
  end.
Definition cancel_safe_wallet_status (r : WalletOp) : bool :=
  in_list [OpPending; OpFailed; OpCancelled] (wo_status r).

(** [load_items_tx] and [load_operations_for_item_tx]. *)
Definition load_items_tx (federation_id : string) (item : option string)
    : LmTx (list (string * Item)) :=
  tx_get (λ d, select_ordered (λ _, 0)
    (λ k i, bool_decide (it_federation_id i = federation_id) &&
            match item with Some id => bool_decide (k = id) | None => true end) (items d)).
Definition load_operations_for_item_tx (item : string) : LmTx (list (string * WalletOp)) :=
  tx_get (λ d, select_ordered wo_created_at
    (λ _ r, bool_decide (wo_item_id r = Some item)) (operations d)).

(** The loop over the items: [inl] is the item a refusal names, [inr] the items
    and the failed operations to requeue. *)
Fixpoint retry_plan (operation : option (string * WalletOp)) (l : list (string * Item))
    : LmTx (string + list string * list string) :=
  match l with
  | [] => mret (inr ([], []))
  | (id, item) :: l =>
      if bool_decide (it_status item = ItemFailed) then mret (inl id)
      else if is_terminal_item (it_status item) then retry_plan operation l
      else
        operations ← match operation with
                     | Some o => mret [o]
                     | None => load_operations_for_item_tx id
                     end;
        if negb (bool_decide (it_status item = ItemActionRequired)) then retry_plan operation l
        else if negb (forallb (λ kr, retry_safe_wallet_status kr.2) operations) then mret (inl id)
        else
          rest ← retry_plan operation l;
          match rest with
          | inl refused => mret (inl refused)
          | inr (ids, wallets) =>
              mret (inr (id :: ids,
                (fst <$> filter (λ kr, wo_status kr.2 = OpFailed) operations) ++ wallets))
          end
  end.

(** What the request names an operation by: [inl] is the refusal. *)
Definition retry_operation_tx (federation_id : string) (item operation : option string)
    : LmTx (ManualOperationStatus + option (string * WalletOp)) :=
  match operation with
  | None => mret (inr None)
  | Some operation_id =>
      row ← load_operation_tx operation_id;
      match row with
      | None => mret (inl ManualNotFound)
      | Some row =>
          if negb (bool_decide (wo_federation_id row = Some federation_id)) then
            mret (inl ManualNotFound)
          else match wo_item_id row with
          | None => mret (inl Rejected)
          | Some row_item =>
              match item with
              | Some i => if bool_decide (row_item = i) then mret (inr (Some (operation_id, row)))
                          else mret (inl ManualNotFound)
              | None => mret (inr (Some (operation_id, row)))
              end
          end
      end
  end.

(** [retry_funding_step_with_database]. *)
Definition retry_funding_step_tx (federation_id : string) (item operation : option string)
    (now : Z) : LmTx ManualOperationStatus :=
  let answer := answer_tx "retry_funding_step" (Some federation_id) item operation in
  exists_ ← tx_get (λ d, bool_decide (is_Some (allocations d !! federation_id)));
  if negb exists_ then answer ManualNotFound
  else
    named ← retry_operation_tx federation_id item operation;
    match named with
    | inl refusal => answer refusal
    | inr named =>
        let selector := match named with
                        | Some (_, row) => coalesce (wo_item_id row) item
                        | None => item
                        end in
        l ← load_items_tx federation_id selector;
        match l with
        | [] => answer ManualNotFound
        | _ =>
            plan ← retry_plan named l;
            match plan with
            | inl refused =>
                answer_tx "retry_funding_step" (Some federation_id) (Some refused) operation Rejected
            | inr ([], []) => answer AlreadyApplied
            | inr (ids, wallets) =>
                tx_for wallets (λ o, reset_wallet_operation_tx o now);;
                tx_for ids (λ i, reset_item_tx i now);;
                answer Accepted
            end
        end
    end.
Definition retry_funding_step (federation_id : string) (item operation : option string)
    : Prog ManualOperationStatus :=
  stmt (retry_funding_step_tx federation_id item operation).

(** ** Cancelling an allocation *)

(** The loop over the items: [inl] is the item and operation that refuse,
    [inr] the items and operations to cancel. *)
Fixpoint cancel_plan (l : list (string * Item))
    : LmTx (string * string + list string * list string) :=
  match l with
  | [] => mret (inr ([], []))
  | (id, item) :: l =>
      if negb (in_list [ItemPending; ItemRunning; ItemActionRequired] (it_status item)) then
        cancel_plan l
      else
        operations ← load_operations_for_item_tx id;
        match head (filter (λ kr, cancel_safe_wallet_status kr.2 = false) operations) with
        | Some (o, _) => mret (inl (id, o))
        | None =>
            rest ← cancel_plan l;
            match rest with
            | inl refused => mret (inl refused)
            | inr (ids, wallets) =>
                mret (inr (id :: ids,
                  (fst <$> filter (λ kr, in_list [OpPending; OpFailed] (wo_status kr.2) = true)
                             operations) ++ wallets))
            end
        end
  end.

(** [cancel_allocation_with_database]. *)
Definition cancel_allocation_tx (federation_id : string) (reason : option string) (at_ now : Z)
    : LmTx ManualOperationStatus :=
  let answer := answer_tx "cancel_allocation" (Some federation_id) None None in
  exists_ ← tx_get (λ d, bool_decide (is_Some (allocations d !! federation_id)));
  if negb exists_ then answer ManualNotFound
  else
    l ← load_items_tx federation_id None;
    plan ← cancel_plan l;
    match plan with
    | inl (id, o) =>
        answer_tx "cancel_allocation" (Some federation_id) (Some id) (Some o) Rejected
    | inr ([], _) =>
        answer (if negb (bool_decide (length l = 0%nat)) &&
                   forallb (λ kr, bool_decide (it_status kr.2 = ItemCancelled)) l
                then AlreadyApplied else Rejected)
    | inr (ids, wallets) =>
        let reason := default "operator cancelled funding work" reason in
        tx_for wallets (λ o, cancel_wallet_operation_tx o reason at_ now);;
        tx_for ids (λ i, cancel_item_tx i now);;
        answer Accepted
    end.
Definition cancel_allocation (federation_id : string) (reason : option string)
    : Prog ManualOperationStatus :=
  at_ ← call_time Now;
  status ← stmt (cancel_allocation_tx federation_id reason at_);
  match status with
  | ManualNotFound => mret status
  | _ => load_allocation_status_by_federation federation_id;; mret status
  end.

End Manual.
