(* ===== verification/LmRequests.v ===== *)
(** * Accepting liquidity requests
      ([crates/liquidity-manager-daemon/src/public.rs])

    A signed request that names this provider is answered from the federation's
    existing allocation, or validated, verified and planned against current
    capacity, and committed in one transaction under the setup revision that
    admitted it. *)

From S2P Require Import Prelude LmSchema LmProg LmWallet LmAllocations LmFunds.
From stdpp Require Import base gmap strings list.
From Stdlib Require Import ZArith Lia.
Open Scope Z_scope.

Module Requests.
Import Ledger Daemon Wallet Allocations Funds.

Definition protocol_version : Z := 1.
(** [MAX_REQUEST_LIFETIME_SECS] and [MAX_ISSUED_AT_SKEW_SECS]. *)
Definition max_request_lifetime_secs : Z := 3600.
Definition max_issued_at_skew_secs : Z := 120.

(** [StoredSetupState]: the configuration is present and [Ready] or not. *)
Record StoredSetup := {
  st_ready_config : option SetupConfig;
  st_revision : Z
}.

(** ** Validation *)

(** [validate_amount_bounds]. *)
Definition validate_amount_bounds (a : LiquidityAmountBounds) : bool :=
  let gateway_requested := 0 <? ab_gateway_min_amount a in
  let stability_requested := 0 <? ab_stability_min_amount a in
  if negb gateway_requested && negb stability_requested then false
  else if negb gateway_requested && bool_decide (is_Some (ab_gateway_max_amount a)) then false
  else if negb stability_requested && bool_decide (is_Some (ab_stability_max_amount a)) then false
  else match ab_gateway_max_amount a with
       | Some max => ab_gateway_min_amount a <=? max
       | None => true
       end &&
       match ab_stability_max_amount a with
       | Some max => ab_stability_min_amount a <=? max
       | None => true
       end.

(** [validate_supported_sources]. *)
Definition validate_supported_sources (a : LiquidityAmountBounds) (l : list SourceType) : bool :=
  negb ((0 <? ab_gateway_min_amount a) && negb (in_list l Gateway)) &&
  negb ((0 <? ab_stability_min_amount a) && negb (in_list l StabilityPool)).

(** [pre_validation_failure]; the canonical details hash is the API crate's. *)
Definition pre_validation_failure (setup : StoredSetup) (public_ready : bool)
    (request : RequestLiquidityRequest) : Prog (option PublicRejectionCode) :=
  if negb public_ready then mret (Some ProviderUnavailable)
  else match st_ready_config setup with
  | None => mret (Some ProviderUnavailable)
  | Some config =>
      if negb (rq_version request =? protocol_version) then mret (Some VersionUnsupported)
      else
        now ← call_time Now;
        if rq_expires_at request <=? now then mret (Some RequestExpired)
        else if max_request_lifetime_secs <?
                saturating_sub_u (rq_expires_at request) (rq_issued_at request)
        then mret (Some RequestExpired)
        else if saturating_add_u u64_max now max_issued_at_skew_secs <? rq_issued_at request
        then mret (Some RequestExpired)
        else if negb (bool_decide (rq_network request = sc_network config)) ||
                negb (in_list (sc_supported_networks config) (rq_network request))
        then mret (Some UnsupportedNetwork)
        else if negb (validate_amount_bounds (rq_amounts request))
        then mret (Some InvalidAmountBounds)
        else if negb (validate_supported_sources (rq_amounts request)
                        (sc_supported_sources config))
        then mret (Some UnsupportedSourceType)
        else
          expected ← call_text DetailsHash;
          expected ← or_else Internal expected;
          mret (if bool_decide (expected = rq_details_payload_hash request) then None
                else Some InvalidDetailsPayload)
  end.

(** ** Planning *)

(** [AcceptedPlan]; the initial status follows from the items. *)
Record AcceptedPlan := {
  ap_committed_amount : Z;
  ap_reserved_amount : Z;
  ap_items : list PlannedItem
}.

(** The items a request asks for. *)
Definition plan_items (config : SetupConfig) (request : RequestLiquidityRequest)
    : res ServiceErrorCode (list PlannedItem) :=
  let a := rq_amounts request in
  let f := rq_federation_id request in
  gateway ← (if 0 <? ab_gateway_min_amount a then
               reserved ← checked_sats_add (ab_gateway_min_amount a) (sc_fee_reserve config);
               Ok [{| pi_item_id := item_id f Gateway; pi_source_type := Gateway;
                      pi_target := GatewayTarget (item_id f Gateway) (sc_gateway_id config)
                                     (sc_gateway_name config) (ab_gateway_min_amount a);
                      pi_amount := ab_gateway_min_amount a; pi_reserved_amount := reserved |}]
             else Ok []);
  stability ← (if 0 <? ab_stability_min_amount a then
               reserved ← checked_sats_add (ab_stability_min_amount a) (sc_fee_reserve config);
               Ok [{| pi_item_id := item_id f StabilityPool; pi_source_type := StabilityPool;
                      pi_target := StabilityPoolTarget (item_id f StabilityPool)
                                     (ab_stability_min_amount a);
                      pi_amount := ab_stability_min_amount a; pi_reserved_amount := reserved |}]
             else Ok []);
  Ok (gateway ++ stability).

(** [plan_allocation]. *)
Definition plan_allocation (config : SetupConfig) (request : RequestLiquidityRequest)
    : LmTx (option AcceptedPlan) :=
  planned ← tx_lift (plan_items config request);
  committed ← tx_lift (checked_sum (pi_amount <$> planned));
  reserved ← tx_lift (checked_sum (pi_reserved_amount <$> planned));
  balance ← latest_wallet_balance_observation_tx;
  match balance with
  | None => mret None
  | Some balance =>
      if negb (bool_decide (bo_network balance = sc_network config)) then mret None
      else
        available ← available_balance_for_request config (bo_spendable balance);
        basis ← match sc_capacity_mode config with
                | AvailableFunds => mret (Some available)
                | ExplicitCap =>
                    match sc_explicit_cap config with
                    | None => mret None
                    | Some cap =>
                        active ← active_reserved_amount_tx;
                        mret (Some (Z.min (saturating_sub_u cap active) available))
                    end
                end;
        match basis with
        | None => mret None
        | Some basis =>
            if basis <? reserved then mret None
            else mret (Some {| ap_committed_amount := committed; ap_reserved_amount := reserved;
                               ap_items := planned |})
        end
  end.

(** ** Taking a federation over *)

(** [take_over_idle_allocation]. *)
Definition take_over_idle_allocation (request : RequestLiquidityRequest) : LmTx bool :=
  current ← tx_get (λ d, allocations d !! rq_federation_id request);
  match current with
  | None => mret false
  | Some current =>
      if bool_decide (al_requester_pubkey current = rq_requester_pubkey request) then mret false
      else
        outcome ← release_allocation_tx (rq_federation_id request);
        match outcome with
        | Released _ =>
            tx_put (add_audit {| au_action := "take_over_idle_allocation";
                                 au_federation_id := Some (rq_federation_id request);
                                 au_item_id := None; au_operation_id := None;
                                 au_outcome := None |});;
            mret true
        | _ => mret false
        end
  end.

(** ** Responses *)

(** [RequestLiquidityOutcome]. *)
Inductive RequestLiquidityOutcome :=
| RequestAccepted (status : AllocationStatus)
| RequestRejected (code : PublicRejectionCode).

(** [ExistingAllocationDisclosure]. *)
Inductive ExistingAllocationDisclosure := RequesterOnly | Verified.

(** [respond_from_existing_allocation]. *)
Definition respond_from_existing_allocation (request : RequestLiquidityRequest)
    (disclosure : ExistingAllocationDisclosure) : Prog (option RequestLiquidityOutcome) :=
  row ← stmt (λ _, tx_get (λ d, allocations d !! rq_federation_id request));
  match row with
  | None => mret None
  | Some row =>
      let is_requester := bool_decide (al_requester_pubkey row = rq_requester_pubkey request) in
      let details_match :=
        bool_decide (al_details_payload_hash row = rq_details_payload_hash request) in
      match is_requester, details_match, disclosure with
      | true, true, _ =>
          status ← load_allocation_status_by_federation (rq_federation_id request);
          status ← lift (ok_or Internal status);
          mret (Some (RequestAccepted status))
      | true, false, _ => mret (Some (RequestRejected RequestConflict))
      | false, _, RequesterOnly => mret None
      | false, _, Verified => mret (Some (RequestRejected RequestConflict))
      end
  end.

(** The initial status of an accepted plan. *)
Definition initial_status (request : RequestLiquidityRequest) (plan : AcceptedPlan) (now : Z)
    : AllocationStatus :=
  {| as_details_payload_hash := rq_details_payload_hash request;
     as_provider_pubkey := rq_provider_pubkey request;
     as_item_statuses := (λ p, {| ai_target := pi_target p; ai_status := ItemPending;
                                  ai_fulfilled_amount := None; ai_completion_evidence := None;
                                  ai_failure := None; ai_updated_at := now |})
                         <$> ap_items plan |}.

(** The write transaction of [accept_or_reject_request]; [now] is the clock it
    reads.  A rejection and a lost insert roll it back. *)
Inductive AdmissionVerdict :=
| PlanAdmitted (plan : AcceptedPlan)
| Refused (code : PublicRejectionCode)
| NotInserted.
Definition admit_tx (setup : StoredSetup) (config : SetupConfig)
    (request : RequestLiquidityRequest) (request_json summary : string) (now : Z)
    : LmTx AdmissionVerdict :=
  current_revision ← tx_get setup_revision;
  if negb (current_revision =? st_revision setup) then mret (Refused ProviderUnavailable)
  else if rq_expires_at request <=? now then mret (Refused RequestExpired)
  else
    plan ← plan_allocation config request;
    match plan with
    | None => mret (Refused InsufficientCapacity)
    | Some plan =>
        let insert := insert_allocation request request_json summary (ap_committed_amount plan)
                        (ap_reserved_amount plan) (ap_items plan) now in
        inserted ← insert;
        inserted ← (if inserted : bool then mret true
                    else
                      taken ← take_over_idle_allocation request;
                      if taken : bool then insert else mret false);
        if inserted : bool then mret (PlanAdmitted plan) else mret NotInserted
    end.

(** [tx.rollback()] on every verdict that does not commit. *)
Definition admission_tx (setup : StoredSetup) (config : SetupConfig)
    (request : RequestLiquidityRequest) (request_json summary : string) (now : Z)
    : LmTx AdmissionVerdict := fun d =>
  match admit_tx setup config request request_json summary now d with
  | Ok (d', PlanAdmitted plan) => Ok (d', PlanAdmitted plan)
  | Ok (_, v) => Ok (d, v)
  | Err e => Err e
  | Panic => Panic
  end.

(** [accept_or_reject_request]. *)
Definition accept_or_reject_request (setup : StoredSetup) (public_ready : bool)
    (request : RequestLiquidityRequest) (request_json : string) : Prog RequestLiquidityOutcome :=
  existing ← respond_from_existing_allocation request RequesterOnly;
  match existing with
  | Some response => mret response
  | None =>
      failure ← pre_validation_failure setup public_ready request;
      match failure with
      | Some code => mret (RequestRejected code)
      | None =>
          config ← lift (ok_or Internal (st_ready_config setup));
          verdict ← call_verdict (VerifyRequest (rq_federation_id request));
          match verdict with
          | (Some code, _) => mret (RequestRejected code)
          | (None, summary) =>
              opened ← call_bool AdmissionOpen;
              if negb opened then fail Unavailable
              else
                v ← stmt (admission_tx setup config request request_json summary);
                match v with
                | PlanAdmitted plan =>
                    now ← call_time Now;
                    mret (RequestAccepted (initial_status request plan now))
                | Refused code => mret (RequestRejected code)
                | NotInserted =>
                    response ← respond_from_existing_allocation request Verified;
                    lift (ok_or Internal response)
                end
          end
      end
  end.

End Requests.
