(* ===== verification/LmSystem.v ===== *)
(** * The running liquidity manager

    Every entry point of the funding path as one system: the public request,
    the operator's verbs, the wallet sync and the two funding workers.  Tasks
    start at any time with any arguments and configuration, any number of them
    run at once, and [Daemon.act] interleaves them at their awaits.

    Module [Flip] is the system; module [Logic] the program logic its tasks are
    verified in. *)

From S2P Require Import Prelude LmSchema LmProg LmWallet LmAllocations LmFunds LmFunding LmStability LmManual LmRequests.
From stdpp Require Import base gmap strings list.
From Stdlib Require Import ZArith Lia.
Open Scope Z_scope.

Module Flip.
Import Ledger Daemon Wallet Allocations Funds Funding Stability Manual Requests.

(** [upsert_setup_state_tx], as far as the revision goes: the row is written on
    top of the revision the caller read, or not at all. *)
Definition upsert_setup_state_tx (expected_revision : Z) : LmTx unit := fun d =>
  if setup_revision d =? expected_revision then
    Ok ({| allocations := allocations d; items := items d; operations := operations d;
           tick := tick d; observation := observation d;
           gateway_observations := gateway_observations d;
           setup_revision := setup_revision d + 1; audit_log := audit_log d |}, tt)
  else Err FailedPrecondition.

Inductive Entry :=
| RequestLiquidity (setup : StoredSetup) (public_ready : bool) (request : RequestLiquidityRequest)
    (request_json : string)
| PollStatus (requester details_hash : string)
| GetFunds (setup : SetupConfig)
| CreateDepositAddress (setup : SetupConfig) (label : option string)
| RequestWithdrawal (setup : SetupConfig) (request : RequestWithdrawalRequest)
| SyncWallet (setup : SetupConfig)
| GatewayPass (setup : SetupConfig)
| StabilityPass (setup : SetupConfig) (min_fee_rate_ppb : Z)
| RetryFundingStep (federation_id : string) (item operation : option string)
| CancelAllocation (federation_id : string) (reason : option string)
| ReleaseAllocation (federation_id : string) (reason_given : bool)
| ResolveReview (operation_id : string) (resolution : ManualReviewResolution)
    (txid : option (string * bool)) (reason : option string)
| CompleteReview (operation_id txid : string) (reason_given txid_given : bool)
| AbandonGatewayItem (federation_id : string) (reason_given : bool) (detail : string)
| AbandonTargetValue (federation_id : string) (reason_given : bool) (detail : string)
| BindTargetDeposit (federation_id operation : string)
| UpdateSetup (expected_revision : Z).

Definition body (e : Entry) : Prog unit :=
  match e with
  | RequestLiquidity setup ready request json =>
      task (accept_or_reject_request setup ready request json)
  | PollStatus requester hash => task (load_allocation_status_for_poll requester hash)
  | GetFunds setup => task (get_funds setup)
  | CreateDepositAddress setup label => task (create_deposit_address setup label)
  | RequestWithdrawal setup request => task (request_withdrawal setup request)
  | SyncWallet setup => task (sync_wallet_operations setup)
  | GatewayPass setup => task (process_gateway_allocations setup)
  | StabilityPass setup fee => task (process_stability_pool_allocations setup fee)
  | RetryFundingStep f i o => task (retry_funding_step f i o)
  | CancelAllocation f reason => task (cancel_allocation f reason)
  | ReleaseAllocation f given => task (release_federation_allocation f given)
  | ResolveReview o resolution txid reason => task (resolve_manual_review o resolution txid reason)
  | CompleteReview o txid given txid_given =>
      task (complete_review_without_evidence o txid given txid_given)
  | AbandonGatewayItem f given detail => task (abandon_gateway_item f given detail)
  | AbandonTargetValue f given detail => task (abandon_target_client_value f given detail)
  | BindTargetDeposit f o => task (bind_target_deposit f o)
  | UpdateSetup r => task (stmt (λ _, upsert_setup_state_tx r))
  end.

Abbreviation FlipSys := (Sys Entry).
Abbreviation flip_run := (run body).

End Flip.

(** * A program logic for the daemon's tasks

    A task is given a typestate: a ghost value that changes at each of its
    statements and calls.  [wp] is the weakest precondition of a program: every
    statement it commits and every call it makes, from any database the other
    tasks may have left, satisfies [stmt_ok] and [call_ok] in the typestate it
    has then.  [wp_run] turns that into invariants of the running daemon. *)

Module Logic.
Import Ledger Daemon.

Section Wp.
Context {H St : Type}.
Context (stmt_ok : H -> St -> Db -> Db -> Prop) (stmt_next : St -> Db -> Db -> St).
Context (call_ok : H -> St -> Ext -> Prop) (call_next : St -> Ext -> Answer -> St).

Fixpoint wp {A} (h : H) (st : St) (p : Prog A) (Q : St -> res ServiceErrorCode A -> Prop) : Prop :=
  match p with
  | Done r => Q st r
  | Stmt t k =>
      (∀ now d d' r, run_tx (t now) d = (d', r) →
         stmt_ok h st d d' ∧ wp h (stmt_next st d d') (k r) Q) ∧
      (∀ d, stmt_ok h st d d ∧ wp h (stmt_next st d d) (k (Err Internal)) Q)
  | Call c k =>
      call_ok h st c ∧ ∀ a, answers c a = true → wp h (call_next st c a) (k a) Q
  end.

Lemma wp_mono {A} h st (p : Prog A) (Q Q' : St -> res ServiceErrorCode A -> Prop) :
  (∀ st r, Q st r → Q' st r) → wp h st p Q → wp h st p Q'.
Proof.
  intros HQ. revert st. induction p as [r|B t k IH|c k IH]; cbn; intros st.
  - auto.
  - intros [H1 H2]. split.
    + intros now d d' r Hr. destruct (H1 now d d' r Hr) as [??]. eauto.
    + intros d. destruct (H2 d) as [??]. eauto.
  - intros [H1 H2]. split; eauto.
Qed.

Definition wp_then {A B} h (f : A -> Prog B) (Q : St -> res ServiceErrorCode B -> Prop)
    (st : St) (r : res ServiceErrorCode A) : Prop :=
  match r with
  | Ok a => wp h st (f a) Q
  | Err e => Q st (Err e)
  | Panic => Q st Panic
  end.

Lemma wp_bind {A B} h st (p : Prog A) (f : A -> Prog B) Q :
  wp h st p (wp_then h f Q) → wp h st (p ≫= f) Q.
Proof.
  unfold mbind, prog_bind. revert st.
  induction p as [[a|e|]|C t k IH|c k IH]; cbn; intros st; try done.
  - intros [H1 H2]. split.
    + intros now d d' r Hr. destruct (H1 now d d' r Hr) as [??]. eauto.
    + intros d. destruct (H2 d) as [??]. eauto.
  - intros [H1 H2]. split; eauto.
Qed.

Lemma wp_attempt {A} h st (p : Prog A) Q :
  wp h st p (λ st' r, match r with Panic => Q st' Panic | _ => Q st' (Ok r) end) →
  wp h st (attempt p) Q.
Proof.
  revert st. induction p as [[a|e|]|C t k IH|c k IH]; cbn; intros st; try done.
  - intros [H1 H2]. split.
    + intros now d d' r Hr. destruct (H1 now d d' r Hr) as [??]. eauto.
    + intros d. destruct (H2 d) as [??]. eauto.
  - intros [H1 H2]. split; eauto.
Qed.

(** Programs that are fine in every typestate. *)
Definition ok {A} (h : H) (p : Prog A) : Prop := ∀ st, wp h st p (λ _ _, True).

Lemma ok_done {A} h (r : res ServiceErrorCode A) : ok h (Done r).
Proof. by intros st. Qed.
Lemma ok_ret {A} h (a : A) : ok h (mret a).
Proof. by intros st. Qed.
Lemma ok_bind {A B} h (p : Prog A) (f : A -> Prog B) :
  ok h p → (∀ a, ok h (f a)) → ok h (p ≫= f).
Proof.
  intros Hp Hf st. apply wp_bind. eapply wp_mono; [|apply Hp].
  intros st' [a|e|] _; cbn; [apply Hf|done..].
Qed.
Lemma ok_attempt {A} h (p : Prog A) : ok h p → ok h (attempt p).
Proof.
  intros Hp st. apply wp_attempt. eapply wp_mono; [|apply Hp]. by intros st' [].
Qed.
Lemma ok_for_each {A} h (l : list A) (f : A -> Prog unit) :
  (∀ a, ok h (f a)) → ok h (for_each l f).
Proof.
  intros Hf. induction l as [|a l IH]; cbn; [apply ok_ret|]. by apply ok_bind.
Qed.
Lemma ok_task {A} h (p : Prog A) : ok h p → ok h (task p).
Proof. intros Hp. apply ok_bind; [by apply ok_attempt|]. intros _. apply ok_ret. Qed.
Lemma ok_stmt {A} h (t : Z -> LmTx A) :
  (∀ now st d d' r, run_tx (t now) d = (d', r) → stmt_ok h st d d') →
  (∀ st d, stmt_ok h st d d) → ok h (stmt t).
Proof.
  intros H1 H2 st. cbn. split; [|by split].
  intros now d d' r Hr. split; [by eapply H1|done].
Qed.
Lemma ok_call {A} h c (k : Answer -> Prog A) :
  (∀ st, call_ok h st c) → (∀ a, answers c a = true → ok h (k a)) → ok h (Call c k).
Proof. intros H1 H2 st. cbn. split; [done|]. intros a Ha. by apply H2. Qed.

(** ** Invariants of a running daemon *)

Section Run.
Context (body : H -> Prog unit) (st0 : St) (d0 : Db).
(** The ghost map holds each running task's entry point and typestate. *)
Context (Inv : Db -> gmap nat (H * St) -> list (Event H) -> Prop).

Hypothesis Hbody : ∀ h, wp h st0 (body h) (λ _ _, True).
Hypothesis Hinit : Inv d0 ∅ [].
Hypothesis Hstart : ∀ d G tr h, (∀ pid, pid ∈ dom G → (pid < length tr)%nat) → Inv d G tr →
  Inv d (<[length tr := (h, st0)]> G) (EStart (length tr) h :: tr).
Hypothesis Hstmt : ∀ d G tr pid h st d', G !! pid = Some (h, st) →
  stmt_ok h st d d' → Inv d G tr →
  Inv d' (<[pid := (h, stmt_next st d d')]> G) (EStmt pid d d' :: tr).
Hypothesis Hcall : ∀ d G tr pid h st c a, G !! pid = Some (h, st) →
  call_ok h st c → answers c a = true → Inv d G tr →
  Inv d (<[pid := (h, call_next st c a)]> G) (ECall pid c a :: tr).
Hypothesis Hcrash : ∀ d G tr, Inv d G tr → Inv d ∅ (ECrash :: tr).

(** Every running task has its typestate and satisfies its program. *)
Definition tracked (G : gmap nat (H * St)) (procs : gmap nat (Prog unit)) (tr : list (Event H))
    : Prop :=
  (∀ pid p, procs !! pid = Some p →
     ∃ h st, G !! pid = Some (h, st) ∧ wp h st p (λ _ _, True)) ∧
  (∀ pid, pid ∈ dom G → (pid < length tr)%nat).

Lemma tracked_step G procs tr pid h st p e :
  tracked G procs tr → wp h st p (λ _ _, True) → (pid < length (e :: tr))%nat →
  tracked (<[pid := (h, st)]> G) (<[pid := p]> procs) (e :: tr).
Proof.
  intros [Ht Hd] Hp Hpid. split.
  - intros i q Hq. destruct (decide (i = pid)) as [->|Hne].
    + rewrite lookup_insert_eq in Hq. simplify_eq. exists h, st.
      by rewrite lookup_insert_eq.
    + rewrite lookup_insert_ne in Hq by done. rewrite lookup_insert_ne by done. by apply Ht.
  - intros i. rewrite dom_insert_L. cbn in *. intros [->%elem_of_singleton|Hi]%elem_of_union;
      [done|]. specialize (Hd i Hi). lia.
Qed.

Lemma wp_run s : run body d0 s →
  ∃ G, Inv (sys_db s) G (sys_trace s) ∧ tracked G (sys_running s) (sys_trace s).
Proof.
  induction 1 as [|c s s' Hr (G & HI & Ht) Hact].
  - exists ∅. split; [done|]. split; [done|]. intros pid. by rewrite dom_empty_L.
  - pose proof Ht as [Hproc Hdom].
    destruct c as [h|pid now|pid|pid a|]; cbn in Hact.
    + simplify_eq/=. exists (<[length (sys_trace s) := (h, st0)]> G).
      split; [by apply Hstart|]. apply tracked_step; [done|apply Hbody|cbn; lia].
    + destruct (sys_running s !! pid) as [[r|B t k|c k]|] eqn:Hp; try done.
      destruct (run_tx (t now) (sys_db s)) as [d' r] eqn:Htx. simplify_eq/=.
      destruct (Hproc pid _ Hp) as (h & st & HG & [H1 H2]).
      destruct (H1 now _ _ _ Htx) as [Hok Hwp].
      exists (<[pid := (h, stmt_next st (sys_db s) d')]> G).
      split; [by eapply Hstmt|]. apply tracked_step; [done..|].
      cbn. pose proof (Hdom pid) as Hl. rewrite elem_of_dom, HG in Hl. specialize (Hl ltac:(by eexists)). lia.
    + destruct (sys_running s !! pid) as [[r|B t k|c k]|] eqn:Hp; try done. simplify_eq/=.
      destruct (Hproc pid _ Hp) as (h & st & HG & [H1 H2]).
      destruct (H2 (sys_db s)) as [Hok Hwp].
      exists (<[pid := (h, stmt_next st (sys_db s) (sys_db s))]> G).
      split; [by eapply Hstmt|]. apply tracked_step; [done..|].
      cbn. pose proof (Hdom pid) as Hl. rewrite elem_of_dom, HG in Hl. specialize (Hl ltac:(by eexists)). lia.
    + destruct (sys_running s !! pid) as [[r|B t k|c k]|] eqn:Hp; try done.
      destruct (answers c a) eqn:Ha; [|done]. simplify_eq/=.
      destruct (Hproc pid _ Hp) as (h & st & HG & [H1 H2]).
      exists (<[pid := (h, call_next st c a)]> G).
      split; [by eapply Hcall|]. apply tracked_step; [done|by apply H2|].
      cbn. pose proof (Hdom pid) as Hl. rewrite elem_of_dom, HG in Hl. specialize (Hl ltac:(by eexists)). lia.
    + simplify_eq/=. exists ∅. split; [by eapply Hcrash|]. split; [done|].
      intros pid. by rewrite dom_empty_L.
Qed.

End Run.
End Wp.

End Logic.
