(* ===== verification/LmMachine.v ===== *)
(** * The life of a wallet operation

    The abstract state machine of one row of [wallet_operations] and of one
    allocation item, as relations between the databases before and after one
    statement.  The machine separates what the daemon does by itself from the
    edges back to [pending], which only an operator's verb takes.  [LmSteps]
    proves that every statement of every entry point follows it. *)

From S2P Require Import Prelude LmSchema LmProg LmWallet LmAllocations LmFunds LmFunding LmStability LmManual LmRequests LmSystem.
From stdpp Require Import base gmap strings list.
From Stdlib Require Import ZArith Lia.
Open Scope Z_scope.

Module Machine.
Import Ledger Daemon Wallet Allocations Funds Funding Stability Manual Requests Flip.

(** ** Operations *)

(** The edges; [reopen] allows those back to [pending]. *)
Definition op_edge (reopen : bool) (s s' : WalletOperationStatus) : bool :=
  match s, s' with
  | OpPending, (OpInDoubt | OpBroadcast | OpConfirmed | OpCompleted | OpFailed | OpCancelled) => true
  | OpInDoubt, (OpBroadcast | OpConfirmed | OpCompleted | OpFailed | OpManualReviewRequired) => true
  | OpBroadcast, (OpConfirmed | OpCompleted) => true
  | OpConfirmed, (OpBroadcast | OpCompleted) => true
  | OpManualReviewRequired, (OpCompleted | OpFailed) => true
  | OpManualReviewRequired, OpPending => reopen
  | OpFailed, OpCancelled => true
  | OpFailed, OpPending => reopen
  | _, _ => bool_decide (s = s')
  end.

(** One row over one statement that ran at tick [t]. *)
Record op_move (reopen : bool) (t : Z) (r r' : WalletOp) : Prop := {
  om_type : wo_type r' = wo_type r;
  om_federation : wo_federation_id r' = wo_federation_id r;
  om_item : wo_item_id r' = wo_item_id r;
  om_address : wo_address r' = wo_address r;
  om_fee_rate : wo_fee_rate r' = wo_fee_rate r;
  om_amount : wo_amount r ≠ 0 → wo_amount r' = wo_amount r;
  om_nonneg : 0 <= wo_amount r → 0 <= wo_amount r';
  om_intent : wo_withdrawal_intent_id r' = wo_withdrawal_intent_id r;
  om_edge : op_edge reopen (wo_status r) (wo_status r') = true;
  (* settling stamps the tick, and only settling does *)
  om_settles : wo_status r' = OpCompleted → wo_status r ≠ OpCompleted →
               wo_settled_tick r' = Some (default t (wo_settled_tick r));
  om_settled : wo_status r = OpCompleted → wo_settled_tick r' = wo_settled_tick r;
  om_unsettled : wo_status r' ≠ OpCompleted → wo_settled_tick r = None →
                 wo_settled_tick r' = None;
  (* a release is stamped at the tick it is noticed *)
  om_released : wo_released_tick r' = wo_released_tick r ∨ wo_released_tick r' = None ∨
                (is_Some (wo_settled_tick r) ∧ wo_released_tick r' = Some t)
}.

(** A row a statement inserts: an operator withdrawal is born in doubt and
    bound to its intent, any other operation pending. *)
Record op_fresh (r : WalletOp) : Prop := {
  of_status : (wo_status r = OpPending ∧ wo_withdrawal_intent_id r = None) ∨
              (wo_status r = OpInDoubt ∧ wo_type r = Withdrawal ∧ wo_item_id r = None ∧
               is_Some (wo_withdrawal_intent_id r) ∧ wo_amount r ≠ 0);
  of_nonneg : 0 <= wo_amount r;
  of_settled : wo_settled_tick r = None;
  of_released : wo_released_tick r = None
}.

(** All rows over one statement; rows are never deleted. *)
Definition ops_move (reopen : string -> bool) (d d' : Db) : Prop := ∀ o,
  match operations d !! o, operations d' !! o with
  | None, None => True
  | None, Some r' => op_fresh r'
  | Some r, Some r' => op_move (reopen o) (tick d) r r'
  | Some _, None => False
  end.

(** The unique indexes hold between the rows. *)
Definition ops_unique (d : Db) : Prop := ∀ k k' r r',
  operations d !! k = Some r → operations d !! k' = Some r' → k ≠ k' →
  op_rows_clash r r' = false.

(** Which operations an entry point may send back to [pending]. *)
Definition may_reopen (e : Entry) (o : string) : bool :=
  match e with
  | ResolveReview o' ResolveSafeToRetry _ _ => bool_decide (o = o')
  | RetryFundingStep _ _ (Some o') => bool_decide (o = o')
  | RetryFundingStep _ _ None => true
  | _ => false
  end.

(** ** Items *)

(** A terminal item keeps its outcome; no item changes what it committed. *)
Record item_move (i i' : Item) : Prop := {
  im_federation : it_federation_id i' = it_federation_id i;
  im_source : it_source_type i' = it_source_type i;
  im_target : it_target i' = it_target i;
  im_committed : it_committed_amount i' = it_committed_amount i;
  im_reserved : it_reserved_amount i' = it_reserved_amount i;
  im_terminal : in_list reserving_item_statuses (it_status i) = true ∨
                (it_status i' = it_status i ∧ it_fulfilled_amount i' = it_fulfilled_amount i ∧
                 it_completion_evidence i' = it_completion_evidence i)
}.
Definition item_fresh (i : Item) : Prop :=
  it_status i = ItemPending ∧ it_fulfilled_amount i = None ∧ it_step i = None ∧
  0 <= it_reserved_amount i.

(** Only an admission adds items, in place of nothing or of one that reserves
    nothing; only a release or an admission removes one that reserves nothing. *)
Definition may_admit (e : Entry) : bool :=
  match e with RequestLiquidity _ _ _ _ => true | _ => false end.
Definition may_release (e : Entry) : bool :=
  match e with RequestLiquidity _ _ _ _ | ReleaseAllocation _ _ => true | _ => false end.
Definition items_move (admits releases : bool) (d d' : Db) : Prop := ∀ k,
  match items d !! k, items d' !! k with
  | None, None => True
  | None, Some i' => admits = true ∧ item_fresh i'
  | Some i, Some i' => item_move i i' ∨
      (admits = true ∧ in_list reserving_item_statuses (it_status i) = false ∧ item_fresh i')
  | Some i, None => releases = true ∧ in_list reserving_item_statuses (it_status i) = false
  end.

(** ** One statement of an entry point *)

Record moves (e : Entry) (d d' : Db) : Prop := {
  mv_ops : ops_move (may_reopen e) d d';
  mv_unique : ops_unique d → ops_unique d';
  mv_items : items_move (may_admit e) (may_release e) d d'
}.

(** ** Reflexivity and composition *)

Lemma op_edge_refl b s : op_edge b s s = true.
Proof. destruct s; reflexivity. Qed.
Lemma op_move_refl b t r : op_move b t r r.
Proof. split; first [done | apply op_edge_refl | naive_solver]. Qed.
Lemma op_edge_weaken b s s' : op_edge false s s' = true → op_edge b s s' = true.
Proof. by destruct s, s', b. Qed.
Lemma op_move_weaken b t r r' : op_move false t r r' → op_move b t r r'.
Proof. intros []. split; auto using op_edge_weaken. Qed.

Lemma ops_move_refl b d d' : operations d' = operations d → ops_move b d d'.
Proof.
  intros Hs o. rewrite Hs. destruct (operations d !! o); [apply op_move_refl|done].
Qed.
Lemma ops_move_weaken b d d' : ops_move (λ _, false) d d' → ops_move b d d'.
Proof.
  intros Hm o. specialize (Hm o).
  destruct (operations d !! o), (operations d' !! o); try done. by apply op_move_weaken.
Qed.
Lemma ops_unique_same d d' : operations d' = operations d → ops_unique d → ops_unique d'.
Proof. intros Hs Hu. unfold ops_unique. by rewrite Hs. Qed.

#[global] Instance item_move_preorder : PreOrder item_move.
Proof.
  split; [split; auto|].
  intros i j k [H1 H2 H3 H4 H5 H6] [K1 K2 K3 K4 K5 K6]. split; try congruence.
  destruct H6 as [|(E1 & E2 & E3)]; [by left|].
  destruct K6 as [K6|(F1 & F2 & F3)]; [left; by rewrite <- E1|right; repeat split; congruence].
Qed.
Lemma items_move_refl a b d d' : items d' = items d → items_move a b d d'.
Proof. intros Hs k. rewrite Hs. destruct (items d !! k); [by left|done]. Qed.

(** Nothing the relations speak of changes. *)
Record quiet (d d' : Db) : Prop := {
  q_ops : operations d' = operations d;
  q_items : items d' = items d;
  q_tick : tick d' = tick d;
  q_observation : observation d' = observation d
}.
#[global] Instance quiet_preorder : PreOrder quiet.
Proof. split; [by split|]. intros ??? [] []. split; congruence. Qed.

(** Only existing items change, and each moves. *)
Definition item_write (d d' : Db) : Prop :=
  operations d' = operations d ∧ tick d' = tick d ∧ observation d' = observation d ∧
  items_move false false d d'.
#[global] Instance item_write_preorder : PreOrder item_write.
Proof.
  split; [intros d; repeat split; by apply items_move_refl|].
  intros a b c (A1 & A2 & A3 & A4) (B1 & B2 & B3 & B4).
  repeat split; try congruence. intros k. specialize (A4 k). specialize (B4 k).
  destruct (items a !! k) as [i|], (items b !! k) as [j|], (items c !! k) as [l|];
    try (by destruct A4); try (by destruct B4); try done.
  destruct A4 as [A4|[? _]]; [|done]. destruct B4 as [B4|[? _]]; [|done]. left. by etrans.
Qed.
Lemma quiet_item_write d d' : quiet d d' → item_write d d'.
Proof. intros []. repeat split; [done..|]. by apply items_move_refl. Qed.

(** Only operations change. *)
Record op_write (b : string -> bool) (d d' : Db) : Prop := {
  ow_moves : ops_move b d d';
  ow_unique : ops_unique d → ops_unique d';
  ow_items : items d' = items d;
  ow_tick : tick d' = tick d;
  ow_observation : observation d' = observation d
}.
Lemma quiet_op_write b d d' : quiet d d' → op_write b d d'.
Proof. intros []. split; try done; [by apply ops_move_refl|by apply ops_unique_same]. Qed.
Lemma op_write_quiet b d1 d2 d3 : op_write b d1 d2 → quiet d2 d3 → op_write b d1 d3.
Proof.
  intros [Hm Hu Hi Ht Ho] [Q1 Q2 Q3 Q4]. split; try congruence.
  - intros o. specialize (Hm o). by rewrite Q1.
  - intros Hd. eapply ops_unique_same; eauto.
Qed.
Lemma op_write_weaken b d d' : op_write (λ _, false) d d' → op_write b d d'.
Proof. intros []. split; auto using ops_move_weaken. Qed.

Lemma items_move_weaken a b d d' : items_move false false d d' → items_move a b d d'.
Proof.
  intros Hm k. specialize (Hm k).
  destruct (items d !! k), (items d' !! k); naive_solver.
Qed.
Lemma op_write_moves e d d' : op_write (may_reopen e) d d' → moves e d d'.
Proof. intros []. split; try done. by apply items_move_refl. Qed.
Lemma item_write_moves e d d' : item_write d d' → moves e d d'.
Proof.
  intros (H1 & H2 & H3 & H4). split.
  - by apply ops_move_refl.
  - by apply ops_unique_same.
  - by apply items_move_weaken.
Qed.

End Machine.
