(* ===== verification/LmSteps.v ===== *)
(** * Every statement follows the machine

    For each statement of the entry points: what it does to the operations, the
    items and the balance observation, as the relations of [LmMachine]. *)

From S2P Require Import Prelude LmSchema LmProg LmWallet LmAllocations LmFunds LmFunding LmStability LmManual LmRequests LmSystem LmMachine.
From stdpp Require Import base gmap strings list sorting.
From Stdlib Require Import ZArith Lia.
Open Scope Z_scope.

Module Steps.
Import Ledger Daemon Wallet Allocations Funds Funding Stability Manual Requests Flip Machine.

(** ** Taking transactions apart *)

Lemma get_operation_Ok id d d' r : get_operation_tx id d = Ok (d', r) ↔
  d' = d ∧ wallet_operation_from_row <$> operations d !! id = Some r.
Proof. unfold get_operation_tx. destruct (operations d !! id); cbn; naive_solver. Qed.

(** One step of a transaction that succeeded. *)
Ltac tx_inv_step :=
  match goal with
  | H : (_ ≫= _) _ = Ok _ |- _ => apply tx_bind_Ok in H as (? & ? & ? & ?)
  | H : tx_get _ _ = Ok _ |- _ => apply tx_get_Ok in H as [-> ->]
  | H : mret _ _ = Ok _ |- _ => apply tx_ret_Ok in H as [-> H]; simplify_eq
  | H : tx_put _ _ = Ok _ |- _ => apply tx_put_Ok in H as ->
  | H : tx_lift _ _ = Ok _ |- _ => apply tx_lift_Ok in H as [-> H]
  | H : get_operation_tx _ _ = Ok _ |- _ => apply get_operation_Ok in H as [-> H]
  | H : tx_err _ _ = Ok _ |- _ => discriminate H
  end.
Ltac tx_inv := repeat tx_inv_step.

(** ** The unique indexes *)

Lemma op_rows_clash_sym r r' : op_rows_clash r r' = op_rows_clash r' r.
Proof.
  unfold op_rows_clash. f_equal; [f_equal|].
  - destruct (wo_item_id r), (wo_item_id r'); try done.
    by repeat case_bool_decide; simplify_eq.
  - destruct (wo_withdrawal_intent_id r), (wo_withdrawal_intent_id r'); try done.
    by repeat case_bool_decide; simplify_eq.
  - destruct (wo_txid r), (wo_tx_vout r), (wo_txid r'), (wo_tx_vout r'); try done.
    by repeat case_bool_decide; simplify_eq.
Qed.

Lemma op_conflicts_false k r d : op_conflicts k r d = false →
  ∀ k' r', operations d !! k' = Some r' → k' ≠ k → op_rows_clash r r' = false.
Proof.
  unfold op_conflicts. intros Hc k' r' Hr Hne. apply bool_decide_eq_false_1 in Hc.
  apply not_true_iff_false. intros Ht. apply Hc. exists k', r'. done.
Qed.
Lemma ops_unique_write d k r :
  (∀ k' r', operations d !! k' = Some r' → k' ≠ k → op_rows_clash r r' = false) →
  ops_unique d → ops_unique (set_operations <[k := r]> d).
Proof.
  intros Hc Hu k1 k2 r1 r2. cbn. rewrite !lookup_insert_Some. intros.
  destruct_or!; destruct_and!; simplify_eq.
  all: first [by eapply Hc | rewrite op_rows_clash_sym; by eapply Hc | by eapply Hu].
Qed.

(** A write that leaves every key, or clears the outpoint, clashes with
    nothing new. *)
Definition keys_kept (r r' : WalletOp) : Prop :=
  wo_type r' = wo_type r ∧ wo_item_id r' = wo_item_id r ∧
  wo_withdrawal_intent_id r' = wo_withdrawal_intent_id r ∧
  (wo_tx_vout r' = None ∨ (wo_txid r' = wo_txid r ∧ wo_tx_vout r' = wo_tx_vout r)).
Lemma keys_kept_clash r r' x :
  keys_kept r r' → op_rows_clash r x = false → op_rows_clash r' x = false.
Proof.
  intros (Ht & Hi & Hn & Hv). unfold op_rows_clash. rewrite Ht, Hi, Hn.
  rewrite !orb_false_iff. intros [[H1 H2] H3]. repeat split; try done.
  destruct Hv as [->|[-> ->]]; [|done]. by destruct (wo_txid r').
Qed.

(** ** Single writes *)

Lemma ops_move_insert b d id r r' :
  operations d !! id = Some r → op_move (b id) (tick d) r r' →
  ops_move b d (set_operations <[id := r']> d).
Proof.
  intros Hr Hm o. cbn. destruct (decide (o = id)) as [->|Hne].
  - by rewrite lookup_insert_eq, Hr.
  - rewrite lookup_insert_ne by done. destruct (operations d !! o); [apply op_move_refl|done].
Qed.

Lemma update_operation_write b id guard f d d' n :
  update_operation id guard f d = Ok (d', n) →
  (∀ r, operations d !! id = Some r → guard r = true →
     op_move (b id) (tick d) r (f r) ∧ keys_kept r (f r)) →
  op_write b d d'.
Proof.
  unfold update_operation. intros Htx Hf.
  destruct (operations d !! id) as [r|] eqn:Hr; [destruct (guard r) eqn:Hg|];
    simplify_eq/=; try by apply quiet_op_write.
  destruct (Hf r eq_refl Hg) as [Hm Hk]. split; try done.
  - by eapply ops_move_insert.
  - intros Hu. apply ops_unique_write; [|done]. intros k' r' Hr' Hne.
    eapply keys_kept_clash; [done|]. by eapply Hu.
Qed.
Lemma update_operation_indexed_write b id guard f d d' n :
  update_operation_indexed id guard f d = Ok (d', n) →
  (∀ r, operations d !! id = Some r → guard r = true → op_move (b id) (tick d) r (f r)) →
  op_write b d d'.
Proof.
  unfold update_operation_indexed. intros Htx Hf.
  destruct (operations d !! id) as [r|] eqn:Hr; [destruct (guard r) eqn:Hg|];
    [destruct (op_conflicts id (f r) d) eqn:Hc| |]; simplify_eq/=; try by apply quiet_op_write.
  split; try done.
  - eapply ops_move_insert; [done|]. by apply Hf.
  - apply ops_unique_write. by apply op_conflicts_false.
Qed.
Lemma insert_operation_write b id r : op_fresh r → tx_rel (op_write b) (insert_operation id r).
Proof.
  intros Hr d d' u Htx. unfold insert_operation in Htx.
  destruct (operations d !! id) eqn:Hid; [done|].
  destruct (op_conflicts id r d) eqn:Hc; simplify_eq. split; try done.
  - intros o. cbn. destruct (decide (o = id)) as [->|Hne].
    + by rewrite Hid, lookup_insert_eq.
    + rewrite lookup_insert_ne by done. destruct (operations d !! o); [apply op_move_refl|done].
  - apply ops_unique_write. by apply op_conflicts_false.
Qed.

(** Decide an [op_move] after its guard left finitely many statuses. *)
Ltac op_move_rows r Hs :=
  let E := fresh "Es" in
  cbv beta in Hs; destruct (wo_status r) eqn:E;
  first [by vm_compute in Hs
        | split; cbn; rewrite ?E;
          first [done | by auto | by destruct (wo_settled_tick r) | naive_solver
                | by destruct (Z.eqb_spec (wo_amount r) 0)
                | by destruct (wo_amount r =? 0); intros; lia]].
Ltac keys_rows := repeat split; cbn; first [done | by left | by right | naive_solver].

(** ** The statements that write one operation *)

Lemma broadcast_write b id txid now :
  tx_rel (op_write b) (update_operation id
    (λ r, in_list [OpPending; OpInDoubt; OpBroadcast; OpConfirmed] (wo_status r))
    (λ r, set_status OpBroadcast (set_failure None
            (set_chain (match wo_tx_vout r with None => Some txid | Some _ => wo_txid r end)
               (wo_tx_vout r) (wo_confirmation_count r) (wo_amount r)
               (set_times now (coalesce (wo_submitted_at r) (Some now)) (wo_completed_at r) r))))).
Proof.
  intros d d' n Htx. eapply update_operation_write; [done|]. intros r Hr Hs. split.
  - op_move_rows r Hs.
  - repeat split; cbn. destruct (wo_tx_vout r); [by right|by left].
Qed.
Lemma in_doubt_write b id f now :
  tx_rel (op_write b) (update_operation id (λ r, in_list [OpPending; OpInDoubt] (wo_status r))
    (λ r, set_status OpInDoubt (set_failure (Some f)
            (set_times now (coalesce (wo_submitted_at r) (Some now)) (wo_completed_at r) r)))).
Proof.
  intros d d' n Htx. eapply update_operation_write; [done|]. intros r Hr Hs. split.
  - op_move_rows r Hs.
  - keys_rows.
Qed.
Lemma failed_write b id f now :
  tx_rel (op_write b) (update_operation id (λ r, in_list [OpPending; OpInDoubt] (wo_status r))
    (λ r, set_status OpFailed (set_failure (Some f)
            (set_times now (wo_submitted_at r) (wo_completed_at r) r)))).
Proof.
  intros d d' n Htx. eapply update_operation_write; [done|]. intros r Hr Hs. split.
  - op_move_rows r Hs.
  - keys_rows.
Qed.
Lemma escalate_write b id f after now :
  tx_rel (op_write b) (update_operation id
    (λ r, bool_decide (wo_status r = OpInDoubt) &&
          (default (wo_updated_at r) (wo_submitted_at r) <=? now - after))
    (λ r, set_status OpManualReviewRequired (set_failure (Some f)
            (set_times now (wo_submitted_at r) (wo_completed_at r) r)))).
Proof.
  intros d d' n Htx. eapply update_operation_write; [done|].
  intros r Hr [Hs _]%andb_true_iff. split.
  - op_move_rows r Hs.
  - keys_rows.
Qed.
Lemma claim_write b step id at_ now : tx_rel (op_write b) (claim_funding_submission_tx step id at_ now).
Proof.
  intros d d' n Htx. unfold claim_funding_submission_tx in Htx. tx_inv.
  eapply update_operation_write; [done|].
  intros r Hr [[_ Hs]%andb_true_iff _]%andb_true_iff. split.
  - op_move_rows r Hs.
  - keys_rows.
Qed.

(** Manual review: only a safe retry goes back to [pending]. *)
Definition reopens (outcome : ManualReviewOutcome) : bool :=
  match outcome with ReviewSafeToRetry => true | _ => false end.
Lemma resolve_write b id outcome at_ now :
  (reopens outcome = true → b id = true) →
  tx_rel (op_write b) (resolve_manual_review_tx id outcome at_ now).
Proof.
  intros Hb d d' n Htx. unfold resolve_manual_review_tx in Htx. tx_inv.
  destruct outcome as [txid|reason|]; tx_inv.
  - eapply update_operation_indexed_write; [done|]. intros r Hr Hs.
    cbv beta in Hs. apply bool_decide_eq_true_1 in Hs.
    split; cbn; rewrite ?Hs; try done; auto. intros _ _. by destruct (wo_settled_tick r).
  - eapply update_operation_write; [done|]. intros r Hr Hs. split; [op_move_rows r Hs|keys_rows].
  - eapply update_operation_write; [done|]. intros r Hr Hs. split; [|keys_rows].
    rewrite (Hb eq_refl). op_move_rows r Hs.
Qed.

(** Chain evidence. *)
Lemma ok_or_try {E} (x : E) hi z z' : ok_or x (try_from_u hi z) = Ok z' → z' = z ∧ 0 <= z <= hi.
Proof.
  destruct (try_from_u hi z) eqn:Ht; cbn; intros; simplify_eq. by apply try_from_u_Some in Ht.
Qed.
Lemma evidence_write b id outputs confirmations now :
  tx_rel (op_write b) (claim_chain_evidence_tx id outputs confirmations now).
Proof.
  intros d d' n Htx. unfold claim_chain_evidence_tx in Htx. tx_inv.
  destruct (negb _ || _); [by tx_inv; apply quiet_op_write|].
  destruct (wo_address _) as [expected|]; [|by tx_inv; apply quiet_op_write].
  tx_inv. destruct (candidates _ _ _ _ _ _) as [|o [|]]; tx_inv; try by apply quiet_op_write.
  match goal with H : ok_or _ _ = Ok _ |- _ => apply ok_or_try in H as [-> Ha] end.
  match goal with H : (if ?c then _ else _) _ = Ok (d', _) |- _ =>
    destruct c; tx_inv end.
  all: eapply update_operation_indexed_write; [done|];
    intros r' Hr' [[Hs _]%andb_true_iff _]%andb_true_iff;
    destruct (evidence_status o confirmations); cbn; op_move_rows r' Hs.
Qed.

(** ** Stamps *)

Lemma stamp_released_keys d r : keys_kept r (stamp_released d r).
Proof.
  unfold stamp_released.
  destruct (wo_released_tick r), (wo_settled_tick r), (wo_item_id r) eqn:?;
    try destruct (_ && _); repeat split; cbn; auto; by right.
Qed.
Lemma stamp_released_move b d r : op_move b (tick d) r (stamp_released d r).
Proof.
  unfold stamp_released.
  destruct (wo_released_tick r) eqn:?, (wo_settled_tick r) eqn:?, (wo_item_id r) eqn:?;
    try apply op_move_refl.
  destruct (_ && _); [|apply op_move_refl].
  split; cbn; first [done | apply op_edge_refl | by auto | intros; congruence].
Qed.
Lemma stamp_write b : tx_rel (op_write b) stamp_released_item_operations_tx.
Proof.
  intros d d' u Htx. unfold stamp_released_item_operations_tx in Htx. simplify_eq/=.
  split; try done.
  - intros o. cbn. rewrite lookup_fmap.
    destruct (operations d !! o); cbn; [apply stamp_released_move|done].
  - intros Hu k k' r r'. cbn. rewrite !lookup_fmap, !fmap_Some.
    intros (x & Hx & ->) (y & Hy & ->) Hne.
    apply (keys_kept_clash x); [apply stamp_released_keys|]. rewrite op_rows_clash_sym.
    apply (keys_kept_clash y); [apply stamp_released_keys|]. rewrite op_rows_clash_sym.
    by eapply Hu.
Qed.

(** The capacity queries stamp and answer a sum. *)
Definition stamp_db (d : Db) : Db := set_operations (fmap (stamp_released d)) d.
Lemma active_reserved_Ok d d' n : active_reserved_amount_tx d = Ok (d', n) →
  d' = d ∧ n = Z.max 0 (sum_rows reserved_of (items d)).
Proof.
  unfold active_reserved_amount_tx. intros Htx. apply res_bind_Ok in Htx as (a & H1 & H2).
  unfold sql_sum in H1. case_match; by simplify_eq.
Qed.
Lemma active_withdrawal_Ok d d' n : active_wallet_withdrawal_amount_tx d = Ok (d', n) →
  d' = stamp_db d ∧ n = Z.max 0 (sum_rows (charge_of d') (operations d')).
Proof.
  unfold active_wallet_withdrawal_amount_tx. intros Htx.
  apply tx_bind_Ok in Htx as (d1 & u & H1 & Htx).
  apply res_bind_Ok in Htx as (a & H2 & H3).
  unfold stamp_released_item_operations_tx in H1. unfold sql_sum in H2.
  destruct (in_range _ _ _); simplify_eq/=. done.
Qed.
Lemma available_Ok config w d d' n : available_balance_for_request config w d = Ok (d', n) →
  d' = stamp_db d ∧
  n = available_balance w (Z.max 0 (sum_rows (charge_of d') (operations d')))
        (Z.max 0 (sum_rows reserved_of (items d))) (sc_fee_reserve config).
Proof.
  unfold available_balance_for_request. intros Htx. tx_inv.
  repeat match goal with
  | H : active_reserved_amount_tx _ = _ |- _ => apply active_reserved_Ok in H as [-> ->]
  | H : active_wallet_withdrawal_amount_tx _ = _ |- _ => apply active_withdrawal_Ok in H as [-> ->]
  end. done.
Qed.
Lemma stamp_db_write b d : op_write b d (stamp_db d).
Proof. by eapply stamp_write. Qed.

(** ** Inserting *)

Lemma op_write_insert b d d1 id r :
  op_write b d d1 → operations d1 !! id = None → op_fresh r →
  (∀ k' r', operations d1 !! k' = Some r' → k' ≠ id → op_rows_clash r r' = false) →
  op_write b d (set_operations <[id := r]> d1).
Proof.
  intros [Hm Hu Hi Ht Ho] Hid Hr Hc. split; try done.
  - intros o. specialize (Hm o). cbn. destruct (decide (o = id)) as [->|Hne].
    + rewrite lookup_insert_eq. rewrite Hid in Hm. by destruct (operations d !! id).
    + by rewrite lookup_insert_ne.
  - intros Hd. apply ops_unique_write; auto.
Qed.
Lemma to_i64_sats_Ok a b : to_i64_sats a = Ok b → b = a ∧ 0 <= a <= i64_max.
Proof. apply ok_or_try. Qed.
Lemma insert_wallet_operation_write b input now :
  wi_status input = OpPending → tx_rel (op_write b) (insert_wallet_operation_tx input now).
Proof.
  intros Hs d d' u Htx. unfold insert_wallet_operation_tx in Htx. tx_inv.
  eapply insert_operation_write; [|done].
  match goal with H : to_i64_sats _ = Ok _ |- _ => apply to_i64_sats_Ok in H as [-> ?] end.
  split; cbn; auto; lia.
Qed.

Lemma fee_rate_Ok a b : transpose_map u64_to_i64 a = Ok b → b = a.
Proof.
  destruct a as [a|]; cbn; [|by intros; simplify_eq].
  unfold u64_to_i64, ok_or. destruct (try_from_u i64_max a) eqn:Ht; cbn; intros; simplify_eq.
  by apply try_from_u_Some in Ht as [-> _].
Qed.
Lemma insert_operation_Ok id r d d' u : insert_operation id r d = Ok (d', u) →
  operations d !! id = None ∧ op_conflicts id r d = false ∧ d' = set_operations <[id := r]> d.
Proof.
  unfold insert_operation. destruct (operations d !! id); [done|].
  destruct (op_conflicts id r d) eqn:?; naive_solver.
Qed.

Lemma intent_read intent d d' r :
  operator_withdrawal_for_intent_tx intent d = Ok (d', r) → d' = d.
Proof.
  unfold operator_withdrawal_for_intent_tx. intros H. apply res_bind_Ok in H as (? & _ & H).
  by simplify_eq.
Qed.

(** What the withdrawal fence commits. *)
Definition withdrawal_row (request : RequestWithdrawalRequest) (fee now : Z) : WalletOp :=
  {| wo_type := Withdrawal; wo_status := OpInDoubt; wo_federation_id := None;
     wo_item_id := None; wo_amount := rw_amount request; wo_address := Some (rw_address request);
     wo_txid := None; wo_tx_vout := None; wo_confirmation_count := None; wo_failure := None;
     wo_label := None; wo_fee_rate := Some fee; wo_created_at := now; wo_updated_at := now;
     wo_submitted_at := Some now; wo_completed_at := None;
     wo_withdrawal_intent_id := Some (rw_withdrawal_intent_id request);
     wo_settled_tick := None; wo_released_tick := None |}.
Lemma fence_Ok setup request fee spendable id now d d' r :
  fence_withdrawal_tx setup request fee spendable id now d = Ok (d', r) →
  (∃ existing, r = Some existing ∧ d' = d) ∨
  (r = None ∧ 0 <= rw_amount request ∧ operations (stamp_db d) !! id = None ∧
   (∀ k' r', operations (stamp_db d) !! k' = Some r' → k' ≠ id →
      op_rows_clash (withdrawal_row request fee now) r' = false) ∧
   rw_amount request <= available_balance spendable
     (Z.max 0 (sum_rows (charge_of (stamp_db d)) (operations (stamp_db d))))
     (Z.max 0 (sum_rows reserved_of (items d))) (sc_fee_reserve setup) ∧
   d' = set_operations <[id := withdrawal_row request fee now]> (stamp_db d)).
Proof.
  intros Htx. unfold fence_withdrawal_tx in Htx. tx_inv.
  match goal with H : operator_withdrawal_for_intent_tx _ _ = _ |- _ =>
    apply intent_read in H as -> end.
  match goal with H : match ?x with _ => _ end _ = _ |- _ => destruct x as [existing|] end;
    tx_inv; [by left; exists existing|].
  match goal with H : available_balance_for_request _ _ _ = _ |- _ =>
    apply available_Ok in H as [-> ->] end.
  destruct (Z.ltb_spec (available_balance spendable
     (Z.max 0 (sum_rows (charge_of (stamp_db d)) (operations (stamp_db d))))
     (Z.max 0 (sum_rows reserved_of (items d))) (sc_fee_reserve setup)) (rw_amount request));
    tx_inv.
  right. unfold insert_wallet_operation_tx, bind_operator_withdrawal_intent_tx in *. tx_inv.
  match goal with H : (if ?c then _ else _) _ = Ok _ |- _ => destruct c eqn:?; tx_inv end.
  repeat match goal with
  | H : to_i64_sats _ = Ok _ |- _ => apply to_i64_sats_Ok in H as [-> [Ha _]]
  | H : transpose_map u64_to_i64 _ = Ok _ |- _ => apply fee_rate_Ok in H as ->
  | H : insert_operation _ _ _ = Ok _ |- _ => apply insert_operation_Ok in H as (Hid & Hc & ->)
  end.
  match goal with H : update_operation_indexed _ _ _ _ = Ok _ |- _ => rename H into Hb end.
  unfold update_operation_indexed in Hb. cbn in Hb, Hid. rewrite lookup_insert_eq in Hb.
  cbn in Hb. destruct (op_conflicts id _ _) eqn:Hc'; [done|]. injection Hb as <- <-.
  split; [done|]. split; [done|]. split; [done|]. split; [|split; [done|]].
  - intros k' r' Hr Hne. eapply op_conflicts_false; [done| |done]. cbn.
    by rewrite lookup_insert_ne.
  - unfold set_operations. cbn. by rewrite insert_insert_eq.
Qed.
Lemma fence_write b setup request fee spendable id now :
  rw_amount request ≠ 0 →
  tx_rel (op_write b) (fence_withdrawal_tx setup request fee spendable id now).
Proof.
  intros Ha d d' r [(? & _ & ->)|(-> & Hn & Hid & Hc & _ & ->)]%fence_Ok; [by apply quiet_op_write|].
  apply op_write_insert; try done; [apply stamp_db_write|].
  split; try done. right. repeat split; cbn; eauto.
Qed.


(** ** The loops of the operator's verbs *)

(** Writing the same columns of a list of operations. *)
Definition overwrite (l : list string) (f : WalletOp -> WalletOp) (d d' : Db) : Prop :=
  items d' = items d ∧ tick d' = tick d ∧ observation d' = observation d ∧
  ∀ o, operations d' !! o = (if bool_decide (o ∈ l) then f else id) <$> operations d !! o.
Lemma overwrite_loop l f d d' u :
  (∀ r, f (f r) = f r) →
  tx_for l (λ o, update_operation o (λ _, true) f;; mret tt) d = Ok (d', u) → overwrite l f d d'.
Proof.
  intros Hf. revert d. induction l as [|o l IH]; intros d Htx; cbn in Htx.
  - tx_inv. repeat split. intros o. cbn. by destruct (operations d !! o).
  - apply tx_bind_Ok in Htx as (x & u1 & Hup & Htx).
    apply tx_bind_Ok in Hup as (x' & n & Hup & Hx). tx_inv.
    destruct (IH _ Htx) as (I1 & I2 & I3 & I4). unfold update_operation in Hup.
    rename x' into x.
    assert (Hx : ∀ k, operations x !! k = (if bool_decide (k = o) then f else id) <$> operations d !! k ∧
               items x = items d ∧ tick x = tick d ∧ observation x = observation d).
    { intros k. destruct (operations d !! o) as [r|] eqn:Hr; simplify_eq/=; case_bool_decide;
        subst; rewrite ?lookup_insert_eq, ?lookup_insert_ne, ?Hr by done; try done;
        by destruct (operations _ !! k). }
    destruct (Hx o) as (_ & J1 & J2 & J3). repeat split; try congruence.
    intros k. rewrite I4. destruct (Hx k) as (-> & _).
    destruct (operations d !! k) as [r|]; [cbn|done]. f_equal.
    rewrite (bool_decide_ext (k ∈ o :: l) (k = o ∨ k ∈ l)) by apply elem_of_cons.
    by repeat case_bool_decide; try naive_solver.
Qed.
Lemma overwrite_write b l f d d' :
  overwrite l f d d' →
  (∀ o r, o ∈ l → operations d !! o = Some r → op_move (b o) (tick d) r (f r)) →
  (∀ r, keys_kept r (f r)) → op_write b d d'.
Proof.
  intros (H1 & H2 & H3 & H4) Hm Hk. split; try done.
  - intros o. rewrite H4. destruct (operations d !! o) as [r|] eqn:Hr; [cbn|done].
    case_bool_decide; [by apply Hm|apply op_move_refl].
  - intros Hu k k' r r'. rewrite !H4, !fmap_Some. intros (x & Hx & ->) (y & Hy & ->) Hne.
    assert (Hc : op_rows_clash x y = false) by by eapply Hu.
    assert (Hw : ∀ (P : Prop) `{Decision P} r s, op_rows_clash r s = false →
      op_rows_clash ((if bool_decide P then f else id) r) s = false).
    { intros P ? r s Hrs. case_bool_decide; [|done]. by eapply keys_kept_clash. }
    apply Hw. rewrite op_rows_clash_sym. apply Hw. by rewrite op_rows_clash_sym.
Qed.

Lemma reset_loop b l now d d' u :
  (∀ o, o ∈ l → b o = true ∧ ∃ r, operations d !! o = Some r ∧ wo_status r = OpFailed) →
  tx_for l (λ o, reset_wallet_operation_tx o now) d = Ok (d', u) → op_write b d d'.
Proof.
  intros Hl Htx. apply overwrite_loop in Htx; [|done].
  eapply overwrite_write; [done| |intros r; keys_rows].
  intros o r Ho Hr. destruct (Hl o Ho) as (Hb & r' & Hr' & Hs). simplify_eq.
  rewrite Hb. split; cbn; rewrite ?Hs; try done; auto.
Qed.
Lemma cancel_loop b l reason at_ now d d' u :
  (∀ o, o ∈ l → ∃ r, operations d !! o = Some r ∧ (wo_status r = OpPending ∨ wo_status r = OpFailed)) →
  tx_for l (λ o, cancel_wallet_operation_tx o reason at_ now) d = Ok (d', u) → op_write b d d'.
Proof.
  intros Hl Htx. apply overwrite_loop in Htx; [|done].
  eapply overwrite_write; [done| |intros r; keys_rows].
  intros o r Ho Hr. destruct (Hl o Ho) as (r' & Hr' & Hs). simplify_eq.
  destruct Hs as [Hs|Hs]; split; cbn; rewrite ?Hs; try done; auto.
Qed.

(** What the plans found. *)
Lemma select_ordered_lookup {A} (at_ : A -> Z) p (m : gmap string A) k a :
  (k, a) ∈ select_ordered at_ p m → m !! k = Some a ∧ p k a = true.
Proof.
  unfold select_ordered. rewrite merge_sort_Permutation, list_elem_of_filter, elem_of_map_to_list.
  naive_solver.
Qed.
Lemma retry_plan_Ok operation l d d' ids wallets :
  (∀ o r, operation = Some (o, r) → operations d !! o = Some r) →
  retry_plan operation l d = Ok (d', inr (ids, wallets)) →
  d' = d ∧ ∀ o, o ∈ wallets →
    (∀ o' r, operation = Some (o', r) → o = o') ∧
    ∃ r, operations d !! o = Some r ∧ wo_status r = OpFailed.
Proof.
  intros Hop. revert d' ids wallets. induction l as [|[id item] l IH]; intros d' ids wallets Htx;
    cbn in Htx; [tx_inv; split; [done|by intros ? ?%elem_of_nil]|].
  destruct (bool_decide _); [by tx_inv|]. destruct (is_terminal_item _); [by eapply IH|].
  apply tx_bind_Ok in Htx as (d1 & ops & H1 & Htx).
  assert (d1 = d ∧ ∀ o r, (o, r) ∈ ops → operations d !! o = Some r ∧
            (∀ o' r', operation = Some (o', r') → o = o')) as [-> Hops].
  { destruct operation as [[o' r']|]; unfold load_operations_for_item_tx in H1; tx_inv; split; try done.
    - intros o r Hor%list_elem_of_singleton. simplify_eq. split; [by apply Hop|naive_solver].
    - intros o r [??]%select_ordered_lookup. naive_solver. }
  destruct (negb _); [by eapply IH|]. destruct (negb _); [by tx_inv|].
  apply tx_bind_Ok in Htx as (d1 & rest & H2 & Htx).
  destruct rest as [refused|[ids' wallets']]; tx_inv.
  destruct (IH _ _ _ H2) as [-> IH']. split; [done|].
  intros o [Ho|Ho]%elem_of_app; [|by apply IH'].
  apply list_elem_of_fmap in Ho as ([k r] & -> & [Hs Hk]%list_elem_of_filter).
  destruct (Hops k r Hk) as [? ?]. eauto.
Qed.
Lemma cancel_plan_Ok l d d' ids wallets :
  cancel_plan l d = Ok (d', inr (ids, wallets)) →
  d' = d ∧
  (∀ o, o ∈ wallets → ∃ r, operations d !! o = Some r ∧
     (wo_status r = OpPending ∨ wo_status r = OpFailed)) ∧
  (∀ k, k ∈ ids → ∃ i, (k, i) ∈ l ∧ in_list reserving_item_statuses (it_status i) = true).
Proof.
  revert d' ids wallets. induction l as [|[id item] l IH]; intros d' ids wallets Htx;
    cbn in Htx; [tx_inv; split; [done|]; split; by intros ? ?%elem_of_nil|].
  destruct (negb _) eqn:Hres.
  { destruct (IH _ _ _ Htx) as (-> & ? & Hi). repeat split; [done|].
    intros k Hk. destruct (Hi k Hk) as (i & ? & ?). exists i. split; [by right|done]. }
  apply tx_bind_Ok in Htx as (d1 & ops & H1 & Htx). unfold load_operations_for_item_tx in H1. tx_inv.
  destruct (head _) as [[o ?]|]; [by tx_inv|].
  apply tx_bind_Ok in Htx as (d1 & rest & H2 & Htx).
  destruct rest as [refused|[ids' wallets']]; tx_inv.
  destruct (IH _ _ _ H2) as (-> & Hw & Hi). repeat split.
  - intros o [Ho|Ho]%elem_of_app; [|by apply Hw].
    apply list_elem_of_fmap in Ho as ([k r] & -> & [Hs Hk]%list_elem_of_filter).
    apply select_ordered_lookup in Hk as [Hk _]. exists r. split; [done|]. cbn in Hs.
    destruct (wo_status r); auto; by vm_compute in Hs.
  - intros k [->|Hk]%elem_of_cons; [|destruct (Hi k Hk) as (i & ? & ?); exists i; split; [by right|done]].
    exists item. split; [by left|]. by apply negb_false_iff in Hres.
Qed.

End Steps.
