(* ===== verification/LmItems.v ===== *)
(** * Items, admissions and the operator's verbs follow the machine

    The statements of [LmSteps] continued: what happens to allocation items, and
    the transactions that write operations and items together. *)

From S2P Require Import Prelude LmSchema LmProg LmWallet LmAllocations LmFunds LmFunding LmStability LmManual LmRequests LmSystem LmMachine LmSteps.
From stdpp Require Import base gmap strings list sorting.
From Stdlib Require Import ZArith Lia.
Open Scope Z_scope.

Module Items.
Import Ledger Daemon Wallet Allocations Funds Funding Stability Manual Requests Flip Machine Steps.

(** ** Sums over a table *)

Lemma sum_rows_insert {A} (f : string -> A -> option Z) k r m :
  m !! k = None → sum_rows f (<[k := r]> m) = default 0 (f k r) + sum_rows f m.
Proof.
  intros Hk. unfold sum_rows.
  rewrite (map_fold_insert_L (λ k r acc, default 0 (f k r) + acc)); [done| |done].
  intros. lia.
Qed.
Lemma sum_rows_member {A} (f : string -> A -> option Z) m :
  (∀ k r, m !! k = Some r → 0 <= default 0 (f k r)) →
  0 <= sum_rows f m ∧ ∀ k r, m !! k = Some r → default 0 (f k r) <= sum_rows f m.
Proof.
  induction m as [|k r m Hk IH] using map_ind; intros Hf.
  - split; [done|]. intros k r. by rewrite lookup_empty.
  - rewrite sum_rows_insert by done.
    destruct IH as [IH1 IH2].
    { intros k' r' Hr. apply Hf. rewrite lookup_insert_ne; [done|]. by intros ->; simplify_eq. }
    pose proof (Hf k r ltac:(by rewrite lookup_insert_eq)). split; [lia|].
    intros k' r' [[-> ->]|[Hne Hr]]%lookup_insert_Some; [lia|]. specialize (IH2 _ _ Hr). lia.
Qed.
Lemma count_rows_0 {A} (p : string -> A -> bool) m k r :
  count_rows p m = 0 → m !! k = Some r → p k r = false.
Proof.
  unfold count_rows. intros H0 Hr.
  destruct (sum_rows_member (λ k r, if p k r then Some 1 else None) m) as [_ Hm].
  { intros k' r' _. by destruct (p k' r'). }
  specialize (Hm _ _ Hr). rewrite H0 in Hm. by destruct (p k r).
Qed.

(** ** Item writes *)

Lemma update_item_write id guard f :
  (∀ i, guard i = true → item_move i (f i)) → tx_rel item_write (update_item id guard f).
Proof.
  intros Hf d d' n Htx. unfold update_item in Htx.
  destruct (items d !! id) as [i|] eqn:Hi; [destruct (guard i) eqn:Hg|]; simplify_eq; try done.
  repeat split. intros k. cbn. destruct (decide (k = id)) as [->|Hne].
  - rewrite lookup_insert_eq, Hi. left. by apply Hf.
  - rewrite lookup_insert_ne by done. by destruct (items d !! k); [left|].
Qed.
Lemma item_active_reserving i :
  item_active i = true → in_list reserving_item_statuses (it_status i) = true.
Proof. unfold item_active. by destruct (it_status i); vm_compute. Qed.

(** A guard that leaves only reserving statuses, or a status that is kept. *)
Ltac item_rows :=
  let i := fresh "i" in let Hg := fresh "Hg" in
  intros i Hg; cbv beta in Hg; rewrite ?andb_true_iff in Hg; destruct_and?;
  split; try done; left;
  first [by apply item_active_reserving
        | unfold in_list in *; repeat (match goal with H : bool_decide _ = true |- _ =>
            apply bool_decide_eq_true_1 in H end); by destruct (it_status i); vm_compute
        | done].

Lemma running_write id now :
  tx_rel item_write (update_item id item_active (set_item_status ItemRunning now)).
Proof. apply update_item_write. item_rows. Qed.
Lemma step_write id step now :
  tx_rel item_write (update_item id item_active (set_item_step step now)).
Proof. apply update_item_write. item_rows. Qed.
Lemma cas_write id expected next now :
  tx_rel item_write (update_item id (λ i, item_active i && bool_decide (it_step i = Some expected))
                       (set_item_step next now)).
Proof. apply update_item_write. item_rows. Qed.
Lemma complete_write id fulfilled evidence now :
  tx_rel item_write (update_item id item_active
    (λ i, set_item_status ItemCompleted now
            (set_item_outcome (it_failure i) (Some fulfilled) (Some evidence) i))).
Proof. apply update_item_write. item_rows. Qed.
Lemma failure_write id status failure now :
  tx_rel item_write (update_item id item_active
    (λ i, set_item_status status now
            (set_item_outcome (Some failure) (it_fulfilled_amount i) (it_completion_evidence i) i))).
Proof. apply update_item_write. item_rows. Qed.
Lemma reset_item_write id now : tx_rel item_write (reset_item_tx id now).
Proof.
  unfold reset_item_tx. apply tx_rel_bind; [apply _| |intros _; apply tx_rel_ret; apply _].
  apply update_item_write. item_rows.
Qed.
Lemma bind_write id s now :
  tx_rel item_write (update_item id (λ i, bool_decide (it_status i = ItemActionRequired))
    (λ i, set_item_status ItemRunning now (set_item_step (AStabilityStep s) now
            (set_item_outcome None (it_fulfilled_amount i) (it_completion_evidence i) i)))).
Proof. apply update_item_write. item_rows. Qed.
Lemma abandon_write (guard : Item -> bool) id failure now :
  (∀ i, guard i = true → in_list reserving_item_statuses (it_status i) = true) →
  tx_rel item_write (update_item id guard
    (λ i, set_item_status ItemFailed now
            (set_item_outcome (Some failure) (it_fulfilled_amount i) (it_completion_evidence i) i))).
Proof. intros Hg. apply update_item_write. intros i Hi. split; try done. left. by apply Hg. Qed.

Lemma cancel_items_loop ids now d d' u :
  (∀ k, k ∈ ids → ∃ i, items d !! k = Some i ∧
     in_list reserving_item_statuses (it_status i) = true) →
  tx_for ids (λ k, cancel_item_tx k now) d = Ok (d', u) → item_write d d'.
Proof.
  intros Hids Htx.
  refine (proj1 (tx_for_inv (λ x, item_write d x ∧ ∀ k i, k ∈ ids → items x !! k = Some i →
    in_list reserving_item_statuses (it_status i) = true ∨ it_status i = ItemCancelled)
    ids _ d d' u _ _ Htx)).
  - intros k d1 d2 u' Hk [Hw Hs] Hc. unfold cancel_item_tx in Hc. tx_inv.
    match goal with H : update_item _ _ _ _ = _ |- _ => rename H into Hup end.
    unfold update_item in Hup. destruct (items d1 !! k) as [i|] eqn:Hi; simplify_eq; [|done].
    split.
    + etrans; [exact Hw|]. repeat split. intros k'. cbn. destruct (decide (k' = k)) as [->|Hne].
      * rewrite lookup_insert_eq, Hi. left. split; try done.
        destruct (Hs k i Hk Hi) as [Hr|Hr]; [by left|right; cbn; by rewrite Hr].
      * rewrite lookup_insert_ne by done. by destruct (items d1 !! k'); [left|].
    + cbn. intros k' i' Hk' [[-> <-]|[Hne Hi']]%lookup_insert_Some; [by right|by eapply Hs].
  - split; [done|]. intros k i Hk Hi. destruct (Hids k Hk) as (i' & Hi' & ?). simplify_eq. by left.
Qed.

(** ** Operations and items together *)

(** One statement that neither begins nor records a balance read. *)
Record writes (e : Entry) (d d' : Db) : Prop := {
  wr_moves : moves e d d';
  wr_tick : tick d' = tick d;
  wr_observation : observation d' = observation d
}.
Lemma quiet_writes e d d' : quiet d d' → writes e d d'.
Proof.
  intros Hq. split; [|by destruct Hq..]. apply item_write_moves. by apply quiet_item_write.
Qed.
Lemma item_write_writes e d d' : item_write d d' → writes e d d'.
Proof. intros Hw. pose proof Hw as (_ & ? & ? & _). split; [by apply item_write_moves|done..]. Qed.
Lemma op_write_writes e d d' : op_write (may_reopen e) d d' → writes e d d'.
Proof. intros Hw. pose proof Hw as []. split; [by apply op_write_moves|done..]. Qed.
Lemma op_item_writes e d d1 d2 :
  op_write (may_reopen e) d d1 → item_write d1 d2 → writes e d d2.
Proof.
  intros [Hm Hu Hi Ht Ho] (A1 & A2 & A3 & A4). split; [split|congruence..].
  - intros o. specialize (Hm o). by rewrite A1.
  - intros Hd. eapply ops_unique_same; [done|auto].
  - apply items_move_weaken. intros k. specialize (A4 k). by rewrite Hi in A4.
Qed.

Lemma answer_quiet action f i o outcome : tx_rel quiet (answer_tx action f i o outcome).
Proof. unfold answer_tx, insert_audit_tx. by tx_rel_auto. Qed.

Lemma retry_operation_Ok federation item operation d d' named :
  retry_operation_tx federation item operation d = Ok (d', inr named) →
  d' = d ∧ operation = fst <$> named ∧ ∀ o r, named = Some (o, r) → operations d !! o = Some r.
Proof.
  unfold retry_operation_tx, load_operation_tx. intros Htx.
  destruct operation as [o|]; tx_inv; [|done].
  destruct (operations d !! o) as [row|] eqn:Hrow; tx_inv.
  destruct (negb _); tx_inv. destruct (wo_item_id row); tx_inv.
  destruct item; [destruct (bool_decide _)|]; tx_inv; naive_solver.
Qed.
Lemma retry_operation_quiet federation item operation :
  tx_rel quiet (retry_operation_tx federation item operation).
Proof. unfold retry_operation_tx, load_operation_tx. tx_rel_auto. Qed.
Lemma retry_plan_quiet operation l : tx_rel quiet (retry_plan operation l).
Proof.
  induction l as [|[id item] l IH]; cbn; unfold load_operations_for_item_tx; tx_rel_auto; exact IH.
Qed.
Lemma cancel_plan_quiet l : tx_rel quiet (cancel_plan l).
Proof.
  induction l as [|[id item] l IH]; cbn; unfold load_operations_for_item_tx; tx_rel_auto; exact IH.
Qed.

Lemma retry_writes federation item operation now :
  tx_rel (writes (RetryFundingStep federation item operation))
    (retry_funding_step_tx federation item operation now).
Proof.
  intros d d' r Htx. unfold retry_funding_step_tx in Htx.
  apply tx_bind_Ok in Htx as (d1 & ex & H1 & Htx). tx_inv.
  destruct (negb _); [eapply quiet_writes, answer_quiet; eauto|].
  apply tx_bind_Ok in Htx as (d1 & named & H1 & Htx).
  destruct named as [refusal|named].
  { apply quiet_writes. etrans; [by eapply retry_operation_quiet|by eapply answer_quiet]. }
  apply retry_operation_Ok in H1 as (-> & -> & Hnamed).
  apply tx_bind_Ok in Htx as (d1 & l & H1 & Htx). unfold load_items_tx in H1. tx_inv.
  destruct (select_ordered _ _ _) as [|kr l] eqn:Hl; [eapply quiet_writes, answer_quiet; eauto|].
  apply tx_bind_Ok in Htx as (d1 & plan & H1 & Htx).
  destruct plan as [refused|[ids wallets]].
  { apply quiet_writes. etrans; [by eapply retry_plan_quiet|by eapply answer_quiet]. }
  apply retry_plan_Ok in H1 as [-> Hw]; [|done].
  assert (Hgo : ∀ t, (tx_for wallets (λ o, reset_wallet_operation_tx o now);;
                tx_for ids (λ i, reset_item_tx i now);; t) d = Ok (d', r) →
              tx_rel quiet t → writes (RetryFundingStep federation item (fst <$> named)) d d').
  { intros t Ht Hq. apply tx_bind_Ok in Ht as (d1 & u1 & T1 & Ht).
    apply tx_bind_Ok in Ht as (d2 & u2 & T2 & Ht).
    eapply (op_item_writes _ _ d1).
    - eapply reset_loop; [|exact T1]. intros o Ho. destruct (Hw o Ho) as [Hn Hf]. split; [|done].
      cbn. destruct named as [[o' r']|]; [|done]. apply bool_decide_eq_true_2. by eapply Hn.
    - etrans; [|apply quiet_item_write; by eapply Hq].
      refine (tx_rel_for item_write ids _ _ d1 d2 u2 T2). intros i. apply reset_item_write. }
  destruct ids as [|i ids], wallets as [|o wallets];
    first [by eapply quiet_writes, answer_quiet | eapply Hgo; [exact Htx|apply answer_quiet]].
Qed.

Lemma cancel_writes federation reason at_ now :
  tx_rel (writes (CancelAllocation federation reason))
    (cancel_allocation_tx federation reason at_ now).
Proof.
  intros d d' r Htx. unfold cancel_allocation_tx in Htx.
  apply tx_bind_Ok in Htx as (d1 & ex & H1 & Htx). tx_inv.
  destruct (negb _); [eapply quiet_writes, answer_quiet; eauto|].
  apply tx_bind_Ok in Htx as (d1 & l & H1 & Htx). apply tx_get_Ok in H1 as [-> ->].
  apply tx_bind_Ok in Htx as (d1 & plan & H1 & Htx).
  destruct plan as [[id o]|[ids wallets]].
  { apply quiet_writes. etrans; [by eapply cancel_plan_quiet|by eapply answer_quiet]. }
  apply cancel_plan_Ok in H1 as (-> & Hw & Hi).
  destruct ids as [|i ids]; [eapply quiet_writes, answer_quiet; eauto|].
  apply tx_bind_Ok in Htx as (d1 & u1 & T1 & Ht).
  apply tx_bind_Ok in Ht as (d2 & u2 & T2 & Ht).
  assert (Hop : op_write (λ _, false) d d1) by by eapply cancel_loop.
  eapply (op_item_writes _ _ d1); [done|].
  etrans; [|apply quiet_item_write; by eapply answer_quiet].
  eapply cancel_items_loop; [|exact T2]. intros k Hk. destruct (Hi k Hk) as (it & Hit & ?).
  apply select_ordered_lookup in Hit as [Hit _]. exists it. by rewrite (ow_items _ _ _ Hop).
Qed.

(** ** Releasing and admitting *)

(** Items replaced, added or removed: what stays is untouched, what goes
    reserved nothing, what comes is fresh. *)
Definition replaced (d d' : Db) : Prop :=
  operations d' = operations d ∧ tick d' = tick d ∧ observation d' = observation d ∧
  ∀ k, match items d !! k, items d' !! k with
       | None, None => True
       | None, Some i' => item_fresh i'
       | Some i, Some i' => i' = i ∨
           (in_list reserving_item_statuses (it_status i) = false ∧ item_fresh i')
       | Some i, None => in_list reserving_item_statuses (it_status i) = false
       end.
Lemma replaced_refl d : replaced d d.
Proof. repeat split. intros k. destruct (items d !! k); [by left|done]. Qed.

Lemma release_Ok federation d d' r : release_allocation_tx federation d = Ok (d', r) →
  (d' = d ∧ ∀ p, r ≠ Released p) ∨
  (∃ p, r = Released p ∧ replaced d d' ∧
     (∀ k, is_Some (items d' !! k) → items d' !! k = items d !! k) ∧
     allocations d' = delete federation (allocations d) ∧
     ∀ o row, operations d !! o = Some row → op_of_federation d federation row = true →
       in_list pending_settlement_statuses (wo_status row) = false).
Proof.
  intros Htx. unfold release_allocation_tx in Htx.
  apply tx_bind_Ok in Htx as (d1 & row & H1 & Htx). apply tx_get_Ok in H1 as [-> ->].
  destruct (allocations d !! federation) as [row|]; [|tx_inv; by left].
  apply tx_bind_Ok in Htx as (d1 & h & H1 & Htx). unfold allocation_holding_tx in H1.
  apply res_bind_Ok in H1 as (ful & _ & H1). simplify_eq.
  destruct (is_idle _) eqn:Hidle; cbn in Htx; [|tx_inv; by left].
  right. unfold is_idle in Hidle. cbn in Hidle.
  apply andb_true_iff in Hidle as [[Hr%Z.eqb_eq Hp%Z.eqb_eq]%andb_true_iff _]. tx_inv. eexists.
  split; [done|]. split; [|split; [|split; [done|]]].
  - repeat split. intros k. cbn. rewrite map_lookup_filter.
    destruct (items d1 !! k) as [i|] eqn:Hi; cbn; [|done].
    case_guard as Hg; cbn; [by left|].
    pose proof (count_rows_0 _ _ _ _ Hr Hi) as Hc. cbn in Hc. apply andb_false_iff in Hc as [Hc|Hc]; [|done].
    by apply bool_decide_eq_false_1 in Hc.
  - intros k. cbn. rewrite map_lookup_filter.
    destruct (items d1 !! k) as [i|]; cbn; [case_guard; cbn|]; by intros [? ?].
  - intros o r Ho Hf. pose proof (count_rows_0 _ _ _ _ Hp Ho) as Hc. cbn in Hc.
    by rewrite Hf in Hc.
Qed.

Lemma replaced_insert d d1 k i :
  replaced d d1 → items d1 !! k = None → item_fresh i →
  replaced d (set_items <[k := i]> d1).
Proof.
  intros (H1 & H2 & H3 & H4) Hk Hi. repeat split; try done. intros k'. specialize (H4 k').
  cbn. destruct (decide (k' = k)) as [->|Hne].
  - rewrite lookup_insert_eq. rewrite Hk in H4. destruct (items d !! k); [by right|done].
  - by rewrite lookup_insert_ne.
Qed.
Lemma insert_allocation_replaced request json verification committed reserved planned now d d1 d2 b :
  replaced d d1 →
  insert_allocation request json verification committed reserved planned now d1 = Ok (d2, b) →
  replaced d d2 ∧ (b = false → d2 = d1).
Proof.
  intros Hr Htx. unfold insert_allocation in Htx.
  apply tx_bind_Ok in Htx as (x1 & ? & ?%tx_lift_Ok & Htx). destruct_and?; subst x1.
  apply tx_bind_Ok in Htx as (x1 & ? & ?%tx_lift_Ok & Htx). destruct_and?; subst x1.
  apply tx_bind_Ok in Htx as (x1 & conflict & [-> ->]%tx_get_Ok & Htx).
  destruct (allocation_conflicts _ _ _); [by tx_inv|].
  apply tx_bind_Ok in Htx as (x1 & u & ->%tx_put_Ok & Htx).
  apply tx_bind_Ok in Htx as (x1 & u1 & Hfor & Htx). apply tx_ret_Ok in Htx as [-> ->].
  split; [|done]. refine (tx_for_inv (replaced d) _ _ _ _ _ _ _ Hfor); [|done].
  intros p y1 y2 u2 _ Hy Hb. tx_inv.
  repeat match goal with H : to_i64_sats _ = Ok _ |- _ => apply to_i64_sats_Ok in H as [-> [? _]] end.
  match goal with H : insert_item _ _ _ = Ok _ |- _ => unfold insert_item in H; rename H into Hi end.
  destruct (bool_decide _) eqn:Hk; cbn in Hi; [done|].
  destruct (bool_decide (map_Exists _ _)); simplify_eq.
  apply replaced_insert; [done| |done]. apply bool_decide_eq_false_1 in Hk.
  by apply eq_None_not_Some.
Qed.

Lemma replaced_writes e d d1 d2 :
  may_admit e = true → may_release e = true →
  op_write (may_reopen e) d d1 → replaced d1 d2 → writes e d d2.
Proof.
  intros Ha Hr [Hm Hu Hi Ht Ho] (A1 & A2 & A3 & A4). split; [split|congruence..].
  - intros o. specialize (Hm o). by rewrite A1.
  - intros Hd. eapply ops_unique_same; [done|auto].
  - rewrite Ha, Hr. intros k. specialize (A4 k). rewrite Hi in A4.
    destruct (items d !! k), (items d2 !! k); try done. destruct A4 as [->|[??]]; [by left|by right].
Qed.

(** What an accepted plan was checked against. *)
Definition charges (d : Db) : Z := sum_rows (charge_of d) (operations d).
Definition reservations (d : Db) : Z := sum_rows reserved_of (items d).
Definition capacity_basis (config : SetupConfig) (spendable : Z) (d : Db) : option Z :=
  let available := available_balance spendable (Z.max 0 (charges d)) (Z.max 0 (reservations d))
                     (sc_fee_reserve config) in
  match sc_capacity_mode config with
  | AvailableFunds => Some available
  | ExplicitCap => (λ cap, Z.min (saturating_sub_u cap (Z.max 0 (reservations d))) available)
                   <$> sc_explicit_cap config
  end.
Record planned_against (config : SetupConfig) (request : RequestLiquidityRequest)
    (plan : AcceptedPlan) (d : Db) : Prop := {
  pa_items : plan_items config request = Ok (ap_items plan);
  pa_committed : checked_sum (pi_amount <$> ap_items plan) = Ok (ap_committed_amount plan);
  pa_reserved : checked_sum (pi_reserved_amount <$> ap_items plan) = Ok (ap_reserved_amount plan);
  pa_capacity : ∃ o basis, observation d = Some o ∧ bo_network o = sc_network config ∧
    capacity_basis config (Z.max 0 (bo_spendable o)) d = Some basis ∧
    ap_reserved_amount plan <= basis
}.

Lemma plan_allocation_Ok config request d d' r :
  plan_allocation config request d = Ok (d', r) →
  (d' = d ∧ r = None) ∨
  (d' = stamp_db d ∧ ∀ plan, r = Some plan → planned_against config request plan (stamp_db d)).
Proof.
  intros Htx. unfold plan_allocation in Htx. tx_inv.
  unfold latest_wallet_balance_observation_tx in *. tx_inv.
  destruct (observation d) as [o|] eqn:Hobs; cbn in *; [|tx_inv; by left].
  destruct (negb _) eqn:Hnet; [tx_inv; by left|right].
  apply negb_false_iff, bool_decide_eq_true_1 in Hnet. tx_inv.
  match goal with H : available_balance_for_request _ _ _ = _ |- _ =>
    apply available_Ok in H as [-> ->] end.
  match goal with H : (match sc_capacity_mode _ with _ => _ end) _ = Ok (?x, ?basis) |- _ =>
    assert (x = stamp_db d ∧ basis = capacity_basis config (Z.max 0 (bo_spendable o)) (stamp_db d))
      as [-> ->] end.
  { unfold capacity_basis. destruct (sc_capacity_mode config); [by tx_inv|].
    destruct (sc_explicit_cap config); tx_inv; [|done].
    match goal with H : active_reserved_amount_tx _ = _ |- _ =>
      apply active_reserved_Ok in H as [-> ->] end. done. }
  destruct (capacity_basis _ _ _) as [basis|] eqn:Hb; [|by tx_inv].
  match goal with H : (if ?c then _ else _) _ = Ok _ |- _ => destruct c eqn:Hlt; tx_inv end; [done|].
  split; [done|]. intros plan [= <-]. split; try done. exists o, basis.
  repeat split; [done..|]. cbn. lia.
Qed.

Lemma take_over_replaced request d d' taken :
  take_over_idle_allocation request d = Ok (d', taken) → replaced d d'.
Proof.
  intros Htx. unfold take_over_idle_allocation in Htx.
  apply tx_bind_Ok in Htx as (d1 & current & [-> ->]%tx_get_Ok & Htx).
  destruct (allocations d !! _) as [current|]; [|tx_inv; apply replaced_refl].
  destruct (bool_decide _); [tx_inv; apply replaced_refl|].
  apply tx_bind_Ok in Htx as (d1 & outcome & Hrel & Htx).
  apply release_Ok in Hrel as [[-> Hn]|(p & -> & Hr & _)]; [|by tx_inv].
  destruct outcome as [p| |h]; [by destruct (Hn p)|tx_inv; apply replaced_refl..].
Qed.

Lemma admission_Ok setup config request json summary now d d' v :
  admission_tx setup config request json summary now d = Ok (d', v) →
  (d' = d ∧ ∀ plan, v ≠ PlanAdmitted plan) ∨
  (∃ plan, v = PlanAdmitted plan ∧ setup_revision d = st_revision setup ∧
     now < rq_expires_at request ∧ planned_against config request plan (stamp_db d) ∧
     replaced (stamp_db d) d').
Proof.
  unfold admission_tx. intros Htx.
  destruct (admit_tx _ _ _ _ _ _ d) as [[d1 [plan|code|]]|e|] eqn:Hadm; simplify_eq; try by left.
  right. exists plan. split; [done|]. unfold admit_tx in Hadm.
  apply tx_bind_Ok in Hadm as (x & rev & [-> ->]%tx_get_Ok & Hadm).
  destruct (Z.eqb_spec (setup_revision d) (st_revision setup)); cbn in Hadm; [|by tx_inv].
  destruct (Z.leb_spec (rq_expires_at request) now); [by tx_inv|].
  apply tx_bind_Ok in Hadm as (d1 & r & Hplan & Hadm).
  destruct r as [plan'|]; [|by tx_inv].
  apply plan_allocation_Ok in Hplan as [[_ ?]|[-> Hplan]]; [done|].
  apply tx_bind_Ok in Hadm as (d1 & inserted & Hins & Hadm).
  apply (insert_allocation_replaced _ _ _ _ _ _ _ _ _ _ _ (replaced_refl _)) in Hins as [Hr1 Hsame].
  apply tx_bind_Ok in Hadm as (d2 & again & Hagain & Hadm).
  destruct again; tx_inv. split; [done|]. split; [done|]. split; [by apply Hplan|].
  destruct inserted; [by tx_inv|]. rewrite (Hsame eq_refl) in *.
  apply tx_bind_Ok in Hagain as (d3 & taken & Ht%take_over_replaced & Hagain).
  destruct taken; [|by tx_inv].
  by apply (insert_allocation_replaced _ _ _ _ _ _ _ _ _ _ _ Ht) in Hagain as [? _].
Qed.
Lemma admission_writes setup ready request json setup' config request' json' summary now :
  tx_rel (writes (RequestLiquidity setup ready request json))
    (admission_tx setup' config request' json' summary now).
Proof.
  intros d d' v [[-> _]|(plan & _ & _ & _ & _ & Hr)]%admission_Ok; [by apply quiet_writes|].
  eapply replaced_writes; [done..|apply stamp_db_write|done].
Qed.
Lemma release_writes federation given federation' (t : LmTx AllocationReleaseOutcome) :
  t = (outcome ← release_allocation_tx federation';
       match outcome with
       | Released _ =>
           insert_audit_tx "release_federation_allocation" (Some federation') None None Accepted;;
           mret outcome
       | _ => mret outcome
       end) →
  tx_rel (writes (ReleaseAllocation federation given)) t.
Proof.
  intros -> d d' v Htx. apply tx_bind_Ok in Htx as (d1 & outcome & Hrel & Htx).
  apply release_Ok in Hrel as [[-> Hn]|(p & -> & (R1 & R2 & R3 & R4) & Hk & _)].
  - destruct outcome as [p| |h]; [by destruct (Hn p)|tx_inv; by apply quiet_writes..].
  - unfold insert_audit_tx in Htx. tx_inv. split; [split|done..].
    + by apply ops_move_refl.
    + by apply ops_unique_same.
    + intros k. cbn. specialize (R4 k). specialize (Hk k).
      destruct (items d !! k) as [i|], (items d1 !! k) as [i'|]; try done.
      * specialize (Hk ltac:(done)). simplify_eq. by left.
      * by specialize (Hk ltac:(eauto)).
Qed.

End Items.
