(* ===== verification/LmTasks.v ===== *)
(** * Every task follows the machine

    The typestate of a task: the operations it claimed and has not sent yet, the
    balance read it has begun, its last statement and the operation ids it
    parsed.  [tasks_follow] gives every entry point a proof in the logic of
    [Logic] that each of its statements is a move of the machine, that it sends
    only what it claimed, that the statement right before a send or a provider
    deposit fenced it, and that it records only a balance its own read was
    answered. *)

From S2P Require Import Prelude LmSchema LmProg LmWallet LmAllocations LmFunds LmFunding LmStability LmManual LmRequests LmSystem LmMachine LmSteps LmItems.
From stdpp Require Import base gmap strings list sorting.
From Stdlib Require Import ZArith Lia.
Open Scope Z_scope.

Module Tasks.
Import Ledger Daemon Wallet Allocations Funds Funding Stability Manual Requests Flip Logic Machine Steps Items.

(** ** The typestate *)

Inductive Reading := NoRead | Begun (read_at : Z) | Answered (read_at spendable : Z).
Record Ghost := {
  gh_tokens : gmap string WalletOp;
  gh_read : Reading;
  gh_last : option (Db * Db);
  gh_parsed : list (string * string)
}.
Definition no_ghost : Ghost :=
  {| gh_tokens := ∅; gh_read := NoRead; gh_last := None; gh_parsed := [] |}.

(** The operations a statement puts in doubt ahead of a send: inserted in
    doubt, or taken from [pending] for an item. *)
Definition opens (old : option WalletOp) (r : WalletOp) : bool :=
  bool_decide (wo_status r = OpInDoubt) &&
  match old with
  | None => true
  | Some old => bool_decide (wo_status old = OpPending) && bool_decide (is_Some (wo_item_id old))
  end.
Definition opened (d d' : Db) : gmap string WalletOp :=
  filter (λ kr, opens (operations d !! kr.1) kr.2 = true) (operations d').

(** What an operation without an item may be paid. *)
Definition pays (r : WalletOp) (p : PreparedWithdrawal) : Prop :=
  wo_item_id r = None → wo_address r = Some (pw_address p) ∧ wo_amount r = pw_amount p ∧
    wo_fee_rate r = Some (pw_fee_rate p).
Definition sendable (g : Ghost) (p : PreparedWithdrawal) : Prop :=
  ∃ r, gh_tokens g !! pw_operation_id p = Some r ∧ pays r p.

(** The statement that fences a send: it inserts a withdrawal in doubt, or takes
    the pending operation of an item that is still active. *)
Definition fences_send (p : PreparedWithdrawal) (b a : Db) : Prop :=
  ∃ r, operations a !! pw_operation_id p = Some r ∧ wo_status r = OpInDoubt ∧
    match operations b !! pw_operation_id p with
    | None => wo_item_id r = None ∧ is_Some (wo_withdrawal_intent_id r)
    | Some old => wo_status old = OpPending ∧
                  ∃ i, wo_item_id old = Some i ∧ item_is_active i b = true
    end.
(** The statement that fences a provider deposit: the item is active and its
    persisted step holds the very submission. *)
Definition fences_deposit (item : string) (sub : DepositSubmission)
    (parsed : list (string * string)) (b : Db) : Prop :=
  ∃ i st text, items b !! item = Some i ∧ item_active i = true ∧
    it_step i = Some (AStabilityStep st) ∧ ss_sp_deposit_status st = Some SpSubmitting ∧
    ss_sp_deposit_operation_id st = Some text ∧ (text, ds_operation_id sub) ∈ parsed ∧
    ss_sp_deposit_amount st = Some (ds_amount sub) ∧
    ss_sp_deposit_min_fee_rate_ppb st = Some (ds_min_fee_rate_ppb sub).

(** What a statement may do to the balance observation. *)
Definition begins (d d' : Db) : Prop :=
  tick d' = tick d + 1 ∧ observation d' = observation d ∧ operations d' = operations d.
Definition records (g : Ghost) (d d' : Db) : Prop :=
  tick d' = tick d ∧ operations d' = operations d ∧
  ∃ o, observation d' = Some o ∧ gh_read g = Answered (bo_read_tick o) (bo_spendable o).
Definition clock_ok (g : Ghost) (d d' : Db) : Prop :=
  (tick d' = tick d ∧ observation d' = observation d) ∨ begins d d' ∨ records g d d'.

Definition stmt_ok (e : Entry) (g : Ghost) (d d' : Db) : Prop := moves e d d' ∧ clock_ok g d d'.
Definition stmt_next (g : Ghost) (d d' : Db) : Ghost :=
  {| gh_tokens := opened d d' ∪ gh_tokens g;
     gh_read := if tick d' =? tick d then gh_read g else Begun (tick d');
     gh_last := Some (d, d'); gh_parsed := gh_parsed g |}.
Definition call_ok (_ : Entry) (g : Ghost) (c : Ext) : Prop :=
  match c with
  | SendOnchain p =>
      sendable g p ∧ ∃ b a, gh_last g = Some (b, a) ∧ fences_send p b a
  | SubmitDepositToProvide _ item sub =>
      ∃ b a, gh_last g = Some (b, a) ∧ fences_deposit item sub (gh_parsed g) b
  | _ => True
  end.
Definition call_next (g : Ghost) (c : Ext) (a : Answer) : Ghost :=
  match c, a with
  | SendOnchain p, _ =>
      {| gh_tokens := delete (pw_operation_id p) (gh_tokens g); gh_read := gh_read g;
         gh_last := gh_last g; gh_parsed := gh_parsed g |}
  | GetBalances, AnsAmount (Ok v) =>
      {| gh_tokens := gh_tokens g;
         gh_read := match gh_read g with
                    | Begun r | Answered r _ => Answered r v
                    | NoRead => NoRead
                    end;
         gh_last := gh_last g; gh_parsed := gh_parsed g |}
  | ParseOperationId text, AnsText (Ok id) =>
      {| gh_tokens := gh_tokens g; gh_read := gh_read g; gh_last := gh_last g;
         gh_parsed := (text, id) :: gh_parsed g |}
  | _, _ => g
  end.

Lemma call_next_tokens g c a : gh_tokens (call_next g c a) =
  match c with SendOnchain p => delete (pw_operation_id p) (gh_tokens g) | _ => gh_tokens g end.
Proof. by destruct c, a as [|[]|[]| | | | | | | | | | | | | |]. Qed.
Lemma call_next_read g c a : (∀ v, (c, a) ≠ (GetBalances, AnsAmount (Ok v))) →
  gh_read (call_next g c a) = gh_read g.
Proof. intros Hc. destruct c, a as [|[]|[]| | | | | | | | | | | | | |]; try done. by destruct (Hc a). Qed.
Lemma call_next_last g c a : gh_last (call_next g c a) = gh_last g.
Proof. by destruct c, a as [|[]|[]| | | | | | | | | | | | | |]. Qed.

Abbreviation wp := (Logic.wp stmt_ok stmt_next call_ok call_next).
Abbreviation ok := (Logic.ok stmt_ok stmt_next call_ok call_next).

(** ** Rules *)

Lemma writes_ok e g d d' : writes e d d' → stmt_ok e g d d'.
Proof. intros []. split; [done|]. by left. Qed.
Lemma refl_ok e g d : stmt_ok e g d d.
Proof. by apply writes_ok, quiet_writes. Qed.
Lemma ok_writes {A} e (t : Z -> LmTx A) : (∀ now, tx_rel (writes e) (t now)) → ok e (stmt t).
Proof.
  intros Ht. apply ok_stmt; [|by intros; apply refl_ok].
  intros now g d d' r Hr. unfold run_tx in Hr.
  destruct (t now d) as [[d1 a]|x|] eqn:Hd; simplify_eq; try apply refl_ok.
  apply writes_ok. by eapply Ht.
Qed.
Lemma ok_quiet {A} e (t : Z -> LmTx A) : (∀ now, tx_rel quiet (t now)) → ok e (stmt t).
Proof. intros Ht. apply ok_writes. intros now d d' a Hd. apply quiet_writes. by eapply Ht. Qed.
Lemma ok_item {A} e (t : Z -> LmTx A) : (∀ now, tx_rel item_write (t now)) → ok e (stmt t).
Proof. intros Ht. apply ok_writes. intros now d d' a Hd. apply item_write_writes. by eapply Ht. Qed.
Lemma ok_op {A} e (t : Z -> LmTx A) :
  (∀ now, tx_rel (op_write (may_reopen e)) (t now)) → ok e (stmt t).
Proof. intros Ht. apply ok_writes. intros now d d' a Hd. apply op_write_writes. by eapply Ht. Qed.

Create HintDb lm discriminated.
#[export] Hint Constants Opaque : lm.
#[export] Hint Resolve ok_ret ok_done : lm.
#[export] Hint Resolve broadcast_write in_doubt_write failed_write escalate_write claim_write
  evidence_write insert_wallet_operation_write running_write step_write cas_write complete_write
  failure_write bind_write reset_item_write : lm.

(** Reduce [ok] of a task to the statements it makes. *)
Ltac ok_step :=
  match goal with
  | |- Logic.ok _ _ _ _ _ (mret _) => apply ok_ret
  | |- Logic.ok _ _ _ _ _ (Done _) => apply ok_done
  | |- Logic.ok _ _ _ _ _ (fail _) => apply ok_done
  | |- Logic.ok _ _ _ _ _ (lift _) => apply ok_done
  | |- Logic.ok _ _ _ _ _ (or_else _ _) => unfold or_else
  | |- Logic.ok _ _ _ _ _ (match ?x with _ => _ end) => destruct x
  | |- Logic.ok _ _ _ _ _ (mbind _ _) => apply ok_bind; [|intros ?]
  | |- Logic.ok _ _ _ _ _ (for_each _ _) => apply ok_for_each; intros ?
  | |- Logic.ok _ _ _ _ _ (attempt _) => apply ok_attempt
  | |- Logic.ok _ _ _ _ _ (call_info _) => unfold call_info
  | |- Logic.ok _ _ _ _ _ (call_amount _) => unfold call_amount
  | |- Logic.ok _ _ _ _ _ (call_text _) => unfold call_text
  | |- Logic.ok _ _ _ _ _ (call_unit _) => unfold call_unit
  | |- Logic.ok _ _ _ _ _ (call_outputs _) => unfold call_outputs
  | |- Logic.ok _ _ _ _ _ (call_verdict _) => unfold call_verdict
  | |- Logic.ok _ _ _ _ _ (call_bool _) => unfold call_bool
  | |- Logic.ok _ _ _ _ _ (call_time _) => unfold call_time
  | |- Logic.ok _ _ _ _ _ (call_snapshot _) => unfold call_snapshot
  | |- Logic.ok _ _ _ _ _ (call_federation _) => unfold call_federation
  | |- Logic.ok _ _ _ _ _ (call_claim _) => unfold call_claim
  | |- Logic.ok _ _ _ _ _ (call_balance _) => unfold call_balance
  | |- Logic.ok _ _ _ _ _ (call_target _) => unfold call_target
  | |- Logic.ok _ _ _ _ _ (call_peg_address _) => unfold call_peg_address
  | |- Logic.ok _ _ _ _ _ (call_peg_in _) => unfold call_peg_in
  | |- Logic.ok _ _ _ _ _ (call_receipt _) => unfold call_receipt
  | |- Logic.ok _ _ _ _ _ (call_deposit _) => unfold call_deposit
  | |- Logic.ok _ _ _ _ _ (Call _ _) => apply ok_call; [intros ?; exact I|intros [] _]
  | |- Logic.ok _ _ _ _ _ _ => solve [auto with lm nocore]
  end.
Ltac ok_auto := repeat (cbv beta zeta; ok_step).

(** *** Wallet and item statements *)

Lemma ok_begin e : ok e begin_balance_read.
Proof.
  apply ok_stmt; [|by intros; apply refl_ok]. intros now g d d' r [= <- <-]. split.
  - split; [by apply ops_move_refl|by apply ops_unique_same|by apply items_move_refl].
  - right. by left.
Qed.
Lemma get_operation_quiet id : tx_rel quiet (get_operation_tx id).
Proof. intros d d' r Htx. tx_inv. done. Qed.
Lemma ok_get_operation e id : ok e (get_wallet_operation id).
Proof. apply ok_quiet. intros _. apply get_operation_quiet. Qed.
#[export] Hint Resolve ok_begin ok_get_operation : lm.

Lemma ok_broadcast e id txid : ok e (mark_withdrawal_broadcast id txid).
Proof. unfold mark_withdrawal_broadcast. ok_auto. apply ok_op. auto with lm. Qed.
Lemma ok_in_doubt e id detail : ok e (mark_operation_in_doubt id detail).
Proof. unfold mark_operation_in_doubt. ok_auto. apply ok_op. auto with lm. Qed.
Lemma ok_failed e id detail : ok e (mark_operation_failed id detail).
Proof. unfold mark_operation_failed. ok_auto. apply ok_op. auto with lm. Qed.
Lemma ok_escalate e id after detail : ok e (escalate_in_doubt_to_manual_review id after detail).
Proof. unfold escalate_in_doubt_to_manual_review. ok_auto. apply ok_op. auto with lm. Qed.
Lemma ok_evidence e id outputs n : ok e (claim_chain_evidence id outputs n).
Proof. apply ok_op. auto with lm. Qed.
Lemma ok_balance e : ok e balance_summary.
Proof. unfold balance_summary, wallet_network. ok_auto. Qed.
Lemma ok_deposit_address e n : ok e (allocate_deposit_address n).
Proof. unfold allocate_deposit_address. ok_auto. Qed.
Lemma ok_prepare e n id address amount fee : ok e (prepare_withdrawal n id address amount fee).
Proof. unfold prepare_withdrawal. ok_auto. Qed.
Lemma ok_sums e : ok e wallet_accounting_sums.
Proof.
  unfold wallet_accounting_sums. ok_auto; apply ok_quiet; intros _ d d' r Htx;
    first [by apply active_reserved_Ok in Htx as [-> _]
          | unfold sum_wallet_operations in Htx; apply res_bind_Ok in Htx as (? & _ & Htx);
            by simplify_eq].
Qed.
#[export] Hint Resolve ok_broadcast ok_in_doubt ok_failed ok_escalate ok_evidence ok_balance
  ok_deposit_address ok_prepare ok_sums : lm.

Lemma ok_running e id : ok e (mark_item_running id).
Proof. unfold mark_item_running. ok_auto. apply ok_item. auto with lm. Qed.
Lemma ok_update_step e id s : ok e (update_item_step id s).
Proof. unfold update_item_step. ok_auto. apply ok_item. auto with lm. Qed.
Lemma ok_cas e id s s' : ok e (compare_and_set_item_step id s s').
Proof. unfold compare_and_set_item_step. ok_auto. apply ok_item. auto with lm. Qed.
Lemma ok_complete e id n ev : ok e (complete_item id n ev).
Proof.
  unfold complete_item. ok_auto. apply ok_item. intros now. tx_rel_auto. apply complete_write.
Qed.
Lemma ok_failure e id s c r : ok e (set_item_failure id s c r).
Proof. unfold set_item_failure. ok_auto. apply ok_item. auto with lm. Qed.
Lemma ok_fail_item e id c r : ok e (fail_item id c r).
Proof. apply ok_failure. Qed.
Lemma ok_require_action e id c r : ok e (require_item_action id c r).
Proof. apply ok_failure. Qed.
Lemma ok_upsert_gateway e o : ok e (upsert_gateway_observation o).
Proof. apply ok_quiet. intros _. by tx_rel_auto. Qed.
Lemma ok_gateway_observation e g : ok e (gateway_observation g).
Proof. apply ok_quiet. intros _. by tx_rel_auto. Qed.
Lemma ok_load_status e f : ok e (load_allocation_status_by_federation f).
Proof.
  unfold load_allocation_status_by_federation, allocation_status_from_row. ok_auto;
    apply ok_quiet; intros _; by tx_rel_auto.
Qed.
Lemma ok_poll e r h : ok e (load_allocation_status_for_poll r h).
Proof.
  unfold load_allocation_status_for_poll, allocation_status_from_row. ok_auto;
    apply ok_quiet; intros _; by tx_rel_auto.
Qed.
#[export] Hint Resolve ok_running ok_update_step ok_cas ok_complete ok_failure ok_fail_item
  ok_require_action ok_upsert_gateway ok_gateway_observation ok_load_status ok_poll : lm.

(** *** Sends and balance reads *)

Abbreviation any := (λ _ _, True).

Lemma wp_ok {A} e g (p : Prog A) Q :
  ok e p → (∀ g r, Q g r) → wp e g p Q.
Proof. intros Hp HQ. eapply wp_mono; [|apply Hp]. auto. Qed.
Lemma wp_any {A B} e g (p : Prog A) (f : A -> Prog B) :
  wp e g p (λ g r, ∀ a, r = Ok a → wp e g (f a) any) → wp e g (p ≫= f) any.
Proof. intros Hp. apply wp_bind. eapply wp_mono; [|apply Hp]. intros g' [a|x|] H; cbn; auto. Qed.
Lemma wp_or_else {A B} e g x (r : res string A) (f : A -> Prog B) :
  (∀ a, r = Ok a → wp e g (f a) any) → wp e g (or_else x r ≫= f) any.
Proof. intros Hf. apply wp_bind. destruct r as [a|y|]; [by apply Hf|done..]. Qed.

(** A statement in a given typestate. *)
Lemma wp_stmt {A} e g (t : Z -> LmTx A) (Q : Ghost -> res ServiceErrorCode A -> Prop) :
  (∀ now, tx_rel (stmt_ok e g) (t now)) →
  (∀ g' x, (∀ a, x ≠ Ok a) → Q g' x) →
  (∀ now d d' a, t now d = Ok (d', a) → Q (stmt_next g d d') (Ok a)) →
  wp e g (stmt t) Q.
Proof.
  intros Ht Herr HQ. cbn. split.
  - intros now d d' r Hr. unfold run_tx in Hr.
    destruct (t now d) as [[d1 a]|x|] eqn:Hd; simplify_eq.
    + split; [by eapply Ht|by eapply HQ].
    + split; [apply refl_ok|by apply Herr].
    + split; [apply refl_ok|by apply Herr].
  - intros d. split; [apply refl_ok|by apply Herr].
Qed.

Lemma wp_send {B} e g p (f : res SubmitWithdrawalError string -> Prog B) :
  call_ok e g (SendOnchain p) → (∀ r, ok e (f r)) →
  wp e g (submit_prepared_withdrawal p ≫= f) any.
Proof.
  intros Hs Hf. unfold submit_prepared_withdrawal, call_text. apply wp_any. cbn. split; [done|].
  intros [] Ha; try done. cbn. intros a [= <-]. apply wp_ok; auto.
Qed.

(** The prefix of every task that reads the wallet's balance. *)
Lemma wp_balance_read {B} e g (f : Z -> WalletBackendBalance -> Prog B) :
  (∀ g' read_at balance, gh_read g' = Answered read_at (wb_spendable balance) →
     wp e g' (f read_at balance) any) →
  wp e g (read_at ← begin_balance_read; balance ← balance_summary;
          balance ← or_else Unavailable balance; f read_at balance) any.
Proof.
  intros Hf. apply wp_any. unfold begin_balance_read. apply wp_stmt.
  - intros now d d' a [= <- <-]. split.
    + split; [by apply ops_move_refl|by apply ops_unique_same|by apply items_move_refl].
    + right. by left.
  - intros g' x Hx a ->. by destruct (Hx a).
  - intros _ d d' a [= <- <-] ? [= <-].
    set (g1 := stmt_next _ _ _). assert (Hg : gh_read g1 = Begun (tick d + 1)).
    { cbn. by destruct (Z.eqb_spec (tick d + 1) (tick d)); [lia|]. }
    clearbody g1. apply wp_any. unfold balance_summary, wallet_network, call_info. cbn.
    split; [done|]. intros [[[net []|]|er|]| | | | | | | | | | | | | | | |] Ha; try done; cbn;
      try (intros a [= <-]; cbn; intuition done).
    split; [done|]. intros [|[v|er|]| | | | | | | | | | | | | | |] Hv; try done; cbn;
      try (intros a [= <-]; cbn; intuition done).
    split; [done|]. intros [| | | | | | |at_| | | | | | | | |] Ht; try done; cbn.
    intros a [= <-]. cbn. apply Hf. cbn. by rewrite Hg.
Qed.

Lemma upsert_ok e g balance read_at :
  gh_read g = Answered read_at (wb_spendable balance) →
  tx_rel (stmt_ok e g) (upsert_wallet_balance_observation_tx balance read_at).
Proof.
  intros Hg d d' u Htx. unfold upsert_wallet_balance_observation_tx in Htx.
  apply tx_bind_Ok in Htx as (x & spendable & [-> Hsp]%tx_lift_Ok & Htx).
  apply tx_bind_Ok in Htx as (x & at_ & [-> _]%tx_lift_Ok & Htx).
  apply tx_bind_Ok in Htx as (x & o & [-> ->]%tx_get_Ok & Htx).
  apply to_i64_sats_Ok in Hsp as [-> _].
  assert (Hput : d' = d ∨ d' = set_observation
    (Some {| bo_network := wb_network balance; bo_spendable := wb_spendable balance;
             bo_observed_at := at_; bo_read_tick := read_at |}) d).
  { destruct (observation d) as [o|]; [destruct (_ <=? _)|]; tx_inv; auto. }
  destruct Hput as [->| ->]; [apply refl_ok|]. split.
  - split; [by apply ops_move_refl|by apply ops_unique_same|by apply items_move_refl].
  - right; right. split; [done|]. split; [done|]. cbn. eexists. by split.
Qed.
Lemma wp_record {B} e g balance read_at (f : unit -> Prog B) :
  gh_read g = Answered read_at (wb_spendable balance) → (∀ g', wp e g' (f tt) any) →
  wp e g (upsert_wallet_balance_observation balance read_at ≫= f) any.
Proof.
  intros Hg Hf. apply wp_any. apply wp_stmt.
  - intros _. by apply upsert_ok.
  - intros g' x Hx a ->. by destruct (Hx a).
  - intros _ d d' [] _ [] _. apply Hf.
Qed.

(** *** The tasks *)

Lemma opened_lookup d d' o r :
  operations d' !! o = Some r → opens (operations d !! o) r = true → opened d d' !! o = Some r.
Proof. intros Ho Hop. unfold opened. by apply map_lookup_filter_Some. Qed.

(** The claim of a funding submission opens its operation. *)
Lemma claim_opens step id at_ now d d' :
  claim_funding_submission_tx step id at_ now d = Ok (d', true) →
  ∃ r, opened d d' !! id = Some r ∧ wo_item_id r = Some (fs_item_id step) ∧
    ∀ p, pw_operation_id p = id → fences_send p d d'.
Proof.
  intros Htx. unfold claim_funding_submission_tx in Htx. tx_inv.
  match goal with H : update_operation _ _ _ _ = _ |- _ => rename H into Hup end.
  unfold update_operation in Hup. destruct (operations d !! id) as [r|] eqn:Hr; [|by simplify_eq].
  destruct (_ && _) eqn:Hg; [|by simplify_eq].
  apply andb_true_iff in Hg as [[Hi%bool_decide_eq_true_1 Hs%bool_decide_eq_true_1]%andb_true_iff Hact].
  simplify_eq. eexists. split; [|split].
  - eapply opened_lookup; [cbn; by rewrite lookup_insert_eq|]. rewrite Hr. unfold opens. cbn.
    by rewrite Hs, Hi.
  - done.
  - intros p <-. eexists. split; [cbn; by rewrite lookup_insert_eq|]. split; [done|].
    rewrite Hr. eauto.
Qed.
Lemma prepare_result e g n id address amount fee :
  wp e g (prepare_withdrawal n id address amount fee)
    (λ _ r, ∀ p, r = Ok (Ok p) →
       pw_operation_id p = id ∧ pw_address p = address ∧ pw_amount p = amount ∧ pw_fee_rate p = fee).
Proof.
  unfold prepare_withdrawal. destruct (amount =? 0); cbn; [naive_solver|]. split; [done|].
  intros [| | |[u|er|]| | | | | | | | | | | | |] Ha; try done; cbn; naive_solver.
Qed.
Lemma ok_submit_funding e setup step id : ok e (submit_funding_withdrawal setup step id).
Proof.
  unfold submit_funding_withdrawal. apply ok_bind; [ok_auto|intros address]. intros g. apply wp_any.
  eapply wp_mono; [|apply prepare_result]. intros g1 r Hr prepared ->. cbn in Hr.
  destruct prepared as [p|error|]; [|apply wp_ok; [unfold fail_funding_item; ok_auto|done]..].
  destruct (Hr p eq_refl) as (Hid & _). apply wp_any. unfold claim_funding_submission.
  apply wp_bind, wp_ok; [ok_auto|]. intros g2 [at_|x|]; cbn [wp_then]; [|naive_solver..].
  apply (wp_stmt e g2 (claim_funding_submission_tx step id at_)).
  - intros now d d' a Hd. apply writes_ok, op_write_writes. by eapply claim_write.
  - intros g' x Hx a ->. by destruct (Hx a).
  - intros now d d' claimed Hd ? [= <-]. destruct claimed; cbn [negb]; [|apply wp_ok; [ok_auto|done]].
    destruct (claim_opens _ _ _ _ _ _ Hd) as (r & Hop & Hi & Hfence).
    apply wp_send.
    + split; [|exists d, d'; auto].
      exists r. split; [rewrite Hid; cbn; by apply lookup_union_Some_l|]. unfold pays. by rewrite Hi.
    + intros [txid|[detail|detail]|]; unfold fail_funding_item; ok_auto.
Qed.
#[export] Hint Resolve ok_submit_funding : lm.

(** The fence of a withdrawal opens the operation it inserts. *)
Lemma fence_opens setup request fee spendable id now d d' :
  fence_withdrawal_tx setup request fee spendable id now d = Ok (d', None) →
  opened d d' !! id = Some (withdrawal_row request fee now) ∧
  ∀ p, pw_operation_id p = id → fences_send p d d'.
Proof.
  intros [(? & ? & _)|(_ & _ & Hid & _ & _ & ->)]%fence_Ok; [done|].
  cbn in Hid. rewrite lookup_fmap in Hid. split.
  - apply opened_lookup; [cbn; by rewrite lookup_insert_eq|]. by destruct (operations d !! id).
  - intros p <-. eexists. split; [cbn; by rewrite lookup_insert_eq|]. split; [done|].
    destruct (operations d !! pw_operation_id p); [done|]. cbn. eauto.
Qed.
Lemma ok_existing e request fee existing : ok e (existing_withdrawal_response request fee existing).
Proof. unfold existing_withdrawal_response. ok_auto. Qed.
#[export] Hint Resolve ok_existing : lm.
Lemma ok_request_withdrawal e setup request : ok e (request_withdrawal setup request).
Proof.
  unfold request_withdrawal. destruct (bool_decide _); [ok_auto|].
  destruct (Z.eqb_spec (rw_amount request) 0) as [|Hne]; [ok_auto|].
  destruct (_ =? 0); [ok_auto|]. apply ok_bind.
  { apply ok_quiet. intros _ d d' r ->%intent_read. done. }
  intros [existing|]; [ok_auto|]. intros g. apply wp_balance_read.
  intros g1 read_at balance Hg. apply wp_record; [done|]. clear g g1 Hg. intros g.
  apply wp_bind, wp_ok; [ok_auto|]. intros g1 [id|x|]; cbn [wp_then]; [|done..].
  apply wp_or_else. intros id' ->. apply wp_any. eapply wp_mono; [|apply prepare_result]. intros g2 r Hr prepared ->.
  apply wp_or_else. intros p ->. destruct (Hr p eq_refl) as (Hid & Ha & Hm & Hf). apply wp_any.
  apply (wp_stmt e g2 (fence_withdrawal_tx _ _ _ _ _)).
  - intros now d d' a Hd. apply writes_ok, op_write_writes. by eapply fence_write.
  - intros g' x Hx a ->. by destruct (Hx a).
  - intros now d d' fenced Hd ? [= <-]. destruct fenced; [apply wp_ok; [ok_auto|done]|].
    apply fence_opens in Hd as [Hd Hfence]. apply wp_send.
    + split; [|exists d, d'; auto].
      eexists. split; [rewrite Hid; cbn; by apply lookup_union_Some_l|]. intros _. cbn.
      by rewrite Ha, Hm, Hf.
    + intros [txid|[detail|detail]|]; ok_auto.
Qed.
#[export] Hint Resolve ok_request_withdrawal : lm.

Lemma ok_get_funds e setup : ok e (get_funds setup).
Proof.
  intros g. apply wp_balance_read. intros g1 read_at balance Hg.
  destruct (negb _); [done|]. apply wp_record; [done|]. intros g2. apply wp_ok; [ok_auto|done].
Qed.
Lemma ok_create_deposit e setup label : ok e (create_deposit_address setup label).
Proof.
  unfold create_deposit_address. ok_auto. apply ok_op. intros now.
  by apply insert_wallet_operation_write.
Qed.
Lemma ok_sync_operation e setup kr : ok e (sync_operation setup kr).
Proof. unfold sync_operation, evidence_for_operation. destruct kr. ok_auto. Qed.
#[export] Hint Resolve ok_sync_operation : lm.
Lemma ok_sync_operations e setup l : ok e (sync_operations setup l).
Proof. induction l; cbn [sync_operations]; ok_auto. Qed.
#[export] Hint Resolve ok_sync_operations : lm.
Lemma ok_sync_wallet e setup : ok e (sync_wallet_operations setup).
Proof.
  intros g. apply wp_balance_read. intros g1 read_at balance Hg. apply wp_record; [done|].
  intros g2. apply wp_ok; [|done]. apply ok_bind; [apply ok_ret|intros _].
  unfold sync_chain_evidence. ok_auto. apply ok_quiet. by intros _ d d' l [= <- <-].
Qed.

Lemma ensure_write b setup step address now :
  tx_rel (op_write b) (ensure_wallet_operation_tx setup step address now).
Proof.
  intros d d' r Htx. unfold ensure_wallet_operation_tx in Htx.
  apply tx_bind_Ok in Htx as (x & active & [-> ->]%tx_get_Ok & Htx).
  destruct (negb _); [tx_inv; by apply quiet_op_write|].
  apply tx_bind_Ok in Htx as (x & existing & Hex & Htx).
  unfold wallet_operation_for_item_tx in Hex. injection Hex as <- Hex.
  destruct existing; [tx_inv; by apply quiet_op_write|]. tx_inv.
  eapply insert_wallet_operation_write; [|eassumption]. done.
Qed.
Lemma ok_ensure e setup step : ok e (ensure_wallet_operation setup step).
Proof.
  unfold ensure_wallet_operation. ok_auto. apply ok_op. intros now. apply ensure_write.
Qed.
#[export] Hint Resolve ok_ensure : lm.

Lemma ok_note_delay e setup item r : ok e (note_attribution_delay setup item r).
Proof. unfold note_attribution_delay. ok_auto. Qed.
#[export] Hint Resolve ok_note_delay : lm.
Lemma ok_recheck e setup item r : ok e (recheck_and_note_delay setup item r).
Proof. unfold recheck_and_note_delay, recheck_gateway_deposit. ok_auto. Qed.
#[export] Hint Resolve ok_recheck : lm.
Lemma ok_complete_gateway e setup item id : ok e (complete_if_gateway_funded setup item id).
Proof. unfold complete_if_gateway_funded. ok_auto. Qed.
#[export] Hint Resolve ok_complete_gateway : lm.
Lemma ok_fund_gateway e setup advanced item : ok e (fund_gateway_item setup advanced item).
Proof. unfold fund_gateway_item, save_step. ok_auto. Qed.
#[export] Hint Resolve ok_fund_gateway : lm.
Lemma ok_address_gateway e setup advanced item : ok e (address_gateway_item setup advanced item).
Proof. unfold address_gateway_item, save_step. ok_auto. Qed.
#[export] Hint Resolve ok_address_gateway : lm.
Lemma ok_gateway_item e setup snapshot item : ok e (process_gateway_item setup snapshot item).
Proof. unfold process_gateway_item, save_step. ok_auto. Qed.
#[export] Hint Resolve ok_gateway_item : lm.
Lemma active_gateway_quiet : tx_rel quiet active_gateway_items.
Proof.
  intros d d' l Htx. unfold active_gateway_items in Htx.
  apply res_bind_Ok in Htx as (? & _ & Htx). by simplify_eq.
Qed.
Lemma ok_gateway_pass e setup : ok e (process_gateway_allocations setup).
Proof.
  unfold process_gateway_allocations, process_items, read_usable_gateway_snapshot,
    note_gateway_cannot_answer, persist_gateway_snapshot. ok_auto.
  apply ok_quiet. intros _. apply active_gateway_quiet.
Qed.

Lemma ok_require e item reason : ok e (require_action item reason).
Proof. unfold require_action. ok_auto. Qed.
#[export] Hint Resolve ok_require : lm.
Lemma ok_complete_stability e item n : ok e (complete_stability_pool_item item n).
Proof. unfold complete_stability_pool_item. ok_auto. Qed.
#[export] Hint Resolve ok_complete_stability : lm.
Lemma ok_submitting e s : ok e (submitting_submission s).
Proof. unfold submitting_submission. ok_auto. Qed.
#[export] Hint Resolve ok_submitting : lm.
Lemma ok_observe_deposit e item id : ok e (observe_stability_deposit item id).
Proof. unfold observe_stability_deposit, observe_stability_pool, save_stability_step. ok_auto. Qed.
Lemma submitting_result e g st :
  wp e g (submitting_submission st) (λ g' r, ∀ sub, r = Ok (Some (Some sub)) →
    ss_sp_deposit_status st = Some SpSubmitting ∧
    ss_sp_deposit_amount st = Some (ds_amount sub) ∧
    ss_sp_deposit_min_fee_rate_ppb st = Some (ds_min_fee_rate_ppb sub) ∧
    ∃ text, ss_sp_deposit_operation_id st = Some text ∧ (text, ds_operation_id sub) ∈ gh_parsed g').
Proof.
  unfold submitting_submission, has_in_flight_submission. case_bool_decide as Hst; [|by cbn; naive_solver].
  cbn [negb]. destruct (ss_sp_deposit_operation_id st) as [text|], (ss_sp_deposit_amount st) as [amount|],
    (ss_sp_deposit_min_fee_rate_ppb st) as [fee|]; try (by cbn; naive_solver).
  cbn. split; [done|]. intros [| |[id|er|]| | | | | | | | | | | | | |] Ha; try done; cbn; try naive_solver.
  destruct (amount =? 0); [naive_solver|]. intros sub [= <-]. cbn. repeat split; try done.
  exists text. split; [done|]. by left.
Qed.
Lemma wp_call_bool {B} e g c (f : bool -> Prog B) :
  call_ok e g c → (∀ b, wp e (call_next g c (AnsBool b)) (f b) any) → wp e g (call_bool c ≫= f) any.
Proof. intros Hc Hf. apply wp_any. cbn. split; [done|]. intros [] _; cbn; naive_solver. Qed.
Lemma wp_call_receipt {B} e g c (f : res string SubmissionReceipt -> Prog B) :
  call_ok e g c → (∀ r, ok e (f r)) → wp e g (call_receipt c ≫= f) any.
Proof.
  intros Hc Hf. apply wp_any. cbn. split; [done|]. intros [] _; cbn; try done.
  intros a [= <-]. apply wp_ok; auto.
Qed.
(** The compare-and-set before the submission fences it. *)
Lemma ok_submit_deposit e item began : ok e (submit_stability_deposit item began).
Proof.
  unfold submit_stability_deposit. intros g. apply wp_any.
  eapply wp_mono; [|apply submitting_result]. intros g1 r Hr submission ->.
  destruct submission as [[sub|]|]; [|apply wp_ok; [ok_auto|done]..].
  destruct (Hr sub eq_refl) as (Hst & Ham & Hfee & text & Htext & Hparsed). clear Hr.
  destruct (_ || _); [apply wp_ok; [ok_auto|done]|].
  apply wp_call_bool; [done|]. intros [|]; [done|]. change (call_next g1 _ _) with g1.
  apply wp_any. unfold compare_and_set_item_step. apply wp_bind, wp_stmt.
  - intros now d d' n Hn. apply writes_ok, item_write_writes. by eapply cas_write.
  - intros g' [a|x|] Hx; cbn; [by destruct (Hx a)|naive_solver..].
  - intros now d d' rows Hd fenced [= <-].
    destruct (Z.eqb_spec rows 1) as [->|]; cbn [negb]; [|apply wp_ok; [ok_auto|done]].
    apply wp_call_receipt; [|intros r; unfold save_stability_step; ok_auto].
    exists d, d'. split; [done|]. unfold update_item in Hd.
    destruct (items d !! si_item_id item) as [i|] eqn:Hi; [|done].
    destruct (_ && _) eqn:Hg; [|done].
    apply andb_true_iff in Hg as [Hact Hstep%bool_decide_eq_true_1].
    exists i, (si_step item), text. done.
Qed.
#[export] Hint Resolve ok_observe_deposit ok_submit_deposit : lm.
Lemma ok_advance_deposit e item claimed fee : ok e (advance_stability_deposit item claimed fee).
Proof. unfold advance_stability_deposit. ok_auto. Qed.
#[export] Hint Resolve ok_advance_deposit : lm.
Lemma ok_after_withdrawal e item fee : ok e (advance_after_withdrawal_completed item fee).
Proof. unfold advance_after_withdrawal_completed, save_stability_step. ok_auto. Qed.
#[export] Hint Resolve ok_after_withdrawal : lm.
Lemma ok_fund_stability e setup fee advanced item : ok e (fund_stability_item setup fee advanced item).
Proof. unfold fund_stability_item, save_stability_step. ok_auto. Qed.
#[export] Hint Resolve ok_fund_stability : lm.
Lemma ok_check_stability e setup fee advanced item : ok e (check_stability_item setup fee advanced item).
Proof. unfold check_stability_item, save_stability_step. ok_auto. Qed.
#[export] Hint Resolve ok_check_stability : lm.
Lemma ok_stability_item e setup fee item : ok e (process_stability_pool_item setup fee item).
Proof. unfold process_stability_pool_item, save_stability_step. ok_auto. Qed.
#[export] Hint Resolve ok_stability_item : lm.
Lemma ok_stability_pass e setup fee : ok e (process_stability_pool_allocations setup fee).
Proof.
  unfold process_stability_pool_allocations. ok_auto. apply ok_quiet. by intros _ d d' l [= <- <-].
Qed.

Lemma ok_audited e action f outcome : ok e (audited action f outcome).
Proof. unfold audited. ok_auto. apply ok_quiet. intros _. by tx_rel_auto. Qed.
#[export] Hint Resolve ok_audited : lm.
Lemma stability_pool_item_quiet f : tx_rel quiet (stability_pool_item f).
Proof. by intros d d' l [= <- <-]. Qed.
Lemma gateway_item_quiet f : tx_rel quiet (gateway_item f).
Proof.
  intros d d' l Htx. unfold gateway_item in Htx.
  apply res_bind_Ok in Htx as (? & _ & Htx). by simplify_eq.
Qed.
Lemma ok_bind_and_resume e item id : ok e (bind_and_resume item id).
Proof.
  unfold bind_and_resume. ok_auto. apply ok_item. intros now. tx_rel_auto. apply bind_write.
Qed.
#[export] Hint Resolve ok_bind_and_resume : lm.
Lemma ok_bind_deposit e f id : ok e (bind_target_deposit f id).
Proof.
  unfold bind_target_deposit. ok_auto. apply ok_quiet. intros _. apply stability_pool_item_quiet.
Qed.
Lemma ok_abandon_target e f given detail : ok e (abandon_target_client_value f given detail).
Proof.
  unfold abandon_target_client_value. ok_auto.
  - apply ok_quiet. intros _. apply stability_pool_item_quiet.
  - apply ok_item. intros now. tx_rel_auto; [|by apply quiet_item_write].
    apply abandon_write. intros i Hi%bool_decide_eq_true_1. by rewrite Hi.
Qed.
Lemma ok_abandon_gateway e f given detail : ok e (abandon_gateway_item f given detail).
Proof.
  unfold abandon_gateway_item, load_operation_tx. ok_auto.
  - apply ok_quiet. intros _. apply gateway_item_quiet.
  - apply ok_item. intros now. tx_rel_auto; first [by apply quiet_item_write | by apply abandon_write].
Qed.

(** *** The operator's verbs *)

Lemma resolve_review_write b id outcome at_ now :
  (reopens outcome = true → b id = true) →
  tx_rel (op_write b) (resolve_review_tx id outcome at_ now).
Proof.
  intros Hb d d' r Htx. unfold resolve_review_tx, load_operation_tx in Htx.
  apply tx_bind_Ok in Htx as (x & operation & [-> ->]%tx_get_Ok & Htx).
  destruct (operations d !! id) as [row|]; [|by eapply quiet_op_write, answer_quiet].
  destruct (negb _); [by eapply quiet_op_write, answer_quiet|].
  apply tx_bind_Ok in Htx as (x & applied & Hres & Htx).
  eapply op_write_quiet; [by eapply resolve_write|by eapply answer_quiet].
Qed.
Lemma complete_review_write b id txid at_ now :
  tx_rel (op_write b) (operation ← load_operation_tx id;
    match operation with
    | None => answer_tx "complete_review_without_evidence" None None (Some id) ManualNotFound
    | Some operation =>
        if negb (bool_decide (wo_status operation = OpManualReviewRequired))
        then answer_tx "complete_review_without_evidence" None None (Some id) Rejected
        else
          applied ← resolve_manual_review_tx id (ReviewCompleted txid) at_ now;
          answer_tx "complete_review_without_evidence" None None (Some id)
            (if applied : bool then Accepted else Rejected)
    end).
Proof.
  intros d d' r Htx. apply tx_bind_Ok in Htx as (x & operation & [-> ->]%tx_get_Ok & Htx).
  destruct (operations d !! id) as [row|]; [|by eapply quiet_op_write, answer_quiet].
  destruct (negb _); [by eapply quiet_op_write, answer_quiet|].
  apply tx_bind_Ok in Htx as (x & applied & Hres & Htx).
  eapply op_write_quiet; [eapply resolve_write; [|exact Hres]; done|by eapply answer_quiet].
Qed.
Lemma ok_complete_review e id txid given txid_given :
  ok e (complete_review_without_evidence id txid given txid_given).
Proof.
  unfold complete_review_without_evidence. ok_auto. apply ok_op. intros now.
  apply complete_review_write.
Qed.
Lemma ok_resolve e id resolution txid reason :
  e = ResolveReview id resolution txid reason → ok e (resolve_manual_review id resolution txid reason).
Proof.
  intros ->. unfold resolve_manual_review, completed_resolution_lacks_chain_evidence,
    chain_evidence_gap. apply ok_bind; [ok_auto|intros [|]; [ok_auto|]].
  unfold resolve_manual_review_with_database.
  destruct (review_outcome resolution txid reason) as [outcome|] eqn:Hout; [|ok_auto].
  ok_auto. apply ok_op. intros now. apply resolve_review_write. cbn. intros Hr.
  destruct resolution, txid as [[? []]|], outcome; cbn in Hout; simplify_eq; try done.
  by apply bool_decide_eq_true_2.
Qed.
Lemma ok_retry e f item operation :
  e = RetryFundingStep f item operation → ok e (retry_funding_step f item operation).
Proof. intros ->. apply ok_writes. intros now. apply retry_writes. Qed.
Lemma ok_cancel e f reason : e = CancelAllocation f reason → ok e (cancel_allocation f reason).
Proof.
  intros ->. unfold cancel_allocation. ok_auto. apply ok_writes. intros now. apply cancel_writes.
Qed.
Lemma ok_release e f given :
  e = ReleaseAllocation f given → ok e (release_federation_allocation f given).
Proof.
  intros ->. unfold release_federation_allocation. ok_auto. apply ok_writes. intros now.
  by eapply release_writes.
Qed.

(** *** Requests *)

Lemma ok_respond e request disclosure : ok e (respond_from_existing_allocation request disclosure).
Proof.
  unfold respond_from_existing_allocation. ok_auto. apply ok_quiet. intros _. by tx_rel_auto.
Qed.
#[export] Hint Resolve ok_respond : lm.
Lemma ok_accept e setup ready request json :
  e = RequestLiquidity setup ready request json →
  ok e (accept_or_reject_request setup ready request json).
Proof.
  intros ->. unfold accept_or_reject_request, pre_validation_failure. ok_auto.
  apply ok_writes. intros now. apply admission_writes.
Qed.

Lemma tasks_follow e : ok e (body e).
Proof.
  destruct e; apply ok_task;
    eauto using ok_accept, ok_poll, ok_get_funds, ok_create_deposit, ok_request_withdrawal,
      ok_sync_wallet, ok_gateway_pass, ok_stability_pass, ok_retry, ok_cancel, ok_release,
      ok_resolve, ok_complete_review, ok_abandon_gateway, ok_abandon_target, ok_bind_deposit.
  apply ok_quiet. intros _ d d' u Htx. unfold upsert_setup_state_tx in Htx.
  case_match; by simplify_eq.
Qed.

End Tasks.
