(* ===== verification/LmOnce.v ===== *)
(** * What a run of the liquidity manager sends

    Invariants of every run, for any number of tasks interleaved at their
    awaits, lost statements and crashes: statements follow the machine, an
    operation is sent once and once more per operator reopening, and an
    operator withdrawal is sent once, as recorded. *)

From S2P Require Import Prelude LmSchema LmProg LmWallet LmAllocations LmFunds LmFunding LmStability LmManual LmRequests LmSystem LmMachine LmSteps LmItems LmTasks.
From stdpp Require Import base gmap strings list sorting.
From Stdlib Require Import ZArith Lia.
Open Scope Z_scope.

Module Once.
Import Ledger Daemon Wallet Allocations Funds Funding Stability Manual Requests Flip Logic Machine Steps Items Tasks.

Abbreviation Trace := (list (Event Entry)).
Abbreviation Ghosts := (gmap nat (Entry * Ghost)).

(** ** What a trace shows of an operation *)

(** The withdrawals handed to gatewayd. *)
Definition sent (tr : Trace) : list PreparedWithdrawal :=
  omap (λ ev, match ev with ECall _ (SendOnchain p) _ => Some p | _ => None end) tr.
Definition sends (o : string) (tr : Trace) : nat :=
  length (filter (λ p, pw_operation_id p = o) (sent tr)).

(** The statements that put the operation in doubt ahead of a send, and those
    that send it back to [pending]. *)
Definition claims_at (o : string) (ev : Event Entry) : bool :=
  match ev with EStmt _ b a => bool_decide (is_Some (opened b a !! o)) | _ => false end.
Definition claims (o : string) (tr : Trace) : nat :=
  length (filter (λ ev, claims_at o ev = true) tr).
Definition is_pending (r : WalletOp) : bool := bool_decide (wo_status r = OpPending).
Definition reopens_at (o : string) (ev : Event Entry) : bool :=
  match ev with
  | EStmt _ b a =>
      match operations b !! o, operations a !! o with
      | Some r, Some r' => negb (is_pending r) && is_pending r'
      | _, _ => false
      end
  | _ => false
  end.
Definition reopenings (o : string) (tr : Trace) : nat :=
  length (filter (λ ev, reopens_at o ev = true) tr).

(** Invariants of a run, over the tasks' typestates. *)
Lemma flip_invariant (d0 : Db) (Inv : Db -> Ghosts -> Trace -> Prop) :
  Inv d0 ∅ [] →
  (∀ d G tr e, G !! length tr = None → Inv d G tr →
     Inv d (<[length tr := (e, no_ghost)]> G) (EStart (length tr) e :: tr)) →
  (∀ d G tr pid e g d', G !! pid = Some (e, g) → stmt_ok e g d d' → Inv d G tr →
     Inv d' (<[pid := (e, stmt_next g d d')]> G) (EStmt pid d d' :: tr)) →
  (∀ d G tr pid e g c a, G !! pid = Some (e, g) → call_ok e g c → answers c a = true →
     Inv d G tr → Inv d (<[pid := (e, call_next g c a)]> G) (ECall pid c a :: tr)) →
  (∀ d G tr, Inv d G tr → Inv d ∅ (ECrash :: tr)) →
  ∀ s, flip_run d0 s → ∃ G, Inv (sys_db s) G (sys_trace s).
Proof.
  intros H0 Hstart Hstmt Hcall Hcrash s Hr.
  destruct (wp_run stmt_ok stmt_next call_ok call_next body no_ghost d0 Inv) with (s := s)
    as (G & HI & _); eauto.
  - intros e. apply tasks_follow.
  - intros d G tr e Hdom HI. apply Hstart; [|done].
    apply eq_None_not_Some. intros Hs. apply elem_of_dom, Hdom in Hs. lia.
Qed.

(** ** Statements follow the machine *)

Lemma statements_follow d0 s : flip_run d0 s →
  ∀ pid b a, EStmt pid b a ∈ sys_trace s → ∃ e, EStart pid e ∈ sys_trace s ∧ moves e b a.
Proof.
  intros Hr.
  destruct (flip_invariant d0 (λ _ G tr,
    (∀ pid e g, G !! pid = Some (e, g) → EStart pid e ∈ tr) ∧
    ∀ pid b a, EStmt pid b a ∈ tr → ∃ e, EStart pid e ∈ tr ∧ moves e b a))
    with (s := s) as (G & _ & HI); try done.
  - split; [by intros ???; rewrite lookup_empty|by intros ??? ?%elem_of_nil].
  - intros d G tr e _ [H1 H2]. split.
    + intros pid e' g [[<- [= <- <-]]|[_ HG]]%lookup_insert_Some; [by left|right; eauto].
    + intros pid b a [?|Ht]%elem_of_cons; [done|]. destruct (H2 _ _ _ Ht) as (e' & ? & ?).
      exists e'. split; [by right|done].
  - intros d G tr pid e g d' HG [Hm _] [H1 H2]. split.
    + intros pid' e' g' [[<- [= <- <-]]|[_ HG']]%lookup_insert_Some; right; eauto.
    + intros pid' b a [[= -> -> ->]|Ht]%elem_of_cons.
      * exists e. split; [right; eauto|done].
      * destruct (H2 _ _ _ Ht) as (e' & ? & ?). exists e'. split; [by right|done].
  - intros d G tr pid e g c a HG _ _ [H1 H2]. split.
    + intros pid' e' g' [[<- [= <- <-]]|[_ HG']]%lookup_insert_Some; right; eauto.
    + intros pid' b a' [?|Ht]%elem_of_cons; [done|].
      destruct (H2 _ _ _ Ht) as (e' & ? & ?). exists e'. split; [by right|done].
  - intros d G tr [_ H2]. split; [by intros ???; rewrite lookup_empty|].
    intros pid b a [?|Ht]%elem_of_cons; [done|].
    destruct (H2 _ _ _ Ht) as (e' & ? & ?). exists e'. split; [by right|done].
Qed.

(** ** Counting *)

Lemma claims_cons o ev tr :
  claims o (ev :: tr) = ((if claims_at o ev then 1 else 0) + claims o tr)%nat.
Proof. unfold claims. rewrite filter_cons. by destruct (claims_at o ev). Qed.
Lemma reopenings_cons o ev tr :
  reopenings o (ev :: tr) = ((if reopens_at o ev then 1 else 0) + reopenings o tr)%nat.
Proof. unfold reopenings. rewrite filter_cons. by destruct (reopens_at o ev). Qed.
Lemma sends_send o pid p a tr :
  sends o (ECall pid (SendOnchain p) a :: tr) =
  ((if bool_decide (pw_operation_id p = o) then 1 else 0) + sends o tr)%nat.
Proof.
  unfold sends. change (sent _) with (p :: sent tr) at 1. rewrite filter_cons.
  case_decide; by case_bool_decide.
Qed.
Lemma sends_other o ev tr :
  (∀ pid p a, ev ≠ ECall pid (SendOnchain p) a) → sends o (ev :: tr) = sends o tr.
Proof.
  intros Hev. unfold sends. cbn. destruct ev as [| |pid c a|]; try done.
  destruct c; try done. by destruct (Hev pid prepared a).
Qed.

(** How many tasks hold the operation claimed and not yet sent. *)
Definition holds (o : string) (x : Entry * Ghost) : nat :=
  if bool_decide (is_Some (gh_tokens x.2 !! o)) then 1 else 0.
Definition holders (o : string) (G : Ghosts) : nat := map_fold (λ _ x n, holds o x + n)%nat 0%nat G.

Lemma holders_insert o pid x G :
  G !! pid = None → holders o (<[pid := x]> G) = (holds o x + holders o G)%nat.
Proof.
  intros Hp. unfold holders.
  rewrite (map_fold_insert_L (λ _ x n, holds o x + n)%nat); [done| |done]. intros. lia.
Qed.
Lemma holders_update o pid x y G :
  G !! pid = Some x → (holders o (<[pid := y]> G) + holds o x = holders o G + holds o y)%nat.
Proof.
  intros Hp. rewrite <- (insert_delete_id G pid x Hp) at 2. rewrite <- insert_delete_eq.
  rewrite !holders_insert by apply lookup_delete_eq. lia.
Qed.

(** ** Sent once per claim, claimed once per opening *)

Definition unclaimed (d : Db) (o : string) : nat :=
  match operations d !! o with Some r => if is_pending r then 1 else 0 | None => 1 end.
Record budget (d : Db) (G : Ghosts) (tr : Trace) (o : string) : Prop := {
  bu_claims : (claims o tr + unclaimed d o <= 1 + reopenings o tr)%nat;
  bu_sends : (sends o tr + holders o G <= claims o tr)%nat;
  bu_single : match operations d !! o with
              | None => claims o tr = 0%nat
              | Some r => wo_item_id r = None → (claims o tr <= 1)%nat
              end
}.

Lemma opened_eq d d' o : opened d d' !! o =
  match operations d' !! o with
  | Some r => if opens (operations d !! o) r then Some r else None
  | None => None
  end.
Proof.
  unfold opened. rewrite map_lookup_filter. destruct (operations d' !! o) as [r|]; [cbn|done].
  case_guard as Hg; cbn; [by rewrite Hg|]. by destruct (opens _ r).
Qed.
Lemma claims_step b d d' pid o : ops_move b d d' →
  let c := if claims_at o (EStmt pid d d') then 1%nat else 0%nat in
  let r := if reopens_at o (EStmt pid d d') then 1%nat else 0%nat in
  (c + unclaimed d' o <= unclaimed d o + r)%nat ∧
  match operations d !! o, operations d' !! o with
  | None, None => c = 0%nat
  | None, Some _ => (c <= 1)%nat
  | Some x, Some y => wo_item_id y = wo_item_id x ∧ (wo_item_id x = None → c = 0%nat)
  | Some _, None => False
  end.
Proof.
  intros Hm. specialize (Hm o). cbv zeta. unfold claims_at, reopens_at, unclaimed, is_pending.
  rewrite opened_eq. unfold opens.
  destruct (operations d !! o) as [x|], (operations d' !! o) as [y|]; try done.
  - destruct Hm as [_ _ Hi _ _ _ _ _ He _ _ _ _].
    destruct (wo_item_id x) eqn:Hx, (wo_status x), (wo_status y); cbn in *; try done;
      (split; [vm_compute; lia|split; [by rewrite Hi|done]]).
  - destruct (wo_status y); (split; [vm_compute; lia|case_bool_decide; lia]).
Qed.

Lemma budget_stmt d G tr pid e g d' o :
  G !! pid = Some (e, g) → stmt_ok e g d d' → budget d G tr o →
  budget d' (<[pid := (e, stmt_next g d d')]> G) (EStmt pid d d' :: tr) o.
Proof.
  intros HG [[Hm _ _] _] [H1 H2 H3].
  destruct (claims_step _ _ _ pid o Hm) as [C1 C2].
  pose proof (holders_update o pid _ (e, stmt_next g d d') G HG) as Hh.
  assert (Ht : (holds o (e, stmt_next g d d') <=
                (if claims_at o (EStmt pid d d') then 1 else 0) + holds o (e, g))%nat).
  { unfold holds, claims_at. cbn. rewrite lookup_union.
    destruct (opened d d' !! o), (gh_tokens g !! o); cbn; lia. }
  split.
  - rewrite claims_cons, reopenings_cons. lia.
  - rewrite claims_cons, sends_other by done. lia.
  - rewrite claims_cons. destruct (operations d !! o) as [x|], (operations d' !! o) as [y|];
      try done; cbn in *; [|lia..]. destruct C2 as [Hi Hc]. rewrite Hi. intros Hn.
    specialize (Hc Hn). specialize (H3 Hn). lia.
Qed.
Lemma budget_call d G tr pid e g c a o :
  G !! pid = Some (e, g) → call_ok e g c → budget d G tr o →
  budget d (<[pid := (e, call_next g c a)]> G) (ECall pid c a :: tr) o.
Proof.
  intros HG Hc [H1 H2 H3].
  pose proof (holders_update o pid _ (e, call_next g c a) G HG) as Hh.
  split; rewrite ?claims_cons, ?reopenings_cons; cbn [claims_at reopens_at]; try done.
  remember (holders o (<[pid := (e, call_next g c a)]> G)) as n eqn:Hn. clear Hn.
  assert (Hsend : (∃ p, c = SendOnchain p) ∨ ∀ p, c ≠ SendOnchain p)
    by (destruct c; eauto; right; by intros).
  destruct Hsend as [[p ->]|Hno].
  - rewrite sends_send. destruct Hc as [(r & Hr & _) _]. unfold holds in *.
    cbn [snd] in *. rewrite call_next_tokens in Hh.
    destruct (decide (pw_operation_id p = o)) as [<-|Hp].
    + rewrite bool_decide_eq_true_2 by done. rewrite lookup_delete_eq, Hr in Hh. cbn in Hh. lia.
    + rewrite bool_decide_eq_false_2 by done. rewrite lookup_delete_ne in Hh by done. lia.
  - rewrite sends_other by (intros ? p' ? [=]; by eapply Hno).
    assert (holds o (e, call_next g c a) = holds o (e, g)); [|lia].
    unfold holds. cbn. rewrite call_next_tokens. destruct c; try done. by edestruct Hno.
Qed.
Lemma sends_budget d0 s : flip_run d0 s → ∃ G, ∀ o, budget (sys_db s) G (sys_trace s) o.
Proof.
  apply (flip_invariant d0 (λ d G tr, ∀ o, budget d G tr o)).
  - intros o. split; [|done|].
    + unfold unclaimed. cbn. destruct (operations d0 !! o) as [r|]; [destruct (is_pending r)|]; cbn; lia.
    + destruct (operations d0 !! o); cbn; lia.
  - intros d G tr e HG Hb o. destruct (Hb o) as [H1 H2 H3]. split; try done.
    rewrite sends_other, claims_cons by done. rewrite holders_insert by done.
    change (holds o (e, no_ghost)) with 0%nat. cbn [claims_at]. lia.
  - intros. by apply budget_stmt.
  - intros. by apply budget_call.
  - intros d G tr Hb o. destruct (Hb o) as [H1 H2 H3]. split; try done.
    rewrite sends_other, claims_cons by done. change (holders o ∅) with 0%nat. cbn [claims_at]. lia.
Qed.

(** Only an operator's verb reopens an operation. *)
Lemma reopening_verb d0 s o ev : flip_run d0 s → ev ∈ sys_trace s → reopens_at o ev = true →
  ∃ pid b a e, ev = EStmt pid b a ∧ EStart pid e ∈ sys_trace s ∧ may_reopen e o = true.
Proof.
  intros Hr Hev Ho. destruct ev as [| pid b a | |]; try done.
  destruct (statements_follow d0 s Hr pid b a Hev) as (e & He & [Hm _ _]).
  exists pid, b, a, e. split; [done|]. split; [done|]. specialize (Hm o). unfold reopens_at in Ho.
  destruct (operations b !! o) as [x|], (operations a !! o) as [y|]; try done.
  destruct Hm as [_ _ _ _ _ _ _ _ He' _ _ _ _]. destruct (may_reopen e o); [done|].
  unfold is_pending in Ho. destruct (wo_status x), (wo_status y); done.
Qed.

(** ** A withdrawal pays what it records *)

(** The payment of an operation without an item is fixed when it is opened. *)
Definition same_payment (r r' : WalletOp) : Prop :=
  wo_item_id r' = wo_item_id r ∧
  (wo_item_id r = None → wo_amount r ≠ 0 ∧ wo_amount r' = wo_amount r ∧
     wo_address r' = wo_address r ∧ wo_fee_rate r' = wo_fee_rate r).
Lemma same_payment_move b t r r1 r2 : same_payment r r1 → op_move b t r1 r2 → same_payment r r2.
Proof.
  intros [Hi Hp] [_ _ Ji Ja Jf Jm _ _ _ _ _ _ _]. split; [congruence|]. intros Hn.
  destruct (Hp Hn) as (H0 & H1 & H2 & H3). repeat split; try congruence.
  rewrite Jm; congruence.
Qed.

Record paid_once (d : Db) (G : Ghosts) (tr : Trace) : Prop := {
  pm_unique : ops_unique d;
  pm_intent : ∀ o r, operations d !! o = Some r → is_Some (wo_withdrawal_intent_id r) →
    wo_item_id r = None;
  pm_tokens : ∀ pid e g o r, G !! pid = Some (e, g) → gh_tokens g !! o = Some r →
    ∃ r', operations d !! o = Some r' ∧ same_payment r r';
  pm_sent : ∀ p, p ∈ sent tr → ∃ r r', operations d !! pw_operation_id p = Some r' ∧
    same_payment r r' ∧ pays r p
}.
Lemma row_moves b d d' o r r' :
  ops_move b d d' → operations d !! o = Some r' → same_payment r r' →
  ∃ r'', operations d' !! o = Some r'' ∧ same_payment r r''.
Proof.
  intros Hm Hr Hs. specialize (Hm o). rewrite Hr in Hm.
  destruct (operations d' !! o) as [r''|]; [|done]. exists r''. split; [done|].
  by eapply same_payment_move.
Qed.
Lemma opened_payment b d d' o r :
  ops_move b d d' → opened d d' !! o = Some r → operations d' !! o = Some r ∧ same_payment r r.
Proof.
  intros Hm Ho. specialize (Hm o). rewrite opened_eq in Ho.
  destruct (operations d' !! o) as [r'|]; [|done]. destruct (opens _ r') eqn:Hop; simplify_eq.
  split; [done|]. split; [done|]. intros Hn. split; [|done]. unfold opens in Hop.
  apply andb_true_iff in Hop as [Hst Hold]. destruct (operations d !! o) as [x|].
  - apply andb_true_iff in Hold as [_ [i Hi]%bool_decide_eq_true_1]. destruct Hm. congruence.
  - apply bool_decide_eq_true_1 in Hst. destruct Hm as [[[? _]|(_ & _ & _ & _ & ?)] _ _ _]; congruence.
Qed.
Lemma paid_once_stmt d G tr pid e g d' :
  G !! pid = Some (e, g) → stmt_ok e g d d' → paid_once d G tr →
  paid_once d' (<[pid := (e, stmt_next g d d')]> G) (EStmt pid d d' :: tr).
Proof.
  intros HG [[Hm Hu _] _] [P1 P2 P3 P4]. split.
  - auto.
  - intros o r Hr Hi. specialize (Hm o). rewrite Hr in Hm.
    destruct (operations d !! o) as [x|] eqn:Hx.
    + destruct Hm as [_ _ Ji _ _ _ _ Jn _ _ _ _ _]. rewrite Ji. eapply P2; [done|]. by rewrite <- Jn.
    + destruct Hm as [[[_ Hn]|(_ & _ & ? & _)] _ _ _]; [|done]. rewrite Hn in Hi. by destruct Hi.
  - intros pid' e' g' o r Hl Ht. apply lookup_insert_Some in Hl as [[<- [= <- <-]]|[_ Hl]].
    + cbn in Ht. apply lookup_union_Some_raw in Ht as [Ht|[_ Ht]].
      * eapply opened_payment in Ht as [? ?]; [|done]. eauto.
      * destruct (P3 _ _ _ _ _ HG Ht) as (r' & ? & ?). by eapply row_moves.
    + destruct (P3 _ _ _ _ _ Hl Ht) as (r' & ? & ?). by eapply row_moves.
  - intros p Hp. destruct (P4 p Hp) as (r & r' & H1 & H2 & H3).
    destruct (row_moves _ _ _ _ _ _ Hm H1 H2) as (r'' & ? & ?). eauto 10.
Qed.
Lemma paid_once_call d G tr pid e g c a :
  G !! pid = Some (e, g) → call_ok e g c → paid_once d G tr →
  paid_once d (<[pid := (e, call_next g c a)]> G) (ECall pid c a :: tr).
Proof.
  intros HG Hc [P1 P2 P3 P4]. split; try done.
  - intros pid' e' g' o r Hl Ht. apply lookup_insert_Some in Hl as [[<- [= <- <-]]|[_ Hl]]; [|eauto].
    apply (P3 pid e g); [done|]. rewrite call_next_tokens in Ht.
    destruct c; try done. by apply lookup_delete_Some in Ht as [_ ?].
  - intros p Hp. assert (Hin : c = SendOnchain p ∨ p ∈ sent tr).
    { destruct c; try by right. by apply elem_of_cons in Hp as [->|Hp]; [left|right]. }
    destruct Hin as [->|Hin]; [|eauto]. destruct Hc as [(r & Hr & Hpay) _].
    destruct (P3 _ _ _ _ _ HG Hr) as (r' & ? & ?). eauto.
Qed.
Lemma run_paid_once s : flip_run empty_db s → ∃ G, paid_once (sys_db s) G (sys_trace s).
Proof.
  apply flip_invariant.
  - split.
    + intros k k' r r' Hk. cbn in Hk. by rewrite lookup_empty in Hk.
    + intros o r Ho. cbn in Ho. by rewrite lookup_empty in Ho.
    + intros pid e g o r HG. by rewrite lookup_empty in HG.
    + by intros p Hp%elem_of_nil.
  - intros d G tr e HG [P1 P2 P3 P4]. split; try done.
    intros pid e' g o r [[<- [= <- <-]]|[_ HG']]%lookup_insert_Some; [done|eauto].
  - intros. by apply paid_once_stmt.
  - intros. by apply paid_once_call.
  - intros d G tr [P1 P2 P3 P4]. split; try done.
Qed.

(** The intent a withdrawal handed to gatewayd was made for. *)
Definition intent_of (d : Db) (p : PreparedWithdrawal) : option string :=
  operations d !! pw_operation_id p ≫= wo_withdrawal_intent_id.
Lemma intent_of_Some d p i : intent_of d p = Some i ↔
  ∃ r, operations d !! pw_operation_id p = Some r ∧ wo_withdrawal_intent_id r = Some i.
Proof. unfold intent_of. rewrite bind_Some. naive_solver. Qed.

Lemma filter_length_le {A} (P Q : A -> Prop) `{∀ x, Decision (P x)} `{∀ x, Decision (Q x)} l :
  (∀ x, x ∈ l → P x → Q x) → (length (filter P l) <= length (filter Q l))%nat.
Proof.
  induction l as [|x l IH]; intros HPQ; [done|]. rewrite !filter_cons.
  assert (IH' := IH (λ y Hy, HPQ y (list_elem_of_further _ _ _ Hy))).
  pose proof (HPQ x (list_elem_of_here _ _)).
  repeat case_decide; cbn; try lia. naive_solver.
Qed.

Lemma unique_intent d o o' r r' i :
  ops_unique d → operations d !! o = Some r → operations d !! o' = Some r' →
  wo_withdrawal_intent_id r = Some i → wo_withdrawal_intent_id r' = Some i → o = o'.
Proof.
  intros Hu Ho Ho' Hi Hi'. destruct (decide (o = o')) as [|Hne]; [done|].
  pose proof (Hu _ _ _ _ Ho Ho' Hne) as Hc. unfold op_rows_clash in Hc.
  apply orb_false_iff in Hc as [[_ Hc]%orb_false_iff _].
  rewrite Hi, Hi' in Hc. by apply bool_decide_eq_false_1 in Hc.
Qed.

(** C28: Every statement any run commits is a move of the abstract machine that
    its entry point is allowed: no operation row is deleted or moved between
    federations, items, addresses or intents, statuses follow [op_edge], the
    unique indexes survive, a settled operation keeps its tick, terminal items
    keep their outcome, and items appear only by an admission and disappear only
    when they reserve nothing. *)
Theorem statements_follow_machine d0 s pid b a :
  flip_run d0 s → EStmt pid b a ∈ sys_trace s →
  ∃ e, EStart pid e ∈ sys_trace s ∧ ops_move (may_reopen e) b a ∧
       (ops_unique b → ops_unique a) ∧ items_move (may_admit e) (may_release e) b a.
Proof. intros Hr Ht. destruct (statements_follow d0 s Hr pid b a Ht) as (e & He & []). eauto. Qed.

(** C1: Whatever the interleaving of tasks, lost statements and crashes, an
    operation is handed to gatewayd at most once, and at most once more for each
    statement that returned it to [pending]; only an operator's retry or
    safe-to-retry resolution of that operation commits such a statement. *)
Theorem sent_once_per_opening d0 s o :
  flip_run d0 s →
  (sends o (sys_trace s) <= 1 + reopenings o (sys_trace s))%nat ∧
  ∀ ev, ev ∈ sys_trace s → reopens_at o ev = true →
    ∃ pid b a e, ev = EStmt pid b a ∧ EStart pid e ∈ sys_trace s ∧ may_reopen e o = true.
Proof.
  intros Hr. split; [|intros ev; by apply (reopening_verb d0)].
  destruct (sends_budget d0 s Hr) as (G & Hb). destruct (Hb o). lia.
Qed.

(** C22: An operator withdrawal intent is paid at most once, ever: at most one
    send is made for it in any run from the empty database, to the address and
    for the amount and fee rate its one recorded operation holds. *)
Theorem withdrawal_intent_sent_once s intent :
  flip_run empty_db s →
  (length (filter (λ p, intent_of (sys_db s) p = Some intent) (sent (sys_trace s))) <= 1)%nat ∧
  ∀ p, p ∈ sent (sys_trace s) → intent_of (sys_db s) p = Some intent →
    ∃ r, operations (sys_db s) !! pw_operation_id p = Some r ∧
         wo_address r = Some (pw_address p) ∧ wo_amount r = pw_amount p ∧
         wo_fee_rate r = Some (pw_fee_rate p).
Proof.
  intros Hr. destruct (run_paid_once s Hr) as (G & [P1 P2 P3 P4]).
  destruct (sends_budget _ s Hr) as (G' & Hb). split.
  - destruct (filter _ _) as [|p0 l] eqn:Hf; [cbn; lia|]. rewrite <- Hf.
    assert (Hp0 : p0 ∈ p0 :: l) by by left. rewrite <- Hf in Hp0.
    apply list_elem_of_filter in Hp0 as [(r0 & Hr0 & Hi0)%intent_of_Some _].
    destruct (Hb (pw_operation_id p0)) as [_ B2 B3]. rewrite Hr0 in B3.
    specialize (B3 (P2 _ _ Hr0 ltac:(eauto))).
    etrans; [apply (filter_length_le _ (λ p, pw_operation_id p = pw_operation_id p0))|].
    + intros p _ (r & Hrr & Hi)%intent_of_Some. by eapply unique_intent.
    + change (sends (pw_operation_id p0) (sys_trace s) <= 1)%nat. lia.
  - intros p Hp (r & Hrr & Hi)%intent_of_Some.
    destruct (P4 p Hp) as (x & r' & H1 & [H2 H3] & H4). simplify_eq.
    assert (Hn : wo_item_id x = None) by (rewrite <- H2; eapply P2; eauto).
    destruct (H3 Hn) as (_ & E1 & E2 & E3). destruct (H4 Hn) as (F1 & F2 & F3).
    exists r. repeat split; congruence.
Qed.

End Once.
