(* ===== verification/LmCapacity.v ===== *)
(** * What an admission relies on

    A balance that releases the charge of a settled send was read after the send
    settled, in every run; and an admission keeps reservations, charges and the
    fee reserve within the balance it was admitted against. *)

From S2P Require Import Prelude LmSchema LmProg LmWallet LmAllocations LmFunds LmFunding LmStability LmManual LmRequests LmSystem LmMachine LmSteps LmItems LmTasks LmOnce.
From stdpp Require Import base gmap strings list sorting.
From Stdlib Require Import ZArith Lia.
Open Scope Z_scope.

Module Capacity.
Import Ledger Daemon Wallet Allocations Funds Funding Stability Manual Requests Flip Logic Machine Steps Items Tasks Once.

(** ** Settlement and observation in a trace *)

Definition completed (r : option WalletOp) : bool :=
  match r with Some r => bool_decide (wo_status r = OpCompleted) | None => false end.
(** The trace holds the statement that settled the operation. *)
Definition settled_in (o : string) (tr : Trace) : Prop :=
  ∃ pid b a, EStmt pid b a ∈ tr ∧ completed (operations b !! o) = false ∧
    completed (operations a !! o) = true.

(** Gatewayd answered [spendable] after every operation that had settled before
    tick [read_at] settled. *)
Definition observed (d : Db) (tr : Trace) (read_at spendable : Z) : Prop :=
  read_at <= tick d ∧
  ∃ tr1 pid tr2, tr = tr1 ++ ECall pid GetBalances (AnsAmount (Ok spendable)) :: tr2 ∧
    ∀ o r t, operations d !! o = Some r → wo_status r = OpCompleted →
      wo_settled_tick r = Some t → t < read_at → settled_in o tr2.

Definition reading_ok (d : Db) (tr : Trace) (x : Reading) : Prop :=
  match x with
  | NoRead => True
  | Begun read_at => read_at <= tick d
  | Answered read_at spendable => observed d tr read_at spendable
  end.

(** A settled operation has its tick, stamped not after its release; any other
    has neither. *)
Definition ticks_ok (d : Db) (tr : Trace) (o : string) (r : WalletOp) : Prop :=
  0 <= wo_amount r ∧
  if bool_decide (wo_status r = OpCompleted) then
    ∃ t, wo_settled_tick r = Some t ∧ t <= tick d ∧ t <= default t (wo_released_tick r) ∧
         settled_in o tr
  else wo_settled_tick r = None ∧ wo_released_tick r = None.

Record watermark (d : Db) (G : Ghosts) (tr : Trace) : Prop := {
  wm_ops : ∀ o r, operations d !! o = Some r → ticks_ok d tr o r;
  wm_reads : ∀ pid e g, G !! pid = Some (e, g) → reading_ok d tr (gh_read g);
  wm_obs : ∀ b, observation d = Some b → observed d tr (bo_read_tick b) (bo_spendable b);
  wm_items : ∀ k i, items d !! k = Some i → 0 <= it_reserved_amount i
}.

Lemma settled_in_mono o tr tr' : settled_in o tr → settled_in o (tr' ++ tr).
Proof. intros (pid & b & a & ? & ? & ?). exists pid, b, a. rewrite elem_of_app. auto. Qed.
Lemma settled_in_cons o ev tr : settled_in o tr → settled_in o (ev :: tr).
Proof. apply (settled_in_mono o tr [ev]). Qed.
Lemma observed_cons d tr ev r v : observed d tr r v → observed d (ev :: tr) r v.
Proof.
  intros [? (tr1 & pid & tr2 & -> & Ho)]. split; [done|]. by exists (ev :: tr1), pid, tr2.
Qed.
Lemma reading_ok_cons d tr ev x : reading_ok d tr x → reading_ok d (ev :: tr) x.
Proof. destruct x; cbn; auto using observed_cons. Qed.
Lemma ticks_ok_cons d tr ev o r : ticks_ok d tr o r → ticks_ok d (ev :: tr) o r.
Proof.
  unfold ticks_ok. intros [? Hx]. split; [done|]. case_bool_decide; [|done].
  destruct Hx as (t & ? & ? & ? & ?). eauto 10 using settled_in_cons.
Qed.

(** One row over a statement. *)
Lemma ticks_ok_move b d d' pid tr o r r' :
  operations d !! o = Some r → operations d' !! o = Some r' → op_move b (tick d) r r' →
  tick d <= tick d' → ticks_ok d tr o r → ticks_ok d' (EStmt pid d d' :: tr) o r'.
Proof.
  intros Hr Hr' [_ _ _ _ _ _ Hn _ He Hs Hk Hu Hrel] Ht [H0 Hx]. split; [auto|].
  case_bool_decide as Hc; case_bool_decide as Hc'; rewrite ?Hc in *.
  - destruct Hx as (t & H1 & H2 & H3 & H4). exists t. rewrite (Hk eq_refl).
    split; [done|]. split; [lia|]. split; [|by apply settled_in_cons].
    destruct Hrel as [->|[->|[_ ->]]]; cbn; [done|lia..].
  - destruct (wo_status r'); done.
  - destruct Hx as [H1 H2]. rewrite H1 in *. exists (tick d). rewrite (Hs Hc' Hc). cbn.
    split; [done|]. split; [lia|]. split.
    + destruct Hrel as [->|[->|[[? ?] _]]]; [rewrite H2; cbn; lia|cbn; lia|done].
    + exists pid, d, d'. rewrite Hr, Hr'. cbn. split; [by left|].
      split; [by apply bool_decide_eq_false_2|by apply bool_decide_eq_true_2].
  - destruct Hx as [H1 H2]. split; [by apply Hu|]. destruct Hrel as [->|[->|[[? ?] _]]]; congruence.
Qed.

Lemma clock_mono g d d' : clock_ok g d d' → tick d <= tick d'.
Proof. unfold clock_ok, begins, records. intros. destruct_or!; destruct_and!; lia. Qed.
Lemma observed_move b d d' pid tr r v :
  (∀ o r, operations d !! o = Some r → ticks_ok d tr o r) →
  ops_move b d d' → tick d <= tick d' → observed d tr r v →
  observed d' (EStmt pid d d' :: tr) r v.
Proof.
  intros Hops Hm Ht [Hle (tr1 & pid' & tr2 & -> & Ho)]. split; [lia|].
  exists (EStmt pid d d' :: tr1), pid', tr2. split; [done|].
  intros o x' t Hx' Hc Hset Hlt. specialize (Hm o). rewrite Hx' in Hm.
  destruct (operations d !! o) as [x|] eqn:Hx.
  - destruct Hm as [_ _ _ _ _ _ _ _ He Hs Hk _ _].
    destruct (decide (wo_status x = OpCompleted)) as [Hcx|Hcx].
    + eapply Ho; [done..| |done]. by rewrite <- Hk.
    + specialize (Hs Hc Hcx). destruct (Hops o x Hx) as [_ Hn].
      rewrite bool_decide_eq_false_2 in Hn by done. destruct Hn as [Hn _].
      rewrite Hn in Hs. cbn in Hs. simplify_eq. congruence || lia.
  - destruct Hm as [[[? _]|[? _]] _ _ _]; congruence.
Qed.
Lemma reading_ok_move b d d' pid tr x :
  (∀ o r, operations d !! o = Some r → ticks_ok d tr o r) →
  ops_move b d d' → tick d <= tick d' → reading_ok d tr x →
  reading_ok d' (EStmt pid d d' :: tr) x.
Proof. intros. destruct x; cbn in *; [done|lia|by eapply observed_move]. Qed.

Lemma watermark_stmt d G tr pid e g d' :
  G !! pid = Some (e, g) → stmt_ok e g d d' → watermark d G tr →
  watermark d' (<[pid := (e, stmt_next g d d')]> G) (EStmt pid d d' :: tr).
Proof.
  intros HG [[Hm _ Hi] Hclock] [W1 W2 W3 W4]. pose proof (clock_mono _ _ _ Hclock) as Ht. split.
  - intros o r Hr. pose proof (Hm o) as Ho. rewrite Hr in Ho.
    destruct (operations d !! o) as [x|] eqn:Hx; [by eapply ticks_ok_move; eauto|].
    destruct Ho as [Hst Hn Hset Hrel]. split; [done|].
    rewrite bool_decide_eq_false_2; [done|]. destruct Hst as [[-> _]|[-> _]]; done.
  - intros pid' e' g' [[<- [= <- <-]]|[_ Hl]]%lookup_insert_Some.
    + cbn. destruct (tick d' =? tick d); [|cbn; lia]. eapply reading_ok_move; eauto.
    + eapply reading_ok_move; eauto.
  - intros o Ho. assert (Hobs : observed d tr (bo_read_tick o) (bo_spendable o)).
    { destruct Hclock as [[_ E]|[(_ & E & _)|(_ & _ & o' & E & Hg)]].
      - apply W3. congruence.
      - apply W3. congruence.
      - simplify_eq. pose proof (W2 _ _ _ HG) as Hr. by rewrite Hg in Hr. }
    by eapply observed_move.
  - intros k i Hk. specialize (Hi k). rewrite Hk in Hi. destruct (items d !! k) as [j|] eqn:Hj.
    + destruct Hi as [[_ _ _ _ Hr _]|(_ & _ & _ & _ & _ & ?)]; [|done]. rewrite Hr. eauto.
    + by destruct Hi as (_ & _ & _ & _ & ?).
Qed.
Lemma watermark_call d G tr pid e g c a :
  G !! pid = Some (e, g) → watermark d G tr →
  watermark d (<[pid := (e, call_next g c a)]> G) (ECall pid c a :: tr).
Proof.
  intros HG [W1 W2 W3 W4]. split; [| |by eauto using observed_cons|done].
  - intros o r Hr. apply ticks_ok_cons. eauto.
  - intros pid' e' g' [[<- [= <- <-]]|[_ Hl]]%lookup_insert_Some; [|apply reading_ok_cons; eauto].
    assert (Hother : reading_ok d (ECall pid c a :: tr) (gh_read g))
      by (apply reading_ok_cons; eauto).
    destruct c, a as [|[a|?|]| | | | | | | | | | | | | | |];
      try (by rewrite call_next_read). cbn.
    assert (Hnew : ∀ r, r <= tick d → observed d (ECall pid GetBalances (AnsAmount (Ok a)) :: tr) r a).
    { intros r Hr. split; [done|]. exists [], pid, tr. split; [done|].
      intros o x t Hx Hc Hset _. destruct (W1 o x Hx) as [_ Ht].
      rewrite bool_decide_eq_true_2 in Ht by done. by destruct Ht as (? & _ & _ & _ & ?). }
    pose proof (W2 _ _ _ HG) as Hr. destruct (gh_read g) as [|r|r v]; cbn in *; [done|auto|].
    apply Hnew. by destruct Hr.
Qed.
Lemma run_watermark s : flip_run empty_db s → ∃ G, watermark (sys_db s) G (sys_trace s).
Proof.
  apply flip_invariant.
  - split; try done; intros ??; cbn; by rewrite ?lookup_empty.
  - intros d G tr e HG [W1 W2 W3 W4]. split; try done; eauto using ticks_ok_cons, observed_cons.
    intros pid e' g [[<- [= <- <-]]|[_ HG']]%lookup_insert_Some; [done|].
    apply reading_ok_cons. eauto.
  - intros. by apply watermark_stmt.
  - intros. by apply watermark_call.
  - intros d G tr [W1 W2 W3 W4]. split; try done; eauto using ticks_ok_cons, observed_cons.
Qed.

(** The item of the operation, if it has one, reserves nothing. *)
Definition uncovered (d : Db) (r : WalletOp) : bool :=
  match wo_item_id r with Some i => negb (item_reserving d i) | None => true end.

(** C3: No stale capacity: in every run, when a completed outgoing operation is
    neither charged against capacity nor covered by a reservation, the balance
    on record is one gatewayd answered after the statement that settled the
    operation had committed. *)
Theorem released_debit_was_observed s o r b :
  flip_run empty_db s →
  operations (sys_db s) !! o = Some r → wo_status r = OpCompleted →
  in_list outgoing_operation_types (wo_type r) = true → uncovered (sys_db s) r = true →
  charged (sys_db s) r = false → observation (sys_db s) = Some b →
  ∃ tr1 pid tr2,
    sys_trace s = tr1 ++ ECall pid GetBalances (AnsAmount (Ok (bo_spendable b))) :: tr2 ∧
    settled_in o tr2.
Proof.
  intros Hr Ho Hc Hty Hun Hch Hb. destruct (run_watermark s Hr) as (G & [W1 _ W3 _]).
  destruct (W3 b Hb) as [_ (tr1 & pid & tr2 & -> & Hobs)]. exists tr1, pid, tr2.
  split; [done|]. destruct (W1 o r Ho) as [_ Ht]. rewrite bool_decide_eq_true_2 in Ht by done.
  destruct Ht as (t & Hset & _ & Hrel & _). eapply Hobs; [done..|].
  unfold charged, uncovered in *. rewrite Hty, Hset, Hb in Hch.
  destruct (wo_item_id r); rewrite ?Hun, ?andb_true_r in Hch; cbn in Hch;
    apply orb_false_iff in Hch as [_ ?%Z.leb_gt]; destruct (wo_released_tick r); cbn in *; lia.
Qed.

(** ** Sums after an admission *)

Lemma sum_rows_mono {A} (f g : string -> A -> option Z) m :
  (∀ k r, m !! k = Some r → default 0 (f k r) <= default 0 (g k r)) → sum_rows f m <= sum_rows g m.
Proof.
  induction m as [|k r m Hk IH] using map_ind; intros Hf; [done|].
  rewrite !sum_rows_insert by done. pose proof (Hf k r ltac:(by rewrite lookup_insert_eq)).
  assert (sum_rows f m <= sum_rows g m); [|lia]. apply IH. intros k' r' Hr. apply Hf.
  rewrite lookup_insert_ne; [done|]. intros ->. congruence.
Qed.
Lemma sum_rows_filter {A} (f : string -> A -> option Z) (P : string * A -> Prop)
    `{∀ x, Decision (P x)} m :
  (∀ k r, m !! k = Some r → ¬ P (k, r) → default 0 (f k r) = 0) →
  sum_rows f (filter P m) = sum_rows f m.
Proof.
  induction m as [|k r m Hk IH] using map_ind; intros Hf; [by rewrite map_filter_empty|].
  assert (IH' : sum_rows f (filter P m) = sum_rows f m).
  { apply IH. intros k' r' Hr. apply Hf. rewrite lookup_insert_ne; [done|]. intros ->. congruence. }
  rewrite map_filter_insert. rewrite (sum_rows_insert f k r m) by done. case_decide as HP.
  - rewrite sum_rows_insert by (apply map_lookup_filter_None; by left). lia.
  - rewrite (Hf k r); [|by rewrite lookup_insert_eq|done]. by rewrite delete_id.
Qed.
Definition total (l : list Z) : Z := foldr Z.add 0 l.
Lemma checked_sum_from_Ok l acc n : checked_sum_from acc l = Ok n → n = acc + total l.
Proof.
  revert acc. induction l as [|a l IH]; intros acc Hs; cbn in Hs.
  - simplify_eq. unfold total. cbn. lia.
  - apply res_bind_Ok in Hs as (x & [-> _]%ok_or_try & Hs). apply IH in Hs.
    unfold total in *. cbn. lia.
Qed.
Lemma checked_sum_Ok l n : checked_sum l = Ok n → n = total l.
Proof. apply checked_sum_from_Ok. Qed.

(** What the accepted items reserve. *)
Lemma insert_items_reserve federation planned now d1 d2 u :
  tx_for planned (λ p,
    amount ← tx_lift (to_i64_sats (pi_amount p));
    reserve ← tx_lift (to_i64_sats (pi_reserved_amount p));
    insert_item (pi_item_id p) (planned_row federation p amount reserve now)) d1 = Ok (d2, u) →
  reservations d2 = reservations d1 + total (pi_reserved_amount <$> planned).
Proof.
  revert d1. induction planned as [|p l IH]; intros d1 Htx; cbn in Htx; [tx_inv; cbn; lia|].
  apply tx_bind_Ok in Htx as (x & u1 & Hp & Hl). apply IH in Hl as ->.
  apply tx_bind_Ok in Hp as (y & amount & [-> _]%tx_lift_Ok & Hp).
  apply tx_bind_Ok in Hp as (y & reserve & [-> [-> _]%to_i64_sats_Ok]%tx_lift_Ok & Hp).
  unfold insert_item in Hp. destruct (bool_decide _) eqn:Hk; cbn in Hp; [done|].
  destruct (bool_decide (map_Exists _ _)); simplify_eq.
  apply bool_decide_eq_false_1, eq_None_not_Some in Hk.
  unfold reservations, total. cbn [set_items items]. rewrite sum_rows_insert by done.
  change (reserved_of _ _) with (Some (pi_reserved_amount p)). cbn. lia.
Qed.
Lemma insert_allocation_reserve request json verification committed reserved planned now d1 d2 b :
  insert_allocation request json verification committed reserved planned now d1 = Ok (d2, b) →
  reservations d2 = reservations d1 + (if b then total (pi_reserved_amount <$> planned) else 0).
Proof.
  intros Htx. unfold insert_allocation in Htx.
  apply tx_bind_Ok in Htx as (x1 & ? & [-> _]%tx_lift_Ok & Htx).
  apply tx_bind_Ok in Htx as (x1 & ? & [-> _]%tx_lift_Ok & Htx).
  apply tx_bind_Ok in Htx as (x1 & conflict & [-> ->]%tx_get_Ok & Htx).
  destruct (allocation_conflicts _ _ _); [tx_inv; lia|].
  apply tx_bind_Ok in Htx as (x1 & u & ->%tx_put_Ok & Htx).
  apply tx_bind_Ok in Htx as (x1 & u1 & Hfor & Htx). apply tx_ret_Ok in Htx as [-> ->].
  by apply insert_items_reserve in Hfor.
Qed.
Lemma reservations_kept d d' :
  replaced d d' → (∀ k, is_Some (items d' !! k) → items d' !! k = items d !! k) →
  reservations d' = reservations d.
Proof.
  intros (_ & _ & _ & Hr) Hk.
  assert (Hf : items d' = filter (λ kv, is_Some (items d' !! kv.1)) (items d)).
  { apply map_eq. intros k. rewrite map_lookup_filter. specialize (Hk k).
    destruct (items d' !! k) as [i|] eqn:Hi.
    - rewrite <- Hk by done. cbn. by rewrite option_guard_True by (rewrite Hi; done).
    - destruct (items d !! k); [cbn|done]. rewrite option_guard_False; [done|].
      rewrite Hi. by intros [? ?]. }
  unfold reservations. rewrite Hf. apply sum_rows_filter. intros k i Hi Hn. cbn in Hn.
  specialize (Hr k). rewrite Hi in Hr. destruct (items d' !! k); [by destruct Hn|].
  unfold reserved_of. by rewrite Hr.
Qed.
Lemma take_over_reserve request d d' taken :
  take_over_idle_allocation request d = Ok (d', taken) → reservations d' = reservations d.
Proof.
  intros Htx. unfold take_over_idle_allocation in Htx.
  apply tx_bind_Ok in Htx as (d1 & current & [-> ->]%tx_get_Ok & Htx).
  destruct (allocations d !! _) as [current|]; [|by tx_inv].
  destruct (bool_decide _); [by tx_inv|].
  apply tx_bind_Ok in Htx as (d1 & outcome & Hrel & Htx).
  apply release_Ok in Hrel as [[-> Hn]|(p & -> & Hr & Hk & _)].
  - destruct outcome as [p| |h]; [by destruct (Hn p)|by tx_inv..].
  - tx_inv. by apply reservations_kept.
Qed.
Lemma admission_reserve setup config request json summary now d d' plan :
  admission_tx setup config request json summary now d = Ok (d', PlanAdmitted plan) →
  reservations d' = reservations d + total (pi_reserved_amount <$> ap_items plan).
Proof.
  unfold admission_tx. intros Htx.
  destruct (admit_tx _ _ _ _ _ _ d) as [[d1 [plan'|code|]]|e|] eqn:Hadm; simplify_eq.
  unfold admit_tx in Hadm. apply tx_bind_Ok in Hadm as (x & rev & [-> ->]%tx_get_Ok & Hadm).
  destruct (negb _); [by tx_inv|]. destruct (_ <=? now); [by tx_inv|].
  apply tx_bind_Ok in Hadm as (d1 & r & Hplan & Hadm). destruct r as [p|]; [|by tx_inv].
  apply plan_allocation_Ok in Hplan as [[_ ?]|[-> _]]; [done|].
  apply tx_bind_Ok in Hadm as (d1 & inserted & Hins & Hadm).
  apply tx_bind_Ok in Hadm as (d2 & again & Hagain & Hadm). destruct again; tx_inv.
  apply insert_allocation_reserve in Hins. change (reservations (stamp_db d)) with (reservations d) in Hins.
  destruct inserted; [by tx_inv|].
  apply tx_bind_Ok in Hagain as (d3 & taken & Ht%take_over_reserve & Hagain).
  destruct taken; [|by tx_inv]. apply insert_allocation_reserve in Hagain. lia.
Qed.

(** ** The budget of an admission *)

Lemma charges_replaced d d' :
  (∀ o r, operations d !! o = Some r → 0 <= wo_amount r) → replaced d d' →
  charges d' <= charges d.
Proof.
  intros Hn (H1 & H2 & H3 & H4). unfold charges. rewrite H1. apply sum_rows_mono.
  intros o r Hr. specialize (Hn o r Hr). unfold charge_of.
  destruct (charged d' r) eqn:Hc; [|destruct (charged d r); cbn; lia].
  enough (charged d r = true) as -> by done. unfold charged in *.
  rewrite H3 in Hc. apply andb_true_iff in Hc as [-> Hc]. cbn.
  destruct (wo_item_id r) as [k|]; [|done]. apply negb_true_iff in Hc. apply negb_true_iff.
  unfold item_reserving in *. specialize (H4 k).
  destruct (items d !! k) as [i|], (items d' !! k) as [i'|]; try done.
  by destruct H4 as [->|[? _]].
Qed.
Lemma charges_nonneg d :
  (∀ o r, operations d !! o = Some r → 0 <= wo_amount r) → 0 <= charges d.
Proof.
  intros Hn. apply (sum_rows_member (charge_of d)). intros o r Hr. specialize (Hn o r Hr).
  unfold charge_of. destruct (charged d r); cbn; lia.
Qed.
Lemma reservations_nonneg d :
  (∀ k i, items d !! k = Some i → 0 <= it_reserved_amount i) → 0 <= reservations d.
Proof.
  intros Hn. apply (sum_rows_member reserved_of). intros k i Hi. specialize (Hn k i Hi).
  unfold reserved_of. destruct (in_list _ _); cbn; lia.
Qed.
Lemma plan_reserves config request l :
  0 <= sc_fee_reserve config → plan_items config request = Ok l →
  validate_amount_bounds (rq_amounts request) = true →
  0 < total (pi_reserved_amount <$> l).
Proof.
  intros Hfee Hp Hv. unfold plan_items in Hp.
  apply res_bind_Ok in Hp as (gateway & Hg & Hp). apply res_bind_Ok in Hp as (stability & Hs & Hp).
  simplify_eq. unfold validate_amount_bounds in Hv. unfold total.
  destruct (Z.ltb_spec 0 (ab_gateway_min_amount (rq_amounts request))) as [G|G];
    destruct (Z.ltb_spec 0 (ab_stability_min_amount (rq_amounts request))) as [S|S]; try done;
    repeat match goal with
    | H : (_ ≫= _) = Ok _ |- _ => apply res_bind_Ok in H as (? & [-> _]%ok_or_try & H)
    end; simplify_eq; cbn; lia.
Qed.

(** C9: An admission commits only under the setup revision it was validated
    against and before the request expires, and leaves the wallet's budget
    whole: everything reserved by items (the new ones included), everything
    charged for outgoing operations and the fee reserve together fit in the
    balance on record, and all reservations fit in an explicit cap. *)
Theorem admission_within_budget s setup config request json summary now d' plan :
  flip_run empty_db s → 0 <= sc_fee_reserve config →
  validate_amount_bounds (rq_amounts request) = true →
  admission_tx setup config request json summary now (sys_db s) = Ok (d', PlanAdmitted plan) →
  setup_revision (sys_db s) = st_revision setup ∧ now < rq_expires_at request ∧
  ∃ b, observation d' = Some b ∧ bo_network b = sc_network config ∧
    reservations d' + charges d' + sc_fee_reserve config <= bo_spendable b ∧
    (sc_capacity_mode config = ExplicitCap →
     ∃ cap, sc_explicit_cap config = Some cap ∧ reservations d' <= cap).
Proof.
  intros Hr Hfee Hv Htx. destruct (run_watermark s Hr) as (G & [W1 _ _ W4]).
  pose proof (admission_reserve _ _ _ _ _ _ _ _ _ Htx) as Hres.
  apply admission_Ok in Htx as [[_ Hn]|(plan' & [= <-] & Hrev & Hexp & [P1 P2 P3 P4] & Hrep)];
    [by destruct (Hn plan)|].
  split; [done|]. split; [done|]. destruct P4 as (b & basis & Hb & Hnet & Hbasis & Hle).
  pose proof (plan_reserves _ _ _ Hfee P1 Hv) as Hpos. apply checked_sum_Ok in P3.
  assert (Hnn : ∀ o r, operations (stamp_db (sys_db s)) !! o = Some r → 0 <= wo_amount r).
  { intros o r Ho. cbn in Ho. rewrite lookup_fmap in Ho. apply fmap_Some in Ho as (x & Hx & ->).
    destruct (W1 o x Hx) as [? _]. unfold stamp_released.
    destruct (wo_released_tick x), (wo_settled_tick x), (wo_item_id x); try done.
    by destruct (_ && _). }
  pose proof (charges_replaced _ _ Hnn Hrep). pose proof (charges_nonneg _ Hnn).
  pose proof (reservations_nonneg _ W4). destruct Hrep as (_ & _ & Hobs & _).
  change (reservations (stamp_db (sys_db s))) with (reservations (sys_db s)) in *.
  exists b. rewrite Hobs. split; [done|]. split; [done|].
  unfold capacity_basis, available_balance, saturating_sub_u in Hbasis.
  change (reservations (stamp_db (sys_db s))) with (reservations (sys_db s)) in Hbasis.
  destruct (sc_capacity_mode config); simplify_eq/=.
  - split; [lia|done].
  - destruct (sc_explicit_cap config) as [cap|]; simplify_eq/=. split; [lia|].
    intros _. exists cap. split; [done|lia].
Qed.

End Capacity.
