(* ===== verification/LmEvidence.v ===== *)
(** * Irreversible calls are fenced

    The last statement a task committed before it hands a withdrawal to gatewayd
    or a provider deposit to the target client is the one that fenced it: a
    compare-and-set of the operation, or of the item's step, that cancelled and
    finished work fails.

    Module [Fences] holds these theorems; module [Evidence] those about chain
    evidence and releases. *)

From S2P Require Import Prelude LmSchema LmProg LmWallet LmAllocations LmFunds LmFunding LmStability LmManual LmRequests LmSystem LmMachine LmSteps LmItems LmTasks LmOnce LmCapacity.
From stdpp Require Import base gmap strings list sorting.
From Stdlib Require Import ZArith Lia.
Open Scope Z_scope.

Module Fences.
Import Ledger Daemon Wallet Allocations Funds Funding Stability Manual Requests Flip Logic Machine Steps Items Tasks Once.

(** The last statement of a task, the newest event first. *)
Fixpoint last_stmt (pid : nat) (tr : Trace) : option (Db * Db) :=
  match tr with
  | [] => None
  | EStmt p b a :: tr => if decide (p = pid) then Some (b, a) else last_stmt pid tr
  | EStart p _ :: tr => if decide (p = pid) then None else last_stmt pid tr
  | _ :: tr => last_stmt pid tr
  end.

(** The operation ids a task parsed. *)
Definition parsed_in (pid : nat) (tr : Trace) (x : string * string) : Prop :=
  ECall pid (ParseOperationId x.1) (AnsText (Ok x.2)) ∈ tr.

(** What a call that moves money finds in the trace before it. *)
Definition fenced (pid : nat) (c : Ext) (tr : Trace) : Prop :=
  match c with
  | SendOnchain p => ∃ b a, last_stmt pid tr = Some (b, a) ∧ fences_send p b a
  | SubmitDepositToProvide _ item sub =>
      ∃ b a parsed, last_stmt pid tr = Some (b, a) ∧ fences_deposit item sub parsed b ∧
        ∀ x, x ∈ parsed → parsed_in pid tr x
  | _ => True
  end.

Definition follows (tr : Trace) (pid : nat) (g : Ghost) : Prop :=
  gh_last g = last_stmt pid tr ∧ ∀ x, x ∈ gh_parsed g → parsed_in pid tr x.
Record fences (G : Ghosts) (tr : Trace) : Prop := {
  fe_ghosts : ∀ pid e g, G !! pid = Some (e, g) → follows tr pid g;
  fe_calls : ∀ tr1 pid c a tr2, tr = tr1 ++ ECall pid c a :: tr2 → fenced pid c tr2
}.

Lemma follows_other ev tr pid g :
  (∀ e, ev ≠ EStart pid e) → (∀ b a, ev ≠ EStmt pid b a) → follows tr pid g →
  follows (ev :: tr) pid g.
Proof.
  intros H1 H2 [Hl Hp]. split; [rewrite Hl|intros x Hx; right; by apply Hp].
  destruct ev as [p e|p b a|p c a|]; cbn; try done; case_decide; subst; try done;
    [by destruct (H1 e)|by destruct (H2 b a)].
Qed.
Lemma calls_other ev tr :
  (∀ pid c a, ev ≠ ECall pid c a) →
  (∀ tr1 pid c a tr2, tr = tr1 ++ ECall pid c a :: tr2 → fenced pid c tr2) →
  ∀ tr1 pid c a tr2, ev :: tr = tr1 ++ ECall pid c a :: tr2 → fenced pid c tr2.
Proof.
  intros Hev Hc [|ev' tr1] pid c a tr2 Htr; simplify_eq/=; [by destruct (Hev pid c a)|by eapply Hc].
Qed.
Lemma call_next_parsed g c a x : x ∈ gh_parsed (call_next g c a) →
  x ∈ gh_parsed g ∨ (c = ParseOperationId x.1 ∧ a = AnsText (Ok x.2)).
Proof.
  destruct c, a as [|[]|[]| | | | | | | | | | | | | |]; cbn; auto.
  intros [->|Hx]%elem_of_cons; auto.
Qed.

Lemma run_fences d0 s : flip_run d0 s → ∃ G, fences G (sys_trace s).
Proof.
  apply (flip_invariant d0 (λ _, fences)).
  - split; [by intros ???; rewrite lookup_empty|by intros []].
  - intros d G tr e HG [F1 F2]. split; [|by apply calls_other].
    intros pid e' g [[<- [= <- <-]]|[Hne Hl]]%lookup_insert_Some.
    + split; [cbn; by rewrite decide_True|by intros ? ?%elem_of_nil].
    + apply follows_other; [naive_solver|done|eauto].
  - intros d G tr pid e g d' HG _ [F1 F2]. split; [|by apply calls_other].
    intros pid' e' g' [[<- [= <- <-]]|[Hne Hl]]%lookup_insert_Some.
    + destruct (F1 _ _ _ HG) as [_ Hp]. split; [cbn; by rewrite decide_True|].
      intros x Hx. right. by apply Hp.
    + apply follows_other; [done|naive_solver|eauto].
  - intros d G tr pid e g c a HG Hok _ [F1 F2]. destruct (F1 _ _ _ HG) as [Hlast Hp]. split.
    + intros pid' e' g' [[<- [= <- <-]]|[Hne Hl]]%lookup_insert_Some;
        [|apply follows_other; [done|done|eauto]].
      split; [by rewrite call_next_last|].
      intros x [Hx|[-> ->]]%call_next_parsed; [right; by apply Hp|by left].
    + intros [|ev' tr1] pid' c' a' tr2 Htr; simplify_eq/=; [|by eapply F2].
      destruct c'; try done; cbn in Hok.
      * destruct Hok as (_ & b & a & ? & ?). exists b, a. by rewrite <- Hlast.
      * destruct Hok as (b & a & ? & ?). exists b, a, (gh_parsed g). by rewrite <- Hlast.
  - intros d G tr [F1 F2]. split; [by intros ???; rewrite lookup_empty|by apply calls_other].
Qed.

(** C7: In every run, the last statement a task committed before it hands a
    withdrawal to gatewayd put exactly that operation in doubt, from [pending]
    under an item that was pending or running, or as a new withdrawal bound to
    its intent; and before it submits a provider deposit, the last statement
    found the item active with exactly that submission persisted, under an
    operation id the task parsed from it. *)
Theorem irreversible_calls_are_fenced d0 s tr1 pid c a tr2 :
  flip_run d0 s → sys_trace s = tr1 ++ ECall pid c a :: tr2 → fenced pid c tr2.
Proof. intros Hr Htr. destruct (run_fences d0 s Hr) as (G & [_ F]). by eapply F. Qed.

End Fences.

(** * Chain evidence and releases

    Which transaction output may advance an operation, and what releasing an
    allocation leaves of the wallet's budget. *)

Module Evidence.
Import Ledger Daemon Wallet Allocations Funds Funding Stability Manual Requests Flip Machine Steps Items Tasks Once Capacity.

(** ** One exclusive output *)

(** An output that pays the operation and is not recorded for another one. *)
Definition eligible (d : Db) (id : string) (r : WalletOp) (expected : string) (o : ChainOutput)
    : bool :=
  output_matches r expected [] o &&
  match outpoint_owner o d with None => true | Some owner => bool_decide (owner = id) end.
Definition outpoint (o : ChainOutput) : string * Z := (co_txid o, co_vout o).

Lemma output_matches_seen r expected seen o :
  output_matches r expected seen o =
  output_matches r expected [] o && negb (bool_decide (outpoint o ∈ outpoint <$> seen)).
Proof.
  unfold output_matches. cbn [existsb negb]. rewrite andb_true_r. f_equal. f_equal.
  apply eq_iff_eq_true. rewrite existsb_exists, bool_decide_eq_true, list_elem_of_fmap.
  unfold outpoint. split.
  - intros (c & Hc & [H1%bool_decide_eq_true_1 H2%Z.eqb_eq]%andb_true_iff). exists c.
    rewrite list_elem_of_In. split; [congruence|done].
  - intros (c & [= H1 H2] & Hc). exists c. rewrite <- list_elem_of_In. split; [done|].
    rewrite H1, H2, bool_decide_eq_true_2 by done. cbn. apply Z.eqb_refl.
Qed.

(** The candidates are eligible, and hold the outpoint of each eligible output. *)
Lemma candidates_cons d id r expected seen o outputs :
  candidates d id r expected seen (o :: outputs) =
  if eligible d id r expected o && negb (bool_decide (outpoint o ∈ outpoint <$> seen))
  then candidates d id r expected (seen ++ [o]) outputs
  else candidates d id r expected seen outputs.
Proof.
  cbn [candidates]. rewrite output_matches_seen. unfold eligible.
  destruct (output_matches r expected [] o); [|done]. cbn [andb].
  destruct (outpoint_owner o d) as [owner|]; [destruct (bool_decide (owner = id))|];
    by rewrite ?andb_true_r, ?andb_false_r.
Qed.
Lemma candidates_spec d id r expected outputs seen :
  (∀ o, o ∈ candidates d id r expected seen outputs →
     o ∈ seen ∨ (o ∈ outputs ∧ eligible d id r expected o = true)) ∧
  (∀ x, x ∈ outpoint <$> seen → x ∈ outpoint <$> candidates d id r expected seen outputs) ∧
  (∀ o, o ∈ outputs → eligible d id r expected o = true →
     outpoint o ∈ outpoint <$> candidates d id r expected seen outputs).
Proof.
  revert seen. induction outputs as [|o outputs IH]; intros seen.
  { split; [auto|]. split; [auto|]. by intros ? ?%elem_of_nil. }
  rewrite candidates_cons. destruct (eligible d id r expected o && _) eqn:Hadd.
  - apply andb_true_iff in Hadd as [He _]. destruct (IH (seen ++ [o])) as (I1 & I2 & I3).
    assert (I2' : ∀ x, x ∈ outpoint <$> seen ∨ x = outpoint o →
              x ∈ outpoint <$> candidates d id r expected (seen ++ [o]) outputs).
    { intros x Hx. apply I2. rewrite fmap_app, elem_of_app. cbn. rewrite list_elem_of_singleton. done. }
    split; [|split; [auto|]].
    + intros c Hc. destruct (I1 c Hc) as [[Hs|Hs%list_elem_of_singleton]%elem_of_app|[? ?]].
      * by left.
      * subst c. right. split; [by left|done].
      * right. split; [by right|done].
    + intros c [->|Hc]%elem_of_cons Hel; [auto|by apply I3].
  - destruct (IH seen) as (I1 & I2 & I3). split; [|split; [done|]].
    + intros c Hc. destruct (I1 c Hc) as [|[? ?]]; [by left|right; split; [by right|done]].
    + intros c [->|Hc]%elem_of_cons Hel; [|by apply I3]. apply I2.
      rewrite Hel in Hadd. cbn in Hadd. by apply negb_false_iff, bool_decide_eq_true_1 in Hadd.
Qed.

Lemma clash_outpoint r x txid vout :
  wo_txid r = Some txid → wo_tx_vout r = Some vout → op_rows_clash r x = false →
  ¬ (wo_txid x = Some txid ∧ wo_tx_vout x = Some vout).
Proof.
  intros Ht Hv Hc [Ht' Hv']. unfold op_rows_clash in Hc. apply orb_false_iff in Hc as [_ Hc].
  rewrite Ht, Hv, Ht', Hv' in Hc. by rewrite !bool_decide_eq_true_2 in Hc by done.
Qed.

(** The operation before and after evidence [o] was applied to it. *)
Record applied (d d' : Db) (id : string) (outputs : list ChainOutput) (n : Z) (o : ChainOutput)
    (r r' : WalletOp) : Prop := {
  ap_before : operations d !! id = Some r;
  ap_unsettled : in_list [OpPending; OpInDoubt; OpBroadcast; OpConfirmed] (wo_status r) = true;
  ap_output : o ∈ outputs;
  ap_address : co_address o = wo_address r ∧ is_Some (wo_address r);
  ap_amount : co_amount o ≠ 0 ∧ (0 < wo_amount r → co_amount o = wo_amount r);
  ap_single : ∀ expected o', wo_address r = Some expected → o' ∈ outputs →
    eligible d id (wallet_operation_from_row r) expected o' = true → outpoint o' = outpoint o;
  ap_after : operations d' !! id = Some r';
  ap_outpoint : wo_txid r' = Some (co_txid o) ∧ wo_tx_vout r' = Some (co_vout o);
  ap_status : wo_status r' = synced_status (evidence_status o n);
  ap_exclusive : ∀ k x, k ≠ id → operations d' !! k = Some x →
    ¬ (wo_txid x = Some (co_txid o) ∧ wo_tx_vout x = Some (co_vout o));
  ap_others : ∀ k, k ≠ id → operations d' !! k = operations d !! k
}.

(** C29: Chain evidence advances an operation only by one output that pays its
    recorded address its recorded amount (any positive amount for a top-up that
    records none), when no other observed output could be meant and no other
    operation holds the outpoint, which the operation then owns exclusively; a
    claim that finds none or several changes nothing. *)
Theorem evidence_is_exclusive id outputs n now d d' v :
  claim_chain_evidence_tx id outputs n now d = Ok (d', v) →
  match v with
  | EvidenceApplied _ => ∃ o r r', applied d d' id outputs n o r r'
  | _ => d' = d
  end.
Proof.
  intros Htx. unfold claim_chain_evidence_tx in Htx.
  apply tx_bind_Ok in Htx as (x & r0 & [-> Hr0]%get_operation_Ok & Htx).
  apply fmap_Some in Hr0 as (r & Hr & ->).
  destruct (negb _ || _); [by tx_inv|].
  destruct (wo_address (wallet_operation_from_row r)) as [expected|] eqn:Haddr; [|by tx_inv].
  apply tx_bind_Ok in Htx as (x & found & [-> ->]%tx_get_Ok & Htx).
  destruct (candidates_spec d id (wallet_operation_from_row r) expected outputs []) as (C1 & _ & C3).
  destruct (candidates _ _ _ _ _ _) as [|o [|]] eqn:Hcand; [by tx_inv| |by tx_inv].
  destruct (C1 o) as [Hnil|[Hin Hel]]; [by left|by apply elem_of_nil in Hnil|].
  apply tx_bind_Ok in Htx as (x & amount & [-> [-> _]%ok_or_try]%tx_lift_Ok & Htx).
  apply tx_bind_Ok in Htx as (x & t & [-> ->]%tx_get_Ok & Htx).
  apply tx_bind_Ok in Htx as (d1 & rows & Hup & Htx).
  unfold update_operation_indexed in Hup. rewrite Hr in Hup.
  destruct (_ && _) eqn:Hg in Hup; [|simplify_eq; cbn [Z.eqb] in Htx; by tx_inv].
  destruct (op_conflicts _ _ _) eqn:Hc; simplify_eq. change (1 =? 1) with true in Htx.
  cbv iota in Htx. tx_inv.
  apply andb_true_iff in Hg as [[Hst _]%andb_true_iff _].
  unfold eligible, output_matches in Hel. cbn in Hel, Haddr. rewrite !andb_true_iff in Hel.
  destruct Hel as [[[[[[Ha%bool_decide_eq_true_1 Hz] Hm] _] _] _] _].
  match type of Hc with op_conflicts _ ?x _ = _ => exists o, r, x end. split; try done.
  - rewrite Haddr. eauto.
  - rewrite negb_true_iff, Z.eqb_neq in Hz. split; [done|]. intros Hp.
    apply orb_true_iff in Hm as [?%Z.eqb_eq|?%Z.eqb_eq]; lia.
  - intros e o' He Ho' Hel. rewrite He in Haddr. simplify_eq.
    specialize (C3 o' Ho' Hel). by apply list_elem_of_singleton in C3.
  - cbn. by rewrite lookup_insert_eq.
  - intros k x Hne Hx. cbn in Hx. rewrite lookup_insert_ne in Hx by done.
    eapply clash_outpoint; [..|by eapply op_conflicts_false]; done.
  - intros k Hne. cbn. by rewrite lookup_insert_ne.
Qed.

(** ** Releasing an allocation *)

Lemma sum_rows_ext {A} (f g : string -> A -> option Z) m :
  (∀ k r, m !! k = Some r → f k r = g k r) → sum_rows f m = sum_rows g m.
Proof.
  intros Hf. apply Z.le_antisymm; apply sum_rows_mono; intros k r Hr; by rewrite (Hf k r Hr).
Qed.

(** Releasing an allocation, by the operator or by a takeover, moves nothing
    of the wallet's budget: reservations and charges stay what they were, no
    operation tied to the federation awaited settlement, and the federation is
    free to be requested again. *)
Theorem release_keeps_budget federation d d' requester :
  release_allocation_tx federation d = Ok (d', Released requester) →
  reservations d' = reservations d ∧ charges d' = charges d ∧
  operations d' = operations d ∧ allocations d' !! federation = None ∧
  ∀ o r, operations d !! o = Some r → op_of_federation d federation r = true →
    in_list pending_settlement_statuses (wo_status r) = false.
Proof.
  intros [[_ Hn]|(p & _ & Hrep & Hk & Ha & Hp)]%release_Ok; [by destruct (Hn requester)|].
  pose proof (reservations_kept _ _ Hrep Hk) as Hres. destruct Hrep as (H1 & _ & H3 & H4).
  split; [done|]. split; [|split; [done|split; [by rewrite Ha, lookup_delete_eq|done]]].
  unfold charges. rewrite H1. apply sum_rows_ext. intros o r _. unfold charge_of, charged.
  rewrite H3. do 2 f_equal. destruct (wo_item_id r) as [k|]; [|done]. f_equal.
  unfold item_reserving. specialize (H4 k). specialize (Hk k).
  destruct (items d' !! k) as [i'|]; [by rewrite <- (Hk ltac:(eauto))|].
  destruct (items d !! k); [by rewrite H4|done].
Qed.

End Evidence.
