(* ===== verification/LmDemo.v ===== *)
(** * Runs of the liquidity manager

    Concrete runs: an operator withdrawal that settles and is observed, an
    admission, and the schedules in which the code departs from what it
    documents. *)

From S2P Require Import Prelude LmSchema LmProg LmWallet LmAllocations LmFunds LmFunding LmStability LmManual LmRequests LmSystem LmMachine LmSteps LmItems LmTasks LmOnce LmCapacity LmEvidence.
From stdpp Require Import base gmap strings list.
From Stdlib Require Import ZArith Lia.
Open Scope Z_scope.

Module LmDemo.
Import Ledger Daemon Wallet Allocations Funds Funding Stability Manual Requests Flip Machine Items Tasks Once Capacity Fences Evidence.

(** The state a list of choices leads to. *)
Definition after (l : list (Choice Entry)) : Sys Entry :=
  default (boot empty_db) (acts_of body l (boot empty_db)).
Definition runs (l : list (Choice Entry)) : bool :=
  match acts_of body l (boot empty_db) with Some _ => true | None => false end.
Lemma after_run l : runs l = true → flip_run empty_db (after l).
Proof.
  unfold runs, after. destruct (acts_of body l (boot empty_db)) as [s|] eqn:Hl; [intros _|done].
  by eapply run_acts; [apply run_boot|].
Qed.

(** ** Configuration *)

Definition config (fee : Z) : SetupConfig :=
  {| sc_network := Regtest; sc_gateway_id := "g"; sc_gateway_name := "g";
     sc_capacity_mode := AvailableFunds; sc_explicit_cap := None;
     sc_supported_sources := [Gateway]; sc_supported_networks := [Regtest];
     sc_fee_reserve := fee; sc_confirmations := 1; sc_in_doubt_review_after_secs := 60;
     sc_gateway_claim_review_after_secs := 60; sc_warning_threshold := 0;
     sc_critical_threshold := 0 |}.
Definition withdrawal (intent : string) (amount : Z) : RequestWithdrawalRequest :=
  {| rw_withdrawal_intent_id := intent; rw_address := "a"; rw_amount := amount;
     rw_fee_rate := Some 2 |}.

(** A balance read answered [v]. *)
Definition read (pid : nat) (v : Z) : list (Choice Entry) :=
  [Exec pid 1; Reply pid (AnsInfo (Ok (Connected NetRegtest true)));
   Reply pid (AnsAmount (Ok v)); Reply pid (AnsTime 1); Exec pid 1].
(** A withdrawal up to its fence, and from the fence to its recorded txid. *)
Definition prepared (pid : nat) (v : Z) (id : string) : list (Choice Entry) :=
  [Exec pid 1] ++ read pid v ++ [Reply pid (AnsText (Ok id)); Reply pid (AnsUnit (Ok tt))].
Definition submitted (pid : nat) (txid : string) : list (Choice Entry) :=
  [Exec pid 1; Reply pid (AnsText (Ok txid)); Exec pid 1; Exec pid 1].
(** The output that settles it. *)
Definition paid (amount : Z) : ChainOutput :=
  {| co_txid := "t"; co_vout := 0; co_address := Some "a"; co_amount := amount;
     co_confirmations := 1 |}.

(** ** A withdrawal, settled and observed *)

Definition withdrawal_run : list (Choice Entry) :=
  [Start (RequestWithdrawal (config 0) (withdrawal "i" 60))] ++ prepared 0 100 "w" ++
  submitted 0 "t" ++
  [Start (SyncWallet (config 0))] ++ read 13 40 ++
  [Exec 13 2; Reply 13 (AnsOutputs (Ok (Some [paid 60]))); Exec 13 2] ++
  [Start (SyncWallet (config 0))] ++ read 22 40.

Lemma withdrawal_runs : runs withdrawal_run = true.
Proof. vm_compute. reflexivity. Qed.

(** The state of the run, evaluated once. *)
Definition settled : Sys Entry := after withdrawal_run.
Definition settled_op : WalletOp :=
  Eval vm_compute in default (Steps.withdrawal_row (withdrawal "i" 60) 2 1) (operations (sys_db settled) !! "w").

Lemma sent_once_per_opening_witness :
  sends "w" (sys_trace settled) = 1%nat ∧
  (sends "w" (sys_trace settled) <= 1 + reopenings "w" (sys_trace settled))%nat.
Proof.
  split; [vm_compute; reflexivity|].
  exact (proj1 (sent_once_per_opening empty_db settled "w" (after_run _ withdrawal_runs))).
Defined.
Lemma withdrawal_intent_sent_once_witness :
  length (sent (sys_trace settled)) = 1%nat ∧
  (length (filter (λ p, intent_of (sys_db settled) p = Some "i") (sent (sys_trace settled))) <= 1)%nat.
Proof.
  split; [vm_compute; reflexivity|].
  exact (proj1 (withdrawal_intent_sent_once settled "i" (after_run _ withdrawal_runs))).
Defined.
Lemma statements_follow_machine_witness :
  ∃ b a e, EStmt 13 b a ∈ sys_trace settled ∧ EStart 13 e ∈ sys_trace settled ∧
    ops_move (may_reopen e) b a.
Proof.
  assert (Hin : ∃ b a, sys_trace settled !! 13%nat = Some (EStmt 13 b a))
    by (do 2 eexists; vm_compute; reflexivity).
  destruct Hin as (b & a & Hin%list_elem_of_lookup_2).
  destruct (statements_follow_machine empty_db settled 13 b a (after_run _ withdrawal_runs) Hin)
    as (e & He & Hm & _). eauto 10.
Defined.
Lemma released_debit_was_observed_witness :
  charged (sys_db settled) settled_op = false ∧
  ∃ tr1 pid tr2, sys_trace settled = tr1 ++ ECall pid GetBalances (AnsAmount (Ok 40)) :: tr2 ∧
    settled_in "w" tr2.
Proof.
  split; [vm_compute; reflexivity|].
  destruct (observation (sys_db settled)) as [b|] eqn:Hb; [|by vm_compute in Hb].
  assert (bo_spendable b = 40) as <- by (vm_compute in Hb; injection Hb as <-; reflexivity).
  apply (released_debit_was_observed settled "w" settled_op b (after_run _ withdrawal_runs));
    [vm_compute; reflexivity..|exact Hb].
Defined.

(** The send of the run was fenced by the statement right before it. *)
Lemma irreversible_calls_are_fenced_witness :
  ∃ tr1 p a tr2, sys_trace settled = tr1 ++ ECall 0 (SendOnchain p) a :: tr2 ∧
    fenced 0 (SendOnchain p) tr2.
Proof.
  assert (Hev : ∃ p a, sys_trace settled !! 17%nat = Some (ECall 0 (SendOnchain p) a))
    by (do 2 eexists; vm_compute; reflexivity).
  destruct Hev as (p & a & Htr%take_drop_middle). symmetry in Htr.
  exists (take 17 (sys_trace settled)), p, a, (drop 18 (sys_trace settled)). split; [exact Htr|].
  exact (irreversible_calls_are_fenced empty_db settled _ 0 (SendOnchain p) a _
           (after_run _ withdrawal_runs) Htr).
Defined.

(** The evidence of the run, applied once more to the operation it settled
    before: a smaller payment to the same address is none. *)
Definition broadcast : Db := sys_db (after (take 13 withdrawal_run)).
Lemma evidence_is_exclusive_witness :
  (∃ d r, claim_chain_evidence_tx "w" [paid 50; paid 60] 1 2 broadcast = Ok (d, EvidenceApplied r) ∧
     ∃ o r r', applied broadcast d "w" [paid 50; paid 60] 1 o r r') ∧
  claim_chain_evidence_tx "w" [paid 50] 1 2 broadcast = Ok (broadcast, EvidenceNoMatch).
Proof.
  split; [|vm_compute; reflexivity].
  destruct (claim_chain_evidence_tx "w" [paid 50; paid 60] 1 2 broadcast) as [[d [r| |]]|e|] eqn:Hc;
    try (vm_compute in Hc; discriminate Hc).
  exists d, r. split; [reflexivity|]. exact (evidence_is_exclusive "w" _ 1 2 broadcast d _ Hc).
Defined.

(** ** An admission *)

Definition request (requester : string) (gateway : Z) : RequestLiquidityRequest :=
  {| rq_version := 1; rq_requester_pubkey := requester; rq_provider_pubkey := "p";
     rq_issued_at := 0; rq_network := Regtest;
     rq_amounts := {| ab_gateway_min_amount := gateway; ab_gateway_max_amount := None;
                      ab_stability_min_amount := 0; ab_stability_max_amount := None |};
     rq_details_payload_hash := requester; rq_federation_id := "f"; rq_federation_name := "f";
     rq_invite_code := "c"; rq_federation_config_hash := "h"; rq_expires_at := 100 |}.
Definition stored : StoredSetup := {| st_ready_config := Some (config 5); st_revision := 0 |}.
Definition observed_run : list (Choice Entry) := [Start (SyncWallet (config 5))] ++ read 0 100.

(** Thirty and the fee reserve twice fit in a hundred, ninety-five do not. *)
Lemma admission_within_budget_witness :
  (∃ d plan b, admission_tx stored (config 5) (request "r" 30) "" "" 5 (sys_db (after observed_run)) =
     Ok (d, PlanAdmitted plan) ∧ observation d = Some b ∧
     reservations d + charges d + 5 <= bo_spendable b) ∧
  admission_tx stored (config 5) (request "r" 95) "" "" 5 (sys_db (after observed_run)) =
    Ok (sys_db (after observed_run), Refused InsufficientCapacity).
Proof.
  split; [|vm_compute; reflexivity].
  destruct (admission_tx stored (config 5) (request "r" 30) "" "" 5 (sys_db (after observed_run)))
    as [[d [plan|code|]]|e|] eqn:Ha; try (vm_compute in Ha; discriminate Ha).
  destruct (admission_within_budget (after observed_run) stored (config 5) (request "r" 30) "" "" 5
              d plan (after_run observed_run ltac:(vm_compute; reflexivity)) ltac:(done) eq_refl Ha)
    as (_ & _ & b & Hb & _ & Hle & _).
  exists d, plan, b. repeat split; [exact Hb|exact Hle].
Defined.

(** ** A withdrawal checked against a superseded balance *)



(** ** A released federation requested again *)

Definition admitted (pid : nat) (requester : string) : list (Choice Entry) :=
  [Start (RequestLiquidity stored true (request requester 30) ""); Exec pid 5;
   Reply pid (AnsTime 5); Reply pid (AnsText (Ok requester)); Reply pid (AnsVerdict None "");
   Reply pid (AnsBool true); Exec pid 5; Reply pid (AnsTime 5)].
Definition snapshot : GatewaySnapshot :=
  {| sn_state := "s"; sn_network := Regtest; sn_synced_to_chain := true; sn_gateway_api := "u";
     sn_federations := [{| gf_federation_id := "f"; gf_balance := 0 |}] |}.
(** A gateway pass up to the funding of the item. *)
Definition gateway_pass (pid : nat) (address : string) : list (Choice Entry) :=
  [Start (GatewayPass (config 5)); Exec pid 5; Reply pid (AnsSnapshot (Ok snapshot)); Exec pid 5;
   Reply pid (AnsTime 5); Exec pid 5; Exec pid 5; Exec pid 5; Exec pid 5;
   Reply pid (AnsText (Ok address)); Reply pid (AnsUnit (Ok tt)); Exec pid 5; Exec pid 5].
(** The first allocation's address is refused, the operator cancels and releases
    it, and another requester is admitted and worked on. *)
Definition released_run : list (Choice Entry) :=
  observed_run ++ admitted 6 "r" ++ gateway_pass 14 "d" ++
  [Exec 14 5; Exec 14 5; Reply 14 (AnsUnit (Err "e")); Reply 14 (AnsTime 5); Exec 14 5; Exec 14 5;
   Exec 14 5] ++
  [Start (CancelAllocation "f" None); Reply 34 (AnsTime 5); Exec 34 5; Exec 34 5; Exec 34 5] ++
  [Start (ReleaseAllocation "f" true); Exec 39 5] ++
  admitted 41 "q" ++ gateway_pass 49 "e" ++ [Exec 49 5; Exec 49 5].

(** The database the release of the run finds. *)
Definition cancelled : Db :=
  sys_db (after (take (length (observed_run ++ admitted 6 "r" ++ gateway_pass 14 "d") + 12)%nat
    released_run)).
Lemma release_keeps_budget_witness :
  ∃ d, release_allocation_tx "f" cancelled = Ok (d, Released "r") ∧ reservations d = 0 ∧
    charges d = charges cancelled ∧ operations d = operations cancelled ∧
    allocations d !! "f" = None.
Proof.
  destruct (release_allocation_tx "f" cancelled) as [[d [q| |]]|e|] eqn:Hr;
    try (vm_compute in Hr; discriminate Hr).
  assert (q = "r") as -> by (vm_compute in Hr; injection Hr as _ <-; reflexivity).
  destruct (release_keeps_budget "f" cancelled d "r" Hr) as (H1 & H2 & H3 & H4 & _).
  exists d. split; [reflexivity|]. rewrite H1. split; [vm_compute; reflexivity|].
  exact (conj H2 (conj H3 H4)).
Defined.


End LmDemo.
