(* ===== verification/FaSchema.v ===== *)
(** * The federation assembler's records
      ([crates/fa-client/src/db.rs], [state.rs], [error.rs])

    The durable rows of one federation assembler (FA): the active formation
    with its seat rows, the driver lease, the formed federation, the open
    guardian transfer and the retained setup-payment publication, and the
    protocol values they hold.  JSON encoding is left out: a row is its decoded
    value.  Keys, hashes, signatures and wallet or guardian tokens are numbers;
    human-readable error details are dropped.  Signature checking and SHA-256
    are the two parameters of [Crypto]. *)

From S2P Require Import Prelude LmSchema LmProg LmAllocations.
From stdpp Require Import base gmap strings list.
From Stdlib Require Import Ascii ZArith Lia.
Open Scope Z_scope.

Module Fa.

(** ** Errors *)

Inductive ServiceStatus :=
| StNew | StDkgInProcess | StRunning | StDataLoss | StDecommissioned
| StAwaitingTransfer | StTransferred | StRemoved.

(** [MgOperation], the verbs formation sends. *)
Inductive MgOperation :=
| OpConnect | OpGetAvailability | OpGetQuote | OpCreateSeat | OpGetDkgCode | OpStartDkg
| OpRestartDkg | OpGetStatus | OpGetInviteCode | OpGetPeerAttestation
| OpProposeFormationMeta | OpWaitForRunning.

(** [MgCause]; [OtherCause] stands for the causes formation never tells
    apart. *)
Inductive MgCause :=
| CauseTimeout | CauseTransport | InvalidResponse | NotAcceptingSeats | OfferChanged
| NotRunning | PlanNotOffered | PaymentFederationNotAccepted | CapacityExhausted
| UnsupportedVersion | UnsupportedFederationSize | SeatUnavailable | MetaConsensusChanged
| GuardianVerificationFeeAccountUnavailable | GuardianVerificationFeeAccountMismatch
| WrongState (s : ServiceStatus) | TerminalStatus (s : ServiceStatus) | OtherCause.

Record MgFailure := { mf_mg : Z; mf_operation : MgOperation; mf_cause : MgCause }.

Inductive AbandonUnavailableReason := PaymentOutputsStarted | DkgCompleteReason.

Inductive SelectionReauthorizationReason :=
| PreviewExpired | VerifierEnvironmentChanged | SelectedMgUnavailable
| SelectedPayerUnavailable | SelectedPayerInsufficientFunds | PaymentFederationRequired
| QuoteTotalExceedsLimit | QuoteTermsChanged.

Inductive FaError :=
| EMg (failure : MgFailure)
| InvalidIntent
| Storage
| Identity
| Busy
| NoActiveFormation
| AbandonUnavailable (reason : AbandonUnavailableReason)
| Registry
| SelectionReauthorizationRequired
    (reason : SelectionReauthorizationReason) (failure : option MgFailure)
| CapabilityUnavailable
| InvalidManifoldGuardians
| EManifoldGuardian (index : Z)
| Payment
| MaintenanceConsensusTooLarge
| Timeout
| Liquidity
| LiquidityOperationExists (operation_id : string)
| MaintenanceWrongState
| MaintenanceUnsynced.

(** ** Locators, versions and intents *)

Record Locator := { service_pubkey : Z; endpoint_addr : Z }.

(** [FedimintdVersionCore], ordered lexicographically as its derive does, and
    [FedimintdVersion]: the semver core with its build metadata. *)
Record VersionCore := { vc_major : Z; vc_minor : Z; vc_patch : Z }.
Record FedimintdVersion := { fv_core : VersionCore; fv_pre : string; fv_build : string }.
Record DkgVersion := { dv_major : Z; dv_minor : Z; dv_vendor : option string }.
Record VersionRange := { vr_minimum : VersionCore; vr_maximum_exclusive : VersionCore }.

Definition core_ltb (a b : VersionCore) : bool :=
  (vc_major a <? vc_major b)
  || (vc_major a =? vc_major b)
     && ((vc_minor a <? vc_minor b)
         || (vc_minor a =? vc_minor b) && (vc_patch a <? vc_patch b)).
Definition core_leb (a b : VersionCore) : bool := negb (core_ltb b a).

(** [FedimintdVersion::dkg_version]. *)
Definition dkg_version (v : FedimintdVersion) : DkgVersion :=
  {| dv_major := vc_major (fv_core v);
     dv_minor := vc_minor (fv_core v);
     dv_vendor := if bool_decide (fv_build v = EmptyString) then None else Some (fv_build v) |}.

(** [FedimintdDkgVersion::is_fedi]. *)
Definition is_fedi (d : DkgVersion) : bool := bool_decide (dv_vendor d = Some "fedi"%string).

(** [FedimintdVersionRange::validate]. *)
Definition range_valid (r : VersionRange) : bool :=
  negb (core_leb (vr_maximum_exclusive r) (vr_minimum r)).

(** [FedimintdVersionRange::contains]. *)
Definition range_contains (r : VersionRange) (v : FedimintdVersion) : bool :=
  core_leb (vr_minimum r) (fv_core v) && core_ltb (fv_core v) (vr_maximum_exclusive r).

(** [FedimintdVersionRange::overlaps_dkg]; the pairs compare lexicographically. *)
Definition overlaps_dkg (r : VersionRange) (d : DkgVersion) : bool :=
  let pair_ltb (a b : Z * Z) := (a.1 <? b.1) || (a.1 =? b.1) && (a.2 <? b.2) in
  let line := (dv_major d, dv_minor d) in
  let minimum_line := (vc_major (vr_minimum r), vc_minor (vr_minimum r)) in
  let maximum_line :=
    (vc_major (vr_maximum_exclusive r), vc_minor (vr_maximum_exclusive r)) in
  negb (pair_ltb line minimum_line)
  && (pair_ltb line maximum_line
      || bool_decide (line = maximum_line) && (0 <? vc_patch (vr_maximum_exclusive r))).

Inductive Plan :=
| InfiniteBestEffort (price_msats : Z)
| SubscriptionBased (initial_price_msats renewal_price_msats period_secs : Z).
Inductive PlanPreference := PreferInfiniteBestEffort.

(** [PlanPreference::matches]. *)
Definition plan_matches (p : PlanPreference) (offered : Plan) : bool :=
  match p, offered with
  | PreferInfiniteBestEffort, InfiniteBestEffort _ => true
  | _, _ => false
  end.

Record ResolvedFormationIntent := {
  in_federation_name : string;
  in_federation_size : Z;
  in_plan : PlanPreference;
  in_fedimintd_versions : VersionRange;
  in_fedimintd_dkg_version : DkgVersion;
  in_max_total_msats : option Z
}.

(** [FormationIntent]. *)
Record FormationIntent := {
  fi_federation_name : option string;
  fi_federation_size : Z;
  fi_plan : PlanPreference;
  fi_fedimintd_versions : VersionRange;
  fi_max_total_msats : option Z
}.

(** ** Quotes *)

(** [LockedIssuanceRequest] and its mint-v2 sibling. *)
Record LockedIssuanceRequest := { li_amount_msats : Z; li_blind_nonce : Z }.
Record LockedIssuanceRequestV2 := { l2_amount_msats : Z; l2_blind_nonce : Z; l2_tweak : Z }.

Inductive RefundIssuance :=
| RefundMintV1 (refund_nonce : Z) (issuance : list LockedIssuanceRequest)
| RefundMintV2 (refund_nonce : Z) (issuance : list LockedIssuanceRequestV2).

Inductive PaymentTerms :=
| PayMintV1 (federation_id : string) (issuance : list LockedIssuanceRequest)
| PayMintV2 (federation_id : string) (issuance : list LockedIssuanceRequestV2).

Inductive MintGeneration := GenMintV1 | GenMintV2.

Record GetQuoteRequest := {
  qr_fa_id : Z;
  qr_fedimintd_version : FedimintdVersion;
  qr_federation_size : Z;
  qr_plan : Plan;
  qr_payment_federation_id : option string;
  qr_refund_issuance : option RefundIssuance
}.

Record QuoteTerms := {
  qt_quote_nonce : Z;
  qt_offer_epoch : Z;
  qt_request : GetQuoteRequest;
  qt_price_msats : Z;
  qt_payment : option PaymentTerms
}.

(** [SignedResponse<GetQuoteResponse>]: the terms and the MG's signature. *)
Record SignedQuote := { sq_terms : QuoteTerms; sq_signature : Z }.

(** [PaymentTerms::generation], [federation_id] and [total_msats]. *)
Definition generation (p : PaymentTerms) : MintGeneration :=
  match p with PayMintV1 _ _ => GenMintV1 | PayMintV2 _ _ => GenMintV2 end.
Definition payment_federation (p : PaymentTerms) : string :=
  match p with PayMintV1 f _ | PayMintV2 f _ => f end.
Definition checked_sum (amounts : list Z) : option Z :=
  foldl (λ acc a, acc ≫= λ s, checked_add_u u64_max s a) (Some 0) amounts.
Definition total_msats (p : PaymentTerms) : option Z :=
  match p with
  | PayMintV1 _ issuance => checked_sum (li_amount_msats <$> issuance)
  | PayMintV2 _ issuance => checked_sum (l2_amount_msats <$> issuance)
  end.

(** ** Seat admissions *)

Inductive VerifierProvenance := Development | Staging | Production | ExplicitTestConfiguration.

Inductive AdmissionEffect := PaidOutput | FreePresentation.
Inductive AdmissionState := Fresh | EffectAuthorized (quote_id : Z) (effect : AdmissionEffect).

Record MgAdmission := {
  ad_mg_id : Z;
  ad_holder : option Z;
  ad_verifier_provenance : VerifierProvenance;
  ad_valid_until : Z;
  ad_state : AdmissionState
}.

(** ** Rows *)

Record QuoteAuthorization := { qa_index : Z; qa_quote_id : Z }.
Record StoredPaymentAuthorization := {
  pa_authorization_id : Z;
  pa_quotes : list QuoteAuthorization
}.

Inductive StoredFormationPhase :=
| Initialized | SeatsPartiallyCreated | SeatsCreated | DkgComplete
| PublishingSeatBindings | Formed.

(** [FieldPresence]. *)
Inductive FieldPresence (A : Type) := Missing | Present (value : option A).
Arguments Missing {A}.
Arguments Present {A} value.

(** [Account] of the stability pool: its type, and its signers with the number
    of signatures it needs. *)
Inductive AccountType := Seeker | Provider | BtcDepositor.
Record Account := { ac_type : AccountType; ac_keys : list Z; ac_threshold : Z }.

(** [FormationMetaTarget]; a seat binding entry is an attestation with its
    endpoint proof. *)
Record FormationMetaTarget := {
  mt_seat_bindings : string;
  mt_binding_entries : list (Z * Z);
  mt_fa_fee_account : Account;
  mt_guardian_verification_fee_account : Account;
  mt_send_ppm : Z;
  mt_recipients : string
}.

Record StoredFormation := {
  sf_schema_version : Z;
  sf_fa_id : option Z;
  sf_formation_id : string;
  sf_phase : StoredFormationPhase;
  sf_intent : ResolvedFormationIntent;
  sf_seat_count : Z;
  sf_payment_federation_id : option string;
  sf_payment_authorization : option StoredPaymentAuthorization;
  sf_payment_reservation_id : option Z;
  sf_release_intended : bool;
  sf_authorization_recorded : bool;
  sf_outputs_started : bool;
  sf_invite_code : option string;
  sf_formation_meta_target : option FormationMetaTarget;
  sf_dkg_completion_callback : FieldPresence Z
}.

Record StoredSeat := {
  ss_index : Z;
  ss_locator : Locator;
  ss_admission : MgAdmission;
  ss_signed_quote : option SignedQuote;
  ss_seat_id : option Z;
  ss_guardian_fee_account : option Account;
  ss_guardian_code : option string;
  ss_replacement_for : option Z;
  ss_previous_locator : option Locator;
  ss_previous_mg_id : option Z;
  ss_replacement_approved : bool
}.

Record StoredDriverLease := { dl_owner : Z; dl_expires_at : Z }.

(** ** Liquidity requests ([liquidity.rs], [service-liquidity-manager])

    The request an FA commits to and the provider's signed answers.  The
    allocation types are the ones the liquidity manager's model uses.  A digest
    is its lowercase hexadecimal text. *)

Record FleetSeat := {
  fl_seat_id : string;
  fl_peer_id : string;
  fl_guardian_identity : string;
  fl_mg_pubkey : string;
  fl_role_metadata : list string
}.
Record FederationLiquidityDetails := {
  fd_invite_code : string;
  fd_federation_id : string;
  fd_federation_name : string;
  fd_federation_config_hash : string;
  fd_fleet_seat_hints : list FleetSeat;
  fd_revocation_locations : list string
}.
(** [RequestLiquidityDetailsCommitmentV1]. *)
Record LiquidityCommitment := {
  lc_version : Z;
  lc_requester_pubkey : string;
  lc_provider_pubkey : string;
  lc_network : Ledger.BitcoinNetwork;
  lc_amounts : Allocations.LiquidityAmountBounds;
  lc_federation_details : FederationLiquidityDetails;
  lc_expires_at : Z
}.

Inductive RequestLiquidityOutcome :=
| OutcomeAccepted (status : Allocations.AllocationStatus)
| OutcomeRejected (code : Daemon.PublicRejectionCode) (reason : option string).
(** [Signed<RequestLiquidityResponse>]. *)
Record RequestResponse := {
  lr_version : Z;
  lr_details_payload_hash : string;
  lr_provider_pubkey : string;
  lr_issued_at : Z;
  lr_outcome : RequestLiquidityOutcome;
  lr_signature : Z
}.
(** [Signed<GetAllocationStatusResponse>]. *)
Record StatusResponse := {
  ls_version : Z;
  ls_provider_pubkey : string;
  ls_issued_at : Z;
  ls_status : Allocations.AllocationStatus;
  ls_signature : Z
}.

Record StoredLiquidityOperation := {
  lo_schema_version : Z;
  lo_operation_id : string;
  lo_formation_id : string;
  lo_commitment : LiquidityCommitment;
  lo_endpoint_hint : option string;
  lo_details_payload_hash : string;
  lo_response : option RequestResponse;
  lo_status : option StatusResponse;
  lo_verified_gateway_api : option string;
  lo_expired_without_acceptance : bool
}.

(** ** Formed federations and their backups ([db.rs], [backup.rs]) *)

Record BackupSeat := { bs_mg_identity : Z; bs_seat_id : Z; bs_locator : Locator }.
Record PastHost := { ph_mg_identity : Z; ph_holder : option Z }.
Record BackupPayload := {
  bp_schema_version : Z;
  bp_snapshot_generation : Z;
  bp_federation_invite : string;
  bp_seats : list BackupSeat;
  bp_liquidity : option LiquidityCommitment;
  bp_past_hosts : list PastHost
}.
Definition BACKUP_SCHEMA_VERSION : Z := 1.
Record BackupGenerationState := {
  bg_generation : Z;
  bg_semantic_hash : Z;
  bg_document_hash : Z;
  bg_nostr_created_at : Z
}.
Record BackupRelayConfirmation := {
  bc_document_hash : Z;
  bc_generation : Z;
  bc_event_id : Z;
  bc_confirmed_at_secs : Z
}.
Inductive FormedOrigin := ThisDevice | FromBackup.
Record FormedFederationRecord := {
  ff_fa_id : Z;
  ff_payload : BackupPayload;
  ff_formation_id : string;
  ff_backup_eligible : bool;
  ff_federation_name : option string;
  ff_seat_holders : list (Z * Z);
  ff_origin : FormedOrigin
}.

(** The parts of [StoredGuardianTransfer] its writes read; the rest of the
    record is [gt_rest]. *)
Record DestinationSeat := {
  ds_mg_id : Z;
  ds_holder : option Z;
  ds_seat_id : Z;
  ds_locator : Locator
}.
Inductive TransferStage := Buying | Moving (destination : DestinationSeat).
Record StoredGuardianTransfer := {
  gt_transfer_id : Z;
  gt_seat_index : Z;
  gt_source_seat_id : Z;
  gt_stage : TransferStage;
  gt_rest : Z
}.

(** A signed Nostr event, ordered by time and then by id. *)
Record Event := { ev_id : Z; ev_created_at : Z; ev_content : string }.

Record Db := {
  d_formation : option StoredFormation;
  d_seats : gmap (string * Z) StoredSeat;
  d_lease : option StoredDriverLease;
  d_setup_payment_federations : option Event;
  d_formed : option FormedFederationRecord;
  d_backup_generation : option BackupGenerationState;
  d_guardian_transfer : option StoredGuardianTransfer;
  d_liquidity : gmap string StoredLiquidityOperation;
  d_confirmations : gmap string BackupRelayConfirmation;
  d_recovery_completed : gset Z
}.

Definition empty_db : Db :=
  {| d_formation := None; d_seats := ∅; d_lease := None;
     d_setup_payment_federations := None; d_formed := None;
     d_backup_generation := None; d_guardian_transfer := None; d_liquidity := ∅;
     d_confirmations := ∅; d_recovery_completed := ∅ |}.

(** ** What the client works on in memory ([state.rs], [db.rs])

    [SeatProgress], [SeatRecovery], [FormationSnapshot] and
    [ActiveFormationRecovery].  The copy of the seats inside the snapshot,
    freshness marks and the last error only feed the published status and are
    left out. *)

Inductive SeatPhase :=
| Selected | ReplacementRequired | QuoteReady | Acquiring | Created | GuardianCodeReady
| DkgUnderwaySeat | RunningSeat.

Inductive FormationPhase :=
| Preparing | AwaitingPaymentReadiness | AcquiringSeats | PreparingDkg | DkgUnderway
| DkgCompletePhase | PublishingPhase.

Record SeatPaymentRequirement := {
  pr_index : Z;
  pr_mg_id : Z;
  pr_quote_id : Z;
  pr_payment_federation_id : string;
  pr_amount_msats : Z
}.
Record PaymentRequirements := {
  rq_authorization_id : Z;
  rq_total_msats : Z;
  rq_max_total_msats : option Z;
  rq_seats : list SeatPaymentRequirement
}.
Record GuardianReplacementSeat := {
  gs_index : Z;
  gs_previous_mg_id : Z;
  gs_previous_quote_id : Z;
  gs_previous_locator : Locator
}.
Record GuardianReplacementRequirements := {
  gr_replacement_id : Z;
  gr_seats : list GuardianReplacementSeat
}.
Inductive FormationActionRequired :=
| AuthorizePayments (requirements : PaymentRequirements)
| ReplaceGuardians (requirements : GuardianReplacementRequirements).

Record SeatRecovery := {
  sr_index : Z;
  sr_locator : Locator;
  sr_seat_id : option Z;
  sr_guardian_code : option string;
  sr_phase : SeatPhase;
  sr_admission : MgAdmission;
  sr_signed_quote : option SignedQuote;
  sr_replacement_for : option Z;
  sr_previous_locator : option Locator;
  sr_previous_mg_id : option Z;
  sr_replacement_approved : bool;
  sr_guardian_fee_account : option Account
}.

Record ActiveFormationRecovery := {
  rc_formation_id : string;
  rc_intent : ResolvedFormationIntent;
  rc_phase : FormationPhase;
  rc_action_required : option FormationActionRequired;
  rc_invite_code : option string;
  rc_seats : list SeatRecovery;
  rc_payment_authorization : option StoredPaymentAuthorization;
  rc_authorization_recorded : bool;
  rc_payment_reservation_id : option Z;
  rc_release_intended : bool;
  rc_outputs_started : bool;
  rc_payment_federation_id : option string;
  rc_formation_meta_target : option FormationMetaTarget;
  rc_dkg_completion_callback : option Z
}.

(** [FormedFederationSnapshot]. *)
Record FormedFederationSnapshot := {
  fs_formation_id : string;
  fs_federation_invite : string;
  fs_federation_name : option string;
  fs_seats : list BackupSeat;
  fs_backup_eligible : bool;
  fs_origin : FormedOrigin
}.

Inductive FaRecovery :=
| RecIdle
| RecFormation (recovery : ActiveFormationRecovery)
| RecFormed (snapshot : FormedFederationSnapshot).

(** [InitialSeat]: a selected locator with its admission and row index. *)
Record InitialSeat := { is_index : Z; is_locator : Locator; is_admission : MgAdmission }.

(** [DriverLease]: the owner's handle on the lease row. *)
Record DriverLease := { lh_owner : Z; lh_max_expires_at : Z; lh_renewal_duration : Z }.

(** ** Decidable equality *)

#[global] Instance ServiceStatus_eq_dec : EqDecision ServiceStatus.
Proof. solve_decision. Defined.
#[global] Instance MgOperation_eq_dec : EqDecision MgOperation.
Proof. solve_decision. Defined.
#[global] Instance MgCause_eq_dec : EqDecision MgCause.
Proof. solve_decision. Defined.
#[global] Instance MgFailure_eq_dec : EqDecision MgFailure.
Proof. solve_decision. Defined.
#[global] Instance AbandonUnavailableReason_eq_dec : EqDecision AbandonUnavailableReason.
Proof. solve_decision. Defined.
#[global] Instance ReauthorizationReason_eq_dec : EqDecision SelectionReauthorizationReason.
Proof. solve_decision. Defined.
#[global] Instance FaError_eq_dec : EqDecision FaError.
Proof. solve_decision. Defined.
#[global] Instance Locator_eq_dec : EqDecision Locator.
Proof. solve_decision. Defined.
#[global] Instance VersionCore_eq_dec : EqDecision VersionCore.
Proof. solve_decision. Defined.
#[global] Instance FedimintdVersion_eq_dec : EqDecision FedimintdVersion.
Proof. solve_decision. Defined.
#[global] Instance DkgVersion_eq_dec : EqDecision DkgVersion.
Proof. solve_decision. Defined.
#[global] Instance VersionRange_eq_dec : EqDecision VersionRange.
Proof. solve_decision. Defined.
#[global] Instance Plan_eq_dec : EqDecision Plan.
Proof. solve_decision. Defined.
#[global] Instance PlanPreference_eq_dec : EqDecision PlanPreference.
Proof. solve_decision. Defined.
#[global] Instance LockedIssuanceRequest_eq_dec : EqDecision LockedIssuanceRequest.
Proof. solve_decision. Defined.
#[global] Instance LockedIssuanceRequestV2_eq_dec : EqDecision LockedIssuanceRequestV2.
Proof. solve_decision. Defined.
#[global] Instance RefundIssuance_eq_dec : EqDecision RefundIssuance.
Proof. solve_decision. Defined.
#[global] Instance PaymentTerms_eq_dec : EqDecision PaymentTerms.
Proof. solve_decision. Defined.
#[global] Instance MintGeneration_eq_dec : EqDecision MintGeneration.
Proof. solve_decision. Defined.
#[global] Instance GetQuoteRequest_eq_dec : EqDecision GetQuoteRequest.
Proof. solve_decision. Defined.
#[global] Instance QuoteTerms_eq_dec : EqDecision QuoteTerms.
Proof. solve_decision. Defined.
#[global] Instance SignedQuote_eq_dec : EqDecision SignedQuote.
Proof. solve_decision. Defined.
#[global] Instance VerifierProvenance_eq_dec : EqDecision VerifierProvenance.
Proof. solve_decision. Defined.
#[global] Instance AdmissionEffect_eq_dec : EqDecision AdmissionEffect.
Proof. solve_decision. Defined.
#[global] Instance AdmissionState_eq_dec : EqDecision AdmissionState.
Proof. solve_decision. Defined.
#[global] Instance MgAdmission_eq_dec : EqDecision MgAdmission.
Proof. solve_decision. Defined.
#[global] Instance QuoteAuthorization_eq_dec : EqDecision QuoteAuthorization.
Proof. solve_decision. Defined.
#[global] Instance StoredPaymentAuthorization_eq_dec : EqDecision StoredPaymentAuthorization.
Proof. solve_decision. Defined.
#[global] Instance StoredFormationPhase_eq_dec : EqDecision StoredFormationPhase.
Proof. solve_decision. Defined.
#[global] Instance SeatPhase_eq_dec : EqDecision SeatPhase.
Proof. solve_decision. Defined.
#[global] Instance FormationPhase_eq_dec : EqDecision FormationPhase.
Proof. solve_decision. Defined.
#[global] Instance GuardianReplacementSeat_eq_dec : EqDecision GuardianReplacementSeat.
Proof. solve_decision. Defined.
#[global] Instance ReplacementRequirements_eq_dec : EqDecision GuardianReplacementRequirements.
Proof. solve_decision. Defined.
#[global] Instance SeatPaymentRequirement_eq_dec : EqDecision SeatPaymentRequirement.
Proof. solve_decision. Defined.
#[global] Instance AccountType_eq_dec : EqDecision AccountType.
Proof. solve_decision. Defined.
#[global] Instance Account_eq_dec : EqDecision Account.
Proof. solve_decision. Defined.

#[global] Instance AllocationItemTarget_eq_dec : EqDecision Ledger.AllocationItemTarget.
Proof. solve_decision. Defined.
#[global] Instance CompletionEvidence_eq_dec : EqDecision Ledger.CompletionEvidence.
Proof. solve_decision. Defined.
#[global] Instance LiquidityFailure_eq_dec : EqDecision Ledger.LiquidityFailure.
Proof. solve_decision. Defined.
#[global] Instance AllocationItemStatus_eq_dec : EqDecision Allocations.AllocationItemStatus.
Proof. solve_decision. Defined.
#[global] Instance AllocationStatus_eq_dec : EqDecision Allocations.AllocationStatus.
Proof. solve_decision. Defined.
#[global] Instance PublicRejectionCode_eq_dec : EqDecision Daemon.PublicRejectionCode.
Proof. solve_decision. Defined.
#[global] Instance FleetSeat_eq_dec : EqDecision FleetSeat.
Proof. solve_decision. Defined.
#[global] Instance RequestLiquidityOutcome_eq_dec : EqDecision RequestLiquidityOutcome.
Proof. solve_decision. Defined.
#[global] Instance RequestResponse_eq_dec : EqDecision RequestResponse.
Proof. solve_decision. Defined.
#[global] Instance StatusResponse_eq_dec : EqDecision StatusResponse.
Proof. solve_decision. Defined.

(** [CreateSeatOutcome] and the signed response of [CreateSeat]. *)
Inductive CreateSeatOutcome :=
| SeatAccepted (seat_id : Z) (guardian_fee_account : Account)
| SeatRefused (refund_transaction : option Z).
Record SeatResponse := { sp_quote_id : Z; sp_outcome : CreateSeatOutcome; sp_signature : Z }.

(** ** The third-party primitives

    [verifies k q]: the BIP-340 signature of [q] is [k]'s over its payload, and
    likewise [response_verifies] for a [CreateSeat] response.
    [payload_sha256] is the hash of the signed payload, [sha256] the hash of a
    byte string, read as a number. *)
Class Crypto := {
  verifies : Z -> SignedQuote -> bool;
  response_verifies : Z -> SeatResponse -> bool;
  payload_sha256 : QuoteTerms -> Z;
  sha256 : list Z -> Z
}.

End Fa.
