(* ===== verification/FaQuotes.v ===== *)
(** * Quotes, requirements and record validation of the federation assembler
      ([crates/fa-client/src/db.rs], [formation.rs])

    The pure part of the store and of the driver: what a persisted quote must
    satisfy, the exact payment and replacement requirements with their binding
    identifiers, seat admissions, and the checks a formation record must pass
    to be read back. *)

From S2P Require Import Prelude FaSchema.
From stdpp Require Import base gmap strings list.
From Stdlib Require Import Ascii ZArith Lia.
Open Scope Z_scope.

Module Quotes.
Import Fa.

(** ** Byte strings fed to SHA-256 *)

Definition string_bytes (s : string) : list Z :=
  (λ c, Z.of_N (N_of_ascii c)) <$> String.list_ascii_of_string s.

(** [x.to_be_bytes()] of an [n]-byte integer. *)
Fixpoint be_bytes (n : nat) (x : Z) : list Z :=
  match n with
  | O => []
  | S n => be_bytes n (x / 256) ++ [x mod 256]
  end.

(** A length prefix, [(len as u64).to_be_bytes()], and the text. *)
Definition prefixed (s : string) : list Z :=
  be_bytes 8 (Z.of_nat (length (string_bytes s))) ++ string_bytes s.

(** [encode_canonical_digest]: the lowercase hexadecimal text of a 32-byte
    digest. *)
Definition hex_digit (x : Z) : ascii :=
  ascii_of_N (Z.to_N (if x <? 10 then 48 + x else 87 + x)).
Fixpoint hex_digits (n : nat) (x : Z) : string :=
  match n with
  | O => EmptyString
  | S n => hex_digits n (x / 16) +:+ String (hex_digit (x mod 16)) EmptyString
  end.
Definition encode_canonical_digest (digest : Z) : string := hex_digits 64 digest.

Section Store.
Context `{!Crypto}.

(** ** Quotes *)

(** [SignedResponse::verify] and [SignatureVerified::quote_id]. *)
Definition quote_verify (key : Z) (q : SignedQuote) : option QuoteTerms :=
  if verifies key q then Some (sq_terms q) else None.
Definition quote_id (t : QuoteTerms) : Z := payload_sha256 t.

(** [QuoteTerms::check_coherent]. *)
Inductive QuoteTermsError := PaymentMismatch | PriceIssuanceMismatch | RefundMismatch.
Definition check_coherent (t : QuoteTerms) : res QuoteTermsError unit :=
  let request := qt_request t in
  let consistent :=
    match qt_payment t with
    | None => (qt_price_msats t =? 0) && bool_decide (qr_payment_federation_id request = None)
    | Some terms =>
        (0 <? qt_price_msats t)
        && bool_decide (qr_payment_federation_id request = Some (payment_federation terms))
    end in
  if negb consistent then Err PaymentMismatch
  else
    let priced :=
      match qt_payment t with
      | Some terms => bool_decide (total_msats terms = Some (qt_price_msats t))
      | None => true
      end in
    if negb priced then Err PriceIssuanceMismatch
    else
      match qt_payment t, qr_refund_issuance request with
      | None, None
      | Some (PayMintV1 _ _), Some (RefundMintV1 _ _)
      | Some (PayMintV2 _ _), Some (RefundMintV2 _ _) => Ok tt
      | _, _ => Err RefundMismatch
      end.

(** The comparison of a quote request with the formation's intent and
    identity, shared by [payment_requirements] and [verify_quote]. *)
Definition request_matches (intent : ResolvedFormationIntent) (fa_id : Z)
    (request : GetQuoteRequest) : bool :=
  (qr_fa_id request =? fa_id)
  && bool_decide (dkg_version (qr_fedimintd_version request) = in_fedimintd_dkg_version intent)
  && range_contains (in_fedimintd_versions intent) (qr_fedimintd_version request)
  && (qr_federation_size request =? in_federation_size intent)
  && plan_matches (in_plan intent) (qr_plan request).

(** [FaClient::verify_quote]. *)
Definition verify_quote (index : Z) (q : SignedQuote) (locator : Locator)
    (intent : ResolvedFormationIntent) (fa_id : Z) (expected_payer : option string)
    : res FaError QuoteTerms :=
  quote ← ok_or (EManifoldGuardian index) (quote_verify (service_pubkey locator) q);
  if negb (request_matches intent fa_id (qt_request quote)) then Err (EManifoldGuardian index)
  else
    let other_payer :=
      match expected_payer, qt_payment quote with
      | Some payer, Some payment => negb (bool_decide (payment_federation payment = payer))
      | _, _ => false
      end in
    if other_payer then Err (EManifoldGuardian index)
    else match check_coherent quote with
         | Ok _ => Ok quote
         | _ => Err (EManifoldGuardian index)
         end.

(** [verify_free_seat_quote] and [verify_paid_seat_quote]. *)
Definition verify_free_seat_quote index q locator intent fa_id expected_payer
    : res FaError QuoteTerms :=
  quote ← verify_quote index q locator intent fa_id expected_payer;
  if bool_decide (is_Some (qt_payment quote)) then Err Storage else Ok quote.
Definition verify_paid_seat_quote index q locator intent fa_id expected_payer
    : res FaError QuoteTerms :=
  quote ← verify_quote index q locator intent fa_id expected_payer;
  if bool_decide (is_Some (qt_payment quote)) then Ok quote else Err Storage.

(** ** Admissions ([MgAdmission]) *)

Definition fresh_peer_badge (mg_id holder : Z) (provenance : VerifierProvenance)
    (valid_until : Z) : MgAdmission :=
  {| ad_mg_id := mg_id; ad_holder := Some holder; ad_verifier_provenance := provenance;
     ad_valid_until := valid_until; ad_state := Fresh |}.

Definition requires_effect_authorization (a : MgAdmission) : bool :=
  bool_decide (ad_state a = Fresh).

Definition authorize_effect (a : MgAdmission) (quote : Z) (effect : AdmissionEffect)
    : res FaError MgAdmission :=
  match ad_state a with
  | Fresh =>
      Ok {| ad_mg_id := ad_mg_id a; ad_holder := ad_holder a;
            ad_verifier_provenance := ad_verifier_provenance a;
            ad_valid_until := ad_valid_until a;
            ad_state := EffectAuthorized quote effect |}
  | EffectAuthorized q e =>
      if bool_decide (q = quote ∧ e = effect) then Ok a else Err Storage
  end.

Definition authorized_effect (a : MgAdmission) : option (Z * AdmissionEffect) :=
  match ad_state a with Fresh => None | EffectAuthorized q e => Some (q, e) end.

Definition require_authorized_effect (a : MgAdmission) (quote : Z) (effect : AdmissionEffect)
    : res FaError unit :=
  if bool_decide (authorized_effect a = Some (quote, effect)) then Ok tt else Err Storage.

(** [validate_fresh_admission]. *)
Definition validate_fresh_admission (a : MgAdmission) (expected : VerifierProvenance) (now : Z)
    : res FaError unit :=
  if negb (requires_effect_authorization a) then Ok tt
  else if negb (bool_decide (ad_verifier_provenance a = expected))
  then Err (SelectionReauthorizationRequired VerifierEnvironmentChanged None)
  else if ad_valid_until a <=? now
  then Err (SelectionReauthorizationRequired PreviewExpired None)
  else Ok tt.

(** The effect a quote needs: generated outputs when it is paid. *)
Definition effect_of (t : QuoteTerms) : AdmissionEffect :=
  match qt_payment t with Some _ => PaidOutput | None => FreePresentation end.

(** ** Binding identifiers *)

(** The byte strings hashed by [payment_authorization_id],
    [payment_reservation_id] and [replacement_requirements]; [\0] ends the
    domain tag. *)
Definition tag (s : string) : list Z := string_bytes s ++ [0].
Definition authorization_preimage (formation_id : string) (total : Z)
    (seats : list SeatPaymentRequirement) : list Z :=
  tag "fedi:fi-client:payment-authorization:v1" ++ prefixed formation_id
  ++ be_bytes 8 total ++ be_bytes 8 (Z.of_nat (length seats))
  ++ mjoin ((λ seat,
       be_bytes 2 (pr_index seat) ++ be_bytes 32 (pr_quote_id seat)
       ++ prefixed (pr_payment_federation_id seat) ++ be_bytes 8 (pr_amount_msats seat))
       <$> seats).
Definition payment_authorization_id (formation_id : string) (total : Z)
    (seats : list SeatPaymentRequirement) : Z :=
  sha256 (authorization_preimage formation_id total seats).

Definition reservation_preimage (formation_id : string) (r : PaymentRequirements) : list Z :=
  tag "fedi:fi-client:payment-reservation:v1" ++ prefixed formation_id
  ++ prefixed (encode_canonical_digest (rq_authorization_id r)).
Definition payment_reservation_id (formation_id : string) (r : PaymentRequirements) : Z :=
  sha256 (reservation_preimage formation_id r).

Definition replacement_preimage (formation_id : string) (seats : list GuardianReplacementSeat)
    : list Z :=
  tag "fedi:fi-client:guardian-replacement:v1" ++ prefixed formation_id
  ++ mjoin ((λ seat,
       be_bytes 2 (gs_index seat) ++ be_bytes 32 (gs_previous_quote_id seat)
       ++ be_bytes 32 (service_pubkey (gs_previous_locator seat))) <$> seats).

(** ** Requirements *)

(** One step of the loop of [payment_requirements]: the requirement of a row,
    if it is part of the aggregate. *)
Definition seat_requirement (intent : ResolvedFormationIntent) (fa_id : Z)
    (accepted : option StoredPaymentAuthorization) (s : SeatRecovery)
    : res FaError (option SeatPaymentRequirement) :=
  if bool_decide (is_Some (sr_seat_id s) ∧ accepted = None) then Ok None
  else match sr_signed_quote s with
  | None => Ok None
  | Some signed =>
      quote ← ok_or Storage (quote_verify (service_pubkey (sr_locator s)) signed);
      if negb (request_matches intent fa_id (qt_request quote)) then Err Storage
      else match check_coherent quote with
      | Ok _ =>
          match qt_payment quote with
          | None => Ok None
          | Some payment =>
              let member :=
                match accepted with
                | Some a =>
                    bool_decide ({| qa_index := sr_index s; qa_quote_id := quote_id quote |}
                                 ∈ pa_quotes a)
                | None => false
                end in
              if bool_decide (is_Some (sr_seat_id s)) && negb member then Ok None
              else Ok (Some {| pr_index := sr_index s;
                               pr_mg_id := ad_mg_id (sr_admission s);
                               pr_quote_id := quote_id quote;
                               pr_payment_federation_id := payment_federation payment;
                               pr_amount_msats := qt_price_msats quote |})
          end
      | _ => Err Storage
      end
  end.

Fixpoint requirement_loop (intent : ResolvedFormationIntent) (fa_id : Z)
    (accepted : option StoredPaymentAuthorization) (recoveries : list SeatRecovery)
    (total : Z) : res FaError (Z * list SeatPaymentRequirement) :=
  match recoveries with
  | [] => Ok (total, [])
  | s :: rest =>
      r ← seat_requirement intent fa_id accepted s;
      match r with
      | None => requirement_loop intent fa_id accepted rest total
      | Some requirement =>
          total ← ok_or Storage (checked_add_u u64_max total (pr_amount_msats requirement));
          '(total, seats) ← requirement_loop intent fa_id accepted rest total;
          Ok (total, requirement :: seats)
      end
  end.

(** [payment_requirements]. *)
Definition payment_requirements (formation_id : string) (recoveries : list SeatRecovery)
    (intent : ResolvedFormationIntent) (fa_id : Z)
    (accepted : option StoredPaymentAuthorization) : res FaError (option PaymentRequirements) :=
  if existsb (λ s, bool_decide (sr_seat_id s = None ∧ sr_signed_quote s = None)) recoveries
  then Ok None
  else
    '(total, seats) ← requirement_loop intent fa_id accepted recoveries 0;
    Ok (match seats with
        | [] => None
        | _ => Some {| rq_authorization_id := payment_authorization_id formation_id total seats;
                       rq_total_msats := total;
                       rq_max_total_msats := in_max_total_msats intent;
                       rq_seats := seats |}
        end).

(** [replacement_requirements]. *)
Definition replacement_seat (s : SeatRecovery) : option GuardianReplacementSeat :=
  if sr_replacement_approved s then None
  else previous ← sr_replacement_for s;
       Some {| gs_index := sr_index s;
               gs_previous_mg_id := default (ad_mg_id (sr_admission s)) (sr_previous_mg_id s);
               gs_previous_quote_id := previous;
               gs_previous_locator := default (sr_locator s) (sr_previous_locator s) |}.
Definition replacement_requirements (formation_id : string) (recoveries : list SeatRecovery)
    : option GuardianReplacementRequirements :=
  match omap replacement_seat recoveries with
  | [] => None
  | seats => Some {| gr_replacement_id := sha256 (replacement_preimage formation_id seats);
                     gr_seats := seats |}
  end.

(** [authorization_covers]. *)
Definition authorization_covers (a : option StoredPaymentAuthorization)
    (r : PaymentRequirements) : bool :=
  match a with
  | None => false
  | Some a =>
      forallb (λ s, bool_decide ({| qa_index := pr_index s; qa_quote_id := pr_quote_id s |}
                                 ∈ pa_quotes a)) (rq_seats r)
  end.

(** Methods of [ActiveFormationRecovery]. *)
Definition current_requirements (r : ActiveFormationRecovery) (fa_id : Z) :=
  payment_requirements (rc_formation_id r) (rc_seats r) (rc_intent r) fa_id None.
Definition reserved_payment_requirements (r : ActiveFormationRecovery) (fa_id : Z) :=
  payment_requirements (rc_formation_id r) (rc_seats r) (rc_intent r) fa_id
    (rc_payment_authorization r).
Definition payments_authorized (r : ActiveFormationRecovery) (q : PaymentRequirements) : bool :=
  authorization_covers (rc_payment_authorization r) q.
Definition quote_is_authorized (r : ActiveFormationRecovery) (index quote : Z) : bool :=
  match rc_payment_authorization r with
  | None => false
  | Some a => bool_decide ({| qa_index := index; qa_quote_id := quote |} ∈ pa_quotes a)
  end.

(** ** Record validation *)

Definition STORAGE_SCHEMA_VERSION : Z := 12.
Definition RESET_BEFORE_SCHEMA_VERSION : Z := 11.

(** [StoredFormationPhase::dkg_complete] and [FormationPhase::dkg_complete]. *)
Definition stored_dkg_complete (p : StoredFormationPhase) : bool :=
  match p with DkgComplete | PublishingSeatBindings | Formed => true | _ => false end.
Definition phase_dkg_complete (p : FormationPhase) : bool :=
  match p with DkgCompletePhase | PublishingPhase => true | _ => false end.

(** [validate_schema]. *)
Definition validate_schema (f : StoredFormation) : res FaError unit :=
  if negb (sf_schema_version f =? STORAGE_SCHEMA_VERSION) then Err Storage
  else if bool_decide (sf_fa_id f = None) then Err Storage
  else if bool_decide (is_Some (sf_payment_federation_id f)
                       ∧ in_max_total_msats (sf_intent f) = None) then Err Storage
  else if negb (is_fedi (in_fedimintd_dkg_version (sf_intent f)))
          || negb (overlaps_dkg (in_fedimintd_versions (sf_intent f))
                                (in_fedimintd_dkg_version (sf_intent f))) then Err Storage
  else match sf_dkg_completion_callback f with
       | Missing => Err Storage
       | Present _ => Ok tt
       end.

(** [validate_schema_and_owner] and [validate_active_formation]. *)
Definition validate_schema_and_owner (f : StoredFormation) (fa_id : Z) : res FaError unit :=
  validate_schema f;;
  if bool_decide (sf_fa_id f = Some fa_id) then Ok tt else Err Storage.
Definition validate_active_formation (f : StoredFormation) (expected_id : string)
    : res FaError unit :=
  validate_schema f;;
  if bool_decide (sf_formation_id f = expected_id) then Ok tt else Err Storage.

(** [GuardianFeeAccount::try_from]. *)
Definition fee_account_ok (a : Account) : bool :=
  bool_decide (ac_type a = BtcDepositor) && (Z.of_nat (length (ac_keys a)) =? 1).

(** The quote an authorized effect is bound to, in [validate_formation_progress]. *)
Definition validate_effect (started : bool) (s : StoredSeat) : res FaError unit :=
  match authorized_effect (ss_admission s) with
  | Some (authorized, effect) =>
      persisted ←
        match ss_signed_quote s with
        | Some signed =>
            quote ← ok_or Storage (quote_verify (service_pubkey (ss_locator s)) signed);
            if bool_decide (effect_of quote = effect) then Ok (quote_id quote) else Err Storage
        | None =>
            if bool_decide (ss_replacement_for s = Some authorized) then Ok authorized
            else Err Storage
        end;
      if negb (persisted =? authorized) then Err Storage
      else if bool_decide (effect = PaidOutput) && negb started then Err Storage
      else Ok tt
  | None => if bool_decide (is_Some (ss_seat_id s)) then Err Storage else Ok tt
  end.

(** The remaining checks of one row. *)
Definition seat_consistent (s : StoredSeat) : bool :=
  let has_replacement := bool_decide (is_Some (ss_replacement_for s)) in
  let accepted := bool_decide (is_Some (ss_seat_id s)) in
  negb (negb has_replacement
        && (bool_decide (is_Some (ss_previous_locator s)) || ss_replacement_approved s))
  && negb (ss_replacement_approved s
           && (bool_decide (ss_previous_locator s = None)
               || negb (requires_effect_authorization (ss_admission s))))
  && negb (bool_decide (is_Some (ss_signed_quote s)) && has_replacement
           && negb (ss_replacement_approved s))
  && negb (accepted && has_replacement)
  && negb (accepted && bool_decide (ss_signed_quote s = None))
  && negb (bool_decide (is_Some (ss_guardian_code s)) && negb accepted)
  && Bool.eqb accepted (bool_decide (is_Some (ss_guardian_fee_account s)))
  && match ss_guardian_fee_account s with Some a => fee_account_ok a | None => true end.

(** The loop of [validate_formation_progress]: distinct holders, identities
    and service keys, and every row consistent. *)
Fixpoint validate_rows (started : bool) (holders mg_ids keys : gset Z) (seats : list StoredSeat)
    : res FaError unit :=
  match seats with
  | [] => Ok tt
  | s :: rest =>
      let a := ss_admission s in
      let duplicate_holder :=
        match ad_holder a with Some h => bool_decide (h ∈ holders) | None => false end in
      if duplicate_holder then Err Storage
      else if bool_decide (ad_mg_id a ∈ mg_ids) then Err Storage
      else if bool_decide (service_pubkey (ss_locator s) ∈ keys) then Err Storage
      else
        validate_effect started s;;
        if negb (seat_consistent s) then Err Storage
        else validate_rows started
               (match ad_holder a with Some h => {[ h ]} ∪ holders | None => holders end)
               ({[ ad_mg_id a ]} ∪ mg_ids)
               ({[ service_pubkey (ss_locator s) ]} ∪ keys) rest
  end.

Definition created_count (seats : list StoredSeat) : Z :=
  Z.of_nat (length (filter (λ s, is_Some (ss_seat_id s)) seats)).

(** [validate_formation_progress]. *)
Definition validate_formation_progress (f : StoredFormation) (seats : list StoredSeat)
    : res FaError unit :=
  if negb (sf_seat_count f =? in_federation_size (sf_intent f))
     || negb (Z.of_nat (length seats) =? sf_seat_count f) then Err Storage
  else
    validate_rows (sf_outputs_started f) ∅ ∅ ∅ seats;;
    let created := created_count seats in
    let phase_matches :=
      match sf_phase f with
      | Initialized => created =? 0
      | SeatsPartiallyCreated => (0 <? created) && (created <? sf_seat_count f)
      | _ => created =? sf_seat_count f
      end in
    if negb phase_matches then Err Storage
    else
      let needs_target :=
        match sf_phase f with PublishingSeatBindings | Formed => true | _ => false end in
      if negb (Bool.eqb needs_target (bool_decide (is_Some (sf_formation_meta_target f))))
      then Err Storage
      else if stored_dkg_complete (sf_phase f) then
        if bool_decide (sf_invite_code f = None) then Err Storage
        else if existsb (λ s, bool_decide (ss_guardian_code s = None)) seats then Err Storage
        else Ok tt
      else if bool_decide (is_Some (sf_invite_code f)) then Err Storage
      else Ok tt.

(** [validate_payment_authorization]. *)
Definition validate_authorized (recoveries : list SeatRecovery) (a : QuoteAuthorization)
    : res FaError unit :=
  recovery ← ok_or Storage (recoveries !! Z.to_nat (qa_index a));
  signed ← ok_or Storage (sr_signed_quote recovery);
  quote ← ok_or Storage (quote_verify (service_pubkey (sr_locator recovery)) signed);
  if negb (quote_id quote =? qa_quote_id a) || bool_decide (qt_payment quote = None)
  then Err Storage else Ok tt.
Definition validate_payment_authorization (a : option StoredPaymentAuthorization)
    (recoveries : list SeatRecovery) : res FaError unit :=
  match a with
  | None => Ok tt
  | Some a =>
      match pa_quotes a with
      | [] => Err Storage
      | quotes => collect (validate_authorized recoveries) quotes;; Ok tt
      end
  end.

(** [public_phase]. *)
Definition public_phase (stored : StoredFormationPhase) (recoveries : list SeatRecovery)
    (payment_required : bool) : res FaError FormationPhase :=
  if payment_required && negb (stored_dkg_complete stored) then Ok AwaitingPaymentReadiness
  else match stored with
       | Initialized =>
           Ok (if forallb (λ s, bool_decide (is_Some (sr_signed_quote s))) recoveries
               then AcquiringSeats else Preparing)
       | SeatsPartiallyCreated => Ok AcquiringSeats
       | SeatsCreated => Ok PreparingDkg
       | DkgComplete => Ok DkgCompletePhase
       | PublishingSeatBindings => Ok PublishingPhase
       | Formed => Panic
       end.

(** The phase and the recovery of one row, in [load_recovery]. *)
Definition seat_phase (stored : StoredFormationPhase) (s : StoredSeat) : SeatPhase :=
  if stored_dkg_complete stored then RunningSeat
  else if bool_decide (is_Some (ss_guardian_code s)) then GuardianCodeReady
  else if bool_decide (is_Some (ss_seat_id s)) then Created
  else if bool_decide (is_Some (ss_replacement_for s)) && negb (ss_replacement_approved s)
  then ReplacementRequired
  else if bool_decide (is_Some (ss_signed_quote s)) then QuoteReady
  else Selected.
Definition seat_recovery (stored : StoredFormationPhase) (s : StoredSeat) : SeatRecovery :=
  {| sr_index := ss_index s;
     sr_locator := ss_locator s;
     sr_seat_id := ss_seat_id s;
     sr_guardian_code := ss_guardian_code s;
     sr_phase := seat_phase stored s;
     sr_admission := ss_admission s;
     sr_signed_quote := ss_signed_quote s;
     sr_replacement_for := ss_replacement_for s;
     sr_previous_locator := ss_previous_locator s;
     sr_previous_mg_id := ss_previous_mg_id s;
     sr_replacement_approved := ss_replacement_approved s;
     sr_guardian_fee_account := ss_guardian_fee_account s |}.

(** [formed_recovery]. *)
Definition formed_recovery (formed : FormedFederationRecord) (fa_id : Z)
    : res FaError FaRecovery :=
  if negb (ff_fa_id formed =? fa_id) then Err Storage
  else Ok (RecFormed {| fs_formation_id := ff_formation_id formed;
                        fs_federation_invite := bp_federation_invite (ff_payload formed);
                        fs_federation_name := ff_federation_name formed;
                        fs_seats := bp_seats (ff_payload formed);
                        fs_backup_eligible := ff_backup_eligible formed;
                        fs_origin := ff_origin formed |}).

End Store.
End Quotes.
