(* ===== verification/FaStore.v ===== *)
(** * The federation assembler's store ([crates/fa-client/src/db.rs])

    Every transaction of [FaStore] that formation, abandonment, guardian
    replacement and guardian transfer run, and the reader [load_recovery].  A
    transaction body is a [Tx] over [Db]; a fenced one takes the time its lease
    check reads and answers the new expiry. *)

From S2P Require Import Prelude FaSchema FaQuotes.
From stdpp Require Import base gmap strings list.
From Stdlib Require Import Ascii ZArith Lia.
Open Scope Z_scope.

Module Store.
Import Fa Quotes.

Abbreviation FaTx := (Tx Db FaError).

(** ** Field updates *)

Definition set_formation (f : option StoredFormation) (d : Db) : Db :=
  {| d_formation := f; d_seats := d_seats d; d_lease := d_lease d;
     d_setup_payment_federations := d_setup_payment_federations d; d_formed := d_formed d;
     d_backup_generation := d_backup_generation d;
     d_guardian_transfer := d_guardian_transfer d; d_liquidity := d_liquidity d;
     d_confirmations := d_confirmations d;
     d_recovery_completed := d_recovery_completed d |}.
Definition set_seats (m : gmap (string * Z) StoredSeat) (d : Db) : Db :=
  {| d_formation := d_formation d; d_seats := m; d_lease := d_lease d;
     d_setup_payment_federations := d_setup_payment_federations d; d_formed := d_formed d;
     d_backup_generation := d_backup_generation d;
     d_guardian_transfer := d_guardian_transfer d; d_liquidity := d_liquidity d;
     d_confirmations := d_confirmations d;
     d_recovery_completed := d_recovery_completed d |}.
Definition set_lease (l : option StoredDriverLease) (d : Db) : Db :=
  {| d_formation := d_formation d; d_seats := d_seats d; d_lease := l;
     d_setup_payment_federations := d_setup_payment_federations d; d_formed := d_formed d;
     d_backup_generation := d_backup_generation d;
     d_guardian_transfer := d_guardian_transfer d; d_liquidity := d_liquidity d;
     d_confirmations := d_confirmations d;
     d_recovery_completed := d_recovery_completed d |}.
Definition set_setup_payment (e : option Event) (d : Db) : Db :=
  {| d_formation := d_formation d; d_seats := d_seats d; d_lease := d_lease d;
     d_setup_payment_federations := e; d_formed := d_formed d;
     d_backup_generation := d_backup_generation d;
     d_guardian_transfer := d_guardian_transfer d; d_liquidity := d_liquidity d;
     d_confirmations := d_confirmations d;
     d_recovery_completed := d_recovery_completed d |}.
Definition set_formed (r : option FormedFederationRecord) (d : Db) : Db :=
  {| d_formation := d_formation d; d_seats := d_seats d; d_lease := d_lease d;
     d_setup_payment_federations := d_setup_payment_federations d; d_formed := r;
     d_backup_generation := d_backup_generation d;
     d_guardian_transfer := d_guardian_transfer d; d_liquidity := d_liquidity d;
     d_confirmations := d_confirmations d;
     d_recovery_completed := d_recovery_completed d |}.
Definition set_transfer (t : option StoredGuardianTransfer) (d : Db) : Db :=
  {| d_formation := d_formation d; d_seats := d_seats d; d_lease := d_lease d;
     d_setup_payment_federations := d_setup_payment_federations d; d_formed := d_formed d;
     d_backup_generation := d_backup_generation d; d_guardian_transfer := t;
     d_liquidity := d_liquidity d;
     d_confirmations := d_confirmations d;
     d_recovery_completed := d_recovery_completed d |}.

Definition put_formation (f : StoredFormation) : FaTx unit := tx_put (set_formation (Some f)).
Definition put_seat (fid : string) (i : Z) (s : StoredSeat) : FaTx unit :=
  tx_put (λ d, set_seats (<[(fid, i) := s]> (d_seats d)) d).

(** The parts of a formation record the transactions replace. *)
Definition with_phase (p : StoredFormationPhase) (f : StoredFormation) : StoredFormation :=
  {| sf_schema_version := sf_schema_version f; sf_fa_id := sf_fa_id f;
     sf_formation_id := sf_formation_id f; sf_phase := p; sf_intent := sf_intent f;
     sf_seat_count := sf_seat_count f;
     sf_payment_federation_id := sf_payment_federation_id f;
     sf_payment_authorization := sf_payment_authorization f;
     sf_payment_reservation_id := sf_payment_reservation_id f;
     sf_release_intended := sf_release_intended f;
     sf_authorization_recorded := sf_authorization_recorded f;
     sf_outputs_started := sf_outputs_started f; sf_invite_code := sf_invite_code f;
     sf_formation_meta_target := sf_formation_meta_target f;
     sf_dkg_completion_callback := sf_dkg_completion_callback f |}.
Definition with_payment (a : option StoredPaymentAuthorization) (recorded : bool)
    (reservation : option Z) (release_intended : bool) (f : StoredFormation)
    : StoredFormation :=
  {| sf_schema_version := sf_schema_version f; sf_fa_id := sf_fa_id f;
     sf_formation_id := sf_formation_id f; sf_phase := sf_phase f; sf_intent := sf_intent f;
     sf_seat_count := sf_seat_count f;
     sf_payment_federation_id := sf_payment_federation_id f;
     sf_payment_authorization := a; sf_payment_reservation_id := reservation;
     sf_release_intended := release_intended; sf_authorization_recorded := recorded;
     sf_outputs_started := sf_outputs_started f; sf_invite_code := sf_invite_code f;
     sf_formation_meta_target := sf_formation_meta_target f;
     sf_dkg_completion_callback := sf_dkg_completion_callback f |}.
Definition with_authorization (a : option StoredPaymentAuthorization) (f : StoredFormation) :=
  with_payment a (sf_authorization_recorded f) (sf_payment_reservation_id f)
    (sf_release_intended f) f.
Definition with_reservation (r : option Z) (intended : bool) (f : StoredFormation) :=
  with_payment (sf_payment_authorization f) (sf_authorization_recorded f) r intended f.
(** Drop the aggregate: authorization, reservation and release commitment. *)
Definition without_aggregate (f : StoredFormation) : StoredFormation :=
  with_payment None (sf_authorization_recorded f) None false f.
Definition with_outputs_started (f : StoredFormation) : StoredFormation :=
  {| sf_schema_version := sf_schema_version f; sf_fa_id := sf_fa_id f;
     sf_formation_id := sf_formation_id f; sf_phase := sf_phase f; sf_intent := sf_intent f;
     sf_seat_count := sf_seat_count f;
     sf_payment_federation_id := sf_payment_federation_id f;
     sf_payment_authorization := sf_payment_authorization f;
     sf_payment_reservation_id := sf_payment_reservation_id f;
     sf_release_intended := sf_release_intended f;
     sf_authorization_recorded := sf_authorization_recorded f;
     sf_outputs_started := true; sf_invite_code := sf_invite_code f;
     sf_formation_meta_target := sf_formation_meta_target f;
     sf_dkg_completion_callback := sf_dkg_completion_callback f |}.
Definition with_dkg_complete (invite : string) (f : StoredFormation) : StoredFormation :=
  {| sf_schema_version := sf_schema_version f; sf_fa_id := sf_fa_id f;
     sf_formation_id := sf_formation_id f; sf_phase := DkgComplete; sf_intent := sf_intent f;
     sf_seat_count := sf_seat_count f;
     sf_payment_federation_id := sf_payment_federation_id f;
     sf_payment_authorization := sf_payment_authorization f;
     sf_payment_reservation_id := sf_payment_reservation_id f;
     sf_release_intended := sf_release_intended f;
     sf_authorization_recorded := sf_authorization_recorded f;
     sf_outputs_started := sf_outputs_started f; sf_invite_code := Some invite;
     sf_formation_meta_target := sf_formation_meta_target f;
     sf_dkg_completion_callback := Present None |}.
Definition with_target (t : FormationMetaTarget) (f : StoredFormation) : StoredFormation :=
  {| sf_schema_version := sf_schema_version f; sf_fa_id := sf_fa_id f;
     sf_formation_id := sf_formation_id f; sf_phase := PublishingSeatBindings;
     sf_intent := sf_intent f; sf_seat_count := sf_seat_count f;
     sf_payment_federation_id := sf_payment_federation_id f;
     sf_payment_authorization := sf_payment_authorization f;
     sf_payment_reservation_id := sf_payment_reservation_id f;
     sf_release_intended := sf_release_intended f;
     sf_authorization_recorded := sf_authorization_recorded f;
     sf_outputs_started := sf_outputs_started f; sf_invite_code := sf_invite_code f;
     sf_formation_meta_target := Some t;
     sf_dkg_completion_callback := sf_dkg_completion_callback f |}.
Definition with_schema (v : Z) (f : StoredFormation) : StoredFormation :=
  {| sf_schema_version := v; sf_fa_id := sf_fa_id f;
     sf_formation_id := sf_formation_id f; sf_phase := sf_phase f; sf_intent := sf_intent f;
     sf_seat_count := sf_seat_count f;
     sf_payment_federation_id := sf_payment_federation_id f;
     sf_payment_authorization := sf_payment_authorization f;
     sf_payment_reservation_id := sf_payment_reservation_id f;
     sf_release_intended := sf_release_intended f;
     sf_authorization_recorded := sf_authorization_recorded f;
     sf_outputs_started := sf_outputs_started f; sf_invite_code := sf_invite_code f;
     sf_formation_meta_target := sf_formation_meta_target f;
     sf_dkg_completion_callback := sf_dkg_completion_callback f |}.
Definition intent_with_cap (cap : Z) (i : ResolvedFormationIntent) : ResolvedFormationIntent :=
  {| in_federation_name := in_federation_name i; in_federation_size := in_federation_size i;
     in_plan := in_plan i; in_fedimintd_versions := in_fedimintd_versions i;
     in_fedimintd_dkg_version := in_fedimintd_dkg_version i;
     in_max_total_msats := Some cap |}.
(** One new cap-bound authorization opportunity. *)
Definition with_renewed_cap (cap : Z) (f : StoredFormation) : StoredFormation :=
  {| sf_schema_version := sf_schema_version f; sf_fa_id := sf_fa_id f;
     sf_formation_id := sf_formation_id f; sf_phase := sf_phase f;
     sf_intent := intent_with_cap cap (sf_intent f); sf_seat_count := sf_seat_count f;
     sf_payment_federation_id := sf_payment_federation_id f;
     sf_payment_authorization := None; sf_payment_reservation_id := None;
     sf_release_intended := false; sf_authorization_recorded := false;
     sf_outputs_started := sf_outputs_started f; sf_invite_code := sf_invite_code f;
     sf_formation_meta_target := sf_formation_meta_target f;
     sf_dkg_completion_callback := sf_dkg_completion_callback f |}.

(** The parts of a seat row they replace. *)
Definition with_quote (q : option SignedQuote) (s : StoredSeat) : StoredSeat :=
  {| ss_index := ss_index s; ss_locator := ss_locator s; ss_admission := ss_admission s;
     ss_signed_quote := q; ss_seat_id := ss_seat_id s;
     ss_guardian_fee_account := ss_guardian_fee_account s;
     ss_guardian_code := ss_guardian_code s; ss_replacement_for := ss_replacement_for s;
     ss_previous_locator := ss_previous_locator s; ss_previous_mg_id := ss_previous_mg_id s;
     ss_replacement_approved := ss_replacement_approved s |}.
Definition with_acceptance (seat_id : Z) (account : Account) (s : StoredSeat) : StoredSeat :=
  {| ss_index := ss_index s; ss_locator := ss_locator s; ss_admission := ss_admission s;
     ss_signed_quote := ss_signed_quote s; ss_seat_id := Some seat_id;
     ss_guardian_fee_account := Some account; ss_guardian_code := ss_guardian_code s;
     ss_replacement_for := ss_replacement_for s;
     ss_previous_locator := ss_previous_locator s; ss_previous_mg_id := ss_previous_mg_id s;
     ss_replacement_approved := ss_replacement_approved s |}.
Definition with_code (code : string) (s : StoredSeat) : StoredSeat :=
  {| ss_index := ss_index s; ss_locator := ss_locator s; ss_admission := ss_admission s;
     ss_signed_quote := ss_signed_quote s; ss_seat_id := ss_seat_id s;
     ss_guardian_fee_account := ss_guardian_fee_account s; ss_guardian_code := Some code;
     ss_replacement_for := ss_replacement_for s;
     ss_previous_locator := ss_previous_locator s; ss_previous_mg_id := ss_previous_mg_id s;
     ss_replacement_approved := ss_replacement_approved s |}.
Definition with_admission (a : MgAdmission) (s : StoredSeat) : StoredSeat :=
  {| ss_index := ss_index s; ss_locator := ss_locator s; ss_admission := a;
     ss_signed_quote := ss_signed_quote s; ss_seat_id := ss_seat_id s;
     ss_guardian_fee_account := ss_guardian_fee_account s;
     ss_guardian_code := ss_guardian_code s; ss_replacement_for := ss_replacement_for s;
     ss_previous_locator := ss_previous_locator s; ss_previous_mg_id := ss_previous_mg_id s;
     ss_replacement_approved := ss_replacement_approved s |}.
Definition with_locator (l : Locator) (s : StoredSeat) : StoredSeat :=
  {| ss_index := ss_index s; ss_locator := l; ss_admission := ss_admission s;
     ss_signed_quote := ss_signed_quote s; ss_seat_id := ss_seat_id s;
     ss_guardian_fee_account := ss_guardian_fee_account s;
     ss_guardian_code := ss_guardian_code s; ss_replacement_for := ss_replacement_for s;
     ss_previous_locator := ss_previous_locator s; ss_previous_mg_id := ss_previous_mg_id s;
     ss_replacement_approved := ss_replacement_approved s |}.
Definition with_replacement (for_ : option Z) (locator : option Locator) (mg_id : option Z)
    (approved : bool) (s : StoredSeat) : StoredSeat :=
  {| ss_index := ss_index s; ss_locator := ss_locator s; ss_admission := ss_admission s;
     ss_signed_quote := ss_signed_quote s; ss_seat_id := ss_seat_id s;
     ss_guardian_fee_account := ss_guardian_fee_account s;
     ss_guardian_code := ss_guardian_code s; ss_replacement_for := for_;
     ss_previous_locator := locator; ss_previous_mg_id := mg_id;
     ss_replacement_approved := approved |}.

Section Transactions.
Context `{!Crypto}.

(** ** Shared preambles *)

(** Load the active formation and check it is the expected one. *)
Definition active_formation (fid : string) : FaTx StoredFormation :=
  o ← tx_get d_formation;
  f ← tx_lift (ok_or Storage o);
  tx_lift (validate_active_formation f fid);;
  mret f.

Definition seat_row (fid : string) (i : Z) : FaTx StoredSeat :=
  o ← tx_get (λ d, d_seats d !! (fid, i));
  tx_lift (ok_or Storage o).

Definition seat_indices (f : StoredFormation) : list Z := seqZ 0 (sf_seat_count f).

(** The rows of a formation, each carrying its own index. *)
Fixpoint indexed_rows (fid : string) (indices : list Z) : FaTx (list StoredSeat) :=
  match indices with
  | [] => mret []
  | i :: rest =>
      s ← seat_row fid i;
      tx_lift (if ss_index s =? i then Ok tt else Err Storage);;
      rows ← indexed_rows fid rest;
      mret (s :: rows)
  end.

(** The lease check of every fenced transaction; answers the new expiry. *)
Definition fence (lease : DriverLease) (now : Z) : FaTx Z :=
  current ← tx_get d_lease;
  match current with
  | None => tx_err Busy
  | Some current =>
      renewed ← tx_lift (ok_or Storage (checked_add_u u64_max now (lh_renewal_duration lease)));
      let expires_at := Z.min renewed (lh_max_expires_at lease) in
      if negb (dl_owner current =? lh_owner lease) || (dl_expires_at current <=? now)
         || (expires_at <=? now)
      then tx_err Busy else mret expires_at
  end.
Definition put_lease (lease : DriverLease) (expires_at : Z) : FaTx unit :=
  tx_put (set_lease (Some {| dl_owner := lh_owner lease; dl_expires_at := expires_at |})).

(** ** Creating and advancing a formation *)

Definition new_row (s : InitialSeat) : StoredSeat :=
  {| ss_index := is_index s; ss_locator := is_locator s; ss_admission := is_admission s;
     ss_signed_quote := None; ss_seat_id := None; ss_guardian_fee_account := None;
     ss_guardian_code := None; ss_replacement_for := None; ss_previous_locator := None;
     ss_previous_mg_id := None; ss_replacement_approved := false |}.

Definition initialize (fa_id : Z) (fid : string) (intent : ResolvedFormationIntent)
    (seats : list InitialSeat) (payer : option string) (callback : option Z) : FaTx unit :=
  seat_count ← tx_lift (ok_or Storage (try_from_u u16_max (Z.of_nat (length seats))));
  active ← tx_get d_formation;
  formed ← tx_get d_formed;
  if bool_decide (is_Some active) || bool_decide (is_Some formed) then tx_err Storage
  else
    put_formation
      {| sf_schema_version := STORAGE_SCHEMA_VERSION; sf_fa_id := Some fa_id;
         sf_formation_id := fid; sf_phase := Initialized; sf_intent := intent;
         sf_seat_count := seat_count; sf_payment_federation_id := payer;
         sf_payment_authorization := None; sf_payment_reservation_id := None;
         sf_release_intended := false; sf_authorization_recorded := false;
         sf_outputs_started := false; sf_invite_code := None;
         sf_formation_meta_target := None;
         sf_dkg_completion_callback := Present callback |};;
    tx_for seats (λ s, put_seat fid (is_index s) (new_row s)).

Definition record_seat_accepted (fid : string) (index seat_id : Z) (account : Account)
    : FaTx unit :=
  formation ← active_formation fid;
  seat ← seat_row fid index;
  signed ← tx_lift (ok_or Storage (ss_signed_quote seat));
  quote ← tx_lift (ok_or Storage (quote_verify (service_pubkey (ss_locator seat)) signed));
  tx_lift (require_authorized_effect (ss_admission seat) (quote_id quote) (effect_of quote));;
  tx_lift (match ss_seat_id seat with
           | Some existing =>
               if bool_decide (existing = seat_id ∧ ss_guardian_fee_account seat = Some account)
               then Ok tt else Err Storage
           | None => Ok tt
           end);;
  put_seat fid index (with_acceptance seat_id account seat);;
  siblings ← (λ d, collect (λ i, ok_or Storage (d_seats d !! (fid, i)))
                     (filter (λ i, i ≠ index) (seat_indices formation))
                   ≫= λ l, Ok (d, l));
  let all_created := forallb (λ s, bool_decide (is_Some (ss_seat_id s))) siblings in
  put_formation
    (with_phase (if all_created then SeatsCreated else SeatsPartiallyCreated) formation).

Definition record_guardian_code (fid : string) (index : Z) (code : string) : FaTx unit :=
  active_formation fid;;
  seat ← seat_row fid index;
  if bool_decide (ss_seat_id seat = None) || bool_decide (ss_signed_quote seat = None)
  then tx_err Storage
  else match ss_guardian_code seat with
       | Some existing =>
           if bool_decide (existing = code) then put_seat fid index (with_code code seat)
           else tx_err Storage
       | None => put_seat fid index (with_code code seat)
       end.

Definition record_dkg_complete (fid : string) (invite : string) : FaTx unit :=
  formation ← active_formation fid;
  seats ← indexed_rows fid (seat_indices formation);
  let formation := with_dkg_complete invite formation in
  tx_lift (validate_formation_progress formation seats);;
  put_formation formation.

Definition record_formation_meta_target (fid : string) (target : FormationMetaTarget)
    : FaTx unit :=
  formation ← active_formation fid;
  put_formation (with_target target formation).

(** [record_formed_federation]: the seats as the backup format holds them. *)
Fixpoint take_formed_rows (fid : string) (indices : list Z)
    : FaTx (list BackupSeat * list (Z * Z)) :=
  match indices with
  | [] => mret ([], [])
  | i :: rest =>
      seat ← seat_row fid i;
      tx_put (λ d, set_seats (delete (fid, i) (d_seats d)) d);;
      seat_id ← tx_lift (ok_or Storage (ss_seat_id seat));
      '(seats, holders) ← take_formed_rows fid rest;
      mret ({| bs_mg_identity := ad_mg_id (ss_admission seat); bs_seat_id := seat_id;
               bs_locator := ss_locator seat |} :: seats,
            match ad_holder (ss_admission seat) with
            | Some holder => (seat_id, holder) :: holders
            | None => holders
            end)
  end.
Definition record_formed_federation (f : StoredFormation) : FaTx unit :=
  fa_id ← tx_lift (ok_or Storage (sf_fa_id f));
  '(seats, holders) ← take_formed_rows (sf_formation_id f) (seat_indices f);
  tx_put (set_formation None);;
  existing ← tx_get d_formed;
  if bool_decide (is_Some existing) then tx_err Storage
  else
    generation ← tx_get (λ d, default 1 (bg_generation <$> d_backup_generation d));
    invite ← tx_lift (ok_or Storage (sf_invite_code f));
    tx_put (set_formed (Some
      {| ff_fa_id := fa_id;
         ff_payload := {| bp_schema_version := BACKUP_SCHEMA_VERSION;
                          bp_snapshot_generation := generation;
                          bp_federation_invite := invite; bp_seats := seats;
                          bp_liquidity := None; bp_past_hosts := [] |};
         ff_formation_id := sf_formation_id f; ff_backup_eligible := true;
         ff_federation_name := Some (in_federation_name (sf_intent f));
         ff_seat_holders := holders; ff_origin := ThisDevice |})).

Definition confirm_formation_meta_target (fid : string) : FaTx unit :=
  formation ← active_formation fid;
  if negb (bool_decide (sf_phase formation = PublishingSeatBindings)) then tx_err Storage
  else record_formed_federation formation.

(** ** Quotes and payment *)

Definition store_quote (fid : string) (index : Z) (signed : SignedQuote) : FaTx unit :=
  formation ← active_formation fid;
  seat ← seat_row fid index;
  if bool_decide (is_Some (ss_replacement_for seat)) && negb (ss_replacement_approved seat)
  then tx_err Storage
  else
    tx_lift (match ss_signed_quote seat with
             | Some existing => if bool_decide (existing = signed) then Ok tt else Err Storage
             | None => Ok tt
             end);;
    put_seat fid index (with_quote (Some signed) seat);;
    put_formation (with_authorization None formation).

(** The first authorization of a row and quote, advanced to a fresh quote. *)
Fixpoint advance_authorization (index old fresh : Z) (l : list QuoteAuthorization)
    : option (list QuoteAuthorization) :=
  match l with
  | [] => None
  | a :: rest =>
      if (qa_index a =? index) && (qa_quote_id a =? old)
      then Some ({| qa_index := index; qa_quote_id := fresh |} :: rest)
      else cons a <$> advance_authorization index old fresh rest
  end.

Definition refresh_authorized_quote (fid : string) (index : Z) (expected fresh : SignedQuote)
    : FaTx unit :=
  formation ← active_formation fid;
  seat ← seat_row fid index;
  if bool_decide (is_Some (ss_seat_id seat))
     || negb (bool_decide (ss_signed_quote seat = Some expected)) then tx_err Storage
  else
    old ← tx_lift (ok_or Storage (quote_verify (service_pubkey (ss_locator seat)) expected));
    new ← tx_lift (ok_or Storage (quote_verify (service_pubkey (ss_locator seat)) fresh));
    authorization ← tx_lift (ok_or Storage (sf_payment_authorization formation));
    quotes ← tx_lift (ok_or Storage (advance_authorization index (quote_id old) (quote_id new)
                                       (pa_quotes authorization)));
    put_seat fid index (with_quote (Some fresh) seat);;
    put_formation (with_authorization
      (Some {| pa_authorization_id := pa_authorization_id authorization;
               pa_quotes := quotes |}) formation).

(** The paid quotes of the rows that are not accepted yet. *)
Fixpoint current_paid_quotes (fid : string) (indices : list Z) : FaTx (list QuoteAuthorization) :=
  match indices with
  | [] => mret []
  | i :: rest =>
      seat ← seat_row fid i;
      if bool_decide (is_Some (ss_seat_id seat)) then current_paid_quotes fid rest
      else match ss_signed_quote seat with
           | None => current_paid_quotes fid rest
           | Some signed =>
               quote ← tx_lift (ok_or Storage
                         (quote_verify (service_pubkey (ss_locator seat)) signed));
               quotes ← current_paid_quotes fid rest;
               mret (match qt_payment quote with
                     | Some _ => {| qa_index := i; qa_quote_id := quote_id quote |} :: quotes
                     | None => quotes
                     end)
           end
  end.

Definition authorize_payments (fid : string) (authorization_id : Z)
    (authorizations : list QuoteAuthorization) : FaTx unit :=
  match authorizations with
  | [] => tx_err Storage
  | _ =>
      formation ← active_formation fid;
      current ← current_paid_quotes fid (seat_indices formation);
      if negb (bool_decide (current = authorizations)) then tx_err Storage
      else put_formation (with_payment
             (Some {| pa_authorization_id := authorization_id; pa_quotes := current |})
             true (sf_payment_reservation_id formation) (sf_release_intended formation)
             formation)
  end.

(** Bind one authorized row to the generation of its outputs. *)
Definition arm_row (fid : string) (provenance : VerifierProvenance) (now : Z)
    (a : QuoteAuthorization) : FaTx unit :=
  seat ← seat_row fid (qa_index a);
  signed ← tx_lift (ok_or Storage (ss_signed_quote seat));
  quote ← tx_lift (ok_or Storage (quote_verify (service_pubkey (ss_locator seat)) signed));
  if negb (quote_id quote =? qa_quote_id a) || bool_decide (qt_payment quote = None)
  then tx_err Storage
  else
    tx_lift (validate_fresh_admission (ss_admission seat) provenance now);;
    admission ← tx_lift (authorize_effect (ss_admission seat) (qa_quote_id a) PaidOutput);
    put_seat fid (qa_index a) (with_admission admission seat).

Definition record_payment_outputs_started (fid : string) (provenance : VerifierProvenance)
    (lease : DriverLease) (now : Z) : FaTx Z :=
  expires_at ← fence lease now;
  formation ← active_formation fid;
  authorization ← tx_lift (ok_or Storage (sf_payment_authorization formation));
  if bool_decide (pa_quotes authorization = []) then tx_err Storage
  else if bool_decide (sf_payment_reservation_id formation = None) then tx_err Storage
  else
    tx_for (pa_quotes authorization) (arm_row fid provenance now);;
    put_lease lease expires_at;;
    put_formation (with_outputs_started formation);;
    mret expires_at.

(** Bind one row of an effect wave. *)
Definition authorize_row (fid : string) (provenance : VerifierProvenance) (now : Z)
    (effect : Z * Z * AdmissionEffect) : FaTx unit :=
  let '(index, expected, kind) := effect in
  seat ← seat_row fid index;
  signed ← tx_lift (ok_or Storage (ss_signed_quote seat));
  quote ← tx_lift (ok_or Storage (quote_verify (service_pubkey (ss_locator seat)) signed));
  if negb (quote_id quote =? expected) || negb (bool_decide (effect_of quote = kind))
  then tx_err Storage
  else
    tx_lift (validate_fresh_admission (ss_admission seat) provenance now);;
    admission ← tx_lift (authorize_effect (ss_admission seat) expected kind);
    let seat := with_admission admission seat in
    if bool_decide (is_Some (ss_replacement_for seat)) then
      if negb (ss_replacement_approved seat) then tx_err Storage
      else put_seat fid index (with_replacement None None None false seat)
    else put_seat fid index seat.

(** The wave of rows, refusing a repeated index. *)
Fixpoint authorize_rows (fid : string) (provenance : VerifierProvenance) (now : Z)
    (seen : gset Z) (effects : list (Z * Z * AdmissionEffect)) : FaTx unit :=
  match effects with
  | [] => mret tt
  | effect :: rest =>
      if bool_decide (effect.1.1 ∈ seen) then tx_err Storage
      else authorize_row fid provenance now effect;;
           authorize_rows fid provenance now ({[ effect.1.1 ]} ∪ seen) rest
  end.

Definition record_seat_effects_authorized (fid : string)
    (effects : list (Z * Z * AdmissionEffect)) (provenance : VerifierProvenance)
    (lease : DriverLease) (now : Z) : FaTx Z :=
  match effects with
  | [] => tx_err Storage
  | _ =>
      expires_at ← fence lease now;
      formation ← active_formation fid;
      if existsb (λ e, bool_decide (e.2 = PaidOutput) && negb (sf_outputs_started formation))
           effects
      then tx_err Storage
      else
        authorize_rows fid provenance now ∅ effects;;
        put_lease lease expires_at;;
        mret expires_at
  end.

Definition record_payment_reservation (fid : string) (reservation : Z) : FaTx unit :=
  formation ← active_formation fid;
  if bool_decide (sf_payment_authorization formation = None) then tx_err Storage
  else match sf_payment_reservation_id formation with
       | Some existing =>
           if negb (existing =? reservation) then tx_err Storage
           else if negb (sf_release_intended formation) then mret tt
           else put_formation (with_reservation (Some reservation) false formation)
       | None => put_formation (with_reservation (Some reservation) false formation)
       end.

Definition record_reservation_release_intent (fid : string) (reservation : Z) : FaTx unit :=
  formation ← active_formation fid;
  if negb (bool_decide (sf_payment_reservation_id formation = Some reservation))
  then tx_err Storage
  else if sf_release_intended formation then mret tt
  else put_formation (with_reservation (Some reservation) true formation).

(** ** Abandoning and replacing *)

Definition abandon_formation (fid : string) (lease : DriverLease) (now : Z) : FaTx Z :=
  expires_at ← fence lease now;
  formation ← active_formation fid;
  if sf_outputs_started formation then tx_err (AbandonUnavailable PaymentOutputsStarted)
  else if stored_dkg_complete (sf_phase formation)
  then tx_err (AbandonUnavailable DkgCompleteReason)
  else
    tx_for (seat_indices formation)
      (λ i, tx_put (λ d, set_seats (delete (fid, i) (d_seats d)) d));;
    tx_put (set_formation None);;
    put_lease lease expires_at;;
    mret expires_at.

(** [ReleasedReplacementReservation]. *)
Record ReleasedReservation := { rr_reservation_id : Z; rr_witnesses_absence : bool }.

(** Return one approved replacement row to the preview boundary. *)
Fixpoint restore_rows (fid : string) (indices : list Z) : FaTx nat :=
  match indices with
  | [] => mret 0%nat
  | i :: rest =>
      seat ← seat_row fid i;
      if negb (ss_replacement_approved seat) then restore_rows fid rest
      else if bool_decide (ss_replacement_for seat = None)
              || bool_decide (ss_previous_locator seat = None)
              || bool_decide (is_Some (ss_seat_id seat))
              || negb (requires_effect_authorization (ss_admission seat))
      then tx_err Storage
      else
        put_seat fid i
          (with_quote None
             (with_replacement (ss_replacement_for seat) (ss_previous_locator seat)
                (ss_previous_mg_id seat) false seat));;
        restored ← restore_rows fid rest;
        mret (S restored)
  end.

Definition restore_provisional_replacements (fid : string)
    (released : option ReleasedReservation) (lease : DriverLease) (now : Z) : FaTx Z :=
  expires_at ← fence lease now;
  formation ← active_formation fid;
  if negb (sf_outputs_started formation) then tx_err Storage
  else
    tx_lift (match sf_payment_reservation_id formation, released with
             | None, None => Ok tt
             | Some stored, Some r =>
                 if negb (stored =? rr_reservation_id r) then Err Storage
                 else if rr_witnesses_absence r && negb (sf_release_intended formation)
                 then Err Storage else Ok tt
             | _, _ => Err Storage
             end);;
    restored ← restore_rows fid (seat_indices formation);
    if bool_decide (restored = 0%nat) then tx_err Storage
    else
      put_formation (without_aggregate formation);;
      put_lease lease expires_at;;
      mret expires_at.

(** [QuoteClearDisposition]. *)
Inductive QuoteClearDisposition := RefreshSameGuardian | TerminalReplacement.

Definition clear_row (fid : string) (started : bool) (disposition : QuoteClearDisposition)
    (item : Z * SignedQuote) : FaTx unit :=
  let '(index, expected) := item in
  seat ← seat_row fid index;
  if bool_decide (is_Some (ss_seat_id seat)) then tx_err Storage
  else if negb (bool_decide (ss_signed_quote seat = Some expected)) then tx_err Storage
  else
    match disposition with
    | RefreshSameGuardian =>
        put_seat fid index (with_quote None
          (if ss_replacement_approved seat then seat
           else with_replacement None None None false seat))
    | TerminalReplacement =>
        if negb started then tx_err Storage
        else
          quote ← tx_lift (ok_or Storage
                    (quote_verify (service_pubkey (ss_locator seat)) expected));
          put_seat fid index (with_quote None
            (with_replacement (Some (quote_id quote)) (Some (ss_locator seat))
               (Some (ad_mg_id (ss_admission seat))) false seat))
    end.

Definition clear_quotes_with_disposition (fid : string) (expected : list (Z * SignedQuote))
    (disposition : QuoteClearDisposition) : FaTx unit :=
  match expected with
  | [] => tx_err Storage
  | _ =>
      formation ← active_formation fid;
      tx_for expected (clear_row fid (sf_outputs_started formation) disposition);;
      put_formation (without_aggregate formation)
  end.

Definition clear_quote (fid : string) (index : Z) (expected : SignedQuote) : FaTx unit :=
  clear_quotes_with_disposition fid [(index, expected)] RefreshSameGuardian.

Definition clear_terminal_quotes (fid : string) (expected : list (Z * SignedQuote))
    (mark_replacements : bool) : FaTx unit :=
  clear_quotes_with_disposition fid expected
    (if mark_replacements then TerminalReplacement else RefreshSameGuardian).

(** Keys and badge holders of the rows a replacement keeps. *)
Fixpoint retained_rows (fid : string) (replaced : gset Z) (indices : list Z)
    (keys holders : gset Z) : FaTx (gset Z * gset Z) :=
  match indices with
  | [] => mret (keys, holders)
  | i :: rest =>
      if bool_decide (i ∈ replaced) then retained_rows fid replaced rest keys holders
      else
        seat ← seat_row fid i;
        if bool_decide (service_pubkey (ss_locator seat) ∈ keys) then tx_err Storage
        else retained_rows fid replaced rest
               ({[ service_pubkey (ss_locator seat) ]} ∪ keys)
               (match ad_holder (ss_admission seat) with
                | Some h => {[ h ]} ∪ holders
                | None => holders
                end)
  end.

Fixpoint replace_rows (fid : string) (keys holders : gset Z)
    (rows : list (GuardianReplacementSeat * (Locator * MgAdmission))) : FaTx unit :=
  match rows with
  | [] => mret tt
  | (requirement, (locator, admission)) :: rest =>
      seat ← seat_row fid (gs_index requirement);
      let previous_locator := default (ss_locator seat) (ss_previous_locator seat) in
      let previous_mg_id := default (ad_mg_id (ss_admission seat)) (ss_previous_mg_id seat) in
      if bool_decide (is_Some (ss_seat_id seat))
         || bool_decide (is_Some (ss_signed_quote seat))
         || ss_replacement_approved seat
         || negb (bool_decide (ss_replacement_for seat
                               = Some (gs_previous_quote_id requirement)))
         || negb (bool_decide (previous_locator = gs_previous_locator requirement))
         || negb (previous_mg_id =? gs_previous_mg_id requirement)
      then tx_err Storage
      else if bool_decide (service_pubkey locator ∈ keys) then tx_err InvalidManifoldGuardians
      else if match ad_holder admission with
              | Some h => bool_decide (h ∈ holders)
              | None => false
              end then tx_err InvalidManifoldGuardians
      else
        put_seat fid (gs_index requirement)
          (with_admission admission (with_locator locator
             (with_replacement (ss_replacement_for seat) (Some previous_locator)
                (Some previous_mg_id) true seat)));;
        replace_rows fid ({[ service_pubkey locator ]} ∪ keys)
          (match ad_holder admission with Some h => {[ h ]} ∪ holders | None => holders end)
          rest
  end.

Definition replace_guardians (fid : string) (requirements : GuardianReplacementRequirements)
    (replacements : list (Locator * MgAdmission)) (max_total : Z) : FaTx unit :=
  if negb (bool_decide (length (gr_seats requirements) = length replacements))
     || bool_decide (gr_seats requirements = []) then tx_err Storage
  else
    formation ← active_formation fid;
    if negb (sf_outputs_started formation) then tx_err Storage
    else if bool_decide (is_Some (sf_payment_reservation_id formation)) then tx_err Storage
    else
      let indices := gs_index <$> gr_seats requirements in
      if negb (bool_decide (NoDup indices)) then tx_err Storage
      else
        '(keys, holders) ← retained_rows fid (list_to_set indices) (seat_indices formation) ∅ ∅;
        replace_rows fid keys holders (zip (gr_seats requirements) replacements);;
        put_formation (with_renewed_cap max_total formation).

(** ** The driver lease *)

Definition acquire_driver_lease (now max_duration renewal_duration owner : Z)
    : FaTx DriverLease :=
  max_expires_at ← tx_lift (ok_or Storage (checked_add_u u64_max now max_duration));
  renewed ← tx_lift (ok_or Storage (checked_add_u u64_max now renewal_duration));
  current ← tx_get d_lease;
  if match current with Some l => now <? dl_expires_at l | None => false end
  then tx_err Busy
  else
    let lease := {| lh_owner := owner; lh_max_expires_at := max_expires_at;
                    lh_renewal_duration := renewal_duration |} in
    put_lease lease (Z.min renewed max_expires_at);;
    mret lease.

(** [renew_driver_lease]: answers the expiry the last clock read is compared
    with. *)
Definition renew_driver_lease (lease : DriverLease) (now : Z) : FaTx Z :=
  current ← tx_get d_lease;
  match current with
  | None => tx_err Busy
  | Some current =>
      renewed ← tx_lift (ok_or Storage (checked_add_u u64_max now (lh_renewal_duration lease)));
      let expires_at := Z.min renewed (lh_max_expires_at lease) in
      threshold ← tx_lift (ok_or Storage
                    (checked_add_u u64_max now (lh_renewal_duration lease / 2)));
      if negb (dl_owner current =? lh_owner lease) || (dl_expires_at current <=? now)
         || (expires_at <=? now) then tx_err Busy
      else if (threshold <? dl_expires_at current) || (dl_expires_at current =? expires_at)
      then mret (dl_expires_at current)
      else put_lease lease expires_at;; mret expires_at
  end.

Definition release_driver_lease_owner (owner : Z) : FaTx unit :=
  current ← tx_get d_lease;
  if match current with Some l => dl_owner l =? owner | None => false end
  then tx_put (set_lease None) else mret tt.

(** ** Setup-payment policy *)

Definition setup_payment_event_is_newer (candidate current : Event) : bool :=
  (ev_created_at current <? ev_created_at candidate)
  || (ev_created_at candidate =? ev_created_at current) && (ev_id candidate <? ev_id current).

Definition store_setup_payment_federations_event (event : Event) : FaTx unit :=
  current ← tx_get d_setup_payment_federations;
  if match current with
     | Some c => (ev_id c =? ev_id event) || negb (setup_payment_event_is_newer event c)
     | None => false
     end
  then mret tt
  else tx_put (set_setup_payment (Some event)).

(** ** Guardian transfer *)

Inductive GuardianTransferWrite :=
| Begin (t : StoredGuardianTransfer)
| Update (t : StoredGuardianTransfer)
| Rebind (t : StoredGuardianTransfer)
| Close
| Complete (t : StoredGuardianTransfer).

(** [rebind_federation_seat]. *)
Definition rebind_federation_seat (fa_id seat_index source_seat_id : Z)
    (destination : DestinationSeat) : FaTx unit :=
  o ← tx_get d_formed;
  formed ← tx_lift (ok_or NoActiveFormation o);
  if negb (ff_fa_id formed =? fa_id) then tx_err Storage
  else
    let payload := ff_payload formed in
    seat ← tx_lift (ok_or Storage (bp_seats payload !! Z.to_nat seat_index));
    if bs_seat_id seat =? ds_seat_id destination then tx_put (set_formed (Some formed))
    else if negb (bs_seat_id seat =? source_seat_id) then tx_err Storage
    else
      let holder :=
        snd <$> List.find (λ p : Z * Z, p.1 =? source_seat_id) (ff_seat_holders formed) in
      tx_put (set_formed (Some
        {| ff_fa_id := ff_fa_id formed;
           ff_payload :=
             {| bp_schema_version := bp_schema_version payload;
                bp_snapshot_generation := bp_snapshot_generation payload;
                bp_federation_invite := bp_federation_invite payload;
                bp_seats := <[Z.to_nat seat_index :=
                               {| bs_mg_identity := ds_mg_id destination;
                                  bs_seat_id := ds_seat_id destination;
                                  bs_locator := ds_locator destination |}]> (bp_seats payload);
                bp_liquidity := bp_liquidity payload;
                bp_past_hosts := bp_past_hosts payload
                  ++ [{| ph_mg_identity := bs_mg_identity seat; ph_holder := holder |}] |};
           ff_formation_id := ff_formation_id formed;
           ff_backup_eligible := ff_backup_eligible formed;
           ff_federation_name := ff_federation_name formed;
           ff_seat_holders :=
             filter (λ p : Z * Z, p.1 ≠ source_seat_id) (ff_seat_holders formed)
             ++ match ds_holder destination with
                | Some h => [(ds_seat_id destination, h)]
                | None => []
                end;
           ff_origin := ff_origin formed |})).

Definition write_guardian_transfer (fa_id : Z) (write : GuardianTransferWrite)
    (lease : DriverLease) (now : Z) : FaTx unit :=
  current ← tx_get d_lease;
  if match current with
     | None => true
     | Some c => negb (dl_owner c =? lh_owner lease) || (dl_expires_at c <=? now)
     end then tx_err Busy
  else
    open ← tx_get d_guardian_transfer;
    let same (t : StoredGuardianTransfer) :=
      match open with Some o => gt_transfer_id o =? gt_transfer_id t | None => false end in
    match write with
    | Begin t =>
        if bool_decide (is_Some open) then tx_err InvalidIntent
        else tx_put (set_transfer (Some t))
    | Update t => if same t then tx_put (set_transfer (Some t)) else tx_err Storage
    | Rebind t =>
        if negb (same t) then tx_err Storage
        else match gt_stage t with
             | Buying => tx_err Storage
             | Moving destination =>
                 rebind_federation_seat fa_id (gt_seat_index t) (gt_source_seat_id t)
                   destination;;
                 tx_put (set_transfer (Some t))
             end
    | Close | Complete _ => tx_put (set_transfer None)
    end.

(** [formed_custody]: known holders and past hosts of the formed federation. *)
Definition formed_custody (d : Db) : gset Z * gset Z :=
  match d_formed d with
  | None => (∅, ∅)
  | Some formed =>
      let hosts := bp_past_hosts (ff_payload formed) in
      (list_to_set ((ff_seat_holders formed).*2 ++ omap ph_holder hosts),
       list_to_set (ph_mg_identity <$> hosts))
  end.

(** ** Reading a formation back *)

(** [load_recovery] after the schema checks: the recovery of a formation
    record and its rows. *)
Definition formation_recovery (f : StoredFormation) (seats : list StoredSeat) (fa_id : Z)
    : res FaError ActiveFormationRecovery :=
  let recoveries := seat_recovery (sf_phase f) <$> seats in
  validate_payment_authorization (sf_payment_authorization f) recoveries;;
  if sf_release_intended f && bool_decide (sf_payment_reservation_id f = None) then Err Storage
  else
    requirements ← payment_requirements (sf_formation_id f) recoveries (sf_intent f) fa_id None;
    let required :=
      match requirements with
      | Some r => negb (authorization_covers (sf_payment_authorization f) r)
      | None => false
      end in
    let expose := required && sf_outputs_started f in
    phase ← public_phase (sf_phase f) recoveries expose;
    Ok {| rc_formation_id := sf_formation_id f;
          rc_intent := sf_intent f;
          rc_phase := phase;
          rc_action_required :=
            match replacement_requirements (sf_formation_id f) recoveries, requirements with
            | Some r, _ => Some (ReplaceGuardians r)
            | None, Some r => if expose then Some (AuthorizePayments r) else None
            | None, None => None
            end;
          rc_invite_code := sf_invite_code f;
          rc_seats := recoveries;
          rc_payment_authorization := sf_payment_authorization f;
          rc_authorization_recorded :=
            sf_authorization_recorded f
            || bool_decide (is_Some (sf_payment_authorization f));
          rc_payment_reservation_id := sf_payment_reservation_id f;
          rc_release_intended := sf_release_intended f;
          rc_outputs_started := sf_outputs_started f;
          rc_payment_federation_id := sf_payment_federation_id f;
          rc_formation_meta_target := sf_formation_meta_target f;
          rc_dkg_completion_callback :=
            match sf_dkg_completion_callback f with Present v => v | Missing => None end |}.

(** [migrate_schema_11], the transaction [load_recovery] runs first: schema 11
    differs from 12 only in the text of an admission's provenance, which is
    decoded here. *)
Definition migrate_schema_11 : FaTx unit :=
  stored ← tx_get d_formation;
  match stored with
  | Some f => if sf_schema_version f =? 11 then put_formation (with_schema 12 f) else mret tt
  | None => mret tt
  end.

(** [load_recovery]. *)
Definition load_recovery (fa_id : Z) : FaTx FaRecovery :=
  stored ← tx_get d_formation;
  match stored with
  | None =>
      formed ← tx_get d_formed;
      match formed with
      | None => mret RecIdle
      | Some formed => tx_lift (formed_recovery formed fa_id)
      end
  | Some f =>
      if sf_schema_version f <? RESET_BEFORE_SCHEMA_VERSION then
        tx_put (λ _, empty_db);; mret RecIdle
      else if STORAGE_SCHEMA_VERSION <? sf_schema_version f then tx_err Storage
      else
        tx_lift (validate_schema_and_owner f fa_id);;
        seats ← indexed_rows (sf_formation_id f) (seat_indices f);
        tx_lift (validate_formation_progress f seats);;
        if bool_decide (sf_phase f = Formed) then
          record_formed_federation f;;
          formed ← tx_get d_formed;
          formed ← tx_lift (expect formed);
          tx_lift (formed_recovery formed fa_id)
        else
          recovery ← tx_lift (formation_recovery f seats fa_id);
          mret (RecFormation recovery)
  end.

End Transactions.

(** ** Proof automation *)

(** Decompose a committed transaction into its steps. *)
Ltac tx_inv :=
  repeat match goal with
  | H : mbind _ _ _ = Ok _ |- _ =>
      let d := fresh "d" in let a := fresh "a" in
      apply tx_bind_Ok in H; destruct H as (d & a & ? & H)
  | H : tx_get _ _ = Ok _ |- _ => apply tx_get_Ok in H; destruct H as [-> ->]
  | H : tx_put _ _ = Ok _ |- _ => apply tx_put_Ok in H; subst
  | H : tx_lift _ _ = Ok _ |- _ => apply tx_lift_Ok in H; destruct H as [-> H]
  | H : mret _ _ = Ok _ |- _ => apply tx_ret_Ok in H; destruct H as [-> ->]
  | H : tx_err _ _ = Ok _ |- _ => discriminate H
  | H : ok_or _ ?o = Ok _ |- _ => destruct o eqn:?; [injection H as <-|discriminate H]
  | H : put_formation _ _ = Ok _ |- _ => apply tx_put_Ok in H; subst
  | H : put_seat _ _ _ _ = Ok _ |- _ => apply tx_put_Ok in H; subst
  | H : put_lease _ _ _ = Ok _ |- _ => apply tx_put_Ok in H; subst
  end.

(** Decide a proposition a hypothesis tests. *)
Tactic Notation "bool_in" hyp(H) "as" ident(Hd) :=
  match type of H with context [bool_decide ?P] => destruct (bool_decide_reflect P) as [Hd|Hd] end.
Tactic Notation "bool_in" hyp(H) := let Hd := fresh in bool_in H as Hd.

End Store.
