(* ===== verification/FaProg.v ===== *)
(** * Driver runs of the federation assembler

    A run of the formation driver commits transactions against the store and,
    between them, awaits its ports: the payer wallet, the Manifold Guardians,
    the registry and the federation's consensus.  [Prog] keeps that structure.
    An await is polled first ([Send]) and answered later ([Recv]); a request
    whose answer never comes, because its timer fired or the future was
    dropped, was still sent.  Sets of futures ([FuturesUnordered]) are
    interleaved by a schedule the environment picks.

    [run_guard] admits one driver at a time, so a client is a database with at
    most one running program.  A dropped future or a crash ends the program at
    any await and keeps the database. *)

From S2P Require Import Prelude FaSchema FaQuotes FaStore.
From stdpp Require Import base gmap strings list.
From Stdlib Require Import ZArith Lia.
Open Scope Z_scope.

Module Run.
Import Fa Quotes Store.

(** ** The ports *)

(** Wallet capabilities ([FaPayments]) are opaque handles; a reservation is kept
    with the identifier it was issued for. *)
Record PaymentReservation := { rv_id : Z; rv_handle : Z }.
Record PreparedSeatPayment := {
  pp_payment_signatures : list Z;
  pp_settled_under : MintGeneration;
  pp_refund_context : Z
}.
Inductive SeatPaymentRecovery :=
| NotStarted
| Prepared (prepared : PreparedSeatPayment)
| Rejected (proof : Z).
Inductive ReserveReply :=
| Reserved (handle : Z)
| InsufficientFundsWithoutReservation
| ReserveFailed.

(** [ExactPaymentPreflight]: each requirement with its verified quote. *)
Definition Preflight : Type := list (SeatPaymentRequirement * QuoteTerms).

(** [GetAvailabilityResponse]. *)
Record Availability := {
  av_accepting_seats : bool;
  av_federation_sizes : list Z;
  av_fedimintd_version : FedimintdVersion;
  av_plans : list Plan
}.

(** [GetPeerAttestationResponse]. *)
Record PeerAttestation := { at_account : Account; at_attestation : Z; at_endpoint_proof : Z }.

(** [FederationConsensusSnapshot]: the config, and the metadata value with its
    size, revision and, when it is a JSON object, its fields ([None] for a
    field that is not a string). *)
Record MetaValue := {
  mv_bytes : Z;
  mv_hash : Z;
  mv_fields : option (gmap string (option string))
}.
Record ConsensusSnapshot := {
  cs_config : Z;
  cs_meta_value : option MetaValue;
  cs_meta_revision : option Z
}.

(** What the ports are asked. *)
Inductive Req :=
| RecoverReservation (id : Z) (preflight : Preflight)
| Reserve (id : Z) (preflight : Preflight)
| ReleaseReservation (reservation : PaymentReservation)
| RecoverSeatPayment (id : Z) (quote : QuoteTerms)
| CreateSeatPayment (reservation : PaymentReservation) (quote : QuoteTerms)
| SettleSeatRefund (context refund : Z)
| ReleaseSeatReservation (proof : Z)
| PrepareQuoteRefund (federation_id : string) (plan : Plan)
| PayableFederations (admitted : list string)
| FetchSetupPaymentFederations
| Connect (locator : Locator)
| GetAvailability (locator : Locator)
| GetQuote (locator : Locator) (request : GetQuoteRequest)
| CreateSeat (locator : Locator) (fa_id : Z) (quote : SignedQuote) (signatures : list Z)
| GetDkgCode (locator : Locator) (seat_id : Z) (federation_name : option string)
| StartDkg (locator : Locator) (seat_id : Z) (codes : list string) (callback : option Z)
| RestartDkg (locator : Locator) (seat_id : Z) (codes : list string)
| GetStatus (locator : Locator) (seat_id : Z)
| GetInviteCode (locator : Locator) (seat_id : Z)
| GetPeerAttestation (locator : Locator) (seat_id : Z)
| ProposeFormationMeta (locator : Locator) (seat_id : Z) (base : option (Z * Z))
    (target : FormationMetaTarget)
| ReadConsensus (invite : string).

(** Their answers; [inl] is the port's error. *)
Definition Reply (r : Req) : Type :=
  match r with
  | RecoverReservation _ _ => unit + option Z
  | Reserve _ _ => ReserveReply
  | ReleaseReservation _ => unit + unit
  | RecoverSeatPayment _ _ => unit + SeatPaymentRecovery
  | CreateSeatPayment _ _ => unit + PreparedSeatPayment
  | SettleSeatRefund _ _ => unit + Z
  | ReleaseSeatReservation _ => unit + unit
  | PrepareQuoteRefund _ _ => unit + RefundIssuance
  | PayableFederations _ => unit + list string
  | FetchSetupPaymentFederations => list Event
  | Connect _ => unit + unit
  | GetAvailability _ => MgCause + Availability
  | GetQuote _ _ => MgCause + SignedQuote
  | CreateSeat _ _ _ _ => MgCause + SeatResponse
  | GetDkgCode _ _ _ => MgCause + string
  | StartDkg _ _ _ _ => MgCause + unit
  | RestartDkg _ _ _ => MgCause + ServiceStatus
  | GetStatus _ _ => MgCause + (ServiceStatus * bool)
  | GetInviteCode _ _ => MgCause + string
  | GetPeerAttestation _ _ => MgCause + PeerAttestation
  | ProposeFormationMeta _ _ _ _ => MgCause + unit
  | ReadConsensus _ => unit + ConsensusSnapshot
  end.

(** What else a run reads: the clock, whether enough of the run's time is left,
    how often the lease is renewed while a call is pending, how many rounds a
    retry loop gets before its deadline, random bytes, the verifier's
    provenance, the interleaving of a set of futures, and whether the identity
    signed a request. *)
Inductive Ext :=
| Send (r : Req)
| Recv (r : Req)
| Now
| TimeRemains
| RenewalsWhilePending
| Rounds
| RandomOwner
| Provenance
| Schedule
| Sign.
Definition Ans (c : Ext) : Type :=
  match c with
  | Send _ => unit
  | Recv r => option (Reply r)
  | Now => Z
  | TimeRemains => bool
  | RenewalsWhilePending => nat
  | Rounds => nat
  | RandomOwner => Z
  | Provenance => VerifierProvenance
  | Schedule => list nat
  | Sign => bool
  end.

(** ** Programs *)

Inductive Prog (A : Type) : Type :=
| Done (a : A)
| Stmt {B : Type} (t : FaTx B) (k : res FaError B -> Prog A)
| Call (c : Ext) (k : Ans c -> Prog A).
Arguments Done {A} a.
Arguments Stmt {A B} t k.
Arguments Call {A} c k.

Fixpoint pbind {A B} (p : Prog A) (f : A -> Prog B) : Prog B :=
  match p with
  | Done a => f a
  | Stmt t k => Stmt t (λ r, pbind (k r) f)
  | Call c k => Call c (λ a, pbind (k a) f)
  end.

(** A fallible computation, and one that works on a mutable value: a failure
    keeps what was written to it. *)
Definition M (A : Type) : Type := Prog (res FaError A).
Definition St (S A : Type) : Type := S -> Prog (S * res FaError A).

#[global] Instance M_ret : MRet M := λ A a, Done (Ok a).
#[global] Instance M_bind : MBind M := λ A B f p,
  pbind p (λ r, match r with Ok a => f a | Err e => Done (Err e) | Panic => Done Panic end).
#[global] Instance St_ret {S} : MRet (St S) := λ A a s, Done (s, Ok a).
#[global] Instance St_bind {S} : MBind (St S) := λ A B f p s,
  pbind (p s) (λ '(s', r),
    match r with Ok a => f a s' | Err e => Done (s', Err e) | Panic => Done (s', Panic) end).

Definition ask (c : Ext) : M (Ans c) := Call c (λ a, Done (Ok a)).
Definition stmt {A} (t : FaTx A) : M A := Stmt t Done.
Definition lift {A} (r : res FaError A) : M A := Done r.
Definition fail {A} (e : FaError) : M A := Done (Err e).

(** [match p.await { Ok(..) => .., Err(..) => .. }]. *)
Definition attempt {A} (p : M A) : M (FaError + A) :=
  pbind p (λ r, Done (match r with
                      | Ok a => Ok (inr a)
                      | Err e => Ok (inl e)
                      | Panic => Panic
                      end)).
(** [p.await.map_err(f)]. *)
Definition map_err {A} (f : FaError -> FaError) (p : M A) : M A :=
  pbind p (λ r, Done (match r with Err e => Err (f e) | r => r end)).

Definition lift_st {S A} (p : M A) : St S A := λ s, pbind p (λ r, Done (s, r)).
Definition get {S} : St S S := λ s, Done (s, Ok s).
Definition modify {S} (f : S -> S) : St S unit := λ s, Done (f s, Ok tt).
Definition throw {S A} (e : FaError) : St S A := λ s, Done (s, Err e).

(** A block that keeps, beside the shared value, local ones of its own. *)
Definition with_local {S L A} (l : L) (p : St (S * L) A) : St S (A * L) := λ s,
  pbind (p (s, l)) (λ '((s', l'), r), Done (s', a ← r; Ok (a, l'))).

(** [for x in l { body(x).await?; }]. *)
Fixpoint for_each {S A} (l : list A) (body : A -> St S unit) : St S unit :=
  match l with
  | [] => mret tt
  | a :: l => body a;; for_each l body
  end.

(** ** Sets of futures

    [while let Some(b) = set.next().await { handle(b)?; }].  A schedule names
    the future that moves next; it moves to its next await.  A finished one is
    handed to the loop body, during which no other future is polled.  What the
    schedule leaves over is driven in order; a body that fails drops the
    rest. *)
Fixpoint drain {S B} (futures : list (Prog B)) (handle : B -> St S unit) : St S unit :=
  match futures with
  | [] => mret tt
  | p :: rest => λ s, pbind p (λ b, (handle b;; drain rest handle) s)
  end.

Fixpoint interleave {S B} (schedule : list nat) (futures : list (Prog B))
    (handle : B -> St S unit) (s : S) : Prog (S * res FaError unit) :=
  match schedule with
  | [] => drain futures handle s
  | i :: schedule =>
      match futures !! i with
      | None => interleave schedule futures handle s
      | Some (Done b) =>
          pbind (handle b s) (λ '(s', r),
            match r with
            | Ok _ => interleave schedule (delete i futures) handle s'
            | Err e => Done (s', Err e)
            | Panic => Done (s', Panic)
            end)
      | Some (Stmt t k) =>
          Stmt t (λ r, interleave schedule (<[i := k r]> futures) handle s)
      | Some (Call c k) =>
          Call c (λ a, interleave schedule (<[i := k a]> futures) handle s)
      end
  end.

Definition unordered {S B} (futures : list (M B)) (handle : res FaError B -> St S unit)
    : St S unit :=
  λ s, Call Schedule (λ schedule, interleave schedule futures handle s).

(** ** A client over its database *)

Section Client.
(** The entry points, and the program each starts. *)
Context {H : Type} (body : H -> Prog unit).

Inductive TraceEvent :=
| EStart (h : H)
| EStmt (before after : Db)
| ECall (c : Ext) (a : Ans c) (at_ : Db)
| ECrash.

(** The trace holds the newest event first. *)
Record World := { w_db : Db; w_trace : list TraceEvent }.
Record Client := { c_world : World; c_running : option (Prog unit) }.

Inductive Choice :=
| Start (h : H)
| Exec
| Lose (busy : bool)
| Answer (o : ∀ c, Ans c)
| Finish
| Crash
| ReleaseDropped.

Definition log (e : TraceEvent) (d : Db) (w : World) : World :=
  {| w_db := d; w_trace := e :: w_trace w |}.

Definition act (choice : Choice) (s : Client) : option Client :=
  let w := c_world s in
  match choice, c_running s with
  | Start h, None => Some {| c_world := log (EStart h) (w_db w) w; c_running := Some (body h) |}
  | Exec, Some (Stmt t k) =>
      let '(d, r) := run_tx t (w_db w) in
      Some {| c_world := log (EStmt (w_db w) d) d w; c_running := Some (k r) |}
  | Lose busy, Some (Stmt t k) =>
      Some {| c_world := log (EStmt (w_db w) (w_db w)) (w_db w) w;
              c_running := Some (k (Err (if busy then Busy else Storage))) |}
  | Answer o, Some (Call c k) =>
      Some {| c_world := log (ECall c (o c) (w_db w)) (w_db w) w;
              c_running := Some (k (o c)) |}
  | Finish, Some (Done _) => Some {| c_world := w; c_running := None |}
  | Crash, _ => Some {| c_world := log ECrash (w_db w) w; c_running := None |}
  | ReleaseDropped, None =>
      let d := set_lease None (w_db w) in
      Some {| c_world := log (EStmt (w_db w) d) d w; c_running := None |}
  | _, _ => None
  end.

Definition opened (d : Db) : Client :=
  {| c_world := {| w_db := d; w_trace := [] |}; c_running := None |}.

(** The clients reachable from database [d]. *)
Inductive reachable (d : Db) : Client -> Prop :=
| reach_open : reachable d (opened d)
| reach_act c s s' : reachable d s → act c s = Some s' → reachable d s'.

End Client.
Arguments TraceEvent : clear implicits.
Arguments World : clear implicits.
Arguments Client : clear implicits.
Arguments Choice : clear implicits.

End Run.
