(* ===== verification/FaCalls.v ===== *)
(** * Fenced calls, quotes and presentations of the formation driver
      ([crates/fa-client/src/formation.rs], [mg.rs], [setup_payment_federations.rs])

    The parts of the driver that do not write the formation: lease-fenced calls
    to the ports, the setup-payment policy, connecting and quoting with their
    bounded retries, and the presentation of one seat with its refund. *)

From S2P Require Import Prelude FaSchema FaQuotes FaStore FaProg.
From stdpp Require Import base gmap strings list.
From Stdlib Require Import ZArith Lia.
Open Scope Z_scope.

Module Calls.
Import Fa Quotes Store Run.

(** Authentication and admission of setup-payment publications (the domain
    crate): whether a retained event authenticates, whether a candidate is
    admitted at a time over the current one, and the federations it lists. *)
Class Policy := {
  authenticates : Event -> bool;
  admits : Event -> Z -> option Event -> bool;
  federations_of : Event -> list string
}.

Section Calls.
Context `{!Crypto, !Policy}.

(** The handle every call of one run carries. *)
Variable lease : DriverLease.

(** ** Time and ownership *)

(** [ensure_effective_time_remaining]. *)
Definition ensure_time : M unit :=
  remains ← ask TimeRemains;
  if remains : bool then mret tt else fail Timeout.

(** A lease-fenced transaction: it reads the clock, commits, and fails if the
    lease it wrote has run out when the clock is read again. *)
Definition fenced (t : Z -> FaTx Z) : M unit :=
  now ← ask Now;
  expires_at ← stmt (t now);
  after ← ask Now;
  if (after : Z) <? expires_at then mret tt else fail Busy.

(** [DriverLease::renew]. *)
Definition renew : M unit := fenced (renew_driver_lease lease).

Fixpoint renew_times (n : nat) : M unit :=
  match n with O => mret tt | S n => renew;; renew_times n end.

(** [DriverRun::poll_with_lease]. *)
Definition poll_with_lease (r : Req) : M (Reply r) :=
  ask (Send r);;
  n ← ask RenewalsWhilePending;
  renew_times n;;
  answer ← ask (Recv r);
  match answer : option (Reply r) with
  | Some reply => mret reply
  | None => fail Timeout
  end.

(** [DriverRun::call_with_timeout], and [call] and [call_consensus_read], which
    differ in the timer only. *)
Definition call (r : Req) : M (Reply r) :=
  ensure_time;; renew;; ensure_time;; ensure_time;; renew;; ensure_time;;
  poll_with_lease r.

(** [DriverRun::construct] of a signed request. *)
Definition construct_signed : M unit :=
  ensure_time;; renew;; ensure_time;;
  signed ← ask Sign;
  if signed : bool then mret tt else fail Identity.

(** [run.call(..).await?.map_err(FaError::Payment)?] on the wallet. *)
Definition wallet_call {T} (r : Req) (reply : Reply r -> unit + T) : M T :=
  x ← call r;
  match reply x with inl _ => fail Payment | inr t => mret t end.

(** [MgClient::failure]; a client is the locator it dialed. *)
Definition mg_failure (client : Locator) (op : MgOperation) (cause : MgCause) : FaError :=
  EMg {| mf_mg := service_pubkey client; mf_operation := op; mf_cause := cause |}.

(** [MgClient::call]. *)
Definition mg_call {T} (client : Locator) (op : MgOperation) (r : Req)
    (reply : Reply r -> MgCause + T) : M T :=
  x ← map_err (λ e, match e with Timeout => mg_failure client op CauseTimeout | e => e end)
        (call r);
  match reply x with
  | inl cause => fail (mg_failure client op cause)
  | inr t => mret t
  end.

(** [MgClient::connect]. *)
Definition connect (locator : Locator) : M Locator :=
  x ← map_err (λ e, match e with
                    | Timeout => mg_failure locator OpConnect CauseTimeout
                    | e => e
                    end) (call (Connect locator));
  match x : unit + unit with
  | inl _ => fail (mg_failure locator OpConnect CauseTransport)
  | inr _ => mret locator
  end.

(** ** Setup-payment policy *)

(** [refresh_setup_payment_policy]. *)
Definition refresh_setup_payment_policy : M (option Event) :=
  current ← stmt (tx_get d_setup_payment_federations);
  if match current with Some e => negb (authenticates e) | None => false end then fail Storage
  else
    candidates ← call FetchSetupPaymentFederations;
    now ← ask Now;
    let admitted :=
      foldl (λ current candidate,
               if admits candidate now current then Some candidate else current)
        current (candidates : list Event) in
    match admitted with
    | Some event => stmt (store_setup_payment_federations_event event);; mret admitted
    | None => mret None
    end.

(** [payable_setup_payment_federations] and [require_setup_payment_federation]. *)
Definition payable_setup_payment_federations : M (list string * list string) :=
  admitted ← refresh_setup_payment_policy;
  match federations_of <$> admitted with
  | None => fail Payment
  | Some policy_ids =>
      if bool_decide (policy_ids = []) then fail Payment
      else payable ← wallet_call (PayableFederations policy_ids) (λ x, x);
           mret (policy_ids, payable)
  end.
Definition require_setup_payment_federation (requested : string) : M string :=
  '(policy_ids, payable) ←
    map_err (λ e, match e with
                  | Payment => SelectionReauthorizationRequired SelectedPayerUnavailable None
                  | e => e
                  end) payable_setup_payment_federations;
  if bool_decide (requested ∈ policy_ids) && bool_decide (requested ∈ payable)
  then mret requested
  else fail (SelectionReauthorizationRequired SelectedPayerUnavailable None).

(** ** Connecting and quoting *)

(** [QuoteAttemptPolicy]: whether a failure may ask for a fresh selection. *)
Definition quote_attempt_policy (a : MgAdmission) : bool := requires_effect_authorization a.

Definition retryable (cause : MgCause) : bool :=
  match cause with CauseTimeout | CauseTransport => true | _ => false end.

(** The two retry loops share their shape: a definite transport failure of a
    replaceable row is tried again for the rounds its deadline leaves. *)
Fixpoint retry_selected {A} (replaceable : bool) (rounds : nat) (p : M A) : M A :=
  result ← attempt p;
  match result with
  | inr a => mret a
  | inl (EMg failure) =>
      if negb replaceable || negb (retryable (mf_cause failure)) then fail (EMg failure)
      else match rounds with
           | O => fail (SelectionReauthorizationRequired SelectedMgUnavailable (Some failure))
           | S rounds => retry_selected replaceable rounds p
           end
  | inl e => fail e
  end.

(** [connect_with_selected_retry]. *)
Definition connect_with_selected_retry (locator : Locator) (replaceable : bool) : M Locator :=
  rounds ← ask Rounds;
  retry_selected replaceable rounds (connect locator).

(** [match_requested_availability]. *)
Definition match_requested_availability (a : Availability) (intent : ResolvedFormationIntent)
    : MgCause + (FedimintdVersion * Plan) :=
  if negb (av_accepting_seats a) then inl NotAcceptingSeats
  else if negb (bool_decide (in_federation_size intent ∈ av_federation_sizes a))
  then inl UnsupportedFederationSize
  else if negb (bool_decide (dkg_version (av_fedimintd_version a)
                             = in_fedimintd_dkg_version intent))
          || negb (range_contains (in_fedimintd_versions intent) (av_fedimintd_version a))
  then inl UnsupportedVersion
  else match List.find (plan_matches (in_plan intent)) (av_plans a) with
       | None => inl PlanNotOffered
       | Some plan => inr (av_fedimintd_version a, plan)
       end.

(** The refusals of a quote that ask a replaceable row for a fresh selection. *)
Definition quote_refusal (cause : MgCause) : bool :=
  match cause with
  | CapacityExhausted | PlanNotOffered | PaymentFederationNotAccepted | UnsupportedVersion
  | UnsupportedFederationSize | InvalidResponse => true
  | _ => false
  end.

(** [request_new_quote].  [payment_federation] is the batch's cell: absent,
    already set, or resolved on first use; here every priced seat of the batch
    resolves it anew, with the same answer. *)
Definition request_new_quote (index : Z) (client : Locator) (intent : ResolvedFormationIntent)
    (fa_id : Z) (replaceable : bool) (expected_payer : option string)
    (payment_federation : option (option string)) : M (SignedQuote * QuoteTerms) :=
  availability ← mg_call client OpGetAvailability (GetAvailability client) (λ x, x);
  match match_requested_availability availability intent with
  | inl cause =>
      let failure := {| mf_mg := service_pubkey client; mf_operation := OpGetAvailability;
                        mf_cause := cause |} in
      fail (if replaceable
            then SelectionReauthorizationRequired SelectedMgUnavailable (Some failure)
            else EMg failure)
  | inr (version, plan) =>
      let priced := match plan with
                    | InfiniteBestEffort price => 0 <? price
                    | SubscriptionBased _ _ _ => true
                    end in
      payer ←
        (if negb priced then mret None
         else match payment_federation with
              | None =>
                  fail (if replaceable
                        then SelectionReauthorizationRequired PaymentFederationRequired None
                        else EManifoldGuardian index)
              | Some (Some set) => mret (Some set)
              | Some None =>
                  match expected_payer with
                  | Some requested =>
                      payer ← require_setup_payment_federation requested; mret (Some payer)
                  | None =>
                      fail (SelectionReauthorizationRequired PaymentFederationRequired None)
                  end
              end : M (option string));
      refund ←
        (match payer with
         | Some federation_id =>
             refund ← wallet_call (PrepareQuoteRefund federation_id plan) (λ x, x);
             mret (Some refund)
         | None => mret None
         end : M (option RefundIssuance));
      let request := {| qr_fa_id := fa_id; qr_fedimintd_version := version;
                        qr_federation_size := in_federation_size intent; qr_plan := plan;
                        qr_payment_federation_id := payer; qr_refund_issuance := refund |} in
      let invalid := mg_failure client OpGetQuote InvalidResponse in
      map_err
        (λ e, match e with
              | EMg failure =>
                  if replaceable && quote_refusal (mf_cause failure)
                  then SelectionReauthorizationRequired SelectedMgUnavailable (Some failure)
                  else e
              | e => e
              end)
        (signed ← mg_call client OpGetQuote (GetQuote client request) (λ x, x);
         quote ← map_err (λ _, invalid)
                   (lift (verify_quote index signed client intent fa_id expected_payer));
         if bool_decide (qt_request quote = request) then mret (signed, quote) else fail invalid)
  end.

(** [request_quote_with_retry]. *)
Definition request_quote_with_retry (index : Z) (locator : Locator)
    (intent : ResolvedFormationIntent) (fa_id : Z) (replaceable : bool)
    (expected_payer : option string) (payment_federation : option (option string))
    : M (SignedQuote * QuoteTerms) :=
  rounds ← ask Rounds;
  retry_selected replaceable rounds
    (client ← connect locator;
     request_new_quote index client intent fa_id replaceable expected_payer
       payment_federation).

(** ** Presenting a seat *)

(** [SeatPresentation], [SeatAcceptance] and [SeatCreation]. *)
Inductive SeatPresentation :=
| PresentFree (signed : SignedQuote) (verified : QuoteTerms)
| PresentPaid (signed : SignedQuote) (verified : QuoteTerms) (prepared : PreparedSeatPayment).
Record SeatAcceptance := { sa_seat_id : Z; sa_guardian_fee_account : Account }.
Inductive SeatCreation :=
| CreationAccepted (acceptance : SeatAcceptance)
| CreationRefused (error : MgFailure) (release_proof : option Z).

(** [present_seat]; the canonical fee-recipient list of one account exists when
    the account is a fee account. *)
Definition present_seat (index : Z) (client : Locator) (fa_id : Z) (p : SeatPresentation)
    : M SeatCreation :=
  '(signed, quote, signatures, context) ←
    (match p with
     | PresentFree signed verified => mret (signed, verified, [], None)
     | PresentPaid signed verified prepared =>
         match qt_payment verified with
         | None => lift Panic
         | Some terms =>
             if bool_decide (pp_settled_under prepared = generation terms)
             then mret (signed, verified, pp_payment_signatures prepared,
                        Some (pp_refund_context prepared))
             else fail (EManifoldGuardian index)
         end
     end : M (SignedQuote * QuoteTerms * list Z * option Z));
  construct_signed;;
  let invalid := mg_failure client OpCreateSeat InvalidResponse in
  response ← mg_call client OpCreateSeat (CreateSeat client fa_id signed signatures) (λ x, x);
  if negb (response_verifies (service_pubkey client) response) then fail invalid
  else if negb (sp_quote_id response =? quote_id quote) then fail invalid
  else match sp_outcome response with
  | SeatAccepted seat_id account =>
      if fee_account_ok account
      then mret (CreationAccepted {| sa_seat_id := seat_id;
                                     sa_guardian_fee_account := account |})
      else fail invalid
  | SeatRefused refund =>
      let failure := {| mf_mg := service_pubkey client; mf_operation := OpCreateSeat;
                        mf_cause := OfferChanged |} in
      match context, refund with
      | Some context, Some refund =>
          proof ← wallet_call (SettleSeatRefund context refund) (λ x, x);
          mret (CreationRefused failure (Some proof))
      | None, None => mret (CreationRefused failure None)
      | _, _ => fail (EManifoldGuardian index)
      end
  end.

(** ** Connecting to the seats that exist *)

(** [connect_seat_with_retry]. *)
Fixpoint connect_rounds (rounds : nat) (locator : Locator) : M Locator :=
  result ← attempt (connect locator);
  match result with
  | inr client => mret client
  | inl (EMg failure) =>
      if negb (retryable (mf_cause failure)) then fail (EMg failure)
      else match rounds with
           | O => fail (EMg failure)
           | S rounds => connect_rounds rounds locator
           end
  | inl e => fail e
  end.
Definition connect_seat_with_retry (locator : Locator) : M Locator :=
  rounds ← ask Rounds; connect_rounds rounds locator.

End Calls.
End Calls.
