(* ===== verification/FaDriver.v ===== *)
(** * The formation driver up to accepted seats
      ([crates/fa-client/src/formation.rs])

    Quoting, reserving, paying and presenting the seats of one formation.  The
    driver works on the recovery it loaded, writing the store first and the
    recovery after it; a failure keeps both as they are. *)

From S2P Require Import Prelude FaSchema FaQuotes FaStore FaProg FaCalls.
From stdpp Require Import base gmap strings list.
From Stdlib Require Import ZArith Lia.
Open Scope Z_scope.

Module Driver.
Import Fa Quotes Store Run Calls.

(** A computation on the recovery ([&mut ActiveFormationRecovery]). *)
Abbreviation D := (St ActiveFormationRecovery).

(** ** Updates of the recovery *)

Definition rc_with (seats : list SeatRecovery) (auth : option StoredPaymentAuthorization)
    (recorded : bool) (reservation : option Z) (intended started : bool)
    (r : ActiveFormationRecovery) : ActiveFormationRecovery :=
  {| rc_formation_id := rc_formation_id r; rc_intent := rc_intent r; rc_phase := rc_phase r;
     rc_action_required := rc_action_required r; rc_invite_code := rc_invite_code r;
     rc_seats := seats; rc_payment_authorization := auth;
     rc_authorization_recorded := recorded; rc_payment_reservation_id := reservation;
     rc_release_intended := intended; rc_outputs_started := started;
     rc_payment_federation_id := rc_payment_federation_id r;
     rc_formation_meta_target := rc_formation_meta_target r;
     rc_dkg_completion_callback := rc_dkg_completion_callback r |}.
Definition rc_set_seats (seats : list SeatRecovery) (r : ActiveFormationRecovery) :=
  rc_with seats (rc_payment_authorization r) (rc_authorization_recorded r)
    (rc_payment_reservation_id r) (rc_release_intended r) (rc_outputs_started r) r.
Definition rc_set_auth (a : option StoredPaymentAuthorization) (recorded : bool)
    (r : ActiveFormationRecovery) :=
  rc_with (rc_seats r) a recorded (rc_payment_reservation_id r) (rc_release_intended r)
    (rc_outputs_started r) r.
Definition rc_set_reservation (v : option Z) (intended : bool) (r : ActiveFormationRecovery) :=
  rc_with (rc_seats r) (rc_payment_authorization r) (rc_authorization_recorded r) v intended
    (rc_outputs_started r) r.
Definition rc_set_started (r : ActiveFormationRecovery) :=
  rc_with (rc_seats r) (rc_payment_authorization r) (rc_authorization_recorded r)
    (rc_payment_reservation_id r) (rc_release_intended r) true r.
(** The published part: phase, required action and invite. *)
Definition rc_publish (phase : FormationPhase) (action : option FormationActionRequired)
    (invite : option string) (target : option FormationMetaTarget)
    (r : ActiveFormationRecovery) : ActiveFormationRecovery :=
  {| rc_formation_id := rc_formation_id r; rc_intent := rc_intent r; rc_phase := phase;
     rc_action_required := action; rc_invite_code := invite;
     rc_seats := rc_seats r; rc_payment_authorization := rc_payment_authorization r;
     rc_authorization_recorded := rc_authorization_recorded r;
     rc_payment_reservation_id := rc_payment_reservation_id r;
     rc_release_intended := rc_release_intended r; rc_outputs_started := rc_outputs_started r;
     rc_payment_federation_id := rc_payment_federation_id r;
     rc_formation_meta_target := target;
     rc_dkg_completion_callback := rc_dkg_completion_callback r |}.
Definition rc_set_phase (phase : FormationPhase) (action : option FormationActionRequired)
    (r : ActiveFormationRecovery) :=
  rc_publish phase action (rc_invite_code r) (rc_formation_meta_target r) r.
Definition invalidate_payment_authorization (r : ActiveFormationRecovery) :=
  rc_set_auth None (rc_authorization_recorded r) r.

Definition sr_with (phase : SeatPhase) (quote : option SignedQuote) (admission : MgAdmission)
    (for_ : option Z) (locator : option Locator) (mg_id : option Z) (approved : bool)
    (s : SeatRecovery) : SeatRecovery :=
  {| sr_index := sr_index s; sr_locator := sr_locator s; sr_seat_id := sr_seat_id s;
     sr_guardian_code := sr_guardian_code s; sr_phase := phase; sr_admission := admission;
     sr_signed_quote := quote; sr_replacement_for := for_; sr_previous_locator := locator;
     sr_previous_mg_id := mg_id; sr_replacement_approved := approved;
     sr_guardian_fee_account := sr_guardian_fee_account s |}.
Definition sr_set_phase (phase : SeatPhase) (s : SeatRecovery) :=
  sr_with phase (sr_signed_quote s) (sr_admission s) (sr_replacement_for s)
    (sr_previous_locator s) (sr_previous_mg_id s) (sr_replacement_approved s) s.
Definition sr_set_quote (q : option SignedQuote) (phase : SeatPhase) (s : SeatRecovery) :=
  sr_with phase q (sr_admission s) (sr_replacement_for s)
    (sr_previous_locator s) (sr_previous_mg_id s) (sr_replacement_approved s) s.
Definition sr_accept (seat_id : Z) (account : Account) (s : SeatRecovery) : SeatRecovery :=
  {| sr_index := sr_index s; sr_locator := sr_locator s; sr_seat_id := Some seat_id;
     sr_guardian_code := sr_guardian_code s; sr_phase := Created;
     sr_admission := sr_admission s; sr_signed_quote := sr_signed_quote s;
     sr_replacement_for := sr_replacement_for s; sr_previous_locator := sr_previous_locator s;
     sr_previous_mg_id := sr_previous_mg_id s;
     sr_replacement_approved := sr_replacement_approved s;
     sr_guardian_fee_account := Some account |}.
Definition sr_set_code (code : string) (s : SeatRecovery) : SeatRecovery :=
  {| sr_index := sr_index s; sr_locator := sr_locator s; sr_seat_id := sr_seat_id s;
     sr_guardian_code := Some code; sr_phase := GuardianCodeReady;
     sr_admission := sr_admission s; sr_signed_quote := sr_signed_quote s;
     sr_replacement_for := sr_replacement_for s; sr_previous_locator := sr_previous_locator s;
     sr_previous_mg_id := sr_previous_mg_id s;
     sr_replacement_approved := sr_replacement_approved s;
     sr_guardian_fee_account := sr_guardian_fee_account s |}.
Definition rc_update_seat (position : nat) (f : SeatRecovery -> SeatRecovery)
    (r : ActiveFormationRecovery) :=
  rc_set_seats (alter f position (rc_seats r)) r.

(** [iter.flatten()] over options. *)
Definition somes {T} (l : list (option T)) : list T := omap id l.

(** [recovery.seats[position]]. *)
Definition rc_seat (r : ActiveFormationRecovery) (position : nat) : res FaError SeatRecovery :=
  expect (rc_seats r !! position).
(** The seats with their positions. *)
Definition positions (r : ActiveFormationRecovery) : list (nat * SeatRecovery) :=
  imap pair (rc_seats r).

Section Driver.
Context `{!Crypto, !Policy}.
(** This client's identity and the lease of the current run. *)
Variable fa_id : Z.
Variable lease : DriverLease.

Definition do {A} (p : M A) : D A := lift_st p.

(** The verified quote of a row, if it has one. *)
Definition seat_quote (s : SeatRecovery) : option QuoteTerms :=
  signed ← sr_signed_quote s; quote_verify (service_pubkey (sr_locator s)) signed.
Definition seat_quote_authorized (r : ActiveFormationRecovery) (s : SeatRecovery) : bool :=
  match seat_quote s with
  | Some quote => quote_is_authorized r (sr_index s) (quote_id quote)
  | None => false
  end.

(** [validate_live_admissions]. *)
Definition validate_live_admissions (r : ActiveFormationRecovery)
    (provenance : VerifierProvenance) (now : Z) : res FaError unit :=
  collect (λ s, validate_fresh_admission (sr_admission s) provenance now) (rc_seats r);; Ok tt.
Definition check_live_admissions : D unit :=
  r ← get;
  provenance ← do (ask Provenance);
  now ← do (ask Now);
  do (lift (validate_live_admissions r provenance now)).

(** ** Reservations *)

(** [exact_payment_quotes] and [ExactPaymentPreflight::new]. *)
Definition exact_payment_quote (r : ActiveFormationRecovery) (requirement : SeatPaymentRequirement)
    : res FaError QuoteTerms :=
  seat ← ok_or Storage (List.find (λ s, sr_index s =? pr_index requirement) (rc_seats r));
  signed ← ok_or Storage (sr_signed_quote seat);
  quote ← verify_quote (pr_index requirement) signed (sr_locator seat) (rc_intent r) fa_id
            (rc_payment_federation_id r);
  if negb (quote_id quote =? pr_quote_id requirement) || bool_decide (qt_payment quote = None)
  then Err Storage else Ok quote.
Definition exact_payment_quotes (r : ActiveFormationRecovery) (q : PaymentRequirements)
    : res FaError (list QuoteTerms) :=
  collect (exact_payment_quote r) (rq_seats q).
Definition exact_preflight (q : PaymentRequirements) (quotes : list QuoteTerms)
    : res FaError Preflight :=
  if negb (bool_decide (length (rq_seats q) = length quotes)) then Err Storage
  else if negb (bool_decide (NoDup (pr_quote_id <$> rq_seats q))) then Err Storage
  else collect (λ '(requirement, quote),
                  if quote_id quote =? pr_quote_id requirement
                  then Ok (requirement, quote) else Err Storage) (zip (rq_seats q) quotes).

(** [recover_payment_reservation]. *)
Definition recover_payment_reservation (r : ActiveFormationRecovery) (q : PaymentRequirements)
    : M (Z * option PaymentReservation) :=
  quotes ← lift (exact_payment_quotes r q);
  preflight ← lift (exact_preflight q quotes);
  let id := payment_reservation_id (rc_formation_id r) q in
  recovered ← wallet_call lease (RecoverReservation id preflight) (λ x, x);
  mret (id, (λ handle, {| rv_id := id; rv_handle := handle |}) <$> recovered).

(** [reserve_payment_requirements]. *)
Definition reserve_payment_requirements (q : PaymentRequirements) : D PaymentReservation :=
  r ← get;
  '(id, recovered) ← do (recover_payment_reservation r q);
  if match rc_payment_reservation_id r with Some stored => negb (stored =? id) | None => false end
  then throw Storage
  else match recovered with
  | Some reservation =>
      do (stmt (record_payment_reservation (rc_formation_id r) id));;
      modify (λ r, rc_set_reservation (Some id) (rc_release_intended r) r);;
      mret reservation
  | None =>
      if bool_decide (is_Some (rc_payment_reservation_id r)) then throw Storage
      else
        check_live_admissions;;
        quotes ← do (lift (exact_payment_quotes r q));
        preflight ← do (lift (exact_preflight q quotes));
        reply ← do (call lease (Reserve id preflight));
        match reply : ReserveReply with
        | Reserved handle =>
            do (stmt (record_payment_reservation (rc_formation_id r) id));;
            modify (λ r, rc_set_reservation (Some id) (rc_release_intended r) r);;
            mret {| rv_id := id; rv_handle := handle |}
        | InsufficientFundsWithoutReservation =>
            throw (SelectionReauthorizationRequired SelectedPayerInsufficientFunds None)
        | ReserveFailed => throw Payment
        end
  end.

(** The requirements behind a recorded reservation, or the current ones. *)
Definition recovery_requirements (r : ActiveFormationRecovery)
    : res FaError (option PaymentRequirements) :=
  match rc_payment_reservation_id r with
  | Some _ => reserved_payment_requirements r fa_id
  | None => current_requirements r fa_id
  end.

(** ** Quoting *)

(** The first loop of [prepare_quotes]: an unauthorized paid quote is dropped. *)
Definition refresh_unauthorized (position : nat) : D unit :=
  r ← get;
  s ← do (lift (rc_seat r position));
  let is_free := match seat_quote s with
                 | Some quote => bool_decide (qt_payment quote = None)
                 | None => false
                 end in
  if bool_decide (is_Some (sr_seat_id s)) || is_free || seat_quote_authorized r s then mret tt
  else match sr_signed_quote s with
       | None => mret tt
       | Some signed =>
           do (lift (verify_quote (sr_index s) signed (sr_locator s) (rc_intent r) fa_id
                       (rc_payment_federation_id r)));;
           do (stmt (clear_quote (rc_formation_id r) (sr_index s) signed));;
           modify (λ r, rc_update_seat position (sr_set_quote None Selected)
                          (invalidate_payment_authorization r))
       end.

(** [prepare_quotes]. *)
Definition prepare_quotes : D unit :=
  r0 ← get;
  for_each (seq 0 (length (rc_seats r0))) refresh_unauthorized;;
  r ← get;
  let wanting := filter (λ '(_, s), sr_seat_id s = None ∧ sr_signed_quote s = None)
                   (positions r) in
  let cell := match wanting, rc_payment_federation_id r with
              | _ :: _, Some _ => Some None
              | _, _ => None
              end in
  let quoting '(position, s) :=
    '(signed, _) ← request_quote_with_retry lease (Z.of_nat position) (sr_locator s)
                     (rc_intent r) fa_id (quote_attempt_policy (sr_admission s))
                     (rc_payment_federation_id r) cell;
    mret (position, signed) in
  '(_, first_error) ← with_local None
    (unordered (quoting <$> wanting) (λ result,
      match result with
      | Ok (position, signed) =>
          '(r, first_error) ← get;
          s ← lift_st (lift (rc_seat r position));
          lift_st (stmt (store_quote (rc_formation_id r) (sr_index s) signed));;
          modify (λ '(r, first_error),
            (rc_set_phase Preparing (rc_action_required r)
               (rc_update_seat position (sr_set_quote (Some signed) QuoteReady)
                  (invalidate_payment_authorization r)), first_error))
      | Err e => modify (λ '(r, first_error), (r, Some (default e first_error)))
      | Panic => lift_st (lift Panic)
      end));
  match first_error with Some e => throw e | None => mret tt end.

(** ** Seats *)

Definition checkpoint_accepted_seat (position : nat) (a : SeatAcceptance) : D unit :=
  r ← get;
  s ← do (lift (rc_seat r position));
  let all_created :=
    forallb (λ '(i, s), bool_decide (i = position) || bool_decide (is_Some (sr_seat_id s)))
      (positions r) in
  do (stmt (record_seat_accepted (rc_formation_id r) (sr_index s) (sa_seat_id a)
              (sa_guardian_fee_account a)));;
  modify (λ r, rc_set_phase (if all_created then PreparingDkg else AcquiringSeats)
                 (rc_action_required r)
                 (rc_update_seat position (sr_accept (sa_seat_id a) (sa_guardian_fee_account a))
                    r)).

Definition release_terminal_quote_reservation (position : nat) (proof : option Z) : D unit :=
  r ← get;
  s ← do (lift (rc_seat r position));
  signed ← do (lift (expect (sr_signed_quote s)));
  verified ← do (lift (verify_quote (Z.of_nat position) signed (sr_locator s) (rc_intent r) fa_id
                         (rc_payment_federation_id r)));
  match qt_payment verified, proof with
  | Some _, Some proof => do (wallet_call lease (ReleaseSeatReservation proof) (λ x, x))
  | Some _, None => throw Payment
  | None, Some _ => throw Storage
  | None, None => mret tt
  end.

Definition cleared_seat (mark : bool) (s : SeatRecovery) : SeatRecovery :=
  let for_ := if mark then quote_id <$> seat_quote s else None in
  sr_with (match for_ with Some _ => ReplacementRequired | None => Selected end) None
    (sr_admission s) for_ ((λ _, sr_locator s) <$> for_)
    ((λ _, ad_mg_id (sr_admission s)) <$> for_) false s.

Definition clear_terminal_quotes (terminal : list nat) : D unit :=
  r ← get;
  let mark := rc_outputs_started r in
  expected ← do (lift (collect (λ position,
    s ← rc_seat r position;
    signed ← expect (sr_signed_quote s);
    (if mark : bool then ok_or Storage (quote_verify (service_pubkey (sr_locator s)) signed);; Ok tt
     else Ok tt);;
    Ok (sr_index s, signed)) terminal));
  do (stmt (Store.clear_terminal_quotes (rc_formation_id r) expected mark));;
  modify (λ r,
    let r := rc_set_reservation None (rc_release_intended r)
               (invalidate_payment_authorization r) in
    let r := foldl (λ r position, rc_update_seat position (cleared_seat mark) r) r terminal in
    match replacement_requirements (rc_formation_id r) (rc_seats r) with
    | Some q => rc_set_phase (rc_phase r) (Some (ReplaceGuardians q)) r
    | None => r
    end).

(** [apply_authorized_effect_in_memory]. *)
Definition apply_effect (effect : nat * Z * Z * AdmissionEffect) : D unit :=
  let '(position, _, quote, kind) := effect in
  r ← get;
  s ← do (lift (ok_or Storage (rc_seats r !! position)));
  admission ← do (lift (authorize_effect (sr_admission s) quote kind));
  modify (rc_update_seat position (λ s,
    sr_with (sr_phase s) (sr_signed_quote s) admission (sr_replacement_for s)
      (sr_previous_locator s) (sr_previous_mg_id s) (sr_replacement_approved s) s));;
  if bool_decide (is_Some (sr_replacement_for s)) then
    if negb (sr_replacement_approved s) then throw Storage
    else modify (rc_update_seat position (λ s,
           sr_with (sr_phase s) (sr_signed_quote s) (sr_admission s) None None None false s))
  else mret tt.

(** [refresh_unstarted_payments].  With a reservation recorded the journaled
    quotes are kept; without one every unstarted quote is asked for again. *)
Definition not_started (o : option SeatPaymentRecovery) : bool :=
  match o with Some NotStarted => true | _ => false end.

Definition journaled_payments (r : ActiveFormationRecovery)
    (recovered : list (option SeatPaymentRecovery))
    : res FaError (list (option (SignedQuote * QuoteTerms))) :=
  collect (λ '(position, (s, recovered)),
    if negb (not_started recovered) then Ok None
    else
      signed ← ok_or Storage (sr_signed_quote s);
      verified ← verify_paid_seat_quote (Z.of_nat position) signed (sr_locator s) (rc_intent r)
                   fa_id (rc_payment_federation_id r);
      Ok (Some (signed, verified)))
    (imap pair (zip (rc_seats r) recovered)).

(** A quote asked for again: its position, the old quote and the fresh one. *)
Definition Refreshed : Type := nat * (SignedQuote * QuoteTerms) * (SignedQuote * QuoteTerms).
Definition same_terms (old fresh : QuoteTerms) : bool :=
  (qt_price_msats old =? qt_price_msats fresh)
  && match qt_payment old, qt_payment fresh with
     | Some a, Some b => bool_decide (payment_federation a = payment_federation b)
     | _, _ => false
     end.

Definition refresh_unstarted_payments (recovered : list (option SeatPaymentRecovery))
    (payer : string) : D (list (option (SignedQuote * QuoteTerms))) :=
  r ← get;
  match rc_payment_reservation_id r with
  | Some stored =>
      q ← do (lift (reserved_payment_requirements r fa_id));
      q ← do (lift (ok_or Storage q));
      if negb (stored =? payment_reservation_id (rc_formation_id r) q) then throw Storage
      else do (lift (journaled_payments r recovered))
  | None =>
      let rows := filter (λ '(_, (_, recovered)), not_started recovered = true)
                    (imap pair (zip (rc_seats r) recovered)) in
      old ← do (lift (collect (λ '(position, (s, _)),
        signed ← expect (sr_signed_quote s);
        verified ← verify_paid_seat_quote (Z.of_nat position) signed (sr_locator s)
                     (rc_intent r) fa_id (rc_payment_federation_id r);
        Ok (position, s, (signed, verified))) rows));
      let asking '(position, s, old) :=
        fresh ← request_quote_with_retry lease (Z.of_nat position) (sr_locator s) (rc_intent r)
                  fa_id (quote_attempt_policy (sr_admission s)) (rc_payment_federation_id r)
                  (Some (Some payer));
        mret ((position, old, fresh) : Refreshed) in
      '(_, (unchanged, changed, first_error)) ← with_local ([], [], None)
        (unordered (asking <$> old) (λ result,
          match result with
          | Ok (position, old, fresh) =>
              modify (λ '(r, (unchanged, changed, first_error)),
                if same_terms old.2 fresh.2
                then (r, (unchanged ++ [(position, old, fresh)], changed, first_error))
                else (r, (unchanged, changed ++ [(position, old, fresh)], first_error)))
          | Err e =>
              modify (λ '(r, (unchanged, changed, first_error)),
                (r, (unchanged, changed, Some (default e first_error))))
          | Panic => lift_st (lift Panic)
          end));
      match first_error : option FaError with
      | Some e => throw e
      | None =>
          for_each unchanged (λ '(position, old, fresh),
            r ← get;
            s ← do (lift (rc_seat r position));
            do (stmt (refresh_authorized_quote (rc_formation_id r) (sr_index s) old.1 fresh.1));;
            modify (rc_update_seat position
                      (λ s, sr_set_quote (Some fresh.1) (sr_phase s) s)));;
          for_each changed (λ '(position, old, fresh),
            r ← get;
            s ← do (lift (rc_seat r position));
            do (stmt (clear_quote (rc_formation_id r) (sr_index s) old.1));;
            do (stmt (store_quote (rc_formation_id r) (sr_index s) fresh.1));;
            modify (λ r, rc_update_seat position (sr_set_quote (Some fresh.1) QuoteReady)
                           (invalidate_payment_authorization r)));;
          if bool_decide (changed ≠ [])
          then throw (SelectionReauthorizationRequired QuoteTermsChanged None)
          else mret (foldl (λ v '((position, _), fresh), <[position := Some fresh]> v)
                       (replicate (length (rc_seats r)) None) unchanged)
      end
  end.

(** ** Acquiring seats *)

(** [TerminalSeatOutcome]. *)
Inductive TerminalSeatOutcome := PaymentRejected | OutcomeSeatRefused (failure : MgFailure).
Definition requires_pre_output_reauthorization (started : bool) (o : option TerminalSeatOutcome)
    : bool :=
  negb started && match o with Some (OutcomeSeatRefused _) => true | _ => false end.
Definition into_formation_error (started : bool) (o : TerminalSeatOutcome) : FaError :=
  match o with
  | OutcomeSeatRefused failure =>
      if started then EMg failure
      else SelectionReauthorizationRequired SelectedMgUnavailable (Some failure)
  | PaymentRejected => Payment
  end.

(** The variables [acquire_seats] keeps across its loops. *)
Record Acquisition := {
  aq_recovered : list (option SeatPaymentRecovery);
  aq_error : option FaError;
  aq_outcome : option TerminalSeatOutcome;
  aq_terminal : list (nat * option Z)
}.
Definition aq_fail (e : FaError) (a : Acquisition) : Acquisition :=
  {| aq_recovered := aq_recovered a; aq_error := Some (default e (aq_error a));
     aq_outcome := aq_outcome a; aq_terminal := aq_terminal a |}.
Definition aq_terminate (position : nat) (proof : option Z) (o : TerminalSeatOutcome)
    (a : Acquisition) : Acquisition :=
  {| aq_recovered := aq_recovered a; aq_error := aq_error a;
     aq_outcome := Some (default o (aq_outcome a));
     aq_terminal := aq_terminal a ++ [(position, proof)] |}.
Definition aq_recover (position : nat) (v : SeatPaymentRecovery) (a : Acquisition)
    : Acquisition :=
  {| aq_recovered := <[position := Some v]> (aq_recovered a); aq_error := aq_error a;
     aq_outcome := aq_outcome a; aq_terminal := aq_terminal a |}.
Abbreviation A := (St (ActiveFormationRecovery * Acquisition)).
Definition on_recovery {T} (p : D T) : A T := λ '(r, a),
  pbind (p r) (λ '(r', v), Done ((r', a), v)).
Definition note (f : Acquisition -> Acquisition) : A unit := modify (λ '(r, a), (r, f a)).

(** The checkpoint of an acceptance inside a loop: its failure is a barrier. *)
Definition checkpoint_or_note (position : nat) (a : SeatAcceptance) : A bool := λ '(r, aq),
  pbind (checkpoint_accepted_seat position a r) (λ '(r', v),
    Done (match v with
          | Ok _ => ((r', aq), Ok true)
          | Err e => ((r', aq_fail e aq), Ok false)
          | Panic => ((r', aq), Panic)
          end)).

(** A paid row whose authorized payment the wallet is asked about. *)
Definition recovering_row (r : ActiveFormationRecovery) (reservation : option Z)
    (row : nat * SeatRecovery) : res FaError (option (nat * Z * QuoteTerms)) :=
  let '(position, s) := row in
  if bool_decide (is_Some (sr_seat_id s)) || negb (seat_quote_authorized r s) then Ok None
  else match sr_signed_quote s with
  | None => Ok None
  | Some signed =>
      quote ← verify_quote (Z.of_nat position) signed (sr_locator s) (rc_intent r) fa_id
                (rc_payment_federation_id r);
      if bool_decide (qt_payment quote = None) then Ok None
      else id ← ok_or Storage reservation; Ok (Some (position, id, quote))
  end.
Definition recovering (r : ActiveFormationRecovery) (reservation : option Z)
    : res FaError (list (nat * Z * QuoteTerms)) :=
  rows ← collect (recovering_row r reservation) (positions r);
  Ok (somes rows).

Definition recover_payments (rows : list (nat * Z * QuoteTerms)) : A unit :=
  unordered ((λ '(position, reservation, quote),
      recovered ← wallet_call lease (RecoverSeatPayment reservation quote) (λ x, x);
      mret (position, recovered)) <$> rows)
    (λ result, match result with
     | Ok (position, Rejected proof) =>
         note (aq_terminate position (Some proof) PaymentRejected)
     | Ok (position, recovered) => note (aq_recover position recovered)
     | Err e => note (aq_fail e)
     | Panic => lift_st (lift Panic)
     end).

(** A prepared payment is replayed to its guardian. *)
Definition replaying_row (r : ActiveFormationRecovery)
    (row : nat * option SeatPaymentRecovery)
    : res FaError (option (nat * Locator * SignedQuote * QuoteTerms * PreparedSeatPayment)) :=
  match row with
  | (position, Some (Prepared prepared)) =>
      s ← rc_seat r position;
      signed ← expect (sr_signed_quote s);
      verified ← verify_paid_seat_quote (Z.of_nat position) signed (sr_locator s)
                   (rc_intent r) fa_id (rc_payment_federation_id r);
      Ok (Some (position, sr_locator s, signed, verified, prepared))
  | _ => Ok None
  end.
Definition replaying (r : ActiveFormationRecovery) (recovered : list (option SeatPaymentRecovery))
    : res FaError (list (nat * Locator * SignedQuote * QuoteTerms * PreparedSeatPayment)) :=
  rows ← collect (replaying_row r) (imap pair recovered);
  Ok (somes rows).

(** The outcome of a presentation, in each of the loops. *)
Definition settle_creation (position : nat) (c : SeatCreation) : A bool :=
  match c with
  | CreationAccepted acceptance => checkpoint_or_note position acceptance
  | CreationRefused failure proof =>
      note (aq_terminate position proof (OutcomeSeatRefused failure));; mret true
  end.

Definition replay_payments
    (rows : list (nat * Locator * SignedQuote * QuoteTerms * PreparedSeatPayment)) : A unit :=
  unordered ((λ '(position, locator, signed, verified, prepared),
      client ← connect lease locator;
      creation ← present_seat lease (Z.of_nat position) client fa_id
                   (PresentPaid signed verified prepared);
      mret (position, creation)) <$> rows)
    (λ result, match result with
     | Ok (position, creation) => settle_creation position creation;; mret tt
     | Err e => note (aq_fail e)
     | Panic => lift_st (lift Panic)
     end).

(** The work prepared before the output boundary: rows to fund, and rows to
    present (free, or already accepted). *)
Record Funding := {
  fu_position : nat;
  fu_signed : SignedQuote;
  fu_verified : QuoteTerms;
  fu_reservation : PaymentReservation;
  fu_locator : Locator
}.
Inductive PresentationSource :=
| Existing (acceptance : SeatAcceptance)
| AcquireFree (signed : SignedQuote) (verified : QuoteTerms).
Record Presenting := { pn_position : nat; pn_locator : Locator; pn_source : PresentationSource }.

(** Connect every row that is not terminal. *)
Definition connect_rows (terminal : list nat) : D unit :=
  r ← get;
  let rows := filter (λ '(position, _), position ∉ terminal) (positions r) in
  '(_, first_error) ← with_local None
    (unordered ((λ '(_, s), connect_with_selected_retry lease (sr_locator s)
                              (quote_attempt_policy (sr_admission s))) <$> rows)
      (λ result, match result with
       | Ok _ => mret tt
       | Err e => modify (λ '(r, first_error), (r, Some (default e first_error)))
       | Panic => lift_st (lift Panic)
       end));
  match first_error with Some e => throw e | None => mret tt end.

(** One row of the preparation loop.  [prepare_value_call_budget] renews the
    lease for a row that will be funded. *)
Definition prepare_row (recovered : option SeatPaymentRecovery)
    (refreshed : option (SignedQuote * QuoteTerms)) (reservation : option PaymentReservation)
    (position : nat) : D (option (Funding + Presenting)) :=
  r ← get;
  s ← do (lift (rc_seat r position));
  match sr_seat_id s with
  | Some seat_id =>
      account ← do (lift (expect (sr_guardian_fee_account s)));
      mret (Some (inr {| pn_position := position; pn_locator := sr_locator s;
                         pn_source := Existing {| sa_seat_id := seat_id;
                                                  sa_guardian_fee_account := account |} |}))
  | None =>
      modify (rc_update_seat position (sr_set_phase Acquiring));;
      signed ← do (lift (ok_or Storage (sr_signed_quote s)));
      match recovered with
      | None =>
          verified ← do (lift (verify_free_seat_quote (Z.of_nat position) signed (sr_locator s)
                                 (rc_intent r) fa_id (rc_payment_federation_id r)));
          mret (Some (inr {| pn_position := position; pn_locator := sr_locator s;
                             pn_source := AcquireFree signed verified |}))
      | Some NotStarted =>
          quote ← do (lift (ok_or Storage refreshed));
          reservation ← do (lift (ok_or Storage reservation));
          do (ensure_time;; renew lease;; ensure_time);;
          mret (Some (inl {| fu_position := position; fu_signed := quote.1;
                             fu_verified := quote.2; fu_reservation := reservation;
                             fu_locator := sr_locator s |}))
      | Some _ => throw Storage
      end
  end.

Fixpoint prepare_rows (terminal : list nat) (recovered : list (option SeatPaymentRecovery))
    (refreshed : list (option (SignedQuote * QuoteTerms)))
    (reservation : option PaymentReservation) (rows : list nat)
    : D (list Funding * list Presenting) :=
  match rows with
  | [] => mret ([], [])
  | position :: rest =>
      if bool_decide (position ∈ terminal)
      then prepare_rows terminal recovered refreshed reservation rest
      else
        w ← prepare_row (mjoin (recovered !! position)) (mjoin (refreshed !! position))
              reservation position;
        '(funding, presenting) ← prepare_rows terminal recovered refreshed reservation rest;
        mret (match w with
              | Some (inl f) => (f :: funding, presenting)
              | Some (inr p) => (funding, p :: presenting)
              | None => (funding, presenting)
              end)
  end.

(** The effects of the prepared work: position, row, quote and kind. *)
Definition paid_effects (r : ActiveFormationRecovery) (l : list Funding)
    : res FaError (list (nat * Z * Z * AdmissionEffect)) :=
  collect (λ f, s ← rc_seat r (fu_position f);
                Ok (fu_position f, sr_index s, quote_id (fu_verified f), PaidOutput)) l.
Definition free_effect (r : ActiveFormationRecovery) (p : Presenting)
    : res FaError (option (nat * Z * Z * AdmissionEffect)) :=
  match pn_source p with
  | AcquireFree _ verified =>
      s ← rc_seat r (pn_position p);
      Ok (Some (pn_position p, sr_index s, quote_id verified, FreePresentation))
  | Existing _ => Ok None
  end.
Definition free_effects (r : ActiveFormationRecovery) (l : list Presenting)
    : res FaError (list (nat * Z * Z * AdmissionEffect)) :=
  rows ← collect (free_effect r) l;
  Ok (somes rows).
Definition wave (l : list (nat * Z * Z * AdmissionEffect)) : list (Z * Z * AdmissionEffect) :=
  (λ '(_, index, quote, kind), (index, quote, kind)) <$> l.

Definition authorize_wave (effects : list (nat * Z * Z * AdmissionEffect))
    (provenance : VerifierProvenance) : D unit :=
  match effects with
  | [] => mret tt
  | _ =>
      r ← get;
      do (ensure_time;;
          fenced (record_seat_effects_authorized (rc_formation_id r) (wave effects) provenance
                    lease));;
      for_each effects apply_effect
  end.

(** Consume the admissions of the whole wave before its first effect. *)
Definition cross_boundary (funding : list Funding) (presenting : list Presenting) : D unit :=
  r ← get;
  free ← do (lift (free_effects r presenting));
  paid ← do (lift (paid_effects r funding));
  provenance ← do (ask Provenance);
  if negb (rc_outputs_started r) && bool_decide (funding ≠ []) then
    authorize_wave free provenance;;
    do (ensure_time;;
        fenced (record_payment_outputs_started (rc_formation_id r) provenance lease));;
    modify rc_set_started;;
    for_each paid apply_effect
  else authorize_wave (paid ++ free) provenance.

(** [complete_pending_seat_work] of a funded row. *)
Definition fund_seat (f : Funding) : M SeatCreation :=
  ensure_time;;
  reply ← poll_with_lease lease (CreateSeatPayment (fu_reservation f) (fu_verified f));
  match reply : unit + PreparedSeatPayment with
  | inl _ => fail Payment
  | inr prepared =>
      present_seat lease (Z.of_nat (fu_position f)) (fu_locator f) fa_id
        (PresentPaid (fu_signed f) (fu_verified f) prepared)
  end.

(** Funded rows, one after the other; the first failure ends the loop. *)
Fixpoint fund_seats (l : list Funding) : A unit :=
  match l with
  | [] => mret tt
  | f :: rest =>
      result ← lift_st (attempt (fund_seat f));
      match result with
      | inl e => note (aq_fail e)
      | inr creation =>
          proceed ← settle_creation (fu_position f) creation;
          if proceed : bool then fund_seats rest else mret tt
      end
  end.

(** Free and accepted rows, concurrently. *)
Definition present_row (p : Presenting) : M (nat * SeatCreation * bool) :=
  match pn_source p with
  | Existing acceptance => mret (pn_position p, CreationAccepted acceptance, false)
  | AcquireFree signed verified =>
      creation ← present_seat lease (Z.of_nat (pn_position p)) (pn_locator p) fa_id
                   (PresentFree signed verified);
      mret (pn_position p, creation, true)
  end.
Definition present_seats (l : list Presenting) : A unit :=
  unordered (present_row <$> l)
    (λ result, match result with
     | Ok (position, CreationAccepted acceptance, false) => mret tt
     | Ok (position, creation, _) => settle_creation position creation;; mret tt
     | Err e => note (aq_fail e)
     | Panic => lift_st (lift Panic)
     end).

(** Stop at a barrier error, or at a refusal before the output boundary. *)
Definition barrier : A unit :=
  '(r, a) ← get;
  match aq_error a with
  | Some e => throw e
  | None =>
      match aq_outcome a with
      | Some o =>
          if requires_pre_output_reauthorization (rc_outputs_started r) (Some o)
          then throw (into_formation_error (rc_outputs_started r) o) else mret tt
      | None => mret tt
      end
  end.

(** Release every terminal member, then drop the terminal quotes together. *)
Definition settle_terminal : A unit :=
  '(_, a) ← get;
  for_each (aq_terminal a) (λ '(position, proof),
    on_recovery (release_terminal_quote_reservation position proof));;
  (if bool_decide (aq_terminal a = []) then mret tt
   else on_recovery (clear_terminal_quotes (aq_terminal a).*1));;
  match aq_outcome a with
  | Some o => '(r, _) ← get; throw (into_formation_error (rc_outputs_started r) o)
  | None => mret tt
  end.

(** The reservation the wave is funded from. *)
Definition funding_reservation (held : option PaymentReservation) : D PaymentReservation :=
  r ← get;
  q ← do (lift (recovery_requirements r));
  q ← do (lift (ok_or Storage q));
  match held with
  | Some reservation => mret reservation
  | None => reserve_payment_requirements q
  end.

(** [acquire_seats]; it answers the sessions of every row: its index, the
    connected guardian and the accepted seat. *)
Definition acquire_seats_body : A (list (Z * Locator * Z)) :=
  '(r, _) ← get;
  q ← lift_st (lift (recovery_requirements r));
  held ←
    (match q with
     | Some q =>
         if payments_authorized r q
         then reservation ← on_recovery (reserve_payment_requirements q);
              mret (Some reservation)
         else mret None
     | None => mret None
     end : A (option PaymentReservation));
  '(r, _) ← get;
  rows ← lift_st (lift (recovering r (payment_reservation_id (rc_formation_id r) <$> q)));
  recover_payments rows;;
  '(r, a) ← get;
  rows ← lift_st (lift (replaying r (aq_recovered a)));
  replay_payments rows;;
  barrier;;
  '(r, a) ← get;
  let terminal := (aq_terminal a).*1 in
  let recovered := (λ v : option SeatPaymentRecovery,
                      match v with Some (Prepared _) => None | v => v end) <$> aq_recovered a in
  let needs_funding :=
    existsb (λ '(s, v), bool_decide (sr_seat_id s = None) && not_started v)
      (zip (rc_seats r) recovered) in
  refreshed ←
    (if negb needs_funding then mret (replicate (length (rc_seats r)) None)
     else match rc_payment_federation_id r with
          | None =>
              throw (SelectionReauthorizationRequired PaymentFederationRequired None)
          | Some requested =>
              payer ← lift_st (require_setup_payment_federation lease requested);
              on_recovery (refresh_unstarted_payments recovered payer)
          end : A (list (option (SignedQuote * QuoteTerms))));
  let will_generate := existsb (λ v, bool_decide (is_Some v)) refreshed in
  on_recovery (connect_rows terminal);;
  reservation ←
    (if will_generate
     then reservation ← on_recovery (funding_reservation held); mret (Some reservation)
     else mret None : A (option PaymentReservation));
  '(funding, presenting) ←
    on_recovery (prepare_rows terminal recovered refreshed reservation
                   (seq 0 (length (rc_seats r))));
  on_recovery (cross_boundary funding presenting);;
  fund_seats funding;;
  '(_, a) ← get;
  match aq_error a with
  | Some e => throw e
  | None =>
      present_seats presenting;;
      barrier;;
      settle_terminal;;
      '(r, _) ← get;
      lift_st (lift (collect (λ s, seat_id ← ok_or Storage (sr_seat_id s);
                                   Ok (sr_index s, sr_locator s, seat_id)) (rc_seats r)))
  end.

Definition acquire_seats : D (list (Z * Locator * Z)) :=
  r ← get;
  '(sessions, _) ← with_local
    {| aq_recovered := replicate (length (rc_seats r)) None; aq_error := None;
       aq_outcome := None; aq_terminal := [] |} acquire_seats_body;
  mret sessions.

End Driver.
End Driver.
