(* ===== verification/FaFormation.v ===== *)
(** * DKG, publication and the entry points of formation
      ([crates/fa-client/src/formation.rs], [lib.rs])

    From accepted seats to a formed federation, and the entry points a client
    starts a driver run with: creating a formation from an approved selection,
    resuming it, authorizing payments, applying guardian replacements,
    restarting DKG and abandoning. *)

From S2P Require Import Prelude FaSchema FaQuotes FaStore FaProg FaCalls FaDriver.
From stdpp Require Import base gmap strings list pretty.
From Stdlib Require Import ZArith Lia.
Open Scope Z_scope.

Module Formation.
Import Fa Quotes Store Run Calls Driver.

(** Fedimint invites, seat-binding directories and fee accounts: what the
    driver takes from the Fedimint and domain crates.  An invite is parsed to
    its federation, whether it carries an API secret, and its peers. *)
Record Invite := { iv_federation_id : Z; iv_api_secret : bool; iv_peers : gmap Z string }.
Class Federation := {
  parse_invite : string -> option Invite;
  render_invite : gmap Z string -> Z -> string;
  canonical_bindings : list Z -> option string;
  bindings_verify : Z -> string -> bool;
  fee_recipients : Z -> string -> Account -> Account -> res FaError string;
  formed_fee_account : Z -> option Account;
  verification_fee_account : option Account;
  min_guardian_fee_ppm : option Event -> Z
}.

Section Formation.
Context `{!Crypto, !Policy, !Federation}.
Variable fa_id : Z.

Section Run.
Variable lease : DriverLease.

(** A connected guardian with the seat it accepted: row index, locator, seat. *)
Definition Session : Type := Z * Locator * Z.

(** [seat_sessions]. *)
Definition seat_sessions (r : ActiveFormationRecovery) : D (list Session) :=
  rows ← do (lift (collect (λ s, seat_id ← ok_or Storage (sr_seat_id s);
                                 Ok (sr_index s, sr_locator s, seat_id)) (rc_seats r)));
  unordered ((λ '(_, locator, _), connect_seat_with_retry lease locator) <$> rows)
    (λ result, do (lift result);; mret tt);;
  mret rows.

(** ** DKG *)

(** [get_dkg_code_with_retry]. *)
Fixpoint dkg_code_rounds (rounds : nat) (session : Session) (name recorded : option string)
    : M string :=
  let '(_, client, seat_id) := session in
  ensure_time;;
  construct_signed lease;;
  result ← attempt (mg_call lease client OpGetDkgCode (GetDkgCode client seat_id name) (λ x, x));
  match result, recorded with
  | inr code, _ => mret code
  | inl (EMg {| mf_cause := SeatUnavailable |}), _ =>
      match rounds with
      | O => fail (mg_failure client OpGetDkgCode CauseTimeout)
      | S rounds => dkg_code_rounds rounds session name recorded
      end
  | inl (EMg {| mf_cause := WrongState (StDkgInProcess | StRunning) |}), Some code => mret code
  | inl e, _ => fail e
  end.

(** One guardian's code, checked against the recorded one. *)
Definition dkg_code (name : string) (row : nat * (Session * SeatRecovery))
    : M (nat * string * bool) :=
  let '(position, (session, s)) := row in
  rounds ← ask Rounds;
  code ← dkg_code_rounds rounds session
           (if bool_decide (position = 0%nat) then Some name else None) (sr_guardian_code s);
  match sr_guardian_code s with
  | Some recorded =>
      if bool_decide (recorded = code) then mret (position, code, false)
      else fail InvalidManifoldGuardians
  | None => mret (position, code, true)
  end.

Definition first {S} (e : FaError) : St (S * option FaError) unit :=
  modify (λ '(s, first_error), (s, Some (default e first_error))).

(** The first wave: every guardian's code, recorded as it arrives. *)
Definition collect_codes (sessions : list Session) : D (list string) :=
  r ← get;
  let rows := imap pair (zip sessions (rc_seats r)) in
  '(_, (codes, first_error)) ← with_local (replicate (length sessions) None, None)
    (unordered (dkg_code (in_federation_name (rc_intent r)) <$> rows)
      (λ result, match result with
       | Ok (position, code, new) =>
           (if new : bool then
              modify (λ '(r, l), (rc_update_seat position (sr_set_code code) r, l));;
              '(r, _) ← get;
              s ← lift_st (lift (rc_seat r position));
              lift_st (stmt (record_guardian_code (rc_formation_id r) (sr_index s) code))
            else mret tt);;
           modify (λ '(r, (codes, first_error)),
                     (r, (<[position := Some code]> codes, first_error)))
       | Err e => modify (λ '(r, (codes, first_error)),
                            (r, (codes, Some (default e first_error))))
       | Panic => lift_st (lift Panic)
       end));
  match first_error : option FaError with
  | Some e => throw e
  | None => do (lift (collect (ok_or Storage) codes))
  end.

(** The second wave: a guardian already in DKG or running counts as started. *)
Definition start_dkg (codes : list string) (callback : option Z) (row : nat * Session) : M nat :=
  let '(position, (_, client, seat_id)) := row in
  construct_signed lease;;
  result ← attempt (mg_call lease client OpStartDkg (StartDkg client seat_id codes callback)
                      (λ x, x));
  match result with
  | inr _ | inl (EMg {| mf_cause := WrongState (StDkgInProcess | StRunning) |}) => mret position
  | inl e => fail e
  end.
Definition start_all (sessions : list Session) (codes : list string) : D unit :=
  r ← get;
  '(_, first_error) ← with_local None
    (unordered (start_dkg codes (rc_dkg_completion_callback r) <$> imap pair sessions)
      (λ result, match result with
       | Ok position =>
           modify (λ '(r, l), (rc_update_seat position (sr_set_phase DkgUnderwaySeat) r, l))
       | Err e => first e
       | Panic => lift_st (lift Panic)
       end));
  match first_error with Some e => throw e | None => mret tt end.

(** [service_seat_phase]. *)
Definition service_seat_phase (s : ServiceStatus) : MgCause + SeatPhase :=
  match s with
  | StNew => inr Created
  | StDkgInProcess => inr DkgUnderwaySeat
  | StRunning => inr RunningSeat
  | _ => inl (TerminalStatus s)
  end.

(** [poll_until_running]. *)
Definition seat_status (row : nat * Session) : M (nat * Locator * (ServiceStatus * bool)) :=
  let '(position, (_, client, seat_id)) := row in
  construct_signed lease;;
  status ← mg_call lease client OpGetStatus (GetStatus client seat_id) (λ x, x);
  mret (position, client, status).
Fixpoint poll_rounds (rounds : nat) (sessions : list Session) : D unit :=
  do ensure_time;;
  '(_, running) ← with_local 0%nat
    (unordered (seat_status <$> imap pair sessions)
      (λ result,
        '(position, client, (status, healthy)) ← lift_st (lift result);
        match service_seat_phase status with
        | inl cause => throw (mg_failure client OpGetStatus cause)
        | inr phase =>
            modify (λ '(r, running),
              (rc_update_seat position (sr_set_phase phase) r,
               if bool_decide (status = StRunning) && healthy then S running else running))
        end));
  if bool_decide (running = length sessions) then mret tt
  else match rounds with
       | O => throw Timeout
       | S rounds => poll_rounds rounds sessions
       end.
Definition poll_until_running (sessions : list Session) : D unit :=
  rounds ← do (ask Rounds); poll_rounds rounds sessions.

(** [invite_federation_id] and [combine_seat_invites]. *)
Definition invite_federation_id (invite : string) : res FaError Invite :=
  parsed ← ok_or InvalidManifoldGuardians (parse_invite invite);
  if iv_api_secret parsed then Err InvalidManifoldGuardians else Ok parsed.
Fixpoint combine_loop (invites : list string) (federation : option Z) (peers : gmap Z string)
    : res FaError (option Z * gmap Z string) :=
  match invites with
  | [] => Ok (federation, peers)
  | invite :: rest =>
      parsed ← invite_federation_id invite;
      if negb (default (iv_federation_id parsed) federation =? iv_federation_id parsed)
      then Err InvalidManifoldGuardians
      else if negb (bool_decide (iv_peers parsed ##ₘ peers)) then Err InvalidManifoldGuardians
      else combine_loop rest (Some (default (iv_federation_id parsed) federation))
             (iv_peers parsed ∪ peers)
  end.
Definition combine_seat_invites (invites : list string) : res FaError string :=
  '(federation, peers) ← combine_loop invites None ∅;
  federation ← ok_or Storage federation;
  if negb (bool_decide (dom peers
                        =@{gset Z} list_to_set (seqZ 0 (Z.of_nat (length invites)))))
  then Err InvalidManifoldGuardians
  else Ok (render_invite peers federation).

(** [fetch_agreed_invite]. *)
Definition seat_invite (row : nat * Session) : M (nat * string) :=
  let '(position, (_, client, seat_id)) := row in
  construct_signed lease;;
  invite ← mg_call lease client OpGetInviteCode (GetInviteCode client seat_id) (λ x, x);
  map_err (λ _, mg_failure client OpGetInviteCode InvalidResponse)
    (lift (invite_federation_id invite));;
  mret (position, invite).
Definition fetch_agreed_invite (sessions : list Session) : D string :=
  if bool_decide (sessions = []) then throw InvalidManifoldGuardians
  else
    '(_, invites) ← with_local (replicate (length sessions) None)
      (unordered (seat_invite <$> imap pair sessions)
        (λ result,
          '(position, invite) ← lift_st (lift result);
          modify (λ '(r, invites), (r, <[position := Some invite]> invites))));
    invites ← do (lift (collect (ok_or Storage) invites));
    do (lift (combine_seat_invites invites)).

(** ** Publication *)

(** [assemble_seat_bindings]: attestations in the order they arrive. *)
Definition seat_attestation (row : Session * Account) : M (Z * Z) :=
  let '((_, client, seat_id), expected) := row in
  construct_signed lease;;
  response ← mg_call lease client OpGetPeerAttestation (GetPeerAttestation client seat_id)
               (λ x, x);
  if bool_decide (at_account response = expected)
  then mret (at_attestation response, at_endpoint_proof response)
  else fail (mg_failure client OpGetPeerAttestation InvalidResponse).
Definition assemble_seat_bindings (sessions : list Session) : D (string * list (Z * Z)) :=
  r ← get;
  rows ← do (lift (collect (λ '(session, s),
    expected ← ok_or InvalidManifoldGuardians (sr_guardian_fee_account s);
    Ok (session, expected)) (zip sessions (rc_seats r))));
  '(_, entries) ← with_local []
    (unordered (seat_attestation <$> rows)
      (λ result,
        entry ← lift_st (lift result);
        modify (λ '(r, entries), (r, entries ++ [entry]))));
  bindings ← do (lift (ok_or InvalidManifoldGuardians (canonical_bindings entries.*1)));
  mret (bindings, entries).

(** A consensus read, tried again until the run's deadline. *)
Fixpoint read_consensus (rounds : nat) (invite : string) : M ConsensusSnapshot :=
  ensure_time;;
  result ← attempt (call lease (ReadConsensus invite));
  match result : FaError + (unit + ConsensusSnapshot) with
  | inr (inr snapshot) => mret snapshot
  | inr (inl _) | inl Timeout =>
      match rounds with
      | O => fail Timeout
      | S rounds => read_consensus rounds invite
      end
  | inl e => fail e
  end.

(** The metadata target of a new publication. *)
Definition new_target (sessions : list Session) (invite : string) (config : Z)
    : D FormationMetaTarget :=
  '(bindings, entries) ← assemble_seat_bindings sessions;
  parsed ← do (lift (invite_federation_id invite));
  account ← do (lift (ok_or CapabilityUnavailable (formed_fee_account (iv_federation_id parsed))));
  verification ← do (lift (ok_or CapabilityUnavailable verification_fee_account));
  recipients ← do (lift (fee_recipients config bindings account verification));
  policy ← do (stmt (tx_get d_setup_payment_federations));
  if negb (fee_account_ok account) then throw InvalidIntent
  else if negb (fee_account_ok verification) then throw CapabilityUnavailable
  else mret {| mt_seat_bindings := bindings; mt_binding_entries := entries;
               mt_fa_fee_account := account;
               mt_guardian_verification_fee_account := verification;
               mt_send_ppm := Z.max (min_guardian_fee_ppm policy) 5000;
               mt_recipients := recipients |}.

(** [validate_consensus_metadata_size] and the field readers. *)
Definition FEDERATION_METADATA_OBJECT_MAX_BYTES : Z := 1048576.
Definition metadata_too_large (v : option MetaValue) : bool :=
  match v with Some v => FEDERATION_METADATA_OBJECT_MAX_BYTES <? mv_bytes v | None => false end.
Definition metadata_field (v : option MetaValue) (key : string)
    : res FaError (option string) :=
  match v with
  | None => Ok None
  | Some v =>
      fields ← ok_or InvalidManifoldGuardians (mv_fields v);
      match fields !! key with
      | None => Ok None
      | Some (Some text) => Ok (Some text)
      | Some None => Err InvalidManifoldGuardians
      end
  end.
(** [seat_bindings_match], [guardian_fee_recipients_match] and
    [guardian_fee_rate_matches] against the target. *)
Definition target_matches (snapshot : ConsensusSnapshot) (t : FormationMetaTarget)
    : res FaError bool :=
  bindings ← metadata_field (cs_meta_value snapshot) "fedi:fman_seat_bindings";
  if negb (bool_decide (bindings = Some (mt_seat_bindings t))) then Ok false
  else if negb (bindings_verify (cs_config snapshot) (mt_seat_bindings t))
  then Err InvalidManifoldGuardians
  else
    recipients ← metadata_field (cs_meta_value snapshot) "fedi:guardian_fee_remittance_account";
    if negb (bool_decide (recipients = Some (mt_recipients t))) then Ok false
    else
      rate ← metadata_field (cs_meta_value snapshot) "fedi:guardian_fee_send_ppm";
      Ok (bool_decide (rate = Some (pretty (mt_send_ppm t)))).

(** [snapshot_meta_consensus]: the base a vote is bound to. *)
Definition snapshot_base (snapshot : ConsensusSnapshot) : res FaError (option (Z * Z)) :=
  match cs_meta_value snapshot, cs_meta_revision snapshot with
  | Some v, Some revision => Ok (Some (revision, mv_hash v))
  | None, None => Ok None
  | _, _ => Err InvalidManifoldGuardians
  end.

(** [submit_formation_meta_wave] with the loop over its results. *)
Definition propose_target (base : option (Z * Z)) (t : FormationMetaTarget) (session : Session)
    : M unit :=
  let '(_, client, seat_id) := session in
  construct_signed lease;;
  mg_call lease client OpProposeFormationMeta (ProposeFormationMeta client seat_id base t)
    (λ x, x).
Fixpoint judge_votes (results : list (res FaError unit)) (pending : option FaError)
    : res FaError (option FaError) :=
  match results with
  | [] => Ok pending
  | Ok _ :: rest | Err (EMg {| mf_cause := MetaConsensusChanged |}) :: rest =>
      judge_votes rest pending
  | Err (EMg {| mf_cause := (GuardianVerificationFeeAccountUnavailable
                             | GuardianVerificationFeeAccountMismatch) |} as e) :: _ => Err e
  | Err e :: rest => judge_votes rest (Some (default e pending))
  | Panic :: _ => Panic
  end.

Fixpoint publish_rounds (rounds : nat) (sessions : list Session) (invite : string)
    (t : FormationMetaTarget) (pending : option FaError) : D unit :=
  reads ← do (ask Rounds);
  snapshot ← do (read_consensus reads invite);
  if metadata_too_large (cs_meta_value snapshot) then throw InvalidManifoldGuardians
  else
    matches ← do (lift (target_matches snapshot t));
    r ← get;
    if matches : bool then
      do (ensure_time;; renew lease;; ensure_time;; ensure_time;; renew lease;; ensure_time;;
          stmt (confirm_formation_meta_target (rc_formation_id r)))
    else match pending with
    | Some e => throw e
    | None =>
        base ← do (lift (snapshot_base snapshot));
        '(_, results) ← with_local []
          (unordered (propose_target base t <$> sessions)
            (λ result, modify (λ '(r, results), (r, results ++ [result]))));
        pending ← do (lift (judge_votes results None));
        match rounds with
        | O => throw Timeout
        | S rounds => publish_rounds rounds sessions invite t pending
        end
    end.

(** [publish_seat_bindings]: a new target is recorded before its first vote. *)
Definition publish_seat_bindings (sessions : list Session) (invite : string) : D unit :=
  r ← get;
  t ←
    (match rc_formation_meta_target r with
     | Some t => mret t
     | None =>
         reads ← do (ask Rounds);
         snapshot ← do (read_consensus reads invite);
         t ← new_target sessions invite (cs_config snapshot);
         do (ensure_time;; renew lease;; ensure_time;; ensure_time;; renew lease;; ensure_time;;
             stmt (record_formation_meta_target (rc_formation_id r) t));;
         mret t
     end : D FormationMetaTarget);
  modify (λ r, rc_publish PublishingPhase (rc_action_required r) (rc_invite_code r) (Some t) r);;
  rounds ← do (ask Rounds);
  publish_rounds rounds sessions invite t None.

(** [run_dkg]. *)
Definition run_dkg (sessions : list Session) : D unit :=
  modify (λ r, rc_set_phase PreparingDkg (rc_action_required r) r);;
  codes ← collect_codes sessions;
  start_all sessions codes;;
  modify (λ r, rc_set_phase DkgUnderway (rc_action_required r) r);;
  poll_until_running sessions;;
  invite ← fetch_agreed_invite sessions;
  r ← get;
  modify (λ r, rc_publish (rc_phase r) None (Some invite) (rc_formation_meta_target r) r);;
  do (stmt (record_dkg_complete (rc_formation_id r) invite));;
  modify (λ r, rc_set_phase DkgCompletePhase None r);;
  publish_seat_bindings sessions invite;;
  do (stmt migrate_schema_11;; stmt (load_recovery fa_id));;
  mret tt.

(** [resume_after_dkg]. *)
Definition resume_after_dkg : D unit :=
  r ← get;
  stored ← do (lift (ok_or Storage (rc_invite_code r)));
  sessions ← seat_sessions r;
  poll_until_running sessions;;
  invite ← fetch_agreed_invite sessions;
  a ← do (lift (invite_federation_id stored));
  b ← do (lift (invite_federation_id invite));
  if negb (iv_federation_id a =? iv_federation_id b) then throw InvalidManifoldGuardians
  else
    publish_seat_bindings sessions invite;;
    do (stmt migrate_schema_11;; stmt (load_recovery fa_id));;
    mret tt.

(** ** Driving a formation *)

Definition load : M FaRecovery := stmt migrate_schema_11;; stmt (load_recovery fa_id).
(** [active_recovery]. *)
Definition active_recovery : M ActiveFormationRecovery :=
  recovery ← load;
  match recovery with RecFormation r => mret r | _ => fail NoActiveFormation end.

Definition restore_replacements (released : option ReleasedReservation) : D unit :=
  r ← get;
  do (fenced (restore_provisional_replacements (rc_formation_id r) released lease)).
Definition abandon : D unit :=
  r ← get;
  do (fenced (Store.abandon_formation (rc_formation_id r) lease)).

(** The recovery of an interrupted reservation, at the start of
    [drive_formation_inner]; [true] when the formation was abandoned. *)
Definition recover_reservation : D bool :=
  r ← get;
  q ← do (lift (recovery_requirements fa_id r));
  match q with
  | Some q =>
      if negb (payments_authorized r q) then mret false
      else
        '(id, recovered) ← do (recover_payment_reservation fa_id lease r q);
        if match rc_payment_reservation_id r with
           | Some stored => negb (stored =? id)
           | None => false
           end then throw Storage
        else match recovered, rc_payment_reservation_id r with
        | Some _, _ =>
            do (stmt (record_payment_reservation (rc_formation_id r) id));;
            modify (rc_set_reservation (Some id) false);;
            mret false
        | None, Some _ =>
            if negb (rc_release_intended r) then throw Storage
            else if rc_outputs_started r then
              restore_replacements (Some {| rr_reservation_id := id;
                                            rr_witnesses_absence := true |});;
              fresh ← do active_recovery;
              modify (λ _, fresh);;
              mret false
            else abandon;; mret true
        | None, None => mret false
        end
  | None => mret false
  end.

(** The cap authorizes the first aggregate only. *)
Definition authorize_under_cap : D bool :=
  r ← get;
  q ← do (lift (current_requirements r fa_id));
  match q with
  | None => mret true
  | Some q =>
      if payments_authorized r q then mret true
      else if negb (rc_authorization_recorded r)
              && match in_max_total_msats (rc_intent r) with
                 | Some cap => rq_total_msats q <=? cap
                 | None => false
                 end
      then
        let quotes := (λ s, {| qa_index := pr_index s; qa_quote_id := pr_quote_id s |})
                        <$> rq_seats q in
        do (stmt (Store.authorize_payments (rc_formation_id r) (rq_authorization_id q) quotes));;
        modify (rc_set_auth (Some {| pa_authorization_id := rq_authorization_id q;
                                     pa_quotes := quotes |}) true);;
        mret true
      else if negb (rc_outputs_started r)
      then throw (SelectionReauthorizationRequired QuoteTotalExceedsLimit None)
      else modify (rc_set_phase AwaitingPaymentReadiness (Some (AuthorizePayments q)));;
           mret false
  end.

(** [drive_formation_inner]. *)
Definition drive_formation_inner : D unit :=
  r ← get;
  if phase_dkg_complete (rc_phase r) then resume_after_dkg
  else
    abandoned ← recover_reservation;
    if abandoned : bool then mret tt
    else
      check_live_admissions;;
      r ← get;
      match replacement_requirements (rc_formation_id r) (rc_seats r) with
      | Some q =>
          modify (rc_set_phase AwaitingPaymentReadiness (Some (ReplaceGuardians q)))
      | None =>
          prepare_quotes fa_id lease;;
          authorized ← authorize_under_cap;
          if negb authorized then mret tt
          else
            modify (rc_set_phase AcquiringSeats None);;
            sessions ← acquire_seats fa_id lease;
            run_dkg sessions
      end.

(** [release_and_abandon_pre_output]; [absent] is
    [ReservationCleanup::DefinitivelyAbsent]. *)
Definition release_and_abandon_pre_output (absent : bool) : D unit :=
  r ← get;
  if rc_outputs_started r then throw (AbandonUnavailable PaymentOutputsStarted)
  else if phase_dkg_complete (rc_phase r) then throw (AbandonUnavailable DkgCompleteReason)
  else if absent && bool_decide (is_Some (rc_payment_reservation_id r)) then throw Storage
  else
    q ← do (lift (current_requirements r fa_id));
    (match q with
     | Some q =>
         if negb absent && payments_authorized r q then
           '(id, recovered) ← do (recover_payment_reservation fa_id lease r q);
           match recovered with
           | Some reservation =>
               (if bool_decide (is_Some (rc_payment_reservation_id r)) then
                  do (stmt (record_reservation_release_intent (rc_formation_id r) id));;
                  modify (λ r, rc_set_reservation (rc_payment_reservation_id r) true r)
                else mret tt);;
               do (wallet_call lease (ReleaseReservation reservation) (λ x, x))
           | None =>
               if bool_decide (rc_payment_reservation_id r = Some id)
                  && negb (rc_release_intended r)
               then throw Storage else mret tt
           end
         else if bool_decide (is_Some (rc_payment_reservation_id r)) then throw Storage
         else mret tt
     | None =>
         if bool_decide (is_Some (rc_payment_reservation_id r)) then throw Storage else mret tt
     end : D unit);;
    abandon.

(** [restore_provisional_replacements_after_reauthorization]. *)
Definition restore_after_reauthorization : D unit :=
  r ← get;
  released ←
    (match rc_payment_reservation_id r with
     | None => mret None
     | Some id =>
         q ← do (lift (reserved_payment_requirements r fa_id));
         q ← do (lift (ok_or Storage q));
         if negb (payments_authorized r q)
            || negb (payment_reservation_id (rc_formation_id r) q =? id)
         then throw Storage
         else
           reservation ← reserve_payment_requirements fa_id lease q;
           do (stmt (record_reservation_release_intent (rc_formation_id r) id));;
           modify (λ r, rc_set_reservation (rc_payment_reservation_id r) true r);;
           do (wallet_call lease (ReleaseReservation reservation) (λ x, x));;
           mret (Some {| rr_reservation_id := id; rr_witnesses_absence := false |})
     end : D (option ReleasedReservation));
  restore_replacements released.

(** [drive_formation]; publishing the status after a failure only reloads it. *)
Definition reauthorization (r : res FaError unit) : bool :=
  match r with Err (SelectionReauthorizationRequired _ _) => true | _ => false end.
Definition drive_formation : D unit := λ r,
  pbind (drive_formation_inner r) (λ '(r, result),
    pbind
      (if reauthorization result && rc_outputs_started r
          && existsb sr_replacement_approved (rc_seats r)
       then restore_after_reauthorization r else Done (r, Ok tt))
      (λ '(r, restored),
        match restored with
        | Ok _ =>
            if reauthorization result && negb (rc_outputs_started r) then
              let absent :=
                match result with
                | Err (SelectionReauthorizationRequired SelectedPayerInsufficientFunds _) =>
                    bool_decide (rc_payment_reservation_id r = None)
                | _ => false
                end in
              pbind (release_and_abandon_pre_output absent r) (λ '(r, cleaned),
                Done (r, match cleaned with Ok _ => result | e => e end))
            else
              match result with
              | Err _ => pbind (attempt active_recovery) (λ _, Done (r, result))
              | _ => Done (r, result)
              end
        | e => Done (r, e)
        end)).

End Run.

(** ** Entry points *)

(** The durations of [FormationRunOptions] that reach the lease. *)
Record RunOptions := { ro_lease_duration : Z; ro_lease_renewal_duration : Z }.

(** The frame of every run: acquire the lease, run, and release it; a release
    failure is reported only after a success ([finish_driver_run]). *)
Definition driver_run (options : RunOptions) (p : DriverLease -> M unit) : M unit :=
  now ← ask Now;
  owner ← ask RandomOwner;
  lease ← stmt (acquire_driver_lease now (ro_lease_duration options)
                  (ro_lease_renewal_duration options) owner);
  pbind (p lease) (λ result,
    pbind (stmt (release_driver_lease_owner (lh_owner lease))) (λ released,
      Done (match result with Ok _ => released | e => e end))).

Definition driving (lease : DriverLease) (r : ActiveFormationRecovery) : M unit :=
  pbind (drive_formation lease r) (λ '(_, result), Done result).

(** [ApprovedMgSeat] and the sealed approvals. *)
Record ApprovedSeat := { as_mg_id : Z; as_holder : Z; as_locator : Locator }.
Record SelectionApproval := {
  sl_seats : list ApprovedSeat;
  sl_federation_size : Z;
  sl_fedimintd_versions : VersionRange;
  sl_plan : PlanPreference;
  sl_verifier_provenance : VerifierProvenance;
  sl_valid_until : Z;
  sl_fedimintd_dkg_version : DkgVersion;
  sl_max_total_msats : Z
}.
Record ReplacementApproval := {
  rp_requirements : GuardianReplacementRequirements;
  rp_seats : list ApprovedSeat;
  rp_verifier_provenance : VerifierProvenance;
  rp_valid_until : Z;
  rp_max_total_msats : Z
}.

(** [into_seats_at]. *)
Definition seats_at {A} (valid_until now : Z) (seats : A) : res FaError A :=
  if valid_until <=? now then Err (SelectionReauthorizationRequired PreviewExpired None)
  else Ok seats.

(** [FormationIntent::with_max_total_msats] and [resolve_for_dkg]; the name was
    checked when the intent was built. *)
Definition with_max_total_msats (cap : Z) (i : FormationIntent) : res FaError FormationIntent :=
  if cap =? 0 then Err InvalidIntent
  else Ok {| fi_federation_name := fi_federation_name i;
             fi_federation_size := fi_federation_size i; fi_plan := fi_plan i;
             fi_fedimintd_versions := fi_fedimintd_versions i;
             fi_max_total_msats := Some cap |}.
Definition resolve_for_dkg (i : FormationIntent) (default_name : string) (dkg : DkgVersion)
    : res FaError ResolvedFormationIntent :=
  if negb (is_fedi dkg) || negb (overlaps_dkg (fi_fedimintd_versions i) dkg)
  then Err InvalidIntent
  else Ok {| in_federation_name := default default_name (fi_federation_name i);
             in_federation_size := fi_federation_size i; in_plan := fi_plan i;
             in_fedimintd_versions := fi_fedimintd_versions i;
             in_fedimintd_dkg_version := dkg; in_max_total_msats := fi_max_total_msats i |}.

(** [create_from_selection] before the run guard: the approved seats as initial
    rows, and the capped intent. *)
Definition initial_seats (seats : list ApprovedSeat) (provenance : VerifierProvenance)
    (valid_until : Z) : list InitialSeat :=
  imap (λ i s, {| is_index := Z.of_nat i; is_locator := as_locator s;
                  is_admission := fresh_peer_badge (as_mg_id s) (as_holder s) provenance
                                    valid_until |}) seats.
Definition create_from_selection (intent : FormationIntent) (a : SelectionApproval)
    (payer : option string) (provenance : VerifierProvenance) (now : Z)
    : res FaError (FormationIntent * list InitialSeat) :=
  if negb (Z.of_nat (length (sl_seats a)) =? fi_federation_size intent)
  then Err InvalidManifoldGuardians
  else if negb (sl_federation_size a =? fi_federation_size intent)
          || negb (bool_decide (fi_fedimintd_versions intent = sl_fedimintd_versions a))
          || negb (bool_decide (sl_plan a = fi_plan intent))
          || negb (bool_decide (sl_verifier_provenance a = provenance))
  then Err InvalidIntent
  else
    seats ← seats_at (sl_valid_until a) now (sl_seats a);
    intent ← (match payer with
              | Some _ => with_max_total_msats (sl_max_total_msats a) intent
              | None => Ok intent
              end);
    Ok (intent, initial_seats seats (sl_verifier_provenance a) (sl_valid_until a)).

(** [default_federation_name]. *)
Definition ADJECTIVES : list string :=
  ["Amber"; "Bright"; "Calm"; "Cedar"; "Clear"; "Copper"; "Gentle"; "Golden"; "Kind";
   "Lively"; "Quiet"; "Silver"; "Solar"; "Steady"; "Warm"; "Wild"]%string.
Definition NOUNS : list string :=
  ["Badger"; "Beacon"; "Bison"; "Canyon"; "Falcon"; "Forest"; "Harbor"; "Juniper"; "Meadow";
   "Orchid"; "Otter"; "Raven"; "River"; "Summit"; "Willow"; "Wren"]%string.
Definition default_federation_name (created_at : Z) : string :=
  let first_byte := fa_id / 2 ^ 248 mod 256 in
  let last_byte := fa_id mod 256 in
  let adjective := Z.lxor first_byte (created_at mod 256) mod 16 in
  let noun := Z.lxor last_byte (created_at / 256 mod 256) mod 16 in
  (default EmptyString (ADJECTIVES !! Z.to_nat adjective) +:+ " "
   +:+ default EmptyString (NOUNS !! Z.to_nat noun))%string.

(** [pay_and_create] and [create_without_payer], with their callback
    variants. *)
Definition create (intent : FormationIntent) (a : SelectionApproval) (payer : option string)
    (callback : option Z) (options : RunOptions) : M unit :=
  provenance ← ask Provenance;
  now ← ask Now;
  '(intent, seats) ← lift (create_from_selection intent a payer provenance now);
  driver_run options (λ lease,
    status ← load;
    match status with
    | RecIdle =>
        (match payer with
         | Some requested => require_setup_payment_federation lease requested;; mret tt
         | None => mret tt
         end : M unit);;
        created_at ← ask Now;
        let fid := (encode_canonical_digest fa_id +:+ "-" +:+ pretty (created_at : Z))%string in
        intent ← lift (resolve_for_dkg intent (default_federation_name created_at)
                         (sl_fedimintd_dkg_version a));
        stmt (initialize fa_id fid intent seats payer callback);;
        r ← active_recovery;
        driving lease r
    | _ => fail InvalidIntent
    end).

(** [resume_with_options]; a formed federation is only reported here. *)
Definition resume (options : RunOptions) : M unit :=
  driver_run options (λ lease,
    recovery ← load;
    match recovery with
    | RecIdle => fail NoActiveFormation
    | RecFormation r => driving lease r
    | RecFormed _ => mret tt
    end).

(** [FaClient::authorize_payments]. *)
Definition authorize (authorization_id : Z) (options : RunOptions) : M unit :=
  driver_run options (λ lease,
    r ← active_recovery;
    if negb (rc_outputs_started r) then fail InvalidIntent
    else match rc_action_required r with
    | Some (AuthorizePayments q) =>
        if negb (rq_authorization_id q =? authorization_id) then fail InvalidIntent
        else
          stmt (Store.authorize_payments (rc_formation_id r) authorization_id
            ((λ s, {| qa_index := pr_index s; qa_quote_id := pr_quote_id s |})
               <$> rq_seats q));;
          r ← active_recovery;
          driving lease r
    | _ => fail InvalidIntent
    end).

(** [apply_mg_replacements]. *)
Fixpoint keys_distinct (seats : list Z) (keys : gset Z) : option (gset Z) :=
  match seats with
  | [] => Some keys
  | k :: rest => if bool_decide (k ∈ keys) then None else keys_distinct rest ({[ k ]} ∪ keys)
  end.
Definition checked_replacements (r : ActiveFormationRecovery) (seats : list ApprovedSeat)
    (indices : gset Z) : res FaError unit :=
  ok_or InvalidManifoldGuardians
    (keys_distinct (as_mg_id <$> seats)
       (list_to_set ((λ s, ad_mg_id (sr_admission s)) <$> rc_seats r)));;
  keys ← ok_or Storage
    (keys_distinct ((λ s, service_pubkey (sr_locator s))
                      <$> filter (λ s, sr_index s ∉ indices) (rc_seats r)) ∅);
  ok_or InvalidManifoldGuardians
    (keys_distinct ((λ s, service_pubkey (as_locator s)) <$> seats) keys);;
  Ok tt.
Definition replace (a : ReplacementApproval) (options : RunOptions) : M unit :=
  driver_run options (λ lease,
    r ← active_recovery;
    current ← lift (ok_or InvalidIntent (replacement_requirements (rc_formation_id r)
                                           (rc_seats r)));
    if negb (bool_decide (current = rp_requirements a)) then fail InvalidIntent
    else
      provenance ← ask Provenance;
      if negb (bool_decide (rp_verifier_provenance a = provenance))
      then fail (SelectionReauthorizationRequired VerifierEnvironmentChanged None)
      else
        now ← ask Now;
        seats ← lift (seats_at (rp_valid_until a) now (rp_seats a));
        lift (checked_replacements r seats
                (list_to_set (gs_index <$> gr_seats (rp_requirements a))));;
        stmt (replace_guardians (rc_formation_id r) (rp_requirements a)
          ((λ s, (as_locator s, fresh_peer_badge (as_mg_id s) (as_holder s)
                                  (rp_verifier_provenance a) (rp_valid_until a))) <$> seats)
          (rp_max_total_msats a));;
        r ← active_recovery;
        driving lease r).

(** [FaClient::abandon_formation]. *)
Definition abandon_entry (options : RunOptions) : M unit :=
  driver_run options (λ lease,
    recovery ← load;
    match recovery with
    | RecIdle => fail NoActiveFormation
    | RecFormed _ => fail (AbandonUnavailable DkgCompleteReason)
    | RecFormation r =>
        pbind (release_and_abandon_pre_output lease false r) (λ '(_, result), Done result)
    end).

(** [restart_dkg]: every status is read before the first restart is sent. *)
Definition restart_seat (lease : DriverLease) (codes : list string) (session : Session)
    : M ServiceStatus :=
  let '(_, client, seat_id) := session in
  signed ← ask Sign;
  if negb signed then fail Identity
  else mg_call lease client OpRestartDkg (RestartDkg client seat_id codes) (λ x, x).
Definition restart_check (lease : DriverLease) (session : Session) : M unit :=
  let '(_, client, seat_id) := session in
  signed ← ask Sign;
  if negb signed then fail Identity
  else
    status ← mg_call lease client OpGetStatus (GetStatus client seat_id) (λ x, x);
    match status.1 with
    | StNew | StDkgInProcess => mret tt
    | s => fail (mg_failure client OpRestartDkg (WrongState s))
    end.
Definition restart_body (lease : DriverLease) (r : ActiveFormationRecovery) : D unit :=
  codes ← do (lift (collect (λ s, ok_or InvalidIntent (sr_guardian_code s)) (rc_seats r)));
  sessions ← seat_sessions lease r;
  unordered (restart_check lease <$> sessions) (λ result, do (lift result));;
  unordered (restart_seat lease codes <$> sessions) (λ _, mret tt).
Definition restart_dkg (options : RunOptions) : M unit :=
  driver_run options (λ lease,
    r ← active_recovery;
    if phase_dkg_complete (rc_phase r) || bool_decide (is_Some (rc_action_required r))
    then fail InvalidIntent
    else pbind (restart_body lease r r) (λ '(_, result), Done result)).

(** What a consumer can start. *)
Inductive Entry :=
| PayAndCreate (intent : FormationIntent) (a : SelectionApproval) (payer : option string)
    (callback : option Z) (options : RunOptions)
| Resume (options : RunOptions)
| Authorize (authorization_id : Z) (options : RunOptions)
| Replace (a : ReplacementApproval) (options : RunOptions)
| Abandon (options : RunOptions)
| RestartDkgEntry (options : RunOptions).

Definition body (e : Entry) : Prog unit :=
  pbind
    (match e with
     | PayAndCreate intent a payer callback options => create intent a payer callback options
     | Resume options => resume options
     | Authorize id options => authorize id options
     | Replace a options => replace a options
     | Abandon options => abandon_entry options
     | RestartDkgEntry options => restart_dkg options
     end) (λ _, Done tt).

End Formation.
End Formation.
