(* ===== verification/FaLogic.v ===== *)
(** * Reasoning about driver runs

    [wp] is the weakest precondition of a program over a world (database and
    trace): an invariant [Inv] holds after every step, so a crash anywhere is
    covered, and every call meets its obligation [Gd].  Answers of the ports are
    assumed to satisfy [Hyp].  [still] is the same for programs that leave the
    formation alone: they may be interleaved with anything that keeps [J]. *)

From S2P Require Import Prelude FaSchema FaQuotes FaStore FaProg.
From stdpp Require Import base gmap strings list.
From Stdlib Require Import ZArith Lia.
Open Scope Z_scope.

Module Logic.
Import Fa Quotes Store Run.

(** ** Quiet steps *)

(** Databases that differ at most in the lease and the retained policy. *)
Definition same_formation (d d' : Db) : Prop :=
  d_formation d' = d_formation d ∧ d_seats d' = d_seats d ∧ d_formed d' = d_formed d
  ∧ d_backup_generation d' = d_backup_generation d
  ∧ d_guardian_transfer d' = d_guardian_transfer d.

#[global] Instance same_formation_preorder : PreOrder same_formation.
Proof. split; [by repeat split|]. intros d1 d2 d3 (?&?&?&?&?) (?&?&?&?&?). repeat split; congruence. Qed.

Section Logic.
Context {H : Type}.
Abbreviation World := (Run.World H).
Abbreviation TraceEvent := (Run.TraceEvent H).
Implicit Types (w : World) (tr : list TraceEvent).

(** What the trace says about the wallet: the quotes whose payment was started,
    and the reservations that may be live.  A reservation may be live from the
    moment it is asked for until the wallet reports it absent, refuses it for
    lack of funds or acknowledges its release. *)
Definition paid_by (e : TraceEvent) : list QuoteTerms :=
  match e with ECall (Send (CreateSeatPayment _ t)) _ _ => [t] | _ => [] end.
Definition paid tr : list QuoteTerms := mjoin (paid_by <$> tr).

Definition reservation_step (e : TraceEvent) (live : gset Z) : gset Z :=
  match e with
  | ECall c a _ =>
      match c return Ans c -> gset Z with
      | Send (Reserve id _) => λ _, {[ id ]} ∪ live
      | Recv (RecoverReservation id _) =>
          λ a, match a with Some (inr None) => live ∖ {[ id ]} | _ => live end
      | Recv (Reserve id _) =>
          λ a, match a with
               | Some InsufficientFundsWithoutReservation => live ∖ {[ id ]}
               | _ => live
               end
      | Recv (ReleaseReservation reservation) =>
          λ a, match a with Some (inr tt) => live ∖ {[ rv_id reservation ]} | _ => live end
      | _ => λ _, live
      end a
  | _ => live
  end.
Fixpoint maybe_live tr : gset Z :=
  match tr with [] => ∅ | e :: tr => reservation_step e (maybe_live tr) end.

(** A call that leaves both alone. *)
Definition neutral (c : Ext) : Prop :=
  match c with
  | Send (CreateSeatPayment _ _ | Reserve _ _) => False
  | Recv (RecoverReservation _ _ | Reserve _ _ | ReleaseReservation _) => False
  | _ => True
  end.

Definition later w w' : Prop := ∃ l, w_trace w' = l ++ w_trace w.
#[global] Instance later_preorder : PreOrder later.
Proof.
  split; [by exists []|]. intros w1 w2 w3 [l1 E1] [l2 E2]. exists (l2 ++ l1).
  by rewrite E2, E1, (assoc_L (++)).
Qed.

Definition quiet w w' : Prop :=
  later w w' ∧ same_formation (w_db w) (w_db w')
  ∧ paid (w_trace w') = paid (w_trace w)
  ∧ maybe_live (w_trace w') = maybe_live (w_trace w).
#[global] Instance quiet_preorder : PreOrder quiet.
Proof.
  split; [by repeat split|].
  intros w1 w2 w3 (?&?&?&?) (?&?&?&?).
  split; [by etrans|]. split; [by etrans|]. split; congruence.
Qed.

Lemma quiet_later w w' : quiet w w' → later w w'.
Proof. by intros [? _]. Qed.

Lemma log_later e d w : later w (log e d w).
Proof. by exists [e]. Qed.

Lemma quiet_stmt d d' w : same_formation (w_db w) d' → quiet w (log (EStmt d d') d' w).
Proof. intros ?. split; [apply log_later|]. by split. Qed.

Lemma quiet_call c a w : neutral c → quiet w (log (ECall c a (w_db w)) (w_db w) w).
Proof.
  intros Hn. split; [apply log_later|]. split; [done|].
  split; cbn; destruct c as [r|r| | | | | | | | ]; try done; by destruct r.
Qed.

(** ** Weakest preconditions *)

Context (Inv : World → Prop) (Gd : Ext → Db → Prop)
        (Hyp : ∀ c : Ext, Ans c → list TraceEvent → Prop).

Fixpoint wp {A} (p : Prog A) (Q : A → World → Prop) (w : World) : Prop :=
  match p with
  | Done a => Q a w
  | Stmt t k =>
      (∀ busy : bool, let w' := log (EStmt (w_db w) (w_db w)) (w_db w) w in
                      Inv w' ∧ wp (k (Err (if busy then Busy else Storage))) Q w')
      ∧ let '(d', r) := run_tx t (w_db w) in
        let w' := log (EStmt (w_db w) d') d' w in Inv w' ∧ wp (k r) Q w'
  | Call c k =>
      Gd c (w_db w)
      ∧ ∀ a, Hyp c a (w_trace w) →
             let w' := log (ECall c a (w_db w)) (w_db w) w in Inv w' ∧ wp (k a) Q w'
  end.

Lemma wp_weaken {A} (p : Prog A) (Q Q' : A → World → Prop) w :
  wp p Q w → (∀ a w', later w w' → Q a w' → Q' a w') → wp p Q' w.
Proof.
  revert w. induction p as [a|B t k IH|c k IH]; cbn; intros w Hp HQ.
  - by apply HQ.
  - destruct Hp as [Hl Hr]. split.
    + intros busy. destruct (Hl busy) as [HI Hk]. split; [done|].
      eapply IH; [done|]. intros a w' Hw'. apply HQ. etrans; [apply log_later|done].
    + destruct (run_tx t (w_db w)) as [d' r]. destruct Hr as [HI Hk]. split; [done|].
      eapply IH; [done|]. intros a w' Hw'. apply HQ. etrans; [apply log_later|done].
  - destruct Hp as [HG Hk]. split; [done|]. intros a Ha.
    destruct (Hk a Ha) as [HI Hk']. split; [done|].
    eapply IH; [done|]. intros a' w' Hw'. apply HQ. etrans; [apply log_later|done].
Qed.

Lemma wp_inv {A} (p : Prog A) (Q : A → World → Prop) w :
  Inv w → wp p Q w → wp p (λ a w', Q a w' ∧ Inv w') w.
Proof.
  revert w. induction p as [a|B t k IH|c k IH]; cbn; intros w HI Hp; [done| |].
  - destruct Hp as [Hl Hr]. split.
    + intros busy. destruct (Hl busy). eauto.
    + destruct (run_tx t (w_db w)) as [d' r]. destruct Hr. eauto.
  - destruct Hp as [Hg Hk]. split; [done|]. intros a Ha. destruct (Hk a Ha). eauto.
Qed.

Lemma wp_pbind {A B} (p : Prog A) (f : A → Prog B) Q w :
  wp p (λ a w', wp (f a) Q w') w → wp (pbind p f) Q w.
Proof.
  revert w. induction p as [a|C t k IH|c k IH]; cbn; intros w Hp; [done| |].
  - destruct Hp as [Hl Hr]. split.
    + intros busy. destruct (Hl busy). eauto.
    + destruct (run_tx t (w_db w)). destruct Hr. eauto.
  - destruct Hp as [HG Hk]. split; [done|]. intros a Ha. destruct (Hk a Ha). eauto.
Qed.

(** Results of the two monads. *)
Definition post {A} (Q : A → World → Prop) (E : FaError → World → Prop)
    (r : res FaError A) w : Prop :=
  match r with Ok a => Q a w | Err e => E e w | Panic => True end.
Definition post_st {S A} (Q : A → S → World → Prop) (E : FaError → S → World → Prop)
    (x : S * res FaError A) w : Prop :=
  match x.2 with Ok a => Q a x.1 w | Err e => E e x.1 w | Panic => True end.

Lemma wp_bind_M {A B} (p : M A) (f : A → M B) Q E w :
  wp p (post (λ a w', wp (f a) (post Q E) w') E) w → wp (p ≫= f : M B) (post Q E) w.
Proof.
  intros Hp. unfold mbind, M_bind. apply wp_pbind. eapply wp_weaken; [done|].
  intros [a|e|] w' _ Hw'; exact Hw'.
Qed.

Lemma wp_bind_St {S A B} (p : St S A) (f : A → St S B) Q E s w :
  wp (p s) (post_st (λ a s' w', wp (f a s') (post_st Q E) w') E) w →
  wp ((p ≫= f : St S B) s) (post_st Q E) w.
Proof.
  intros Hp. unfold mbind, St_bind. apply wp_pbind. eapply wp_weaken; [done|].
  intros [s' [a|e|]] w' _ Hw'; exact Hw'.
Qed.

Lemma wp_lift_st {S A} (p : M A) Q E (s : S) w :
  wp p (post (λ a w', Q a s w') (λ e w', E e s w')) w → wp (lift_st p s) (post_st Q E) w.
Proof.
  intros Hp. apply wp_pbind. eapply wp_weaken; [done|]. by intros [] w' _ Hw'.
Qed.

Lemma wp_statement {A} (t : FaTx A) Q E w :
  Inv (log (EStmt (w_db w) (w_db w)) (w_db w) w) →
  (∀ e, e = Busy ∨ e = Storage →
        E e (log (EStmt (w_db w) (w_db w)) (w_db w) w)) →
  (∀ e, t (w_db w) = Err e → E e (log (EStmt (w_db w) (w_db w)) (w_db w) w)) →
  (∀ d' a, t (w_db w) = Ok (d', a) →
     Inv (log (EStmt (w_db w) d') d' w) ∧ Q a (log (EStmt (w_db w) d') d' w)) →
  wp (stmt t) (post Q E) w.
Proof.
  intros HI HE Herr Hok. split.
  - intros busy. split; [done|]. cbn. apply HE. destruct busy; auto.
  - unfold run_tx. destruct (t (w_db w)) as [[d' a]|e|]; cbn; [by apply Hok| |done].
    split; [done|by apply Herr].
Qed.

(** ** Soundness

    What a client does in every reachable state, for environments whose answers
    are [fair]. *)
Section Soundness.
Context (body : H → Prog unit) (HypStart : H → Prop).

Fixpoint fair tr : Prop :=
  match tr with
  | [] => True
  | e :: tr =>
      match e with ECall c a _ => Hyp c a tr | EStart h => HypStart h | _ => True end ∧ fair tr
  end.
Definition guarded (e : TraceEvent) : Prop :=
  match e with ECall c _ d => Gd c d | _ => True end.

Hypothesis Inv_quiet : ∀ w w', quiet w w' → Inv w → Inv w'.
Hypothesis body_ok : ∀ h w, Inv w → EStart h ∈ w_trace w → HypStart h →
  wp (body h) (λ _ _, True) w.

Lemma quiet_silent e d w :
  same_formation (w_db w) d → paid_by e = [] → (∀ live, reservation_step e live = live) →
  quiet w (log e d w).
Proof.
  intros Hd Hp Hs. split; [apply log_later|]. split; [done|]. split; cbn.
  - unfold paid. cbn. by rewrite Hp.
  - apply Hs.
Qed.

Lemma wp_act c s s' : act body c s = Some s' → Inv (c_world s) →
  (∀ p, c_running s = Some p → wp p (λ _ _, True) (c_world s)) →
  fair (w_trace (c_world s')) →
  (∃ l, w_trace (c_world s') = l ++ w_trace (c_world s) ∧ Forall guarded l)
  ∧ Inv (c_world s')
  ∧ (∀ p, c_running s' = Some p → wp p (λ _ _, True) (c_world s')).
Proof.
  destruct s as [w running]. cbn. intros Hact HI Hwp Hfair.
  assert (Hq : ∀ e d, same_formation (w_db w) d → paid_by e = [] →
    (∀ live, reservation_step e live = live) → Inv (log e d w)).
  { intros e d ???. eapply Inv_quiet; [by apply quiet_silent|done]. }
  destruct c; destruct running as [p|]; try (destruct p as [u|B t k|c k]); cbn in Hact;
    simplify_eq; cbn in *.
  - split; [exists [EStart h]; split; [done|by repeat constructor]|].
    destruct Hfair as [Hh _]. split; [by apply Hq|]. intros p [= <-].
    apply body_ok; [by apply Hq|by left|done].
  - destruct (Hwp _ eq_refl) as [_ Hr]. destruct (run_tx t (w_db w)) as [d r] eqn:Ht.
    simplify_eq. cbn. destruct Hr as [HI' Hk].
    split; [eexists [_]; split; [done|by repeat constructor]|]. split; [done|].
    by intros p [= <-].
  - destruct (Hwp _ eq_refl) as [Hl _]. destruct (Hl busy) as [HI' Hk].
    split; [eexists [_]; split; [done|by repeat constructor]|]. split; [done|].
    by intros p [= <-].
  - destruct (Hwp _ eq_refl) as [HG Hk]. destruct Hfair as [Ha _].
    destruct (Hk (o c) Ha) as [HI' Hk'].
    split; [eexists [_]; split; [done|by repeat constructor]|]. split; [done|].
    by intros p [= <-].
  - split; [by exists []|]. by split.
  - split; [exists [ECrash]; split; [done|by repeat constructor]|].
    split; [by apply Hq|done].
  - split; [exists [ECrash]; split; [done|by repeat constructor]|].
    split; [by apply Hq|done].
  - split; [exists [ECrash]; split; [done|by repeat constructor]|].
    split; [by apply Hq|done].
  - split; [exists [ECrash]; split; [done|by repeat constructor]|].
    split; [by apply Hq|done].
  - split; [eexists [_]; split; [done|by repeat constructor]|].
    split; [by apply Hq|done].
Qed.

Lemma fair_app l tr : fair (l ++ tr) → fair tr.
Proof. induction l as [|e l IH]; cbn; [done|]. intros [_ ?]. by apply IH. Qed.

Lemma sound d s : reachable body d s → Inv {| w_db := d; w_trace := [] |} →
  fair (w_trace (c_world s)) →
  Inv (c_world s) ∧ Forall guarded (w_trace (c_world s))
  ∧ (∀ p, c_running s = Some p → wp p (λ _ _, True) (c_world s)).
Proof.
  intros Hr HI. induction Hr as [|c s s' Hr IH Hact]; intros Hfair; [by repeat constructor|].
  assert (Hext : ∃ l, w_trace (c_world s') = l ++ w_trace (c_world s)).
  { destruct s as [w running]. cbn in *.
    destruct c; destruct running as [p|]; try (destruct p as [u|B t k|c k]); cbn in Hact;
      try (destruct (run_tx t (w_db w)) as [d' r]); simplify_eq; cbn;
      by first [exists []; done|eexists [_]; done]. }
  destruct Hext as [l0 Hl0].
  destruct IH as (HI' & Hg & Hwp); [rewrite Hl0 in Hfair; by eapply fair_app|].
  destruct (wp_act _ _ _ Hact HI' Hwp Hfair) as ((l & Hl & Hgl) & HI2 & Hwp2).
  split; [done|]. split; [|done]. rewrite Hl. by apply Forall_app.
Qed.

End Soundness.

(** ** Still programs *)

Context (J : World → Prop).

Fixpoint still {A} (R : A → World → Prop) (p : Prog A) (w : World) : Prop :=
  match p with
  | Done a => R a w
  | Stmt t k => ∀ w', later w w' → J w' →
      (∀ busy : bool, still R (k (Err (if busy then Busy else Storage)))
                        (log (EStmt (w_db w') (w_db w')) (w_db w') w'))
      ∧ let '(d', r) := run_tx t (w_db w') in
        same_formation (w_db w') d' ∧ still R (k r) (log (EStmt (w_db w') d') d' w')
  | Call c k => ∀ w', later w w' → J w' →
      neutral c ∧ Gd c (w_db w')
      ∧ ∀ a, Hyp c a (w_trace w') → still R (k a) (log (ECall c a (w_db w')) (w_db w') w')
  end.

(** Facts that stay true as the trace grows. *)
Definition stable {A} (R : A → World → Prop) : Prop :=
  ∀ a w w', later w w' → R a w → R a w'.

Lemma still_later {A} (R : A → World → Prop) (p : Prog A) w w' :
  stable R → later w w' → still R p w → still R p w'.
Proof.
  intros HR Hw. destruct p as [a|B t k|c k]; cbn.
  - by apply HR.
  - intros Hp w2 Hw2. apply Hp. by etrans.
  - intros Hp w2 Hw2. apply Hp. by etrans.
Qed.

Lemma still_mono {A} (R R' : A → World → Prop) (p : Prog A) w :
  (∀ a w', later w w' → R a w' → R' a w') → still R p w → still R' p w.
Proof.
  revert w. induction p as [a|B t k IH|c k IH]; cbn; intros w HR Hp.
  - by apply HR.
  - intros w' Hw' HJ. destruct (Hp w' Hw' HJ) as [Hl Hr]. split.
    + intros busy. apply IH; [|apply Hl].
      intros a w2 Hw2. apply HR. etrans; [done|]. etrans; [apply log_later|done].
    + destruct (run_tx t (w_db w')). destruct Hr as [? Hr]. split; [done|].
      apply IH; [|done].
      intros a w2 Hw2. apply HR. etrans; [done|]. etrans; [apply log_later|done].
  - intros w' Hw' HJ. destruct (Hp w' Hw' HJ) as (?&?&Hk). split_and!; [done..|].
    intros a Ha. apply IH; [|by apply Hk].
    intros a' w2 Hw2. apply HR. etrans; [done|]. etrans; [apply log_later|done].
Qed.

Lemma still_pbind {A B} (R : A → World → Prop) (R' : B → World → Prop) p (f : A → Prog B) w :
  still R p w → (∀ a w', later w w' → R a w' → still R' (f a) w') → still R' (pbind p f) w.
Proof.
  revert w. induction p as [a|C t k IH|c k IH]; cbn; intros w Hp Hf.
  - by apply Hf.
  - intros w' Hw' HJ. destruct (Hp w' Hw' HJ) as [Hl Hr]. split.
    + intros busy. apply IH; [apply Hl|].
      intros a w2 Hw2. apply Hf. etrans; [done|]. etrans; [apply log_later|done].
    + destruct (run_tx t (w_db w')). destruct Hr as [? Hr]. split; [done|].
      apply IH; [done|].
      intros a w2 Hw2. apply Hf. etrans; [done|]. etrans; [apply log_later|done].
  - intros w' Hw' HJ. destruct (Hp w' Hw' HJ) as (?&?&Hk). split_and!; [done..|].
    intros a Ha. apply IH; [by apply Hk|].
    intros a' w2 Hw2. apply Hf. etrans; [done|]. etrans; [apply log_later|done].
Qed.

Lemma still_bind_M {A B} (R : A → World → Prop) (R' : B → World → Prop) E (p : M A)
    (f : A → M B) w :
  still (post R E) p w →
  (∀ a w', later w w' → R a w' → still (post R' E) (f a) w') →
  still (post R' E) (p ≫= f : M B) w.
Proof.
  intros Hp Hf. unfold mbind, M_bind. eapply still_pbind; [done|].
  intros [a|e|] w' Hw' Ha; cbn; [by apply Hf|done|done].
Qed.

(** A still program run on its own, when [J] survives quiet steps. *)
Hypothesis J_inv : ∀ w, J w → Inv w.
Hypothesis J_quiet : ∀ w w', quiet w w' → J w → J w'.

Lemma wp_still {A} (R : A → World → Prop) p (Q : A → World → Prop) w :
  still R p w → J w → (∀ a w', quiet w w' → J w' → R a w' → Q a w') → wp p Q w.
Proof.
  revert w. induction p as [a|B t k IH|c k IH]; cbn; intros w Hp HJ HQ.
  - by apply HQ.
  - destruct (Hp w (reflexivity w) HJ) as [Hl Hr].
    assert (Hq0 : quiet w (log (EStmt (w_db w) (w_db w)) (w_db w) w)) by by apply quiet_stmt.
    split.
    + intros busy. split; [by eapply J_inv, J_quiet|].
      apply IH; [done|by eapply J_quiet|]. intros a w' Hw'. apply HQ. by etrans.
    + destruct (run_tx t (w_db w)) as [d' r]. destruct Hr as [Hsame Hr].
      assert (Hq : quiet w (log (EStmt (w_db w) d') d' w)) by by apply quiet_stmt.
      split; [by eapply J_inv, J_quiet|].
      apply IH; [done|by eapply J_quiet|]. intros a w' Hw'. apply HQ. by etrans.
  - destruct (Hp w (reflexivity w) HJ) as (Hn & HG & Hk). split; [done|]. intros a Ha.
    assert (Hq : quiet w (log (ECall c a (w_db w)) (w_db w) w)) by by apply quiet_call.
    split; [by eapply J_inv, J_quiet|].
    apply IH; [by apply Hk|by eapply J_quiet|]. intros a' w' Hw'. apply HQ. by etrans.
Qed.

(** ** Sets of futures

    Every future carries a tag; [K] relates the loop's variables to the tags
    still outstanding. *)
Lemma elem_of_insert_inv {X} (l : list X) i x y : y ∈ <[i:=x]> l → y = x ∨ y ∈ l.
Proof.
  intros [j Hj]%list_elem_of_lookup_1. destruct (decide (i = j)) as [->|].
  - destruct (decide (j < length l)%nat) as [Hlt|Hge].
    + rewrite list_lookup_insert_eq in Hj by done. left. by simplify_eq.
    + rewrite list_insert_ge in Hj by lia. right. by eapply list_elem_of_lookup_2.
  - rewrite list_lookup_insert_ne in Hj by done. right. by eapply list_elem_of_lookup_2.
Qed.

Section Unordered.
Context {S B T : Type}.
Context (R : T → B → World → Prop) (K : list T → S → World → Prop)
        (E : FaError → S → World → Prop) (handle : B → St S unit).
Hypothesis R_stable : ∀ t, stable (R t).
Hypothesis K_quiet : ∀ l s w w', quiet w w' → K l s w → K l s w'.
Hypothesis K_J : ∀ l s w, K l s w → J w.
Hypothesis handle_ok : ∀ pre t rest b s w, K (pre ++ t :: rest) s w → R t b w →
  wp (handle b s) (post_st (λ _, K (pre ++ rest)) E) w.

Lemma wp_drain (l : list (T * Prog B)) s w :
  (∀ t p, (t, p) ∈ l → still (R t) p w) → K l.*1 s w →
  wp (drain l.*2 handle s) (post_st (λ _, K []) E) w.
Proof.
  revert s w. induction l as [|[t p] l IH]; cbn; intros s w Hl HK; [done|].
  apply wp_pbind. eapply wp_still; [apply (Hl t p); left|by eapply K_J|].
  intros b w1 Hq HJ Hb. apply wp_bind_St.
  eapply wp_weaken.
  - apply (handle_ok [] t l.*1 b); [by eapply K_quiet|done].
  - intros [s' [[]|e|]] w2 Hw2 HK2; cbn in *; [|done|done].
    apply IH; [|done]. intros t' p' Hin. eapply still_later; [apply R_stable| |].
    + etrans; [by apply quiet_later|done].
    + apply Hl. by right.
Qed.

Lemma wp_interleave schedule (l : list (T * Prog B)) s w :
  (∀ t p, (t, p) ∈ l → still (R t) p w) → K l.*1 s w →
  wp (interleave schedule l.*2 handle s) (post_st (λ _, K []) E) w.
Proof.
  revert l s w. induction schedule as [|i schedule IH]; cbn; intros l s w Hl HK.
  { by apply wp_drain. }
  rewrite list_lookup_fmap.
  destruct (l !! i) as [[t p]|] eqn:Hi; cbn; [|by apply IH].
  assert (Hin : (t, p) ∈ l) by by eapply list_elem_of_lookup_2.
  assert (Hi1 : l.*1 !! i = Some t) by by rewrite list_lookup_fmap, Hi.
  assert (Hp := Hl t p Hin). assert (HJ := K_J _ _ _ HK).
  destruct p as [b|C tx k|c k]; cbn in Hp.
  - apply wp_pbind. eapply wp_weaken.
    + assert (Hsplit : l.*1 = take i l.*1 ++ t :: drop (Datatypes.S i) l.*1)
        by by rewrite take_drop_middle.
      rewrite Hsplit in HK.
      by apply (handle_ok (take i l.*1) t (drop (Datatypes.S i) l.*1) b).
    + intros [s' [[]|e|]] w2 Hw2 HK2; cbn in *; [|done|done].
      rewrite <- list_fmap_delete. apply IH.
      * intros t' p' Hin'. eapply still_later; [apply R_stable|done|].
        apply Hl. by eapply list_elem_of_delete_inv.
      * rewrite list_fmap_delete. by rewrite delete_take_drop.
  - destruct (Hp w (reflexivity w) HJ) as [Hlose Hrun].
    assert (Hrest : ∀ w' q, quiet w w' → still (R t) q w' →
      wp (interleave schedule (<[i:=q]> l.*2) handle s) (post_st (λ _, K []) E) w').
    { intros w' q Hq Hstill.
      replace (<[i:=q]> l.*2) with (<[i:=(t, q)]> l).*2 by by rewrite list_fmap_insert.
      apply IH.
      - intros t' p' Hin'. apply elem_of_insert_inv in Hin' as [[= -> ->]|Hin']; [done|].
        eapply still_later; [apply R_stable|by apply quiet_later|by apply Hl].
      - rewrite list_fmap_insert. cbn. rewrite list_insert_id; [by eapply K_quiet|done]. }
    assert (Hq0 : quiet w (log (EStmt (w_db w) (w_db w)) (w_db w) w)) by by apply quiet_stmt.
    split.
    + intros busy. split; [by eapply J_inv, J_quiet|]. by apply Hrest.
    + destruct (run_tx tx (w_db w)) as [d' r]. destruct Hrun as [Hsame Hrun].
      assert (Hq : quiet w (log (EStmt (w_db w) d') d' w)) by by apply quiet_stmt.
      split; [by eapply J_inv, J_quiet|]. by apply Hrest.
  - destruct (Hp w (reflexivity w) HJ) as (Hn & HG & Hk). split; [done|]. intros a Ha.
    assert (Hq : quiet w (log (ECall c a (w_db w)) (w_db w) w)) by by apply quiet_call.
    split; [by eapply J_inv, J_quiet|].
    replace (<[i:=k a]> l.*2) with (<[i:=(t, k a)]> l).*2 by by rewrite list_fmap_insert.
    apply IH.
    + intros t' p' Hin'. apply elem_of_insert_inv in Hin' as [[= -> ->]|Hin'];
        [by apply Hk|].
      eapply still_later; [apply R_stable|by apply quiet_later|by apply Hl].
    + rewrite list_fmap_insert. cbn. rewrite list_insert_id; [by eapply K_quiet|done].
Qed.

End Unordered.
End Logic.
End Logic.
