(* ===== verification/FaInvariant.v ===== *)
(** * The invariant of a federation assembler and the obligations of its calls

    [Wf] is what the formation record and its rows satisfy between any two
    transactions; [Ghost] ties them to the trace: what was paid, which wallet
    reservations may be live, who authorized the aggregate.  [allowed] is what a
    call to a port requires of the database, [Answers] what the ports document
    about their answers, and [Mirror] the agreement of the driver's recovery with
    the store. *)

From S2P Require Import Prelude FaSchema FaQuotes FaStore FaProg FaCalls FaDriver FaFormation FaLogic.
From stdpp Require Import base gmap strings list.
From Stdlib Require Import ZArith Lia.
Open Scope Z_scope.

Module Inv.
Import Fa Quotes Store Run Calls Driver Formation Logic.

Abbreviation Event := (Run.TraceEvent Entry).
Abbreviation Trace := (list Event).
Abbreviation FaWorld := (Run.World Entry).

(** ** The trace *)

(** The refund issuances the wallet prepared. *)
Definition refund_by (e : Event) : list RefundIssuance :=
  match e with
  | ECall c a _ =>
      match c return Ans c -> list RefundIssuance with
      | Recv (PrepareQuoteRefund _ _) =>
          λ a, match a with Some (inr refund) => [refund] | _ => [] end
      | _ => λ _, []
      end a
  | _ => []
  end.
Definition refunds (tr : Trace) : list RefundIssuance := mjoin (refund_by <$> tr).

Section Invariant.
Context `{!Crypto, !Policy, !Federation}.
Variable fa_id : Z.

(** The wallet proved a payment terminal: it was rejected, or the issuer signed
    a refusal whose refund settled.  The proof then released its member. *)
Definition terminal_proof (t : QuoteTerms) (proof : Z) (tr : Trace) : Prop :=
  (∃ id d, ECall (Recv (RecoverSeatPayment id t)) (Some (inr (Rejected proof))) d ∈ tr)
  ∨ ∃ locator q signatures response context refund d d',
      sq_terms q = t
      ∧ ECall (Recv (CreateSeat locator fa_id q signatures)) (Some (inr response)) d ∈ tr
      ∧ response_verifies (service_pubkey locator) response = true
      ∧ sp_quote_id response = quote_id t
      ∧ sp_outcome response = SeatRefused (Some refund)
      ∧ ECall (Recv (SettleSeatRefund context refund)) (Some (inr proof)) d' ∈ tr.
Definition terminated (t : QuoteTerms) (tr : Trace) : Prop :=
  ∃ proof d, terminal_proof t proof tr
             ∧ ECall (Recv (ReleaseSeatReservation proof)) (Some (inr tt)) d ∈ tr.

(** The consumer authorized this aggregate explicitly. *)
Definition explicit (a : StoredPaymentAuthorization) (tr : Trace) : Prop :=
  ∃ options, EStart (Authorize (pa_authorization_id a) options) ∈ tr.

(** ** Rows *)

Definition row_recovery (s : StoredSeat) : SeatRecovery := seat_recovery Initialized s.

(** A persisted quote: it verifies for its row, and a [u16] number of such
    prices adds up within [u64]. *)
Definition quote_ok (f : StoredFormation) (s : StoredSeat) (q : SignedQuote) : Prop :=
  (∀ index, verify_quote index q (ss_locator s) (sf_intent f) fa_id
              (sf_payment_federation_id f) = Ok (sq_terms q))
  ∧ qt_price_msats (sq_terms q) * u16_max <= u64_max.

(** What [validate_formation_progress] checks of a row: its optional parts, and
    the quote its authorized effect is bound to. *)
Record Consistent (s : StoredSeat) : Prop := {
  co_previous : ss_replacement_for s = None →
    ss_previous_locator s = None ∧ ss_replacement_approved s = false;
  co_approved : ss_replacement_approved s = true →
    is_Some (ss_previous_locator s) ∧ ad_state (ss_admission s) = Fresh;
  co_quoted : is_Some (ss_signed_quote s) → is_Some (ss_replacement_for s) →
    ss_replacement_approved s = true;
  co_accepted : is_Some (ss_seat_id s) → ss_replacement_for s = None;
  co_kept : is_Some (ss_seat_id s) → is_Some (ss_signed_quote s);
  co_code : is_Some (ss_guardian_code s) → is_Some (ss_seat_id s);
  co_account : is_Some (ss_seat_id s) ↔ is_Some (ss_guardian_fee_account s);
  co_fee : ∀ a, ss_guardian_fee_account s = Some a → fee_account_ok a = true
}.

Definition EffectOk (started : bool) (s : StoredSeat) : Prop :=
  match ad_state (ss_admission s) with
  | Fresh => ss_seat_id s = None
  | EffectAuthorized quote kind =>
      match ss_signed_quote s with
      | Some q => quote_id (sq_terms q) = quote ∧ effect_of (sq_terms q) = kind
      | None => ss_replacement_for s = Some quote
      end ∧ (kind = PaidOutput → started = true)
  end.

Record RowOk (f : StoredFormation) (i : Z) (s : StoredSeat) : Prop := {
  ro_index : ss_index s = i;
  ro_quote : ∀ q, ss_signed_quote s = Some q → quote_ok f s q;
  ro_effect : EffectOk (sf_outputs_started f) s;
  ro_consistent : Consistent s;
  ro_previous : ss_replacement_for s = None → ss_previous_mg_id s = None
}.

(** The row of index [i] is a member of the aggregate. *)
Definition member (a : StoredPaymentAuthorization) (i : nat) (q : SignedQuote) : Prop :=
  {| qa_index := Z.of_nat i; qa_quote_id := quote_id (sq_terms q) |} ∈ pa_quotes a.

Record AuthOk (f : StoredFormation) (rows : list StoredSeat) (a : StoredPaymentAuthorization)
    : Prop := {
  ao_recorded : sf_authorization_recorded f = true;
  ao_some : pa_quotes a ≠ [];
  ao_quote : ∀ m, m ∈ pa_quotes a → ∃ i s q,
    qa_index m = Z.of_nat i ∧ rows !! i = Some s ∧ ss_signed_quote s = Some q
    ∧ qa_quote_id m = quote_id (sq_terms q) ∧ is_Some (qt_payment (sq_terms q));
  ao_complete : ∀ i s, rows !! i = Some s →
    is_Some (ss_seat_id s) ∨ is_Some (ss_signed_quote s);
  ao_covers : ∀ i s q, rows !! i = Some s → ss_seat_id s = None →
    ss_signed_quote s = Some q → is_Some (qt_payment (sq_terms q)) → member a i q
}.

Definition created (rows : list StoredSeat) : Prop := Forall (λ s, is_Some (ss_seat_id s)) rows.
Definition phase_ok (f : StoredFormation) (rows : list StoredSeat) : Prop :=
  match sf_phase f with
  | Initialized => created_count rows = 0
  | SeatsPartiallyCreated => 0 < created_count rows < sf_seat_count f
  | _ => created_count rows = sf_seat_count f
  end.

(** Distinct badge holders, identities and service keys. *)
Record Distinct (rows : list StoredSeat) : Prop := {
  di_holders : ∀ i j s s' h, rows !! i = Some s → rows !! j = Some s' →
    ad_holder (ss_admission s) = Some h → ad_holder (ss_admission s') = Some h → i = j;
  di_mg_ids : ∀ i j s s', rows !! i = Some s → rows !! j = Some s' →
    ad_mg_id (ss_admission s) = ad_mg_id (ss_admission s') → i = j;
  di_keys : ∀ i j s s', rows !! i = Some s → rows !! j = Some s' →
    service_pubkey (ss_locator s) = service_pubkey (ss_locator s') → i = j
}.

(** The record itself, and its phase. *)
Record WfBase (f : StoredFormation) (rows : list StoredSeat) : Prop := {
  wf_schema : validate_schema_and_owner f fa_id = Ok tt;
  wf_size : sf_seat_count f = in_federation_size (sf_intent f);
  wf_u16 : sf_seat_count f <= u16_max;
  wf_phase : phase_ok f rows;
  wf_formed : sf_phase f ≠ Formed;
  wf_target : is_Some (sf_formation_meta_target f) ↔ sf_phase f = PublishingSeatBindings;
  wf_invite : is_Some (sf_invite_code f) ↔ stored_dkg_complete (sf_phase f) = true;
  wf_codes : stored_dkg_complete (sf_phase f) = true →
    ∀ i s, rows !! i = Some s → is_Some (ss_guardian_code s)
}.

(** Quotes, effects and the aggregate. *)
Record Wf (f : StoredFormation) (rows : list StoredSeat) : Prop := {
  wf_base : WfBase f rows;
  wf_distinct : Distinct rows;
  wf_row : ∀ i s, rows !! i = Some s → RowOk f (Z.of_nat i) s;
  wf_auth : ∀ a, sf_payment_authorization f = Some a → AuthOk f rows a;
  wf_reservation : is_Some (sf_payment_reservation_id f) → is_Some (sf_payment_authorization f);
  wf_release : sf_release_intended f = true → is_Some (sf_payment_reservation_id f);
  wf_unstarted : sf_outputs_started f = false →
    ∀ i s, rows !! i = Some s → ss_replacement_for s = None;
  wf_replacing : ∀ i s, rows !! i = Some s → is_Some (ss_replacement_for s) →
    ∀ j s', rows !! j = Some s' → is_Some (ss_seat_id s') ∨ is_Some (ss_replacement_for s');
  wf_paid : ∀ i s q o, rows !! i = Some s → ss_seat_id s = None →
    ss_signed_quote s = Some q → ad_state (ss_admission s) = EffectAuthorized o PaidOutput →
    ∃ a, sf_payment_authorization f = Some a ∧ member a i q;
  wf_provisional : ∀ a i s, sf_payment_authorization f = Some a → rows !! i = Some s →
    is_Some (ss_replacement_for s) →
    ∀ j s' q, rows !! j = Some s' → is_Some (ss_seat_id s') → ss_signed_quote s' = Some q →
    ¬ member a j q
}.

(** ** The record and the trace *)

(** The row holds these terms, bound to the generation of their outputs. *)
Definition armed (s : StoredSeat) (t : QuoteTerms) : Prop :=
  (∃ q, ss_signed_quote s = Some q ∧ sq_terms q = t)
  ∧ ad_state (ss_admission s) = EffectAuthorized (quote_id t) PaidOutput.

(** The price of a member of the aggregate, and the aggregate. *)
Definition member_price (a : StoredPaymentAuthorization) (i : nat) (s : StoredSeat) : Z :=
  match ss_signed_quote s with
  | Some q =>
      if bool_decide ({| qa_index := Z.of_nat i; qa_quote_id := quote_id (sq_terms q) |}
                      ∈ pa_quotes a)
      then qt_price_msats (sq_terms q) else 0
  | None => 0
  end.
Definition auth_total (rows : list StoredSeat) (a : StoredPaymentAuthorization) : Z :=
  foldr Z.add 0 (imap (member_price a) rows).

Definition requirements_of (f : StoredFormation) (rows : list StoredSeat)
    : res FaError (option PaymentRequirements) :=
  payment_requirements (sf_formation_id f) (row_recovery <$> rows) (sf_intent f) fa_id None.

(** The wallet terms of a quote were prepared for it. *)
Definition refund_known (t : QuoteTerms) (tr : Trace) : Prop :=
  is_Some (qt_payment t) →
  ∃ refund, qr_refund_issuance (qt_request t) = Some refund ∧ refund ∈ refunds tr.

Record Ghost (f : StoredFormation) (rows : list StoredSeat) (tr : Trace) : Prop := {
  gh_unstarted : sf_outputs_started f = false → paid tr = [];
  gh_kept : ∀ t, t ∈ paid tr → (∃ i s, rows !! i = Some s ∧ armed s t) ∨ terminated t tr;
  gh_bound : ∀ t i s q, t ∈ paid tr → rows !! i = Some s → ss_signed_quote s = Some q →
    sq_terms q = t → armed s t;
  gh_refunds : ∀ i s q, rows !! i = Some s → ss_signed_quote s = Some q →
    refund_known (sq_terms q) tr;
  gh_live : sf_outputs_started f = false → ∀ id, id ∈ maybe_live tr →
    is_Some (sf_payment_authorization f)
    ∧ ∃ q, requirements_of f rows = Ok (Some q)
           ∧ id = payment_reservation_id (sf_formation_id f) q;
  gh_cap : ∀ a, sf_payment_authorization f = Some a →
    explicit a tr
    ∨ ∃ cap, in_max_total_msats (sf_intent f) = Some cap ∧ auth_total rows a <= cap
}.

(** The rows of the active formation. *)
Record View (d : Db) (f : StoredFormation) (rows : list StoredSeat) : Prop := {
  vw_formation : d_formation d = Some f;
  vw_length : Z.of_nat (length rows) = sf_seat_count f;
  vw_row : ∀ i s, rows !! i = Some s →
    d_seats d !! (sf_formation_id f, Z.of_nat i) = Some s
}.

Definition Stored (f : StoredFormation) (rows : list StoredSeat) (w : FaWorld) : Prop :=
  View (w_db w) f rows ∧ d_formed (w_db w) = None ∧ Wf f rows ∧ Ghost f rows (w_trace w).

Definition FaInv (w : FaWorld) : Prop :=
  (∀ t, t ∈ paid (w_trace w) → is_Some (qt_payment t) ∧ refund_known t (w_trace w))
  ∧ match d_formation (w_db w) with
    | Some _ => ∃ f rows, Stored f rows w
    | None =>
        match d_formed (w_db w) with
        | None => paid (w_trace w) = [] ∧ maybe_live (w_trace w) = ∅
        | Some formed => ff_fa_id formed = fa_id
        end
    end.

(** ** Obligations of the calls *)

Definition allowed (c : Ext) (d : Db) : Prop :=
  match c with
  | Send (CreateSeatPayment reservation t) =>
      ∃ f rows a i s, View d f rows ∧ sf_outputs_started f = true
        ∧ sf_payment_reservation_id f = Some (rv_id reservation)
        ∧ sf_payment_authorization f = Some a
        ∧ {| qa_index := Z.of_nat i; qa_quote_id := quote_id t |} ∈ pa_quotes a
        ∧ rows !! i = Some s ∧ ss_seat_id s = None ∧ armed s t
  | Send (CreateSeat locator presenter q _) =>
      ∃ f rows i s, View d f rows ∧ presenter = fa_id ∧ rows !! i = Some s
        ∧ ss_locator s = locator ∧ ss_signed_quote s = Some q
        ∧ ad_state (ss_admission s)
          = EffectAuthorized (quote_id (sq_terms q)) (effect_of (sq_terms q))
  | Send (ReleaseReservation reservation) =>
      ∃ f rows a, View d f rows ∧ sf_payment_authorization f = Some a
        ∧ (is_Some (sf_payment_reservation_id f) →
           sf_payment_reservation_id f = Some (rv_id reservation)
           ∧ sf_release_intended f = true)
        ∧ ∀ i s q, rows !! i = Some s → ss_signed_quote s = Some q → member a i q →
            ad_state (ss_admission s) = Fresh
  | Send (StartDkg _ _ codes _) =>
      ∃ f rows, View d f rows ∧ (ss_guardian_code <$> rows) = Some <$> codes
        ∧ Forall (λ s, is_Some (ss_seat_id s)) rows
  | Send (ProposeFormationMeta _ _ _ target) =>
      ∃ f, d_formation d = Some f ∧ sf_formation_meta_target f = Some target
  | _ => True
  end.

(** ** Documented behaviour of the ports

    The wallet prepares a fresh refund for every quote, reports a payment only
    for a quote it was asked to pay, and quoted prices leave room for a [u16]
    number of seats.  An approved selection names distinct guardians. *)
Definition Answers (c : Ext) : Ans c -> Trace -> Prop :=
  match c return Ans c -> Trace -> Prop with
  | Recv (PrepareQuoteRefund _ _) =>
      λ a tr, match a with Some (inr refund) => refund ∉ refunds tr | _ => True end
  | Recv (RecoverSeatPayment _ t) =>
      λ a tr, match a with
              | Some (inr (Prepared _ | Rejected _)) => t ∈ paid tr
              | _ => True
              end
  | Recv (GetQuote _ _) =>
      λ a _, match a with
             | Some (inr q) => qt_price_msats (sq_terms q) * u16_max <= u64_max
             | _ => True
             end
  | _ => λ _ _, True
  end.

Definition Starts (h : Entry) : Prop :=
  match h with
  | PayAndCreate intent a _ _ _ =>
      fi_federation_size intent <= u16_max
      ∧ NoDup (as_holder <$> sl_seats a) ∧ NoDup (as_mg_id <$> sl_seats a)
      ∧ NoDup ((λ s, service_pubkey (as_locator s)) <$> sl_seats a)
  | _ => True
  end.

(** ** The driver's recovery *)

Definition mirror_seat (m : SeatRecovery) (s : StoredSeat) : Prop :=
  m = sr_set_phase (sr_phase m) (row_recovery s).

Record Mirror (r : ActiveFormationRecovery) (f : StoredFormation) (rows : list StoredSeat)
    : Prop := {
  mi_id : rc_formation_id r = sf_formation_id f;
  mi_intent : rc_intent r = sf_intent f;
  mi_auth : rc_payment_authorization r = sf_payment_authorization f;
  mi_recorded : rc_authorization_recorded r = sf_authorization_recorded f;
  mi_reservation : rc_payment_reservation_id r = sf_payment_reservation_id f;
  mi_started : rc_outputs_started r = sf_outputs_started f;
  mi_payer : rc_payment_federation_id r = sf_payment_federation_id f;
  mi_target : rc_formation_meta_target r = sf_formation_meta_target f;
  mi_seats : Forall2 mirror_seat (rc_seats r) rows
}.

End Invariant.
End Inv.
