(* ===== verification/FaViews.v ===== *)
(** * What each store transaction does to the formation and its rows

    A committed transaction of [FaStore] as an update of the record and the list
    of rows it holds ([View]), with the conditions it checked. *)

From S2P Require Import Prelude FaSchema FaQuotes FaStore FaProg FaCalls FaDriver FaFormation FaLogic FaInvariant.
From stdpp Require Import base gmap strings list.
From Stdlib Require Import ZArith Lia.
Open Scope Z_scope.

Module Views.
Import Fa Quotes Store Run Calls Driver Formation Logic Inv.

(** ** Lists *)

Lemma Forall2_impl_elem {A B} (P Q : A → B → Prop) l k :
  Forall2 P l k → (∀ x y, x ∈ l → y ∈ k → P x y → Q x y) → Forall2 Q l k.
Proof.
  induction 1 as [|x y l k Hxy Hlk IH]; intros HQ; constructor.
  - by apply HQ; [left|left|].
  - apply IH. intros x' y' ??. apply HQ; by right.
Qed.
Lemma Forall2_elem_l {A B} (P : A → B → Prop) l k x :
  Forall2 P l k → x ∈ l → ∃ y, y ∈ k ∧ P x y.
Proof.
  intros HP [i Hi]%list_elem_of_lookup_1.
  destruct (Forall2_lookup_l _ _ _ _ _ HP Hi) as (y & Hy & Hxy).
  exists y. split; [by eapply list_elem_of_lookup_2|done].
Qed.
Lemma Forall2_elem_r {A B} (P : A → B → Prop) l k y :
  Forall2 P l k → y ∈ k → ∃ x, x ∈ l ∧ P x y.
Proof.
  intros HP [i Hi]%list_elem_of_lookup_1.
  destruct (Forall2_lookup_r _ _ _ _ _ HP Hi) as (x & Hx & Hxy).
  exists x. split; [by eapply list_elem_of_lookup_2|done].
Qed.
Lemma forallb_true {A} (g : A → bool) l : forallb g l = true ↔ ∀ x, x ∈ l → g x = true.
Proof. rewrite forallb_forall. by setoid_rewrite <- list_elem_of_In. Qed.
Lemma forallb_false {A} (g : A → bool) l : forallb g l = false ↔ ∃ x, x ∈ l ∧ g x = false.
Proof.
  induction l as [|x l IH]; cbn; [set_solver|]. rewrite andb_false_iff, IH. set_solver.
Qed.
Lemma existsb_true {A} (g : A → bool) l : existsb g l = true ↔ ∃ x, x ∈ l ∧ g x = true.
Proof. rewrite existsb_exists. by setoid_rewrite <- list_elem_of_In. Qed.
Lemma existsb_false {A} (g : A → bool) l : existsb g l = false ↔ ∀ x, x ∈ l → g x = false.
Proof.
  rewrite <- not_true_iff_false, existsb_true. split.
  - intros H x Hx. apply not_true_iff_false. eauto.
  - intros H (x & Hx & Hg). rewrite H in Hg; done.
Qed.

Lemma NoDup_to_nat (l : list Z) : (∀ z, z ∈ l → 0 <= z) → NoDup l → NoDup (Z.to_nat <$> l).
Proof.
  intros Hl. induction 1 as [|z l Hz Hnd IH]; cbn; constructor.
  - intros (z' & Heq & Hz')%list_elem_of_fmap. apply Hz.
    assert (0 <= z) by (apply Hl; by left). assert (0 <= z') by (apply Hl; by right).
    by assert (z = z') as -> by lia.
  - apply IH. intros z' Hz'. apply Hl. by right.
Qed.

Section Views.
Context {CR : Crypto}.
Implicit Types (d : Db) (f : StoredFormation) (rows : list StoredSeat) (s : StoredSeat).

(** ** Views *)

Lemma View_unique d f f' rows rows' : View d f rows → View d f' rows' → f' = f ∧ rows' = rows.
Proof.
  intros [Hf Hl Hr] [Hf' Hl' Hr']. assert (f' = f) as -> by congruence. split; [done|].
  apply (list_eq_same_length _ _ (length rows)); [lia|lia|].
  intros i x y _ Hx Hy. apply Hr' in Hx. apply Hr in Hy. congruence.
Qed.

Lemma View_same d d' f rows : same_formation d d' → View d f rows → View d' f rows.
Proof. intros (Hf & Hs & _) [? ? ?]. split; [congruence|done|by rewrite Hs]. Qed.

Lemma View_put_seat d f rows i s0 s : View d f rows → rows !! i = Some s0 →
  View (set_seats (<[(sf_formation_id f, Z.of_nat i) := s]> (d_seats d)) d) f (<[i := s]> rows).
Proof.
  intros [Hf Hl Hr] Hi. split; [done|by rewrite length_insert|]. cbn. intros j t Hj.
  destruct (decide (i = j)) as [->|].
  - rewrite list_lookup_insert_eq in Hj by by eapply lookup_lt_Some.
    simplify_eq. by rewrite lookup_insert_eq.
  - rewrite list_lookup_insert_ne in Hj by done. rewrite lookup_insert_ne; [by apply Hr|].
    intros [=]. lia.
Qed.

Lemma View_put_formation d f f' rows : View d f rows →
  sf_formation_id f' = sf_formation_id f → sf_seat_count f' = sf_seat_count f →
  View (set_formation (Some f') d) f' rows.
Proof. intros [Hf Hl Hr] Hid Hc. split; cbn; [done|congruence|]. by rewrite Hid. Qed.

Lemma View_lease d f rows l : View d f rows → View (set_lease l d) f rows.
Proof. by intros [? ? ?]. Qed.

(** Every index of the formation has its row. *)
Lemma View_index d f rows i : View d f rows → i ∈ seat_indices f →
  ∃ n s, i = Z.of_nat n ∧ rows !! n = Some s ∧ d_seats d !! (sf_formation_id f, i) = Some s.
Proof.
  intros [Hf Hl Hr] Hi%elem_of_seqZ.
  destruct (rows !! Z.to_nat i) as [s|] eqn:Hs.
  - exists (Z.to_nat i), s. split; [lia|]. split; [done|]. apply Hr in Hs.
    by rewrite Z2Nat.id in Hs by lia.
  - apply lookup_ge_None in Hs. lia.
Qed.

Lemma seat_indices_eq d f rows : View d f rows →
  seat_indices f = Z.of_nat <$> seq 0 (length rows).
Proof.
  intros [Hf Hl Hr]. unfold seat_indices, seqZ. rewrite <- Hl, Nat2Z.id.
  apply list_fmap_ext. intros i n _. lia.
Qed.

(** ** Preambles *)

Lemma active_formation_Ok fid d d' f : active_formation fid d = Ok (d', f) →
  d' = d ∧ d_formation d = Some f ∧ sf_formation_id f = fid.
Proof.
  unfold active_formation. intros H. tx_inv.
  match goal with H : validate_active_formation _ _ = _ |- _ =>
    unfold validate_active_formation in H; inv_ok H end.
  by case_bool_decide.
Qed.

Lemma seat_row_Ok fid i d d' s : seat_row fid i d = Ok (d', s) →
  d' = d ∧ d_seats d !! (fid, i) = Some s.
Proof. unfold seat_row. intros H. by tx_inv. Qed.

Lemma fa_fence_Ok lease now d d' e : fence lease now d = Ok (d', e) → d' = d ∧ now < e.
Proof.
  unfold fence. intros H. tx_inv. destruct (d_lease d); [|done]. tx_inv.
  destruct (_ || _) eqn:Hb in H; [done|].
  tx_inv. split; [done|]. apply orb_false_iff in Hb as [_ Hb]. by apply Z.leb_gt in Hb.
Qed.

(** ** Advancing a formation *)

(** Rows related position by position. *)
Definition rows_step (R : nat → StoredSeat → StoredSeat → Prop) rows rows' : Prop :=
  length rows' = length rows
  ∧ ∀ i s s', rows !! i = Some s → rows' !! i = Some s' → R i s s'.

Lemma rows_step_lookup R rows rows' i s' : rows_step R rows rows' → rows' !! i = Some s' →
  ∃ s, rows !! i = Some s ∧ R i s s'.
Proof.
  intros [Hl HR] Hi. destruct (rows !! i) as [s|] eqn:Hs; [by eauto|].
  apply lookup_ge_None in Hs. apply lookup_lt_Some in Hi. lia.
Qed.

Ltac view_inv Hv :=
  repeat (tx_inv; match goal with
  | H : active_formation _ _ = Ok _ |- _ =>
      apply active_formation_Ok in H; destruct H as (-> & ? & ?)
  | H : seat_row _ _ _ = Ok _ |- _ => apply seat_row_Ok in H; destruct H as [-> ?]
  | H : fence _ _ _ = Ok _ |- _ => apply fa_fence_Ok in H; destruct H as [-> ?]
  end); tx_inv;
  let Hf := fresh in
  pose proof (vw_formation _ _ _ Hv) as Hf;
  repeat match goal with
  | H : d_formation _ = Some ?g |- _ =>
      lazymatch type of Hf with
      | _ = Some g => fail
      | d_formation _ = Some ?f => assert (g = f) as -> by congruence; clear H
      end
  end; clear Hf.

(** Identify the row a transaction read. *)
Ltac row_inv Hv Hi :=
  let Hs := fresh in
  pose proof (vw_row _ _ _ Hv _ _ Hi) as Hs;
  repeat match goal with
  | H : d_seats _ !! _ = Some ?a |- _ =>
      lazymatch type of Hs with
      | _ = Some a => fail
      | _ = Some ?s => assert (a = s) as -> by congruence; clear H
      end
  end; clear Hs.

Lemma store_quote_view d d' u f rows i s q :
  View d f rows → rows !! i = Some s →
  store_quote (sf_formation_id f) (Z.of_nat i) q d = Ok (d', u) →
  View d' (with_authorization None f) (<[i := with_quote (Some q) s]> rows)
  ∧ d_formed d' = d_formed d
  ∧ (is_Some (ss_replacement_for s) → ss_replacement_approved s = true)
  ∧ (ss_signed_quote s = None ∨ ss_signed_quote s = Some q).
Proof.
  intros Hv Hi H. unfold store_quote in H. view_inv Hv. row_inv Hv Hi.
  destruct (_ && _) eqn:Hb in H; [done|]. tx_inv.
  split; [by eapply View_put_formation; [eapply View_put_seat|..]|]. split; [done|]. split.
  - intros Hr. rewrite bool_decide_true in Hb by done. by destruct (ss_replacement_approved s).
  - destruct (ss_signed_quote s); [|by left]. case_bool_decide; [right; congruence|done].
Qed.

Lemma record_seat_accepted_view d d' u f rows i s seat account :
  View d f rows → rows !! i = Some s →
  record_seat_accepted (sf_formation_id f) (Z.of_nat i) seat account d = Ok (d', u) →
  ∃ p q t,
    View d' (with_phase p f) (<[i := with_acceptance seat account s]> rows)
    ∧ d_formed d' = d_formed d
    ∧ ss_signed_quote s = Some q ∧ quote_verify (service_pubkey (ss_locator s)) q = Some t
    ∧ authorized_effect (ss_admission s) = Some (quote_id t, effect_of t)
    ∧ (p = SeatsCreated ∧ (∀ j s', j ≠ i → rows !! j = Some s' → is_Some (ss_seat_id s'))
       ∨ p = SeatsPartiallyCreated
         ∧ ∃ j s', j ≠ i ∧ rows !! j = Some s' ∧ ss_seat_id s' = None).
Proof.
  intros Hv Hi H. unfold record_seat_accepted in H. view_inv Hv. row_inv Hv Hi.
  match goal with H : require_authorized_effect _ _ _ = _ |- _ =>
    unfold require_authorized_effect in H; bool_in H; [|done] end.
  match goal with H : (collect ?g ?l ≫= _) = Ok _ |- _ =>
    apply res_bind_Ok in H; destruct H as (siblings & Hsib & H); cbn in H; injection H as <- <-;
    apply collect_Ok in Hsib end.
  assert (Hv' : View (set_seats (<[(sf_formation_id f, Z.of_nat i) :=
    with_acceptance seat account s]> (d_seats d)) d) f
    (<[i := with_acceptance seat account s]> rows)) by by eapply View_put_seat.
  assert (Hread : Forall2 (λ j t, ∃ n, j = Z.of_nat n ∧ n ≠ i ∧ rows !! n = Some t)
    (filter (λ j, j ≠ Z.of_nat i) (seat_indices f)) siblings).
  { eapply Forall2_impl_elem; [apply Hsib|]. intros j t Hj _ Ht. cbn in Ht.
    apply list_elem_of_filter in Hj as [Hne Hj].
    destruct (View_index _ _ _ _ Hv Hj) as (n & t' & -> & Hn & Hd).
    rewrite lookup_insert_ne in Ht by congruence. rewrite Hd in Ht. cbn in Ht. simplify_eq.
    exists n. split; [done|]. split; [congruence|done]. }
  eexists _, _, _. split; [by eapply View_put_formation|]. split; [done|].
  split; [done|]. split; [done|]. split; [done|].
  destruct (forallb _ siblings) eqn:Hall; [left|right].
  - split; [done|]. intros j s' Hne Hj. rewrite forallb_true in Hall.
    assert (Hin : Z.of_nat j ∈ filter (λ j, j ≠ Z.of_nat i) (seat_indices f)).
    { apply list_elem_of_filter. split; [lia|]. apply elem_of_seqZ.
      apply lookup_lt_Some in Hj. destruct Hv as [_ Hl _]. lia. }
    destruct (Forall2_elem_l _ _ _ _ Hread Hin) as (t & Ht & n & ? & _ & Hn).
    assert (n = j) as -> by lia. rewrite Hj in Hn. simplify_eq.
    specialize (Hall t Ht). by apply bool_decide_eq_true in Hall.
  - split; [done|]. apply forallb_false in Hall as (t & Ht & Hnone).
    apply bool_decide_eq_false, eq_None_not_Some in Hnone.
    destruct (Forall2_elem_r _ _ _ _ Hread Ht) as (j & _ & n & -> & Hne & Hn).
    by exists n, t.
Qed.

Lemma record_guardian_code_view d d' u f rows i s code :
  View d f rows → rows !! i = Some s →
  record_guardian_code (sf_formation_id f) (Z.of_nat i) code d = Ok (d', u) →
  View d' f (<[i := with_code code s]> rows) ∧ d_formed d' = d_formed d
  ∧ is_Some (ss_seat_id s)
  ∧ (ss_guardian_code s = None ∨ ss_guardian_code s = Some code).
Proof.
  intros Hv Hi H. unfold record_guardian_code in H. view_inv Hv. row_inv Hv Hi.
  destruct (_ || _) eqn:Hb in H; [done|]. apply orb_false_iff in Hb as [Hb _].
  apply bool_decide_eq_false in Hb. apply not_eq_None_Some in Hb.
  destruct (ss_guardian_code s) as [existing|] eqn:Hc.
  - bool_in H; [subst|done]. tx_inv.
    split; [by eapply View_put_seat|]. split; [done|]. split; [done|]. by right.
  - tx_inv. split; [by eapply View_put_seat|]. split; [done|]. split; [done|]. by left.
Qed.

(** The rows a reader collects are the rows of the view. *)
Lemma indexed_rows_read d f rows n k : View d f rows → (n + k = length rows)%nat →
  (∀ i s, rows !! i = Some s → ss_index s = Z.of_nat i) →
  indexed_rows (sf_formation_id f) (Z.of_nat <$> seq n k) d = Ok (d, drop n rows).
Proof.
  intros Hv Hn Hidx. revert n Hn. induction k as [|k IH]; intros n Hn; cbn.
  { rewrite drop_ge by lia. done. }
  destruct (lookup_lt_is_Some_2 rows n) as [s Hs]; [lia|].
  unfold mbind, tx_bind, seat_row, tx_get. cbn. unfold mbind, tx_bind. cbn.
  rewrite (vw_row _ _ _ Hv _ _ Hs). cbn. rewrite (Hidx _ _ Hs), Z.eqb_refl. cbn.
  specialize (IH (S n)). unfold mbind, tx_bind in IH. rewrite IH by lia. cbn.
  by rewrite (drop_S rows s n) by done.
Qed.

Lemma indexed_rows_Ok d d' f rows l : View d f rows →
  indexed_rows (sf_formation_id f) (seat_indices f) d = Ok (d', l) → d' = d ∧ l = rows.
Proof.
  intros Hv. rewrite (seat_indices_eq _ _ _ Hv).
  assert (Hgen : ∀ k n d' l, (n + k = length rows)%nat →
    indexed_rows (sf_formation_id f) (Z.of_nat <$> seq n k) d = Ok (d', l) →
    d' = d ∧ l = drop n rows).
  { induction k as [|k IH]; intros n d1 l1 Hn H; cbn in H; tx_inv.
    - by rewrite drop_ge by lia.
    - match goal with H : seat_row _ _ _ = Ok _ |- _ =>
        apply seat_row_Ok in H; destruct H as [-> Hs] end. tx_inv.
      match goal with H : indexed_rows _ _ _ = Ok _ |- _ =>
        apply IH in H; [destruct H as [-> ->]|lia] end.
      destruct (lookup_lt_is_Some_2 rows n) as [s Hn']; [lia|].
      rewrite (vw_row _ _ _ Hv _ _ Hn') in Hs. simplify_eq.
      by rewrite (drop_S rows _ n Hn'). }
  intros H. by apply (Hgen _ 0%nat) in H.
Qed.

Lemma record_dkg_complete_view d d' u f rows invite :
  View d f rows → record_dkg_complete (sf_formation_id f) invite d = Ok (d', u) →
  View d' (with_dkg_complete invite f) rows ∧ d_formed d' = d_formed d
  ∧ validate_formation_progress (with_dkg_complete invite f) rows = Ok tt.
Proof.
  intros Hv H. unfold record_dkg_complete in H. view_inv Hv.
  match goal with H : indexed_rows _ _ _ = Ok _ |- _ =>
    apply (indexed_rows_Ok _ _ _ _ _ Hv) in H; destruct H as [-> ->] end. tx_inv.
  split; [by eapply View_put_formation|]. split; [done|].
  match goal with H : validate_formation_progress _ _ = Ok ?x |- _ => by destruct x end.
Qed.

Lemma record_formation_meta_target_view d d' u f rows t :
  View d f rows → record_formation_meta_target (sf_formation_id f) t d = Ok (d', u) →
  View d' (with_target t f) rows ∧ d_formed d' = d_formed d.
Proof.
  intros Hv H. unfold record_formation_meta_target in H. view_inv Hv.
  split; [by eapply View_put_formation|done].
Qed.

Lemma take_formed_rows_keeps fid l d d' x :
  take_formed_rows fid l d = Ok (d', x) → d_formed d' = d_formed d.
Proof.
  revert d d' x. induction l as [|i l IH]; intros d d' x H; cbn in H; tx_inv; [done|].
  match goal with H : seat_row _ _ _ = Ok _ |- _ =>
    apply seat_row_Ok in H; destruct H as [-> Hs] end. tx_inv.
  match goal with H : take_formed_rows _ _ _ = Ok (_, ?y) |- _ =>
    apply IH in H; destruct y as [seats holders] end. by tx_inv.
Qed.

Lemma record_formed_federation_view d d' u f :
  record_formed_federation f d = Ok (d', u) →
  d_formation d' = None ∧ d_formed d = None
  ∧ ∃ formed, d_formed d' = Some formed ∧ Some (ff_fa_id formed) = sf_fa_id f.
Proof.
  unfold record_formed_federation. intros H. tx_inv.
  match goal with H : take_formed_rows _ _ _ = Ok (_, ?x) |- _ =>
    apply take_formed_rows_keeps in H; destruct x as [seats holders] end. tx_inv.
  bool_in H as n; [done|]. tx_inv. cbn. split; [done|]. split.
  - rewrite <- eq_None_not_Some in n. cbn in n. congruence.
  - eexists. split; [done|]. cbn. congruence.
Qed.

(** ** Payment *)

(** The rows an authorization is for: unaccepted, with a paid quote. *)
Definition payable rows (i : nat) (t : QuoteTerms) : Prop :=
  ∃ s q, rows !! i = Some s ∧ ss_seat_id s = None ∧ ss_signed_quote s = Some q
         ∧ quote_verify (service_pubkey (ss_locator s)) q = Some t ∧ is_Some (qt_payment t).

(** The authorizations of the rows from position [n] on. *)
Definition payables rows (n : nat) (m : QuoteAuthorization) : Prop :=
  ∃ i t, (n <= i)%nat ∧ payable rows i t
         ∧ m = {| qa_index := Z.of_nat i; qa_quote_id := quote_id t |}.

Lemma payables_skip rows n m : (∀ t, ¬ payable rows n t) →
  payables rows (S n) m ↔ payables rows n m.
Proof.
  intros Hno. split; intros (i & t & Hi & Hp & ->); exists i, t.
  - split; [lia|done].
  - destruct (decide (i = n)) as [->|]; [by destruct (Hno t)|]. split; [lia|done].
Qed.

Lemma payables_take rows n t m : payable rows n t →
  m = {| qa_index := Z.of_nat n; qa_quote_id := quote_id t |} ∨ payables rows (S n) m
  ↔ payables rows n m.
Proof.
  intros Hp. split.
  - intros [->|(i & t' & Hi & Hp' & ->)]; [by exists n, t|]. exists i, t'. split; [lia|done].
  - intros (i & t' & Hi & Hp' & ->). destruct (decide (i = n)) as [->|].
    + left. destruct Hp as (s & q & ? & _ & ? & ? & _), Hp' as (s' & q' & ? & _ & ? & ? & _).
      by simplify_eq.
    + right. exists i, t'. split; [lia|done].
Qed.

Lemma current_paid_quotes_from d f rows k n d' l : View d f rows → (n + k = length rows)%nat →
  current_paid_quotes (sf_formation_id f) (Z.of_nat <$> seq n k) d = Ok (d', l) →
  d' = d ∧ ∀ m, m ∈ l ↔ payables rows n m.
Proof.
  intros Hv. revert n d' l. induction k as [|k IH]; intros n d1 l1 Hn H; cbn in H; tx_inv.
  { split; [done|]. intros m. split; [by intros ?%elem_of_nil|].
    intros (i & t & Hi & (s & q & Hs & _) & _). apply lookup_lt_Some in Hs. lia. }
  match goal with H : seat_row _ _ _ = Ok _ |- _ =>
    apply seat_row_Ok in H; destruct H as [-> Hs] end.
  destruct (lookup_lt_is_Some_2 rows n) as [s Hn']; [lia|].
  rewrite (vw_row _ _ _ Hv _ _ Hn') in Hs. injection Hs as <-.
  bool_in H as Hseat.
  { apply IH in H as [-> Hm]; [|lia]. split; [done|]. intros m. rewrite Hm.
    apply payables_skip. intros t (s' & q & ? & Hnone & _). simplify_eq.
    rewrite Hnone in Hseat. by destruct Hseat. }
  destruct (ss_signed_quote s) as [q|] eqn:Hq.
  2:{ apply IH in H as [-> Hm]; [|lia]. split; [done|]. intros m. rewrite Hm.
      apply payables_skip. intros t (s' & q & ? & _ & ? & _). simplify_eq. }
  tx_inv. match goal with H : current_paid_quotes _ _ _ = Ok _ |- _ =>
    apply IH in H; [destruct H as [-> Hm]|lia] end. split; [done|]. intros m.
  match goal with H : quote_verify _ _ = Some ?t |- _ =>
    destruct (qt_payment t) eqn:Hpay;
    [rewrite elem_of_cons, Hm; apply payables_take; exists s, q; rewrite Hpay|] end.
  - split_and!; [done| |done..]. by apply eq_None_not_Some.
  - rewrite Hm. apply payables_skip. intros t (s' & q' & ? & _ & ? & ? & Hsome). simplify_eq.
    rewrite Hpay in Hsome. by destruct Hsome.
Qed.

Lemma current_paid_quotes_Ok d d' f rows l : View d f rows →
  current_paid_quotes (sf_formation_id f) (seat_indices f) d = Ok (d', l) →
  d' = d ∧ ∀ m, m ∈ l ↔ payables rows 0 m.
Proof.
  intros Hv. rewrite (seat_indices_eq _ _ _ Hv). by apply current_paid_quotes_from.
Qed.

Lemma authorize_payments_view d d' u f rows id l :
  View d f rows → authorize_payments (sf_formation_id f) id l d = Ok (d', u) →
  View d' (with_payment (Some {| pa_authorization_id := id; pa_quotes := l |}) true
             (sf_payment_reservation_id f) (sf_release_intended f) f) rows
  ∧ d_formed d' = d_formed d ∧ l ≠ []
  ∧ ∀ m, m ∈ l ↔ payables rows 0 m.
Proof.
  intros Hv H. unfold authorize_payments in H. destruct l as [|m0 l0]; [done|].
  view_inv Hv.
  match goal with H : current_paid_quotes _ _ _ = Ok _ |- _ =>
    apply (current_paid_quotes_Ok _ _ _ _ _ Hv) in H; destruct H as [-> Hm] end.
  bool_in H; [subst|done]. cbn in H. tx_inv.
  split; [by eapply View_put_formation|]. done.
Qed.

Lemma record_payment_reservation_view d d' u f rows id :
  View d f rows → record_payment_reservation (sf_formation_id f) id d = Ok (d', u) →
  View d' (with_reservation (Some id) false f) rows ∧ d_formed d' = d_formed d
  ∧ is_Some (sf_payment_authorization f)
  ∧ (sf_payment_reservation_id f = None ∨ sf_payment_reservation_id f = Some id).
Proof.
  intros Hv H. unfold record_payment_reservation in H. view_inv Hv.
  bool_in H as n; [done|]. apply not_eq_None_Some in n.
  destruct (sf_payment_reservation_id f) as [old|] eqn:Hr.
  - destruct (negb (old =? id)) eqn:Hold; [done|].
    apply negb_false_iff, Z.eqb_eq in Hold as ->.
    destruct (negb (sf_release_intended f)) eqn:Hrel; tx_inv.
    + apply negb_true_iff in Hrel. split; [|by eauto].
      replace (with_reservation (Some id) false f) with f; [done|].
      destruct f; cbn in *. by subst.
    + split; [by eapply View_put_formation|]. by eauto.
  - tx_inv. split; [by eapply View_put_formation|]. by eauto.
Qed.

Lemma record_reservation_release_intent_view d d' u f rows id :
  View d f rows → record_reservation_release_intent (sf_formation_id f) id d = Ok (d', u) →
  View d' (with_reservation (Some id) true f) rows ∧ d_formed d' = d_formed d
  ∧ sf_payment_reservation_id f = Some id.
Proof.
  intros Hv H. unfold record_reservation_release_intent in H. view_inv Hv.
  bool_in H; [|done]. cbn in H. destruct (sf_release_intended f) eqn:Hrel; tx_inv.
  - split; [|done]. replace (with_reservation (Some id) true f) with f; [done|].
    destruct f; cbn in *. by subst.
  - split; [by eapply View_put_formation|done].
Qed.

Lemma tx_for_delete fid l d d' u :
  tx_for l (λ i, tx_put (λ d, set_seats (delete (fid, i) (d_seats d)) d) : FaTx unit) d
    = Ok (d', u) →
  d_formed d' = d_formed d.
Proof.
  intros H. eapply (tx_for_inv (λ d', d_formed d' = d_formed d)) in H; [done| |done].
  intros i d1 d2 u' _ H1 H2. tx_inv. done.
Qed.

Lemma abandon_formation_view d d' e f rows lease now :
  View d f rows → abandon_formation (sf_formation_id f) lease now d = Ok (d', e) →
  d_formation d' = None ∧ d_formed d' = d_formed d ∧ sf_outputs_started f = false.
Proof.
  intros Hv H. unfold abandon_formation in H. view_inv Hv.
  destruct (sf_outputs_started f) eqn:Hs; [done|].
  destruct (stored_dkg_complete _); [done|]. tx_inv.
  match goal with H : tx_for _ _ _ = Ok _ |- _ => apply tx_for_delete in H end.
  by split_and!.
Qed.

(** ** Effects *)

Definition effect_admission (quote : Z) (kind : AdmissionEffect) (a : MgAdmission)
    : MgAdmission :=
  {| ad_mg_id := ad_mg_id a; ad_holder := ad_holder a;
     ad_verifier_provenance := ad_verifier_provenance a; ad_valid_until := ad_valid_until a;
     ad_state := EffectAuthorized quote kind |}.
Definition bind_effect (quote : Z) (kind : AdmissionEffect) (s : StoredSeat) : StoredSeat :=
  with_admission (effect_admission quote kind (ss_admission s)) s.

(** A row bound to [quote] and [kind], not to another effect before. *)
Definition bindable (quote : Z) (kind : AdmissionEffect) (s : StoredSeat) : Prop :=
  ad_state (ss_admission s) = Fresh ∨ ad_state (ss_admission s) = EffectAuthorized quote kind.

Lemma authorize_effect_Ok a quote kind a' : authorize_effect a quote kind = Ok a' →
  a' = effect_admission quote kind a
  ∧ (ad_state a = Fresh ∨ ad_state a = EffectAuthorized quote kind).
Proof.
  unfold authorize_effect. destruct (ad_state a) as [|q e] eqn:Ha.
  - intros [= <-]. by split; [|left].
  - case_bool_decide as Hq; [|done]. destruct Hq as [-> ->]. intros [= <-].
    split; [|by right]. destruct a; cbn in *. by subst.
Qed.

(** What the armed rows of an aggregate look like. *)
Definition arms (l : list QuoteAuthorization) (i : nat) (s s' : StoredSeat) : Prop :=
  s' = s ∧ (∀ m, m ∈ l → qa_index m ≠ Z.of_nat i)
  ∨ ∃ q t, ss_signed_quote s = Some q
      ∧ quote_verify (service_pubkey (ss_locator s)) q = Some t ∧ is_Some (qt_payment t)
      ∧ {| qa_index := Z.of_nat i; qa_quote_id := quote_id t |} ∈ l
      ∧ bindable (quote_id t) PaidOutput s ∧ s' = bind_effect (quote_id t) PaidOutput s.

Lemma arms_cons m l i s s1 s' :
  (s1 = s ∧ qa_index m ≠ Z.of_nat i
   ∨ arms [m] i s s1 ∧ qa_index m = Z.of_nat i) →
  arms l i s1 s' → arms (m :: l) i s s'.
Proof.
  intros [[-> Hne]|[[[-> Hno]|(q & t & Hq & Ht & Hp & Hin & Hb & ->)] Hm]] Hl.
  - destruct Hl as [[-> Hno]|(q & t & ? & ? & ? & ? & ? & ?)].
    + left. split; [done|]. intros m' [->|Hin]%elem_of_cons; [done|by apply Hno].
    + right. exists q, t. split_and!; try done. by right.
  - destruct (Hno m); [by left|done].
  - apply list_elem_of_singleton in Hin. right. exists q, t. split_and!; try done.
    + rewrite Hin. by left.
    + destruct Hl as [[-> _]|(q' & t' & Hq' & Ht' & _ & _ & _ & ->)]; [done|].
      cbn in Hq', Ht'. by simplify_eq.
Qed.

Lemma arm_row_view d d' u f rows provenance now m i s :
  View d f rows → qa_index m = Z.of_nat i → rows !! i = Some s →
  arm_row (sf_formation_id f) provenance now m d = Ok (d', u) →
  ∃ s', View d' f (<[i := s']> rows) ∧ d_formed d' = d_formed d ∧ arms [m] i s s'.
Proof.
  intros Hv Hm Hi H. unfold arm_row in H. rewrite Hm in H. view_inv Hv. row_inv Hv Hi.
  destruct (_ || _) eqn:Hb in H; [done|].
  apply orb_false_iff in Hb as [Hid Hp]. apply negb_false_iff, Z.eqb_eq in Hid.
  apply bool_decide_eq_false, not_eq_None_Some in Hp. tx_inv.
  match goal with H : authorize_effect _ _ _ = Ok _ |- _ =>
    apply authorize_effect_Ok in H; destruct H as [-> Hst] end.
  eexists. split; [by eapply View_put_seat|]. split; [done|].
  right. eexists _, _. split_and!; try done.
  - apply list_elem_of_singleton. destruct m; cbn in *. by subst.
  - by rewrite Hid.
  - by rewrite Hid.
Qed.

Lemma arm_rows_view f provenance now l d d' u rows :
  View d f rows → (∀ m, m ∈ l → ∃ i s, qa_index m = Z.of_nat i ∧ rows !! i = Some s) →
  tx_for l (arm_row (sf_formation_id f) provenance now) d = Ok (d', u) →
  ∃ rows', View d' f rows' ∧ d_formed d' = d_formed d ∧ rows_step (arms l) rows rows'.
Proof.
  revert d rows. induction l as [|m l IH]; intros d rows Hv Hl H; cbn in H; tx_inv.
  { exists rows. split; [done|]. split; [done|]. split; [done|]. intros i s s' ??.
    simplify_eq. left. split; [done|]. by intros m ?%elem_of_nil. }
  destruct (Hl m) as (i & s & Hm & Hi); [by left|].
  match goal with H : arm_row _ _ _ _ _ = Ok _ |- _ =>
    destruct (arm_row_view _ _ _ _ _ _ _ _ _ _ Hv Hm Hi H) as (s1 & Hv1 & Hf1 & Ha1) end.
  destruct (IH _ _ Hv1) as (rows' & Hv' & Hf' & Hlen & Hstep); [|done|].
  - intros m' Hm'. destruct (Hl m') as (j & t & Hj & Ht); [by right|].
    destruct (decide (i = j)) as [->|Hne].
    + exists j, s1. split; [done|]. apply list_lookup_insert_eq. by eapply lookup_lt_Some.
    + exists j, t. split; [done|]. by rewrite list_lookup_insert_ne.
  - exists rows'. split; [done|]. split; [congruence|]. rewrite length_insert in Hlen.
    split; [done|]. intros j t t' Ht Ht'. destruct (decide (j = i)) as [->|Hne].
    + simplify_eq. eapply arms_cons; [right; split; [done|done]|].
      apply Hstep; [|done]. apply list_lookup_insert_eq. by eapply lookup_lt_Some.
    + eapply arms_cons; [left; split; [done|rewrite Hm; lia]|].
      apply Hstep; [|done]. by rewrite list_lookup_insert_ne.
Qed.

Lemma record_payment_outputs_started_view d d' e f rows provenance lease now a :
  View d f rows → sf_payment_authorization f = Some a →
  (∀ m, m ∈ pa_quotes a → ∃ i s, qa_index m = Z.of_nat i ∧ rows !! i = Some s) →
  record_payment_outputs_started (sf_formation_id f) provenance lease now d = Ok (d', e) →
  ∃ rows', View d' (with_outputs_started f) rows' ∧ d_formed d' = d_formed d
           ∧ is_Some (sf_payment_reservation_id f) ∧ rows_step (arms (pa_quotes a)) rows rows'.
Proof.
  intros Hv Ha Hl H. unfold record_payment_outputs_started in H. view_inv Hv. simplify_eq.
  bool_in H; [done|]. bool_in H as Hr; [done|]. apply not_eq_None_Some in Hr. tx_inv.
  match goal with H : tx_for _ _ _ = Ok _ |- _ =>
    destruct (arm_rows_view _ _ _ _ _ _ _ _ Hv Hl H) as (rows' & Hv' & Hf' & Hs) end.
  exists rows'. split; [|done]. by eapply View_put_formation; [apply View_lease|..].
Qed.

(** A loop that rewrites one row per element, each row at most once. *)
Section RowLoop.
Context {X : Type} (f : StoredFormation) (ix : X → nat) (B : X → StoredSeat → StoredSeat → Prop).
Context (body : X → FaTx unit).

(** Each row is as it was, or rewritten by its element. *)
Definition rewritten (l : list X) (i : nat) (s s' : StoredSeat) : Prop :=
  s' = s ∧ i ∉ ix <$> l ∨ ∃ x, x ∈ l ∧ ix x = i ∧ B x s s'.

Lemma row_loop l d d' u rows :
  (∀ x d d' u rows s, x ∈ l → View d f rows → rows !! ix x = Some s → body x d = Ok (d', u) →
     ∃ s', View d' f (<[ix x := s']> rows) ∧ d_formed d' = d_formed d ∧ B x s s') →
  NoDup (ix <$> l) → (∀ x, x ∈ l → is_Some (rows !! ix x)) → View d f rows →
  tx_for l body d = Ok (d', u) →
  ∃ rows', View d' f rows' ∧ d_formed d' = d_formed d ∧ rows_step (rewritten l) rows rows'.
Proof.
  revert d rows. induction l as [|x l IH]; intros d rows Hbody Hnd Hl Hv H; cbn in H.
  { tx_inv. exists rows. split; [done|]. split; [done|]. split; [done|]. intros i s s' ??.
    simplify_eq. left. split; [done|]. by intros ?%elem_of_nil. }
  tx_inv. cbn in Hnd. apply NoDup_cons in Hnd as [Hx Hnd].
  destruct (Hl x) as [s Hs]; [by left|].
  edestruct (Hbody x) as (s1 & Hv1 & Hf1 & HB); [by left|done|done|done|].
  edestruct (IH d0) as (rows' & Hv' & Hf' & Hlen & Hstep); [|done| |exact Hv1|done|].
  - intros y d2 d3 u2 rows2 t Hy. apply Hbody. by right.
  - intros y Hy. destruct (Hl y) as [t Ht]; [by right|].
    rewrite list_lookup_insert_ne; [done|]. intros Heq. apply Hx. rewrite Heq.
    by apply list_elem_of_fmap_2.
  - exists rows'. split; [done|]. split; [congruence|]. rewrite length_insert in Hlen.
    split; [done|]. intros i t t' Ht Ht'. destruct (decide (i = ix x)) as [->|Hne].
    + simplify_eq. destruct (Hstep (ix x) s1 t') as [[-> _]|(y & Hy & Heq & _)];
        [apply list_lookup_insert_eq; by eapply lookup_lt_Some|done| |].
      * right. exists x. split; [by left|done].
      * destruct Hx. rewrite <- Heq. by apply list_elem_of_fmap_2.
    + destruct (Hstep i t t') as [[-> Hno]|(y & Hy & Heq & HBy)];
        [by rewrite list_lookup_insert_ne|done| |].
      * left. split; [done|]. cbn. by apply not_elem_of_cons.
      * right. exists y. split; [by right|done].
Qed.
End RowLoop.

(** A row of an effect wave. *)
Definition effect_row (e : Z * Z * AdmissionEffect) (s s' : StoredSeat) : Prop :=
  ∃ q t, ss_signed_quote s = Some q
    ∧ quote_verify (service_pubkey (ss_locator s)) q = Some t
    ∧ quote_id t = e.1.2 ∧ effect_of t = e.2 ∧ bindable e.1.2 e.2 s
    ∧ (is_Some (ss_replacement_for s) → ss_replacement_approved s = true)
    ∧ s' = (if bool_decide (is_Some (ss_replacement_for s))
            then with_replacement None None None false else λ s, s)
             (bind_effect e.1.2 e.2 s).

Lemma authorize_row_view d d' u f rows provenance now e i s :
  View d f rows → e.1.1 = Z.of_nat i → rows !! i = Some s →
  authorize_row (sf_formation_id f) provenance now e d = Ok (d', u) →
  ∃ s', View d' f (<[i := s']> rows) ∧ d_formed d' = d_formed d ∧ effect_row e s s'.
Proof.
  destruct e as [[index quote] kind]. cbn. intros Hv -> Hi H. unfold authorize_row in H.
  view_inv Hv. row_inv Hv Hi. destruct (_ || _) eqn:Hb in H; [done|].
  apply orb_false_iff in Hb as [Hid He]. apply negb_false_iff, Z.eqb_eq in Hid.
  apply negb_false_iff, bool_decide_eq_true in He. tx_inv.
  match goal with H : authorize_effect _ _ _ = Ok _ |- _ =>
    apply authorize_effect_Ok in H; destruct H as [-> Hst] end.
  change (ss_replacement_for (with_admission _ s)) with (ss_replacement_for s) in H.
  change (ss_replacement_approved (with_admission _ s)) with (ss_replacement_approved s) in H.
  bool_in H as Hr.
  - destruct (ss_replacement_approved s) eqn:Hap; [|done]. cbn in H. tx_inv.
    eexists. split; [by eapply View_put_seat|]. split; [done|].
    eexists _, _. rewrite bool_decide_true by done. by split_and!.
  - tx_inv. eexists. split; [by eapply View_put_seat|]. split; [done|].
    eexists _, _. rewrite bool_decide_false by done. by split_and!.
Qed.

Lemma authorize_rows_for fid provenance now seen l d d' u :
  authorize_rows fid provenance now seen l d = Ok (d', u) →
  tx_for l (authorize_row fid provenance now) d = Ok (d', u)
  ∧ NoDup ((λ e, e.1.1) <$> l) ∧ ∀ e, e ∈ l → e.1.1 ∉ seen.
Proof.
  revert seen d. induction l as [|e l IH]; cbn; intros seen d H.
  { split; [done|]. split; [constructor|]. by intros e ?%elem_of_nil. }
  bool_in H as Hs; [done|]. apply tx_bind_Ok in H as (d1 & u1 & H1 & H2).
  apply IH in H2 as (H2 & Hnd & Hno). split; [|split].
  - apply tx_bind_Ok. by eauto.
  - constructor; [|done]. intros (e' & Heq & He')%list_elem_of_fmap.
    apply (Hno _ He'). rewrite <- Heq. set_solver.
  - intros e' [->|He']%elem_of_cons; [done|]. specialize (Hno _ He'). set_solver.
Qed.

Lemma record_seat_effects_authorized_view d d' x f rows l provenance lease now :
  View d f rows → (∀ e, e ∈ l → ∃ i s, e.1.1 = Z.of_nat i ∧ rows !! i = Some s) →
  record_seat_effects_authorized (sf_formation_id f) l provenance lease now d = Ok (d', x) →
  ∃ rows', View d' f rows' ∧ d_formed d' = d_formed d
    ∧ (∀ e, e ∈ l → e.2 = PaidOutput → sf_outputs_started f = true)
    ∧ rows_step (rewritten (λ e, Z.to_nat e.1.1) effect_row l) rows rows'.
Proof.
  intros Hv Hl H. unfold record_seat_effects_authorized in H.
  destruct l as [|e0 l0]; [done|]. cbv beta iota in H.
  remember (e0 :: l0) as l eqn:El. clear El. view_inv Hv.
  destruct (existsb _ _) eqn:Hex in H; [done|]. tx_inv.
  match goal with H : authorize_rows _ _ _ _ _ _ = Ok _ |- _ =>
    apply authorize_rows_for in H; destruct H as (Hfor & Hnd & _) end.
  eapply (row_loop f (λ e, Z.to_nat e.1.1) effect_row) in Hfor
    as (rows' & Hv' & Hf' & Hstep); [| | | |exact Hv].
  - exists rows'. split; [by apply View_lease|]. split; [done|]. split; [|done].
    intros e He Hk. rewrite existsb_false in Hex. specialize (Hex e He).
    rewrite Hk, bool_decide_true in Hex by done. cbn in Hex. by apply negb_false_iff in Hex.
  - intros e d2 d3 u rows2 s He Hv2 Hs Hr. destruct (Hl e He) as (i & _ & Hi & _).
    eapply authorize_row_view; [done| |done|done]. lia.
  - change (NoDup ((Z.to_nat ∘ (λ e : Z * Z * AdmissionEffect, e.1.1)) <$> l)).
    rewrite list_fmap_compose. apply NoDup_to_nat; [|done]. intros z (e & -> & He)%list_elem_of_fmap.
    destruct (Hl e He) as (i & _ & -> & _). lia.
  - intros e He. destruct (Hl e He) as (i & s & Hi & Hs). rewrite Hi, Nat2Z.id. by exists s.
Qed.

(** ** Clearing, restoring and replacing *)

(** A row whose quote is dropped. *)
Definition cleared (started : bool) (disposition : QuoteClearDisposition)
    (x : Z * SignedQuote) (s s' : StoredSeat) : Prop :=
  ss_seat_id s = None ∧ ss_signed_quote s = Some x.2
  ∧ match disposition with
    | RefreshSameGuardian =>
        s' = with_quote None (if ss_replacement_approved s then s
                              else with_replacement None None None false s)
    | TerminalReplacement =>
        started = true
        ∧ ∃ t, quote_verify (service_pubkey (ss_locator s)) x.2 = Some t
            ∧ s' = with_quote None (with_replacement (Some (quote_id t)) (Some (ss_locator s))
                                      (Some (ad_mg_id (ss_admission s))) false s)
    end.

Lemma clear_row_view d d' u f rows started disposition x i s :
  View d f rows → x.1 = Z.of_nat i → rows !! i = Some s →
  clear_row (sf_formation_id f) started disposition x d = Ok (d', u) →
  ∃ s', View d' f (<[i := s']> rows) ∧ d_formed d' = d_formed d
        ∧ cleared started disposition x s s'.
Proof.
  destruct x as [index expected]. cbn. intros Hv -> Hi H. unfold clear_row in H.
  view_inv Hv. row_inv Hv Hi. bool_in H as Hseat; [done|].
  rewrite <- eq_None_not_Some in Hseat. bool_in H as Hq; [|done]. cbn in H.
  destruct disposition; tx_inv.
  - eexists. split; [by eapply View_put_seat|]. by split_and!.
  - destruct started; [|done]. cbn in H. tx_inv.
    eexists. split; [by eapply View_put_seat|]. split; [done|]. split_and!; [done..|]. eauto.
Qed.

(** A committed clear names every row once. *)
Lemma clear_rows_distinct f started disposition l d d' u rows :
  View d f rows → (∀ x, x ∈ l → ∃ i s, x.1 = Z.of_nat i ∧ rows !! i = Some s) →
  tx_for l (clear_row (sf_formation_id f) started disposition) d = Ok (d', u) →
  NoDup (l.*1) ∧ ∀ x i s, x ∈ l → x.1 = Z.of_nat i → rows !! i = Some s →
    ss_signed_quote s = Some x.2.
Proof.
  revert d rows. induction l as [|x l IH]; intros d rows Hv Hl H; cbn in H; tx_inv.
  { split; [constructor|]. by intros x i s ?%elem_of_nil. }
  destruct (Hl x) as (i & s & Hx & Hi); [by left|].
  match goal with H : clear_row _ _ _ _ _ = Ok _ |- _ =>
    destruct (clear_row_view _ _ _ _ _ _ _ _ _ _ Hv Hx Hi H) as (s1 & Hv1 & _ & Hc) end.
  destruct (IH _ _ Hv1) as [Hnd Hq]; [|done|].
  { intros y Hy. destruct (Hl y) as (j & t & Hj & Ht); [by right|].
    destruct (decide (i = j)) as [->|Hne].
    - exists j, s1. split; [done|]. apply list_lookup_insert_eq. by eapply lookup_lt_Some.
    - exists j, t. split; [done|]. by rewrite list_lookup_insert_ne. }
  assert (Hnone : ss_signed_quote s1 = None).
  { destruct Hc as (_ & _ & Hc). destruct disposition; [by subst|].
    by destruct Hc as (_ & t & _ & ->). }
  split; cbn.
  - constructor; [|done]. intros (y & Heq & Hy)%list_elem_of_fmap.
    rewrite (Hq y i s1) in Hnone; [done|done|congruence|].
    apply list_lookup_insert_eq. by eapply lookup_lt_Some.
  - intros y j t [->|Hy]%elem_of_cons Hj Ht.
    + assert (j = i) as -> by lia. simplify_eq. by destruct Hc as (_ & ? & _).
    + destruct (decide (i = j)) as [->|Hne].
      * rewrite (Hq y j s1) in Hnone; [done|done|done|].
        apply list_lookup_insert_eq. by eapply lookup_lt_Some.
      * apply (Hq y j t); [done|done|]. by rewrite list_lookup_insert_ne.
Qed.

Lemma clear_quotes_view d d' u f rows l disposition :
  View d f rows → (∀ x, x ∈ l → ∃ i s, x.1 = Z.of_nat i ∧ rows !! i = Some s) →
  clear_quotes_with_disposition (sf_formation_id f) l disposition d = Ok (d', u) →
  ∃ rows', View d' (without_aggregate f) rows' ∧ d_formed d' = d_formed d ∧ l ≠ []
    ∧ NoDup l.*1
    ∧ rows_step (rewritten (λ x, Z.to_nat x.1)
                   (cleared (sf_outputs_started f) disposition) l) rows rows'.
Proof.
  intros Hv Hl H. unfold clear_quotes_with_disposition in H.
  assert (Hne : l ≠ []) by (by intros ->).
  destruct l as [|x0 l0]; [done|]. cbv beta iota in H.
  remember (x0 :: l0) as l eqn:El. clear El. view_inv Hv.
  match goal with H : tx_for _ _ _ = Ok _ |- _ => rename H into Hfor end.
  destruct (clear_rows_distinct _ _ _ _ _ _ _ _ Hv Hl Hfor) as [Hnd _].
  eapply (row_loop f (λ x, Z.to_nat x.1) (cleared (sf_outputs_started f) disposition)) in Hfor
    as (rows' & Hv' & Hf' & Hstep); [| | | |exact Hv].
  - exists rows'. split; [by eapply View_put_formation|]. done.
  - intros x d2 d3 u2 rows2 s Hx Hv2 Hs Hr. destruct (Hl x Hx) as (i & _ & Hi & _).
    eapply clear_row_view; [done| |done|done]. lia.
  - change (NoDup ((Z.to_nat ∘ fst) <$> l)). rewrite list_fmap_compose.
    apply NoDup_to_nat; [|done]. intros z (x & -> & Hx)%list_elem_of_fmap.
    destruct (Hl x Hx) as (i & _ & -> & _). lia.
  - intros x Hx. destruct (Hl x Hx) as (i & s & Hi & Hs). rewrite Hi, Nat2Z.id. by exists s.
Qed.

(** An approved replacement row returned to the preview boundary. *)
Definition restored (s s' : StoredSeat) : Prop :=
  if ss_replacement_approved s
  then is_Some (ss_replacement_for s) ∧ ss_seat_id s = None
       ∧ ad_state (ss_admission s) = Fresh
       ∧ s' = with_quote None (with_replacement (ss_replacement_for s) (ss_previous_locator s)
                                 (ss_previous_mg_id s) false s)
  else s' = s.

Lemma restore_rows_from f k n d d' c rows : View d f rows → (n + k = length rows)%nat →
  restore_rows (sf_formation_id f) (Z.of_nat <$> seq n k) d = Ok (d', c) →
  ∃ rows', View d' f rows' ∧ d_formed d' = d_formed d
    ∧ rows_step (λ i s s', if (n <=? i)%nat then restored s s' else s' = s) rows rows'
    ∧ (c ≠ 0%nat → ∃ i s, rows !! i = Some s ∧ ss_replacement_approved s = true).
Proof.
  revert n d c rows. induction k as [|k IH]; intros n d c rows Hv Hn H; cbn in H; tx_inv.
  { exists rows. split; [done|]. split; [done|]. split; [|done]. split; [done|].
    intros i s s' Hs ?. simplify_eq. apply lookup_lt_Some in Hs. by destruct (Nat.leb_spec n i); [lia|]. }
  match goal with H : seat_row _ _ _ = Ok _ |- _ =>
    apply seat_row_Ok in H; destruct H as [-> Hs] end.
  destruct (lookup_lt_is_Some_2 rows n) as [s Hn']; [lia|].
  rewrite (vw_row _ _ _ Hv _ _ Hn') in Hs. injection Hs as <-.
  destruct (ss_replacement_approved s) eqn:Hap; cbn in H.
  - destruct (_ || _) eqn:Hb in H; [done|]. tx_inv.
    repeat match goal with H : _ || _ = false |- _ => apply orb_false_iff in H as [? ?] end.
    repeat match goal with
    | H : bool_decide _ = false |- _ => apply bool_decide_eq_false in H
    | H : negb (requires_effect_authorization _) = false |- _ =>
        apply negb_false_iff, bool_decide_eq_true in H
    end.
    match goal with H : restore_rows _ _ _ = Ok _ |- _ => rename H into Hrest end.
    edestruct (IH (S n)) as (rows' & Hv' & Hf' & [Hlen Hstep] & _);
      [by eapply View_put_seat|rewrite length_insert; lia|done|].
    exists rows'. split; [done|]. split; [done|]. split; [|by exists n, s].
    rewrite length_insert in Hlen. split; [done|]. intros i t t' Ht Ht'. destruct (decide (i = n)) as [->|Hne].
    + simplify_eq. assert (Hlt : (n < length rows)%nat) by lia.
      specialize (Hstep n _ t' (list_lookup_insert_eq rows n _ Hlt) Ht').
      destruct (Nat.leb_spec (S n) n); [lia|]. rewrite Nat.leb_refl. unfold restored.
      rewrite Hap. split_and!; [by apply not_eq_None_Some|by apply eq_None_not_Some|done|done].
    + specialize (Hstep i t t'). rewrite list_lookup_insert_ne in Hstep by done.
      specialize (Hstep Ht Ht'). by destruct (Nat.leb_spec n i), (Nat.leb_spec (S n) i); try lia.
  - apply IH with (rows := rows) in H as (rows' & Hv' & Hf' & [Hlen Hstep] & Hc);
      [|done|lia].
    exists rows'. split; [done|]. split; [done|]. split; [|done]. split; [done|]. intros i t t' Ht Ht'.
    specialize (Hstep i t t' Ht Ht'). destruct (decide (i = n)) as [->|Hne].
    + simplify_eq. rewrite Nat.leb_refl. unfold restored. rewrite Hap.
      by destruct (Nat.leb_spec (S n) n); [lia|].
    + by destruct (Nat.leb_spec n i), (Nat.leb_spec (S n) i); try lia.
Qed.

Lemma restore_provisional_replacements_view d d' e f rows released lease now :
  View d f rows →
  restore_provisional_replacements (sf_formation_id f) released lease now d = Ok (d', e) →
  ∃ rows', View d' (without_aggregate f) rows' ∧ d_formed d' = d_formed d
    ∧ sf_outputs_started f = true ∧ rows_step (λ _, restored) rows rows'
    ∧ ∃ i s, rows !! i = Some s ∧ ss_replacement_approved s = true.
Proof.
  intros Hv H. unfold restore_provisional_replacements in H. view_inv Hv.
  destruct (sf_outputs_started f) eqn:Hs; [|done]. cbn in H. tx_inv.
  match goal with H : restore_rows _ _ _ = Ok _ |- _ =>
    rewrite (seat_indices_eq _ _ _ Hv) in H;
    apply (restore_rows_from _ _ _ _ _ _ _ Hv) in H;
    [destruct H as (rows' & Hv' & Hf' & [Hlen Hstep] & Hc)|done] end.
  bool_in H as Hne; [done|]. tx_inv. exists rows'.
  split; [by apply View_lease; eapply View_put_formation|]. split; [done|]. split; [done|].
  split; [|by apply Hc]. split; [done|]. intros i s s' Hi Hi'.
  by specialize (Hstep i s s' Hi Hi').
Qed.

(** One row of a replacement, without the distinctness checks. *)
Definition replace_row (fid : string)
    (x : GuardianReplacementSeat * (Locator * MgAdmission)) : FaTx unit :=
  let '(requirement, (locator, admission)) := x in
  seat ← seat_row fid (gs_index requirement);
  let previous_locator := default (ss_locator seat) (ss_previous_locator seat) in
  let previous_mg_id := default (ad_mg_id (ss_admission seat)) (ss_previous_mg_id seat) in
  if bool_decide (is_Some (ss_seat_id seat)) || bool_decide (is_Some (ss_signed_quote seat))
     || ss_replacement_approved seat
     || negb (bool_decide (ss_replacement_for seat = Some (gs_previous_quote_id requirement)))
     || negb (bool_decide (previous_locator = gs_previous_locator requirement))
     || negb (previous_mg_id =? gs_previous_mg_id requirement)
  then tx_err Storage
  else put_seat fid (gs_index requirement)
         (with_admission admission (with_locator locator
            (with_replacement (ss_replacement_for seat) (Some previous_locator)
               (Some previous_mg_id) true seat))).

Definition replaced (x : GuardianReplacementSeat * (Locator * MgAdmission))
    (s s' : StoredSeat) : Prop :=
  ss_seat_id s = None ∧ ss_signed_quote s = None ∧ is_Some (ss_replacement_for s)
  ∧ ∃ locator mg_id,
      s' = with_admission x.2.2 (with_locator x.2.1
             (with_replacement (ss_replacement_for s) (Some locator) (Some mg_id) true s)).

Lemma replace_row_view d d' u f rows x i s :
  View d f rows → gs_index x.1 = Z.of_nat i → rows !! i = Some s →
  replace_row (sf_formation_id f) x d = Ok (d', u) →
  ∃ s', View d' f (<[i := s']> rows) ∧ d_formed d' = d_formed d ∧ replaced x s s'.
Proof.
  destruct x as [r [locator admission]]. cbn. intros Hv Hr Hi H. rewrite Hr in H.
  view_inv Hv. row_inv Hv Hi. destruct (_ || _) eqn:Hb in H; [done|]. tx_inv.
  repeat match goal with H : _ || _ = false |- _ => apply orb_false_iff in H as [? ?] end.
  repeat match goal with
  | H : bool_decide _ = false |- _ => apply bool_decide_eq_false in H
  | H : negb (bool_decide _) = false |- _ => apply negb_false_iff, bool_decide_eq_true in H
  end.
  eexists. split; [by eapply View_put_seat|]. split; [done|].
  split_and!; [by apply eq_None_not_Some|by apply eq_None_not_Some|by eexists|by eexists _, _].
Qed.

Lemma replace_rows_for fid keys holders l d d' u :
  replace_rows fid keys holders l d = Ok (d', u) →
  tx_for l (replace_row fid) d = Ok (d', u)
  ∧ NoDup ((λ x, service_pubkey x.2.1) <$> l)
  ∧ (∀ x, x ∈ l → service_pubkey x.2.1 ∉ keys)
  ∧ NoDup (omap (λ x, ad_holder x.2.2) l)
  ∧ (∀ x h, x ∈ l → ad_holder x.2.2 = Some h → h ∉ holders).
Proof.
  revert keys holders d. induction l as [|[r [locator admission]] l IH];
    intros keys holders d H; cbn in H.
  { split_and!; cbn; [done|apply NoDup_nil_2| |apply NoDup_nil_2|].
    - by intros x ?%elem_of_nil.
    - by intros x h ?%elem_of_nil. }
  apply tx_bind_Ok in H as (d1 & s & H1 & H). cbn zeta in H.
  destruct (_ || _) eqn:Hb in H; [done|]. bool_in H as Hk; [done|].
  destruct (match ad_holder admission with Some _ => _ | None => _ end) eqn:Hh in H; [done|].
  apply tx_bind_Ok in H as (d2 & u2 & H2 & H). apply IH in H as (Hfor & Hnk & Hk' & Hnh & Hh').
  split; [|split_and!].
  - cbn. apply tx_bind_Ok. exists d2, u2. split; [|done].
    apply tx_bind_Ok. exists d1, s. split; [done|]. cbn zeta. by rewrite Hb.
  - cbn. constructor; [|done]. intros (x & Heq & Hx)%list_elem_of_fmap.
    apply (Hk' _ Hx). rewrite <- Heq. set_solver.
  - intros x [->|Hx]%elem_of_cons; [done|]. specialize (Hk' _ Hx). set_solver.
  - cbn. destruct (ad_holder admission) as [h|] eqn:Ha; [|done]. constructor; [|done].
    intros (x & Hx & Heq)%list_elem_of_omap. apply (Hh' _ _ Hx Heq). set_solver.
  - intros x h [->|Hx]%elem_of_cons Hxh; cbn in *.
    + rewrite Hxh in Hh. by apply bool_decide_eq_false in Hh.
    + specialize (Hh' _ _ Hx Hxh). destruct (ad_holder admission); set_solver.
Qed.

Lemma retained_rows_Ok d f rows replaced l keys holders d' r :
  View d f rows → (∀ i, i ∈ l → i ∈ seat_indices f) →
  retained_rows (sf_formation_id f) replaced l keys holders d = Ok (d', r) →
  d' = d ∧ keys ⊆ r.1 ∧ holders ⊆ r.2
  ∧ ∀ j s, rows !! j = Some s → Z.of_nat j ∈ l → Z.of_nat j ∉ replaced →
      service_pubkey (ss_locator s) ∈ r.1
      ∧ ∀ h, ad_holder (ss_admission s) = Some h → h ∈ r.2.
Proof.
  intros Hv. revert keys holders. induction l as [|i l IH]; intros keys holders Hl H; cbn in H.
  { tx_inv. cbn. split_and!; [done..|]. by intros ??? ?%elem_of_nil. }
  assert (Hl' : ∀ i, i ∈ l → i ∈ seat_indices f) by (intros; apply Hl; by right).
  bool_in H as Hrep.
  { destruct (IH _ _ Hl' H) as (-> & Hks & Hhs & Hall). split_and!; [done..|].
    intros j s Hj [<-|Hin]%elem_of_cons Hno; [done|by apply (Hall j)]. }
  view_inv Hv. bool_in H as Hk; [done|].
  destruct (IH _ _ Hl' H) as (-> & Hks & Hhs & Hall).
  split_and!; [done|set_solver| |].
  { destruct (ad_holder (ss_admission a)); set_solver. }
  intros j s Hj [<-|Hin]%elem_of_cons Hno; [|by apply (Hall j)]. row_inv Hv Hj.
  split; [set_solver|]. intros h Hh. rewrite Hh in Hhs. set_solver.
Qed.

Lemma replace_guardians_view d d' u f rows (q : GuardianReplacementRequirements) l cap :
  View d f rows → (∀ r, r ∈ gr_seats q → ∃ i s, gs_index r = Z.of_nat i ∧ rows !! i = Some s) →
  replace_guardians (sf_formation_id f) q l cap d = Ok (d', u) →
  ∃ rows', let changes := zip (gr_seats q) l in
    View d' (with_renewed_cap cap f) rows' ∧ d_formed d' = d_formed d
    ∧ sf_outputs_started f = true ∧ sf_payment_reservation_id f = None
    ∧ length (gr_seats q) = length l
    ∧ rows_step (rewritten (λ x, Z.to_nat (gs_index x.1)) replaced changes) rows rows'
    ∧ NoDup (omap (λ x, ad_holder x.2.2) changes)
    ∧ (∀ x h, x ∈ changes → ad_holder x.2.2 = Some h → ∀ j s, rows !! j = Some s →
         Z.of_nat j ∉ gs_index <$> gr_seats q → ad_holder (ss_admission s) ≠ Some h)
    ∧ NoDup (gs_index <$> gr_seats q).
Proof.
  intros Hv Hl H. unfold replace_guardians in H. destruct (_ || _) eqn:Hb in H; [done|].
  apply orb_false_iff in Hb as [Hb _]. apply negb_false_iff, bool_decide_eq_true in Hb.
  view_inv Hv. destruct (sf_outputs_started f) eqn:Hs; [|done]. cbn in H.
  bool_in H as Hres; [done|]. apply eq_None_not_Some in Hres. bool_in H as Hnd; [|done].
  cbn in H. tx_inv.
  match goal with H : retained_rows _ _ _ _ _ _ = Ok (_, ?r) |- _ =>
    apply (retained_rows_Ok _ _ _ _ _ _ _ _ _ Hv) in H; [|done];
    destruct H as (-> & _ & _ & Hret); destruct r as [keys holders] end. tx_inv.
  match goal with H : replace_rows _ _ _ _ _ = Ok _ |- _ =>
    apply replace_rows_for in H; destruct H as (Hfor & _ & _ & Hnh & Hh) end.
  assert (Hfst : ∀ x, x ∈ zip (gr_seats q) l → x.1 ∈ gr_seats q).
  { intros [r y] Hx. by apply elem_of_zip_l in Hx. }
  eapply (row_loop f (λ x, Z.to_nat (gs_index x.1)) replaced) in Hfor
    as (rows' & Hv' & Hf' & Hstep); [| | | |exact Hv].
  - exists rows'. cbn zeta. split_and!; try done; [by eapply View_put_formation|].
    intros x h Hx Hxh j s Hj Hno Heq. apply (Hh x h Hx Hxh).
    apply (Hret j s Hj); [| |done].
    + apply elem_of_seqZ. apply lookup_lt_Some in Hj. destruct Hv as [_ Hlen _]. lia.
    + by rewrite elem_of_list_to_set.
  - intros x d2 d3 u2 rows2 s Hx Hv2 Hi Hr. destruct (Hl _ (Hfst _ Hx)) as (i & _ & Hi' & _).
    eapply replace_row_view; [done| |done|done]. lia.
  - change (NoDup ((Z.to_nat ∘ gs_index ∘ fst) <$> zip (gr_seats q) l)).
    rewrite list_fmap_compose, fst_zip by lia. rewrite list_fmap_compose.
    apply NoDup_to_nat; [|done]. intros z (r & -> & Hr)%list_elem_of_fmap.
    destruct (Hl r Hr) as (i & _ & -> & _). lia.
  - intros x Hx. destruct (Hl _ (Hfst _ Hx)) as (i & s & Hi & Hs'). rewrite Hi, Nat2Z.id. by exists s.
Qed.

(** ** Creating a formation *)

Lemma put_rows_Ok fid (l : list InitialSeat) n d d' u :
  (∀ i x, l !! i = Some x → is_index x = Z.of_nat (n + i)) →
  tx_for l (λ x, put_seat fid (is_index x) (new_row x)) d = Ok (d', u) →
  d_formation d' = d_formation d ∧ d_formed d' = d_formed d
  ∧ (∀ i x, l !! i = Some x → d_seats d' !! (fid, Z.of_nat (n + i)) = Some (new_row x))
  ∧ ∀ i, (i < n)%nat → d_seats d' !! (fid, Z.of_nat i) = d_seats d !! (fid, Z.of_nat i).
Proof.
  revert n d. induction l as [|x l IH]; intros n d Hl H; cbn in H; tx_inv; [done|].
  assert (Hs : is_index x = Z.of_nat n) by (rewrite (Hl 0%nat x) by done; lia).
  apply (IH (S n)) in H as (Hf & Hfd & Hnew & Hold).
  - cbn in *. split_and!; [done|done| |].
    + intros [|i] t Ht; cbn in Ht; simplify_eq.
      * rewrite Nat.add_0_r, Hold by lia. rewrite Hs. by rewrite lookup_insert_eq.
      * rewrite Nat.add_succ_r. by apply Hnew.
    + intros i Hi. rewrite Hold by lia. rewrite Hs. apply lookup_insert_ne. intros [=]. lia.
  - intros i t Ht. rewrite (Hl (S i) t) by done. lia.
Qed.

Lemma initialize_view d d' u fa_id fid intent seats payer callback :
  (∀ i x, seats !! i = Some x → is_index x = Z.of_nat i) →
  initialize fa_id fid intent seats payer callback d = Ok (d', u) →
  d_formation d = None ∧ d_formed d = None ∧ d_formed d' = None
  ∧ Z.of_nat (length seats) <= u16_max
  ∧ View d' {| sf_schema_version := STORAGE_SCHEMA_VERSION; sf_fa_id := Some fa_id;
               sf_formation_id := fid; sf_phase := Initialized; sf_intent := intent;
               sf_seat_count := Z.of_nat (length seats); sf_payment_federation_id := payer;
               sf_payment_authorization := None; sf_payment_reservation_id := None;
               sf_release_intended := false; sf_authorization_recorded := false;
               sf_outputs_started := false; sf_invite_code := None;
               sf_formation_meta_target := None;
               sf_dkg_completion_callback := Present callback |} (new_row <$> seats).
Proof.
  intros Hidx H. unfold initialize in H. tx_inv.
  match goal with H : try_from_u _ _ = Some _ |- _ =>
    apply try_from_u_Some in H; destruct H as [-> Hlen] end.
  destruct (_ || _) eqn:Hb in H; [done|]. apply orb_false_iff in Hb as [Hf Hfd].
  apply bool_decide_eq_false, eq_None_not_Some in Hf, Hfd. tx_inv.
  apply (put_rows_Ok _ _ 0%nat) in H as (Hf' & Hfd' & Hnew & _); [|done].
  split_and!; [done|done|by rewrite Hfd'|lia|]. split; cbn.
  - by rewrite Hf'.
  - by rewrite length_fmap.
  - intros i s Hi. rewrite list_lookup_fmap in Hi.
    destruct (seats !! i) as [x|] eqn:Hx; [|done]. cbn in Hi. simplify_eq. by apply (Hnew i).
Qed.

End Views.
End Views.
