(* ===== verification/FaWf.v ===== *)
(** * Every transaction keeps the formation well-formed

    The updates of [FaViews] preserve [Wf] under the conditions the driver
    establishes before it commits them. *)

From S2P Require Import Prelude FaSchema FaQuotes FaStore FaProg FaCalls FaDriver FaFormation FaLogic FaInvariant FaViews.
From stdpp Require Import base gmap strings list.
From Stdlib Require Import ZArith Lia.
Open Scope Z_scope.

Module WellFormed.
Import Fa Quotes Store Run Calls Driver Formation Logic Inv Views.

Section WellFormed.
Context {CR : Crypto}.
Variable fa_id : Z.
Implicit Types (f : StoredFormation) (rows : list StoredSeat) (s : StoredSeat).
Abbreviation Wf := (Inv.Wf fa_id).
Abbreviation RowOk := (Inv.RowOk fa_id).
Abbreviation quote_ok := (Inv.quote_ok fa_id).

(** ** Quotes *)

Lemma quote_verify_Some key q t : quote_verify key q = Some t → t = sq_terms q.
Proof. unfold quote_verify. by destruct (verifies key q); intros [=]. Qed.

(** What a verified quote satisfies, at any index. *)
Record verified (q : SignedQuote) (l : Locator) (intent : ResolvedFormationIntent)
    (payer : option string) : Prop := {
  ve_signature : quote_verify (service_pubkey l) q = Some (sq_terms q);
  ve_request : request_matches intent fa_id (qt_request (sq_terms q)) = true;
  ve_coherent : check_coherent (sq_terms q) = Ok tt;
  ve_payer : ∀ p pay, payer = Some p → qt_payment (sq_terms q) = Some pay →
    payment_federation pay = p
}.

Lemma verify_quote_Ok index q l intent payer t :
  verify_quote index q l intent fa_id payer = Ok t → t = sq_terms q ∧ verified q l intent payer.
Proof.
  unfold verify_quote. intros H. apply res_bind_Ok in H as (t' & Ht & H).
  destruct (quote_verify (service_pubkey l) q) as [t1|] eqn:Hv; [|done]. injection Ht as <-.
  pose proof (quote_verify_Some _ _ _ Hv) as ->.
  destruct (request_matches _ _ _) eqn:Hm; [|done]. cbn in H.
  destruct (match payer with Some _ => _ | None => _ end) eqn:Hp; [done|].
  destruct (check_coherent (sq_terms q)) as [[]|e|] eqn:Hc; [|done|done].
  injection H as <-. split; [done|]. split; [done|done|done|].
  intros p pay -> Hpay. rewrite Hpay in Hp. by apply negb_false_iff, bool_decide_eq_true in Hp.
Qed.

Lemma verified_quote index q l intent payer :
  verified q l intent payer → verify_quote index q l intent fa_id payer = Ok (sq_terms q).
Proof.
  intros [Hs Hr Hc Hp]. unfold verify_quote. rewrite Hs. cbn. rewrite Hr. cbn.
  destruct payer as [p|], (qt_payment (sq_terms q)) as [pay|] eqn:Hpay; cbn;
    try by rewrite Hc.
  rewrite bool_decide_true by by apply (Hp p pay). cbn. by rewrite Hc.
Qed.

Lemma quote_ok_verified f s q : quote_ok f s q →
  verified q (ss_locator s) (sf_intent f) (sf_payment_federation_id f).
Proof. intros [Hv _]. by destruct (verify_quote_Ok _ _ _ _ _ _ (Hv 0)). Qed.

Lemma quote_ok_verify f s q t : quote_ok f s q →
  quote_verify (service_pubkey (ss_locator s)) q = Some t ↔ t = sq_terms q.
Proof.
  intros Hq. rewrite (ve_signature _ _ _ _ (quote_ok_verified _ _ _ Hq)). naive_solver.
Qed.

Lemma quote_ok_price f s q : quote_ok f s q → 0 <= qt_price_msats (sq_terms q).
Proof.
  intros Hq. pose proof (ve_coherent _ _ _ _ (quote_ok_verified _ _ _ Hq)) as Hc.
  unfold check_coherent in Hc. destruct (qt_payment (sq_terms q)).
  - destruct (0 <? qt_price_msats (sq_terms q)) eqn:Hp; [|done]. apply Z.ltb_lt in Hp. lia.
  - destruct (qt_price_msats (sq_terms q) =? 0) eqn:Hp; [|done]. apply Z.eqb_eq in Hp. lia.
Qed.

(** ** One row *)

Lemma is_Some_None {A} : ¬ is_Some (@None A).
Proof. by intros [? ?]. Qed.
Lemma bd_Some {A} (a : A) : bool_decide (is_Some (Some a)) = true.
Proof. by apply bool_decide_true. Qed.
Lemma bd_None {A} : bool_decide (is_Some (@None A)) = false.
Proof. by apply bool_decide_false, is_Some_None. Qed.

Lemma seat_consistent_spec s : seat_consistent s = true ↔ Consistent s.
Proof.
  unfold seat_consistent, requires_effect_authorization. cbn zeta.
  rewrite !andb_true_iff, Bool.eqb_true_iff. split.
  - intros (((((((H1 & H2) & H3) & H4) & H5) & H6) & H7) & H8). split.
    + intros Hr. rewrite Hr, bd_None in H1. cbn in H1. apply negb_true_iff, orb_false_iff in H1.
      by rewrite bool_decide_eq_false, <- eq_None_not_Some in H1.
    + intros Ha. rewrite Ha in H2. cbn in H2. apply negb_true_iff, orb_false_iff in H2.
      rewrite bool_decide_eq_false, negb_false_iff, bool_decide_eq_true in H2.
      by rewrite <- not_eq_None_Some.
    + intros [? Hq] [? Hr]. rewrite Hq, Hr, !bd_Some in H3. cbn in H3.
      by destruct (ss_replacement_approved s).
    + intros [? Hs]. rewrite Hs, bd_Some in H4. cbn in H4.
      by apply negb_true_iff, bool_decide_eq_false, eq_None_not_Some in H4.
    + intros [? Hs]. rewrite Hs, bd_Some in H5. cbn in H5.
      by apply negb_true_iff, bool_decide_eq_false, not_eq_None_Some in H5.
    + intros [? Hc]. rewrite Hc, bd_Some in H6. cbn in H6.
      by rewrite negb_involutive in H6; apply bool_decide_eq_true in H6.
    + rewrite <- (bool_decide_eq_true (is_Some (ss_seat_id s))), H7.
      apply bool_decide_eq_true.
    + intros a Ha. by rewrite Ha in H8.
  - intros [C1 C2 C3 C4 C5 C6 C7 C8]. split_and!.
    + destruct (ss_replacement_for s); [by rewrite bd_Some|]. destruct C1 as [-> ->]; [done|].
      done.
    + destruct (ss_replacement_approved s); [|done]. destruct C2 as [[l ->] ->]; [done|].
      done.
    + destruct (ss_signed_quote s); [|done]. destruct (ss_replacement_for s); [|done].
      by rewrite C3.
    + destruct (ss_seat_id s); [|done]. by rewrite C4.
    + destruct (ss_seat_id s); [|done]. by destruct C5 as [q ->].
    + destruct (ss_guardian_code s); [|done]. by destruct C6 as [z ->].
    + by apply bool_decide_ext.
    + destruct (ss_guardian_fee_account s); [by apply C8|done].
Qed.

Lemma validate_effect_spec f s started :
  (∀ q, ss_signed_quote s = Some q → quote_ok f s q) →
  validate_effect started s = Ok tt ↔ EffectOk started s.
Proof.
  intros Hq. unfold validate_effect, EffectOk, authorized_effect.
  destruct (ad_state (ss_admission s)) as [|quote kind].
  { case_bool_decide as Hs; rewrite eq_None_not_Some; naive_solver. }
  destruct (ss_signed_quote s) as [q|] eqn:Eq.
  - rewrite (ve_signature _ _ _ _ (quote_ok_verified _ _ _ (Hq q eq_refl))). cbn.
    destruct (bool_decide_reflect (effect_of (sq_terms q) = kind)) as [He|He]; cbn;
      [|split; [done|by intros [[_ ?] _]]].
    destruct (Z.eqb_spec (quote_id (sq_terms q)) quote); cbn; [|split; [done|by intros [[? _] _]]].
    destruct kind, started; cbn; split; try done; intros [_ Hp]; by discriminate Hp.
  - destruct (bool_decide_reflect (ss_replacement_for s = Some quote)) as [Hr|Hr]; cbn;
      [|split; [done|by intros [? _]]]. rewrite Z.eqb_refl. cbn.
    destruct kind, started; cbn; split; try done; intros [_ Hp]; by discriminate Hp.
Qed.

(** ** Updates that keep the frame *)

Definition same_guardian s s' : Prop :=
  ad_holder (ss_admission s') = ad_holder (ss_admission s)
  ∧ ad_mg_id (ss_admission s') = ad_mg_id (ss_admission s)
  ∧ ss_locator s' = ss_locator s.
(** Same acceptance; a code stays recorded. *)
Definition keeps s s' : Prop :=
  ss_seat_id s' = ss_seat_id s
  ∧ (is_Some (ss_guardian_code s) → is_Some (ss_guardian_code s')).

(** Same record but for the aggregate. *)
Definition same_record f f' : Prop :=
  validate_schema_and_owner f' fa_id = validate_schema_and_owner f fa_id
  ∧ sf_seat_count f' = sf_seat_count f
  ∧ in_federation_size (sf_intent f') = in_federation_size (sf_intent f)
  ∧ sf_phase f' = sf_phase f
  ∧ sf_formation_meta_target f' = sf_formation_meta_target f
  ∧ sf_invite_code f' = sf_invite_code f.

(** Position [i] goes from [s] to [s']; the others stay. *)
Definition at_row (i : nat) s s' (j : nat) t t' : Prop :=
  (j = i ∧ t = s ∧ t' = s') ∨ (j ≠ i ∧ t' = t).

Lemma insert_step rows i s s' : rows !! i = Some s →
  rows_step (at_row i s s') rows (<[i := s']> rows).
Proof.
  intros Hi. split; [by rewrite length_insert|]. intros j t t' Ht Ht'.
  destruct (decide (i = j)) as [->|].
  - rewrite list_lookup_insert_eq in Ht' by by eapply lookup_lt_Some. simplify_eq. by left.
  - rewrite list_lookup_insert_ne in Ht' by done. simplify_eq. by right.
Qed.

Lemma rows_step_impl (R R' : nat → StoredSeat → StoredSeat → Prop) rows rows' :
  rows_step R rows rows' →
  (∀ i s s', rows !! i = Some s → rows' !! i = Some s' → R i s s' → R' i s s') →
  rows_step R' rows rows'.
Proof. intros [Hl HR] Himpl. split; [done|]. eauto. Qed.

Lemma rows_step_back R rows rows' i s : rows_step R rows rows' → rows !! i = Some s →
  ∃ s', rows' !! i = Some s' ∧ R i s s'.
Proof.
  intros [Hl HR] Hi. destruct (rows' !! i) as [s'|] eqn:Hs; [by eauto|].
  apply lookup_ge_None in Hs. apply lookup_lt_Some in Hi. lia.
Qed.

Lemma created_count_step R rows rows' : rows_step R rows rows' →
  (∀ i s s', R i s s' → is_Some (ss_seat_id s) ↔ is_Some (ss_seat_id s')) →
  created_count rows' = created_count rows.
Proof.
  intros [Hl HR] Hseat. unfold created_count. f_equal. revert rows' Hl R HR Hseat.
  induction rows as [|s rows IH]; intros [|s' rows'] Hl R HR Hseat; try done.
  assert (Hs : is_Some (ss_seat_id s) ↔ is_Some (ss_seat_id s')) by by eapply (Hseat 0%nat), HR.
  cbn in Hl. specialize (IH rows' ltac:(lia) (λ i, R (S i)) (λ i, HR (S i)) (λ i, Hseat (S i))).
  rewrite !filter_cons. destruct (decide (is_Some (ss_seat_id s))), (decide (is_Some (ss_seat_id s')));
    cbn; rewrite ?IH; tauto.
Qed.

Lemma Distinct_step R rows rows' : rows_step R rows rows' →
  (∀ i s s', R i s s' → same_guardian s s') → Distinct rows → Distinct rows'.
Proof.
  intros Hs Hk [Dh Dm Dk]. split; intros i j s s' *; intros Hi Hj;
    destruct (rows_step_lookup _ _ _ _ _ Hs Hi) as (t & Ht & (Eh & Em & El)%Hk),
             (rows_step_lookup _ _ _ _ _ Hs Hj) as (t' & Ht' & (Eh' & Em' & El')%Hk).
  - rewrite Eh, Eh'. by apply Dh.
  - rewrite Em, Em'. by apply Dm.
  - rewrite El, El'. by apply Dk.
Qed.

Lemma WfBase_step R f f' rows rows' : WfBase fa_id f rows → same_record f f' →
  rows_step R rows rows' → (∀ i s s', R i s s' → keeps s s') → WfBase fa_id f' rows'.
Proof.
  intros [Hsch Hsz Hu Hp Hf Ht Hi Hc] (Es & Ec & Ez & Ep & Et & Ei) Hs Hk.
  split; rewrite ?Es, ?Ec, ?Ez, ?Ep, ?Et, ?Ei; try done.
  - unfold phase_ok in *. rewrite Ep, Ec, (created_count_step _ _ _ Hs); [done|].
    intros i s s' [E _]%Hk. by rewrite E.
  - intros Hd i s' Hi'. destruct (rows_step_lookup _ _ _ _ _ Hs Hi') as (s & Hi0 & HR).
    apply Hk in HR as [_ Hcode]. by eapply Hcode, Hc.
Qed.

Definition same_terms_of f f' : Prop :=
  sf_payment_federation_id f' = sf_payment_federation_id f
  ∧ ∀ r, request_matches (sf_intent f') fa_id r = request_matches (sf_intent f) fa_id r.

Lemma quote_ok_frame f f' s s' q : same_terms_of f f' → ss_locator s' = ss_locator s →
  quote_ok f s q → quote_ok f' s' q.
Proof.
  intros [Ep Er] El Hq. destruct (quote_ok_verified _ _ _ Hq) as [Hs Hr Hc Hp].
  split; [|apply Hq]. intros index. apply verified_quote. rewrite El, Ep.
  by split; [|rewrite Er| |].
Qed.

Lemma RowOk_frame f f' i s : same_terms_of f f' →
  (sf_outputs_started f = true → sf_outputs_started f' = true) → RowOk f i s → RowOk f' i s.
Proof.
  intros Ht Hs [Hi Hq He Hc Hp]. split; [done| | |done|done].
  - intros q Eq. by eapply quote_ok_frame, Hq.
  - unfold EffectOk in *. destruct (ad_state (ss_admission s)); naive_solver.
Qed.

(** Pre-output rows and rows without a quote are not bound to an effect. *)
Lemma RowOk_fresh f i s : RowOk f i s → ss_seat_id s = None → ss_signed_quote s = None →
  (is_Some (ss_replacement_for s) → ss_replacement_approved s = true) →
  ad_state (ss_admission s) = Fresh.
Proof.
  intros [_ _ He Hc _] Hs Hq Hr. unfold EffectOk in He. rewrite Hq in He.
  destruct (ad_state (ss_admission s)) eqn:Ha; [done|]. destruct He as [He _].
  destruct (co_approved _ Hc) as [_ ?]; [apply Hr; by rewrite He|congruence].
Qed.

(** A bound row that keeps its quote is not a replacement row. *)
Lemma RowOk_bound f i s q o k : RowOk f i s → ss_signed_quote s = Some q →
  ad_state (ss_admission s) = EffectAuthorized o k → ss_replacement_for s = None.
Proof.
  intros [_ _ _ Hc _] Hq Ha. destruct (ss_replacement_for s) eqn:Hr; [|done].
  destruct (co_approved _ Hc) as [_ ?]; [|congruence].
  apply (co_quoted _ Hc); [by rewrite Hq|by rewrite Hr].
Qed.

(** Without an aggregate no quoted row is bound to outputs. *)
Lemma Wf_no_auth_paid f rows i s q o : Wf f rows → sf_payment_authorization f = None →
  rows !! i = Some s → ss_seat_id s = None → ss_signed_quote s = Some q →
  ad_state (ss_admission s) = EffectAuthorized o PaidOutput → False.
Proof.
  intros Hw Ha Hi Hs Hq Hp. destruct (wf_paid _ _ _ Hw _ _ _ _ Hi Hs Hq Hp) as (a & ? & _).
  congruence.
Qed.

(** An incomplete formation has no aggregate. *)
Lemma Wf_wanting f rows i s : Wf f rows → rows !! i = Some s → ss_seat_id s = None →
  ss_signed_quote s = None → sf_payment_authorization f = None.
Proof.
  intros Hw Hi Hs Hq. destruct (sf_payment_authorization f) as [a|] eqn:Ha; [|done].
  destruct (ao_complete _ _ _ (wf_auth _ _ _ Hw _ Ha) _ _ Hi) as [[? E]|[? E]]; congruence.
Qed.

Lemma Wf_no_reservation f rows : Wf f rows → sf_payment_authorization f = None →
  sf_payment_reservation_id f = None ∧ sf_release_intended f = false.
Proof.
  intros Hw Ha. destruct (sf_payment_reservation_id f) eqn:Hr.
  { destruct (wf_reservation _ _ _ Hw) as [a E]; [by rewrite Hr|congruence]. }
  split; [done|]. destruct (sf_release_intended f) eqn:Hrel; [|done].
  destruct (wf_release _ _ _ Hw Hrel). congruence.
Qed.

(** Find the old row behind a row of the updated list. *)
Ltac old_row Hs :=
  repeat match goal with
  | H : ?rows' !! _ = Some _ |- _ =>
      match type of Hs with rows_step _ _ rows' =>
        let t := fresh "t" in let Ht := fresh "Ht" in let HR := fresh "HR" in
        apply (rows_step_lookup _ _ _ _ _ Hs) in H; destruct H as (t & Ht & HR)
      end
  end.

(** ** Transactions *)

(** [store_quote]. *)
Lemma store_quote_wf f rows i s q :
  Wf f rows → rows !! i = Some s → ss_seat_id s = None → ss_signed_quote s = None →
  (is_Some (ss_replacement_for s) → ss_replacement_approved s = true) → quote_ok f s q →
  Wf (with_authorization None f) (<[i := with_quote (Some q) s]> rows).
Proof.
  intros Hw Hi Hseat Hnone Hrep Hq.
  assert (Ha := Wf_wanting _ _ _ _ Hw Hi Hseat Hnone).
  destruct (Wf_no_reservation _ _ Hw Ha) as [Hr Hrel].
  assert (Hfresh := RowOk_fresh _ _ _ (wf_row _ _ _ Hw _ _ Hi) Hseat Hnone Hrep).
  pose proof (insert_step rows i s (with_quote (Some q) s) Hi) as Hs.
  split.
  - eapply WfBase_step; [apply Hw|done|exact Hs|].
    by intros j t t' [(-> & -> & ->)|[_ ->]].
  - eapply Distinct_step; [exact Hs| |apply Hw].
    by intros j t t' [(-> & -> & ->)|[_ ->]].
  - intros j t' Ht'. old_row Hs. destruct HR as [(-> & -> & ->)|[_ ->]].
    + destruct (wf_row _ _ _ Hw _ _ Ht) as [Ri Rq Re Rc Rp]. split; [done| | | |done].
      * intros q' [= <-]. by eapply quote_ok_frame.
      * unfold EffectOk. cbn. by rewrite Hfresh.
      * destruct Rc. by split.
    + by apply (RowOk_frame f), (wf_row _ _ _ Hw).
  - done.
  - cbn. by rewrite Hr.
  - cbn. by rewrite Hrel.
  - cbn. intros Hst j t' Ht'. old_row Hs.
    destruct HR as [(-> & -> & ->)|[_ ->]]; by apply (wf_unstarted _ _ _ Hw Hst _ _ Ht).
  - intros j t' Ht' Hjr j2 t2' Ht2'. old_row Hs. eassert _ as Hx.
    { eapply (wf_replacing _ _ _ Hw); [exact Ht0| |exact Ht].
      by destruct HR0 as [(-> & -> & ->)|[_ ->]]. }
    by destruct HR as [(-> & -> & ->)|[_ ->]].
  - cbn. intros j t' q' o Ht' Hs' Hq' Hst. old_row Hs.
    destruct HR as [(-> & -> & ->)|[_ ->]]; [cbn in Hst; congruence|].
    exfalso. by eapply Wf_no_auth_paid.
  - done.
Qed.

(** The aggregate survives an update that keeps quotes and only accepts rows. *)
Lemma AuthOk_step R f f' rows rows' a : AuthOk f rows a →
  sf_authorization_recorded f' = true → rows_step R rows rows' →
  (∀ i s s', R i s s' → ss_signed_quote s' = ss_signed_quote s
     ∧ (is_Some (ss_seat_id s) → is_Some (ss_seat_id s'))) →
  AuthOk f' rows' a.
Proof.
  intros [_ Hne Hq Hcomp Hcov] Hrec Hs HR. split; [done|done| | |].
  - intros m Hm. destruct (Hq m Hm) as (i & s & q & Ei & Hi & Eq & Hid & Hp).
    destruct (rows_step_back _ _ _ _ _ Hs Hi) as (s' & Hi' & [Eq' _]%HR).
    exists i, s', q. split_and!; [done|done|congruence|done|done].
  - intros i s' Hi'. destruct (rows_step_lookup _ _ _ _ _ Hs Hi') as (s & Hi & [Eq Hseat]%HR).
    rewrite Eq. destruct (Hcomp _ _ Hi); auto.
  - intros i s' q Hi' Hseat' Hq' Hp.
    destruct (rows_step_lookup _ _ _ _ _ Hs Hi') as (s & Hi & [Eq Hseat]%HR).
    apply (Hcov i s); [done| |congruence|done].
    destruct (ss_seat_id s); [|done]. destruct Hseat as [? E]; [done|congruence].
Qed.

Lemma created_count_all rows : (∀ i s, rows !! i = Some s → is_Some (ss_seat_id s)) →
  created_count rows = Z.of_nat (length rows).
Proof.
  intros Hall. unfold created_count. f_equal.
  induction rows as [|s rows IH]; [done|]. rewrite filter_cons.
  rewrite decide_True by by apply (Hall 0%nat). cbn. f_equal. apply IH.
  intros i t Hi. by apply (Hall (S i)).
Qed.
Lemma created_count_pos rows i s : rows !! i = Some s → is_Some (ss_seat_id s) →
  0 < created_count rows.
Proof.
  intros Hi Hs. unfold created_count.
  assert (s ∈ filter (λ s, is_Some (ss_seat_id s)) rows).
  { apply list_elem_of_filter. split; [done|]. by eapply list_elem_of_lookup_2. }
  destruct (filter _ rows); [by apply elem_of_nil in H|cbn; lia].
Qed.
Lemma created_count_lt rows i s : rows !! i = Some s → ss_seat_id s = None →
  created_count rows < Z.of_nat (length rows).
Proof.
  intros Hi Hs. unfold created_count. apply Nat2Z.inj_lt.
  revert i Hi. induction rows as [|t rows IH]; intros i Hi; [done|]. rewrite filter_cons.
  assert (Hle : (length (filter (λ s, is_Some (ss_seat_id s)) rows) <= length rows)%nat)
    by apply length_filter.
  destruct i as [|i]; cbn in Hi; simplify_eq.
  - rewrite decide_False by (rewrite Hs; apply is_Some_None). cbn. lia.
  - specialize (IH i Hi). destruct (decide _); cbn; lia.
Qed.

Lemma RowOk_accept f p i s q seat account : RowOk f i s → ss_signed_quote s = Some q →
  ss_replacement_for s = None → is_Some (authorized_effect (ss_admission s)) →
  fee_account_ok account = true → RowOk (with_phase p f) i (with_acceptance seat account s).
Proof.
  intros [Ri Rq Re Rc Rp] Hq Hrep [e He] Hfee. split; [done| | | |done].
  - intros q' Eq. apply (quote_ok_frame f _ s); [done|done|by apply Rq].
  - unfold EffectOk, authorized_effect in *. cbn.
    by destruct (ad_state (ss_admission s)).
  - destruct Rc as [C1 C2 C3 C4 C5 C6 C7 C8]. 
    split; cbn; [done..|by rewrite Hq|by eexists|by split; eexists|by intros a [= <-]].
Qed.

(** The phase recorded with an acceptance counts the accepted rows. *)
Lemma record_seat_accepted_base f rows i s seat account p :
  WfBase fa_id f rows → Z.of_nat (length rows) = sf_seat_count f →
  stored_dkg_complete (sf_phase f) = false → rows !! i = Some s →
  (p = SeatsCreated ∧ (∀ j s', j ≠ i → rows !! j = Some s' → is_Some (ss_seat_id s'))
   ∨ p = SeatsPartiallyCreated ∧ ∃ j s', j ≠ i ∧ rows !! j = Some s' ∧ ss_seat_id s' = None) →
  WfBase fa_id (with_phase p f) (<[i := with_acceptance seat account s]> rows).
Proof.
  intros Hw Hlen Hdkg Hi Hp. pose proof (insert_step rows i s (with_acceptance seat account s) Hi) as Hs.
  destruct Hw as [Hsch Hsz Hu _ _ Htgt Hinv Hcode]. rewrite Hdkg in Hinv.
  assert (Hnt : ¬ is_Some (sf_formation_meta_target f)).
  { rewrite Htgt. by intros E; rewrite E in Hdkg. }
  assert (Hpd : stored_dkg_complete p = false ∧ p ≠ Formed ∧ p ≠ PublishingSeatBindings)
    by by destruct Hp as [[-> _]|[-> _]].
  split; cbn; [done|done|done| |by apply Hpd| | |by rewrite (proj1 Hpd)].
  - unfold phase_ok. cbn. rewrite <- Hlen, <- (length_insert rows i (with_acceptance seat account s)).
    destruct Hp as [[-> Hall]|[-> (j & s' & Hne & Hj & Hnone)]].
    + apply created_count_all. intros j t Hj. old_row Hs.
      destruct HR as [(-> & -> & ->)|[Hne ->]]; [by eexists|by eapply Hall].
    + split; [eapply (created_count_pos _ i); [by apply list_lookup_insert_eq; eapply lookup_lt_Some|by eexists]|].
      eapply (created_count_lt _ j s'); [by rewrite list_lookup_insert_ne|done].
  - split; [done|]. intros E. by destruct Hpd as (_ & _ & []).
  - rewrite (proj1 Hpd). done.
Qed.

(** [record_seat_accepted]. *)
Lemma record_seat_accepted_wf f rows i s q t seat account p :
  Wf f rows → Z.of_nat (length rows) = sf_seat_count f →
  stored_dkg_complete (sf_phase f) = false → rows !! i = Some s → ss_seat_id s = None →
  ss_signed_quote s = Some q → quote_verify (service_pubkey (ss_locator s)) q = Some t →
  authorized_effect (ss_admission s) = Some (quote_id t, effect_of t) →
  fee_account_ok account = true →
  (p = SeatsCreated ∧ (∀ j s', j ≠ i → rows !! j = Some s' → is_Some (ss_seat_id s'))
   ∨ p = SeatsPartiallyCreated ∧ ∃ j s', j ≠ i ∧ rows !! j = Some s' ∧ ss_seat_id s' = None) →
  Wf (with_phase p f) (<[i := with_acceptance seat account s]> rows).
Proof.
  intros Hw Hlen Hdkg Hi Hseat Hq Ht He Hfee Hp.
  pose proof (insert_step rows i s (with_acceptance seat account s) Hi) as Hs.
  apply quote_verify_Some in Ht as ->.
  assert (Hst : ad_state (ss_admission s)
    = EffectAuthorized (quote_id (sq_terms q)) (effect_of (sq_terms q))).
  { unfold authorized_effect in He. destruct (ad_state (ss_admission s)); congruence. }
  assert (Hrep := RowOk_bound _ _ _ _ _ _ (wf_row _ _ _ Hw _ _ Hi) Hq Hst).
  assert (Hno : ∀ j t, rows !! j = Some t → ss_replacement_for t = None).
  { intros j t Hj. destruct (ss_replacement_for t) eqn:E; [|done].
    destruct (wf_replacing _ _ _ Hw j t Hj) with (j := i) (s' := s) as [[? ?]|[? ?]];
      [by rewrite E|done|congruence|congruence]. }
  assert (Hno' : ∀ j t, <[i := with_acceptance seat account s]> rows !! j = Some t →
    ss_replacement_for t = None).
  { intros j t Hj. old_row Hs. destruct HR as [(-> & -> & ->)|[_ ->]]; [done|by eapply Hno]. }
  split.
  - by eapply record_seat_accepted_base; first [apply (wf_base _ _ _ Hw)|done].
  - eapply Distinct_step; [exact Hs| |apply Hw].
    by intros j t t' [(-> & -> & ->)|[_ ->]].
  - intros j t' Ht'. old_row Hs. destruct HR as [(-> & -> & ->)|[_ ->]].
    + apply (RowOk_accept f _ _ _ q); [by apply (wf_row _ _ _ Hw)|done|done| |done].
      by rewrite He.
    + by apply (RowOk_frame f), (wf_row _ _ _ Hw).
  - intros a Ha. eapply AuthOk_step; [by apply (wf_auth _ _ _ Hw)| |exact Hs|].
    + apply (ao_recorded _ _ _ (wf_auth _ _ _ Hw _ Ha)).
    + intros j t t' [(-> & -> & ->)|[_ ->]]; [|done]. by split; [|eexists].
  - apply Hw.
  - apply Hw.
  - intros _. exact Hno'.
  - intros j t Hj [? Hr]. rewrite (Hno' _ _ Hj) in Hr. done.
  - intros j t q' o Hj Hs' Hq' Hst'. old_row Hs. destruct HR as [(-> & -> & ->)|[_ ->]]; [done|].
    by eapply (wf_paid _ _ _ Hw).
  - intros a j t _ Hj [? Hr]. rewrite (Hno' _ _ Hj) in Hr. done.
Qed.

(** [record_guardian_code]. *)
Lemma record_guardian_code_wf f rows i s code :
  Wf f rows → rows !! i = Some s → is_Some (ss_seat_id s) →
  Wf f (<[i := with_code code s]> rows).
Proof.
  intros Hw Hi Hseat. pose proof (insert_step rows i s (with_code code s) Hi) as Hs.
  split.
  - eapply WfBase_step; [apply Hw|done|exact Hs|].
    intros j t t' [(-> & -> & ->)|[_ ->]]; [|done]. by split; [|eexists].
  - eapply Distinct_step; [exact Hs| |apply Hw].
    by intros j t t' [(-> & -> & ->)|[_ ->]].
  - intros j t' Ht'. old_row Hs. destruct HR as [(-> & -> & ->)|[_ ->]]; [|by apply (wf_row _ _ _ Hw)].
    destruct (wf_row _ _ _ Hw _ _ Ht) as [Ri Rq Re [C1 C2 C3 C4 C5 C6 C7 C8] Rp].
    split; [done| |done| |done].
    + intros q Eq. apply (quote_ok_frame f _ s); [done|done|by apply Rq].
    + by split.
  - intros a Ha. eapply AuthOk_step; [by apply (wf_auth _ _ _ Hw)| |exact Hs|].
    + apply (ao_recorded _ _ _ (wf_auth _ _ _ Hw _ Ha)).
    + by intros j t t' [(-> & -> & ->)|[_ ->]].
  - apply Hw.
  - apply Hw.
  - intros Hst j t' Ht'. old_row Hs.
    destruct HR as [(-> & -> & ->)|[_ ->]]; by apply (wf_unstarted _ _ _ Hw Hst _ _ Ht).
  - intros j t' Ht' Hjr j2 t2' Ht2'. old_row Hs. eassert _ as Hx.
    { eapply (wf_replacing _ _ _ Hw); [exact Ht0| |exact Ht].
      by destruct HR0 as [(-> & -> & ->)|[_ ->]]. }
    by destruct HR as [(-> & -> & ->)|[_ ->]].
  - intros j t' q o Ht' Hs' Hq' Hst. old_row Hs.
    destruct HR as [(-> & -> & ->)|[_ ->]]; by eapply (wf_paid _ _ _ Hw).
  - intros a j t' Ha Ht' Hr j2 t2' q Ht2' Hs2 Hq2. old_row Hs.
    eapply (wf_provisional _ _ _ Hw _ _ _ Ha Ht0); [|exact Ht| |].
    + by destruct HR0 as [(-> & -> & ->)|[_ ->]].
    + by destruct HR as [(-> & -> & ->)|[_ ->]].
    + by destruct HR as [(-> & -> & ->)|[_ ->]].
Qed.

(** Updates of the record alone. *)
Lemma Wf_record f f' rows : Wf f rows → WfBase fa_id f' rows → same_terms_of f f' →
  sf_outputs_started f' = sf_outputs_started f →
  sf_payment_authorization f' = sf_payment_authorization f →
  sf_authorization_recorded f' = sf_authorization_recorded f →
  (is_Some (sf_payment_reservation_id f') → is_Some (sf_payment_authorization f)) →
  (sf_release_intended f' = true → is_Some (sf_payment_reservation_id f')) → Wf f' rows.
Proof.
  intros Hw Hb Ht Es Ea Er Hres Hrel. split; [done|apply Hw| | | |done| | | |].
  - intros i s Hi. apply (RowOk_frame f); [done|by rewrite Es|by apply (wf_row _ _ _ Hw)].
  - intros a Ha. rewrite Ea in Ha. destruct (wf_auth _ _ _ Hw _ Ha) as [H1 H2 H3 H4 H5].
    split; [congruence|done..].
  - by rewrite Ea.
  - rewrite Es. apply (wf_unstarted _ _ _ Hw).
  - apply (wf_replacing _ _ _ Hw).
  - rewrite Ea. apply (wf_paid _ _ _ Hw).
  - rewrite Ea. apply (wf_provisional _ _ _ Hw).
Qed.

(** [record_payment_reservation] and [record_reservation_release_intent]. *)
Lemma with_reservation_wf f rows id intended : Wf f rows →
  is_Some (sf_payment_authorization f) → Wf (with_reservation (Some id) intended f) rows.
Proof.
  intros Hw Ha. apply (Wf_record f); try done. by destruct (wf_base _ _ _ Hw).
Qed.

(** [record_formation_meta_target]. *)
Lemma with_target_wf f rows target : Wf f rows → stored_dkg_complete (sf_phase f) = true →
  Wf (with_target target f) rows.
Proof.
  intros Hw Hd. apply (Wf_record f); try done; [|apply Hw|apply Hw].
  destruct (wf_base _ _ _ Hw) as [H1 H2 H3 H4 H5 H6 H7 H8].
  split; cbn; try done.
  - unfold phase_ok in *. cbn. by destruct (sf_phase f).
  - by rewrite H7.
  - intros _. by apply H8.
Qed.

(** [record_dkg_complete]. *)
Lemma with_dkg_complete_wf f rows invite : Wf f rows →
  validate_formation_progress (with_dkg_complete invite f) rows = Ok tt →
  Wf (with_dkg_complete invite f) rows.
Proof.
  intros Hw Hv. apply (Wf_record f); try done; [|apply Hw|apply Hw].
  unfold validate_formation_progress in Hv. cbn in Hv.
  destruct (_ || _) in Hv; [done|]. apply res_bind_Ok in Hv as ([] & _ & Hv).
  destruct (created_count rows =? sf_seat_count f) eqn:Hc; [|done]. cbn in Hv.
  apply Z.eqb_eq in Hc. destruct (sf_formation_meta_target f) eqn:Ht; [done|]. cbn in Hv.
  destruct (existsb _ rows) eqn:Hcodes; [done|].
  destruct (wf_base _ _ _ Hw) as [H1 H2 H3 H4 H5 H6 H7 H8].
  split; cbn; try done.
  - unfold validate_schema_and_owner, validate_schema in *. cbn. cbn in H1.
    destruct (negb _); [done|]. destruct (bool_decide (sf_fa_id f = None)); [done|].
    destruct (bool_decide (_ ∧ _)); [done|]. destruct (_ || _); [done|].
    by destruct (sf_dkg_completion_callback f).
  - rewrite Ht. split; [|done]. by intros [? ?].
  - intros _ i s Hi. rewrite existsb_false in Hcodes.
    specialize (Hcodes s (list_elem_of_lookup_2 _ _ _ Hi)).
    by apply bool_decide_eq_false, not_eq_None_Some in Hcodes.
Qed.

(** [authorize_payments]. *)
Lemma authorize_payments_wf f rows id l :
  Wf f rows → l ≠ [] → (∀ m, m ∈ l ↔ payables rows 0 m) →
  (∀ i s, rows !! i = Some s → is_Some (ss_seat_id s) ∨ is_Some (ss_signed_quote s)) →
  Wf (with_payment (Some {| pa_authorization_id := id; pa_quotes := l |}) true
        (sf_payment_reservation_id f) (sf_release_intended f) f) rows.
Proof.
  intros Hw Hne Hl Hcomp.
  assert (Hmem : ∀ i s q, rows !! i = Some s → ss_seat_id s = None →
    ss_signed_quote s = Some q → is_Some (qt_payment (sq_terms q)) →
    member {| pa_authorization_id := id; pa_quotes := l |} i q).
  { intros i s q Hi Hs Hq Hp. apply Hl. exists i, (sq_terms q). split; [lia|].
    split; [|done]. exists s, q. split_and!; try done.
    by rewrite (quote_ok_verify f) by by apply (ro_quote _ _ _ _ (wf_row _ _ _ Hw _ _ Hi)). }
  split; [by destruct (wf_base _ _ _ Hw)|apply Hw| | | |apply Hw|apply Hw|apply Hw| |].
  - intros i s Hi. by apply (RowOk_frame f), (wf_row _ _ _ Hw).
  - intros a [= <-]. split; [done|done| |done|done].
    intros m (i & t & _ & (s & q & Hi & _ & Hq & Ht & Hp) & ->)%Hl.
    apply quote_verify_Some in Ht as ->. by exists i, s, q.
  - intros _. by eexists.
  - intros i s q o Hi Hs Hq Hst. eexists. split; [done|]. eapply Hmem; try done.
    pose proof (ro_effect _ _ _ _ (wf_row _ _ _ Hw _ _ Hi)) as He.
    unfold EffectOk in He. rewrite Hst, Hq in He. destruct He as [[_ He] _].
    unfold effect_of in He. by destruct (qt_payment (sq_terms q)).
  - intros a i s [= <-] Hi Hr j s' q Hj [? Hs] Hq.
    intros (j' & t & _ & (s2 & q2 & Hj' & Hs2 & _) & [= Ej _])%Hl.
    assert (j' = j) as -> by lia. rewrite Hj in Hj'. simplify_eq.
Qed.

(** Rows bound to an effect of their own quote. *)
Lemma RowOk_bind f f' i s q k : RowOk f i s → same_terms_of f f' →
  ss_signed_quote s = Some q → effect_of (sq_terms q) = k →
  (k = PaidOutput → sf_outputs_started f' = true) →
  (is_Some (ss_replacement_for s) → False) →
  RowOk f' i (bind_effect (quote_id (sq_terms q)) k s).
Proof.
  intros [Ri Rq Re [C1 C2 C3 C4 C5 C6 C7 C8] Rp] Ht Hq Hk Hst Hr.
  assert (Hn : ss_replacement_for s = None) by (destruct (ss_replacement_for s); [destruct Hr|]; done).
  split; [done| | | |done].
  - intros q' Eq. apply (quote_ok_frame f _ s); [done|done|by apply Rq].
  - unfold EffectOk. cbn. by rewrite Hq.
  - split; cbn; try done. destruct (C1 Hn) as [_ ->]. done.
Qed.

Lemma RowOk_bind_clear f f' i s q k : RowOk f i s → same_terms_of f f' →
  ss_signed_quote s = Some q → effect_of (sq_terms q) = k →
  (k = PaidOutput → sf_outputs_started f' = true) →
  RowOk f' i (with_replacement None None None false (bind_effect (quote_id (sq_terms q)) k s)).
Proof.
  intros [Ri Rq Re [C1 C2 C3 C4 C5 C6 C7 C8] Rp] Ht Hq Hk Hst.
  split; [done| | | |done].
  - intros q' Eq. apply (quote_ok_frame f _ s); [done|done|by apply Rq].
  - unfold EffectOk. cbn. by rewrite Hq.
  - split; cbn; done.
Qed.

(** [record_payment_outputs_started]. *)
Lemma outputs_started_wf f rows rows' a :
  Wf f rows → sf_outputs_started f = false → sf_payment_authorization f = Some a →
  rows_step (arms (pa_quotes a)) rows rows' → Wf (with_outputs_started f) rows'.
Proof.
  intros Hw Hst Ha Hs.
  assert (Hno : ∀ j t, rows' !! j = Some t → ss_replacement_for t = None).
  { intros j t Hj. old_row Hs. pose proof (wf_unstarted _ _ _ Hw Hst _ _ Ht) as E.
    by destruct HR as [[-> _]|(q & t' & _ & _ & _ & _ & _ & ->)]. }
  split.
  - eapply WfBase_step; [apply Hw|done|exact Hs|].
    by intros j t t' [[-> _]|(? & ? & _ & _ & _ & _ & _ & ->)].
  - eapply Distinct_step; [exact Hs| |apply Hw].
    by intros j t t' [[-> _]|(? & ? & _ & _ & _ & _ & _ & ->)].
  - intros j t' Ht'. old_row Hs.
    destruct HR as [[-> _]|(q & x & Hq & Hx & Hp & _ & _ & ->)].
    { by apply (RowOk_frame f), (wf_row _ _ _ Hw). }
    apply quote_verify_Some in Hx as ->.
    eapply (RowOk_bind f); [by apply (wf_row _ _ _ Hw)|done|done| |done|].
    + unfold effect_of. by destruct Hp as [? ->].
    + rewrite (wf_unstarted _ _ _ Hw Hst _ _ Ht). by intros [? ?].
  - intros b Hb. eapply AuthOk_step; [by apply (wf_auth _ _ _ Hw)| |exact Hs|].
    + apply (ao_recorded _ _ _ (wf_auth _ _ _ Hw _ Hb)).
    + by intros j t t' [[-> _]|(? & ? & _ & _ & _ & _ & _ & ->)].
  - apply Hw.
  - apply Hw.
  - done.
  - intros j t Hj [? Hr]. rewrite (Hno _ _ Hj) in Hr. done.
  - intros j t' q o Ht' Hs' Hq' Hst'. old_row Hs.
    destruct HR as [[-> _]|(q0 & x & Hq & Hx & Hp & Hm & _ & ->)].
    { by eapply (wf_paid _ _ _ Hw). }
    exists a. split; [done|]. apply quote_verify_Some in Hx as ->. cbn in Hq'. by simplify_eq.
  - intros b j t _ Hj [? Hr]. rewrite (Hno _ _ Hj) in Hr. done.
Qed.

(** [record_seat_effects_authorized]: the wave has every replacement row. *)
Lemma effects_authorized_wf f rows rows' l :
  Wf f rows → rows_step (rewritten (λ e, Z.to_nat e.1.1) effect_row l) rows rows' →
  (∀ e, e ∈ l → e.2 = PaidOutput → sf_outputs_started f = true) →
  (∀ e i s q, e ∈ l → e.2 = PaidOutput → Z.to_nat e.1.1 = i → rows !! i = Some s →
     ss_signed_quote s = Some q → ∃ a, sf_payment_authorization f = Some a ∧ member a i q) →
  (∀ i s, rows !! i = Some s → is_Some (ss_replacement_for s) →
     ∃ e, e ∈ l ∧ Z.to_nat e.1.1 = i) →
  Wf f rows'.
Proof.
  intros Hw Hs Hstarted Hpaid Hall.
  assert (Hshape : ∀ i s s', rewritten (λ e, Z.to_nat e.1.1) effect_row l i s s' →
    s' = s ∨ ∃ e q, e ∈ l ∧ Z.to_nat e.1.1 = i ∧ ss_signed_quote s = Some q
      ∧ effect_of (sq_terms q) = e.2 ∧ s' = (if bool_decide (is_Some (ss_replacement_for s))
          then with_replacement None None None false else λ s, s)
          (bind_effect (quote_id (sq_terms q)) e.2 s)).
  { intros i s s' [[-> _]|(e & He & Hi & q & t & Hq & Ht & Hid & Hk & _ & _ & ->)]; [by left|].
    apply quote_verify_Some in Ht as ->. right. exists e, q. by rewrite Hid. }
  assert (Hno : ∀ j t, rows' !! j = Some t → ss_replacement_for t = None).
  { intros j t Hj. old_row Hs. destruct (ss_replacement_for t0) eqn:Hr.
    - destruct (Hall _ _ Ht) as (e & He & Hi); [by rewrite Hr|].
      destruct HR as [[_ Hn]|(e' & _ & _ & q & x & _ & _ & _ & _ & _ & _ & ->)].
      + destruct Hn. rewrite <- Hi. by apply (list_elem_of_fmap_2 (λ e, Z.to_nat e.1.1)).
      + by rewrite Hr.
    - apply Hshape in HR as [->|(e & q & _ & _ & _ & _ & ->)]; [done|].
      by rewrite Hr. }
  split.
  - eapply WfBase_step; [apply Hw|done|exact Hs|].
    intros j t t' [->|(e & q & _ & _ & _ & _ & ->)]%Hshape; [done|]. by case_bool_decide.
  - eapply Distinct_step; [exact Hs| |apply Hw].
    intros j t t' [->|(e & q & _ & _ & _ & _ & ->)]%Hshape; [done|]. by case_bool_decide.
  - intros j t' Ht'. old_row Hs. apply Hshape in HR as [->|(e & q & He & Hi & Hq & Hk & ->)].
    { by apply (wf_row _ _ _ Hw). }
    pose proof (wf_row _ _ _ Hw _ _ Ht) as Hrow. case_bool_decide as Hr.
    + eapply (RowOk_bind_clear f); [done|done|done|done|by apply Hstarted].
    + eapply (RowOk_bind f); [done|done|done|done|by apply Hstarted|done].
  - intros b Hb. eapply AuthOk_step; [by apply (wf_auth _ _ _ Hw)| |exact Hs|].
    + apply (ao_recorded _ _ _ (wf_auth _ _ _ Hw _ Hb)).
    + intros j t t' [->|(e & q & _ & _ & _ & _ & ->)]%Hshape; [done|]. by case_bool_decide.
  - apply Hw.
  - apply Hw.
  - intros _. exact Hno.
  - intros j t Hj [? Hr]. rewrite (Hno _ _ Hj) in Hr. done.
  - intros j t' q o Ht' Hs' Hq' Hst'. old_row Hs.
    apply Hshape in HR as [->|(e & q0 & He & Hi & Hq & Hk & ->)].
    { by eapply (wf_paid _ _ _ Hw). }
    eapply (Hpaid e); [done| |done|done|].
    + by case_bool_decide; cbn in Hst'; simplify_eq.
    + case_bool_decide; cbn in Hq'; by simplify_eq.
  - intros b j t _ Hj [? Hr]. rewrite (Hno _ _ Hj) in Hr. done.
Qed.

(** Updates that drop the aggregate: no quoted row may be bound to outputs. *)
Lemma Wf_drop R f f' rows rows' :
  Wf f rows → WfBase fa_id f' rows' → Distinct rows' → rows_step R rows rows' →
  (∀ i s', rows' !! i = Some s' → RowOk f' (Z.of_nat i) s') →
  sf_payment_authorization f' = None → sf_payment_reservation_id f' = None →
  sf_release_intended f' = false →
  (sf_outputs_started f' = false → ∀ i s', rows' !! i = Some s' → ss_replacement_for s' = None) →
  (∀ i s', rows' !! i = Some s' → is_Some (ss_replacement_for s') →
     ∀ j t', rows' !! j = Some t' → is_Some (ss_seat_id t') ∨ is_Some (ss_replacement_for t')) →
  (∀ i s' q o, rows' !! i = Some s' → ss_seat_id s' = None → ss_signed_quote s' = Some q →
     ad_state (ss_admission s') ≠ EffectAuthorized o PaidOutput) →
  Wf f' rows'.
Proof.
  intros Hw Hb Hd Hs Hrow Ha Hr Hrel Hun Hrep Hpaid. split; try done.
  - by rewrite Ha.
  - rewrite Hr. by intros [? ?].
  - by rewrite Hrel.
  - intros i s' q o Hi Hseat Hq Hst. by destruct (Hpaid i s' q o).
  - by rewrite Ha.
Qed.

(** While a replacement is open, no quoted row is bound to outputs. *)
Lemma Wf_replacing_fresh f rows i s j t q : Wf f rows → rows !! i = Some s →
  is_Some (ss_replacement_for s) → rows !! j = Some t → ss_seat_id t = None →
  ss_signed_quote t = Some q → ad_state (ss_admission t) = Fresh.
Proof.
  intros Hw Hi Hr Hj Hs Hq. pose proof (wf_row _ _ _ Hw _ _ Hj) as Hrow.
  destruct (ad_state (ss_admission t)) eqn:Hst; [done|].
  pose proof (RowOk_bound _ _ _ _ _ _ Hrow Hq Hst) as Hn.
  destruct (wf_replacing _ _ _ Hw _ _ Hi Hr _ _ Hj) as [[? ?]|[? ?]]; congruence.
Qed.

(** Clearing a free or unauthorized quote for the same guardian. *)
Lemma clear_refresh_wf f rows rows' i q s :
  Wf f rows → sf_payment_authorization f = None → rows !! i = Some s →
  ad_state (ss_admission s) = Fresh →
  rows_step (rewritten (λ x, Z.to_nat x.1)
    (cleared (sf_outputs_started f) RefreshSameGuardian) [(Z.of_nat i, q)]) rows rows' →
  rows' = <[i := with_quote None s]> rows ∧ Wf (without_aggregate f) rows'.
Proof.
  intros Hw Ha Hi Hfresh Hs.
  pose proof (wf_row _ _ _ Hw _ _ Hi) as Hrow.
  assert (Hs' : rows_step (at_row i s (with_quote None s)) rows rows').
  { eapply rows_step_impl; [exact Hs|]. intros j t t' Ht _ [[-> Hn]|(x & Hx & Hj & Hc)].
    - right. split; [|done]. intros ->. apply Hn. cbn. rewrite Nat2Z.id. by left.
    - apply list_elem_of_singleton in Hx as ->. cbn in Hj. rewrite Nat2Z.id in Hj. subst j.
      simplify_eq. left. split_and!; [done|done|]. destruct Hc as (_ & Hq & ->).
      destruct (ss_replacement_approved s) eqn:Hap; [done|].
      assert (Hn : ss_replacement_for s = None).
      { destruct (ss_replacement_for s) eqn:Hr; [|done].
        rewrite (co_quoted _ (ro_consistent _ _ _ _ Hrow)) in Hap; [done|by rewrite Hq|by rewrite Hr]. }
      destruct (co_previous _ (ro_consistent _ _ _ _ Hrow) Hn) as [Hl _].
      pose proof (ro_previous _ _ _ _ Hrow Hn) as Hm.
      destruct s; cbn in *. by subst. }
  assert (rows' = <[i := with_quote None s]> rows) as ->.
  { apply (list_eq_same_length _ _ (length rows)); [by rewrite length_insert|apply Hs'|].
    intros j x y _ Hx Hy. destruct (rows_step_lookup _ _ _ _ _ Hs' Hx) as (t & Ht & HR).
    destruct (rows_step_lookup _ _ _ _ _ (insert_step rows i s (with_quote None s) Hi) Hy)
      as (t2 & Ht2 & HR2). simplify_eq.
    destruct HR as [(-> & -> & ->)|[? ->]], HR2 as [(? & ? & ->)|[? ->]]; done. }
  split; [done|].
  eapply Wf_drop; [done| | |exact Hs'| |done|done|done| | |].
  - eapply WfBase_step; [apply Hw|done|exact Hs'|]. by intros j t t' [(-> & -> & ->)|[_ ->]].
  - eapply Distinct_step; [exact Hs'| |apply Hw]. by intros j t t' [(-> & -> & ->)|[_ ->]].
  - intros j t' Ht'. old_row Hs'. destruct HR as [(-> & -> & ->)|[_ ->]];
      [|by apply (RowOk_frame f), (wf_row _ _ _ Hw)].
    destruct Hrow as [Ri Rq Re [C1 C2 C3 C4 C5 C6 C7 C8] Rp].
    unfold EffectOk in Re. rewrite Hfresh in Re.
    split; [done|done| | |done]; [unfold EffectOk; cbn; by rewrite Hfresh|].
    split; cbn; try done. rewrite Re. by intros [? ?].
  - cbn. intros Hst j t' Ht'. old_row Hs'.
    destruct HR as [(-> & -> & ->)|[_ ->]]; by apply (wf_unstarted _ _ _ Hw Hst _ _ Ht).
  - intros j t' Ht' Hjr j2 t2' Ht2'. old_row Hs'. eassert _ as Hx.
    { eapply (wf_replacing _ _ _ Hw); [exact Ht0| |exact Ht].
      by destruct HR0 as [(-> & -> & ->)|[_ ->]]. }
    by destruct HR as [(-> & -> & ->)|[_ ->]].
  - intros j t' q' o Ht' Hseat Hq' Hst. old_row Hs'.
    destruct HR as [(-> & -> & ->)|[_ ->]]; [done|]. by eapply Wf_no_auth_paid.
Qed.

(** Clearing the terminal quotes: every other row is accepted. *)
Lemma clear_terminal_wf f rows rows' l :
  Wf f rows → sf_outputs_started f = true →
  (∀ i s, rows !! i = Some s → is_Some (ss_seat_id s) ∨ ∃ x, x ∈ l ∧ Z.to_nat x.1 = i) →
  rows_step (rewritten (λ x, Z.to_nat x.1)
    (cleared (sf_outputs_started f) TerminalReplacement) l) rows rows' →
  Wf (without_aggregate f) rows'.
Proof.
  intros Hw Hst Hall Hs. set (mark := λ q s, with_quote None (with_replacement
    (Some (quote_id (sq_terms q))) (Some (ss_locator s)) (Some (ad_mg_id (ss_admission s))) false s)).
  assert (Hs' : rows_step (λ i s s', s' = s ∧ is_Some (ss_seat_id s)
    ∨ ∃ q, ss_seat_id s = None ∧ ss_signed_quote s = Some q ∧ s' = mark q s) rows rows').
  { eapply rows_step_impl; [exact Hs|]. intros j t t' Ht _ [[-> Hn]|(x & Hx & Hj & Hc)].
    - left. split; [done|]. destruct (Hall _ _ Ht) as [?|(x & Hx & Hj)]; [done|].
      destruct Hn. rewrite <- Hj. by apply (list_elem_of_fmap_2 (λ x, Z.to_nat x.1)).
    - right. destruct Hc as (Hseat & Hq & _ & y & Hy & ->). apply quote_verify_Some in Hy as ->.
      by exists x.2. }
  eapply Wf_drop; [done| | |exact Hs'| |done|done|done| | |].
  - eapply WfBase_step; [apply Hw|done|exact Hs'|].
    by intros j t t' [[-> _]|(q & _ & _ & ->)].
  - eapply Distinct_step; [exact Hs'| |apply Hw].
    by intros j t t' [[-> _]|(q & _ & _ & ->)].
  - intros j t' Ht'. old_row Hs'. destruct HR as [[-> _]|(q & Hseat & Hq & ->)];
      [by apply (RowOk_frame f), (wf_row _ _ _ Hw)|].
    destruct (wf_row _ _ _ Hw _ _ Ht) as [Ri Rq Re [C1 C2 C3 C4 C5 C6 C7 C8] Rp].
    split; [done|done| | |done].
    + unfold EffectOk in *. cbn. rewrite Hq in Re.
      destruct (ad_state (ss_admission t)) as [|o k]; [done|]. destruct Re as [[-> _] Hp]. done.
    + split; cbn; try done; try (by intros [? ?]); rewrite Hseat; by intros [? ?].
  - cbn. by rewrite Hst.
  - intros j t' Ht' _ j2 t2' Ht2'. old_row Hs'.
    destruct HR as [[-> Hx]|(q & _ & _ & ->)]; [by left|right; by eexists].
  - intros j t' q o Ht' Hseat Hq Hst'. old_row Hs'.
    destruct HR as [[-> [? ?]]|(q' & _ & _ & ->)]; [congruence|done].
Qed.

(** [restore_provisional_replacements]. *)
Lemma restore_wf f rows rows' i s :
  Wf f rows → rows !! i = Some s → ss_replacement_approved s = true →
  rows_step (λ _, restored) rows rows' → Wf (without_aggregate f) rows'.
Proof.
  intros Hw Hi Hap Hs.
  assert (Hri : is_Some (ss_replacement_for s)).
  { pose proof (ro_consistent _ _ _ _ (wf_row _ _ _ Hw _ _ Hi)) as Hc.
    destruct (ss_replacement_for s) eqn:Hr; [done|]. destruct (co_previous _ Hc Hr). congruence. }
  assert (Hstarted : sf_outputs_started f = true).
  { destruct (sf_outputs_started f) eqn:Hst; [done|]. destruct Hri as [? E].
    by rewrite (wf_unstarted _ _ _ Hw Hst _ _ Hi) in E. }
  assert (Hs' : rows_step (λ _ s s', s' = s ∧ ss_replacement_approved s = false
    ∨ is_Some (ss_replacement_for s) ∧ ss_seat_id s = None ∧ ad_state (ss_admission s) = Fresh
      ∧ ∃ l m, s' = with_quote None (with_replacement (ss_replacement_for s) l m false s))
    rows rows').
  { eapply rows_step_impl; [exact Hs|]. intros j t t' _ _. unfold restored.
    destruct (ss_replacement_approved t); [|by left].
    intros (? & ? & ? & ->). right. split_and!; [done..|]. by eexists _, _. }
  eapply Wf_drop; [done| | |exact Hs'| |done|done|done| | |].
  - eapply WfBase_step; [apply Hw|done|exact Hs'|].
    by intros j t t' [[-> _]|(_ & _ & _ & l & m & ->)].
  - eapply Distinct_step; [exact Hs'| |apply Hw].
    by intros j t t' [[-> _]|(_ & _ & _ & l & m & ->)].
  - intros j t' Ht'. old_row Hs'. destruct HR as [[-> _]|([r Hr] & Hseat & Hst & l & m & ->)];
      [by apply (RowOk_frame f), (wf_row _ _ _ Hw)|].
    destruct (wf_row _ _ _ Hw _ _ Ht) as [Ri Rq Re [C1 C2 C3 C4 C5 C6 C7 C8] Rp].
    split; [done|done| | |cbn; by rewrite Hr].
    + unfold EffectOk. cbn. by rewrite Hst.
    + split; cbn; try done; [by rewrite Hr|]. rewrite Hseat. by intros [? ?].
  - cbn. by rewrite Hstarted.
  - intros j t' Ht' Hjr j2 t2' Ht2'. old_row Hs'.
    pose proof (wf_replacing _ _ _ Hw _ _ Hi Hri _ _ Ht) as Hx.
    by destruct HR as [[-> _]|(? & _ & _ & l & m & ->)]; [|right].
  - intros j t' q o Ht' Hseat Hq Hst'. old_row Hs'.
    destruct HR as [[-> _]|(_ & _ & _ & l & m & ->)]; [|done].
    rewrite (Wf_replacing_fresh _ _ _ _ _ _ _ Hw Hi Hri Ht Hseat Hq) in Hst'. done.
Qed.

(** [replace_guardians]. *)
Lemma replace_wf f rows rows' l cap :
  Wf f rows → l ≠ [] → Distinct rows' → sf_outputs_started f = true →
  (∀ x, x ∈ l → is_Some (rows !! Z.to_nat (gs_index x.1))) →
  (∀ x, x ∈ l → ad_state x.2.2 = Fresh) →
  rows_step (rewritten (λ x, Z.to_nat (gs_index x.1)) replaced l) rows rows' →
  Wf (with_renewed_cap cap f) rows'.
Proof.
  intros Hw Hne Hd Hstarted Hin Hfresh Hs.
  assert (Hs' : rows_step (λ i s s', s' = s
    ∨ ss_seat_id s = None ∧ ss_signed_quote s = None ∧ is_Some (ss_replacement_for s)
      ∧ ∃ a l m n, ad_state a = Fresh ∧ s' = with_admission a (with_locator l
          (with_replacement (ss_replacement_for s) (Some m) (Some n) true s))) rows rows').
  { eapply rows_step_impl; [exact Hs|].
    intros j t t' _ _ [[-> _]|(x & Hx & _ & Hseat & Hq & Hr & m & n & ->)]; [by left|right].
    split_and!; [done..|]. eexists _, _, _, _. split; [|done]. by apply Hfresh. }
  assert (Hopen : ∃ i s, rows !! i = Some s ∧ is_Some (ss_replacement_for s)).
  { destruct l as [|x l]; [done|]. destruct (Hin x) as [s Hi]; [by left|].
    exists (Z.to_nat (gs_index x.1)), s. split; [done|].
    destruct (rows_step_back _ _ _ _ _ Hs Hi) as (s' & _ & [[_ Hn]|(y & _ & _ & _ & _ & Hr & _)]);
      [|done]. destruct Hn. by left. }
  destruct Hopen as (i & s & Hi & Hri).
  eapply Wf_drop; [done| |done|exact Hs'| |done|done|done| | |].
  - destruct (wf_base _ _ _ Hw) as [H1 H2 H3 H4 H5 H6 H7 H8]. split; try done.
    + unfold validate_schema_and_owner, validate_schema in *. cbn in *.
      rewrite (bool_decide_false (is_Some _ ∧ Some cap = None)) by (by intros [_ ?]).
      destruct (negb _); [done|]. destruct (bool_decide (sf_fa_id f = None)); [done|].
      by destruct (bool_decide (_ ∧ _)).
    + unfold phase_ok in *. cbn. rewrite (created_count_step _ _ _ Hs'); [done|].
      by intros j t t' [->|(_ & _ & _ & a & ? & ? & ? & _ & ->)].
    + intros Hdkg j t' Ht'. old_row Hs'. specialize (H8 Hdkg _ _ Ht).
      by destruct HR as [->|(_ & _ & _ & a & ? & ? & ? & _ & ->)].
  - intros j t' Ht'. old_row Hs'.
    destruct HR as [->|(Hseat & Hq & [r Hr] & a & lo & m & n & Ha & ->)].
    { by apply (RowOk_frame f), (wf_row _ _ _ Hw). }
    destruct (wf_row _ _ _ Hw _ _ Ht) as [Ri Rq Re [C1 C2 C3 C4 C5 C6 C7 C8] Rp].
    split; cbn; [done|by rewrite Hq| | |by rewrite Hr].
    + unfold EffectOk. cbn. by rewrite Ha.
    + split; cbn; try done. by rewrite Hr.
  - cbn. by rewrite Hstarted.
  - intros j t' Ht' Hjr j2 t2' Ht2'. old_row Hs'.
    pose proof (wf_replacing _ _ _ Hw _ _ Hi Hri _ _ Ht) as Hx.
    by destruct HR as [->|(_ & _ & ? & a & ? & ? & ? & _ & ->)]; [|right].
  - intros j t' q o Ht' Hseat Hq Hst'. old_row Hs'.
    destruct HR as [->|(_ & Hq' & _ & a & ? & ? & ? & Ha & ->)]; [|cbn in *; congruence].
    rewrite (Wf_replacing_fresh _ _ _ _ _ _ _ Hw Hi Hri Ht Hseat Hq) in Hst'. done.
Qed.

End WellFormed.
End WellFormed.
