(* ===== verification/FaReadable.v ===== *)
(** * Reading a well-formed formation back

    The exact payment requirements of a formation, and [load_recovery]: it
    succeeds on every well-formed record and answers its mirror. *)

From S2P Require Import Prelude FaSchema FaQuotes FaStore FaProg FaCalls FaDriver FaFormation FaLogic FaInvariant FaViews FaWf.
From stdpp Require Import base gmap strings list.
From Stdlib Require Import ZArith Lia.
Open Scope Z_scope.

Module Readable.
Import Fa Quotes Store Run Calls Driver Formation Logic Inv Views WellFormed.

Section Readable.
Context {CR : Crypto}.
Variable fa_id : Z.
Implicit Types (f : StoredFormation) (rows : list StoredSeat) (s : StoredSeat).

(** ** Requirements *)

Definition in_aggregate (a : option StoredPaymentAuthorization) (m : SeatRecovery)
    (t : QuoteTerms) : bool :=
  match a with
  | Some a => bool_decide ({| qa_index := sr_index m; qa_quote_id := quote_id t |} ∈ pa_quotes a)
  | None => false
  end.

(** The requirement of a row with a verified quote. *)
Definition entry (a : option StoredPaymentAuthorization) (m : SeatRecovery)
    : option SeatPaymentRequirement :=
  q ← sr_signed_quote m;
  payment ← qt_payment (sq_terms q);
  if bool_decide (is_Some (sr_seat_id m)) && negb (in_aggregate a m (sq_terms q)) then None
  else Some {| pr_index := sr_index m; pr_mg_id := ad_mg_id (sr_admission m);
               pr_quote_id := quote_id (sq_terms q);
               pr_payment_federation_id := payment_federation payment;
               pr_amount_msats := qt_price_msats (sq_terms q) |}.

Lemma seat_requirement_Ok intent a m o :
  seat_requirement intent fa_id a m = Ok o → o = entry a m.
Proof.
  unfold seat_requirement, entry. case_bool_decide as Hacc.
  - intros [= <-]. destruct Hacc as [Hs ->]. destruct (sr_signed_quote m) as [q|]; [|done]. cbn.
    destruct (qt_payment (sq_terms q)); [|done]. cbn. by rewrite bool_decide_true.
  - destruct (sr_signed_quote m) as [q|]; cbn; [|by intros [= <-]].
    destruct (quote_verify _ q) as [t|] eqn:Hv; [|done]. cbn.
    apply quote_verify_Some in Hv as ->.
    destruct (negb _); [done|]. destruct (check_coherent _); [|done|done].
    destruct (qt_payment (sq_terms q)); cbn; [|by intros [= <-]].
    unfold in_aggregate. by destruct (_ && _); intros [= <-].
Qed.

Definition total (l : list SeatPaymentRequirement) : Z := foldr Z.add 0 (pr_amount_msats <$> l).

Lemma requirement_loop_Ok intent a l n n' seats :
  requirement_loop intent fa_id a l n = Ok (n', seats) →
  seats = omap (entry a) l ∧ n' = n + total seats.
Proof.
  revert n n' seats. induction l as [|m l IH]; intros n n' seats H; cbn in H.
  { injection H as <- <-. cbn. split; [done|lia]. }
  apply res_bind_Ok in H as (o & Ho & H). apply seat_requirement_Ok in Ho as ->. cbn.
  destruct (entry a m) as [e|]; [|by apply IH].
  apply res_bind_Ok in H as (n1 & Hn1 & H). apply res_bind_Ok in H as ([n2 seats2] & H2 & H).
  injection H as <- <-. destruct (checked_add_u _ _ _) eqn:Hadd in Hn1; [|done].
  injection Hn1 as ->. apply try_from_u_Some in Hadd as [-> _].
  apply IH in H2 as [-> ->]. cbn. split; [done|]. unfold total. cbn. lia.
Qed.

(** A row that must be quoted first. *)
Definition wanting (m : SeatRecovery) : bool :=
  bool_decide (sr_seat_id m = None ∧ sr_signed_quote m = None).

Lemma payment_requirements_Ok fid l intent a o :
  payment_requirements fid l intent fa_id a = Ok o →
  match o with
  | None => existsb wanting l = true ∨ omap (entry a) l = []
  | Some q =>
      existsb wanting l = false ∧ rq_seats q = omap (entry a) l ∧ rq_seats q ≠ []
      ∧ rq_total_msats q = total (rq_seats q) ∧ rq_max_total_msats q = in_max_total_msats intent
      ∧ rq_authorization_id q = payment_authorization_id fid (rq_total_msats q) (rq_seats q)
  end.
Proof.
  unfold payment_requirements. fold wanting. destruct (existsb wanting l) eqn:Hw.
  { intros [= <-]. by left. }
  intros H. apply res_bind_Ok in H as ([n seats] & Hl & H).
  apply requirement_loop_Ok in Hl as [-> ->]. destruct (omap (entry a) l) eqn:He.
  - injection H as <-. by right.
  - injection H as <-. cbn. split_and!; try done; lia.
Qed.

(** A reading of a row that ignores its phase reads its mirror. *)
Lemma mirror_read {B} (g : SeatRecovery → B) m s :
  mirror_seat m s → (∀ p x, g (sr_set_phase p x) = g x) → g m = g (row_recovery s).
Proof. unfold mirror_seat. intros Hm Hg. rewrite Hm. apply Hg. Qed.

(** Requirements only read what [seat_requirement] and [wanting] read. *)
Lemma requirements_congr fid intent a a' l l' :
  Forall2 (λ m m', wanting m = wanting m'
    ∧ seat_requirement intent fa_id a m = seat_requirement intent fa_id a' m') l l' →
  payment_requirements fid l intent fa_id a = payment_requirements fid l' intent fa_id a'.
Proof.
  intros H. unfold payment_requirements. fold wanting.
  assert (existsb wanting l = existsb wanting l') as ->.
  { induction H as [|m m' l l' [E _] _ IH]; cbn; congruence. }
  destruct (existsb wanting l'); [done|].
  assert (Hl : ∀ n, requirement_loop intent fa_id a l n
    = requirement_loop intent fa_id a' l' n).
  { induction H as [|m m' l l' [_ E] _ IH]; intros n; [done|]. cbn. rewrite E. clear E.
    destruct (seat_requirement _ _ _ _) as [[e|]|e|]; cbn; [|by rewrite IH|done|done].
    destruct (ok_or _ _); cbn; [|done|done]. by rewrite IH. }
  by rewrite Hl.
Qed.

(** Rows and their mirrors have the same requirements. *)
Lemma mirror_requirements fid l rows intent a :
  Forall2 mirror_seat l rows →
  payment_requirements fid l intent fa_id a
  = payment_requirements fid (row_recovery <$> rows) intent fa_id a.
Proof.
  intros Hm. apply requirements_congr, Forall2_fmap_r. eapply Forall2_impl; [exact Hm|].
  intros m s Hs. split; [by apply (mirror_read wanting)|by apply (mirror_read (seat_requirement _ _ _))].
Qed.

Lemma Mirror_current r f rows : Mirror r f rows →
  current_requirements r fa_id = requirements_of fa_id f rows.
Proof.
  intros Hm. unfold current_requirements, requirements_of.
  rewrite (mi_id _ _ _ Hm), (mi_intent _ _ _ Hm). apply mirror_requirements, Hm.
Qed.
Lemma Mirror_reserved r f rows : Mirror r f rows →
  reserved_payment_requirements r fa_id
  = payment_requirements (sf_formation_id f) (row_recovery <$> rows) (sf_intent f) fa_id
      (sf_payment_authorization f).
Proof.
  intros Hm. unfold reserved_payment_requirements.
  rewrite (mi_id _ _ _ Hm), (mi_intent _ _ _ Hm), (mi_auth _ _ _ Hm).
  apply mirror_requirements, Hm.
Qed.

(** ** Validation succeeds *)

Lemma seat_requirement_row f i s a : RowOk fa_id f i s →
  seat_requirement (sf_intent f) fa_id a (row_recovery s) = Ok (entry a (row_recovery s)).
Proof.
  intros Hrow. destruct (seat_requirement _ _ _ _) eqn:E;
    [by rewrite (seat_requirement_Ok _ _ _ _ E)|exfalso..]; revert E;
    unfold seat_requirement; (case_bool_decide; [done|]); cbn;
    (destruct (ss_signed_quote s) as [q|] eqn:Hq; [|done]);
    destruct (quote_ok_verified _ _ _ _ (ro_quote _ _ _ _ Hrow q Hq)) as [Hs Hr Hc _];
    rewrite Hs; cbn; rewrite Hr; cbn; rewrite Hc;
    (destruct (qt_payment (sq_terms q)); [|done]); by destruct (_ && _).
Qed.

Lemma requirement_loop_rows f a rows k n : (∀ s, s ∈ rows → ∃ i, RowOk fa_id f i s) →
  0 <= n → n * u16_max <= k * u64_max → k + Z.of_nat (length rows) <= u16_max →
  ∃ r, requirement_loop (sf_intent f) fa_id a (row_recovery <$> rows) n = Ok r.
Proof.
  revert k n. induction rows as [|s rows IH]; intros k n Hrows Hn Hk Hlen; [by eexists|].
  destruct (Hrows s) as [i Hrow]; [by left|]. cbn.
  rewrite (seat_requirement_row f i) by done. cbn -[entry].
  assert (Hrows' : ∀ s, s ∈ rows → ∃ i, RowOk fa_id f i s) by (intros; apply Hrows; by right).
  cbn in Hlen. destruct (entry a (row_recovery s)) as [e|] eqn:He.
  2:{ apply (IH k); [done..|]. lia. }
  assert (He' : ∃ q, ss_signed_quote s = Some q ∧ pr_amount_msats e = qt_price_msats (sq_terms q)).
  { unfold entry in He. cbn in He. destruct (ss_signed_quote s) as [q|]; [|done]. cbn in He.
    destruct (qt_payment (sq_terms q)); [|done]. cbn in He. destruct (_ && _); [done|].
    injection He as <-. by exists q. }
  destruct He' as (q & Hq & Hprice). pose proof (ro_quote _ _ _ _ Hrow q Hq) as Hok.
  pose proof (quote_ok_price _ _ _ _ Hok). destruct Hok as [_ Hbound].
  assert (Hadd : checked_add_u u64_max n (pr_amount_msats e) = Some (n + pr_amount_msats e)).
  { apply try_from_u_Some. split; [done|]. unfold u16_max, u64_max in *. lia. }
  rewrite Hadd. cbn. destruct (IH (k + 1) (n + pr_amount_msats e)) as [[n' l] Hl];
    [done|lia|lia|lia|]. rewrite Hl. by eexists.
Qed.

Lemma Wf_rows f rows s : Wf fa_id f rows → s ∈ rows → ∃ i, RowOk fa_id f i s.
Proof. intros Hw [i Hi]%list_elem_of_lookup_1. eexists. by apply (wf_row _ _ _ Hw). Qed.

Lemma Wf_requirements f rows a : Wf fa_id f rows → Z.of_nat (length rows) = sf_seat_count f →
  ∃ o, payment_requirements (sf_formation_id f) (row_recovery <$> rows) (sf_intent f) fa_id a
       = Ok o.
Proof.
  intros Hw Hlen. unfold payment_requirements. destruct (existsb _ _); [by eexists|].
  pose proof (wf_u16 _ _ _ (wf_base _ _ _ Hw)).
  destruct (requirement_loop_rows f a rows 0 0) as [[n l] ->]; [|lia|lia|lia|by eexists].
  intros s. by apply Wf_rows.
Qed.

Lemma validate_rows_Ok f rows holders mg_ids keys :
  (∀ s, s ∈ rows → ∃ i, RowOk fa_id f i s) → Distinct rows →
  (∀ s, s ∈ rows → (ad_mg_id (ss_admission s) ∉ mg_ids)
     ∧ (service_pubkey (ss_locator s) ∉ keys)
     ∧ (∀ h, ad_holder (ss_admission s) = Some h → h ∉ holders)) →
  validate_rows (sf_outputs_started f) holders mg_ids keys rows = Ok tt.
Proof.
  revert holders mg_ids keys. induction rows as [|s rows IH]; intros holders mg_ids keys Hrow Hd Hno;
    [done|]. cbn. destruct (Hno s) as (Hm & Hk & Hh); [by left|].
  replace (match ad_holder (ss_admission s) with Some h => bool_decide (h ∈ holders)
           | None => false end) with false.
  2:{ destruct (ad_holder (ss_admission s)); [|done]. symmetry. apply bool_decide_eq_false. by apply Hh. }
  rewrite bool_decide_false by done. rewrite bool_decide_false by done.
  destruct (Hrow s) as [i Hrow_s]; [by left|].
  assert (Heff : validate_effect (sf_outputs_started f) s = Ok tt).
  { apply (validate_effect_spec fa_id f); [apply Hrow_s|apply Hrow_s]. }
  rewrite Heff. cbn. rewrite (proj2 (seat_consistent_spec s)) by apply Hrow_s. cbn.
  apply IH.
  - intros t Ht. apply Hrow. by right.
  - destruct Hd as [Dh Dm Dk]. split.
    + intros j j' t t' h Hj Hj' E E'.
      by pose proof (Dh (S j) (S j') t t' h Hj Hj' E E') as [= ?].
    + intros j j' t t' Hj Hj' E. by pose proof (Dm (S j) (S j') t t' Hj Hj' E) as [= ?].
    + intros j j' t t' Hj Hj' E. by pose proof (Dk (S j) (S j') t t' Hj Hj' E) as [= ?].
  - intros t Ht. destruct (Hno t) as (Hm' & Hk' & Hh'); [by right|].
    apply list_elem_of_lookup_1 in Ht as [j Hj]. destruct Hd as [Dh Dm Dk]. split_and!.
    + intros [E%elem_of_singleton|]%elem_of_union; [|done].
      by pose proof (Dm (S j) 0%nat t s Hj eq_refl E).
    + intros [E%elem_of_singleton|]%elem_of_union; [|done].
      by pose proof (Dk (S j) 0%nat t s Hj eq_refl E).
    + intros h Eh. specialize (Hh' h Eh). destruct (ad_holder (ss_admission s)) as [h'|] eqn:Es;
        [|done]. intros [->%elem_of_singleton|]%elem_of_union; [|done].
      by pose proof (Dh (S j) 0%nat t s h' Hj eq_refl Eh Es).
Qed.

Lemma Wf_progress f rows : Wf fa_id f rows → Z.of_nat (length rows) = sf_seat_count f →
  validate_formation_progress f rows = Ok tt.
Proof.
  intros Hw Hlen. unfold validate_formation_progress.
  destruct (wf_base _ _ _ Hw) as [_ Hsz _ Hp Hf Ht Hi Hc].
  rewrite Hlen, Z.eqb_refl, Hsz, Z.eqb_refl. cbn. rewrite validate_rows_Ok; cycle 1.
  { intros s. by apply Wf_rows. }
  { apply Hw. }
  { intros s _. split_and!; [apply not_elem_of_empty..|]. intros. apply not_elem_of_empty. }
  cbn. unfold phase_ok in Hp. rewrite Hsz in Hp.
  assert (Hph : match sf_phase f with
    | Initialized => created_count rows =? 0
    | SeatsPartiallyCreated => (0 <? created_count rows)
        && (created_count rows <? in_federation_size (sf_intent f))
    | _ => created_count rows =? in_federation_size (sf_intent f) end = true).
  { destruct (sf_phase f); try by apply Z.eqb_eq. apply andb_true_iff.
    by rewrite !Z.ltb_lt. }
  rewrite Hph. cbn. clear Hph Hp.
  assert (Hcodes : stored_dkg_complete (sf_phase f) = true →
    existsb (λ s, bool_decide (ss_guardian_code s = None)) rows = false).
  { intros Hd. apply existsb_false. intros s [i Hs]%list_elem_of_lookup_1.
    apply bool_decide_eq_false, not_eq_None_Some. by eapply Hc. }
  destruct (sf_formation_meta_target f), (sf_invite_code f), (sf_phase f); cbn in *;
    rewrite ?Hcodes by done; try done;
    (destruct Ht as [Ht1 Ht2], Hi as [Hi1 Hi2];
     first [by discriminate (Ht1 (ex_intro _ _ eq_refl))|by discriminate (Hi1 (ex_intro _ _ eq_refl))
           |by destruct (Ht2 eq_refl)|by destruct (Hi2 eq_refl)]).
Qed.

(** ** The reader *)

Lemma Wf_authorization f rows p a : Wf fa_id f rows →
  sf_payment_authorization f = Some a →
  validate_payment_authorization (Some a) (seat_recovery p <$> rows) = Ok tt.
Proof.
  intros Hw Ha. pose proof (wf_auth _ _ _ Hw _ Ha) as Hok. unfold validate_payment_authorization.
  destruct (pa_quotes a) as [|m0 l0] eqn:Hq; [by destruct (ao_some _ _ _ Hok)|].
  rewrite <- Hq. clear Hq.
  assert (Hall : ∀ m, m ∈ pa_quotes a →
    validate_authorized (seat_recovery p <$> rows) m = Ok tt).
  { intros m Hm. destruct (ao_quote _ _ _ Hok m Hm) as (i & s & q & Ei & Hi & Hs & Hid & Hp).
    unfold validate_authorized. rewrite Ei, Nat2Z.id, list_lookup_fmap, Hi. cbn. rewrite Hs. cbn.
    rewrite (ve_signature _ _ _ _ _ (quote_ok_verified _ _ _ _
      (ro_quote _ _ _ _ (wf_row _ _ _ Hw _ _ Hi) _ Hs))). cbn.
    rewrite Hid, Z.eqb_refl. cbn. rewrite bool_decide_false; [done|by apply not_eq_None_Some]. }
  assert (Hc : collect (validate_authorized (seat_recovery p <$> rows)) (pa_quotes a)
    = Ok (replicate (length (pa_quotes a)) tt)).
  { apply collect_Ok. revert Hall. generalize (pa_quotes a). intros l Hall.
    induction l as [|m l IH]; cbn; constructor; [by apply Hall; left|].
    apply IH. intros m' Hm'. apply Hall. by right. }
  by rewrite Hc.
Qed.

(** What [load_recovery] answers. *)
Record Loaded (r : ActiveFormationRecovery) f rows : Prop := {
  lo_mirror : Mirror r f rows;
  lo_phase : phase_dkg_complete (rc_phase r) = stored_dkg_complete (sf_phase f);
  lo_invite : rc_invite_code r = sf_invite_code f;
  lo_action : ∀ q, rc_action_required r = Some (AuthorizePayments q) →
    requirements_of fa_id f rows = Ok (Some q);
  lo_release : rc_release_intended r = sf_release_intended f
}.

Lemma Wf_formation_recovery f rows : Wf fa_id f rows →
  Z.of_nat (length rows) = sf_seat_count f →
  ∃ r, formation_recovery f rows fa_id = Ok r ∧ Loaded r f rows.
Proof.
  intros Hw Hlen. unfold formation_recovery.
  assert (Hauth : validate_payment_authorization (sf_payment_authorization f)
    (seat_recovery (sf_phase f) <$> rows) = Ok tt).
  { destruct (sf_payment_authorization f) as [a|] eqn:Ha; [by eapply Wf_authorization|done]. }
  rewrite Hauth. cbn. clear Hauth.
  replace (sf_release_intended f && bool_decide (sf_payment_reservation_id f = None)) with false.
  2:{ destruct (sf_release_intended f) eqn:Hr; [|done]. symmetry. cbn.
      apply bool_decide_eq_false, not_eq_None_Some. by apply (wf_release _ _ _ Hw). }
  assert (Hmirror : Forall2 mirror_seat (seat_recovery (sf_phase f) <$> rows) rows).
  { apply Forall2_fmap_l. apply Forall_Forall2_diag. by apply Forall_true. }
  rewrite (mirror_requirements _ _ rows) by done.
  destruct (Wf_requirements f rows None Hw Hlen) as [o Ho]. rewrite Ho. cbn -[payment_requirements].
  set (expose := match o with Some r => _ | None => false end && _).
  assert (Hphase : ∃ p, public_phase (sf_phase f) (seat_recovery (sf_phase f) <$> rows) expose = Ok p
    ∧ phase_dkg_complete p = stored_dkg_complete (sf_phase f)).
  { unfold public_phase. pose proof (wf_formed _ _ _ (wf_base _ _ _ Hw)) as Hnf.
    destruct expose, (sf_phase f); cbn; try done; eexists; (split; [reflexivity|]); try done;
      by destruct (forallb _ _). }
  destruct Hphase as (p & -> & Hp). cbn. eexists. split; [done|].
  split; cbn; try done.
  - split; cbn; try done. destruct (sf_payment_authorization f) as [a|] eqn:Ha; cbn.
    + rewrite (ao_recorded _ _ _ (wf_auth _ _ _ Hw _ Ha)). done.
    + by rewrite orb_false_r.
  - intros q. destruct (replacement_requirements _ _); [done|].
    destruct o as [q'|]; [|done]. unfold requirements_of. rewrite Ho.
    destruct expose; [|done]. by intros [= <-].
Qed.

Lemma Wf_schema f rows : Wf fa_id f rows → sf_schema_version f = STORAGE_SCHEMA_VERSION.
Proof.
  intros Hw. pose proof (wf_schema _ _ _ (wf_base _ _ _ Hw)) as Hs.
  unfold validate_schema_and_owner, validate_schema in Hs.
  destruct (Z.eqb_spec (sf_schema_version f) STORAGE_SCHEMA_VERSION); [done|done].
Qed.

Lemma migrate_idle d f rows : View d f rows → Wf fa_id f rows → migrate_schema_11 d = Ok (d, tt).
Proof.
  intros Hv Hw. unfold migrate_schema_11, mbind, tx_bind, tx_get.
  rewrite (vw_formation _ _ _ Hv), (Wf_schema _ _ Hw). done.
Qed.

Lemma load_recovery_Wf d f rows : View d f rows → Wf fa_id f rows →
  ∃ r, load_recovery fa_id d = Ok (d, RecFormation r) ∧ Loaded r f rows.
Proof.
  intros Hv Hw. unfold load_recovery. erewrite tx_bind_eq by done.
  rewrite (vw_formation _ _ _ Hv), (Wf_schema _ _ Hw). cbn -[mbind tx_bind].
  unfold mbind, tx_bind. cbn. rewrite (wf_schema _ _ _ (wf_base _ _ _ Hw)). cbn.
  rewrite (seat_indices_eq _ _ _ Hv).
  rewrite (indexed_rows_read d f rows 0 (length rows)); [|done|done|].
  2:{ intros i s Hi. by apply (ro_index _ _ _ _ (wf_row _ _ _ Hw _ _ Hi)). }
  cbn. rewrite drop_0. rewrite (Wf_progress f rows Hw) by apply Hv. cbn.
  rewrite bool_decide_false by apply (wf_base _ _ _ Hw).
  destruct (Wf_formation_recovery f rows Hw) as (r & Hr & Hl); [apply Hv|].
  unfold tx_lift. rewrite Hr. cbn. by exists r.
Qed.

End Readable.
End Readable.
