(* ===== verification/FaSteps.v ===== *)
(** * Steps that keep the invariant

    The transactions of the driver and its calls, each with the condition under
    which it takes a world that stores a formation to another one. *)

From S2P Require Import Prelude FaSchema FaQuotes FaStore FaProg FaCalls FaDriver FaFormation FaLogic FaInvariant FaViews FaWf FaReadable.
From stdpp Require Import base gmap strings list.
From Stdlib Require Import ZArith Lia.
Open Scope Z_scope.

Module Steps.
Import Fa Quotes Store Run Calls Driver Formation Logic Inv Views WellFormed Readable.

Section Steps.
Context {CR : Crypto}.
Variable fa_id : Z.
Implicit Types (f : StoredFormation) (rows : list StoredSeat) (s : StoredSeat).
Implicit Types (tr : Trace) (w : FaWorld).

(** Payments already made were for priced quotes with wallet terms. *)
Definition Paid tr : Prop := ∀ t, t ∈ paid tr → is_Some (qt_payment t) ∧ refund_known t tr.

(** The world stores this formation. *)
Definition At f rows w : Prop := Paid (w_trace w) ∧ Stored fa_id f rows w.

Lemma At_FaInv f rows w : At f rows w → FaInv fa_id w.
Proof.
  intros [Hp Hs]. split; [done|]. rewrite (vw_formation _ _ _ (proj1 Hs)). by exists f, rows.
Qed.

Lemma FaInv_At w : FaInv fa_id w → is_Some (d_formation (w_db w)) → ∃ f rows, At f rows w.
Proof. intros [Hp Hm] [f Hf]. rewrite Hf in Hm. destruct Hm as (f' & rows & Hs). by exists f', rows. Qed.

Lemma At_unique f f' rows rows' w : At f rows w → At f' rows' w → f' = f ∧ rows' = rows.
Proof. intros [_ [Hv _]] [_ [Hv' _]]. by eapply View_unique. Qed.

(** ** Growing traces *)

Lemma refunds_app l tr : refunds (l ++ tr) = refunds l ++ refunds tr.
Proof. unfold refunds. by rewrite fmap_app, join_app. Qed.
Lemma refund_known_later t l tr : refund_known t tr → refund_known t (l ++ tr).
Proof.
  intros H Hp. destruct (H Hp) as (r & ? & ?). exists r. split; [done|].
  rewrite refunds_app. apply elem_of_app. by right.
Qed.
Lemma terminal_proof_later t p l tr : terminal_proof fa_id t p tr → terminal_proof fa_id t p (l ++ tr).
Proof.
  intros [(id & d & H)|(lo & q & sg & re & cx & rf & d & d' & H1 & H2 & H3 & H4 & H5 & H6)].
  - left. exists id, d. apply elem_of_app. by right.
  - right. exists lo, q, sg, re, cx, rf, d, d'. split_and!; try done; apply elem_of_app; by right.
Qed.
Lemma terminated_later t l tr : terminated fa_id t tr → terminated fa_id t (l ++ tr).
Proof.
  intros (p & d & H1 & H2). exists p, d. split; [by apply terminal_proof_later|].
  apply elem_of_app. by right.
Qed.
Lemma explicit_later a l tr : explicit a tr → explicit a (l ++ tr).
Proof. intros [o H]. exists o. apply elem_of_app. by right. Qed.

Lemma Paid_later l tr : paid (l ++ tr) = paid tr → Paid tr → Paid (l ++ tr).
Proof.
  intros E H t Ht. rewrite E in Ht. destruct (H t Ht). split; [done|by apply refund_known_later].
Qed.

(** Any event that neither pays nor makes a reservation possibly live. *)
Lemma Ghost_later f rows l tr : paid (l ++ tr) = paid tr → maybe_live (l ++ tr) ⊆ maybe_live tr →
  Ghost fa_id f rows tr → Ghost fa_id f rows (l ++ tr).
Proof.
  intros Ep El [G1 G2 G3 G4 G5 G6]. split.
  - by rewrite Ep.
  - intros t Ht. rewrite Ep in Ht. destruct (G2 t Ht); [by left|right; by apply terminated_later].
  - intros t i s q. rewrite Ep. apply G3.
  - intros i s q Hi Hq. by eapply refund_known_later, G4.
  - intros Hst id Hid. apply (G5 Hst). set_solver.
  - intros a Ha. destruct (G6 a Ha); [left; by apply explicit_later|by right].
Qed.

Lemma At_quiet f rows w w' : quiet w w' → At f rows w → At f rows w'.
Proof.
  intros ([l El] & Hd & Ep & Em) [HP (Hv & Hf & Hw & Hg)]. split.
  - rewrite El in *. by apply Paid_later.
  - split; [by eapply View_same|]. split; [destruct Hd as (_ & _ & -> & _); done|].
    split; [done|]. rewrite El in *. apply Ghost_later; [done|by rewrite Em|done].
Qed.

Lemma FaInv_quiet w w' : quiet w w' → FaInv fa_id w → FaInv fa_id w'.
Proof.
  intros Hq HI. destruct (d_formation (w_db w)) as [f0|] eqn:Hf.
  - destruct (FaInv_At w HI) as (f & rows & HA); [by rewrite Hf|].
    by eapply At_FaInv, At_quiet.
  - destruct HI as [HP HI]. destruct Hq as ([l El] & (Ef & _ & Efd & _) & Ep & Em).
    split; [rewrite El in *; by apply Paid_later|]. rewrite Ef. rewrite Hf in *. rewrite Efd, Ep, Em.
    done.
Qed.

(** A committed transaction, seen from the world. *)
Lemma At_commit f rows f' rows' w d' :
  At f rows w → View d' f' rows' → d_formed d' = d_formed (w_db w) → Wf fa_id f' rows' →
  Ghost fa_id f' rows' (w_trace w) → At f' rows' (log (EStmt (w_db w) d') d' w).
Proof.
  intros [HP (Hv & Hf & Hw & Hg)] Hv' Hf' Hw' Hg'. split.
  - apply (Paid_later [EStmt (w_db w) d']); done.
  - split; [done|]. split; [cbn; congruence|]. split; [done|].
    by apply (Ghost_later _ _ [EStmt (w_db w) d']).
Qed.

(** ** Ghost state across updates *)

Lemma Forall2_rows (Q : StoredSeat → StoredSeat → Prop) R rows rows' : rows_step R rows rows' →
  (∀ i s s', rows !! i = Some s → R i s s' → Q s s') → Forall2 Q rows rows'.
Proof.
  intros [Hl HR] HQ. apply Forall2_same_length_lookup_2; [done|]. eauto.
Qed.

(** Updates that keep the quotes and bind rows at most once. *)
Lemma Ghost_keep R f f' rows rows' tr : Ghost fa_id f rows tr → rows_step R rows rows' →
  (∀ i s s', rows !! i = Some s → R i s s' →
     ss_signed_quote s' = ss_signed_quote s ∧ ∀ t, armed s t → armed s' t) →
  (sf_outputs_started f' = false → sf_outputs_started f = false) →
  sf_payment_authorization f' = sf_payment_authorization f →
  in_max_total_msats (sf_intent f') = in_max_total_msats (sf_intent f) →
  sf_formation_id f' = sf_formation_id f →
  (sf_outputs_started f' = false → requirements_of fa_id f' rows' = requirements_of fa_id f rows) →
  Ghost fa_id f' rows' tr.
Proof.
  intros [G1 G2 G3 G4 G5 G6] Hs HR Hst Ea Ec Eid Hreq.
  assert (Hq : ∀ i s', rows' !! i = Some s' → ∃ s, rows !! i = Some s
    ∧ ss_signed_quote s' = ss_signed_quote s ∧ ∀ t, armed s t → armed s' t).
  { intros i s' Hi. destruct (rows_step_lookup _ _ _ _ _ Hs Hi) as (s & Hi0 & HRi). eauto. }
  split.
  - auto.
  - intros t Ht. destruct (G2 t Ht) as [(i & s & Hi & Hb)|]; [left|by right].
    destruct (rows_step_back _ _ _ _ _ Hs Hi) as (s' & Hi' & HRi). exists i, s'.
    split; [done|]. by apply (HR _ _ _ Hi HRi).
  - intros t i s' q Ht Hi Hsq Et. destruct (Hq i s' Hi) as (s & Hi0 & E & Hb). apply Hb.
    apply (G3 t i s q); congruence.
  - intros i s' q Hi Hsq. destruct (Hq i s' Hi) as (s & Hi0 & E & _).
    apply (G4 i s q); congruence.
  - intros H id Hid. rewrite Ea, Eid, Hreq by done. by apply (G5 (Hst H)).
  - intros a Ha. rewrite Ec. rewrite Ea in Ha.
    assert (auth_total rows' a = auth_total rows a) as ->; [|by apply G6].
    unfold auth_total. f_equal. apply list_eq. intros i. rewrite !list_lookup_imap.
    destruct (rows' !! i) as [s'|] eqn:Hi.
    + destruct (Hq i s' Hi) as (s & -> & E & _). cbn. unfold member_price. by rewrite E.
    + apply lookup_ge_None in Hi. destruct Hs as [Hl _]. rewrite Hl in Hi.
      apply lookup_ge_None in Hi. by rewrite Hi.
Qed.

(** Without an aggregate no reservation is live before the outputs. *)
Lemma Ghost_no_live f rows tr : Ghost fa_id f rows tr → sf_payment_authorization f = None →
  sf_outputs_started f = false → maybe_live tr = ∅.
Proof.
  intros Hg Ha Hst. apply set_eq. intros id. split; [|by intros ?%elem_of_empty].
  intros Hid. destruct (gh_live _ _ _ _ Hg Hst id Hid) as [[? E] _]. congruence.
Qed.

(** Updates that drop the aggregate and quotes that were not paid. *)
Lemma Ghost_drop R f f' rows rows' tr : Ghost fa_id f rows tr → rows_step R rows rows' →
  sf_payment_authorization f' = None →
  sf_outputs_started f' = sf_outputs_started f →
  (sf_outputs_started f = false → sf_payment_authorization f = None) →
  (∀ i s s', rows !! i = Some s → R i s s' → s' = s
     ∨ ss_signed_quote s' = None ∧ ∀ t, armed s t → terminated fa_id t tr) →
  Ghost fa_id f' rows' tr.
Proof.
  intros Hg Hs Ha Est Hun HR. pose proof Hg as [G1 G2 G3 G4 G5 G6].
  assert (Hq : ∀ i s' q, rows' !! i = Some s' → ss_signed_quote s' = Some q →
    rows !! i = Some s').
  { intros i s' q Hi Hsq. destruct (rows_step_lookup _ _ _ _ _ Hs Hi) as (s & Hi0 & HRi).
    destruct (HR _ _ _ Hi0 HRi) as [->|[? _]]; congruence. }
  split.
  - by rewrite Est.
  - intros t Ht. destruct (G2 t Ht) as [(i & s & Hi & Hb)|]; [|by right].
    destruct (rows_step_back _ _ _ _ _ Hs Hi) as (s' & Hi' & HRi).
    destruct (HR _ _ _ Hi HRi) as [->|[_ Hterm]]; [left; by exists i, s|right; by apply Hterm].
  - intros t i s' q Ht Hi Hsq Et. apply (G3 t i s' q); [done| |done|done]. by eapply Hq.
  - intros i s' q Hi Hsq. apply (G4 i s' q); [|done]. by eapply Hq.
  - rewrite Est. intros H id Hid. by rewrite (Ghost_no_live _ _ _ Hg (Hun H) H) in Hid.
  - by rewrite Ha.
Qed.

(** ** Transactions *)

Abbreviation after w d' := (log (EStmt (w_db w) d') d' w).

Lemma requirements_same R f f' rows rows' : rows_step R rows rows' →
  sf_formation_id f' = sf_formation_id f → sf_intent f' = sf_intent f →
  (∀ i s s', rows !! i = Some s → R i s s' → wanting (row_recovery s) = wanting (row_recovery s')
     ∧ seat_requirement (sf_intent f) fa_id None (row_recovery s)
       = seat_requirement (sf_intent f) fa_id None (row_recovery s')) →
  requirements_of fa_id f' rows' = requirements_of fa_id f rows.
Proof.
  intros Hs Eid Ei HR. unfold requirements_of. rewrite Eid, Ei. symmetry.
  apply requirements_congr, Forall2_fmap, (Forall2_rows _ _ _ _ Hs). done.
Qed.

Lemma store_quote_step f rows w i s q d' u :
  At f rows w → rows !! i = Some s → ss_seat_id s = None → ss_signed_quote s = None →
  quote_ok fa_id f s q → refund_known (sq_terms q) (w_trace w) → sq_terms q ∉ paid (w_trace w) →
  store_quote (sf_formation_id f) (Z.of_nat i) q (w_db w) = Ok (d', u) →
  At (with_authorization None f) (<[i := with_quote (Some q) s]> rows) (after w d').
Proof.
  intros HA Hi Hseat Hnone Hok Hrefund Hpaid H. pose proof HA as [_ (Hv & _ & Hw & Hg)].
  destruct (store_quote_view _ _ _ _ _ _ _ _ Hv Hi H) as (Hv' & Hf & Hrep & _).
  assert (Ha := Wf_wanting _ _ _ _ _ Hw Hi Hseat Hnone).
  pose proof (insert_step rows i s (with_quote (Some q) s) Hi) as Hs.
  eapply At_commit; [done|done|done|by apply store_quote_wf|].
  pose proof Hg as [G1 G2 G3 G4 G5 G6]. split.
  - done.
  - intros t Ht. destruct (G2 t Ht) as [(j & x & Hj & Hb)|]; [left|by right].
    destruct (rows_step_back _ _ _ _ _ Hs Hj) as (x' & Hx' & [(-> & -> & ->)|[_ ->]]);
      [|by exists j, x]. destruct Hb as [(q' & E & _) _]. congruence.
  - intros t j x' q' Ht Hx' Hq' Et.
    destruct (rows_step_lookup _ _ _ _ _ Hs Hx') as (x & Hx & [(-> & -> & ->)|[_ ->]]);
      [|by eapply G3]. cbn in Hq'. by simplify_eq.
  - intros j x' q' Hx' Hq'.
    destruct (rows_step_lookup _ _ _ _ _ Hs Hx') as (x & Hx & [(-> & -> & ->)|[_ ->]]);
      [|by eapply G4]. cbn in Hq'. by simplify_eq.
  - cbn. intros Hst id Hid. by rewrite (Ghost_no_live _ _ _ Hg Ha Hst) in Hid.
  - done.
Qed.

(** Accepting a row, when its effect is the one of its quote. *)
Lemma record_seat_accepted_step f rows w i s seat account d' u :
  At f rows w → stored_dkg_complete (sf_phase f) = false → rows !! i = Some s →
  ss_seat_id s = None → fee_account_ok account = true →
  record_seat_accepted (sf_formation_id f) (Z.of_nat i) seat account (w_db w) = Ok (d', u) →
  ∃ p, stored_dkg_complete p = false
    ∧ At (with_phase p f) (<[i := with_acceptance seat account s]> rows) (after w d').
Proof.
  intros HA Hd Hi Hseat Hfee H. pose proof HA as [_ (Hv & _ & Hw & Hg)].
  destruct (record_seat_accepted_view _ _ _ _ _ _ _ _ _ Hv Hi H)
    as (p & q & t & Hv' & Hf & Hq & Ht & He & Hp).
  pose proof (insert_step rows i s (with_acceptance seat account s) Hi) as Hs.
  exists p. split; [by destruct Hp as [[-> _]|[-> _]]|].
  eapply At_commit; [done|done|done|by eapply record_seat_accepted_wf; try done; apply Hv|].
  eapply Ghost_keep; [done|exact Hs| |done|done|done|done|].
  { by intros j x x' _ [(-> & -> & ->)|[_ ->]]. }
  intros Hst. eapply requirements_same; [exact Hs|done|done|].
  intros j x x' _ [(-> & -> & ->)|[_ ->]]; [|done].
  pose proof (wf_row _ _ _ Hw _ _ Hi) as Hrow.
  rewrite (seat_requirement_row fa_id f (Z.of_nat i)) by done.
  pose proof (ro_effect _ _ _ _ Hrow) as Heff. unfold EffectOk in Heff.
  unfold authorized_effect in He. destruct (ad_state (ss_admission s)) as [|o k]; [done|].
  rewrite Hq in Heff. destruct Heff as [[_ Ek] Hk]. split.
  - unfold wanting. cbn. rewrite Hq. by rewrite !bool_decide_false by naive_solver.
  - assert (Hnone : seat_requirement (sf_intent f) fa_id None
      (row_recovery (with_acceptance seat account s)) = Ok None).
    { unfold seat_requirement. case_bool_decide as Hx; [done|]. destruct Hx. by split; [exists seat|]. }
    rewrite Hnone. unfold entry. cbn. rewrite Hq. cbn.
    destruct (qt_payment (sq_terms q)) eqn:Hpay; [|done]. exfalso.
    unfold effect_of in Ek. rewrite Hpay in Ek. subst k. specialize (Hk eq_refl).
    cbn in Hst. congruence.
Qed.

Lemma record_guardian_code_step f rows w i s code d' u :
  At f rows w → rows !! i = Some s →
  record_guardian_code (sf_formation_id f) (Z.of_nat i) code (w_db w) = Ok (d', u) →
  At f (<[i := with_code code s]> rows) (after w d').
Proof.
  intros HA Hi H. pose proof HA as [_ (Hv & _ & Hw & Hg)].
  destruct (record_guardian_code_view _ _ _ _ _ _ _ _ Hv Hi H) as (Hv' & Hf & Hseat & _).
  pose proof (insert_step rows i s (with_code code s) Hi) as Hs.
  eapply At_commit; [done|done|done|by apply record_guardian_code_wf|].
  eapply Ghost_keep; [done|exact Hs| |done|done|done|done|].
  { by intros j x x' _ [(-> & -> & ->)|[_ ->]]. }
  intros Hst. eapply requirements_same; [exact Hs|done|done|].
  by intros j x x' _ [(-> & -> & ->)|[_ ->]].
Qed.

(** Updates of the record alone. *)
Lemma same_rows rows : rows_step (λ _ s s', s' = s) rows rows.
Proof. split; [done|]. congruence. Qed.

Lemma Ghost_record f f' rows tr : Ghost fa_id f rows tr →
  sf_outputs_started f' = sf_outputs_started f →
  sf_payment_authorization f' = sf_payment_authorization f → sf_intent f' = sf_intent f →
  sf_formation_id f' = sf_formation_id f → Ghost fa_id f' rows tr.
Proof.
  intros Hg Est Ea Ei Eid. eapply Ghost_keep; [done|apply same_rows| |congruence|done|by rewrite Ei|done|].
  - by intros i s s' _ ->.
  - intros _. unfold requirements_of. by rewrite Eid, Ei.
Qed.

Lemma record_dkg_complete_step f rows w invite d' u :
  At f rows w → record_dkg_complete (sf_formation_id f) invite (w_db w) = Ok (d', u) →
  At (with_dkg_complete invite f) rows (after w d').
Proof.
  intros HA H. pose proof HA as [_ (Hv & _ & Hw & Hg)].
  destruct (record_dkg_complete_view _ _ _ _ _ _ Hv H) as (Hv' & Hf & Hval).
  eapply At_commit; [done|done|done|by apply with_dkg_complete_wf|by apply (Ghost_record f)].
Qed.

Lemma record_formation_meta_target_step f rows w target d' u :
  At f rows w → stored_dkg_complete (sf_phase f) = true →
  record_formation_meta_target (sf_formation_id f) target (w_db w) = Ok (d', u) →
  At (with_target target f) rows (after w d').
Proof.
  intros HA Hd H. pose proof HA as [_ (Hv & _ & Hw & Hg)].
  destruct (record_formation_meta_target_view _ _ _ _ _ _ Hv H) as (Hv' & Hf).
  eapply At_commit; [done|done|done|by apply with_target_wf|by apply (Ghost_record f)].
Qed.

Lemma record_payment_reservation_step f rows w id d' u :
  At f rows w → record_payment_reservation (sf_formation_id f) id (w_db w) = Ok (d', u) →
  At (with_reservation (Some id) false f) rows (after w d').
Proof.
  intros HA H. pose proof HA as [_ (Hv & _ & Hw & Hg)].
  destruct (record_payment_reservation_view _ _ _ _ _ _ Hv H) as (Hv' & Hf & Ha & _).
  eapply At_commit; [done|done|done|by apply with_reservation_wf|by apply (Ghost_record f)].
Qed.

Lemma record_reservation_release_intent_step f rows w id d' u :
  At f rows w →
  record_reservation_release_intent (sf_formation_id f) id (w_db w) = Ok (d', u) →
  sf_payment_reservation_id f = Some id
  ∧ At (with_reservation (Some id) true f) rows (after w d').
Proof.
  intros HA H. pose proof HA as [_ (Hv & _ & Hw & Hg)].
  destruct (record_reservation_release_intent_view _ _ _ _ _ _ Hv H) as (Hv' & Hf & Hr).
  split; [done|].
  eapply At_commit; [done|done|done|apply with_reservation_wf; [done|]|by apply (Ghost_record f)].
  apply (wf_reservation _ _ _ Hw). by rewrite Hr.
Qed.

Lemma authorize_payments_step f rows w id l d' u :
  At f rows w →
  (∀ i s, rows !! i = Some s → is_Some (ss_seat_id s) ∨ is_Some (ss_signed_quote s)) →
  (let a := {| pa_authorization_id := id; pa_quotes := l |} in
   explicit a (w_trace w)
   ∨ ∃ cap, in_max_total_msats (sf_intent f) = Some cap ∧ auth_total rows a <= cap) →
  authorize_payments (sf_formation_id f) id l (w_db w) = Ok (d', u) →
  At (with_payment (Some {| pa_authorization_id := id; pa_quotes := l |}) true
        (sf_payment_reservation_id f) (sf_release_intended f) f) rows (after w d').
Proof.
  intros HA Hcomp Hcap H. pose proof HA as [_ (Hv & _ & Hw & Hg)].
  destruct (authorize_payments_view _ _ _ _ _ _ _ Hv H) as (Hv' & Hf & Hne & Hl).
  eapply At_commit; [done|done|done|by apply authorize_payments_wf|].
  destruct Hg as [G1 G2 G3 G4 G5 G6]. split; try done.
  - cbn. intros Hst id' Hid. destruct (G5 Hst id' Hid) as [_ Hq]. by split; [eexists|].
  - by intros a [= <-].
Qed.

(** Binding rows to the effect of their own quote. *)
Lemma armed_bind s q t k : ss_signed_quote s = Some q →
  bindable (quote_id (sq_terms q)) k s → armed s t →
  armed (bind_effect (quote_id (sq_terms q)) k s) t.
Proof.
  intros Hq Hb [(q' & Hq' & <-) Hst]. split; [by exists q'|]. simplify_eq. cbn.
  destruct Hb as [Hb|Hb]; [congruence|]. rewrite Hst in Hb. by injection Hb as <-.
Qed.

Lemma outputs_started_step f rows w provenance lease now d' e :
  At f rows w → sf_outputs_started f = false →
  record_payment_outputs_started (sf_formation_id f) provenance lease now (w_db w) = Ok (d', e) →
  ∃ a rows', sf_payment_authorization f = Some a ∧ is_Some (sf_payment_reservation_id f)
    ∧ rows_step (arms (pa_quotes a)) rows rows'
    ∧ At (with_outputs_started f) rows' (after w d').
Proof.
  intros HA Hst H. pose proof HA as [_ (Hv & _ & Hw & Hg)].
  destruct (sf_payment_authorization f) as [a|] eqn:Ha.
  2:{ exfalso. unfold record_payment_outputs_started in H. tx_inv.
      repeat match goal with
      | H : active_formation _ _ = Ok _ |- _ =>
          apply active_formation_Ok in H; destruct H as (-> & ? & _)
      | H : fence _ _ _ = Ok _ |- _ => apply fa_fence_Ok in H; destruct H as [-> _]
      end. pose proof (vw_formation _ _ _ Hv). congruence. }
  apply (record_payment_outputs_started_view _ _ _ f rows _ _ _ a) in H
    as (rows' & Hv' & Hf & Hres & Hs); [|done|done|].
  2:{ intros m Hm. destruct (ao_quote _ _ _ (wf_auth _ _ _ Hw _ Ha) m Hm)
      as (i & s & _ & Ei & Hi & _). by exists i, s. }
  exists a, rows'. split_and!; [done|done|done|].
  eapply At_commit; [done|done|done|by eapply outputs_started_wf|].
  eapply Ghost_keep; [done|exact Hs| |done|done|done|done|done].
  intros i s s' Hi [[-> _]|(q & t & Hq & Ht & _ & _ & Hb & ->)]; [done|].
  split; [done|]. intros t'. apply quote_verify_Some in Ht as ->. by eapply armed_bind.
Qed.

Lemma effects_step f rows w l provenance lease now d' e :
  At f rows w → (∀ e, e ∈ l → ∃ i s, e.1.1 = Z.of_nat i ∧ rows !! i = Some s) →
  (∀ e i s q, e ∈ l → e.2 = PaidOutput → Z.to_nat e.1.1 = i → rows !! i = Some s →
     ss_signed_quote s = Some q → ∃ a, sf_payment_authorization f = Some a ∧ member a i q) →
  (∀ i s, rows !! i = Some s → is_Some (ss_replacement_for s) →
     ∃ e, e ∈ l ∧ Z.to_nat e.1.1 = i) →
  record_seat_effects_authorized (sf_formation_id f) l provenance lease now (w_db w)
    = Ok (d', e) →
  ∃ rows', rows_step (rewritten (λ e, Z.to_nat e.1.1) effect_row l) rows rows'
    ∧ At f rows' (after w d').
Proof.
  intros HA Hl Hpaid Hall H. pose proof HA as [_ (Hv & _ & Hw & Hg)].
  destruct (record_seat_effects_authorized_view _ _ _ _ _ _ _ _ _ Hv Hl H)
    as (rows' & Hv' & Hf & Hst & Hs).
  exists rows'. split; [done|].
  eapply At_commit; [done|done|done|by eapply effects_authorized_wf|].
  eapply Ghost_keep; [done|exact Hs| |done|done|done|done|].
  - intros i s s' Hi [[-> _]|(x & _ & _ & q & t & Hq & Ht & Hid & _ & Hb & _ & ->)]; [done|].
    apply quote_verify_Some in Ht as ->. rewrite <- Hid in *.
    split; [by case_bool_decide|]. intros t Ht. apply (armed_bind _ _ _ x.2 Hq Hb) in Ht.
    by case_bool_decide.
  - intros _. eapply requirements_same; [exact Hs|done|done|].
    intros i s s' Hi [[-> _]|(x & _ & _ & q & t & _ & _ & _ & _ & _ & _ & ->)]; [done|].
    by case_bool_decide.
Qed.

Lemma clear_quote_step f rows w i s q d' u :
  At f rows w → sf_payment_authorization f = None → rows !! i = Some s →
  ad_state (ss_admission s) = Fresh →
  clear_quote (sf_formation_id f) (Z.of_nat i) q (w_db w) = Ok (d', u) →
  At (without_aggregate f) (<[i := with_quote None s]> rows) (after w d').
Proof.
  intros HA Ha Hi Hfresh H. pose proof HA as [_ (Hv & _ & Hw & Hg)].
  unfold clear_quote in H.
  apply (clear_quotes_view _ _ _ f rows) in H as (rows' & Hv' & Hf & _ & _ & Hs); [|done|].
  2:{ intros x ->%list_elem_of_singleton. by exists i, s. }
  destruct (clear_refresh_wf _ _ _ _ _ _ _ Hw Ha Hi Hfresh Hs) as [-> Hw'].
  eapply At_commit; [done|done|done|done|].
  eapply (Ghost_drop _ f); [done|exact (insert_step _ _ _ _ Hi)|done|done|done|].
  intros j x x' Hx [(-> & -> & ->)|[_ ->]]; [right|by left]. split; [done|].
  intros t [_ E]. congruence.
Qed.

Lemma clear_terminal_step f rows w l d' u :
  At f rows w → sf_outputs_started f = true →
  (∀ x, x ∈ l → ∃ i s, x.1 = Z.of_nat i ∧ rows !! i = Some s
     ∧ ∀ t, armed s t → terminated fa_id t (w_trace w)) →
  (∀ i s, rows !! i = Some s → is_Some (ss_seat_id s) ∨ ∃ x, x ∈ l ∧ Z.to_nat x.1 = i) →
  Store.clear_terminal_quotes (sf_formation_id f) l true (w_db w) = Ok (d', u) →
  ∃ rows', l ≠ [] ∧ NoDup l.*1
    ∧ rows_step (rewritten (λ x, Z.to_nat x.1)
        (cleared (sf_outputs_started f) TerminalReplacement) l) rows rows'
    ∧ At (without_aggregate f) rows' (after w d').
Proof.
  intros HA Hst Hl Hall H. pose proof HA as [_ (Hv & _ & Hw & Hg)].
  unfold Store.clear_terminal_quotes in H.
  apply (clear_quotes_view _ _ _ f rows) in H as (rows' & Hv' & Hf & Hne & Hnd & Hs); [|done|].
  2:{ intros x Hx. destruct (Hl x Hx) as (i & s & Ei & Hi & _). by exists i, s. }
  exists rows'. split_and!; [done|done|done|].
  eapply At_commit; [done|done|done|by eapply clear_terminal_wf|].
  eapply (Ghost_drop _ f); [done|exact Hs|done|done|by rewrite Hst|].
  intros j x x' Hx [[-> _]|(y & Hy & Ej & _ & _ & _ & t & _ & ->)]; [by left|right].
  split; [done|]. destruct (Hl y Hy) as (i & s & Ei & Hi & Hterm).
  rewrite Ei, Nat2Z.id in Ej. subst. simplify_eq. done.
Qed.

Lemma restore_step f rows w released lease now d' e :
  At f rows w →
  restore_provisional_replacements (sf_formation_id f) released lease now (w_db w) = Ok (d', e) →
  ∃ rows', At (without_aggregate f) rows' (after w d').
Proof.
  intros HA H. pose proof HA as [_ (Hv & _ & Hw & Hg)].
  destruct (restore_provisional_replacements_view _ _ _ _ _ _ _ _ Hv H)
    as (rows' & Hv' & Hf & Hst & Hs & i & s & Hi & Hap).
  exists rows'. eapply At_commit; [done|done|done|by eapply restore_wf|].
  eapply (Ghost_drop _ f); [done|exact Hs|done|done|by rewrite Hst|].
  intros j x x' Hx. unfold restored. destruct (ss_replacement_approved x); [|by left].
  intros (_ & _ & Hfresh & ->). right. split; [done|]. intros t [_ E]. congruence.
Qed.

(** ** Replacing guardians *)

Lemma NoDup_fmap_eq {A B} (g : A → B) l x y :
  NoDup (g <$> l) → x ∈ l → y ∈ l → g x = g y → x = y.
Proof.
  intros Hnd Hx Hy E. apply list_elem_of_lookup_1 in Hx as [i Hi], Hy as [j Hj].
  assert (i = j) as ->; [|congruence]. eapply (NoDup_lookup _ i j (g x) Hnd).
  - by rewrite list_lookup_fmap, Hi.
  - by rewrite list_lookup_fmap, Hj, E.
Qed.
Lemma NoDup_omap_eq {A B} (g : A → option B) l x y b :
  NoDup (omap g l) → x ∈ l → y ∈ l → g x = Some b → g y = Some b → x = y.
Proof.
  induction l as [|z l IH]; [by intros _ ?%elem_of_nil|]. cbn.
  intros Hnd [->|Hx]%elem_of_cons [->|Hy]%elem_of_cons Ex Ey; [done| | |].
  - rewrite Ex in Hnd. apply NoDup_cons in Hnd as [Hno _]. destruct Hno.
    apply list_elem_of_omap. eauto.
  - rewrite Ey in Hnd. apply NoDup_cons in Hnd as [Hno _]. destruct Hno.
    apply list_elem_of_omap. eauto.
  - apply IH; try done. destruct (g z); [by apply NoDup_cons in Hnd as [_ ?]|done].
Qed.

Abbreviation Change := (GuardianReplacementSeat * (Locator * MgAdmission))%type.

(** The new guardians differ from each other and from the rows that stay. *)
Record NewGuardians (rows : list StoredSeat) (l : list Change) : Prop := {
  ng_mg_ids : NoDup ((λ x, ad_mg_id x.2.2) <$> l);
  ng_mg_ids_rows : ∀ x i s, x ∈ l → rows !! i = Some s →
    ad_mg_id x.2.2 ≠ ad_mg_id (ss_admission s);
  ng_keys : NoDup ((λ x, service_pubkey x.2.1) <$> l);
  ng_keys_rows : ∀ x i s, x ∈ l → rows !! i = Some s →
    (∀ y, y ∈ l → gs_index y.1 ≠ Z.of_nat i) →
    service_pubkey x.2.1 ≠ service_pubkey (ss_locator s)
}.

Lemma Distinct_replace rows rows' l : Distinct rows → NewGuardians rows l →
  (∀ x, x ∈ l → 0 <= gs_index x.1) →
  NoDup (omap (λ x, ad_holder x.2.2) l) →
  (∀ x h, x ∈ l → ad_holder x.2.2 = Some h → ∀ j s, rows !! j = Some s →
     (∀ y, y ∈ l → gs_index y.1 ≠ Z.of_nat j) → ad_holder (ss_admission s) ≠ Some h) →
  rows_step (rewritten (λ x, Z.to_nat (gs_index x.1)) replaced l) rows rows' → Distinct rows'.
Proof.
  intros [Dh Dm Dk] [M1 M2 K1 K2] Hpos H1 H2 Hs.
  assert (Hcase : ∀ i s', rows' !! i = Some s' →
    rows !! i = Some s' ∧ (∀ y, y ∈ l → gs_index y.1 ≠ Z.of_nat i)
    ∨ ∃ x, x ∈ l ∧ Z.to_nat (gs_index x.1) = i ∧ ss_admission s' = x.2.2 ∧ ss_locator s' = x.2.1).
  { intros i s' Hi. destruct (rows_step_lookup _ _ _ _ _ Hs Hi) as (s & Hi0 & [[-> Hn]|HR]).
    - left. split; [done|]. intros y Hy E. apply Hn, list_elem_of_fmap. exists y.
      split; [lia|done].
    - right. destruct HR as (x & Hx & Ei & _ & _ & _ & m & n & ->). by exists x. }
  split; intros i j s s' *; intros Hi Hj;
    destruct (Hcase i s Hi) as [[Hi0 Ni]|(x & Hx & <- & Ax & Lx)],
             (Hcase j s' Hj) as [[Hj0 Nj]|(y & Hy & <- & Ay & Ly)];
    rewrite ?Ax, ?Ay, ?Lx, ?Ly.
  - by apply Dh.
  - intros E E'. by destruct (H2 y h Hy E' i s).
  - intros E E'. by destruct (H2 x h Hx E j s').
  - intros E E'. by rewrite (NoDup_omap_eq _ _ _ _ _ H1 Hx Hy E E').
  - by apply Dm.
  - intros E. by destruct (M2 y i s).
  - intros E. by destruct (M2 x j s').
  - intros E. by rewrite (NoDup_fmap_eq _ _ _ _ M1 Hx Hy E).
  - by apply Dk.
  - intros E. by destruct (K2 y i s).
  - intros E. by destruct (K2 x j s').
  - intros E. by rewrite (NoDup_fmap_eq _ _ _ _ K1 Hx Hy E).
Qed.

Lemma replace_step f rows w (q : GuardianReplacementRequirements) l cap d' u :
  At f rows w → gr_seats q ≠ [] →
  (∀ r, r ∈ gr_seats q → ∃ i s, gs_index r = Z.of_nat i ∧ rows !! i = Some s) →
  NewGuardians rows (zip (gr_seats q) l) → (∀ x, x ∈ l → ad_state x.2 = Fresh) →
  replace_guardians (sf_formation_id f) q l cap (w_db w) = Ok (d', u) →
  ∃ rows', At (with_renewed_cap cap f) rows' (after w d').
Proof.
  intros HA Hne Hin Hnew Hfresh H. pose proof HA as [_ (Hv & _ & Hw & Hg)].
  apply (replace_guardians_view _ _ _ f rows) in H
    as (rows' & Hv' & Hf & Hst & Hres & Hlen & Hs & Hnh & Hh & _); [|done|done].
  assert (Hfst : ∀ x, x ∈ zip (gr_seats q) l → x.1 ∈ gr_seats q ∧ x.2 ∈ l).
  { intros [r y] Hx. split; [by apply elem_of_zip_l in Hx|by apply elem_of_zip_r in Hx]. }
  assert (Hd : Distinct rows').
  { eapply Distinct_replace; [apply Hw|done| |done| |done].
    - intros x Hx. destruct (Hin x.1) as (i & _ & -> & _); [by apply Hfst|lia].
    - intros x h Hx Hxh j s Hj Hno. eapply Hh; [done|done|done|].
      intros (r & Er & Hr)%list_elem_of_fmap. apply list_elem_of_lookup_1 in Hr as [k Hk].
      destruct (lookup_lt_is_Some_2 l k) as [y Hy]; [rewrite <- Hlen; by eapply lookup_lt_Some|].
      apply (Hno (r, y)); [|done]. apply (list_elem_of_lookup_2 _ k).
      by rewrite lookup_zip_with, Hk, Hy. }
  exists rows'. eapply At_commit; [done|done|done| |].
  - eapply replace_wf; [done| |done|done| | |exact Hs].
    + destruct (gr_seats q); [done|]. by destruct l.
    + intros x Hx. destruct (Hin x.1) as (i & s & -> & Hi); [by apply Hfst|].
      rewrite Nat2Z.id. by eexists.
    + intros x Hx. by apply Hfresh, Hfst.
  - destruct Hg as [G1 G2 G3 G4 G5 G6]. cbn.
    assert (Hq : ∀ i s' x, rows' !! i = Some s' → ss_signed_quote s' = Some x → rows !! i = Some s').
    { intros i s' x Hi Hx. destruct (rows_step_lookup _ _ _ _ _ Hs Hi) as (s & Hi0 & [[-> _]|HR]); [done|].
      destruct HR as (y & _ & _ & _ & Hn & _ & m & n & ->). cbn in Hx. congruence. }
    split; cbn; [by rewrite Hst| | | |by rewrite Hst|done].
    + intros t Ht. destruct (G2 t Ht) as [(i & s & Hi & Hb)|]; [left|by right].
      destruct (rows_step_back _ _ _ _ _ Hs Hi) as (s' & Hi' & [[-> _]|HR]); [by exists i, s|].
      destruct HR as (y & _ & _ & _ & Hn & _). destruct Hb as [(x & E & _) _]. congruence.
    + intros t i s' x Ht Hi Hx Et. eapply G3; [done|by eapply Hq|done|done].
    + intros i s' x Hi Hx. eapply G4; [by eapply Hq|done].
Qed.

(** ** Beginning and ending a formation *)

Lemma abandon_step f rows w lease now d' e :
  At f rows w → maybe_live (w_trace w) = ∅ →
  abandon_formation (sf_formation_id f) lease now (w_db w) = Ok (d', e) →
  d_formation d' = None ∧ FaInv fa_id (after w d').
Proof.
  intros [HP (Hv & Hfd & Hw & Hg)] Hlive H.
  destruct (abandon_formation_view _ _ _ _ _ _ _ Hv H) as (Hf & Hfd' & Hst).
  split; [done|]. split; [by apply (Paid_later [EStmt (w_db w) d'])|]. cbn.
  rewrite Hf, Hfd', Hfd. split; [by apply (gh_unstarted _ _ _ _ Hg)|done].
Qed.

Lemma confirm_step f rows w d' u :
  At f rows w → confirm_formation_meta_target (sf_formation_id f) (w_db w) = Ok (d', u) →
  d_formation d' = None ∧ FaInv fa_id (after w d').
Proof.
  intros [HP (Hv & Hfd & Hw & Hg)] H. unfold confirm_formation_meta_target in H. tx_inv.
  match goal with H : active_formation _ _ = Ok _ |- _ =>
    apply active_formation_Ok in H; destruct H as (-> & Hf & _) end.
  rewrite (vw_formation _ _ _ Hv) in Hf. injection Hf as <-.
  bool_in H; [|done]. cbn in H. apply record_formed_federation_view in H
    as (Hf & _ & formed & Hformed & Hid).
  split; [done|]. split; [by apply (Paid_later [EStmt (w_db w) d'])|]. cbn.
  rewrite Hf, Hformed. pose proof (wf_schema _ _ _ (wf_base _ _ _ Hw)) as Hsch.
  unfold validate_schema_and_owner in Hsch. apply res_bind_Ok in Hsch as (_ & _ & Hsch).
  bool_in Hsch; [|done]. congruence.
Qed.

Lemma initialize_step w fid intent (seats : list InitialSeat) payer callback d' u :
  FaInv fa_id w → (∀ i x, seats !! i = Some x → is_index x = Z.of_nat i) →
  (∀ x, x ∈ seats → ad_state (is_admission x) = Fresh) → Distinct (new_row <$> seats) →
  Z.of_nat (length seats) = in_federation_size intent →
  is_fedi (in_fedimintd_dkg_version intent) = true →
  overlaps_dkg (in_fedimintd_versions intent) (in_fedimintd_dkg_version intent) = true →
  (is_Some payer → is_Some (in_max_total_msats intent)) →
  initialize fa_id fid intent seats payer callback (w_db w) = Ok (d', u) →
  ∃ f, At f (new_row <$> seats) (after w d').
Proof.
  intros [HP HI] Hidx Hfresh Hd Hlen Hfedi Hover Hpay H.
  apply (initialize_view _ _ _ _ _ _ _ _ _ Hidx) in H as (Hf & Hfd & Hfd' & Hu16 & Hv).
  rewrite Hf, Hfd in HI. destruct HI as [Hpaid Hlive].
  assert (Hrow : ∀ i s, (new_row <$> seats) !! i = Some s →
    ∃ x, seats !! i = Some x ∧ s = new_row x ∧ ad_state (is_admission x) = Fresh).
  { intros i s Hi. rewrite list_lookup_fmap in Hi. destruct (seats !! i) as [x|] eqn:Hx; [|done].
    injection Hi as <-. exists x. split_and!; [done|done|]. apply Hfresh. by eapply list_elem_of_lookup_2. }
  eexists. split; [by apply (Paid_later [EStmt (w_db w) d'])|].
  split; [exact Hv|]. split; [done|]. split.
  - split; try done.
    + split; cbn; try done.
      * unfold validate_schema_and_owner, validate_schema. cbn. rewrite Hfedi, Hover. cbn.
        rewrite (bool_decide_false (is_Some payer ∧ in_max_total_msats intent = None))
          by (intros [Hp E]; destruct (Hpay Hp); congruence).
        by rewrite bool_decide_true.
      * unfold phase_ok. cbn. clear. by induction seats.
    + intros i s Hi. destruct (Hrow i s Hi) as (x & Hx & -> & Hst). split; cbn; try done.
      * by apply Hidx.
      * unfold EffectOk. cbn. by rewrite Hst.
      * by split; cbn; [..|by split; intros [? ?]|].
    + by intros [? ?].
    + intros _ i s Hi. by destruct (Hrow i s Hi) as (x & Hx & -> & _).
    + intros i s Hi [z E]. destruct (Hrow i s Hi) as (x & Hx & -> & _). done.
    + intros i s q o Hi _ Hq. by destruct (Hrow i s Hi) as (x & Hx & -> & _).
  - assert (Hpaid' : paid (w_trace (after w d')) = []) by exact Hpaid.
    split; [done|rewrite Hpaid'..| | |done].
    + by intros t ?%elem_of_nil.
    + by intros t i s q ?%elem_of_nil.
    + intros i s q Hi Hq. by destruct (Hrow i s Hi) as (x & Hx & -> & _).
    + intros _ id Hid. cbn in Hid. by rewrite Hlive in Hid.
Qed.

(** ** Calls *)

Abbreviation called c a w := (log (ECall c a (w_db w)) (w_db w) w).

(** A call that pays nothing and makes no reservation live. *)
Lemma At_call f rows w c (a : Ans c) :
  paid_by (H:=Entry) (ECall c a (w_db w)) = [] →
  maybe_live (ECall c a (w_db w) :: w_trace w) ⊆ maybe_live (w_trace w) →
  At f rows w → At f rows (called c a w).
Proof.
  intros Hp Hm [HP (Hv & Hf & Hw & Hg)].
  assert (E : paid (ECall c a (w_db w) :: w_trace w) = paid (w_trace w)).
  { change (paid_by (H:=Entry) (ECall c a (w_db w)) ++ paid (w_trace w) = paid (w_trace w)).
    by rewrite Hp. }
  split; [by apply (Paid_later [_])|]. split; [done|]. split; [done|]. split; [done|].
  by apply (Ghost_later _ _ [_]).
Qed.

(** The poll of a reservation, for the aggregate the record authorizes. *)
Lemma At_reserve f rows w id preflight :
  At f rows w →
  (sf_outputs_started f = false → is_Some (sf_payment_authorization f)
     ∧ ∃ q, requirements_of fa_id f rows = Ok (Some q)
            ∧ id = payment_reservation_id (sf_formation_id f) q) →
  At f rows (called (Send (Reserve id preflight)) tt w).
Proof.
  intros [HP (Hv & Hf & Hw & [G1 G2 G3 G4 G5 G6])] Hid.
  set (e := ECall (Send (Reserve id preflight)) tt (w_db w) : Event).
  assert (E : paid (e :: w_trace w) = paid (w_trace w)) by done.
  split; [by apply (Paid_later [e])|]. split; [done|]. split; [done|]. split; [done|].
  change (Ghost fa_id f rows (e :: w_trace w)). split; rewrite ?E.
  - done.
  - intros t Ht. destruct (G2 t Ht); [by left|right; by apply (terminated_later _ [e])].
  - done.
  - intros i s q Hi Hq. by apply (refund_known_later _ [e]), (G4 i s).
  - change (maybe_live (e :: w_trace w)) with ({[ id ]} ∪ maybe_live (w_trace w)).
    intros Hst x [->%elem_of_singleton|Hx]%elem_of_union; [by apply Hid|by apply G5].
  - intros a Ha. destruct (G6 a Ha); [left; by apply (explicit_later _ [e])|by right].
Qed.

(** The poll of a payment, for an armed row. *)
Lemma At_pay f rows w reservation t :
  At f rows w → sf_outputs_started f = true → is_Some (qt_payment t) →
  (∃ i s, rows !! i = Some s ∧ armed s t) →
  (∀ i s q, rows !! i = Some s → ss_signed_quote s = Some q → sq_terms q = t → armed s t) →
  At f rows (called (Send (CreateSeatPayment reservation t)) tt w).
Proof.
  intros [HP (Hv & Hf & Hw & [G1 G2 G3 G4 G5 G6])] Hst Hpay Hkept Hbound.
  set (e := ECall (Send (CreateSeatPayment reservation t)) tt (w_db w) : Event).
  assert (E : paid (e :: w_trace w) = t :: paid (w_trace w)) by done.
  assert (Hlater : ∀ t', refund_known t' (w_trace w) → refund_known t' (e :: w_trace w))
    by (intros t'; apply (refund_known_later _ [e])).
  split.
  - change (Paid (e :: w_trace w)). intros t' Ht'. rewrite E in Ht'.
    apply elem_of_cons in Ht' as [->|Ht'].
    + split; [done|]. destruct Hkept as (i & s & Hi & (q & Hq & <-) & _).
      apply Hlater. by eapply G4.
    + destruct (HP t' Ht'). split; [done|by apply Hlater].
  - split; [done|]. split; [done|]. split; [done|].
    change (Ghost fa_id f rows (e :: w_trace w)). split; rewrite ?E.
    + congruence.
    + intros t' [->|Ht']%elem_of_cons; [by left|].
      destruct (G2 t' Ht'); [by left|right; by apply (terminated_later _ [e])].
    + intros t' i s q [->|Ht']%elem_of_cons Hi Hq Et; [by eapply Hbound|by eapply G3].
    + intros i s q Hi Hq. by apply Hlater, (G4 i s).
    + congruence.
    + intros a Ha. destruct (G6 a Ha); [left; by apply (explicit_later _ [e])|by right].
Qed.

End Steps.
End Steps.
