(* ===== verification/FaCalm.v ===== *)
(** * The parts of the driver that leave the formation alone

    Calls, retries, quotes and presentations of [FaCalls] as still programs:
    what their answers carry, and that every poll of a port is allowed.

    Module [Calm] holds these lemmas; module [Triples] those about programs over
    a stored formation. *)

From S2P Require Import Prelude FaSchema FaQuotes FaStore FaProg FaCalls FaDriver FaFormation FaLogic FaInvariant FaViews FaWf FaReadable FaSteps.
From stdpp Require Import base gmap strings list.
From Stdlib Require Import ZArith Lia.
Open Scope Z_scope.

Module Calm.
Import Fa Quotes Store Run Calls Driver Formation Logic Inv Views WellFormed Readable Steps.

Create HintDb calm.

Section Calm.
Context {CR : Crypto} {PO : Policy}.
Variable fa_id : Z.
Variable lease : DriverLease.
Context (J : FaWorld → Prop).

Abbreviation still := (Logic.still (allowed fa_id) Answers J).

(** ** Programs whose results are not tracked *)

Definition any {A} (r : res FaError A) (w : FaWorld) : Prop := True.
Definition calm {A} (p : M A) : Prop := ∀ w, still any p w.

Lemma calm_done {A} (r : res FaError A) : calm (Done r).
Proof. done. Qed.
Lemma calm_ret {A} (a : A) : calm (mret a : M A).
Proof. done. Qed.
Lemma calm_lift {A} (r : res FaError A) : calm (lift r).
Proof. done. Qed.
Lemma calm_fail {A} e : calm (fail e : M A).
Proof. done. Qed.
Lemma calm_pbind {A B} (p : M A) (g : res FaError A → M B) :
  calm p → (∀ r, calm (g r)) → calm (pbind p g).
Proof. intros Hp Hg w. eapply still_pbind; [apply Hp|]. intros r w' _ _. apply Hg. Qed.
Lemma calm_bind {A B} (p : M A) (g : A → M B) : calm p → (∀ a, calm (g a)) → calm (p ≫= g).
Proof. intros Hp Hg. apply calm_pbind; [done|]. intros []; [apply Hg|apply calm_done..]. Qed.
Lemma calm_attempt {A} (p : M A) : calm p → calm (attempt p).
Proof. intros Hp. apply calm_pbind; [done|]. intros. apply calm_done. Qed.
Lemma calm_map_err {A} g (p : M A) : calm p → calm (map_err g p).
Proof. intros Hp. apply calm_pbind; [done|]. intros. apply calm_done. Qed.
Lemma calm_ask c : neutral c → (∀ w, J w → allowed fa_id c (w_db w)) → calm (ask c).
Proof. intros Hn Hg w w' Hw HJ. split; [done|]. split; [by apply Hg|done]. Qed.
Lemma calm_stmt {A} (t : FaTx A) : tx_rel same_formation t → calm (stmt t).
Proof.
  intros Ht w w' Hw HJ. split; [done|]. destruct (run_tx t (w_db w')) as [d' r] eqn:E. split; [|done].
  pose proof (tx_rel_run same_formation t (w_db w') Ht) as Hr. by rewrite E in Hr.
Qed.

Lemma put_lease_same l e : tx_rel same_formation (put_lease l e).
Proof. apply tx_rel_put. by intros s. Qed.
#[local] Hint Resolve put_lease_same : manifold.
Lemma renew_driver_lease_same l now : tx_rel same_formation (renew_driver_lease l now).
Proof. unfold renew_driver_lease. tx_rel_auto. Qed.
Lemma store_setup_payment_same e : tx_rel same_formation (store_setup_payment_federations_event e).
Proof. unfold store_setup_payment_federations_event. tx_rel_auto. done. Qed.
Lemma acquire_same now m n o : tx_rel same_formation (acquire_driver_lease now m n o).
Proof. unfold acquire_driver_lease. tx_rel_auto. Qed.
Lemma release_same o : tx_rel same_formation (release_driver_lease_owner o).
Proof. unfold release_driver_lease_owner. tx_rel_auto. done. Qed.

#[local] Hint Resolve calm_done calm_ret calm_lift calm_fail calm_attempt calm_map_err
  renew_driver_lease_same store_setup_payment_same acquire_same release_same : calm.
#[local] Hint Extern 1 (calm (ask _)) => apply calm_ask; [exact I|intros; exact I] : calm.
#[local] Hint Extern 1 (calm (stmt _)) => apply calm_stmt; auto with calm manifold typeclass_instances : calm.

Ltac calm_auto :=
  repeat match goal with
  | |- calm (mbind _ _) => apply calm_bind; [|intros ?]
  | |- calm (map_err _ _) => apply calm_map_err
  | |- calm (attempt _) => apply calm_attempt
  | |- calm (match ?x with _ => _ end) => destruct x
  | |- calm (let _ := _ in _) => cbv zeta
  | |- calm _ => solve [auto with calm]
  end.

Lemma calm_ensure_time : calm ensure_time.
Proof. unfold ensure_time. calm_auto. Qed.
Lemma calm_fenced (t : Z → FaTx Z) : (∀ now, tx_rel same_formation (t now)) → calm (fenced t).
Proof. intros Ht. unfold fenced. calm_auto. Qed.
Lemma calm_renew : calm (renew lease).
Proof. apply calm_fenced. auto with calm. Qed.
#[local] Hint Resolve calm_ensure_time calm_renew : calm.
Lemma calm_renew_times n : calm (renew_times lease n).
Proof.
  induction n as [|n IH]; [apply calm_ret|]. apply calm_bind; [auto with calm|done].
Qed.
#[local] Hint Resolve calm_renew_times : calm.
Lemma calm_construct_signed : calm (construct_signed lease).
Proof. unfold construct_signed. calm_auto. Qed.
#[local] Hint Resolve calm_construct_signed : calm.

(** ** Calls *)

Abbreviation tell R := (post R (λ _ _, True)).

Lemma still_then {A B} (R : A → FaWorld → Prop) (R' : B → FaWorld → Prop) (p : M A)
    (g : A → M B) w : still (tell R) p w →
  (∀ a w', later w w' → R a w' → still (tell R') (g a) w') → still (tell R') (p ≫= g) w.
Proof. apply still_bind_M. Qed.

Lemma still_calm_then {A B} (p : M A) (g : A → M B) (R : B → FaWorld → Prop) w : calm p →
  (∀ a w', later w w' → still (tell R) (g a) w') → still (tell R) (p ≫= g) w.
Proof.
  intros Hp Hg. eapply still_then with (R := λ _ _, True).
  - eapply still_mono; [|apply Hp]. by intros [].
  - intros a w' Hw' _. by apply Hg.
Qed.

Lemma still_map_err {A} (R : A → FaWorld → Prop) g (p : M A) w :
  still (tell R) p w → still (tell R) (map_err g p) w.
Proof. intros Hp. eapply still_pbind; [exact Hp|]. by intros []. Qed.

Lemma still_attempt {A} (R : A → FaWorld → Prop) (p : M A) w : still (tell R) p w →
  still (tell (λ x w, match x with inr a => R a w | inl _ => True end)) (attempt p) w.
Proof. intros Hp. eapply still_pbind; [exact Hp|]. by intros []. Qed.

Lemma still_calm {A} (p : M A) (R : A → FaWorld → Prop) :
  (∀ w, still (tell R) p w) → calm p.
Proof. intros H w. eapply still_mono; [|apply H]. done. Qed.

(** A request that may be sent whenever [J] holds. *)
Definition sendable (r : Req) : Prop :=
  neutral (Send r) ∧ neutral (Recv r) ∧ ∀ w, J w → allowed fa_id (Send r) (w_db w).
Abbreviation received r a w := (log (ECall (Recv r) (Some a) (w_db w)) (w_db w) w).

Lemma still_poll r (R : Reply r → FaWorld → Prop) w : sendable r →
  (∀ a w', later w w' → J w' → Answers (Recv r) (Some a) (w_trace w') → R a (received r a w')) →
  still (tell R) (poll_with_lease lease r) w.
Proof.
  intros (Hs & Hr & Hg) HR. unfold poll_with_lease.
  apply still_calm_then; [by apply calm_ask|]. intros _ w1 Hw1.
  apply still_calm_then; [auto with calm|]. intros n w2 Hw2.
  apply still_calm_then; [auto with calm|]. intros _ w3 Hw3.
  eapply still_then with
    (R := λ (o : option (Reply r)) w, match o with Some a => R a w | None => True end).
  { intros w4 Hw4 HJ. split; [done|]. split; [by destruct r|]. intros [a|] Ha; [|done]. cbn.
    apply HR; [|done|done]. by do 3 (etrans; [eassumption|]). }
  intros [a|] w4 _ Ha; done.
Qed.

Lemma still_call r (R : Reply r → FaWorld → Prop) w : sendable r →
  (∀ a w', later w w' → J w' → Answers (Recv r) (Some a) (w_trace w') → R a (received r a w')) →
  still (tell R) (call lease r) w.
Proof.
  intros Hs HR. unfold call.
  do 6 (apply still_calm_then; [auto with calm|intros _ ? ?]).
  apply still_poll; [done|]. intros a w9 Hw9. apply HR. by do 6 (etrans; [eassumption|]).
Qed.

Lemma still_wallet_call {T} r (reply : Reply r → unit + T) (R : T → FaWorld → Prop) w :
  sendable r →
  (∀ a t w', later w w' → J w' → Answers (Recv r) (Some a) (w_trace w') → reply a = inr t →
     R t (received r a w')) →
  still (tell R) (wallet_call lease r reply) w.
Proof.
  intros Hs HR. unfold wallet_call.
  eapply still_then with (R := λ a w', ∀ t, reply a = inr t → R t w').
  - apply still_call; [done|]. intros a w' ?? Ha t Ht. by apply HR.
  - intros a w' _ Ha. destruct (reply a) eqn:E; [done|]. by apply Ha.
Qed.
Lemma still_mg_call {T} l op r (reply : Reply r → MgCause + T) (R : T → FaWorld → Prop) w :
  sendable r →
  (∀ a t w', later w w' → J w' → Answers (Recv r) (Some a) (w_trace w') → reply a = inr t →
     R t (received r a w')) →
  still (tell R) (mg_call lease l op r reply) w.
Proof.
  intros Hs HR. unfold mg_call.
  eapply still_then with (R := λ a w', ∀ t, reply a = inr t → R t w').
  - apply still_map_err, still_call; [done|]. intros a w' ?? Ha t Ht. by apply HR.
  - intros a w' _ Ha. destruct (reply a) eqn:E; [done|]. by apply Ha.
Qed.

Lemma calm_call r : sendable r → calm (call lease r).
Proof. intros Hs. apply (still_calm _ (λ _ _, True)). intros w. by apply still_call. Qed.
Lemma calm_wallet_call {T} r (reply : Reply r → unit + T) : sendable r →
  calm (wallet_call lease r reply).
Proof. intros Hs. apply (still_calm _ (λ _ _, True)). intros w. by apply still_wallet_call. Qed.
Lemma calm_mg_call {T} l op r (reply : Reply r → MgCause + T) : sendable r →
  calm (mg_call lease l op r reply).
Proof. intros Hs. apply (still_calm _ (λ _ _, True)). intros w. by apply still_mg_call. Qed.
#[local] Hint Extern 1 (sendable _) =>
  split; [exact I|split; [exact I|intros; exact I]] : calm.
#[local] Hint Extern 1 (calm (call _ ?r)) => refine (calm_call r _) : calm.
#[local] Hint Extern 1 (calm (wallet_call _ ?r ?f)) => refine (calm_wallet_call r f _) : calm.
#[local] Hint Extern 1 (calm (mg_call _ ?l ?o ?r ?f)) => refine (calm_mg_call l o r f _) : calm.

Lemma still_connect l w : still (tell (λ client _, client = l)) (connect lease l) w.
Proof. unfold connect. apply still_calm_then; [calm_auto|]. by intros [[]|[]] w1 _. Qed.
Lemma calm_connect l : calm (connect lease l).
Proof. eapply still_calm. intros w. apply still_connect. Qed.
#[local] Hint Resolve calm_connect : calm.

(** ** Policy, retries and connections *)

Lemma calm_refresh_policy : calm (refresh_setup_payment_policy lease).
Proof. unfold refresh_setup_payment_policy. calm_auto. Qed.
#[local] Hint Resolve calm_refresh_policy : calm.
Lemma calm_require_payer requested : calm (require_setup_payment_federation lease requested).
Proof. unfold require_setup_payment_federation, payable_setup_payment_federations. calm_auto. Qed.
#[local] Hint Resolve calm_require_payer : calm.

Lemma still_retry {A} (R : A → FaWorld → Prop) b n (p : M A) w :
  (∀ w', still (tell R) p w') → still (tell R) (retry_selected b n p) w.
Proof.
  intros Hp. revert w. induction n as [|n IH]; intros w; cbn [retry_selected];
    (eapply still_then; [apply still_attempt, Hp|]); intros [[]|a] w' _ Ha; try done;
    cbv beta iota; by destruct (negb b || _).
Qed.
Lemma calm_retry {A} b n (p : M A) : calm p → calm (retry_selected b n p).
Proof.
  intros Hp. apply (still_calm _ (λ _ _, True)). intros w. apply still_retry. intros w'.
  eapply still_mono; [|apply Hp]. by intros [].
Qed.
#[local] Hint Resolve calm_retry : calm.
Lemma calm_connect_selected l b : calm (connect_with_selected_retry lease l b).
Proof. unfold connect_with_selected_retry. calm_auto. Qed.
Lemma calm_connect_rounds n l : calm (connect_rounds lease n l).
Proof. induction n; cbn [connect_rounds]; calm_auto. Qed.
#[local] Hint Resolve calm_connect_rounds : calm.
Lemma calm_connect_seat l : calm (connect_seat_with_retry lease l).
Proof. unfold connect_seat_with_retry. calm_auto. Qed.

(** ** Quotes *)

(** A quote a guardian gave: it verifies, its wallet terms were prepared for it,
    and it was not paid before. *)
Definition quoted (l : Locator) (intent : ResolvedFormationIntent) (payer : option string)
    (before : list QuoteTerms) (q : SignedQuote) (tr : Trace) : Prop :=
  (∀ index, verify_quote index q l intent fa_id payer = Ok (sq_terms q))
  ∧ qt_price_msats (sq_terms q) * u16_max <= u64_max
  ∧ refund_known (sq_terms q) tr ∧ sq_terms q ∉ before.

(** What the request of a quote carries. *)
Definition prepared_for (before : list QuoteTerms) (refund : option RefundIssuance)
    (tr : Trace) : Prop :=
  match refund with
  | Some r => r ∈ refunds tr ∧ ∀ t, t ∈ before → qr_refund_issuance (qt_request t) ≠ Some r
  | None => True
  end.

Lemma prepared_fresh federation plan refund before w :
  paid (w_trace w) = before → Paid (w_trace w) →
  Answers (Recv (PrepareQuoteRefund federation plan)) (Some (inr refund)) (w_trace w) →
  prepared_for before (Some refund)
    (w_trace (received (PrepareQuoteRefund federation plan) (inr refund) w)).
Proof.
  intros <- HP Ha. cbn in Ha. split; [by left|].
  intros t Ht E. destruct (HP t Ht) as [Hpay Hr]. destruct (Hr Hpay) as (r & Er & Hin). congruence.
Qed.

Lemma quoted_prepared l intent payer before refund q index w :
  paid (w_trace w) = before → Paid (w_trace w) →
  verify_quote index q l intent fa_id payer = Ok (sq_terms q) →
  qt_price_msats (sq_terms q) * u16_max <= u64_max →
  qr_refund_issuance (qt_request (sq_terms q)) = refund →
  prepared_for before refund (w_trace w) →
  quoted l intent payer before q (w_trace w).
Proof.
  intros <- HP Hv Hprice Hr Hprep. apply verify_quote_Ok in Hv as [_ Hok].
  split; [intros i; by apply verified_quote|]. split; [done|].
  pose proof (ve_coherent _ _ _ _ _ Hok) as Hc. unfold check_coherent in Hc.
  assert (Hsome : is_Some (qt_payment (sq_terms q)) → is_Some refund).
  { intros [p Hp]. rewrite Hp, Hr in Hc. destruct (negb _); [done|]. destruct (negb _); [done|].
    destruct p, refund as [[]|]; done. }
  split.
  - intros Hp. destruct (Hsome Hp) as [r ->]. exists r. by destruct Hprep.
  - intros Ht. destruct (HP _ Ht) as [Hp _]. destruct (Hsome Hp) as [r ->].
    destruct Hprep as [_ Hno]. by destruct (Hno _ Ht).
Qed.

Lemma prepared_later before refund l tr :
  prepared_for before refund tr → prepared_for before refund (l ++ tr).
Proof.
  destruct refund as [r|]; [|done]. intros [Hin Hno]. split; [|done].
  rewrite refunds_app. apply elem_of_app. by right.
Qed.

Section Quoting.
Context (before : list QuoteTerms).
Hypothesis J_paid : ∀ w, J w → paid (w_trace w) = before ∧ Paid (w_trace w).

Lemma still_request_new_quote index l intent b payer cell w :
  still (tell (λ x w, quoted l intent payer before x.1 (w_trace w)))
    (request_new_quote lease index l intent fa_id b payer cell) w.
Proof.
  unfold request_new_quote. apply still_calm_then; [auto with calm|]. intros availability w1 _.
  destruct (match_requested_availability _ _) as [cause|[version plan]]; [done|].
  apply still_calm_then; [calm_auto|]. intros paying w2 _.
  eapply still_then with (R := λ refund w, prepared_for before refund (w_trace w)).
  { destruct paying as [federation|]; [|done].
    eapply still_then with (R := λ refund w, prepared_for before (Some refund) (w_trace w)).
    - apply still_wallet_call; [auto with calm|]. intros a refund w3 _ HJ Ha E.
      cbn in a, E. subst a. destruct (J_paid w3 HJ). by apply prepared_fresh.
    - intros refund w3 _ H3. exact H3. }
  intros refund w3 _ H3. apply still_map_err.
  eapply still_then with (R := λ q w, qt_price_msats (sq_terms q) * u16_max <= u64_max
    ∧ paid (w_trace w) = before ∧ Paid (w_trace w) ∧ prepared_for before refund (w_trace w)).
  { apply still_mg_call; [auto with calm|]. intros a q w4 [tr Hw4] HJ Ha E. cbn in a, E. subst a.
    destruct (J_paid w4 HJ) as [Hb HP]. split; [exact Ha|]. split; [exact Hb|].
    split; [by apply (Paid_later [_])|]. apply (prepared_later _ _ [_]). rewrite Hw4.
    by apply prepared_later. }
  intros q w4 _ (Hprice & Hb & HP & Hprep).
  eapply still_then with (R := λ t w, w = w4 ∧ verify_quote index q l intent fa_id payer = Ok t).
  { apply still_map_err. cbn. by destruct (verify_quote _ _ _ _ _ _). }
  intros t w' _ [-> Ht]. case_bool_decide as Hreq; [|done]. cbn.
  pose proof (verify_quote_Ok _ _ _ _ _ _ _ Ht) as [-> _].
  eapply quoted_prepared; [done|done|exact Ht|done| |exact Hprep]. by rewrite Hreq.
Qed.

Lemma still_request_quote index l intent b payer cell w :
  still (tell (λ x w, quoted l intent payer before x.1 (w_trace w)))
    (request_quote_with_retry lease index l intent fa_id b payer cell) w.
Proof.
  unfold request_quote_with_retry. apply still_calm_then; [auto with calm|]. intros n w1 _.
  apply still_retry. intros w2. eapply still_then; [apply still_connect|].
  intros ? w3 _ ->. apply still_request_new_quote.
Qed.

End Quoting.

(** ** Presentations *)

(** What a presentation of the quote answers: an account, or the proof that the
    payment was refunded. *)
Definition presented (q : SignedQuote) (c : SeatCreation) (tr : Trace) : Prop :=
  match c with
  | CreationAccepted a => fee_account_ok (sa_guardian_fee_account a) = true
  | CreationRefused _ proof => is_Some (qt_payment (sq_terms q)) →
      ∃ p, proof = Some p ∧ terminal_proof fa_id (sq_terms q) p tr
  end.

Lemma presented_later q c l tr : presented q c tr → presented q c (l ++ tr).
Proof.
  destruct c as [a|failure proof]; [done|]. cbn. intros H Hp. destruct (H Hp) as (p & -> & Ht).
  exists p. split; [done|]. by apply terminal_proof_later.
Qed.

(** The terms a presentation is checked against are those of its quote, and a
    free presentation is of a free quote. *)
Definition presentable (p : SeatPresentation) (q : SignedQuote) : Prop :=
  match p with
  | PresentFree signed verified =>
      signed = q ∧ verified = sq_terms q ∧ qt_payment (sq_terms q) = None
  | PresentPaid signed verified _ => signed = q ∧ verified = sq_terms q
  end.

Lemma still_present_seat index l p q w : presentable p q →
  (∀ w' signatures, J w' → allowed fa_id (Send (CreateSeat l fa_id q signatures)) (w_db w')) →
  still (tell (λ c w, presented q c (w_trace w))) (present_seat lease index l fa_id p) w.
Proof.
  intros Hp HJ. unfold present_seat.
  eapply still_then with (R := λ '(signed, quote, signatures, context) _, signed = q
    ∧ quote = sq_terms q ∧ (context = None → qt_payment (sq_terms q) = None)).
  { destruct p as [signed verified|signed verified prepared].
    - by destruct Hp as (-> & -> & ?).
    - destruct Hp as [-> ->]. destruct (qt_payment (sq_terms q)); [|done].
      by case_bool_decide. }
  intros [[[signed quote] signatures] context] w1 _ (-> & -> & Hcontext).
  apply still_calm_then; [auto with calm|]. intros _ w2 _.
  eapply still_then with (R := λ response w, ∃ d,
    ECall (Recv (CreateSeat l fa_id q signatures)) (Some (inr response)) d ∈ w_trace w).
  { apply still_mg_call; [split; [exact I|split; [exact I|intros; by apply HJ]]|].
    intros a response w3 _ _ _ E. cbn in a, E. subst a. eexists. by left. }
  intros response w3 _ [d Hd]. destruct (response_verifies _ _) eqn:Hver; [cbn [negb]|done].
  destruct (Z.eqb_spec (sp_quote_id response) (quote_id (sq_terms q))) as [Hid|]; [cbn [negb]|done].
  destruct (sp_outcome response) as [seat account|refund] eqn:Hout.
  { destruct (fee_account_ok account) eqn:Hfee; done. }
  destruct context as [context|], refund as [refund|]; try done.
  - eapply still_then with (R := λ proof w, later w3 w ∧ ∃ d',
      ECall (Recv (SettleSeatRefund context refund)) (Some (inr proof)) d' ∈ w_trace w).
    { apply still_wallet_call; [auto with calm|]. intros a proof w4 Hw4 _ _ E. cbn in a, E. subst a.
      split; [by etrans; [|apply log_later]|]. eexists. by left. }
    intros proof w4 _ [[tr Hw4] [d' Hd']]. cbn. intros _. exists proof. split; [done|]. right.
    exists l, q, signatures, response, context, refund, d, d'. split_and!; try done.
    rewrite Hw4. apply elem_of_app. by right.
  - cbn. intros [? Hsome]. rewrite Hcontext in Hsome by done. done.
Qed.

(** ** Payments the wallet was asked about *)

Definition recovered_payment (t : QuoteTerms) (v : SeatPaymentRecovery) (tr : Trace) : Prop :=
  match v with
  | NotStarted => True
  | Prepared _ => t ∈ paid tr
  | Rejected p => t ∈ paid tr ∧ terminal_proof fa_id t p tr
  end.

Lemma paid_app (l tr : Trace) : paid (l ++ tr) = paid l ++ paid tr.
Proof. unfold paid. by rewrite fmap_app, join_app. Qed.

Lemma recovered_payment_later t v l tr :
  recovered_payment t v tr → recovered_payment t v (l ++ tr).
Proof.
  assert (∀ x, x ∈ paid tr → x ∈ paid (l ++ tr)).
  { intros x Hx. rewrite paid_app. apply elem_of_app. by right. }
  destruct v; cbn -[paid]; [done|by auto|]. intros [? ?]. split; [by auto|by apply terminal_proof_later].
Qed.

Lemma still_recover_payment id t w :
  still (tell (λ v w, recovered_payment t v (w_trace w)))
    (wallet_call lease (RecoverSeatPayment id t) (λ x, x)) w.
Proof.
  apply still_wallet_call; [auto with calm|]. intros a v w1 _ _ Ha E. cbn in a, E. subst a.
  cbn in Ha. destruct v; [done|exact Ha|].
  split; [exact Ha|]. left. eexists _, _. by left.
Qed.


(** ** DKG and publication *)

Section Dkg.
Context {FE : Federation}.

Lemma calm_dkg_code_rounds n session name recorded :
  calm (dkg_code_rounds lease n session name recorded).
Proof.
  destruct session as [[index l] seat]. induction n as [|n IH]; cbn [dkg_code_rounds]; calm_auto.
Qed.
#[local] Hint Resolve calm_dkg_code_rounds : calm.

Lemma still_dkg_code name row w :
  still (tell (λ x _, x.1.1 = row.1 ∧ (x.2 = false → sr_guardian_code row.2.2 = Some x.1.2)))
    (dkg_code lease name row) w.
Proof.
  destruct row as [position [session s]]. unfold dkg_code.
  apply still_calm_then; [auto with calm|]. intros n w1 _.
  apply still_calm_then; [auto with calm|]. intros code w2 _. cbn [fst snd].
  destruct (sr_guardian_code s) as [recorded|]; [|done]. case_bool_decide as E; [|done].
  cbn. by rewrite E.
Qed.

Lemma calm_start_dkg codes callback row :
  (∀ w l seat, J w → allowed fa_id (Send (StartDkg l seat codes callback)) (w_db w)) →
  calm (start_dkg lease codes callback row).
Proof.
  intros HJ. destruct row as [position [[index l] seat]]. unfold start_dkg.
  apply calm_bind; [auto with calm|intros _]. apply calm_bind.
  - apply calm_attempt, calm_mg_call. split; [exact I|split; [exact I|intros; by apply HJ]].
  - intros ?. calm_auto.
Qed.

Lemma calm_seat_status row : calm (seat_status lease row).
Proof. destruct row as [position [[index l] seat]]. unfold seat_status. calm_auto. Qed.
Lemma calm_seat_invite row : calm (seat_invite lease row).
Proof. destruct row as [position [[index l] seat]]. unfold seat_invite. calm_auto. Qed.
Lemma calm_seat_attestation row : calm (seat_attestation lease row).
Proof. destruct row as [[[index l] seat] s]. unfold seat_attestation. calm_auto. Qed.
Lemma calm_read_consensus n invite : calm (read_consensus lease n invite).
Proof. induction n as [|n IH]; cbn [read_consensus]; calm_auto. Qed.

Lemma calm_propose_target base t session :
  (∀ w l seat, J w → allowed fa_id (Send (ProposeFormationMeta l seat base t)) (w_db w)) →
  calm (propose_target lease base t session).
Proof.
  intros HJ. destruct session as [[index l] seat]. unfold propose_target.
  apply calm_bind; [auto with calm|intros _]. apply calm_mg_call.
  split; [exact I|split; [exact I|intros; by apply HJ]].
Qed.

Lemma calm_restart_check session : calm (restart_check lease session).
Proof. destruct session as [[index l] seat]. unfold restart_check. calm_auto. Qed.
Lemma calm_restart_seat codes session : calm (restart_seat lease codes session).
Proof. destruct session as [[index l] seat]. unfold restart_seat. calm_auto. Qed.

End Dkg.


End Calm.
End Calm.

(** * Driver programs over a stored formation

    Rules for the programs of [FaDriver] and [FaFormation]: what they may do to
    the world while the recovery in memory mirrors the stored formation, and
    what must hold when they fail with an error the driver reacts to. *)

Module Triples.
Import Fa Quotes Store Run Calls Driver Formation Logic Inv Views WellFormed Readable Steps Calm.

(** The errors [drive_formation] does not react to. *)
Definition plain (e : FaError) : Prop :=
  match e with SelectionReauthorizationRequired _ _ => False | _ => True end.

Abbreviation after w d' := (log (EStmt (w_db w) d') d' w).
Abbreviation called c a w := (log (ECall c a (w_db w)) (w_db w) w).

Section Triples.
Context {CR : Crypto} {PO : Policy}.
Variable fa_id : Z.
Variable lease : DriverLease.
Implicit Types (f : StoredFormation) (rows : list StoredSeat) (s : StoredSeat).
Implicit Types (tr : Trace) (w : FaWorld) (r : ActiveFormationRecovery).

Abbreviation wp := (Logic.wp (FaInv fa_id) (allowed fa_id) Answers).
Abbreviation At := (Steps.At fa_id).

(** Before the output boundary no reservation is live that is not recorded. *)
Definition unreserved f w : Prop :=
  sf_outputs_started f = false → sf_payment_reservation_id f = None →
  maybe_live (w_trace w) = ∅.

(** The recovery describes the stored formation. *)
Definition Hold f rows r w : Prop := At f rows w ∧ Mirror r f rows ∧ unreserved f w.

(** A failure: either the driver only reports it, or the recovery still
    describes the stored formation. *)
Definition safe (e : FaError) r w : Prop := plain e ∨ ∃ f rows, Hold f rows r w.

Lemma At_inv f rows w : At f rows w → FaInv fa_id w.
Proof. apply At_FaInv. Qed.
Lemma unreserved_quiet f w w' : quiet w w' → unreserved f w → unreserved f w'.
Proof. intros (_ & _ & _ & E) H ??. rewrite E. by apply H. Qed.
Lemma Hold_quiet f rows r w w' : quiet w w' → Hold f rows r w → Hold f rows r w'.
Proof.
  intros Hq (HA & Hm & Hu). split; [by eapply At_quiet|]. split; [done|by eapply unreserved_quiet].
Qed.
Lemma Hold_safe f rows r w e : Hold f rows r w → safe e r w.
Proof. intros H. right. by exists f, rows. Qed.

(** ** Programs of the state monads *)

Section State.
Context {S : Type}.
Implicit Types (x : S).

Lemma wp_get_bind {B} (k : S → St S B) (Q : S * res FaError B → FaWorld → Prop) x w :
  wp (k x x) Q w → wp ((get ≫= k : St S B) x) Q w.
Proof. done. Qed.
Lemma wp_modify_bind {B} g (k : unit → St S B) (Q : S * res FaError B → FaWorld → Prop) x w :
  wp (k tt (g x)) Q w → wp ((modify g ≫= k : St S B) x) Q w.
Proof. done. Qed.

Lemma wp_do_bind {A B} (p : M A) (k : A → St S B) Q E x w :
  wp p (post (λ a w', wp (k a x) (post_st Q E) w') (λ e w', E e x w')) w →
  wp ((lift_st p ≫= k : St S B) x) (post_st Q E) w.
Proof. intros Hp. apply wp_bind_St, wp_lift_st. exact Hp. Qed.

Lemma wp_try {A} (p : M A) (Q : FaError + A → FaWorld → Prop) E w :
  wp p (post (λ a, Q (inr a)) (λ e, Q (inl e))) w → wp (attempt p) (post Q E) w.
Proof. intros Hp. apply wp_pbind. eapply wp_weaken; [exact Hp|]. by intros [a|e|] w' _ H. Qed.

Lemma wp_lift_bind {A B} (v : res FaError A) (k : A → St S B) Q E x w :
  (∀ a, v = Ok a → wp (k a x) (post_st Q E) w) → (∀ e, v = Err e → E e x w) →
  wp ((lift_st (lift v) ≫= k : St S B) x) (post_st Q E) w.
Proof. intros Ha He. apply wp_do_bind. destruct v; cbn; [by apply Ha|by apply He|done]. Qed.

Lemma wp_lift_end {A} (v : res FaError A) Q E x w :
  (∀ a, v = Ok a → Q a x w) → (∀ e, v = Err e → E e x w) →
  wp (lift_st (lift v) x) (post_st Q E) w.
Proof. intros Ha He. destruct v; cbn; [by apply Ha|by apply He|done]. Qed.

Lemma wp_st_mono {A} (p : Prog (S * res FaError A)) (Q Q' : A → S → FaWorld → Prop)
    (E E' : FaError → S → FaWorld → Prop) w :
  wp p (post_st Q E) w → (∀ a y w', later w w' → Q a y w' → Q' a y w') →
  (∀ e y w', later w w' → E e y w' → E' e y w') → wp p (post_st Q' E') w.
Proof.
  intros Hp HQ HE. eapply wp_weaken; [exact Hp|]. intros [y [a|e|]] w' Hw'; cbn; [|..|done].
  - by apply HQ.
  - by apply HE.
Qed.

Lemma wp_for_each {A} (I : list A → S → FaWorld → Prop) E (body : A → St S unit) l x w :
  I l x w →
  (∀ a rest x w, I (a :: rest) x w → wp (body a x) (post_st (λ _, I rest) E) w) →
  wp (for_each l body x) (post_st (λ _, I []) E) w.
Proof.
  intros HI Hb. revert x w HI. induction l as [|a l IH]; intros x w HI; [exact HI|].
  cbn [for_each]. apply wp_bind_St. eapply wp_st_mono; [by apply Hb| |done].
  intros u y w' _ HI'. by apply IH.
Qed.

Lemma wp_with_local {L A} (p : St (S * L) A) (l : L) Q E x w :
  wp (p (x, l)) (post_st (λ a y w', Q (a, y.2) y.1 w') (λ e y w', E e y.1 w')) w →
  wp (with_local l p x) (post_st Q E) w.
Proof.
  intros Hp. unfold with_local. apply wp_pbind. eapply wp_weaken; [exact Hp|].
  by intros [[y l'] [a|e|]] w' _ H.
Qed.

End State.

(** ** Programs that leave the formation alone *)

Section Quiet.
Context (J : FaWorld → Prop).
Hypothesis J_inv : ∀ w, J w → FaInv fa_id w.
Hypothesis J_quiet : ∀ w w', quiet w w' → J w → J w'.

Lemma wp_tell {A} (p : M A) (R : A → FaWorld → Prop) Q E w :
  Logic.still (allowed fa_id) Answers J (post R (λ _ _, True)) p w → J w →
  (∀ a w', quiet w w' → J w' → R a w' → Q a w') → (∀ e w', quiet w w' → J w' → E e w') →
  wp p (post Q E) w.
Proof.
  intros Hp HJ HQ HE. eapply wp_still; [exact J_inv|exact J_quiet|exact Hp|exact HJ|].
  intros [a|e|] w' Hq HJ' HR; cbn; [by apply HQ|by apply HE|done].
Qed.

Lemma wp_calm {A} (p : M A) Q E w : calm fa_id J p → J w →
  (∀ a w', quiet w w' → J w' → Q a w') → (∀ e w', quiet w w' → J w' → E e w') →
  wp p (post Q E) w.
Proof.
  intros Hp HJ HQ HE. eapply wp_still; [exact J_inv|exact J_quiet|apply Hp|exact HJ|].
  intros [a|e|] w' Hq HJ' _; cbn; [by apply HQ|by apply HE|done].
Qed.

(** A transaction that may fail or get lost. *)
Lemma wp_tx {A} (t : FaTx A) Q E w : J w →
  (∀ e w', quiet w w' → J w' → e = Busy ∨ e = Storage ∨ t (w_db w) = Err e → E e w') →
  (∀ d' a, t (w_db w) = Ok (d', a) → FaInv fa_id (after w d') ∧ Q a (after w d')) →
  wp (stmt t) (post Q E) w.
Proof.
  intros HJ HE HQ.
  assert (Hq : quiet w (after w (w_db w))) by by apply quiet_stmt.
  assert (HJ' : J (after w (w_db w))) by by eapply J_quiet.
  apply wp_statement; [by apply J_inv| | |done].
  - intros e He. apply HE; [done|done|naive_solver].
  - intros e He. by apply HE; [| |right; right].
Qed.

(** A fenced transaction: it may fail before its commit, or report a lease that
    ran out after it. *)
Lemma wp_fenced (t : Z → FaTx Z) (K : FaWorld → Prop) Q E w : J w →
  (∀ w, K w → FaInv fa_id w) → (∀ w w', quiet w w' → K w → K w') →
  (∀ e w', quiet w w' → J w' → E e w') →
  (∀ now w' d' e, quiet w w' → J w' → t now (w_db w') = Ok (d', e) → K (after w' d')) →
  (∀ w', K w' → Q tt w') → (∀ w', K w' → E Busy w') →
  wp (fenced t) (post Q E) w.
Proof.
  intros HJ K_inv K_quiet HE Ht HQ HB. unfold fenced. apply wp_bind_M. split; [exact I|].
  intros now _. set (w1 := called Now now w).
  assert (Hq1 : quiet w w1) by by apply quiet_call. assert (HJ1 : J w1) by by eapply J_quiet.
  split; [by apply J_inv|]. cbn [post]. apply wp_bind_M. apply wp_tx; [done| |].
  { intros e w' Hq HJ' _. apply HE; [by etrans|done]. }
  intros d' e Hok. assert (HK : K (after w1 d')) by by eapply Ht.
  split; [by apply K_inv|]. apply wp_bind_M. split; [exact I|]. intros later_now _.
  set (w2 := called Now later_now _).
  assert (HK2 : K w2) by by eapply K_quiet; [apply quiet_call|].
  split; [by apply K_inv|]. change (wp (if Z.ltb later_now e then (mret tt : M unit) else fail Busy) (post Q E) w2).
  destruct (Z.ltb later_now e); [by apply HQ|by apply HB].
Qed.

End Quiet.

(** ** Sets of futures *)

Section Unordered.
Context {S B T : Type} (J : FaWorld → Prop).
Context (R : T → res FaError B → FaWorld → Prop) (K : list T → S → FaWorld → Prop)
        (E : FaError → S → FaWorld → Prop) (g : T → M B) (handle : res FaError B → St S unit).
Hypothesis J_inv : ∀ w, J w → FaInv fa_id w.
Hypothesis J_quiet : ∀ w w', quiet w w' → J w → J w'.
Hypothesis R_stable : ∀ t, stable (R t).
Hypothesis K_quiet : ∀ l x w w', quiet w w' → K l x w → K l x w'.
Hypothesis K_J : ∀ l x w, K l x w → J w.
Hypothesis handle_ok : ∀ pre t rest b x w, K (pre ++ t :: rest) x w → R t b w →
  wp (handle b x) (post_st (λ _, K (pre ++ rest)) E) w.

Lemma wp_unordered (l : list T) x w :
  (∀ t w', t ∈ l → Logic.still (allowed fa_id) Answers J (R t) (g t) w') → K l x w →
  wp (unordered (g <$> l) handle x) (post_st (λ _, K []) E) w.
Proof.
  intros Hl HK. unfold unordered. split; [exact I|]. intros schedule _.
  set (w1 := called Schedule schedule w).
  assert (Hq : quiet w w1) by by apply quiet_call.
  split; [by eapply J_inv, J_quiet, K_J|].
  pose proof (wp_interleave _ _ _ _ J_inv J_quiet R K E handle R_stable K_quiet K_J handle_ok
    schedule ((λ t, (t, g t)) <$> l) x w1) as H.
  rewrite <- !list_fmap_compose in H. change (fst ∘ (λ t, (t, g t))) with (λ t : T, t) in H.
  change (snd ∘ (λ t, (t, g t))) with g in H. rewrite list_fmap_id in H. apply H.
  - intros t p Hin. apply list_elem_of_fmap in Hin as (t' & [= -> ->] & Hin). by apply Hl.
  - by eapply K_quiet.
Qed.

End Unordered.

Lemma wp_on_recovery {T} (p : D T) Q E r (a : Acquisition) w :
  wp (p r) (post_st (λ v r' w', Q v (r', a) w') (λ e r' w', E e (r', a) w')) w →
  wp (on_recovery p (r, a)) (post_st Q E) w.
Proof.
  intros Hp. apply wp_pbind. eapply wp_weaken; [exact Hp|]. by intros [r' [v|e|]] w' _ H.
Qed.

(** ** Plain errors *)

Definition plainly {A} (p : M A) : Prop :=
  ∀ (J : FaWorld → Prop) w,
    Logic.still (allowed fa_id) Answers J (post (λ _ _, True) (λ e _, plain e)) p w.

Lemma plainly_bind {A B} (p : M A) (k : A → M B) :
  plainly p → (∀ a, plainly (k a)) → plainly (p ≫= k).
Proof. intros Hp Hk J w. eapply still_bind_M; [apply Hp|]. intros a w' _ _. apply Hk. Qed.
Lemma plainly_ask c : neutral c → (∀ d, allowed fa_id c d) → plainly (ask c).
Proof. intros Hn Hg J w w' Hw HJ. split; [done|]. split; [apply Hg|done]. Qed.
Lemma plainly_stmt {A} (t : FaTx A) : tx_rel same_formation t →
  (∀ d e, t d = Err e → plain e) → plainly (stmt t).
Proof.
  intros Ht Hp J w w' Hw HJ. split; [by intros []|].
  destruct (run_tx t (w_db w')) as [d' v] eqn:E.
  pose proof (tx_rel_run same_formation t (w_db w') Ht) as Hr. rewrite E in Hr. split; [done|].
  unfold run_tx in E. destruct (t (w_db w')) as [[]|e|] eqn:Et; simplify_eq; [done| |done].
  cbn. by eapply Hp.
Qed.

Lemma renew_plain l now d e : renew_driver_lease l now d = Err e → plain e.
Proof.
  unfold renew_driver_lease, mbind, tx_bind, tx_get. cbn. destruct (d_lease d); [|by intros [= <-]].
  unfold tx_lift. destruct (checked_add_u _ _ _); cbn; [|by intros [= <-]].
  destruct (checked_add_u _ _ _); cbn; [|by intros [= <-]].
  destruct (_ || _); [by intros [= <-]|]. by destruct (_ || _).
Qed.

Lemma plainly_ensure_time : plainly ensure_time.
Proof.
  apply plainly_bind; [by apply plainly_ask|]. intros []; by intros J w.
Qed.
Lemma plainly_renew : plainly (renew lease).
Proof.
  apply plainly_bind; [by apply plainly_ask|]. intros now. apply plainly_bind.
  - apply plainly_stmt; [apply renew_driver_lease_same|apply renew_plain].
  - intros e. apply plainly_bind; [by apply plainly_ask|]. intros x J w. by destruct (_ <? _).
Qed.
Lemma plainly_renew_times n : plainly (renew_times lease n).
Proof.
  induction n as [|n IH]; [by intros J w|]. apply plainly_bind; [apply plainly_renew|done].
Qed.

(** ** Calls that the wallet's reservations depend on *)

Section Call.
Context (r : Req) (J J1 : FaWorld → Prop) (Q : Reply r → FaWorld → Prop)
        (E : FaError → FaWorld → Prop).
Hypothesis J_inv : ∀ w, J w → FaInv fa_id w.
Hypothesis J_quiet : ∀ w w', quiet w w' → J w → J w'.
Hypothesis J1_inv : ∀ w, J1 w → FaInv fa_id w.
Hypothesis J1_quiet : ∀ w w', quiet w w' → J1 w → J1 w'.
Hypothesis sending : ∀ w, J w → allowed fa_id (Send r) (w_db w) ∧ J1 (called (Send r) tt w).
Hypothesis answering : ∀ a w, J1 w → Answers (Recv r) (Some a) (w_trace w) →
  FaInv fa_id (called (Recv r) (Some a) w) ∧ Q a (called (Recv r) (Some a) w).
Hypothesis J_error : ∀ e w, plain e → J w → E e w.
Hypothesis J1_error : ∀ e w, plain e → J1 w → E e w.

Lemma quiet_lost w : quiet w (called (Recv r) None w).
Proof.
  split; [apply log_later|]. split; [done|]. split; cbn; destruct r; done.
Qed.

Lemma wp_plainly {A B} (K : FaWorld → Prop) (p : M A) (k : A → M B) (P : B → FaWorld → Prop) w :
  (∀ w, K w → FaInv fa_id w) → (∀ w w', quiet w w' → K w → K w') →
  (∀ e w, plain e → K w → E e w) → plainly p → K w →
  (∀ a w', K w' → wp (k a) (post P E) w') → wp (p ≫= k) (post P E) w.
Proof.
  intros K_inv K_quiet K_error Hp HK Hk. apply wp_bind_M.
  eapply wp_still; [exact K_inv|exact K_quiet|apply Hp|exact HK|].
  intros [a|e|] w' Hq HK' He; [by apply Hk|by apply K_error|done].
Qed.

Lemma wp_poll w : J w → wp (poll_with_lease lease r) (post Q E) w.
Proof.
  intros HJ. unfold poll_with_lease. apply wp_bind_M. destruct (sending w HJ) as [Hg HJ1].
  split; [done|]. intros [] _. split; [by apply J1_inv|]. cbn [post].
  apply (wp_plainly J1); [done|done|done|by apply plainly_ask|done|]. intros n w1 Hw1.
  apply (wp_plainly J1); [done|done|done|apply plainly_renew_times|done|]. intros _ w2 Hw2.
  apply wp_bind_M. split; [by destruct r|]. intros [a|] Ha.
  - destruct (answering a w2 Hw2 Ha). by split.
  - assert (HJ3 : J1 (called (Recv r) None w2)) by by eapply J1_quiet; [apply quiet_lost|].
    split; [by apply J1_inv|]. by apply J1_error.
Qed.

Lemma wp_call w : J w → wp (call lease r) (post Q E) w.
Proof.
  intros HJ. unfold call. revert w HJ.
  assert (Hte : ∀ (k : M (Reply r)) w, (∀ w, J w → wp k (post Q E) w) → J w →
    wp (ensure_time;; k) (post Q E) w).
  { intros k w Hk HJ. apply (wp_plainly J); [done|done|done|apply plainly_ensure_time|done|].
    intros _. apply Hk. }
  assert (Hre : ∀ (k : M (Reply r)) w, (∀ w, J w → wp k (post Q E) w) → J w →
    wp (renew lease;; k) (post Q E) w).
  { intros k w Hk HJ. apply (wp_plainly J); [done|done|done|apply plainly_renew|done|].
    intros _. apply Hk. }
  intros w. apply Hte. intros w1. apply Hre. intros w2. apply Hte. intros w3. apply Hte.
  intros w4. apply Hre. intros w5. apply Hte. exact wp_poll.
Qed.

End Call.

End Triples.
End Triples.
