(* ===== verification/FaReserve.v ===== *)
(** * Recovering and reserving the aggregate

    The requirements behind a reservation, and the calls that recover, make and
    record it: before the output boundary the wallet never holds a reservation
    the record does not name once these calls are done. *)

From S2P Require Import Prelude FaSchema FaQuotes FaStore FaProg FaCalls FaDriver FaFormation FaLogic FaInvariant FaViews FaWf FaReadable FaSteps FaCalm.
From stdpp Require Import base gmap strings list.
From Stdlib Require Import ZArith Lia.
Open Scope Z_scope.

Module Reserving.
Import Fa Quotes Store Run Calls Driver Formation Logic Inv Views WellFormed Readable Steps Calm Triples.

Section Reserving.
Context {CR : Crypto} {PO : Policy}.
Variable fa_id : Z.
Variable lease : DriverLease.
Implicit Types (f : StoredFormation) (rows : list StoredSeat) (s : StoredSeat).
Implicit Types (tr : Trace) (w : FaWorld) (r : ActiveFormationRecovery).

Abbreviation wp := (Logic.wp (FaInv fa_id) (allowed fa_id) Answers).
Abbreviation At := (Steps.At fa_id).
Abbreviation Hold := (Triples.Hold fa_id).
Abbreviation safe := (Triples.safe fa_id).

(** ** Requirements of a stored formation *)

Definition requirements_in f rows a : res FaError (option PaymentRequirements) :=
  payment_requirements (sf_formation_id f) (row_recovery <$> rows) (sf_intent f) fa_id a.

Lemma entry_quote a m e : entry a m = Some e → ∃ q, sr_signed_quote m = Some q
  ∧ is_Some (qt_payment (sq_terms q)) ∧ pr_index e = sr_index m
  ∧ pr_quote_id e = quote_id (sq_terms q)
  ∧ pr_amount_msats e = qt_price_msats (sq_terms q)
  ∧ (is_Some (sr_seat_id m) → in_aggregate a m (sq_terms q) = true).
Proof.
  unfold entry. destruct (sr_signed_quote m) as [q|]; [|done]. cbn.
  destruct (qt_payment (sq_terms q)) as [p|] eqn:Hp; [|done]. cbn.
  destruct (bool_decide _ && negb _) eqn:Hb; [done|]. intros [= <-]. exists q.
  split_and!; try done. intros Hs. rewrite bool_decide_true in Hb by done. cbn in Hb.
  by apply negb_false_iff in Hb.
Qed.

Lemma requirements_entry f rows a q e : requirements_in f rows a = Ok (Some q) →
  e ∈ rq_seats q → ∃ i s, rows !! i = Some s ∧ entry a (row_recovery s) = Some e.
Proof.
  intros Hq He. apply payment_requirements_Ok in Hq as (_ & Hseats & _). rewrite Hseats in He.
  apply list_elem_of_omap in He as (m & Hm & He).
  apply list_elem_of_fmap in Hm as (s & -> & [i Hi]%list_elem_of_lookup_1). by exists i, s.
Qed.

Lemma requirements_readable f rows w a e : At f rows w → requirements_in f rows a ≠ Err e.
Proof.
  intros [_ (Hv & _ & Hw & _)] He.
  destruct (Wf_requirements fa_id f rows a Hw (vw_length _ _ _ Hv)) as [o Eo].
  unfold requirements_in in He. congruence.
Qed.

(** The authorized aggregate covers what is asked for. *)
Lemma auth_covers f rows a acc q : Wf fa_id f rows → sf_payment_authorization f = Some a →
  acc = None ∨ acc = Some a → requirements_in f rows acc = Ok (Some q) →
  authorization_covers (Some a) q = true.
Proof.
  intros Hw Ha Hacc Hq. apply forallb_true. intros e He. apply bool_decide_eq_true.
  destruct (requirements_entry _ _ _ _ _ Hq He) as (i & s & Hi & Hent).
  destruct (entry_quote _ _ _ Hent) as (x & Hx & Hp & -> & -> & _ & Hin). cbn in *.
  destruct (ss_seat_id s) as [seat|] eqn:Hseat.
  - specialize (Hin (mk_is_Some _ _ eq_refl)). destruct Hacc as [->| ->]; [done|].
    by apply bool_decide_eq_true in Hin.
  - rewrite (ro_index _ _ _ _ (wf_row _ _ _ Hw _ _ Hi)).
    by apply (ao_covers _ _ _ (wf_auth _ _ _ Hw _ Ha) i s x).
Qed.

(** Before the output boundary nothing paid is accepted. *)
Lemma unstarted_free f rows i s q : Wf fa_id f rows → sf_outputs_started f = false →
  rows !! i = Some s → is_Some (ss_seat_id s) → ss_signed_quote s = Some q →
  qt_payment (sq_terms q) = None.
Proof.
  intros Hw Hst Hi Hseat Hq. pose proof (ro_effect _ _ _ _ (wf_row _ _ _ Hw _ _ Hi)) as He.
  unfold EffectOk in He. destruct (ad_state _) as [|o k].
  - destruct Hseat. congruence.
  - rewrite Hq in He. destruct He as [[_ Hk] Hp]. unfold effect_of in Hk.
    destruct (qt_payment (sq_terms q)); [|done]. subst k. rewrite Hp in Hst by done. done.
Qed.

Lemma unstarted_requirements f rows a : Wf fa_id f rows → sf_outputs_started f = false →
  requirements_in f rows a = requirements_of fa_id f rows.
Proof.
  intros Hw Hst. apply requirements_congr. apply Forall2_fmap.
  apply Forall_Forall2_diag, Forall_forall. intros s Hs. split; [done|].
  destruct (Wf_rows fa_id _ _ _ Hw Hs) as [i Hrow].
  rewrite !(seat_requirement_row fa_id f i) by done. f_equal. unfold entry. cbn.
  apply list_elem_of_lookup_1 in Hs as [j Hj].
  destruct (ss_signed_quote s) as [q|] eqn:Hq; [|done]. cbn.
  destruct (qt_payment (sq_terms q)) eqn:Hp; [|done]. cbn.
  destruct (ss_seat_id s) eqn:Hseat; [|done]. exfalso.
  pose proof (unstarted_free f rows j s q Hw Hst Hj) as Hf. rewrite Hseat, Hp in Hf.
  by specialize (Hf (mk_is_Some _ _ eq_refl) Hq).
Qed.

Lemma Mirror_recovery r f rows : Mirror r f rows →
  recovery_requirements fa_id r
  = requirements_in f rows (match sf_payment_reservation_id f with
                            | Some _ => sf_payment_authorization f
                            | None => None
                            end).
Proof.
  intros Hm. unfold recovery_requirements. rewrite (mi_reservation _ _ _ Hm).
  destruct (sf_payment_reservation_id f).
  - by apply Mirror_reserved.
  - by apply Mirror_current.
Qed.

Lemma Mirror_authorized r f rows acc q : Wf fa_id f rows → Mirror r f rows →
  is_Some (sf_payment_authorization f) → acc = None ∨ acc = sf_payment_authorization f →
  requirements_in f rows acc = Ok (Some q) → payments_authorized r q = true.
Proof.
  intros Hw Hm [a Ha] Hacc Hq. unfold payments_authorized. rewrite (mi_auth _ _ _ Hm), Ha.
  eapply auth_covers; [done|done| |done]. by rewrite Ha in Hacc.
Qed.

(** What may be live before the output boundary. *)
Lemma live_bound f rows w q : At f rows w → sf_outputs_started f = false →
  requirements_of fa_id f rows = Ok (Some q) →
  maybe_live (w_trace w) ⊆ {[ payment_reservation_id (sf_formation_id f) q ]}.
Proof.
  intros [_ (_ & _ & _ & Hg)] Hst Hq id Hid.
  destruct (gh_live _ _ _ _ Hg Hst id Hid) as (_ & q' & Hq' & ->). rewrite Hq in Hq'.
  injection Hq' as ->. by apply elem_of_singleton.
Qed.

Lemma live_none f rows w : At f rows w → sf_outputs_started f = false →
  (∀ q, requirements_of fa_id f rows = Ok (Some q) → sf_payment_authorization f = None) →
  maybe_live (w_trace w) = ∅.
Proof.
  intros [_ (_ & _ & _ & Hg)] Hst Hno. apply set_eq. intros id. split; [|by intros ?%elem_of_empty].
  intros Hid. destruct (gh_live _ _ _ _ Hg Hst id Hid) as ([a Ha] & q & Hq & _).
  rewrite (Hno q Hq) in Ha. done.
Qed.

(** ** Plain errors of the preflight *)

Lemma collect_Err {E A B} (g : A → res E B) l e : collect g l = Err e → ∃ x, x ∈ l ∧ g x = Err e.
Proof.
  induction l as [|x l IH]; cbn; [done|]. destruct (g x) as [b|e'|] eqn:Hx; cbn; [|intros [= ->]|done].
  - destruct (collect g l) as [bs|e'|]; cbn; [done| |done]. intros [= ->].
    destruct (IH eq_refl) as (y & Hy & Hg). exists y. split; [by right|done].
  - exists x. split; [by left|done].
Qed.

Lemma ok_or_Err {E A} (o : option A) (e e' : E) : ok_or e o = Err e' → e' = e.
Proof. destruct o; [done|]. by intros [= ->]. Qed.

Lemma verify_quote_plain i q l intent payer e :
  verify_quote i q l intent fa_id payer = Err e → plain e.
Proof.
  unfold verify_quote. destruct (ok_or _ _) eqn:Ho; cbn; [|intros [= ->]|done].
  - destruct (negb _); [by intros [= <-]|]. destruct (match payer with Some _ => _ | None => _ end);
      [by intros [= <-]|]. destruct (check_coherent _); [done|by intros [= <-]..].
  - apply ok_or_Err in Ho as ->. done.
Qed.

Lemma res_bind_Err {E A B} (x : res E A) (k : A → res E B) e :
  (x ≫= k) = Err e → x = Err e ∨ ∃ a, x = Ok a ∧ k a = Err e.
Proof. destruct x; cbn; [right|left|]; naive_solver. Qed.

Lemma exact_quotes_plain r q e : exact_payment_quotes fa_id r q = Err e → plain e.
Proof.
  intros (x & _ & H)%collect_Err. unfold exact_payment_quote in H.
  apply res_bind_Err in H as [->%ok_or_Err|(s & _ & H)]; [done|].
  apply res_bind_Err in H as [->%ok_or_Err|(sq & _ & H)]; [done|].
  apply res_bind_Err in H as [H|(t & _ & H)]; [by eapply verify_quote_plain|].
  destruct (_ || _); [|done]. by injection H as <-.
Qed.

Lemma exact_preflight_plain q l e : exact_preflight q l = Err e → plain e.
Proof.
  unfold exact_preflight. destruct (negb _); [by intros [= <-]|].
  destruct (negb _); [by intros [= <-]|]. intros ([x t] & _ & H)%collect_Err.
  destruct (_ =? _); [done|]. by injection H as <-.
Qed.

Lemma exact_preflight_NoDup q l p : exact_preflight q l = Ok p →
  NoDup (pr_quote_id <$> rq_seats q).
Proof.
  unfold exact_preflight. destruct (negb _); [done|].
  destruct (bool_decide_reflect (NoDup (pr_quote_id <$> rq_seats q))); done.
Qed.

(** ** The calls *)

(** The formation is stored and these reservations may be live. *)
Definition AtLive f rows (L : gset Z) w : Prop := At f rows w ∧ maybe_live (w_trace w) = L.

Lemma AtLive_inv f rows L w : AtLive f rows L w → FaInv fa_id w.
Proof. intros [H _]. by eapply At_FaInv. Qed.
Lemma AtLive_quiet f rows L w w' : quiet w w' → AtLive f rows L w → AtLive f rows L w'.
Proof.
  intros Hq [H E]. split; [by eapply At_quiet|]. destruct Hq as (_ & _ & _ & ->). done.
Qed.

Lemma called_sub f rows w c (a : Ans c) : At f rows w →
  paid_by (H:=Entry) (ECall c a (w_db w)) = [] →
  reservation_step (H:=Entry) (ECall c a (w_db w)) (maybe_live (w_trace w))
    ⊆ maybe_live (w_trace w) →
  AtLive f rows
    (reservation_step (H:=Entry) (ECall c a (w_db w)) (maybe_live (w_trace w))) (called c a w).
Proof. intros HA Hp Hs. split; [by apply At_call|done]. Qed.

Lemma wp_recover_call f rows L id p (Q : unit + option Z → FaWorld → Prop) E w :
  AtLive f rows L w →
  (∀ e w', AtLive f rows L w' → Q (inl e) w') →
  (∀ h w', AtLive f rows L w' → Q (inr (Some h)) w') →
  (∀ w', AtLive f rows (L ∖ {[ id ]}) w' → Q (inr None) w') →
  (∀ e w', plain e → AtLive f rows L w' → E e w') →
  wp (call lease (RecoverReservation id p)) (post Q E) w.
Proof.
  intros HA Hl Hr Hn HE.
  apply (wp_call fa_id lease (RecoverReservation id p) (AtLive f rows L) (AtLive f rows L)); try done.
  - apply AtLive_inv.
  - intros. by eapply AtLive_quiet.
  - apply AtLive_inv.
  - intros. by eapply AtLive_quiet.
  - intros w1 Hw1. split; [done|]. eapply AtLive_quiet; [by apply quiet_call|done].
  - intros a w1 [Hw1 <-] _.
    assert (HA1 := called_sub f rows w1 (Recv (RecoverReservation id p)) (Some a) Hw1 eq_refl).
    destruct a as [u|[h|]]; cbn -[difference] in HA1.
    + specialize (HA1 (reflexivity _)). split; [by eapply AtLive_inv|by apply Hl].
    + specialize (HA1 (reflexivity _)). split; [by eapply AtLive_inv|by apply Hr].
    + ospecialize (HA1 _); [set_solver|]. split; [by eapply AtLive_inv|by apply Hn].
Qed.


Lemma wp_recover f rows r q L w Q E :
  AtLive f rows L w → Mirror r f rows →
  (let id := payment_reservation_id (sf_formation_id f) q in
   (∀ h w', AtLive f rows L w' → NoDup (pr_quote_id <$> rq_seats q) →
      Q (id, Some {| rv_id := id; rv_handle := h |}) w')
   ∧ ∀ w', AtLive f rows (L ∖ {[ id ]}) w' → NoDup (pr_quote_id <$> rq_seats q) →
       Q (id, None) w') →
  (∀ e w', plain e → AtLive f rows L w' → E e w') →
  wp (recover_payment_reservation fa_id lease r q) (post Q E) w.
Proof.
  intros HA Hm [Hs Hn] HE. unfold recover_payment_reservation. apply wp_bind_M.
  destruct (exact_payment_quotes fa_id r q) as [quotes|e|] eqn:Hquotes; cbn [lift post Logic.wp];
    [|by eapply HE, HA; eapply exact_quotes_plain|done].
  apply wp_bind_M. destruct (exact_preflight q quotes) as [p|e|] eqn:Hp; cbn [lift post Logic.wp];
    [|by eapply HE, HA; eapply exact_preflight_plain|done].
  apply exact_preflight_NoDup in Hp. apply wp_bind_M. unfold wallet_call. apply wp_bind_M.
  rewrite (mi_id _ _ _ Hm). apply (wp_recover_call f rows L); [done| | | |done].
  - intros u w' HA'. by apply HE.
  - intros h w' HA'. by apply Hs.
  - intros w' HA'. by apply Hn.
Qed.

Lemma active_formation_plain fid d e : active_formation fid d = Err e → plain e.
Proof.
  unfold active_formation, mbind, tx_bind, tx_get, tx_lift. cbn.
  destruct (d_formation d) as [f|]; cbn; [|by intros [= <-]].
  destruct (validate_active_formation f fid) as [u|x|] eqn:Hv; cbn; [done| |done].
  intros [= <-]. unfold validate_active_formation in Hv.
  apply res_bind_Err in Hv as [Hv|(u & _ & Hv)].
  - unfold validate_schema in Hv. repeat (destruct (bool_decide _) || destruct (negb _));
      cbn in Hv; simplify_eq; try done. by destruct (sf_dkg_completion_callback f); simplify_eq.
  - by case_bool_decide; simplify_eq.
Qed.

Lemma record_reservation_plain fid id d e :
  record_payment_reservation fid id d = Err e → plain e.
Proof.
  unfold record_payment_reservation, mbind, tx_bind.
  destruct (active_formation fid d) as [[d' f]|x|] eqn:Hf; cbn; [|intros [= <-]; by eapply active_formation_plain|done].
  case_bool_decide; [by intros [= <-]|]. destruct (sf_payment_reservation_id f); [|done].
  destruct (negb _); [by intros [= <-]|]. by destruct (negb _).
Qed.

Lemma Mirror_reservation r f rows v i i' : Mirror r f rows →
  Mirror (rc_set_reservation v i r) (with_reservation v i' f) rows.
Proof. intros []. by split. Qed.

(** Recording the reservation the wallet holds. *)
Lemma wp_record_reservation {B} f rows r id (i : ActiveFormationRecovery → bool) w (k : D B) Q :
  At f rows w → Mirror r f rows →
  (∀ w', Hold (with_reservation (Some id) false f) rows (rc_set_reservation (Some id) (i r) r) w' →
     wp (k (rc_set_reservation (Some id) (i r) r)) (post_st Q safe) w') →
  wp ((do (stmt (record_payment_reservation (rc_formation_id r) id));;
       modify (λ r, rc_set_reservation (Some id) (i r) r);; k) r) (post_st Q safe) w.
Proof.
  intros HA Hm Hk. apply wp_do_bind. rewrite (mi_id _ _ _ Hm).
  apply (wp_tx fa_id (At f rows)); [apply At_inv|intros; by eapply At_quiet|done| |].
  - intros e w' _ _ [->|[->|He]]; left; [done|done|by eapply record_reservation_plain].
  - intros d' u Hok. pose proof (record_payment_reservation_step _ _ _ _ _ _ _ HA Hok) as HA'.
    split; [by eapply At_FaInv|]. apply wp_modify_bind. apply Hk. split; [done|].
    split; [by apply Mirror_reservation|by intros _ ?].
Qed.

(** A program that leaves the formation alone, in a driver step. *)
Lemma wp_hold {A B} (p : M A) (k : A → D B) f rows r Q w : Hold f rows r w →
  calm fa_id (At f rows) p →
  (∀ a w', quiet w w' → Hold f rows r w' → wp (k a r) (post_st Q safe) w') →
  wp ((do p ≫= k : D B) r) (post_st Q safe) w.
Proof.
  intros HH Hp Hk. apply wp_do_bind. apply (wp_calm fa_id (At f rows)).
  - apply At_inv.
  - intros. by eapply At_quiet.
  - done.
  - apply HH.
  - intros a w' Hq _. apply Hk; [done|by eapply Hold_quiet].
  - intros e w' Hq _. eapply Hold_safe. by eapply Hold_quiet.
Qed.

Lemma wp_lift_hold {A B} (v : res FaError A) (k : A → D B) f rows r Q w : Hold f rows r w →
  (∀ a, v = Ok a → wp (k a r) (post_st Q safe) w) →
  wp ((do (lift v) ≫= k : D B) r) (post_st Q safe) w.
Proof. intros HH Hk. apply wp_lift_bind; [done|]. intros e _. by eapply Hold_safe. Qed.

Lemma wp_check_live f rows r w : Hold f rows r w →
  wp (check_live_admissions r) (post_st (λ _ r' w', r' = r ∧ quiet w w') safe) w.
Proof.
  intros HH. unfold check_live_admissions. apply wp_get_bind.
  eapply wp_hold; [done|by apply calm_ask|]. intros provenance w1 Hq1 H1.
  eapply wp_hold; [done|by apply calm_ask|]. intros now w2 Hq2 H2. apply wp_lift_end.
  - intros _ _. split; [done|by etrans].
  - intros e _. by eapply Hold_safe.
Qed.

Lemma wp_reserve_call f rows L id p (Q : ReserveReply → FaWorld → Prop) E w :
  AtLive f rows L w →
  (sf_outputs_started f = false → is_Some (sf_payment_authorization f)
     ∧ ∃ q, requirements_of fa_id f rows = Ok (Some q)
            ∧ id = payment_reservation_id (sf_formation_id f) q) →
  (∀ x w', AtLive f rows ({[ id ]} ∪ L) w' → x ≠ InsufficientFundsWithoutReservation → Q x w') →
  (∀ w', AtLive f rows (({[ id ]} ∪ L) ∖ {[ id ]}) w' →
     Q InsufficientFundsWithoutReservation w') →
  (∀ e w', plain e → At f rows w' → E e w') →
  wp (call lease (Reserve id p)) (post Q E) w.
Proof.
  intros HA Hid HQ Hn HE.
  apply (wp_call fa_id lease (Reserve id p) (AtLive f rows L) (AtLive f rows ({[ id ]} ∪ L))).
  - apply AtLive_inv.
  - intros. by eapply AtLive_quiet.
  - apply AtLive_inv.
  - intros. by eapply AtLive_quiet.
  - intros w1 [Hw1 <-]. split; [done|]. split; [by apply At_reserve|done].
  - intros a w1 [Hw1 HL] _.
    assert (HA1 := called_sub f rows w1 (Recv (Reserve id p)) (Some a) Hw1 eq_refl).
    rewrite HL in HA1. destruct a; cbn -[difference union] in HA1.
    + specialize (HA1 (reflexivity _)). split; [by eapply AtLive_inv|by apply HQ].
    + ospecialize (HA1 _); [set_solver|]. split; [by eapply AtLive_inv|by apply Hn].
    + specialize (HA1 (reflexivity _)). split; [by eapply AtLive_inv|by apply HQ].
  - intros e w1 He [Hw1 _]. by apply HE.
  - intros e w1 He [Hw1 _]. by apply HE.
  - done.
Qed.

(** [reserve_payment_requirements] records the reservation it answers. *)
Lemma wp_reserve f rows r q w : Hold f rows r w →
  recovery_requirements fa_id r = Ok (Some q) → payments_authorized r q = true →
  wp (reserve_payment_requirements fa_id lease q r)
    (post_st (λ rv r' w',
       let id := payment_reservation_id (sf_formation_id f) q in
       rv_id rv = id ∧ NoDup (pr_quote_id <$> rq_seats q)
       ∧ Hold (with_reservation (Some id) false f) rows r' w') safe) w.
Proof.
  intros HH Hq Hauth. unfold reserve_payment_requirements. apply wp_get_bind.
  destruct HH as (HA & Hm & Hu). set (L := maybe_live (w_trace w)). apply wp_do_bind.
  assert (Hrv := mi_reservation _ _ _ Hm).
  apply (wp_recover f rows r q L); [done|done| |by left]. set (id := payment_reservation_id _ q).
  split; cbn zeta; cbv beta iota; [intros h w1 [HA1 HL1] Hnd|intros w1 HA1 Hnd].
  - destruct (match rc_payment_reservation_id r with Some _ => _ | None => _ end); [by left|].
    apply (wp_record_reservation f rows r id rc_release_intended); [done|done|].
    intros w2 H2. by split.
  - destruct (match rc_payment_reservation_id r with Some _ => _ | None => _ end); [by left|].
    case_bool_decide as Hres; [by left|]. rewrite Hrv in Hres.
    assert (Hnone : sf_payment_reservation_id f = None) by by apply eq_None_not_Some.
    assert (Hcur : requirements_of fa_id f rows = Ok (Some q)).
    { rewrite (Mirror_recovery _ _ _ Hm), Hnone in Hq. exact Hq. }
    assert (Ha : is_Some (sf_payment_authorization f)).
    { unfold payments_authorized in Hauth. rewrite (mi_auth _ _ _ Hm) in Hauth.
      by destruct (sf_payment_authorization f). }
    assert (HL : sf_outputs_started f = false → L ∖ {[ id ]} = ∅).
    { intros Hst. pose proof (live_bound _ _ _ _ HA Hst Hcur). set_solver. }
    assert (H1 : Hold f rows r w1).
    { destruct HA1 as [? E]. split; [done|]. split; [done|]. intros ? _. by rewrite E, HL. }
    apply wp_bind_St. eapply wp_st_mono; [by apply (wp_check_live f rows)| |done].
    intros _ r1 w2 _ [-> Hq2]. assert (HA2 := AtLive_quiet _ _ _ _ _ Hq2 HA1).
    assert (H2 := Hold_quiet _ _ _ _ _ _ Hq2 H1).
    eapply wp_lift_hold; [done|]. intros quotes _. eapply wp_lift_hold; [done|]. intros p _.
    rewrite (mi_id _ _ _ Hm). fold id. apply wp_do_bind.
    apply (wp_reserve_call f rows (L ∖ {[ id ]})); [done| | | |by left].
    + intros _. split; [done|]. by exists q.
    + intros x w3 [HA3 _] Hx. destruct x; [|done|by left].
      rewrite <- (mi_id _ _ _ Hm).
      apply (wp_record_reservation f rows r id rc_release_intended); [done|done|].
      intros w4 H4. by split.
    + intros w3 [HA3 E]. right. exists f, rows. split; [done|]. split; [done|].
      intros Hst _. rewrite E. pose proof (HL Hst). set_solver.
Qed.


End Reserving.
End Reserving.
