(* ===== verification/FaPrepare.v ===== *)
(** * Quoting and authorizing the seats

    From a loaded recovery to an authorized aggregate: an interrupted
    reservation is recovered first, unauthorized quotes are dropped, missing
    ones are asked for and stored, and the first aggregate within the cap is
    authorized. *)

From S2P Require Import Prelude FaSchema FaQuotes FaStore FaProg FaCalls FaDriver FaFormation FaLogic FaInvariant FaViews FaWf FaReadable FaSteps FaCalm FaReserve.
From stdpp Require Import base gmap strings list.
From Stdlib Require Import ZArith Lia.
Open Scope Z_scope.

Module Preparing.
Import Fa Quotes Store Run Calls Driver Formation Logic Inv Views WellFormed Readable Steps Calm Triples Reserving.

Section Preparing.
Context {CR : Crypto} {PO : Policy}.
Variable fa_id : Z.
Variable lease : DriverLease.
Implicit Types (f : StoredFormation) (rows : list StoredSeat) (s : StoredSeat).
Implicit Types (tr : Trace) (w : FaWorld) (r : ActiveFormationRecovery).

Abbreviation wp := (Logic.wp (FaInv fa_id) (allowed fa_id) Answers).
Abbreviation At := (Steps.At fa_id).
Abbreviation Hold := (Triples.Hold fa_id).
Abbreviation safe := (Triples.safe fa_id).

(** DKG is not complete. *)
Definition Open f : Prop := stored_dkg_complete (sf_phase f) = false.

(** ** Mirrors *)

Lemma Hold_wf f rows r w : Hold f rows r w → Wf fa_id f rows.
Proof. by intros [[_ (_ & _ & Hw & _)] _]. Qed.
Lemma Hold_mirror f rows r w : Hold f rows r w → Mirror r f rows.
Proof. by intros (_ & Hm & _). Qed.

Lemma mirror_lookup r f rows i m : Mirror r f rows → rc_seats r !! i = Some m →
  ∃ s, rows !! i = Some s ∧ mirror_seat m s.
Proof.
  intros Hm Hi. destruct (Forall2_lookup_l _ _ _ _ _ (mi_seats _ _ _ Hm) Hi) as (s & ? & ?). eauto.
Qed.
Lemma mirror_lookup_r r f rows i s : Mirror r f rows → rows !! i = Some s →
  ∃ m, rc_seats r !! i = Some m ∧ mirror_seat m s.
Proof.
  intros Hm Hi. destruct (Forall2_lookup_r _ _ _ _ _ (mi_seats _ _ _ Hm) Hi) as (m & ? & ?). eauto.
Qed.
Lemma mirror_length r f rows : Mirror r f rows → length (rc_seats r) = length rows.
Proof. intros Hm. by apply (Forall2_length _ _ _ (mi_seats _ _ _ Hm)). Qed.

Lemma rc_seat_Ok r f rows i m : Mirror r f rows → rc_seat r i = Ok m →
  ∃ s, rows !! i = Some s ∧ mirror_seat m s.
Proof.
  intros Hm H. unfold rc_seat, expect in H. destruct (rc_seats r !! i) as [m'|] eqn:Hi; [|done].
  injection H as ->. by eapply mirror_lookup.
Qed.
Lemma rc_seat_Err r i e : rc_seat r i ≠ Err e.
Proof. unfold rc_seat, expect. by destruct (_ !! _). Qed.

Lemma mirror_update l rows i s s' g : Forall2 mirror_seat l rows → rows !! i = Some s →
  (∀ m, mirror_seat m s → mirror_seat (g m) s') →
  Forall2 mirror_seat (alter g i l) (<[i := s']> rows).
Proof.
  intros Hm Hi Hg. apply Forall2_same_length_lookup. split.
  { by rewrite length_alter, length_insert, (Forall2_length _ _ _ Hm). }
  intros j m t Hm' Ht. destruct (decide (i = j)) as [<-|Hne].
  - rewrite list_lookup_alter_eq in Hm'. rewrite list_lookup_insert_eq in Ht by by eapply lookup_lt_Some.
    destruct (l !! i) as [m0|] eqn:Hl; [|done]. injection Hm' as <-. injection Ht as <-.
    apply Hg. by apply (Forall2_lookup_lr _ _ _ _ _ _ Hm Hl).
  - rewrite list_lookup_alter_ne in Hm' by done. rewrite list_lookup_insert_ne in Ht by done.
    by apply (Forall2_lookup_lr _ _ _ _ _ _ Hm Hm').
Qed.

(** A seat of the recovery read through its row. *)
Lemma mirror_row m s : mirror_seat m s →
  sr_index m = ss_index s ∧ sr_locator m = ss_locator s ∧ sr_seat_id m = ss_seat_id s
  ∧ sr_admission m = ss_admission s ∧ sr_signed_quote m = ss_signed_quote s
  ∧ sr_guardian_code m = ss_guardian_code s ∧ sr_replacement_for m = ss_replacement_for s
  ∧ sr_replacement_approved m = ss_replacement_approved s
  ∧ sr_guardian_fee_account m = ss_guardian_fee_account s.
Proof. unfold mirror_seat. intros ->. done. Qed.

Lemma row_index f rows i s : Wf fa_id f rows → rows !! i = Some s → ss_index s = Z.of_nat i.
Proof. intros Hw Hi. apply (ro_index _ _ _ _ (wf_row _ _ _ Hw _ _ Hi)). Qed.

(** A persisted quote is verified by its row's key. *)
Lemma row_quote f rows i s q : Wf fa_id f rows → rows !! i = Some s → ss_signed_quote s = Some q →
  quote_verify (service_pubkey (ss_locator s)) q = Some (sq_terms q).
Proof.
  intros Hw Hi Hq.
  apply (ve_signature _ _ _ _ _ (quote_ok_verified _ _ _ _ (ro_quote _ _ _ _ (wf_row _ _ _ Hw _ _ Hi) _ Hq))).
Qed.
Lemma mirror_quote f rows i s m : Wf fa_id f rows → rows !! i = Some s → mirror_seat m s →
  seat_quote m = sq_terms <$> ss_signed_quote s.
Proof.
  intros Hw Hi Hm. destruct (mirror_row _ _ Hm) as (_ & El & _ & _ & Eq & _).
  unfold seat_quote. rewrite El, Eq. destruct (ss_signed_quote s) as [q|] eqn:Hq; [|done]. cbn.
  by eapply row_quote.
Qed.

(** A quote the row's effect is not bound to. *)
Lemma unauthorized_fresh f rows i s q : Wf fa_id f rows → sf_payment_authorization f = None →
  rows !! i = Some s → ss_seat_id s = None → ss_signed_quote s = Some q →
  is_Some (qt_payment (sq_terms q)) → ad_state (ss_admission s) = Fresh.
Proof.
  intros Hw Ha Hi Hseat Hq Hp. pose proof (ro_effect _ _ _ _ (wf_row _ _ _ Hw _ _ Hi)) as He.
  unfold EffectOk in He. destruct (ad_state (ss_admission s)) as [|o k] eqn:Hst; [done|].
  rewrite Hq in He. destruct He as [[_ Ek] _]. unfold effect_of in Ek.
  destruct (qt_payment (sq_terms q)); [|by destruct Hp]. subst k.
  destruct (wf_paid _ _ _ Hw i s q o Hi Hseat Hq Hst) as (a & E & _). congruence.
Qed.

Definition Opened r w : Prop := ∃ f rows, Hold f rows r w ∧ Open f.
Lemma Opened_safe r w e : Opened r w → safe e r w.
Proof. intros (f & rows & H & _). by eapply Hold_safe. Qed.

Lemma wp_refresh_unauthorized i r w : Opened r w →
  wp (refresh_unauthorized fa_id i r) (post_st (λ _, Opened) safe) w.
Proof.
  intros (f & rows & HH & Hopen). pose proof (Hold_mirror _ _ _ _ HH) as Hm.
  pose proof (Hold_wf _ _ _ _ HH) as Hw. unfold refresh_unauthorized. apply wp_get_bind.
  apply wp_lift_bind; [|by intros e ?%rc_seat_Err]. intros m Hi.
  destruct (rc_seat_Ok _ _ _ _ _ Hm Hi) as (s & Hs & Hms).
  destruct (mirror_row _ _ Hms) as (Ei & El & Es & Ea & Eq & _).
  assert (Hdone : Opened r w) by by exists f, rows.
  unfold seat_quote_authorized. rewrite (mirror_quote _ _ _ _ _ Hw Hs Hms), Es, Eq, Ei, El.
  case_bool_decide as Hseat; [exact Hdone|].
  destruct (ss_signed_quote s) as [q|] eqn:Hq; [|by destruct (_ || _)].
  cbn [orb fmap option_fmap option_map].
  destruct (bool_decide_reflect (qt_payment (sq_terms q) = None)) as [Hfree|Hpaid]; [exact Hdone|].
  destruct (quote_is_authorized _ _ _) eqn:Hauth; [exact Hdone|]. cbn [orb].
  assert (Ha : sf_payment_authorization f = None).
  { destruct (sf_payment_authorization f) as [a|] eqn:Ha; [|done]. exfalso.
    unfold quote_is_authorized in Hauth. rewrite (mi_auth _ _ _ Hm), Ha in Hauth.
    apply bool_decide_eq_false in Hauth. apply Hauth. rewrite (row_index _ _ _ _ Hw Hs).
    apply (ao_covers _ _ _ (wf_auth _ _ _ Hw _ Ha) i s q); try done.
    - by apply eq_None_not_Some.
    - by apply not_eq_None_Some. }
  apply (wp_lift_hold fa_id _ _ f rows); [done|]. intros t _. apply wp_do_bind.
  rewrite (mi_id _ _ _ Hm), (row_index _ _ _ _ Hw Hs).
  apply (wp_tx fa_id (Hold f rows r)); [by intros ? [? _]; eapply At_FaInv|intros; by eapply Hold_quiet|done| |].
  { intros e w' _ H' _. by eapply Hold_safe. }
  intros d' u Hok. destruct HH as (HA & _ & Hu).
  assert (Hfresh : ad_state (ss_admission s) = Fresh).
  { eapply unauthorized_fresh; try done; [by apply eq_None_not_Some|by apply not_eq_None_Some]. }
  pose proof (clear_quote_step _ _ _ _ _ _ _ _ _ HA Ha Hs Hfresh Hok) as HA'.
  split; [by eapply At_FaInv|]. exists (without_aggregate f), (<[i := with_quote None s]> rows).
  split; [|done]. split; [done|]. split; [|intros Hst _; by apply Hu, (Wf_no_reservation _ _ _ Hw)].
  split; cbn; try done; try by apply Hm.
  - rewrite (mi_reservation _ _ _ Hm). by apply (Wf_no_reservation _ _ _ Hw).
  - eapply mirror_update; [by apply Hm|done|]. by intros m0 ->.
Qed.


(** ** Asking for the missing quotes *)

Section Quoting.
Context (intent : ResolvedFormationIntent) (payer : option string) (before : list QuoteTerms).

(** Nothing was paid meanwhile. *)
Definition Unpaid w : Prop := FaInv fa_id w ∧ paid (w_trace w) = before.
Lemma Unpaid_quiet w w' : quiet w w' → Unpaid w → Unpaid w'.
Proof.
  intros Hq [HI Hp]. split; [by eapply FaInv_quiet|]. destruct Hq as (_ & _ & -> & _). done.
Qed.

(** The rows still to be quoted. *)
Definition Quoting (tags : list (nat * SeatRecovery))
    (x : ActiveFormationRecovery * option FaError) w : Prop :=
  NoDup tags.*1 ∧ ∃ f rows, Hold f rows x.1 w ∧ Open f
  ∧ sf_intent f = intent ∧ sf_payment_federation_id f = payer ∧ paid (w_trace w) = before
  ∧ ∀ t, t ∈ tags → ∃ s, rows !! t.1 = Some s ∧ ss_seat_id s = None
      ∧ ss_signed_quote s = None ∧ ss_locator s = sr_locator t.2.

Lemma Quoting_quiet l x w w' : quiet w w' → Quoting l x w → Quoting l x w'.
Proof.
  intros Hq (Hnd & f & rows & HH & Ho & Ei & Ep & Hb & Ht). split; [done|]. exists f, rows.
  split; [by eapply Hold_quiet|]. split_and!; try done. destruct Hq as (_ & _ & -> & _). done.
Qed.

Definition quote_result (t : nat * SeatRecovery) (x : res FaError (nat * SignedQuote)) w : Prop :=
  match x with
  | Ok (position, q) =>
      position = t.1 ∧ quoted fa_id (sr_locator t.2) intent payer before q (w_trace w)
  | _ => True
  end.

Lemma quoted_later l q k tr : quoted fa_id l intent payer before q tr →
  quoted fa_id l intent payer before q (k ++ tr).
Proof. intros (Hv & Hp & Hr & Hb). split_and!; try done. by apply refund_known_later. Qed.

Lemma quote_result_stable t : stable (quote_result t).
Proof.
  intros [[position q]|e|] w w' [k E]; [|done|done]. intros [-> Hq]. split; [done|].
  rewrite E. by apply quoted_later.
Qed.

Lemma middle_NoDup {A} (pre : list (nat * A)) t rest : NoDup (pre ++ t :: rest).*1 →
  NoDup (pre ++ rest).*1 ∧ ∀ u, u ∈ pre ++ rest → u.1 ≠ t.1.
Proof.
  rewrite !fmap_app. cbn. intros Hnd.
  assert (Hp : pre.*1 ++ t.1 :: rest.*1 ≡ₚ t.1 :: (pre.*1 ++ rest.*1)) by by rewrite Permutation_middle.
  rewrite Hp in Hnd. apply NoDup_cons in Hnd as [Hno Hnd]. split; [done|].
  intros u Hu E. apply Hno. rewrite <- E, <- fmap_app. by apply list_elem_of_fmap_2.
Qed.

Definition storing (result : res FaError (nat * SignedQuote))
    : St (ActiveFormationRecovery * option FaError) unit :=
  match result with
  | Ok (position, signed) =>
      '(r, first_error) ← get;
      s ← lift_st (lift (rc_seat r position));
      lift_st (stmt (store_quote (rc_formation_id r) (sr_index s) signed));;
      modify (λ '(r, first_error),
        (rc_set_phase Preparing (rc_action_required r)
           (rc_update_seat position (sr_set_quote (Some signed) QuoteReady)
              (invalidate_payment_authorization r)), first_error))
  | Err e => modify (λ '(r, first_error), (r, Some (default e first_error)))
  | Panic => lift_st (lift Panic)
  end.

Lemma wp_storing pre t rest b x w : Quoting (pre ++ t :: rest) x w → quote_result t b w →
  wp (storing b x) (post_st (λ _, Quoting (pre ++ rest)) (λ e y, safe e y.1)) w.
Proof.
  intros HK HR. destruct x as [r first_error]. pose proof HK as (Hnd & f & rows & HH & Ho & Ei & Ep & Hb & Ht).
  destruct (middle_NoDup _ _ _ Hnd) as [Hnd' Hne].
  destruct b as [[position q]|e|]; cbn [storing]; [|split; [done|]; exists f, rows; split_and!; try done|done].
  2:{ intros u Hu. apply Ht. apply elem_of_app in Hu as [|]; apply elem_of_app; [by left|right; by right]. }
  destruct HR as [-> (Hv & Hprice & Hr & Hnew)]. apply wp_get_bind.
  pose proof (Hold_mirror _ _ _ _ HH) as Hm. pose proof (Hold_wf _ _ _ _ HH) as Hw.
  apply wp_lift_bind; [|by intros e ?%rc_seat_Err]. intros m Hi.
  destruct (rc_seat_Ok _ _ _ _ _ Hm Hi) as (s & Hs & Hms).
  destruct (mirror_row _ _ Hms) as (Eix & El & Es & Ea & Eq & _).
  destruct (Ht t) as (s' & Hs' & Hseat & Hnone & Eloc); [apply elem_of_app; right; by left|].
  assert (s' = s) as -> by (cbn in *; congruence).
  rewrite Eix, (row_index _ _ _ _ Hw Hs). cbn [fst] in *. rewrite (mi_id _ _ _ Hm). apply wp_do_bind.
  apply (wp_tx fa_id (Hold f rows r)); [by intros ? [? _]; eapply At_FaInv|intros; by eapply Hold_quiet|done| |].
  { intros e w' _ H' _. by eapply Hold_safe. }
  intros d' u Hok. destruct HH as (HA & _ & Hu).
  assert (Hqok : quote_ok fa_id f s q).
  { split; [|done]. intros index. rewrite Eloc, Ei, Ep. apply Hv. }
  assert (HA' : At (with_authorization None f) (<[t.1 := with_quote (Some q) s]> rows) (after w d')).
  { eapply store_quote_step; try done. by rewrite Hb. }
  split; [by eapply At_FaInv|]. split; [done|].
  exists (with_authorization None f), (<[t.1 := with_quote (Some q) s]> rows).
  split_and!; try done.
  - split; [done|]. split; [|exact Hu]. split; cbn; try done; try by apply Hm.
    eapply mirror_update; [by apply Hm|done|]. by intros m0 ->.
  - intros v Hin. destruct (Ht v) as (sv & Hsv & ?).
    { apply elem_of_app in Hin as [|]; apply elem_of_app; [by left|right; by right]. }
    exists sv. split; [|done]. rewrite list_lookup_insert_ne; [done|]. by apply not_eq_sym, Hne.
Qed.

Lemma wp_quoting cell l x w : Quoting l x w →
  wp (unordered ((λ '(position, s),
        '(signed, _) ← request_quote_with_retry lease (Z.of_nat position) (sr_locator s)
                         intent fa_id (quote_attempt_policy (sr_admission s)) payer cell;
        mret (position, signed)) <$> l) storing x)
    (post_st (λ _, Quoting []) (λ e y, safe e y.1)) w.
Proof.
  intros HK. eapply (wp_unordered fa_id Unpaid quote_result Quoting).
  - by intros ? [? _].
  - apply Unpaid_quiet.
  - apply quote_result_stable.
  - apply Quoting_quiet.
  - intros k y v (_ & f & rows & [HA _] & _ & _ & _ & Hb & _). split; [by eapply At_FaInv|done].
  - intros. by apply (wp_storing pre t rest b).
  - intros [position s] w' _. eapply still_mono.
    2:{ eapply (still_then fa_id Unpaid) with (R' := λ x w, x.1 = position
          ∧ quoted fa_id (sr_locator s) intent payer before x.2 (w_trace w)).
        - apply (still_request_quote fa_id lease Unpaid before). intros v [[HP _] Hb]. by split.
        - intros [q t] v _ Hq. exact (conj eq_refl Hq). }
    intros [[p q]|e|] v _ H; [|done|done]. exact H.
  - done.
Qed.

End Quoting.

Lemma positions_lookup r i m : (i, m) ∈ positions r ↔ rc_seats r !! i = Some m.
Proof.
  unfold positions. split.
  - intros [j Hj]%list_elem_of_lookup_1. rewrite list_lookup_imap in Hj.
    destruct (rc_seats r !! j) eqn:E; [|done]. cbn in Hj. by injection Hj as <- <-.
  - intros Hi. apply (list_elem_of_lookup_2 _ i). by rewrite list_lookup_imap, Hi.
Qed.
Lemma positions_NoDup r : NoDup (positions r).*1.
Proof.
  unfold positions. apply NoDup_alt. intros i j x Hi Hj.
  rewrite list_lookup_fmap, list_lookup_imap in Hi, Hj.
  destruct (rc_seats r !! i); [|done]. destruct (rc_seats r !! j); [|done]. cbn in *. congruence.
Qed.
Lemma filter_NoDup {A B} (P : A * B → Prop) `{!∀ x, Decision (P x)} l :
  NoDup l.*1 → NoDup (filter P l).*1.
Proof.
  induction l as [|x l IH]; [done|]. rewrite fmap_cons.
  intros [Hx Hnd]%NoDup_cons. rewrite filter_cons. case_decide; [|by apply IH]. rewrite fmap_cons. apply NoDup_cons. split; [|by apply IH].
  intros (y & E & [_ Hy]%list_elem_of_filter)%list_elem_of_fmap. apply Hx. rewrite E.
  by apply list_elem_of_fmap_2.
Qed.

Lemma wp_prepare_quotes r w : Opened r w →
  wp (prepare_quotes fa_id lease r) (post_st (λ _, Opened) safe) w.
Proof.
  intros HO. unfold prepare_quotes. apply wp_get_bind, wp_bind_St.
  eapply wp_st_mono; [|clear HO r|done].
  { apply (wp_for_each fa_id (λ _, Opened)); [done|]. intros i l r' w'. apply wp_refresh_unauthorized. }
  intros _ r w1 _ (f & rows & HH & Ho). apply wp_get_bind. cbv zeta.
  pose proof (Hold_mirror _ _ _ _ HH) as Hm. apply wp_bind_St, wp_with_local.
  rewrite (mi_intent _ _ _ Hm), (mi_payer _ _ _ Hm).
  eapply wp_st_mono; [eapply wp_quoting with (before := paid (w_trace w1))| |].
  - split; [apply filter_NoDup, positions_NoDup|]. exists f, rows. split_and!; try done.
    intros [i m] [[Hseat Hq] Hin%positions_lookup]%list_elem_of_filter.
    destruct (mirror_lookup _ _ _ _ _ Hm Hin) as (s & Hs & Hms). exists s. split; [done|].
    destruct (mirror_row _ _ Hms) as (_ & El & Es & _ & Eq & _). cbn in *. split_and!; congruence.
  - intros _ [r2 e] w2 _ (_ & f2 & rows2 & H2 & Ho2 & _). cbn in *.
    assert (HO2 : Opened r2 w2) by by exists f2, rows2. destruct e; [by apply Opened_safe|done].
  - by intros e [r2 e2] w2 _.
Qed.


(** ** The first aggregate *)

Definition aggregate (q : PaymentRequirements) : list QuoteAuthorization :=
  (λ e, {| qa_index := pr_index e; qa_quote_id := pr_quote_id e |}) <$> rq_seats q.

(** What the aggregate costs is what was asked for. *)
Lemma aggregate_price f rows q id i s : Wf fa_id f rows → requirements_of fa_id f rows = Ok (Some q) →
  rows !! i = Some s →
  member_price {| pa_authorization_id := id; pa_quotes := aggregate q |} i s
  = match entry None (row_recovery s) with Some e => pr_amount_msats e | None => 0 end.
Proof.
  intros Hw Hq Hi. unfold member_price. pose proof (payment_requirements_Ok _ _ _ _ _ _ Hq) as (_ & Hseats & _).
  destruct (ss_signed_quote s) as [x|] eqn:Hx; [|by unfold entry; cbn; rewrite Hx].
  case_bool_decide as Hin; cbn in Hin.
  - apply list_elem_of_fmap in Hin as (e & Ee & He). injection Ee as Eix Eid.
    rewrite Hseats in He. apply list_elem_of_omap in He as (m & Hm & He).
    apply list_elem_of_fmap in Hm as (s' & -> & [j Hj]%list_elem_of_lookup_1).
    destruct (entry_quote _ _ _ He) as (x' & Hx' & _ & Ei & Eid' & Eamt & _).
    cbn in Hx', Ei. rewrite (row_index _ _ _ _ Hw Hj) in Ei.
    assert (j = i) as -> by lia. assert (s' = s) as -> by congruence. rewrite He. congruence.
  - destruct (entry None (row_recovery s)) as [e|] eqn:He; [|done]. exfalso. apply Hin.
    destruct (entry_quote _ _ _ He) as (x' & Hx' & _ & Ei & Eid & _). cbn in Hx', Ei.
    apply list_elem_of_fmap. exists e. split.
    + rewrite Ei, Eid, (row_index _ _ _ _ Hw Hi). congruence.
    + rewrite Hseats. apply list_elem_of_omap. exists (row_recovery s). split; [|done].
      apply list_elem_of_fmap_2. by eapply list_elem_of_lookup_2.
Qed.

Lemma aggregate_total f rows q id : Wf fa_id f rows → requirements_of fa_id f rows = Ok (Some q) →
  auth_total rows {| pa_authorization_id := id; pa_quotes := aggregate q |} = rq_total_msats q.
Proof.
  intros Hw Hq. pose proof (payment_requirements_Ok _ _ _ _ _ _ Hq) as (_ & Hseats & _ & Htot & _).
  rewrite Htot, Hseats. unfold auth_total.
  set (price := λ s, match entry None (row_recovery s) with Some e => pr_amount_msats e | None => 0 end).
  assert (imap (member_price {| pa_authorization_id := id; pa_quotes := aggregate q |}) rows
    = price <$> rows) as ->.
  { apply list_eq. intros i. rewrite list_lookup_imap, list_lookup_fmap.
    destruct (rows !! i) as [s|] eqn:Hi; [|done]. cbn. f_equal. by eapply aggregate_price. }
  clear. induction rows as [|s rows IH]; [done|]. cbn -[entry]. unfold price at 1.
  rewrite IH. unfold total. by destruct (entry None (row_recovery s)).
Qed.

Lemma requirements_complete f rows q : requirements_of fa_id f rows = Ok (Some q) →
  ∀ i s, rows !! i = Some s → is_Some (ss_seat_id s) ∨ is_Some (ss_signed_quote s).
Proof.
  intros Hq i s Hi. pose proof (payment_requirements_Ok _ _ _ _ _ _ Hq) as (Hwant & _).
  assert (Hno : wanting (row_recovery s) = false).
  { rewrite existsb_false in Hwant. apply Hwant. apply list_elem_of_fmap_2. by eapply list_elem_of_lookup_2. }
  unfold wanting in Hno. apply bool_decide_eq_false in Hno. cbn in Hno.
  destruct (ss_seat_id s); [by left; eexists|right]. destruct (ss_signed_quote s); [by eexists|naive_solver].
Qed.

(** Authorizing what was asked for, explicitly or within the cap. *)
Lemma authorize_step f rows q w d' u :
  At f rows w → requirements_of fa_id f rows = Ok (Some q) →
  explicit {| pa_authorization_id := rq_authorization_id q; pa_quotes := aggregate q |} (w_trace w)
  ∨ (∃ cap, in_max_total_msats (sf_intent f) = Some cap ∧ rq_total_msats q <= cap) →
  Store.authorize_payments (sf_formation_id f) (rq_authorization_id q) (aggregate q) (w_db w)
    = Ok (d', u) →
  At (with_payment (Some {| pa_authorization_id := rq_authorization_id q; pa_quotes := aggregate q |})
        true (sf_payment_reservation_id f) (sf_release_intended f) f) rows (after w d').
Proof.
  intros HA Hq Hcap Hok. pose proof HA as [_ (_ & _ & Hw & _)].
  eapply authorize_payments_step; [done|by eapply requirements_complete| |done].
  cbn zeta. rewrite (aggregate_total f) by done. exact Hcap.
Qed.

Lemma wp_authorize_under_cap r w : Opened r w →
  wp (authorize_under_cap fa_id r) (post_st (λ _, Opened) safe) w.
Proof.
  intros HO. pose proof HO as (f & rows & HH & Ho). unfold authorize_under_cap. apply wp_get_bind.
  apply (wp_lift_hold fa_id _ _ f rows); [done|]. intros o Hq.
  pose proof (Hold_mirror _ _ _ _ HH) as Hm. pose proof (Hold_wf _ _ _ _ HH) as Hw.
  rewrite (Mirror_current fa_id _ _ _ Hm) in Hq. destruct o as [q|]; [|exact HO].
  destruct (payments_authorized r q); [exact HO|].
  destruct (_ && _) eqn:Hcap.
  - apply andb_true_iff in Hcap as [_ Hcap]. rewrite (mi_intent _ _ _ Hm) in Hcap.
    apply wp_do_bind. rewrite (mi_id _ _ _ Hm). change ((λ e : SeatPaymentRequirement, _) <$> rq_seats q) with (aggregate q).
    apply (wp_tx fa_id (Hold f rows r)); [by intros ? [? _]; eapply At_FaInv|intros; by eapply Hold_quiet|done| |].
    { intros e w' _ H' _. by eapply Hold_safe. }
    intros d' u Hok. destruct HH as (HA & _ & Hu).
    assert (HA' := authorize_step _ _ _ _ d' u HA Hq).
    ospecialize (HA' _ Hok).
    { right. destruct (in_max_total_msats (sf_intent f)) as [cap|]; [|done]. exists cap.
      split; [done|]. by apply Z.leb_le. }
    split; [by eapply At_FaInv|]. apply wp_modify_bind. eexists _, rows. split; [split; [exact HA'|]|exact Ho].
    split; [|exact Hu]. split; cbn; try done; by apply Hm.
  - destruct (negb (rc_outputs_started r)); [by apply Opened_safe|]. apply wp_modify_bind.
    exists f, rows.
    split; [|done]. destruct HH as (HA & _ & Hu). split; [done|]. split; [|done].
    split; cbn; try done; by apply Hm.
Qed.


(** ** Loading the recovery *)

Lemma wp_load f rows Q E w : At f rows w →
  (∀ r w', quiet w w' → At f rows w' → Loaded fa_id r f rows → Q (RecFormation r) w') →
  (∀ e w', quiet w w' → At f rows w' → plain e → E e w') →
  wp (load fa_id) (post Q E) w.
Proof.
  intros HA HQ HE. pose proof HA as [_ (Hv & _ & Hw & _)]. unfold load. apply wp_bind_M.
  apply (wp_tx fa_id (At f rows)); [apply At_inv|intros; by eapply At_quiet|done| |].
  { intros e w' Hq HA' [->|[->|He]]; [by apply HE..|]. by rewrite (migrate_idle _ _ _ _ Hv Hw) in He. }
  intros d' u Hok. rewrite (migrate_idle _ _ _ _ Hv Hw) in Hok. injection Hok as <- _.
  assert (Hq1 : quiet w (after w (w_db w))) by by apply quiet_stmt.
  assert (HA1 : At f rows (after w (w_db w))) by by eapply At_quiet.
  split; [by eapply At_FaInv|]. destruct (load_recovery_Wf fa_id (w_db w) f rows Hv Hw) as (r & Hr & Hl).
  apply (wp_tx fa_id (At f rows)); [apply At_inv|intros; by eapply At_quiet|done| |].
  { intros e w' Hq HA' [->|[->|He]]; [apply HE; [by etrans|done|done]..|]. cbn in He. congruence. }
  intros d' x Hok. cbn in Hok. rewrite Hr in Hok. injection Hok as <- <-.
  assert (Hq2 : quiet w (after (after w (w_db w)) (w_db w))) by by etrans; [exact Hq1|apply quiet_stmt].
  assert (HA2 := At_quiet _ _ _ _ _ Hq2 HA). split; [by eapply At_FaInv|by apply HQ].
Qed.

Lemma wp_active_recovery f rows Q E w : At f rows w →
  (∀ r w', quiet w w' → At f rows w' → Loaded fa_id r f rows → Q r w') →
  (∀ e w', quiet w w' → At f rows w' → plain e → E e w') →
  wp (active_recovery fa_id) (post Q E) w.
Proof.
  intros HA HQ HE. apply wp_bind_M. apply (wp_load f rows); [done| |done].
  intros r w' Hq HA' Hl. by apply HQ.
Qed.

(** No formation is stored. *)
Definition Gone w : Prop := FaInv fa_id w ∧ d_formation (w_db w) = None.
Lemma Gone_quiet w w' : quiet w w' → Gone w → Gone w'.
Proof.
  intros Hq [HI Hf]. split; [by eapply FaInv_quiet|]. destruct Hq as (_ & (-> & _) & _). done.
Qed.

Lemma wp_load_gone Q E w : Gone w →
  (∀ x w', quiet w w' → Gone w' → (∀ r, x ≠ RecFormation r) →
     (x = RecIdle → d_formed (w_db w') = None) → Q x w') →
  (∀ e w', quiet w w' → Gone w' → plain e → E e w') →
  wp (load fa_id) (post Q E) w.
Proof.
  intros HG HQ HE. pose proof HG as [_ Hf]. unfold load. apply wp_bind_M.
  apply (wp_tx fa_id Gone); [by intros ? [? _]|intros; by eapply Gone_quiet|done| |].
  { intros e w' Hq HG' [->|[->|He]]; [by apply HE..|].
    unfold migrate_schema_11, mbind, tx_bind, tx_get in He. by rewrite Hf in He. }
  intros d' u Hok. unfold migrate_schema_11, mbind, tx_bind, tx_get in Hok. rewrite Hf in Hok.
  injection Hok as <- _. assert (Hq1 : quiet w (after w (w_db w))) by by apply quiet_stmt.
  assert (HG1 := Gone_quiet _ _ Hq1 HG). split; [by apply HG1|].
  assert (Hload : ∀ v, load_recovery fa_id (w_db w) = v →
    match v with
    | Ok (d, x) => d = w_db w ∧ (∀ r, x ≠ RecFormation r) ∧ (x = RecIdle → d_formed (w_db w) = None)
    | Err e => plain e
    | Panic => True
    end).
  { intros v <-. unfold load_recovery, mbind, tx_bind, tx_get. rewrite Hf. cbn.
    destruct (d_formed (w_db w)) as [formed|]; [|done]. unfold tx_lift, formed_recovery.
    by destruct (negb _). }
  apply (wp_tx fa_id Gone); [by intros ? [? _]|intros; by eapply Gone_quiet|done| |].
  { intros e w' Hq HG' [->|[->|He]]; [apply HE; [by etrans|done|done]..|].
    apply HE; [by etrans|done|]. exact (Hload _ He). }
  intros d' x Hok. destruct (Hload _ Hok) as (-> & Hx & Hidle).
  assert (Hq2 : quiet w (after (after w (w_db w)) (w_db w))) by by etrans; [exact Hq1|apply quiet_stmt].
  assert (HG2 := Gone_quiet _ _ Hq2 HG). split; [by apply HG2|by apply HQ].
Qed.

(** ** An interrupted reservation *)

Lemma wp_abandon f rows r w Q E : AtLive fa_id f rows ∅ w → rc_formation_id r = sf_formation_id f →
  (∀ w', Gone w' → Q tt r w') →
  (∀ e w', AtLive fa_id f rows ∅ w' → E e r w') → (∀ w', E Busy r w') →
  wp (abandon lease r) (post_st Q E) w.
Proof.
  intros HA Hid HQ HE HB. unfold abandon. apply wp_get_bind, wp_lift_st. rewrite Hid.
  apply (wp_fenced fa_id (AtLive fa_id f rows ∅) ltac:(apply AtLive_inv) ltac:(intros; by eapply AtLive_quiet)
    _ Gone); [done|by intros ? [? _]|apply Gone_quiet| | |done|done].
  - intros e w' _. apply HE.
  - intros now w' d' e _ [HA' HL] Hok. destruct (abandon_step _ _ _ _ _ _ _ _ HA' HL Hok). by split.
Qed.

Lemma wp_restore f rows r released w Q E : At f rows w → rc_formation_id r = sf_formation_id f →
  (∀ rows' w', At (without_aggregate f) rows' w' → Q tt r w') →
  (∀ e w', quiet w w' → At f rows w' → E e r w') → (∀ w', E Busy r w') →
  wp (restore_replacements lease released r) (post_st Q E) w.
Proof.
  intros HA Hid HQ HE HB. unfold restore_replacements. apply wp_get_bind, wp_lift_st. rewrite Hid.
  apply (wp_fenced fa_id (At f rows) ltac:(apply At_inv) ltac:(intros; by eapply At_quiet)
    _ (λ w, ∃ rows', At (without_aggregate f) rows' w)); [done| | | | | |done].
  - intros ? [? ?]. by eapply At_FaInv.
  - intros ?? Hq [rows' ?]. exists rows'. by eapply At_quiet.
  - done.
  - intros now w' d' e _ HA' Hok. by eapply restore_step.
  - intros w' [rows' ?]. by eapply HQ.
Qed.


Lemma wp_recover_reservation f rows r w : At f rows w → Mirror r f rows → Open f →
  wp (recover_reservation fa_id lease r)
    (post_st (λ (b : bool) r' w', if b then Gone w' else Opened r' w') safe) w.
Proof.
  intros HA Hm Ho. pose proof HA as [_ (_ & _ & Hw & _)].
  assert (Hopen : ∀ f' rows' r' w', Hold f' rows' r' w' → Open f' → Opened r' w')
    by (intros f' rows' r' w'; by exists f', rows').
  unfold recover_reservation. apply wp_get_bind.
  apply wp_lift_bind; cycle 1.
  { intros e He. rewrite (Mirror_recovery fa_id _ _ _ Hm) in He.
    by apply (requirements_readable fa_id _ _ _ _ _ HA) in He. }
  intros o Hq. rewrite (Mirror_recovery fa_id _ _ _ Hm) in Hq.
  assert (Hlive : sf_outputs_started f = false → requirements_of fa_id f rows = Ok o).
  { intros Hst. rewrite <- Hq. symmetry. by apply unstarted_requirements. }
  destruct o as [q|]; cycle 1.
  { eapply Hopen; [|done]. split; [done|]. split; [done|]. intros Hst _. eapply live_none; [done|done|].
    intros q Hq'. rewrite Hlive in Hq' by done. done. }
  destruct (payments_authorized r q) eqn:Hauth; cbn [negb]; cycle 1.
  { eapply Hopen; [|done]. split; [done|]. split; [done|]. intros Hst _. eapply live_none; [done|done|].
    intros q' _. destruct (sf_payment_authorization f) eqn:Ha; [exfalso|done].
    rewrite (Mirror_authorized fa_id r f rows None q) in Hauth; [done|done|done| |by left|by apply Hlive].
    by rewrite Ha. }
  apply wp_do_bind. apply (wp_recover fa_id lease f rows r q (maybe_live (w_trace w))); [done|done| |by left].
  set (id := payment_reservation_id _ q). assert (Hrv := mi_reservation _ _ _ Hm).
  split; cbv zeta beta iota; [intros h w1 [HA1 HL1] _|intros w1 HA1 _];
    (destruct (match rc_payment_reservation_id r with Some _ => _ | None => _ end) eqn:Hmatch; [by left|]).
  - apply (wp_record_reservation fa_id f rows r id (λ _, false)); [done|done|].
    intros w2 H2. by eapply Hopen.
  - assert (HL : sf_outputs_started f = false → maybe_live (w_trace w) ∖ {[ id ]} = ∅).
    { intros Hst. pose proof (live_bound fa_id _ _ _ _ HA Hst (Hlive Hst)). set_solver. }
    rewrite Hrv. destruct (sf_payment_reservation_id f) as [stored|] eqn:Hstored.
    + destruct (negb _); [by left|]. rewrite (mi_started _ _ _ Hm).
      destruct (sf_outputs_started f) eqn:Hst.
      * apply wp_bind_St. destruct HA1 as [HA1 _]. apply (wp_restore f rows); [done|by apply Hm| | |by left].
        2:{ intros e w2 _ HA2. right. exists f, rows. split; [done|]. split; [done|].
            intros E. congruence. }
        intros rows' w2 HA2. apply wp_do_bind. apply (wp_active_recovery (without_aggregate f) rows'); [done| |].
        -- intros fresh w3 _ HA3 Hl. apply wp_modify_bind. eapply (Hopen (without_aggregate f) rows'); [|done].
           split; [done|]. split; [by apply Hl|]. intros E. cbn in E. congruence.
        -- intros e w3 _ _ He. by left.
      * apply wp_bind_St. rewrite HL in HA1 by done. apply (wp_abandon f rows); [done|by apply Hm| | |by left].
        -- done.
        -- intros e w2 [HA2 E]. right. exists f, rows. split; [done|]. split; [done|]. by intros _ _.
    + eapply Hopen; [|done]. destruct HA1 as [HA1 E]. split; [done|]. split; [done|].
      intros Hst _. by rewrite E, HL.
Qed.


End Preparing.
End Preparing.
