(* ===== verification/FaAcquire.v ===== *)
(** * Recovering, replaying and settling seats

    The first half of [acquire_seats]: what the wallet knows about the
    authorized payments, their replay to the guardians, and how the outcome of
    a presentation is kept.  Acceptances are checkpointed as they arrive; a
    terminal outcome is noted with the proof that releases its member. *)

From S2P Require Import Prelude FaSchema FaQuotes FaStore FaProg FaCalls FaDriver FaFormation FaLogic FaInvariant FaViews FaWf FaReadable FaSteps FaCalm FaReserve FaPrepare.
From stdpp Require Import base gmap strings list.
From Stdlib Require Import ZArith Lia.
Open Scope Z_scope.

Module Acquiring.
Import Fa Quotes Store Run Calls Driver Formation Logic Inv Views WellFormed Readable Steps Calm Triples Reserving Preparing.

Section Acquiring.
Context {CR : Crypto} {PO : Policy}.
Variable fa_id : Z.
Variable lease : DriverLease.
Implicit Types (f : StoredFormation) (rows : list StoredSeat) (s : StoredSeat).
Implicit Types (tr : Trace) (w : FaWorld) (r : ActiveFormationRecovery) (a : Acquisition).

Abbreviation wp := (Logic.wp (FaInv fa_id) (allowed fa_id) Answers).
Abbreviation At := (Steps.At fa_id).
Abbreviation Hold := (Triples.Hold fa_id).
Abbreviation safe := (Triples.safe fa_id).

(** ** Progress of the rows *)

(** Rows are only accepted. *)
Definition accepting (i : nat) s s' : Prop :=
  s' = s ∨ ∃ seat account, s' = with_acceptance seat account s.
Definition Progress f0 rows0 f rows : Prop :=
  (∃ p, f = with_phase p f0 ∧ stored_dkg_complete p = false) ∧ rows_step accepting rows0 rows.

Lemma Progress_refl f rows : Open f → Progress f rows f rows.
Proof.
  intros Ho. split.
  - exists (sf_phase f). split; [by destruct f|done].
  - split; [done|]. intros i s s' ??. simplify_eq. by left.
Qed.

Lemma Progress_open f0 rows0 f rows : Progress f0 rows0 f rows → Open f.
Proof. by intros [(p & -> & ?) _]. Qed.

Lemma Progress_lookup f0 rows0 f rows i s : Progress f0 rows0 f rows → rows0 !! i = Some s →
  ∃ s', rows !! i = Some s' ∧ accepting i s s'.
Proof. intros [_ Hs] Hi. by apply (rows_step_back _ _ _ _ _ Hs). Qed.

Lemma accepting_keeps i s s' : accepting i s s' →
  ss_locator s' = ss_locator s ∧ ss_signed_quote s' = ss_signed_quote s
  ∧ ss_admission s' = ss_admission s ∧ ss_replacement_for s' = ss_replacement_for s
  ∧ (is_Some (ss_seat_id s) → is_Some (ss_seat_id s')).
Proof. by intros [->|(seat & account & ->)]. Qed.

Lemma Progress_accept f0 rows0 f rows i s seat account p : Progress f0 rows0 f rows →
  rows !! i = Some s → stored_dkg_complete p = false →
  Progress f0 rows0 (with_phase p f) (<[i := with_acceptance seat account s]> rows).
Proof.
  intros [(p0 & -> & _) [Hl Hs]] Hi Hp. split; [by exists p|]. split; [by rewrite length_insert|].
  intros j t t' Ht Ht'. destruct (decide (i = j)) as [<-|].
  - rewrite list_lookup_insert_eq in Ht' by by eapply lookup_lt_Some. injection Ht' as <-.
    destruct (Hs _ _ _ Ht Hi) as [->|(x & y & ->)]; right; by eexists _, _.
  - rewrite list_lookup_insert_ne in Ht' by done. by eapply Hs.
Qed.

(** A row of the formation may be presented while rows are accepted. *)
Lemma presentable_row f0 rows0 f rows w i s q signatures : Progress f0 rows0 f rows → At f rows w →
  rows0 !! i = Some s → ss_signed_quote s = Some q →
  ad_state (ss_admission s) = EffectAuthorized (quote_id (sq_terms q)) (effect_of (sq_terms q)) →
  allowed fa_id (Send (CreateSeat (ss_locator s) fa_id q signatures)) (w_db w).
Proof.
  intros HP [_ (Hv & _)] Hi Hq Hst. destruct (Progress_lookup _ _ _ _ _ _ HP Hi) as (s' & Hi' & Ha).
  destruct (accepting_keeps _ _ _ Ha) as (El & Eq & Ead & _). exists f, rows, i, s'.
  split_and!; [done|done|done|done|congruence|congruence].
Qed.

(** ** What the loops note *)

(** The payments the wallet told about. *)
Record Recovered f rows a tr : Prop := {
  rv_length : length (aq_recovered a) = length rows;
  rv_entry : ∀ i v, aq_recovered a !! i = Some (Some v) → ∃ s q,
    rows !! i = Some s ∧ ss_seat_id s = None ∧ ss_signed_quote s = Some q
    ∧ is_Some (qt_payment (sq_terms q))
    ∧ (∃ au, sf_payment_authorization f = Some au ∧ member au i q)
    ∧ match v with NotStarted => True | Prepared _ => sq_terms q ∈ paid tr | Rejected _ => False end
}.

(** The terminal outcomes. *)
Record Noted f rows a tr : Prop := {
  no_terminal : ∀ i proof, (i, proof) ∈ aq_terminal a → ∃ s q,
    rows !! i = Some s ∧ ss_signed_quote s = Some q
    ∧ (is_Some (qt_payment (sq_terms q)) →
       ∃ p, proof = Some p ∧ terminal_proof fa_id (sq_terms q) p tr);
  no_bound : ∀ i proof s, (i, proof) ∈ aq_terminal a → rows !! i = Some s →
    ad_state (ss_admission s) ≠ Fresh;
  no_outcome : aq_terminal a ≠ [] → is_Some (aq_outcome a);
  no_unstarted : sf_outputs_started f = false → (aq_terminal a = [] ∧ aq_outcome a = None)
    ∨ ∃ failure, aq_outcome a = Some (OutcomeSeatRefused failure)
}.

Lemma Recovered_later f rows a w w' : later w w' →
  Recovered f rows a (w_trace w) → Recovered f rows a (w_trace w').
Proof.
  intros [l E] [F1 F2]. rewrite E. split; try done.
  intros i v Hv. destruct (F2 i v Hv) as (s & q & ? & ? & ? & ? & ? & Hp). exists s, q.
  split_and!; try done. destruct v; [done| |done]. rewrite paid_app. apply elem_of_app. by right.
Qed.
Lemma Noted_later f rows a w w' : later w w' →
  Noted f rows a (w_trace w) → Noted f rows a (w_trace w').
Proof.
  intros [l E] [F3 F4 F5 F6]. rewrite E. split; try done.
  intros i proof Hin. destruct (F3 i proof Hin) as (s & q & ? & ? & Ht). exists s, q.
  split_and!; try done. intros Hp. destruct (Ht Hp) as (p & -> & ?). exists p. split; [done|].
  by apply terminal_proof_later.
Qed.

Lemma Noted_fail f rows a tr e : Noted f rows a tr → Noted f rows (aq_fail e a) tr.
Proof. by intros []. Qed.

Lemma Noted_terminate f rows a tr i s q proof o : Noted f rows a tr → rows !! i = Some s →
  ss_signed_quote s = Some q →
  (is_Some (qt_payment (sq_terms q)) →
     ∃ p, proof = Some p ∧ terminal_proof fa_id (sq_terms q) p tr) →
  ad_state (ss_admission s) ≠ Fresh →
  (sf_outputs_started f = false → ∃ failure, o = OutcomeSeatRefused failure) →
  Noted f rows (aq_terminate i proof o a) tr.
Proof.
  intros [F3 F4 F5 F6] Hi Hq Hp Hb Ho. split; cbn; try done.
  - intros j x [Hin|[= -> ->]%list_elem_of_singleton]%elem_of_app; [by apply F3|]. by exists s, q.
  - intros j x t [Hin|[= -> ->]%list_elem_of_singleton]%elem_of_app Ht; [by eapply F4|]. congruence.
  - intros Hst. right. destruct (F6 Hst) as [[_ ->]|[failure ->]]; cbn; [|by eexists].
    destruct (Ho Hst) as [failure ->]. by eexists.
Qed.

(** ** Asking the wallet about the authorized payments *)

(** An authorized paid row. *)
Definition Payable f rows (i : nat) (t : QuoteTerms) : Prop :=
  ∃ s q au, rows !! i = Some s ∧ ss_seat_id s = None ∧ ss_signed_quote s = Some q
    ∧ sq_terms q = t ∧ is_Some (qt_payment t) ∧ sf_payment_authorization f = Some au
    ∧ member au i q.

Lemma mirror_authorized r f rows i s m : Wf fa_id f rows → Mirror r f rows → rows !! i = Some s →
  mirror_seat m s →
  seat_quote_authorized r m = true ↔
  ∃ q au, ss_signed_quote s = Some q ∧ sf_payment_authorization f = Some au ∧ member au i q.
Proof.
  intros Hw Hm Hi Hms. unfold seat_quote_authorized. rewrite (mirror_quote _ _ _ _ _ _ Hw Hi Hms).
  destruct (mirror_row _ _ Hms) as (Eix & _). rewrite Eix, (row_index _ _ _ _ _ Hw Hi).
  unfold quote_is_authorized. rewrite (mi_auth _ _ _ Hm).
  destruct (ss_signed_quote s) as [q|]; cbn; [|split; [done|by intros (?&?&?&_)]].
  destruct (sf_payment_authorization f) as [au|]; [|split; [done|by intros (?&?&_&?&_)]].
  rewrite bool_decide_eq_true. unfold member. naive_solver.
Qed.

Lemma recovering_row_Ok r f rows o i m j id t : Wf fa_id f rows → Mirror r f rows →
  rc_seats r !! i = Some m → recovering_row fa_id r o (i, m) = Ok (Some (j, id, t)) →
  j = i ∧ o = Some id ∧ Payable f rows i t.
Proof.
  intros Hw Hm Him H. destruct (mirror_lookup _ _ _ _ _ Hm Him) as (s & Hi & Hms).
  pose proof (mirror_authorized _ _ _ _ _ _ Hw Hm Hi Hms) as Hauth.
  destruct (mirror_row _ _ Hms) as (_ & El & Es & _ & Eq & _).
  unfold recovering_row in H. rewrite Es, Eq, El in H. case_bool_decide as Hseat; [done|].
  destruct (seat_quote_authorized r m) eqn:Hauth'; cbn in H; [|done].
  destruct (proj1 Hauth eq_refl) as (q & au & Hq & Ha & Hin). rewrite Hq in H.
  apply res_bind_Ok in H as (t' & Ht & H). apply verify_quote_Ok in Ht as [-> _].
  case_bool_decide as Hfree; [done|]. apply res_bind_Ok in H as (id' & Hid & H).
  injection H as <- <- <-. split; [done|]. destruct o as [id|]; [|done]. injection Hid as ->.
  split; [done|]. exists s, q, au.
  split_and!; try done; [by apply eq_None_not_Some|by apply not_eq_None_Some].
Qed.

Lemma somes_elem {A} (l : list (option A)) x : x ∈ somes l ↔ Some x ∈ l.
Proof.
  unfold somes. rewrite list_elem_of_omap. split; [|intros H; by exists (Some x)].
  intros (y & Hy & E). unfold id in E. by subst.
Qed.

Lemma recovering_Ok r f rows o l : Wf fa_id f rows → Mirror r f rows →
  recovering fa_id r o = Ok l →
  ∀ x, x ∈ l → o = Some x.1.2 ∧ Payable f rows x.1.1 x.2.
Proof.
  intros Hw Hm H. unfold recovering in H. apply res_bind_Ok in H as (xs & Hxs & H). injection H as <-.
  apply collect_Ok in Hxs. intros x Hx%somes_elem.
  destruct (Forall2_elem_r _ _ _ _ Hxs Hx) as ([i m] & Him%positions_lookup & Hrow).
  destruct x as [[j id] t]. apply (recovering_row_Ok _ _ _ _ _ _ _ _ _ Hw Hm Him) in Hrow.
  by destruct Hrow as (-> & ? & ?).
Qed.

Section Recovery.
Context (f : StoredFormation) (rows : list StoredSeat) (r : ActiveFormationRecovery).

Abbreviation Tag := (nat * Z * QuoteTerms)%type.
Definition Recovering (tags : list Tag) (x : ActiveFormationRecovery * Acquisition) w : Prop :=
  x.1 = r ∧ Hold f rows r w ∧ Recovered f rows x.2 (w_trace w) ∧ Noted f rows x.2 (w_trace w)
  ∧ ∀ t, t ∈ tags → Payable f rows t.1.1 t.2.

Lemma Recovering_quiet l x w w' : quiet w w' → Recovering l x w → Recovering l x w'.
Proof.
  intros Hq (Hr & HH & HF & HN & Ht). split; [done|]. split; [by eapply Hold_quiet|].
  apply quiet_later in Hq. split; [by eapply Recovered_later|]. split; [by eapply Noted_later|done].
Qed.

Definition recovery_result (t : Tag) (x : res FaError (nat * SeatPaymentRecovery)) w : Prop :=
  match x with
  | Ok (i, v) => i = t.1.1 ∧ recovered_payment fa_id t.2 v (w_trace w)
  | _ => True
  end.
Lemma recovery_result_stable t : stable (recovery_result t).
Proof.
  intros [[i v]|e|] w w' [l E]; [|done|done]. intros [-> H]. split; [done|]. rewrite E.
  by apply recovered_payment_later.
Qed.

(** A payment that was started is bound to its row. *)
Lemma paid_bound i t w : Hold f rows r w → Payable f rows i t → t ∈ paid (w_trace w) →
  sf_outputs_started f = true
  ∧ ∃ s q, rows !! i = Some s ∧ ss_signed_quote s = Some q ∧ sq_terms q = t ∧ armed s t.
Proof.
  intros ([_ (_ & _ & _ & Hg)] & _) (s & q & au & Hi & _ & Hq & Et & _) Ht. split.
  - destruct (sf_outputs_started f) eqn:Hst; [done|]. rewrite (gh_unstarted _ _ _ _ Hg Hst) in Ht.
    by apply elem_of_nil in Ht.
  - exists s, q. split_and!; try done. by apply (gh_bound _ _ _ _ Hg t i s q).
Qed.

Lemma Recovered_recover a w i t v : Recovered f rows a (w_trace w) → Payable f rows i t →
  recovered_payment fa_id t v (w_trace w) → (∀ p, v ≠ Rejected p) →
  Recovered f rows (aq_recover i v a) (w_trace w).
Proof.
  intros [F1 F2] (s & q & au & Hi & Hseat & Hq & Et & Hp & Ha & Hm) Hv Hno. split; cbn; try done.
  - by rewrite length_insert.
  - intros j x Hj. destruct (decide (i = j)) as [<-|Hne].
    + rewrite list_lookup_insert_eq in Hj by (rewrite F1; by eapply lookup_lt_Some).
      injection Hj as <-. exists s, q. split_and!; try done; [by rewrite Et|by exists au|].
      rewrite Et. destruct v; [done|done|by destruct (Hno proof)].
    + rewrite list_lookup_insert_ne in Hj by done. by apply F2.
Qed.

Definition recovering_handle (result : res FaError (nat * SeatPaymentRecovery))
    : St (ActiveFormationRecovery * Acquisition) unit :=
  match result with
  | Ok (position, Rejected proof) => note (aq_terminate position (Some proof) PaymentRejected)
  | Ok (position, recovered) => note (aq_recover position recovered)
  | Err e => note (aq_fail e)
  | Panic => lift_st (lift Panic)
  end.

Lemma wp_recovering pre t rest b x w : Recovering (pre ++ t :: rest) x w → recovery_result t b w →
  wp (recovering_handle b x) (post_st (λ _, Recovering (pre ++ rest)) (λ e y, safe e y.1)) w.
Proof.
  intros (Hr & HH & HF & HN & Ht) HR. destruct x as [r' a]. cbn [fst snd] in *. subst r'.
  assert (Hpay : Payable f rows t.1.1 t.2) by (apply Ht; apply elem_of_app; right; by left).
  assert (Ht' : ∀ u, u ∈ pre ++ rest → Payable f rows u.1.1 u.2).
  { intros u Hu. apply Ht. apply elem_of_app in Hu as [|]; apply elem_of_app; [by left|right; by right]. }
  assert (Hnext : ∀ a', Recovered f rows a' (w_trace w) → Noted f rows a' (w_trace w) →
    Recovering (pre ++ rest) (r, a') w) by (intros a' ??; by split).
  destruct b as [[i v]|e|]; cbn [recovering_handle]; [| |done].
  2:{ apply Hnext; [by destruct HF|by apply Noted_fail]. }
  destruct HR as [-> Hv].
  assert (Hkeep : (∀ p, v ≠ Rejected p) → Recovering (pre ++ rest) (r, aq_recover t.1.1 v a) w).
  { intros Hno. apply Hnext; [by eapply Recovered_recover|by destruct HN]. }
  destruct v as [|prepared|proof]; [by apply Hkeep|by apply Hkeep|]. clear Hkeep.
  destruct Hv as [Hpaid Hproof]. destruct (paid_bound _ _ _ HH Hpay Hpaid) as (Hst & s & q & Hi & Hq & Et & Harm).
  apply Hnext; [by destruct HF|]. eapply Noted_terminate; [done|done|done| | |by rewrite Hst].
  - intros _. exists proof. by rewrite Et.
  - destruct Harm as [_ E]. by rewrite E.
Qed.

Lemma wp_recover_payments l x w : Recovering l x w →
  wp (recover_payments lease l x) (post_st (λ _, Recovering []) (λ e y, safe e y.1)) w.
Proof.
  intros HK. unfold recover_payments. eapply (wp_unordered fa_id (At f rows) recovery_result Recovering).
  - apply At_inv.
  - intros. by eapply At_quiet.
  - apply recovery_result_stable.
  - apply Recovering_quiet.
  - by intros k y v (_ & [HA _] & _).
  - intros. by apply (wp_recovering pre t rest b).
  - intros [[i id] t] w' _. eapply still_mono.
    2:{ eapply (still_then fa_id (At f rows)) with (R' := λ x w, x.1 = i
          ∧ recovered_payment fa_id t x.2 (w_trace w)).
        - apply still_recover_payment.
        - intros v u _ Hv. exact (conj eq_refl Hv). }
    by intros [[j v]|e|] u _ H.
  - done.
Qed.

End Recovery.

(** ** Keeping the outcome of a presentation *)

Lemma wp_checkpoint f rows r i s acc w : Hold f rows r w → Open f → rows !! i = Some s →
  ss_seat_id s = None → fee_account_ok (sa_guardian_fee_account acc) = true →
  wp (checkpoint_accepted_seat i acc r)
    (post_st (λ _ r' w', ∃ p, stored_dkg_complete p = false
       ∧ Hold (with_phase p f)
           (<[i := with_acceptance (sa_seat_id acc) (sa_guardian_fee_account acc) s]> rows) r' w')
     (λ e r' w', r' = r ∧ Hold f rows r w')) w.
Proof.
  intros HH Ho Hi Hseat Hfee. pose proof (Hold_mirror _ _ _ _ _ HH) as Hm.
  pose proof (Hold_wf _ _ _ _ _ HH) as Hw. unfold checkpoint_accepted_seat. apply wp_get_bind.
  apply wp_lift_bind; [|by intros e ?%rc_seat_Err]. intros m Him.
  destruct (rc_seat_Ok _ _ _ _ _ Hm Him) as (s' & Hs' & Hms). assert (s' = s) as -> by congruence.
  destruct (mirror_row _ _ Hms) as (Eix & _). cbv zeta. apply wp_do_bind.
  rewrite Eix, (row_index _ _ _ _ _ Hw Hi), (mi_id _ _ _ Hm).
  apply (wp_tx fa_id (Hold f rows r)); [by intros ? [? _]; eapply At_FaInv|intros; by eapply Hold_quiet|done|by intros|].
  intros d' u Hok. destruct HH as (HA & _ & Hu).
  destruct (record_seat_accepted_step _ _ _ _ _ _ _ _ _ _ HA Ho Hi Hseat Hfee Hok) as (p & Hp & HA').
  split; [by eapply At_FaInv|]. exists p. split; [done|]. split; [done|]. split; [|exact Hu].
  split; cbn; try done; try by apply Hm. eapply mirror_update; [by apply Hm|done|]. by intros m0 ->.
Qed.

Section Settling.
Context (f0 : StoredFormation) (rows0 : list StoredSeat) {T : Type} (pos : T → nat).
Context (active : T → Prop) (other : nat → Prop) (a0 : Acquisition).

Definition Grown a : Prop :=
  aq_recovered a = aq_recovered a0 ∧ (is_Some (aq_error a0) → is_Some (aq_error a))
  ∧ ∀ x, x ∈ aq_terminal a0 → x ∈ aq_terminal a.

(** The rows still to be settled; every row is accepted, terminal, one of them
    or one of the [other]s, unless the run stops at its barrier. *)
Definition Settling (tags : list T) (x : ActiveFormationRecovery * Acquisition) w : Prop :=
  NoDup (pos <$> tags) ∧ Noted f0 rows0 x.2 (w_trace w) ∧ Grown x.2
  ∧ ∃ f rows, Hold f rows x.1 w ∧ Progress f0 rows0 f rows
    ∧ (∀ t, t ∈ tags → active t → ∃ s, rows !! pos t = Some s ∧ ss_seat_id s = None)
    ∧ ∀ i s, rows !! i = Some s → is_Some (ss_seat_id s) ∨ i ∈ (aq_terminal x.2).*1
        ∨ i ∈ pos <$> tags ∨ is_Some (aq_error x.2) ∨ other i.

Lemma Settling_quiet l x w w' : quiet w w' → Settling l x w → Settling l x w'.
Proof.
  intros Hq (Hnd & HF & HG & f & rows & HH & HP & Ht & Hc). split; [done|].
  split; [by eapply Noted_later; [apply quiet_later|]|]. split; [done|].
  exists f, rows. split; [by eapply Hold_quiet|done].
Qed.

Lemma Settling_moved f rows l x w w' : later w w' → Hold f rows x.1 w → Hold f rows x.1 w' →
  Settling l x w → Settling l x w'.
Proof.
  intros Hl [HA _] HH' (Hnd & HF & HG & f1 & rows1 & (HA1 & _) & HP1 & Ht1 & Hc1).
  destruct (At_unique _ _ _ _ _ _ HA1 HA) as [-> ->].
  split; [done|]. split; [by eapply Noted_later|]. split; [done|]. by exists f1, rows1.
Qed.

Lemma pos_middle (pre : list T) t rest : NoDup (pos <$> pre ++ t :: rest) →
  NoDup (pos <$> pre ++ rest) ∧ (∀ u, u ∈ pre ++ rest → pos u ≠ pos t)
  ∧ ∀ i, i ∈ pos <$> pre ++ t :: rest → i = pos t ∨ i ∈ pos <$> pre ++ rest.
Proof.
  assert (Hp : pos <$> pre ++ t :: rest ≡ₚ pos t :: (pos <$> pre ++ rest)).
  { by rewrite !fmap_app, fmap_cons, Permutation_middle. }
  rewrite Hp. intros [Hno Hnd]%NoDup_cons. split_and!; [done| |].
  - intros u Hu E. apply Hno. rewrite <- E. by apply list_elem_of_fmap_2.
  - intros i Hi. rewrite Hp in Hi. by apply elem_of_cons.
Qed.

Lemma Settling_fail pre t rest x w e : Settling (pre ++ t :: rest) x w →
  Settling (pre ++ rest) (x.1, aq_fail e x.2) w.
Proof.
  intros (Hnd & HF & (G1 & G2 & G3) & f & rows & HH & HP & Ht & Hc).
  destruct (pos_middle _ _ _ Hnd) as (Hnd' & _ & _). split; [done|]. split; [by apply Noted_fail|].
  split; [split; [done|]; split; [by eexists|done]|]. exists f, rows. split_and!; try done.
  - intros u Hu. apply Ht. apply elem_of_app in Hu as [|]; apply elem_of_app; [by left|right; by right].
  - intros i s Hi. right; right; right; left. cbn. by eexists.
Qed.

Lemma Settling_terminate pre t rest x w failure proof s q : Settling (pre ++ t :: rest) x w →
  rows0 !! pos t = Some s → ss_signed_quote s = Some q → ad_state (ss_admission s) ≠ Fresh →
  presented fa_id q (CreationRefused failure proof) (w_trace w) →
  Settling (pre ++ rest) (x.1, aq_terminate (pos t) proof (OutcomeSeatRefused failure) x.2) w.
Proof.
  intros (Hnd & HF & (G1 & G2 & G3) & f & rows & HH & HP & Ht & Hc) Hs Hq Hb Hc0.
  destruct (pos_middle _ _ _ Hnd) as (Hnd' & _ & Hmid). split; [done|]. split.
  { eapply Noted_terminate; try done. intros _. by eexists. }
  split; [split; [done|]; split; [done|]; intros; apply elem_of_app; left; by apply G3|].
  exists f, rows. split_and!; try done.
  - intros u Hu. apply Ht. apply elem_of_app in Hu as [|]; apply elem_of_app; [by left|right; by right].
  - intros i s' Hi. cbn. rewrite fmap_app. destruct (Hc i s' Hi) as [|[|[Hin|[|]]]]; [by left| | |auto..].
    + right; left. apply elem_of_app. by left.
    + destruct (Hmid i Hin) as [->|]; [|auto]. right; left. apply elem_of_app. right. by left.
Qed.

Lemma Settling_accept pre t rest x w w' f rows s r' p seat account :
  later w w' → Settling (pre ++ t :: rest) x w → Hold f rows x.1 w → rows !! pos t = Some s →
  stored_dkg_complete p = false →
  Hold (with_phase p f) (<[pos t := with_acceptance seat account s]> rows) r' w' →
  Settling (pre ++ rest) (r', x.2) w'.
Proof.
  intros Hl (Hnd & HF & HG & f1 & rows1 & HH & HP & Ht & Hc) [HA _] Hi Hp HH'.
  pose proof HH as [HA1 _]. destruct (At_unique _ _ _ _ _ _ HA1 HA) as [-> ->].
  destruct (pos_middle _ _ _ Hnd) as (Hnd' & Hne & Hmid). split; [done|].
  split; [by eapply Noted_later|]. split; [done|]. eexists _, _. split; [exact HH'|].
  split; [by apply Progress_accept|]. split.
  - intros u Hu Hact. destruct (Ht u) as (su & Hsu & Hnone); [|done|].
    { apply elem_of_app in Hu as [|]; apply elem_of_app; [by left|right; by right]. }
    exists su. split; [|done]. rewrite list_lookup_insert_ne; [done|]. by apply not_eq_sym, Hne.
  - intros i s' Hs'. destruct (decide (i = pos t)) as [->|Hnei].
    + rewrite list_lookup_insert_eq in Hs' by by eapply lookup_lt_Some. injection Hs' as <-. left. by eexists.
    + rewrite list_lookup_insert_ne in Hs' by done. destruct (Hc i s' Hs') as [|[|[Hin|[|]]]]; auto.
      destruct (Hmid i Hin) as [->|]; [done|auto].
Qed.

Lemma wp_settle pre t rest c x w s q : Settling (pre ++ t :: rest) x w → active t →
  rows0 !! pos t = Some s → ss_signed_quote s = Some q → ad_state (ss_admission s) ≠ Fresh →
  presented fa_id q c (w_trace w) →
  wp (settle_creation (pos t) c x)
    (post_st (λ (b : bool) y w', Settling (pre ++ rest) y w' ∧ (b = false → is_Some (aq_error y.2)))
             (λ e y, safe e y.1)) w.
Proof.
  intros HS Hact Hs Hq Hb Hc. destruct x as [r a]. destruct c as [acc|failure proof]; cbn [settle_creation].
  2:{ apply wp_modify_bind. cbn. split; [|done].
      apply (Settling_terminate pre t rest (r, a) w failure proof s q HS Hs Hq Hb Hc). }
  pose proof HS as (_ & _ & _ & f & rows & HH & HP & Ht & _).
  destruct (Ht t) as (s1 & Hs1 & Hseat); [apply elem_of_app; right; by left|done|].
  apply wp_pbind. eapply wp_weaken.
  { apply (wp_checkpoint f rows r (pos t) s1 acc); try done. by eapply Progress_open. }
  intros [r' [u|e|]] w' Hl H; cbn in H |- *; [| |done].
  - destruct H as (p & Hp & HH'). split; [|done].
    by apply (Settling_accept pre t rest (r, a) w w' f rows s1 r' p _ _ Hl HS HH Hs1 Hp HH').
  - destruct H as [-> HH']. split; [|by eexists].
    assert (HS' : Settling (pre ++ t :: rest) (r, a) w'); [|exact (Settling_fail _ _ _ _ _ e HS')].
    by apply (Settling_moved f rows _ _ w).
Qed.

End Settling.

(** ** Replaying prepared payments *)

Lemma somes_NoDup {A} (g : A → nat) (l : list (option A)) :
  (∀ i x, l !! i = Some (Some x) → g x = i) → NoDup (g <$> somes l).
Proof.
  assert (H : ∀ n, (∀ i x, l !! i = Some (Some x) → g x = (n + i)%nat) →
    NoDup (g <$> somes l) ∧ ∀ x, x ∈ somes l → (n <= g x)%nat).
  { induction l as [|o l IH]; intros n Hl; [split; [by constructor|by intros x ?%elem_of_nil]|].
    destruct (IH (S n)) as [Hnd Hge].
    { intros i x Hi. rewrite (Hl (S i) x Hi). lia. }
    destruct o as [x|]; cbn; cycle 1.
    { split; [done|]. intros y Hy. specialize (Hge y Hy). lia. }
    pose proof (Hl 0%nat x eq_refl) as Hx. split.
    - apply NoDup_cons. split; [|done]. intros (y & E & Hy)%list_elem_of_fmap.
      specialize (Hge y Hy). lia.
    - intros y [->|Hy]%elem_of_cons; [lia|]. specialize (Hge y Hy). lia. }
  intros Hl. by apply (H 0%nat).
Qed.

Section Replay.
Context (f0 : StoredFormation) (rows0 : list StoredSeat) (other : nat → Prop) (a0 : Acquisition).

Abbreviation Replay := (nat * Locator * SignedQuote * QuoteTerms * PreparedSeatPayment)%type.
Definition replay_pos (t : Replay) : nat := t.1.1.1.1.

(** The row a presentation of [q] at [l] is for. *)
Definition Bound (i : nat) (l : Locator) (q : SignedQuote) : Prop :=
  ∃ s, rows0 !! i = Some s ∧ ss_seat_id s = None ∧ ss_locator s = l ∧ ss_signed_quote s = Some q
    ∧ ad_state (ss_admission s) = EffectAuthorized (quote_id (sq_terms q)) (effect_of (sq_terms q)).
Definition replay_ok (t : Replay) : Prop :=
  let '(i, l, signed, verified, _) := t in verified = sq_terms signed ∧ Bound i l signed.

Lemma effect_of_paid t : is_Some (qt_payment t) → effect_of t = PaidOutput.
Proof. intros [p E]. unfold effect_of. by rewrite E. Qed.

Lemma replaying_Ok r a w l : Hold f0 rows0 r w → Recovered f0 rows0 a (w_trace w) →
  replaying fa_id r (aq_recovered a) = Ok l →
  NoDup (replay_pos <$> l) ∧ ∀ t, t ∈ l → replay_ok t.
Proof.
  intros HH HF H. unfold replaying in H. apply res_bind_Ok in H as (xs & Hxs & H). injection H as <-.
  apply collect_Ok in Hxs. pose proof (Hold_mirror _ _ _ _ _ HH) as Hm.
  assert (Hx : ∀ i x, xs !! i = Some (Some x) → replay_pos x = i ∧ replay_ok x).
  { intros i x Hi. destruct (Forall2_lookup_r _ _ _ _ _ Hxs Hi) as ([j v] & Hj & Hrow).
    rewrite list_lookup_imap in Hj. destruct (aq_recovered a !! i) as [v'|] eqn:Hv; [|done].
    cbn in Hj. injection Hj as <- <-. unfold replaying_row in Hrow.
    destruct v' as [[|prepared|]|]; try done. apply res_bind_Ok in Hrow as (m & Hmi & Hrow).
    apply res_bind_Ok in Hrow as (signed & Hsg & Hrow). apply res_bind_Ok in Hrow as (t & Ht & Hrow).
    injection Hrow as <-. split; [done|]. destruct (rc_seat_Ok _ _ _ _ _ Hm Hmi) as (s & Hs & Hms).
    destruct (mirror_row _ _ Hms) as (_ & El & _ & _ & Eq & _). unfold expect in Hsg.
    rewrite Eq in Hsg. destruct (ss_signed_quote s) as [q|] eqn:Hq; [|done]. injection Hsg as ->.
    unfold verify_paid_seat_quote in Ht. apply res_bind_Ok in Ht as (t' & Ht' & Ht).
    apply verify_quote_Ok in Ht' as [-> _]. case_bool_decide; [|done]. injection Ht as <-.
    destruct (rv_entry _ _ _ _ HF _ _ Hv) as (s' & q & Hs' & Hseat & Hq' & Hp & (au & Ha & Hmem) & Hpaid).
    simplify_eq. split; [done|]. exists s. split_and!; try done.
    assert (Hpay : Payable f0 rows0 i (sq_terms signed)) by by exists s, signed, au.
    destruct (paid_bound _ _ _ i _ _ HH Hpay Hpaid) as (_ & s2 & q2 & Hs2 & Hq2 & _ & [_ E]).
    simplify_eq. by rewrite E, effect_of_paid. }
  split; [apply somes_NoDup; intros i x Hi; by apply Hx|].
  intros t [i Hi]%somes_elem%list_elem_of_lookup_1. by apply (Hx i).
Qed.

Definition InProgress w : Prop := ∃ f rows, At f rows w ∧ Progress f0 rows0 f rows.
Lemma InProgress_inv w : InProgress w → FaInv fa_id w.
Proof. intros (f & rows & HA & _). by eapply At_FaInv. Qed.
Lemma InProgress_quiet w w' : quiet w w' → InProgress w → InProgress w'.
Proof. intros Hq (f & rows & HA & HP). exists f, rows. split; [by eapply At_quiet|done]. Qed.

(** Presenting a bound row. *)
Lemma still_present i l q p w : Bound i l q → presentable p q →
  Logic.still (allowed fa_id) Answers InProgress
    (post (λ c w, presented fa_id q c (w_trace w)) (λ _ _, True))
    (present_seat lease (Z.of_nat i) l fa_id p) w.
Proof.
  intros (s & Hs & Hseat & <- & Hq & Hst) Hp. apply still_present_seat; [done|].
  intros w' signatures (f & rows & HA & HP). by eapply presentable_row.
Qed.

Definition settled (ok : Prop) (i : nat) (q : SignedQuote) (x : res FaError (nat * SeatCreation)) w : Prop :=
  ok ∧ match x with Ok (j, c) => j = i ∧ presented fa_id q c (w_trace w) | _ => True end.
Lemma settled_stable ok i q : stable (settled ok i q).
Proof.
  intros x w w' [l E] [Hok H]. split; [done|]. destruct x as [[j c]|e|]; [|done|done].
  destruct H as [-> H]. split; [done|]. rewrite E. by apply presented_later.
Qed.

Definition settling_handle (result : res FaError (nat * SeatCreation))
    : St (ActiveFormationRecovery * Acquisition) unit :=
  match result with
  | Ok (position, creation) => settle_creation position creation;; mret tt
  | Err e => note (aq_fail e)
  | Panic => lift_st (lift Panic)
  end.

Lemma wp_settling {T} (pos : T → nat) active (q : T → SignedQuote) l pre t rest b x w :
  Settling f0 rows0 pos active other a0 (pre ++ t :: rest) x w → active t →
  settled (Bound (pos t) l (q t)) (pos t) (q t) b w →
  wp (settling_handle b x)
    (post_st (λ _, Settling f0 rows0 pos active other a0 (pre ++ rest)) (λ e y, safe e y.1)) w.
Proof.
  intros HS Hact [(s & Hs & Hseat & _ & Hq & Hst) Hb]. destruct b as [[i c]|e|]; cbn [settling_handle]; [| |done].
  - destruct Hb as [-> Hc]. apply wp_bind_St. eapply wp_st_mono.
    + apply (wp_settle f0 rows0 pos active other a0 pre t rest c x w s (q t)); try done. by rewrite Hst.
    + intros b y w' _ [HS' _]. exact HS'.
    + done.
  - destruct x as [r a]. exact (Settling_fail _ _ _ _ _ _ _ _ _ _ _ e HS).
Qed.

Lemma wp_replay_payments l x w : (∀ t, t ∈ l → replay_ok t) →
  Settling f0 rows0 replay_pos (λ _, True) other a0 l x w →
  wp (replay_payments fa_id lease l x)
    (post_st (λ _, Settling f0 rows0 replay_pos (λ _, True) other a0 []) (λ e y, safe e y.1)) w.
Proof.
  intros Hl HK. unfold replay_payments.
  eapply (wp_unordered fa_id InProgress
    (λ t : Replay, settled (Bound (replay_pos t) t.1.1.1.2 t.1.1.2) (replay_pos t) t.1.1.2)
    (Settling f0 rows0 replay_pos (λ _, True) other a0)).
  - apply InProgress_inv.
  - apply InProgress_quiet.
  - intros t. apply settled_stable.
  - intros ????. apply Settling_quiet.
  - intros k y v (_ & _ & _ & f & rows & [HA _] & HP & _). by exists f, rows.
  - intros pre t rest b y v HS. by apply (wp_settling replay_pos (λ _, True) (λ t, t.1.1.2)).
  - intros [[[[i l'] signed] verified] prepared] w' Hin. destruct (Hl _ Hin) as [-> HB].
    eapply still_mono.
    2:{ eapply (still_then fa_id InProgress) with (R' := λ x w, x.1 = i
          ∧ presented fa_id signed x.2 (w_trace w)); [apply still_connect|].
        intros ? w1 _ ->. eapply still_then; [by apply still_present|].
        intros c w2 _ Hc. exact (conj eq_refl Hc). }
    intros [[j c]|e|] v _ H; split; try done.
  - done.
Qed.

End Replay.

End Acquiring.
End Acquiring.
