(* ===== verification/FaFund.v ===== *)
(** * Funding and presenting the wave

    The second half of [acquire_seats]: the work of every row is prepared, the
    admissions of the whole wave are consumed before its first effect, funded
    rows are paid and presented one after the other, free ones concurrently,
    and terminal quotes are released and dropped together. *)

From S2P Require Import Prelude FaSchema FaQuotes FaStore FaProg FaCalls FaDriver FaFormation FaLogic FaInvariant FaViews FaWf FaReadable FaSteps FaCalm FaReserve FaPrepare FaAcquire.
From stdpp Require Import base gmap strings list.
From Stdlib Require Import ZArith Lia.
Open Scope Z_scope.

Module Funding.
Import Fa Quotes Store Run Calls Driver Formation Logic Inv Views WellFormed Readable Steps Calm Triples Reserving Preparing Acquiring.

Section Funding.
Context {CR : Crypto} {PO : Policy}.
Variable fa_id : Z.
Variable lease : DriverLease.
Implicit Types (f : StoredFormation) (rows : list StoredSeat) (s : StoredSeat).
Implicit Types (tr : Trace) (w : FaWorld) (r : ActiveFormationRecovery) (a : Acquisition).

Abbreviation wp := (Logic.wp (FaInv fa_id) (allowed fa_id) Answers).
Abbreviation At := (Steps.At fa_id).
Abbreviation Hold := (Triples.Hold fa_id).
Abbreviation safe := (Triples.safe fa_id).

Lemma Hold_inv f rows r w : Hold f rows r w → FaInv fa_id w.
Proof. intros [HA _]. by eapply At_FaInv. Qed.

(** ** Futures that leave the formation alone *)

Section Fan.
Context {S B T : Type} (recovery : S → ActiveFormationRecovery).
Context (f : StoredFormation) (rows : list StoredSeat).
Context (g : T → M B) (handle : res FaError B → St S unit).
Hypothesis g_calm : ∀ t, calm fa_id (At f rows) (g t).
Hypothesis handle_ok : ∀ b x w, Hold f rows (recovery x) w →
  wp (handle b x) (post_st (λ _ y w', Hold f rows (recovery y) w') (λ e y, safe e (recovery y))) w.

Lemma wp_fan l x w : Hold f rows (recovery x) w →
  wp (unordered (g <$> l) handle x)
    (post_st (λ _ y w', Hold f rows (recovery y) w') (λ e y, safe e (recovery y))) w.
Proof.
  intros HH.
  eapply (wp_unordered fa_id (At f rows) (λ _, any) (λ _ x, Hold f rows (recovery x))).
  - apply At_inv.
  - intros. by eapply At_quiet.
  - by intros t b v v'.
  - intros _ y v v'. apply Hold_quiet.
  - by intros _ y v [HA _].
  - intros _ t _ b y v H _. by apply handle_ok.
  - intros t w' _. apply g_calm.
  - done.
Qed.

End Fan.

(** ** Barriers *)

Lemma wp_barrier {B} f f0 rows rows0 x w (k : St (ActiveFormationRecovery * Acquisition) B) Q :
  Hold f rows x.1 w → Noted fa_id f0 rows0 x.2 (w_trace w) →
  sf_outputs_started f = sf_outputs_started f0 →
  (aq_error x.2 = None →
   (sf_outputs_started f = false → aq_terminal x.2 = [] ∧ aq_outcome x.2 = None) →
   wp (k x) (post_st Q (λ e y, safe e y.1)) w) →
  wp ((barrier;; k) x) (post_st Q (λ e y, safe e y.1)) w.
Proof.
  destruct x as [r a]. cbn [fst snd]. intros HH HN Est Hk. unfold barrier.
  apply wp_bind_St, wp_get_bind. assert (Hsafe : ∀ e, safe e r w) by (intros e; by eapply Hold_safe).
  destruct (aq_error a) as [e|] eqn:He; [by apply Hsafe|].
  assert (Hst := mi_started _ _ _ (Hold_mirror _ _ _ _ _ HH)).
  destruct (aq_outcome a) as [o|] eqn:Ho.
  - destruct (requires_pre_output_reauthorization _ _) eqn:Hreq; [by apply Hsafe|].
    apply Hk; [done|]. intros Hf. unfold requires_pre_output_reauthorization in Hreq.
    rewrite Hst, Hf in Hreq. rewrite Est in Hf.
    destruct (no_unstarted _ _ _ _ _ HN Hf) as [[_ E]|[failure E]]; [congruence|].
    rewrite Ho in E. injection E as ->. done.
  - apply Hk; [done|]. intros Hf. rewrite Est in Hf.
    destruct (no_unstarted _ _ _ _ _ HN Hf) as [[-> _]|[failure E]]; [done|]. congruence.
Qed.

(** ** Rows still to fund *)

(** No two unaccepted paid rows share a quote. *)
Definition Unique rows : Prop :=
  ∀ i j s s' q q', rows !! i = Some s → rows !! j = Some s' → ss_seat_id s = None →
    ss_seat_id s' = None → ss_signed_quote s = Some q → ss_signed_quote s' = Some q' →
    is_Some (qt_payment (sq_terms q)) → is_Some (qt_payment (sq_terms q')) →
    quote_id (sq_terms q) = quote_id (sq_terms q') → i = j.

Lemma entry_some acc s q : ss_seat_id s = None → ss_signed_quote s = Some q →
  is_Some (qt_payment (sq_terms q)) →
  ∃ e, entry acc (row_recovery s) = Some e ∧ pr_quote_id e = quote_id (sq_terms q).
Proof.
  intros Hseat Hq [p Hp]. unfold entry. cbn. rewrite Hq. cbn. rewrite Hp. cbn. rewrite Hseat.
  rewrite bool_decide_false by by intros [? ?]. by eexists.
Qed.

Lemma fmap_omap {A B C} (g : B → C) (h : A → option B) (l : list A) : g <$> omap h l = omap (λ x, g <$> h x) l.
Proof. induction l as [|x l IH]; [done|]. cbn. destruct (h x); cbn; [f_equal|]; exact IH. Qed.

Lemma requirements_unique f rows acc q : Wf fa_id f rows →
  requirements_in fa_id f rows acc = Ok (Some q) → NoDup (pr_quote_id <$> rq_seats q) → Unique rows.
Proof.
  intros Hw Hq Hnd. apply payment_requirements_Ok in Hq as (_ & Hseats & _).
  rewrite Hseats, fmap_omap in Hnd.
  intros i j s s' x x' Hi Hj Hs Hs' Hx Hx' Hp Hp' E.
  destruct (entry_some acc s x Hs Hx Hp) as (e & He & Ee).
  destruct (entry_some acc s' x' Hs' Hx' Hp') as (e' & He' & Ee').
  assert (row_recovery s = row_recovery s') as Erow.
  { apply (NoDup_omap_eq _ _ _ _ (quote_id (sq_terms x)) Hnd).
    - apply list_elem_of_fmap_2. by eapply list_elem_of_lookup_2.
    - apply list_elem_of_fmap_2. by eapply list_elem_of_lookup_2.
    - rewrite He. cbn. by rewrite Ee.
    - rewrite He'. cbn. by rewrite Ee', E. }
  assert (ss_index s = ss_index s') as Eix by by injection Erow.
  rewrite (row_index _ _ _ _ _ Hw Hi), (row_index _ _ _ _ _ Hw Hj) in Eix. lia.
Qed.

Lemma Unique_progress f0 rows0 f rows : Progress f0 rows0 f rows → Unique rows0 → Unique rows.
Proof.
  intros [_ Hs] HU i j s s' q q' Hi Hj Hseat Hseat' Hq Hq' Hp Hp' E.
  destruct (rows_step_lookup _ _ _ _ _ Hs Hi) as (t & Ht & Ha).
  destruct (rows_step_lookup _ _ _ _ _ Hs Hj) as (t' & Ht' & Ha').
  assert (∀ k x y, accepting k x y → ss_seat_id y = None → y = x) as Hsame.
  { intros k x y [->|(? & ? & ->)]; [done|]. done. }
  apply Hsame in Ha as <-; [|done]. apply Hsame in Ha' as <-; [|done]. by apply (HU i j s s' q q').
Qed.

(** What the wallet left to be started. *)
Definition Startable f rows (recovered : list (option SeatPaymentRecovery)) : Prop :=
  ∀ i v, recovered !! i = Some (Some v) → v = NotStarted ∧ ∃ s q, rows !! i = Some s
    ∧ ss_signed_quote s = Some q ∧ is_Some (qt_payment (sq_terms q))
    ∧ ∃ au, sf_payment_authorization f = Some au ∧ member au i q.

Definition startable (v : option SeatPaymentRecovery) : option SeatPaymentRecovery :=
  match v with Some (Prepared _) => None | v => v end.

Lemma Startable_recovered f0 rows0 f rows a tr : Recovered f0 rows0 a tr → Progress f0 rows0 f rows →
  Startable f rows (startable <$> aq_recovered a).
Proof.
  intros HR HP i v Hi. rewrite list_lookup_fmap in Hi.
  destruct (aq_recovered a !! i) as [[u|]|] eqn:Hv; [|done|done].
  destruct (rv_entry _ _ _ _ HR _ _ Hv) as (s & q & Hs & _ & Hq & Hp & (au & Ha & Hm) & Hu).
  destruct u; cbn in Hi; [|done|done]. injection Hi as <-. split; [done|].
  destruct (Progress_lookup _ _ _ _ _ _ HP Hs) as (s' & Hs' & Hacc).
  destruct (accepting_keeps _ _ _ Hacc) as (_ & Eq & _). exists s', q.
  split_and!; try done; [congruence|]. exists au. split; [|done].
  by destruct HP as [(p & -> & _) _].
Qed.

(** ** Journaled payments *)

(** The quotes to fund, read from the record. *)
Definition Journaled rows (recovered : list (option SeatPaymentRecovery))
    (l : list (option (SignedQuote * QuoteTerms))) : Prop :=
  ∀ i x, l !! i = Some (Some x) → recovered !! i = Some (Some NotStarted)
    ∧ ∃ s, rows !! i = Some s ∧ ss_signed_quote s = Some x.1 ∧ x.2 = sq_terms x.1
      ∧ is_Some (qt_payment x.2).

Lemma journaled_Ok r f rows recovered l : Mirror r f rows →
  journaled_payments fa_id r recovered = Ok l → Journaled rows recovered l.
Proof.
  intros Hm H i x Hi. unfold journaled_payments in H. apply collect_Ok in H.
  destruct (Forall2_lookup_r _ _ _ _ _ H Hi) as ([j [m v]] & Hj & Hrow).
  rewrite list_lookup_imap, lookup_zip_with in Hj.
  destruct (rc_seats r !! i) as [m'|] eqn:Him; [|done]. cbn in Hj.
  destruct (recovered !! i) as [v'|] eqn:Hv; [|done]. cbn in Hj. injection Hj as <- <- <-.
  destruct v' as [[]|]; cbn in Hrow; try done. split; [done|].
  apply res_bind_Ok in Hrow as (signed & Hsg & Hrow). apply res_bind_Ok in Hrow as (t & Ht & Hrow).
  injection Hrow as <-. destruct (mirror_lookup _ _ _ _ _ Hm Him) as (s & Hs & Hms).
  destruct (mirror_row _ _ Hms) as (_ & _ & _ & _ & Eq & _). rewrite Eq in Hsg.
  destruct (ss_signed_quote s) as [q|] eqn:Hq; [|done]. injection Hsg as ->.
  unfold verify_paid_seat_quote in Ht. apply res_bind_Ok in Ht as (t' & Ht' & Ht).
  apply verify_quote_Ok in Ht' as [-> _]. case_bool_decide; [|done]. injection Ht as <-.
  by exists s.
Qed.

Lemma wp_refresh_unstarted f rows r recovered payer w : Hold f rows r w →
  is_Some (sf_payment_reservation_id f) →
  wp (refresh_unstarted_payments fa_id lease recovered payer r)
    (post_st (λ l r' w', r' = r ∧ w' = w ∧ Journaled rows recovered l) safe) w.
Proof.
  intros HH [id Hid]. unfold refresh_unstarted_payments. apply wp_get_bind.
  pose proof (Hold_mirror _ _ _ _ _ HH) as Hm. rewrite (mi_reservation _ _ _ Hm), Hid.
  eapply wp_lift_hold; [done|]. intros o _. eapply wp_lift_hold; [done|]. intros q _.
  destruct (negb _); [by left|]. apply wp_lift_end.
  - intros l Hl. split_and!; try done. by eapply journaled_Ok.
  - intros e _. by eapply Hold_safe.
Qed.

Lemma wp_connect_rows f rows r terminal w : Hold f rows r w →
  wp (connect_rows lease terminal r) (post_st (λ _ r' w', Hold f rows r' w') safe) w.
Proof.
  intros HH. unfold connect_rows. apply wp_get_bind, wp_bind_St, wp_with_local.
  eapply wp_st_mono; [apply (wp_fan fst f rows)| |].
  - intros [i m]. apply calm_connect_selected.
  - intros [l|e|] [r' e'] w' H; [exact H|exact H|done].
  - exact HH.
  - intros _ [r' [e|]] w' _ H; cbn in *; [by eapply Hold_safe|exact H].
  - by intros e [r' e'] w' _ H.
Qed.

(** ** Preparing the work of every row *)

Definition FundOk f rows (u : Funding) : Prop :=
  ∃ s au, rows !! fu_position u = Some s ∧ ss_seat_id s = None
    ∧ ss_signed_quote s = Some (fu_signed u) ∧ fu_verified u = sq_terms (fu_signed u)
    ∧ is_Some (qt_payment (sq_terms (fu_signed u))) ∧ fu_locator u = ss_locator s
    ∧ sf_payment_authorization f = Some au ∧ member au (fu_position u) (fu_signed u)
    ∧ sf_payment_reservation_id f = Some (rv_id (fu_reservation u)).
Definition PresentOk rows (p : Presenting) : Prop :=
  ∃ s, rows !! pn_position p = Some s
    ∧ match pn_source p with
      | Existing _ => is_Some (ss_seat_id s)
      | AcquireFree signed verified =>
          ss_seat_id s = None ∧ ss_signed_quote s = Some signed ∧ verified = sq_terms signed
          ∧ qt_payment (sq_terms signed) = None ∧ pn_locator p = ss_locator s
      end.

Definition WorkOk f rows (i : nat) (o : option (Funding + Presenting)) : Prop :=
  match o with
  | Some (inl u) => fu_position u = i ∧ FundOk f rows u
  | Some (inr p) => pn_position p = i ∧ PresentOk rows p
  | None => False
  end.

Lemma Mirror_phase r f rows i p : Mirror r f rows →
  Mirror (rc_update_seat i (sr_set_phase p) r) f rows.
Proof.
  intros Hm. split; cbn; try done; try by apply Hm.
  apply Forall2_same_length_lookup. split; [rewrite length_alter; by eapply mirror_length|].
  intros j m s Hj Hs. destruct (decide (i = j)) as [<-|].
  - rewrite list_lookup_alter_eq in Hj. destruct (rc_seats r !! i) as [m'|] eqn:Hi; [|done].
    injection Hj as <-. pose proof (Forall2_lookup_lr _ _ _ _ _ _ (mi_seats _ _ _ Hm) Hi Hs) as ->.
    done.
  - rewrite list_lookup_alter_ne in Hj by done.
    exact (Forall2_lookup_lr _ _ _ _ _ _ (mi_seats _ _ _ Hm) Hj Hs).
Qed.
Lemma Hold_phase f rows r i p w : Hold f rows r w → Hold f rows (rc_update_seat i (sr_set_phase p) r) w.
Proof. intros (HA & Hm & Hu). split; [done|]. split; [by apply Mirror_phase|done]. Qed.

Lemma wp_prepare_row f rows r recovered refreshed reservation i w : Hold f rows r w →
  Startable f rows recovered → Journaled rows recovered refreshed →
  (∀ rv, reservation = Some rv → sf_payment_reservation_id f = Some (rv_id rv)) →
  wp (prepare_row fa_id lease (mjoin (recovered !! i)) (mjoin (refreshed !! i)) reservation i r)
    (post_st (λ o r' w', Hold f rows r' w' ∧ WorkOk f rows i o) safe) w.
Proof.
  intros HH HS HJ Hrv. unfold prepare_row. apply wp_get_bind.
  pose proof (Hold_mirror _ _ _ _ _ HH) as Hm.
  apply wp_lift_bind; [|by intros e ?%rc_seat_Err]. intros m Him.
  destruct (rc_seat_Ok _ _ _ _ _ Hm Him) as (s & Hs & Hms).
  destruct (mirror_row _ _ Hms) as (Eix & El & Es & Ea & Eq & _ & _ & _ & Eac).
  rewrite Es. destruct (ss_seat_id s) as [seat|] eqn:Hseat.
  { apply wp_lift_bind; [|intros e; unfold expect; by destruct (sr_guardian_fee_account m)].
    intros account _. split; [done|]. split; [done|]. exists s. split; [done|]. cbn. by rewrite Hseat. }
  apply wp_modify_bind. set (r1 := rc_update_seat _ _ _).
  assert (H1 : Hold f rows r1 w) by by apply Hold_phase.
  rewrite Eq. eapply wp_lift_hold; [done|]. intros signed Hsg.
  destruct (ss_signed_quote s) as [q|] eqn:Hq; [|done]. injection Hsg as ->.
  destruct (mjoin (recovered !! i)) as [v|] eqn:Hv.
  - assert (Hrec : recovered !! i = Some (Some v)) by (destruct (recovered !! i); cbn in Hv; congruence).
    destruct (HS _ _ Hrec) as (-> & s' & q' & Hs' & Hq' & Hp & au & Ha & Hmem).
    assert (s' = s) as -> by congruence. assert (q' = signed) as -> by congruence.
    eapply wp_lift_hold; [done|]. intros x Hx. eapply wp_lift_hold; [done|]. intros rv Hrv'.
    destruct reservation as [rv'|]; [|done]. injection Hrv' as ->.
    assert (Href : refreshed !! i = Some (Some x)).
    { destruct (mjoin (refreshed !! i)) as [y|] eqn:E; [|done]. injection Hx as ->.
      destruct (refreshed !! i); cbn in E; congruence. }
    destruct (HJ _ _ Href) as (_ & s2 & Hs2 & Hq2 & Ex & Hpx).
    assert (s2 = s) as -> by congruence. assert (signed = x.1) as -> by congruence.
    eapply wp_hold; [done| |].
    { apply calm_bind; [apply calm_ensure_time|intros _]. apply calm_bind; [apply calm_renew|intros _].
      apply calm_ensure_time. }
    intros _ w' _ H'. split; [done|]. split; [done|]. exists s, au. cbn. split_and!; try done.
    by apply Hrv.
  - eapply wp_lift_hold; [done|]. intros t Ht. unfold verify_free_seat_quote in Ht.
    apply res_bind_Ok in Ht as (t' & Ht' & Ht). apply verify_quote_Ok in Ht' as [-> _].
    case_bool_decide as Hfree; [done|]. injection Ht as <-. split; [done|]. split; [done|].
    exists s. cbn. split_and!; try done. by apply eq_None_not_Some.
Qed.

Lemma wp_prepare_rows f rows recovered refreshed reservation terminal l r w : Hold f rows r w →
  Startable f rows recovered → Journaled rows recovered refreshed →
  (∀ rv, reservation = Some rv → sf_payment_reservation_id f = Some (rv_id rv)) →
  wp (prepare_rows fa_id lease terminal recovered refreshed reservation l r)
    (post_st (λ x r' w', Hold f rows r' w'
       ∧ (∀ u, u ∈ x.1 → FundOk f rows u) ∧ (∀ p, p ∈ x.2 → PresentOk rows p)
       ∧ (fu_position <$> x.1) ++ (pn_position <$> x.2) ≡ₚ filter (λ i, i ∉ terminal) l) safe) w.
Proof.
  intros HH HS HJ Hrv. revert r w HH. induction l as [|i l IH]; intros r w HH.
  { cbn. split_and!; try done; by intros ? ?%elem_of_nil. }
  cbn [prepare_rows]. rewrite filter_cons. case_bool_decide as Hin; [rewrite decide_False by tauto; by apply IH|].
  rewrite decide_True by done. apply wp_bind_St. eapply wp_st_mono; [by apply (wp_prepare_row f rows)| |done].
  intros o r1 w1 _ [H1 Ho]. apply wp_bind_St. eapply wp_st_mono; [by apply IH| |done].
  intros [fs ps] r2 w2 _ (H2 & Hf & Hp & Hperm). cbn in Hf, Hp, Hperm.
  destruct o as [[u|p]|]; [| |done]; destruct Ho as [<- Ho]; split; try done; cbn.
  - split_and!; [|done|by rewrite Hperm]. intros v [->|]%elem_of_cons; [done|by apply Hf].
  - split_and!; [done| |].
    + intros v [->|]%elem_of_cons; [done|by apply Hp].
    + by rewrite <- Permutation_middle, Hperm.
Qed.


(** ** Consuming the admissions *)

Abbreviation Effect := (nat * Z * Z * AdmissionEffect)%type.
Definition effect_pos (e : Effect) : nat := e.1.1.1.

(** A row with its admission consumed. *)
Definition target (e : Effect) s : StoredSeat :=
  (if bool_decide (is_Some (ss_replacement_for s)) then with_replacement None None None false
   else λ s, s) (bind_effect e.1.2 e.2 s).
Definition touched (l : list Effect) (i : nat) s s' : Prop :=
  s' = s ∧ i ∉ effect_pos <$> l ∨ ∃ e, e ∈ l ∧ effect_pos e = i ∧ s' = target e s.

Lemma alter_twice {A} (g h : A → A) i (l : list A) : alter g i (alter h i l) = alter (g ∘ h) i l.
Proof. revert i. induction l as [|x l IH]; intros [|i]; try done. cbn. f_equal. apply IH. Qed.

(** The same in memory. *)
Definition bound_seat (admission : MgAdmission) (m : SeatRecovery) : SeatRecovery :=
  sr_with (sr_phase m) (sr_signed_quote m) admission (sr_replacement_for m)
    (sr_previous_locator m) (sr_previous_mg_id m) (sr_replacement_approved m) m.
Definition unreplaced_seat (m : SeatRecovery) : SeatRecovery :=
  sr_with (sr_phase m) (sr_signed_quote m) (sr_admission m) None None None false m.
Lemma mirror_bound m s quote kind : mirror_seat m s →
  mirror_seat (bound_seat (effect_admission quote kind (sr_admission m)) m)
    (bind_effect quote kind s).
Proof. destruct m, s. unfold mirror_seat. intros E. injection E. intros. subst. reflexivity. Qed.
Lemma mirror_unreplaced m s : mirror_seat m s →
  mirror_seat (unreplaced_seat m) (with_replacement None None None false s).
Proof. destruct m, s. unfold mirror_seat. intros E. injection E. intros. subst. reflexivity. Qed.

Section Apply.
Context (f : StoredFormation) (rows rows' : list StoredSeat).

(** The rows of the outstanding effects are still the old ones in memory. *)
Definition Applying (l : list Effect) r : Prop :=
  NoDup (effect_pos <$> l) ∧ length (rc_seats r) = length rows'
  ∧ (∀ rs, Forall2 mirror_seat rs rows' → Mirror (rc_set_seats rs r) f rows')
  ∧ ∀ i m, rc_seats r !! i = Some m →
      if decide (i ∈ effect_pos <$> l)
      then ∃ e s s', e ∈ l ∧ effect_pos e = i ∧ rows !! i = Some s ∧ mirror_seat m s
             ∧ rows' !! i = Some s' ∧ s' = target e s
      else ∃ s', rows' !! i = Some s' ∧ mirror_seat m s'.

Lemma Applying_start l r : Mirror r f rows → NoDup (effect_pos <$> l) →
  rows_step (touched l) rows rows' → Applying l r.
Proof.
  intros Hm Hnd Hs. split; [done|]. split; [rewrite (mirror_length _ _ _ Hm); by destruct Hs|].
  split; [intros rs Hrs; split; cbn; try done; by apply Hm|]. intros i m Hi.
  destruct (mirror_lookup _ _ _ _ _ Hm Hi) as (s & Hi' & Hms).
  destruct (rows_step_back _ _ _ _ _ Hs Hi') as (s' & Hs' & [[-> Hno]|(e & He & Ei & ->)]).
  - rewrite decide_False by done. by exists s.
  - rewrite decide_True; [|rewrite <- Ei; by apply list_elem_of_fmap_2]. by exists e, s, (target e s).
Qed.

Lemma Applying_done r : Applying [] r → Mirror r f rows'.
Proof.
  intros (_ & Hl & Hm & Hi). assert (H : Forall2 mirror_seat (rc_seats r) rows').
  { apply Forall2_same_length_lookup. split; [done|]. intros i m s Hm' Hs. specialize (Hi i m Hm').
    cbn in Hi. destruct Hi as (s' & Hs' & ?). congruence. }
  specialize (Hm _ H). by destruct Hm.
Qed.

Lemma Applying_next e l r g : Applying (e :: l) r →
  (∀ m s, rc_seats r !! effect_pos e = Some m → mirror_seat m s → mirror_seat (g m) (target e s)) →
  Applying l (rc_update_seat (effect_pos e) g r).
Proof.
  intros (Hnd & Hl & Hm & Hi) Hg. cbn in Hnd. apply NoDup_cons in Hnd as [Hno Hnd].
  split; [done|]. split; [cbn; by rewrite length_alter|]. split; [exact Hm|].
  intros i m Him. cbn in Him. destruct (decide (effect_pos e = i)) as [<-|Hne].
  - rewrite decide_False by done. rewrite list_lookup_alter_eq in Him.
    destruct (rc_seats r !! effect_pos e) as [m0|] eqn:Hm0; [|done]. injection Him as <-.
    specialize (Hi _ _ Hm0). rewrite decide_True in Hi by by left.
    destruct Hi as (e' & s & s' & He' & Ep & Hs & Hms & Hs' & ->).
    assert (e' = e) as ->.
    { apply elem_of_cons in He' as [->|He']; [done|]. destruct Hno. rewrite <- Ep. by apply list_elem_of_fmap_2. }
    exists (target e s). split; [done|]. by apply Hg.
  - rewrite list_lookup_alter_ne in Him by done. specialize (Hi _ _ Him).
    case_decide as Hin; cbn in Hin.
    + destruct Hi as (e' & s & s' & He' & Ep & Hs & Hms & Hs' & E).
      apply elem_of_cons in He' as [->|He']; [done|].
      rewrite decide_True; [|rewrite <- Ep; by apply list_elem_of_fmap_2]. by exists e', s, s'.
    + rewrite decide_False; [done|]. intros H. apply Hin. by right.
Qed.

Lemma wp_apply_effect e l r w (Q : FaWorld → Prop) : Applying (e :: l) r → Q w →
  wp (apply_effect e r) (post_st (λ _ r' w', Applying l r' ∧ Q w') (λ x _ _, plain x)) w.
Proof.
  intros HA HQ. destruct e as [[[i index] quote] kind]. unfold apply_effect. apply wp_get_bind.
  destruct (rc_seats r !! i) as [m|] eqn:Hi; [|done]. apply wp_lift_bind; [|done]. intros m' [= <-].
  apply wp_lift_bind.
  2:{ intros x. unfold authorize_effect. destruct (ad_state _); [done|]. case_bool_decide; [done|].
      by intros [= <-]. }
  intros admission [-> _]%authorize_effect_Ok. apply wp_modify_bind.
  set (admission := effect_admission quote kind (sr_admission m)).
  case_bool_decide as Hrep.
  - destruct (sr_replacement_approved m); cbn [negb]; [|exact I]. split; [|done].
    change (Applying l (rc_update_seat i unreplaced_seat (rc_update_seat i (bound_seat admission) r))).
    assert (E : rc_update_seat i unreplaced_seat (rc_update_seat i (bound_seat admission) r)
      = rc_update_seat i (unreplaced_seat ∘ bound_seat admission) r).
    { unfold rc_update_seat. cbn. by rewrite alter_twice. }
    rewrite E. apply (Applying_next (i, index, quote, kind)); [done|].
    intros m' s Hm' Hms. cbn in Hm'. rewrite Hi in Hm'. injection Hm' as <-.
    destruct (mirror_row _ _ Hms) as (_ & _ & _ & _ & _ & _ & Er & _).
    unfold target. rewrite bool_decide_true by by rewrite <- Er.
    by apply mirror_unreplaced, mirror_bound.
  - split; [|done]. apply (Applying_next (i, index, quote, kind)); [done|].
    intros m' s Hm' Hms. cbn in Hm'. rewrite Hi in Hm'. injection Hm' as <-.
    destruct (mirror_row _ _ Hms) as (_ & _ & _ & _ & _ & _ & Er & _).
    unfold target. rewrite bool_decide_false by by rewrite <- Er. by apply mirror_bound.
Qed.

Lemma wp_apply_effects l r w (Q : FaWorld → Prop) : Applying l r → Q w →
  wp (for_each l apply_effect r) (post_st (λ _ r' w', Mirror r' f rows' ∧ Q w') safe) w.
Proof.
  intros HA HQ. eapply wp_st_mono.
  - apply (wp_for_each fa_id (λ l r w, Applying l r ∧ Q w)); [done|].
    intros e rest r' w' [H' HQ']. by apply wp_apply_effect.
  - intros _ r' w' _ [H' HQ']. split; [by apply Applying_done|done].
  - intros e r' w' _ He. by left.
Qed.

End Apply.


Definition WaveOk f rows (e : Effect) : Prop :=
  ∃ s q, rows !! effect_pos e = Some s ∧ e.1.1.2 = Z.of_nat (effect_pos e)
    ∧ ss_signed_quote s = Some q ∧ e.1.2 = quote_id (sq_terms q) ∧ e.2 = effect_of (sq_terms q)
    ∧ (e.2 = PaidOutput → ∃ au, sf_payment_authorization f = Some au ∧ member au (effect_pos e) q).

Lemma wave_touched f rows rows' l : (∀ e, e ∈ l → WaveOk f rows e) →
  rows_step (rewritten (λ x, Z.to_nat x.1.1) effect_row (wave l)) rows rows' →
  rows_step (touched l) rows rows'.
Proof.
  intros Hl Hs. eapply rows_step_impl; [exact Hs|]. intros i s s' Hi Hi' [[-> Hno]|(x & Hx & Ei & HR)].
  - left. split; [done|]. intros (e & -> & He)%list_elem_of_fmap. apply Hno.
    destruct (Hl e He) as (_ & _ & _ & Eix & _). apply list_elem_of_fmap.
    exists (e.1.1.2, e.1.2, e.2). split; [cbn; lia|]. apply list_elem_of_fmap. exists e.
    by destruct e as [[[]]].
  - right. apply list_elem_of_fmap in Hx as (e & -> & He). destruct (Hl e He) as (_ & _ & _ & Eix & _).
    exists e. destruct e as [[[p ix] q] k]. cbn in *. subst ix. rewrite Nat2Z.id in Ei.
    split_and!; [done|done|]. destruct HR as (x & t & _ & _ & _ & _ & _ & _ & ->). done.
Qed.

Lemma fence_hold f rows r t Q w (K : FaWorld → Prop) : Hold f rows r w →
  (∀ w, K w → FaInv fa_id w) → (∀ w w', quiet w w' → K w → K w') →
  (∀ now w' d' e, Hold f rows r w' → t now (w_db w') = Ok (d', e) → K (after w' d')) →
  (∀ w', K w' → Q tt w') →
  wp (ensure_time;; fenced t) (post Q (λ e w', safe e r w')) w.
Proof.
  intros HH K_inv K_quiet Ht HQ. apply wp_bind_M.
  apply (wp_calm fa_id (Hold f rows r)).
  - intros ?. apply Hold_inv.
  - intros ??. apply Hold_quiet.
  - apply calm_ensure_time.
  - done.
  - intros _ w1 _ H1. apply (wp_fenced fa_id (Hold f rows r)) with (K := K); try done.
    + intros ?. apply Hold_inv.
    + intros ??. apply Hold_quiet.
    + intros e w' _ H'. by eapply Hold_safe.
    + intros now w' d' e _. apply Ht.
    + intros w' _. by left.
  - intros e w' _ H'. by eapply Hold_safe.
Qed.

Lemma wp_authorize_wave f rows l provenance r w : Hold f rows r w →
  (∀ e, e ∈ l → WaveOk f rows e) → NoDup (effect_pos <$> l) →
  (∀ i s, rows !! i = Some s → is_Some (ss_replacement_for s) → i ∈ effect_pos <$> l) →
  wp (authorize_wave lease l provenance r)
    (post_st (λ _ r' w', ∃ rows', Hold f rows' r' w' ∧ rows_step (touched l) rows rows') safe) w.
Proof.
  intros HH Hl Hnd Hrep. pose proof (Hold_mirror _ _ _ _ _ HH) as Hm. destruct l as [|e0 l0].
  { exists rows. split; [done|]. split; [done|]. intros i s s' ??. left.
    split; [congruence|by intros ?%elem_of_nil]. }
  set (l := e0 :: l0) in *. unfold authorize_wave. fold l. apply wp_get_bind, wp_do_bind.
  rewrite (mi_id _ _ _ Hm).
  apply (fence_hold f rows r) with (K := λ w', ∃ rows', At f rows' w' ∧ unreserved f w'
    ∧ rows_step (touched l) rows rows').
  - done.
  - intros w' (rows' & HA & _). by eapply At_FaInv.
  - intros w1 w2 Hq (rows' & HA & Hu & Hs). exists rows'.
    split; [by eapply At_quiet|]. split; [by eapply unreserved_quiet|done].
  - intros now w' d' x (HA & _ & Hu) Hok. apply (effects_step fa_id f rows w' (wave l) provenance lease now d' x HA)
      in Hok as (rows' & Hs & HA').
    + exists rows'. split_and!; [done|exact Hu|by eapply wave_touched].
    + intros y (e & -> & He)%list_elem_of_fmap. destruct (Hl e He) as (s & q & Hi & Ei & _).
      exists (effect_pos e), s. destruct e as [[[]]]. by cbn in *.
    + intros y i s q (e & -> & He)%list_elem_of_fmap Hk Ei Hi Hq.
      destruct (Hl e He) as (s' & q' & Hi' & Ei' & Hq' & _ & _ & Hpaid).
      destruct e as [[[p ix] qq] k]. cbn in *. subst. rewrite Nat2Z.id in *. simplify_eq. by apply Hpaid.
    + intros i s Hi Hr. destruct (list_elem_of_fmap_1 _ _ _ (Hrep i s Hi Hr)) as (e & -> & He).
      exists (e.1.1.2, e.1.2, e.2). split.
      * apply list_elem_of_fmap. exists e. by destruct e as [[[]]].
      * destruct (Hl e He) as (_ & _ & _ & Ei & _). cbn. lia.
  - intros w' (rows' & HA & Hu & Hs). eapply wp_st_mono.
    + apply (wp_apply_effects f rows rows' l r w' (λ w', At f rows' w' ∧ unreserved f w')); [|done].
      by apply Applying_start.
    + intros _ r' w2 _ (Hm' & HA' & Hu'). exists rows'. by split.
    + done.
Qed.


(** ** Crossing the boundary *)

Section Cross.
Context (f : StoredFormation) (rows : list StoredSeat).
Context (funding : list Funding) (presenting : list Presenting) (terminal : list nat).
Hypothesis wf : Wf fa_id f rows.
Hypothesis funds : ∀ u, u ∈ funding → FundOk f rows u.
Hypothesis presents : ∀ p, p ∈ presenting → PresentOk rows p.
Hypothesis covers : (fu_position <$> funding) ++ (pn_position <$> presenting)
  ≡ₚ filter (λ i, i ∉ terminal) (seq 0 (length rows)).
Hypothesis terminals : ∀ i, i ∈ terminal → ∃ s, rows !! i = Some s
  ∧ is_Some (ss_signed_quote s) ∧ ad_state (ss_admission s) ≠ Fresh.

(** The effects of the wave. *)
Record Effects r (paid free : list Effect) : Prop := {
  ef_paid : ∀ e, e ∈ paid → ∃ u, u ∈ funding ∧ effect_pos e = fu_position u
    ∧ e.1.1.2 = Z.of_nat (effect_pos e) ∧ e.1.2 = quote_id (fu_verified u) ∧ e.2 = PaidOutput;
  ef_free : ∀ e, e ∈ free → ∃ p signed verified, p ∈ presenting
    ∧ pn_source p = AcquireFree signed verified ∧ effect_pos e = pn_position p
    ∧ e.1.1.2 = Z.of_nat (effect_pos e) ∧ e.1.2 = quote_id verified ∧ e.2 = FreePresentation;
  ef_funds : ∀ u, u ∈ funding → ∃ e, e ∈ paid ∧ effect_pos e = fu_position u
    ∧ e.1.2 = quote_id (fu_verified u) ∧ e.2 = PaidOutput;
  ef_presents : ∀ p signed verified, p ∈ presenting → pn_source p = AcquireFree signed verified →
    ∃ e, e ∈ free ∧ effect_pos e = pn_position p ∧ e.1.2 = quote_id verified
      ∧ e.2 = FreePresentation;
  ef_distinct : NoDup (effect_pos <$> paid ++ free)
}.

Lemma mirror_index r i m : Mirror r f rows → rc_seat r i = Ok m → sr_index m = Z.of_nat i.
Proof.
  intros Hm Hi. destruct (rc_seat_Ok _ _ _ _ _ Hm Hi) as (s & Hs & Hms).
  destruct (mirror_row _ _ Hms) as (-> & _). by eapply row_index.
Qed.

Lemma paid_effects_Ok r l paid : Mirror r f rows → paid_effects r l = Ok paid →
  Forall2 (λ u e, effect_pos e = fu_position u ∧ e.1.1.2 = Z.of_nat (effect_pos e)
     ∧ e.1.2 = quote_id (fu_verified u) ∧ e.2 = PaidOutput) l paid.
Proof.
  intros Hm H. apply collect_Ok in H. eapply Forall2_impl; [exact H|]. intros u e He. cbn in He.
  apply res_bind_Ok in He as (m & Hi & He). injection He as <-. cbn. by rewrite (mirror_index _ _ _ Hm Hi).
Qed.

Lemma free_effect_Ok r p o : Mirror r f rows → free_effect r p = Ok o →
  match pn_source p with
  | AcquireFree _ verified =>
      o = Some (pn_position p, Z.of_nat (pn_position p), quote_id verified, FreePresentation)
  | Existing _ => o = None
  end.
Proof.
  intros Hm H. unfold free_effect in H. destruct (pn_source p); [by injection H as <-|].
  apply res_bind_Ok in H as (m & Hi & H). injection H as <-. by rewrite (mirror_index _ _ _ Hm Hi).
Qed.

Lemma free_effects_sublist r l os : Mirror r f rows → Forall2 (λ p o, free_effect r p = Ok o) l os →
  (effect_pos <$> somes os) `sublist_of` (pn_position <$> l).
Proof.
  intros Hm H. induction H as [|p o l os Ho H IH]; [constructor|].
  apply free_effect_Ok in Ho; [|done]. destruct (pn_source p) as [acc|signed verified]; subst o; cbn.
  - by constructor.
  - by constructor.
Qed.

Lemma wave_Ok r paid free : Mirror r f rows → paid_effects r funding = Ok paid →
  free_effects r presenting = Ok free → Effects r paid free.
Proof.
  intros Hm Hp Hf. apply (paid_effects_Ok r) in Hp; [|done]. unfold free_effects in Hf.
  apply res_bind_Ok in Hf as (os & Hos & Hf). injection Hf as <-. apply collect_Ok in Hos. split.
  - intros e He. destruct (Forall2_elem_r _ _ _ _ Hp He) as (u & Hu & ?). by exists u.
  - intros e He%somes_elem. destruct (Forall2_elem_r _ _ _ _ Hos He) as (p & Hin & Ho).
    apply free_effect_Ok in Ho; [|done]. destruct (pn_source p) as [acc|signed verified] eqn:Es; [done|].
    injection Ho as ->. by exists p, signed, verified.
  - intros u Hu. destruct (Forall2_elem_l _ _ _ _ Hp Hu) as (e & He & ? & _ & ?). by exists e.
  - intros p signed verified Hin Es. destruct (Forall2_elem_l _ _ _ _ Hos Hin) as (o & Ho & Hfree).
    apply free_effect_Ok in Hfree; [|done]. rewrite Es in Hfree. subst o. eexists.
    by split; [apply somes_elem|].
  - rewrite fmap_app. eapply sublist_NoDup.
    2:{ apply sublist_app; [|by eapply free_effects_sublist]. reflexivity. }
    assert (effect_pos <$> paid = fu_position <$> funding) as ->.
    { symmetry. apply list_eq_Forall2, Forall2_fmap. eapply Forall2_impl; [exact Hp|]. by intros u e [-> _]. }
    rewrite covers. apply NoDup_filter, NoDup_seq.
Qed.

(** Every row is accepted, terminal or in the wave. *)
Lemma row_covered i s : rows !! i = Some s → is_Some (ss_seat_id s) ∨ i ∈ terminal
  ∨ (∃ u, u ∈ funding ∧ fu_position u = i)
  ∨ ∃ p signed verified, p ∈ presenting ∧ pn_position p = i ∧ pn_source p = AcquireFree signed verified.
Proof.
  intros Hi. destruct (decide (i ∈ terminal)) as [|Hno]; [by right; left|].
  assert (Hin : i ∈ (fu_position <$> funding) ++ (pn_position <$> presenting)).
  { rewrite covers. apply list_elem_of_filter. split; [done|]. apply elem_of_seq.
    split; [lia|]. by eapply lookup_lt_Some. }
  apply elem_of_app in Hin as [(u & -> & Hu)%list_elem_of_fmap|(p & -> & Hp)%list_elem_of_fmap].
  { right; right; left. by exists u. }
  destruct (presents p Hp) as (s' & Hs' & Hsrc). simplify_eq.
  destruct (pn_source p) as [acc|signed verified] eqn:Es; [by left|].
  right; right; right. by exists p, signed, verified.
Qed.

Lemma replaced_in_wave r paid free i s : Effects r paid free → rows !! i = Some s →
  is_Some (ss_replacement_for s) → i ∈ effect_pos <$> paid ++ free.
Proof.
  intros HE Hi Hr. pose proof (ro_consistent _ _ _ _ (wf_row _ _ _ wf _ _ Hi)) as Hc.
  destruct (row_covered i s Hi) as [Hs|[Ht|[(u & Hu & <-)|(p & sg & v & Hp & <- & Es)]]].
  - rewrite (co_accepted _ Hc Hs) in Hr. by destruct Hr.
  - destruct (terminals i Ht) as (s' & Hs' & Hq & Hb). simplify_eq. destruct Hb.
    by apply (co_approved _ Hc), (co_quoted _ Hc).
  - destruct (ef_funds _ _ _ HE u Hu) as (e & He & <- & _). apply list_elem_of_fmap_2, elem_of_app. by left.
  - destruct (ef_presents _ _ _ HE p _ _ Hp Es) as (e & He & <- & _).
    apply list_elem_of_fmap_2, elem_of_app. by right.
Qed.

Lemma wave_free_ok r paid free e : Effects r paid free → e ∈ free → WaveOk f rows e.
Proof.
  intros HE He. destruct (ef_free _ _ _ HE e He) as (p & sg & v & Hp & Es & Ep & Ei & Eq & Ek).
  destruct (presents p Hp) as (s & Hs & Hsrc). rewrite Es in Hsrc.
  destruct Hsrc as (Hseat & Hq & -> & Hfree & _). exists s, sg. rewrite Ep in *.
  split_and!; try done; [|congruence]. rewrite Ek. unfold effect_of. by rewrite Hfree.
Qed.
Lemma wave_paid_ok r paid free e : Effects r paid free → e ∈ paid → WaveOk f rows e.
Proof.
  intros HE He. destruct (ef_paid _ _ _ HE e He) as (u & Hu & Ep & Ei & Eq & Ek).
  destruct (funds u Hu) as (s & au & Hs & Hseat & Hq & Ev & Hp & _ & Ha & Hm & _).
  exists s, (fu_signed u). rewrite Ep in *. split_and!; try done; [congruence| |by eexists].
  by rewrite Ek, effect_of_paid.
Qed.

(** What the wave leaves behind. *)
Definition crossed (i : nat) s s' : Prop :=
  ss_seat_id s' = ss_seat_id s ∧ ss_signed_quote s' = ss_signed_quote s
  ∧ ss_locator s' = ss_locator s
  ∧ (ad_state (ss_admission s) ≠ Fresh → ad_state (ss_admission s') ≠ Fresh).
Definition bound_to rows' (i : nat) (t : QuoteTerms) (k : AdmissionEffect) : Prop :=
  ∃ s', rows' !! i = Some s' ∧ ad_state (ss_admission s') = EffectAuthorized (quote_id t) k.
Record Crossed f' rows' : Prop := {
  cr_rows : rows_step crossed rows rows';
  cr_record : f' = f ∨ f' = with_outputs_started f;
  cr_started : funding ≠ [] → sf_outputs_started f' = true;
  cr_funds : ∀ u, u ∈ funding → bound_to rows' (fu_position u) (fu_verified u) PaidOutput;
  cr_presents : ∀ p signed verified, p ∈ presenting → pn_source p = AcquireFree signed verified →
    bound_to rows' (pn_position p) verified FreePresentation
}.

Lemma target_state e s : ad_state (ss_admission (target e s)) = EffectAuthorized e.1.2 e.2.
Proof. unfold target. by case_bool_decide. Qed.
Lemma target_crossed i e s : crossed i s (target e s).
Proof. unfold target. by case_bool_decide. Qed.
Lemma crossed_touched rows1 rows2 l : rows_step (touched l) rows1 rows2 → rows_step crossed rows1 rows2.
Proof.
  intros Hs. eapply rows_step_impl; [exact Hs|]. intros i s s' _ _ [[-> _]|(e & _ & _ & ->)]; [done|].
  apply target_crossed.
Qed.
Lemma touched_bound rows1 rows2 l e s : rows_step (touched l) rows1 rows2 →
  NoDup (effect_pos <$> l) → e ∈ l → rows1 !! effect_pos e = Some s →
  rows2 !! effect_pos e = Some (target e s).
Proof.
  intros Hs Hnd He Hi. destruct (rows_step_back _ _ _ _ _ Hs Hi) as (s' & Hi' & [[-> Hno]|(e' & He' & Ep & ->)]).
  - destruct Hno. by apply list_elem_of_fmap_2.
  - rewrite Hi'. do 2 f_equal. by apply (NoDup_fmap_eq effect_pos l).
Qed.

Lemma Crossed_touched r paid free rows' : Effects r paid free →
  (funding ≠ [] → sf_outputs_started f = true) →
  rows_step (touched (paid ++ free)) rows rows' → Crossed f rows'.
Proof.
  intros HE Hst Hs. split; [by eapply crossed_touched|by left|done| |].
  - intros u Hu. destruct (ef_funds _ _ _ HE u Hu) as (e & He & Ep & Eq & Ek).
    destruct (funds u Hu) as (s & _ & Hi & _). rewrite <- Ep in *. exists (target e s). split.
    + eapply touched_bound; [exact Hs|apply HE|apply elem_of_app; by left|done].
    + by rewrite target_state, Eq, Ek.
  - intros p sg v Hp Es. destruct (ef_presents _ _ _ HE p _ _ Hp Es) as (e & He & Ep & Eq & Ek).
    destruct (presents p Hp) as (s & Hi & _). rewrite <- Ep in *. exists (target e s). split.
    + eapply touched_bound; [exact Hs|apply HE|apply elem_of_app; by right|done].
    + by rewrite target_state, Eq, Ek.
Qed.

Lemma wp_cross_wave r paid free provenance w : Hold f rows r w → Effects r paid free →
  (funding ≠ [] → sf_outputs_started f = true) →
  wp (authorize_wave lease (paid ++ free) provenance r)
    (post_st (λ _ r' w', ∃ f' rows', Hold f' rows' r' w' ∧ Crossed f' rows') safe) w.
Proof.
  intros HH HE Hst. eapply wp_st_mono; [apply (wp_authorize_wave f rows); [done| |apply HE|]| |done].
  - intros e [He|He]%elem_of_app; [by eapply wave_paid_ok|by eapply wave_free_ok].
  - intros i s Hi Hr. by eapply replaced_in_wave.
  - intros _ r' w' _ (rows' & H' & Hs). exists f, rows'. split; [done|]. by eapply Crossed_touched.
Qed.

(** Before the boundary the aggregate is exactly what is funded. *)
Lemma arms_touched r paid free rows1 rows2 au : sf_outputs_started f = false → terminal = [] →
  Effects r paid free → rows_step (touched free) rows rows1 → Wf fa_id f rows1 →
  sf_payment_authorization f = Some au → rows_step (arms (pa_quotes au)) rows1 rows2 →
  rows_step (touched paid) rows1 rows2.
Proof.
  intros Hst Hterm HE Hs1 Hw1 Ha Hs2. eapply rows_step_impl; [exact Hs2|]. intros i s s' Hi Hi' Harm.
  destruct (rows_step_lookup _ _ _ _ _ Hs1 Hi) as (s0 & Hi0 & Ht).
  assert (Hkeep : crossed i s0 s).
  { destruct Ht as [[-> _]|(e & _ & _ & ->)]; [done|apply target_crossed]. }
  destruct Harm as [[-> Hno]|(q & t & Hq & Hv & Hp & Hin & _ & ->)].
  - left. split; [done|]. intros (e & -> & He)%list_elem_of_fmap.
    destruct (ef_paid _ _ _ HE e He) as (u & Hu & Ep & _).
    destruct (funds u Hu) as (_ & au' & _ & _ & _ & _ & _ & _ & Ha' & Hm & _). simplify_eq.
    rewrite <- Ep in Hm. by apply (Hno _ Hm).
  - right. apply quote_verify_Some in Hv as ->. destruct Hkeep as (Eseat & Equote & _).
    rewrite Hq in Equote. symmetry in Equote.
    destruct (row_covered i s0 Hi0) as [Hseat|[Ht'|[(u & Hu & Ep)|(p & sg & v & Hpp & Ep & Es)]]].
    + pose proof (unstarted_free fa_id f rows i s0 q wf Hst Hi0 Hseat Equote) as E. rewrite E in Hp. by destruct Hp.
    + rewrite Hterm in Ht'. by apply elem_of_nil in Ht'.
    + destruct (ef_funds _ _ _ HE u Hu) as (e & He & Ep' & Eq & Ek). exists e.
      split_and!; [done|congruence|]. destruct (funds u Hu) as (s2 & _ & Hs2' & _ & Hq2 & Ev & _).
      assert (s2 = s0) as -> by congruence. assert (fu_signed u = q) as Esg by congruence.
      unfold target. rewrite (wf_unstarted _ _ _ Hw1 Hst i s Hi), Eq, Ek, Ev, Esg. done.
    + destruct (presents p Hpp) as (s2 & Hs2' & Hsrc). rewrite Es in Hsrc.
      destruct Hsrc as (_ & Hq2 & _ & Hfree & _). assert (s2 = s0) as -> by congruence.
      assert (sg = q) as -> by congruence. rewrite Hfree in Hp. by destruct Hp.
Qed.

Lemma Crossed_two r paid free rows1 rows2 : Effects r paid free →
  rows_step (touched free) rows rows1 → rows_step (touched paid) rows1 rows2 →
  Crossed (with_outputs_started f) rows2.
Proof.
  intros HE Hs1 Hs2. pose proof (ef_distinct _ _ _ HE) as Hnd. rewrite fmap_app in Hnd.
  apply NoDup_app in Hnd as (Hnp & Hdis & Hnf). split; [|by right|done| |].
  - split; [destruct Hs1 as [E1 _], Hs2 as [E2 _]; congruence|]. intros i s s2 Hi Hi2.
    apply crossed_touched in Hs1, Hs2. destruct (rows_step_back _ _ _ _ _ Hs1 Hi) as (s1 & Hi1 & C1).
    destruct Hs2 as [_ Hs2]. specialize (Hs2 _ _ _ Hi1 Hi2). destruct C1 as (? & ? & ? & ?), Hs2 as (? & ? & ? & ?).
    split_and!; [congruence..|auto].
  - intros u Hu. destruct (ef_funds _ _ _ HE u Hu) as (e & He & Ep & Eq & Ek).
    destruct (funds u Hu) as (s & _ & Hi & _). rewrite <- Ep in *.
    destruct (rows_step_back _ _ _ _ _ Hs1 Hi) as (s1 & Hi1 & _). exists (target e s1). split.
    + by eapply touched_bound.
    + by rewrite target_state, Eq, Ek.
  - intros p sg v Hp Es. destruct (ef_presents _ _ _ HE p _ _ Hp Es) as (e & He & Ep & Eq & Ek).
    destruct (presents p Hp) as (s & Hi & _). rewrite <- Ep in *. exists (target e s).
    assert (Hi1 : rows1 !! effect_pos e = Some (target e s)) by by eapply touched_bound.
    destruct (rows_step_back _ _ _ _ _ Hs2 Hi1) as (s2 & Hi2 & [[-> _]|(e' & He' & Ep' & _)]).
    + split; [done|]. by rewrite target_state, Eq, Ek.
    + destruct (Hdis (effect_pos e)); [rewrite <- Ep'|]; by apply list_elem_of_fmap_2.
Qed.

Lemma Mirror_started r rows' : Mirror r f rows' → Mirror (rc_set_started r) (with_outputs_started f) rows'.
Proof. intros Hm. split; cbn; try done; by apply Hm. Qed.

Lemma wp_start_outputs r r0 paid free rows1 provenance w : sf_outputs_started f = false →
  terminal = [] → Effects r0 paid free → Hold f rows1 r w → rows_step (touched free) rows rows1 →
  wp ((do (ensure_time;;
           fenced (record_payment_outputs_started (sf_formation_id f) provenance lease));;
       modify rc_set_started;; for_each paid apply_effect) r)
    (post_st (λ _ r' w', ∃ f' rows', Hold f' rows' r' w' ∧ Crossed f' rows') safe) w.
Proof.
  intros Hst Hterm HE HH Hs1. apply wp_do_bind. pose proof (Hold_wf _ _ _ _ _ HH) as Hw1.
  apply (fence_hold f rows1 r) with (K := λ w', ∃ rows', At (with_outputs_started f) rows' w'
    ∧ rows_step (touched paid) rows1 rows').
  - done.
  - intros w' (rows' & HA & _). by eapply At_FaInv.
  - intros w1 w2 Hq (rows' & HA & Hs). exists rows'. split; [by eapply At_quiet|done].
  - intros now w' d' x (HA & _) Hok.
    destruct (outputs_started_step _ _ _ _ _ _ _ _ _ HA Hst Hok) as (au & rows' & Ha & _ & Hs & HA').
    exists rows'. split; [done|]. by eapply arms_touched.
  - intros w' (rows' & HA & Hs). apply wp_modify_bind. eapply wp_st_mono.
    + apply (wp_apply_effects (with_outputs_started f) rows1 rows' paid (rc_set_started r) w'
        (λ w', At (with_outputs_started f) rows' w')); [|done].
      apply Applying_start; [by apply Mirror_started, (Hold_mirror _ _ _ _ _ HH)| |done].
      pose proof (ef_distinct _ _ _ HE) as Hnd. rewrite fmap_app in Hnd. by apply NoDup_app in Hnd as (? & _).
    + intros _ r' w2 _ (Hm' & HA'). exists (with_outputs_started f), rows'. split; [|by eapply Crossed_two].
      by split.
    + done.
Qed.

Lemma wp_cross_boundary r w : Hold f rows r w → (sf_outputs_started f = false → terminal = []) →
  wp (cross_boundary lease funding presenting r)
    (post_st (λ _ r' w', ∃ f' rows', Hold f' rows' r' w' ∧ Crossed f' rows') safe) w.
Proof.
  intros HH Hterm. unfold cross_boundary. apply wp_get_bind. pose proof (Hold_mirror _ _ _ _ _ HH) as Hm.
  eapply wp_lift_hold; [done|]. intros free Hfree. eapply wp_lift_hold; [done|]. intros paid Hpaid.
  pose proof (wave_Ok r paid free Hm Hpaid Hfree) as HE.
  eapply wp_hold; [done|by apply calm_ask|]. intros provenance w1 _ H1. rewrite (mi_started _ _ _ Hm).
  destruct (negb _ && _) eqn:Hbr.
  - apply andb_true_iff in Hbr as [Hst%negb_true_iff _]. apply wp_bind_St.
    eapply wp_st_mono; [apply (wp_authorize_wave f rows)| |done].
    + done.
    + intros e He. by eapply wave_free_ok.
    + pose proof (ef_distinct _ _ _ HE) as Hnd. rewrite fmap_app in Hnd. by apply NoDup_app in Hnd as (_ & _ & ?).
    + intros i s Hi [x E]. by rewrite (wf_unstarted _ _ _ wf Hst i s Hi) in E.
    + intros _ r1 w2 _ (rows1 & H2 & Hs1). rewrite (mi_id _ _ _ Hm). eapply wp_start_outputs; try done. by apply Hterm.
  - eapply wp_cross_wave; [done|done|]. intros Hf. apply andb_false_iff in Hbr as [Hb|Hb].
    + by apply negb_false_iff.
    + by apply bool_decide_eq_false in Hb.
Qed.

End Cross.


End Funding.
End Funding.
