(* ===== verification/FaWave.v ===== *)
(** * The wave: payments, presentations and terminal outcomes

    The end of [acquire_seats]: the funded rows are paid and presented one after
    the other, the free ones concurrently, and terminal quotes are released and
    dropped together; then the whole of it. *)

From S2P Require Import Prelude FaSchema FaQuotes FaStore FaProg FaCalls FaDriver FaFormation FaLogic FaInvariant FaViews FaWf FaReadable FaSteps FaCalm FaReserve FaPrepare FaAcquire FaFund.
From stdpp Require Import base gmap strings list.
From Stdlib Require Import ZArith Lia.
Open Scope Z_scope.

Module Waving.
Import Fa Quotes Store Run Calls Driver Formation Logic Inv Views WellFormed Readable Steps Calm Triples Reserving Preparing Acquiring Funding.

Section Waving.
Context {CR : Crypto} {PO : Policy}.
Variable fa_id : Z.
Variable lease : DriverLease.
Implicit Types (f : StoredFormation) (rows : list StoredSeat) (s : StoredSeat).
Implicit Types (tr : Trace) (w : FaWorld) (r : ActiveFormationRecovery) (a : Acquisition).

Abbreviation wp := (Logic.wp (FaInv fa_id) (allowed fa_id) Answers).
Abbreviation At := (Steps.At fa_id).
Abbreviation Hold := (Triples.Hold fa_id).
Abbreviation safe := (Triples.safe fa_id).

(** ** Paying a row *)

Section Wave.
Context (f1 : StoredFormation) (rows1 : list StoredSeat) (a1 : Acquisition).

(** A row whose payment may be started. *)
Definition Payer (u : Funding) : Prop :=
  Unique rows1 ∧ Bound rows1 (fu_position u) (fu_locator u) (fu_signed u)
  ∧ fu_verified u = sq_terms (fu_signed u) ∧ is_Some (qt_payment (fu_verified u))
  ∧ sf_outputs_started f1 = true
  ∧ sf_payment_reservation_id f1 = Some (rv_id (fu_reservation u))
  ∧ ∃ au, sf_payment_authorization f1 = Some au ∧ member au (fu_position u) (fu_signed u).

Lemma accepted_armed started s q : EffectOk started s → is_Some (ss_seat_id s) →
  ss_signed_quote s = Some q → is_Some (qt_payment (sq_terms q)) → armed s (sq_terms q).
Proof.
  unfold EffectOk. intros He Hs Hq Hp. rewrite Hq in He.
  destruct (ad_state (ss_admission s)) as [|id k] eqn:E; [rewrite He in Hs; by destruct Hs|].
  destruct He as [[<- <-] _]. split; [by exists q|]. by rewrite E, effect_of_paid.
Qed.

Lemma Payer_row u f rows : Payer u → Progress f1 rows1 f rows →
  ∃ s, rows !! fu_position u = Some s ∧ armed s (fu_verified u) ∧ ss_signed_quote s = Some (fu_signed u).
Proof.
  intros (_ & (s & Hs & _ & _ & Hq & Hst) & Ev & Hp & _) HP.
  destruct (Progress_lookup _ _ _ _ _ _ HP Hs) as (s' & Hs' & Hacc).
  destruct (accepting_keeps _ _ _ Hacc) as (_ & Eq & Ead & _). exists s'.
  rewrite Ev in Hp |- *. split; [done|]. split; [|congruence].
  split; [exists (fu_signed u); split; [congruence|done]|]. by rewrite Ead, Hst, effect_of_paid.
Qed.

Lemma paying u f rows r s w : Payer u → Progress f1 rows1 f rows → Hold f rows r w →
  rows !! fu_position u = Some s → ss_seat_id s = None →
  let c := Send (CreateSeatPayment (fu_reservation u) (fu_verified u)) in
  allowed fa_id c (w_db w) ∧ Hold f rows r (called c tt w).
Proof.
  intros HU HP (HA & Hm & Hu) Hs Hseat. destruct (Payer_row u f rows HU HP) as (s' & Hs' & Harm & Hq).
  assert (s' = s) as -> by congruence. destruct HU as (unique & _ & Ev & Hp & Hst & Hrv & au & Ha & Hmem).
  pose proof HP as [(p & Ef & _) _]. pose proof HA as [_ (Hv & _ & Hw & _)].
  assert (Hst' : sf_outputs_started f = true) by by rewrite Ef.
  split; cycle 1.
  - split; [|split; [done|by intros ?; rewrite Hst' in *]].
    apply At_pay; [done|done|done|by exists (fu_position u), s|].
    intros i s' q' Hi Hq' Et. destruct (ss_seat_id s') as [seat|] eqn:Hs2.
    + rewrite <- Et in Hp |- *. eapply accepted_armed; [apply (wf_row _ _ _ Hw _ _ Hi)|by eexists|done|done].
    + assert (i = fu_position u) as ->; [|congruence].
      eapply (Unique_progress f1 rows1 f rows HP unique i _ s' s q'); try done; [congruence..|].
      by rewrite Et, Ev.
  - exists f, rows, au, (fu_position u), s. rewrite Ef in Hv |- *. cbn. rewrite Ev. split_and!; try done. by rewrite <- Ev.
Qed.

Lemma wp_fund_seat u f rows r s w : Payer u → Progress f1 rows1 f rows → Hold f rows r w →
  rows !! fu_position u = Some s → ss_seat_id s = None →
  wp (fund_seat fa_id lease u)
    (post (λ c w', Hold f rows r w' ∧ presented fa_id (fu_signed u) c (w_trace w'))
          (λ e w', Hold f rows r w')) w.
Proof.
  intros HU HP HH Hs Hseat. assert (Hinv : ∀ w, Hold f rows r w → FaInv fa_id w) by apply Hold_inv.
  assert (Hq : ∀ w w', quiet w w' → Hold f rows r w → Hold f rows r w') by (intros; by eapply Hold_quiet).
  unfold fund_seat.
  apply (wp_plainly fa_id _ (Hold f rows r)); [done|done|by intros|apply plainly_ensure_time|done|].
  intros _ w1 H1. apply wp_bind_M.
  apply (wp_poll fa_id lease (CreateSeatPayment (fu_reservation u) (fu_verified u))
    (Hold f rows r) (Hold f rows r)); [done|done| | |by intros|done].
  - intros w2 H2. by eapply paying.
  - intros x w2 H2 _. set (w3 := called _ _ w2). assert (H3 : Hold f rows r w3) by by eapply Hq; [apply quiet_call|].
    split; [by apply Hinv|]. destruct x as [[]|prepared]; [exact H3|].
    eapply (wp_tell fa_id (InProgress fa_id f1 rows1)).
    + apply InProgress_inv.
    + apply InProgress_quiet.
    + eapply still_present; [by apply HU|]. split; [done|]. by apply HU.
    + exists f, rows. by split; [apply H3|].
    + intros c w4 Hq4 _ Hc. split; [by eapply Hq|done].
    + intros e w4 Hq4 _. by eapply Hq.
Qed.

(** The work of the wave. *)
Abbreviation Work := (Funding + Presenting)%type.
Definition work_pos (t : Work) : nat :=
  match t with inl u => fu_position u | inr p => pn_position p end.
Definition work_active (t : Work) : Prop :=
  match t with
  | inl _ => True
  | inr p => match pn_source p with Existing _ => False | AcquireFree _ _ => True end
  end.
Abbreviation Working := (Settling fa_id f1 rows1 work_pos work_active (λ _, False) a1).

Lemma wp_fund_seats l presenting x w : (∀ u, u ∈ l → Payer u) →
  Working ((inl <$> l) ++ (inr <$> presenting)) x w →
  wp (fund_seats fa_id lease l x)
    (post_st (λ _ y w', ∃ rest, Working ((inl <$> rest) ++ (inr <$> presenting)) y w'
                ∧ (rest = [] ∨ is_Some (aq_error y.2))) (λ e y, safe e y.1)) w.
Proof.
  revert x w. induction l as [|u l IH]; intros x w Hl HS; [by exists []; split; [|left]|].
  cbn [fund_seats]. pose proof HS as (_ & _ & _ & f & rows & HH & HP & Ht & _).
  destruct (Ht (inl u)) as (s & Hs & Hseat); [by left|done|].
  pose proof (Hl u ltac:(by left)) as HU. apply wp_do_bind, wp_try. eapply wp_weaken.
  { by apply (wp_fund_seat u f rows x.1 s). }
  assert (Hmove : ∀ w', later w w' → Hold f rows x.1 w' → Working ((inl <$> u :: l) ++ (inr <$> presenting)) x w').
  { intros w' Hl' HH'. by eapply Settling_moved. }
  intros [c|e|] w' Hw' H; cbn in H |- *; [| |done].
  - destruct H as [HH' Hc]. apply wp_bind_St. pose proof HU as (_ & (s1 & Hs1 & _ & _ & Hq1 & Hst1) & _).
    eapply wp_st_mono.
    + apply (wp_settle fa_id f1 rows1 work_pos work_active (λ _, False) a1 [] (inl u)
        ((inl <$> l) ++ (inr <$> presenting)) c x w' s1 (fu_signed u)); [by apply Hmove|done..|by rewrite Hst1|done].
    + intros [] y w2 _ [HS' He]; [apply IH; [by intros; apply Hl; right|done]|].
      exists l. split; [done|]. right. by apply He.
    + done.
  - destruct x as [r a]. exists l. split; [|right; by eexists].
    apply (Settling_fail fa_id f1 rows1 work_pos work_active (λ _, False) a1 [] (inl u)
      ((inl <$> l) ++ (inr <$> presenting)) (r, a)). by apply Hmove.
Qed.

(** ** Presenting the other rows *)

(** A row that is already accepted, or free and bound. *)
Definition Presenter (p : Presenting) : Prop :=
  match pn_source p with
  | Existing _ => ∃ s, rows1 !! pn_position p = Some s ∧ is_Some (ss_seat_id s)
  | AcquireFree signed verified =>
      Bound rows1 (pn_position p) (pn_locator p) signed ∧ verified = sq_terms signed
      ∧ qt_payment (sq_terms signed) = None
  end.

Definition present_result (p : Presenting) (x : res FaError (nat * SeatCreation * bool)) w : Prop :=
  match pn_source p with
  | Existing acceptance => x = Ok (pn_position p, CreationAccepted acceptance, false)
      ∧ ∃ s, rows1 !! pn_position p = Some s ∧ is_Some (ss_seat_id s)
  | AcquireFree signed _ =>
      Bound rows1 (pn_position p) (pn_locator p) signed
      ∧ match x with
        | Ok (i, c, b) => i = pn_position p ∧ b = true ∧ presented fa_id signed c (w_trace w)
        | _ => True
        end
  end.
Lemma present_result_stable p : stable (present_result p).
Proof.
  intros x w w' [l E]. unfold present_result. destruct (pn_source p); [done|].
  intros [HB H]. split; [done|]. destruct x as [[[i c] b]|e|]; [|done|done].
  destruct H as (-> & -> & H). split_and!; try done. rewrite E. by apply presented_later.
Qed.

Lemma still_present_row p w : Presenter p →
  Logic.still (allowed fa_id) Answers (InProgress fa_id f1 rows1) (present_result p)
    (present_row fa_id lease p) w.
Proof.
  unfold Presenter, present_result, present_row. destruct (pn_source p) as [acc|signed verified]; [done|].
  intros (HB & -> & Hfree). eapply still_mono.
  2:{ eapply (still_then fa_id (InProgress fa_id f1 rows1)) with (R' := λ x w, x.1.1 = pn_position p
        ∧ x.2 = true ∧ presented fa_id signed x.1.2 (w_trace w)); [by eapply still_present|].
      intros c w2 _ Hc. exact (conj eq_refl (conj eq_refl Hc)). }
  intros [[[j c] b]|e|] v _ H; split; try done.
Qed.

(** An accepted row needs nothing more. *)
Lemma Working_accepted pre t rest x w s : Working (pre ++ t :: rest) x w →
  rows1 !! work_pos t = Some s → is_Some (ss_seat_id s) → Working (pre ++ rest) x w.
Proof.
  intros (Hnd & HN & HG & f & rows & HH & HP & Ht & Hc) Hs Hseat.
  destruct (pos_middle _ _ _ _ Hnd) as (Hnd' & _ & Hmid). split; [done|]. split; [done|]. split; [done|].
  exists f, rows. split_and!; try done.
  - intros u Hu. apply Ht. apply elem_of_app in Hu as [|]; apply elem_of_app; [by left|right; by right].
  - intros i s' Hi. destruct (Hc i s' Hi) as [|[|[Hin|[|]]]]; auto.
    destruct (Hmid i Hin) as [->|]; [|auto]. left.
    destruct (Progress_lookup _ _ _ _ _ _ HP Hs) as (s2 & Hs2 & Ha). simplify_eq.
    by apply (accepting_keeps _ _ _ Ha).
Qed.

Lemma wp_present_seats l x w : (∀ p, p ∈ l → Presenter p) → Working (inr <$> l) x w →
  wp (present_seats fa_id lease l x) (post_st (λ _, Working []) (λ e y, safe e y.1)) w.
Proof.
  intros Hl HK. unfold present_seats. change ([] : list Work) with (inr <$> [] : list Work).
  eapply (wp_unordered fa_id (InProgress fa_id f1 rows1) present_result (λ l, Working (inr <$> l))).
  - apply InProgress_inv.
  - apply InProgress_quiet.
  - apply present_result_stable.
  - intros ????. apply Settling_quiet.
  - intros k y v (_ & _ & _ & f & rows & [HA _] & HP & _). by exists f, rows.
  - intros pre p rest b y v HS HR. unfold present_result in HR.
    rewrite fmap_app, fmap_cons in HS. rewrite fmap_app.
    destruct (pn_source p) as [acc|signed verified] eqn:Es.
    + destruct HR as (-> & s & Hs & Hseat). by eapply (Working_accepted _ (inr p)).
    + destruct HR as [HB HR]. assert (Hact : work_active (inr p)) by (cbn; by rewrite Es).
      pose proof (wp_settling fa_id f1 rows1 (λ _, False) a1 work_pos work_active (λ _, signed) (pn_locator p)
        (inr <$> pre) (inr p) (inr <$> rest)) as Hset.
      destruct b as [[[i c] b]|e|].
      * destruct HR as (-> & -> & Hc).
        specialize (Hset (Ok (pn_position p, c)) y v HS Hact (conj HB (conj eq_refl Hc))). by destruct c.
      * exact (Hset (Err e) y v HS Hact (conj HB I)).
      * done.
  - intros p w' Hin. by apply still_present_row, Hl.
  - exact HK.
Qed.

End Wave.

(** ** Terminal outcomes *)

(** The payment of the row, if it has one, was proved terminal and released. *)
Definition Ended rows (i : nat) tr : Prop :=
  ∀ s q, rows !! i = Some s → ss_signed_quote s = Some q → is_Some (qt_payment (sq_terms q)) →
    terminated fa_id (sq_terms q) tr.
Lemma Ended_later rows i w w' : later w w' → Ended rows i (w_trace w) → Ended rows i (w_trace w').
Proof. intros [l E] H s q Hs Hq Hp. rewrite E. by eapply terminated_later, H. Qed.

Definition Ending rows (proof : option Z) (i : nat) tr : Prop :=
  ∃ s q, rows !! i = Some s ∧ ss_signed_quote s = Some q
    ∧ (is_Some (qt_payment (sq_terms q)) →
       ∃ p, proof = Some p ∧ terminal_proof fa_id (sq_terms q) p tr).

Lemma still_release (J : FaWorld → Prop) proof w :
  Logic.still (allowed fa_id) Answers J
    (post (λ _ w, ∃ d, ECall (Recv (ReleaseSeatReservation proof)) (Some (inr tt)) d ∈ w_trace w) (λ _ _, True))
    (wallet_call lease (ReleaseSeatReservation proof) (λ x, x)) w.
Proof.
  apply (still_wallet_call _ _ _ (ReleaseSeatReservation proof)); [split; [exact I|split; [exact I|by intros]]|].
  intros x [] w1 _ _ _ E. cbn in x, E. subst x. exists (w_db w1). by left.
Qed.

Lemma wp_release_terminal f rows r i proof w : Hold f rows r w → Ending rows proof i (w_trace w) →
  wp (release_terminal_quote_reservation fa_id lease i proof r)
    (post_st (λ _ r' w', r' = r ∧ Hold f rows r w' ∧ Ended rows i (w_trace w')) safe) w.
Proof.
  intros HH (s & q & Hi & Hq & Hend). unfold release_terminal_quote_reservation. apply wp_get_bind.
  pose proof (Hold_mirror _ _ _ _ _ HH) as Hm.
  apply wp_lift_bind; [|by intros e ?%rc_seat_Err]. intros m Him.
  destruct (rc_seat_Ok _ _ _ _ _ Hm Him) as (s' & Hs' & Hms). assert (s' = s) as -> by congruence.
  destruct (mirror_row _ _ Hms) as (_ & El & _ & _ & Eq & _). rewrite Eq, Hq.
  eapply wp_lift_hold; [done|]. intros x [= <-]. eapply wp_lift_hold; [done|]. intros t Ht.
  apply verify_quote_Ok in Ht as [-> _].
  assert (Hfree : qt_payment (sq_terms q) = None → Ended rows i (w_trace w)).
  { intros E s' q' Hi' Hq' Hp. simplify_eq. rewrite E in Hp. by destruct Hp. }
  destruct (qt_payment (sq_terms q)) as [p|] eqn:Hp.
  2:{ destruct proof; [by left|]. split; [done|]. split; [done|by apply Hfree]. }
  destruct (Hend ltac:(by eexists)) as (pr & -> & Hproof). apply wp_lift_st.
  apply (wp_tell fa_id (Hold f rows r) (Hold_inv fa_id f rows r)
    (λ w w', Hold_quiet fa_id f rows r w w') _ _ _ _ _ (still_release _ pr w)); [done| |].
  - intros [] w' Hq' HH' [d Hd]. split; [done|]. split; [done|]. intros s' q' Hi' Hq2 _. simplify_eq.
    exists pr, d. split; [|done]. destruct (quiet_later _ _ Hq') as [l ->]. by apply terminal_proof_later.
  - intros e w' _ HH'. by eapply Hold_safe.
Qed.

Lemma armed_paid started s t : EffectOk started s → armed s t →
  ∃ q, ss_signed_quote s = Some q ∧ sq_terms q = t ∧ is_Some (qt_payment t).
Proof.
  unfold EffectOk. intros He [(q & Hq & <-) E]. rewrite E, Hq in He. destruct He as [[_ Hk] _].
  exists q. split_and!; [done..|]. unfold effect_of in Hk. destruct (qt_payment (sq_terms q)); [by eexists|done].
Qed.

Lemma expected_Ok f rows r (mark : bool) terminal l : Wf fa_id f rows → Mirror r f rows →
  collect (λ position,
    s ← rc_seat r position;
    signed ← expect (sr_signed_quote s);
    (if mark then ok_or Storage (quote_verify (service_pubkey (sr_locator s)) signed);; Ok tt
     else Ok tt);;
    Ok (sr_index s, signed)) terminal = Ok l →
  Forall2 (λ i x, x.1 = Z.of_nat i ∧ is_Some (rows !! i)) terminal l.
Proof.
  intros Hw Hm H%collect_Ok. eapply Forall2_impl; [exact H|]. intros i x Hx. cbn in Hx.
  apply res_bind_Ok in Hx as (m & Hi & Hx). apply res_bind_Ok in Hx as (q & _ & Hx).
  apply res_bind_Ok in Hx as ([] & _ & Hx). injection Hx as <-. cbn.
  destruct (rc_seat_Ok _ _ _ _ _ Hm Hi) as (s & Hs & Hms).
  destruct (mirror_row _ _ Hms) as (-> & _). split; [by eapply row_index|by eexists].
Qed.

Lemma foldl_started (g : ActiveFormationRecovery → nat → ActiveFormationRecovery) l r :
  (∀ r i, rc_outputs_started (g r i) = rc_outputs_started r) →
  rc_outputs_started (foldl g r l) = rc_outputs_started r.
Proof. intros Hg. revert r. induction l as [|i l IH]; intros r; cbn; [done|]. by rewrite IH, Hg. Qed.

Lemma wp_clear_terminal f rows r terminal w : Hold f rows r w → sf_outputs_started f = true →
  (∀ i, i ∈ terminal → Ended rows i (w_trace w)) →
  (∀ i s, rows !! i = Some s → is_Some (ss_seat_id s) ∨ i ∈ terminal) →
  wp (Driver.clear_terminal_quotes terminal r)
    (post_st (λ _ r' w', rc_outputs_started r' = true) safe) w.
Proof.
  intros HH Hst Hend Hall. unfold Driver.clear_terminal_quotes. apply wp_get_bind. cbv zeta.
  pose proof (Hold_mirror _ _ _ _ _ HH) as Hm. pose proof (Hold_wf _ _ _ _ _ HH) as Hw.
  eapply wp_lift_hold; [done|]. intros l Hl. apply (expected_Ok f rows) in Hl; [|done|done].
  rewrite (mi_started _ _ _ Hm), (mi_id _ _ _ Hm), Hst. apply wp_do_bind.
  apply (wp_tx fa_id (Hold f rows r)); [apply Hold_inv|intros; by eapply Hold_quiet|done| |].
  { intros e w' _ H' _. by eapply Hold_safe. }
  intros d' u Hok. destruct HH as (HA & _).
  destruct (clear_terminal_step fa_id f rows w l d' u HA Hst) as (rows' & _ & _ & _ & HA'); [| |done|].
  - intros x Hx. destruct (Forall2_elem_r _ _ _ _ Hl Hx) as (i & Hi & Ex & [s Hs]). exists i, s.
    split_and!; [done..|]. intros t Harm.
    destruct (armed_paid _ _ _ (ro_effect _ _ _ _ (wf_row _ _ _ Hw _ _ Hs)) Harm) as (q & Hq & <- & Hp).
    by apply (Hend i Hi s q).
  - intros i s Hs. destruct (Hall i s Hs) as [|Hi]; [by left|right].
    destruct (Forall2_elem_l _ _ _ _ Hl Hi) as (x & Hx & Ex & _). exists x. split; [done|]. rewrite Ex. lia.
  - split; [by eapply At_FaInv|]. cbn.
    destruct (replacement_requirements _ _); cbn; rewrite foldl_started; try done; cbn; by rewrite (mi_started _ _ _ Hm).
Qed.

Lemma wp_release_all f rows r a w : Hold f rows r w →
  (∀ i proof, (i, proof) ∈ aq_terminal a → Ending rows proof i (w_trace w)) →
  wp (for_each (aq_terminal a) (λ '(position, proof),
        on_recovery (release_terminal_quote_reservation fa_id lease position proof)) (r, a))
    (post_st (λ _ y w', y = (r, a) ∧ Hold f rows r w'
        ∧ ∀ i, i ∈ (aq_terminal a).*1 → Ended rows i (w_trace w')) (λ e y, safe e y.1)) w.
Proof.
  intros HH Hend. eapply wp_st_mono.
  - apply (wp_for_each fa_id (λ rest y w', y = (r, a) ∧ Hold f rows r w'
      ∧ (∀ i proof, (i, proof) ∈ aq_terminal a → Ending rows proof i (w_trace w'))
      ∧ (∀ x, x ∈ rest → x ∈ aq_terminal a)
      ∧ ∀ x, x ∈ aq_terminal a → x ∈ rest ∨ Ended rows x.1 (w_trace w')) (λ e y, safe e y.1)).
    + split_and!; try done. by left.
    + intros [i proof] rest y w1 (-> & H1 & He1 & Hin & Hd). apply wp_on_recovery.
      eapply wp_st_mono; [apply (wp_release_terminal f rows r i proof w1 H1)| |done].
      { apply He1, Hin. by left. }
      intros _ r' w2 Hl2 (-> & H2 & Hended). split_and!; try done.
      * intros j p Hj. destruct (He1 j p Hj) as (s & q & Hs & Hq & Hp). exists s, q. split_and!; try done.
        intros Hpay. destruct (Hp Hpay) as (x & -> & Hx). exists x. split; [done|].
        destruct Hl2 as [l ->]. by apply terminal_proof_later.
      * intros x Hx. apply Hin. by right.
      * intros x Hx. destruct (Hd x Hx) as [[->|]%elem_of_cons|]; [by right|by left|].
        right. by eapply Ended_later.
  - intros _ y w' _ (-> & HH' & _ & _ & Hd). split_and!; try done. intros i (x & -> & Hx)%list_elem_of_fmap.
    by destruct (Hd x Hx) as [?%elem_of_nil|].
  - done.
Qed.

Lemma Noted_ending f1 rows1 f rows a tr i proof : Noted fa_id f1 rows1 a tr →
  Progress f1 rows1 f rows → (i, proof) ∈ aq_terminal a → Ending rows proof i tr.
Proof.
  intros HN HP Hin. destruct (no_terminal _ _ _ _ _ HN i proof Hin) as (s & q & Hs & Hq & Hp).
  destruct (Progress_lookup _ _ _ _ _ _ HP Hs) as (s' & Hs' & Ha).
  destruct (accepting_keeps _ _ _ Ha) as (_ & Eq & _). exists s', q. split_and!; try done. congruence.
Qed.

Lemma wp_settle_terminal {T} f1 rows1 (pos : T → nat) active a1 x w :
  Settling fa_id f1 rows1 pos active (λ _, False) a1 [] x w → aq_error x.2 = None →
  (sf_outputs_started f1 = false → aq_terminal x.2 = [] ∧ aq_outcome x.2 = None) →
  wp (settle_terminal fa_id lease x)
    (post_st (λ _ y w', ∃ f rows, Hold f rows y.1 w' ∧ Progress f1 rows1 f rows ∧ created rows)
       (λ e y, safe e y.1)) w.
Proof.
  intros (_ & HN & _ & f & rows & HH & HP & _ & Hall) Herr Hun. destruct x as [r a]. cbn [fst snd] in *.
  assert (Hall' : ∀ i s, rows !! i = Some s → is_Some (ss_seat_id s) ∨ i ∈ (aq_terminal a).*1).
  { intros i s Hi. destruct (Hall i s Hi) as [|[|[?%elem_of_nil|[E|]]]]; auto; try done.
    rewrite Herr in E. by destruct E. }
  assert (Est : sf_outputs_started f = sf_outputs_started f1) by by destruct HP as [(p & -> & _) _].
  unfold settle_terminal. apply wp_get_bind, wp_bind_St.
  eapply wp_st_mono; [apply (wp_release_all f rows)|..]; [done|intros; by eapply Noted_ending| |done].
  intros _ y w1 _ (-> & H1 & Hend). assert (Hthrow : ∀ o r' w', sf_outputs_started f1 = true →
    rc_outputs_started r' = true → plain (into_formation_error (rc_outputs_started r') o)).
  { intros o r' w' _ ->. by destruct o. }
  case_bool_decide as Ht.
  - change (wp ((match aq_outcome a with
      | Some o => '(r, _) ← get; throw (into_formation_error (rc_outputs_started r) o)
      | None => mret tt end : St (ActiveFormationRecovery * Acquisition) unit) (r, a))
      (post_st (λ _ y w', ∃ f rows, Hold f rows y.1 w' ∧ Progress f1 rows1 f rows ∧ created rows)
       (λ e y, safe e y.1)) w1).
    destruct (aq_outcome a) as [o|].
    + left. pose proof (mi_started _ _ _ (Hold_mirror _ _ _ _ _ H1)) as E.
      destruct (sf_outputs_started f1) eqn:Hst; [|by destruct (Hun eq_refl)].
      apply Hthrow; [done..|]. cbn. by rewrite E, Est.
    + exists f, rows. split_and!; try done. apply Forall_lookup. intros i s Hi.
      destruct (Hall' i s Hi) as [|Hin]; [done|]. rewrite Ht in Hin. by apply elem_of_nil in Hin.
  - assert (Hst : sf_outputs_started f1 = true).
    { destruct (sf_outputs_started f1) eqn:Hst; [done|]. by destruct (Hun eq_refl). }
    apply wp_bind_St, wp_on_recovery. eapply wp_st_mono; [apply (wp_clear_terminal f rows)|..];
      [done|by rewrite Est|done|done| |done].
    intros u r' w2 Hw2 Hr'. destruct (no_outcome _ _ _ _ _ HN Ht) as [o ->]. left. by apply (Hthrow o r' w2).
Qed.

(** ** The reservation of the run *)

(** The run holds the recorded reservation, or nothing is left to pay. *)
Definition HeldOk (held : option PaymentReservation) f rows : Prop :=
  match held with
  | Some rv => sf_payment_reservation_id f = Some (rv_id rv) ∧ Unique rows
  | None => ∀ i t, ¬ Payable f rows i t
  end.

Lemma Payable_back f1 rows1 f rows i t : Progress f1 rows1 f rows → Payable f rows i t → Payable f1 rows1 i t.
Proof.
  intros [(p & -> & _) Hs] (s & q & au & Hi & Hseat & H). destruct (rows_step_lookup _ _ _ _ _ Hs Hi) as (s1 & Hi1 & Ha).
  destruct Ha as [->|(? & ? & ->)]; [|done]. by exists s1, q, au.
Qed.
Lemma HeldOk_progress held f1 rows1 f rows : Progress f1 rows1 f rows → HeldOk held f1 rows1 → HeldOk held f rows.
Proof.
  intros HP. destruct held as [rv|]; cbn.
  - intros [Hr HU]. split; [by destruct HP as [(p & -> & _) _]|by eapply Unique_progress].
  - intros Hno i t Ht. by eapply Hno, Payable_back.
Qed.

(** What is left to pay is in the requirements. *)
Lemma Payable_requirements f rows acc i t o : Wf fa_id f rows → Payable f rows i t →
  requirements_in fa_id f rows acc = Ok o → is_Some o.
Proof.
  intros Hw (s & q & au & Hi & Hseat & Hq & <- & Hp & Ha & _) Ho. destruct o as [x|]; [by eexists|].
  apply payment_requirements_Ok in Ho as [Hwant|He]; exfalso.
  - apply existsb_exists in Hwant as (m & Hm & Hwant). apply list_elem_of_In, list_elem_of_fmap in Hm as (s' & -> & Hs').
    apply list_elem_of_lookup_1 in Hs' as [j Hj]. unfold wanting in Hwant. apply bool_decide_eq_true in Hwant.
    cbn in Hwant. destruct Hwant as [H1 H2].
    destruct (ao_complete _ _ _ (wf_auth _ _ _ Hw au Ha) j s' Hj) as [[? E]|[? E]]; congruence.
  - destruct (entry_some acc s q Hseat Hq Hp) as (e & Hent & _).
    apply (elem_of_nil (A:=SeatPaymentRequirement) e). rewrite <- He. apply list_elem_of_omap. exists (row_recovery s).
    split; [|done]. apply list_elem_of_fmap_2. by eapply list_elem_of_lookup_2.
Qed.

Definition hold_reservation (q : option PaymentRequirements) (r : ActiveFormationRecovery)
    : St (ActiveFormationRecovery * Acquisition) (option PaymentReservation) :=
  match q with
  | Some q =>
      if payments_authorized r q
      then reservation ← on_recovery (reserve_payment_requirements fa_id lease q);
           mret (Some reservation)
      else mret None
  | None => mret None
  end.

Lemma wp_hold_reservation f rows r q a w : Hold f rows r w → Open f →
  recovery_requirements fa_id r = Ok q →
  wp (hold_reservation q r (r, a))
    (post_st (λ held y w', y.2 = a ∧ ∃ f', Hold f' rows y.1 w' ∧ Open f' ∧ HeldOk held f' rows)
       (λ e y, safe e y.1)) w.
Proof.
  intros HH Ho Hq. pose proof (Hold_mirror _ _ _ _ _ HH) as Hm. pose proof (Hold_wf _ _ _ _ _ HH) as Hw.
  assert (Hreq := Hq). rewrite (Mirror_recovery _ _ _ _ Hm) in Hreq.
  assert (Hnone : (∀ x, q = Some x → payments_authorized r x = false) →
    ∃ f', Hold f' rows r w ∧ Open f' ∧ HeldOk None f' rows).
  { intros Hno. exists f. split_and!; [done..|]. intros i t Ht.
    destruct (Payable_requirements _ _ _ _ _ _ Hw Ht Hreq) as [x ->].
    pose proof Ht as (_ & _ & au & _ & _ & _ & _ & _ & Ha & _). specialize (Hno x eq_refl).
    apply (Mirror_authorized fa_id r) in Hreq; [congruence|done|done|by eexists|].
    destruct (sf_payment_reservation_id f); [by right|by left]. }
  destruct q as [q|]; cbn [hold_reservation]; [|split; [done|by apply Hnone]].
  destruct (payments_authorized r q) eqn:Hauth; [|split; [done|apply Hnone; by intros x [= <-]]].
  apply wp_bind_St, wp_on_recovery. eapply wp_st_mono; [by apply (wp_reserve fa_id lease f rows)| |done].
  intros rv r' w' _ (Eid & Hnd & HH'). split; [done|]. eexists. split; [exact HH'|]. split; [done|].
  split; [cbn; by rewrite Eid|]. by eapply requirements_unique.
Qed.

(** ** What is left to fund *)

Definition needs_funding r (recovered : list (option SeatPaymentRecovery)) : bool :=
  existsb (λ '(s, v), bool_decide (sr_seat_id s = None) && not_started v) (zip (rc_seats r) recovered).

Lemma funding_held r f rows recovered held : Mirror r f rows → Startable f rows recovered →
  HeldOk held f rows → needs_funding r recovered = true → is_Some held.
Proof.
  intros Hm HS Hheld H. destruct held as [rv|]; [by eexists|]. exfalso.
  apply existsb_exists in H as ([m v] & Hin & H). apply list_elem_of_In, list_elem_of_lookup_1 in Hin as [i Hi].
  rewrite lookup_zip_with in Hi. destruct (rc_seats r !! i) as [m'|] eqn:Him; [|done]. cbn in Hi.
  destruct (recovered !! i) as [v'|] eqn:Hv; [|done]. cbn in Hi. injection Hi as -> ->.
  apply andb_true_iff in H as [Hseat%bool_decide_eq_true Hns]. destruct v as [[]|]; try done.
  destruct (HS _ _ Hv) as (_ & s & q & Hs & Hq & Hp & au & Ha & Hmem).
  destruct (mirror_lookup _ _ _ _ _ Hm Him) as (s' & Hs' & Hms). assert (s' = s) as -> by congruence.
  destruct (mirror_row _ _ Hms) as (_ & _ & Es & _). rewrite Es in Hseat.
  apply (Hheld i (sq_terms q)). by exists s, q, au.
Qed.

Definition refresh_payments r (recovered : list (option SeatPaymentRecovery))
    : St (ActiveFormationRecovery * Acquisition) (list (option (SignedQuote * QuoteTerms))) :=
  if negb (needs_funding r recovered) then mret (replicate (length (rc_seats r)) None)
  else match rc_payment_federation_id r with
       | None => throw (SelectionReauthorizationRequired PaymentFederationRequired None)
       | Some requested =>
           payer ← lift_st (require_setup_payment_federation lease requested);
           on_recovery (refresh_unstarted_payments fa_id lease recovered payer)
       end.

Lemma wp_refresh_payments f rows r recovered held a w : Hold f rows r w → Startable f rows recovered →
  HeldOk held f rows →
  wp (refresh_payments r recovered (r, a))
    (post_st (λ l y w', y = (r, a) ∧ Hold f rows r w' ∧ Journaled rows recovered l
        ∧ (existsb (λ v, bool_decide (is_Some v)) l = true → is_Some held)) (λ e y, safe e y.1)) w.
Proof.
  intros HH HS Hheld. pose proof (Hold_mirror _ _ _ _ _ HH) as Hm. unfold refresh_payments.
  destruct (needs_funding r recovered) eqn:Hneed; cbn [negb].
  2:{ split_and!; try done.
      - intros i x Hi. by apply lookup_replicate in Hi as [? _].
      - intros H. apply existsb_exists in H as (v & Hv%list_elem_of_In & Hb). apply elem_of_replicate in Hv as [-> _].
        by apply bool_decide_eq_true in Hb as [? ?]. }
  pose proof (funding_held _ _ _ _ _ Hm HS Hheld Hneed) as Hsome.
  assert (Hrv : is_Some (sf_payment_reservation_id f)).
  { destruct Hsome as [rv ->]. destruct Hheld as [-> _]. by eexists. }
  destruct (rc_payment_federation_id r) as [requested|]; [|by eapply Hold_safe].
  apply wp_do_bind. apply (wp_calm fa_id (Hold f rows r)); [apply Hold_inv|intros; by eapply Hold_quiet|apply calm_require_payer|done| |].
  - intros payer w' _ H'. apply wp_on_recovery.
    eapply wp_st_mono; [by apply (wp_refresh_unstarted fa_id lease f rows)| |done].
    by intros l r' w2 _ (-> & -> & HJ).
  - intros e w' _ H'. by eapply Hold_safe.
Qed.

Definition fund_from held (will_generate : bool)
    : St (ActiveFormationRecovery * Acquisition) (option PaymentReservation) :=
  if will_generate
  then reservation ← on_recovery (funding_reservation fa_id lease held); mret (Some reservation)
  else mret None.

Lemma wp_fund_from f rows x held (b : bool) w : Hold f rows x.1 w → HeldOk held f rows →
  (b = true → is_Some held) →
  wp (fund_from held b x)
    (post_st (λ o y w', y = x ∧ Hold f rows x.1 w'
        ∧ ∀ rv, o = Some rv → sf_payment_reservation_id f = Some (rv_id rv)) (λ e y, safe e y.1)) w.
Proof.
  intros HH Hheld Hb. destruct x as [r a]. cbn [fst] in *. destruct b; cbn [fund_from]; [|by split_and!].
  destruct (Hb eq_refl) as [rv ->]. destruct Hheld as [Hrv _].
  apply wp_bind_St, wp_on_recovery. unfold funding_reservation. apply wp_get_bind.
  do 2 (apply wp_lift_bind; [intros ? _|intros e _; by eapply Hold_safe]).
  split_and!; try done. by intros ? [= <-].
Qed.

(** ** The wave *)

Lemma Noted_keep R f f' rows rows' a tr : Noted fa_id f rows a tr → rows_step R rows rows' →
  (∀ i s s', R i s s' → ss_signed_quote s' = ss_signed_quote s
     ∧ (ad_state (ss_admission s) ≠ Fresh → ad_state (ss_admission s') ≠ Fresh)) →
  (sf_outputs_started f' = false → sf_outputs_started f = false) → Noted fa_id f' rows' a tr.
Proof.
  intros [F1 F2 F3 F4] Hs HR Hst. split; [| |done|by auto].
  - intros i proof Hin. destruct (F1 i proof Hin) as (s & q & Hi & Hq & Hp).
    destruct (rows_step_back _ _ _ _ _ Hs Hi) as (s' & Hi' & Hr). destruct (HR _ _ _ Hr) as [Eq _].
    exists s', q. split_and!; try done. congruence.
  - intros i proof s' Hin Hi'. destruct (rows_step_lookup _ _ _ _ _ Hs Hi') as (s & Hi & Hr).
    by apply (HR _ _ _ Hr), (F2 i proof s).
Qed.
Lemma Noted_progress f1 rows1 f rows a tr : Progress f1 rows1 f rows → Noted fa_id f1 rows1 a tr →
  Noted fa_id f rows a tr.
Proof.
  intros [(p & -> & _) Hs] HN. eapply Noted_keep; [done|exact Hs| |done].
  intros i s s' Ha. by destruct (accepting_keeps _ _ _ Ha) as (_ & -> & -> & _).
Qed.

Section Crossing.
Context (f : StoredFormation) (rows : list StoredSeat) (held : option PaymentReservation).
Context (funding : list Funding) (presenting : list Presenting) (a : Acquisition).
Hypothesis funds : ∀ u, u ∈ funding → FundOk f rows u.
Hypothesis presents : ∀ p, p ∈ presenting → PresentOk rows p.
Hypothesis covers : (fu_position <$> funding) ++ (pn_position <$> presenting)
  ≡ₚ filter (λ i, i ∉ (aq_terminal a).*1) (seq 0 (length rows)).
Hypothesis held_ok : HeldOk held f rows.
Context (f' : StoredFormation) (rows' : list StoredSeat).
Hypothesis crossing : Crossed f rows funding presenting f' rows'.

Lemma crossed_row i s : rows !! i = Some s → ∃ s', rows' !! i = Some s' ∧ crossed i s s'.
Proof. intros Hi. by apply (rows_step_back _ _ _ _ _ (cr_rows _ _ _ _ _ _ crossing)). Qed.

Lemma crossed_bound i s q l : rows !! i = Some s → ss_seat_id s = None → ss_signed_quote s = Some q →
  ss_locator s = l → bound_to rows' i (sq_terms q) (effect_of (sq_terms q)) → Bound rows' i l q.
Proof.
  intros Hi Hseat Hq Hl (s' & Hi' & Hst). destruct (crossed_row i s Hi) as (s2 & Hi2 & E1 & E2 & E3 & _).
  assert (s2 = s') as -> by congruence. exists s'. split_and!; congruence.
Qed.

Lemma crossed_unique : Unique rows → Unique rows'.
Proof.
  intros HU i j s s' q q' Hi Hj Hs Hs' Hq Hq' Hp Hp' E.
  destruct (rows_step_lookup _ _ _ _ _ (cr_rows _ _ _ _ _ _ crossing) Hi) as (t & Ht & E1 & E2 & _).
  destruct (rows_step_lookup _ _ _ _ _ (cr_rows _ _ _ _ _ _ crossing) Hj) as (t' & Ht' & E1' & E2' & _).
  apply (HU i j t t' q q'); congruence.
Qed.

Lemma crossed_payer u : u ∈ funding → Payer f' rows' u.
Proof.
  intros Hu. destruct (funds u Hu) as (s & au & Hs & Hseat & Hq & Ev & Hp & El & Ha & Hm & Hrv).
  pose proof (cr_funds _ _ _ _ _ _ crossing u Hu) as Hb. rewrite Ev in Hb.
  assert (HU : Unique rows).
  { destruct held as [rv|]; [apply held_ok|]. destruct (held_ok (fu_position u) (sq_terms (fu_signed u))).
    by exists s, (fu_signed u), au. }
  split; [by apply crossed_unique|].
  split; [by eapply crossed_bound; [done..|rewrite effect_of_paid]|].
  split; [done|]. split; [by rewrite Ev|]. split.
  { apply (cr_started _ _ _ _ _ _ crossing). intros E. rewrite E in Hu. by apply elem_of_nil in Hu. }
  destruct (cr_record _ _ _ _ _ _ crossing) as [->| ->]; (split; [done|by exists au]).
Qed.

Lemma crossed_presenter p : p ∈ presenting → Presenter rows' p.
Proof.
  intros Hp. destruct (presents p Hp) as (s & Hs & Hsrc). unfold Presenter.
  destruct (pn_source p) as [acc|signed verified] eqn:Es.
  - destruct (crossed_row _ _ Hs) as (s' & Hs' & E & _). exists s'. by rewrite E.
  - destruct Hsrc as (Hseat & Hq & -> & Hfree & El). split_and!; try done.
    eapply crossed_bound; try done. pose proof (cr_presents _ _ _ _ _ _ crossing p _ _ Hp Es) as Hb.
    unfold effect_of. by rewrite Hfree.
Qed.

Lemma crossed_working r w : Hold f' rows' r w → Open f → Noted fa_id f rows a (w_trace w) →
  Settling fa_id f' rows' work_pos work_active (λ _, False) a
    ((inl <$> funding) ++ (inr <$> presenting)) (r, a) w.
Proof.
  intros HH Ho HN.
  assert (Epos : work_pos <$> (inl <$> funding) ++ (inr <$> presenting)
    = (fu_position <$> funding) ++ (pn_position <$> presenting)).
  { by rewrite fmap_app, <- !list_fmap_compose. }
  split; [rewrite Epos, covers; apply NoDup_filter, NoDup_seq|]. split.
  { eapply Noted_keep; [exact HN|apply crossing| |].
    - intros i s s' (_ & Eq & _ & Hb). by split.
    - by destruct (cr_record _ _ _ _ _ _ crossing) as [->| ->]. }
  split; [by split_and!|]. exists f', rows'. split; [done|]. split; [|split].
  - apply Progress_refl. by destruct (cr_record _ _ _ _ _ _ crossing) as [->| ->].
  - intros t [(u & -> & Hu)%list_elem_of_fmap|(p & -> & Hp)%list_elem_of_fmap]%elem_of_app Hact.
    + destruct (funds u Hu) as (s & _ & Hs & Hseat & _). destruct (crossed_row _ _ Hs) as (s' & Hs' & E & _).
      exists s'. by rewrite E.
    + destruct (presents p Hp) as (s & Hs & Hsrc). cbn in Hact.
      destruct (crossed_row _ _ Hs) as (s' & Hs' & E & _). exists s'. rewrite E.
      destruct (pn_source p); [done|]. by destruct Hsrc.
  - intros i s' Hi. right. rewrite Epos, covers. destruct (decide (i ∈ (aq_terminal a).*1)) as [|Hno]; [by left|].
    right; left. apply list_elem_of_filter. split; [done|]. apply elem_of_seq. split; [lia|].
    destruct (cr_rows _ _ _ _ _ _ crossing) as [El _]. apply lookup_lt_Some in Hi. cbn. lia.
Qed.

End Crossing.

(** Every row is accepted. *)
Definition Acquired (sessions : list (Z * Locator * Z)) r w : Prop :=
  ∃ f rows, Hold f rows r w ∧ Open f ∧ created rows ∧ length sessions = length rows.

Definition finish_wave (funding : list Funding) (presenting : list Presenting)
    : St (ActiveFormationRecovery * Acquisition) (list (Z * Locator * Z)) :=
  fund_seats fa_id lease funding;;
  '(_, a) ← get;
  match aq_error a with
  | Some e => throw e
  | None =>
      present_seats fa_id lease presenting;;
      barrier;;
      settle_terminal fa_id lease;;
      '(r, _) ← get;
      lift_st (lift (collect (λ m, seat_id ← ok_or Storage (sr_seat_id m);
                                   Ok (sr_index m, sr_locator m, seat_id)) (rc_seats r)))
  end.

Lemma wp_finish_wave f rows a funding presenting x w : (∀ u, u ∈ funding → Payer f rows u) →
  (∀ p, p ∈ presenting → Presenter rows p) →
  Settling fa_id f rows work_pos work_active (λ _, False) a
    ((inl <$> funding) ++ (inr <$> presenting)) x w →
  wp (finish_wave funding presenting x)
    (post_st (λ l y, Acquired l y.1) (λ e y, safe e y.1)) w.
Proof.
  intros Hf Hp HS. apply wp_bind_St. eapply wp_st_mono; [by apply (wp_fund_seats f rows a)| |done].
  intros _ [r1 a1] w1 _ (rest & HS1 & Hrest). apply wp_get_bind.
  destruct (aq_error a1) as [e|] eqn:He.
  { destruct HS1 as (_ & _ & _ & f2 & rows2 & HH2 & _). by eapply Hold_safe. }
  destruct Hrest as [->|[? E]]; [|cbn in E; congruence].
  apply wp_bind_St. eapply wp_st_mono; [by apply (wp_present_seats f rows a presenting)| |done].
  intros u y w2 Hw2 HS2. pose proof HS2 as (_ & HN & _ & f2 & rows2 & HH2 & HP2 & _).
  assert (Est : sf_outputs_started f2 = sf_outputs_started f) by by destruct HP2 as [(p & -> & _) _].
  eapply wp_barrier; [exact HH2|exact HN|done|]. intros Herr Hun.
  apply wp_bind_St. eapply wp_st_mono.
  { apply (wp_settle_terminal f rows work_pos work_active a); [done|done|]. by rewrite <- Est. }
  2: done.
  intros _ [r3 a3] w3 _ (f3 & rows3 & HH3 & HP3 & Hc). apply wp_get_bind. apply wp_lift_end.
  - intros l Hl. exists f3, rows3. split_and!; [done|by eapply Progress_open|done|].
    apply collect_Ok, Forall2_length in Hl. rewrite <- Hl. by eapply mirror_length, Hold_mirror.
  - intros e _. by eapply Hold_safe.
Qed.

Definition run_wave r recovered refreshed reservation terminal
    : St (ActiveFormationRecovery * Acquisition) (list (Z * Locator * Z)) :=
  '(funding, presenting) ←
    on_recovery (prepare_rows fa_id lease terminal recovered refreshed reservation
                   (seq 0 (length (rc_seats r))));
  on_recovery (cross_boundary lease funding presenting);;
  finish_wave funding presenting.

Lemma wp_run_wave f rows r0 r a recovered refreshed reservation held w : Hold f rows r w → Open f →
  length (rc_seats r0) = length rows →
  Startable f rows recovered → Journaled rows recovered refreshed → HeldOk held f rows →
  (∀ rv, reservation = Some rv → sf_payment_reservation_id f = Some (rv_id rv)) →
  Noted fa_id f rows a (w_trace w) →
  (sf_outputs_started f = false → aq_terminal a = []) →
  wp (run_wave r0 recovered refreshed reservation (aq_terminal a).*1 (r, a))
    (post_st (λ l y, Acquired l y.1) (λ e y, safe e y.1)) w.
Proof.
  intros HH Ho Hlen HS HJ Hheld Hrv HN Hun. apply wp_bind_St, wp_on_recovery.
  eapply wp_st_mono; [by apply (wp_prepare_rows fa_id lease f rows)| |done].
  intros [funding presenting] r1 w1 Hl1 (H1 & Hf & Hp & Hcov). cbn [fst snd] in *. rewrite Hlen in Hcov.
  assert (HN1 : Noted fa_id f rows a (w_trace w1)) by by eapply Noted_later.
  apply wp_bind_St, wp_on_recovery. eapply wp_st_mono.
  { apply (wp_cross_boundary fa_id lease f rows funding presenting (aq_terminal a).*1 (Hold_wf _ _ _ _ _ HH) Hf Hp Hcov);
      [|done|intros Hst; by rewrite (Hun Hst)].
    intros i ([j proof] & -> & Hin)%list_elem_of_fmap.
    destruct (no_terminal _ _ _ _ _ HN _ _ Hin) as (s & q & Hs & Hq & _). exists s.
    split_and!; [done|by eexists|]. by eapply no_bound. }
  2: done.
  intros _ r2 w2 Hl2 (f' & rows' & H2 & HC). apply (wp_finish_wave f' rows' a).
  - intros u Hu. by eapply (crossed_payer f rows held funding presenting).
  - intros p Hp'. by eapply (crossed_presenter f rows funding presenting).
  - eapply (crossed_working f rows funding presenting); try done. by eapply Noted_later.
Qed.

(** ** Acquiring the seats *)

Definition fresh_acquisition (n : nat) : Acquisition :=
  {| aq_recovered := replicate n None; aq_error := None; aq_outcome := None; aq_terminal := [] |}.

Lemma fresh_recovering f rows r l w : Hold f rows r w → (∀ x, x ∈ l → Payable f rows x.1.1 x.2) →
  Recovering fa_id f rows r l (r, fresh_acquisition (length rows)) w.
Proof.
  intros HH Hl. split_and!; try done.
  - split; cbn; [by rewrite length_replicate|]. intros i v Hi. by apply lookup_replicate in Hi as [? _].
  - split; cbn; try done; [by intros ?? ?%elem_of_nil|by intros ??? ?%elem_of_nil|by left].
Qed.

Lemma replay_start f rows r a l w : Hold f rows r w → Open f → Noted fa_id f rows a (w_trace w) →
  NoDup (replay_pos <$> l) → (∀ t, t ∈ l → replay_ok rows t) →
  Settling fa_id f rows replay_pos (λ _, True) (λ _, True) a l (r, a) w.
Proof.
  intros HH Ho HN Hnd Hl. split_and!; try done. exists f, rows. split_and!; try done.
  - by apply Progress_refl.
  - intros t Ht _. pose proof (Hl t Ht) as Hok. destruct t as [[[[i l'] sg] v] p].
    destruct Hok as [_ (s & Hs & Hseat & _)]. by exists s.
  - intros i s Hi. auto.
Qed.

(** The rows after the barrier. *)
Lemma wp_after_replay held f rows a0 x w :
  Settling fa_id f rows replay_pos (λ _, True) (λ _, True) a0 [] x w → HeldOk held f rows →
  Recovered f rows a0 (w_trace w) →
  wp ((barrier;;
       '(r, a) ← get;
       refreshed ← refresh_payments r (startable <$> aq_recovered a);
       on_recovery (connect_rows lease (aq_terminal a).*1);;
       reservation ← fund_from held (existsb (λ v, bool_decide (is_Some v)) refreshed);
       run_wave r (startable <$> aq_recovered a) refreshed reservation (aq_terminal a).*1
       : St (ActiveFormationRecovery * Acquisition) _) x)
    (post_st (λ l y, Acquired l y.1) (λ e y, safe e y.1)) w.
Proof.
  intros (_ & HN & (Erec & _) & f2 & rows2 & HH & HP & _) Hheld HR. destruct x as [r a]. cbn [fst snd] in *.
  apply (HeldOk_progress _ _ _ _ _ HP) in Hheld. pose proof (Startable_recovered _ _ _ _ _ _ HR HP) as HS.
  rewrite <- Erec in HS. eapply wp_barrier; [exact HH|exact HN|by destruct HP as [(p & -> & _) _]|].
  intros Herr Hun. apply (Noted_progress _ _ _ _ _ _ HP) in HN. apply Progress_open in HP.
  apply wp_get_bind, wp_bind_St. eapply wp_st_mono; [by apply (wp_refresh_payments f2 rows2)| |done].
  intros refreshed y w1 Hl1 (-> & H1 & HJ & Hsome). apply wp_bind_St, wp_on_recovery.
  eapply wp_st_mono; [by apply (wp_connect_rows fa_id lease f2 rows2)| |done].
  intros u r2 w2 Hl2 H2. apply wp_bind_St. eapply wp_st_mono; [by apply (wp_fund_from f2 rows2)| |done].
  intros reservation y w3 Hl3 (-> & H3 & Hrv). apply (wp_run_wave f2 rows2) with (held := held); try done.
  - by eapply mirror_length, Hold_mirror.
  - do 3 (eapply Noted_later; [eassumption|]). done.
  - intros Hst. by apply Hun.
Qed.

Lemma wp_acquire_body f rows r w : Hold f rows r w → Open f →
  wp (acquire_seats_body fa_id lease (r, fresh_acquisition (length (rc_seats r))))
    (post_st (λ l y, Acquired l y.1) (λ e y, safe e y.1)) w.
Proof.
  intros HH Ho. rewrite (mirror_length _ _ _ (Hold_mirror _ _ _ _ _ HH)).
  unfold acquire_seats_body. apply wp_get_bind. apply wp_lift_bind; [|intros e _; by eapply Hold_safe].
  intros q Hq. apply wp_bind_St. eapply wp_st_mono; [by apply (wp_hold_reservation f rows)| |done].
  intros held [r1 a1] w1 _ (Ea & f1 & H1 & Ho1 & Hheld). cbn [fst snd] in *. subst a1. apply wp_get_bind.
  apply wp_lift_bind; [|intros e _; by eapply Hold_safe]. intros l Hl.
  pose proof (recovering_Ok fa_id r1 f1 rows _ l (Hold_wf _ _ _ _ _ H1) (Hold_mirror _ _ _ _ _ H1) Hl) as Hpay.
  apply wp_bind_St. eapply wp_st_mono.
  { apply (wp_recover_payments fa_id lease f1 rows r1), fresh_recovering; [done|]. intros x Hx. by apply Hpay. }
  2: done.
  intros u [r2 a2] w2 Hw2 (Er & H2 & HR & HN & _). cbn [fst snd] in *. subst r2. apply wp_get_bind.
  apply wp_lift_bind; [|intros e _; by eapply Hold_safe]. intros l2 Hl2.
  destruct (replaying_Ok fa_id f1 rows r1 a2 w2 l2 H2 HR Hl2) as [Hnd Hok]. apply wp_bind_St. eapply wp_st_mono.
  { apply (wp_replay_payments fa_id lease f1 rows (λ _, True) a2); [done|]. by apply replay_start. }
  2: done.
  intros u' y w3 Hw3 HS. apply (wp_after_replay held f1 rows a2); [done|done|]. by eapply Recovered_later.
Qed.

Lemma wp_acquire_seats r w : Opened fa_id r w →
  wp (acquire_seats fa_id lease r) (post_st Acquired safe) w.
Proof.
  intros (f & rows & HH & Ho). unfold acquire_seats. apply wp_get_bind, wp_bind_St, wp_with_local.
  eapply wp_st_mono; [by apply (wp_acquire_body f rows)| |done]. by intros l y w' _ H.
Qed.

End Waving.
End Waving.
