(* ===== verification/FaForming.v ===== *)
(** * From accepted seats to a formed federation

    DKG and the publication of the seat bindings: guardian codes are recorded
    before DKG starts with all of them, the metadata target before its first
    vote; the confirmed target turns the formation into a formed federation. *)

From S2P Require Import Prelude FaSchema FaQuotes FaStore FaProg FaCalls FaDriver FaFormation FaLogic FaInvariant FaViews FaWf FaReadable FaSteps FaCalm FaReserve FaPrepare FaAcquire FaFund FaWave.
From stdpp Require Import base gmap strings list.
From Stdlib Require Import ZArith Lia.
Open Scope Z_scope.

Module Forming.
Import Fa Quotes Store Run Calls Driver Formation Logic Inv Views WellFormed Readable Steps Calm Triples Reserving Preparing Acquiring Funding Waving.

Section Forming.
Context {CR : Crypto} {PO : Policy} {FE : Federation}.
Variable fa_id : Z.
Variable lease : DriverLease.
Implicit Types (f : StoredFormation) (rows : list StoredSeat) (s : StoredSeat).
Implicit Types (tr : Trace) (w : FaWorld) (r : ActiveFormationRecovery).

Abbreviation wp := (Logic.wp (FaInv fa_id) (allowed fa_id) Answers).
Abbreviation At := (Steps.At fa_id).
Abbreviation Hold := (Triples.Hold fa_id).
Abbreviation safe := (Triples.safe fa_id).

(** ** Sessions *)

Lemma wp_seat_sessions f rows r w : Hold f rows r w →
  wp (seat_sessions lease r r)
    (post_st (λ l r' w', Hold f rows r' w' ∧ length l = length rows) safe) w.
Proof.
  intros HH. unfold seat_sessions. apply wp_lift_bind; [|intros e _; by eapply Hold_safe].
  intros l Hl. apply collect_Ok, Forall2_length in Hl.
  rewrite (mirror_length _ _ _ (Hold_mirror _ _ _ _ _ HH)) in Hl.
  apply wp_bind_St. eapply wp_st_mono; [apply (wp_fan fa_id (λ r, r) f rows)| |].
  - intros [[i l'] seat]. apply calm_connect_seat.
  - intros [x|e|] y w' H; [exact H|by eapply Hold_safe|done].
  - exact HH.
  - by intros u y w' _ H.
  - by intros e y w' _ H.
Qed.

(** ** Guardian codes *)

Abbreviation CodeTag := (nat * (Session * SeatRecovery))%type.
Definition code_result (t : CodeTag) (x : res FaError (nat * string * bool)) w : Prop :=
  match x with
  | Ok (i, code, new) => i = t.1 ∧ (new = false → sr_guardian_code t.2.2 = Some code)
  | _ => True
  end.
Definition Coding f n (tags : list CodeTag)
    (x : ActiveFormationRecovery * (list (option string) * option FaError)) w : Prop :=
  NoDup tags.*1 ∧ ∃ rows, Hold f rows x.1 w ∧ created rows ∧ length rows = n
    ∧ length x.2.1 = n
    ∧ (∀ t, t ∈ tags → ∃ s, rows !! t.1 = Some s ∧ sr_guardian_code t.2.2 = ss_guardian_code s)
    ∧ ∀ i c, x.2.1 !! i = Some (Some c) → ∃ s, rows !! i = Some s ∧ ss_guardian_code s = Some c.

Lemma Coding_quiet f n tags x w w' : quiet w w' → Coding f n tags x w → Coding f n tags x w'.
Proof. intros Hq (Hnd & rows & HH & H). split; [done|]. exists rows. split; [by eapply Hold_quiet|done]. Qed.

Lemma Coding_drop f n pre t rest x w : Coding f n (pre ++ t :: rest) x w → Coding f n (pre ++ rest) x w.
Proof.
  intros (Hnd & rows & HH & Hc & Hn & Hl & Ht & Hcodes). split; [by eapply (pos_middle fst)|].
  exists rows. split_and!; try done. intros u Hu. apply Ht.
  apply elem_of_app in Hu as [|]; apply elem_of_app; [by left|right; by right].
Qed.

Lemma record_guardian_code_plain fid i code d e : record_guardian_code fid i code d = Err e → plain e.
Proof.
  unfold record_guardian_code, mbind, tx_bind.
  destruct (active_formation fid d) as [[d' f]|x|] eqn:Hf; cbn; [|intros [= <-]; by eapply active_formation_plain|done].
  unfold seat_row, mbind, tx_bind, tx_get, tx_lift, ok_or. cbn.
  destruct (d_seats d' !! _); cbn; [|by intros [= <-]].
  destruct (_ || _); cbn; [by intros [= <-]|].
  destruct (ss_guardian_code _); [|done]. case_bool_decide; [done|by intros [= <-]].
Qed.

Lemma mirror_code m s code : mirror_seat m s → mirror_seat (sr_set_code code m) (with_code code s).
Proof. unfold mirror_seat. intros ->. by destruct s. Qed.

(** Recording a code that is new. *)
Lemma wp_record_code f n pre t rest code first_error codes r w :
  Coding f n (pre ++ t :: rest) (r, (codes, first_error)) w →
  wp ((modify (λ '(r, l), (rc_update_seat t.1 (sr_set_code code) r, l));;
       '(r, _) ← get;
       s ← lift_st (lift (rc_seat r t.1));
       lift_st (stmt (record_guardian_code (rc_formation_id r) (sr_index s) code))
       : St (ActiveFormationRecovery * (list (option string) * option FaError)) unit)
        (r, (codes, first_error)))
    (post_st (λ _ y w', Coding f n (pre ++ rest) (y.1, (<[t.1 := Some code]> y.2.1, y.2.2)) w')
       (λ e y, safe e y.1)) w.
Proof.
  intros (Hnd & rows & HH & Hc & Hn & Hlen & Ht & Hcodes). cbn [fst snd] in *.
  destruct (Ht t) as (s & Hs & Ecode); [apply elem_of_app; right; by left|].
  pose proof (Hold_mirror _ _ _ _ _ HH) as Hm. pose proof (Hold_wf _ _ _ _ _ HH) as Hw.
  apply wp_modify_bind, wp_get_bind. set (r' := rc_update_seat _ _ r).
  apply wp_lift_bind; [|by intros e ?%rc_seat_Err]. intros m Him.
  assert (Em : sr_index m = Z.of_nat t.1).
  { unfold rc_seat, expect in Him. cbn in Him. rewrite list_lookup_alter_eq in Him.
    destruct (rc_seats r !! t.1) as [m0|] eqn:Hm0; [|done]. injection Him as <-. cbn.
    destruct (mirror_lookup _ _ _ _ _ Hm Hm0) as (s' & Hs' & Hms). assert (s' = s) as -> by congruence.
    destruct (mirror_row _ _ Hms) as (-> & _). by eapply row_index. }
  apply wp_lift_st. rewrite Em. change (rc_formation_id r') with (rc_formation_id r). rewrite (mi_id _ _ _ Hm).
  apply (wp_tx fa_id (Hold f rows r)); [apply Hold_inv|intros; by eapply Hold_quiet|done| |].
  { intros e w' _ _ [->|[->|He]]; [by left..|]. left. by eapply record_guardian_code_plain. }
  intros d' u Hok. destruct HH as (HA & _ & Hu).
  pose proof (record_guardian_code_step _ _ _ _ _ _ _ _ _ HA Hs Hok) as HA'.
  destruct (pos_middle fst _ _ _ Hnd) as (Hnd' & Hne & _). split; [by eapply At_FaInv|]. split; [done|].
  exists (<[t.1 := with_code code s]> rows). cbn [fst snd]. split_and!.
  - split; [done|]. split; [|exact Hu]. split; cbn; try done; try by apply Hm.
    eapply mirror_update; [by apply Hm|done|]. intros m0. apply mirror_code.
  - apply Forall_insert; [done|]. cbn. by eapply Forall_lookup_1 in Hc.
  - by rewrite length_insert.
  - by rewrite length_insert.
  - intros v Hv. destruct (Ht v) as (sv & Hsv & Ev).
    { apply elem_of_app in Hv as [|]; apply elem_of_app; [by left|right; by right]. }
    exists sv. split; [|done]. rewrite list_lookup_insert_ne; [done|]. by apply not_eq_sym, Hne.
  - intros i c Hi. destruct (decide (t.1 = i)) as [<-|Hnei].
    + rewrite list_lookup_insert_eq in Hi by (rewrite Hlen, <- Hn; by eapply lookup_lt_Some).
      injection Hi as <-. exists (with_code code s). split; [|done]. apply list_lookup_insert_eq. by eapply lookup_lt_Some.
    + rewrite list_lookup_insert_ne in Hi by done. setoid_rewrite list_lookup_insert_ne; [|done]. by apply Hcodes.
Qed.

(** The handler of a code. *)
Definition coded (result : res FaError (nat * string * bool))
    : St (ActiveFormationRecovery * (list (option string) * option FaError)) unit :=
  match result with
  | Ok (position, code, new) =>
      (if new : bool then
         modify (λ '(r, l), (rc_update_seat position (sr_set_code code) r, l));;
         '(r, _) ← get;
         s ← lift_st (lift (rc_seat r position));
         lift_st (stmt (record_guardian_code (rc_formation_id r) (sr_index s) code))
       else mret tt);;
      modify (λ '(r, (codes, first_error)),
                (r, (<[position := Some code]> codes, first_error)))
  | Err e => modify (λ '(r, (codes, first_error)),
                       (r, (codes, Some (default e first_error))))
  | Panic => lift_st (lift Panic)
  end.

Lemma wp_coded f n pre t rest b x w : Coding f n (pre ++ t :: rest) x w → code_result t b w →
  wp (coded b x) (post_st (λ _, Coding f n (pre ++ rest)) (λ e y, safe e y.1)) w.
Proof.
  intros HC HR. destruct x as [r [codes first_error]]. destruct b as [[[i code] new]|e|]; cbn [coded]; [| |done].
  2:{ apply Coding_drop in HC as (Hnd & rows & H). split; [done|]. by exists rows. }
  destruct HR as [-> HR]. apply wp_bind_St. destruct new.
  - eapply wp_st_mono; [by apply wp_record_code| |done]. by intros u [r' [codes' e']] w' _ H.
  - pose proof HC as (_ & rows0 & HH0 & _ & _ & _ & Ht & _).
    apply Coding_drop in HC as (Hnd & rows & HH & Hc & Hn & Hl & Ht' & Hcodes). split; [done|].
    exists rows. cbn [fst snd] in *. split_and!; try done; [by rewrite length_insert|].
    destruct HH as [HA _], HH0 as [HA0 _]. destruct (At_unique _ _ _ _ _ _ HA0 HA) as [_ ->].
    destruct (Ht t) as (s & Hs & Ecode); [apply elem_of_app; right; by left|].
    intros i c Hi. destruct (decide (t.1 = i)) as [<-|Hnei].
    + rewrite list_lookup_insert_eq in Hi by (rewrite Hl, <- Hn; by eapply lookup_lt_Some).
      injection Hi as <-. exists s. split; [done|]. rewrite <- Ecode. by apply HR.
    + rewrite list_lookup_insert_ne in Hi by done. by apply Hcodes.
Qed.

(** Every seat is accepted and every code recorded. *)
Definition Coded f (codes : list string) r w : Prop :=
  ∃ rows, Hold f rows r w ∧ created rows ∧ (ss_guardian_code <$> rows) = Some <$> codes.

Lemma codes_recorded rows l cs : length l = length rows →
  (∀ i c, l !! i = Some (Some c) → ∃ s, rows !! i = Some s ∧ ss_guardian_code s = Some c) →
  collect (ok_or Storage) l = Ok cs → (ss_guardian_code <$> rows) = Some <$> cs.
Proof.
  intros Hl Hcodes H%collect_Ok.
  assert (E : l = Some <$> cs).
  { apply list_eq_Forall2. apply Forall2_fmap_r. eapply Forall2_impl; [exact H|]. intros o c Hc. cbn in Hc.
    destruct o; [|done]. by injection Hc as ->. }
  subst l. rewrite length_fmap in Hl. apply list_eq_same_length with (n := length rows); rewrite ?length_fmap; [done|done|].
  intros i x y Hi Hx Hy. rewrite list_lookup_fmap in Hx. rewrite list_lookup_fmap in Hy.
  destruct (cs !! i) as [c|] eqn:Hc; [|done]. cbn in Hy. injection Hy as <-.
  destruct (Hcodes i c) as (s & Hs & Es); [by rewrite list_lookup_fmap, Hc|].
  rewrite Hs in Hx. cbn in Hx. injection Hx as <-. done.
Qed.

Lemma code_tags r f rows (sessions : list Session) w : Hold f rows r w → length sessions = length rows →
  ∀ l, l = imap pair (zip sessions (rc_seats r)) → NoDup l.*1
  ∧ ∀ t, t ∈ l → ∃ s, rows !! t.1 = Some s ∧ sr_guardian_code t.2.2 = ss_guardian_code s.
Proof.
  intros HH Hlen l ->. split.
  - rewrite fmap_imap. change (NoDup (imap (λ i _, i) (zip sessions (rc_seats r)))).
    eapply NoDup_alt. intros i j x Hi Hj. rewrite list_lookup_imap in Hi. rewrite list_lookup_imap in Hj.
    destruct (zip _ _ !! i), (zip _ _ !! j); cbn in *; congruence.
  - intros [i [se m]] Hin. apply list_elem_of_lookup_1 in Hin as [j Hj]. rewrite list_lookup_imap, lookup_zip_with in Hj.
    destruct (sessions !! j); [|done]. cbn in Hj. destruct (rc_seats r !! j) as [m'|] eqn:Hm'; [|done].
    cbn in Hj. injection Hj as -> -> ->.
    destruct (mirror_lookup _ _ _ _ _ (Hold_mirror _ _ _ _ _ HH) Hm') as (s & Hs & Hms). exists s. split; [done|].
    unfold mirror_seat in Hms. rewrite Hms. done.
Qed.

Lemma wp_collect_codes f rows r sessions w : Hold f rows r w → created rows →
  length sessions = length rows →
  wp (collect_codes lease sessions r) (post_st (λ codes, Coded f codes) safe) w.
Proof.
  intros HH Hc Hlen. unfold collect_codes. apply wp_get_bind. cbv zeta.
  destruct (code_tags r f rows sessions w HH Hlen _ eq_refl) as [Hnd Ht].
  apply wp_bind_St, wp_with_local. eapply wp_st_mono.
  - eapply (wp_unordered fa_id (λ w, ∃ rows, At f rows w) code_result (Coding f (length rows))
      (λ e y, safe e y.1) _ coded).
    + intros w' (rows' & HA). by eapply At_FaInv.
    + intros w' w2 Hq (rows' & HA). exists rows'. by eapply At_quiet.
    + by intros t b v v'.
    + intros. by eapply Coding_quiet.
    + intros k y v (_ & rows' & [HA _] & _). by exists rows'.
    + intros pre t rest b y v. apply wp_coded.
    + intros t w' _. eapply still_mono; [|apply still_dkg_code]. by intros [[[i c] b]|e|] v _ H.
    + split; [done|]. exists rows. cbn [fst snd]. split_and!; try done; [by rewrite length_replicate|].
      intros i c Hi. by apply lookup_replicate in Hi as [? _].
  - intros u [r' [codes e]] w' _ (_ & rows' & HH' & Hc' & Hn & Hl & _ & Hcodes). cbn [fst snd] in *.
    destruct e as [e|]; [by eapply Hold_safe|]. apply wp_lift_end; [|intros e _; by eapply Hold_safe].
    intros cs Hcs. exists rows'. split_and!; try done. eapply codes_recorded; [|done|done]. lia.
  - done.
Qed.

(** ** DKG *)

Lemma wp_start_all f codes sessions r w : Coded f codes r w →
  wp (start_all lease sessions codes r) (post_st (λ _, Coded f codes) safe) w.
Proof.
  intros (rows & HH & Hc & Hcodes). unfold start_all. apply wp_get_bind, wp_bind_St, wp_with_local.
  eapply wp_st_mono; [apply (wp_fan fa_id fst f rows)| |].
  - intros t. apply calm_start_dkg. intros w' l seat [_ (Hv & _)]. by exists f, rows.
  - intros [i|e|] [r' e'] w' H; [|exact H|done]. by apply Hold_phase.
  - exact HH.
  - intros u [r' [e|]] w' _ H; cbn in *; [by eapply Hold_safe|]. by exists rows.
  - by intros e [r' e'] w' _ H.
Qed.

Lemma wp_poll_rounds f rows n sessions r w : Hold f rows r w →
  wp (poll_rounds lease n sessions r) (post_st (λ _, Hold f rows) safe) w.
Proof.
  revert r w. induction n as [|n IH]; intros r w HH; cbn [poll_rounds];
    (eapply wp_hold; [done|apply calm_ensure_time|intros _ w1 _ H1]); apply wp_bind_St, wp_with_local.
  all: eapply wp_st_mono; [apply (wp_fan fa_id fst f rows)|..|by intros e [r' e'] w' _ H];
    [apply calm_seat_status| |exact H1|].
  1,3: intros b [r' k] w' H; apply wp_lift_bind; [|intros e _; by eapply Hold_safe];
    intros [[i l] [status healthy]] _; destruct (service_seat_phase status);
    [by eapply Hold_safe|by apply Hold_phase].
  all: intros u [r' k] w' _ H; cbn in H |- *; case_bool_decide; [exact H|].
  - by eapply Hold_safe.
  - by apply IH.
Qed.
Lemma wp_poll_until_running f rows sessions r w : Hold f rows r w →
  wp (poll_until_running lease sessions r) (post_st (λ _, Hold f rows) safe) w.
Proof.
  intros HH. unfold poll_until_running. eapply wp_hold; [done|by apply calm_ask|].
  intros n w1 _ H1. by apply wp_poll_rounds.
Qed.

Lemma wp_fetch_invite f rows sessions r w : Hold f rows r w →
  wp (fetch_agreed_invite lease sessions r) (post_st (λ _, Hold f rows) safe) w.
Proof.
  intros HH. unfold fetch_agreed_invite. case_bool_decide; [by left|].
  apply wp_bind_St, wp_with_local. eapply wp_st_mono; [apply (wp_fan fa_id fst f rows)| |].
  - apply calm_seat_invite.
  - intros b [r' l] w' H'. apply wp_lift_bind; [|intros e _; by eapply Hold_safe]. by intros [i invite] _.
  - exact HH.
  - intros u [r' l] w' _ H'. cbn in H' |- *. apply wp_lift_bind; [|intros e _; by eapply Hold_safe].
    intros invites _. apply wp_lift_end; [done|intros e _; by eapply Hold_safe].
  - by intros e [r' l] w' _ H'.
Qed.

(** ** Publication *)

(** A published part changes nothing the store holds. *)
Lemma Mirror_publish r f rows phase action invite : Mirror r f rows →
  Mirror (rc_publish phase action invite (rc_formation_meta_target r) r) f rows.
Proof. intros Hm. split; cbn; try done; by apply Hm. Qed.
Lemma Hold_publish f rows r phase action invite w : Hold f rows r w →
  Hold f rows (rc_publish phase action invite (rc_formation_meta_target r) r) w.
Proof. intros (HA & Hm & Hu). split; [done|]. split; [by apply Mirror_publish|done]. Qed.

Definition prepare_commit {A} (t : FaTx A) : M A :=
  ensure_time;; renew lease;; ensure_time;; ensure_time;; renew lease;; ensure_time;; stmt t.

Lemma wp_prepare_commit {A} (t : FaTx A) (J : FaWorld → Prop) Q E w :
  (∀ w, J w → FaInv fa_id w) → (∀ w w', quiet w w' → J w → J w') → J w →
  (∀ e w', J w' → E e w') →
  (∀ w' d' a, J w' → t (w_db w') = Ok (d', a) → FaInv fa_id (after w' d') ∧ Q a (after w' d')) →
  wp (prepare_commit t) (post Q E) w.
Proof.
  intros J_inv J_quiet HJ HE HQ. revert w HJ.
  assert (Hstep : ∀ (p : M unit) (k : M A) w, calm fa_id J p → (∀ w, J w → wp k (post Q E) w) → J w →
    wp (p;; k) (post Q E) w).
  { intros p k w Hp Hk HJ. apply wp_bind_M. apply (wp_calm fa_id J); [done|done|done|done| |].
    - intros _ w' _. apply Hk.
    - intros e w' _. apply HE. }
  intros w. do 2 (apply Hstep; [apply calm_ensure_time|intros ?]; apply Hstep; [apply calm_renew|intros ?];
    apply Hstep; [apply calm_ensure_time|intros ?]).
  intros HJ. apply (wp_tx fa_id J); [done|done|done| |].
  - intros e w' _ HJ' _. by apply HE.
  - intros d' a Hok. by apply HQ.
Qed.

Lemma wp_assemble f rows sessions r w : Hold f rows r w →
  wp (assemble_seat_bindings lease sessions r) (post_st (λ _ r' w', r' = r ∧ Hold f rows r w') safe) w.
Proof.
  intros HH. unfold assemble_seat_bindings. apply wp_get_bind, wp_lift_bind; [|intros e _; by eapply Hold_safe].
  intros l0 _. apply wp_bind_St, wp_with_local.
  eapply wp_st_mono.
  - eapply (wp_unordered fa_id (At f rows) (λ _, any) (λ _ x w', x.1 = r ∧ Hold f rows r w') (λ e y, safe e y.1)).
    + apply At_inv.
    + intros. by eapply At_quiet.
    + by intros t b v v'.
    + intros l x v v' Hq [-> H]. split; [done|by eapply Hold_quiet].
    + by intros l x v [_ [HA _]].
    + intros pre t rest b [r' l] v [Er H] _. cbn in Er. subst r'.
      apply wp_lift_bind; [|intros e _; by eapply Hold_safe]. by intros e _.
    + intros t w' _. apply calm_seat_attestation.
    + done.
  - intros u [r' l] w' _ [Er H]. cbn in Er. subst r'. cbn.
    apply wp_lift_bind; [|intros e _; by eapply Hold_safe]. by intros b _.
  - by intros e [r' l] w' _ H.
Qed.

Lemma wp_new_target f rows sessions invite config r w : Hold f rows r w →
  wp (new_target lease sessions invite config r) (post_st (λ _ r' w', r' = r ∧ Hold f rows r w') safe) w.
Proof.
  intros HH. unfold new_target. apply wp_bind_St. eapply wp_st_mono; [by apply (wp_assemble f rows)| |done].
  intros [bindings entries] r' w1 _ [-> H1].
  do 4 (apply wp_lift_bind; [intros ? _|intros e _; by eapply Hold_safe]).
  apply wp_do_bind. apply (wp_tx fa_id (Hold f rows r)); [apply Hold_inv|intros; by eapply Hold_quiet|done| |].
  { intros e w' _ H' _. by eapply Hold_safe. }
  intros d' policy [= <- <-]. assert (H2 : Hold f rows r (after w1 (w_db w1))) by (eapply Hold_quiet; [by apply quiet_stmt|done]).
  split; [by eapply Hold_inv|]. destruct (negb _); [by left|]. destruct (negb _); [by left|]. by split.
Qed.

(** The metadata target is recorded. *)
Definition Targeted (t : FormationMetaTarget) r w : Prop :=
  ∃ f rows, Hold f rows r w ∧ sf_formation_meta_target f = Some t.

Lemma wp_publish_rounds n sessions invite t pending r w : Targeted t r w →
  wp (publish_rounds lease n sessions invite t pending r)
    (post_st (λ _ _, Gone fa_id) safe) w.
Proof.
  revert pending r w. induction n as [|n IH]; intros pending r w (f & rows & HH & Ht); cbn [publish_rounds];
    (eapply wp_hold; [done|by apply calm_ask|intros reads w1 _ H1]);
    (eapply wp_hold; [done|by apply calm_read_consensus|intros snapshot w2 _ H2]);
    (destruct (metadata_too_large _); [by left|]);
    (apply wp_lift_bind; [intros matches _|intros e _; by eapply Hold_safe]); apply wp_get_bind.
  all: destruct matches; [apply wp_lift_st;
    eapply (wp_prepare_commit _ (Hold f rows r)); [apply Hold_inv|intros; by eapply Hold_quiet|done|
      intros e w' H'; by eapply Hold_safe|intros w' d' u H' Hok; rewrite (mi_id _ _ _ (Hold_mirror _ _ _ _ _ H')) in Hok;
      destruct (confirm_step _ _ _ _ _ _ (proj1 H') Hok); done]|].
  all: destruct pending as [e|]; [by eapply Hold_safe|].
  all: apply wp_lift_bind; [intros base _|intros e _; by eapply Hold_safe].
  all: apply wp_bind_St, wp_with_local; eapply wp_st_mono;
    [apply (wp_fan fa_id fst f rows); [|by intros b [r' l] w' H|exact H2]|..|by intros e [r' l] w' _ H].
  1,3: intros se; apply calm_propose_target; intros w' l seat [_ (Hv & _)]; exists f; split; [apply Hv|done].
  all: intros u [r' l] w' _ H'; cbn in H' |- *; apply wp_lift_bind; [intros p _|intros e _; by eapply Hold_safe].
  - by left.
  - apply IH. by exists f, rows.
Qed.

Lemma Mirror_target r f rows t phase action invite : Mirror r f rows →
  Mirror (rc_publish phase action invite (Some t) r) (with_target t f) rows.
Proof. intros Hm. split; cbn; try done; by apply Hm. Qed.

Lemma wp_publish f rows sessions invite r w : Hold f rows r w → stored_dkg_complete (sf_phase f) = true →
  wp (publish_seat_bindings lease sessions invite r) (post_st (λ _ _, Gone fa_id) safe) w.
Proof.
  intros HH Hd. unfold publish_seat_bindings. apply wp_get_bind, wp_bind_St.
  pose proof (Hold_mirror _ _ _ _ _ HH) as Hm.
  apply (wp_st_mono fa_id) with
    (Q := λ t r' w', Targeted t (rc_publish PublishingPhase (rc_action_required r') (rc_invite_code r') (Some t) r') w')
    (E := safe); [| |done].
  - destruct (rc_formation_meta_target r) as [t|] eqn:Ht.
    { exists f, rows. rewrite <- Ht. split; [by apply Hold_publish|]. by rewrite <- (mi_target _ _ _ Hm). }
    eapply wp_hold; [done|by apply calm_ask|]. intros reads w1 _ H1.
    eapply wp_hold; [done|by apply calm_read_consensus|]. intros snapshot w2 _ H2.
    apply wp_bind_St. eapply wp_st_mono; [by apply (wp_new_target f rows)| |done].
    intros t r' w3 _ [-> H3]. apply wp_do_bind.
    eapply (wp_prepare_commit _ (Hold f rows r)); [apply Hold_inv|intros; by eapply Hold_quiet|done| |].
    { intros e w' H'. by eapply Hold_safe. }
    intros w' d' u (HA & Hm' & Hu) Hok. rewrite (mi_id _ _ _ Hm') in Hok.
    pose proof (record_formation_meta_target_step _ _ _ _ _ _ _ HA Hd Hok) as HA'.
    split; [by eapply At_FaInv|]. exists (with_target t f), rows. split; [|done].
    split; [done|]. split; [by apply Mirror_target|exact Hu].
  - intros t r' w' _ HT. apply wp_modify_bind. pose proof HT as (f' & rows' & H' & _).
    eapply wp_hold; [exact H'|by apply calm_ask|]. intros n w2 Hq2 H2. apply wp_publish_rounds.
    destruct HT as (f2 & rows2 & [HA2 _] & Ht2). destruct H' as [HA' _].
    destruct (At_unique _ _ _ _ _ _ HA2 HA') as [-> ->]. by exists f2, rows2.
Qed.

Lemma wp_reload r w : Gone fa_id w →
  wp ((do (stmt migrate_schema_11;; stmt (load_recovery fa_id));; mret tt : D unit) r)
    (post_st (λ _ _ _, True) safe) w.
Proof.
  intros HG. apply wp_do_bind. apply (wp_load_gone fa_id); [done|done|]. intros e w' _ _ He. by left.
Qed.

Lemma wp_run_dkg sessions r w : Acquired fa_id sessions r w →
  wp (run_dkg fa_id lease sessions r) (post_st (λ _ _ _, True) safe) w.
Proof.
  intros (f & rows & HH & Ho & Hc & Hlen). unfold run_dkg. apply wp_modify_bind, wp_bind_St.
  eapply wp_st_mono; [apply (wp_collect_codes f rows); [by apply Hold_publish|done|done]| |done].
  intros codes r1 w1 _ H1. apply wp_bind_St. eapply wp_st_mono; [by apply wp_start_all| |done].
  intros u1 r2 w2 _ (rows2 & H2 & Hc2 & Hcodes). apply wp_modify_bind, wp_bind_St.
  eapply wp_st_mono; [apply (wp_poll_until_running f rows2); by apply Hold_publish| |done].
  intros u2 r3 w3 _ H3. apply wp_bind_St. eapply wp_st_mono; [by apply (wp_fetch_invite f rows2)| |done].
  intros invite r4 w4 _ H4. apply wp_get_bind, wp_modify_bind, wp_do_bind.
  set (r5 := rc_publish _ _ _ _ _). assert (H5 : Hold f rows2 r5 w4) by by apply Hold_publish.
  apply (wp_tx fa_id (Hold f rows2 r5)); [apply Hold_inv|intros; by eapply Hold_quiet|done| |].
  { intros e w' _ H' _. by eapply Hold_safe. }
  intros d' u Hok. rewrite (mi_id _ _ _ (Hold_mirror _ _ _ _ _ H4)) in Hok. destruct H5 as (HA & Hm & Hu).
  pose proof (record_dkg_complete_step _ _ _ _ _ _ _ HA Hok) as HA'. split; [by eapply At_FaInv|].
  apply wp_modify_bind, wp_bind_St. eapply wp_st_mono; [apply (wp_publish (with_dkg_complete invite f) rows2)| |done].
  - apply Hold_publish. split; [done|]. split; [|exact Hu]. split; cbn; try done; by apply Hm.
  - done.
  - intros u3 r6 w6 _ H6. by apply wp_reload.
Qed.

Lemma wp_resume_after_dkg f rows r w : Hold f rows r w → stored_dkg_complete (sf_phase f) = true →
  wp (resume_after_dkg fa_id lease r) (post_st (λ _ _ _, True) safe) w.
Proof.
  intros HH Hd. unfold resume_after_dkg. apply wp_get_bind.
  apply wp_lift_bind; [intros stored _|intros e _; by eapply Hold_safe].
  apply wp_bind_St. eapply wp_st_mono; [by apply (wp_seat_sessions f rows)| |done].
  intros sessions r1 w1 _ [H1 _]. apply wp_bind_St.
  eapply wp_st_mono; [by apply (wp_poll_until_running f rows)| |done].
  intros u2 r2 w2 _ H2. apply wp_bind_St. eapply wp_st_mono; [by apply (wp_fetch_invite f rows)| |done].
  intros invite r3 w3 _ H3. cbn beta in H3. do 2 (apply wp_lift_bind; [intros ? _|intros e _; by eapply Hold_safe]).
  destruct (negb _); [by left|]. apply wp_bind_St. eapply wp_st_mono; [by apply (wp_publish f rows)| |done].
  intros u3 r4 w4 _ H4. by apply wp_reload.
Qed.

End Forming.
End Forming.
