(* ===== verification/FaDriving.v ===== *)
(** * Driver runs

    [drive_formation] with its reactions to a required reauthorization, and the
    entry points of the client: each of them keeps the invariant, whatever its
    database, its guardians and its wallet answer. *)

From S2P Require Import Prelude FaSchema FaQuotes FaStore FaProg FaCalls FaDriver FaFormation FaLogic FaInvariant FaViews FaWf FaReadable FaSteps FaCalm FaReserve FaPrepare FaAcquire FaFund FaWave FaForming.
From stdpp Require Import base gmap strings list.
From Stdlib Require Import ZArith Lia.
Open Scope Z_scope.

Module Driving.
Import Fa Quotes Store Run Calls Driver Formation Logic Inv Views WellFormed Readable Steps Calm Triples Reserving Preparing Acquiring Funding Waving Forming.

Section Driving.
Context {CR : Crypto} {PO : Policy} {FE : Federation}.
Variable fa_id : Z.
Implicit Types (f : StoredFormation) (rows : list StoredSeat) (s : StoredSeat).
Implicit Types (tr : Trace) (w : FaWorld) (r : ActiveFormationRecovery).

Abbreviation wp := (Logic.wp (FaInv fa_id) (allowed fa_id) Answers).
Abbreviation At := (Steps.At fa_id).
Abbreviation Hold := (Triples.Hold fa_id).
Abbreviation safe := (Triples.safe fa_id).
Abbreviation AtLive := (Reserving.AtLive fa_id).

Section Lease.
Variable lease : DriverLease.

(** ** Driving *)

(** With every seat accepted nothing is left to reserve. *)
Lemma created_unreserved f rows w : At f rows w → created rows → unreserved f w.
Proof.
  intros HA Hc Hst _. eapply live_none; [done|done|]. intros q Hq.
  apply payment_requirements_Ok in Hq as (_ & Hs & Hne & _). destruct Hne. rewrite Hs.
  destruct (omap _ _) as [|e l] eqn:E; [done|].
  assert (He : e ∈ omap (entry None) (row_recovery <$> rows)) by (rewrite E; by left).
  apply list_elem_of_omap in He as (m & (s & -> & Hin)%list_elem_of_fmap & He).
  destruct (entry_quote _ _ _ He) as (x & _ & _ & _ & _ & _ & Hagg). cbn in Hagg.
  eapply Forall_forall in Hc; [|done]. by specialize (Hagg Hc).
Qed.

Lemma dkg_complete_created f rows w : At f rows w → stored_dkg_complete (sf_phase f) = true → created rows.
Proof.
  intros [_ (Hv & _ & Hw & _)] Hd. apply Forall_lookup. intros i s Hi.
  apply (co_code _ (ro_consistent _ _ _ _ (wf_row _ _ _ Hw _ _ Hi))).
  by apply (wf_codes _ _ _ (wf_base _ _ _ Hw) Hd i).
Qed.

Lemma Opened_quiet r w w' : quiet w w' → Opened fa_id r w → Opened fa_id r w'.
Proof. intros Hq (f & rows & HH & Ho). exists f, rows. split; [by eapply Hold_quiet|done]. Qed.

Lemma wp_drive_inner f rows r w : At f rows w → Loaded fa_id r f rows →
  wp (drive_formation_inner fa_id lease r) (post_st (λ _ _ _, True) safe) w.
Proof.
  intros HA Hl. pose proof (lo_mirror _ _ _ _ Hl) as Hm. unfold drive_formation_inner. apply wp_get_bind.
  rewrite (lo_phase _ _ _ _ Hl). destruct (stored_dkg_complete (sf_phase f)) eqn:Hd.
  { apply (wp_resume_after_dkg fa_id lease f rows); [|done]. split; [done|]. split; [done|].
    eapply created_unreserved; [done|by eapply dkg_complete_created]. }
  apply wp_bind_St. eapply wp_st_mono; [by apply (wp_recover_reservation fa_id lease f rows)| |done].
  intros [] r1 w1 _ H1; [done|]. pose proof H1 as (f1 & rows1 & HH1 & _). apply wp_bind_St.
  eapply wp_st_mono; [by apply (wp_check_live fa_id f1 rows1)| |done].
  intros u1 r2 w2 _ [-> Hq]. apply (Opened_quiet _ _ _ Hq) in H1. apply wp_get_bind.
  destruct (replacement_requirements _ _); [done|]. apply wp_bind_St.
  eapply wp_st_mono; [by apply wp_prepare_quotes| |done]. intros u2 r3 w3 _ H3. apply wp_bind_St.
  eapply wp_st_mono; [by apply wp_authorize_under_cap| |done].
  intros [] r4 w4 _ H4; cbn [negb]; [|done]. apply wp_modify_bind, wp_bind_St.
  eapply wp_st_mono; [apply wp_acquire_seats| |done].
  { destruct H4 as (f4 & rows4 & HH4 & Ho). exists f4, rows4. split; [by apply Hold_publish|done]. }
  intros sessions r5 w5 _ H5. by apply wp_run_dkg.
Qed.

(** ** Releasing the reservation *)

Lemma wp_release_call f rows L rv (Q : unit → FaWorld → Prop) E w : AtLive f rows L w →
  (∀ w, At f rows w → allowed fa_id (Send (ReleaseReservation rv)) (w_db w)) →
  (∀ w', AtLive f rows (L ∖ {[ rv_id rv ]}) w' → Q tt w') →
  (∀ e w', AtLive f rows L w' → E e w') →
  wp (wallet_call lease (ReleaseReservation rv) (λ x, x)) (post Q E) w.
Proof.
  intros HA Hok HQ HE. unfold wallet_call. apply wp_bind_M.
  apply (wp_call fa_id lease (ReleaseReservation rv) (AtLive f rows L) (AtLive f rows L)); try done.
  - apply AtLive_inv.
  - intros. by eapply AtLive_quiet.
  - apply AtLive_inv.
  - intros. by eapply AtLive_quiet.
  - intros w1 [HA1 HL]. split; [by apply Hok|]. eapply AtLive_quiet; [by apply quiet_call|done].
  - intros a w1 [Hw1 <-] _.
    assert (HA1 := called_sub fa_id f rows w1 (Recv (ReleaseReservation rv)) (Some a) Hw1 eq_refl).
    destruct a as [u|[]]; cbn -[difference] in HA1.
    + specialize (HA1 (reflexivity _)). split; [by eapply AtLive_inv|]. by apply HE.
    + ospecialize (HA1 _); [set_solver|]. split; [by eapply AtLive_inv|by apply HQ].
  - intros e w1 _. apply HE.
  - intros e w1 _. apply HE.
Qed.

(** A member of an aggregate not yet generated, or of a provisional one, is not
    bound to an effect. *)
Definition Unbound f rows : Prop :=
  ∃ a, sf_payment_authorization f = Some a
    ∧ ∀ i s q, rows !! i = Some s → ss_signed_quote s = Some q → member a i q →
        ad_state (ss_admission s) = Fresh.

Lemma member_paid f rows a i s q : Wf fa_id f rows → sf_payment_authorization f = Some a →
  rows !! i = Some s → ss_signed_quote s = Some q → member a i q → is_Some (qt_payment (sq_terms q)).
Proof.
  intros Hw Ha Hi Hq Hm. destruct (ao_quote _ _ _ (wf_auth _ _ _ Hw a Ha) _ Hm) as (j & s' & q' & Ej & Hj & Hq' & _ & Hp).
  cbn in Ej. apply Nat2Z.inj in Ej as ->. congruence.
Qed.

Lemma unstarted_unbound f rows a : Wf fa_id f rows → sf_outputs_started f = false →
  sf_payment_authorization f = Some a → Unbound f rows.
Proof.
  intros Hw Hst Ha. exists a. split; [done|]. intros i s q Hi Hq Hm.
  pose proof (member_paid _ _ _ _ _ _ Hw Ha Hi Hq Hm) as Hp.
  pose proof (ro_effect _ _ _ _ (wf_row _ _ _ Hw _ _ Hi)) as He. unfold EffectOk in He.
  destruct (ad_state (ss_admission s)); [done|]. rewrite Hq in He. destruct He as [[_ Hk] Hst'].
  rewrite effect_of_paid in Hk by done. specialize (Hst' (eq_sym Hk)). congruence.
Qed.

Lemma provisional_unbound f rows a j t : Wf fa_id f rows → sf_payment_authorization f = Some a →
  rows !! j = Some t → is_Some (ss_replacement_for t) → Unbound f rows.
Proof.
  intros Hw Ha Hj Hr. exists a. split; [done|]. intros i s q Hi Hq Hm.
  pose proof (ro_consistent _ _ _ _ (wf_row _ _ _ Hw _ _ Hi)) as Hc.
  destruct (wf_replacing _ _ _ Hw j t Hj Hr i s Hi) as [Hs|Hs].
  - by destruct (wf_provisional _ _ _ Hw a j t Ha Hj Hr i s q).
  - apply (co_approved _ Hc), (co_quoted _ Hc); [by eexists|done].
Qed.

Lemma release_allowed f rows rv w : Unbound f rows → At f rows w →
  (is_Some (sf_payment_reservation_id f) →
     sf_payment_reservation_id f = Some (rv_id rv) ∧ sf_release_intended f = true) →
  allowed fa_id (Send (ReleaseReservation rv)) (w_db w).
Proof.
  intros (a & Ha & Hfresh) [_ (Hv & _)] Hrv. by exists f, rows, a.
Qed.

(** ** Abandoning before the output boundary *)

(** Nothing is live and the formation is still stored. *)
Definition Released r w : Prop :=
  ∃ f rows, AtLive f rows ∅ w ∧ rc_formation_id r = sf_formation_id f.
Definition anyway {S} (e : FaError) (x : S) w : Prop := True.

Definition cleanup (absent : bool) r (q : option PaymentRequirements) : D unit :=
  match q with
  | Some q =>
      if negb absent && payments_authorized r q then
        '(id, recovered) ← do (recover_payment_reservation fa_id lease r q);
        match recovered with
        | Some reservation =>
            (if bool_decide (is_Some (rc_payment_reservation_id r)) then
               do (stmt (record_reservation_release_intent (rc_formation_id r) id));;
               modify (λ r, rc_set_reservation (rc_payment_reservation_id r) true r)
             else mret tt);;
            do (wallet_call lease (ReleaseReservation reservation) (λ x, x))
        | None =>
            if bool_decide (rc_payment_reservation_id r = Some id)
               && negb (rc_release_intended r)
            then throw Storage else mret tt
        end
      else if bool_decide (is_Some (rc_payment_reservation_id r)) then throw Storage
      else mret tt
  | None =>
      if bool_decide (is_Some (rc_payment_reservation_id r)) then throw Storage else mret tt
  end.

Lemma wp_release_member f rows r q h L w : AtLive f rows L w → Mirror r f rows →
  sf_outputs_started f = false → is_Some (sf_payment_authorization f) →
  let id := payment_reservation_id (sf_formation_id f) q in
  L ∖ {[ id ]} = ∅ →
  wp (((if bool_decide (is_Some (rc_payment_reservation_id r)) then
          do (stmt (record_reservation_release_intent (rc_formation_id r) id));;
          modify (λ r, rc_set_reservation (rc_payment_reservation_id r) true r)
        else mret tt);;
       do (wallet_call lease (ReleaseReservation {| rv_id := id; rv_handle := h |}) (λ x, x)) : D unit) r)
    (post_st (λ _, Released) anyway) w.
Proof.
  intros HA Hm Hst [a Ha] id HL. pose proof HA as [HA0 _]. pose proof HA0 as [_ (_ & _ & Hw & _)].
  pose proof (unstarted_unbound _ _ _ Hw Hst Ha) as Hun.
  rewrite (mi_reservation _ _ _ Hm), (mi_id _ _ _ Hm). apply wp_bind_St. case_bool_decide as Hrv.
  - apply wp_do_bind. apply (wp_tx fa_id (AtLive f rows L)); [apply AtLive_inv|intros; by eapply AtLive_quiet|done|done|].
    intros d' u Hok. destruct (record_reservation_release_intent_step _ _ _ _ _ _ _ HA0 Hok) as [Eid HA'].
    split; [by eapply At_FaInv|]. apply wp_lift_st.
    apply (wp_release_call (with_reservation (Some id) true f) rows L); [split; [done|apply HA]| | |done].
    + intros w' Hw'. by apply (release_allowed (with_reservation (Some id) true f) rows).
    + intros w' Hw'. eexists _, rows. cbn [rv_id] in Hw'. rewrite HL in Hw'. split; [exact Hw'|]. cbn. by rewrite (mi_id _ _ _ Hm).
  - apply wp_lift_st. apply (wp_release_call f rows L); [done| | |done].
    + intros w' Hw'. by apply (release_allowed f rows).
    + intros w' Hw'. exists f, rows. cbn [rv_id] in Hw'. rewrite HL in Hw'. split; [exact Hw'|]. apply Hm.
Qed.

Lemma wp_cleanup f rows r absent q w : At f rows w → Mirror r f rows → sf_outputs_started f = false →
  (absent = true → unreserved f w) → requirements_of fa_id f rows = Ok q →
  wp (cleanup absent r q r) (post_st (λ _, Released) anyway) w.
Proof.
  intros HA Hm Hst Habs Hq. pose proof HA as [_ (_ & _ & Hw & _)].
  assert (Hrel : maybe_live (w_trace w) = ∅ → Released r w).
  { intros E. exists f, rows. split; [by split|apply Hm]. }
  destruct q as [q|]; cbn [cleanup].
  2:{ case_bool_decide; [done|]. apply Hrel. eapply live_none; [done|done|]. intros q'. by rewrite Hq. }
  destruct (negb absent && payments_authorized r q) eqn:Hb.
  - apply andb_true_iff in Hb as [_ Hauth].
    assert (Ha : is_Some (sf_payment_authorization f)).
    { unfold payments_authorized in Hauth. rewrite (mi_auth _ _ _ Hm) in Hauth. by destruct (sf_payment_authorization f). }
    pose proof (live_bound fa_id _ _ _ _ HA Hst Hq) as Hb. set (L := maybe_live (w_trace w)) in *.
    apply wp_do_bind. apply (wp_recover fa_id lease f rows r q L); [done|done| |done].
    set (id := payment_reservation_id _ q) in *. assert (HL : L ∖ {[ id ]} = ∅) by set_solver.
    split; cbv zeta beta iota.
    + intros h w1 HA1 _. by apply (wp_release_member f rows r q h L).
    + intros w1 HA1 _. destruct (_ && _); [done|]. exists f, rows. rewrite HL in HA1. split; [done|apply Hm].
  - rewrite (mi_reservation _ _ _ Hm). case_bool_decide as Hrv; [done|]. apply Hrel.
    apply eq_None_not_Some in Hrv. destruct absent; cbn [negb andb] in Hb; [by apply Habs|].
    eapply live_none; [done|done|]. intros q' _. destruct (sf_payment_authorization f) eqn:Ha; [exfalso|done].
    rewrite (Mirror_authorized fa_id r f rows None q) in Hb; [done|done|done| |by left|done]. by rewrite Ha.
Qed.

Lemma wp_release_and_abandon f rows r absent w : At f rows w → Mirror r f rows →
  (absent = true → unreserved f w) →
  wp (release_and_abandon_pre_output fa_id lease absent r) (post_st (λ _ _ _, True) anyway) w.
Proof.
  intros HA Hm Habs. unfold release_and_abandon_pre_output. apply wp_get_bind.
  rewrite (mi_started _ _ _ Hm). destruct (sf_outputs_started f) eqn:Hst; [done|].
  destruct (phase_dkg_complete _); [done|]. destruct (_ && _); [done|].
  apply wp_lift_bind; [|done]. intros q Hq. rewrite (Mirror_current fa_id _ _ _ Hm) in Hq.
  apply wp_bind_St. eapply wp_st_mono; [by apply (wp_cleanup f rows)| |done].
  intros u r' w' _ (f' & rows' & HA' & Hid). by apply (wp_abandon fa_id lease f' rows').
Qed.

(** ** Restoring a provisional wave *)

Definition Stored_started r w : Prop := rc_outputs_started r = true ∧ ∃ f rows, At f rows w.

Definition release_provisional : D (option ReleasedReservation) :=
  r ← get;
  match rc_payment_reservation_id r with
  | None => mret None
  | Some id =>
      q ← do (lift (reserved_payment_requirements r fa_id));
      q ← do (lift (ok_or Storage q));
      if negb (payments_authorized r q)
         || negb (payment_reservation_id (rc_formation_id r) q =? id)
      then throw Storage
      else
        reservation ← reserve_payment_requirements fa_id lease q;
        do (stmt (record_reservation_release_intent (rc_formation_id r) id));;
        modify (λ r, rc_set_reservation (rc_payment_reservation_id r) true r);;
        do (wallet_call lease (ReleaseReservation reservation) (λ x, x));;
        mret (Some {| rr_reservation_id := id; rr_witnesses_absence := false |})
  end.

(** What is stored during the release. *)
Definition Provisional r w : Prop :=
  rc_outputs_started r = true ∧ ∃ f rows, At f rows w ∧ rc_formation_id r = sf_formation_id f.

Lemma wp_release_provisional f rows r j t w : Hold f rows r w → sf_outputs_started f = true →
  rows !! j = Some t → is_Some (ss_replacement_for t) →
  wp (release_provisional r) (post_st (λ _, Provisional) anyway) w.
Proof.
  intros HH Hst Hj Ht. pose proof (Hold_mirror _ _ _ _ _ HH) as Hm. pose proof HH as [HA _].
  pose proof HA as [_ (_ & _ & Hw & _)]. unfold release_provisional. apply wp_get_bind.
  assert (Est := mi_started _ _ _ Hm). rewrite Hst in Est.
  destruct (rc_payment_reservation_id r) as [id|] eqn:Hid.
  2:{ split; [done|]. exists f, rows. split; [done|apply Hm]. }
  apply wp_lift_bind; [|done]. intros o Ho. apply wp_lift_bind; [|done]. intros q Hq.
  destruct o as [q'|]; [|done]. injection Hq as ->. destruct (_ || _) eqn:Hb; [done|].
  apply orb_false_iff in Hb as [Hauth%negb_false_iff Heq%negb_false_iff%Z.eqb_eq].
  apply wp_bind_St. eapply wp_st_mono; [apply (wp_reserve fa_id lease f rows); [done| |done]| |done].
  { unfold recovery_requirements. by rewrite Hid. }
  intros rv r1 w1 _ (Eid & _ & HH1). destruct HH1 as (HA1 & Hm1 & _).
  rewrite (mi_id _ _ _ Hm) in Heq |- *. rewrite Heq in *. apply wp_do_bind.
  apply (wp_tx fa_id (At (with_reservation (Some id) false f) rows) ltac:(apply At_inv) ltac:(intros; by eapply At_quiet)); [exact HA1|done|].
  intros d' u Hok. destruct (record_reservation_release_intent_step _ _ _ _ _ _ _ HA1 Hok) as [_ HA2].
  split; [by eapply At_FaInv|]. apply wp_modify_bind, wp_do_bind.
  set (f2 := with_reservation (Some id) true _) in HA2.
  assert (Hun : Unbound f2 rows).
  { destruct (sf_payment_authorization f) as [a|] eqn:Ha.
    - pose proof HA2 as [_ (_ & _ & Hw2 & _)]. by apply (provisional_unbound f2 rows a j t).
    - unfold payments_authorized in Hauth. by rewrite (mi_auth _ _ _ Hm), Ha in Hauth. }
  apply (wp_release_call f2 rows (maybe_live (w_trace (after w1 d')))); [by split| | |done].
  - intros w' Hw'. apply (release_allowed f2 rows); [done|done|]. intros _. cbn. by rewrite Eid.
  - intros w' [HA' _]. split; [cbn; by rewrite (mi_started _ _ _ Hm1)|]. exists f2, rows. split; [done|].
    cbn. by rewrite (mi_id _ _ _ Hm1).
Qed.

Lemma wp_restore_after f rows r w : Hold f rows r w → sf_outputs_started f = true →
  existsb sr_replacement_approved (rc_seats r) = true →
  wp (restore_after_reauthorization fa_id lease r) (post_st (λ _, Stored_started) anyway) w.
Proof.
  intros HH Hst (m & Hin & Happ)%existsb_true. pose proof (Hold_mirror _ _ _ _ _ HH) as Hm.
  apply list_elem_of_lookup_1 in Hin as [j Hj]. destruct (mirror_lookup _ _ _ _ _ Hm Hj) as (t & Ht & Hms).
  assert (Happ' : ss_replacement_approved t = true) by (unfold mirror_seat in Hms; by rewrite Hms in Happ).
  pose proof (ro_consistent _ _ _ _ (wf_row _ _ _ (Hold_wf _ _ _ _ _ HH) _ _ Ht)) as Hc.
  assert (Hr : is_Some (ss_replacement_for t)).
  { destruct (ss_replacement_for t) eqn:E; [by eexists|]. destruct (co_previous _ Hc E). congruence. }
  change (restore_after_reauthorization fa_id lease)
    with (released ← release_provisional; restore_replacements lease released : D unit).
  apply wp_bind_St. eapply wp_st_mono; [by apply (wp_release_provisional f rows r j t)| |done].
  intros released r' w' _ (Hst' & f' & rows' & HA' & Hid). apply (wp_restore fa_id lease f' rows'); try done.
  intros rows2 w2 HA2. split; [done|]. by eexists _, _.
Qed.

(** ** Loading from any state *)

Lemma FaInv_cases w : FaInv fa_id w → (∃ f rows, At f rows w) ∨ Gone fa_id w.
Proof.
  intros HI. destruct (d_formation (w_db w)) as [f|] eqn:Hf; [left|by right].
  apply FaInv_At; [done|]. by rewrite Hf.
Qed.

Lemma wp_load_any Q E w : FaInv fa_id w →
  (∀ f rows r w', quiet w w' → At f rows w' → Loaded fa_id r f rows → Q (RecFormation r) w') →
  (∀ x w', quiet w w' → Gone fa_id w' → (∀ r, x ≠ RecFormation r) → Q x w') →
  (∀ e w', quiet w w' → FaInv fa_id w' → E e w') →
  wp (load fa_id) (post Q E) w.
Proof.
  intros HI HQ HG HE. destruct (FaInv_cases w HI) as [(f & rows & HA)|Hgone].
  - apply (wp_load fa_id f rows); [done| |].
    + intros r w' Hq HA' Hl. by eapply HQ.
    + intros e w' Hq HA' _. by eapply HE, At_FaInv.
  - apply (wp_load_gone fa_id); [done| |].
    + intros x w' Hq Hg Hx _. by apply HG.
    + intros e w' Hq [HI' _] _. by apply HE.
Qed.

Lemma wp_active_any Q E w : FaInv fa_id w →
  (∀ f rows r w', quiet w w' → At f rows w' → Loaded fa_id r f rows → Q r w') →
  (∀ e w', quiet w w' → FaInv fa_id w' → E e w') →
  wp (active_recovery fa_id) (post Q E) w.
Proof.
  intros HI HQ HE. apply wp_bind_M. apply wp_load_any; [done| | |done].
  - intros f rows r w' Hq HA Hl. by eapply HQ.
  - intros x w' Hq [HI' _] Hx. destruct x as [|r|formed]; [by apply HE|by destruct (Hx r)|by apply HE].
Qed.

(** ** The reactions to a failure *)

Abbreviation fine := (λ (_ : ActiveFormationRecovery * res FaError unit) (w : FaWorld), True).

Lemma wp_report (result : res FaError unit) r w : FaInv fa_id w →
  wp (match result with
      | Err _ => pbind (attempt (active_recovery fa_id)) (λ _, Done (r, result))
      | _ => Done (r, result)
      end) fine w.
Proof.
  intros HI. destruct result; [done| |done]. apply wp_pbind. eapply wp_weaken.
  - apply (wp_try fa_id _ (λ _ _, True) (λ _ _, True)). by apply wp_active_any.
  - done.
Qed.

Definition insufficient (result : res FaError unit) r : bool :=
  match result with
  | Err (SelectionReauthorizationRequired SelectedPayerInsufficientFunds _) =>
      bool_decide (rc_payment_reservation_id r = None)
  | _ => false
  end.

Definition react (result : res FaError unit) r : Prog (ActiveFormationRecovery * res FaError unit) :=
  if reauthorization result && negb (rc_outputs_started r) then
    pbind (release_and_abandon_pre_output fa_id lease (insufficient result r) r) (λ '(r, cleaned),
      Done (r, match cleaned with Ok _ => result | e => e end))
  else
    match result with
    | Err _ => pbind (attempt (active_recovery fa_id)) (λ _, Done (r, result))
    | _ => Done (r, result)
    end.

Lemma wp_react result r w : FaInv fa_id w →
  (reauthorization result = true → rc_outputs_started r = true ∨ ∃ f rows, Hold f rows r w) →
  wp (react result r) fine w.
Proof.
  intros HI Hr. unfold react. destruct (_ && _) eqn:Hb; [|by apply wp_report].
  apply andb_true_iff in Hb as [Hre Hst%negb_true_iff].
  destruct (Hr Hre) as [|(f & rows & HA & Hm & Hu)]; [congruence|]. apply wp_pbind. eapply wp_weaken.
  - apply (wp_release_and_abandon f rows r); [done|done|by intros _].
  - intros [r' cleaned] w' _ _. done.
Qed.

Lemma wp_drive f rows r w : At f rows w → Loaded fa_id r f rows →
  wp (drive_formation fa_id lease r) fine w.
Proof.
  intros HA Hl. unfold drive_formation. apply wp_pbind. eapply wp_weaken.
  { apply wp_inv; [by eapply At_FaInv|]. by eapply wp_drive_inner. }
  intros [r1 result] w1 _ [Hpost HI]. apply wp_pbind.
  assert (Hsafe : reauthorization result = true → ∃ f rows, Hold f rows r1 w1).
  { destruct result as [u|e|]; [done| |done]. intros Hre. destruct Hpost as [Hp|Hp]; [|done]. by destruct e. }
  destruct (reauthorization result && rc_outputs_started r1 && existsb sr_replacement_approved (rc_seats r1)) eqn:Hb.
  - apply andb_true_iff in Hb as [[Hre Hst]%andb_true_iff Happ].
    destruct (Hsafe Hre) as (f1 & rows1 & H1). eapply wp_weaken.
    { apply wp_inv; [done|]. apply (wp_restore_after f1 rows1 r1); [done| |done].
      by rewrite <- (mi_started _ _ _ (Hold_mirror _ _ _ _ _ H1)). }
    intros [r2 restored] w2 _ [Hpost2 HI2]. destruct restored as [u|e|]; [|done|done].
    destruct Hpost2 as [Hst2 _]. apply (wp_react result r2 w2 HI2). by left.
  - apply (wp_react result r1 w1 HI). intros Hre. right. by apply Hsafe.
Qed.

Lemma wp_driving f rows r w : At f rows w → Loaded fa_id r f rows →
  wp (driving fa_id lease r) (λ _ _, True) w.
Proof.
  intros HA Hl. apply wp_pbind. eapply wp_weaken; [by eapply wp_drive|]. by intros [r' result] w' _ _.
Qed.

End Lease.
End Driving.
End Driving.
