(* ===== verification/FaEntries.v ===== *)
(** * The entry points of a federation assembler

    Every entry point keeps the invariant: what it starts from and what its
    arguments say is enough for the transactions it commits and the calls it
    makes. *)

From S2P Require Import Prelude FaSchema FaQuotes FaStore FaProg FaCalls FaDriver FaFormation FaLogic FaInvariant FaViews FaWf FaReadable FaSteps FaCalm FaReserve FaPrepare FaAcquire FaFund FaWave FaForming FaDriving.
From stdpp Require Import base gmap strings list.
From Stdlib Require Import ZArith Lia.
Open Scope Z_scope.

Module Entries.
Import Fa Quotes Store Run Calls Driver Formation Logic Inv Views WellFormed Readable Steps Calm Triples Reserving Preparing Acquiring Funding Waving Forming Driving.

Section Entries.
Context {CR : Crypto} {PO : Policy} {FE : Federation}.
Variable fa_id : Z.
Implicit Types (f : StoredFormation) (rows : list StoredSeat) (s : StoredSeat).
Implicit Types (tr : Trace) (w : FaWorld) (r : ActiveFormationRecovery).

Abbreviation wp := (Logic.wp (FaInv fa_id) (allowed fa_id) Answers).
Abbreviation At := (Steps.At fa_id).
Abbreviation done_with := (post (λ (_ : unit) (_ : FaWorld), True) (λ (_ : FaError) (_ : FaWorld), True)).

Lemma done_any (p : M unit) w : wp p (λ _ _, True) w → wp p done_with w.
Proof. intros Hp. eapply wp_weaken; [exact Hp|]. by intros [] w' _ _. Qed.

(** ** The frame of a run *)

Section Frame.
Context (J : FaWorld → Prop).
Hypothesis J_inv : ∀ w, J w → FaInv fa_id w.
Hypothesis J_quiet : ∀ w w', quiet w w' → J w → J w'.

Lemma wp_step {A} (p : M A) (k : A → M unit) w : calm fa_id J p → J w →
  (∀ a w', quiet w w' → J w' → wp (k a) done_with w') → wp (p ≫= k) done_with w.
Proof. intros Hp HJ Hk. apply wp_bind_M. by apply (wp_calm fa_id J). Qed.

Lemma wp_driver_run options p w : J w → (∀ lease w', quiet w w' → J w' → wp (p lease) done_with w') →
  wp (driver_run options p) done_with w.
Proof.
  intros HJ Hp. unfold driver_run. apply wp_step; [by apply calm_ask|done|]. intros now w1 Hq1 H1.
  apply wp_step; [by apply calm_ask|done|]. intros owner w2 Hq2 H2.
  apply wp_step; [apply calm_stmt, acquire_same|done|]. intros lease w3 Hq3 H3. apply wp_pbind.
  eapply wp_weaken; [apply wp_inv; [by apply J_inv|]; apply Hp; [|done]|].
  { do 2 (etrans; [eassumption|]). done. }
  intros result w4 _ [_ HI]. apply wp_pbind. eapply wp_still.
  - intros w' H'. exact H'.
  - intros w' w5. apply FaInv_quiet.
  - apply (calm_stmt fa_id (FaInv fa_id)), release_same.
  - done.
  - intros released w5 _ _ _. by destruct result, released.
Qed.

End Frame.

Lemma Inv_run options p w : FaInv fa_id w → (∀ lease w', quiet w w' → FaInv fa_id w' → wp (p lease) done_with w') →
  wp (driver_run options p) done_with w.
Proof. apply wp_driver_run; [done|apply FaInv_quiet]. Qed.

Lemma wp_then_drive lease f rows w : At f rows w →
  wp (r ← active_recovery fa_id; driving fa_id lease r) done_with w.
Proof.
  intros HA. apply wp_bind_M. apply (wp_active_recovery fa_id f rows); [done| |done].
  intros r w' _ HA' Hl. apply done_any. by eapply wp_driving.
Qed.

(** ** Resuming, abandoning and restarting *)

Lemma wp_resume options w : FaInv fa_id w → wp (resume fa_id options) done_with w.
Proof.
  intros HI. apply Inv_run; [done|]. intros lease w1 _ H1. apply wp_bind_M. apply wp_load_any; [done| | |done].
  - intros f rows r w2 _ HA Hl. apply done_any. by eapply wp_driving.
  - intros [|r|formed] w2 _ _ Hx; [done|by destruct (Hx r)|done].
Qed.

Lemma wp_abandon_entry options w : FaInv fa_id w → wp (abandon_entry fa_id options) done_with w.
Proof.
  intros HI. apply Inv_run; [done|]. intros lease w1 _ H1. apply wp_bind_M. apply wp_load_any; [done| | |done].
  - intros f rows r w2 _ HA Hl. apply wp_pbind. eapply wp_weaken; [apply (wp_release_and_abandon fa_id lease f rows); [done|apply Hl|done]|].
    by intros [r' []] w3 _ _.
  - intros [|r|formed] w2 _ _ Hx; [done|by destruct (Hx r)|done].
Qed.

Lemma wp_restart_body lease f rows r w : At f rows w →
  wp (restart_body lease r r) (post_st (λ _ _ _, True) (λ _ _ _, True)) w.
Proof.
  intros HA. unfold restart_body. apply wp_lift_bind; [intros codes _|done].
  assert (Hfan : ∀ {T B} (g : T → M B) (handle : res FaError B → D unit) l x w,
    (∀ t, calm fa_id (At f rows) (g t)) →
    (∀ b x w, At f rows w → wp (handle b x) (post_st (λ _ _, At f rows) (λ _ _ _, True)) w) →
    At f rows w → wp (unordered (g <$> l) handle x) (post_st (λ _ _, At f rows) (λ _ _ _, True)) w).
  { intros T B g handle l x w0 Hg Hh H0.
    eapply (wp_unordered fa_id (At f rows) (λ _, any) (λ _ _, At f rows)).
    - apply At_inv.
    - intros. by eapply At_quiet.
    - by intros t b v v'.
    - intros _ y v v' Hq Hv. by eapply At_quiet.
    - by intros _ y v.
    - intros _ t _ b y v H _. by apply Hh.
    - intros t w' _. apply Hg.
    - done. }
  unfold seat_sessions. apply wp_bind_St, wp_lift_bind; [intros l _|done]. apply wp_bind_St.
  eapply wp_st_mono; [apply Hfan; [|by intros [] y v Hv|done]|..|done].
  { intros [[i l'] seat]. apply calm_connect_seat. }
  intros u1 r1 w1 _ H1. cbn beta in H1. apply wp_bind_St.
  eapply wp_st_mono; [apply Hfan; [apply calm_restart_check|by intros [] y v Hv|exact H1]|..|done].
  intros u2 r2 w2 _ H2. cbn beta in H2.
  eapply wp_st_mono; [apply Hfan; [apply calm_restart_seat|by intros b y v Hv|exact H2]|done|done].
Qed.

Lemma wp_restart_dkg options w : FaInv fa_id w → wp (restart_dkg fa_id options) done_with w.
Proof.
  intros HI. apply Inv_run; [done|]. intros lease w1 _ H1. apply wp_bind_M.
  apply wp_active_any; [done| |done]. intros f rows r w2 _ HA Hl. destruct (_ || _); [done|].
  apply wp_pbind. eapply wp_weaken; [by apply (wp_restart_body lease f rows)|]. by intros [r' []] w3 _ _.
Qed.

(** ** Authorizing *)

Lemma wp_authorize id options w : FaInv fa_id w → EStart (Authorize id options) ∈ w_trace w →
  wp (authorize fa_id id options) done_with w.
Proof.
  intros HI Hstart. apply (Inv_run); [done|]. intros lease w1 Hq1 H1. apply wp_bind_M.
  apply wp_active_any; [done| |done]. intros f rows r w2 Hq2 HA Hl. destruct (negb _); [done|].
  destruct (rc_action_required r) as [[q|q]|] eqn:Hact; [|done|done].
  destruct (negb (rq_authorization_id q =? id)) eqn:Eid; [done|]. apply negb_false_iff, Z.eqb_eq in Eid.
  pose proof (lo_action _ _ _ _ Hl q Hact) as Hq. apply wp_bind_M.
  apply (wp_tx fa_id (At f rows)); [apply At_inv|intros; by eapply At_quiet|done|done|].
  intros d' u Hok. rewrite (mi_id _ _ _ (lo_mirror _ _ _ _ Hl)), <- Eid in Hok.
  eapply authorize_step in Hok; [|done|exact Hq|].
  - split; [by eapply At_FaInv|]. by eapply wp_then_drive.
  - left. exists options. cbn. rewrite Eid. destruct Hq1 as [[l1 E1] _], Hq2 as [[l2 E2] _].
    rewrite E2, E1. apply elem_of_app. right. apply elem_of_app. by right.
Qed.

(** ** Creating *)

Lemma initial_seats_lookup (seats : list ApprovedSeat) provenance until i x :
  initial_seats seats provenance until !! i = Some x → ∃ a, seats !! i = Some a
    ∧ x = {| is_index := Z.of_nat i; is_locator := as_locator a;
             is_admission := fresh_peer_badge (as_mg_id a) (as_holder a) provenance until |}.
Proof.
  unfold initial_seats. rewrite list_lookup_imap. destruct (seats !! i) as [a|]; [|done].
  intros [= <-]. by exists a.
Qed.

Lemma initial_distinct (seats : list ApprovedSeat) provenance until :
  NoDup (as_holder <$> seats) → NoDup (as_mg_id <$> seats) →
  NoDup ((λ x, service_pubkey (as_locator x)) <$> seats) →
  Distinct (new_row <$> initial_seats seats provenance until).
Proof.
  intros Hh Hm Hk. assert (Hrow : ∀ i s, (new_row <$> initial_seats seats provenance until) !! i = Some s →
    ∃ a, seats !! i = Some a ∧ ad_holder (ss_admission s) = Some (as_holder a)
      ∧ ad_mg_id (ss_admission s) = as_mg_id a ∧ ss_locator s = as_locator a).
  { intros i s. rewrite list_lookup_fmap. destruct (_ !! i) as [x|] eqn:Hx; [|done]. intros [= <-].
    apply initial_seats_lookup in Hx as (a & Ha & ->). by exists a. }
  assert (Hinj : ∀ {B} (g : ApprovedSeat → B) i j a b, NoDup (g <$> seats) → seats !! i = Some a →
    seats !! j = Some b → g a = g b → i = j).
  { intros B g i j a b Hnd Ha Hb E. eapply (NoDup_lookup (g <$> seats)); [done|..]; rewrite list_lookup_fmap.
    - by rewrite Ha.
    - rewrite Hb. cbn. by rewrite E. }
  split; [intros i j s s' h Hi Hj E E'|intros i j s s' Hi Hj E..];
    destruct (Hrow _ _ Hi) as (a & Ha & E1 & E2 & E3), (Hrow _ _ Hj) as (b & Hb & E1' & E2' & E3').
  - apply (Hinj _ as_holder i j a b); try done. congruence.
  - apply (Hinj _ as_mg_id i j a b); try done. congruence.
  - apply (Hinj _ (λ x, service_pubkey (as_locator x)) i j a b); try done. congruence.
Qed.

(** What an approval and an intent that were accepted give. *)
Lemma created_ok intent a payer provenance now intent' seats name dkg resolved :
  create_from_selection intent a payer provenance now = Ok (intent', seats) →
  resolve_for_dkg intent' name dkg = Ok resolved →
  seats = initial_seats (sl_seats a) (sl_verifier_provenance a) (sl_valid_until a)
  ∧ Z.of_nat (length seats) = in_federation_size resolved
  ∧ is_fedi (in_fedimintd_dkg_version resolved) = true
  ∧ overlaps_dkg (in_fedimintd_versions resolved) (in_fedimintd_dkg_version resolved) = true
  ∧ (is_Some payer → is_Some (in_max_total_msats resolved)).
Proof.
  unfold create_from_selection. intros H Hr.
  destruct (negb _) eqn:Hlen in H; [done|]. destruct (_ || _) in H; [done|].
  apply negb_false_iff, Z.eqb_eq in Hlen. apply res_bind_Ok in H as (l & Hl & H).
  apply res_bind_Ok in H as (i & Hi & H). injection H as <- <-.
  unfold seats_at in Hl. destruct (_ <=? _); [done|]. injection Hl as <-.
  unfold resolve_for_dkg in Hr. destruct (_ || _) eqn:Hv in Hr; [done|]. injection Hr as <-. cbn.
  apply orb_false_iff in Hv as [Hv1%negb_false_iff Hv2%negb_false_iff].
  assert (Hsize : fi_federation_size i = fi_federation_size intent ∧ (is_Some payer → is_Some (fi_max_total_msats i))).
  { destruct payer; [|injection Hi as <-; split; [done|by intros [? ?]]].
    unfold with_max_total_msats in Hi. destruct (_ =? 0); [done|]. injection Hi as <-. cbn. split; [done|by eexists]. }
  destruct Hsize as [-> Hcap]. split_and!; try done. unfold initial_seats. by rewrite length_imap.
Qed.

Lemma wp_create intent a payer callback options w : FaInv fa_id w →
  Starts (PayAndCreate intent a payer callback options) →
  wp (create fa_id intent a payer callback options) done_with w.
Proof.
  intros HI (_ & Hh & Hm & Hk). unfold create.
  apply (wp_step (FaInv fa_id)); [done|apply FaInv_quiet|by apply calm_ask|done|]. intros provenance w1 _ H1.
  apply (wp_step (FaInv fa_id)); [done|apply FaInv_quiet|by apply calm_ask|done|]. intros now w2 _ H2.
  apply wp_bind_M. destruct (create_from_selection _ _ _ _ _) as [[intent' seats]|e|] eqn:Hsel; [|done|done].
  apply Inv_run; [done|]. intros lease w3 _ H3. apply wp_bind_M. apply wp_load_any; [done|done| |done].
  intros [|r|formed] w4 _ [H4 _] Hx; [|done|done].
  apply (wp_step (FaInv fa_id)); [done|apply FaInv_quiet| |done|].
  { destruct payer; [|done]. apply calm_bind; [apply calm_require_payer|done]. }
  intros _ w5 _ H5. apply (wp_step (FaInv fa_id)); [done|apply FaInv_quiet|by apply calm_ask|done|].
  intros created_at w6 _ H6. cbv zeta. apply wp_bind_M. destruct (resolve_for_dkg _ _ _) as [resolved|e|] eqn:Hres; [|done|done].
  destruct (created_ok _ _ _ _ _ _ _ _ _ _ Hsel Hres) as (-> & Hlen & Hfedi & Hover & Hcap).
  cbn [lift post Logic.wp]. apply wp_bind_M.
  apply (wp_tx fa_id (FaInv fa_id)); [done|apply FaInv_quiet|done|done|]. intros d' u Hok.
  apply initialize_step in Hok as (f & HA); try done.
  - split; [by eapply At_FaInv|]. by eapply wp_then_drive.
  - intros i x Hi. by apply initial_seats_lookup in Hi as (y & _ & ->).
  - intros x Hin. apply list_elem_of_lookup_1 in Hin as [i Hi]. by apply initial_seats_lookup in Hi as (y & _ & ->).
  - by apply initial_distinct.
Qed.

(** ** Replacing guardians *)

Lemma keys_distinct_Some l (keys keys' : gset Z) : keys_distinct l keys = Some keys' →
  NoDup l ∧ (∀ k, k ∈ l → k ∉ keys) ∧ keys' = list_to_set l ∪ keys.
Proof.
  revert keys. induction l as [|k l IH]; cbn; intros keys H.
  { injection H as <-. split_and!; [constructor|by intros ? ?%elem_of_nil|set_solver]. }
  case_bool_decide as Hk; [done|]. destruct (IH _ H) as (Hnd & Hno & ->). split_and!.
  - constructor; [|done]. intros Hin. apply (Hno k Hin). set_solver.
  - intros x [->|Hx]%elem_of_cons; [done|]. specialize (Hno x Hx). set_solver.
  - set_solver.
Qed.

Lemma replacement_seats fid (l : list SeatRecovery) q : replacement_requirements fid l = Some q →
  gr_seats q = omap replacement_seat l ∧ gr_seats q ≠ [].
Proof.
  unfold replacement_requirements. destruct (omap replacement_seat l) as [|g k]; [done|]. by intros [= <-].
Qed.

Lemma replacement_row r f rows g : Wf fa_id f rows → Mirror r f rows →
  g ∈ omap replacement_seat (rc_seats r) → ∃ i s, gs_index g = Z.of_nat i ∧ rows !! i = Some s.
Proof.
  intros Hw Hm (m & Hin & Hg)%list_elem_of_omap. apply list_elem_of_lookup_1 in Hin as [i Hi].
  destruct (mirror_lookup _ _ _ _ _ Hm Hi) as (s & Hs & Hms). destruct (mirror_row _ _ Hms) as (Eix & _).
  exists i, s. split; [|done]. unfold replacement_seat in Hg. destruct (sr_replacement_approved m); [done|].
  destruct (sr_replacement_for m); [|done]. injection Hg as <-. cbn. rewrite Eix. by eapply row_index.
Qed.

Definition replacing_rows (a : ReplacementApproval) (seats : list ApprovedSeat) : list (Locator * MgAdmission) :=
  (λ x, (as_locator x, fresh_peer_badge (as_mg_id x) (as_holder x)
                         (rp_verifier_provenance a) (rp_valid_until a))) <$> seats.

Lemma checked_new r f rows a seats (q : GuardianReplacementRequirements) : Wf fa_id f rows → Mirror r f rows →
  checked_replacements r seats (list_to_set (gs_index <$> gr_seats q)) = Ok tt →
  length (gr_seats q) = length (replacing_rows a seats) →
  NewGuardians rows (zip (gr_seats q) (replacing_rows a seats)).
Proof.
  intros Hw Hm H Hlen. unfold checked_replacements in H.
  apply res_bind_Ok in H as (ids & Hids & H). apply res_bind_Ok in H as (keys & Hkeys & H).
  apply res_bind_Ok in H as (all & Hall & _). unfold ok_or in Hids, Hkeys, Hall.
  destruct (keys_distinct (as_mg_id <$> seats) _) as [x1|] eqn:E1; [|done].
  destruct (keys_distinct _ ∅) as [x2|] eqn:E2; [|done]. injection Hkeys as ->.
  destruct (keys_distinct _ keys) as [x3|] eqn:E3; [|done].
  apply keys_distinct_Some in E1 as (Hnd1 & Hno1 & _), E2 as (_ & _ & ->), E3 as (Hnd3 & Hno3 & _).
  assert (Hsnd : ∀ {B} (g : Locator * MgAdmission → B),
    (λ x, g x.2) <$> zip (gr_seats q) (replacing_rows a seats) = g <$> replacing_rows a seats).
  { intros B g. change (λ x : GuardianReplacementSeat * _, g x.2) with (g ∘ (@snd GuardianReplacementSeat (Locator * MgAdmission))).
    rewrite list_fmap_compose. f_equal. apply snd_zip. lia. }
  assert (Hin : ∀ x, x ∈ zip (gr_seats q) (replacing_rows a seats) → x.1 ∈ gr_seats q ∧ ∃ y, y ∈ seats
    ∧ x.2.1 = as_locator y ∧ ad_mg_id x.2.2 = as_mg_id y).
  { intros [g z] Hx. split; [by apply elem_of_zip_l in Hx|]. apply elem_of_zip_r in Hx.
    apply list_elem_of_fmap in Hx as (y & -> & Hy). by exists y. }
  split.
  - rewrite (Hsnd _ (λ x, ad_mg_id x.2)). unfold replacing_rows. by rewrite <- list_fmap_compose.
  - intros x i s Hx Hi E. destruct (Hin x Hx) as (_ & y & Hy & _ & Ey).
    apply (Hno1 (as_mg_id y)); [by apply list_elem_of_fmap_2|]. rewrite <- Ey, E.
    destruct (mirror_lookup_r _ _ _ _ _ Hm Hi) as (m & Hmi & Hms). destruct (mirror_row _ _ Hms) as (_ & _ & _ & Ea & _).
    apply elem_of_list_to_set, list_elem_of_fmap. exists m. rewrite Ea. split; [done|]. by eapply list_elem_of_lookup_2.
  - rewrite (Hsnd _ (λ x, service_pubkey x.1)). unfold replacing_rows. by rewrite <- list_fmap_compose.
  - intros x i s Hx Hi Hother E. destruct (Hin x Hx) as (_ & y & Hy & El & _).
    apply (Hno3 (service_pubkey (as_locator y))); [by apply (list_elem_of_fmap_2 (λ x, service_pubkey (as_locator x)))|].
    rewrite <- El, E. destruct (mirror_lookup_r _ _ _ _ _ Hm Hi) as (m & Hmi & Hms).
    destruct (mirror_row _ _ Hms) as (Eix & Elo & _). apply elem_of_union_l, elem_of_list_to_set, list_elem_of_fmap.
    exists m. rewrite Elo. split; [done|]. apply list_elem_of_filter. split; [|by eapply list_elem_of_lookup_2].
    rewrite elem_of_list_to_set. intros (g & Eg & Hg)%list_elem_of_fmap. rewrite Eix, (row_index _ _ _ _ _ Hw Hi) in Eg.
    apply list_elem_of_lookup_1 in Hg as [k Hk].
    destruct (lookup_lt_is_Some_2 (replacing_rows a seats) k) as [z Hz]; [rewrite <- Hlen; by eapply lookup_lt_Some|].
    apply (Hother (g, z)); [|done]. apply (list_elem_of_lookup_2 _ k). by rewrite lookup_zip_with, Hk, Hz.
Qed.

Lemma replace_length fid (q : GuardianReplacementRequirements) l cap d x :
  replace_guardians fid q l cap d = Ok x → length (gr_seats q) = length l.
Proof.
  unfold replace_guardians. destruct (_ || _) eqn:Hb; [done|]. intros _.
  apply orb_false_iff in Hb as [Hb%negb_false_iff _]. by apply bool_decide_eq_true in Hb.
Qed.

Lemma wp_replace a options w : FaInv fa_id w → wp (replace fa_id a options) done_with w.
Proof.
  intros HI. apply Inv_run; [done|]. intros lease w1 _ H1. apply wp_bind_M.
  apply wp_active_any; [done| |done]. intros f rows r w2 _ HA Hl. pose proof (lo_mirror _ _ _ _ Hl) as Hm.
  apply wp_bind_M. destruct (replacement_requirements _ _) as [q|] eqn:Hq; [|done]. cbn [ok_or lift post Logic.wp].
  apply replacement_seats in Hq as [Eq Hne]. case_bool_decide as Ea; cbn [negb]; [|done].
  apply (wp_step (At f rows)); [apply At_inv|intros; by eapply At_quiet|by apply calm_ask|done|]. intros provenance w3 _ H3.
  case_bool_decide; cbn [negb]; [|done].
  apply (wp_step (At f rows)); [apply At_inv|intros; by eapply At_quiet|by apply calm_ask|done|]. intros now w4 _ H4.
  apply wp_bind_M. destruct (seats_at _ _ _) as [seats|e|]; [|done|done]. cbn [lift post Logic.wp].
  apply wp_bind_M. destruct (checked_replacements _ _ _) as [[]|e|] eqn:Hck; [|done|done]. cbn [lift post Logic.wp].
  apply wp_bind_M. apply (wp_tx fa_id (At f rows)); [apply At_inv|intros; by eapply At_quiet|done|done|].
  intros d' u Hok. rewrite (mi_id _ _ _ Hm) in Hok. rewrite <- Ea in Hok, Hck. pose proof H4 as [_ (_ & _ & Hw & _)].
  pose proof (replace_length _ _ _ _ _ _ Hok) as Hlen.
  apply (replace_step fa_id f rows) in Hok as (rows' & HA'); try done.
  - split; [by eapply At_FaInv|]. by eapply wp_then_drive.
  - intros g Hg. rewrite Eq in Hg. by eapply replacement_row.
  - by eapply checked_new.
  - intros x Hx. by apply list_elem_of_fmap in Hx as (y & -> & _).
Qed.

(** ** Every entry point *)

Lemma body_ok e w : FaInv fa_id w → EStart e ∈ w_trace w → Starts e →
  wp (body fa_id e) (λ _ _, True) w.
Proof.
  intros HI Hstart Hok. apply wp_pbind. eapply (wp_weaken _ _ _ _ done_with).
  - destruct e; [by apply wp_create|by apply wp_resume|by apply wp_authorize|by apply wp_replace
      |by apply wp_abandon_entry|by apply wp_restart_dkg].
  - done.
Qed.

End Entries.
End Entries.
