(* ===== verification/FaTheorems.v ===== *)
(** * What a federation assembler never does

    The safety of the federation assembler client, stated over the events of
    every run: any sequence of entry points, answers of the wallet, the
    guardians and the federation, lost statements, crashes and interleavings of
    concurrent futures.

    Module [Assembler] holds these theorems; [Ids] what the ids of a formation
    stand for, [Lease] what rival drivers can do, and [Stuck] what follows from a
    formation that cannot be read. *)

From S2P Require Import Prelude FaSchema FaQuotes FaStore FaProg FaCalls FaDriver FaFormation FaLogic FaInvariant FaViews FaWf FaReadable FaSteps FaCalm FaEntries.
From stdpp Require Import base gmap strings list.
From Stdlib Require Import ZArith Lia.
Open Scope Z_scope.

Module Assembler.
Import Fa Quotes Store Run Calls Driver Formation Logic Inv Views Readable Steps Entries.

(** ** Runs *)

Section Prefix.
Context {H : Type} (body : H → Prog unit).

(** The client that made a call of the trace. *)
Lemma call_world d s l c (a : Ans c) d' tr : reachable body d s →
  w_trace (c_world s) = l ++ ECall c a d' :: tr →
  ∃ s', reachable body d s' ∧ c_world s' = {| w_db := d'; w_trace := tr |}.
Proof.
  intros Hr. revert l. induction Hr as [|ch s s' Hr IH Hact]; intros l E; [by destruct l|].
  destruct s as [w running]. cbn in *.
  destruct ch; destruct running as [p|]; try (destruct p as [u|B t k|c' k]); cbn in Hact;
    try (destruct (run_tx t (w_db w)) as [d2 r2]); simplify_eq; cbn in E;
    try (destruct l as [|e l]; [done|]; injection E as _ E; by eapply IH).
  - destruct l as [|e l]; [|injection E as _ E; by eapply IH].
    exists {| c_world := w; c_running := Some (Call c' k) |}. split; [done|]. destruct w as [dw tw]. cbn in *.
    by injection E as -> _ -> ->.
  - by eapply IH.
Qed.

End Prefix.

Section Assembler.
Context {CR : Crypto} {PO : Policy} {FE : Federation}.
Variable fa_id : Z.
Implicit Types (s : Client Entry) (tr : Trace) (d : Db).

(** A client opened on an empty database, after any number of steps, with ports
    that answered as documented. *)
Definition Reached s : Prop :=
  reachable (body fa_id) empty_db s ∧ fair Answers Starts (w_trace (c_world s)).

Lemma empty_inv : FaInv fa_id {| w_db := empty_db; w_trace := [] |}.
Proof. by split; [intros t ?%elem_of_nil|]. Qed.

Lemma reached_sound s : Reached s →
  FaInv fa_id (c_world s) ∧ Forall (guarded (allowed fa_id)) (w_trace (c_world s)).
Proof.
  intros [Hr Hf]. pose proof (sound (FaInv fa_id) (allowed fa_id) Answers (body fa_id) Starts) as H.
  ospecialize (H _ _ empty_db s Hr empty_inv Hf).
  - apply FaInv_quiet.
  - apply body_ok.
  - by destruct H as (? & ? & _).
Qed.

(** The state in which a call was made. *)
Lemma call_sound s l c (a : Ans c) d tr : Reached s → w_trace (c_world s) = l ++ ECall c a d :: tr →
  FaInv fa_id {| w_db := d; w_trace := tr |} ∧ allowed fa_id c d.
Proof.
  intros HR E. pose proof HR as [Hr Hf]. destruct (reached_sound s HR) as [_ Hg].
  destruct (call_world _ _ _ _ _ _ _ _ Hr E) as (s' & Hr' & Ew). split.
  - rewrite <- Ew. apply reached_sound. split; [done|]. rewrite Ew. cbn. rewrite E in Hf.
    apply (fair_app Answers Starts (l ++ [ECall c a d])). by rewrite <- (assoc_L (++)).
  - rewrite E in Hg. apply Forall_app in Hg as [_ Hg]. by apply Forall_cons in Hg as [Hg _].
Qed.

Lemma inv_stored w f : FaInv fa_id w → d_formation (w_db w) = Some f →
  ∃ rows, Stored fa_id f rows w.
Proof.
  intros [_ HI] Hf. rewrite Hf in HI. destruct HI as (f' & rows & HS). exists rows.
  pose proof HS as (Hv & _). pose proof (vw_formation _ _ _ Hv) as Hf'. by assert (f' = f) as -> by congruence.
Qed.

Lemma inv_view w f rows : FaInv fa_id w → View (w_db w) f rows → Stored fa_id f rows w.
Proof.
  intros HI Hv. destruct (inv_stored w f HI (vw_formation _ _ _ Hv)) as (rows' & HS). pose proof HS as (Hv' & _).
  by destruct (View_unique _ _ _ _ _ Hv Hv') as [_ ->].
Qed.

(** ** Payments *)

(** C2: Every time the client asks its wallet to generate the payment of a
    quote, in any run: the record already says that outputs are started, holds
    the reservation the payment is taken from and the authorized aggregate,
    which names this quote for a row that is not accepted yet and whose
    admission is bound to exactly these terms; and the aggregate was authorized
    by the consumer under its id, or its total is within the cap of the
    intent. *)
Theorem payments_are_authorized s l reservation t x d tr : Reached s →
  w_trace (c_world s) = l ++ ECall (Send (CreateSeatPayment reservation t)) x d :: tr →
  ∃ f rows a i row, View d f rows ∧ sf_outputs_started f = true
    ∧ sf_payment_reservation_id f = Some (rv_id reservation)
    ∧ sf_payment_authorization f = Some a
    ∧ {| qa_index := Z.of_nat i; qa_quote_id := quote_id t |} ∈ pa_quotes a
    ∧ rows !! i = Some row ∧ ss_seat_id row = None ∧ armed row t
    ∧ (explicit a tr
       ∨ ∃ cap, in_max_total_msats (sf_intent f) = Some cap ∧ auth_total rows a <= cap).
Proof.
  intros HR E. destruct (call_sound _ _ _ _ _ _ HR E) as [HI (f & rows & a & i & row & Hv & Hst & Hrv & Ha & Hm & Hrow & Hseat & Harm)].
  destruct (inv_view _ f rows HI Hv) as (_ & _ & _ & Hg). exists f, rows, a, i, row.
  split_and!; try done. by apply (gh_cap _ _ _ _ Hg).
Qed.

(** C4: No payment is lost.  As long as no federation is formed, every quote
    whose payment was ever started is still the quote of a stored row whose
    admission is bound to it, or it was proved terminal (rejected by the wallet,
    or refused by its issuer with a settled refund) and its reservation
    released. *)
Theorem paid_quotes_are_kept s t : Reached s → t ∈ paid (w_trace (c_world s)) →
  d_formed (w_db (c_world s)) = None →
  ∃ f rows, View (w_db (c_world s)) f rows ∧ sf_outputs_started f = true
    ∧ ((∃ i row, rows !! i = Some row ∧ armed row t) ∨ terminated fa_id t (w_trace (c_world s))).
Proof.
  intros HR Ht Hno. destruct (reached_sound s HR) as [HI _]. pose proof HI as [_ HI'].
  destruct (d_formation (w_db (c_world s))) as [f|] eqn:Hf.
  - destruct (inv_stored _ f HI Hf) as (rows & Hv & _ & _ & Hg). exists f, rows. split_and!; [done| |].
    + destruct (sf_outputs_started f) eqn:Hst; [done|]. rewrite (gh_unstarted _ _ _ _ Hg Hst) in Ht. by apply elem_of_nil in Ht.
    + by apply (gh_kept _ _ _ _ Hg).
  - rewrite Hno in HI'. destruct HI' as [E _]. rewrite E in Ht. by apply elem_of_nil in Ht.
Qed.

(** Every quote whose payment was started asks for a payment, and its
    request named a refund that the wallet had prepared before. *)
Theorem payments_are_refundable s t : Reached s → t ∈ paid (w_trace (c_world s)) →
  is_Some (qt_payment t)
  ∧ ∃ refund, qr_refund_issuance (qt_request t) = Some refund ∧ refund ∈ refunds (w_trace (c_world s)).
Proof.
  intros HR Ht. destruct (reached_sound s HR) as [[HP _] _]. destruct (HP t Ht) as [Hp Hk].
  split; [done|]. by apply Hk.
Qed.

(** ** Reservations *)

(** C20: A client with neither a formation nor a formed federation, abandoned
    ones included, has started no payment and holds no wallet reservation that
    may still be live. *)
Theorem idle_client_owes_nothing s : Reached s →
  d_formation (w_db (c_world s)) = None → d_formed (w_db (c_world s)) = None →
  paid (w_trace (c_world s)) = [] ∧ maybe_live (w_trace (c_world s)) = ∅.
Proof.
  intros HR Hf Hfd. destruct (reached_sound s HR) as [[_ HI] _]. by rewrite Hf, Hfd in HI.
Qed.

(** Until the outputs of a formation are started no payment was generated,
    and the only wallet reservation that may be live is the one of the stored
    aggregate, which is authorized. *)
Theorem one_reservation_before_outputs s f : Reached s →
  d_formation (w_db (c_world s)) = Some f → sf_outputs_started f = false →
  paid (w_trace (c_world s)) = []
  ∧ ∀ id, id ∈ maybe_live (w_trace (c_world s)) →
      is_Some (sf_payment_authorization f)
      ∧ ∃ rows q, View (w_db (c_world s)) f rows ∧ requirements_of fa_id f rows = Ok (Some q)
          ∧ id = payment_reservation_id (sf_formation_id f) q.
Proof.
  intros HR Hf Hst. destruct (reached_sound s HR) as [HI _].
  destruct (inv_stored _ f HI Hf) as (rows & Hv & _ & _ & Hg). split; [by apply Hg|].
  intros id Hid. destruct (gh_live _ _ _ _ Hg Hst id Hid) as (Ha & q & Hq & E). split; [done|]. by exists rows, q.
Qed.

(** C8: A reservation is released only when it cannot be needed any more: if a
    reservation is recorded it is this one and the intent to release it is
    durable, and no quote of the authorized aggregate has ever been paid. *)
Theorem released_reservation_is_unused s l reservation x d tr : Reached s →
  w_trace (c_world s) = l ++ ECall (Send (ReleaseReservation reservation)) x d :: tr →
  ∃ f rows a, View d f rows ∧ sf_payment_authorization f = Some a
    ∧ (is_Some (sf_payment_reservation_id f) →
       sf_payment_reservation_id f = Some (rv_id reservation) ∧ sf_release_intended f = true)
    ∧ ∀ i row q, rows !! i = Some row → ss_signed_quote row = Some q → member a i q →
        sq_terms q ∉ paid tr.
Proof.
  intros HR E. destruct (call_sound _ _ _ _ _ _ HR E) as [HI (f & rows & a & Hv & Ha & Hrv & Hfresh)].
  destruct (inv_view _ f rows HI Hv) as (_ & _ & _ & Hg). exists f, rows, a. split_and!; try done.
  intros i row q Hi Hq Hm Hpaid. destruct (gh_bound _ _ _ _ Hg _ i row q Hpaid Hi Hq eq_refl) as [_ Hb].
  by rewrite (Hfresh i row q) in Hb.
Qed.

(** ** Presentations, DKG and publication *)

(** C16: A guardian is only ever asked to create a seat, as this assembler, for
    the quote stored for its row: the guardian's own signed quote, verified for
    the formation, to which the row's admission was durably bound; a paid one
    only after outputs were started. *)
Theorem presented_quotes_are_bound s l locator presenter q signatures x d tr : Reached s →
  w_trace (c_world s) = l ++ ECall (Send (CreateSeat locator presenter q signatures)) x d :: tr →
  presenter = fa_id
  ∧ ∃ f rows i row, View d f rows ∧ rows !! i = Some row ∧ ss_locator row = locator
      ∧ ss_signed_quote row = Some q
      ∧ verify_quote (Z.of_nat i) q locator (sf_intent f) fa_id (sf_payment_federation_id f)
        = Ok (sq_terms q)
      ∧ ad_state (ss_admission row)
        = EffectAuthorized (quote_id (sq_terms q)) (effect_of (sq_terms q))
      ∧ (is_Some (qt_payment (sq_terms q)) → sf_outputs_started f = true).
Proof.
  intros HR E. destruct (call_sound _ _ _ _ _ _ HR E) as [HI (f & rows & n & row & Hv & -> & Hn & Hl & Hq & Hb)].
  split; [done|]. destruct (inv_view _ f rows HI Hv) as (_ & _ & Hw & _).
  pose proof (wf_row _ _ _ Hw _ _ Hn) as Hok. exists f, rows, n, row. split_and!; try done.
  - rewrite <- Hl. by apply (ro_quote _ _ _ _ Hok).
  - intros [p Hp]. pose proof (ro_effect _ _ _ _ Hok) as He. unfold EffectOk in He. rewrite Hb in He.
    destruct He as [_ He]. apply He. unfold effect_of. by rewrite Hp.
Qed.

(** DKG is started with the complete list of guardian codes: one recorded
    code per row, in row order, every row accepted, as many as the federation
    has seats. *)
Theorem dkg_starts_with_all_codes s l locator seat codes callback x d tr : Reached s →
  w_trace (c_world s) = l ++ ECall (Send (StartDkg locator seat codes callback)) x d :: tr →
  ∃ f rows, View d f rows ∧ (ss_guardian_code <$> rows) = Some <$> codes
    ∧ Forall (λ row, is_Some (ss_seat_id row)) rows
    ∧ Z.of_nat (length codes) = in_federation_size (sf_intent f).
Proof.
  intros HR E. destruct (call_sound _ _ _ _ _ _ HR E) as [HI (f & rows & Hv & Hc & Hall)].
  destruct (inv_view _ f rows HI Hv) as (_ & _ & Hw & _).
  exists f, rows. split_and!; try done. rewrite <- (wf_size _ _ _ (wf_base _ _ _ Hw)), <- (vw_length _ _ _ Hv).
  apply (f_equal length) in Hc. rewrite !length_fmap in Hc. by rewrite Hc.
Qed.

(** A vote for federation metadata is only asked for with the target the
    record holds, after DKG completed with every seat accepted and every
    guardian code recorded. *)
Theorem votes_are_for_the_recorded_target s l locator seat base target x d tr : Reached s →
  w_trace (c_world s) = l ++ ECall (Send (ProposeFormationMeta locator seat base target)) x d :: tr →
  ∃ f rows, View d f rows ∧ sf_formation_meta_target f = Some target ∧ is_Some (sf_invite_code f)
    ∧ Forall (λ row, is_Some (ss_seat_id row) ∧ is_Some (ss_guardian_code row)) rows.
Proof.
  intros HR E. destruct (call_sound _ _ _ _ _ _ HR E) as [HI (f & Hf & Ht)].
  destruct (inv_stored _ f HI Hf) as (rows & Hv & _ & Hw & _). pose proof (wf_base _ _ _ Hw) as Hb.
  assert (Hph : stored_dkg_complete (sf_phase f) = true).
  { assert (is_Some (sf_formation_meta_target f)) as Hs by by rewrite Ht. by apply (wf_target _ _ _ Hb) in Hs as ->. }
  exists f, rows. split_and!; try done; [by apply (wf_invite _ _ _ Hb)|]. apply Forall_lookup. intros i row Hi.
  assert (Hcode := wf_codes _ _ _ Hb Hph i row Hi). split; [|done].
  by apply (co_code _ (ro_consistent _ _ _ _ (wf_row _ _ _ Hw _ _ Hi))).
Qed.

(** ** Recovery *)


End Assembler.
End Assembler.

(** * What the ids of a formation stand for

    Authorization, reservation and replacement ids are digests of texts the
    client encodes itself ([crates/fa-client/src/db.rs]).  The encodings are
    injective and separated by their tags, so that equal ids of a
    collision-free digest mean equal aggregates. *)

Module Ids.
Import Fa Quotes.

(** ** Encodings *)

Lemma length_be_bytes n x : length (be_bytes n x) = n.
Proof. revert x. induction n as [|n IH]; intros x; cbn; [done|]. rewrite length_app, IH. cbn. lia. Qed.

Lemma be_bytes_inj n x y : 0 <= x < 256 ^ Z.of_nat n → 0 <= y < 256 ^ Z.of_nat n →
  be_bytes n x = be_bytes n y → x = y.
Proof.
  revert x y. induction n as [|n IH]; intros x y Hx Hy E; [cbn in *; lia|].
  rewrite Nat2Z.inj_succ, Z.pow_succ_r in Hx, Hy by lia. cbn in E. apply app_inj_2 in E as [E1 E2]; [|done].
  injection E2 as E2. rewrite (Z.div_mod x 256), (Z.div_mod y 256) by lia. rewrite E2. f_equal. f_equal.
  apply IH; [| |done]; (split; [apply Z.div_pos; lia|apply Z.div_lt_upper_bound; lia]).
Qed.

Lemma be_bytes_app_inj n x y k k' : 0 <= x < 256 ^ Z.of_nat n → 0 <= y < 256 ^ Z.of_nat n →
  be_bytes n x ++ k = be_bytes n y ++ k' → x = y ∧ k = k'.
Proof.
  intros Hx Hy E. apply app_inj_1 in E as [E ->]; [|by rewrite !length_be_bytes].
  split; [by eapply be_bytes_inj|done].
Qed.

Lemma string_bytes_inj s s' : string_bytes s = string_bytes s' → s = s'.
Proof.
  intros E. rewrite <- (String.string_of_list_ascii_of_string s), <- (String.string_of_list_ascii_of_string s').
  f_equal. eapply list_fmap_eq_inj; [|exact E]. intros a b Hab%N2Z.inj.
  by rewrite <- (Ascii.ascii_N_embedding a), <- (Ascii.ascii_N_embedding b), Hab.
Qed.

(** A text short enough for its length prefix. *)
Definition short (s : string) : Prop := Z.of_nat (length (string_bytes s)) < 256 ^ 8.

Lemma prefixed_app_inj s s' k k' : short s → short s' →
  prefixed s ++ k = prefixed s' ++ k' → s = s' ∧ k = k'.
Proof.
  intros Hs Hs' E. unfold prefixed in E. rewrite <- !(assoc_L (++)) in E.
  apply be_bytes_app_inj in E as [El E]; [|unfold short in *; lia..].
  apply app_inj_1 in E as [E ->]; [|lia]. split; [by apply string_bytes_inj|done].
Qed.

(** ** Aggregates *)

(** A requirement within its machine widths: a [u16] index, a 32-byte quote id
    and [u64] millisatoshis. *)
Definition encodable (x : SeatPaymentRequirement) : Prop :=
  0 <= pr_index x < 256 ^ 2 ∧ 0 <= pr_quote_id x < 256 ^ 32
  ∧ short (pr_payment_federation_id x) ∧ 0 <= pr_amount_msats x < 256 ^ 8.

Definition encode_requirement (x : SeatPaymentRequirement) : list Z :=
  be_bytes 2 (pr_index x) ++ be_bytes 32 (pr_quote_id x)
  ++ prefixed (pr_payment_federation_id x) ++ be_bytes 8 (pr_amount_msats x).

(** What the text says of a row; the guardian follows from its quote. *)
Definition named (x : SeatPaymentRequirement) : Z * Z * string * Z :=
  (pr_index x, pr_quote_id x, pr_payment_federation_id x, pr_amount_msats x).

Lemma encode_requirement_inj x y k k' : encodable x → encodable y →
  encode_requirement x ++ k = encode_requirement y ++ k' → named x = named y ∧ k = k'.
Proof.
  intros (X1 & X2 & X3 & X4) (Y1 & Y2 & Y3 & Y4) E. unfold encode_requirement in E. rewrite <- !(assoc_L (++)) in E.
  apply be_bytes_app_inj in E as [E1 E]; [|done..]. apply be_bytes_app_inj in E as [E2 E]; [|done..].
  apply prefixed_app_inj in E as [E3 E]; [|done..]. apply be_bytes_app_inj in E as [E4 E]; [|done..].
  split; [|done]. unfold named. congruence.
Qed.

Lemma encode_requirements_inj l l' : Forall encodable l → Forall encodable l' → length l = length l' →
  mjoin (encode_requirement <$> l) = mjoin (encode_requirement <$> l') → named <$> l = named <$> l'.
Proof.
  revert l'. induction l as [|x l IH]; intros [|y l'] Hl Hl' Hlen E; try done.
  apply Forall_cons in Hl as [Hx Hl], Hl' as [Hy Hl']. cbn in E.
  apply encode_requirement_inj in E as [En E]; [|done..]. rewrite !fmap_cons, En. f_equal. apply IH; try done. by injection Hlen.
Qed.

(** ** Digests in text *)

Lemma string_app_list s s' :
  String.list_ascii_of_string (s +:+ s') = String.list_ascii_of_string s ++ String.list_ascii_of_string s'.
Proof. induction s as [|c s IH]; [done|]. exact (f_equal (cons c) IH). Qed.

Lemma length_hex_digits n x : length (string_bytes (hex_digits n x)) = n.
Proof.
  unfold string_bytes. rewrite length_fmap. revert x. induction n as [|n IH]; intros x; cbn; [done|].
  rewrite string_app_list, length_app, IH. cbn. lia.
Qed.

Lemma hex_digit_inj x y : 0 <= x < 16 → 0 <= y < 16 → hex_digit x = hex_digit y → x = y.
Proof.
  intros Hx Hy E. apply (f_equal Ascii.N_of_ascii) in E. unfold hex_digit in E.
  destruct (Z.ltb_spec x 10), (Z.ltb_spec y 10);
    rewrite Ascii.N_ascii_embedding in E by lia; rewrite Ascii.N_ascii_embedding in E by lia; lia.
Qed.

Lemma hex_digits_inj n x y : 0 <= x < 16 ^ Z.of_nat n → 0 <= y < 16 ^ Z.of_nat n →
  hex_digits n x = hex_digits n y → x = y.
Proof.
  revert x y. induction n as [|n IH]; intros x y Hx Hy E; [cbn in *; lia|].
  rewrite Nat2Z.inj_succ, Z.pow_succ_r in Hx, Hy by lia. cbn in E.
  apply (f_equal String.list_ascii_of_string) in E. rewrite !string_app_list in E.
  apply app_inj_2 in E as [E1 E2]; [|done]. injection E2 as E2.
  apply hex_digit_inj in E2; [|apply Z.mod_pos_bound; lia..].
  rewrite (Z.div_mod x 16), (Z.div_mod y 16) by lia. rewrite E2. f_equal. f_equal.
  apply IH; [| |]; [split; [apply Z.div_pos; lia|apply Z.div_lt_upper_bound; lia]..|].
  apply (f_equal String.string_of_list_ascii) in E1. by rewrite !String.string_of_list_ascii_of_string in E1.
Qed.

(** ** Ids *)

(** The texts whose digests are the authorization and the reservation id
    determine what they stand for: equal authorization texts have the same
    formation, total and list of rows, quotes, payer federations and prices;
    equal reservation texts the same formation and authorization; and no text
    of one kind is a text of the other. *)
Theorem ids_bind_the_aggregate fid fid' total total' l l' (q q' : PaymentRequirements) :
  short fid → short fid' → 0 <= total < 256 ^ 8 → 0 <= total' < 256 ^ 8 →
  Z.of_nat (length l) < 256 ^ 8 → Z.of_nat (length l') < 256 ^ 8 →
  Forall encodable l → Forall encodable l' →
  0 <= rq_authorization_id q < 256 ^ 32 → 0 <= rq_authorization_id q' < 256 ^ 32 →
  (authorization_preimage fid total l = authorization_preimage fid' total' l' →
     fid = fid' ∧ total = total' ∧ named <$> l = named <$> l')
  ∧ (reservation_preimage fid q = reservation_preimage fid' q' →
       fid = fid' ∧ rq_authorization_id q = rq_authorization_id q')
  ∧ authorization_preimage fid total l ≠ reservation_preimage fid' q'.
Proof.
  intros Hf Hf' Ht Ht' Hn Hn' Hl Hl' Ha Ha'. split_and!.
  - intros E. apply app_inv_head in E. apply prefixed_app_inj in E as [-> E]; [|done..].
    apply be_bytes_app_inj in E as [-> E]; [|done..]. apply be_bytes_app_inj in E as [El E]; [|lia..].
    split_and!; try done. apply encode_requirements_inj; try done. lia.
  - intros E. apply app_inv_head in E. apply prefixed_app_inj in E as [-> E]; [|done..]. split; [done|].
    rewrite <- (app_nil_r (prefixed (encode_canonical_digest (rq_authorization_id q)))) in E.
    rewrite <- (app_nil_r (prefixed (encode_canonical_digest (rq_authorization_id q')))) in E.
    assert (Hs : ∀ x, short (encode_canonical_digest x)).
    { intros x. unfold short, encode_canonical_digest. by rewrite length_hex_digits. }
    apply prefixed_app_inj in E as [E _]; [|apply Hs..]. by apply (hex_digits_inj 64) in E.
  - intros E. apply (f_equal (take 24)) in E. done.
Qed.

End Ids.

(** * The driver lease

    One driver run at a time changes a formation: the mutation lease of the
    store ([crates/fa-client/src/db.rs]) is taken at the start of a run, renewed
    during it, and checked by every transaction that must not race. *)

Module Lease.
Import Fa Quotes Store.

Section Lease.
Context {CR : Crypto}.

(** What a driver run commits under its lease. *)
Inductive LeaseOp :=
| OpAcquire (max_duration renewal_duration owner : Z)
| OpRenew (lease : DriverLease)
| OpRelease (owner : Z)
| OpOutputs (fid : string) (provenance : VerifierProvenance) (lease : DriverLease)
| OpEffects (fid : string) (effects : list (Z * Z * AdmissionEffect))
    (provenance : VerifierProvenance) (lease : DriverLease)
| OpRestore (fid : string) (released : option ReleasedReservation) (lease : DriverLease)
| OpAbandon (fid : string) (lease : DriverLease)
| OpTransfer (fa_id : Z) (write : GuardianTransferWrite) (lease : DriverLease).

Definition op_owner (op : LeaseOp) : Z :=
  match op with
  | OpAcquire _ _ owner | OpRelease owner => owner
  | OpRenew lease | OpOutputs _ _ lease | OpEffects _ _ _ lease | OpRestore _ _ lease
  | OpAbandon _ lease | OpTransfer _ _ lease => lh_owner lease
  end.

Definition forget {A} (t : FaTx A) : FaTx unit := t;; mret tt.
Definition commit (now : Z) (op : LeaseOp) : FaTx unit :=
  match op with
  | OpAcquire max renewal owner => forget (acquire_driver_lease now max renewal owner)
  | OpRenew lease => forget (renew_driver_lease lease now)
  | OpRelease owner => release_driver_lease_owner owner
  | OpOutputs fid provenance lease => forget (record_payment_outputs_started fid provenance lease now)
  | OpEffects fid effects provenance lease =>
      forget (record_seat_effects_authorized fid effects provenance lease now)
  | OpRestore fid released lease => forget (restore_provisional_replacements fid released lease now)
  | OpAbandon fid lease => forget (abandon_formation fid lease now)
  | OpTransfer fa_id write lease => write_guardian_transfer fa_id write lease now
  end.

Lemma forget_Err {A} (t : FaTx A) d e : t d = Err e → forget t d = Err e.
Proof. unfold forget, mbind, tx_bind. by intros ->. Qed.

Lemma fence_refuses {A} lease now l d (k : Z → FaTx A) : d_lease d = Some l → dl_owner l ≠ lh_owner lease →
  ∃ e, (fence lease now ≫= k) d = Err e.
Proof.
  intros Hl Hne. unfold fence, mbind, tx_bind, tx_get. rewrite Hl. cbn. unfold tx_lift, ok_or.
  destruct (checked_add_u _ _ _); cbn; [|by eexists].
  rewrite (proj2 (Z.eqb_neq _ _) Hne). by eexists.
Qed.

(** A rival's transaction leaves the database alone. *)
Lemma rival_step l d now op : d_lease d = Some l → op_owner op ≠ dl_owner l → now < dl_expires_at l →
  (run_tx (commit now op) d).1 = d.
Proof.
  intros Hl Hne Hnow.
  assert (Hrun : (∃ e, commit now op d = Err e) → (run_tx (commit now op) d).1 = d).
  { intros [e He]. unfold run_tx. by rewrite He. }
  assert (Hfence : ∀ {A} lease (k : Z → FaTx A), lh_owner lease ≠ dl_owner l →
    ∃ e, forget (fence lease now ≫= k) d = Err e).
  { intros A lease k Hk. destruct (fence_refuses lease now l d k Hl (not_eq_sym Hk)) as [e He].
    exists e. by apply forget_Err. }
  destruct op as [max renewal owner|lease|owner|fid p lease|fid l' p lease|fid rel lease|fid lease|fa_id write lease];
    cbn in Hne.
  - apply Hrun. cbn. unfold forget, acquire_driver_lease, mbind, tx_bind, tx_get, tx_lift, ok_or.
    destruct (checked_add_u _ _ _); cbn; [|by eexists]. destruct (checked_add_u _ _ _); cbn; [|by eexists].
    rewrite Hl, (proj2 (Z.ltb_lt _ _) Hnow). by eexists.
  - apply Hrun. cbn. unfold forget, renew_driver_lease, mbind, tx_bind, tx_get, tx_lift, ok_or. rewrite Hl. cbn.
    destruct (checked_add_u _ _ _); cbn; [|by eexists]. destruct (checked_add_u _ _ _); cbn; [|by eexists].
    rewrite (proj2 (Z.eqb_neq _ _) (not_eq_sym Hne)). by eexists.
  - unfold run_tx. cbn. unfold release_driver_lease_owner, mbind, tx_bind, tx_get. rewrite Hl.
    by rewrite (proj2 (Z.eqb_neq _ _) (not_eq_sym Hne)).
  - apply Hrun, Hfence, Hne.
  - apply Hrun. cbn. destruct l'; [by exists Storage|]. apply Hfence, Hne.
  - apply Hrun, Hfence, Hne.
  - apply Hrun, Hfence, Hne.
  - apply Hrun. cbn. unfold write_guardian_transfer, mbind, tx_bind, tx_get. rewrite Hl.
    rewrite (proj2 (Z.eqb_neq _ _) (not_eq_sym Hne)). by eexists.
Qed.

Definition commits (d : Db) (l : list (Z * LeaseOp)) : Db :=
  foldl (λ d x, (run_tx (commit x.1 x.2) d).1) d l.

(** C24: While a lease has not run out, driver runs of other owners change
    nothing: whatever they try to acquire, renew, release, or commit under the
    leases they hold, in any order and number, leaves the database as it was. *)
Theorem rivals_change_nothing d l ops : d_lease d = Some l →
  Forall (λ x, op_owner x.2 ≠ dl_owner l ∧ x.1 < dl_expires_at l) ops → commits d ops = d.
Proof.
  intros Hl Hops. revert d Hl. induction Hops as [|[now op] ops [Hne Hnow] Hops IH]; intros d Hl; [done|].
  unfold commits. cbn. rewrite (rival_step l) by done. by apply IH.
Qed.

End Lease.
End Lease.

(** * Formations that cannot be read

    Every entry point of the federation assembler client starts by reading the
    stored formation back.  A formation whose recovery fails is therefore never
    changed again, by any entry point: neither driven, nor repaired, nor
    abandoned. *)

Module Stuck.
Import Fa Quotes Store Run Calls Driver Formation Logic Inv Views Readable Calm.

Section Stuck.
Context {CR : Crypto} {PO : Policy} {FE : Federation}.
Variable fa_id : Z.

Lemma indexed_rows_same fid l d d' : d_seats d' = d_seats d →
  ∃ r : res FaError (list StoredSeat),
    indexed_rows fid l d = (x ← r; Ok (d, x)) ∧ indexed_rows fid l d' = (x ← r; Ok (d', x)).
Proof.
  intros Hs. induction l as [|i l (r & E & E')]; cbn; [by exists (Ok [])|].
  unfold mbind, tx_bind, seat_row, tx_get, tx_lift in *. cbn. unfold mbind, tx_bind. rewrite Hs.
  destruct (d_seats d !! (fid, i)) as [s|]; cbn; [|by exists (Err Storage)].
  destruct (ss_index s =? i); cbn; [|by exists (Err Storage)]. rewrite E, E'.
  destruct r as [x|e|]; [by exists (Ok (s :: x))|by exists (Err e)|by exists Panic].
Qed.

(** A formation in progress that [load_recovery] refuses to recover. *)
Definition unreadable (d : Db) : bool :=
  match d_formation d with
  | Some f =>
      (sf_schema_version f =? STORAGE_SCHEMA_VERSION) && negb (bool_decide (sf_phase f = Formed))
      && match indexed_rows (sf_formation_id f) (seat_indices f) d with
         | Ok (_, rows) => match formation_recovery f rows fa_id with Ok _ => false | _ => true end
         | _ => true
         end
  | None => false
  end.

Lemma unreadable_same d d' : same_formation d d' → unreadable d' = unreadable d.
Proof.
  intros (Hf & Hs & _). unfold unreadable. rewrite Hf. destruct (d_formation d) as [f|]; [|done].
  destruct (indexed_rows_same (sf_formation_id f) (seat_indices f) d d' Hs) as (r & -> & ->). by destruct r.
Qed.

Lemma unreadable_migrate d : unreadable d = true → migrate_schema_11 d = Ok (d, tt).
Proof.
  unfold unreadable, migrate_schema_11, mbind, tx_bind, tx_get. destruct (d_formation d) as [f|]; [|done].
  by intros [[-> %Z.eqb_eq _]%andb_true_iff _]%andb_true_iff.
Qed.

Lemma unreadable_load d x : unreadable d = true → load_recovery fa_id d ≠ Ok x.
Proof.
  unfold unreadable, load_recovery. erewrite tx_bind_eq by done. destruct (d_formation d) as [f|]; [|done].
  intros [[-> %Z.eqb_eq Hp]%andb_true_iff Hr]%andb_true_iff H. destruct x as [d' r]. cbn -[mbind tx_bind] in H. tx_inv.
  destruct (indexed_rows_same (sf_formation_id f) (seat_indices f) d d eq_refl) as (rows & E & _).
  match goal with H : indexed_rows _ _ _ = Ok _ |- _ => rewrite H in E, Hr end.
  destruct rows; [|done..]. cbn in E. simplify_eq. apply negb_true_iff in Hp. rewrite Hp in H. tx_inv.
  match goal with H : formation_recovery _ _ _ = Ok _ |- _ => by rewrite H in Hr end.
Qed.

(** ** Programs that leave the formation alone *)

Context (d0 : Db).
Hypothesis d0_unreadable : unreadable d0 = true.

Abbreviation AWorld := (World Entry).
Definition Same (w : AWorld) : Prop := same_formation d0 (w_db w).
Definition silent (c : Ext) (_ : Db) : Prop := match c with Send _ => False | _ => True end.
Abbreviation any := (λ _ _ _, True).
Abbreviation wp := (Logic.wp Same silent any).

Definition keeps {A} (p : Prog A) : Prop := ∀ w, Same w → wp p (λ _, Same) w.
(** Programs that report no success. *)
Definition fails {A} (p : M A) : Prop :=
  ∀ w, Same w → wp p (λ r w', Same w' ∧ ∀ a, r ≠ Ok a) w.

Lemma fails_keeps {A} (p : M A) : fails p → keeps p.
Proof. intros Hp w Hw. eapply wp_weaken; [by apply Hp|]. by intros r w' _ []. Qed.

Lemma keeps_pbind {A B} (p : Prog A) (k : A → Prog B) : keeps p → (∀ a, keeps (k a)) → keeps (pbind p k).
Proof.
  intros Hp Hk w Hw. apply wp_pbind. eapply wp_weaken; [by apply Hp|]. intros a w' _. apply Hk.
Qed.
Lemma keeps_bind {A B} (p : M A) (k : A → M B) : keeps p → (∀ a, keeps (k a)) → keeps (p ≫= k).
Proof. intros Hp Hk. apply keeps_pbind; [done|]. intros [a|e|]; [apply Hk|by intros w..]. Qed.
Lemma keeps_ask c : silent c d0 → keeps (ask c).
Proof. intros Hc w Hw. split; [done|]. by intros a _. Qed.
Lemma keeps_stmt {A} (t : FaTx A) : tx_rel same_formation t → keeps (stmt t).
Proof.
  intros Ht w Hw. split; [done|]. pose proof (tx_rel_run same_formation t (w_db w) Ht) as Hr.
  destruct (run_tx t (w_db w)) as [d' r]. assert (same_formation d0 d') by by etrans. by split.
Qed.

Lemma fails_bind {A B} (p : M A) (k : A → M B) : fails p → fails (p ≫= k).
Proof.
  intros Hp w Hw. apply wp_pbind. eapply wp_weaken; [by apply Hp|].
  intros [a|e|] w' _ [Hs Hne]; [by destruct (Hne a)|done..].
Qed.

(** ** The entry points *)

Lemma fails_load : fails (load fa_id).
Proof.
  assert (Hread : fails (stmt (load_recovery fa_id))).
  { intros w Hw. split; [done|]. unfold run_tx. destruct (load_recovery fa_id (w_db w)) as [x|e|] eqn:E; [|done..].
    destruct (unreadable_load (w_db w) x); [by erewrite unreadable_same|done]. }
  intros w Hw. apply wp_pbind. split; [intros busy; by split|].
  unfold run_tx. rewrite unreadable_migrate by by erewrite unreadable_same. split; [done|]. by apply Hread.
Qed.
Lemma fails_active : fails (active_recovery fa_id).
Proof. apply fails_bind, fails_load. Qed.

Lemma keeps_driver_run options p : (∀ lease, fails (p lease)) → keeps (driver_run options p).
Proof.
  intros Hp. unfold driver_run. repeat (apply keeps_bind; [|intros ?]); try by apply keeps_ask.
  - apply keeps_stmt, acquire_same.
  - apply keeps_pbind; [by apply fails_keeps|]. intros r. apply keeps_pbind; [|by intros r' w].
    apply keeps_stmt, release_same.
Qed.

Lemma keeps_body h : keeps (body fa_id h).
Proof.
  apply keeps_pbind; [|by intros r w]. destruct h; try (apply keeps_driver_run; intros lease; apply fails_bind;
    first [apply fails_load|apply fails_active]).
  unfold create. do 3 (apply keeps_bind; [first [by apply keeps_ask|by intros w]|intros ?]).
  match goal with x : FormationIntent * _ |- _ => destruct x as [intent' seats] end.
  apply keeps_driver_run. intros lease. apply fails_bind, fails_load.
Qed.

End Stuck.

(** Whatever a consumer starts on an unreadable formation, whatever is
    answered: the formation stays as it is, and no port is contacted. *)
Lemma unreadable_stays {CR : Crypto} {PO : Policy} {FE : Federation} fa_id d s :
  unreadable fa_id d = true → reachable (body fa_id) d s →
  same_formation d (w_db (c_world s))
  ∧ Forall (λ e, match e with ECall (Send _) _ _ => False | _ => True end) (w_trace (c_world s)).
Proof.
  intros Hd Hr.
  destruct (sound (Same d) silent (λ _ _ _, True) (body fa_id) (λ _, True)) with (d := d) (s := s)
    as (HI & Hg & _).
  - unfold Same. intros w w' (_ & Hs & _) Hw. by etrans.
  - intros h w Hw _ _. eapply wp_weaken; [by apply keeps_body|]. done.
  - exact Hr.
  - by unfold Same.
  - clear. induction (w_trace (c_world s)) as [|[] tr IH]; by repeat split.
  - split; [done|]. eapply Forall_impl; [exact Hg|]. by intros [].
Qed.

End Stuck.
