(* ===== verification/FaDemo.v ===== *)
(** * Runs of a federation assembler

    Concrete runs with seven guardians, one of them paid: a wallet, guardians and
    a federation that answer as documented.  They show that the theorems about
    runs apply, and what the client does when a guardian quotes an enormous
    price. *)

From S2P Require Import Prelude FaSchema FaQuotes FaStore FaProg FaCalls FaDriver FaFormation FaLogic FaInvariant FaTheorems.
From stdpp Require Import base gmap strings list pretty.
From Stdlib Require Import ZArith Lia.
Open Scope Z_scope.

Module FaDemo.
Import Fa Quotes Store Run Calls Driver Formation Logic Inv Assembler Ids Lease Stuck.

(** ** The environment *)

#[local] Instance demo_crypto : Crypto := {
  verifies k q := sq_signature q =? k;
  response_verifies k r := sp_signature r =? k;
  payload_sha256 t := qt_quote_nonce t;
  sha256 l := foldl (λ acc b, (acc * 31 + b) mod 65536) 7 l
}.
#[local] Instance demo_policy : Policy := {
  authenticates _ := true;
  admits _ _ current := match current with None => true | _ => false end;
  federations_of _ := ["fed"%string]
}.
Definition account : Account := {| ac_type := BtcDepositor; ac_keys := [1]; ac_threshold := 1 |}.
(** The invites of the guardians are their peer numbers. *)
Definition peer_of (s : string) : Z :=
  match s with String a EmptyString => Z.of_nat (Ascii.nat_of_ascii a) - 48 | _ => 0 end.
#[local] Instance demo_federation : Federation := {
  parse_invite s := Some {| iv_federation_id := 9; iv_api_secret := false; iv_peers := {[ peer_of s := s ]} |};
  render_invite _ _ := "joint"%string;
  canonical_bindings _ := Some "bindings"%string;
  bindings_verify _ _ := true;
  fee_recipients _ _ _ _ := Ok "recipients"%string;
  formed_fee_account _ := Some account;
  verification_fee_account := Some account;
  min_guardian_fee_ppm _ := 0
}.

Definition version : FedimintdVersion :=
  {| fv_core := {| vc_major := 0; vc_minor := 8; vc_patch := 1 |}; fv_pre := ""; fv_build := "fedi" |}.
Definition versions : VersionRange :=
  {| vr_minimum := {| vc_major := 0; vc_minor := 8; vc_patch := 0 |};
     vr_maximum_exclusive := {| vc_major := 0; vc_minor := 9; vc_patch := 0 |} |}.

(** The prices the guardians quote, by service key. *)
Section Ports.
Variable price : Z → Z.

Definition quote (k n : Z) (r : GetQuoteRequest) : SignedQuote :=
  {| sq_terms :=
       {| qt_quote_nonce := n; qt_offer_epoch := 1; qt_request := r; qt_price_msats := price k;
          qt_payment := (λ f, PayMintV2 f [{| l2_amount_msats := price k; l2_blind_nonce := 1;
                                              l2_tweak := 1 |}]) <$> qr_payment_federation_id r |};
     sq_signature := k |}.

Definition voted (tr : Trace) : bool :=
  existsb (λ e, match e with ECall (Send (ProposeFormationMeta _ _ _ _)) _ _ => true | _ => false end) tr.
Definition metadata : MetaValue :=
  {| mv_bytes := 10; mv_hash := 1;
     mv_fields := Some (list_to_map
       [("fedi:fman_seat_bindings", Some "bindings");
        ("fedi:guardian_fee_remittance_account", Some "recipients");
        ("fedi:guardian_fee_send_ppm", Some "5000")]%string) |}.

Definition prepared : PreparedSeatPayment :=
  {| pp_payment_signatures := [1]; pp_settled_under := GenMintV2; pp_refund_context := 3 |}.

(** Answers that agree with what was asked before; [length tr] numbers quotes
    and refunds. *)
Definition reply (tr : Trace) (r : Req) : Reply r :=
  let n := Z.of_nat (length tr) in
  match r with
  | RecoverReservation id _ => inr (if decide (id ∈ maybe_live tr) then Some 5 else None)
  | Reserve _ _ => Reserved 5
  | ReleaseReservation _ => inr tt
  | RecoverSeatPayment _ t => inr (if decide (t ∈ paid tr) then Prepared prepared else NotStarted)
  | CreateSeatPayment _ _ => inr prepared
  | SettleSeatRefund _ _ => inr 1
  | ReleaseSeatReservation _ => inr tt
  | PrepareQuoteRefund _ _ => inr (RefundMintV2 n [])
  | PayableFederations l => inr l
  | FetchSetupPaymentFederations => [{| ev_id := 1; ev_created_at := 1; ev_content := "" |}]
  | Connect _ => inr tt
  | GetAvailability l =>
      inr {| av_accepting_seats := true; av_federation_sizes := [7];
             av_fedimintd_version := version;
             av_plans := [InfiniteBestEffort (price (service_pubkey l))] |}
  | GetQuote l r => inr (quote (service_pubkey l) n r)
  | CreateSeat l _ q _ =>
      inr {| sp_quote_id := quote_id (sq_terms q);
             sp_outcome := SeatAccepted (service_pubkey l + 50) account;
             sp_signature := service_pubkey l |}
  | GetDkgCode l _ _ => inr "code"%string
  | StartDkg _ _ _ _ => inr tt
  | RestartDkg _ _ _ => inr StDkgInProcess
  | GetStatus _ _ => inr (StRunning, true)
  | GetInviteCode l _ => inr (pretty (service_pubkey l - 100))
  | GetPeerAttestation _ _ =>
      inr {| at_account := account; at_attestation := 1; at_endpoint_proof := 1 |}
  | ProposeFormationMeta _ _ _ _ => inr tt
  | ReadConsensus _ =>
      inr {| cs_config := 1; cs_meta_value := if voted tr then Some metadata else None;
             cs_meta_revision := if voted tr then Some 1 else None |}
  end.
Definition oracle (tr : Trace) (c : Ext) : Ans c :=
  match c return Ans c with
  | Send _ => tt
  | Recv r => Some (reply tr r)
  | Now => 1000
  | TimeRemains => true
  | RenewalsWhilePending => 1%nat
  | Rounds => 1%nat
  | RandomOwner => 7
  | Provenance => Production
  | Schedule => [1; 0; 1; 0]%nat
  | Sign => true
  end.

(** The assembler of id 42, one step at a time. *)
Abbreviation assembler := (body 42).
Definition step (s : Client Entry) : option (Client Entry) :=
  match c_running s with
  | None => None
  | Some (Done _) => act assembler Finish s
  | Some (Stmt _ _) => act assembler Exec s
  | Some (Call _ _) => act assembler (Answer (oracle (w_trace (c_world s)))) s
  end.
Fixpoint play (n : nat) (s : Client Entry) : Client Entry :=
  match n with
  | O => s
  | S n => match step s with Some s' => play n s' | None => s end
  end.
(** A choice that may not be open is skipped. *)
Definition choose (choice : Choice Entry) (s : Client Entry) : Client Entry :=
  default s (act assembler choice s).

Lemma step_reachable d s s' : reachable assembler d s → step s = Some s' → reachable assembler d s'.
Proof.
  intros Hr. unfold step. destruct (c_running s) as [[u|B t k|c k]|]; [..|done]; intros H; by eapply reach_act.
Qed.
Lemma play_reachable d n s : reachable assembler d s → reachable assembler d (play n s).
Proof.
  revert s. induction n as [|n IH]; intros s Hr; cbn; [done|].
  destruct (step s) as [s'|] eqn:Hs; [|done]. apply IH. by eapply step_reachable.
Qed.
Lemma choose_reachable d choice s : reachable assembler d s → reachable assembler d (choose choice s).
Proof. intros Hr. unfold choose. destruct (act _ choice s) eqn:Ha; [by eapply reach_act|done]. Qed.

End Ports.

(** ** Fairness, decided *)

Definition answers_b (c : Ext) : Ans c → Trace → bool :=
  match c return Ans c → Trace → bool with
  | Recv (PrepareQuoteRefund _ _) =>
      λ a tr, match a with Some (inr refund) => bool_decide (refund ∉ refunds tr) | _ => true end
  | Recv (RecoverSeatPayment _ t) =>
      λ a tr, match a with Some (inr (Prepared _ | Rejected _)) => bool_decide (t ∈ paid tr) | _ => true end
  | Recv (GetQuote _ _) =>
      λ a _, match a with
             | Some (inr q) => qt_price_msats (sq_terms q) * u16_max <=? u64_max
             | _ => true
             end
  | _ => λ _ _, true
  end.
Definition starts_b (h : Entry) : bool :=
  match h with
  | PayAndCreate intent a _ _ _ =>
      (fi_federation_size intent <=? u16_max)
      && bool_decide (NoDup (as_holder <$> sl_seats a)) && bool_decide (NoDup (as_mg_id <$> sl_seats a))
      && bool_decide (NoDup ((λ s, service_pubkey (as_locator s)) <$> sl_seats a))
  | _ => true
  end.
Fixpoint fair_b (tr : Trace) : bool :=
  match tr with
  | [] => true
  | e :: tr =>
      match e with ECall c a _ => answers_b c a tr | EStart h => starts_b h | _ => true end && fair_b tr
  end.

Lemma answers_b_ok c a tr : answers_b c a tr = true → Answers c a tr.
Proof.
  destruct c as [r|r| | | | | | | | ]; try done. destruct r; cbn; try done; destruct a as [[u|v]|]; try done.
  - destruct v; [done|by intros ?%bool_decide_eq_true..].
  - by intros ?%bool_decide_eq_true.
  - by intros ?%Z.leb_le.
Qed.
Lemma starts_b_ok h : starts_b h = true → Starts h.
Proof.
  destruct h; try done. cbn. intros [[[?%Z.leb_le ?%bool_decide_eq_true]%andb_true_iff ?%bool_decide_eq_true]%andb_true_iff
    ?%bool_decide_eq_true]%andb_true_iff. by split_and!.
Qed.
Lemma fair_b_ok tr : fair_b tr = true → fair Answers Starts tr.
Proof.
  induction tr as [|e tr IH]; cbn; [done|]. intros [He Ht]%andb_true_iff. split; [|by apply IH].
  destruct e; [by apply starts_b_ok|done|by apply answers_b_ok|done].
Qed.

(** ** Runs *)

Definition approved (k : Z) : ApprovedSeat :=
  {| as_mg_id := k; as_holder := k + 1000; as_locator := {| service_pubkey := k; endpoint_addr := 1 |} |}.
Definition approval : SelectionApproval :=
  {| sl_seats := approved <$> [100; 101; 102; 103; 104; 105; 106]; sl_federation_size := 7; sl_fedimintd_versions := versions;
     sl_plan := PreferInfiniteBestEffort; sl_verifier_provenance := Production; sl_valid_until := 2000;
     sl_fedimintd_dkg_version := dkg_version version; sl_max_total_msats := 10000 |}.
Definition intent : FormationIntent :=
  {| fi_federation_name := Some "Demo"%string; fi_federation_size := 7; fi_plan := PreferInfiniteBestEffort;
     fi_fedimintd_versions := versions; fi_max_total_msats := None |}.
Definition options : RunOptions := {| ro_lease_duration := 600; ro_lease_renewal_duration := 60 |}.

Definition usual (k : Z) : Z := if k =? 100 then 500 else 0.
Definition started : Client Entry :=
  choose (Start (PayAndCreate intent approval (Some "fed"%string) None options)) (opened empty_db).
(** The whole run, and how far it got after [n] steps. *)
Definition after_steps (n : nat) : Client Entry := play usual n started.
(** The process dies there; a later one abandons the formation. *)
Definition abandoned (n : nat) : Client Entry :=
  play usual 400 (choose (Start (Abandon options)) (choose ReleaseDropped (choose Crash (after_steps n)))).

Lemma after_steps_reached n :
  fair_b (w_trace (c_world (after_steps n))) = true → Reached 42 (after_steps n).
Proof. intros Hf. split; [apply play_reachable, choose_reachable, reach_open|by apply fair_b_ok]. Qed.
Lemma abandoned_reached n :
  fair_b (w_trace (c_world (abandoned n))) = true → Reached 42 (abandoned n).
Proof.
  intros Hf. split; [|by apply fair_b_ok].
  apply play_reachable. do 3 apply choose_reachable. apply play_reachable, choose_reachable, reach_open.
Qed.

#[local] Opaque after_steps abandoned.

(** A call that was made, in a trace. *)
Definition made (p : Req → bool) (e : Event) : bool :=
  match e with ECall (Send r) _ _ => p r | _ => false end.
Lemma find_call p (tr : Trace) : existsb (made p) tr = true →
  ∃ l r x d tr', tr = l ++ ECall (Send r) x d :: tr' ∧ p r = true.
Proof.
  intros (e & He & Hp)%existsb_exists. apply in_split in He as (l & tr' & ->).
  destruct e as [h|d d'|c x d|]; try done. destruct c; try done. by exists l, r, x, d, tr'.
Qed.

(** ** The theorems, applied *)

Lemma payments_are_authorized_witness :
  ∃ l reservation t x d tr f,
    w_trace (c_world (after_steps 850)) = l ++ ECall (Send (CreateSeatPayment reservation t)) x d :: tr
    ∧ d_formation d = Some f ∧ sf_outputs_started f = true.
Proof.
  destruct (find_call (λ r, match r with CreateSeatPayment _ _ => true | _ => false end)
              (w_trace (c_world (after_steps 850)))) as (l & r & x & d & tr & E & Hr); [by vm_compute|].
  destruct r as [| | | |reservation t| | | | | | | | | | | | | | | | | ]; try discriminate Hr.
  destruct (payments_are_authorized 42 _ _ _ _ _ _ _ (after_steps_reached 850 ltac:(by vm_compute)) E)
    as (f & rows & a & i & row & Hv & Hst & _).
  exists l, reservation, t, x, d, tr, f. split; [exact E|]. split; [apply Hv|exact Hst].
Defined.

(** The state after the payment and before DKG. *)
Lemma some_paid : ∃ t, t ∈ paid (w_trace (c_world (after_steps 850))).
Proof.
  destruct (paid (w_trace (c_world (after_steps 850)))) as [|t l] eqn:E; [|by exists t; left].
  assert (length (paid (w_trace (c_world (after_steps 850)))) = 1%nat) as Hl by by vm_compute.
  by rewrite E in Hl.
Qed.

Lemma paid_quotes_are_kept_witness :
  ∃ t f, t ∈ paid (w_trace (c_world (after_steps 850)))
    ∧ d_formation (w_db (c_world (after_steps 850))) = Some f ∧ sf_outputs_started f = true.
Proof.
  destruct some_paid as [t Ht].
  destruct (paid_quotes_are_kept 42 (after_steps 850) t (after_steps_reached 850 ltac:(by vm_compute)) Ht)
    as (f & rows & Hv & Hst & _); [by vm_compute|].
  exists t, f. split; [exact Ht|]. split; [apply Hv|exact Hst].
Defined.

Lemma payments_are_refundable_witness :
  ∃ t refund, t ∈ paid (w_trace (c_world (after_steps 850)))
    ∧ qr_refund_issuance (qt_request t) = Some refund
    ∧ refund ∈ refunds (w_trace (c_world (after_steps 850))).
Proof.
  destruct some_paid as [t Ht].
  destruct (payments_are_refundable 42 (after_steps 850) t (after_steps_reached 850 ltac:(by vm_compute)) Ht)
    as [_ (refund & Hr & Hk)].
  exists t, refund. exact (conj Ht (conj Hr Hk)).
Defined.

Lemma idle_client_owes_nothing_witness :
  paid (w_trace (c_world (abandoned 560))) = [] ∧ maybe_live (w_trace (c_world (abandoned 560))) = ∅.
Proof.
  apply (idle_client_owes_nothing 42 (abandoned 560) (abandoned_reached 560 ltac:(by vm_compute)));
    by vm_compute.
Defined.

Lemma one_reservation_before_outputs_witness :
  ∃ f id, d_formation (w_db (c_world (after_steps 490))) = Some f
    ∧ id ∈ maybe_live (w_trace (c_world (after_steps 490))) ∧ is_Some (sf_payment_authorization f).
Proof.
  destruct (d_formation (w_db (c_world (after_steps 490)))) as [f|] eqn:Hf.
  2:{ assert (bool_decide (d_formation (w_db (c_world (after_steps 490))) = None) = false) as Hb by by vm_compute.
      by rewrite Hf in Hb. }
  assert (Hst : (sf_outputs_started <$> d_formation (w_db (c_world (after_steps 490)))) = Some false)
    by by vm_compute.
  rewrite Hf in Hst. injection Hst as Hst.
  assert (Hne : bool_decide (maybe_live (w_trace (c_world (after_steps 490))) = ∅) = false) by by vm_compute.
  apply bool_decide_eq_false in Hne. apply set_choose_L in Hne as [id Hid].
  destruct (one_reservation_before_outputs 42 (after_steps 490) f (after_steps_reached 490 ltac:(by vm_compute))
              Hf Hst) as [_ Hlive].
  exists f, id. split; [reflexivity|]. split; [exact Hid|]. apply (Hlive id Hid).
Defined.

Lemma released_reservation_is_unused_witness :
  ∃ l reservation x d tr f,
    w_trace (c_world (abandoned 560)) = l ++ ECall (Send (ReleaseReservation reservation)) x d :: tr
    ∧ d_formation d = Some f ∧ is_Some (sf_payment_authorization f).
Proof.
  destruct (find_call (λ r, match r with ReleaseReservation _ => true | _ => false end)
              (w_trace (c_world (abandoned 560)))) as (l & r & x & d & tr & E & Hr); [by vm_compute|].
  destruct r as [| |reservation| | | | | | | | | | | | | | | | | | | ]; try discriminate Hr.
  destruct (released_reservation_is_unused 42 _ _ _ _ _ _ (abandoned_reached 560 ltac:(by vm_compute)) E)
    as (f & rows & a & Hv & Ha & _).
  exists l, reservation, x, d, tr, f. split; [exact E|]. split; [apply Hv|by exists a].
Defined.

Lemma presented_quotes_are_bound_witness :
  ∃ l locator presenter q signatures x d tr,
    w_trace (c_world (after_steps 850))
      = l ++ ECall (Send (CreateSeat locator presenter q signatures)) x d :: tr
    ∧ presenter = 42.
Proof.
  destruct (find_call (λ r, match r with CreateSeat _ _ _ _ => true | _ => false end)
              (w_trace (c_world (after_steps 850)))) as (l & r & x & d & tr & E & Hr); [by vm_compute|].
  destruct r as [| | | | | | | | | | | | |locator presenter q signatures| | | | | | | | ]; try discriminate Hr.
  destruct (presented_quotes_are_bound 42 _ _ _ _ _ _ _ _ _ (after_steps_reached 850 ltac:(by vm_compute)) E)
    as [Hp _].
  exists l, locator, presenter, q, signatures, x, d, tr. exact (conj E Hp).
Defined.

Lemma dkg_starts_with_all_codes_witness :
  ∃ l locator seat codes callback x d tr f,
    w_trace (c_world (after_steps 4000)) = l ++ ECall (Send (StartDkg locator seat codes callback)) x d :: tr
    ∧ d_formation d = Some f ∧ Z.of_nat (length codes) = in_federation_size (sf_intent f).
Proof.
  destruct (find_call (λ r, match r with StartDkg _ _ _ _ => true | _ => false end)
              (w_trace (c_world (after_steps 4000)))) as (l & r & x & d & tr & E & Hr); [by vm_compute|].
  destruct r as [| | | | | | | | | | | | | | |locator seat codes callback| | | | | | ]; try discriminate Hr.
  destruct (dkg_starts_with_all_codes 42 _ _ _ _ _ _ _ _ _ (after_steps_reached 4000 ltac:(by vm_compute)) E)
    as (f & rows & Hv & _ & _ & Hn).
  exists l, locator, seat, codes, callback, x, d, tr, f. split; [exact E|]. split; [apply Hv|exact Hn].
Defined.

Lemma votes_are_for_the_recorded_target_witness :
  ∃ l locator seat base target x d tr f,
    w_trace (c_world (after_steps 4000))
      = l ++ ECall (Send (ProposeFormationMeta locator seat base target)) x d :: tr
    ∧ d_formation d = Some f ∧ sf_formation_meta_target f = Some target.
Proof.
  destruct (find_call (λ r, match r with ProposeFormationMeta _ _ _ _ => true | _ => false end)
              (w_trace (c_world (after_steps 4000)))) as (l & r & x & d & tr & E & Hr); [by vm_compute|].
  destruct r as [| | | | | | | | | | | | | | | | | | | |locator seat base target| ]; try discriminate Hr.
  destruct (votes_are_for_the_recorded_target 42 _ _ _ _ _ _ _ _ _ (after_steps_reached 4000 ltac:(by vm_compute)) E)
    as (f & rows & Hv & Ht & _).
  exists l, locator, seat, base, target, x, d, tr, f. split; [exact E|]. split; [apply Hv|exact Ht].
Defined.


Definition row_of_hundred : SeatPaymentRequirement :=
  {| pr_index := 0; pr_mg_id := 100; pr_quote_id := 147; pr_payment_federation_id := "fed";
     pr_amount_msats := 500 |}.
Definition requirements : PaymentRequirements :=
  {| rq_authorization_id := 1; rq_total_msats := 500; rq_max_total_msats := None; rq_seats := [row_of_hundred] |}.
Lemma ids_bind_the_aggregate_witness :
  authorization_preimage "f" 500 [row_of_hundred] ≠ reservation_preimage "f" requirements.
Proof.
  apply (ids_bind_the_aggregate "f" "f" 500 500 [row_of_hundred] [row_of_hundred] requirements requirements);
    try (apply Forall_singleton; split_and!); by vm_compute.
Defined.

Definition held : Db := set_lease (Some {| dl_owner := 1; dl_expires_at := 100 |}) empty_db.
Definition rival : DriverLease := {| lh_owner := 2; lh_max_expires_at := 600; lh_renewal_duration := 60 |}.
Lemma rivals_change_nothing_witness :
  commits held [(50, OpAcquire 600 60 2); (60, OpAbandon "f" rival); (61, OpRelease 2)] = held.
Proof.
  apply (rivals_change_nothing held {| dl_owner := 1; dl_expires_at := 100 |}); [reflexivity|].
  repeat constructor; by vm_compute.
Defined.

(** ** A quote that cannot be added up *)

(** Guardian 100 quotes all the millisatoshis a [u64] holds, the others
    quote one. *)
Definition enormous (k : Z) : Z := if k =? 100 then u64_max else 1.
Definition overflown : Client Entry := play enormous 2000 started.

Lemma overflown_reachable : reachable (body 42) empty_db overflown.
Proof. apply play_reachable, choose_reachable, reach_open. Qed.

(** C35: The paid quotes of a run are stored before their total is known to
    fit a [u64].  When it does not, the run ends with a formation that nothing
    was paid or reserved for, and that no entry point can read any more:
    whatever is started from there, resuming, replacing the guardian and
    abandoning included, the formation stays as it is and no wallet, guardian
    or federation is contacted again. *)
Theorem overflowing_quotes_stick :
  reachable (body 42) empty_db overflown
  ∧ c_running overflown = None
  ∧ paid (w_trace (c_world overflown)) = [] ∧ maybe_live (w_trace (c_world overflown)) = ∅
  ∧ load_recovery 42 (w_db (c_world overflown)) = Err Storage
  ∧ ∀ s, reachable (body 42) (w_db (c_world overflown)) s →
      same_formation (w_db (c_world overflown)) (w_db (c_world s))
      ∧ Forall (λ e, match e with ECall (Send _) _ _ => False | _ => True end) (w_trace (c_world s)).
Proof.
  split; [exact overflown_reachable|].
  assert (H : match c_running overflown with None => true | _ => false end = true) by by vm_compute.
  split; [destruct (c_running overflown); [discriminate H|reflexivity]|].
  split; [by vm_compute|]. split; [by vm_compute|]. split; [by vm_compute|].
  intros s. apply unreadable_stays. by vm_compute.
Qed.

End FaDemo.
