(* ===== verification/FaLiquidity.v ===== *)
(** * Liquidity requests of a formed federation
      ([crates/fa-client/src/liquidity.rs], [db.rs])

    What an FA asks a liquidity provider for, how it checks the provider's
    signed answers against the exact request it committed to, and the journal
    of requests in its database.  The answers are the allocation statuses of the
    liquidity manager's model ([LmAllocations]).  Public keys, the details hash
    and the provider's signatures are parameters of [RequesterCrypto]. *)

From S2P Require Import Prelude LmSchema LmProg LmAllocations FaSchema FaQuotes FaStore.
From stdpp Require Import base gmap strings list sorting.
From Stdlib Require Import Ascii ZArith Lia.
Open Scope Z_scope.

Module Requester.
Import Ledger Allocations Daemon Fa Quotes Store.

(** [key_text]: the text of a public key.  [details_hash]: the canonical hash
    of a commitment, which fails only when the commitment does not serialize.
    [response_signed] and [status_signed]: the domain-separated signature of a
    provider's answer is the named provider's. *)
Class RequesterCrypto := {
  key_text : Z -> string;
  details_hash : LiquidityCommitment -> option string;
  response_signed : string -> RequestResponse -> bool;
  status_signed : string -> StatusResponse -> bool
}.

(** ** Identifiers and intents *)

(** [FA_LIQUIDITY_REQUEST_VALIDITY], [FA_LIQUIDITY_EXPIRY_GRACE],
    [FA_LIQUIDITY_OPERATION_PAGE_MAX], [PUBLIC_LIQUIDITY_PROTOCOL_VERSION]. *)
Definition REQUEST_VALIDITY : Z := 3600.
Definition EXPIRY_GRACE : Z := 3600.
Definition OPERATION_PAGE_MAX : nat := 100.
Definition PROTOCOL_VERSION : Z := 1.

(** [LiquidityOperationId::is_canonical]. *)
Definition hex_char (byte : Z) : bool :=
  ((48 <=? byte) && (byte <=? 57)) || ((97 <=? byte) && (byte <=? 102)).
Definition is_canonical (id : string) : bool :=
  (length (string_bytes id) =? 64)%nat && forallb hex_char (string_bytes id).

(** [LiquidityRequestIntent::validate]. *)
Definition source_bounds (minimum : Z) (maximum : option Z) : res FaError unit :=
  if (minimum =? 0) && bool_decide (is_Some maximum) then Err Liquidity
  else match maximum with
       | Some maximum => if maximum <? minimum then Err Liquidity else Ok tt
       | None => Ok tt
       end.
Definition intent_validate (a : LiquidityAmountBounds) : res FaError unit :=
  if (ab_gateway_min_amount a =? 0) && (ab_stability_min_amount a =? 0) then Err Liquidity
  else
    source_bounds (ab_gateway_min_amount a) (ab_gateway_max_amount a);;
    source_bounds (ab_stability_min_amount a) (ab_stability_max_amount a).

(** ** The provider's answers *)

(** [completed_gateway_api]: the API of the first completed gateway item. *)
Fixpoint completed_gateway (items : list AllocationItemStatus) : res FaError (option string) :=
  match items with
  | [] => Ok None
  | i :: rest =>
      if negb (bool_decide (ai_status i = ItemCompleted)) then completed_gateway rest
      else match ai_target i, ai_completion_evidence i with
           | GatewayTarget _ _ _ _, Some (GatewayEvidence _ api _ _ _ _ _) => Ok (Some api)
           | GatewayTarget _ _ _ _, _ => Err Liquidity
           | _, _ => completed_gateway rest
           end
  end.
Definition completed_gateway_api (status : AllocationStatus) : res FaError (option string) :=
  completed_gateway (as_item_statuses status).

Definition is_gateway_item (i : AllocationItemStatus) : bool :=
  match ai_target i with GatewayTarget _ _ _ _ => true | _ => false end.
Definition is_stability_item (i : AllocationItemStatus) : bool :=
  match ai_target i with StabilityPoolTarget _ _ => true | _ => false end.
Definition count_items (p : AllocationItemStatus -> bool) (l : list AllocationItemStatus) : nat :=
  length (List.filter p l).
(** [usize::from(minimum > 0)]. *)
Definition expected_items (minimum : Z) : nat := if 0 <? minimum then 1%nat else 0%nat.

Definition amount_in_bounds (amount minimum : Z) (maximum : option Z) : bool :=
  negb (amount <? minimum)
  && match maximum with Some maximum => negb (maximum <? amount) | None => true end.
(** One item of [verify_allocation_status]. *)
Definition verify_item (a : LiquidityAmountBounds) (i : AllocationItemStatus) : res FaError unit :=
  let in_bounds :=
    match ai_target i with
    | GatewayTarget _ _ _ amount =>
        amount_in_bounds amount (ab_gateway_min_amount a) (ab_gateway_max_amount a)
    | StabilityPoolTarget _ amount =>
        amount_in_bounds amount (ab_stability_min_amount a) (ab_stability_max_amount a)
    end in
  if negb in_bounds then Err Liquidity
  else if bool_decide (ai_status i = ItemCompleted) then
    match ai_target i, ai_completion_evidence i with
    | GatewayTarget _ gateway_id _ amount, Some (GatewayEvidence evidence_id _ fulfilled _ _ _ _) =>
        if bool_decide (ai_fulfilled_amount i = Some amount)
           && bool_decide (evidence_id = gateway_id) && (fulfilled =? amount)
        then Ok tt else Err Liquidity
    | StabilityPoolTarget _ amount, Some (StabilityPoolEvidence fulfilled _ _ _ _) =>
        if bool_decide (ai_fulfilled_amount i = Some amount) && (fulfilled =? amount)
        then Ok tt else Err Liquidity
    | _, _ => Err Liquidity
    end
  else if bool_decide (is_Some (ai_completion_evidence i)) then Err Liquidity
  else Ok tt.
Fixpoint verify_items (a : LiquidityAmountBounds) (l : list AllocationItemStatus)
    : res FaError unit :=
  match l with [] => Ok tt | i :: l => verify_item a i;; verify_items a l end.

(** [verify_allocation_status]: bound to the request, one item per requested
    source, within its bounds, completed with matching evidence or not at
    all. *)
Definition verify_allocation_status (commitment : LiquidityCommitment) (hash : string)
    (status : AllocationStatus) : res FaError unit :=
  let a := lc_amounts commitment in
  if negb (bool_decide (as_provider_pubkey status = lc_provider_pubkey commitment))
     || negb (bool_decide (as_details_payload_hash status = hash)) then Err Liquidity
  else if negb (count_items is_gateway_item (as_item_statuses status)
                =? expected_items (ab_gateway_min_amount a))%nat
          || negb (count_items is_stability_item (as_item_statuses status)
                   =? expected_items (ab_stability_min_amount a))%nat then Err Liquidity
  else verify_items a (as_item_statuses status).

(** [verify_provider_freshness]. *)
Definition verify_provider_freshness (issued_at now : Z) : res FaError unit :=
  if REQUEST_VALIDITY <? Z.abs (issued_at - now) then Err Liquidity else Ok tt.

(** [is_past_expiry_grace]. *)
Definition is_past_expiry_grace (commitment : LiquidityCommitment) (now : Z) : bool :=
  saturating_add_u u64_max (lc_expires_at commitment) EXPIRY_GRACE <? now.

Section Journal.
Context `{!RequesterCrypto}.

(** [verify_request_response] and [verify_status_response]; [now] is the clock
    their freshness check reads. *)
Definition verify_request_response (o : StoredLiquidityOperation) (r : RequestResponse) (now : Z)
    : res FaError unit :=
  let provider := lc_provider_pubkey (lo_commitment o) in
  if negb (response_signed provider r) then Err Liquidity
  else if negb (lr_version r =? PROTOCOL_VERSION)
          || negb (bool_decide (lr_provider_pubkey r = provider))
          || negb (bool_decide (lr_details_payload_hash r = lo_details_payload_hash o))
  then Err Liquidity
  else
    match lr_outcome r with
    | OutcomeAccepted status =>
        verify_allocation_status (lo_commitment o) (lo_details_payload_hash o) status
    | OutcomeRejected _ _ => Ok tt
    end;;
    verify_provider_freshness (lr_issued_at r) now.
Definition verify_status_response (o : StoredLiquidityOperation) (r : StatusResponse) (now : Z)
    : res FaError unit :=
  let provider := lc_provider_pubkey (lo_commitment o) in
  if negb (status_signed provider r) then Err Liquidity
  else if negb (ls_version r =? PROTOCOL_VERSION)
          || negb (bool_decide (ls_provider_pubkey r = provider)) then Err Liquidity
  else
    verify_allocation_status (lo_commitment o) (lo_details_payload_hash o) (ls_status r);;
    verify_provider_freshness (ls_issued_at r) now.

(** ** What a stored operation shows *)

Inductive LiquidityOperationPhase := PhasePrepared | PhaseAccepted | PhaseRejected.
#[global] Instance LiquidityOperationPhase_eq_dec : EqDecision LiquidityOperationPhase.
Proof. solve_decision. Defined.

Record LiquidityOperationSnapshot := {
  os_operation_id : string;
  os_formation_id : string;
  os_provider_pubkey : string;
  os_endpoint_hint : option string;
  os_details_payload_hash : string;
  os_amounts : LiquidityAmountBounds;
  os_phase : LiquidityOperationPhase;
  os_item_statuses : list AllocationItemStatus;
  os_rejection_code : option PublicRejectionCode;
  os_gateway_view_verified : bool
}.

(** [StoredLiquidityOperation::is_rejected], [allocation_status] and
    [completed_gateway_api]. *)
Definition is_rejected (o : StoredLiquidityOperation) : bool :=
  lo_expired_without_acceptance o
  || match lr_outcome <$> lo_response o with
     | Some (OutcomeRejected _ _) => true
     | _ => false
     end.
Definition allocation_status (o : StoredLiquidityOperation) : option AllocationStatus :=
  match lo_status o with
  | Some s => Some (ls_status s)
  | None =>
      match lr_outcome <$> lo_response o with
      | Some (OutcomeAccepted status) => Some status
      | _ => None
      end
  end.
Definition op_completed_gateway_api (o : StoredLiquidityOperation)
    : res FaError (option string) :=
  match allocation_status o with
  | Some status => completed_gateway_api status
  | None => Ok None
  end.

(** [StoredLiquidityOperation::snapshot]. *)
Definition op_phase (o : StoredLiquidityOperation)
    : LiquidityOperationPhase * option PublicRejectionCode :=
  match lr_outcome <$> lo_response o with
  | None =>
      if lo_expired_without_acceptance o then (PhaseRejected, Some RequestExpired)
      else if bool_decide (is_Some (lo_status o)) then (PhaseAccepted, None)
      else (PhasePrepared, None)
  | Some (OutcomeAccepted _) => (PhaseAccepted, None)
  | Some (OutcomeRejected code _) => (PhaseRejected, Some code)
  end.
Definition snapshot (o : StoredLiquidityOperation) : res FaError LiquidityOperationSnapshot :=
  if negb (lo_schema_version o =? 3) then Err Storage
  else if negb (is_canonical (lo_operation_id o)) then Err Storage
  else
    expected_hash ← ok_or Storage (details_hash (lo_commitment o));
    if negb (bool_decide (expected_hash = lo_details_payload_hash o))
       || negb (bool_decide (lo_operation_id o = expected_hash)) then Err Storage
    else
      verified ← match lo_verified_gateway_api o with
                 | None => Ok false
                 | Some verified =>
                     api ← op_completed_gateway_api o;
                     Ok (bool_decide (api = Some verified))
                 end;
      Ok {| os_operation_id := lo_operation_id o; os_formation_id := lo_formation_id o;
            os_provider_pubkey := lc_provider_pubkey (lo_commitment o);
            os_endpoint_hint := lo_endpoint_hint o;
            os_details_payload_hash := lo_details_payload_hash o;
            os_amounts := lc_amounts (lo_commitment o); os_phase := (op_phase o).1;
            os_item_statuses := default [] (as_item_statuses <$> allocation_status o);
            os_rejection_code := (op_phase o).2; os_gateway_view_verified := verified |}.

(** [LiquidityOperationSnapshot::is_complete] and [is_terminal_for_backup]. *)
Definition is_complete (s : LiquidityOperationSnapshot) : bool :=
  negb (bool_decide (os_item_statuses s = []))
  && forallb (λ i, bool_decide (ai_status i = ItemCompleted)) (os_item_statuses s)
  && ((ab_gateway_min_amount (os_amounts s) =? 0) || os_gateway_view_verified s).
Definition is_terminal_for_backup (o : StoredLiquidityOperation) : res FaError bool :=
  if is_rejected o then Ok true else s ← snapshot o; Ok (is_complete s).

(** ** The federation a request is for *)

(** [VerifiedSeatBinding] and [FormedLiquidityContext]. *)
Record SeatBinding := {
  vb_peer_id : string;
  vb_guardian_identity : string;
  vb_mg_pubkey : string
}.
Record LiquidityContext := {
  cx_federation_name : string;
  cx_invite_code : string;
  cx_network : BitcoinNetwork;
  cx_federation_id : string;
  cx_federation_config_hash : string;
  cx_bindings : list SeatBinding;
  cx_seats : list BackupSeat
}.

(** [fleet_seat_hints]: each binding is paired with the one seat of its MG
    identity; [claimed] marks the seats already paired. *)
Fixpoint pair_bindings (seats : list BackupSeat) (claimed : list bool) (bindings : list SeatBinding)
    : res FaError (list bool * list FleetSeat) :=
  match bindings with
  | [] => Ok (claimed, [])
  | b :: rest =>
      match filter (λ p : nat * BackupSeat, key_text (bs_mg_identity p.2) = vb_mg_pubkey b)
              (imap pair seats) with
      | [] => Err Liquidity
      | [(index, seat)] =>
          if bool_decide (claimed !! index = Some true) then Err Liquidity
          else
            '(claimed, hints) ← pair_bindings seats (<[index := true]> claimed) rest;
            Ok (claimed,
                {| fl_seat_id := encode_canonical_digest (bs_seat_id seat);
                   fl_peer_id := vb_peer_id b; fl_guardian_identity := vb_guardian_identity b;
                   fl_mg_pubkey := vb_mg_pubkey b; fl_role_metadata := [] |} :: hints)
      | _ => Err Liquidity
      end
  end.
Definition fleet_seat_hints (cx : LiquidityContext) : res FaError (list FleetSeat) :=
  '(claimed, hints) ←
    pair_bindings (cx_seats cx) (replicate (length (cx_seats cx)) false) (cx_bindings cx);
  if existsb negb claimed then Err Liquidity else Ok hints.

(** [federation_details] and [matches_commitment]. *)
Definition federation_details (cx : LiquidityContext) : res FaError FederationLiquidityDetails :=
  hints ← fleet_seat_hints cx;
  Ok {| fd_invite_code := cx_invite_code cx; fd_federation_id := cx_federation_id cx;
        fd_federation_name := cx_federation_name cx;
        fd_federation_config_hash := cx_federation_config_hash cx;
        fd_fleet_seat_hints := hints; fd_revocation_locations := [] |}.
Definition matches_commitment (cx : LiquidityContext) (c : LiquidityCommitment)
    : res FaError unit :=
  current ← federation_details cx;
  let d := lc_federation_details c in
  if negb (bool_decide (cx_network cx = lc_network c))
     || negb (bool_decide (fd_federation_id current = fd_federation_id d))
     || negb (bool_decide (fd_federation_config_hash current = fd_federation_config_hash d))
     || negb (bool_decide (fd_fleet_seat_hints current = fd_fleet_seat_hints d))
  then Err Liquidity else Ok tt.

(** ** The journal ([FaStore]) *)

Definition set_liquidity (m : gmap string StoredLiquidityOperation) (d : Db) : Db :=
  {| d_formation := d_formation d; d_seats := d_seats d; d_lease := d_lease d;
     d_setup_payment_federations := d_setup_payment_federations d; d_formed := d_formed d;
     d_backup_generation := d_backup_generation d;
     d_guardian_transfer := d_guardian_transfer d; d_liquidity := m;
     d_confirmations := d_confirmations d;
     d_recovery_completed := d_recovery_completed d |}.
Definition put_operation (id : string) (o : StoredLiquidityOperation) : FaTx unit :=
  tx_put (λ d, set_liquidity (<[id := o]> (d_liquidity d)) d).
Definition the_operation (e : FaError) (id : string) : FaTx StoredLiquidityOperation :=
  o ← tx_get (λ d, d_liquidity d !! id);
  tx_lift (ok_or e o).

(** A new operation holds no evidence. *)
Definition prepared_operation (formation_id hash : string) (c : LiquidityCommitment)
    (hint : option string) : StoredLiquidityOperation :=
  {| lo_schema_version := 3; lo_operation_id := hash; lo_formation_id := formation_id;
     lo_commitment := c; lo_endpoint_hint := hint; lo_details_payload_hash := hash;
     lo_response := None; lo_status := None; lo_verified_gateway_api := None;
     lo_expired_without_acceptance := false |}.
Definition with_evidence (r : option RequestResponse) (s : option StatusResponse)
    (verified : option string) (expired : bool) (o : StoredLiquidityOperation)
    : StoredLiquidityOperation :=
  {| lo_schema_version := lo_schema_version o; lo_operation_id := lo_operation_id o;
     lo_formation_id := lo_formation_id o; lo_commitment := lo_commitment o;
     lo_endpoint_hint := lo_endpoint_hint o;
     lo_details_payload_hash := lo_details_payload_hash o; lo_response := r; lo_status := s;
     lo_verified_gateway_api := verified; lo_expired_without_acceptance := expired |}.

Definition insert_liquidity_operation (o : StoredLiquidityOperation) : FaTx unit :=
  existing ← tx_get (λ d, d_liquidity d !! lo_operation_id o);
  if bool_decide (is_Some existing) then tx_err Liquidity
  else put_operation (lo_operation_id o) o.

Definition load_liquidity_operation (id : string) : FaTx StoredLiquidityOperation :=
  the_operation Liquidity id.

Definition is_acceptance (r : RequestResponse) : bool :=
  match lr_outcome r with OutcomeAccepted _ => true | OutcomeRejected _ _ => false end.
(** Signed evidence that the provider accepted the request. *)
Definition durably_accepted (o : StoredLiquidityOperation) : bool :=
  bool_decide (is_Some (lo_status o))
  || match lo_response o with Some r => is_acceptance r | None => false end.
Definition store_liquidity_response (id : string) (r : RequestResponse) : FaTx unit :=
  o ← the_operation Storage id;
  if match lo_response o with
     | Some stored => negb (bool_decide (stored = r))
     | None => false
     end then tx_err Liquidity
  else if durably_accepted o && negb (is_acceptance r) then tx_err Liquidity
  else put_operation id
         (with_evidence (Some r) (lo_status o) (lo_verified_gateway_api o)
            (lo_expired_without_acceptance o) o).

Definition store_liquidity_status (id : string) (s : StatusResponse) : FaTx unit :=
  o ← the_operation Storage id;
  tx_lift (match lo_status o with
           | Some stored =>
               if ls_issued_at s <? ls_issued_at stored then Err Liquidity
               else if (ls_issued_at stored =? ls_issued_at s)
                       && negb (bool_decide (stored = s)) then Err Liquidity
               else Ok tt
           | None => Ok tt
           end);;
  let o := with_evidence (lo_response o) (Some s) (lo_verified_gateway_api o)
             (lo_expired_without_acceptance o) o in
  api ← tx_lift (op_completed_gateway_api o);
  put_operation id
    (if bool_decide (lo_verified_gateway_api o = api) then o
     else with_evidence (lo_response o) (lo_status o) None (lo_expired_without_acceptance o) o).

Definition mark_liquidity_gateway_view_verified (id api : string) : FaTx unit :=
  o ← the_operation Storage id;
  completed ← tx_lift (op_completed_gateway_api o);
  if negb (bool_decide (completed = Some api)) then tx_err Liquidity
  else put_operation id
         (with_evidence (lo_response o) (lo_status o) (Some api)
            (lo_expired_without_acceptance o) o).

Definition mark_liquidity_expired_without_acceptance (id : string) : FaTx unit :=
  o ← the_operation Storage id;
  if bool_decide (is_Some (lo_response o)) || bool_decide (is_Some (lo_status o))
  then tx_err Liquidity
  else put_operation id
         (with_evidence (lo_response o) (lo_status o) (lo_verified_gateway_api o) true o).

(** [list_liquidity_operations]: rows in key order after the cursor, one more
    than the page holds when there is one. *)
Definition ordered_operations (d : Db) : list (string * StoredLiquidityOperation) :=
  select_ordered (λ _, 0) (λ _ _, true) (d_liquidity d).
Fixpoint check_keys (l : list (string * StoredLiquidityOperation))
    : res FaError (list StoredLiquidityOperation) :=
  match l with
  | [] => Ok []
  | (id, o) :: l =>
      if negb (bool_decide (id = lo_operation_id o)) then Err Storage
      else rest ← check_keys l; Ok (o :: rest)
  end.
Definition list_liquidity_operations (after : option string) (limit : nat)
    : FaTx (list StoredLiquidityOperation) :=
  rows ← tx_get ordered_operations;
  let rows := match after with
              | Some cursor => filter (λ p, ¬ String.le p.1 cursor) rows
              | None => rows
              end in
  tx_lift (check_keys (take (S limit) rows)).

(** The first operation of one page that matches and is not rejected. *)
Fixpoint first_live (matches : StoredLiquidityOperation -> bool)
    (l : list StoredLiquidityOperation) : res FaError (option LiquidityOperationSnapshot) :=
  match l with
  | [] => Ok None
  | o :: l =>
      if negb (matches o) then first_live matches l
      else
        s ← snapshot o;
        if negb (bool_decide (os_phase s = PhaseRejected)) then Ok (Some s)
        else first_live matches l
  end.

(** [find_live_liquidity_operation]: page after page until a live operation is
    found or a page is the last one.  Each page but the last moves the cursor
    past [OPERATION_PAGE_MAX] rows, so the number of rows bounds the pages. *)
Fixpoint find_live_pages (fuel : nat) (matches : StoredLiquidityOperation -> bool)
    (after : option string) : FaTx (option LiquidityOperationSnapshot) :=
  match fuel with
  | O => mret None
  | S fuel =>
      stored ← list_liquidity_operations after OPERATION_PAGE_MAX;
      let has_more := (OPERATION_PAGE_MAX <? length stored)%nat in
      let stored := take OPERATION_PAGE_MAX stored in
      found ← tx_lift (first_live matches stored);
      match found with
      | Some s => mret (Some s)
      | None =>
          if negb has_more then mret None
          else find_live_pages fuel matches (lo_operation_id <$> last stored)
      end
  end.
Definition find_live_liquidity_operation (matches : StoredLiquidityOperation -> bool)
    : FaTx (option LiquidityOperationSnapshot) :=
  rows ← tx_get (λ d, size (d_liquidity d));
  find_live_pages (S rows) matches None.

End Journal.
End Requester.
