(* ===== verification/FaBackup.v ===== *)
(** * Encrypted recovery documents
      ([crates/fa-client/src/backup.rs], [backup_worker.rs], [db.rs])

    The document an FA publishes so that another device can take its formed
    federation over: its fixed-length encrypted frame, the transaction that
    numbers the documents, the restore that installs one, and the choice among
    the documents relays return.  CBOR, the AEAD cipher, base64 and Nostr
    signatures are parameters of [BackupCodec] with the laws [BackupCodecOk]. *)

From S2P Require Import Prelude LmSchema LmProg LmAllocations FaSchema FaQuotes FaStore FaLiquidity.
From stdpp Require Import base gmap strings list.
From Stdlib Require Import ZArith Lia.
Open Scope Z_scope.

Module Backup.
Import Fa Quotes Store Requester.

(** ** The frame *)

(** [x.to_le_bytes()] of an [n]-byte integer and [from_le_bytes]. *)
Fixpoint le_bytes (n : nat) (x : Z) : list Z :=
  match n with O => [] | S n => x mod 256 :: le_bytes n (x / 256) end.
Fixpoint from_le_bytes (l : list Z) : Z :=
  match l with [] => 0 | b :: l => b + 256 * from_le_bytes l end.

Definition PADDED_PLAINTEXT_LEN : Z := 32 * 1024.
Definition LEN_PREFIX : Z := 4.
Definition NONCE_LEN : Z := 24.
Definition TAG_LEN : Z := 16.
Definition DOCUMENT_CAPACITY : Z := PADDED_PLAINTEXT_LEN - LEN_PREFIX.
Definition AAD : list Z := string_bytes "fedi-fi-backup/document/v1".

Definition len {A} (l : list A) : Z := Z.of_nat (length l).

(** A Nostr event as a relay serves it. *)
Record BackupEvent := { be_pubkey : Z; be_content : string; be_proof : Z }.

(** [encrypt]/[decrypt] take the key, the nonce and the associated data;
    [cbor_decode] also answers how many bytes it read. *)
Class BackupCodec := {
  cbor_encode : BackupPayload -> option (list Z);
  cbor_decode : list Z -> option (BackupPayload * Z);
  encrypt : Z -> list Z -> list Z -> list Z -> option (list Z);
  decrypt : Z -> list Z -> list Z -> list Z -> option (list Z);
  base64_encode : list Z -> string;
  base64_decode : string -> option (list Z);
  event_verifies : BackupEvent -> bool
}.

(** Fedimint invite codes.  [invite_federation_id]: the federation of an invite
    that parses and carries no API secret.  [dial_invite saved config]: the
    invite to the guardians of [config] that keeps the federation and secret of
    [saved]. *)
Class Invites := {
  invite_federation_id : string -> option string;
  dial_invite : string -> Z -> option string
}.
Class InvitesOk `{!Invites} : Prop :=
  dial_invite_federation saved config invite federation :
    dial_invite saved config = Some invite → invite_federation_id saved = Some federation →
    invite_federation_id invite = Some federation.

Definition is_byte (b : Z) : bool := (0 <=? b) && (b <? 256).

(** What the code relies on: a serialized value reads back and is read whole, a
    ciphertext decrypts under its nonce and is one tag longer, and base64
    decodes the bytes it encoded. *)
Class BackupCodecOk `{!BackupCodec} : Prop := {
  cbor_roundtrip p b : cbor_encode p = Some b → cbor_decode b = Some (p, len b);
  cipher_roundtrip key nonce aad m c : len nonce = NONCE_LEN →
    encrypt key nonce aad m = Some c →
    decrypt key nonce aad c = Some m ∧ len c = len m + TAG_LEN ∧ forallb is_byte c = true;
  base64_roundtrip b : forallb is_byte b = true → base64_decode (base64_encode b) = Some b
}.

(** [validate_payload]. *)
Fixpoint seats_unique (identities seat_ids service_keys : gset Z) (l : list BackupSeat) : bool :=
  match l with
  | [] => true
  | s :: l =>
      negb (bool_decide (bs_mg_identity s ∈ identities))
      && negb (bool_decide (bs_seat_id s ∈ seat_ids))
      && negb (bool_decide (service_pubkey (bs_locator s) ∈ service_keys))
      && seats_unique ({[ bs_mg_identity s ]} ∪ identities) ({[ bs_seat_id s ]} ∪ seat_ids)
           ({[ service_pubkey (bs_locator s) ]} ∪ service_keys) l
  end.
Definition validate_payload (p : BackupPayload) : res FaError unit :=
  if negb (bp_schema_version p =? BACKUP_SCHEMA_VERSION) then Err Storage
  else if bp_snapshot_generation p =? 0 then Err Storage
  else if bool_decide (bp_seats p = []) then Err Storage
  else if negb (seats_unique ∅ ∅ ∅ (bp_seats p)) then Err Storage
  else Ok tt.

Section Frame.
Context `{!BackupCodec}.

(** [validate_blob]. *)
Definition validate_blob (content : string) : res FaError (list Z) :=
  blob ← ok_or Storage (base64_decode content);
  if negb (len blob =? NONCE_LEN + PADDED_PLAINTEXT_LEN + TAG_LEN) then Err Storage
  else Ok blob.

(** The padded plaintext of an encoded payload. *)
Definition frame (encoded : list Z) : list Z :=
  le_bytes 4 (len encoded) ++ encoded
  ++ replicate (Z.to_nat (DOCUMENT_CAPACITY - len encoded)) 0.

(** [FaBackupKeys::seal]; the nonce is the random one it generates. *)
Definition seal (key : Z) (nonce : list Z) (p : BackupPayload) : res FaError string :=
  validate_payload p;;
  encoded ← ok_or Storage (cbor_encode p);
  if DOCUMENT_CAPACITY <? len encoded then Err Storage
  else
    ciphertext ← ok_or Storage (encrypt key nonce AAD (frame encoded));
    Ok (base64_encode (nonce ++ ciphertext)).

(** [FaBackupKeys::open]. *)
Definition open_backup (key : Z) (content : string) : res FaError BackupPayload :=
  blob ← validate_blob content;
  let nonce := take (Z.to_nat NONCE_LEN) blob in
  let ciphertext := drop (Z.to_nat NONCE_LEN) blob in
  plaintext ← ok_or Storage (decrypt key nonce AAD ciphertext);
  if negb (len plaintext =? PADDED_PLAINTEXT_LEN) then Err Storage
  else
    let n := from_le_bytes (take 4 plaintext) in
    if DOCUMENT_CAPACITY <? n then Err Storage
    else
      let rest := drop 4 plaintext in
      if existsb (λ byte, negb (byte =? 0)) (drop (Z.to_nat n) rest) then Err Storage
      else
        '(payload, position) ← ok_or Storage (cbor_decode (take (Z.to_nat n) rest));
        if negb (position =? n) then Err Storage
        else
          validate_payload payload;;
          Ok payload.

(** ** Choosing among the documents of the relays *)

Inductive BackupRestoreOutcome := Restored | NoBackup.

(** [no_backup_or_unavailable]. *)
Definition no_backup_or_unavailable (successful_reads required_reads : Z)
    : res FaError BackupRestoreOutcome :=
  if (0 <? required_reads) && (required_reads <=? successful_reads) then Ok NoBackup
  else Err Registry.

(** The document of one event, when it is authentic: the author's, correctly
    signed, and opened by the author's key. *)
Definition authentic (key author : Z) (e : BackupEvent) : option BackupPayload :=
  if negb (be_pubkey e =? author) || negb (event_verifies e) then None
  else match validate_blob (be_content e) with
       | Ok _ => match open_backup key (be_content e) with Ok p => Some p | _ => None end
       | _ => None
       end.
(** One step of the loop of [restore_from_relays]: a strictly higher generation
    replaces the best one. *)
Definition better (best : option BackupPayload) (p : BackupPayload) : option BackupPayload :=
  match best with
  | Some current =>
      if bp_snapshot_generation current <? bp_snapshot_generation p then Some p else best
  | None => Some p
  end.
Definition best_of_events (key author : Z) (best : option BackupPayload) (l : list BackupEvent)
    : option BackupPayload :=
  foldl (λ best e, match authentic key author e with Some p => better best p | None => best end)
    best l.
(** The relays that answered, and the best of what they hold; [None] is a relay
    whose read did not complete. *)
Fixpoint best_of_reads (key author : Z) (best : option BackupPayload) (successful : Z)
    (reads : list (option (list BackupEvent))) : option BackupPayload * Z :=
  match reads with
  | [] => (best, successful)
  | Some events :: reads =>
      best_of_reads key author (best_of_events key author best events) (successful + 1) reads
  | None :: reads => best_of_reads key author best successful reads
  end.

(** [confirmation_is_fresh]. *)
Definition BACKUP_REFRESH_INTERVAL_SECS : Z := 15 * 24 * 60 * 60.
Definition confirmation_is_fresh (c : option BackupRelayConfirmation) (document_hash now : Z)
    : bool :=
  match c with
  | Some c =>
      (bc_document_hash c =? document_hash)
      && (saturating_sub_u now (bc_confirmed_at_secs c) <? BACKUP_REFRESH_INTERVAL_SECS)
  | None => false
  end.

End Frame.

(** ** The store *)

Definition set_backup_generation (g : option BackupGenerationState) (d : Db) : Db :=
  {| d_formation := d_formation d; d_seats := d_seats d; d_lease := d_lease d;
     d_setup_payment_federations := d_setup_payment_federations d; d_formed := d_formed d;
     d_backup_generation := g;
     d_guardian_transfer := d_guardian_transfer d; d_liquidity := d_liquidity d;
     d_confirmations := d_confirmations d;
     d_recovery_completed := d_recovery_completed d |}.
Definition set_confirmations (m : gmap string BackupRelayConfirmation) (d : Db) : Db :=
  {| d_formation := d_formation d; d_seats := d_seats d; d_lease := d_lease d;
     d_setup_payment_federations := d_setup_payment_federations d; d_formed := d_formed d;
     d_backup_generation := d_backup_generation d;
     d_guardian_transfer := d_guardian_transfer d; d_liquidity := d_liquidity d;
     d_confirmations := m;
     d_recovery_completed := d_recovery_completed d |}.
Definition set_recovery_completed (environments : gset Z) (d : Db) : Db :=
  {| d_formation := d_formation d; d_seats := d_seats d; d_lease := d_lease d;
     d_setup_payment_federations := d_setup_payment_federations d; d_formed := d_formed d;
     d_backup_generation := d_backup_generation d;
     d_guardian_transfer := d_guardian_transfer d; d_liquidity := d_liquidity d;
     d_confirmations := d_confirmations d;
     d_recovery_completed := environments |}.

Definition with_generation (g : Z) (p : BackupPayload) : BackupPayload :=
  {| bp_schema_version := bp_schema_version p; bp_snapshot_generation := g;
     bp_federation_invite := bp_federation_invite p; bp_seats := bp_seats p;
     bp_liquidity := bp_liquidity p; bp_past_hosts := bp_past_hosts p |}.
Definition with_invite (invite : string) (p : BackupPayload) : BackupPayload :=
  {| bp_schema_version := bp_schema_version p;
     bp_snapshot_generation := bp_snapshot_generation p; bp_federation_invite := invite;
     bp_seats := bp_seats p; bp_liquidity := bp_liquidity p;
     bp_past_hosts := bp_past_hosts p |}.

(** [PreparedFaBackup]. *)
Record PreparedFaBackup := {
  pb_payload : BackupPayload;
  pb_document_hash : Z;
  pb_created_at : Z
}.

Section Store.
Context `{!Crypto, !RequesterCrypto, !BackupCodec, !Invites}.

(** [encoded_hash], [document_hash] and [semantic_hash]. *)
Definition encoded_hash (p : BackupPayload) : res FaError Z :=
  bytes ← ok_or Storage (cbor_encode p);
  Ok (sha256 bytes).
Definition document_hash (p : BackupPayload) : res FaError Z := encoded_hash p.
Definition semantic_hash (p : BackupPayload) : res FaError Z :=
  encoded_hash (with_generation 0 p).

(** The one live request of the journal. *)
Fixpoint live_commitment (found : option LiquidityCommitment)
    (l : list (string * StoredLiquidityOperation)) : res FaError (option LiquidityCommitment) :=
  match l with
  | [] => Ok found
  | (_, o) :: l =>
      terminal ← is_terminal_for_backup o;
      if terminal : bool then live_commitment found l
      else if bool_decide (is_Some found) then Err Storage
      else live_commitment (Some (lo_commitment o)) l
  end.

Definition next_generation (g : Z) : res FaError Z := ok_or Storage (checked_add_u u64_max g 1).

(** [backup_payload]; [now] is the clock it reads. *)
Definition backup_payload (now : Z) : FaTx PreparedFaBackup :=
  o ← tx_get d_formed;
  formed ← tx_lift (ok_or Storage (o ≫= λ f, if ff_backup_eligible f then Some f else None));
  let saved := ff_payload formed in
  formed_hash ← tx_lift (semantic_hash saved);
  rows ← tx_get ordered_operations;
  liquidity ← tx_lift (live_commitment None rows);
  let payload :=
    {| bp_schema_version := BACKUP_SCHEMA_VERSION; bp_snapshot_generation := 0;
       bp_federation_invite := bp_federation_invite saved; bp_seats := bp_seats saved;
       bp_liquidity := liquidity; bp_past_hosts := bp_past_hosts saved |} in
  hash ← tx_lift (semantic_hash payload);
  prior ← tx_get d_backup_generation;
  generation ← tx_lift
    (match prior with
     | Some prior =>
         if bg_semantic_hash prior =? hash then Ok (bg_generation prior)
         else next_generation (bg_generation prior)
     | None =>
         if formed_hash =? hash then Ok (bp_snapshot_generation saved)
         else next_generation (bp_snapshot_generation saved)
     end);
  let payload := with_generation generation payload in
  document ← tx_lift (document_hash payload);
  let created_at :=
    match prior with
    | Some prior =>
        if bg_semantic_hash prior =? hash then
          let elapsed := saturating_sub_u now (bg_nostr_created_at prior) in
          saturating_add_u u64_max (bg_nostr_created_at prior)
            (elapsed / BACKUP_REFRESH_INTERVAL_SECS * BACKUP_REFRESH_INTERVAL_SECS)
        else Z.max now (saturating_add_u u64_max (bg_nostr_created_at prior) 1)
    | None => now
    end in
  tx_put (set_backup_generation (Some
    {| bg_generation := generation; bg_semantic_hash := hash; bg_document_hash := document;
       bg_nostr_created_at := created_at |}));;
  mret {| pb_payload := payload; pb_document_hash := document; pb_created_at := created_at |}.

(** [complete_empty_recovery]; the key is the environment's number. *)
Definition complete_recovery (environment : Z) : FaTx unit :=
  tx_put (λ d, set_recovery_completed ({[ environment ]} ∪ d_recovery_completed d) d).

(** [restored_formation_id]. *)
Definition restored_formation_id (fa_id : Z) (invite : string) : res FaError string :=
  federation_id ← ok_or InvalidManifoldGuardians (invite_federation_id invite);
  Ok ("restored-" +:+ encode_canonical_digest
        (sha256 (tag "fedi-fi-restored-formation-id/v1" ++ be_bytes 33 fa_id
                 ++ string_bytes federation_id))).

(** [restore_backup_payload_with_completion]; [now] is the lease clock. *)
Definition restore_backup_payload (fa_id : Z) (p : BackupPayload) (recovery : option Z) (now : Z)
    : FaTx unit :=
  tx_lift (match bp_liquidity p with
           | Some c =>
               if negb (bool_decide (lc_requester_pubkey c = key_text fa_id)) then Err Storage
               else ok_or Storage (details_hash c);; Ok tt
           | None => Ok tt
           end);;
  formation_id ← tx_lift (restored_formation_id fa_id (bp_federation_invite p));
  d ← tx_get (λ d, d);
  if bool_decide (is_Some (d_formation d)) || bool_decide (is_Some (d_formed d))
     || match d_lease d with Some l => now <? dl_expires_at l | None => false end
     || negb (bool_decide (d_liquidity d = ∅))
     || bool_decide (is_Some (d_guardian_transfer d))
  then tx_err Storage
  else
    tx_put (set_lease None);;
    tx_put (set_formed (Some
      {| ff_fa_id := fa_id; ff_payload := p; ff_formation_id := formation_id;
         ff_backup_eligible := false; ff_federation_name := None; ff_seat_holders := [];
         ff_origin := FromBackup |}));;
    match recovery with
    | Some environment => complete_recovery environment
    | None => mret tt
    end.

(** [reconcile_formed_federation]: what a reconciliation with consensus
    writes. *)
Definition reconcile_formed_federation (fa_id : Z) (federation_name : option string)
    (invite : string) : FaTx unit :=
  o ← tx_get d_formed;
  formed ← tx_lift (ok_or Storage o);
  if negb (ff_fa_id formed =? fa_id) then tx_err Storage
  else
    let saved := ff_payload formed in
    prior ← tx_get d_backup_generation;
    payload ← tx_lift
      (if bool_decide (bp_federation_invite saved = invite) then Ok saved
       else match prior with
            | None =>
                generation ← next_generation (bp_snapshot_generation saved);
                Ok (with_invite invite (with_generation generation saved))
            | Some _ => Ok (with_invite invite saved)
            end);
    match bp_liquidity payload with
    | Some c =>
        hash ← tx_lift (ok_or Storage (details_hash c));
        existing ← tx_get (λ d, d_liquidity d !! hash);
        match existing with
        | Some _ => mret tt
        | None => put_operation hash (prepared_operation (ff_formation_id formed) hash c None)
        end
    | None => mret tt
    end;;
    tx_put (set_formed (Some
      {| ff_fa_id := ff_fa_id formed; ff_payload := payload;
         ff_formation_id := ff_formation_id formed; ff_backup_eligible := true;
         ff_federation_name :=
           match federation_name with Some n => Some n | None => ff_federation_name formed end;
         ff_seat_holders := ff_seat_holders formed; ff_origin := ff_origin formed |})).

(** [record_backup_confirmation]: an older confirmation is ignored. *)
Definition record_backup_confirmation (relay : string) (c : BackupRelayConfirmation)
    : FaTx unit :=
  current ← tx_get (λ d, d_confirmations d !! relay);
  if match current with
     | Some current =>
         (bc_generation c <? bc_generation current)
         || (bc_generation current =? bc_generation c)
            && (bc_confirmed_at_secs c <? bc_confirmed_at_secs current)
     | None => false
     end
  then mret tt
  else tx_put (λ d, set_confirmations (<[relay := c]> (d_confirmations d)) d).

End Store.
End Backup.
