(* ===== verification/FaUpkeep.v ===== *)
(** * Runs on a formed federation
      ([crates/fa-client/src/liquidity.rs], [backup_worker.rs])

    [start_liquidity], [resume_liquidity], [resume] and [restore_from_relays] as
    programs over the FA's database:
    every store transaction is a statement, every port a call that is first sent
    and then answered.  Discovery and admission of providers, reading federation
    consensus, collecting guardian trust material and registering a gateway are
    calls with any answer; so are their own caches.  [begin_transfer] is the part
    of a guardian transfer's start that excludes an unfinished request.

    Module [Upkeep] holds the programs; module [Keeper] the client that runs
    them. *)

From S2P Require Import Prelude LmSchema LmProg LmAllocations FaSchema FaQuotes FaStore FaLiquidity FaBackup.
From stdpp Require Import base gmap strings list.
From Stdlib Require Import ZArith Lia.
Open Scope Z_scope.

Module Upkeep.
Import Ledger Allocations Daemon Fa Quotes Store Requester Backup.

(** ** The ports *)

(** What a run reads of federation consensus; a directory that does not verify
    is an error. *)
Record FederationView := {
  fv_network : BitcoinNetwork;
  fv_federation_id : string;
  fv_config_hash : string;
  fv_bindings : list SeatBinding;
  fv_name : option string;
  fv_config : Z
}.
(** The signed [RequestLiquidityRequest]: the committed fields with the time it
    is issued at.  Endorsement and trust material are not part of the hash. *)
Record LiquidityRequest := {
  lq_commitment : LiquidityCommitment;
  lq_details_payload_hash : string;
  lq_issued_at : Z
}.
Inductive StatusReply :=
| StatusOk (response : StatusResponse)
| StatusNotFound
| StatusFailed.

Inductive Req :=
| DiscoverProvider (provider : string) (amounts : LiquidityAmountBounds) (network : BitcoinNetwork)
    (pinned : option string)
| ReadFederation (invite : string)
| CollectMgTrust (cx : LiquidityContext)
| ConnectProvider (endpoint : string)
| GetAllocationStatus (requester provider hash : string) (issued_at : Z)
| RequestLiquidity (request : LiquidityRequest)
| RequireTrustRefresh
| RegisterGateway (api : string)
| FetchBackups (author : Z).
Definition Reply (r : Req) : Type :=
  match r with
  | DiscoverProvider _ _ _ _ => string
  | ReadFederation _ => FederationView
  | GetAllocationStatus _ _ _ _ => StatusReply
  | RequestLiquidity _ => RequestResponse
  | FetchBackups _ => list (option (list BackupEvent))
  | _ => unit
  end.

(** [inl] is the error the code maps the port's failure or timeout to.  [Fresh]
    is the formation the published status reports as formed and fresh, which
    [Publish] replaces; [InTime] whether the run's deadline is representable; [RemovingSource]
    the part of a transfer record that holds its next phase. *)
Inductive Ext :=
| Send (r : Req)
| Recv (r : Req)
| Now
| RandomOwner
| InTime
| RemovingSource
| PublicKey
| Sign
| Fresh
| Publish (fresh : option string).
Definition Ans (c : Ext) : Type :=
  match c with
  | Send _ => unit
  | Recv r => FaError + Reply r
  | Now => Z
  | RandomOwner => Z
  | InTime => bool
  | RemovingSource => Z
  | PublicKey => option Z
  | Sign => FaError + unit
  | Fresh => option string
  | Publish _ => unit
  end.

(** ** Programs *)

Inductive Prog (A : Type) : Type :=
| Done (a : A)
| Stmt {B : Type} (t : FaTx B) (k : res FaError B -> Prog A)
| Call (c : Ext) (k : Ans c -> Prog A).
Arguments Done {A} a.
Arguments Stmt {A B} t k.
Arguments Call {A} c k.

Fixpoint pbind {A B} (p : Prog A) (f : A -> Prog B) : Prog B :=
  match p with
  | Done a => f a
  | Stmt t k => Stmt t (λ r, pbind (k r) f)
  | Call c k => Call c (λ a, pbind (k a) f)
  end.
Definition M (A : Type) : Type := Prog (res FaError A).
#[global] Instance M_ret : MRet M := λ A a, Done (Ok a).
#[global] Instance M_bind : MBind M := λ A B f p,
  pbind p (λ r, match r with Ok a => f a | Err e => Done (Err e) | Panic => Done Panic end).

Definition ask (c : Ext) : M (Ans c) := Call c (λ a, Done (Ok a)).
Definition stmt {A} (t : FaTx A) : M A := Stmt t Done.
Definition lift {A} (r : res FaError A) : M A := Done r.
Definition fail {A} (e : FaError) : M A := Done (Err e).
Definition answered {A} (r : FaError + A) : M A :=
  match r with inl e => fail e | inr a => mret a end.
Definition request (r : Req) : M (Reply r) :=
  ask (Send r);;
  answer ← ask (Recv r);
  answered answer.

(** ** The run around a request *)

(** The lease durations of [FormationRunOptions::default]. *)
Definition lease_duration : Z := 660.
Definition lease_renewal_duration : Z := 90.

Section Driver.
Context `{!Crypto, !RequesterCrypto, !BackupCodec, !Invites}.

(** [DriverLease::renew]. *)
Definition renew (lease : DriverLease) : M unit :=
  now ← ask Now;
  expires_at ← stmt (renew_driver_lease lease now);
  after ← ask Now;
  if (after : Z) <? expires_at then mret tt else fail Busy.

(** [validate_for_start]. *)
Definition validate_for_start : M unit :=
  valid ← ask InTime;
  if negb valid then fail InvalidIntent
  else
    now ← ask Now;
    lift (ok_or InvalidIntent (checked_add_u u64_max now lease_duration));;
    lift (ok_or InvalidIntent (checked_add_u u64_max now lease_renewal_duration));;
    mret tt.

(** [start_driver_run] and [finish_driver_run]. *)
Definition driver_run {A} (p : DriverLease -> M A) : M A :=
  valid ← ask InTime;
  if negb valid then fail InvalidIntent
  else
    now ← ask Now;
    owner ← ask RandomOwner;
    lease ← stmt (acquire_driver_lease now lease_duration lease_renewal_duration owner);
    pbind (p lease) (λ result,
      pbind (stmt (release_driver_lease_owner (lh_owner lease))) (λ released,
        Done (match result with
              | Ok v => released ≫= λ _, Ok v
              | e => e
              end))).

Definition public_key : M Z := key ← ask PublicKey; lift (ok_or Identity key).

(** [post_formed_authority]. *)
Definition post_formed_authority (fa_id : Z) : M FormedFederationSnapshot :=
  stmt migrate_schema_11;;
  recovery ← stmt (load_recovery fa_id);
  match recovery with
  | RecFormed snapshot =>
      if Z.of_nat (length (fs_seats snapshot)) <=? 65536 then mret snapshot else fail Storage
  | _ => fail NoActiveFormation
  end.

(** [formed_liquidity_context]. *)
Definition formed_liquidity_context (expected : string) : M LiquidityContext :=
  fresh ← ask Fresh;
  if negb (bool_decide (fresh = Some expected)) then fail Liquidity
  else
    fa_id ← public_key;
    authority ← pbind (post_formed_authority fa_id)
                  (λ r, Done (match r with Err _ => Err Liquidity | r => r end));
    if negb (bool_decide (fs_formation_id authority = expected)) then fail Liquidity
    else
      view ← request (ReadFederation (fs_federation_invite authority));
      name ← lift (ok_or Liquidity (fv_name view));
      mret {| cx_federation_name := name; cx_invite_code := fs_federation_invite authority;
              cx_network := fv_network view; cx_federation_id := fv_federation_id view;
              cx_federation_config_hash := fv_config_hash view;
              cx_bindings := fv_bindings view; cx_seats := fs_seats authority |}.

(** [refresh_provider_with_verifier]: the endpoint of the freshly admitted
    provider. *)
Definition refresh_provider (provider : string) (amounts : LiquidityAmountBounds)
    (network : BitcoinNetwork) (pinned : option string) : M string :=
  lift (intent_validate amounts);;
  request (DiscoverProvider provider amounts network pinned).

Definition sign_public_rpc : M unit := signed ← ask Sign; answered signed.

Definition stored_snapshot (id : string) : M LiquidityOperationSnapshot :=
  o ← stmt (load_liquidity_operation id);
  lift (snapshot o).

(** Whether a rejection asks for fresh trust material. *)
Definition asks_for_refresh (r : RequestResponse) : bool :=
  match lr_outcome r with
  | OutcomeRejected InvalidCredentials _ | OutcomeRejected PolicyMismatch _ => true
  | _ => false
  end.

(** [submit_prepared_liquidity]. *)
Definition submit_prepared_liquidity (o : StoredLiquidityOperation) (cx : LiquidityContext)
    (endpoint : string) (lease : DriverLease) : M LiquidityOperationSnapshot :=
  lift (matches_commitment cx (lo_commitment o));;
  issued_at ← ask Now;
  recomputed ← lift (ok_or Liquidity (details_hash (lo_commitment o)));
  if negb (bool_decide (recomputed = lo_details_payload_hash o)) then fail Storage
  else
    sign_public_rpc;;
    renew lease;;
    request (ConnectProvider endpoint);;
    renew lease;;
    response ← request (RequestLiquidity
      {| lq_commitment := lo_commitment o;
         lq_details_payload_hash := lo_details_payload_hash o; lq_issued_at := issued_at |});
    now ← ask Now;
    lift (verify_request_response o response now);;
    renew lease;;
    (if asks_for_refresh response then request RequireTrustRefresh else mret tt);;
    stmt (store_liquidity_response (lo_operation_id o) response);;
    stored_snapshot (lo_operation_id o).

(** [attach_completed_gateway]. *)
Definition attach_completed_gateway (id : string) : M LiquidityOperationSnapshot :=
  o ← stmt (load_liquidity_operation id);
  api ← lift (op_completed_gateway_api o);
  match api with
  | None => lift (snapshot o)
  | Some api =>
      if bool_decide (lo_verified_gateway_api o = Some api) then lift (snapshot o)
      else
        public_key;;
        request (RegisterGateway api);;
        stmt (mark_liquidity_gateway_view_verified id api);;
        stored_snapshot id
  end.

(** [ensure_no_live_liquidity_operation]. *)
Definition ensure_no_live_liquidity_operation (federation_id : string) : M unit :=
  live ← stmt (find_live_liquidity_operation (λ o,
    bool_decide (fd_federation_id (lc_federation_details (lo_commitment o)) = federation_id)));
  match live with
  | Some s => fail (LiquidityOperationExists (os_operation_id s))
  | None => mret tt
  end.

(** [start_liquidity]. *)
Definition start_liquidity (formation_id provider : string) (amounts : LiquidityAmountBounds)
    : M LiquidityOperationSnapshot :=
  validate_for_start;;
  driver_run (λ lease,
    lift (intent_validate amounts);;
    transfer ← stmt (tx_get d_guardian_transfer);
    if bool_decide (is_Some transfer) then fail InvalidIntent
    else
      renew lease;;
      cx ← formed_liquidity_context formation_id;
      ensure_no_live_liquidity_operation (cx_federation_id cx);;
      renew lease;;
      endpoint ← refresh_provider provider amounts (cx_network cx) None;
      requester ← public_key;
      now ← ask Now;
      expires_at ← lift (ok_or Liquidity (checked_add_u u64_max now REQUEST_VALIDITY));
      details ← lift (federation_details cx);
      let commitment :=
        {| lc_version := PROTOCOL_VERSION; lc_requester_pubkey := key_text requester;
           lc_provider_pubkey := provider; lc_network := cx_network cx; lc_amounts := amounts;
           lc_federation_details := details; lc_expires_at := expires_at |} in
      hash ← lift (ok_or Liquidity (details_hash commitment));
      let operation := prepared_operation formation_id hash commitment (Some endpoint) in
      renew lease;;
      request (CollectMgTrust cx);;
      renew lease;;
      stmt (insert_liquidity_operation operation);;
      snapshot ← submit_prepared_liquidity operation cx endpoint lease;
      attach_completed_gateway (os_operation_id snapshot)).

(** The provider's answer to a status query, within [resume_liquidity]; [inr]
    ends the run without attaching the gateway. *)
Definition resume_from_status (o : StoredLiquidityOperation) (cx : LiquidityContext)
    (id endpoint : string) (lease : DriverLease) (reply : StatusReply)
    : M (LiquidityOperationSnapshot + LiquidityOperationSnapshot) :=
  match reply with
  | StatusOk response =>
      now ← ask Now;
      lift (verify_status_response o response now);;
      renew lease;;
      stmt (store_liquidity_status id response);;
      s ← stored_snapshot id;
      mret (inl s)
  | StatusNotFound =>
      if bool_decide (is_Some (lo_response o)) || bool_decide (is_Some (lo_status o))
      then fail Liquidity
      else
        now ← ask Now;
        if is_past_expiry_grace (lo_commitment o) now then
          renew lease;;
          stmt (mark_liquidity_expired_without_acceptance id);;
          s ← stored_snapshot id;
          mret (inr s)
        else
          renew lease;;
          request (CollectMgTrust cx);;
          s ← submit_prepared_liquidity o cx endpoint lease;
          mret (inl s)
  | StatusFailed => fail Liquidity
  end.

(** [resume_liquidity]. *)
Definition resume_liquidity (id : string) : M LiquidityOperationSnapshot :=
  if negb (is_canonical id) then fail InvalidIntent
  else
    o ← stmt (load_liquidity_operation id);
    if is_rejected o then lift (snapshot o)
    else validate_for_start;; driver_run (λ lease,
      let c := lo_commitment o in
      renew lease;;
      cx ← formed_liquidity_context (lo_formation_id o);
      lift (matches_commitment cx c);;
      durable ← attach_completed_gateway id;
      if is_complete durable then mret durable
      else
        renew lease;;
        endpoint ← refresh_provider (lc_provider_pubkey c) (lc_amounts c) (lc_network c)
                     (Some (lc_provider_pubkey c));
        renew lease;;
        request (ConnectProvider endpoint);;
        issued_at ← ask Now;
        sign_public_rpc;;
        renew lease;;
        reply ← request (GetAllocationStatus (lc_requester_pubkey c) (lc_provider_pubkey c)
                           (lo_details_payload_hash o) issued_at);
        outcome ← resume_from_status o cx id endpoint lease reply;
        match outcome with
        | inr s => mret s
        | inl s => attach_completed_gateway (os_operation_id s)
        end).

(** [maintenance_authority]. *)
Definition maintenance_authority (fa_id : Z) : M FormedFederationSnapshot :=
  stmt migrate_schema_11;;
  recovery ← stmt (load_recovery fa_id);
  match recovery with
  | RecIdle => fail NoActiveFormation
  | RecFormation _ => fail MaintenanceWrongState
  | RecFormed snapshot =>
      fresh ← ask Fresh;
      if negb (bool_decide (fresh = Some (fs_formation_id snapshot))) then fail MaintenanceUnsynced
      else post_formed_authority fa_id
  end.

(** The part of [start_guardian_transfer_locked] that decides whether the
    transfer is recorded: the authority, [replacement_liquidity_blocker] and the
    fenced write.  Checking the approval and asking the guardians is left
    out. *)
Definition begin_transfer (fa_id : Z) (transfer : StoredGuardianTransfer) : M unit :=
  validate_for_start;;
  maintenance_authority fa_id;;
  live ← stmt (find_live_liquidity_operation (λ _, true));
  match live with
  | Some s =>
      if is_complete s then mret tt else fail (LiquidityOperationExists (os_operation_id s))
  | None => mret tt
  end;;
  driver_run (λ lease,
    now ← ask Now;
    stmt (write_guardian_transfer fa_id (Begin transfer) lease now)).

(** ** Reconciling a formed federation *)

(** [formed_federation_payload]. *)
Definition formed_federation_payload (fa_id : Z) : FaTx BackupPayload :=
  o ← tx_get d_formed;
  formed ← tx_lift (ok_or NoActiveFormation o);
  if negb (ff_fa_id formed =? fa_id) then tx_err Storage else mret (ff_payload formed).

(** [verify_consensus_identity]. *)
Definition verify_consensus_identity (view : FederationView) (invite : string)
    : res FaError string :=
  federation_id ← ok_or InvalidManifoldGuardians (invite_federation_id invite);
  if negb (bool_decide (fv_federation_id view = federation_id))
  then Err InvalidManifoldGuardians else Ok federation_id.

(** [StoredGuardianTransfer::moved] with the phase [RemovingSource]; the phase
    is part of [gt_rest]. *)
Definition removing_source (rest : Z) (t : StoredGuardianTransfer) : StoredGuardianTransfer :=
  {| gt_transfer_id := gt_transfer_id t; gt_seat_index := gt_seat_index t;
     gt_source_seat_id := gt_source_seat_id t; gt_stage := gt_stage t; gt_rest := rest |}.

(** [adopt_transferred_seat]. *)
Definition adopt_transferred_seat (fa_id : Z) (payload : BackupPayload)
    (bindings : list SeatBinding) (lease : DriverLease) : M BackupPayload :=
  transfer ← stmt (tx_get d_guardian_transfer);
  match transfer with
  | None => mret payload
  | Some t =>
      match gt_stage t with
      | Buying => mret payload
      | Moving destination =>
          source ← lift (ok_or Storage (bp_seats payload !! Z.to_nat (gt_seat_index t)));
          let named mg_id :=
            existsb (λ b, bool_decide (vb_mg_pubkey b = key_text mg_id)) bindings in
          if named (bs_mg_identity source) || negb (named (ds_mg_id destination))
          then mret payload
          else
            rest ← ask RemovingSource;
            now ← ask Now;
            stmt (write_guardian_transfer fa_id (Rebind (removing_source rest t)) lease now);;
            stmt (formed_federation_payload fa_id)
      end
  end.

(** [publish_formed]: the status is read back and published as fresh. *)
Definition publish_formed (fa_id : Z) : M unit :=
  stmt migrate_schema_11;;
  recovery ← stmt (load_recovery fa_id);
  ask (Publish (match recovery with RecFormed s => Some (fs_formation_id s) | _ => None end)).

(** [reconcile_formed]. *)
Definition reconcile_formed (snapshot : FormedFederationSnapshot) (fa_id : Z)
    (lease : DriverLease) : M unit :=
  payload ← stmt (formed_federation_payload fa_id);
  if bool_decide (bp_seats payload = []) then fail InvalidManifoldGuardians
  else
    authority ← post_formed_authority fa_id;
    view ← request (ReadFederation (fs_federation_invite authority));
    lift (verify_consensus_identity view (fs_federation_invite snapshot));;
    payload ← adopt_transferred_seat fa_id payload (fv_bindings view) lease;
    let name :=
      match fv_name view with
      | Some n => n
      | None => default "" ((λ c, fd_federation_name (lc_federation_details c))
                              <$> bp_liquidity payload)
      end in
    let cx :=
      {| cx_federation_name := name; cx_invite_code := fs_federation_invite snapshot;
         cx_network := fv_network view; cx_federation_id := fv_federation_id view;
         cx_federation_config_hash := fv_config_hash view; cx_bindings := fv_bindings view;
         cx_seats := bp_seats payload |} in
    lift (match fleet_seat_hints cx with Err _ => Err InvalidManifoldGuardians | r => r end);;
    lift (match bp_liquidity payload with
          | Some c => matches_commitment cx c
          | None => Ok tt
          end);;
    lift (verify_consensus_identity view (fs_federation_invite snapshot));;
    invite ← lift (ok_or InvalidIntent (dial_invite (fs_federation_invite snapshot)
                                          (fv_config view)));
    stmt (reconcile_formed_federation fa_id (fv_name view) invite);;
    publish_formed fa_id.

(** [resume], the formed branch; resuming a formation is [Driver]'s. *)
Definition resume : M unit :=
  validate_for_start;;
  fa_id ← public_key;
  driver_run (λ lease,
    stmt migrate_schema_11;;
    recovery ← stmt (load_recovery fa_id);
    match recovery with
    | RecFormed snapshot => ask (Publish None);; reconcile_formed snapshot fa_id lease
    | _ => fail NoActiveFormation
    end).

(** [restore_from_relays]: [author] and [key] are derived from the root secret,
    [required] is the environment's read quorum. *)
Definition restore_from_relays (fa_id author key environment required : Z)
    : M BackupRestoreOutcome :=
  completed ← stmt (tx_get (λ d, bool_decide (environment ∈ d_recovery_completed d)));
  if completed : bool then
    stmt migrate_schema_11;;
    recovery ← stmt (load_recovery fa_id);
    mret (match recovery with RecFormed _ => Restored | _ => NoBackup end)
  else
    reads ← request (FetchBackups author);
    match best_of_reads key author None 0 reads with
    | (None, successful) =>
        outcome ← lift (no_backup_or_unavailable successful required);
        stmt (complete_recovery environment);;
        mret outcome
    | (Some payload, _) =>
        now ← ask Now;
        stmt (restore_backup_payload fa_id payload (Some environment) now);;
        stmt migrate_schema_11;;
        stmt (load_recovery fa_id);;
        mret Restored
    end.

End Driver.
End Upkeep.

(** * The keeper of a formed federation

    One FA client after (or before) its federation is formed: the runs of
    [FaUpkeep], one at a time under the client's run guard, between statements
    of the background workers, crashes and reopenings, and the steps of
    formation and of guardian transfers that other runs take.  [wp] carries an
    invariant through every prefix of a run. *)

Module Keeper.
Import Ledger Allocations Daemon Fa Quotes Store Requester Backup Upkeep.

Section Client.
Context `{!Crypto, !RequesterCrypto, !BackupCodec, !Invites}.

(** The entry points of the client. *)
Inductive Handler :=
| StartLiquidity (formation_id provider : string) (amounts : LiquidityAmountBounds)
| ResumeLiquidity (operation_id : string)
| BeginTransfer (fa_id : Z) (transfer : StoredGuardianTransfer)
| Resume
| RestoreFromRelays (fa_id author key environment required : Z).
Definition forget {A} (p : M A) : Prog unit := pbind p (λ _, Done tt).
Definition body (h : Handler) : Prog unit :=
  match h with
  | StartLiquidity f p a => forget (start_liquidity f p a)
  | ResumeLiquidity id => forget (resume_liquidity id)
  | BeginTransfer f t => forget (begin_transfer f t)
  | Resume => forget resume
  | RestoreFromRelays f a k e r => forget (restore_from_relays f a k e r)
  end.

(** What the backup workers write beside a run, and the lease rows of other
    clients of the database. *)
Inductive Worker :=
| PrepareBackup (now : Z)
| ConfirmRelay (relay : string) (c : BackupRelayConfirmation)
| OtherLease (l : option StoredDriverLease).
Definition worker_tx (w : Worker) : FaTx (option PreparedFaBackup) :=
  match w with
  | PrepareBackup now => p ← backup_payload now; mret (Some p)
  | ConfirmRelay relay c => record_backup_confirmation relay c;; mret None
  | OtherLease l => tx_put (set_lease l);; mret None
  end.

(** What other runs of the client write under the run guard.  [Assemble] is any
    step of a formation, which only exists while no federation is formed;
    [TransferStep] any later write of an open transfer. *)
Inductive OtherRun :=
| Assemble (f : option StoredFormation) (seats : gmap (string * Z) StoredSeat)
| ConfirmFormation (formation_id : string)
| TransferStep (fa_id : Z) (write : GuardianTransferWrite) (lease : DriverLease) (now : Z).
Definition assembled (f : option StoredFormation) : bool :=
  match f with
  | Some f =>
      (sf_schema_version f =? STORAGE_SCHEMA_VERSION) && negb (bool_decide (sf_phase f = Formed))
  | None => true
  end.
Definition other_tx (o : OtherRun) : FaTx unit :=
  match o with
  | Assemble f seats =>
      formed ← tx_get d_formed;
      if bool_decide (is_Some formed) || negb (assembled f) then tx_err Storage
      else tx_put (λ d, set_formation f (set_seats seats d))
  | ConfirmFormation fid => confirm_formation_meta_target fid
  | TransferStep fa_id write lease now =>
      match write with
      | Begin _ => tx_err InvalidIntent
      | write => write_guardian_transfer fa_id write lease now
      end
  end.
(** A run that formed the federation publishes it as fresh. *)
Definition fresh_after (o : OtherRun) (d : Db) (fresh : option string) : option string :=
  match o with
  | ConfirmFormation _ => ff_formation_id <$> d_formed d
  | _ => fresh
  end.

(** ** The client over its database *)

Inductive Event :=
| EStmt (before after : Db)
| EPrepared (p : PreparedFaBackup)
| ECall (c : Ext) (a : Ans c) (at_ : Db)
| ECrash.

(** The trace holds the newest event first; [n_fresh] is the formation the
    published status reports as formed and fresh. *)
Record Node := {
  n_db : Db;
  n_fresh : option string;
  n_running : option (Prog unit);
  n_trace : list Event
}.

Inductive Choice :=
| Start (h : Handler)
| Exec
| Lose (busy : bool)
| Answer (o : ∀ c, Ans c)
| Finish
| Crash
| Work (w : Worker)
| Other (o : OtherRun).

Definition answer_of (o : ∀ c, Ans c) (fresh : option string) (c : Ext) : Ans c :=
  match c return Ans c with Fresh => fresh | c => o c end.
Definition fresh_of (c : Ext) (fresh : option string) : option string :=
  match c with Publish f => f | _ => fresh end.

Definition act (choice : Choice) (s : Node) : option Node :=
  let d := n_db s in
  match choice, n_running s with
  | Start h, None =>
      Some {| n_db := d; n_fresh := n_fresh s; n_running := Some (body h);
              n_trace := n_trace s |}
  | Exec, Some (Stmt t k) =>
      let '(d', r) := run_tx t d in
      Some {| n_db := d'; n_fresh := n_fresh s; n_running := Some (k r);
              n_trace := EStmt d d' :: n_trace s |}
  | Lose busy, Some (Stmt t k) =>
      Some {| n_db := d; n_fresh := n_fresh s;
              n_running := Some (k (Err (if busy then Busy else Storage)));
              n_trace := EStmt d d :: n_trace s |}
  | Answer o, Some (Call c k) =>
      let a := answer_of o (n_fresh s) c in
      Some {| n_db := d; n_fresh := fresh_of c (n_fresh s); n_running := Some (k a);
              n_trace := ECall c a d :: n_trace s |}
  | Finish, Some (Done _) =>
      Some {| n_db := d; n_fresh := n_fresh s; n_running := None; n_trace := n_trace s |}
  | Crash, _ =>
      Some {| n_db := d; n_fresh := None; n_running := None; n_trace := ECrash :: n_trace s |}
  | Work w, running =>
      let '(d', r) := run_tx (worker_tx w) d in
      Some {| n_db := d'; n_fresh := n_fresh s; n_running := running;
              n_trace := match r with Ok (Some p) => [EPrepared p] | _ => [] end
                         ++ EStmt d d' :: n_trace s |}
  | Other o, None =>
      let '(d', r) := run_tx (other_tx o) d in
      Some {| n_db := d';
              n_fresh := match r with Ok _ => fresh_after o d' (n_fresh s) | _ => n_fresh s end;
              n_running := None; n_trace := EStmt d d' :: n_trace s |}
  | _, _ => None
  end.

Definition opened : Node :=
  {| n_db := empty_db; n_fresh := None; n_running := None; n_trace := [] |}.

(** [s'] comes after [s]; [reachable] from a new database. *)
Inductive later (s : Node) : Node -> Prop :=
| later_refl : later s s
| later_act c s' s'' : later s s' → act c s' = Some s'' → later s s''.
Definition reachable (s : Node) : Prop := later opened s.

(** What is assumed of answers: reading the consensus of an invite's federation
    returns that federation's configuration. *)
Definition honest_answer (c : Ext) : Ans c -> Prop :=
  match c with
  | Recv (ReadFederation invite) => λ a,
      match a with
      | inr view => invite_federation_id invite = Some (fv_federation_id view)
      | inl _ => True
      end
  | _ => λ _, True
  end.
Definition honest (tr : list Event) : Prop :=
  ∀ c a d, ECall c a d ∈ tr → honest_answer c a.

End Client.
End Keeper.
