(* ===== verification/FaKeeping.v ===== *)
(** * The journal of liquidity requests

    What the rows of [FaLiquidity] say about a request: well-formed rows, how a
    row may advance, what each store transaction does to its row, and that
    paging through the journal sees every row.

    Module [Journal] holds these lemmas; module [Keeping] the invariant of the
    client and the weakest preconditions that carry it. *)

From S2P Require Import Prelude LmSchema LmProg LmAllocations LmSteps FaSchema FaQuotes FaStore FaLiquidity FaBackup FaUpkeep.
From stdpp Require Import base gmap strings list sorting.
From Stdlib Require Import ZArith Lia.
Open Scope Z_scope.

Module Journal.
Import Ledger Allocations Daemon Fa Quotes Store Requester.

(** ** Rows in key order *)

#[global] Instance row_le_0_transitive {A} : Transitive (row_le (λ _ : A, 0)).
Proof.
  intros x y z [?|[_ Hx]] [?|[_ Hy]]; try lia. right. split; [done|]. by transitivity y.1.
Qed.
#[global] Instance row_le_0_total {A} : Total (row_le (λ _ : A, 0)).
Proof.
  intros x y. destruct (total String.le x.1 y.1) as [H|H]; [left|right]; right; done.
Qed.

Lemma ordered_operations_lookup d id o :
  (id, o) ∈ ordered_operations d ↔ d_liquidity d !! id = Some o.
Proof.
  unfold ordered_operations, select_ordered.
  rewrite merge_sort_Permutation, list_elem_of_filter, elem_of_map_to_list. naive_solver.
Qed.
Lemma ordered_operations_keys d : NoDup (ordered_operations d).*1.
Proof.
  unfold ordered_operations, select_ordered. rewrite merge_sort_Permutation.
  assert (Hf : ∀ l : list (string * StoredLiquidityOperation), filter (λ _, true = true) l = l).
  { induction l as [|p l IH]; [done|]. by rewrite filter_cons_True, IH. }
  rewrite Hf. apply NoDup_fst_map_to_list.
Qed.
Lemma ordered_operations_sorted d :
  StronglySorted (row_le (λ _, 0)) (ordered_operations d).
Proof. apply Sorted_StronglySorted; [apply _|]. apply (Sorted_merge_sort (row_le _)). Qed.

(** ** Paging *)

Section Paging.
Context {RC : RequesterCrypto}.
Implicit Types (d : Db) (o : StoredLiquidityOperation).

Definition after_cursor (after : option string) d : list (string * StoredLiquidityOperation) :=
  match after with
  | Some cursor => filter (λ p, ¬ String.le p.1 cursor) (ordered_operations d)
  | None => ordered_operations d
  end.

Lemma after_cursor_sorted after d : StronglySorted (row_le (λ _, 0)) (after_cursor after d).
Proof.
  pose proof (ordered_operations_sorted d) as Hs. destruct after as [cursor|]; cbn; [|done].
  induction Hs as [|p l Hl IH Hp]; [constructor|]. rewrite filter_cons. case_decide; [|done].
  constructor; [done|]. rewrite Forall_forall in Hp |- *.
  intros q [_ Hq]%list_elem_of_filter. auto.
Qed.
Lemma after_cursor_keys after d : NoDup (after_cursor after d).*1.
Proof.
  pose proof (ordered_operations_keys d) as Hk. destruct after as [cursor|]; cbn; [|done].
  induction (ordered_operations d) as [|p l IH]; [constructor|].
  apply NoDup_cons in Hk as [Hp Hk]. rewrite filter_cons. case_decide; [|auto]. cbn.
  constructor; [|auto]. intros (q & Hq & [_ Hin]%list_elem_of_filter)%list_elem_of_fmap.
  apply Hp. rewrite Hq. by apply list_elem_of_fmap_2.
Qed.

Lemma check_keys_Ok l os : check_keys l = Ok os →
  os = l.*2 ∧ Forall (λ p, p.1 = lo_operation_id p.2) l.
Proof.
  revert os. induction l as [|[id o] l IH]; cbn [check_keys]; intros os H; [by injection H as <-|].
  bool_in H as Hk; [|done]. cbn [negb] in H. apply res_bind_Ok in H. destruct H as (os' & H & Hos).
  injection Hos as <-. apply IH in H as [-> HF]. split; [done|]. by constructor.
Qed.

(** The page after a cursor, and what a cursor at its last row leaves. *)
Lemma split_page after d l1 id o l2 :
  after_cursor after d = l1 ++ (id, o) :: l2 →
  (∀ p, p ∈ l2 → p ∈ after_cursor (Some id) d) ∧
  (∀ p, p ∈ after_cursor (Some id) d → p ∈ l2).
Proof.
  intros E. pose proof (after_cursor_sorted after d) as Hs. pose proof (after_cursor_keys after d) as Hk.
  rewrite E in Hs, Hk. rewrite fmap_app in Hk. cbn in Hk.
  apply NoDup_app in Hk as (_ & _ & [Hid _]%NoDup_cons).
  assert (Hle : ∀ p, p ∈ l1 → String.le p.1 id).
  { intros p Hp. apply StronglySorted_app in Hs as (Hc & _ & _).
    destruct (Hc p (id, o)) as [?|[_ ?]]; [done|by left|lia|done]. }
  apply StronglySorted_app in Hs as (_ & _ & Hs). apply StronglySorted_inv in Hs as [_ Hs].
  rewrite Forall_forall in Hs.
  assert (Hin : ∀ p, p ∈ after_cursor after d → p ∈ ordered_operations d).
  { intros p. destruct after; cbn; [|done]. rewrite list_elem_of_filter. naive_solver. }
  split.
  - intros p Hp. cbn. rewrite list_elem_of_filter. split.
    + intros Hpi. destruct (Hs p Hp) as [?|[_ Hip]]; cbn in *; [lia|].
      apply Hid. rewrite (anti_symm String.le id p.1) by done. by apply list_elem_of_fmap_2.
    + apply Hin. rewrite E. set_solver.
  - intros p [Hp Ho]%list_elem_of_filter.
    assert (Ha : p ∈ after_cursor after d).
    { destruct after as [cursor|]; cbn in *; [|done]. apply list_elem_of_filter. split; [|done].
      intros Hpc. apply Hp. transitivity cursor; [done|].
      assert (Hio : (id, o) ∈ filter (λ p, ¬ String.le p.1 cursor) (ordered_operations d)).
      { rewrite E. set_solver. }
      apply list_elem_of_filter in Hio as [Hio _]. cbn in Hio.
      destruct (total String.le cursor id); naive_solver. }
    rewrite E in Ha. apply elem_of_app in Ha as [Ha|Ha]; [by apply Hle in Ha|].
    apply elem_of_cons in Ha as [->|Ha]; [|done]. by destruct Hp.
Qed.

Definition live_answer (matches : StoredLiquidityOperation -> bool)
    (l : list StoredLiquidityOperation) (r : option LiquidityOperationSnapshot) : Prop :=
  match r with
  | None => ∀ o, o ∈ l → matches o = true →
      ∃ s, snapshot o = Ok s ∧ os_phase s = PhaseRejected
  | Some s => ∃ o, o ∈ l ∧ matches o = true ∧ snapshot o = Ok s ∧ os_phase s ≠ PhaseRejected
  end.
Lemma first_live_Ok matches l r : first_live matches l = Ok r → live_answer matches l r.
Proof.
  revert r. induction l as [|o l IH]; cbn [first_live]; intros r H;
    [injection H as <-; by intros o ?%elem_of_nil|].
  assert (Hskip : first_live matches l = Ok r →
            (matches o = true → ∃ s, snapshot o = Ok s ∧ os_phase s = PhaseRejected) →
            live_answer matches (o :: l) r).
  { intros Hr Ho. apply IH in Hr. destruct r as [s|]; cbn in *; [set_solver|].
    intros o' [->|Ho']%elem_of_cons; auto. }
  destruct (matches o) eqn:Hm; cbn [negb] in H; [|by apply Hskip].
  apply res_bind_Ok in H as (s & Hs & H). bool_in H as Hp; cbn [negb] in H.
  - apply Hskip; eauto.
  - injection H as <-. exists o. repeat split; [by left|done..].
Qed.

Lemma live_answer_app matches l1 l2 r :
  live_answer matches l1 None → live_answer matches l2 r → live_answer matches (l1 ++ l2) r.
Proof.
  destruct r as [s|]; cbn; [set_solver|]. intros H1 H2 o [Ho|Ho]%elem_of_app; auto.
Qed.
Lemma live_answer_incl matches l1 l2 s :
  (∀ o, o ∈ l1 → o ∈ l2) → live_answer matches l1 (Some s) → live_answer matches l2 (Some s).
Proof. intros Hl (o & Ho & H). exists o. auto. Qed.

Lemma list_page_Ok after n d d' stored :
  list_liquidity_operations after n d = Ok (d', stored) →
  d' = d ∧ stored = (take (S n) (after_cursor after d)).*2 ∧
  Forall (λ p, p.1 = lo_operation_id p.2) (take (S n) (after_cursor after d)).
Proof.
  unfold list_liquidity_operations. intros H. tx_inv. by apply check_keys_Ok in H as [-> ?].
Qed.

(** A full page ends in the row its cursor names. *)
Lemma full_page after d n :
  Forall (λ p, p.1 = lo_operation_id p.2) (take (S n) (after_cursor after d)) →
  (n < length (take (S n) (after_cursor after d)).*2)%nat → n ≠ 0%nat →
  ∃ l id o l2, after_cursor after d = l ++ (id, o) :: l2 ∧
    take n (take (S n) (after_cursor after d)).*2 = l.*2 ++ [o] ∧
    lo_operation_id <$> last (take n (take (S n) (after_cursor after d)).*2) = Some id.
Proof.
  intros Hk Hn H0. rewrite length_fmap, length_take in Hn. rewrite <- fmap_take, take_take.
  replace (n `min` S n)%nat with n by lia.
  destruct (after_cursor after d !! pred n) as [[id o]|] eqn:Hi; [|apply lookup_ge_None in Hi; lia].
  pose proof (take_drop_middle _ _ _ Hi) as E.
  exists (take (pred n) (after_cursor after d)), id, o, (drop (S (pred n)) (after_cursor after d)).
  replace (take n (after_cursor after d)) with (take (pred n) (after_cursor after d) ++ [(id, o)]).
  2:{ rewrite <- (take_S_r _ _ _ Hi). f_equal. lia. }
  split; [done|]. rewrite fmap_app. cbn. split; [done|]. rewrite last_snoc. cbn.
  rewrite Forall_forall in Hk. f_equal. symmetry. apply (Hk (id, o)).
  apply elem_of_take. exists (pred n). split; [done|lia].
Qed.

Lemma cursor_shrinks after d l id o l2 :
  after_cursor after d = l ++ (id, o) :: l2 →
  (length (after_cursor (Some id) d) < length (after_cursor after d))%nat.
Proof.
  intros E. destruct (split_page _ _ _ _ _ _ E) as [_ Hin].
  rewrite E, length_app. cbn [length].
  assert (Hle : (length (after_cursor (Some id) d) ≤ length l2)%nat); [|lia].
  apply submseteq_length, NoDup_submseteq; [|done].
  eapply NoDup_fmap_1, after_cursor_keys.
Qed.

Lemma find_live_pages_Ok matches d fuel after d' r :
  (length (after_cursor after d) < fuel)%nat →
  find_live_pages fuel matches after d = Ok (d', r) →
  d' = d ∧ live_answer matches (after_cursor after d).*2 r.
Proof.
  revert after. induction fuel as [|fuel IH]; intros after Hf H; [lia|].
  cbn [find_live_pages] in H. apply tx_bind_Ok in H as (d1 & stored & Hl & H).
  apply list_page_Ok in Hl as (-> & -> & Hk). apply tx_bind_Ok in H as (d1 & found & Hfl & H).
  apply tx_lift_Ok in Hfl as [-> Hfl%first_live_Ok].
  destruct found as [s|].
  { tx_inv. split; [done|]. eapply live_answer_incl; [|done].
    intros o Ho. rewrite <- fmap_take in Ho. apply list_elem_of_fmap in Ho as (p & -> & Hp).
    apply list_elem_of_fmap_2. apply elem_of_take in Hp as (i & Hp & _).
    apply list_elem_of_lookup_2 in Hp. apply elem_of_take in Hp as (j & Hp & _).
    by apply list_elem_of_lookup_2 in Hp. }
  destruct (Nat.ltb_spec OPERATION_PAGE_MAX (length (take (S OPERATION_PAGE_MAX)
    (after_cursor after d)).*2)) as [Hm|Hm]; cbn [negb] in H.
  - destruct (full_page _ _ _ Hk Hm) as (l & id & o & l2 & E & Hp & Hlast); [done|].
    rewrite Hlast in H. apply IH in H as [-> H].
    2:{ pose proof (cursor_shrinks _ _ _ _ _ _ E). lia. }
    split; [done|]. rewrite E, fmap_app. cbn. rewrite (cons_middle o), (assoc_L (++)), <- Hp.
    apply live_answer_app; [done|]. destruct (split_page _ _ _ _ _ _ E) as [H1 H2].
    destruct r as [s|]; cbn in *.
    + destruct H as (o' & (p & -> & Ho)%list_elem_of_fmap & H). exists p.2.
      split; [|done]. apply list_elem_of_fmap_2. auto.
    + intros o' (p & -> & Ho)%list_elem_of_fmap. apply H, list_elem_of_fmap_2. auto.
  - tx_inv. split; [done|]. rewrite length_fmap, length_take in Hm.
    rewrite <- fmap_take, take_take, take_ge in Hfl by lia. done.
Qed.

(** [find_live_liquidity_operation] reads only, and sees every row. *)
Lemma find_live_Ok matches d d' r :
  find_live_liquidity_operation matches d = Ok (d', r) →
  d' = d ∧ live_answer matches (ordered_operations d).*2 r.
Proof.
  unfold find_live_liquidity_operation. intros H. apply tx_bind_Ok in H as (d1 & n & H1 & H).
  apply tx_get_Ok in H1 as [-> ->]. apply find_live_pages_Ok in H; [done|]. cbn.
  assert (Hl : (length (ordered_operations d) ≤ length (map_to_list (d_liquidity d)))%nat).
  { unfold ordered_operations, select_ordered. rewrite merge_sort_Permutation. apply length_filter. }
  rewrite length_map_to_list in Hl. lia.
Qed.

End Paging.

(** ** Well-formed rows *)

Section Rows.
Context {RC : RequesterCrypto}.
Implicit Types (d : Db) (o : StoredLiquidityOperation).

(** A row is stored under the hash of its commitment.  A rejection, signed or by
    expiry, excludes evidence of acceptance. *)
Record op_ok (id : string) o : Prop := {
  ok_id : lo_operation_id o = id;
  ok_hash : lo_details_payload_hash o = id;
  ok_commitment : details_hash (lo_commitment o) = Some id;
  ok_schema : lo_schema_version o = 3;
  ok_expired : lo_expired_without_acceptance o = true → lo_response o = None ∧ lo_status o = None;
  ok_rejected : ∀ r, lo_response o = Some r → is_acceptance r = false → lo_status o = None
}.

(** The provider finished the request and the client saw its gateway. *)
Definition finished o : Prop := ∃ s, snapshot o = Ok s ∧ is_complete s = true.

(** How a row may change: its identity and the provider's response stay, a status
    is only replaced by one issued no earlier, expiry is final. *)
Record advances o o' : Prop := {
  adv_id : lo_operation_id o' = lo_operation_id o;
  adv_commitment : lo_commitment o' = lo_commitment o;
  adv_response : ∀ r, lo_response o = Some r → lo_response o' = Some r;
  adv_status : ∀ s, lo_status o = Some s →
    ∃ s', lo_status o' = Some s' ∧ ls_issued_at s <= ls_issued_at s';
  adv_expired : lo_expired_without_acceptance o = true → lo_expired_without_acceptance o' = true
}.
#[global] Instance advances_preorder : PreOrder advances.
Proof.
  split; [split; eauto with lia|]. intros o1 o2 o3 [] []. split; [congruence..|eauto| |auto].
  intros s Hs. edestruct adv_status0 as (s1 & H1 & ?); [done|].
  edestruct adv_status1 as (s2 & H2 & ?); [done|]. exists s2. split; [done|lia].
Qed.

Lemma prepared_ok fid hash c hint : details_hash c = Some hash →
  op_ok hash (prepared_operation fid hash c hint).
Proof. by split. Qed.

Lemma is_rejected_cases o : is_rejected o =
  lo_expired_without_acceptance o ||
  match lo_response o with Some r => negb (is_acceptance r) | None => false end.
Proof. unfold is_rejected, is_acceptance. by destruct (lo_response o) as [[? ? ? ? [] ?]|]. Qed.
Lemma not_rejected o : is_rejected o = false ↔
  lo_expired_without_acceptance o = false ∧
  (∀ r, lo_response o = Some r → is_acceptance r = true).
Proof.
  rewrite is_rejected_cases, orb_false_iff. destruct (lo_response o) as [r|]; [|naive_solver].
  rewrite negb_false_iff. naive_solver.
Qed.

Lemma snapshot_Ok o s : snapshot o = Ok s →
  os_phase s = (op_phase o).1 ∧ os_operation_id s = lo_operation_id o ∧
  os_amounts s = lc_amounts (lo_commitment o) ∧
  os_item_statuses s = default [] (as_item_statuses <$> allocation_status o).
Proof.
  unfold snapshot. intros H. destruct (negb (_ =? 3)); [done|]. destruct (negb (is_canonical _)); [done|].
  apply res_bind_Ok in H as (h & _ & H). destruct (_ || _); [done|].
  by apply res_bind_Ok in H as (v & _ & [= <-]).
Qed.
(** Only the completed gateway decides whether a changed mark is shown. *)
Lemma snapshot_verified o s api : snapshot o = Ok s →
  op_completed_gateway_api o = Ok (Some api) →
  ∃ s', snapshot (with_evidence (lo_response o) (lo_status o) (Some api)
                    (lo_expired_without_acceptance o) o) = Ok s' ∧
    os_amounts s' = os_amounts s ∧ os_item_statuses s' = os_item_statuses s ∧
    os_gateway_view_verified s' = true.
Proof.
  intros Hs Hapi. destruct (snapshot_Ok o s Hs) as (_ & _ & -> & ->).
  unfold snapshot in Hs.
  destruct (lo_schema_version o =? 3) eqn:E1; [|done]. destruct (is_canonical _) eqn:E2; [|done].
  cbn [negb] in Hs. apply res_bind_Ok in Hs as (h & E3 & Hs).
  destruct (negb _ || _) eqn:E4 in Hs; [done|]. clear Hs.
  unfold snapshot. cbn [lo_schema_version lo_operation_id lo_commitment lo_details_payload_hash
    lo_verified_gateway_api with_evidence].
  rewrite E1, E2, E3. cbn [negb mbind res_bind]. rewrite E4.
  change (op_completed_gateway_api (with_evidence _ _ _ _ o)) with (op_completed_gateway_api o).
  rewrite Hapi. cbn. eexists. split; [done|]. cbn.
  by rewrite bool_decide_eq_true_2.
Qed.
Lemma op_phase_rejected id o : op_ok id o →
  (op_phase o).1 = PhaseRejected ↔ is_rejected o = true.
Proof.
  intros Ho. rewrite is_rejected_cases. unfold op_phase, is_acceptance.
  pose proof (ok_expired _ _ Ho) as He.
  destruct (lo_response o) as [[? ? ? ? [status|code reason] ?]|] eqn:Hr; cbn.
  - destruct (lo_expired_without_acceptance o); [|done]. by destruct (He eq_refl).
  - by rewrite orb_true_r.
  - rewrite orb_false_r. destruct (lo_expired_without_acceptance o); [done|]. by case_bool_decide.
Qed.

(** Acceptance survives every change of a well-formed row. *)
Lemma accepted_advances id o o' : op_ok id o' → advances o o' →
  durably_accepted o = true → durably_accepted o' = true ∧ is_rejected o' = false.
Proof.
  intros Ho Ha. unfold durably_accepted. rewrite !orb_true_iff, !bool_decide_eq_true.
  intros Hacc. assert (Hev : is_Some (lo_status o') ∨
    ∃ r, lo_response o' = Some r ∧ is_acceptance r = true).
  { destruct Hacc as [[s Hs]|Hr].
    - left. destruct (adv_status _ _ Ha s Hs) as (s' & -> & _). eauto.
    - right. destruct (lo_response o) as [r|] eqn:E; [|done].
      exists r. split; [|done]. by apply (adv_response _ _ Ha). }
  split.
  - destruct Hev as [?|(r & -> & Hr)]; auto.
  - apply not_rejected. split.
    + destruct (lo_expired_without_acceptance o') eqn:He; [|done].
      destruct (ok_expired _ _ Ho He) as [H1 H2]. rewrite H1, H2 in Hev.
      destruct Hev as [[? ?]|(? & ? & _)]; done.
    + intros r Hr. destruct (is_acceptance r) eqn:E; [done|].
      pose proof (ok_rejected _ _ Ho r Hr E) as Hs. rewrite Hs in Hev.
      destruct Hev as [[? ?]|(r' & Hr' & Hacc')]; [done|]. rewrite Hr in Hr'. injection Hr' as ->. congruence.
Qed.
Lemma rejected_not_accepted id o : op_ok id o → is_rejected o = true → durably_accepted o = false.
Proof.
  intros Ho Hr. destruct (durably_accepted o) eqn:E; [|done].
  destruct (accepted_advances id o o Ho (reflexivity o) E). congruence.
Qed.

(** ** The transactions on a row *)

Lemma the_operation_Ok e id d d' o : the_operation e id d = Ok (d', o) →
  d' = d ∧ d_liquidity d !! id = Some o.
Proof. unfold the_operation. intros H. tx_inv. done. Qed.

Lemma insert_liquidity_operation_Ok o d d' u : insert_liquidity_operation o d = Ok (d', u) →
  d_liquidity d !! lo_operation_id o = None ∧
  d' = set_liquidity (<[lo_operation_id o := o]> (d_liquidity d)) d.
Proof.
  unfold insert_liquidity_operation, put_operation. intros H. tx_inv.
  bool_in H as Hn; tx_inv. by rewrite <- eq_None_not_Some in Hn.
Qed.

Lemma store_response_Ok id r d d' u : store_liquidity_response id r d = Ok (d', u) →
  ∃ o o', d_liquidity d !! id = Some o ∧ d' = set_liquidity (<[id := o']> (d_liquidity d)) d ∧
    lo_verified_gateway_api o' = lo_verified_gateway_api o ∧
    lo_expired_without_acceptance o' = lo_expired_without_acceptance o ∧
    advances o o' ∧ (op_ok id o → lo_expired_without_acceptance o = false → op_ok id o').
Proof.
  unfold store_liquidity_response, put_operation. intros H.
  apply tx_bind_Ok in H as (d1 & o & H1 & H). apply the_operation_Ok in H1 as [-> Ho].
  destruct (match lo_response o with Some _ => _ | None => _ end) eqn:Hs in H; [done|].
  destruct (durably_accepted o && _) eqn:Hd in H; [done|]. tx_inv.
  eexists o, _. split; [done|]. split; [done|]. split; [done|]. split; [done|]. split.
  - split; cbn; [done..| | |done]; [|intros s Hst; exists s; split; [done|lia]].
    intros r' Hr. rewrite Hr in Hs. apply negb_false_iff, bool_decide_eq_true in Hs. congruence.
  - intros [] He. split; cbn; [done..|congruence|].
    intros r' [= <-] Hr. apply andb_false_iff in Hd as [Hd|Hd]; [|by rewrite Hr in Hd].
    unfold durably_accepted in Hd. apply orb_false_iff in Hd as [Hd _].
    apply bool_decide_eq_false in Hd. by rewrite <- eq_None_not_Some in Hd.
Qed.

Lemma store_status_Ok id s d d' u : store_liquidity_status id s d = Ok (d', u) →
  ∃ o o', d_liquidity d !! id = Some o ∧ d' = set_liquidity (<[id := o']> (d_liquidity d)) d ∧
    (lo_verified_gateway_api o' = lo_verified_gateway_api o ∨ lo_verified_gateway_api o' = None) ∧
    lo_expired_without_acceptance o' = lo_expired_without_acceptance o ∧
    advances o o' ∧ (op_ok id o → is_rejected o = false → op_ok id o').
Proof.
  unfold store_liquidity_status, put_operation. intros H.
  apply tx_bind_Ok in H as (d1 & o & H1 & H). apply the_operation_Ok in H1 as [-> Ho].
  apply tx_bind_Ok in H as (d1 & u1 & Hold & H). apply tx_lift_Ok in Hold as [-> Hold].
  apply tx_bind_Ok in H as (d1 & api & Hapi & H). apply tx_lift_Ok in Hapi as [-> _]. tx_inv.
  assert (Hadv : ∀ v, advances o (with_evidence (lo_response o) (Some s) v
                                    (lo_expired_without_acceptance o) o)).
  { intros v. split; cbn; [done..| |done]. intros s0 Hs0. exists s. split; [done|].
    rewrite Hs0 in Hold. by destruct (Z.ltb_spec (ls_issued_at s) (ls_issued_at s0)). }
  assert (Hok : ∀ v, op_ok id o → is_rejected o = false →
            op_ok id (with_evidence (lo_response o) (Some s) v
                        (lo_expired_without_acceptance o) o)).
  { intros v [] [He Hr]%not_rejected. split; cbn; [done..|congruence|].
    intros r Hr0 Hf. apply Hr in Hr0. congruence. }
  case_bool_decide; eexists o, _; (split; [done|]; split; [done|]; cbn; split; [auto|];
    split; [done|]; split; [apply Hadv|apply Hok]).
Qed.

Lemma mark_verified_Ok id api d d' u :
  mark_liquidity_gateway_view_verified id api d = Ok (d', u) →
  ∃ o, d_liquidity d !! id = Some o ∧ op_completed_gateway_api o = Ok (Some api) ∧
    d' = set_liquidity (<[id := with_evidence (lo_response o) (lo_status o) (Some api)
                                  (lo_expired_without_acceptance o) o]> (d_liquidity d)) d.
Proof.
  unfold mark_liquidity_gateway_view_verified, put_operation. intros H.
  apply tx_bind_Ok in H as (d1 & o & H1 & H). apply the_operation_Ok in H1 as [-> Ho].
  tx_inv. bool_in H as Hc; cbn in H; tx_inv. exists o. by subst.
Qed.

Lemma mark_expired_Ok id d d' u : mark_liquidity_expired_without_acceptance id d = Ok (d', u) →
  ∃ o, d_liquidity d !! id = Some o ∧ lo_response o = None ∧ lo_status o = None ∧
    d' = set_liquidity (<[id := with_evidence None None (lo_verified_gateway_api o) true o]>
                          (d_liquidity d)) d.
Proof.
  unfold mark_liquidity_expired_without_acceptance, put_operation. intros H.
  apply tx_bind_Ok in H as (d1 & o & H1 & H). apply the_operation_Ok in H1 as [-> Ho].
  destruct (_ || _) eqn:Hb in H; [done|]. apply orb_false_iff in Hb as [H1 H2].
  apply bool_decide_eq_false in H1, H2. rewrite <- eq_None_not_Some in H1. rewrite <- eq_None_not_Some in H2.
  tx_inv.
  exists o. by rewrite H1, H2.
Qed.

(** Marking a gateway or an expiry keeps the row well-formed and advances it. *)
Lemma with_verified_ok id o v : op_ok id o →
  op_ok id (with_evidence (lo_response o) (lo_status o) v (lo_expired_without_acceptance o) o) ∧
  advances o (with_evidence (lo_response o) (lo_status o) v (lo_expired_without_acceptance o) o).
Proof.
  intros []. split; [by split|]. split; cbn; [done..| |done]. intros s Hs. exists s. split; [done|lia].
Qed.
Lemma with_expired_ok id o : op_ok id o → lo_response o = None → lo_status o = None →
  op_ok id (with_evidence None None (lo_verified_gateway_api o) true o) ∧
  advances o (with_evidence None None (lo_verified_gateway_api o) true o).
Proof.
  intros [] Hr Hs. split; [by split|]. split; cbn; [done..| | |done]; congruence.
Qed.

Lemma with_verified_finished o api : op_completed_gateway_api o = Ok (Some api) → finished o →
  finished (with_evidence (lo_response o) (lo_status o) (Some api)
              (lo_expired_without_acceptance o) o).
Proof.
  intros Hapi (s & Hs & Hc). destruct (snapshot_verified o s api Hs Hapi) as (s' & Hs' & Ha & Hi & Hv).
  exists s'. split; [done|]. unfold is_complete in *. rewrite Ha, Hi, Hv, orb_true_r, andb_true_r.
  by apply andb_true_iff in Hc as [Hc _].
Qed.

End Rows.
End Journal.

(** * What holds of a client in every state of every run

    The invariant of [Keeper]'s client over the rows its runs share, and a
    weakest precondition that carries it through every prefix of a run.  The
    backup workers and other clients' leases never touch those rows, so a run
    is verified for any change of the rest between its steps. *)

Module Keeping.
Import Ledger Allocations Daemon Fa Quotes Store Requester Backup Upkeep Keeper Journal.

(** ** The shared rows *)

Record Core := {
  k_formation : option StoredFormation;
  k_formed : option FormedFederationRecord;
  k_transfer : option StoredGuardianTransfer;
  k_ops : gmap string StoredLiquidityOperation
}.
Definition core (d : Db) : Core :=
  {| k_formation := d_formation d; k_formed := d_formed d; k_transfer := d_guardian_transfer d;
     k_ops := d_liquidity d |}.

(** What a trace showed: registered gateways, requests a provider disclaimed,
    and the latest clock reading. *)
Record Seen := {
  sn_registered : gset string;
  sn_disclaimed : gset string;
  sn_clock : Z
}.
Definition nothing_seen : Seen := {| sn_registered := ∅; sn_disclaimed := ∅; sn_clock := 0 |}.
Definition see (c : Ext) (a : Ans c) (g : Seen) : Seen :=
  match c return Ans c -> Seen with
  | Recv (RegisterGateway api) => λ a,
      match a with
      | inr _ => {| sn_registered := {[ api ]} ∪ sn_registered g;
                    sn_disclaimed := sn_disclaimed g; sn_clock := sn_clock g |}
      | inl _ => g
      end
  | Recv (GetAllocationStatus _ _ hash _) => λ a,
      match a with
      | inr StatusNotFound => {| sn_registered := sn_registered g;
                                 sn_disclaimed := {[ hash ]} ∪ sn_disclaimed g;
                                 sn_clock := sn_clock g |}
      | _ => g
      end
  | Now => λ now, {| sn_registered := sn_registered g; sn_disclaimed := sn_disclaimed g;
                     sn_clock := Z.max now (sn_clock g) |}
  | _ => λ _, g
  end a.
Fixpoint seen (tr : list Event) : Seen :=
  match tr with
  | [] => nothing_seen
  | ECall c a _ :: tr => see c a (seen tr)
  | _ :: tr => seen tr
  end.

Record grows (g g' : Seen) : Prop := {
  gr_registered : sn_registered g ⊆ sn_registered g';
  gr_disclaimed : sn_disclaimed g ⊆ sn_disclaimed g';
  gr_clock : sn_clock g <= sn_clock g'
}.
#[global] Instance grows_preorder : PreOrder grows.
Proof.
  split; [split; [done..|lia]|]. intros g1 g2 g3 [] []. split; [by etrans..|lia].
Qed.
Lemma see_grows c a g : grows g (see c a g).
Proof.
  destruct c as [r|r| | | | | | | |]; try reflexivity.
  - destruct r; try reflexivity; cbn.
    + destruct a as [e|[]]; try reflexivity. split; cbn; [set_solver..|lia].
    + destruct a; [reflexivity|]. split; cbn; [set_solver..|lia].
  - split; cbn; [set_solver..|lia].
Qed.

Lemma see_mono c a g g' : grows g g' → grows (see c a g) (see c a g').
Proof.
  intros Hg. pose proof Hg as [H1 H2 H3].
  destruct c as [r|r| | | | | | | |]; try exact Hg.
  - destruct r; try exact Hg; cbn.
    + destruct a as [e|[]]; try exact Hg. split; cbn; [set_solver..|lia].
    + destruct a; [exact Hg|]. split; cbn; [set_solver..|lia].
  - split; cbn; [set_solver..|lia].
Qed.

Section Invariant.
Context {CR : Crypto} {RC : RequesterCrypto} {BC : BackupCodec} {IN : Invites}.

Definition op_federation (o : StoredLiquidityOperation) : string :=
  fd_federation_id (lc_federation_details (lo_commitment o)).
Definition eligible (x : Core) (f : FormedFederationRecord) : Prop :=
  k_formed x = Some f ∧ ff_backup_eligible f = true.

(** The rows exist only for a formed, reconciled federation, which includes a
    request a backup carried; they are all for its federation, at most one of
    them is not rejected, and that one is finished while a transfer is open. *)
Record Inv (x : Core) (g : Seen) (fresh : option string) : Prop := {
  i_formation : assembled (k_formation x) = true;
  i_excl : is_Some (k_formed x) → k_formation x = None;
  i_eligible : k_ops x ≠ ∅ ∨ is_Some fresh ∨ is_Some (k_transfer x) → ∃ f, eligible x f;
  i_carried : ∀ f c, eligible x f → bp_liquidity (ff_payload f) = Some c →
    ∃ h, details_hash c = Some h ∧ is_Some (k_ops x !! h);
  i_ok : ∀ id o, k_ops x !! id = Some o → op_ok id o;
  i_federation : ∀ id o f, k_ops x !! id = Some o → k_formed x = Some f →
    invite_federation_id (bp_federation_invite (ff_payload f)) = Some (op_federation o);
  i_live : ∀ id id' o o', k_ops x !! id = Some o → k_ops x !! id' = Some o' →
    is_rejected o = false → is_rejected o' = false → id = id';
  i_transfer : is_Some (k_transfer x) → ∀ id o, k_ops x !! id = Some o →
    is_rejected o = false → finished o;
  i_verified : ∀ id o api, k_ops x !! id = Some o → lo_verified_gateway_api o = Some api →
    api ∈ sn_registered g;
  i_expired : ∀ id o, k_ops x !! id = Some o → lo_expired_without_acceptance o = true →
    id ∈ sn_disclaimed g ∧ is_past_expiry_grace (lo_commitment o) (sn_clock g) = true
}.

Lemma past_grace_mono c now now' : now <= now' →
  is_past_expiry_grace c now = true → is_past_expiry_grace c now' = true.
Proof. unfold is_past_expiry_grace. rewrite !Z.ltb_lt. lia. Qed.
Lemma Inv_grows x g g' fresh : Inv x g fresh → grows g g' → Inv x g' fresh.
Proof.
  intros [] []. split; try done.
  - intros id o api H1 H2. apply gr_registered0. eauto.
  - intros id o H1 H2. destruct (i_expired0 id o H1 H2). split; [set_solver|].
    by eapply past_grace_mono.
Qed.
Lemma Inv_unpublished x g fresh : Inv x g fresh → Inv x g None.
Proof. intros []. split; try done. intros [?|[[? ?]|?]]; auto. Qed.

(** Rows only advance. *)
Definition keeps (x x' : Core) : Prop :=
  ∀ id o, k_ops x !! id = Some o → ∃ o', k_ops x' !! id = Some o' ∧ advances o o'.
#[global] Instance keeps_preorder : PreOrder keeps.
Proof.
  split; [intros x id o Ho; by exists o|]. intros x y z H1 H2 id o Ho.
  destruct (H1 id o Ho) as (o1 & Ho1 & ?). destruct (H2 id o1 Ho1) as (o2 & Ho2 & ?).
  exists o2. split; [done|]. by etrans.
Qed.

Lemma keeps_ops x x' : k_ops x' = k_ops x → keeps x x'.
Proof. intros E id o Ho. exists o. by rewrite E. Qed.

(** A request is sent only for a journaled row without evidence. *)
Definition unanswered (x : Core) (r : LiquidityRequest) : Prop :=
  ∃ o, k_ops x !! lq_details_payload_hash r = Some o ∧ lo_commitment o = lq_commitment r ∧
    lo_response o = None ∧ lo_status o = None ∧ lo_expired_without_acceptance o = false.
Definition may_call (c : Ext) (x : Core) : Prop :=
  match c with Send (RequestLiquidity r) => unanswered x r | _ => True end.

(** ** Weakest preconditions *)

Definition fair_answer (c : Ext) (fresh : option string) (a : Ans c) : Prop :=
  honest_answer c a ∧
  match c return Ans c -> Prop with Fresh => λ a, a = fresh | _ => λ _, True end a.

Abbreviation Post A := (A -> Core -> Seen -> option string -> Prop).

Fixpoint wp {A} (p : Prog A) (Q : Post A) (x : Core) (g : Seen) (fresh : option string) : Prop :=
  match p with
  | Done a => Q a x g fresh
  | Stmt t k =>
      (∀ d d' r, core d = x → run_tx t d = (d', r) →
         keeps x (core d') ∧ Inv (core d') g fresh ∧ wp (k r) Q (core d') g fresh) ∧
      (∀ e, wp (k (Err e)) Q x g fresh)
  | Call c k =>
      may_call c x ∧
      ∀ a, fair_answer c fresh a →
        Inv x (see c a g) (fresh_of c fresh) ∧ wp (k a) Q x (see c a g) (fresh_of c fresh)
  end.

Lemma wp_mono_post {A} (p : Prog A) (Q Q' : Post A) x g fresh :
  (∀ a x g fresh, Q a x g fresh → Q' a x g fresh) → wp p Q x g fresh → wp p Q' x g fresh.
Proof.
  intros HQ. revert x g fresh. induction p as [a|B t k IH|c k IH]; cbn; intros x g fresh; [apply HQ| |].
  - intros [H1 H2]. split; [|auto]. intros d d' r Hd Hr.
    destruct (H1 d d' r Hd Hr) as (? & ? & ?). auto.
  - intros [H1 H2]. split; [done|]. intros a Ha. destruct (H2 a Ha). auto.
Qed.
Lemma wp_keep_bind {A B} (p : Prog A) (f : A -> Prog B) Q x g fresh :
  wp p (λ a, wp (f a) Q) x g fresh → wp (pbind p f) Q x g fresh.
Proof.
  revert x g fresh. induction p as [a|C t k IH|c k IH]; cbn; intros x g fresh; [done| |].
  - intros [H1 H2]. split; [|auto]. intros d d' r Hd Hr.
    destruct (H1 d d' r Hd Hr) as (? & ? & ?). auto.
  - intros [H1 H2]. split; [done|]. intros a Ha. destruct (H2 a Ha). auto.
Qed.

(** For fallible programs: the invariant holds at the end, and [Q] on
    success. *)
Definition ok_post {A} (Q : Post A) : Post (res FaError A) :=
  λ r x g fresh, Inv x g fresh ∧ match r with Ok a => Q a x g fresh | _ => True end.
Definition runs {A} (p : M A) (Q : Post A) : Core -> Seen -> option string -> Prop :=
  wp p (ok_post Q).

Lemma runs_mono {A} (p : M A) (Q Q' : Post A) x g fresh :
  (∀ a x g fresh, Inv x g fresh → Q a x g fresh → Q' a x g fresh) →
  runs p Q x g fresh → runs p Q' x g fresh.
Proof.
  intros HQ. apply wp_mono_post. intros [a|e|] x' g' fresh' [HI H]; split; auto.
Qed.
Lemma runs_bind {A B} (p : M A) (k : A -> M B) Q x g fresh :
  runs p (λ a, runs (k a) Q) x g fresh → runs (p ≫= k) Q x g fresh.
Proof.
  intros H. apply wp_keep_bind. eapply wp_mono_post; [|exact H].
  intros [a|e|] x' g' fresh' [HI H']; [done|by split..].
Qed.
Lemma runs_ret {A} (a : A) (Q : Post A) x g fresh :
  Inv x g fresh → Q a x g fresh → runs (mret a) Q x g fresh.
Proof. by split. Qed.
Lemma runs_lift {A} (r : res FaError A) (Q : Post A) x g fresh :
  Inv x g fresh → (∀ a, r = Ok a → Q a x g fresh) → runs (lift r) Q x g fresh.
Proof. intros HI H. split; [done|]. destruct r; auto. Qed.
Lemma runs_fail {A} e (Q : Post A) x g fresh : Inv x g fresh → runs (fail e) Q x g fresh.
Proof. by split. Qed.
Lemma runs_ask c (Q : Post (Ans c)) x g fresh :
  Inv x g fresh → may_call c x →
  (∀ a, fair_answer c fresh a →
     Inv x (see c a g) (fresh_of c fresh) ∧ Q a x (see c a g) (fresh_of c fresh)) →
  runs (ask c) Q x g fresh.
Proof.
  intros HI Hc H. split; [done|]. intros a Ha. destruct (H a Ha). by split; [|split].
Qed.
(** A transaction that keeps the invariant. *)
Lemma runs_stmt {A} (t : FaTx A) (Q : Post A) x g fresh :
  Inv x g fresh →
  (∀ d d' a, core d = x → t d = Ok (d', a) →
     keeps x (core d') ∧ Inv (core d') g fresh ∧ Q a (core d') g fresh) →
  runs (stmt t) Q x g fresh.
Proof.
  intros HI H. split; [|by split]. intros d d' r <- Hr. unfold run_tx in Hr.
  destruct (t d) as [[d1 a]|e|] eqn:Ht; injection Hr as <- <-.
  - destruct (H d d1 a eq_refl Ht) as (? & ? & ?). by split; [|split; [|split]].
  - by split; [|split; [|split]].
  - by split; [|split; [|split]].
Qed.

(** ** Steps that leave the rows alone *)

(** [calm p R]: [p] changes no shared row and publishes nothing; its results
    satisfy [R]. *)
Definition calm {A} (p : M A) (R : A -> Core -> option string -> Prop) : Prop :=
  ∀ x g fresh, Inv x g fresh →
    runs p (λ a x' g' fresh', x' = x ∧ fresh' = fresh ∧ grows g g' ∧ R a x fresh) x g fresh.
Definition silent {A} (p : M A) : Prop := calm p (λ _ _ _, True).

Lemma runs_calm {A B} (p : M A) R (k : A -> M B) Q x g fresh :
  calm p R → Inv x g fresh →
  (∀ a g', Inv x g' fresh → grows g g' → R a x fresh → runs (k a) Q x g' fresh) →
  runs (p ≫= k) Q x g fresh.
Proof.
  intros Hp HI H. apply runs_bind. eapply runs_mono; [|by apply Hp].
  intros a x' g' fresh' HI' (-> & -> & Hg & HR). auto.
Qed.
Lemma calm_weaken {A} (p : M A) (R R' : A -> Core -> option string -> Prop) :
  (∀ a x fresh, R a x fresh → R' a x fresh) → calm p R → calm p R'.
Proof. intros HR Hp x g fresh HI. eapply runs_mono; [|by apply Hp]. naive_solver. Qed.
Lemma keep_calm_bind {A B} (p : M A) (k : A -> M B) R R' :
  calm p R → (∀ a, calm (k a) (λ b x fresh, R a x fresh → R' b x fresh)) → calm (p ≫= k) R'.
Proof.
  intros Hp Hk x g fresh HI. eapply runs_calm; [done..|]. intros a g' HI' Hg HR.
  eapply runs_mono; [|by apply Hk]. intros b x' g'' fresh' _ (-> & -> & Hg' & HR').
  split_and!; auto. by etrans.
Qed.
Lemma keep_calm_ret {A} (a : A) (R : A -> Core -> option string -> Prop) :
  (∀ x fresh, R a x fresh) → calm (mret a) R.
Proof. intros HR x g fresh HI. apply runs_ret; [done|]. by split_and!. Qed.
Lemma keep_calm_lift {A} (r : res FaError A) : calm (lift r) (λ a _ _, r = Ok a).
Proof. intros x g fresh HI. apply runs_lift; [done|]. intros a Ha. by split_and!. Qed.
Lemma keep_calm_fail {A} e R : calm (fail e : M A) R.
Proof. intros x g fresh HI. by apply runs_fail. Qed.
Lemma keep_calm_stmt {A} (t : FaTx A) (R : A -> Core -> option string -> Prop) :
  (∀ d d' a g fresh, Inv (core d) g fresh → t d = Ok (d', a) →
     core d' = core d ∧ R a (core d) fresh) → calm (stmt t) R.
Proof.
  intros H x g fresh HI. apply runs_stmt; [done|]. intros d d' a <- Ht.
  destruct (H d d' a g fresh HI Ht) as [-> HR]. by split_and!.
Qed.
(** Any call but a request for liquidity or a publication. *)
Definition quiet_call (c : Ext) : bool :=
  match c with Send (RequestLiquidity _) | Publish _ => false | _ => true end.
Lemma keep_calm_ask c : quiet_call c = true → calm (ask c) (λ a _ fresh, fair_answer c fresh a).
Proof.
  intros Hc x g fresh HI. apply runs_ask; [done|by destruct c as [[]|?| | | | | | | |]|].
  intros a Ha. replace (fresh_of c fresh) with fresh by by destruct c.
  split; [eapply Inv_grows; [done|apply see_grows]|]. split_and!; [done..|apply see_grows|apply Ha].
Qed.

End Invariant.
End Keeping.
