(* ===== verification/FaKeepRuns.v ===== *)
(** * The runs of a client keep its invariant

    Each program of [FaUpkeep], from any state of the invariant, under any
    honest answers. *)

From S2P Require Import Prelude LmSchema LmProg LmAllocations FaSchema FaQuotes FaStore FaLiquidity FaBackup FaUpkeep FaKeeping.
From stdpp Require Import base gmap strings list.
From Stdlib Require Import ZArith Lia.
Open Scope Z_scope.

Module KeepRuns.
Import Ledger Allocations Daemon Fa Quotes Store Requester Backup Upkeep Keeper Journal Keeping.

Section Runs.
Context {CR : Crypto} {RC : RequesterCrypto} {BC : BackupCodec} {IN : Invites} {INok : InvitesOk}.
Implicit Types (x : Core) (g : Seen) (fresh : option string).

(** ** Reading a formation or a formed federation back *)

Lemma indexed_rows_reads fid l d d' rows : indexed_rows fid l d = Ok (d', rows) → d' = d.
Proof.
  revert rows. induction l as [|i l IH]; cbn [indexed_rows]; intros rows H; [by tx_inv|].
  unfold seat_row in H. tx_inv. by eapply IH.
Qed.

(** The snapshot of the formed federation the rows hold. *)
Definition shows (s : FormedFederationSnapshot) x : Prop :=
  ∃ f, k_formed x = Some f ∧ fs_formation_id s = ff_formation_id f ∧
    fs_federation_invite s = bp_federation_invite (ff_payload f) ∧
    fs_seats s = bp_seats (ff_payload f).

Lemma load_recovery_reads fa_id d d' r g fresh :
  Inv (core d) g fresh → load_recovery fa_id d = Ok (d', r) →
  d' = d ∧ ∀ s, r = RecFormed s → shows s (core d).
Proof.
  intros HI H. pose proof (i_formation _ _ _ HI) as Hf. cbn in Hf.
  unfold load_recovery in H. apply tx_bind_Ok in H as (d1 & o & H1 & H).
  apply tx_get_Ok in H1 as [-> ->]. destruct (d_formation d) as [f|] eqn:Ef.
  - cbn in Hf. apply andb_true_iff in Hf as [Hv Hp]. apply Z.eqb_eq in Hv. rewrite Hv in H.
    cbn [STORAGE_SCHEMA_VERSION RESET_BEFORE_SCHEMA_VERSION Z.ltb Z.compare Pos.compare
         Pos.compare_cont] in H.
    apply tx_bind_Ok in H as (d1 & u & H1 & H). apply tx_lift_Ok in H1 as [-> _].
    apply tx_bind_Ok in H as (d1 & rows & H1 & H). apply indexed_rows_reads in H1 as ->.
    apply tx_bind_Ok in H as (d1 & u1 & H1 & H). apply tx_lift_Ok in H1 as [-> _].
    bool_in H as Hph; [done|]. tx_inv. done.
  - apply tx_bind_Ok in H as (d1 & o & H1 & H). apply tx_get_Ok in H1 as [-> ->].
    destruct (d_formed d) as [f|] eqn:Eo; tx_inv; [|done]. split; [done|]. intros s ->.
    unfold formed_recovery in H. destruct (negb _); [done|]. injection H as <-.
    by exists f.
Qed.
Lemma migrate_reads d d' u g fresh :
  Inv (core d) g fresh → migrate_schema_11 d = Ok (d', u) → d' = d.
Proof.
  intros HI H. pose proof (i_formation _ _ _ HI) as Hf. cbn in Hf.
  unfold migrate_schema_11 in H. tx_inv. destruct (d_formation d) as [f|]; [|by tx_inv].
  cbn in Hf. apply andb_true_iff in Hf as [Hv%Z.eqb_eq _]. rewrite Hv in H. cbn in H. by tx_inv.
Qed.

Lemma calm_load fa_id : calm (stmt (load_recovery fa_id)) (λ r x _, ∀ s, r = RecFormed s → shows s x).
Proof.
  apply keep_calm_stmt. intros d d' r g fresh HI H.
  by destruct (load_recovery_reads _ _ _ _ _ _ HI H) as [-> ?].
Qed.
Lemma calm_migrate : silent (stmt migrate_schema_11).
Proof. apply keep_calm_stmt. intros d d' u g fresh HI H. by rewrite (migrate_reads _ _ _ _ _ HI H). Qed.

(** ** Calls and leases *)

Lemma silent_lift {A} (r : res FaError A) : silent (lift r).
Proof. eapply calm_weaken; [|apply keep_calm_lift]. done. Qed.
Lemma silent_ask c : quiet_call c = true → silent (ask c).
Proof. intros Hc. eapply calm_weaken; [|by apply keep_calm_ask]. done. Qed.
Lemma silent_bind {A B} (p : M A) (k : A -> M B) :
  silent p → (∀ a, silent (k a)) → silent (p ≫= k).
Proof.
  intros Hp Hk. eapply keep_calm_bind; [done|]. intros a. eapply calm_weaken; [|apply Hk]. done.
Qed.
Lemma silent_core {A} (t : FaTx A) : (∀ d d' a, t d = Ok (d', a) → core d' = core d) → silent (stmt t).
Proof. intros H. apply keep_calm_stmt. intros d d' a g fresh _ Ht. split; [by eapply H|done]. Qed.

Lemma silent_renew lease : silent (renew lease).
Proof.
  apply silent_bind; [by apply silent_ask|]. intros now. apply silent_bind.
  - apply silent_core. intros d d' a H. unfold renew_driver_lease in H. tx_inv.
    destruct (d_lease d); tx_inv. repeat case_match; tx_inv; done.
  - intros e. apply silent_bind; [by apply silent_ask|]. intros n.
    case_match; [by apply keep_calm_ret|apply keep_calm_fail].
Qed.
Lemma silent_validate : silent validate_for_start.
Proof.
  apply silent_bind; [by apply silent_ask|]. intros v. case_match; [apply keep_calm_fail|].
  apply silent_bind; [by apply silent_ask|]. intros now.
  apply silent_bind; [apply silent_lift|]. intros _.
  apply silent_bind; [apply silent_lift|]. intros _. by apply keep_calm_ret.
Qed.
Lemma silent_public_key : silent public_key.
Proof. apply silent_bind; [by apply silent_ask|]. intros k. apply silent_lift. Qed.
Lemma silent_sign : silent sign_public_rpc.
Proof.
  apply silent_bind; [by apply silent_ask|]. intros [e|[]]; [apply keep_calm_fail|by apply keep_calm_ret].
Qed.
Lemma calm_request r : quiet_call (Send r) = true →
  calm (request r) (λ a _ fresh, fair_answer (Recv r) fresh (inr a)).
Proof.
  intros Hr. eapply keep_calm_bind; [by apply (keep_calm_ask (Send r))|]. intros [].
  eapply calm_weaken; [|eapply (keep_calm_bind _ _ _ (λ a _ fresh, fair_answer (Recv r) fresh (inr a)));
    [by apply (keep_calm_ask (Recv r))|]]; [done|].
  intros [e|a]; [apply keep_calm_fail|]. by apply keep_calm_ret.
Qed.
Lemma silent_request r : quiet_call (Send r) = true → silent (request r).
Proof. intros Hr. eapply calm_weaken; [|by apply calm_request]. done. Qed.

Lemma runs_silent {A B} (p : M A) (k : A -> M B) Q x g fresh :
  silent p → Inv x g fresh →
  (∀ a g', Inv x g' fresh → grows g g' → runs (k a) Q x g' fresh) →
  runs (p ≫= k) Q x g fresh.
Proof. intros Hp HI H. eapply runs_calm; [done..|]. auto. Qed.

(** The frame of a run around its body. *)
Lemma runs_driver {A} (p : DriverLease -> M A) (Q : A -> Core -> Seen -> option string -> Prop)
    x g fresh :
  Inv x g fresh →
  (∀ lease g', Inv x g' fresh → grows g g' → runs (p lease) Q x g' fresh) →
  runs (driver_run p) Q x g fresh.
Proof.
  intros HI Hp. eapply runs_silent; [by apply silent_ask|done|]. intros v g1 HI1 Hg1.
  case_match; [by apply runs_fail|].
  eapply runs_silent; [by apply silent_ask|done|]. intros now g2 HI2 Hg2.
  eapply runs_silent; [by apply silent_ask|done|]. intros owner g3 HI3 Hg3.
  eapply runs_silent; [|done|].
  { apply silent_core. intros d d' a H0. unfold acquire_driver_lease in H0. tx_inv.
    case_match; tx_inv; done. }
  intros lease g4 HI4 Hg4. apply wp_keep_bind. eapply wp_mono_post; [|apply Hp].
  2: done. 2: by repeat (etrans; [done|]).
  intros r x' g' fresh' [HI' HQ]. apply wp_keep_bind. eapply wp_mono_post; [|eapply (runs_stmt _
    (λ _ x'' g'' fresh'', x'' = x' ∧ g'' = g' ∧ fresh'' = fresh')); [done|]].
  - intros rel x'' g'' fresh'' [HI'' Hrel]. cbn. split; [done|].
    destruct r as [a|e|]; [|done..]. destruct rel as [u|e|]; [|done..].
    destruct Hrel as (-> & -> & ->). done.
  - intros d d' u <- H0. unfold release_driver_lease_owner in H0. tx_inv.
    case_match; tx_inv; by split_and!.
Qed.

(** ** Stepping through a run

    [Hg : grows g0 g] records what was seen since [g0]. *)

Lemma runs_calm_from {A B} (p : M A) R (k : A -> M B) Q x g0 g fresh :
  calm p R → Inv x g fresh → grows g0 g →
  (∀ a g', Inv x g' fresh → grows g0 g' → R a x fresh → runs (k a) Q x g' fresh) →
  runs (p ≫= k) Q x g fresh.
Proof.
  intros Hp HI Hg H. eapply runs_calm; [done..|]. intros a g' HI' Hg' HR. apply H; [done| |done].
  by etrans.
Qed.
Lemma runs_silent_from {A B} (p : M A) (k : A -> M B) Q x g0 g fresh :
  silent p → Inv x g fresh → grows g0 g →
  (∀ a g', Inv x g' fresh → grows g0 g' → runs (k a) Q x g' fresh) →
  runs (p ≫= k) Q x g fresh.
Proof. intros Hp HI Hg H. eapply runs_calm_from; [done..|]. auto. Qed.

(** A call whose answer is remembered. *)
Lemma runs_request_seen {B} r (k : Reply r -> M B) Q x g0 g fresh :
  quiet_call (Send r) = true → Inv x g fresh → grows g0 g →
  (∀ a g', Inv x g' fresh → grows g0 g' → grows (see (Recv r) (inr a) g) g' →
     runs (k a) Q x g' fresh) →
  runs (request r ≫= k) Q x g fresh.
Proof.
  intros Hr HI Hg H. apply runs_bind. unfold request.
  eapply runs_bind, runs_mono; [|by apply (keep_calm_ask (Send r))].
  intros [] x1 g1 fr1 HI1 (-> & -> & Hg1 & _). apply runs_bind, runs_ask; [done..|].
  intros a _. assert (HIa : Inv x (see (Recv r) a g1) fresh).
  { eapply Inv_grows; [done|]. apply see_grows. }
  split; [done|]. cbn [fresh_of]. destruct a as [e|a]; [by apply runs_fail|].
  apply runs_ret; [done|]. apply H; [done| |].
  - etrans; [done|]. etrans; [done|]. apply see_grows.
  - by apply see_mono.
Qed.

Lemma runs_now_seen {B} (k : Z -> M B) Q x g0 g fresh :
  Inv x g fresh → grows g0 g →
  (∀ now g', Inv x g' fresh → grows g0 g' → now <= sn_clock g' → runs (k now) Q x g' fresh) →
  runs (ask Now ≫= k) Q x g fresh.
Proof.
  intros HI Hg H. apply runs_bind, runs_ask; [done..|]. intros now _.
  assert (HI' : Inv x (see Now now g) fresh) by (eapply Inv_grows; [done|apply see_grows]).
  split; [done|]. apply H; [done| |cbn; lia]. etrans; [done|]. apply (see_grows Now).
Qed.

Lemma silent_load id : silent (stmt (load_liquidity_operation id)).
Proof. apply silent_core. by intros d d' o [-> _]%the_operation_Ok. Qed.
Lemma silent_snapshot id : silent (stored_snapshot id).
Proof. apply silent_bind; [apply silent_load|]. intros o. apply silent_lift. Qed.
Lemma calm_load_operation id :
  calm (stmt (load_liquidity_operation id)) (λ o x _, k_ops x !! id = Some o).
Proof. apply keep_calm_stmt. by intros d d' o g fresh _ [-> ?]%the_operation_Ok. Qed.
Lemma calm_get {A} (f : Core -> A) : calm (stmt (tx_get (λ d, f (core d)))) (λ a x _, a = f x).
Proof. apply keep_calm_stmt. by intros d d' a g fresh _ [-> ->]%tx_get_Ok. Qed.

End Runs.

Create HintDb keep.
#[global] Hint Resolve silent_renew silent_validate silent_public_key silent_sign silent_lift
  silent_snapshot silent_load calm_migrate : keep.
#[global] Hint Extern 1 (silent (ask _)) => apply silent_ask; reflexivity : keep.
#[global] Hint Extern 1 (silent (request _)) => apply silent_request; reflexivity : keep.

#[global] Hint Extern 1 (silent (if ?b then _ else _)) => destruct b : keep.
#[global] Hint Extern 1 (silent (mret _)) => apply keep_calm_ret : keep.

Ltac quiet_step a :=
  match goal with
  | HI : Inv ?x ?g ?fr, Hg : grows ?g0 ?g |- runs (_ ≫= _) _ ?x ?g ?fr =>
      eapply runs_silent_from; [solve [eauto with keep]|exact HI|exact Hg|];
      clear HI Hg; try clear g; let g' := fresh "g" in intros a g' HI Hg
  end.
Ltac calm_step lem a HR :=
  match goal with
  | HI : Inv ?x ?g ?fr, Hg : grows ?g0 ?g |- runs (_ ≫= _) _ ?x ?g ?fr =>
      eapply runs_calm_from; [apply lem|exact HI|exact Hg|];
      clear HI Hg; try clear g; let g' := fresh "g" in intros a g' HI Hg HR; cbn beta in HR
  end.
Ltac lift_step a HR := calm_step @keep_calm_lift a HR.

Section Context.
Context {CR : Crypto} {RC : RequesterCrypto} {BC : BackupCodec} {IN : Invites} {INok : InvitesOk}.
Implicit Types (x : Core) (g : Seen) (fresh : option string).

Lemma calm_authority fa_id : calm (post_formed_authority fa_id) (λ s x _, shows s x).
Proof.
  intros x g fresh HI. assert (Hg : grows g g) by reflexivity. unfold post_formed_authority.
  quiet_step u. calm_step calm_load r Hr.
  destruct r as [|r|s]; [by apply runs_fail..|]. case_match; [|by apply runs_fail].
  apply runs_ret; [done|]. split_and!; auto.
Qed.

(** A context is read for a published, reconciled federation, and is that
    federation's. *)
Definition context_of (cx : LiquidityContext) x : Prop :=
  ∃ f, eligible x f ∧ cx_seats cx = bp_seats (ff_payload f) ∧
    invite_federation_id (bp_federation_invite (ff_payload f)) = Some (cx_federation_id cx).
Lemma calm_context fid :
  calm (formed_liquidity_context fid) (λ cx x _, context_of cx x).
Proof.
  intros x g fresh HI. assert (Hg : grows g g) by reflexivity. unfold formed_liquidity_context.
  calm_step (keep_calm_ask Fresh eq_refl) fr Hfr. destruct Hfr as [_ ->].
  case_bool_decide as Hfresh; cbn [negb]; [|by apply runs_fail]. subst fresh.
  quiet_step fa_id. apply runs_bind. apply wp_keep_bind.
  eapply wp_mono_post; [|by apply calm_authority].
  intros [s|e|] x' g' fr' [HI' Hs]; cbn [wp]; [|by split..].
  destruct Hs as (-> & -> & Hg' & f & Hf & Hid & Hinv & Hseats). clear HI. rename HI' into HI.
  assert (Hg0 : grows g g') by (by etrans). clear Hg Hg'. rename Hg0 into Hg. split; [done|].
  case_bool_decide; cbn [negb]; [|by apply runs_fail].
  calm_step (calm_request (ReadFederation (fs_federation_invite s)) eq_refl) view Hv.
  lift_step name Hn. apply runs_ret; [done|]. split_and!; [done..|]. exists f. split_and!; [|done|].
  - destruct (i_eligible _ _ _ HI) as (f' & Hf' & He); [by right; left|].
    rewrite Hf in Hf'. by injection Hf' as <-.
  - cbn. destruct Hv as [Hv _]. cbn in Hv. by rewrite <- Hinv.
Qed.

(** ** Updating a row *)

Definition with_ops (m : gmap string StoredLiquidityOperation) x : Core :=
  {| k_formation := k_formation x; k_formed := k_formed x; k_transfer := k_transfer x;
     k_ops := m |}.
Lemma core_set_liquidity m d : core (set_liquidity m d) = with_ops m (core d).
Proof. done. Qed.

Lemma Inv_update x g fresh id o o' :
  Inv x g fresh → k_ops x !! id = Some o → op_ok id o' → advances o o' →
  (is_rejected o' = false → is_rejected o = false) →
  (is_Some (k_transfer x) → is_rejected o' = false → finished o') →
  (∀ api, lo_verified_gateway_api o' = Some api → api ∈ sn_registered g) →
  (lo_expired_without_acceptance o' = true →
     id ∈ sn_disclaimed g ∧ is_past_expiry_grace (lo_commitment o') (sn_clock g) = true) →
  keeps x (with_ops (<[id := o']> (k_ops x)) x) ∧
  Inv (with_ops (<[id := o']> (k_ops x)) x) g fresh.
Proof.
  intros [] Ho Hok Hadv Hrej Hfin Hver Hexp. split.
  { intros i p Hp. cbn. destruct (decide (i = id)) as [->|Hne].
    - exists o'. rewrite lookup_insert_eq. rewrite Ho in Hp. by injection Hp as <-.
    - exists p. by rewrite lookup_insert_ne. }
  assert (Hrow : ∀ i p, <[id := o']> (k_ops x) !! i = Some p →
            (i = id ∧ p = o') ∨ (i ≠ id ∧ k_ops x !! i = Some p)).
  { intros i p [[-> ->]|[? ?]]%lookup_insert_Some; auto. }
  split; cbn; [done..| | | | | | | |].
  - intros H. apply i_eligible0. destruct H as [_|H]; [|by right].
    left. intros E. by rewrite E in Ho.
  - intros f c Hf Hc. destruct (i_carried0 f c Hf Hc) as (h & Hh & Hs). exists h. split; [done|].
    apply lookup_insert_is_Some. destruct (decide (h = id)); auto.
  - intros i p [[-> ->]|[_ Hp]]%Hrow; auto.
  - intros i p f [[-> ->]|[_ Hp]]%Hrow Hf; [|eauto].
    unfold op_federation. rewrite (adv_commitment _ _ Hadv). by eapply i_federation0.
  - intros i i' p p' [[-> ->]|[Hi Hp]]%Hrow [[-> ->]|[Hi' Hp']]%Hrow H1 H2; eauto.
  - intros Ht i p [[-> ->]|[_ Hp]]%Hrow Hl; eauto.
  - intros i p api [[-> ->]|[_ Hp]]%Hrow Hv; eauto.
  - intros i p [[-> ->]|[_ Hp]]%Hrow He; eauto.
Qed.

(** ** Attaching the completed gateway *)

(** The row a run loaded, but for its gateway mark. *)
Record same_evidence (o o' : StoredLiquidityOperation) : Prop := {
  se_commitment : lo_commitment o' = lo_commitment o;
  se_response : lo_response o' = lo_response o;
  se_status : lo_status o' = lo_status o;
  se_expired : lo_expired_without_acceptance o' = lo_expired_without_acceptance o
}.
Lemma same_evidence_rejected o o' : same_evidence o o' → is_rejected o' = is_rejected o.
Proof. intros []. unfold is_rejected. by rewrite se_response0, se_expired0. Qed.

(** After attaching, the row differs at most in its mark, and the answer is its
    snapshot. *)
Definition attached (id : string) (s : LiquidityOperationSnapshot) x x' : Prop :=
  k_formed x' = k_formed x ∧ k_transfer x' = k_transfer x ∧
  ∃ o o', k_ops x !! id = Some o ∧ k_ops x' !! id = Some o' ∧ same_evidence o o' ∧
    snapshot o' = Ok s.
Lemma runs_attach id x g fresh : Inv x g fresh →
  runs (attach_completed_gateway id)
    (λ s x' g' fresh', fresh' = fresh ∧ grows g g' ∧ attached id s x x') x g fresh.
Proof.
  intros HI. assert (Hg : grows g g) by reflexivity. unfold attach_completed_gateway.
  calm_step calm_load_operation o Ho. lift_step api Hapi.
  assert (Hdone : ∀ gn, Inv x gn fresh → grows g gn → runs (lift (snapshot o))
            (λ s x' g' fresh', fresh' = fresh ∧ grows g g' ∧ attached id s x x') x gn fresh).
  { intros gn HI0 Hg0. apply runs_lift; [done|]. intros s Hs. split_and!; [done..|].
    split_and!; [done..|]. by exists o, o. }
  destruct api as [api|]; [|by apply Hdone]. case_bool_decide; [by apply Hdone|]. clear Hdone.
  quiet_step key.
  eapply runs_request_seen; [done..|]. clear HI Hg. intros u1 gs HI Hg Hseen.
  assert (Hreg : api ∈ sn_registered gs).
  { apply (gr_registered _ _ Hseen). cbn. set_solver. }
  clear Hseen.
  apply runs_bind. apply runs_stmt; [done|]. intros d d' u <- Hm.
  apply mark_verified_Ok in Hm as (o1 & Ho1 & Hc & ->). cbn in Ho.
  rewrite Ho in Ho1. injection Ho1 as <-. rewrite core_set_liquidity.
  pose proof (i_ok _ _ _ HI id o Ho) as Hok.
  destruct (with_verified_ok id o (Some api) Hok) as [Hok' Hadv].
  edestruct (Inv_update (core d) gs fresh id o) as [Hk HIn]; [done|done|exact Hok'|exact Hadv|..].
  { done. }
  { intros Ht Hl. apply with_verified_finished; [done|]. by eapply (i_transfer _ _ _ HI). }
  { cbn. by intros api' [= <-]. }
  { cbn. intros He. by eapply (i_expired _ _ _ HI). }
  split; [exact Hk|]. split; [exact HIn|].
  clear HI. rename HIn into HI.
  unfold stored_snapshot. calm_step calm_load_operation o2 Ho2. apply runs_lift; [done|].
  intros s Hs. cbn in Ho2. rewrite lookup_insert_eq in Ho2. injection Ho2 as <-.
  split_and!; [done..|]. split_and!; [done..|]. eexists o, _. cbn. rewrite lookup_insert_eq.
  by split_and!.
Qed.

Lemma silent_refresh provider amounts network pinned :
  silent (refresh_provider provider amounts network pinned).
Proof. apply silent_bind; eauto with keep. Qed.
#[local] Hint Resolve silent_refresh : keep.

(** ** Submitting a request *)

Lemma runs_request_liquidity {B} r (k : RequestResponse -> M B) Q x g0 g fresh :
  unanswered x r → Inv x g fresh → grows g0 g →
  (∀ a g', Inv x g' fresh → grows g0 g' → runs (k a) Q x g' fresh) →
  runs (request (RequestLiquidity r) ≫= k) Q x g fresh.
Proof.
  intros Hr HI Hg H. apply runs_bind. unfold request. apply runs_bind, runs_ask; [done..|].
  intros [] _. split; [done|]. cbn [see fresh_of]. apply runs_bind, runs_ask; [done..|].
  intros a _. split; [done|]. cbn [fresh_of].
  destruct a as [e|a]; [by apply runs_fail|]. apply runs_ret; [done|]. by apply H.
Qed.

(** A row of the journal without evidence, as the run holds it. *)
Record pending (id : string) (o : StoredLiquidityOperation) x : Prop := {
  pd_row : ∃ o', k_ops x !! id = Some o' ∧ same_evidence o o';
  pd_id : lo_operation_id o = id;
  pd_hash : lo_details_payload_hash o = id;
  pd_response : lo_response o = None;
  pd_status : lo_status o = None;
  pd_expired : lo_expired_without_acceptance o = false;
  pd_transfer : k_transfer x = None
}.
Lemma pending_unanswered id o x issued_at : pending id o x →
  unanswered x {| lq_commitment := lo_commitment o;
                  lq_details_payload_hash := lo_details_payload_hash o;
                  lq_issued_at := issued_at |}.
Proof.
  intros [(o' & Ho' & [])]. exists o'. cbn. rewrite pd_hash0. by split_and!; try congruence.
Qed.

Lemma runs_submit id o cx endpoint lease x g0 g fresh :
  Inv x g fresh → grows g0 g → pending id o x →
  runs (submit_prepared_liquidity o cx endpoint lease)
    (λ _ x' g' fresh', fresh' = fresh ∧ grows g0 g') x g fresh.
Proof.
  intros HI Hg Hp. unfold submit_prepared_liquidity.
  quiet_step u1. quiet_step issued_at. lift_step h Hh. case_match; [by apply runs_fail|].
  quiet_step u2. quiet_step u3. quiet_step u4. quiet_step u5.
  eapply runs_request_liquidity; [by eapply pending_unanswered|done..|].
  clear HI Hg. intros response g1 HI Hg.
  quiet_step now. quiet_step u6. quiet_step u7. quiet_step u8.
  apply runs_bind, runs_stmt; [done|]. intros d d' u <- Hs.
  destruct Hp as [(o' & Ho' & Hse)]. rewrite pd_id0 in *.
  apply store_response_Ok in Hs as (o1 & o2 & Ho1 & -> & Hv & He & Hadv & Hok).
  rewrite core_set_liquidity. cbn in Ho'. rewrite Ho' in Ho1. injection Ho1 as <-.
  assert (Hex : lo_expired_without_acceptance o' = false) by (by rewrite (se_expired _ _ Hse)).
  edestruct (Inv_update (core d) _ fresh id o' o2 HI) as [Hk HIn]; [done| |exact Hadv|..].
  { apply Hok; [|done]. by apply (i_ok _ _ _ HI). }
  { intros _. apply not_rejected. split; [done|]. rewrite (se_response _ _ Hse), pd_response0. done. }
  { rewrite pd_transfer0. by intros [? ?]. }
  { intros api. rewrite Hv. by apply (i_verified _ _ _ HI id o'). }
  { congruence. }
  split; [exact Hk|]. split; [exact HIn|].
  eapply runs_mono; [|by apply silent_snapshot]. intros s x' g' fresh' _ (-> & -> & Hg' & _).
  split; [done|]. by etrans.
Qed.

(** ** Resuming a request *)

Abbreviation anything := (λ _ _ _ _, True).

Lemma runs_store_status id o o' r x g fresh :
  Inv x g fresh → k_ops x !! id = Some o' → same_evidence o o' →
  is_rejected o = false → k_transfer x = None →
  runs (stmt (store_liquidity_status id r)) (λ _ _ g' fresh', g' = g ∧ fresh' = fresh) x g fresh.
Proof.
  intros HI Ho' Hse Hrej Ht. apply runs_stmt; [done|]. intros d d' u <- Hs.
  apply store_status_Ok in Hs as (o1 & o2 & Ho1 & -> & Hv & He & Hadv & Hok).
  rewrite core_set_liquidity. cbn in Ho'. rewrite Ho' in Ho1. injection Ho1 as <-.
  assert (Hrej' : is_rejected o' = false) by (by rewrite (same_evidence_rejected _ _ Hse)).
  edestruct (Inv_update (core d) _ fresh id o' o2 HI) as [Hk HIn]; [done| |exact Hadv|..].
  { apply Hok; [|done]. by apply (i_ok _ _ _ HI). }
  { done. }
  { rewrite Ht. by intros [? ?]. }
  { intros api Hapi. destruct Hv as [Hv|Hv]; [|congruence].
    apply (i_verified _ _ _ HI id o'); [done|congruence]. }
  { rewrite He. apply not_rejected in Hrej' as [-> _]. done. }
  by split_and!; [exact Hk|exact HIn|..].
Qed.

Lemma runs_mark_expired id o o' x g fresh :
  Inv x g fresh → k_ops x !! id = Some o' → same_evidence o o' →
  is_rejected o = false → id ∈ sn_disclaimed g →
  is_past_expiry_grace (lo_commitment o) (sn_clock g) = true →
  runs (stmt (mark_liquidity_expired_without_acceptance id))
    (λ _ _ g' fresh', g' = g ∧ fresh' = fresh) x g fresh.
Proof.
  intros HI Ho' Hse Hrej Hd Hpast. apply runs_stmt; [done|]. intros d d' u <- Hs.
  apply mark_expired_Ok in Hs as (o1 & Ho1 & Hr & Hst & ->).
  rewrite core_set_liquidity. cbn in Ho'. rewrite Ho' in Ho1. injection Ho1 as <-.
  destruct (with_expired_ok id o') as [Hok Hadv]; [by apply (i_ok _ _ _ HI)|done..|].
  edestruct (Inv_update (core d) _ fresh id o' _ HI Ho' Hok Hadv) as [Hk HIn].
  { by rewrite (same_evidence_rejected _ _ Hse). }
  { by rewrite is_rejected_cases. }
  { cbn. intros api. by apply (i_verified _ _ _ HI id o'). }
  { cbn. intros _. split; [done|]. by rewrite (se_commitment _ _ Hse). }
  by split_and!; [exact Hk|exact HIn|..].
Qed.

(** An unfinished live row leaves no room for a transfer. *)
Lemma unfinished_no_transfer x g fresh id o s :
  Inv x g fresh → k_ops x !! id = Some o → is_rejected o = false → snapshot o = Ok s →
  is_complete s = false → k_transfer x = None.
Proof.
  intros HI Ho Hr Hs Hc. destruct (k_transfer x) as [t|] eqn:Ht; [|done].
  destruct (i_transfer _ _ _ HI) with id o as (s' & Hs' & Hc'); [by rewrite Ht|done..|].
  congruence.
Qed.

Lemma runs_status_reply id o o' cx endpoint lease reply x g0 g fresh :
  Inv x g fresh → grows g0 g → k_ops x !! id = Some o' → same_evidence o o' →
  op_ok id o → is_rejected o = false → k_transfer x = None →
  (reply = StatusNotFound → id ∈ sn_disclaimed g0) →
  runs (resume_from_status o cx id endpoint lease reply)
    (λ _ _ g' fresh', fresh' = fresh ∧ grows g0 g') x g fresh.
Proof.
  intros HI Hg Ho' Hse Hok Hrej Ht Hnf. unfold resume_from_status. destruct reply as [r| |].
  - quiet_step now. quiet_step u1. quiet_step u2. apply runs_bind.
    eapply runs_mono; [|by eapply runs_store_status]. clear HI.
    intros u x' g' fresh' HI (-> & ->). quiet_step s. by apply runs_ret.
  - destruct (_ || _) eqn:Hev; [by apply runs_fail|]. apply orb_false_iff in Hev as [Hr Hs].
    apply bool_decide_eq_false in Hr, Hs. rewrite <- eq_None_not_Some in Hr.
    rewrite <- eq_None_not_Some in Hs.
    eapply runs_now_seen; [done..|]. clear HI Hg g. intros now g HI Hg Hnow.
    destruct (is_past_expiry_grace _ now) eqn:Hpast.
    + assert (Hpast' : ∀ g', grows g g' → is_past_expiry_grace (lo_commitment o) (sn_clock g') = true).
      { intros g' Hg'. eapply past_grace_mono; [|done]. pose proof (gr_clock _ _ Hg'). lia. }
      eapply runs_silent; [apply silent_renew|done|]. intros u1 g1 HI1 Hg1. apply runs_bind.
      eapply runs_mono; [|eapply runs_mark_expired; [done..| |by apply Hpast']].
      2:{ apply (gr_disclaimed _ _ Hg1), (gr_disclaimed _ _ Hg). auto. }
      assert (Hg2 : grows g0 g1) by (by etrans). clear HI Hg Hpast' Hg1 Hnow.
      intros u x' g' fresh' HI (-> & ->). quiet_step s. by apply runs_ret.
    + quiet_step u1. quiet_step u2. apply runs_bind.
      eapply runs_mono; [|eapply (runs_submit id); [done..|]].
      { intros s x' g' fresh' HI' [-> Hg']. by apply runs_ret. }
      apply not_rejected in Hrej as [Hex _]. destruct Hok. split; eauto.
  - by apply runs_fail.
Qed.

Lemma runs_resume id x g fresh : Inv x g fresh → runs (resume_liquidity id) anything x g fresh.
Proof.
  intros HI. assert (Hg : grows g g) by reflexivity. unfold resume_liquidity.
  destruct (negb (is_canonical id)); [by apply runs_fail|].
  calm_step calm_load_operation o Ho. destruct (is_rejected o) eqn:Hrej; [by apply runs_lift|].
  pose proof (i_ok _ _ _ HI id o Ho) as Hok.
  quiet_step u1. apply runs_driver; [done|]. clear HI Hg. intros lease g1 HI Hg.
  quiet_step u2. calm_step calm_context cx Hcx. quiet_step u3. apply runs_bind.
  eapply runs_mono; [|by apply runs_attach]. clear HI Hg.
  intros durable x' g' fresh' HI (-> & Hg & Hf & Ht & o0 & o' & Ho0 & Ho' & Hse & Hsn).
  rewrite Ho in Ho0. injection Ho0 as <-.
  destruct (is_complete durable) eqn:Hc; [by apply runs_ret|].
  assert (Hnt : k_transfer x' = None).
  { eapply unfinished_no_transfer; [done..| |done|done]. by rewrite (same_evidence_rejected _ _ Hse). }
  quiet_step u4. quiet_step endpoint. quiet_step u5. quiet_step u6. quiet_step issued.
  quiet_step u7. quiet_step u8.
  eapply runs_request_seen; [done..|]. clear HI Hg. intros reply gr HI _ Hseen.
  apply runs_bind. eapply runs_mono; [|eapply (runs_status_reply id o o')]; try done.
  - intros [s|s] x1 g1' fr1 HI1 [-> _]; [|by apply runs_ret].
    eapply runs_mono; [|by apply runs_attach]. done.
  - intros ->. cbn. rewrite (ok_hash _ _ Hok). set_solver.
Qed.

(** ** Starting a request *)

Lemma Inv_insert x g fresh f id o :
  Inv x g fresh → eligible x f → k_ops x !! id = None → op_ok id o →
  invite_federation_id (bp_federation_invite (ff_payload f)) = Some (op_federation o) →
  (∀ i p, k_ops x !! i = Some p → is_rejected p = true) →
  (is_Some (k_transfer x) → finished o) → lo_verified_gateway_api o = None →
  lo_expired_without_acceptance o = false →
  keeps x (with_ops (<[id := o]> (k_ops x)) x) ∧
  Inv (with_ops (<[id := o]> (k_ops x)) x) g fresh.
Proof.
  intros [] Hf Hn Hok Hfed Hrej Ht Hv He. split.
  { intros i p Hp. exists p. split; [|reflexivity]. cbn. rewrite lookup_insert_ne; [done|congruence]. }
  split; cbn; [done..|by exists f| | | | | | |].
  - intros f' c Hf' Hc. destruct (i_carried0 f' c Hf' Hc) as (h & Hh & Hs). exists h.
    split; [done|]. apply lookup_insert_is_Some. destruct (decide (h = id)); auto.
  - intros i p [[-> ->]|[_ Hp]]%lookup_insert_Some; auto.
  - intros i p f' [[<- <-]|[_ Hp]]%lookup_insert_Some Hf'; [|eauto].
    destruct Hf as [Hf _]. rewrite Hf in Hf'. by injection Hf' as <-.
  - intros i i' p p' [[<- <-]|[_ Hp]]%lookup_insert_Some [[<- <-]|[_ Hp']]%lookup_insert_Some H1 H2;
      [done| | |eauto]; exfalso.
    + apply Hrej in Hp'. congruence.
    + apply Hrej in Hp. congruence.
  - intros Ht' i p [[<- <-]|[_ Hp]]%lookup_insert_Some; eauto.
  - intros i p api [[<- <-]|[_ Hp]]%lookup_insert_Some; [congruence|eauto].
  - intros i p [[<- <-]|[_ Hp]]%lookup_insert_Some; [congruence|eauto].
Qed.

Lemma calm_transfer : calm (stmt (tx_get d_guardian_transfer)) (λ t x _, t = k_transfer x).
Proof. apply (calm_get k_transfer). Qed.

(** The search for a live row answers for every row. *)
Lemma calm_find_live matches :
  calm (stmt (find_live_liquidity_operation matches)) (λ r x _,
    (r = None → ∀ id o, k_ops x !! id = Some o → matches o = true → is_rejected o = true) ∧
    (∀ s, r = Some s → ∃ id o, k_ops x !! id = Some o ∧ is_rejected o = false ∧ snapshot o = Ok s)).
Proof.
  apply keep_calm_stmt. intros d d' r g fresh HI H. apply find_live_Ok in H as [-> Hl]. split; [done|].
  split.
  - intros -> id o Ho Hm. destruct (Hl o) as (s & Hs & Hp); [|done|].
    + apply list_elem_of_fmap. exists (id, o). by rewrite ordered_operations_lookup.
    + eapply op_phase_rejected; [by eapply (i_ok _ _ _ HI)|].
      by destruct (snapshot_Ok _ _ Hs) as (<- & _).
  - intros s ->. destruct Hl as (o & (p & -> & Hp)%list_elem_of_fmap & _ & Hs & Hph).
    destruct p as [id o]. apply ordered_operations_lookup in Hp. exists id, o.
    split_and!; [done| |done]. destruct (is_rejected o) eqn:E; [|done]. destruct Hph.
    destruct (snapshot_Ok _ _ Hs) as (-> & _). by eapply op_phase_rejected; [eapply (i_ok _ _ _ HI)|].
Qed.

Lemma calm_no_live federation :
  calm (ensure_no_live_liquidity_operation federation) (λ _ x _,
    ∀ id o, k_ops x !! id = Some o → op_federation o = federation → is_rejected o = true).
Proof.
  eapply keep_calm_bind; [apply calm_find_live|]. intros [s|]; [apply keep_calm_fail|]. apply keep_calm_ret.
  intros x fresh [Hr _] id o Ho Hfed. apply (Hr eq_refl id); [done|]. by apply bool_decide_eq_true.
Qed.

Lemma runs_insert id o x g fresh f (Q : unit -> Core -> Seen -> option string -> Prop) :
  Inv x g fresh → eligible x f → op_ok id o → k_transfer x = None →
  invite_federation_id (bp_federation_invite (ff_payload f)) = Some (op_federation o) →
  (∀ i p, k_ops x !! i = Some p → is_rejected p = true) →
  lo_response o = None → lo_status o = None → lo_verified_gateway_api o = None →
  lo_expired_without_acceptance o = false →
  (∀ u x', Inv x' g fresh → pending id o x' → Q u x' g fresh) →
  runs (stmt (insert_liquidity_operation o)) Q x g fresh.
Proof.
  intros HI Hf Hok Ht Hfed Hrej Hr Hs Hv He HQ. apply runs_stmt; [done|]. intros d d' u <- H.
  apply insert_liquidity_operation_Ok in H as [Hn ->]. rewrite (ok_id _ _ Hok) in *.
  destruct (Inv_insert (core d) g fresh f id o) as [Hk HIn]; [done..| |done|done|].
  { rewrite Ht. by intros [? ?]. }
  split_and!; [exact Hk|exact HIn|]. apply HQ; [exact HIn|].
  split; try done; [|by apply ok_id|by apply ok_hash]. exists o. cbn. by rewrite lookup_insert_eq.
Qed.

Lemma runs_start fid provider amounts x g fresh :
  Inv x g fresh → runs (start_liquidity fid provider amounts) anything x g fresh.
Proof.
  intros HI. assert (Hg : grows g g) by reflexivity. unfold start_liquidity.
  quiet_step u1. apply runs_driver; [done|]. clear HI Hg. intros lease g1 HI Hg.
  quiet_step u2. calm_step calm_transfer t Ht.
  case_bool_decide as Hno; [by apply runs_fail|]. rewrite <- eq_None_not_Some in Hno. subst t.
  quiet_step u3. calm_step calm_context cx Hcx. destruct Hcx as (f & Hf & _ & Hfed).
  calm_step calm_no_live u4 Hlive. quiet_step u5. quiet_step endpoint. quiet_step requester.
  quiet_step now. lift_step expires Hexp. lift_step details Hdet. lift_step hash Hhash.
  quiet_step u6. quiet_step u7. quiet_step u8. apply runs_bind.
  assert (Hid : fd_federation_id details = cx_federation_id cx).
  { unfold federation_details in Hdet. apply res_bind_Ok in Hdet as (h & _ & [= <-]). done. }
  eapply runs_insert; [done|done|apply prepared_ok| |..]; try done.
  - destruct (details_hash _) as [h|]; [|done]. by injection Hhash as <-.
  - unfold op_federation. cbn. by rewrite Hid.
  - intros i p Hp. apply (Hlive i); [done|]. pose proof (i_federation _ _ _ HI i p f Hp (proj1 Hf)) as E.
    rewrite Hfed in E. by injection E.
  - clear HI. intros u x' HI Hp. apply runs_bind. eapply runs_mono; [|by eapply runs_submit].
    intros s x1 g1' fr1 HI1 [-> _]. eapply runs_mono; [|by apply runs_attach]. done.
Qed.

(** ** Beginning a transfer *)

Lemma calm_maintenance fa_id : calm (maintenance_authority fa_id) (λ _ x _, ∃ f, eligible x f).
Proof.
  intros x g fresh HI. assert (Hg : grows g g) by reflexivity. unfold maintenance_authority.
  quiet_step u. calm_step calm_load r Hr. destruct r as [|r|s]; [by apply runs_fail..|].
  calm_step (keep_calm_ask Fresh eq_refl) fr Hfr. destruct Hfr as [_ ->].
  case_bool_decide as Hfresh; cbn [negb]; [|by apply runs_fail].
  eapply runs_mono; [|by apply calm_authority]. intros a x' g' fresh' HI' (-> & -> & Hg' & _).
  split_and!; [done..|by etrans|]. apply (i_eligible _ _ _ HI'). right. left. by rewrite Hfresh.
Qed.

Definition with_transfer (t : option StoredGuardianTransfer) x : Core :=
  {| k_formation := k_formation x; k_formed := k_formed x; k_transfer := t; k_ops := k_ops x |}.
Lemma Inv_transfer t x g fresh f : Inv x g fresh → eligible x f →
  (is_Some t → ∀ id o, k_ops x !! id = Some o → is_rejected o = false → finished o) →
  Inv (with_transfer t x) g fresh.
Proof. intros [] Hf Ht. split; try done. intros _. by exists f. Qed.

Lemma begin_Ok fa_id t lease now d d' u :
  write_guardian_transfer fa_id (Begin t) lease now d = Ok (d', u) → d' = set_transfer (Some t) d.
Proof.
  unfold write_guardian_transfer. intros H. tx_inv. case_match; [done|]. tx_inv.
  bool_in H; by tx_inv.
Qed.

Lemma runs_begin fa_id t x g fresh : Inv x g fresh → runs (begin_transfer fa_id t) anything x g fresh.
Proof.
  intros HI. assert (Hg : grows g g) by reflexivity. unfold begin_transfer.
  quiet_step u1. calm_step calm_maintenance a Hf. destruct Hf as [f Hf].
  calm_step calm_find_live live Hl. destruct Hl as [Hn Hs].
  apply runs_bind. eapply (runs_mono _ (λ _ x' _ fresh', x' = x ∧ fresh' = fresh ∧
    ∀ id o, k_ops x !! id = Some o → is_rejected o = false → finished o)).
  - clear HI Hg. intros u x' g' fresh' HI (-> & -> & Hfin).
    apply runs_driver; [done|]. clear HI. intros lease g2 HI Hg. quiet_step now.
    apply runs_stmt; [done|]. intros d d' u' <- ->%begin_Ok.
    split_and!; [by apply keeps_ops| |done]. eapply (Inv_transfer (Some t) (core d)); [done..|]. auto.
  - destruct live as [s|].
    + destruct (is_complete s) eqn:Hc; [|by apply runs_fail]. apply runs_ret; [done|].
      split_and!; [done..|]. intros id o Ho Hr.
      destruct (Hs s eq_refl) as (i & p & Hp & Hpr & Hps).
      assert (id = i) as -> by by eapply (i_live _ _ _ HI). rewrite Ho in Hp. injection Hp as <-.
      by exists s.
    + apply runs_ret; [done|]. split_and!; [done..|]. intros id o Ho Hr.
      rewrite (Hn eq_refl id o Ho eq_refl) in Hr. done.
Qed.

(** ** Reconciling *)

Definition with_formed (f : option FormedFederationRecord) x : Core :=
  {| k_formation := k_formation x; k_formed := f; k_transfer := k_transfer x; k_ops := k_ops x |}.
(** What the invariant reads of a formed record. *)
Definition same_record (f f' : FormedFederationRecord) : Prop :=
  ff_backup_eligible f' = ff_backup_eligible f ∧
  bp_liquidity (ff_payload f') = bp_liquidity (ff_payload f) ∧
  bp_federation_invite (ff_payload f') = bp_federation_invite (ff_payload f).
Lemma Inv_record x g fresh f f' : Inv x g fresh → k_formed x = Some f → same_record f f' →
  Inv (with_formed (Some f') x) g fresh.
Proof.
  intros [] Hf (He & Hl & Hi). split; cbn; try done.
  - intros _. apply i_excl0. by rewrite Hf.
  - intros H. destruct (i_eligible0 H) as (f0 & Hf0 & He0). exists f'. split; [done|].
    rewrite Hf in Hf0. injection Hf0 as <-. congruence.
  - intros f0 c [[= <-] He0] Hc. apply (i_carried0 f); [split; congruence|congruence].
  - intros id o f0 Ho [= <-]. rewrite Hi. eauto.
Qed.

Lemma rebind_Ok fa_id i source destination d d' u :
  rebind_federation_seat fa_id i source destination d = Ok (d', u) →
  ∃ f f', d_formed d = Some f ∧ same_record f f' ∧ d' = set_formed (Some f') d.
Proof.
  unfold rebind_federation_seat. intros H. tx_inv. destruct (negb _); [done|]. tx_inv.
  destruct (_ =? _); [|destruct (negb _); [done|]]; tx_inv;
    (eexists _, _; split; [done|]; split; [|reflexivity]; done).
Qed.
Lemma rebind_write_Ok fa_id t lease now d d' u :
  write_guardian_transfer fa_id (Rebind t) lease now d = Ok (d', u) →
  ∃ f f', d_formed d = Some f ∧ same_record f f' ∧ is_Some (d_guardian_transfer d) ∧
    d' = set_transfer (Some t) (set_formed (Some f') d).
Proof.
  unfold write_guardian_transfer. intros H. tx_inv. case_match; [done|]. tx_inv.
  destruct (d_guardian_transfer d) as [o|] eqn:Ho; [|done]. destruct (negb _); [done|].
  destruct (gt_stage t); [done|]. apply tx_bind_Ok in H as (d1 & u1 & H & Hp).
  apply rebind_Ok in H as (f & f' & Hf & Hs & ->). tx_inv. exists f, f'. by split_and!.
Qed.
Lemma Inv_rebind t x g fresh f f' : Inv x g fresh → k_formed x = Some f → same_record f f' →
  is_Some (k_transfer x) → Inv (with_transfer (Some t) (with_formed (Some f') x)) g fresh.
Proof.
  intros HI Hf Hs Ht. destruct (i_eligible _ _ _ HI) as (f0 & Hf0 & He); [by right; right|].
  rewrite Hf in Hf0. injection Hf0 as <-. eapply (Inv_transfer _ _ _ _ f').
  - by eapply Inv_record.
  - split; [done|]. destruct Hs as (-> & _). done.
  - intros _. by apply (i_transfer _ _ _ HI).
Qed.

Lemma calm_payload fa_id : calm (stmt (formed_federation_payload fa_id)) (λ p x _,
  ∃ f, k_formed x = Some f ∧ p = ff_payload f).
Proof.
  apply keep_calm_stmt. intros d d' p g fresh _ H. unfold formed_federation_payload in H. tx_inv.
  destruct (negb _); [done|]. tx_inv. split; [done|]. by eexists.
Qed.

(** Adopting the seat of an open transfer keeps the record's request and
    invite. *)
Lemma runs_adopt fa_id f bindings lease x g0 g fresh :
  Inv x g fresh → grows g0 g → k_formed x = Some f →
  runs (adopt_transferred_seat fa_id (ff_payload f) bindings lease)
    (λ p x' g' fresh', fresh' = fresh ∧ grows g0 g' ∧
       ∃ f', k_formed x' = Some f' ∧ same_record f f' ∧ p = ff_payload f') x g fresh.
Proof.
  intros HI Hg Hf. unfold adopt_transferred_seat. calm_step calm_transfer t Ht.
  assert (Hsame : ∀ gn, Inv x gn fresh → grows g0 gn → runs (mret (ff_payload f))
    (λ p x' g' fresh', fresh' = fresh ∧ grows g0 g' ∧
       ∃ f', k_formed x' = Some f' ∧ same_record f f' ∧ p = ff_payload f') x gn fresh).
  { intros gn HIn Hgn. apply runs_ret; [done|]. split_and!; [done..|]. by exists f. }
  destruct t as [t|]; [|by apply Hsame]. destruct (gt_stage t) as [|destination]; [by apply Hsame|].
  lift_step source Hsrc. case_match; [by apply Hsame|]. clear Hsame.
  quiet_step rest. quiet_step now. apply runs_bind, runs_stmt; [done|].
  intros d d' u <- (f1 & f' & Hf1 & Hs & Htr & ->)%rebind_write_Ok. cbn in Hf.
  rewrite Hf in Hf1. injection Hf1 as <-. split_and!; [by apply keeps_ops| |].
  { by eapply (Inv_rebind _ (core d)). }
  eapply runs_mono; [|apply calm_payload; by eapply (Inv_rebind _ (core d))].
  intros p x' g' fresh' _ (-> & -> & Hg' & f2 & Hf2 & ->). cbn in Hf2. injection Hf2 as <-.
  split_and!; [done|by etrans|]. by exists f'.
Qed.

Lemma verify_identity_Ok view invite federation :
  verify_consensus_identity view invite = Ok federation →
  invite_federation_id invite = Some federation ∧ fv_federation_id view = federation.
Proof.
  unfold verify_consensus_identity. intros H. apply res_bind_Ok in H as (f & Hf & H).
  destruct (invite_federation_id invite) as [f'|]; [|done]. injection Hf as ->.
  bool_in H as Hv; cbn in H; [|done]. by injection H as <-.
Qed.
Lemma matches_federation cx c : matches_commitment cx c = Ok tt →
  fd_federation_id (lc_federation_details c) = cx_federation_id cx.
Proof.
  unfold matches_commitment. intros H. apply res_bind_Ok in H as (d & Hd & H).
  unfold federation_details in Hd. apply res_bind_Ok in Hd as (h & _ & [= <-]).
  destruct (_ || _) eqn:Hb in H; [done|]. rewrite !orb_false_iff, !negb_false_iff in Hb.
  destruct Hb as [[[_ Hb%bool_decide_eq_true] _] _]. by cbn in Hb.
Qed.

(** What a committed reconciliation wrote. *)
Lemma reconcile_Ok fa_id name invite d d' u :
  reconcile_formed_federation fa_id name invite d = Ok (d', u) →
  ∃ f f', d_formed d = Some f ∧ ff_backup_eligible f' = true ∧
    bp_liquidity (ff_payload f') = bp_liquidity (ff_payload f) ∧
    bp_federation_invite (ff_payload f') = invite ∧
    ((∀ c, bp_liquidity (ff_payload f) = Some c →
        ∃ h, details_hash c = Some h ∧ is_Some (d_liquidity d !! h)) ∧
     d' = set_formed (Some f') d ∨
     ∃ c h o, bp_liquidity (ff_payload f) = Some c ∧ details_hash c = Some h ∧
       d_liquidity d !! h = None ∧ o = prepared_operation (ff_formation_id f) h c None ∧
       d' = set_formed (Some f') (set_liquidity (<[h := o]> (d_liquidity d)) d)).
Proof.
  unfold reconcile_formed_federation, put_operation. intros H.
  apply tx_bind_Ok in H as (d1 & o & H1 & H). apply tx_get_Ok in H1 as [-> ->].
  apply tx_bind_Ok in H as (d1 & f & H1 & H). apply tx_lift_Ok in H1 as [-> Hf].
  destruct (d_formed d) as [f0|]; [|done]. injection Hf as ->. destruct (negb _); [done|].
  apply tx_bind_Ok in H as (d1 & prior & H1 & H). apply tx_get_Ok in H1 as [-> ->].
  apply tx_bind_Ok in H as (d1 & payload & H1 & H). apply tx_lift_Ok in H1 as [-> Hp].
  assert (Hpay : bp_liquidity payload = bp_liquidity (ff_payload f) ∧
                 bp_federation_invite payload = invite).
  { bool_in Hp as Hinv; [by injection Hp as <-|]. destruct (d_backup_generation d).
    - by injection Hp as <-.
    - by apply res_bind_Ok in Hp as (n & _ & [= <-]). }
  destruct Hpay as [Hl Hi]. rewrite Hl in H. apply tx_bind_Ok in H as (d1 & u1 & Ho & H).
  apply tx_put_Ok in H. match type of H with _ = set_formed (Some ?F) _ => exists f, F end. subst d'.
  split; [done|]. split; [reflexivity|]. split; [exact Hl|]. split; [exact Hi|].
  destruct (bp_liquidity (ff_payload f)) as [c|]; [|tx_inv; by left].
  apply tx_bind_Ok in Ho as (d2 & h & H1 & Ho). apply tx_lift_Ok in H1 as [-> Hh].
  apply tx_bind_Ok in Ho as (d2 & e & H1 & Ho). apply tx_get_Ok in H1 as [-> ->].
  destruct (details_hash c) as [h'|] eqn:Hdh; [|done]. injection Hh as ->.
  destruct (d_liquidity d !! h) as [e|] eqn:He; tx_inv.
  - left. split; [|done]. intros c' [= <-]. exists h. by rewrite He.
  - right. by eexists c, h, _.
Qed.

(** Reconciling with the record's own federation keeps the invariant. *)
Lemma Inv_reconciled x g fresh f f' federation :
  Inv x g fresh → k_formed x = Some f → ff_backup_eligible f' = true →
  bp_liquidity (ff_payload f') = bp_liquidity (ff_payload f) →
  invite_federation_id (bp_federation_invite (ff_payload f)) = Some federation →
  invite_federation_id (bp_federation_invite (ff_payload f')) = Some federation →
  (∀ c, bp_liquidity (ff_payload f) = Some c →
     ∃ h, details_hash c = Some h ∧ is_Some (k_ops x !! h)) →
  Inv (with_formed (Some f') x) g fresh.
Proof.
  intros [] Hf He Hl Hi Hi' Hc. split; cbn; try done.
  - intros _. apply i_excl0. by rewrite Hf.
  - intros _. by exists f'.
  - intros f0 c [[= <-] _] Hc'. apply Hc. congruence.
  - intros id o f0 Ho [= <-]. rewrite Hi', <- Hi. eauto.
Qed.
(** The request a backup carried becomes the only row. *)
Lemma Inv_carried x g fresh f f' federation c h o :
  Inv x g fresh → k_formed x = Some f → ff_backup_eligible f' = true →
  bp_liquidity (ff_payload f) = Some c → bp_liquidity (ff_payload f') = Some c →
  details_hash c = Some h → k_ops x !! h = None →
  o = prepared_operation (ff_formation_id f) h c None →
  op_federation o = federation →
  invite_federation_id (bp_federation_invite (ff_payload f')) = Some federation →
  keeps x (with_ops (<[h := o]> (k_ops x)) (with_formed (Some f') x)) ∧
  Inv (with_ops (<[h := o]> (k_ops x)) (with_formed (Some f') x)) g fresh.
Proof.
  intros HI Hf He Hl Hl' Hh Hn -> Hfed Hi'.
  assert (Hnot : ¬ (k_ops x ≠ ∅ ∨ is_Some fresh ∨ is_Some (k_transfer x))).
  { intros H. destruct (i_eligible _ _ _ HI H) as (f0 & Hf0 & He0).
    destruct (i_carried _ _ _ HI f0 c) as (h' & Hh' & [o' Ho']); [by split|congruence|]. congruence. }
  assert (Hempty : k_ops x = ∅) by (destruct (decide (k_ops x = ∅)); [done|tauto]).
  assert (Ht : k_transfer x = None) by (destruct (k_transfer x); [|done]; destruct Hnot; eauto).
  rewrite Hempty, insert_empty.
  assert (Hrow : ∀ i p, ({[h := prepared_operation (ff_formation_id f) h c None]} :
              gmap string StoredLiquidityOperation) !! i = Some p →
            i = h ∧ p = prepared_operation (ff_formation_id f) h c None).
  { intros i p [<- <-]%lookup_singleton_Some. done. }
  split; [intros i p; by rewrite Hempty|]. split; cbn.
  - apply (i_formation _ _ _ HI).
  - intros _. apply (i_excl _ _ _ HI). by rewrite Hf.
  - intros _. by exists f'.
  - intros f0 c' [[= <-] _] Hc'. exists h. split; [congruence|]. by rewrite lookup_singleton_eq.
  - intros i p [-> ->]%Hrow. by apply prepared_ok.
  - intros i p f0 [-> ->]%Hrow [= <-]. by rewrite Hfed.
  - by intros i i' p p' [-> _]%Hrow [-> _]%Hrow.
  - rewrite Ht. by intros [? ?].
  - by intros i p api [-> ->]%Hrow.
  - by intros i p [-> ->]%Hrow.
Qed.

Lemma runs_reconcile_write fa_id name invite f federation x g fresh :
  Inv x g fresh → k_formed x = Some f →
  invite_federation_id (bp_federation_invite (ff_payload f)) = Some federation →
  invite_federation_id invite = Some federation →
  (∀ c, bp_liquidity (ff_payload f) = Some c →
     fd_federation_id (lc_federation_details c) = federation) →
  runs (stmt (reconcile_formed_federation fa_id name invite))
    (λ _ x' _ _, ∃ f', eligible x' f') x g fresh.
Proof.
  intros HI Hf Hi Hi' Hfed. apply runs_stmt; [done|].
  intros d d' u <- (f1 & f' & Hf1 & He & Hl & Hinv & H)%reconcile_Ok. cbn in Hf.
  rewrite Hf in Hf1. injection Hf1 as <-. rewrite <- Hinv in Hi'.
  destruct H as [[Hc ->]|(c & h & o & Hc & Hh & Hn & Ho & ->)].
  - split_and!; [by apply keeps_ops| |by exists f'].
    by eapply (Inv_reconciled (core d) _ _ f).
  - destruct (Inv_carried (core d) g fresh f f' federation c h o) as [Hk HIn]; try done.
    + congruence.
    + rewrite Ho. by apply Hfed.
    + split_and!; [exact Hk|exact HIn|by exists f'].
Qed.

Lemma runs_publish fa_id f x g fresh :
  Inv x g fresh → eligible x f → runs (publish_formed fa_id) anything x g fresh.
Proof.
  intros HI Hf. assert (Hg : grows g g) by reflexivity. unfold publish_formed.
  quiet_step u. calm_step calm_load r Hr. apply runs_ask; [done..|]. intros [] _. split; [|done].
  destruct HI. split; try done. intros _. by exists f.
Qed.

Lemma runs_reconcile snapshot fa_id lease x g fresh :
  Inv x g fresh → shows snapshot x → runs (reconcile_formed snapshot fa_id lease) anything x g fresh.
Proof.
  intros HI (f & Hf & _ & Hinv & _). assert (Hg : grows g g) by reflexivity. unfold reconcile_formed.
  calm_step calm_payload payload Hp. destruct Hp as (f1 & Hf1 & ->). rewrite Hf in Hf1. injection Hf1 as <-.
  case_bool_decide; [by apply runs_fail|]. calm_step calm_authority authority Ha.
  quiet_step view. lift_step federation Hid. apply verify_identity_Ok in Hid as [Hid Hview].
  apply runs_bind. eapply runs_mono; [|by eapply (runs_adopt fa_id f)]. clear HI Hg.
  intros payload x' g' fresh' HI (-> & Hg & f' & Hf' & (He & Hl & Hi) & ->).
  quiet_step u1. lift_step u2 Hm. quiet_step u3. lift_step invite Hdial.
  apply runs_bind. eapply runs_mono; [|eapply (runs_reconcile_write _ _ _ f' federation)]; try done.
  - intros u x1 gg fr1 HI1 [f2 Hf2]. by eapply runs_publish.
  - rewrite Hi, <- Hinv. done.
  - destruct (dial_invite _ _) as [i|] eqn:Hd; [|done]. injection Hdial as <-.
    by eapply dial_invite_federation.
  - intros c Hc. rewrite Hc in Hm. destruct u2. apply matches_federation in Hm. by rewrite Hm.
Qed.

Lemma runs_resume_formed x g fresh : Inv x g fresh → runs resume anything x g fresh.
Proof.
  intros HI. assert (Hg : grows g g) by reflexivity. unfold resume.
  quiet_step u1. quiet_step fa_id. apply runs_driver; [done|]. clear HI Hg. intros lease g1 HI Hg.
  quiet_step u2. calm_step calm_load r Hr. destruct r as [|r|s]; [by apply runs_fail..|].
  apply runs_bind, runs_ask; [done..|]. intros [] _. cbn [see fresh_of].
  pose proof (Inv_unpublished _ _ _ HI). split; [done|]. apply runs_reconcile; auto.
Qed.

(** ** Restoring *)

Lemma restore_Ok fa_id p recovery now d d' u :
  restore_backup_payload fa_id p recovery now d = Ok (d', u) →
  d_formation d = None ∧ d_formed d = None ∧ d_liquidity d = ∅ ∧ d_guardian_transfer d = None ∧
  ∃ fid, core d' = with_formed (Some
      {| ff_fa_id := fa_id; ff_payload := p; ff_formation_id := fid; ff_backup_eligible := false;
         ff_federation_name := None; ff_seat_holders := []; ff_origin := FromBackup |}) (core d) ∧
    d_backup_generation d' = d_backup_generation d.
Proof.
  unfold restore_backup_payload. intros H.
  apply tx_bind_Ok in H as (d1 & u1 & H1 & H). apply tx_lift_Ok in H1 as [-> _].
  apply tx_bind_Ok in H as (d1 & fid & H1 & H). apply tx_lift_Ok in H1 as [-> _].
  apply tx_bind_Ok in H as (d1 & dd & H1 & H). apply tx_get_Ok in H1 as [-> ->].
  destruct (_ || _) eqn:Hb in H; [done|]. rewrite !orb_false_iff in Hb.
  destruct Hb as [[[[H1 H2] _] H3] H4]. apply bool_decide_eq_false in H1, H2, H4.
  apply negb_false_iff, bool_decide_eq_true in H3.
  rewrite <- eq_None_not_Some in H1. rewrite <- eq_None_not_Some in H2. rewrite <- eq_None_not_Some in H4.
  split_and!; [done..|]. exists fid. tx_inv. destruct recovery; unfold complete_recovery in H; by tx_inv.
Qed.

Lemma Inv_restored x g fresh f :
  Inv x g fresh → k_formation x = None → k_formed x = None → k_ops x = ∅ → k_transfer x = None →
  ff_backup_eligible f = false → Inv (with_formed (Some f) x) g fresh.
Proof.
  intros [] H1 H2 H3 H4 He. split; cbn; try done; rewrite ?H3, ?H4.
  - intros [?|[?|[? ?]]]; [done| |done].
    destruct (i_eligible0 ltac:(auto)) as (f0 & Hf0 & _). congruence.
  - intros f0 c [[= <-] ?]. congruence.
  - intros id o f0. by rewrite lookup_empty.
Qed.
#[local] Hint Resolve calm_migrate : keep.

Lemma runs_restore fa_id author key environment required x g fresh :
  Inv x g fresh → runs (restore_from_relays fa_id author key environment required) anything x g fresh.
Proof.
  intros HI. assert (Hg : grows g g) by reflexivity. unfold restore_from_relays.
  eapply runs_silent_from; [|exact HI|exact Hg|].
  { apply silent_core. by intros d d' a [-> _]%tx_get_Ok. }
  clear HI Hg. intros completed g1 HI Hg. destruct completed.
  { quiet_step u1. calm_step calm_load r Hr. by apply runs_ret. }
  quiet_step reads. destruct (best_of_reads _ _ _ _ _) as [[p|] n].
  - quiet_step now. apply runs_bind, runs_stmt; [done|].
    intros d d' u <- (H1 & H2 & H3 & H4 & fid & Hc & _)%restore_Ok. rewrite Hc.
    match goal with |- _ ∧ Inv (with_formed (Some ?F) _) _ _ ∧ _ =>
      pose proof (Inv_restored _ _ _ F HI H1 H2 H3 H4 eq_refl) as HIn end.
    split; [by apply keeps_ops|]. split; [exact HIn|]. clear HI. rename HIn into HI.
    quiet_step u1. calm_step calm_load r Hr. by apply runs_ret.
  - quiet_step outcome. eapply runs_silent; [|exact HI|].
    { apply silent_core. intros d d' a ->%tx_put_Ok. done. }
    intros u g2 HI2 _. by apply runs_ret.
Qed.

(** ** Every handler *)

Lemma runs_forget {A} (p : M A) (Q : A -> Core -> Seen -> option string -> Prop) x g fresh :
  runs p Q x g fresh → wp (forget p) (λ _, Inv) x g fresh.
Proof.
  intros H. apply wp_keep_bind. eapply wp_mono_post; [|exact H]. by intros r x' g' fresh' [HI _].
Qed.
Lemma body_runs h x g fresh : Inv x g fresh → wp (body h) (λ _, Inv) x g fresh.
Proof.
  intros HI. destruct h; cbn [body]; eapply runs_forget.
  - by apply runs_start.
  - by apply runs_resume.
  - by apply runs_begin.
  - by apply runs_resume_formed.
  - by apply runs_restore.
Qed.

End Context.
End KeepRuns.
