(* ===== verification/FaKeepSafe.v ===== *)
(** * The promises of a client to its federation and its provider

    The invariant of [FaKeeping] holds in every reachable state of the client,
    whatever the providers, guardians and relays answer and wherever the process
    stops; what the liquidity journal promises follows. *)

From S2P Require Import Prelude LmSchema LmProg LmAllocations FaSchema FaQuotes FaStore FaLiquidity FaBackup FaUpkeep FaKeeping FaKeepRuns.
From stdpp Require Import base gmap strings list.
From Stdlib Require Import ZArith Lia.
Open Scope Z_scope.

Module KeepSafe.
Import Ledger Allocations Daemon Fa Quotes Store Requester Backup Upkeep Keeper Journal Keeping KeepRuns.

Section Safe.
Context {CR : Crypto} {RC : RequesterCrypto} {BC : BackupCodec} {IN : Invites} {INok : InvitesOk}.
Implicit Types (x : Core) (g : Seen) (fresh : option string).

(** ** Steps beside a run *)

Lemma worker_core w d d' r : worker_tx w d = Ok (d', r) → core d' = core d.
Proof.
  destruct w; cbn [worker_tx]; intros H; apply tx_bind_Ok in H as (d1 & u & H & H2);
    injection H2 as -> _.
  - unfold backup_payload in H. tx_inv. done.
  - unfold record_backup_confirmation in H. tx_inv. case_match; by tx_inv.
  - by tx_inv.
Qed.

(** Without a formed federation there is nothing else. *)
Lemma Inv_unformed x g fresh : Inv x g fresh → k_formed x = None →
  k_ops x = ∅ ∧ fresh = None ∧ k_transfer x = None.
Proof.
  intros HI Hn.
  assert (Hno : ¬ (k_ops x ≠ ∅ ∨ is_Some fresh ∨ is_Some (k_transfer x))).
  { intros (f & Hf & _)%(i_eligible _ _ _ HI). congruence. }
  split_and!.
  - destruct (decide (k_ops x = ∅)); [done|tauto].
  - destruct fresh; [|done]. destruct Hno. eauto.
  - destruct (k_transfer x); [|done]. destruct Hno. eauto.
Qed.
Lemma Inv_bare x g fresh :
  assembled (k_formation x) = true → (is_Some (k_formed x) → k_formation x = None) →
  (is_Some fresh → ∃ f, eligible x f) →
  (∀ f, k_formed x = Some f → bp_liquidity (ff_payload f) = None) →
  k_ops x = ∅ → k_transfer x = None → Inv x g fresh.
Proof.
  intros H1 H2 H3 H4 H5 H6. split; rewrite ?H5, ?H6; try done.
  - intros [?|[?|[? ?]]]; [done|auto|done].
  - intros f c [Hf _]. rewrite (H4 f Hf). done.
Qed.

Lemma take_rows_seats fid l d d' rows :
  take_formed_rows fid l d = Ok (d', rows) → ∃ seats, d' = set_seats seats d.
Proof.
  revert d d' rows. induction l as [|i l IH]; intros d d' rows H; cbn [take_formed_rows] in H.
  { injection H as <- _. exists (d_seats d). by destruct d. }
  apply tx_bind_Ok in H as (d1 & s & H1 & H). unfold seat_row in H1. tx_inv.
  match goal with H : take_formed_rows _ _ _ = Ok (_, ?y) |- _ =>
    apply IH in H as [seats ->]; destruct y as [? ?] end. tx_inv. by exists seats.
Qed.
(** A run that forms the federation leaves a record without a request. *)
Lemma record_formed_Ok f d d' u : record_formed_federation f d = Ok (d', u) →
  d_formed d = None ∧ ∃ r seats, ff_backup_eligible r = true ∧ bp_liquidity (ff_payload r) = None ∧
    ff_origin r = ThisDevice ∧
    d' = set_formed (Some r) (set_formation None (set_seats seats d)).
Proof.
  unfold record_formed_federation. intros H.
  apply tx_bind_Ok in H as (d1 & a & H1 & H). apply tx_lift_Ok in H1 as [-> _].
  apply tx_bind_Ok in H as (d1 & [seats holders] & H1 & H).
  apply take_rows_seats in H1 as [rows ->].
  apply tx_bind_Ok in H as (d2 & a2 & H1 & H). apply tx_put_Ok in H1 as ->.
  apply tx_bind_Ok in H as (d2 & e & H1 & H). apply tx_get_Ok in H1 as [-> ->].
  bool_in H as Hn; [done|]. rewrite <- eq_None_not_Some in Hn. cbn in Hn.
  split; [done|]. tx_inv. eexists _, rows. split; [|split; [|split; [|reflexivity]]]; done.
Qed.
Lemma active_formation_reads fid d d' f : active_formation fid d = Ok (d', f) → d' = d.
Proof. unfold active_formation. intros H. by tx_inv. Qed.

(** Any later write of an open transfer. *)
Lemma transfer_step_Ok fa_id write lease now d d' u :
  (∀ t, write ≠ Begin t) → write_guardian_transfer fa_id write lease now d = Ok (d', u) →
  d' = set_transfer None d ∨
  is_Some (d_guardian_transfer d) ∧ ∃ t,
    (d' = set_transfer (Some t) d ∨
     ∃ f f', d_formed d = Some f ∧ same_record f f' ∧ d' = set_transfer (Some t) (set_formed (Some f') d)).
Proof.
  intros Hw H. destruct write as [t|t|t| |]; [by destruct (Hw t)|..].
  - unfold write_guardian_transfer in H. tx_inv. case_match; [done|]. tx_inv.
    destruct (d_guardian_transfer d) as [o|]; [|done]. case_match; tx_inv. right. eauto.
  - apply rebind_write_Ok in H as (f & f' & Hf & Hs & Ht & ->). right. split; [done|].
    exists t. right. by exists f, f'.
  - unfold write_guardian_transfer in H. tx_inv. case_match; [done|]. tx_inv. by left.
  - unfold write_guardian_transfer in H. tx_inv. case_match; [done|]. tx_inv. by left.
Qed.

Lemma other_Inv o d d' u g fresh :
  Inv (core d) g fresh → other_tx o d = Ok (d', u) →
  Inv (core d') g (fresh_after o d' fresh) ∧ k_ops (core d') = k_ops (core d).
Proof.
  intros HI H. destruct o as [f seats|fid|fa_id write lease now]; cbn [other_tx fresh_after] in *.
  - tx_inv. destruct (_ || _) eqn:Hb in H; [done|]. apply orb_false_iff in Hb as [Hb Ha].
    apply bool_decide_eq_false in Hb. rewrite <- eq_None_not_Some in Hb. apply negb_false_iff in Ha.
    tx_inv. destruct (Inv_unformed _ _ _ HI Hb) as (Ho & -> & Ht). split; [|done].
    apply Inv_bare; cbn; try done; rewrite Hb; by intros [? ?].
  - unfold confirm_formation_meta_target in H. apply tx_bind_Ok in H as (d1 & f & H1 & H).
    apply active_formation_reads in H1 as ->. bool_in H as Hp; [|done].
    apply record_formed_Ok in H as (Hn & r & seats & He & Hl & _ & ->).
    destruct (Inv_unformed _ _ _ HI Hn) as (Ho & -> & Ht). split; [|done].
    apply Inv_bare; cbn; try done; [intros _; by exists r|by intros ? [= <-]].
  - destruct (match write with Begin _ => true | _ => false end) eqn:Hw; [by destruct write|].
    assert (Hw' : write_guardian_transfer fa_id write lease now d = Ok (d', u)) by by destruct write.
    apply transfer_step_Ok in Hw' as [->|(Ht & t & [->|(f & f' & Hf & Hs & ->)])].
    + split; [|done]. destruct HI. split; cbn; try done.
      intros [?|[?|[? ?]]]; [auto..|done].
    + split; [|done]. destruct (i_eligible _ _ _ HI) as [f Hf]; [by right; right|].
      apply (Inv_transfer (Some t) (core d) _ _ f); [done..|]. intros _. by apply (i_transfer _ _ _ HI).
    + split; [|done]. by eapply (Inv_rebind _ (core d)).
    + by intros t ->.
Qed.

(** ** Every reachable state *)

Record Sound (s : Node) : Prop := {
  so_inv : Inv (core (n_db s)) (seen (n_trace s)) (n_fresh s);
  so_run : ∀ p, n_running s = Some p →
    wp p (λ _, Inv) (core (n_db s)) (seen (n_trace s)) (n_fresh s);
  so_sent : ∀ r a d, ECall (Send (RequestLiquidity r)) a d ∈ n_trace s →
    unanswered (core d) r ∧ ∀ o, d_liquidity d !! lq_details_payload_hash r = Some o →
      op_ok (lq_details_payload_hash r) o
}.

Lemma sound_opened : Sound opened.
Proof.
  split; [|done|by intros r a d ?%elem_of_nil].
  apply Inv_bare; try done; by intros [? ?].
Qed.

Lemma honest_cons e tr : honest (e :: tr) → honest tr.
Proof. intros H c a d Hin. apply (H c a d). by right. Qed.
Lemma honest_app tr1 tr2 : honest (tr1 ++ tr2) → honest tr2.
Proof. intros H c a d Hin. apply (H c a d), elem_of_app. by right. Qed.

(** A statement of another task leaves a run where it was. *)
Lemma work_core w d d' r : run_tx (worker_tx w) d = (d', r) → core d' = core d.
Proof.
  unfold run_tx. destruct (worker_tx w d) as [[d1 a]|e|] eqn:E; intros [= <- <-]; [|done..].
  by eapply worker_core.
Qed.

Lemma sent_older e tr (P : LiquidityRequest -> Db -> Prop) :
  (∀ r a d, e ≠ ECall (Send (RequestLiquidity r)) a d) →
  (∀ r a d, ECall (Send (RequestLiquidity r)) a d ∈ tr → P r d) →
  ∀ r a d, ECall (Send (RequestLiquidity r)) a d ∈ e :: tr → P r d.
Proof. intros He H r a d [<-|Hin]%elem_of_cons; [by destruct (He r a d)|eauto]. Qed.

Lemma work_sound w s s' : Sound s → act (Work w) s = Some s' →
  Sound s' ∧ keeps (core (n_db s)) (core (n_db s')).
Proof.
  intros [HI Hr Hs] Ha. destruct s as [d fresh running tr].
  cbn [act n_db n_fresh n_running n_trace] in *. destruct (run_tx _ d) as [d' r] eqn:Ht.
  apply work_core in Ht as E. set (l := match r with Ok (Some p) => [EPrepared p] | _ => [] end) in *.
  assert (Hseen : seen (l ++ EStmt d d' :: tr) = seen tr) by by destruct r as [[]| |].
  assert (Hsent : ∀ r a d0, ECall (Send (RequestLiquidity r)) a d0 ∈ l ++ EStmt d d' :: tr →
            unanswered (core d0) r ∧ ∀ o, d_liquidity d0 !! lq_details_payload_hash r = Some o →
              op_ok (lq_details_payload_hash r) o).
  { destruct r as [[]| |]; repeat apply sent_older; done. }
  assert (s' = {| n_db := d'; n_fresh := fresh; n_running := running;
                  n_trace := l ++ EStmt d d' :: tr |}) as -> by (destruct running; congruence).
  cbn. rewrite E. split; [|done].
  split; cbn; rewrite ?E, ?Hseen; done.
Qed.

Lemma act_sound c s s' : Sound s → act c s = Some s' → honest (n_trace s') →
  Sound s' ∧ keeps (core (n_db s)) (core (n_db s')).
Proof.
  destruct (match c with Work _ => true | _ => false end) eqn:Hno.
  { destruct c; try discriminate Hno. intros Hs Ha _. by eapply work_sound. }
  intros [HI Hr Hs] Ha Hh. destruct s as [d fresh running tr]. cbn in *.
  destruct c as [h| |busy|o| | |w|o]; try discriminate Hno; destruct running as [p|]; try discriminate Ha;
    cbn [act n_db n_fresh n_running n_trace] in Ha.
  - injection Ha as <-. split; [|done]. split; [done| |done]. intros p [= <-]. by apply body_runs.
  - destruct p as [?|B t k|c k]; try discriminate Ha; cbn beta iota in Ha.
    destruct (run_tx t d) as [d' r] eqn:Ht. injection Ha as <-.
    destruct (Hr _ eq_refl) as [H _]. destruct (H d d' r eq_refl Ht) as (Hk & HI' & Hw).
    split; [|done]. split; cbn; [done|by intros p [= <-]|by apply sent_older].
  - destruct p as [?|B t k|c k]; try discriminate Ha; cbn beta iota in Ha. injection Ha as <-.
    destruct (Hr _ eq_refl) as [_ H].
    split; [|done]. split; cbn; [done|intros p [= <-]; apply H|by apply sent_older].
  - destruct p as [?|B t k|c k]; try discriminate Ha; cbn beta iota in Ha. injection Ha as <-. cbn in Hh.
    destruct (Hr _ eq_refl) as [Hc H]. destruct (H (answer_of o fresh c)) as [HI' Hw].
    { split; [|by destruct c]. apply (Hh c _ d). by left. }
    split; [|done]. split; cbn; [done|by intros p [= <-]|].
    intros r a d0 [Heq|Hin]%elem_of_cons; [|eauto].
    injection Heq as <- ->. split; [exact Hc|]. apply (i_ok _ _ _ HI).
  - destruct p; try discriminate Ha. injection Ha as <-. by split.
  - injection Ha as <-. split; [|done]. split; cbn; [by eapply Inv_unpublished|done|by apply sent_older].
  - injection Ha as <-. split; [|done]. split; cbn; [by eapply Inv_unpublished|done|by apply sent_older].
  - destruct (run_tx _ d) as [d' r] eqn:Ht. injection Ha as <-.
    unfold run_tx in Ht. destruct (other_tx o d) as [[d1 u]|e|] eqn:E; injection Ht as <- <-.
    + destruct (other_Inv _ _ _ _ _ _ HI E) as [HI' Hops].
      split; [|by apply keeps_ops]. split; cbn; [done..|by apply sent_older].
    + split; [|done]. split; cbn; [done..|by apply sent_older].
    + split; [|done]. split; cbn; [done..|by apply sent_older].
Qed.

Lemma act_trace c s s' : act c s = Some s' → n_trace s `suffix_of` n_trace s'.
Proof.
  destruct s as [d fresh running tr].
  destruct c; destruct running as [[]|]; cbn; intros Ha; try discriminate Ha;
    repeat match type of Ha with context [run_tx ?t ?d] => destruct (run_tx t d) end;
    injection Ha as <-; cbn; try done; try (by apply suffix_cons_r); apply suffix_app_r, suffix_cons_r; done.
Qed.
Lemma later_trace s s' : later s s' → n_trace s `suffix_of` n_trace s'.
Proof. induction 1 as [|c s1 s2 _ IH Ha]; [done|]. etrans; [done|]. by eapply act_trace. Qed.
Lemma honest_suffix tr tr' : tr `suffix_of` tr' → honest tr' → honest tr.
Proof. intros [l ->]. apply honest_app. Qed.

Lemma later_sound s s' : later s s' → Sound s → honest (n_trace s') →
  Sound s' ∧ keeps (core (n_db s)) (core (n_db s')).
Proof.
  induction 1 as [|c s1 s2 _ IH Ha]; intros Hs Hh; [done|].
  destruct (IH Hs) as [H1 Hk]; [by eapply honest_suffix; [eapply act_trace|]|].
  destruct (act_sound _ _ _ H1 Ha Hh). split; [done|]. by etrans.
Qed.
Lemma reachable_sound s : reachable s → honest (n_trace s) → Sound s.
Proof. intros Hr Hh. by destruct (later_sound _ _ Hr sound_opened Hh). Qed.
Lemma later_trans s1 s2 s3 : later s1 s2 → later s2 s3 → later s1 s3.
Proof. intros H. induction 1; [done|by eapply later_act]. Qed.
Lemma later_keeps s s' : reachable s → later s s' → honest (n_trace s') →
  keeps (core (n_db s)) (core (n_db s')).
Proof.
  intros Hr Hl Hh. apply (later_sound s s'); [done| |done].
  apply reachable_sound; [done|]. eapply honest_suffix; [by eapply later_trace|done].
Qed.

(** ** What a trace showed *)

Lemma seen_registered tr api : api ∈ sn_registered (seen tr) →
  ∃ d, ECall (Recv (RegisterGateway api)) (inr tt) d ∈ tr.
Proof.
  induction tr as [|e tr IH]; cbn; [set_solver|].
  assert (Hold : (∃ d, ECall (Recv (RegisterGateway api)) (inr tt) d ∈ tr) →
    ∃ d, ECall (Recv (RegisterGateway api)) (inr tt) d ∈ e :: tr).
  { intros [d Hd]. exists d. by right. }
  destruct e as [| |c a d|]; [by auto..| |by auto].
  destruct c as [r|r| | | | | | | |]; try by auto. destruct r; try by auto.
  - destruct a as [?|[]]; by auto.
  - destruct a as [?|[]]; cbn; [by auto|]. intros [->%elem_of_singleton|?]%elem_of_union; [|by auto].
    exists d. by left.
Qed.
Lemma seen_disclaimed tr id : id ∈ sn_disclaimed (seen tr) →
  ∃ requester provider at_ d,
    ECall (Recv (GetAllocationStatus requester provider id at_)) (inr StatusNotFound) d ∈ tr.
Proof.
  induction tr as [|e tr IH]; cbn; [set_solver|]. intros H.
  assert (Hcase : id ∈ sn_disclaimed (seen tr) ∨ ∃ requester provider at_ d,
    e = ECall (Recv (GetAllocationStatus requester provider id at_)) (inr StatusNotFound) d).
  { destruct e as [| |c a d|]; [by auto..| |by auto].
    destruct c as [r|r| | | | | | | |]; try by auto. destruct r; try by auto.
    - destruct a as [?|[]]; cbn in H; try by auto.
      apply elem_of_union in H as [->%elem_of_singleton|?]; [|by auto]. right. by eexists _, _, _, _.
    - destruct a; by auto. }
  destruct Hcase as [(r & p & t & d & Hin)%IH|(r & p & t & d & ->)]; exists r, p, t, d; [by right|by left].
Qed.
Lemma seen_clock tr : 0 < sn_clock (seen tr) →
  ∃ d, ECall Now (sn_clock (seen tr) : Ans Now) d ∈ tr.
Proof.
  induction tr as [|e tr IH]; cbn; [lia|]. intros H.
  destruct (decide (sn_clock (match e with ECall c a _ => see c a (seen tr) | _ => seen tr end)
                    = sn_clock (seen tr))) as [E|E].
  - rewrite E in *. destruct (IH H) as [d Hd]. exists d. by right.
  - destruct e as [| |c a d|]; try done. destruct c as [r|r| | | | | | | |]; try done.
    + by destruct r; try done; destruct a as [?|[]].
    + cbn in *. exists d. replace (Z.max a (sn_clock (seen tr))) with (a : Z) by lia. by left.
Qed.

(** ** The promises *)

(** C11: whatever providers, guardians and relays answer and wherever the client
    stops, at most one recorded liquidity request is not rejected.  It is for
    the federation of the formed, reconciled record, and as long as a guardian
    transfer is open it is complete. *)
Theorem one_live_request s id o :
  reachable s → honest (n_trace s) → d_liquidity (n_db s) !! id = Some o → is_rejected o = false →
  (∀ id' o', d_liquidity (n_db s) !! id' = Some o' → is_rejected o' = false → id' = id) ∧
  (∃ f, d_formed (n_db s) = Some f ∧ ff_backup_eligible f = true ∧
     invite_federation_id (bp_federation_invite (ff_payload f)) =
       Some (fd_federation_id (lc_federation_details (lo_commitment o)))) ∧
  (is_Some (d_guardian_transfer (n_db s)) → ∃ v, snapshot o = Ok v ∧ is_complete v = true).
Proof.
  intros Hr Hh Ho Hrej. destruct (reachable_sound s Hr Hh) as [HI _ _]. split_and!.
  - intros id' o' Ho' Hrej'. by eapply (i_live _ _ _ HI).
  - destruct (i_eligible _ _ _ HI) as (f & Hf & He).
    { left. intros E. cbn in E. rewrite E in Ho. done. }
    exists f. split_and!; [done..|]. by eapply (i_federation _ _ _ HI).
  - intros Ht. by eapply (i_transfer _ _ _ HI).
Qed.

(** C13: a request for liquidity is only ever sent for a row the journal already
    holds under the hash of exactly what is requested, and only while nothing
    is recorded about its fate. *)
Theorem requests_are_journaled s r a d :
  reachable s → honest (n_trace s) → ECall (Send (RequestLiquidity r)) a d ∈ n_trace s →
  ∃ o, d_liquidity d !! lq_details_payload_hash r = Some o ∧ lo_commitment o = lq_commitment r ∧
    details_hash (lq_commitment r) = Some (lq_details_payload_hash r) ∧
    lo_response o = None ∧ lo_status o = None ∧ lo_expired_without_acceptance o = false.
Proof.
  intros Hr Hh Hin. destruct (reachable_sound s Hr Hh) as [_ _ Hs].
  destruct (Hs _ _ _ Hin) as [(o & Ho & Hc & H1 & H2 & H3) Hok].
  exists o. split_and!; [done..| |done|done|done]. rewrite <- Hc. apply Hok, Ho.
Qed.

(** C5: once a provider's acceptance is recorded, no later run, backup, crash or
    answer loses it: the row stays, for the same commitment, is never rejected
    or expired, and its status only moves to newer ones. *)
Theorem acceptance_is_permanent s s' id o :
  reachable s → later s s' → honest (n_trace s') →
  d_liquidity (n_db s) !! id = Some o → durably_accepted o = true →
  ∃ o', d_liquidity (n_db s') !! id = Some o' ∧ lo_commitment o' = lo_commitment o ∧
    durably_accepted o' = true ∧ is_rejected o' = false ∧
    ∀ v, lo_status o = Some v → ∃ v', lo_status o' = Some v' ∧ ls_issued_at v <= ls_issued_at v'.
Proof.
  intros Hr Hl Hh Ho Ha. destruct (later_keeps s s' Hr Hl Hh id o Ho) as (o' & Ho' & Hadv).
  destruct (reachable_sound s' (later_trans _ _ _ Hr Hl) Hh) as [HI _ _].
  destruct (accepted_advances id o o' (i_ok _ _ _ HI id o' Ho') Hadv Ha).
  exists o'. destruct Hadv. by split_and!.
Qed.

(** C17: a row is only marked as expired without acceptance after the provider
    answered that it does not know the request and the clock passed the expiry
    with its grace, and a gateway only as attached after its registration
    succeeded. *)
Theorem marks_have_evidence s id o :
  reachable s → honest (n_trace s) → d_liquidity (n_db s) !! id = Some o →
  (lo_expired_without_acceptance o = true → 0 <= lc_expires_at (lo_commitment o) →
     (∃ requester provider at_ d,
        ECall (Recv (GetAllocationStatus requester provider id at_)) (inr StatusNotFound) d
          ∈ n_trace s) ∧
     ∃ now d, ECall Now now d ∈ n_trace s ∧ is_past_expiry_grace (lo_commitment o) now = true) ∧
  (∀ api, lo_verified_gateway_api o = Some api →
     ∃ d, ECall (Recv (RegisterGateway api)) (inr tt) d ∈ n_trace s).
Proof.
  intros Hr Hh Ho. destruct (reachable_sound s Hr Hh) as [HI _ _]. split.
  - intros He Hu. destruct (i_expired _ _ _ HI id o Ho He) as [Hd Hp].
    split; [by apply seen_disclaimed|].
    destruct (seen_clock (n_trace s)) as [d Hin]; [|by eexists _, d].
    revert Hp. unfold is_past_expiry_grace, saturating_add_u, EXPIRY_GRACE, u64_max.
    rewrite Z.ltb_lt. lia.
  - intros api Hv. apply seen_registered. by eapply (i_verified _ _ _ HI).
Qed.

End Safe.
End KeepSafe.
