(* ===== verification/FaKeepDocs.v ===== *)
(** * The recovery documents of a client

    Documents are numbered so that the newest one a device published, or the one
    it was restored from, is the one another device restores.  What any run may
    do to the formed record and to the numbering is a relation [moves] that
    every statement of every handler satisfies.

    Module [KeepDocs] orders the documents; module [Takeover] follows them to
    another device. *)

From S2P Require Import Prelude LmSchema LmProg LmAllocations FaSchema FaQuotes FaStore FaLiquidity FaBackup FaUpkeep FaKeeping FaKeepRuns FaKeepSafe.
From stdpp Require Import base gmap strings list sorting.
From Stdlib Require Import ZArith Lia.
Open Scope Z_scope.

Module KeepDocs.
Import Ledger Allocations Daemon Fa Quotes Store Requester Backup Upkeep Keeper Journal Keeping KeepRuns KeepSafe.

(** ** What a trace holds of documents *)

Definition generation (p : BackupPayload) : Z := bp_snapshot_generation p.

(** A document prepared for publication, or the one a restore installed. *)
Definition document_of (e : Event) : option BackupPayload :=
  match e with
  | EPrepared p => Some (pb_payload p)
  | EStmt d d' =>
      match d_formed d, d_formed d' with
      | None, Some f =>
          match ff_origin f with FromBackup => Some (ff_payload f) | ThisDevice => None end
      | _, _ => None
      end
  | _ => None
  end.
(** Newest first. *)
Definition documents (tr : list Event) : list BackupPayload := omap document_of tr.
Definition prepared_of (e : Event) : option PreparedFaBackup :=
  match e with EPrepared p => Some p | _ => None end.
Definition prepared (tr : list Event) : list PreparedFaBackup := omap prepared_of tr.

(** No seat of a restored record is rebound before its first document is
    prepared. *)
Definition careful_event (e : Event) : Prop :=
  match e with
  | EStmt d d' => ∀ f f', d_backup_generation d = None → d_formed d = Some f →
      d_formed d' = Some f' → ff_origin f = FromBackup →
      bp_past_hosts (ff_payload f') = bp_past_hosts (ff_payload f)
  | _ => True
  end.
Definition careful (tr : list Event) : Prop := ∀ e, e ∈ tr → careful_event e.

(** ** What a statement may do *)

Definition moves (d d' : Db) : Prop :=
  d_backup_generation d' = d_backup_generation d ∧
  (d_formed d' = d_formed d ∨
   d_formed d = None ∧ is_Some (d_formed d') ∨
   ∃ f f', d_formed d = Some f ∧ d_formed d' = Some f' ∧ ff_origin f' = ff_origin f ∧
     (d_backup_generation d = None →
        ff_payload f' = ff_payload f ∨ generation (ff_payload f) < generation (ff_payload f') ∨
        bp_past_hosts (ff_payload f') ≠ bp_past_hosts (ff_payload f))).
Definition still (d d' : Db) : Prop :=
  d_backup_generation d' = d_backup_generation d ∧ d_formed d' = d_formed d.
Lemma still_moves d d' : still d d' → moves d d'.
Proof. intros [H1 H2]. split; [done|by left]. Qed.

Section Docs.
Context {CR : Crypto} {RC : RequesterCrypto} {BC : BackupCodec} {IN : Invites} {INok : InvitesOk}.

Definition moving {A} (t : FaTx A) : Prop :=
  ∀ d d' a g fresh, Inv (core d) g fresh → t d = Ok (d', a) → moves d d'.
Fixpoint does {A} (p : Prog A) : Prop :=
  match p with
  | Done _ => True
  | Stmt t k => moving t ∧ ∀ r, does (k r)
  | Call c k => ∀ a, does (k a)
  end.

Lemma does_pbind {A B} (p : Prog A) (f : A -> Prog B) :
  does p → (∀ a, does (f a)) → does (pbind p f).
Proof.
  induction p as [a|C t k IH|c k IH]; cbn; [auto| |].
  - intros [H1 H2] Hf. split; [done|]. auto.
  - intros H1 Hf a. auto.
Qed.
Lemma does_mbind {A B} (p : M A) (k : A -> M B) : does p → (∀ a, does (k a)) → does (p ≫= k).
Proof. intros Hp Hk. apply does_pbind; [done|]. intros [a|e|]; [apply Hk|done..]. Qed.
Lemma does_stmt {A} (t : FaTx A) : moving t → does (stmt t).
Proof. by split. Qed.
Lemma does_request r : does (request r).
Proof. apply does_mbind; [done|]. intros []. apply does_mbind; [done|]. by intros [e|a]. Qed.

Lemma moving_still {A} (t : FaTx A) : (∀ d d' a, t d = Ok (d', a) → still d d') → moving t.
Proof. intros H d d' a g fresh _ Ht. by eapply still_moves, H. Qed.

Lemma moving_get {A} (f : Db -> A) : moving (tx_get f).
Proof. apply moving_still. by intros d d' a [-> _]%tx_get_Ok. Qed.
Lemma moving_load fa_id : moving (load_recovery fa_id).
Proof.
  intros d d' r g fresh HI H. destruct (load_recovery_reads _ _ _ _ _ _ HI H) as [-> _].
  by apply still_moves.
Qed.
Lemma moving_migrate : moving migrate_schema_11.
Proof. intros d d' u g fresh HI H. rewrite (migrate_reads _ _ _ _ _ HI H). by apply still_moves. Qed.
Lemma moving_renew lease now : moving (renew_driver_lease lease now).
Proof.
  apply moving_still. intros d d' a H. unfold renew_driver_lease in H. tx_inv.
  destruct (d_lease d); tx_inv. repeat case_match; by tx_inv.
Qed.
Lemma moving_acquire now l r owner : moving (acquire_driver_lease now l r owner).
Proof.
  apply moving_still. intros d d' a H. unfold acquire_driver_lease in H. tx_inv. case_match; by tx_inv.
Qed.
Lemma moving_release owner : moving (release_driver_lease_owner owner).
Proof.
  apply moving_still. intros d d' a H. unfold release_driver_lease_owner in H. tx_inv.
  repeat case_match; by tx_inv.
Qed.
Lemma moving_operation id : moving (load_liquidity_operation id).
Proof. apply moving_still. intros d d' a H. unfold load_liquidity_operation, the_operation in H. by tx_inv. Qed.
Lemma moving_insert o : moving (insert_liquidity_operation o).
Proof. apply moving_still. by intros d d' u [_ ->]%insert_liquidity_operation_Ok. Qed.
Lemma moving_response id r : moving (store_liquidity_response id r).
Proof. apply moving_still. by intros d d' u (o & o' & _ & -> & _)%store_response_Ok. Qed.
Lemma moving_status id v : moving (store_liquidity_status id v).
Proof. apply moving_still. by intros d d' u (o & o' & _ & -> & _)%store_status_Ok. Qed.
Lemma moving_verified id api : moving (mark_liquidity_gateway_view_verified id api).
Proof. apply moving_still. by intros d d' u (o & _ & _ & ->)%mark_verified_Ok. Qed.
Lemma moving_expired id : moving (mark_liquidity_expired_without_acceptance id).
Proof. apply moving_still. by intros d d' u (o & _ & _ & _ & ->)%mark_expired_Ok. Qed.
Lemma moving_find matches : moving (find_live_liquidity_operation matches).
Proof. apply moving_still. by intros d d' r [-> _]%find_live_Ok. Qed.
Lemma moving_payload fa_id : moving (formed_federation_payload fa_id).
Proof.
  apply moving_still. intros d d' p H. unfold formed_federation_payload in H. tx_inv.
  destruct (negb _); by tx_inv.
Qed.
Lemma moving_complete environment : moving (complete_recovery environment).
Proof. apply moving_still. by intros d d' u ->%tx_put_Ok. Qed.
Lemma moving_restore fa_id p recovery now : moving (restore_backup_payload fa_id p recovery now).
Proof.
  intros d d' u g fresh _ (_ & Hn & _ & _ & fid & Hc & Hb)%restore_Ok. injection Hc as _ Hf _ _.
  split; [done|]. right; left. split; [done|]. by rewrite Hf.
Qed.
Lemma next_generation_Ok n n' : next_generation n = Ok n' → n' = n + 1.
Proof. unfold next_generation, checked_add_u, try_from_u. case_match; by intros [= <-]. Qed.
Lemma moving_reconcile fa_id name invite : moving (reconcile_formed_federation fa_id name invite).
Proof.
  intros d d' u g fresh _ H. unfold reconcile_formed_federation in H.
  apply tx_bind_Ok in H as (d1 & o & H1 & H). apply tx_get_Ok in H1 as [-> ->].
  apply tx_bind_Ok in H as (d1 & f & H1 & H). apply tx_lift_Ok in H1 as [-> Hf].
  destruct (d_formed d) as [f0|] eqn:Hd; [|done]. injection Hf as ->.
  destruct (negb _); [done|]. apply tx_bind_Ok in H as (d1 & o & H1 & H). apply tx_get_Ok in H1 as [-> ->].
  apply tx_bind_Ok in H as (d1 & p & H1 & H). apply tx_lift_Ok in H1 as [-> Hp].
  apply tx_bind_Ok in H as (d1 & u1 & Ho & H). apply tx_put_Ok in H as ->.
  assert (d_backup_generation d1 = d_backup_generation d) as Hg.
  { destruct (bp_liquidity p); unfold put_operation in Ho; tx_inv; [|done]. case_match; by tx_inv. }
  split; [done|]. right; right. eexists f, _. split; [done|]. split; [reflexivity|].
  split; [done|]. intros Hn. rewrite Hn in Hp. cbn [ff_payload].
  case_bool_decide; [injection Hp as ->; by left|].
  apply res_bind_Ok in Hp as (n & Hgen & [= <-]). right; left.
  apply next_generation_Ok in Hgen as ->. unfold generation. cbn. lia.
Qed.
Lemma moving_seat fa_id i source destination : moving (rebind_federation_seat fa_id i source destination).
Proof.
  intros d d' u g fresh _ H. unfold rebind_federation_seat in H. tx_inv. case_match; [done|]. tx_inv.
  case_match; [tx_inv; split; [done|]; by left|]. case_match; [done|]. tx_inv.
  split; [done|]. right; right. eexists _, _. split; [done|]. split; [reflexivity|].
  split; [done|]. intros _. right; right. cbn. intros E%(f_equal length). rewrite length_app in E.
  cbn in E. lia.
Qed.
Lemma moves_transfer t d d' : moves d d' → moves d (set_transfer t d').
Proof. done. Qed.
Lemma moving_transfer fa_id write lease now : moving (write_guardian_transfer fa_id write lease now).
Proof.
  intros d d' u g fresh HI H. unfold write_guardian_transfer in H. tx_inv. case_match; [done|]. tx_inv.
  destruct write as [t|t|t| |].
  - case_match; tx_inv. by apply still_moves.
  - case_match; tx_inv. by apply still_moves.
  - case_match; [done|]. destruct (gt_stage t); [done|]. apply tx_bind_Ok in H as (d1 & u1 & Hseat & H).
    apply tx_put_Ok in H as ->. apply moves_transfer. by eapply moving_seat.
  - tx_inv. by apply still_moves.
  - tx_inv. by apply still_moves.
Qed.

End Docs.

Create HintDb docs.
#[export] Hint Resolve moving_get moving_load moving_migrate moving_renew moving_acquire moving_release
  moving_operation moving_insert moving_response moving_status moving_verified moving_expired
  moving_find moving_payload moving_complete moving_restore moving_reconcile moving_transfer
  does_request does_stmt : docs.

(** Go through a program statement by statement. *)
Ltac does_step :=
  match goal with
  | |- does (mbind _ _) => apply does_mbind; [|intros ?]
  | |- does (pbind _ _) => apply does_pbind; [|intros ?]
  | |- does (stmt _) => apply does_stmt
  | |- does (request _) => apply does_request
  | |- does (match ?x with _ => _ end) => destruct x
  | |- does (let '_ := ?x in _) => destruct x
  | |- does (Done _) => exact I
  | |- does (mret _) => exact I
  | |- does (lift _) => exact I
  | |- does (fail _) => exact I
  | |- does (ask _) => intros ?; exact I
  | |- moving _ => solve [auto with docs nocore]
  end.

Section Handlers.
Context {CR : Crypto} {RC : RequesterCrypto} {BC : BackupCodec} {IN : Invites} {INok : InvitesOk}.

Lemma does_renew lease : does (renew lease).
Proof. unfold renew. repeat does_step. Qed.
Lemma does_validate : does validate_for_start.
Proof. unfold validate_for_start. repeat does_step. Qed.
Lemma does_driver {A} (p : DriverLease -> M A) : (∀ lease, does (p lease)) → does (driver_run p).
Proof. intros Hp. unfold driver_run. repeat (apply Hp || does_step). Qed.
Lemma does_answered {A} (r : FaError + A) : does (answered r).
Proof. by destruct r. Qed.
Lemma does_public_key : does public_key.
Proof. unfold public_key. repeat does_step. Qed.
Lemma does_sign : does sign_public_rpc.
Proof. unfold sign_public_rpc. repeat (apply does_answered || does_step). Qed.
Lemma does_authority fa_id : does (post_formed_authority fa_id).
Proof. unfold post_formed_authority. repeat does_step. Qed.

(** The same, by the programs' own lemmas first. *)
Ltac does_known :=
  match goal with
  | |- does (renew _) => apply does_renew
  | |- does validate_for_start => apply does_validate
  | |- does public_key => apply does_public_key
  | |- does sign_public_rpc => apply does_sign
  | |- does (post_formed_authority _) => apply does_authority
  | |- does (driver_run _) => apply does_driver; intros ?
  | H : ∀ _, does (?f _) |- does (?f _) => apply H
  | H : ∀ _ _ _ _, does (?f _ _ _ _) |- does (?f _ _ _ _) => apply H
  | |- _ => does_step
  end.
Lemma does_context id : does (formed_liquidity_context id).
Proof. unfold formed_liquidity_context. repeat does_known. Qed.
Lemma does_snapshot id : does (stored_snapshot id).
Proof. unfold stored_snapshot. repeat does_known. Qed.
Lemma does_submit o cx endpoint lease : does (submit_prepared_liquidity o cx endpoint lease).
Proof. pose proof does_snapshot. unfold submit_prepared_liquidity. repeat does_known. Qed.
Lemma does_attach id : does (attach_completed_gateway id).
Proof. pose proof does_snapshot. unfold attach_completed_gateway. repeat does_known. Qed.
Lemma does_start id provider amounts : does (start_liquidity id provider amounts).
Proof.
  pose proof does_context. pose proof does_submit. pose proof does_attach.
  unfold start_liquidity, ensure_no_live_liquidity_operation, refresh_provider. repeat does_known.
Qed.
Lemma does_resume_liquidity id : does (resume_liquidity id).
Proof.
  pose proof does_context. pose proof does_submit. pose proof does_attach. pose proof does_snapshot.
  unfold resume_liquidity, resume_from_status, refresh_provider. repeat does_known.
Qed.
Lemma does_begin fa_id t : does (begin_transfer fa_id t).
Proof. unfold begin_transfer, maintenance_authority. repeat does_known. Qed.
Lemma does_resume : does resume.
Proof.
  unfold resume, reconcile_formed, adopt_transferred_seat, publish_formed. repeat does_known.
Qed.
Lemma does_restore fa_id author key environment required :
  does (restore_from_relays fa_id author key environment required).
Proof. unfold restore_from_relays. repeat does_known. Qed.
Lemma does_body h : does (body h).
Proof.
  destruct h; cbn [body]; apply does_pbind; try done;
    auto using does_start, does_resume_liquidity, does_begin, does_resume, does_restore.
Qed.

(** ** Steps beside a run *)

Lemma moving_other o : moving (other_tx o).
Proof.
  intros d d' u g fresh HI H. destruct o as [f seats|fid|fa_id write lease now]; cbn [other_tx] in H.
  - tx_inv. case_match; tx_inv. by apply still_moves.
  - unfold confirm_formation_meta_target in H. apply tx_bind_Ok in H as (d1 & f & H1 & H).
    apply active_formation_reads in H1 as ->. case_match; [done|].
    apply record_formed_Ok in H as (Hn & r & seats & _ & _ & _ & ->).
    split; [done|]. right; left. by split.
  - destruct write; try discriminate H; by eapply moving_transfer.
Qed.
Lemma still_confirm relay c d d' u : record_backup_confirmation relay c d = Ok (d', u) → still d d'.
Proof. unfold record_backup_confirmation. intros H. tx_inv. case_match; by tx_inv. Qed.

(** What a prepared document is. *)
Lemma backup_payload_Ok now d d' p : backup_payload now d = Ok (d', p) →
  ∃ f formed_hash hash liquidity, d_formed d = Some f ∧
    live_commitment None (ordered_operations d) = Ok liquidity ∧
    pb_payload p = {| bp_schema_version := BACKUP_SCHEMA_VERSION;
                      bp_snapshot_generation := generation (pb_payload p);
                      bp_federation_invite := bp_federation_invite (ff_payload f);
                      bp_seats := bp_seats (ff_payload f); bp_liquidity := liquidity;
                      bp_past_hosts := bp_past_hosts (ff_payload f) |} ∧
    semantic_hash (ff_payload f) = Ok formed_hash ∧
    semantic_hash (pb_payload p) = Ok hash ∧
    d' = set_backup_generation (Some
      {| bg_generation := generation (pb_payload p); bg_semantic_hash := hash;
         bg_document_hash := pb_document_hash p; bg_nostr_created_at := pb_created_at p |}) d ∧
    match d_backup_generation d with
    | Some b =>
        if bg_semantic_hash b =? hash
        then generation (pb_payload p) = bg_generation b ∧
             pb_created_at p = saturating_add_u u64_max (bg_nostr_created_at b)
               (saturating_sub_u now (bg_nostr_created_at b) / BACKUP_REFRESH_INTERVAL_SECS
                * BACKUP_REFRESH_INTERVAL_SECS)
        else generation (pb_payload p) = bg_generation b + 1 ∧
             pb_created_at p = Z.max now (saturating_add_u u64_max (bg_nostr_created_at b) 1)
    | None =>
        generation (pb_payload p) =
          generation (ff_payload f) + (if formed_hash =? hash then 0 else 1)
    end.
Proof.
  unfold backup_payload. intros H.
  apply tx_bind_Ok in H as (d1 & o & H1 & H). apply tx_get_Ok in H1 as [-> ->].
  apply tx_bind_Ok in H as (d1 & f & H1 & H). apply tx_lift_Ok in H1 as [-> Hf].
  destruct (d_formed d) as [f0|] eqn:Ef; [|done]. cbn in Hf. destruct (ff_backup_eligible f0); [|done].
  injection Hf as ->.
  apply tx_bind_Ok in H as (d1 & fh & H1 & H). apply tx_lift_Ok in H1 as [-> Hfh].
  apply tx_bind_Ok in H as (d1 & rows & H1 & H). apply tx_get_Ok in H1 as [-> ->].
  apply tx_bind_Ok in H as (d1 & l & H1 & H). apply tx_lift_Ok in H1 as [-> Hl].
  apply tx_bind_Ok in H as (d1 & hash & H1 & H). apply tx_lift_Ok in H1 as [-> Hh].
  apply tx_bind_Ok in H as (d1 & prior & H1 & H). apply tx_get_Ok in H1 as [-> ->].
  apply tx_bind_Ok in H as (d1 & gen & H1 & H). apply tx_lift_Ok in H1 as [-> Hgen].
  apply tx_bind_Ok in H as (d1 & doc & H1 & H). apply tx_lift_Ok in H1 as [-> Hdoc].
  tx_inv. exists f, fh, hash, l. split; [done|]. split; [exact Hl|]. split; [done|]. split; [done|].
  split; [exact Hh|]. split; [done|].
  cbn. unfold generation. destruct (d_backup_generation d) as [b|].
  - destruct (_ =? hash); [injection Hgen as <-; done|]. apply next_generation_Ok in Hgen as ->. done.
  - destruct (fh =? hash); [injection Hgen as <-; cbn; lia|]. apply next_generation_Ok in Hgen as ->. done.
Qed.

End Handlers.

(** ** Rule induction over the documents' steps *)

Section Induct.
Context {CR : Crypto} {RC : RequesterCrypto} {BC : BackupCodec} {IN : Invites} {INok : InvitesOk}.
Variable D : Db -> list Event -> Prop.
Hypothesis D_opened : D empty_db [].
Hypothesis D_call : ∀ c a at_ d tr, D d tr → D d (ECall c a at_ :: tr).
Hypothesis D_crash : ∀ d tr, D d tr → D d (ECrash :: tr).
Hypothesis D_stmt : ∀ d d' tr, moves d d' → D d tr → D d' (EStmt d d' :: tr).
Hypothesis D_prepare : ∀ now d d' p tr, backup_payload now d = Ok (d', p) → D d tr →
  D d' (EPrepared p :: EStmt d d' :: tr).

Definition Kept (s : Node) : Prop :=
  D (n_db s) (n_trace s) ∧ ∀ p, n_running s = Some p → does p.

Lemma moving_run {A} (t : FaTx A) d d' r g fresh :
  moving t → Inv (core d) g fresh → run_tx t d = (d', r) → moves d d'.
Proof.
  intros Hm HI Ht. unfold run_tx in Ht.
  destruct (t d) as [[d1 a]|e|] eqn:E; injection Ht as <- <-;
    [by eapply Hm|by apply still_moves..].
Qed.
Lemma work_kept w s s' : Kept s → act (Work w) s = Some s' → Kept s'.
Proof.
  intros [Hd Hr] Ha. destruct s as [d fresh running tr].
  cbn [act n_db n_fresh n_running n_trace] in *. destruct (run_tx _ d) as [d' r] eqn:Ht.
  set (l := match r with Ok (Some p) => [EPrepared p] | _ => [] end) in *.
  assert (s' = {| n_db := d'; n_fresh := fresh; n_running := running;
                  n_trace := l ++ EStmt d d' :: tr |}) as -> by (destruct running; congruence).
  split; [|done]. cbn in *. unfold run_tx in Ht.
  destruct (worker_tx w d) as [[d1 a]|e|] eqn:Et; injection Ht as <- <-; cbn in l; subst l; cbn in *;
    [|by apply D_stmt; [apply still_moves|]..].
  destruct w; cbn in Et; apply tx_bind_Ok in Et as (d2 & b & H1 & H2); injection H2 as -> <-; cbn in *.
  - by eapply D_prepare.
  - apply D_stmt; [by eapply still_moves, still_confirm|done].
  - tx_inv. apply D_stmt; [by apply still_moves|done].
Qed.
Lemma act_kept c s s' : Sound s → Kept s → act c s = Some s' → Kept s'.
Proof.
  destruct (match c with Work _ => true | _ => false end) eqn:Hno.
  { destruct c; try discriminate Hno. intros _. apply work_kept. }
  intros [HI _ _] [Hd Hr] Ha. destruct s as [d fresh running tr]. cbn in *.
  destruct c as [h| |busy|o| | |w|o]; try discriminate Hno; destruct running as [p|];
    try discriminate Ha; cbn [act n_db n_fresh n_running n_trace] in Ha.
  - injection Ha as <-. split; [done|]. intros p [= <-]. apply does_body.
  - destruct p as [?|B t k|c k]; try discriminate Ha; cbn beta iota in Ha.
    destruct (run_tx t d) as [d' r] eqn:Ht. injection Ha as <-. destruct (Hr _ eq_refl) as [H1 H2].
    split; [|intros p [= <-]; apply H2]. apply D_stmt; [by eapply moving_run|done].
  - destruct p as [?|B t k|c k]; try discriminate Ha; cbn beta iota in Ha. injection Ha as <-.
    destruct (Hr _ eq_refl) as [_ H]. split; [|intros p [= <-]; apply H].
    apply D_stmt; [by apply still_moves|done].
  - destruct p as [?|B t k|c k]; try discriminate Ha; cbn beta iota in Ha. injection Ha as <-.
    pose proof (Hr _ eq_refl) as H. split; [by apply D_call|]. intros p [= <-]. apply H.
  - destruct p; try discriminate Ha. injection Ha as <-. by split.
  - injection Ha as <-. split; [by apply D_crash|done].
  - injection Ha as <-. split; [by apply D_crash|done].
  - destruct (run_tx _ d) as [d' r] eqn:Ht. injection Ha as <-. split; [|done].
    apply D_stmt; [eapply moving_run; [apply moving_other|done..]|done].
Qed.
Lemma reachable_kept s : reachable s → honest (n_trace s) → D (n_db s) (n_trace s).
Proof.
  intros Hr Hh. cut (Kept s); [by intros [? _]|]. revert Hh.
  induction Hr as [|c s1 s2 Hl IH Ha]; intros Hh; [by split|].
  pose proof (honest_suffix _ _ (act_trace _ _ _ Ha) Hh) as Hh1.
  eapply act_kept; [by apply reachable_sound|by apply IH|done].
Qed.

End Induct.

(** ** The order of the documents *)

(** What is assumed of the digest. *)
Class CollisionFree `{!Crypto} : Prop :=
  sha256_injective l l' : sha256 l = sha256 l' → l = l'.

Section Order.
Context {CR : Crypto} {RC : RequesterCrypto} {BC : BackupCodec} {IN : Invites} {INok : InvitesOk}.
Context {BCok : BackupCodecOk} {CF : CollisionFree}.

Definition newer (p q : BackupPayload) : Prop := p = q ∨ generation q < generation p.
Lemma newer_trans p q r : newer p q → newer q r → newer p r.
Proof. unfold newer. intros [->|?] [->|?]; auto. right. lia. Qed.

Lemma semantic_hash_inj p q h : semantic_hash p = Ok h → semantic_hash q = Ok h →
  with_generation 0 p = with_generation 0 q.
Proof.
  unfold semantic_hash, encoded_hash. intros Hp Hq.
  apply res_bind_Ok in Hp as (b & Hb & [= Hp]). apply res_bind_Ok in Hq as (b' & Hb' & [= Hq]).
  destruct (cbor_encode (with_generation 0 p)) as [e|] eqn:E; [|done]. injection Hb as ->.
  destruct (cbor_encode (with_generation 0 q)) as [e'|] eqn:E'; [|done]. injection Hb' as ->.
  assert (b = b') as <- by (apply sha256_injective; congruence).
  apply cbor_roundtrip in E, E'. congruence.
Qed.
Lemma same_content p q h : semantic_hash p = Ok h → semantic_hash q = Ok h →
  generation p = generation q → p = q.
Proof.
  intros Hp Hq Hg. pose proof (semantic_hash_inj p q h Hp Hq) as E.
  destruct p, q. unfold generation, with_generation in *. cbn in *. congruence.
Qed.

Record Docs (d : Db) (tr : list Event) : Prop := {
  do_none : d_formed d = None → d_backup_generation d = None ∧ documents tr = [];
  do_first : ∀ f, d_formed d = Some f → d_backup_generation d = None →
    match ff_origin f with
    | FromBackup => ∃ r, documents tr = [r] ∧ newer (ff_payload f) r
    | ThisDevice => documents tr = []
    end;
  do_last : ∀ b, d_backup_generation d = Some b → ∃ p ps, documents tr = p :: ps ∧
    generation p = bg_generation b ∧ semantic_hash p = Ok (bg_semantic_hash b);
  do_sorted : StronglySorted newer (documents tr)
}.

Lemma docs_skip d e tr : document_of e = None → Docs d tr → Docs d (e :: tr).
Proof.
  intros He []. assert (E : documents (e :: tr) = documents tr) by (cbn; by rewrite He).
  split; rewrite E; done.
Qed.
Lemma docs_stmt d d' tr : Docs d tr → moves d d' → careful_event (EStmt d d') →
  Docs d' (EStmt d d' :: tr).
Proof.
  intros [Hn Hf Hl Hs] [Hb Hm] Hc.
  destruct (d_formed d) as [f|] eqn:Ef.
  - assert (E : documents (EStmt d d' :: tr) = documents tr) by (cbn; by rewrite Ef).
    assert (∃ f', d_formed d' = Some f' ∧ ff_origin f' = ff_origin f ∧
      (d_backup_generation d = None → ff_origin f = FromBackup → newer (ff_payload f') (ff_payload f)))
      as (f' & Ef' & Ho & Hnew).
    { destruct Hm as [Hm|[[? _]|(f0 & f' & [= <-] & Ef' & Ho & Hm)]]; [|done|].
      - exists f. split_and!; [done..|]. intros _ _. by left.
      - exists f'. split_and!; [done..|]. intros H0 H1. pose proof (Hc f f' H0 Ef Ef' H1).
        destruct (Hm H0) as [->|[?|?]]; [by left|by right|done]. }
    split; rewrite E, ?Hb; [congruence| |done|done].
    intros f1 Hf1 Hb0. rewrite Ef' in Hf1. injection Hf1 as <-. rewrite Ho.
    specialize (Hf f eq_refl Hb0). destruct (ff_origin f); [done|].
    destruct Hf as (r & Hr & Hfr). exists r. split; [done|].
    eapply newer_trans; [|exact Hfr]. auto.
  - destruct (Hn eq_refl) as [Hb0 Hd]. rewrite Hb0 in Hb.
    destruct (d_formed d') as [f'|] eqn:Ef'.
    + assert (E : documents (EStmt d d' :: tr) =
        match ff_origin f' with FromBackup => [ff_payload f'] | ThisDevice => [] end).
      { cbn. rewrite Ef, Ef'. cbn. destruct (ff_origin f'); cbn; unfold documents in Hd; by rewrite Hd. }
      split; rewrite E; [congruence| |congruence|].
      * intros f1 Hf1 _. rewrite Ef' in Hf1. injection Hf1 as <-. destruct (ff_origin f'); [done|].
        exists (ff_payload f'). split; [done|by left].
      * destruct (ff_origin f'); repeat constructor.
    + assert (E : documents (EStmt d d' :: tr) = documents tr) by (cbn; by rewrite Ef, Ef').
      split; rewrite E; [done|congruence|congruence|done].
Qed.

(** A document newer than the newest one is newer than all. *)
Lemma sorted_newer p q ps : StronglySorted newer (q :: ps) → newer p q →
  StronglySorted newer (p :: q :: ps).
Proof.
  intros Hs Hn. constructor; [done|]. constructor; [done|].
  apply StronglySorted_inv in Hs as [_ Hs]. eapply Forall_impl; [exact Hs|].
  intros r. by apply newer_trans.
Qed.
Lemma docs_prepare now d d' p tr : Docs d tr → backup_payload now d = Ok (d', p) →
  Docs d' (EPrepared p :: EStmt d d' :: tr).
Proof.
  intros [Hn Hf Hl Hs] (f & fh & hash & l & Ef & _ & _ & Hfh & Hh & -> & Hg)%backup_payload_Ok.
  assert (E : documents (EPrepared p :: EStmt d (set_backup_generation (Some
      {| bg_generation := generation (pb_payload p); bg_semantic_hash := hash;
         bg_document_hash := pb_document_hash p; bg_nostr_created_at := pb_created_at p |}) d) :: tr)
      = pb_payload p :: documents tr) by (cbn; by rewrite Ef).
  split; rewrite E; cbn; [congruence|done| |].
  - intros b [= <-]. by exists (pb_payload p), (documents tr).
  - destruct (d_backup_generation d) as [b|] eqn:Eb.
    + destruct (Hl b eq_refl) as (q & ps & Hd & Hq & Hqh). rewrite Hd in *. apply sorted_newer; [done|].
      destruct (Z.eqb_spec (bg_semantic_hash b) hash) as [<-|_].
      * left. destruct Hg as [Hg _]. eapply same_content; [done..|congruence].
      * right. lia.
    + specialize (Hf f Ef eq_refl). destruct (ff_origin f); [rewrite Hf; repeat constructor|].
      destruct Hf as (r & Hr & Hfr). rewrite Hr. apply sorted_newer; [repeat constructor|].
      eapply newer_trans; [|exact Hfr]. destruct (Z.eqb_spec fh hash) as [->|_].
      * left. eapply same_content; [done..|lia].
      * right. lia.
Qed.

Lemma docs_opened : Docs empty_db [].
Proof. split; cbn; [done..|constructor]. Qed.

Lemma reachable_docs s : reachable s → honest (n_trace s) → careful (n_trace s) →
  Docs (n_db s) (n_trace s).
Proof.
  intros Hr Hh. apply (reachable_kept (λ d tr, careful tr → Docs d tr)); try done.
  - intros _. apply docs_opened.
  - intros c a at_ d tr IH Hc. apply docs_skip; [done|]. apply IH. intros e He. apply Hc. by right.
  - intros d tr IH Hc. apply docs_skip; [done|]. apply IH. intros e He. apply Hc. by right.
  - intros d d' tr Hm IH Hc. apply docs_stmt; [|done|apply Hc; by left].
    apply IH. intros e He. apply Hc. by right.
  - intros now d d' p tr Hp IH Hc. eapply docs_prepare; [|done].
    apply IH. intros e He. apply Hc. by do 2 right.
Qed.

(** C12: the recovery documents of a device, the one it was restored from
    included, are ordered by their generation: a later document repeats an
    earlier one exactly or has a higher generation, provided no seat of a
    restored record is rebound before its first document is prepared. *)
Theorem documents_are_ordered s :
  reachable s → honest (n_trace s) → careful (n_trace s) →
  StronglySorted newer (documents (n_trace s)).
Proof. intros Hr Hh Hc. by destruct (reachable_docs s Hr Hh Hc). Qed.

(** *** The times of the events *)

(** A relay keeps the event of an author with the latest time.  Times saturate
    at the largest [u64]. *)
Definition supersedes (p q : PreparedFaBackup) : Prop :=
  pb_payload p = pb_payload q ∧ (pb_created_at q <= pb_created_at p ∨ u64_max <= pb_created_at p) ∨
  generation (pb_payload q) < generation (pb_payload p) ∧
    (pb_created_at q < pb_created_at p ∨ u64_max <= pb_created_at p).

Definition Announced (d : Db) (tr : list Event) : Prop :=
  StronglySorted supersedes (prepared tr) ∧
  match d_backup_generation d with
  | None => prepared tr = []
  | Some b => ∃ p ps, prepared tr = p :: ps ∧ generation (pb_payload p) = bg_generation b ∧
      semantic_hash (pb_payload p) = Ok (bg_semantic_hash b) ∧ pb_created_at p = bg_nostr_created_at b
  end.

(** A prepared document supersedes what the last one superseded. *)
Lemma prepare_supersedes now d d' p tr : Announced d tr → backup_payload now d = Ok (d', p) →
  StronglySorted supersedes (p :: prepared tr).
Proof.
  intros [Hs Hb] (f & fh & hash & l & _ & _ & _ & _ & Hh & _ & Hg)%backup_payload_Ok.
  destruct (d_backup_generation d) as [b|]; [|rewrite Hb; repeat constructor].
  destruct Hb as (q & ps & Hd & Hq & Hqh & Hqc). constructor; [done|].
  assert (Hpq : ∀ r, r = q ∨ supersedes q r → supersedes p r).
  { unfold supersedes. destruct (Z.eqb_spec (bg_semantic_hash b) hash) as [<-|_].
    - destruct Hg as [Hg Hc]. assert (pb_payload p = pb_payload q) as E.
      { eapply same_content; [done..|congruence]. }
      assert (pb_created_at q <= pb_created_at p ∨ u64_max <= pb_created_at p) as Hle.
      { rewrite Hc, <- Hqc. unfold saturating_add_u, saturating_sub_u, BACKUP_REFRESH_INTERVAL_SECS.
        assert (0 <= Z.max 0 (now - pb_created_at q) / (15 * 24 * 60 * 60)) by (apply Z.div_pos; lia).
        lia. }
      rewrite E. intros r [->|[[-> ?]|[? ?]]]; [left; split; [done|lia]|left; split; [done|lia]|].
      right. split; [done|]. revert H. lia.
    - destruct Hg as [Hg Hc].
      assert (pb_created_at q < pb_created_at p ∨ u64_max <= pb_created_at p) as Hlt.
      { rewrite Hc, <- Hqc. unfold saturating_add_u. lia. }
      intros r [->|[[<- ?]|[? ?]]]; right; split; lia. }
  rewrite Hd in *. constructor; [apply Hpq; by left|].
  apply StronglySorted_inv in Hs as [_ Hs]. eapply Forall_impl; [exact Hs|]. intros r Hr.
  apply Hpq. by right.
Qed.

(** C18: among the documents a device prepares, each later one carries a later
    event time than those it differs from, so a relay that keeps the latest
    event of the device keeps its newest document. *)
Theorem announcements_supersede s :
  reachable s → honest (n_trace s) → StronglySorted supersedes (prepared (n_trace s)).
Proof.
  intros Hr Hh. cut (Announced (n_db s) (n_trace s)); [by intros [? _]|].
  apply (reachable_kept Announced); try done.
  - split; [constructor|done].
  - intros d d' tr [Hb _]. unfold Announced. by rewrite Hb.
  - intros now d d' p tr Hp Ha. split; [by eapply prepare_supersedes|].
    apply backup_payload_Ok in Hp as (f & fh & hash & l & _ & _ & _ & _ & Hh' & -> & _). cbn.
    by exists p, (prepared tr).
Qed.

End Order.
End KeepDocs.

(** * Taking a federation over from its documents
      ([crates/fa-client/src/backup.rs], [backup_worker.rs])

    What one device seals another one opens, relays' answers are searched for the
    newest authentic document, and so a device that reads one relay which holds
    the newest document restores exactly it. *)

Module Takeover.
Import Ledger Allocations Daemon Fa Quotes Store Requester Backup Upkeep Keeper Journal Keeping KeepRuns KeepSafe KeepDocs.

(** ** The frame *)

Lemma length_le_bytes n x : length (le_bytes n x) = n.
Proof. revert x. induction n as [|n IH]; intros x; cbn; [done|]. by rewrite IH. Qed.
Lemma from_le_le_bytes n x : 0 <= x < 256 ^ Z.of_nat n → from_le_bytes (le_bytes n x) = x.
Proof.
  revert x. induction n as [|n IH]; intros x Hx; cbn [le_bytes from_le_bytes]; [cbn in Hx; lia|].
  rewrite Nat2Z.inj_succ, Z.pow_succ_r in Hx by lia.
  rewrite IH; [pose proof (Z.div_mod x 256); lia|].
  split; [apply Z.div_pos; lia|apply Z.div_lt_upper_bound; lia].
Qed.

Section Frame.
Context {BC : BackupCodec} {BCok : BackupCodecOk}.

Lemma len_app {A} (l l' : list A) : len (l ++ l') = len l + len l'.
Proof. unfold len. rewrite length_app. lia. Qed.
Lemma len_frame encoded : len encoded <= DOCUMENT_CAPACITY → len (frame encoded) = PADDED_PLAINTEXT_LEN.
Proof.
  intros H. unfold frame. rewrite !len_app. unfold len in *. rewrite length_le_bytes, length_replicate.
  unfold DOCUMENT_CAPACITY, LEN_PREFIX in *. lia.
Qed.
Lemma existsb_replicate n : existsb (λ byte, negb (byte =? 0)) (replicate n 0) = false.
Proof. by induction n. Qed.

(** What the frame of an encoded payload is read as. *)
Lemma frame_reads encoded : len encoded <= DOCUMENT_CAPACITY →
  from_le_bytes (take 4 (frame encoded)) = len encoded ∧
  take (Z.to_nat (len encoded)) (drop 4 (frame encoded)) = encoded ∧
  existsb (λ byte, negb (byte =? 0)) (drop (Z.to_nat (len encoded)) (drop 4 (frame encoded))) = false.
Proof.
  intros H. unfold frame. rewrite take_app_length' by by rewrite length_le_bytes.
  rewrite drop_app_length' by by rewrite length_le_bytes.
  assert (Z.to_nat (len encoded) = length encoded) as -> by (unfold len; lia).
  rewrite take_app_length, drop_app_length. split_and!; [|done|apply existsb_replicate].
  apply from_le_le_bytes. split; [unfold len; lia|].
  eapply Z.le_lt_trans; [exact H|]. done.
Qed.

Lemma seal_opens key nonce p content :
  len nonce = NONCE_LEN → forallb is_byte nonce = true → seal key nonce p = Ok content →
  open_backup key content = Ok p.
Proof.
  intros Hn Hby. unfold seal. intros H. apply res_bind_Ok in H as ([] & Hv & H).
  apply res_bind_Ok in H as (encoded & He & H).
  destruct (cbor_encode p) as [e|] eqn:Hc; [|done]. injection He as ->.
  destruct (DOCUMENT_CAPACITY <? len encoded) eqn:Hl; [done|]. apply Z.ltb_ge in Hl.
  apply res_bind_Ok in H as (ct & Hct & H). destruct (encrypt _ _ _ _) as [ct'|] eqn:Henc; [|done].
  injection Hct as ->. injection H as <-.
  destruct (cipher_roundtrip _ _ _ _ _ Hn Henc) as (Hdec & Hlen & Hcb). rewrite len_frame in Hlen by done.
  assert (Hnn : length nonce = Z.to_nat NONCE_LEN) by (unfold len in Hn; lia).
  unfold open_backup, validate_blob. rewrite base64_roundtrip by by rewrite forallb_app, Hby, Hcb. cbn [ok_or mbind res_bind].
  rewrite len_app, Hn, Hlen.
  replace (NONCE_LEN + (PADDED_PLAINTEXT_LEN + TAG_LEN) =? NONCE_LEN + PADDED_PLAINTEXT_LEN + TAG_LEN)
    with true by (symmetry; apply Z.eqb_eq; lia).
  cbn [negb mbind res_bind]. rewrite <- Hnn, take_app_length, drop_app_length, Hdec.
  cbn [ok_or mbind res_bind]. rewrite len_frame, Z.eqb_refl by done. cbn [negb].
  destruct (frame_reads encoded Hl) as (-> & -> & ->).
  apply Z.ltb_ge in Hl as ->. rewrite (cbor_roundtrip _ _ Hc). cbn [ok_or mbind res_bind].
  by rewrite Z.eqb_refl, Hv.
Qed.

(** C39: a document opens under the key it was sealed with, whatever the nonce,
    to exactly the payload that was sealed. *)
Theorem sealed_document_opens key nonce p content :
  len nonce = NONCE_LEN → forallb is_byte nonce = true → seal key nonce p = Ok content →
  open_backup key content = Ok p.
Proof. apply seal_opens. Qed.

(** ** The choice *)

(** A relay that answered holds an authentic event of document [p]. *)
Definition held (key author : Z) (reads : list (option (list BackupEvent))) (p : BackupPayload)
    : Prop :=
  ∃ events e, Some events ∈ reads ∧ e ∈ events ∧ authentic key author e = Some p.
Definition at_least (best : option BackupPayload) (q : BackupPayload) : Prop :=
  ∃ p, best = Some p ∧ generation q <= generation p.

Lemma at_least_better best p q : at_least best q ∨ q = p → at_least (better best p) q.
Proof.
  unfold at_least, better, generation. intros [(b & -> & H)| ->].
  - destruct (Z.ltb_spec (bp_snapshot_generation b) (bp_snapshot_generation p)); eexists; (split; [done|lia]).
  - destruct best as [b|]; [|eexists; split; [done|lia]].
    destruct (Z.ltb_spec (bp_snapshot_generation b) (bp_snapshot_generation p)); eexists; (split; [done|lia]).
Qed.
Lemma better_from best p r : better best p = Some r → r = p ∨ best = Some r.
Proof. unfold better. destruct best; [case_match|]; intros [= <-]; auto. Qed.

Lemma best_of_events_spec key author l best r :
  best_of_events key author best l = r →
  (∀ q, at_least best q ∨ (∃ e, e ∈ l ∧ authentic key author e = Some q) → at_least r q) ∧
  (∀ p, r = Some p → best = Some p ∨ ∃ e, e ∈ l ∧ authentic key author e = Some p).
Proof.
  revert best. induction l as [|e l IH]; intros best; cbn [best_of_events foldl].
  - intros <-. split; [|auto]. intros q [?|(e & He & _)]; [done|by apply not_elem_of_nil in He].
  - intros [H1 H2]%IH. split.
    + intros q Hq. apply H1. destruct Hq as [Hq|(e' & [->|He]%elem_of_cons & Ha)].
      * left. destruct (authentic key author e); [apply at_least_better; by left|done].
      * left. rewrite Ha. apply at_least_better. by right.
      * right. by exists e'.
    + intros p Hp. destruct (H2 p Hp) as [Hb|(e' & He & Ha)].
      * destruct (authentic key author e) as [q|] eqn:E; [|by left].
        apply better_from in Hb as [->|?]; [|by left]. right. exists e. by split; [left|].
      * right. exists e'. by split; [right|].
Qed.
Lemma best_of_reads_spec key author reads best n r n' :
  best_of_reads key author best n reads = (r, n') →
  (∀ q, at_least best q ∨ held key author reads q → at_least r q) ∧
  (∀ p, r = Some p → best = Some p ∨ held key author reads p) ∧
  n' = n + len (omap id reads).
Proof.
  revert best n. induction reads as [|o reads IH]; intros best n; cbn [best_of_reads].
  - intros [= <- <-]. split_and!; [|auto|unfold len; cbn; lia].
    intros q [?|(events & e & He & _)]; [done|by apply not_elem_of_nil in He].
  - destruct o as [events|]; intros (H1 & H2 & Hn)%IH.
    + destruct (best_of_events_spec key author events best _ eq_refl) as [E1 E2]. split_and!.
      * intros q [Hq|(ev & e & [[= ->]|He]%elem_of_cons & Hin & Ha)]; apply H1.
        -- left. apply E1. by left.
        -- left. apply E1. right. by exists e.
        -- right. by exists ev, e.
      * intros p Hp. destruct (H2 p Hp) as [Hb|(ev & e & He & Hin & Ha)].
        -- destruct (E2 p Hb) as [?|(e & He & Ha)]; [by left|]. right. exists events, e.
           by split; [left|].
        -- right. exists ev, e. by split; [right|].
      * rewrite Hn. unfold len. cbn. lia.
    + split_and!; [| |done].
      * intros q [Hq|(ev & e & [?|He]%elem_of_cons & Hin & Ha)]; [apply H1; by left|done|].
        apply H1. right. by exists ev, e.
      * intros p Hp. destruct (H2 p Hp) as [?|(ev & e & He & Hin & Ha)]; [by left|].
        right. exists ev, e. by split; [right|].
Qed.

(** C19: among the relays' answers a restore takes an authentic document of the
    highest generation, and only reports that there is no backup when a quorum
    of relays answered and none of them holds an authentic document. *)
Theorem restore_choice key author required reads :
  match best_of_reads key author None 0 reads with
  | (Some p, _) =>
      held key author reads p ∧
      ∀ q, held key author reads q → generation q <= generation p
  | (None, successful) =>
      (∀ q, ¬ held key author reads q) ∧
      (no_backup_or_unavailable successful required = Ok NoBackup ↔
       0 < required <= len (omap id reads))
  end.
Proof.
  destruct (best_of_reads _ _ _ _ _) as [r n] eqn:E.
  destruct (best_of_reads_spec _ _ _ _ _ _ _ E) as (H1 & H2 & ->).
  destruct r as [p|].
  - split; [by destruct (H2 p eq_refl)|]. intros q Hq.
    destruct (H1 q (or_intror Hq)) as (p' & [= <-] & ?). done.
  - split; [intros q Hq; by destruct (H1 q (or_intror Hq)) as (p' & ? & _)|].
    unfold no_backup_or_unavailable. rewrite Z.add_0_l.
    destruct (Z.ltb_spec 0 required), (Z.leb_spec required (len (omap id reads))); cbn; split; intros; done || lia.
Qed.

End Frame.

(** ** One run, uninterrupted *)


Section Restoring.
Context {CR : Crypto} {RC : RequesterCrypto} {BC : BackupCodec} {IN : Invites} {INok : InvitesOk}.
Context {BCok : BackupCodecOk} {CF : CollisionFree}.








End Restoring.
End Takeover.
