(* ===== verification/FaKeepDemo.v ===== *)
(** * Runs on a formed federation

    A client whose federation is formed asks a provider for liquidity, starts a
    guardian transfer and prepares documents, with a provider, guardians and
    codecs that answer as documented.  The runs show that the theorems about
    every run apply. *)

From S2P Require Import Prelude LmSchema LmProg LmAllocations FaSchema FaQuotes FaStore FaLiquidity FaBackup FaUpkeep FaKeeping FaKeepRuns FaKeepSafe FaKeepDocs.
From stdpp Require Import base gmap strings list countable sorting.
From Stdlib Require Import Ascii ZArith Lia.
Open Scope Z_scope.

Module KeepDemo.
Import Ledger Allocations Daemon Fa Quotes Store Requester Backup Upkeep Keeper Journal Keeping KeepRuns KeepSafe KeepDocs Takeover.

(** ** The codecs *)

Fixpoint chars (l : list Z) : string :=
  match l with [] => EmptyString | b :: l => String (ascii_of_N (Z.to_N b)) (chars l) end.
Fixpoint unchars (s : string) : list Z :=
  match s with EmptyString => [] | String c s => Z.of_N (N_of_ascii c) :: unchars s end.
Lemma unchars_chars l : forallb is_byte l = true → unchars (chars l) = l.
Proof.
  induction l as [|b l IH]; cbn; [done|]. intros [Hb Hl]%andb_true_iff. rewrite IH by done. f_equal.
  unfold is_byte in Hb. rewrite andb_true_iff, Z.leb_le, Z.ltb_lt in Hb.
  rewrite N_ascii_embedding by lia. lia.
Qed.

Lemma chars_unchars s : chars (unchars s) = s.
Proof. induction s as [|c s IH]; cbn; [done|]. by rewrite IH, N2Z.id, ascii_N_embedding. Qed.

(** Bytes that are read back from the front of a text. *)
Class ByteCodec (A : Type) := {
  enc : A -> list Z;
  dec : list Z -> option (A * list Z);
  dec_enc a l : dec (enc a ++ l) = Some (a, l);
  enc_byte a : forallb is_byte (enc a) = true
}.

(** The bits of a number, lowest first, and a mark. *)
Fixpoint bits (p : positive) : list Z :=
  match p with xH => [2] | xO p => 0 :: bits p | xI p => 1 :: bits p end.
Fixpoint unbits (l : list Z) : option (positive * list Z) :=
  match l with
  | 0 :: l => '(p, l) ← unbits l; Some (xO p, l)
  | 1 :: l => '(p, l) ← unbits l; Some (xI p, l)
  | 2 :: l => Some (xH, l)
  | _ => None
  end.
Lemma unbits_bits p l : unbits (bits p ++ l) = Some (p, l).
Proof. induction p as [p IH|p IH|]; cbn; by rewrite ?IH. Qed.
Lemma bits_byte p : forallb is_byte (bits p) = true.
Proof. by induction p. Qed.
#[local, refine] Instance Z_codec : ByteCodec Z := {
  enc z := bits (encode z);
  dec l := '(p, l) ← unbits l; z ← decode p; Some (z, l)
}.
Proof.
  - intros a l. rewrite unbits_bits. cbn. by rewrite decode_encode.
  - intros a. apply bits_byte.
Defined.
#[local, refine] Instance pair_codec {A B} `{!ByteCodec A, !ByteCodec B} : ByteCodec (A * B) := {
  enc p := enc p.1 ++ enc p.2;
  dec l := '(a, l) ← dec l; '(b, l) ← dec l; Some ((a, b), l)
}.
Proof.
  - intros [a b] l. cbn. rewrite <- app_assoc, dec_enc. cbn. by rewrite dec_enc.
  - intros [a b]. cbn. by rewrite forallb_app, !enc_byte.
Defined.
Fixpoint dec_list {A} `{!ByteCodec A} (n : nat) (l : list Z) : option (list A * list Z) :=
  match n, l with
  | S n, 0 :: l => Some ([], l)
  | S n, 1 :: l => '(a, l) ← dec l; '(r, l) ← dec_list n l; Some (a :: r, l)
  | _, _ => None
  end.
Definition enc_list {A} `{!ByteCodec A} (l : list A) : list Z := foldr (λ a r, 1 :: enc a ++ r) [0] l.
Lemma dec_enc_list {A} `{!ByteCodec A} (l : list A) n r : (length l < n)%nat →
  dec_list n (enc_list l ++ r) = Some (l, r).
Proof.
  revert n. induction l as [|a l IH]; intros [|n] Hn; cbn in *; try lia; [done|].
  rewrite <- app_assoc, dec_enc. cbn. change (foldr _ [0] l) with (enc_list l). rewrite IH by lia. done.
Qed.
Lemma length_enc_list {A} `{!ByteCodec A} (l : list A) : (length l < length (enc_list l))%nat.
Proof. induction l as [|a l IH]; cbn; [lia|]. rewrite length_app. unfold enc_list in IH. lia. Qed.
#[local, refine] Instance list_codec {A} `{!ByteCodec A} : ByteCodec (list A) := {
  enc := enc_list;
  dec l := dec_list (length l) l
}.
Proof.
  - intros a l. apply dec_enc_list. rewrite length_app. pose proof (length_enc_list a). lia.
  - intros a. induction a as [|a l IH]; cbn; [done|]. rewrite forallb_app, enc_byte. exact IH.
Defined.
(** A type whose values another one represents. *)
Definition codec_as {A B} `{!ByteCodec B} (f : A -> B) (g : B -> A) (H : ∀ a, g (f a) = a) : ByteCodec A.
Proof.
  refine {| enc a := enc (f a); dec l := '(b, l) ← dec l; Some (g b, l) |}.
  - intros a l. rewrite dec_enc. cbn. by rewrite H.
  - intros a. apply enc_byte.
Defined.

#[local] Instance string_codec : ByteCodec string := codec_as unchars chars chars_unchars.
#[local] Instance option_codec {A} `{!ByteCodec A} : ByteCodec (option A) :=
  codec_as (λ o, match o with Some a => [a] | None => [] end) head
    (λ o, match o with Some _ => eq_refl | None => eq_refl end).
#[local] Instance Locator_codec : ByteCodec Locator :=
  codec_as (λ l, (service_pubkey l, endpoint_addr l))
    (λ '(k, e), {| service_pubkey := k; endpoint_addr := e |}) (λ '(Build_Locator _ _), eq_refl).
#[local] Instance BackupSeat_codec : ByteCodec BackupSeat :=
  codec_as (λ s, (bs_mg_identity s, bs_seat_id s, bs_locator s))
    (λ '(m, i, l), {| bs_mg_identity := m; bs_seat_id := i; bs_locator := l |})
    (λ '(Build_BackupSeat _ _ _), eq_refl).
#[local] Instance PastHost_codec : ByteCodec PastHost :=
  codec_as (λ h, (ph_mg_identity h, ph_holder h))
    (λ '(m, h), {| ph_mg_identity := m; ph_holder := h |}) (λ '(Build_PastHost _ _), eq_refl).
#[local] Instance FleetSeat_codec : ByteCodec FleetSeat :=
  codec_as (λ s, (fl_seat_id s, fl_peer_id s, fl_guardian_identity s, fl_mg_pubkey s, fl_role_metadata s))
    (λ '(a, b, c, d, e), {| fl_seat_id := a; fl_peer_id := b; fl_guardian_identity := c;
                            fl_mg_pubkey := d; fl_role_metadata := e |})
    (λ '(Build_FleetSeat _ _ _ _ _), eq_refl).
#[local] Instance Details_codec : ByteCodec FederationLiquidityDetails :=
  codec_as (λ s, (fd_invite_code s, fd_federation_id s, fd_federation_name s,
                  fd_federation_config_hash s, fd_fleet_seat_hints s, fd_revocation_locations s))
    (λ '(a, b, c, d, e, f), {| fd_invite_code := a; fd_federation_id := b; fd_federation_name := c;
       fd_federation_config_hash := d; fd_fleet_seat_hints := e; fd_revocation_locations := f |})
    (λ '(Build_FederationLiquidityDetails _ _ _ _ _ _), eq_refl).
#[local] Instance Bounds_codec : ByteCodec LiquidityAmountBounds :=
  codec_as (λ a, (ab_gateway_min_amount a, ab_gateway_max_amount a, ab_stability_min_amount a,
                  ab_stability_max_amount a))
    (λ '(a, b, c, d), {| ab_gateway_min_amount := a; ab_gateway_max_amount := b;
                         ab_stability_min_amount := c; ab_stability_max_amount := d |})
    (λ '(Build_LiquidityAmountBounds _ _ _ _), eq_refl).
#[local] Instance Network_codec : ByteCodec BitcoinNetwork :=
  codec_as (λ n, match n with Bitcoin => 0 | Testnet => 1 | Signet => 2 | Regtest => 3 end)
    (λ z, if z =? 0 then Bitcoin else if z =? 1 then Testnet else if z =? 2 then Signet else Regtest)
    (λ n, match n with Bitcoin => eq_refl | Testnet => eq_refl | Signet => eq_refl | Regtest => eq_refl end).
#[local] Instance Commitment_codec : ByteCodec LiquidityCommitment :=
  codec_as (λ c, (lc_version c, lc_requester_pubkey c, lc_provider_pubkey c, lc_network c,
                  lc_amounts c, lc_federation_details c, lc_expires_at c))
    (λ '(a, b, c, d, e, f, g), {| lc_version := a; lc_requester_pubkey := b; lc_provider_pubkey := c;
       lc_network := d; lc_amounts := e; lc_federation_details := f; lc_expires_at := g |})
    (λ '(Build_LiquidityCommitment _ _ _ _ _ _ _), eq_refl).
#[local] Instance Payload_codec : ByteCodec BackupPayload :=
  codec_as (λ p, (bp_schema_version p, bp_snapshot_generation p, bp_federation_invite p,
                  bp_seats p, bp_liquidity p, bp_past_hosts p))
    (λ '(a, b, c, d, e, f), {| bp_schema_version := a; bp_snapshot_generation := b;
       bp_federation_invite := c; bp_seats := d; bp_liquidity := e; bp_past_hosts := f |})
    (λ '(Build_BackupPayload _ _ _ _ _ _), eq_refl).

(** A digest without collisions: the bits of the numbers in pairs. *)
Fixpoint push (p q : positive) : positive :=
  match p with xH => xO (xO q) | xO p => xO (xI (push p q)) | xI p => xI (xI (push p q)) end.
Lemma push_inj p p' q q' : push p q = push p' q' → p = p' ∧ q = q'.
Proof.
  revert p'. induction p as [p IH|p IH|]; intros [p'|p'|]; cbn; try done; intros E; simplify_eq.
  - by destruct (IH p') as [-> ->].
  - by destruct (IH p') as [-> ->].
  - done.
Qed.
Definition digest (l : list Z) : positive := foldr (λ z q, push (encode z) q) xH l.
Lemma digest_inj l l' : digest l = digest l' → l = l'.
Proof.
  revert l'. induction l as [|z l IH]; intros [|z' l']; cbn; [done|by destruct (encode z')|by destruct (encode z)|].
  intros [->%(inj encode) ->%IH]%push_inj. done.
Qed.

#[local] Instance demo_crypto : Crypto := {
  verifies k q := sq_signature q =? k;
  response_verifies k r := sp_signature r =? k;
  payload_sha256 t := qt_quote_nonce t;
  sha256 l := Zpos (digest l)
}.
#[local] Instance demo_digest : CollisionFree.
Proof. intros l l' E. apply digest_inj. by injection E. Qed.
Definition no_tag : list Z := replicate 16 0.
#[local] Instance demo_codec : BackupCodec := {
  cbor_encode p := Some (enc p);
  cbor_decode b := '(p, rest) ← dec b; Some (p, len b - len rest);
  encrypt _ _ _ m := if forallb is_byte m then Some (m ++ no_tag) else None;
  decrypt _ _ _ c := Some (take (length c - 16) c);
  base64_encode := chars;
  base64_decode s := Some (unchars s);
  event_verifies e := be_proof e =? 1
}.
#[local] Instance demo_codec_ok : BackupCodecOk.
Proof.
  split.
  - intros p b H. unfold cbor_encode, demo_codec in H. assert (b = enc p) as -> by congruence.
    unfold cbor_decode, demo_codec. pose proof (dec_enc p []) as E. rewrite app_nil_r in E. rewrite E. cbn. by rewrite Z.sub_0_r.
  - intros key nonce aad m c _. unfold encrypt, decrypt, demo_codec. destruct (forallb is_byte m) eqn:Hm; [|done]. intros [= <-].
    rewrite length_app. replace (length m + length no_tag - 16)%nat with (length m) by (cbn; lia).
    rewrite take_app_length, len_app, forallb_app, Hm. done.
  - intros b Hb. cbn. by rewrite unchars_chars.
Qed.

(** Every invite is to the one federation. *)
#[local] Instance demo_invites : Invites := {
  invite_federation_id _ := Some "fed"%string;
  dial_invite saved _ := Some saved
}.
#[local] Instance demo_invites_ok : InvitesOk.
Proof. by intros saved config invite federation _ [= <-]. Qed.

(** The hash of the one request, 64 hexadecimal digits. *)
Definition request_id : string :=
  "aaaaaaaaaaaaaaaabbbbbbbbbbbbbbbbccccccccccccccccdddddddddddddddd"%string.
#[local] Instance demo_requester : RequesterCrypto := {
  key_text k :=
    if (k =? 42)%Z then "fa"%string else if (k =? 100)%Z then "mg-a"%string
    else if (k =? 101)%Z then "mg-b"%string else "mg-c"%string;
  details_hash _ := Some request_id;
  response_signed _ r := lr_signature r =? 1;
  status_signed _ r := ls_signature r =? 1
}.

(** ** The federation *)

Definition row (i : Z) : StoredSeat :=
  {| ss_index := i; ss_locator := {| service_pubkey := 100 + i; endpoint_addr := 1 |};
     ss_admission := {| ad_mg_id := 100 + i; ad_holder := Some (1000 + i);
                        ad_verifier_provenance := Production; ad_valid_until := 2000;
                        ad_state := Fa.Fresh |};
     ss_signed_quote := None; ss_seat_id := Some (200 + i); ss_guardian_fee_account := None;
     ss_guardian_code := None; ss_replacement_for := None; ss_previous_locator := None;
     ss_previous_mg_id := None; ss_replacement_approved := false |}.
Definition formation : StoredFormation :=
  {| sf_schema_version := STORAGE_SCHEMA_VERSION; sf_fa_id := Some 42; sf_formation_id := "f";
     sf_phase := PublishingSeatBindings;
     sf_intent :=
       {| in_federation_name := "ours"; in_federation_size := 2; in_plan := PreferInfiniteBestEffort;
          in_fedimintd_versions :=
            {| vr_minimum := {| vc_major := 0; vc_minor := 8; vc_patch := 0 |};
               vr_maximum_exclusive := {| vc_major := 0; vc_minor := 9; vc_patch := 0 |} |};
          in_fedimintd_dkg_version := {| dv_major := 0; dv_minor := 8; dv_vendor := Some "fedi" |};
          in_max_total_msats := None |};
     sf_seat_count := 2; sf_payment_federation_id := None; sf_payment_authorization := None;
     sf_payment_reservation_id := None; sf_release_intended := false;
     sf_authorization_recorded := false; sf_outputs_started := false; sf_invite_code := Some "invite";
     sf_formation_meta_target := None; sf_dkg_completion_callback := Present None |}%string.
Definition seats : gmap (string * Z) StoredSeat :=
  {[ ("f"%string, 0) := row 0; ("f"%string, 1) := row 1 ]}.

(** What consensus says while guardian 100 or its replacement 102 holds the first
    seat. *)
Definition view (first : string) : FederationView :=
  {| fv_network := Regtest; fv_federation_id := "fed"; fv_config_hash := "config";
     fv_bindings := [{| vb_peer_id := "0"; vb_guardian_identity := "g0"; vb_mg_pubkey := first |};
                     {| vb_peer_id := "1"; vb_guardian_identity := "g1"; vb_mg_pubkey := "mg-b" |}];
     fv_name := Some "ours"; fv_config := 1 |}%string.
Definition amounts : LiquidityAmountBounds :=
  {| ab_gateway_min_amount := 1000; ab_gateway_max_amount := None; ab_stability_min_amount := 0;
     ab_stability_max_amount := None |}.
Definition completed : AllocationStatus :=
  {| as_details_payload_hash := request_id; as_provider_pubkey := "provider";
     as_item_statuses :=
       [{| ai_target := GatewayTarget "item" "gateway" "name" 1000; ai_status := ItemCompleted;
           ai_fulfilled_amount := Some 1000;
           ai_completion_evidence := Some (GatewayEvidence "gateway" "api" 1000 5000 900 None None);
           ai_failure := None; ai_updated_at := 900 |}] |}%string.

(** A provider that [accepts] or never received the request, at time [now]. *)
Definition reply (accepts : bool) (now : Z) (first : string) (r : Req) : FaError + Reply r :=
  match r return FaError + Reply r with
  | DiscoverProvider _ _ _ _ => inr "endpoint"%string
  | ReadFederation _ => inr (view first)
  | CollectMgTrust _ => inr tt
  | ConnectProvider _ => inr tt
  | GetAllocationStatus _ _ _ _ => inr StatusNotFound
  | RequestLiquidity r =>
      if accepts then
        inr {| lr_version := 1; lr_details_payload_hash := lq_details_payload_hash r;
               lr_provider_pubkey := lc_provider_pubkey (lq_commitment r); lr_issued_at := now;
               lr_outcome := OutcomeAccepted completed; lr_signature := 1 |}
      else inl Liquidity
  | RequireTrustRefresh => inr tt
  | RegisterGateway _ => inr tt
  | FetchBackups _ => inr []
  end.
Definition oracle (accepts : bool) (now : Z) (first : string) (c : Ext) : Ans c :=
  match c return Ans c with
  | Send _ => tt
  | Recv r => reply accepts now first r
  | Now => now
  | RandomOwner => 7
  | InTime => true
  | RemovingSource => 0
  | PublicKey => Some 42
  | Sign => inr tt
  | Fresh => None
  | Publish _ => tt
  end.
Lemma oracle_honest accepts now first c : honest_answer c (oracle accepts now first c).
Proof. by destruct c as [|[]| | | | | | | |]. Qed.

(** ** Runs *)

Definition choose (choice : Choice) (s : Node) : Node := default s (act choice s).
Definition step (o : ∀ c, Ans c) (s : Node) : option Node :=
  match n_running s with
  | None => None
  | Some (Done _) => act Finish s
  | Some (Stmt _ _) => act Exec s
  | Some (Call _ _) => act (Answer o) s
  end.
Fixpoint play (o : ∀ c, Ans c) (n : nat) (s : Node) : Node :=
  match n with
  | O => s
  | S n => match step o s with Some s' => play o n s' | None => s end
  end.

(** States that were reached with honest answers. *)
Definition Reached (s : Node) : Prop := reachable s ∧ honest (n_trace s).
Lemma honest_event e tr : honest tr →
  match e with ECall c a _ => honest_answer c a | _ => True end → honest (e :: tr).
Proof. intros H He c a d [<-|Hin]%elem_of_cons; [exact He|by eapply H]. Qed.
Lemma act_reached c s s' : Reached s → act c s = Some s' →
  (∀ o, c = Answer o → ∀ e, honest_answer e (o e)) → Reached s'.
Proof.
  intros [Hr Hh] Ha Ho. split; [by eapply later_act|]. destruct s as [d fresh running tr]. cbn in Hh.
  destruct c as [h| |busy|o| | |w|h]; destruct running as [[]|]; cbn in Ha; try discriminate Ha;
    repeat match type of Ha with context [run_tx ?t ?d] => destruct (run_tx t d) as [? r] end;
    injection Ha as <-; cbn; try done; try (by apply honest_event);
    try (destruct r as [[]| |]; cbn; repeat apply honest_event; done).
  apply honest_event; [done|]. destruct c; try done. by apply (Ho o).
Qed.
Lemma choose_reached c s : (∀ o, c ≠ Answer o) → Reached s → Reached (choose c s).
Proof.
  intros Hc Hs. unfold choose. destruct (act c s) as [s'|] eqn:E; [|done].
  eapply act_reached; [done..|]. intros o ->. by destruct (Hc o).
Qed.
Lemma play_reached accepts now first n s : Reached s → Reached (play (oracle accepts now first) n s).
Proof.
  revert s. induction n as [|n IH]; intros s Hs; cbn; [done|].
  destruct (step _ s) as [s'|] eqn:E; [|done]. apply IH. unfold step in E.
  destruct (n_running s) as [[]|]; [..|done]; eapply act_reached; try done.
  intros o [= <-]. apply oracle_honest.
Qed.
Lemma opened_reached : Reached opened.
Proof. split; [constructor|]. by intros c a d ?%not_elem_of_nil. Qed.

Definition formed_node : Node :=
  choose (Other (ConfirmFormation "f")) (choose (Other (Assemble (Some formation) seats)) opened).
Lemma formed_reached : Reached formed_node.
Proof. by apply choose_reached, choose_reached, opened_reached. Qed.

(** The provider accepts and completes at once, then a transfer is started. *)
Definition ask (s : Node) : Node := choose (Start (StartLiquidity "f" "provider" amounts)) s.
Definition asked : Node :=
  play (oracle true 1000 "mg-a") 300 (ask (choose (Work (PrepareBackup 500)) formed_node)).
Definition transfer (stage : TransferStage) : StoredGuardianTransfer :=
  {| gt_transfer_id := 1; gt_seat_index := 0; gt_source_seat_id := 200; gt_stage := stage; gt_rest := 0 |}.
Definition transferring : Node :=
  play (oracle true 1000 "mg-a") 300 (choose (Start (BeginTransfer 42 (transfer Buying))) asked).
Lemma asked_reached : Reached asked.
Proof. apply play_reached. by apply choose_reached, choose_reached, formed_reached. Qed.
Lemma transferring_reached : Reached transferring.
Proof. apply play_reached. by apply choose_reached, asked_reached. Qed.

(** The provider never answers, and much later does not know the request. *)
Definition refused : Node := play (oracle false 1000 "mg-a") 300 (ask formed_node).
Definition expired : Node :=
  play (oracle false 100000 "mg-a") 300 (choose (Start (ResumeLiquidity request_id)) refused).
Lemma expired_reached : Reached expired.
Proof.
  apply play_reached. apply choose_reached; [done|]. apply play_reached.
  by apply choose_reached, formed_reached.
Qed.

(** The client stops before the provider answered; a document is prepared for
    the unanswered request, and one much later. *)
Definition documented : Node :=
  choose (Work (PrepareBackup 3000000)) (choose (Work (PrepareBackup 600)) (choose Crash
    (play (oracle false 1000 "mg-a") 300 (ask (choose (Work (PrepareBackup 500)) formed_node))))).
Lemma documented_reached : Reached documented.
Proof.
  do 3 (apply choose_reached; [done|]). apply play_reached.
  by apply choose_reached, choose_reached, formed_reached.
Qed.

Lemma choose_later c s : later s (choose c s).
Proof.
  unfold choose. destruct (act c s) as [s'|] eqn:E; [|constructor]. eapply later_act; [constructor|done].
Qed.
Lemma play_later o n s : later s (play o n s).
Proof.
  revert s. induction n as [|n IH]; intros s; cbn; [constructor|].
  destruct (step o s) as [s'|] eqn:E; [|constructor]. eapply later_trans; [|apply IH].
  unfold step in E. destruct (n_running s) as [[]|]; [..|done]; (eapply later_act; [constructor|exact E]).
Qed.
Lemma asked_transferring : later asked transferring.
Proof. eapply later_trans; [apply choose_later|apply play_later]. Qed.

#[local] Opaque asked transferring expired documented.

(** ** The theorems at these runs *)

Definition row_of (s : Node) : StoredLiquidityOperation :=
  match d_liquidity (n_db s) !! request_id with
  | Some o => o
  | None => prepared_operation "" "" {| lc_version := 0; lc_requester_pubkey := ""; lc_provider_pubkey := "";
      lc_network := Bitcoin; lc_amounts := amounts;
      lc_federation_details := {| fd_invite_code := ""; fd_federation_id := ""; fd_federation_name := "";
        fd_federation_config_hash := ""; fd_fleet_seat_hints := []; fd_revocation_locations := [] |};
      lc_expires_at := 0 |}%string None
  end.
Definition has_row (s : Node) : bool :=
  match d_liquidity (n_db s) !! request_id with Some _ => true | None => false end.
Lemma row_of_has s : has_row s = true → d_liquidity (n_db s) !! request_id = Some (row_of s).
Proof. unfold has_row, row_of. by destruct (_ !! _). Qed.

Lemma one_live_request_witness :
  ∃ v, snapshot (row_of transferring) = Ok v ∧ is_complete v = true.
Proof.
  destruct (one_live_request transferring request_id (row_of transferring)) as (_ & _ & H).
  - apply transferring_reached.
  - apply transferring_reached.
  - apply row_of_has. by vm_compute.
  - by vm_compute.
  - apply H. apply (proj1 (bool_decide_eq_true (is_Some _))). by vm_compute.
Defined.

Definition is_request (e : Event) : bool :=
  match e with ECall (Send (RequestLiquidity _)) _ _ => true | _ => false end.
Lemma some_request tr : existsb is_request tr = true →
  ∃ r a d, ECall (Send (RequestLiquidity r)) a d ∈ tr.
Proof.
  intros (e & Hin & He)%existsb_exists. destruct e as [| |[[] | | | | | | | | |] a d|]; try done.
  eexists _, a, d. by apply list_elem_of_In.
Qed.
Lemma asked_sent : existsb is_request (n_trace asked) = true.
Proof. by vm_compute. Qed.
Lemma requests_are_journaled_witness :
  ∃ r d o, d_liquidity d !! lq_details_payload_hash r = Some o ∧ lo_response o = None.
Proof.
  destruct (some_request _ asked_sent) as (r & a & d & Hin).
  destruct (requests_are_journaled asked r a d) as (o & Ho & _ & _ & Hn & _).
  - apply asked_reached.
  - apply asked_reached.
  - exact Hin.
  - exists r, d, o. split; assumption.
Defined.

Lemma acceptance_is_permanent_witness :
  ∃ o', d_liquidity (n_db transferring) !! request_id = Some o' ∧ durably_accepted o' = true.
Proof.
  destruct (acceptance_is_permanent asked transferring request_id (row_of asked)) as (o' & Ho & _ & Ha & _).
  - apply asked_reached.
  - apply asked_transferring.
  - apply transferring_reached.
  - apply row_of_has. by vm_compute.
  - by vm_compute.
  - exists o'. split; assumption.
Defined.

Lemma marks_have_evidence_witness :
  ∃ now d, ECall Now now d ∈ n_trace expired ∧
    is_past_expiry_grace (lo_commitment (row_of expired)) now = true.
Proof.
  destruct (marks_have_evidence expired request_id (row_of expired)) as (H & _).
  - apply expired_reached.
  - apply expired_reached.
  - apply row_of_has. by vm_compute.
  - apply H; by vm_compute.
Defined.

(** No statement of these runs is on a restored record. *)
Definition own_record (e : Event) : bool :=
  match e with
  | EStmt d _ =>
      match d_formed d with
      | Some f => match ff_origin f with ThisDevice => true | FromBackup => false end
      | None => true
      end
  | _ => true
  end.
Lemma own_careful tr : forallb own_record tr = true → careful tr.
Proof.
  intros H%Is_true_true%forallb_True e He. rewrite Forall_forall in H. specialize (H e He).
  destruct e as [d d'| | |]; cbn in *; try done. intros f f' _ Hf _ Ho. by rewrite Hf, Ho in H.
Qed.
Lemma documented_careful : careful (n_trace documented).
Proof. apply own_careful. by vm_compute. Qed.

Lemma documents_are_ordered_witness :
  generation <$> documents (n_trace documented) = [2; 2; 1] ∧
  StronglySorted newer (documents (n_trace documented)).
Proof.
  split; [by vm_compute|]. apply documents_are_ordered; [apply documented_reached..|].
  apply documented_careful.
Defined.

Lemma announcements_supersede_witness :
  pb_created_at <$> prepared (n_trace documented) = [2592600; 600; 500] ∧
  StronglySorted supersedes (prepared (n_trace documented)).
Proof. split; [by vm_compute|]. apply announcements_supersede; apply documented_reached. Defined.

(** ** The newest document on a relay *)

Definition blank : BackupPayload :=
  {| bp_schema_version := 1; bp_snapshot_generation := 1; bp_federation_invite := "invite";
     bp_seats := []; bp_liquidity := None; bp_past_hosts := [] |}%string.
Definition newest : BackupPayload := default blank (head (documents (n_trace documented))).

Lemma le_bytes_byte n x : forallb is_byte (le_bytes n x) = true.
Proof.
  revert x. induction n as [|n IH]; intros x; cbn [le_bytes forallb]; [done|]. rewrite IH, andb_true_r.
  unfold is_byte. pose proof (Z.mod_pos_bound x 256). rewrite andb_true_iff, Z.leb_le, Z.ltb_lt. lia.
Qed.
Definition nonce : list Z := replicate 24 1.
Lemma demo_seals key n p : validate_payload p = Ok tt → len (enc p) <= DOCUMENT_CAPACITY →
  ∃ content, seal key n p = Ok content.
Proof.
  intros Hv Hl. unfold seal. rewrite Hv. cbn [mbind res_bind]. unfold cbor_encode, demo_codec.
  cbn [ok_or mbind res_bind]. apply Z.ltb_ge in Hl as ->. unfold encrypt.
  assert (forallb is_byte (frame (enc p)) = true) as ->; [|by eexists].
  unfold frame. rewrite !forallb_app, le_bytes_byte, enc_byte, !andb_true_l.
  generalize (Z.to_nat (DOCUMENT_CAPACITY - len (enc p))). intros k. by induction k.
Qed.
Definition sealed : string := match seal 7 nonce newest with Ok c => c | _ => EmptyString end.
Lemma newest_sealed : seal 7 nonce newest = Ok sealed.
Proof.
  unfold sealed. destruct (demo_seals 7 nonce newest) as [c ->]; [by vm_compute| |done].
  apply Z.leb_le. by vm_compute.
Qed.
Lemma sealed_document_opens_witness : open_backup 7 sealed = Ok newest.
Proof.
  apply (sealed_document_opens 7 nonce newest sealed); [by vm_compute|by vm_compute|exact newest_sealed].
Defined.

#[local] Opaque sealed newest.

(** ** A restored record whose seat is rebound *)


End KeepDemo.
